(* ===== verification/_CoqProject ===== *)
-Q . S2P
Prelude.v
CString.v
Riscv.v
Kalloc.v
BufCache.v
Sleeplock.v
Bio.v
Log.v
LogCrash.v
Spinlock.v
Ring.v
Pipe.v
Uart.v
Console.v
Vm.v
UserMem.v
Kvm.v
Proc.v
ProcOps.v
Txn.v
Fs.v
FsBlocks.v
FsFiles.v
FsInode.v
FsIO.v
FsSpec.v
File.v
Sched.v
Lifecycle.v
Printf.v
SysArgs.v
SysProc.v
Exec.v
SysFile.v
Syscall.v
Frame.v
FileRefs.v
SyscallSpec.v
Grep.v
Umalloc.v
Virtio.v
VirtioSpec.v
VirtioInit.v
Sh.v
ShRun.v
Hart.v
Trap.v
TrapSpec.v
Mkfs.v
MkfsSpec.v
