(* ===== verification/Prelude.v ===== *)
(** * A verification of an xv6 kernel, its tools and its shell

    The program is the teaching operating system xv6 for RISC-V, with three system calls
    added (tracing, [sysinfo] and a greeting): a kernel ([src/kernel]), user programs
    ([src/user]) and the program that makes the file system image ([src/mkfs]).

    ** How the parts fit together

    A user program traps into the kernel through [trampoline.S]; [trap.c] handles the
    interrupt, the fault or the system call, which [syscall.c] dispatches to [sysproc.c]
    and [sysfile.c].  Those use the process table ([proc.c]), open files and pipes
    ([file.c], [pipe.c]), the file system ([fs.c]), the log ([log.c]), the buffer cache
    ([bio.c]) and the disk ([virtio_disk.c]); memory is [kalloc.c] and [vm.c], the console
    is [console.c] and [uart.c].

    ** How the code is modelled

    A routine is a function of the monad [M] of this file: from a state to a result, a
    panic, a sleep ([Blocked]) or the end of the fuel.  C integers are [Z] with the wrap
    of their width written out.  A component's state is a record; lenses ([zoom]) embed it
    in the state of the component that uses it.  An array index out of bounds is a panic
    "undefined behaviour".  Memory is a map from addresses to bytes where aliasing or
    layout matters (page tables, user memory, the heap, the disk's queue).  Concurrency is
    a step relation: one step per access to shared state (Spinlock, Sched), per section
    between sleeps under the component's lock (Pipe, Virtio, Console), per call of the
    driver (Uart), and per call of an operation or of the body of [commit], which runs
    without the log's lock (LogCrash).  Elsewhere a routine is sequential.

    Loops that are not structural take fuel.  Each definition that supplies fuel says why
    it is enough, and the theorems conclude [Ret], so that fuel never runs out under their
    hypotheses: one round per byte or per block of the range for copies and file I/O, the
    number of entries for scans, the length of the line for the shell's parser, one byte
    per round for [iappend] of [mkfs].

    Interfaces are type classes: [BufCache] is what the log needs of the buffer cache,
    implemented by [Bio]; [Txn] is what the file system needs of the log, implemented by
    [Log].  The file system is proved against [Txn] and instantiated with the log over the
    buffer cache.

    ** The files

    - Prelude, CString, Riscv, Ring: integers, the monad, lists; byte memory and the
      routines of [string.c] and [ulib.c]; page geometry; ring buffers.
    - Kalloc, Vm, UserMem, Kvm: [kalloc.c] and [vm.c].  Free and owned pages partition the
      memory; copies between kernel and user succeed exactly when the user may access every
      byte; [fork]'s copy, growth and release of an address space conserve pages; the
      kernel's page table maps what it should.
    - BufCache, Sleeplock, Bio: the abstract cache and [bio.c], which refines it.
    - Log, LogCrash, Txn: [log.c]; after a crash at any disk write recovery gives the
      contents at a commit, and recovery may itself be interrupted; operations wait
      exactly while one commits or the log could run out.
    - Fs, FsBlocks, FsFiles, FsInode, FsIO, FsSpec: [fs.c]; block allocation, block maps,
      inodes on disk, and what [readi] and [writei] promise.  [writei] is specified for a
      source that can be read in full, [readi] for any destination.
    - Mkfs, MkfsSpec: [mkfs.c]; the image is a volume with the given files, which the
      kernel mounts and reads.
    - Spinlock, Sched, Proc, ProcOps, Lifecycle: [spinlock.c] and [proc.c]; mutual
      exclusion, one CPU per process, no lost wake-up, every runnable process runs;
      the process table, [fork], [exit] and [wait].
    - Pipe, File, SysArgs, SysProc, SysFile, Exec, Syscall: [pipe.c], [file.c],
      [sysproc.c], [sysfile.c], [exec.c], [syscall.c].
    - Frame, FileRefs, SyscallSpec: what the routines leave alone; every system call keeps
      reference counts and descriptors right; the dispatch, against a table of numbers,
      names and handlers.
    - Uart, Console, Printf: [uart.c], [console.c], [kernel/printf.c], [user/printf.c].
    - Virtio, VirtioSpec, VirtioInit: [virtio_disk.c] with the device; transfers are
      right under any interleaving, and the calls under way can always complete.
    - Hart, Trap, TrapSpec: the core with its control registers and address translation
      ([riscv.h], [start.c]); [trap.c], [plic.c], [trampoline.S], [kernelvec.S]
      instruction by instruction; interrupts are transparent, system calls get their
      arguments and return to the next instruction, faults kill the process.
    - Grep, Umalloc, Sh, ShRun: [grep.c], [umalloc.c], [sh.c]: what [grep] selects, safety
      of [malloc] and [free] below 2 GB, the shell's grammar as a round trip, its
      termination and bounds, and the processes it makes, with their descriptors, waits
      and exits, also when [fork], [pipe], [open] or [exec] fail.

    ** Parameters

    The addresses the linker chooses, the memory of the buffers and of locals whose
    address is taken, and what other processes do while one is off the processor are
    arguments of the definitions that use them.  Devices are modelled from how the drivers
    use them: the disk always reports success, so the check of its status in
    [virtio_disk_intr] never fires.  What a process finds when it is back from [yield] is
    what TrapSpec's [resumes] asks of the scheduler; Sched has the checks of [sched] and the
    switch.  The host of [mkfs] is little endian and its writes succeed.

    ** Not modelled

    Messages that are printed before a panic or a failing return ("ialloc: no inodes",
    "balloc: out of blocks", the address in [uvmunmap], the shell's "leftovers"), except
    those of [usertrap] and [syscall].  [entry.S], the order of the calls in [main.c] and the registers [swtch.S] saves: the
    scheduler has the switch as one step.  The stubs [usys.S] that [usys.pl] generates.
    [init.c], [initcode.S] and the small programs ([cat], [ls], [wc] and the like), which
    loop over input and make system calls.  The test programs ([usertests.c], [grind.c]
    and others), which have no contract of their own.  Headers with prototypes, linker
    scripts, the Makefile and the grading scripts.  Timing, caches and weak memory: steps
    are sequentially consistent, as the code's fences and locks are meant to ensure.

    ** This file

    Machine integers at the widths the C code uses, the state-and-outcome monad
    in which the kernel's routines are written, lenses that embed a component's
    state in a larger one, loops with an early exit, and the generic lemmas and
    tactics the component files share. *)

From stdpp Require Export base tactics numbers list gmap strings.

#[global] Open Scope Z_scope.

(** ** Machine integers *)

(** Conversion to an unsigned integer of the C types [uchar], [ushort],
    [uint] and [uint64], and to the signed 32-bit [int]. *)
Definition u8 (x : Z) : Z := x mod 2 ^ 8.
Definition u16 (x : Z) : Z := x mod 2 ^ 16.
Definition u32 (x : Z) : Z := x mod 2 ^ 32.
Definition u64 (x : Z) : Z := x mod 2 ^ 64.
Definition i32 (x : Z) : Z := (x + 2 ^ 31) mod 2 ^ 32 - 2 ^ 31.
Definition i64 (x : Z) : Z := (x + 2 ^ 63) mod 2 ^ 64 - 2 ^ 63.

Lemma u8_small x : 0 <= x < 2 ^ 8 -> u8 x = x.
Proof. apply Z.mod_small. Qed.
Lemma u32_small x : 0 <= x < 2 ^ 32 -> u32 x = x.
Proof. apply Z.mod_small. Qed.
Lemma u64_small x : 0 <= x < 2 ^ 64 -> u64 x = x.
Proof. apply Z.mod_small. Qed.
Lemma i32_small x : - 2 ^ 31 <= x < 2 ^ 31 -> i32 x = x.
Proof. intros H. unfold i32. rewrite Z.mod_small; lia. Qed.
Lemma u8_range x : 0 <= u8 x < 2 ^ 8.
Proof. apply Z.mod_pos_bound. lia. Qed.
Lemma u32_range x : 0 <= u32 x < 2 ^ 32.
Proof. apply Z.mod_pos_bound. lia. Qed.
Lemma u64_range x : 0 <= u64 x < 2 ^ 64.
Proof. apply Z.mod_pos_bound. lia. Qed.
Lemma i32_range x : - 2 ^ 31 <= i32 x < 2 ^ 31.
Proof. unfold i32. pose proof (Z.mod_pos_bound (x + 2 ^ 31) (2 ^ 32)). lia. Qed.

Lemma i64_range x : - 2 ^ 63 <= i64 x < 2 ^ 63.
Proof. unfold i64. pose proof (Z.mod_pos_bound (x + 2 ^ 63) (2 ^ 64)). lia. Qed.

(** Reduction modulo [2^32] and the residue modulo a power of two below it:
    what makes a ring buffer indexed by a free-running counter correct. *)
Lemma u32_mod_divide x d : 0 < d -> (d | 2 ^ 32) -> u32 x mod d = x mod d.
Proof.
  intros Hd Hdiv. unfold u32. by apply Z.mod_mod_divide.
Qed.
Lemma u64_mod_divide x d : 0 < d -> (d | 2 ^ 64) -> u64 x mod d = x mod d.
Proof.
  intros Hd Hdiv. unfold u64. by apply Z.mod_mod_divide.
Qed.

(** ** Outcomes and the kernel monad *)

(** What a kernel routine does: it returns, it calls [panic] (which prints and
    spins for ever), it would have to wait for another process or CPU, or the
    bound given to one of its loops is exhausted. *)
Inductive outcome (S A : Type) : Type :=
  | Ret (a : A) (s : S)
  | Panic (msg : string)
  | Blocked (chan : string) (s : S)
  | NoFuel.
Arguments Ret {S A}.
Arguments Panic {S A}.
Arguments Blocked {S A}.
Arguments NoFuel {S A}.

Definition M (S A : Type) : Type := S -> outcome S A.

#[export] Instance M_ret S : MRet (M S) := fun A a s => Ret a s.
#[export] Instance M_bind S : MBind (M S) := fun A B k m s =>
  match m s with
  | Ret a s' => k a s'
  | Panic msg => Panic msg
  | Blocked c s' => Blocked c s'
  | NoFuel => NoFuel
  end.

Section ops.
Context {S : Type}.
Definition gets {A} (f : S -> A) : M S A := fun s => Ret (f s) s.
Definition modify (f : S -> S) : M S unit := fun s => Ret tt (f s).
Definition panic {A} (msg : string) : M S A := fun _ => Panic msg.
Definition sleep_on {A} (chan : string) : M S A := fun s => Blocked chan s.
Definition when (b : bool) (m : M S unit) : M S unit := if b then m else mret tt.

(** An access outside an array has no meaning in C; the model stops there. *)
Definition undefined {A} : M S A := panic "undefined behaviour".
Definition arr_get {A} (f : S -> list A) (i : nat) : M S A := fun s =>
  match f s !! i with Some x => Ret x s | None => undefined s end.
Definition arr_set {A} (l : list A) (i : nat) (x : A) (k : list A -> M S unit) : M S unit :=
  if decide (i < length l)%nat then k (<[i := x]> l) else undefined.
End ops.

(** Total correctness: the routine returns, and in a state satisfying [Q]. *)
Definition wp {S A} (m : M S A) (Q : A -> S -> Prop) (s : S) : Prop :=
  match m s with Ret a s' => Q a s' | _ => False end.

Section wp_rules.
Context {S : Type}.

Lemma wp_bind {A B} (m : M S A) (k : A -> M S B) Q s :
  wp m (fun a s' => wp (k a) Q s') s -> wp (m ≫= k) Q s.
Proof. unfold wp, mbind, M_bind. by destruct (m s). Qed.

Lemma wp_mono {A} (m : M S A) (P Q : A -> S -> Prop) s :
  (forall a s', P a s' -> Q a s') -> wp m P s -> wp m Q s.
Proof. unfold wp. destruct (m s); eauto. Qed.

Lemma wp_ret {A} (a : A) (Q : A -> S -> Prop) s : Q a s -> wp (mret a) Q s.
Proof. done. Qed.

Lemma wp_gets {A} (f : S -> A) (Q : A -> S -> Prop) s : Q (f s) s -> wp (gets f) Q s.
Proof. done. Qed.

Lemma wp_modify f (Q : unit -> S -> Prop) s : Q tt (f s) -> wp (modify f) Q s.
Proof. done. Qed.

(** [wp] is the existence of a return value and a final state. *)
Lemma wp_elim {A} (m : M S A) Q s :
  wp m Q s -> exists a s', m s = Ret a s' /\ Q a s'.
Proof. unfold wp. destruct (m s); naive_solver. Qed.

Lemma wp_intro {A} (m : M S A) (Q : A -> S -> Prop) s a s' :
  m s = Ret a s' -> Q a s' -> wp m Q s.
Proof. unfold wp. by intros ->. Qed.

Lemma bind_ret {A B} (m : M S A) (k : A -> M S B) s a s' :
  m s = Ret a s' -> (m ≫= k) s = k a s'.
Proof. unfold mbind, M_bind. by intros ->. Qed.

Lemma bind_assoc {A B C} (m : M S A) (f : A -> M S B) (g : B -> M S C) s :
  ((m ≫= f) ≫= g) s = (m ≫= (fun x => f x ≫= g)) s.
Proof. unfold mbind, M_bind. by destruct (m s). Qed.

Lemma wp_arr_get {A} (f : S -> list A) i x (Q : A -> S -> Prop) s :
  f s !! i = Some x -> Q x s -> wp (arr_get f i) Q s.
Proof. unfold wp, arr_get. by intros ->. Qed.

Lemma bind_panic {A B} (m : M S A) (k : A -> M S B) s msg :
  m s = Panic msg -> (m ≫= k) s = Panic msg.
Proof. unfold mbind, M_bind. by intros ->. Qed.
End wp_rules.

(** ** Lenses: a component's state inside a larger one *)

Record lens (S T : Type) := Lens { view : S -> T; put : T -> S -> S }.
Arguments Lens {S T}.
Arguments view {S T}.
Arguments put {S T}.

Class LensLaws {S T} (l : lens S T) := {
  view_put : forall t s, view l (put l t s) = t;
  put_view : forall s, put l (view l s) s = s;
  put_put : forall t t' s, put l t (put l t' s) = put l t s
}.

(** Run a routine of the component on the part of the state the lens selects. *)
Definition zoom {S T A} (l : lens S T) (m : M T A) : M S A := fun s =>
  match m (view l s) with
  | Ret a t => Ret a (put l t s)
  | Panic msg => Panic msg
  | Blocked c t => Blocked c (put l t s)
  | NoFuel => NoFuel
  end.

Lemma wp_zoom {S T A} (l : lens S T) (m : M T A) Q s :
  wp m (fun a t => Q a (put l t s)) (view l s) -> wp (zoom l m) Q s.
Proof. unfold wp, zoom. by destruct (m (view l s)). Qed.

(** ** Loops *)

(** [for(x in l) body], where [body] gives [Some r] to leave the enclosing
    function with [r] and [None] to go on. *)
Fixpoint for_each {S X R} (l : list X) (body : X -> M S (option R)) : M S (option R) :=
  match l with
  | [] => mret None
  | x :: l' => r ← body x; match r with Some v => mret (Some v) | None => for_each l' body end
  end.

Lemma for_each_nil {S X R} (body : X -> M S (option R)) s :
  for_each [] body s = Ret None s.
Proof. done. Qed.

(** The loop rule: [I] holds of the elements already visited at each round. *)
Lemma wp_for_each {S X R} (I : list X -> S -> Prop) (Q : option R -> S -> Prop)
    (body : X -> M S (option R)) l s :
  I [] s ->
  (forall done x rest s, l = done ++ x :: rest -> I done s ->
     wp (body x) (fun r s' => match r with
                              | Some v => Q (Some v) s'
                              | None => I (done ++ [x]) s' end) s) ->
  (forall s, I l s -> Q None s) ->
  wp (for_each l body) Q s.
Proof.
  intros H0 Hstep Hend.
  assert (forall rest done s, l = done ++ rest -> I done s ->
            wp (for_each rest body) Q s) as Hgen; [| by eapply (Hgen l [])].
  induction rest as [|x rest IH]; intros done s' Hl HI.
  - rewrite app_nil_r in Hl. subst. by apply wp_ret, Hend.
  - simpl. apply wp_bind. eapply wp_mono; [| by eapply Hstep].
    intros [v|] s'' Hr; [done|].
    apply (IH (done ++ [x])); [by rewrite <- app_assoc | done].
Qed.

(** A search: the rounds before the hit leave the state alone. *)
Lemma for_each_none {S X R} (body : X -> M S (option R)) l s :
  (forall x, x ∈ l -> body x s = Ret None s) -> for_each l body s = Ret None s.
Proof.
  induction l as [|x l IH]; intros H; [done|]. simpl. erewrite bind_ret by (apply H; left).
  apply IH. intros y Hy. apply H. by right.
Qed.

Lemma for_each_hit {S X R} (body : X -> M S (option R)) l1 x l2 s v s' :
  (forall y, y ∈ l1 -> body y s = Ret None s) -> body x s = Ret (Some v) s' ->
  for_each (l1 ++ x :: l2) body s = Ret (Some v) s'.
Proof.
  intros H1 Hx. induction l1 as [|y l1 IH]; simpl.
  - by erewrite bind_ret by exact Hx.
  - erewrite bind_ret by (apply H1; left). apply IH. intros z Hz. apply H1. by right.
Qed.

(** The first element of [0 .. n-1] with a property, if there is one. *)
Lemma seq_first (P : nat -> Prop) `{!forall i, Decision (P i)} n :
  (exists i, (i < n)%nat /\ P i /\ (forall j, (j < i)%nat -> ~ P j) /\
     exists l2, seq 0 n = seq 0 i ++ i :: l2) \/ (forall i, (i < n)%nat -> ~ P i).
Proof.
  induction n as [|n [(i & Hi & HP & Hj & l2 & E)|Hn]].
  - right. lia.
  - left. exists i. split_and!; [lia | done | done |]. exists (l2 ++ [n]). rewrite seq_S, E. simpl. by rewrite <- app_assoc.
  - destruct (decide (P n)) as [HP|HP].
    + left. exists n. split_and!; [lia | done | done |]. exists []. by rewrite seq_S.
    + right. intros i Hi. destruct (decide (i = n)) as [->|]; [done|]. apply Hn. lia.
Qed.

(** ** Spin locks as the components see them

    A component's lock is free or held.  [acquire] of a held lock would spin;
    [release] of a free one panics.  The module [Spinlock] models the
    implementation of [acquire] and [release] with several CPUs and proves that
    it provides exactly this: at most one CPU is past [acquire]. *)
Inductive spin := Free | Held.

#[export] Instance spin_eq_dec : EqDecision spin.
Proof. solve_decision. Defined.

Definition acquire {S} (l : lens S spin) : M S unit := fun s =>
  match view l s with
  | Free => Ret tt (put l Held s)
  | Held => Blocked "acquire" s
  end.

Definition release {S} (l : lens S spin) : M S unit := fun s =>
  match view l s with
  | Held => Ret tt (put l Free s)
  | Free => Panic "release"
  end.

(** ** Lists *)

Section lists.
Context {A : Type}.
Implicit Types l : list A.

Lemma list_lookup_total_app_l `{!Inhabited A} l l' i :
  (i < length l)%nat -> (l ++ l') !!! i = l !!! i.
Proof. intros. by apply lookup_total_app_l. Qed.

Lemma in_take k l x : x ∈ take k l -> x ∈ l.
Proof. intros Hx. rewrite <- (take_drop k l). apply elem_of_app. by left. Qed.

Lemma length_take_drop l (n m : nat) :
  (n + m <= length l)%nat -> length (take m (drop n l)) = m.
Proof. intros. rewrite length_take, length_drop. lia. Qed.

(** Replace the elements of [l] from position [n] on by those of [l']. *)
Definition splice l (n : nat) l' : list A := take n l ++ l' ++ drop (n + length l') l.

Lemma length_splice l n l' :
  (n + length l' <= length l)%nat -> length (splice l n l') = length l.
Proof. intros. unfold splice. rewrite !length_app, length_take, length_drop. lia. Qed.

Lemma lookup_splice_in l n l' i :
  (n + length l' <= length l)%nat -> (n <= i < n + length l')%nat ->
  splice l n l' !! i = l' !! (i - n)%nat.
Proof.
  intros. unfold splice.
  rewrite lookup_app_r by (rewrite length_take; lia).
  rewrite length_take, lookup_app_l by lia. f_equal; lia.
Qed.

Lemma lookup_splice_out l n l' i :
  (n + length l' <= length l)%nat -> (i < n \/ n + length l' <= i)%nat ->
  splice l n l' !! i = l !! i.
Proof.
  intros Hle [Hi|Hi]; unfold splice.
  - rewrite lookup_app_l by (rewrite length_take; lia). by rewrite lookup_take_lt.
  - rewrite lookup_app_r by (rewrite length_take; lia).
    rewrite lookup_app_r by (rewrite length_take; lia).
    rewrite lookup_drop, length_take. f_equal. lia.
Qed.

Lemma take_drop_splice_in l n l' :
  (n + length l' <= length l)%nat -> take (length l') (drop n (splice l n l')) = l'.
Proof.
  intros. unfold splice. rewrite drop_app_length' by (rewrite length_take; lia).
  by rewrite take_app_length.
Qed.

Lemma take_drop_splice_out l n l' m k :
  (n + length l' <= length l)%nat -> (m + k <= n \/ n + length l' <= m)%nat ->
  take k (drop m (splice l n l')) = take k (drop m l).
Proof.
  intros Hle Hd. apply list_eq. intros i.
  destruct (decide (i < k)%nat).
  - rewrite !lookup_take_lt by done. rewrite !lookup_drop.
    apply lookup_splice_out; lia.
  - by rewrite !lookup_take_ge by lia.
Qed.

(** Adjacent replacements are one; a part of what was put in comes out. *)
Lemma splice_splice l n l1 l2 : (n + length l1 + length l2 <= length l)%nat ->
  splice (splice l n l1) (n + length l1) l2 = splice l n (l1 ++ l2).
Proof.
  intros Hle. apply list_eq. intros i.
  assert (n + length (l1 ++ l2) <= length l)%nat as Hle' by (rewrite length_app; lia).
  assert (n + length l1 + length l2 <= length (splice l n l1))%nat as Hle2 by (rewrite length_splice; lia).
  destruct (decide (i < n)%nat); [by rewrite !lookup_splice_out by (done || lia)|].
  destruct (decide (i < n + length l1)%nat).
  { rewrite lookup_splice_out, !lookup_splice_in by (rewrite ?length_app; done || lia). rewrite lookup_app_l by lia. done. }
  destruct (decide (i < n + length l1 + length l2)%nat).
  - rewrite !lookup_splice_in by (rewrite ?length_app; done || lia). rewrite lookup_app_r by lia. f_equal. lia.
  - rewrite !lookup_splice_out; try done; try lia. rewrite length_app. lia.
Qed.

Lemma take_drop_splice_part l n l' m k : (n + length l' <= length l)%nat -> (m + k <= length l')%nat ->
  take k (drop (n + m) (splice l n l')) = take k (drop m l').
Proof.
  intros Hle Hk. apply list_eq. intros i. destruct (decide (i < k)%nat).
  - rewrite !lookup_take_lt by done. rewrite !lookup_drop, lookup_splice_in by lia. f_equal. lia.
  - by rewrite !lookup_take_ge by lia.
Qed.
End lists.

(** ** Little-endian encodings *)

Fixpoint le_join (bs : list Z) : Z :=
  match bs with [] => 0 | b :: bs => b + 256 * le_join bs end.

Fixpoint le_split (n : nat) (x : Z) : list Z :=
  match n with O => [] | S n => x mod 256 :: le_split n (x / 256) end.

Lemma length_le_split n x : length (le_split n x) = n.
Proof. revert x. induction n; simpl; auto. Qed.

Lemma le_join_split n x : le_join (le_split n x) = x mod 256 ^ Z.of_nat n.
Proof.
  revert x. induction n as [|n IH]; intros x; [by rewrite Z.mod_1_r|].
  cbn [le_split le_join]. rewrite IH, Nat2Z.inj_succ, Z.pow_succ_r by lia.
  rewrite Z.rem_mul_r by lia. lia.
Qed.

Definition byte_range (b : Z) : Prop := 0 <= b < 256.

Lemma le_join_range bs : Forall byte_range bs -> 0 <= le_join bs < 256 ^ Z.of_nat (length bs).
Proof.
  induction 1 as [|b bs Hb _ IH]; [simpl; lia|].
  cbn [le_join length]. rewrite Nat2Z.inj_succ, Z.pow_succ_r by lia.
  unfold byte_range in Hb. lia.
Qed.

Lemma le_split_join bs : Forall byte_range bs -> le_split (length bs) (le_join bs) = bs.
Proof.
  induction 1 as [|b bs Hb _ IH]; [done|]. unfold byte_range in Hb.
  cbn [le_split le_join length]. rewrite (Z.mul_comm 256).
  rewrite Z.mod_add, Z.div_add, Z.mod_small, Z.div_small by lia.
  by rewrite Z.add_0_l, IH.
Qed.

Lemma le_split_bytes n x : Forall byte_range (le_split n x).
Proof.
  revert x. induction n; intros x; constructor; [|done].
  apply Z.mod_pos_bound. lia.
Qed.

(** ** Characters *)

(** The code of a character constant and the bytes of a string literal. *)
Definition chr (s : string) : Z :=
  match s with String a _ => Z.of_N (Ascii.N_of_ascii a) | EmptyString => 0 end.
Fixpoint bytes (s : string) : list Z :=
  match s with String a s => Z.of_N (Ascii.N_of_ascii a) :: bytes s | EmptyString => [] end.

(** ** Automation *)

(** Decompose conjunctions and existentials of the context. *)
Ltac splits := repeat match goal with
  | H : _ /\ _ |- _ => destruct H
  | H : exists _, _ |- _ => destruct H
  end.

(** Case analysis on the boolean comparisons of the goal and the context. *)
Ltac bcase :=
  repeat match goal with
  | H : (_ =? _) = true |- _ => apply Z.eqb_eq in H
  | H : (_ =? _) = false |- _ => apply Z.eqb_neq in H
  | H : (_ <? _) = true |- _ => apply Z.ltb_lt in H
  | H : (_ <? _) = false |- _ => apply Z.ltb_ge in H
  | H : (_ <=? _) = true |- _ => apply Z.leb_le in H
  | H : (_ <=? _) = false |- _ => apply Z.leb_gt in H
  | |- context [if ?a =? ?b then _ else _] => destruct (a =? b) eqn:?
  | |- context [if ?a <? ?b then _ else _] => destruct (a <? b) eqn:?
  | |- context [if ?a <=? ?b then _ else _] => destruct (a <=? b) eqn:?
  end.

(** One symbolic step of a routine: apply the rule of its head operation. *)
Ltac wstep :=
  match goal with
  | |- wp (mbind _ _) _ _ => apply wp_bind
  | |- wp (mret _) _ _ => apply wp_ret
  | |- wp (gets _) _ _ => apply wp_gets
  | |- wp (modify _) _ _ => apply wp_modify
  | |- wp (zoom _ _) _ _ => apply wp_zoom
  end.
Ltac wsteps := repeat (wstep; simpl).

Create HintDb xv6.
Create Rewrite HintDb xv6.
#[export] Hint Resolve le_split_bytes : xv6.
#[export] Hint Rewrite @length_le_split @length_app @length_take @length_drop
  @length_replicate @length_insert : xv6.
