(* ===== verification/CString.v ===== *)
(** * CString: byte memory and the C string routines

    [kernel/string.c] and the string half of [user/ulib.c], over a byte-addressed
    memory: a C pointer is an address, [char] is the unsigned 8-bit type it is on
    RISC-V, and every loop of the source is a recursion on its bound (or on fuel,
    for the routines that run to a NUL byte).  The routines that return their
    first argument are modelled by the memory they leave. *)

From S2P Require Import Prelude.

Abbreviation mem := (gmap Z Z).

(** A byte of memory; memory that was never written reads as zero. *)
Definition rd (m : mem) (a : Z) : Z := default 0 (m !! a).

Lemma rd_insert (m : mem) a v b : rd (<[a := v]> m) b = if decide (a = b) then v else rd m b.
Proof.
  unfold rd. destruct (decide (a = b)) as [->|]; by simplify_map_eq.
Qed.
Lemma rd_insert_eq (m : mem) a v : rd (<[a := v]> m) a = v.
Proof. rewrite rd_insert. by rewrite decide_True. Qed.
Lemma rd_insert_ne (m : mem) a v b : a <> b -> rd (<[a := v]> m) b = rd m b.
Proof. intros. rewrite rd_insert. by rewrite decide_False. Qed.

(** Bytes [a .. a+n-1] as a list, and storing a list of bytes at [a]. *)
Definition rdn (m : mem) (a : Z) (n : nat) : list Z := (fun i => rd m (a + Z.of_nat i)) <$> seq 0 n.

Fixpoint wrn (m : mem) (a : Z) (bs : list Z) : mem :=
  match bs with [] => m | b :: bs => wrn (<[a := b]> m) (a + 1) bs end.

Lemma length_rdn m a n : length (rdn m a n) = n.
Proof. unfold rdn. by rewrite length_fmap, length_seq. Qed.

Lemma rdn_lookup m a n i : (i < n)%nat -> rdn m a n !! i = Some (rd m (a + Z.of_nat i)).
Proof.
  intros Hi. unfold rdn. rewrite list_lookup_fmap, lookup_seq_lt by done. done.
Qed.

Lemma rd_wrn (m : mem) a bs b :
  rd (wrn m a bs) b =
  if decide (a <= b < a + Z.of_nat (length bs)) then nth (Z.to_nat (b - a)) bs 0 else rd m b.
Proof.
  revert m a. induction bs as [|x bs IH]; intros m a; simpl.
  - by rewrite decide_False by lia.
  - rewrite IH, rd_insert. repeat case_decide; subst; try lia; try done.
    + replace (Z.to_nat (b - a)) with (S (Z.to_nat (b - (a + 1)))) by lia. done.
    + by replace (b - b) with 0 by lia.
Qed.

Lemma rdn_wrn m a bs : rdn (wrn m a bs) a (length bs) = bs.
Proof.
  apply list_eq. intros i. destruct (decide (i < length bs)%nat) as [Hi|Hi].
  - rewrite rdn_lookup, rd_wrn by done. rewrite decide_True by lia.
    replace (Z.to_nat (a + Z.of_nat i - a)) with i by lia.
    destruct (lookup_lt_is_Some_2 bs i Hi) as [x Hx]. rewrite Hx. f_equal.
    by apply nth_lookup_Some.
  - rewrite !lookup_ge_None_2; rewrite ?length_rdn; (done || lia).
Qed.

Lemma rdn_ext m m' a n : (forall i, a <= i < a + Z.of_nat n -> rd m i = rd m' i) -> rdn m a n = rdn m' a n.
Proof.
  intros H. apply list_eq. intros i. destruct (decide (i < n)%nat).
  - rewrite !rdn_lookup by done. f_equal. apply H. lia.
  - rewrite !lookup_ge_None_2; rewrite ?length_rdn; (done || lia).
Qed.

Lemma rdn_wrn_ne m a bs b n :
  (b + Z.of_nat n <= a \/ a + Z.of_nat (length bs) <= b) -> rdn (wrn m a bs) b n = rdn m b n.
Proof. intros H. apply rdn_ext. intros i Hi. rewrite rd_wrn, decide_False by lia. done. Qed.

(** The 64-bit words the kernel keeps in memory. *)
Definition ld64 (m : mem) (a : Z) : Z := le_join (rdn m a 8).
Definition st64 (m : mem) (a v : Z) : mem := wrn m a (le_split 8 v).

Lemma ld64_st64_eq m a v : ld64 (st64 m a v) a = u64 v.
Proof.
  unfold ld64, st64. rewrite <- (length_le_split 8 v) at 2. rewrite rdn_wrn, le_join_split. done.
Qed.
Lemma ld64_st64_ne m a v b : (b + 8 <= a \/ a + 8 <= b) -> ld64 (st64 m a v) b = ld64 m b.
Proof.
  intros. unfold ld64, st64. rewrite rdn_wrn_ne; [done|]. rewrite length_le_split. lia.
Qed.
Lemma rd_st64_ne m a v b : (b < a \/ a + 8 <= b) -> rd (st64 m a v) b = rd m b.
Proof.
  intros. unfold st64. rewrite rd_wrn, decide_False; [done|]. rewrite length_le_split. lia.
Qed.

(** ** kernel/string.c *)

Module KString.

Fixpoint memset_loop (m : mem) (cdst c : Z) (k : nat) (i : Z) : mem :=
  match k with
  | O => m
  | S k => memset_loop (<[cdst + i := u8 c]> m) cdst c k (i + 1)
  end.

(** [for(i = 0; i < n; i++) cdst[i] = c;] *)
Definition memset (m : mem) (dst c n : Z) : mem := memset_loop m dst c (Z.to_nat n) 0.

(** [while(n-- > 0)]: [k] is the value of [n] at the test. *)
Fixpoint memcmp_loop (m : mem) (s1 s2 : Z) (k : nat) : Z :=
  match k with
  | O => 0
  | S k => if negb (rd m s1 =? rd m s2) then rd m s1 - rd m s2
           else memcmp_loop m (s1 + 1) (s2 + 1) k
  end.

Definition memcmp (m : mem) (v1 v2 n : Z) : Z := memcmp_loop m v1 v2 (Z.to_nat n).

(** [while(n-- > 0) *--d = *--s;] and [while(n-- > 0) *d++ = *s++;] *)
Fixpoint copy_down (m : mem) (d s : Z) (k : nat) : mem :=
  match k with
  | O => m
  | S k => copy_down (<[d - 1 := rd m (s - 1)]> m) (d - 1) (s - 1) k
  end.

Fixpoint copy_up (m : mem) (d s : Z) (k : nat) : mem :=
  match k with
  | O => m
  | S k => copy_up (<[d := rd m s]> m) (d + 1) (s + 1) k
  end.

Definition memmove (m : mem) (dst src n : Z) : mem :=
  if n =? 0 then m
  else if (src <? dst) && (dst <? src + n) then
    copy_down m (dst + n) (src + n) (Z.to_nat n)
  else copy_up m dst src (Z.to_nat n).

Definition memcpy (m : mem) (dst src n : Z) : mem := memmove m dst src n.

(** [while(n > 0 && *p && *p == *q) n--, p++, q++;] then the two returns. *)
Fixpoint strncmp_loop (m : mem) (p q : Z) (k : nat) : Z :=
  match k with
  | O => 0
  | S k => if negb (rd m p =? 0) && (rd m p =? rd m q) then strncmp_loop m (p + 1) (q + 1) k
           else rd m p - rd m q
  end.

Definition strncmp (m : mem) (p q n : Z) : Z := strncmp_loop m p q (Z.to_nat n).

(** The second loop of [strncpy]: [while(n-- > 0) *s++ = 0;] *)
Fixpoint pad_loop (m : mem) (s : Z) (k : nat) : mem :=
  match k with
  | O => m
  | S k => pad_loop (<[s := 0]> m) (s + 1) k
  end.

(** The first loop, [while(n-- > 0 && ( *s++ = *t++ ) != 0);]: when the copied byte
    is NUL the loop ends with [k] further bytes to go; when [n] runs out there is
    nothing left to pad. *)
Fixpoint strncpy_loop (m : mem) (s t : Z) (k : nat) : mem :=
  match k with
  | O => m
  | S k => let c := rd m t in
           let m := <[s := c]> m in
           if negb (c =? 0) then strncpy_loop m (s + 1) (t + 1) k
           else pad_loop m (s + 1) k
  end.

Definition strncpy (m : mem) (s t n : Z) : mem := strncpy_loop m s t (Z.to_nat n).

(** [while(--n > 0 && ( *s++ = *t++ ) != 0); *s = 0;] with [k] = [n - 1] bytes
    of room before the terminator.  When the loop stops on a copied NUL the final
    store puts a second NUL in the next byte. *)
Fixpoint safestrcpy_loop (m : mem) (s t : Z) (k : nat) : mem :=
  match k with
  | O => <[s := 0]> m
  | S k => let c := rd m t in
           let m := <[s := c]> m in
           if negb (c =? 0) then safestrcpy_loop m (s + 1) (t + 1) k
           else <[s + 1 := 0]> m
  end.

Definition safestrcpy (m : mem) (s t n : Z) : mem :=
  if n <=? 0 then m else safestrcpy_loop m s t (Z.to_nat (n - 1)).

(** [for(n = 0; s[n]; n++);] *)
Fixpoint strlen_loop (fuel : nat) (m : mem) (s n : Z) : option Z :=
  match fuel with
  | O => None
  | S fuel => if rd m (s + n) =? 0 then Some n else strlen_loop fuel m s (n + 1)
  end.

Definition strlen (fuel : nat) (m : mem) (s : Z) : option Z := strlen_loop fuel m s 0.

(** *** What the routines compute *)

Lemma memset_loop_spec m dst c k i a :
  rd (memset_loop m dst c k i) a =
  if decide (dst + i <= a < dst + i + Z.of_nat k) then u8 c else rd m a.
Proof.
  revert m i. induction k as [|k IH]; intros m i; cbn [memset_loop].
  - by rewrite decide_False by lia.
  - rewrite IH, rd_insert. repeat case_decide; (done || lia).
Qed.

Lemma memset_spec m dst c n a :
  0 <= n ->
  rd (memset m dst c n) a = if decide (dst <= a < dst + n) then u8 c else rd m a.
Proof.
  intros. unfold memset. rewrite memset_loop_spec, Z.add_0_r, Z2Nat.id by done. done.
Qed.

Lemma copy_up_spec k m d s a :
  (d <= s \/ s + Z.of_nat k <= d) ->
  rd (copy_up m d s k) a =
  if decide (d <= a < d + Z.of_nat k) then rd m (s + (a - d)) else rd m a.
Proof.
  revert m d s. induction k as [|k IH]; intros m d s Hd; cbn [copy_up].
  - by rewrite decide_False by lia.
  - rewrite IH, !rd_insert by lia.
    repeat case_decide; subst; try lia; f_equal; lia.
Qed.

Lemma copy_down_spec k m d s a :
  (s <= d \/ d + Z.of_nat k <= s) ->
  rd (copy_down m d s k) a =
  if decide (d - Z.of_nat k <= a < d) then rd m (s + (a - d)) else rd m a.
Proof.
  revert m d s. induction k as [|k IH]; intros m d s Hd; cbn [copy_down].
  - by rewrite decide_False by lia.
  - rewrite IH, !rd_insert by lia.
    repeat case_decide; subst; try lia; f_equal; lia.
Qed.

Lemma memmove_rd m dst src n a :
  0 <= n ->
  rd (memmove m dst src n) a =
  if decide (dst <= a < dst + n) then rd m (src + (a - dst)) else rd m a.
Proof.
  intros Hn. unfold memmove. bcase; [by rewrite decide_False by lia|].
  destruct (src <? dst) eqn:?, (dst <? src + n) eqn:?; simpl; bcase;
    rewrite ?copy_up_spec, ?copy_down_spec, ?Z2Nat.id by lia;
    repeat case_decide; try lia; f_equal; lia.
Qed.

Lemma memcmp_loop_spec k m s1 s2 :
  (memcmp_loop m s1 s2 k = 0 /\
     forall i, 0 <= i < Z.of_nat k -> rd m (s1 + i) = rd m (s2 + i)) \/
  exists j, 0 <= j < Z.of_nat k /\
    (forall i, 0 <= i < j -> rd m (s1 + i) = rd m (s2 + i)) /\
    rd m (s1 + j) <> rd m (s2 + j) /\
    memcmp_loop m s1 s2 k = rd m (s1 + j) - rd m (s2 + j).
Proof.
  revert s1 s2. induction k as [|k IH]; intros s1 s2; cbn [memcmp_loop].
  - left. split; [done | lia].
  - destruct (rd m s1 =? rd m s2) eqn:E; simpl; bcase.
    + destruct (IH (s1 + 1) (s2 + 1)) as [[-> Heq]|(j & Hj & Hpre & Hne & ->)].
      * left. split; [done|]. intros i Hi.
        destruct (decide (i = 0)) as [->|]; [by rewrite !Z.add_0_r|].
        replace (s1 + i) with (s1 + 1 + (i - 1)) by lia.
        replace (s2 + i) with (s2 + 1 + (i - 1)) by lia. apply Heq. lia.
      * right. exists (j + 1). replace (s1 + (j + 1)) with (s1 + 1 + j) by lia.
        replace (s2 + (j + 1)) with (s2 + 1 + j) by lia. split_and!; try done; try lia.
        intros i Hi. destruct (decide (i = 0)) as [->|]; [by rewrite !Z.add_0_r|].
        replace (s1 + i) with (s1 + 1 + (i - 1)) by lia.
        replace (s2 + i) with (s2 + 1 + (i - 1)) by lia. apply Hpre. lia.
    + right. exists 0. rewrite !Z.add_0_r. split_and!; try done; lia.
Qed.

(** The bytes of the C string at [p], seen through a window of [n] bytes: they
    stop before the first NUL. *)
Fixpoint cstr (m : mem) (p : Z) (k : nat) : list Z :=
  match k with
  | O => []
  | S k => if rd m p =? 0 then [] else rd m p :: cstr m (p + 1) k
  end.

Lemma strncmp_loop_zero k m p q :
  strncmp_loop m p q k = 0 <-> cstr m p k = cstr m q k.
Proof.
  revert p q. induction k as [|k IH]; intros p q; cbn [strncmp_loop cstr]; [done|].
  destruct (rd m p =? 0) eqn:Ep, (rd m q =? 0) eqn:Eq; simpl; bcase;
    destruct (rd m p =? rd m q) eqn:E; bcase; simpl; try (split; [lia | congruence]).
  - split; [done | intros; lia].
  - rewrite IH, E. split; [by intros -> | by intros [=]].
Qed.

Lemma pad_loop_spec k m s a :
  rd (pad_loop m s k) a = if decide (s <= a < s + Z.of_nat k) then 0 else rd m a.
Proof.
  revert m s. induction k as [|k IH]; intros m s; cbn [pad_loop].
  - by rewrite decide_False by lia.
  - rewrite IH, rd_insert. repeat case_decide; (done || lia).
Qed.

Lemma cstr_ext k m m' p :
  (forall i, p <= i < p + Z.of_nat k -> rd m i = rd m' i) -> cstr m p k = cstr m' p k.
Proof.
  revert p. induction k as [|k IH]; intros p H; cbn [cstr]; [done|].
  rewrite (H p) by lia. rewrite (IH (p + 1)) by (intros; apply H; lia). done.
Qed.

Lemma length_cstr m p k : (length (cstr m p k) <= k)%nat.
Proof.
  revert p. induction k as [|k IH]; intros p; simpl; [lia|]. bcase; simpl; [lia|].
  specialize (IH (p + 1)). lia.
Qed.

(** After [strncpy], the [k] bytes at [s] are the string at [t] cut to [k] bytes
    and padded with zeros; nothing else changes. *)
Lemma strncpy_loop_spec k m s t a :
  (s + Z.of_nat k <= t \/ t + Z.of_nat k <= s) ->
  rd (strncpy_loop m s t k) a =
  if decide (s <= a < s + Z.of_nat k) then nth (Z.to_nat (a - s)) (cstr m t k) 0 else rd m a.
Proof.
  revert m s t. induction k as [|k IH]; intros m s t Hd; cbn [strncpy_loop cstr].
  - by rewrite decide_False by lia.
  - destruct (rd m t =? 0) eqn:E; bcase; cbn [negb].
    + rewrite pad_loop_spec, rd_insert.
      repeat case_decide; subst; try lia; try done;
        by destruct (Z.to_nat _).
    + rewrite IH, rd_insert by lia.
      rewrite (cstr_ext k (<[s := rd m t]> m) m) by
        (intros; rewrite rd_insert_ne; (done || lia)).
      repeat case_decide; subst; try lia; try done.
      * by replace (Z.to_nat (a - s)) with (S (Z.to_nat (a - (s + 1)))) by lia.
      * by replace (Z.to_nat (a - a)) with O by lia.
Qed.

Lemma safestrcpy_loop_spec k m s t a :
  (s + Z.of_nat k + 1 <= t \/ t + Z.of_nat k <= s) ->
  let str := cstr m t k in
  rd (safestrcpy_loop m s t k) a =
  if decide (s <= a < s + Z.of_nat (length str)) then nth (Z.to_nat (a - s)) str 0
  else if decide (a = s + Z.of_nat (length str)) then 0
  else if decide (a = s + Z.of_nat (length str) + 1 /\ (length str < k)%nat) then 0
  else rd m a.
Proof.
  revert m s t. induction k as [|k IH]; intros m s t Hd; cbn [safestrcpy_loop cstr].
  - simpl. rewrite rd_insert. repeat case_decide; (done || lia).
  - destruct (rd m t =? 0) eqn:E; bcase; cbn [negb].
    + simpl. rewrite !rd_insert. repeat case_decide; subst; (done || lia).
    + rewrite IH, rd_insert by lia.
      rewrite (cstr_ext k (<[s := rd m t]> m) m) by
        (intros; rewrite rd_insert_ne; (done || lia)).
      cbn [length]. repeat case_decide; subst; try lia; try done.
      * by replace (Z.to_nat (a - s)) with (S (Z.to_nat (a - (s + 1)))) by lia.
      * by replace (Z.to_nat (a - a)) with O by lia.
Qed.

Lemma strlen_loop_spec k m s n fuel :
  rd m (s + n + Z.of_nat k) = 0 ->
  (forall i, n <= i < n + Z.of_nat k -> rd m (s + i) <> 0) ->
  (k < fuel)%nat -> strlen_loop fuel m s n = Some (n + Z.of_nat k).
Proof.
  revert n fuel. induction k as [|k IH]; intros n [|fuel] H0 Hne Hf; try lia; cbn [strlen_loop].
  - rewrite !Z.add_0_r in *. by rewrite H0.
  - rewrite (proj2 (Z.eqb_neq _ _)) by (apply Hne; lia).
    rewrite IH; [f_equal; lia | | | lia].
    + rewrite <- H0. f_equal. lia.
    + intros. apply Hne. lia.
Qed.

End KString.

(** ** user/ulib.c *)

Module ULib.

(** [while(( *s++ = *t++ ) != 0);] *)
Fixpoint strcpy_loop (fuel : nat) (m : mem) (s t : Z) : option mem :=
  match fuel with
  | O => None
  | S fuel => let c := rd m t in
              let m := <[s := c]> m in
              if negb (c =? 0) then strcpy_loop fuel m (s + 1) (t + 1) else Some m
  end.

Definition strcpy (fuel : nat) (m : mem) (s t : Z) : option mem := strcpy_loop fuel m s t.

(** [while( *p && *p == *q ) p++, q++;] *)
Fixpoint strcmp (fuel : nat) (m : mem) (p q : Z) : option Z :=
  match fuel with
  | O => None
  | S fuel => if negb (rd m p =? 0) && (rd m p =? rd m q) then strcmp fuel m (p + 1) (q + 1)
              else Some (rd m p - rd m q)
  end.

Fixpoint strlen_loop (fuel : nat) (m : mem) (s n : Z) : option Z :=
  match fuel with
  | O => None
  | S fuel => if rd m (s + n) =? 0 then Some n else strlen_loop fuel m s (n + 1)
  end.

(** The [int] count is returned as a [uint]. *)
Definition strlen (fuel : nat) (m : mem) (s : Z) : option Z :=
  n ← strlen_loop fuel m s 0; Some (u32 n).

Fixpoint memset_loop (m : mem) (cdst c : Z) (k : nat) (i : Z) : mem :=
  match k with
  | O => m
  | S k => memset_loop (<[cdst + i := u8 c]> m) cdst c k (i + 1)
  end.

Definition memset (m : mem) (dst c n : Z) : mem := memset_loop m dst c (Z.to_nat n) 0.

(** [for(; *s; s++) if( *s == c ) return s; return 0;] *)
Fixpoint strchr (fuel : nat) (m : mem) (s c : Z) : option Z :=
  match fuel with
  | O => None
  | S fuel => if rd m s =? 0 then Some 0
              else if rd m s =? c then Some s
              else strchr fuel m (s + 1) c
  end.

(** [while('0' <= *s && *s <= '9') n = n*10 + *s++ - '0';] in [int] arithmetic. *)
Fixpoint atoi_loop (fuel : nat) (m : mem) (s n : Z) : option Z :=
  match fuel with
  | O => None
  | S fuel => if (48 <=? rd m s) && (rd m s <=? 57)
              then atoi_loop fuel m (s + 1) (i32 (n * 10 + rd m s - 48))
              else Some n
  end.

Definition atoi (fuel : nat) (m : mem) (s : Z) : option Z := atoi_loop fuel m s 0.

Fixpoint copy_up (m : mem) (dst src : Z) (k : nat) : mem :=
  match k with
  | O => m
  | S k => copy_up (<[dst := rd m src]> m) (dst + 1) (src + 1) k
  end.

Fixpoint copy_down (m : mem) (dst src : Z) (k : nat) : mem :=
  match k with
  | O => m
  | S k => copy_down (<[dst - 1 := rd m (src - 1)]> m) (dst - 1) (src - 1) k
  end.

(** [n] is an [int] here: a negative count copies nothing. *)
Definition memmove (m : mem) (vdst vsrc n : Z) : mem :=
  if vdst <? vsrc then copy_up m vdst vsrc (Z.to_nat n)
  else copy_down m (vdst + n) (vsrc + n) (Z.to_nat n).

Fixpoint memcmp_loop (m : mem) (p1 p2 : Z) (k : nat) : Z :=
  match k with
  | O => 0
  | S k => if negb (rd m p1 =? rd m p2) then rd m p1 - rd m p2
           else memcmp_loop m (p1 + 1) (p2 + 1) k
  end.

Definition memcmp (m : mem) (s1 s2 n : Z) : Z := memcmp_loop m s1 s2 (Z.to_nat n).

(** The [uint] count becomes the [int] parameter of [memmove]. *)
Definition memcpy (m : mem) (dst src n : Z) : mem := memmove m dst src (i32 n).

Lemma copy_up_eq k m d s : copy_up m d s k = KString.copy_up m d s k.
Proof. revert m d s. induction k; intros; simpl; auto. Qed.
Lemma copy_down_eq k m d s : copy_down m d s k = KString.copy_down m d s k.
Proof. revert m d s. induction k; intros; simpl; auto. Qed.

Lemma user_memmove_rd m dst src n a :
  0 <= n ->
  rd (memmove m dst src n) a =
  if decide (dst <= a < dst + n) then rd m (src + (a - dst)) else rd m a.
Proof.
  intros Hn. unfold memmove. rewrite copy_up_eq, copy_down_eq.
  bcase; rewrite ?KString.copy_up_spec, ?KString.copy_down_spec, ?Z2Nat.id by lia;
    repeat case_decide; try lia; f_equal; lia.
Qed.

(** A C string held in memory: the bytes of [str], then NUL. *)
Definition str_at (m : mem) (p : Z) (str : list Z) : Prop :=
  Forall (fun c => c <> 0) str /\ rdn m p (length str) = str /\ rd m (p + Z.of_nat (length str)) = 0.

Lemma str_at_cons m p c str :
  str_at m p (c :: str) <-> rd m p = c /\ c <> 0 /\ str_at m (p + 1) str.
Proof.
  unfold str_at, rdn. rewrite Forall_cons. cbn [length seq]. rewrite fmap_cons.
  rewrite <- fmap_S_seq, <- list_fmap_compose.
  replace (p + Z.of_nat 0) with p by lia.
  replace (p + Z.of_nat (S (length str))) with (p + 1 + Z.of_nat (length str)) by lia.
  assert ((λ i, rd m (p + Z.of_nat i)) ∘ S <$> seq 0 (length str) =
          (λ i, rd m (p + 1 + Z.of_nat i)) <$> seq 0 (length str)) as ->.
  { apply list_fmap_ext. intros i x _. simpl. f_equal. lia. }
  split.
  - intros ([Hc Hf] & [= Hp Hs] & H0). rewrite Hs. auto.
  - intros (<- & Hc & Hf & Hs & H0). rewrite Hs. auto.
Qed.

Lemma str_at_nil m p : str_at m p [] <-> rd m p = 0.
Proof.
  unfold str_at. simpl. rewrite Z.add_0_r. split; [by intros (_ & _ & ?)|].
  intros. split_and!; auto.
Qed.

Lemma strcmp_zero str1 m p q str2 fuel :
  str_at m p str1 -> str_at m q str2 -> (length str1 < fuel)%nat ->
  exists r, strcmp fuel m p q = Some r /\ (r = 0 <-> str1 = str2).
Proof.
  revert p q str2 fuel. induction str1 as [|c str1 IH]; intros p q str2 [|fuel] H1 H2 Hf;
    cbn [length] in Hf; try lia; cbn [strcmp].
  - apply str_at_nil in H1. rewrite H1. simpl. eexists. split; [done|].
    destruct str2.
    + apply str_at_nil in H2. split; [done | lia].
    + apply str_at_cons in H2 as (H2 & Hc & _). split; [lia | done].
  - apply str_at_cons in H1 as (H1 & Hc & Hs). rewrite H1.
    rewrite (proj2 (Z.eqb_neq _ _)) by done. cbn [negb andb].
    destruct str2 as [|c2 str2].
    + apply str_at_nil in H2. rewrite H2, (proj2 (Z.eqb_neq _ _)) by done.
      eexists. split; [done|]. split; [lia | done].
    + apply str_at_cons in H2 as (H2 & Hc2 & Hs2). rewrite H2.
      destruct (c =? c2) eqn:E; bcase.
      * subst c2. destruct (IH _ _ _ fuel Hs Hs2 ltac:(lia)) as (r & -> & Hr).
        eexists. split; [done|]. rewrite Hr. split; congruence.
      * eexists. split; [done|]. split; [lia | congruence].
Qed.

End ULib.

(** ** Properties *)

(** The kernel's [memmove] copies the [n] source bytes as they were before
    the call to the destination, whatever the overlap of the two ranges, and
    changes no byte outside the destination; the user library's [memmove], which
    chooses the copy direction by another test, leaves the same memory. *)
Theorem memmove_copies (m : mem) (dst src n a : Z) (Hn : 0 <= n) :
  rd (KString.memmove m dst src n) a =
    (if decide (dst <= a < dst + n) then rd m (src + (a - dst)) else rd m a) /\
  rd (ULib.memmove m dst src n) a = rd (KString.memmove m dst src n) a.
Proof. rewrite ULib.user_memmove_rd, KString.memmove_rd by done. done. Qed.

Lemma memmove_copies_witness :
  rd (KString.memmove (wrn ∅ 100 [1; 2; 3; 4]) 101 100 3) 102 = 2 /\
  rd (ULib.memmove (wrn ∅ 100 [1; 2; 3; 4]) 101 100 3) 102 = 2.
Proof.
  destruct (memmove_copies (wrn ∅ 100 [1; 2; 3; 4]) 101 100 3 102 ltac:(lia)) as [H1 H2].
  rewrite H2, H1. split; reflexivity.
Defined.

(** C35: [safestrcpy] with a positive bound always leaves a NUL-terminated string:
    the longest prefix of the source string that fits in [n - 1] bytes, with its
    terminator inside the [n] bytes of the buffer, and no byte outside the buffer
    changes. *)
Theorem safestrcpy_terminated (m : mem) (s t n : Z) (Hn : 0 < n)
    (Hd : s + n <= t \/ t + n <= s) :
  let str := KString.cstr m t (Z.to_nat (n - 1)) in
  let m' := KString.safestrcpy m s t n in
  Z.of_nat (length str) < n /\
  rdn m' s (length str) = str /\ rd m' (s + Z.of_nat (length str)) = 0 /\
  (forall a, a < s \/ s + n <= a -> rd m' a = rd m a).
Proof.
  intros str m'. subst m'. unfold KString.safestrcpy. bcase; [lia|].
  pose proof (KString.length_cstr m t (Z.to_nat (n - 1))) as Hlen. fold str in Hlen.
  assert (forall a, rd (KString.safestrcpy_loop m s t (Z.to_nat (n - 1))) a = _) as Hrd
    by (intros a; apply KString.safestrcpy_loop_spec; lia).
  fold str in Hrd. split_and!; [lia | | |].
  - apply list_eq. intros i. destruct (decide (i < length str)%nat) as [Hi|].
    + rewrite rdn_lookup, Hrd, decide_True by lia.
      replace (Z.to_nat (s + Z.of_nat i - s)) with i by lia.
      destruct (lookup_lt_is_Some_2 str i Hi) as [x Hx]. rewrite Hx. f_equal.
      by apply nth_lookup_Some.
    + rewrite !lookup_ge_None_2; rewrite ?length_rdn; (done || lia).
  - by rewrite Hrd, decide_False, decide_True by lia.
  - intros a Ha. rewrite Hrd, !decide_False by lia. done.
Qed.

Lemma safestrcpy_terminated_witness :
  let m := wrn ∅ 100 [104; 101; 108; 108; 111; 0] in
  rdn (KString.safestrcpy m 200 100 4) 200 3 = [104; 101; 108] /\
  rd (KString.safestrcpy m 200 100 4) 203 = 0.
Proof.
  pose proof (safestrcpy_terminated (wrn ∅ 100 [104; 101; 108; 108; 111; 0]) 200 100 4
                ltac:(lia) ltac:(lia)) as (_ & H1 & H2 & _).
  split; [exact H1 | exact H2].
Defined.

(** Comparison: [memcmp] is zero exactly on equal ranges, and otherwise the
    difference of the first two bytes that differ; [strncmp] is zero exactly when
    the two strings agree up to their NUL or their [n]-th byte. *)
Theorem memcmp_strncmp_correct (m : mem) (p q : Z) (n : nat) :
  let k := Z.of_nat n in
  (KString.memcmp m p q k = 0 <-> rdn m p n = rdn m q n) /\
  (KString.memcmp m p q k <> 0 -> exists j, 0 <= j < k /\ rdn m p (Z.to_nat j) = rdn m q (Z.to_nat j) /\
     KString.memcmp m p q k = rd m (p + j) - rd m (q + j)) /\
  (KString.strncmp m p q k = 0 <-> KString.cstr m p n = KString.cstr m q n).
Proof.
  intros k. unfold KString.memcmp, KString.strncmp, k. rewrite Nat2Z.id.
  assert (forall j, (forall i, 0 <= i < Z.of_nat j -> rd m (p + i) = rd m (q + i)) <->
                    rdn m p j = rdn m q j) as Hrdn.
  { intros j. split.
    - intros H. apply list_eq. intros i. destruct (decide (i < j)%nat).
      + rewrite !rdn_lookup by done. f_equal. apply H. lia.
      + rewrite !lookup_ge_None_2; rewrite ?length_rdn; (done || lia).
    - intros H i Hi. apply (f_equal (fun l => l !! Z.to_nat i)) in H.
      rewrite !rdn_lookup, !Z2Nat.id in H by lia. congruence. }
  split_and!; [| | apply KString.strncmp_loop_zero].
  - rewrite <- Hrdn.
    destruct (KString.memcmp_loop_spec n m p q) as [[-> H]|(j & Hj & _ & Hne & ->)]; [done|].
    split; [lia|]. intros H. by apply H in Hj.
  - intros Hz.
    destruct (KString.memcmp_loop_spec n m p q) as [[H _]|(j & Hj & Hpre & _ & ->)]; [done|].
    exists j. split_and!; [lia | lia | | done]. apply Hrdn. intros. apply Hpre. lia.
Qed.
