(* ===== verification/Kalloc.v ===== *)
(** * Kalloc: the physical page allocator of [kernel/kalloc.c]

    [kmem] is the lock, the head of the free list and the memory in which the
    list is threaded: [struct run] is the first word of a free page.  The build
    defines [LAB_SYSCALL] ([conf/lab.mk]), so the junk fills of [kfree] and
    [kalloc] are compiled out.  [kend] is the linker's [end] symbol.

    The invariant says that the words reached from [freelist] spell a list of
    distinct, aligned pages between [end] and [PHYSTOP]; the abstract allocator
    is that list, and the operations are shown to implement it for every
    sequence of requests. *)

From S2P Require Import Prelude CString Riscv.

Record kmem := Kmem { kmem_lock : spin; freelist : Z; kmem_mem : mem }.

Definition kmem_lockL : lens kmem spin :=
  Lens kmem_lock (fun l s => Kmem l (freelist s) (kmem_mem s)).

Definition set_freelist (r : Z) (s : kmem) : kmem := Kmem (kmem_lock s) r (kmem_mem s).
Definition set_mem (m : mem) (s : kmem) : kmem := Kmem (kmem_lock s) (freelist s) m.

#[export] Instance kmem_lockL_laws : LensLaws kmem_lockL.
Proof. split; by intros; destruct s || destruct s0. Qed.

Section Kalloc.
Variable kend : Z.

(** [((uint64)pa % PGSIZE) != 0 || (char* )pa < end || (uint64)pa >= PHYSTOP] *)
Definition bad_page (pa : Z) : bool :=
  negb (pa mod PGSIZE =? 0) || (pa <? kend) || (PHYSTOP <=? pa).

Definition kfree (pa : Z) : M kmem unit :=
  if bad_page pa then panic "kfree" else
  acquire kmem_lockL;;
  modify (fun s => set_mem (st64 (kmem_mem s) pa (freelist s)) s);;
  modify (set_freelist pa);;
  release kmem_lockL.

Definition kalloc : M kmem Z :=
  acquire kmem_lockL;;
  r ← gets freelist;
  when (negb (r =? 0)) (modify (fun s => set_freelist (ld64 (kmem_mem s) r) s));;
  release kmem_lockL;;
  mret r.

(** [for(; p + PGSIZE <= (char* )pa_end; p += PGSIZE) kfree(p);] *)
Fixpoint freerange_loop (fuel : nat) (p pa_end : Z) : M kmem unit :=
  match fuel with
  | O => fun _ => NoFuel
  | S fuel => if p + PGSIZE <=? pa_end
              then kfree p;; freerange_loop fuel (p + PGSIZE) pa_end
              else mret tt
  end.

(** One round per page of the range and a last test. *)
Definition freerange (pa_start pa_end : Z) : M kmem unit :=
  freerange_loop (S (Z.to_nat ((pa_end - PGROUNDUP pa_start) / PGSIZE)))
    (PGROUNDUP pa_start) pa_end.

Definition kinit : M kmem unit :=
  modify (put kmem_lockL Free);;
  freerange kend PHYSTOP.

(** [for (r = kmem.freelist; r; r = r->next) ++n;] *)
Fixpoint count_free (fuel : nat) (m : mem) (r n : Z) : option Z :=
  match fuel with
  | O => None
  | S fuel => if r =? 0 then Some n else count_free fuel m (ld64 m r) (i32 (n + 1))
  end.

(** More rounds than there are pages below [PHYSTOP]. *)
Definition npages : nat := Z.to_nat ((PHYSTOP - KERNBASE) / PGSIZE).

Definition freemem : M kmem Z :=
  acquire kmem_lockL;;
  s ← gets id;
  match count_free (S npages) (kmem_mem s) (freelist s) 0 with
  | None => fun _ => NoFuel
  | Some n => release kmem_lockL;; mret (i32 (n * 4096))
  end.

(** ** The invariant *)

Definition page_ok (p : Z) : Prop := p mod PGSIZE = 0 /\ kend <= p < PHYSTOP.

Fixpoint chain (m : mem) (r : Z) (l : list Z) : Prop :=
  match l with
  | [] => r = 0
  | p :: l => r = p /\ chain m (ld64 m p) l
  end.

Record kinv (s : kmem) (l : list Z) : Prop := {
  kinv_lock : kmem_lock s = Free;
  kinv_chain : chain (kmem_mem s) (freelist s) l;
  kinv_nodup : NoDup l;
  kinv_pages : Forall page_ok l
}.

Context (Hend : KERNBASE <= kend <= PHYSTOP).

Lemma bad_page_false p : page_ok p -> bad_page p = false.
Proof.
  intros [Hm Hr]. unfold bad_page. rewrite Hm. simpl.
  apply orb_false_iff. split; [apply Z.ltb_ge | apply Z.leb_gt]; lia.
Qed.

Lemma bad_page_true p : ~ page_ok p -> bad_page p = true.
Proof.
  intros Hp. unfold bad_page. destruct (p mod PGSIZE =? 0) eqn:E; [|done]. simpl.
  apply Z.eqb_eq in E. apply orb_true_iff. rewrite Z.ltb_lt, Z.leb_le.
  unfold page_ok in Hp. lia.
Qed.

Lemma page_ok_bounds p : page_ok p -> 0 < p < 2 ^ 32.
Proof. intros [_ H]. unfold KERNBASE, PHYSTOP, KERNBASE in *. lia. Qed.

Lemma page_ok_apart p q : page_ok p -> page_ok q -> p <> q -> p + PGSIZE <= q \/ q + PGSIZE <= p.
Proof.
  intros [Hp _] [Hq _] Hne. unfold PGSIZE in *. Z.to_euclidean_division_equations. lia.
Qed.

(** Writing the link of a page outside the list does not disturb the list. *)
Lemma chain_st64 m l r p v :
  page_ok p -> Forall page_ok l -> p ∉ l -> chain m r l -> chain (st64 m p v) r l.
Proof.
  intros Hp. revert r. induction l as [|q l IH]; intros r Hl Hin; [done|].
  intros [-> Hc]. apply not_elem_of_cons in Hin as [Hne Hin].
  apply Forall_cons in Hl as [Hq Hl]. split; [done|].
  rewrite ld64_st64_ne; [by apply IH|].
  pose proof (page_ok_apart p q Hp Hq Hne). unfold PGSIZE in *. lia.
Qed.

Lemma chain_head m l r : chain m r l -> Forall page_ok l -> 0 <= r < 2 ^ 32.
Proof.
  destruct l as [|p l]; simpl; [lia|]. intros [-> _] [Hp _]%Forall_cons.
  pose proof (page_ok_bounds _ Hp). lia.
Qed.

(** ** The operations against the abstract list of free pages *)

Definition kfreed (p : Z) (s : kmem) : kmem := Kmem Free p (st64 (kmem_mem s) p (freelist s)).

Lemma kfree_ok p s l :
  kinv s l -> page_ok p -> p ∉ l -> kfree p s = Ret tt (kfreed p s) /\ kinv (kfreed p s) (p :: l).
Proof.
  intros [Hlk Hc Hnd Hl] Hp Hin. split.
  - unfold kfree. rewrite bad_page_false by done.
    destruct s as [lk fl m]; simpl in *. subst. done.
  - split; [done | | by constructor | by constructor].
    simpl. split; [done|]. rewrite ld64_st64_eq, u64_small.
    + by apply chain_st64.
    + pose proof (chain_head _ _ _ Hc Hl). lia.
Qed.

Lemma kfree_bad p s : ~ page_ok p -> kfree p s = Panic "kfree".
Proof. intros. unfold kfree. by rewrite bad_page_true. Qed.

Lemma kalloc_some s p l :
  kinv s (p :: l) -> exists s', kalloc s = Ret p s' /\ kinv s' l /\ kmem_mem s' = kmem_mem s.
Proof.
  intros [Hlk [Hr Hc] Hnd Hl]. subst p. apply NoDup_cons in Hnd as [_ Hnd].
  apply Forall_cons in Hl as [Hp Hl]. pose proof (page_ok_bounds _ Hp).
  exists (set_freelist (ld64 (kmem_mem s) (freelist s)) s).
  split; [|split; [by split | done]].
  unfold kalloc. destruct s as [lk fl m]; simpl in *. subst.
  unfold mbind, M_bind; simpl. by rewrite (proj2 (Z.eqb_neq fl 0)) by lia.
Qed.

Lemma kalloc_none s : kinv s [] -> kalloc s = Ret 0 s.
Proof.
  intros [Hlk Hc _ _]. destruct s as [lk fl m]; simpl in *. by subst.
Qed.

Lemma freerange_loop_ok n p fuel s l :
  let pages := (fun i => p + PGSIZE * Z.of_nat i) <$> seq 0 n in
  kinv s l -> (n < fuel)%nat -> Forall page_ok pages -> (forall q, q ∈ pages -> q ∉ l) ->
  forall e, p + PGSIZE * Z.of_nat n <= e < p + PGSIZE * Z.of_nat n + PGSIZE ->
  exists s', freerange_loop fuel p e s = Ret tt s' /\ kinv s' (reverse pages ++ l).
Proof.
  revert p fuel s l. induction n as [|n IH]; intros p [|fuel] s l pages Hs Hf Hp Hq e He; try lia.
  - cbn [freerange_loop]. rewrite (proj2 (Z.leb_gt _ _)) by (unfold PGSIZE in *; lia).
    by exists s.
  - assert (pages = p :: ((fun i => (p + PGSIZE) + PGSIZE * Z.of_nat i) <$> seq 0 n)) as Hpg.
    { subst pages. cbn [seq]. rewrite fmap_cons. f_equal; [lia|].
      rewrite <- fmap_S_seq, <- list_fmap_compose. apply list_fmap_ext.
      intros i x _. simpl. lia. }
    rewrite Hpg in *. clear pages Hpg. apply Forall_cons in Hp as [Hp Hps].
    cbn [freerange_loop]. rewrite (proj2 (Z.leb_le _ _)) by (unfold PGSIZE in *; lia).
    destruct (kfree_ok p s l Hs Hp) as [Hk Hk']; [apply Hq; left|].
    erewrite bind_ret by exact Hk.
    destruct (IH (p + PGSIZE) fuel (kfreed p s) (p :: l)) with (e := e) as (s' & Hs' & Hi).
    + done.
    + lia.
    + done.
    + intros q Hin. apply not_elem_of_cons. split; [|apply Hq; by right].
      apply list_elem_of_fmap in Hin as (i & -> & _). unfold PGSIZE. lia.
    + unfold PGSIZE in *. lia.
    + exists s'. split; [done|]. rewrite reverse_cons, <- app_assoc. done.
Qed.

Lemma count_free_ok m l r n fuel :
  chain m r l -> Forall page_ok l -> (length l < fuel)%nat ->
  0 <= n -> n + Z.of_nat (length l) < 2 ^ 31 ->
  count_free fuel m r n = Some (n + Z.of_nat (length l)).
Proof.
  revert r n fuel. induction l as [|p l IH]; intros r n [|fuel] Hc Hl Hf Hn Hb;
    cbn [length] in *; try lia; cbn [count_free].
  - simpl in Hc. subst. f_equal. simpl. lia.
  - destruct Hc as [-> Hc]. apply Forall_cons in Hl as [Hp Hl].
    pose proof (page_ok_bounds _ Hp).
    rewrite (proj2 (Z.eqb_neq p 0)) by lia.
    rewrite IH; try done; rewrite ?i32_small by lia; try lia. f_equal. lia.
Qed.

(** Distinct aligned pages below [PHYSTOP] are no more than [npages]. *)
Lemma pages_bounded l : NoDup l -> Forall page_ok l -> (length l <= npages)%nat.
Proof.
  intros Hnd Hl.
  assert (l ⊆ (fun i => KERNBASE + PGSIZE * Z.of_nat i) <$> seq 0 npages) as Hsub.
  { intros p Hp. rewrite Forall_forall in Hl. destruct (Hl p Hp) as [Hm Hr].
    apply list_elem_of_fmap. exists (Z.to_nat ((p - KERNBASE) / PGSIZE)).
    unfold npages, PHYSTOP, KERNBASE, PGSIZE in *. split.
    - Z.to_euclidean_division_equations. lia.
    - apply elem_of_seq. split; [lia|]. simpl Nat.add.
      apply Z2Nat.inj_lt; Z.to_euclidean_division_equations; lia. }
  eapply NoDup_submseteq, submseteq_length in Hsub; [|done].
  by rewrite length_fmap, length_seq in Hsub.
Qed.
End Kalloc.

(** ** The allocator under every sequence of requests *)

Section Clients.
Variable kend : Z.

(** The pages [freerange(end, PHYSTOP)] walks over. *)
Definition all_pages : list Z :=
  (fun i => PGROUNDUP kend + PGSIZE * Z.of_nat i) <$>
    seq 0 (Z.to_nat ((PHYSTOP - PGROUNDUP kend) / PGSIZE)).

(** One request of the rest of the kernel, which owns the pages it was given and
    frees only those. *)
Inductive kstep : kmem * list Z -> kmem * list Z -> Prop :=
  | kstep_alloc s own s' p : kalloc s = Ret p s' -> p <> 0 -> kstep (s, own) (s', p :: own)
  | kstep_fail s own s' : kalloc s = Ret 0 s' -> kstep (s, own) (s', own)
  | kstep_free s own1 own2 s' p :
      kfree kend p s = Ret tt s' -> kstep (s, own1 ++ p :: own2) (s', own1 ++ own2).

Context (Hend : KERNBASE <= kend <= PHYSTOP).

Lemma all_pages_ok : Forall (page_ok kend) all_pages.
Proof.
  apply Forall_forall. intros p Hp.
  apply list_elem_of_fmap in Hp as (i & -> & Hi%elem_of_seq).
  unfold PHYSTOP, KERNBASE in *.
  destruct (PGROUNDUP_range kend) as [Hr Hm]; [lia | unfold PGSIZE; lia |].
  revert Hi Hr Hm. generalize (PGROUNDUP kend). intros r Hi Hr Hm.
  unfold page_ok, PHYSTOP, KERNBASE, PGSIZE in *. split.
  - by rewrite (Z.mul_comm 4096), Z.mod_add by lia.
  - assert (Z.of_nat i < (2147483648 + 128 * 1024 * 1024 - r) / 4096) by lia.
    Z.to_euclidean_division_equations. lia.
Qed.

Lemma all_pages_nodup : NoDup all_pages.
Proof.
  apply NoDup_fmap_2; [|apply NoDup_seq].
  intros i j. unfold PGSIZE. lia.
Qed.

Lemma kinit_ok s0 :
  freelist s0 = 0 ->
  exists s1, kinit kend s0 = Ret tt s1 /\ kinv kend s1 (reverse all_pages).
Proof.
  intros H0. unfold kinit, freerange.
  destruct (PGROUNDUP_range kend) as [Hr Hm];
    [unfold KERNBASE in *; lia | unfold PHYSTOP, KERNBASE, PGSIZE in *; lia |].
  destruct (freerange_loop_ok kend Hend (Z.to_nat ((PHYSTOP - PGROUNDUP kend) / PGSIZE))
              (PGROUNDUP kend) (S (Z.to_nat ((PHYSTOP - PGROUNDUP kend) / PGSIZE)))
              (put kmem_lockL Free s0) []) with (e := PHYSTOP) as (s1 & Hs & Hi).
  - split; try done; constructor.
  - lia.
  - apply all_pages_ok.
  - intros q _. apply not_elem_of_nil.
  - revert Hr Hm. generalize (PGROUNDUP kend). intros r Hr Hm.
    unfold PHYSTOP, KERNBASE, PGSIZE in *. Z.to_euclidean_division_equations. lia.
  - exists s1. split; [exact Hs|]. by rewrite app_nil_r in Hi.
Qed.

(** The pages are shared out between the free list and the clients. *)
Definition partition (st : kmem * list Z) : Prop :=
  exists free, kinv kend st.1 free /\ free ++ st.2 ≡ₚ all_pages.

Lemma partition_facts free own :
  free ++ own ≡ₚ all_pages ->
  (forall p, p ∈ own -> page_ok kend p /\ p ∉ free) /\
  (forall p, p ∈ free -> p ∉ own) /\ NoDup own.
Proof.
  intros Hp. pose proof all_pages_nodup as Hnd. rewrite <- Hp in Hnd.
  apply NoDup_app in Hnd as (_ & Hd & Hown). split_and!; [| done | done].
  intros p Hin. split.
  - pose proof all_pages_ok as Hok. rewrite <- Hp in Hok.
    rewrite Forall_forall in Hok. apply Hok, elem_of_app. by right.
  - intros Hf. by apply (Hd p Hf).
Qed.

Lemma kstep_partition st st' : kstep st st' -> partition st -> partition st'.
Proof.
  intros Hst (free & Hk & Hp). destruct Hst as [s own s' p Ha Hne|s own s' Ha|s own1 own2 s' p Hf];
    simpl in *.
  - destruct free as [|q free].
    + rewrite (kalloc_none kend) in Ha by done. by simplify_eq.
    + destruct (kalloc_some kend Hend s q free Hk) as (s'' & Hs'' & Hk' & _).
      rewrite Ha in Hs''. simplify_eq.
      exists free. split; [done|]. simpl. rewrite <- Hp. symmetry. apply Permutation_middle.
  - destruct free as [|q free].
    + rewrite (kalloc_none kend) in Ha by done. simplify_eq. by exists [].
    + destruct (kalloc_some kend Hend s q free Hk) as (s'' & Hs'' & _).
      rewrite Ha in Hs''. simplify_eq.
      destruct Hk as [_ _ _ [Hq _]%Forall_cons].
      pose proof (page_ok_bounds kend Hend _ Hq). lia.
  - destruct (partition_facts free (own1 ++ p :: own2) Hp) as (Hown & _ & _).
    destruct (Hown p) as [Hok Hin]; [set_solver|].
    destruct (kfree_ok kend Hend p s free Hk Hok Hin) as [Hs Hk'].
    rewrite Hf in Hs. simplify_eq.
    exists (p :: free). split; [done|]. simpl. rewrite <- Hp.
    by rewrite !Permutation_middle, <- (Permutation_middle own1).
Qed.

Lemma rtc_partition st st' : rtc kstep st st' -> partition st -> partition st'.
Proof. induction 1; eauto using kstep_partition. Qed.
End Clients.

(** ** Properties *)

(** C31: [kinit] succeeds, and after any sequence of [kalloc] and [kfree] requests
    in which callers free only pages they own, the free list and the callers' pages
    are exactly the pages between [end] and [PHYSTOP], each once; [kfree] of an
    owned page succeeds, and [kalloc] returns a page no caller owns, or 0 exactly
    when no page is free. *)
Theorem kalloc_partition (kend : Z) (Hend : KERNBASE <= kend <= PHYSTOP) (s0 : kmem)
    (H0 : freelist s0 = 0) :
  exists s1, kinit kend s0 = Ret tt s1 /\
  forall s own, rtc (kstep kend) (s1, []) (s, own) ->
    exists free, kinv kend s free /\ free ++ own ≡ₚ all_pages kend /\ NoDup (free ++ own) /\
    (forall p, p ∈ own -> exists s', kfree kend p s = Ret tt s') /\
    (exists p s', kalloc s = Ret p s' /\ (p = 0 <-> free = []) /\ p ∉ own).
Proof.
  destruct (kinit_ok kend Hend s0 H0) as (s1 & Hi & Hk). exists s1. split; [done|].
  intros s own Hrtc. apply (rtc_partition kend Hend) in Hrtc as (free & Hf & Hp).
  2:{ eexists. split; [exact Hk|]. rewrite app_nil_r. apply reverse_Permutation. }
  simpl in *. exists free. destruct (partition_facts kend Hend free own Hp) as (Hown & Hfree & _).
  split_and!; [done | done | rewrite Hp; apply all_pages_nodup; lia | |].
  - intros p Hin. destruct (Hown p Hin) as [Hok Hnf].
    destruct (kfree_ok kend Hend p s free Hf Hok Hnf). eauto.
  - destruct free as [|q free].
    + exists 0, s. rewrite (kalloc_none kend) by done. split_and!; [done | done |].
      intros Hin. destruct (Hown 0 Hin) as [Hok _]. pose proof (page_ok_bounds kend Hend 0 Hok). lia.
    + destruct (kalloc_some kend Hend s q free Hf) as (s' & Hs' & _). exists q, s'.
      destruct Hf as [_ _ _ [Hq _]%Forall_cons]. pose proof (page_ok_bounds kend Hend q Hq).
      split_and!; [done | split; [lia | done] | apply Hfree; left].
Qed.

Lemma kalloc_partition_witness :
  exists s1, kinit (PHYSTOP - 8193) (Kmem Free 0 ∅) = Ret tt s1 /\
    exists free, kinv (PHYSTOP - 8193) s1 free /\ free ++ [] ≡ₚ all_pages (PHYSTOP - 8193).
Proof.
  destruct (kalloc_partition (PHYSTOP - 8193) ltac:(vm_compute; split; discriminate)
              (Kmem Free 0 ∅) eq_refl) as (s1 & H & Hr).
  exists s1. split; [exact H|].
  destruct (Hr s1 [] (rtc_refl _ _)) as (free & Hk & Hp & _). exists free. split; assumption.
Defined.

(** C21: [kfree] panics on an address that is not an allocatable page; [freemem]
    returns 4096 times the length of the free list, without overflowing its [int],
    and leaves the allocator as it was. *)
Theorem freemem_counts (kend : Z) (Hend : KERNBASE <= kend <= PHYSTOP) (s : kmem)
    (free : list Z) (Hs : kinv kend s free) :
  freemem s = Ret (4096 * Z.of_nat (length free)) s /\
  forall p, ~ page_ok kend p -> kfree kend p s = Panic "kfree".
Proof.
  split; [|intros; by apply kfree_bad].
  pose proof (pages_bounded kend Hend free (kinv_nodup _ _ _ Hs) (kinv_pages _ _ _ Hs)) as Hn.
  destruct Hs as [Hlk Hc Hnd Hl]. destruct s as [lk fl m]; simpl in *. subst lk.
  assert (Z.of_nat npages = 32768) as Hnp by (vm_compute; reflexivity).
  pose proof (count_free_ok kend Hend m free fl 0 (S npages) Hc Hl ltac:(lia) ltac:(lia) ltac:(lia))
    as Hcount.
  unfold freemem, mbind, M_bind, acquire, gets, release, id. cbn -[count_free npages].
  rewrite Hcount. cbn -[Z.mul]. unfold mret, M_ret. f_equal.
  rewrite i32_small by lia. lia.
Qed.

Lemma freemem_counts_witness :
  freemem (Kmem Free KERNBASE ∅) = Ret 4096 (Kmem Free KERNBASE ∅).
Proof.
  destruct (freemem_counts KERNBASE ltac:(vm_compute; split; discriminate)
              (Kmem Free KERNBASE ∅) [KERNBASE]) as [H _].
  - split; [reflexivity | split; reflexivity | apply NoDup_singleton |].
    apply Forall_singleton. split; [reflexivity | vm_compute; split; [discriminate | reflexivity]].
  - exact H.
Defined.

(** A freed page is handed out again with its contents, but for the link word
    in its first 8 bytes: with [LAB_SYSCALL] defined, nothing is erased between
    the previous owner and the next one. *)
Theorem kfree_kalloc_remanence (kend : Z) (Hend : KERNBASE <= kend <= PHYSTOP) (s : kmem)
    (free : list Z) (Hs : kinv kend s free) (p : Z) (Hp : page_ok kend p) (Hin : p ∉ free) :
  exists s', (kfree kend p;; kalloc) s = Ret p s' /\ kinv kend s' free /\
    forall a, p + 8 <= a < p + PGSIZE -> rd (kmem_mem s') a = rd (kmem_mem s) a.
Proof.
  destruct (kfree_ok kend Hend p s free Hs Hp Hin) as [Hf Hk].
  destruct (kalloc_some kend Hend _ _ _ Hk) as (s' & Ha & Hk' & Hm).
  exists s'. erewrite bind_ret by exact Hf. split_and!; [done | done |].
  intros a Ha'. rewrite Hm. simpl. by rewrite rd_st64_ne by lia.
Qed.

Lemma kfree_kalloc_remanence_witness :
  exists s', (kfree KERNBASE KERNBASE;; kalloc) (Kmem Free 0 (wrn ∅ (KERNBASE + 8) [115])) =
             Ret KERNBASE s' /\ rd (kmem_mem s') (KERNBASE + 8) = 115.
Proof.
  destruct (kfree_kalloc_remanence KERNBASE ltac:(vm_compute; split; discriminate)
              (Kmem Free 0 (wrn ∅ (KERNBASE + 8) [115])) []) with (p := KERNBASE)
    as (s' & H & _ & Hm).
  - split; [reflexivity | reflexivity | constructor | constructor].
  - split; [reflexivity | vm_compute; split; [discriminate | reflexivity]].
  - apply not_elem_of_nil.
  - exists s'. split; [exact H|]. rewrite Hm by (vm_compute; split; [discriminate | reflexivity]).
    reflexivity.
Defined.
