(* ===== verification/BufCache.v ===== *)
(** * BufCache: what the buffer cache promises to the log

    The log ([kernel/log.c]) and the file system use the buffer cache through
    [bread], [bwrite], [brelse], [bpin], [bunpin] and the [data] and [blockno]
    fields of the buffer they were given.  This file states that interface as a
    class of operations over a state type, and the promise as a class of laws
    against an abstract view of the cache; [Bio] is the implementation of
    [kernel/bio.c] and discharges the laws, [Log] is verified against them. *)

From S2P Require Import Prelude.

Definition BSIZE : Z := 1024.
Definition MAXOPBLOCKS : Z := 10.
Definition LOGSIZE : Z := MAXOPBLOCKS * 3.
Definition NBUF : nat := 30.
Definition ROOTDEV : Z := 1.

(** A disk block: its [BSIZE] bytes. *)
Abbreviation block := (list Z).

Definition zero_block : block := replicate (Z.to_nat BSIZE) 0.

(** The device: blocks never written read as zeros. *)
Abbreviation blocks := (gmap Z block).
Definition dread (d : blocks) (b : Z) : block := default zero_block (d !! b).

Lemma dread_insert (d : blocks) b x c : dread (<[b := x]> d) c = if decide (b = c) then x else dread d c.
Proof. unfold dread. destruct (decide (b = c)) as [->|]; by simplify_map_eq. Qed.
Lemma dread_insert_eq (d : blocks) b x : dread (<[b := x]> d) b = x.
Proof. rewrite dread_insert. by rewrite decide_True. Qed.
Lemma dread_insert_ne (d : blocks) b x c : b <> c -> dread (<[b := x]> d) c = dread d c.
Proof. intros. rewrite dread_insert. by rewrite decide_False. Qed.

(** The disk after a sequence of block writes, oldest first. *)
Definition apply_writes (ws : list (Z * block)) (d : blocks) : blocks :=
  foldl (fun d w => <[w.1 := w.2]> d) d ws.

Lemma apply_writes_app ws1 ws2 d :
  apply_writes (ws1 ++ ws2) d = apply_writes ws2 (apply_writes ws1 d).
Proof. apply foldl_app. Qed.

(** A referenced buffer: which buffer holds the block, how many references there
    are, whether the running process has it locked, and the cached contents. *)
Record bref := BRef { br_h : nat; br_cnt : Z; br_locked : bool; br_data : block }.

(** The abstract cache: the disk, the writes sent to it so far, and the
    referenced buffers by block number. *)
Record cview := CView {
  cv_disk : blocks;
  cv_writes : list (Z * block);
  cv_refs : gmap Z bref
}.

Definition set_refs (f : gmap Z bref -> gmap Z bref) (v : cview) : cview :=
  CView (cv_disk v) (cv_writes v) (f (cv_refs v)).

Class BufCache (S : Type) := {
  bread : Z -> Z -> M S nat;
  bwrite : nat -> M S unit;
  brelse : nat -> M S unit;
  bpin : nat -> M S unit;
  bunpin : nat -> M S unit;
  bdata : nat -> S -> block;
  bset : nat -> block -> M S unit;
  bblockno : nat -> S -> Z;
  boot : blocks -> S
}.

Class BufCacheLaws (S : Type) `{BufCache S} := {
  (** [cache_rep s v]: the concrete cache [s] is between operations and shows [v]. *)
  cache_rep : S -> cview -> Prop;

  boot_rep : forall d, cache_rep (boot d) (CView d [] ∅);

  rep_inj : forall s v b1 b2 r1 r2, cache_rep s v ->
    cv_refs v !! b1 = Some r1 -> cv_refs v !! b2 = Some r2 -> br_h r1 = br_h r2 -> b1 = b2;

  bread_hit : forall s v b r, cache_rep s v ->
    cv_refs v !! b = Some r -> br_locked r = false -> br_cnt r < 2 ^ 32 - 1 ->
    exists s', bread ROOTDEV b s = Ret (br_h r) s' /\
      cache_rep s' (set_refs <[b := BRef (br_h r) (br_cnt r + 1) true (br_data r)]> v);

  bread_miss : forall s v b, cache_rep s v ->
    cv_refs v !! b = None -> (size (cv_refs v) < NBUF)%nat ->
    exists h s', bread ROOTDEV b s = Ret h s' /\
      cache_rep s' (set_refs <[b := BRef h 1 true (dread (cv_disk v) b)]> v);

  bwrite_law : forall s v b r, cache_rep s v ->
    cv_refs v !! b = Some r -> br_locked r = true ->
    exists s', bwrite (br_h r) s = Ret tt s' /\
      cache_rep s' (CView (<[b := br_data r]> (cv_disk v))
                          (cv_writes v ++ [(b, br_data r)]) (cv_refs v));

  (** Dropping the last reference requires the buffer to be clean: its contents
      may be recycled at any time from then on. *)
  brelse_last : forall s v b r, cache_rep s v ->
    cv_refs v !! b = Some r -> br_locked r = true -> br_cnt r = 1 ->
    br_data r = dread (cv_disk v) b ->
    exists s', brelse (br_h r) s = Ret tt s' /\ cache_rep s' (set_refs (delete b) v);

  brelse_more : forall s v b r, cache_rep s v ->
    cv_refs v !! b = Some r -> br_locked r = true -> 1 < br_cnt r ->
    exists s', brelse (br_h r) s = Ret tt s' /\
      cache_rep s' (set_refs <[b := BRef (br_h r) (br_cnt r - 1) false (br_data r)]> v);

  bpin_law : forall s v b r, cache_rep s v ->
    cv_refs v !! b = Some r -> br_cnt r < 2 ^ 32 - 1 ->
    exists s', bpin (br_h r) s = Ret tt s' /\
      cache_rep s' (set_refs <[b := BRef (br_h r) (br_cnt r + 1) (br_locked r) (br_data r)]> v);

  bunpin_law : forall s v b r, cache_rep s v ->
    cv_refs v !! b = Some r -> 1 < br_cnt r ->
    exists s', bunpin (br_h r) s = Ret tt s' /\
      cache_rep s' (set_refs <[b := BRef (br_h r) (br_cnt r - 1) (br_locked r) (br_data r)]> v);

  bdata_law : forall s v b r, cache_rep s v ->
    cv_refs v !! b = Some r -> bdata (br_h r) s = br_data r;

  bblockno_law : forall s v b r, cache_rep s v ->
    cv_refs v !! b = Some r -> bblockno (br_h r) s = b;

  bset_law : forall s v b r x, cache_rep s v ->
    cv_refs v !! b = Some r -> br_locked r = true ->
    exists s', bset (br_h r) x s = Ret tt s' /\
      cache_rep s' (set_refs <[b := BRef (br_h r) (br_cnt r) true x]> v)
}.

(** ** The interface as a transition system

    The operations a client may call, when it may call them, and what they do to
    the abstract cache. *)

Inductive cop :=
| ORead (b : Z)
| OWrite (h : nat)
| ORelse (h : nat)
| OPin (h : nat)
| OUnpin (h : nat)
| OSet (h : nat) (x : block).

Definition cexec {S} `{BufCache S} (o : cop) : M S (option nat) :=
  match o with
  | ORead b => h ← bread ROOTDEV b; mret (Some h)
  | OWrite h => bwrite h;; mret None
  | ORelse h => brelse h;; mret None
  | OPin h => bpin h;; mret None
  | OUnpin h => bunpin h;; mret None
  | OSet h x => bset h x;; mret None
  end.

(** Handle [h] is held for block [b] as [r]. *)
Definition held (v : cview) (h : nat) (b : Z) (r : bref) : Prop :=
  cv_refs v !! b = Some r /\ br_h r = h.

Inductive cstep (v : cview) : cop -> option nat -> cview -> Prop :=
| st_hit b r :
    cv_refs v !! b = Some r -> br_locked r = false ->
    cstep v (ORead b) (Some (br_h r))
      (set_refs <[b := BRef (br_h r) (br_cnt r + 1) true (br_data r)]> v)
| st_miss b h :
    cv_refs v !! b = None ->
    cstep v (ORead b) (Some h) (set_refs <[b := BRef h 1 true (dread (cv_disk v) b)]> v)
| st_write h b r :
    held v h b r -> br_locked r = true ->
    cstep v (OWrite h) None
      (CView (<[b := br_data r]> (cv_disk v)) (cv_writes v ++ [(b, br_data r)]) (cv_refs v))
| st_last h b r :
    held v h b r -> br_locked r = true -> br_cnt r = 1 ->
    cstep v (ORelse h) None (set_refs (delete b) v)
| st_more h b r :
    held v h b r -> br_locked r = true -> 1 < br_cnt r ->
    cstep v (ORelse h) None
      (set_refs <[b := BRef h (br_cnt r - 1) false (br_data r)]> v)
| st_pin h b r :
    held v h b r ->
    cstep v (OPin h) None
      (set_refs <[b := BRef h (br_cnt r + 1) (br_locked r) (br_data r)]> v)
| st_unpin h b r :
    held v h b r -> 1 < br_cnt r ->
    cstep v (OUnpin h) None
      (set_refs <[b := BRef h (br_cnt r - 1) (br_locked r) (br_data r)]> v)
| st_set h b r x :
    held v h b r -> br_locked r = true ->
    cstep v (OSet h x) None (set_refs <[b := BRef h (br_cnt r) true x]> v).

(** What a client must know before the call. *)
Definition cready (v : cview) (o : cop) : Prop :=
  match o with
  | ORead b =>
    match cv_refs v !! b with
    | Some r => br_locked r = false /\ br_cnt r < 2 ^ 32 - 1
    | None => (size (cv_refs v) < NBUF)%nat
    end
  | OWrite h | OSet h _ => exists b r, held v h b r /\ br_locked r = true
  | ORelse h => exists b r, held v h b r /\ br_locked r = true /\
      (1 < br_cnt r \/ br_cnt r = 1 /\ br_data r = dread (cv_disk v) b)
  | OPin h => exists b r, held v h b r /\ br_cnt r < 2 ^ 32 - 1
  | OUnpin h => exists b r, held v h b r /\ 1 < br_cnt r
  end.

Lemma cache_simulates {S} `{BufCacheLaws S} (s : S) v o :
  cache_rep s v -> cready v o ->
  exists r s' v', cexec o s = Ret r s' /\ cstep v o r v' /\ cache_rep s' v'.
Proof.
  intros Hrep Hready. destruct o as [b|h|h|h|h|h x]; simpl in Hready.
  - destruct (cv_refs v !! b) as [r|] eqn:Hr.
    + destruct Hready as [Hl Hc]. destruct (bread_hit s v b r Hrep Hr Hl Hc) as (s' & He & Hs').
      do 3 eexists. split_and!; [simpl; by erewrite bind_ret by exact He | by apply st_hit | done].
    + destruct (bread_miss s v b Hrep Hr Hready) as (h & s' & He & Hs').
      do 3 eexists. split_and!; [simpl; by erewrite bind_ret by exact He | by apply st_miss | done].
  - destruct Hready as (b & r & [Hr <-] & Hl).
    destruct (bwrite_law s v b r Hrep Hr Hl) as (s' & He & Hs').
    do 3 eexists. split_and!; [simpl; by erewrite bind_ret by exact He | by eapply st_write | done].
  - destruct Hready as (b & r & [Hr <-] & Hl & [Hc|[Hc Hd]]).
    + destruct (brelse_more s v b r Hrep Hr Hl Hc) as (s' & He & Hs').
      do 3 eexists. split_and!; [simpl; by erewrite bind_ret by exact He | by eapply st_more | done].
    + destruct (brelse_last s v b r Hrep Hr Hl Hc Hd) as (s' & He & Hs').
      do 3 eexists. split_and!; [simpl; by erewrite bind_ret by exact He | by eapply st_last | done].
  - destruct Hready as (b & r & [Hr <-] & Hc).
    destruct (bpin_law s v b r Hrep Hr Hc) as (s' & He & Hs').
    do 3 eexists. split_and!; [simpl; by erewrite bind_ret by exact He | by eapply st_pin | done].
  - destruct Hready as (b & r & [Hr <-] & Hc).
    destruct (bunpin_law s v b r Hrep Hr Hc) as (s' & He & Hs').
    do 3 eexists. split_and!; [simpl; by erewrite bind_ret by exact He | by eapply st_unpin | done].
  - destruct Hready as (b & r & [Hr <-] & Hl).
    destruct (bset_law s v b r x Hrep Hr Hl) as (s' & He & Hs').
    do 3 eexists. split_and!; [simpl; by erewrite bind_ret by exact He | by eapply st_set | done].
Qed.
