(* ===== verification/Sleeplock.v ===== *)
(** * Sleeplock: the sleeping locks of [kernel/sleeplock.c]

    A sleep lock as its holder's process sees it.  [pid] is [myproc()->pid].
    A process that finds the lock taken sleeps: [acquiresleep] is then
    [Blocked]; the wake-up protocol itself belongs to the process table. *)

From S2P Require Import Prelude.

Record sleeplock := SleepLock { sl_lk : spin; sl_locked : bool; sl_pid : Z }.

#[export] Instance sleeplock_inhabited : Inhabited sleeplock := populate (SleepLock Free false 0).

Definition sl_lkL : lens sleeplock spin :=
  Lens sl_lk (fun k l => SleepLock k (sl_locked l) (sl_pid l)).

Definition initsleeplock : M sleeplock unit :=
  modify (put sl_lkL Free);;
  modify (fun l => SleepLock (sl_lk l) false (sl_pid l));;
  modify (fun l => SleepLock (sl_lk l) (sl_locked l) 0).

Definition acquiresleep (pid : Z) : M sleeplock unit :=
  acquire sl_lkL;;
  locked ← gets sl_locked;
  if (locked : bool) then release sl_lkL;; sleep_on "sleep lock" else
  modify (fun l => SleepLock (sl_lk l) true (sl_pid l));;
  modify (fun l => SleepLock (sl_lk l) (sl_locked l) pid);;
  release sl_lkL.

Definition releasesleep : M sleeplock unit :=
  acquire sl_lkL;;
  modify (fun l => SleepLock (sl_lk l) false (sl_pid l));;
  modify (fun l => SleepLock (sl_lk l) (sl_locked l) 0);;
  release sl_lkL.

Definition holdingsleep (pid : Z) : M sleeplock bool :=
  acquire sl_lkL;;
  r ← gets (fun l => sl_locked l && (sl_pid l =? pid));
  release sl_lkL;;
  mret r.

Lemma acquiresleep_free p q :
  acquiresleep p (SleepLock Free false q) = Ret tt (SleepLock Free true p).
Proof. done. Qed.
Lemma acquiresleep_taken p q : exists l, acquiresleep p (SleepLock Free true q) = Blocked "sleep lock" l.
Proof. by eexists. Qed.
Lemma releasesleep_eq b p : releasesleep (SleepLock Free b p) = Ret tt (SleepLock Free false 0).
Proof. done. Qed.
Lemma holdingsleep_eq p b q :
  holdingsleep p (SleepLock Free b q) = Ret (b && (q =? p)) (SleepLock Free b q).
Proof. done. Qed.
