(* ===== verification/Bio.v ===== *)
(** * Bio: the buffer cache of [kernel/bio.c]

    The cache is the array of [NBUF] buffers, the [prev]/[next] links of the
    buffers and of the list head (index [NBUF]), and the device, whose block
    writes are recorded in order.  A process other than the running one is never
    scheduled inside an operation: an operation that would sleep is [Blocked].
    [disk_rw] is what [virtio_disk_rw] does to the buffer and the device once
    the request completes.

    [ring] ties the links to the list of buffers in most-recently-used order,
    [bio_rep] ties the cache to the abstract view of [BufCache], and the end of
    the file shows that the operations satisfy the laws of that interface. *)

From S2P Require Import Prelude BufCache Sleeplock.

Record buf := Buf {
  valid : bool;
  dev : Z;
  blockno : Z;
  lock : sleeplock;
  refcnt : Z;
  data : block
}.

#[export] Instance buf_inhabited : Inhabited buf :=
  populate (Buf false 0 0 inhabitant 0 zero_block).

Record bio := Bio {
  bc_lock : spin;
  bufs : list buf;
  bnext : list nat;
  bprev : list nat;
  disk : blocks;
  writes : list (Z * block)
}.

Definition bc_lockL : lens bio spin :=
  Lens bc_lock (fun l s => Bio l (bufs s) (bnext s) (bprev s) (disk s) (writes s)).

(** [&bcache.head] *)
Definition head : nat := NBUF.

Definition next_of (b : nat) (s : bio) : nat := bnext s !!! b.
Definition prev_of (b : nat) (s : bio) : nat := bprev s !!! b.
Definition get_buf (b : nat) (s : bio) : buf := bufs s !!! b.

Definition set_next (b n : nat) (s : bio) : bio :=
  Bio (bc_lock s) (bufs s) (<[b := n]> (bnext s)) (bprev s) (disk s) (writes s).
Definition set_prev (b n : nat) (s : bio) : bio :=
  Bio (bc_lock s) (bufs s) (bnext s) (<[b := n]> (bprev s)) (disk s) (writes s).
Definition set_buf (b : nat) (x : buf) (s : bio) : bio :=
  Bio (bc_lock s) (<[b := x]> (bufs s)) (bnext s) (bprev s) (disk s) (writes s).
Definition set_disk (d : blocks) (w : list (Z * block)) (s : bio) : bio :=
  Bio (bc_lock s) (bufs s) (bnext s) (bprev s) d w.

Definition with_lock (l : sleeplock) (x : buf) : buf :=
  Buf (valid x) (dev x) (blockno x) l (refcnt x) (data x).
Definition with_refcnt (n : Z) (x : buf) : buf :=
  Buf (valid x) (dev x) (blockno x) (lock x) n (data x).
Definition with_data (d : block) (x : buf) : buf :=
  Buf (valid x) (dev x) (blockno x) (lock x) (refcnt x) d.
Definition with_valid (v : bool) (x : buf) : buf :=
  Buf v (dev x) (blockno x) (lock x) (refcnt x) (data x).

Definition upd (b : nat) (f : buf -> buf) : M bio unit :=
  modify (fun s => set_buf b (f (get_buf b s)) s).

Definition buf_lockL (b : nat) : lens bio sleeplock :=
  Lens (fun s => lock (get_buf b s)) (fun l s => set_buf b (with_lock l (get_buf b s)) s).

(** ** Operations *)

(** One round of the loop of [binit]. *)
Definition binit_one (b : nat) : M bio unit :=
  modify (fun s => set_next b (next_of head s) s);;
  modify (set_prev b head);;
  zoom (buf_lockL b) initsleeplock;;
  modify (fun s => set_prev (next_of head s) b s);;
  modify (set_next head b).

Definition binit : M bio unit :=
  modify (put bc_lockL Free);;
  modify (set_prev head head);;
  modify (set_next head head);;
  for_each (R := unit) (seq 0 NBUF) (fun b => binit_one b;; mret None);;
  mret tt.

(** Follow [links] from [b] until a buffer satisfies [p] or the head is reached. *)
Fixpoint scan (fuel : nat) (links : list nat) (bs : list buf) (p : buf -> bool) (b : nat)
    : option (option nat) :=
  match fuel with
  | O => None
  | S fuel =>
    if decide (b = head) then Some None
    else if p (bs !!! b) then Some (Some b)
    else scan fuel links bs p (links !!! b)
  end.

(** The round of the first loop ends at the head, after at most [NBUF] buffers. *)
Definition scan_fuel : nat := S NBUF.

Section WithPid.
Variable pid : Z.

Definition bget (dv bno : Z) : M bio nat :=
  acquire bc_lockL;;
  s ← gets id;
  match scan scan_fuel (bnext s) (bufs s)
          (fun x => (dev x =? dv) && (blockno x =? bno)) (next_of head s) with
  | None => fun _ => NoFuel
  | Some (Some b) =>
    upd b (fun x => with_refcnt (u32 (refcnt x + 1)) x);;
    release bc_lockL;;
    zoom (buf_lockL b) (acquiresleep pid);;
    mret b
  | Some None =>
    match scan scan_fuel (bprev s) (bufs s) (fun x => refcnt x =? 0) (prev_of head s) with
    | None => fun _ => NoFuel
    | Some (Some b) =>
      upd b (fun x => Buf false dv bno (lock x) 1 (data x));;
      release bc_lockL;;
      zoom (buf_lockL b) (acquiresleep pid);;
      mret b
    | Some None => panic "bget: no buffers"
    end
  end.

(** The effect of [virtio_disk_rw(b, write)]. *)
Definition disk_rw (b : nat) (write : bool) : M bio unit :=
  if write then
    modify (fun s => let x := get_buf b s in
                     set_disk (<[blockno x := data x]> (disk s))
                              (writes s ++ [(blockno x, data x)]) s)
  else
    modify (fun s => let x := get_buf b s in
                     set_buf b (with_data (dread (disk s) (blockno x)) x) s).

Definition bio_bread (dv bno : Z) : M bio nat :=
  b ← bget dv bno;
  v ← gets (fun s => valid (get_buf b s));
  when (negb v) (disk_rw b false;; upd b (with_valid true));;
  mret b.

Definition bio_bwrite (b : nat) : M bio unit :=
  h ← zoom (buf_lockL b) (holdingsleep pid);
  if negb (h : bool) then panic "bwrite" else disk_rw b true.

Definition bio_brelse (b : nat) : M bio unit :=
  h ← zoom (buf_lockL b) (holdingsleep pid);
  if negb (h : bool) then panic "brelse" else
  zoom (buf_lockL b) releasesleep;;
  acquire bc_lockL;;
  upd b (fun x => with_refcnt (u32 (refcnt x - 1)) x);;
  c ← gets (fun s => refcnt (get_buf b s));
  when (c =? 0) (
    modify (fun s => set_prev (next_of b s) (prev_of b s) s);;
    modify (fun s => set_next (prev_of b s) (next_of b s) s);;
    modify (fun s => set_next b (next_of head s) s);;
    modify (set_prev b head);;
    modify (fun s => set_prev (next_of head s) b s);;
    modify (set_next head b));;
  release bc_lockL.

Definition bio_bpin (b : nat) : M bio unit :=
  acquire bc_lockL;;
  upd b (fun x => with_refcnt (u32 (refcnt x + 1)) x);;
  release bc_lockL.

Definition bio_bunpin (b : nat) : M bio unit :=
  acquire bc_lockL;;
  upd b (fun x => with_refcnt (u32 (refcnt x - 1)) x);;
  release bc_lockL.

End WithPid.

(** The cache of a kernel that has just booted: zeroed memory, then [binit]. *)
Definition bss (d : blocks) : bio :=
  Bio Free (replicate NBUF inhabitant) (replicate (S NBUF) O) (replicate (S NBUF) O) d [].

Definition booted (d : blocks) : bio :=
  match binit (bss d) with Ret _ s => s | _ => bss d end.

(** ** The linked list *)

(** [path nx pv x l y]: from [x], the [next] links pass through [l] and reach
    [y], and the [prev] links go back. *)
Fixpoint path (nx pv : list nat) (x : nat) (l : list nat) (y : nat) : Prop :=
  match l with
  | [] => nx !! x = Some y /\ pv !! y = Some x
  | z :: l => nx !! x = Some z /\ pv !! z = Some x /\ path nx pv z l y
  end.

Lemma path_app nx pv x l1 b l2 y :
  path nx pv x (l1 ++ b :: l2) y <-> path nx pv x l1 b /\ path nx pv b l2 y.
Proof.
  revert x. induction l1 as [|z l1 IH]; intros x; simpl; [tauto|]. rewrite IH. tauto.
Qed.

Lemma path_nx_ne nx pv x l y k v :
  k <> x -> k ∉ l -> path nx pv x l y -> path (<[k := v]> nx) pv x l y.
Proof.
  revert x. induction l as [|z l IH]; intros x Hx Hl; simpl.
  - by rewrite list_lookup_insert_ne.
  - apply not_elem_of_cons in Hl as [? ?]. rewrite list_lookup_insert_ne by done.
    intros (? & ? & ?). auto.
Qed.

Lemma path_pv_ne nx pv x l y k v :
  k <> y -> k ∉ l -> path nx pv x l y -> path nx (<[k := v]> pv) x l y.
Proof.
  revert x. induction l as [|z l IH]; intros x Hx Hl; simpl.
  - by rewrite list_lookup_insert_ne.
  - apply not_elem_of_cons in Hl as [? ?]. rewrite list_lookup_insert_ne by done.
    intros (? & ? & ?). auto.
Qed.

Lemma last_cons (z d : nat) l : List.last (z :: l) d = List.last l z.
Proof.
  revert z d. induction l as [|w l IH]; intros z d; [done|].
  change (List.last (w :: l) d = List.last (w :: l) z). by rewrite !IH.
Qed.

Lemma last_in (z : nat) l : List.last l z ∈ z :: l.
Proof.
  revert z. induction l as [|w l IH]; intros z; [left|]. rewrite last_cons. right. apply IH.
Qed.

(** First and last hops of a path. *)
Lemma path_first nx pv x l y : path nx pv x l y -> nx !! x = Some (List.hd y l).
Proof. destruct l; simpl; tauto. Qed.
Lemma path_last nx pv x l y : path nx pv x l y -> pv !! y = Some (List.last l x).
Proof.
  revert x. induction l as [|z l IH]; intros x; [simpl; tauto|].
  intros (_ & _ & Hp). rewrite (IH z Hp). by rewrite last_cons.
Qed.

(** Redirect the last hop of a path. *)
Lemma path_retarget nx pv x l b y :
  path nx pv x l b -> x ∉ l -> NoDup l -> b <> y -> y ∉ l ->
  (y < length pv)%nat ->
  path (<[List.last l x := y]> nx) (<[y := List.last l x]> pv) x l y.
Proof.
  revert x. induction l as [|z l IH]; intros x Hp Hx Hnd Hb Hy Hlen.
  - simpl in *. destruct Hp as [Hn _]. split.
    + apply list_lookup_insert_eq. by eapply lookup_lt_Some.
    + by apply list_lookup_insert_eq.
  - destruct Hp as (Hn & Hv & Hp). apply NoDup_cons in Hnd as [Hz Hnd].
    apply not_elem_of_cons in Hx as [Hxz Hx]. apply not_elem_of_cons in Hy as [Hyz Hy].
    rewrite last_cons. pose proof (last_in z l) as Hin. cbn [path]. split_and!.
    + rewrite list_lookup_insert_ne; [done|]. intros Heq. rewrite Heq in Hin.
      apply elem_of_cons in Hin as [?|?]; done.
    + by rewrite list_lookup_insert_ne.
    + by apply IH.
Qed.

(** [b->next->prev = b->prev; b->prev->next = b->next;] takes [b] out. *)
Lemma path_unlink nx pv h l1 b l2 :
  path nx pv h (l1 ++ b :: l2) h -> NoDup (h :: l1 ++ b :: l2) ->
  (h < length pv)%nat -> (forall z, z ∈ l2 -> (z < length pv)%nat) ->
  path (<[List.last l1 h := List.hd h l2]> nx) (<[List.hd h l2 := List.last l1 h]> pv)
    h (l1 ++ l2) h.
Proof.
  intros Hp Hnd Hh Hl2. apply path_app in Hp as [H1 H2].
  apply NoDup_cons in Hnd as [Hhn Hnd]. apply NoDup_app in Hnd as (Hn1 & Hd & Hn2).
  apply NoDup_cons in Hn2 as [Hb Hn2].
  assert (h ∉ l1) by set_solver. assert (b <> h) by set_solver.
  destruct l2 as [|n l2]; cbn [List.hd].
  - rewrite app_nil_r. by apply path_retarget with (b := b).
  - destruct H2 as (_ & _ & H2). apply NoDup_cons in Hn2 as [Hn Hn2].
    assert (forall z, z ∈ h :: l1 -> z ∉ n :: l2) as Hsep.
    { intros z Hz Hz'. apply elem_of_cons in Hz as [->|Hz].
      - apply Hhn, elem_of_app. right. by right.
      - apply (Hd z Hz). by right. }
    apply not_elem_of_cons in Hb as [Hbn _].
    destruct (proj1 (not_elem_of_cons _ _ _) (Hsep _ (last_in h l1))) as [Hl1 Hl2'].
    destruct (proj1 (not_elem_of_cons _ _ _) (Hsep h ltac:(left))) as [Hhn' Hhl2].
    apply path_app. split.
    + apply path_retarget with (b := b); try done; [|apply Hl2; left].
      intros Hin. apply (Hsep n); [by right | left].
    + apply path_nx_ne, path_pv_ne; done.
Qed.

(** [b->next = head.next; b->prev = &head; head.next->prev = b; head.next = b;] *)
Lemma path_push nx pv h l b n :
  path nx pv h l h -> b <> h -> b ∉ l -> h ∉ l ->
  (b < length nx)%nat -> (b < length pv)%nat -> n = List.hd h l ->
  path (<[h := b]> (<[b := n]> nx)) (<[n := b]> (<[b := h]> pv)) h (b :: l) h.
Proof.
  intros Hp Hbh Hbl Hhl Hbn Hbp ->. cbn [path].
  assert (h < length nx)%nat by (eapply lookup_lt_Some, path_first, Hp).
  assert (h < length pv)%nat by (eapply lookup_lt_Some, path_last, Hp).
  split; [apply list_lookup_insert_eq; by rewrite length_insert|].
  destruct l as [|n l]; cbn [List.hd path].
  - rewrite list_lookup_insert_ne by done.
    rewrite !list_lookup_insert_eq by (rewrite ?length_insert; done).
    rewrite list_lookup_insert_ne, list_lookup_insert_eq by done. done.
  - destruct Hp as (Hn & Hv & Hp).
    apply not_elem_of_cons in Hbl as [Hbn' Hbl]. apply not_elem_of_cons in Hhl as [Hhn Hhl].
    rewrite (list_lookup_insert_ne _ n b) by done.
    rewrite (list_lookup_insert_eq _ b) by done. split; [done|].
    rewrite (list_lookup_insert_ne _ h b) by done.
    rewrite (list_lookup_insert_eq _ b) by done. split; [done|].
    rewrite list_lookup_insert_eq by (rewrite length_insert; by eapply lookup_lt_Some).
    split; [done|].
    assert (n ∉ l \/ n ∈ l) as [Hnl|Hnl] by (destruct (decide (n ∈ l)); auto).
    + apply path_nx_ne; [done | done |]. apply path_nx_ne; [done | done |].
      apply path_pv_ne; [done | done |]. by apply path_pv_ne.
    + exfalso. (* the links of [n] cannot be [h] and a list member at once *)
      apply list_elem_of_split in Hnl as (l1 & l2 & ->).
      apply path_app in Hp as [Hp _]. apply path_last in Hp. rewrite Hv in Hp.
      simplify_eq. pose proof (last_in n l1) as Hin. apply Hhl.
      apply elem_of_cons in Hin as [Hin|Hin]; [done|]. apply elem_of_app. by left.
Qed.

Lemma path_rev nx pv x l y : path nx pv x l y -> path pv nx y (rev l) x.
Proof.
  revert x. induction l as [|z l IH]; intros x; cbn [path rev]; [tauto|].
  intros (? & ? & Hp). apply path_app. split; [by apply IH | done].
Qed.

Lemma find_app_skip (f : nat -> bool) l1 l2 :
  (forall j, j ∈ l1 -> f j = false) -> List.find f (l1 ++ l2) = List.find f l2.
Proof.
  induction l1 as [|j l1 IH]; intros H; [done|]. simpl. rewrite (H j) by left.
  apply IH. intros k Hk. apply H. by right.
Qed.

(** Following the links finds the first buffer of the list that satisfies [p]. *)
Lemma scan_path fuel nx pv bs p x l :
  path nx pv x l head -> head ∉ l -> (length l < fuel)%nat ->
  scan fuel nx bs p (List.hd head l) = Some (List.find (fun b => p (bs !!! b)) l).
Proof.
  revert fuel x. induction l as [|z l IH]; intros [|fuel] x Hp Hh Hf; cbn [length] in Hf; try lia.
  - simpl. done.
  - apply not_elem_of_cons in Hh as [Hz Hh]. cbn [List.hd scan List.find].
    rewrite decide_False by done. destruct (p (bs !!! z)); [done|].
    destruct Hp as (_ & _ & Hp).
    erewrite list_lookup_total_correct by (eapply path_first, Hp). apply IH with (x := z); [done | done | lia].
Qed.

(** ** The invariant *)

Definition ring (nx pv : list nat) : Prop :=
  exists l, path nx pv head l head /\ l ≡ₚ seq 0 NBUF /\
    length nx = S NBUF /\ length pv = S NBUF.

Section Rep.
Variable pid : Z.

(** Buffer [x] shows the referenced block [b] as [r] says. *)
Definition shows (b : Z) (r : bref) (x : buf) : Prop :=
  x = Buf true ROOTDEV b (SleepLock Free (br_locked r) (if br_locked r then pid else 0))
        (br_cnt r) (br_data r) /\ 0 < br_cnt r < 2 ^ 32.

(** An unreferenced buffer is unlocked and, if it caches a block, clean. *)
Definition idle (d : blocks) (x : buf) : Prop :=
  refcnt x = 0 /\ lock x = SleepLock Free false 0 /\
  (dev x = ROOTDEV -> valid x = true /\ data x = dread d (blockno x)).

Record content (bs : list buf) (v : cview) : Prop := {
  ct_len : length bs = NBUF;
  ct_refs : forall b r, cv_refs v !! b = Some r -> exists x, bs !! br_h r = Some x /\ shows b r x;
  ct_bufs : forall i x, bs !! i = Some x ->
    idle (cv_disk v) x \/ exists r, cv_refs v !! blockno x = Some r /\ br_h r = i;
  ct_uniq : forall i j x y, bs !! i = Some x -> bs !! j = Some y ->
    dev x = ROOTDEV -> dev y = ROOTDEV -> blockno x = blockno y -> i = j
}.

Record bio_rep (s : bio) (v : cview) : Prop := {
  rep_lock : bc_lock s = Free;
  rep_ring : ring (bnext s) (bprev s);
  rep_content : content (bufs s) v;
  rep_disk : cv_disk v = disk s;
  rep_writes : cv_writes v = writes s
}.

Lemma ring_facts l : l ≡ₚ seq 0 NBUF -> NoDup l /\ head ∉ l /\ length l = NBUF /\
  forall b, b ∈ l <-> (b < NBUF)%nat.
Proof.
  intros Hp. split_and!.
  - rewrite Hp. apply NoDup_seq.
  - rewrite Hp, elem_of_seq. unfold head. lia.
  - by rewrite Hp, length_seq.
  - intros b. rewrite Hp, elem_of_seq. lia.
Qed.

(** The block of a referenced buffer determines it. *)
Lemma content_ref_of bs v i x :
  content bs v -> bs !! i = Some x -> 0 < refcnt x ->
  exists r, cv_refs v !! blockno x = Some r /\ br_h r = i /\ shows (blockno x) r x.
Proof.
  intros Hc Hi Hr. destruct (ct_bufs _ _ Hc i x Hi) as [(H0 & _)|(r & Hr1 & <-)]; [lia|].
  exists r. split_and!; [done | done |].
  destruct (ct_refs _ _ Hc _ _ Hr1) as (x' & Hx' & Hs). by simplify_eq.
Qed.

(** Make buffer [i] show block [b] as [r]. *)
Lemma content_set bs v i x b r x' :
  content bs v -> bs !! i = Some x -> shows b r x' -> br_h r = i ->
  (forall j y, bs !! j = Some y -> j <> i -> dev y = ROOTDEV -> blockno y <> b) ->
  (forall c q, cv_refs v !! c = Some q -> br_h q = i -> c = b) ->
  content (<[i := x']> bs) (set_refs <[b := r]> v).
Proof.
  intros Hc Hi Hs Hh Hothers Honly. destruct v as [d w refs]; simpl in *.
  assert (dev x' = ROOTDEV /\ blockno x' = b) as [Hdv Hbno] by (destruct Hs as [-> _]; done).
  assert (i < length bs)%nat as Hlen by (by eapply lookup_lt_Some).
  split; simpl.
  - rewrite length_insert. apply Hc.
  - intros c q. rewrite lookup_insert. case_decide as Hcb; intros Hq; simplify_eq.
    + exists x'. by rewrite list_lookup_insert_eq.
    + destruct (ct_refs _ _ Hc c q Hq) as (y & Hy & Hsy). exists y. split; [|done].
      rewrite list_lookup_insert_ne; [done|]. intros Heq. apply Hcb. symmetry.
      by apply (Honly c q).
  - intros j y Hj. apply list_lookup_insert_Some in Hj as [(-> & <- & _)|(Hne & Hj)].
    + right. exists r. by rewrite Hbno, lookup_insert_eq.
    + destruct (ct_bufs _ _ Hc j y Hj) as [?|(q & Hq & Hqj)]; [by left|]. right.
      exists q. split; [|done]. simpl in Hq. rewrite lookup_insert_ne; [done|]. intros Heq.
      destruct (ct_refs _ _ Hc _ _ Hq) as (z & Hz & [Hz' _]).
      assert (z = y) as -> by congruence.
      apply (Hothers j y Hj); [done | by rewrite Hz' | done].
  - intros j k y z Hj Hk Hdy Hdz Hbz.
    apply list_lookup_insert_Some in Hj as [(-> & <- & _)|(Hne & Hj)];
      apply list_lookup_insert_Some in Hk as [(-> & <- & _)|(Hne' & Hk)]; try done.
    + exfalso. apply (Hothers k z Hk); [done | done | congruence].
    + exfalso. apply (Hothers j y Hj); [done | done | congruence].
    + by apply (ct_uniq _ _ Hc j k y z).
Qed.

(** The same for a buffer that already shows [b]. *)
Lemma content_upd bs v b r r' x' :
  content bs v -> cv_refs v !! b = Some r -> shows b r' x' -> br_h r' = br_h r ->
  content (<[br_h r := x']> bs) (set_refs <[b := r']> v).
Proof.
  intros Hc Hr Hs Hh. destruct (ct_refs _ _ Hc b r Hr) as (x & Hx & Hsx).
  assert (dev x = ROOTDEV /\ blockno x = b) as [Hdv Hbno] by (destruct Hsx as [-> _]; done).
  eapply content_set; try done.
  - intros j y Hj Hne Hdy Hby. apply Hne, (ct_uniq _ _ Hc j (br_h r) y x); congruence.
  - intros c q Hq Hqh. destruct (ct_refs _ _ Hc c q Hq) as (y & Hy & [-> _]).
    rewrite Hqh, Hx in Hy. by simplify_eq.
Qed.

(** Drop the last reference of a clean buffer. *)
Lemma content_drop bs v b r :
  content bs v -> cv_refs v !! b = Some r -> br_data r = dread (cv_disk v) b ->
  content (<[br_h r := Buf true ROOTDEV b (SleepLock Free false 0) 0 (br_data r)]> bs)
          (set_refs (delete b) v).
Proof.
  intros Hc Hr Hclean. destruct (ct_refs _ _ Hc b r Hr) as (x & Hx & Hsx).
  assert (dev x = ROOTDEV /\ blockno x = b) as [Hdv Hbno] by (destruct Hsx as [-> _]; done).
  destruct v as [d w refs]; simpl in *. split; simpl.
  - rewrite length_insert. apply Hc.
  - intros c q Hq. apply lookup_delete_Some in Hq as [Hne Hq].
    destruct (ct_refs _ _ Hc c q Hq) as (y & Hy & Hsy). exists y. split; [|done].
    rewrite list_lookup_insert_ne; [done|]. intros Heq. rewrite <- Heq, Hx in Hy. simplify_eq.
    destruct Hsy as [Hsy _]. rewrite Hsy in Hne. done.
  - intros j y Hj. apply list_lookup_insert_Some in Hj as [(<- & <- & _)|(Hne & Hj)].
    + left. by split_and!.
    + destruct (ct_bufs _ _ Hc j y Hj) as [?|(q & Hq & Hqj)]; [by left|]. right.
      exists q. split; [|done]. rewrite lookup_delete_ne; [done|]. simpl in Hq.
      intros Heq. rewrite <- Heq, Hr in Hq. by simplify_eq.
  - intros j k y z Hj Hk Hdy Hdz Hbz.
    apply list_lookup_insert_Some in Hj as [(<- & <- & _)|(Hne & Hj)];
      apply list_lookup_insert_Some in Hk as [(<- & <- & _)|(Hne' & Hk)]; try done; simpl in *.
    + eapply (ct_uniq _ _ Hc); [exact Hx | exact Hk | done | done | congruence].
    + eapply (ct_uniq _ _ Hc); [exact Hj | exact Hx | done | done | congruence].
    + by apply (ct_uniq _ _ Hc j k y z).
Qed.

(** Write a referenced block out. *)
Lemma content_write bs v b r w :
  content bs v -> cv_refs v !! b = Some r ->
  content bs (CView (<[b := br_data r]> (cv_disk v)) w (cv_refs v)).
Proof.
  intros Hc Hr. destruct (ct_refs _ _ Hc b r Hr) as (x & Hx & Hsx).
  split; simpl; [apply Hc | apply Hc | | apply Hc].
  intros i y Hy. destruct (ct_bufs _ _ Hc i y Hy) as [(H0 & Hl & Hd)|?]; [|by right]. left.
  split_and!; [done | done |]. intros Hdv. destruct (Hd Hdv) as [? ->]. split; [done|].
  rewrite dread_insert_ne; [done|]. intros Heq.
  assert (i = br_h r) as ->.
  { destruct Hsx as [-> _]. eapply (ct_uniq _ _ Hc); [exact Hy | exact Hx | done | done |].
    simpl. congruence. }
  rewrite Hx in Hy. simplify_eq. destruct Hsx as [Hsx ?]. rewrite Hsx in H0. simpl in H0. lia.
Qed.
End Rep.

(** ** Evaluating the operations *)

#[local] Arguments scan : simpl never.
#[local] Arguments head : simpl never.

Lemma get_set_buf i x s : (i < length (bufs s))%nat -> get_buf i (set_buf i x s) = x.
Proof. intros. unfold get_buf. simpl. by apply list_lookup_total_insert_eq. Qed.
Lemma set_set_buf i x y s : set_buf i x (set_buf i y s) = set_buf i x s.
Proof. unfold set_buf. simpl. by rewrite list_insert_insert_eq. Qed.
Lemma get_buf_lookup i x s : bufs s !! i = Some x -> get_buf i s = x.
Proof. apply list_lookup_total_correct. Qed.

Section Eval.
Variable pid : Z.

Lemma zoom_lock_eval {A} (m : M sleeplock A) i s a l :
  m (lock (get_buf i s)) = Ret a l ->
  zoom (buf_lockL i) m s = Ret a (set_buf i (with_lock l (get_buf i s)) s).
Proof. intros H. unfold zoom. simpl. by rewrite H. Qed.

(** Locking buffer [i] after its fields were set to [x]. *)
Lemma lock_after_set s i x :
  (i < length (bufs s))%nat -> lock x = SleepLock Free false 0 ->
  (zoom (buf_lockL i) (acquiresleep pid);; mret i) (set_buf i x s) =
    Ret i (set_buf i (with_lock (SleepLock Free true pid) x) s).
Proof.
  intros Hi Hl. erewrite bind_ret.
  2:{ apply zoom_lock_eval. rewrite get_set_buf, Hl by done. reflexivity. }
  by rewrite get_set_buf, set_set_buf by done.
Qed.

Lemma bget_found s i x dv bno :
  bc_lock s = Free -> bufs s !! i = Some x ->
  scan scan_fuel (bnext s) (bufs s) (fun x => (dev x =? dv) && (blockno x =? bno)) (next_of head s)
    = Some (Some i) ->
  lock x = SleepLock Free false 0 ->
  bget pid dv bno s =
    Ret i (set_buf i (with_lock (SleepLock Free true pid)
                        (with_refcnt (u32 (refcnt x + 1)) x)) s).
Proof.
  intros Hlk Hi Hscan Hl. assert (i < length (bufs s))%nat by (by eapply lookup_lt_Some).
  destruct s as [lk bs nx pv d w]; simpl in *; subst lk.
  unfold bget. erewrite bind_ret by reflexivity. erewrite bind_ret by reflexivity.
  unfold id, next_of in *. simpl in *. rewrite Hscan.
  erewrite bind_ret by reflexivity. unfold get_buf; simpl.
  rewrite (list_lookup_total_correct _ _ _ Hi).
  erewrite bind_ret by reflexivity. by apply (lock_after_set (Bio Free bs nx pv d w)).
Qed.

Lemma bget_recycled s i x dv bno :
  bc_lock s = Free -> bufs s !! i = Some x ->
  scan scan_fuel (bnext s) (bufs s) (fun x => (dev x =? dv) && (blockno x =? bno)) (next_of head s)
    = Some None ->
  scan scan_fuel (bprev s) (bufs s) (fun x => refcnt x =? 0) (prev_of head s) = Some (Some i) ->
  lock x = SleepLock Free false 0 ->
  bget pid dv bno s =
    Ret i (set_buf i (Buf false dv bno (SleepLock Free true pid) 1 (data x)) s).
Proof.
  intros Hlk Hi Hscan Hscan2 Hl. assert (i < length (bufs s))%nat by (by eapply lookup_lt_Some).
  destruct s as [lk bs nx pv d w]; simpl in *; subst lk.
  unfold bget. erewrite bind_ret by reflexivity. erewrite bind_ret by reflexivity.
  unfold id, next_of, prev_of in *. simpl in *. rewrite Hscan, Hscan2.
  erewrite bind_ret by reflexivity. unfold get_buf; simpl.
  rewrite (list_lookup_total_correct _ _ _ Hi).
  erewrite bind_ret by reflexivity. by apply (lock_after_set (Bio Free bs nx pv d w)).
Qed.

(** A block found in the cache. *)
Lemma bread_found s i x dv bno :
  bc_lock s = Free -> bufs s !! i = Some x ->
  scan scan_fuel (bnext s) (bufs s) (fun x => (dev x =? dv) && (blockno x =? bno)) (next_of head s)
    = Some (Some i) ->
  lock x = SleepLock Free false 0 -> valid x = true ->
  bio_bread pid dv bno s =
    Ret i (set_buf i (Buf true (dev x) (blockno x) (SleepLock Free true pid)
                          (u32 (refcnt x + 1)) (data x)) s).
Proof.
  intros Hlk Hi Hscan Hl Hv. assert (i < length (bufs s))%nat by (by eapply lookup_lt_Some).
  unfold bio_bread. erewrite bind_ret by (by eapply bget_found).
  erewrite bind_ret by reflexivity. rewrite get_set_buf by done.
  change (valid (with_lock _ _)) with (valid x). rewrite Hv.
  erewrite bind_ret by reflexivity. unfold with_lock, with_refcnt. simpl. by rewrite Hv.
Qed.

(** A buffer recycled for a block that is not in the cache. *)
Lemma bread_recycled s i x dv bno :
  bc_lock s = Free -> bufs s !! i = Some x ->
  scan scan_fuel (bnext s) (bufs s) (fun x => (dev x =? dv) && (blockno x =? bno)) (next_of head s)
    = Some None ->
  scan scan_fuel (bprev s) (bufs s) (fun x => refcnt x =? 0) (prev_of head s) = Some (Some i) ->
  lock x = SleepLock Free false 0 ->
  bio_bread pid dv bno s =
    Ret i (set_buf i (Buf true dv bno (SleepLock Free true pid) 1 (dread (disk s) bno)) s).
Proof.
  intros Hlk Hi Hscan Hscan2 Hl. assert (i < length (bufs s))%nat by (by eapply lookup_lt_Some).
  unfold bio_bread. erewrite bind_ret by (by eapply bget_recycled).
  erewrite bind_ret by reflexivity. rewrite get_set_buf by done.
  unfold when, disk_rw, upd. simpl negb. cbv iota. erewrite bind_ret.
  2:{ erewrite bind_ret by reflexivity. reflexivity. }
  cbv zeta. rewrite !get_set_buf by (simpl; rewrite ?length_insert; done).
  rewrite !set_set_buf. reflexivity.
Qed.

Lemma bwrite_held s i x :
  bufs s !! i = Some x -> lock x = SleepLock Free true pid ->
  bio_bwrite pid i s =
    Ret tt (set_disk (<[blockno x := data x]> (disk s)) (writes s ++ [(blockno x, data x)]) s).
Proof.
  intros Hi Hl. unfold bio_bwrite, mbind, M_bind, zoom. simpl.
  rewrite (get_buf_lookup _ _ _ Hi), Hl. simpl. rewrite Z.eqb_refl. simpl.
  assert (set_buf i (with_lock (SleepLock Free true pid) x) s = s) as ->.
  { unfold set_buf. rewrite list_insert_id; [by destruct s|].
    rewrite Hi. f_equal. destruct x; simpl in *. by subst. }
  unfold disk_rw, modify. by rewrite (get_buf_lookup _ _ _ Hi).
Qed.

Lemma bwrite_not_held s i x :
  bufs s !! i = Some x -> lock x = SleepLock Free false 0 -> bio_bwrite pid i s = Panic "bwrite".
Proof.
  intros Hi Hl. unfold bio_bwrite, mbind, M_bind, zoom. simpl.
  by rewrite (get_buf_lookup _ _ _ Hi), Hl.
Qed.

Lemma bpin_eval s i x :
  bc_lock s = Free -> bufs s !! i = Some x ->
  bio_bpin i s = Ret tt (set_buf i (with_refcnt (u32 (refcnt x + 1)) x) s).
Proof.
  intros Hlk Hi. unfold bio_bpin, mbind, M_bind, acquire, release, upd, modify. simpl.
  rewrite Hlk. simpl. unfold get_buf. simpl. rewrite (list_lookup_total_correct _ _ _ Hi).
  destruct s; simpl in *. by subst.
Qed.

Lemma bunpin_eval s i x :
  bc_lock s = Free -> bufs s !! i = Some x ->
  bio_bunpin i s = Ret tt (set_buf i (with_refcnt (u32 (refcnt x - 1)) x) s).
Proof.
  intros Hlk Hi. unfold bio_bunpin, mbind, M_bind, acquire, release, upd, modify. simpl.
  rewrite Hlk. simpl. unfold get_buf. simpl. rewrite (list_lookup_total_correct _ _ _ Hi).
  destruct s; simpl in *. by subst.
Qed.

(** Move buffer [b] to the front of the list. *)
Definition to_front (b : nat) (s : bio) : bio :=
  let n := next_of b s in let p := prev_of b s in
  let pv := <[n := p]> (bprev s) in
  let nx := <[(pv !!! b) := n]> (bnext s) in
  let f := nx !!! head in
  let nx := <[b := f]> nx in
  Bio (bc_lock s) (bufs s) (<[head := b]> nx) (<[(nx !!! head) := b]> (<[b := head]> pv))
      (disk s) (writes s).

Lemma brelse_eval s i x :
  bc_lock s = Free -> bufs s !! i = Some x -> lock x = SleepLock Free true pid ->
  let c := u32 (refcnt x - 1) in
  let s1 := set_buf i (Buf (valid x) (dev x) (blockno x) (SleepLock Free false 0) c (data x)) s in
  bio_brelse pid i s = Ret tt (if c =? 0 then to_front i s1 else s1).
Proof.
  intros Hlk Hi Hl c s1. assert (i < length (bufs s))%nat by (by eapply lookup_lt_Some).
  pose proof (get_buf_lookup _ _ _ Hi) as Hg.
  unfold bio_brelse. erewrite bind_ret.
  2:{ apply zoom_lock_eval. rewrite Hg, Hl, holdingsleep_eq, Z.eqb_refl. reflexivity. }
  assert (set_buf i (with_lock (SleepLock Free true pid) (get_buf i s)) s = s) as ->.
  { unfold set_buf. rewrite list_insert_id; [by destruct s|].
    rewrite Hi. f_equal. rewrite Hg. destruct x; simpl in *. by subst. }
  cbn [negb andb]. erewrite bind_ret.
  2:{ apply zoom_lock_eval. rewrite Hg, Hl. reflexivity. }
  erewrite bind_ret; [|unfold acquire; simpl; rewrite Hlk; reflexivity].
  erewrite bind_ret by reflexivity. erewrite bind_ret by reflexivity.
  unfold get_buf, set_buf; cbn -[Nat.eqb insert lookup_total].
  rewrite !list_lookup_total_insert_eq, list_insert_insert_eq by (rewrite ?length_insert; done).
  unfold get_buf in Hg. rewrite Hg. cbn -[insert lookup_total]. fold c.
  destruct (c =? 0) eqn:E; unfold when, mbind, M_bind, modify, release;
    cbn -[insert lookup_total]; unfold to_front, s1, set_buf, next_of, prev_of;
    cbn -[insert lookup_total]; by rewrite Hlk.
Qed.

Lemma brelse_not_held s i x :
  bufs s !! i = Some x -> lock x = SleepLock Free false 0 -> bio_brelse pid i s = Panic "brelse".
Proof.
  intros Hi Hl. unfold bio_brelse, mbind, M_bind, zoom. simpl.
  by rewrite (get_buf_lookup _ _ _ Hi), Hl.
Qed.

End Eval.

(** ** The searches of [bget] *)

Section Searches.
Variables (pid : Z) (s : bio) (v : cview).
Hypothesis Hrep : bio_rep pid s v.

Lemma next_scan p :
  exists l, l ≡ₚ seq 0 NBUF /\
    scan scan_fuel (bnext s) (bufs s) p (next_of head s)
      = Some (List.find (fun b => p (bufs s !!! b)) l).
Proof.
  destruct (rep_ring _ _ _ Hrep) as (l & Hp & Hperm & _ & _). exists l. split; [done|].
  destruct (ring_facts l Hperm) as (_ & Hh & Hlen & _).
  unfold next_of. rewrite (list_lookup_total_correct _ _ _ (path_first _ _ _ _ _ Hp)).
  apply (scan_path _ _ _ _ _ _ _ Hp Hh). rewrite Hlen. unfold scan_fuel. lia.
Qed.

Lemma prev_scan p :
  exists l, l ≡ₚ seq 0 NBUF /\
    scan scan_fuel (bprev s) (bufs s) p (prev_of head s)
      = Some (List.find (fun b => p (bufs s !!! b)) l).
Proof.
  destruct (rep_ring _ _ _ Hrep) as (l & Hp & Hperm & _ & _). exists (rev l).
  assert (rev l ≡ₚ seq 0 NBUF) as Hperm' by (by rewrite <- Permutation_rev).
  split; [done|]. apply path_rev in Hp.
  destruct (ring_facts _ Hperm') as (_ & Hh & Hlen & _).
  unfold prev_of. rewrite (list_lookup_total_correct _ _ _ (path_first _ _ _ _ _ Hp)).
  apply (scan_path _ _ _ _ _ _ _ Hp Hh). rewrite Hlen. unfold scan_fuel. lia.
Qed.

Lemma buf_at i : (i < NBUF)%nat -> exists x, bufs s !! i = Some x /\ bufs s !!! i = x.
Proof.
  intros Hi. rewrite <- (ct_len _ _ _ (rep_content _ _ _ Hrep)) in Hi.
  apply lookup_lt_is_Some_2 in Hi as [x Hx]. exists x. split; [done|].
  by apply list_lookup_total_correct.
Qed.

(** A search that finds a buffer. *)
Lemma find_hit p l i :
  l ≡ₚ seq 0 NBUF -> List.find (fun b => p (bufs s !!! b)) l = Some i ->
  exists x, bufs s !! i = Some x /\ p x = true.
Proof.
  intros Hp [Hin Ht]%List.find_some. apply list_elem_of_In in Hin.
  apply (ring_facts l Hp) in Hin. destruct (buf_at i Hin) as (x & Hx & He).
  exists x. split; [done|]. by rewrite He in Ht.
Qed.

(** A search that fails has looked at every buffer. *)
Lemma find_miss p l i x :
  l ≡ₚ seq 0 NBUF -> List.find (fun b => p (bufs s !!! b)) l = None ->
  bufs s !! i = Some x -> p x = false.
Proof.
  intros Hp Hn Hi. rewrite <- (list_lookup_total_correct _ _ _ Hi).
  apply (List.find_none _ _ Hn i), list_elem_of_In, (ring_facts l Hp).
  rewrite <- (ct_len _ _ _ (rep_content _ _ _ Hrep)). by eapply lookup_lt_Some.
Qed.

(** With fewer references than buffers, some buffer is unreferenced. *)
Lemma some_idle :
  (size (cv_refs v) < NBUF)%nat -> exists i x, bufs s !! i = Some x /\ refcnt x = 0.
Proof.
  intros Hsz. destruct (decide (Exists (fun x => refcnt x = 0) (bufs s))) as [He|Hne].
  { apply list.Exists_exists in He as (x & Hin & H0).
    apply list_elem_of_lookup in Hin as [i Hi]. eauto. }
  exfalso. pose proof (rep_content _ _ _ Hrep) as Hc.
  assert (forall i x, bufs s !! i = Some x ->
            dev x = ROOTDEV /\ is_Some (cv_refs v !! blockno x)) as Hall.
  { intros i x Hi. destruct (ct_bufs _ _ _ Hc i x Hi) as [(H0 & _)|(r & Hr & Hh)].
    - destruct Hne. apply list.Exists_exists. exists x. split; [|done]. by eapply list_elem_of_lookup_2.
    - destruct (ct_refs _ _ _ Hc _ _ Hr) as (y & Hy & [Hs _]). rewrite Hh, Hi in Hy.
      injection Hy as <-. split; [by rewrite Hs | eauto]. }
  assert (NoDup (blockno <$> bufs s)) as Hnd.
  { apply NoDup_alt. intros i j b Hi Hj. rewrite list_lookup_fmap in Hi, Hj.
    apply fmap_Some in Hi as (x & Hi & ->). apply fmap_Some in Hj as (y & Hj & He).
    eapply (ct_uniq _ _ _ Hc i j x y); [done | done | by eapply Hall | by eapply Hall | done]. }
  assert (list_to_set (C := gset Z) (blockno <$> bufs s) ⊆ dom (cv_refs v)) as Hsub.
  { intros b Hb. apply elem_of_list_to_set, list_elem_of_fmap in Hb as (x & -> & Hx).
    apply list_elem_of_lookup in Hx as [i Hi]. by apply elem_of_dom, (Hall i x). }
  apply subseteq_size in Hsub. rewrite size_list_to_set in Hsub by done.
  rewrite length_fmap, (ct_len _ _ _ Hc), size_dom in Hsub. lia.
Qed.

End Searches.

(** ** The operations keep the invariant *)

(** The list after [to_front]. *)
Lemma to_front_path s l1 b l2 :
  path (bnext s) (bprev s) head (l1 ++ b :: l2) head -> NoDup (head :: l1 ++ b :: l2) ->
  (forall z, z ∈ head :: l1 ++ b :: l2 -> (z < length (bnext s))%nat /\ (z < length (bprev s))%nat) ->
  path (bnext (to_front b s)) (bprev (to_front b s)) head (b :: l1 ++ l2) head.
Proof.
  intros Hp Hnd Hlt.
  assert (b ∈ head :: l1 ++ b :: l2) as Hbin by (right; apply elem_of_app; right; left).
  destruct (Hlt _ Hbin) as [Hbn Hbp]. destruct (Hlt head ltac:(left)) as [Hhn Hhp].
  pose proof Hp as [Hp1 Hp2]%path_app.
  pose proof (path_first _ _ _ _ _ Hp2) as Hn. pose proof (path_last _ _ _ _ _ Hp1) as Hv.
  pose proof Hnd as [Hhd Hnd']%NoDup_cons. pose proof Hnd' as (_ & Hsep & [Hb2 _]%NoDup_cons)%NoDup_app.
  assert (b ∉ l1) as Hb1 by (intros Hin; apply (Hsep b Hin); left).
  assert (b <> head) as Hbh by (intros ->; apply Hhd, elem_of_app; right; left).
  assert (List.hd head l2 <> b) as Hne.
  { destruct l2; simpl; [done|]. intros ->. apply Hb2. left. }
  assert (head ∉ l1 ++ l2) as Hh.
  { intros Hin. apply Hhd. apply elem_of_app in Hin as [?|?]; apply elem_of_app;
      [by left | right; by right]. }
  assert (b ∉ l1 ++ l2) as Hb by (intros [?|?]%elem_of_app; done).
  assert (path (<[List.last l1 head := List.hd head l2]> (bnext s))
            (<[List.hd head l2 := List.last l1 head]> (bprev s)) head (l1 ++ l2) head) as Hu.
  { apply path_unlink with (b := b); [done | done | done |]. intros z Hz.
    apply Hlt. right. apply elem_of_app. right. by right. }
  unfold to_front, next_of, prev_of. simpl.
  rewrite (list_lookup_total_correct _ _ _ Hn), (list_lookup_total_correct _ _ _ Hv).
  rewrite (list_lookup_total_insert_ne _ (List.hd head l2) b) by done.
  rewrite (list_lookup_total_correct _ _ _ Hv).
  rewrite (list_lookup_total_insert_ne _ b head) by done.
  rewrite (list_lookup_total_correct _ _ _ (path_first _ _ _ _ _ Hu)).
  apply path_push; try done; by rewrite length_insert.
Qed.

Lemma ring_to_front s b :
  (b < NBUF)%nat -> ring (bnext s) (bprev s) ->
  ring (bnext (to_front b s)) (bprev (to_front b s)).
Proof.
  intros Hb (l & Hp & Hperm & Hln & Hlp). destruct (ring_facts l Hperm) as (Hnd & Hh & _ & Hin).
  apply Hin in Hb. apply list_elem_of_split in Hb as (l1 & l2 & ->).
  exists (b :: l1 ++ l2). split_and!.
  - apply to_front_path; [done | by apply NoDup_cons |]. intros z Hz. rewrite Hln, Hlp.
    apply elem_of_cons in Hz as [->|Hz]; [unfold head; lia|]. apply Hin in Hz. lia.
  - by rewrite Permutation_middle.
  - unfold to_front. simpl. by rewrite !length_insert.
  - unfold to_front. simpl. by rewrite !length_insert.
Qed.

Section Laws.
Variable pid : Z.

Abbreviation caches b := (fun x => (dev x =? ROOTDEV) && (blockno x =? b)).
Abbreviation unused := (fun x => refcnt x =? 0).

Lemma rep_buf s v b r :
  bio_rep pid s v -> cv_refs v !! b = Some r ->
  exists x, bufs s !! br_h r = Some x /\ shows pid b r x /\ (br_h r < NBUF)%nat.
Proof.
  intros [_ _ Hc _ _] Hr. destruct (ct_refs _ _ _ Hc b r Hr) as (x & Hx & Hs).
  exists x. split_and!; [done | done |]. rewrite <- (ct_len _ _ _ Hc). by eapply lookup_lt_Some.
Qed.

Lemma rep_upd s v b r r' x' :
  bio_rep pid s v -> cv_refs v !! b = Some r -> shows pid b r' x' -> br_h r' = br_h r ->
  bio_rep pid (set_buf (br_h r) x' s) (set_refs <[b := r']> v).
Proof. intros [] ? ? ?. split; try done. by apply content_upd. Qed.

Lemma rep_find s v b r i l :
  bio_rep pid s v -> cv_refs v !! b = Some r -> l ≡ₚ seq 0 NBUF ->
  List.find (fun i => caches b (bufs s !!! i)) l = i ->
  i = Some (br_h r).
Proof.
  intros Hrep Hr Hp Hf. destruct (rep_buf _ _ _ _ Hrep Hr) as (x & Hx & [Hs _] & Hlt).
  destruct i as [i|].
  - destruct (find_hit _ _ _ Hrep (caches b) _ _ Hp Hf) as (y & Hy & [Hd Hb]%andb_prop).
    f_equal. apply (ct_uniq _ _ _ (rep_content _ _ _ Hrep) i (br_h r) y x); try done.
    + lia.
    + by rewrite Hs.
    + rewrite Hs. simpl. lia.
  - pose proof (find_miss _ _ _ Hrep (caches b) _ _ _ Hp Hf Hx) as Hm. rewrite Hs in Hm. simpl in Hm.
    rewrite Z.eqb_refl in Hm. done.
Qed.

Lemma bio_bread_hit s v b r : bio_rep pid s v ->
  cv_refs v !! b = Some r -> br_locked r = false -> br_cnt r < 2 ^ 32 - 1 ->
  exists s', bio_bread pid ROOTDEV b s = Ret (br_h r) s' /\
    bio_rep pid s' (set_refs <[b := BRef (br_h r) (br_cnt r + 1) true (br_data r)]> v).
Proof.
  intros Hrep Hr Hl Hc. destruct (rep_buf _ _ _ _ Hrep Hr) as (x & Hx & [Hs Hcnt] & Hlt).
  destruct (next_scan _ _ _ Hrep (caches b)) as (l & Hp & Hf).
  rewrite (rep_find _ _ _ _ _ _ Hrep Hr Hp eq_refl) in Hf.
  eexists. split.
  - eapply bread_found; [apply Hrep | exact Hx | exact Hf | by rewrite Hs, Hl | by rewrite Hs].
  - apply rep_upd; [done | done | | done]. split; [|simpl; lia]. simpl. rewrite Hs. simpl.
    by rewrite u32_small by lia.
Qed.

Lemma bio_bread_miss s v b : bio_rep pid s v ->
  cv_refs v !! b = None -> (size (cv_refs v) < NBUF)%nat ->
  exists h s', bio_bread pid ROOTDEV b s = Ret h s' /\
    bio_rep pid s' (set_refs <[b := BRef h 1 true (dread (cv_disk v) b)]> v).
Proof.
  intros Hrep Hr Hsz. pose proof (rep_content _ _ _ Hrep) as Hc.
  destruct (next_scan _ _ _ Hrep (caches b)) as (l & Hp & Hf).
  destruct (prev_scan _ _ _ Hrep unused) as (l' & Hp' & Hf').
  assert (forall i x, bufs s !! i = Some x -> refcnt x = 0 -> idle (cv_disk v) x) as Hidle.
  { intros i x Hx H0. destruct (ct_bufs _ _ _ Hc i x Hx) as [?|(r & Hr' & Hh)]; [done|].
    destruct (ct_refs _ _ _ Hc _ _ Hr') as (y & Hy & [Hs ?]). rewrite Hh, Hx in Hy.
    injection Hy as <-. rewrite Hs in H0. simpl in H0. lia. }
  assert (forall i x, bufs s !! i = Some x -> refcnt x = 0 ->
            forall c q, cv_refs v !! c = Some q -> br_h q = i -> c = b) as Honly.
  { intros i x Hx H0 c q Hq Hi. destruct (ct_refs _ _ _ Hc _ _ Hq) as (y & Hy & [Hs ?]).
    rewrite Hi, Hx in Hy. injection Hy as <-. rewrite Hs in H0. simpl in H0. lia. }
  destruct (List.find _ l) as [i|] eqn:Hfi in Hf.
  - destruct (find_hit _ _ _ Hrep (caches b) _ _ Hp Hfi) as (x & Hx & [Hd Hb]%andb_prop).
    assert (dev x = ROOTDEV /\ blockno x = b) as [Hd' Hb'] by lia.
    destruct (ct_bufs _ _ _ Hc i x Hx) as [(H0 & Hlk & Hv)|(r & Hr' & _)]; [|congruence].
    destruct (Hv Hd') as [Hva Hda].
    exists i. eexists. split; [eapply bread_found; [apply Hrep | done..]|].
    split; try apply Hrep. eapply content_set; try done.
    + split; [|simpl; lia]. simpl. rewrite H0, Hd', Hda, Hb'. done.
    + intros j y Hj Hne Hdy Hby. apply Hne, (ct_uniq _ _ _ Hc j i y x); congruence.
    + by eapply Honly.
  - destruct (List.find _ l') as [i|] eqn:Hfi' in Hf'.
    + destruct (find_hit _ _ _ Hrep unused _ _ Hp' Hfi') as (x & Hx & H0).
      apply Z.eqb_eq in H0. destruct (Hidle i x Hx H0) as (_ & Hlk & _).
      exists i. eexists. split; [eapply bread_recycled; [apply Hrep | done..]|].
      split; try apply Hrep. eapply content_set; try done.
      * split; [|simpl; lia]. simpl. by rewrite (rep_disk _ _ _ Hrep).
      * intros j y Hj _ Hdy Hby. pose proof (find_miss _ _ _ Hrep (caches b) _ _ _ Hp Hfi Hj) as Hm.
        simpl in Hm. lia.
      * by eapply Honly.
    + destruct (some_idle _ _ _ Hrep Hsz) as (i & x & Hx & H0).
      pose proof (find_miss _ _ _ Hrep unused _ _ _ Hp' Hfi' Hx) as Hm. simpl in Hm. lia.
Qed.

Lemma bio_bwrite_law s v b r : bio_rep pid s v ->
  cv_refs v !! b = Some r -> br_locked r = true ->
  exists s', bio_bwrite pid (br_h r) s = Ret tt s' /\
    bio_rep pid s' (CView (<[b := br_data r]> (cv_disk v))
                          (cv_writes v ++ [(b, br_data r)]) (cv_refs v)).
Proof.
  intros Hrep Hr Hl. destruct (rep_buf _ _ _ _ Hrep Hr) as (x & Hx & [Hs Hcnt] & Hlt).
  eexists. split; [eapply bwrite_held; [exact Hx | by rewrite Hs, Hl]|].
  rewrite Hs. destruct Hrep as [? ? Hc Hd Hw]. split; simpl; try done.
  - by apply content_write.
  - by rewrite Hd.
  - by rewrite Hw.
Qed.

Lemma bio_brelse_last s v b r : bio_rep pid s v ->
  cv_refs v !! b = Some r -> br_locked r = true -> br_cnt r = 1 ->
  br_data r = dread (cv_disk v) b ->
  exists s', bio_brelse pid (br_h r) s = Ret tt s' /\ bio_rep pid s' (set_refs (delete b) v).
Proof.
  intros Hrep Hr Hl Hc Hcl. destruct (rep_buf _ _ _ _ Hrep Hr) as (x & Hx & [Hs Hcnt] & Hlt).
  eexists. split; [eapply brelse_eval; [apply Hrep | exact Hx | by rewrite Hs, Hl]|].
  rewrite Hs. simpl. rewrite Hc, u32_small by lia. simpl.
  destruct Hrep as [? Hring Hct Hd Hw]. split; try done.
  - by apply ring_to_front.
  - by apply content_drop.
Qed.

Lemma bio_brelse_more s v b r : bio_rep pid s v ->
  cv_refs v !! b = Some r -> br_locked r = true -> 1 < br_cnt r ->
  exists s', bio_brelse pid (br_h r) s = Ret tt s' /\
    bio_rep pid s' (set_refs <[b := BRef (br_h r) (br_cnt r - 1) false (br_data r)]> v).
Proof.
  intros Hrep Hr Hl Hc. destruct (rep_buf _ _ _ _ Hrep Hr) as (x & Hx & [Hs Hcnt] & Hlt).
  eexists. split; [eapply brelse_eval; [apply Hrep | exact Hx | by rewrite Hs, Hl]|].
  rewrite Hs. simpl. rewrite u32_small by lia.
  replace (br_cnt r - 1 =? 0) with false by lia.
  apply rep_upd; [done | done | | done]. split; [done | simpl; lia].
Qed.

Lemma bio_bpin_law s v b r : bio_rep pid s v ->
  cv_refs v !! b = Some r -> br_cnt r < 2 ^ 32 - 1 ->
  exists s', bio_bpin (br_h r) s = Ret tt s' /\
    bio_rep pid s' (set_refs <[b := BRef (br_h r) (br_cnt r + 1) (br_locked r) (br_data r)]> v).
Proof.
  intros Hrep Hr Hc. destruct (rep_buf _ _ _ _ Hrep Hr) as (x & Hx & [Hs Hcnt] & Hlt).
  eexists. split; [eapply bpin_eval; [apply Hrep | exact Hx]|].
  rewrite Hs. simpl. rewrite u32_small by lia.
  apply rep_upd; [done | done | | done]. split; [done | simpl; lia].
Qed.

Lemma bio_bunpin_law s v b r : bio_rep pid s v ->
  cv_refs v !! b = Some r -> 1 < br_cnt r ->
  exists s', bio_bunpin (br_h r) s = Ret tt s' /\
    bio_rep pid s' (set_refs <[b := BRef (br_h r) (br_cnt r - 1) (br_locked r) (br_data r)]> v).
Proof.
  intros Hrep Hr Hc. destruct (rep_buf _ _ _ _ Hrep Hr) as (x & Hx & [Hs Hcnt] & Hlt).
  eexists. split; [eapply bunpin_eval; [apply Hrep | exact Hx]|].
  rewrite Hs. simpl. rewrite u32_small by lia.
  apply rep_upd; [done | done | | done]. split; [done | simpl; lia].
Qed.

(** The links [binit] leaves: buffer 29 is first, buffer 0 last. *)
Definition boot_next : list nat := head :: seq 0 (NBUF - 1) ++ [NBUF - 1]%nat.
Definition boot_prev : list nat := seq 1 NBUF ++ [O].

Lemma booted_eq d : booted d = Bio Free (replicate NBUF inhabitant) boot_next boot_prev d [].
Proof. vm_compute. reflexivity. Qed.

Lemma boot_ring : ring boot_next boot_prev.
Proof.
  exists (rev (seq 0 NBUF)). split_and!.
  - vm_compute. repeat split.
  - by rewrite <- Permutation_rev.
  - by vm_compute.
  - by vm_compute.
Qed.

Lemma bio_boot_rep d : bio_rep pid (booted d) (CView d [] ∅).
Proof.
  rewrite booted_eq. split; [reflexivity | apply boot_ring | | reflexivity | reflexivity]. split.
  - apply length_replicate.
  - intros b r. simpl. by rewrite lookup_empty.
  - intros i x [-> _]%lookup_replicate. left. by split_and!.
  - intros i j x y [-> _]%lookup_replicate. done.
Qed.
End Laws.

(** ** The interface *)

#[export] Instance bio_cache (pid : Z) : BufCache bio := {
  bread := bio_bread pid;
  bwrite := bio_bwrite pid;
  brelse := bio_brelse pid;
  bpin := bio_bpin;
  bunpin := bio_bunpin;
  bdata := fun b s => data (get_buf b s);
  bset := fun b x => upd b (with_data x);
  bblockno := fun b s => blockno (get_buf b s);
  boot := booted
}.

#[export] Instance bio_laws (pid : Z) : @BufCacheLaws bio (bio_cache pid).
Proof.
  unshelve econstructor.
  - exact (bio_rep pid).
  - apply bio_boot_rep.
  - intros s v b1 b2 r1 r2 Hrep H1 H2 Hh.
    destruct (rep_buf _ _ _ _ _ Hrep H1) as (x & Hx & [-> _] & _).
    destruct (rep_buf _ _ _ _ _ Hrep H2) as (y & Hy & [-> _] & _).
    rewrite Hh, Hy in Hx. by simplify_eq.
  - apply bio_bread_hit.
  - apply bio_bread_miss.
  - apply bio_bwrite_law.
  - apply bio_brelse_last.
  - apply bio_brelse_more.
  - apply bio_bpin_law.
  - apply bio_bunpin_law.
  - intros s v b r Hrep Hr. destruct (rep_buf _ _ _ _ _ Hrep Hr) as (x & Hx & [-> _] & _).
    simpl. by rewrite (get_buf_lookup _ _ _ Hx).
  - intros s v b r Hrep Hr. destruct (rep_buf _ _ _ _ _ Hrep Hr) as (x & Hx & [-> _] & _).
    simpl. by rewrite (get_buf_lookup _ _ _ Hx).
  - intros s v b r x Hrep Hr Hl. destruct (rep_buf _ _ _ _ _ Hrep Hr) as (y & Hy & [Hs Hc] & _).
    eexists. split; [reflexivity|]. rewrite (get_buf_lookup _ _ _ Hy), Hs.
    apply rep_upd; [done | done | | done]. split; [|done]. simpl. by rewrite Hl.
Defined.

(** ** Properties *)

(** C4: the buffer cache implements its interface.  A freshly booted cache shows
    the device with no buffer referenced, and from every state of the invariant,
    every call a client may make returns (no panic, no sleep, the list walk ends),
    is a step of the abstract cache, and re-establishes the invariant: the links
    form one ring over all buffers, no block is cached twice, an unreferenced
    buffer is clean and unlocked, and a referenced one shows its block. *)
Theorem bio_implements_cache (pid : Z) :
  (forall d, bio_rep pid (booted d) (CView d [] ∅)) /\
  (forall s v o, bio_rep pid s v -> cready v o ->
     exists r s' v', cexec (H := bio_cache pid) o s = Ret r s' /\ cstep v o r v' /\ bio_rep pid s' v').
Proof.
  split; [apply bio_boot_rep|]. intros s v o Hrep Hready.
  exact (cache_simulates (H0 := bio_laws pid) s v o Hrep Hready).
Qed.

Lemma bio_implements_cache_witness :
  exists s' v', cexec (H := bio_cache 1) (ORead 7) (booted ∅) = Ret (Some 0%nat) s' /\ bio_rep 1 s' v'.
Proof.
  destruct (proj2 (bio_implements_cache 1) (booted ∅) (CView ∅ [] ∅) (ORead 7))
    as (r & s' & v' & He & _ & Hr).
  - apply (proj1 (bio_implements_cache 1)).
  - vm_compute. lia.
  - exists s', v'. split; [|done]. rewrite He. f_equal.
    enough (match cexec (H := bio_cache 1) (ORead 7) (booted ∅) with Ret r _ => r | _ => None end
              = Some 0%nat) as Hv by (by rewrite He in Hv).
    vm_compute. reflexivity.
Defined.

(** The buffers from most to least recently used. *)
Definition recency (s : bio) (l : list nat) : Prop :=
  path (bnext s) (bprev s) head l head /\ l ≡ₚ seq 0 NBUF /\
  length (bnext s) = S NBUF /\ length (bprev s) = S NBUF.

Lemma recency_prev s l p :
  recency s l ->
  scan scan_fuel (bprev s) (bufs s) p (prev_of head s)
    = Some (List.find (fun b => p (bufs s !!! b)) (rev l)).
Proof.
  intros (Hp & Hperm & _). apply path_rev in Hp.
  assert (rev l ≡ₚ seq 0 NBUF) as Hperm' by (by rewrite <- Permutation_rev).
  destruct (ring_facts _ Hperm') as (_ & Hh & Hlen & _).
  unfold prev_of. rewrite (list_lookup_total_correct _ _ _ (path_first _ _ _ _ _ Hp)).
  apply (scan_path _ _ _ _ _ _ _ Hp Hh). rewrite Hlen. unfold scan_fuel. lia.
Qed.

(** No buffer caches block [b]. *)
Definition uncached (b : Z) (s : bio) : Prop :=
  forall i x, bufs s !! i = Some x -> dev x = ROOTDEV -> blockno x <> b.

Lemma uncached_scan pid s v b :
  bio_rep pid s v -> uncached b s ->
  scan scan_fuel (bnext s) (bufs s)
    (fun x => (dev x =? ROOTDEV) && (blockno x =? b)) (next_of head s) = Some None.
Proof.
  intros Hrep Hun. destruct (next_scan _ _ _ Hrep (fun x => (dev x =? ROOTDEV) && (blockno x =? b)))
    as (l & Hp & Hf). rewrite Hf. f_equal.
  destruct (List.find _ l) as [i|] eqn:E; [|done].
  destruct (find_hit _ _ _ Hrep (fun x => (dev x =? ROOTDEV) && (blockno x =? b)) _ _ Hp E)
    as (x & Hx & [Hd Hb]%andb_prop).
  exfalso. apply (Hun i x Hx); lia.
Qed.

(** Replacement is least recently used.  Reading an uncached block takes the
    unreferenced buffer that is last in recency order, everything behind it being
    referenced, and leaves the order alone; dropping the last reference of a
    buffer moves it to the front and keeps the order of the others. *)
Theorem bio_lru (pid : Z) (s : bio) (v : cview) (l : list nat) :
  bio_rep pid s v -> recency s l ->
  (forall b l1 i l2, uncached b s -> l = l1 ++ i :: l2 ->
     refcnt (get_buf i s) = 0 -> (forall j, j ∈ l2 -> refcnt (get_buf j s) <> 0) ->
     exists s', bio_bread pid ROOTDEV b s = Ret i s' /\ recency s' l) /\
  (forall b r l1 l2, cv_refs v !! b = Some r -> br_locked r = true -> br_cnt r = 1 ->
     l = l1 ++ br_h r :: l2 ->
     exists s', bio_brelse pid (br_h r) s = Ret tt s' /\ recency s' (br_h r :: l1 ++ l2)).
Proof.
  intros Hrep Hrec. pose proof (rep_content _ _ _ Hrep) as Hc. split.
  - intros b l1 i l2 Hun -> H0 Hl2. destruct Hrec as (Hp & Hperm & Hlen).
    destruct (ring_facts _ Hperm) as (_ & _ & _ & Hin).
    destruct (buf_at _ _ _ Hrep i) as (x & Hx & Hg).
    { apply Hin, elem_of_app. right. left. }
    unfold get_buf in H0. rewrite Hg in H0.
    assert (lock x = SleepLock Free false 0) as Hlk.
    { destruct (ct_bufs _ _ _ Hc i x Hx) as [(_ & ? & _)|(r & Hr & Hh)]; [done|].
      destruct (rep_buf _ _ _ _ _ Hrep Hr) as (y & Hy & [Hs ?] & _).
      rewrite Hh, Hx in Hy. injection Hy as <-. rewrite Hs in H0. simpl in H0. lia. }
    eexists. split.
    + eapply bread_recycled; [apply Hrep | exact Hx | by eapply uncached_scan | | exact Hlk].
      rewrite (recency_prev s (l1 ++ i :: l2)) by (by split). f_equal.
      rewrite rev_app_distr. simpl rev. rewrite <- app_assoc, find_app_skip.
      * simpl. by rewrite Hg, H0.
      * intros j Hj. apply Z.eqb_neq, Hl2. by apply list_elem_of_In, in_rev, list_elem_of_In.
    + by split.
  - intros b r l1 l2 Hr Hl Hcnt ->. destruct Hrec as (Hp & Hperm & Hln & Hlp).
    destruct (rep_buf _ _ _ _ _ Hrep Hr) as (x & Hx & [Hs ?] & Hlt).
    destruct (ring_facts _ Hperm) as (Hnd & Hh & _ & Hin).
    eexists. split; [eapply brelse_eval; [apply Hrep | exact Hx | by rewrite Hs, Hl]|].
    rewrite Hs. simpl. rewrite Hcnt, u32_small by lia. simpl. split_and!.
    + apply to_front_path; [done | by apply NoDup_cons |]. intros z Hz. simpl. rewrite Hln, Hlp.
      apply elem_of_cons in Hz as [->|Hz]; [unfold head; lia|]. apply Hin in Hz. lia.
    + by rewrite Permutation_middle.
    + unfold to_front. simpl. by rewrite !length_insert.
    + unfold to_front. simpl. by rewrite !length_insert.
Qed.

Lemma boot_recency d : recency (booted d) (rev (seq 0 NBUF)).
Proof.
  rewrite booted_eq. split_and!; [vm_compute; repeat split | | reflexivity | reflexivity].
  by rewrite <- Permutation_rev.
Qed.

Lemma bio_lru_witness :
  exists s', bio_bread 1 ROOTDEV 7 (booted ∅) = Ret 0%nat s' /\ recency s' (rev (seq 0 NBUF)).
Proof.
  destruct (bio_lru 1 (booted ∅) (CView ∅ [] ∅) (rev (seq 0 NBUF)) (bio_boot_rep 1 ∅)
              (boot_recency ∅)) as [Hr _].
  apply (Hr 7 (rev (seq 1 (NBUF - 1))) 0%nat []).
  - rewrite booted_eq. intros i x [-> _]%lookup_replicate Hd. discriminate Hd.
  - reflexivity.
  - rewrite booted_eq. reflexivity.
  - intros j Hj. inversion Hj.
Defined.

(** Misuse and exhaustion stop the machine.  Reading an uncached block when
    every buffer is referenced panics with "bget: no buffers"; [bwrite] and
    [brelse] of a buffer the process has not locked panic with their names. *)
Theorem bio_panics (pid : Z) (s : bio) (v : cview) :
  bio_rep pid s v ->
  (forall b, uncached b s -> (forall i x, bufs s !! i = Some x -> refcnt x <> 0) ->
     bio_bread pid ROOTDEV b s = Panic "bget: no buffers") /\
  (forall b r, cv_refs v !! b = Some r -> br_locked r = false ->
     bio_bwrite pid (br_h r) s = Panic "bwrite" /\ bio_brelse pid (br_h r) s = Panic "brelse").
Proof.
  intros Hrep. split.
  - intros b Hun Hall. destruct (prev_scan _ _ _ Hrep (fun x => refcnt x =? 0)) as (l & Hp & Hf).
    destruct (List.find _ l) as [i|] eqn:Hfi in Hf.
    { destruct (find_hit _ _ _ Hrep (fun x => refcnt x =? 0) _ _ Hp Hfi) as (x & Hx & H0).
      exfalso. apply (Hall i x Hx). lia. }
    pose proof (uncached_scan _ _ _ _ Hrep Hun) as Hn. pose proof (rep_lock _ _ _ Hrep) as Hlk.
    destruct s as [lk bs nx pv d w]; simpl in *; subst lk.
    unfold bio_bread, mbind at 1, M_bind at 1, bget.
    erewrite bind_ret by reflexivity. erewrite bind_ret by reflexivity.
    unfold id, next_of, prev_of in *. simpl in *. by rewrite Hn, Hf.
  - intros b r Hr Hl. destruct (rep_buf _ _ _ _ _ Hrep Hr) as (x & Hx & [Hs _] & _).
    rewrite Hl in Hs. split.
    + eapply bwrite_not_held; [exact Hx | by rewrite Hs].
    + eapply brelse_not_held; [exact Hx | by rewrite Hs].
Qed.

(** A block read, pinned and released: referenced, but not locked. *)
Lemma bio_panics_witness :
  exists s, (forall v, bio_rep 1 s v -> cv_refs v !! 7 = Some (BRef 0 1 false zero_block) ->
    bio_bwrite 1 0 s = Panic "bwrite") /\ bio_rep 1 s (CView ∅ [] {[ 7 := BRef 0 1 false zero_block ]}).
Proof.
  pose (x := Buf true ROOTDEV 7 (SleepLock Free false 0) 1 zero_block).
  pose (s := Bio Free (replicate NBUF inhabitant) boot_next boot_prev ∅ []).
  exists (set_buf 0 x s). split.
  - intros v Hrep Hr. apply (proj2 (bio_panics 1 (set_buf 0 x s) v Hrep) 7 _ Hr eq_refl).
  - pose proof (bio_boot_rep 1 ∅) as Hb. rewrite booted_eq in Hb. destruct Hb as [? ? Hc ? ?].
    split; [reflexivity | assumption | | reflexivity | reflexivity].
    change {[ 7 := BRef 0 1 false zero_block ]} with (<[7 := BRef 0 1 false zero_block]> (∅ : gmap Z bref)).
    apply (content_set 1 _ (CView ∅ [] ∅) 0 inhabitant 7 _ x Hc); [done | done | done | |].
    + intros j y [-> _]%lookup_replicate _ Hd. discriminate Hd.
    + intros c q Hq. simpl in Hq. by rewrite lookup_empty in Hq.
Defined.
