(* ===== verification/Log.v ===== *)
(** * Log: the write-ahead log of [kernel/log.c]

    The log is verified against the interface of the buffer cache ([BufCache]),
    not against its implementation.  The state is the [log] structure beside the
    cache; every block write reaches the device in the order of the calls to
    [bwrite], so a crash leaves the device with a prefix of those writes.

    [redo] says what a device with a log on it means: the transaction the header
    names, if any, applied to the home locations.  The main theorems say that
    recovery establishes [redo], that a crash during recovery changes nothing of
    it, and that the writes of [commit] switch it from the old contents to the
    new ones in one step.  The last section follows concurrent operations through
    [begin_op], [log_write] and [end_op] and bounds the space they take. *)

From S2P Require Import Prelude BufCache.

(** ** State *)

Record superblock := SuperBlock {
  sb_magic : Z; sb_size : Z; sb_nblocks : Z; sb_ninodes : Z;
  sb_nlog : Z; sb_logstart : Z; sb_inodestart : Z; sb_bmapstart : Z
}.

Record logheader := LogHeader { lh_n : Z; lh_block : list Z }.

Record log := MkLog {
  lg_lock : spin;
  lg_start : Z;
  lg_size : Z;
  lg_outstanding : Z;
  lg_committing : bool;
  lg_dev : Z;
  lg_lh : logheader
}.

(** The zeroed [struct log] of a booting kernel. *)
Definition log_bss : log :=
  MkLog Free 0 0 0 false 0 (LogHeader 0 (replicate (Z.to_nat LOGSIZE) 0)).

(** [sizeof(struct logheader)] *)
Definition sizeof_logheader : Z := 4 + 4 * LOGSIZE.

(** ** The header block *)

(** The [int] at byte [off] of a block. *)
Definition get_int (x : block) (off : nat) : Z := i32 (le_join (take 4 (drop off x))).
Definition set_int (x : block) (off : nat) (v : Z) : block := splice x off (le_split 4 v).

(** The fields [n] and [block[i]] of a [struct logheader] in a block. *)
Definition hb_n (x : block) : Z := get_int x 0.
Definition hb_block (x : block) (i : nat) : Z := get_int x (4 + 4 * i).
Definition hb_set_n (v : Z) (x : block) : block := set_int x 0 v.
Definition hb_set_block (i : nat) (v : Z) (x : block) : block := set_int x (4 + 4 * i) v.

(** ** Operations *)

Section Ops.
Context {S : Type} `{BufCache S}.

Record sys := Sys { sys_log : log; sys_cache : S }.

Definition cacheL : lens sys S := Lens sys_cache (fun c s => Sys (sys_log s) c).

Definition with_log (f : log -> log) (s : sys) : sys := Sys (f (sys_log s)) (sys_cache s).

Definition set_lock (l : spin) (g : log) : log :=
  MkLog l (lg_start g) (lg_size g) (lg_outstanding g) (lg_committing g) (lg_dev g) (lg_lh g).
Definition set_outstanding (o : Z) (g : log) : log :=
  MkLog (lg_lock g) (lg_start g) (lg_size g) o (lg_committing g) (lg_dev g) (lg_lh g).
Definition set_committing (c : bool) (g : log) : log :=
  MkLog (lg_lock g) (lg_start g) (lg_size g) (lg_outstanding g) c (lg_dev g) (lg_lh g).
Definition set_geometry (start size dev : Z) (g : log) : log :=
  MkLog (lg_lock g) start size (lg_outstanding g) (lg_committing g) dev (lg_lh g).
Definition set_lh (h : logheader) (g : log) : log :=
  MkLog (lg_lock g) (lg_start g) (lg_size g) (lg_outstanding g) (lg_committing g) (lg_dev g) h.
Definition set_lh_n (n : Z) (g : log) : log := set_lh (LogHeader n (lh_block (lg_lh g))) g.
Definition set_lh_block (b : list Z) (g : log) : log := set_lh (LogHeader (lh_n (lg_lh g)) b) g.

Definition log_lockL : lens sys spin :=
  Lens (fun s => lg_lock (sys_log s)) (fun l s => with_log (set_lock l) s).

Definition glog {A} (f : log -> A) : M sys A := gets (fun s => f (sys_log s)).
Definition mlog (f : log -> log) : M sys unit := modify (with_log f).

Definition sread (dv b : Z) : M sys nat := zoom cacheL (bread (u32 dv) (u32 b)).
Definition swrite (h : nat) : M sys unit := zoom cacheL (bwrite h).
Definition srelse (h : nat) : M sys unit := zoom cacheL (brelse h).
Definition sdata (h : nat) : M sys block := gets (fun s => bdata h (sys_cache s)).
Definition sset (h : nat) (x : block) : M sys unit := zoom cacheL (bset h x).

(** [for (tail = 0; tail < log.lh.n; tail++) body], the body not changing [log.lh.n]. *)
Definition for_tail (body : nat -> M sys unit) : M sys unit :=
  n ← glog (fun g => lh_n (lg_lh g));
  for_each (R := unit) (seq 0 (Z.to_nat n)) (fun i => body i;; mret None);;
  mret tt.

Definition lh_get (i : nat) : M sys Z := arr_get (fun s => lh_block (lg_lh (sys_log s))) i.
Definition lh_put (i : nat) (v : Z) : M sys unit :=
  bs ← glog (fun g => lh_block (lg_lh g));
  arr_set bs i v (fun bs' => mlog (set_lh_block bs')).

Definition install_trans (recovering : bool) : M sys unit :=
  for_tail (fun tail =>
    dv ← glog lg_dev; start ← glog lg_start;
    lbuf ← sread dv (start + Z.of_nat tail + 1);
    b ← lh_get tail;
    dbuf ← sread dv b;
    x ← sdata lbuf; sset dbuf x;;
    swrite dbuf;;
    when (negb recovering) (zoom cacheL (bunpin dbuf));;
    srelse lbuf;;
    srelse dbuf).

Definition read_head : M sys unit :=
  dv ← glog lg_dev; start ← glog lg_start;
  buf ← sread dv start;
  x ← sdata buf;
  mlog (set_lh_n (hb_n x));;
  for_tail (fun i => y ← sdata buf; lh_put i (hb_block y i));;
  srelse buf.

Definition write_head : M sys unit :=
  dv ← glog lg_dev; start ← glog lg_start;
  buf ← sread dv start;
  n ← glog (fun g => lh_n (lg_lh g));
  x ← sdata buf; sset buf (hb_set_n n x);;
  for_tail (fun i => b ← lh_get i; y ← sdata buf; sset buf (hb_set_block i b y));;
  swrite buf;;
  srelse buf.

Definition recover_from_log : M sys unit :=
  read_head;;
  install_trans true;;
  mlog (set_lh_n 0);;
  write_head.

Definition initlog (dv : Z) (sb : superblock) : M sys unit :=
  if BSIZE <=? sizeof_logheader then panic "initlog: too big logheader" else
  modify (put log_lockL Free);;
  mlog (set_geometry (i32 (sb_logstart sb)) (i32 (sb_nlog sb)) dv);;
  recover_from_log.

(** A process that has to wait gives the lock back and starts over when woken. *)
Definition begin_op : M sys unit :=
  acquire log_lockL;;
  g ← glog id;
  if lg_committing g then release log_lockL;; sleep_on "log"
  else if lh_n (lg_lh g) + (lg_outstanding g + 1) * MAXOPBLOCKS >? LOGSIZE
  then release log_lockL;; sleep_on "log"
  else
    mlog (set_outstanding (lg_outstanding g + 1));;
    release log_lockL.

Definition write_log : M sys unit :=
  for_tail (fun tail =>
    dv ← glog lg_dev; start ← glog lg_start;
    to ← sread dv (start + Z.of_nat tail + 1);
    b ← lh_get tail;
    from ← sread dv b;
    x ← sdata from; sset to x;;
    swrite to;;
    srelse from;;
    srelse to).

(** The calls in the body of [commit], which run without the log's lock. *)
Definition commit_body : list (M sys unit) :=
  [ write_log;
    write_head;
    install_trans false;
    mlog (set_lh_n 0);
    write_head ].

Definition commit : M sys unit :=
  n ← glog (fun g => lh_n (lg_lh g));
  when (0 <? n) (foldr (fun m k => m;; k) (mret tt) commit_body).

(** The first critical section of [end_op]: the value of [do_commit].  [wakeup(&log)]
    makes the waiting processes runnable; nothing here changes. *)
Definition end_op_leave : M sys bool :=
  acquire log_lockL;;
  o ← glog lg_outstanding;
  mlog (set_outstanding (o - 1));;
  c ← glog lg_committing;
  if (c : bool) then panic "log.committing" else
  do_commit ← (if o - 1 =? 0 then mlog (set_committing true);; mret true else mret false);
  release log_lockL;;
  mret do_commit.

(** The last critical section. *)
Definition end_op_done : M sys unit :=
  acquire log_lockL;;
  mlog (set_committing false);;
  release log_lockL.

Definition end_op : M sys unit :=
  do_commit ← end_op_leave;
  when do_commit (commit;; end_op_done).

(** The search for a block already in the log: the index of the first match, or
    [log.lh.n]. *)
Fixpoint absorb (blockno : Z) (bs : list Z) (i : nat) : nat :=
  match bs with
  | [] => i
  | b :: bs => if u32 b =? blockno then i else absorb blockno bs (Datatypes.S i)
  end.

Definition log_write (b : nat) : M sys unit :=
  acquire log_lockL;;
  g ← glog id;
  let n := lh_n (lg_lh g) in
  if (LOGSIZE <=? n) || (lg_size g - 1 <=? n) then panic "too big a transaction" else
  if lg_outstanding g <? 1 then panic "log_write outside of trans" else
  blockno ← gets (fun s => bblockno b (sys_cache s));
  let i := absorb blockno (take (Z.to_nat n) (lh_block (lg_lh g))) 0 in
  lh_put i (i32 blockno);;
  when (Z.of_nat i =? n) (
    zoom cacheL (bpin b);;
    mlog (set_lh_n (n + 1)));;
  release log_lockL.

End Ops.
Arguments sys S : clear implicits.

(** ** The header block: reading back what was written *)

Lemma length_set_int x off v : (off + 4 <= length x)%nat -> length (set_int x off v) = length x.
Proof. intros. unfold set_int. apply length_splice. by rewrite length_le_split. Qed.

Lemma get_set_int_eq x off v :
  (off + 4 <= length x)%nat -> get_int (set_int x off v) off = i32 v.
Proof.
  intros. unfold get_int, set_int.
  replace 4%nat with (length (le_split 4 v)) at 1 by apply length_le_split.
  rewrite take_drop_splice_in by (by rewrite length_le_split).
  rewrite le_join_split. unfold i32. change (256 ^ Z.of_nat 4) with (2 ^ 32).
  by rewrite Zplus_mod_idemp_l.
Qed.

Lemma get_set_int_ne x off v off' :
  (off + 4 <= length x)%nat -> (off' + 4 <= off \/ off + 4 <= off')%nat ->
  get_int (set_int x off v) off' = get_int x off'.
Proof.
  intros. unfold get_int, set_int.
  rewrite take_drop_splice_out; [done | by rewrite length_le_split..].
Qed.

Lemma u32_i32 x : u32 (i32 x) = u32 x.
Proof.
  unfold u32, i32. rewrite Zminus_mod_idemp_l. f_equal. lia.
Qed.

Lemma i32_u32 x : i32 x = i32 (u32 x).
Proof. unfold u32, i32. by rewrite Zplus_mod_idemp_l. Qed.

(** The header after [write_head]: [n], then the block numbers. *)
Fixpoint put_blocks (i : nat) (bs : list Z) (x : block) : block :=
  match bs with [] => x | b :: bs => put_blocks (Datatypes.S i) bs (hb_set_block i b x) end.
Definition header (n : Z) (bs : list Z) (x : block) : block := put_blocks 0 bs (hb_set_n n x).

Lemma length_put_blocks i bs x :
  (4 + 4 * (i + length bs) <= length x)%nat -> length (put_blocks i bs x) = length x.
Proof.
  revert i x. induction bs as [|b bs IH]; intros i x Hx; simpl in *; [done|].
  unfold hb_set_block. rewrite IH; rewrite length_set_int; lia.
Qed.

Lemma put_blocks_keep i bs x off :
  (4 + 4 * (i + length bs) <= length x)%nat -> (off + 4 <= 4 + 4 * i)%nat ->
  get_int (put_blocks i bs x) off = get_int x off.
Proof.
  revert i x. induction bs as [|b bs IH]; intros i x Hx Ho; simpl in *; [done|].
  unfold hb_set_block. rewrite IH by (rewrite ?length_set_int; lia).
  apply get_set_int_ne; lia.
Qed.

Lemma put_blocks_get i bs x j b :
  (4 + 4 * (i + length bs) <= length x)%nat -> bs !! j = Some b ->
  hb_block (put_blocks i bs x) (i + j) = i32 b.
Proof.
  revert i x j. induction bs as [|c bs IH]; intros i x j Hx Hj; simpl in *; [done|].
  destruct j as [|j]; simpl in Hj; simplify_eq.
  - unfold hb_block. rewrite put_blocks_keep; unfold hb_set_block; rewrite ?length_set_int; try lia.
    rewrite Nat.add_0_r. apply get_set_int_eq. lia.
  - replace (i + Datatypes.S j)%nat with (Datatypes.S i + j)%nat by lia. apply IH; [|done].
    unfold hb_set_block. rewrite length_set_int; lia.
Qed.

Lemma put_blocks_snoc i bs b x :
  put_blocks i (bs ++ [b]) x = hb_set_block (i + length bs) b (put_blocks i bs x).
Proof.
  revert i x. induction bs as [|c bs IH]; intros i x; simpl; [by rewrite Nat.add_0_r|].
  rewrite IH. f_equal. lia.
Qed.

Lemma header_n n bs x :
  (4 + 4 * length bs <= length x)%nat -> hb_n (header n bs x) = i32 n.
Proof.
  intros. unfold hb_n, header, hb_set_n.
  rewrite put_blocks_keep by (rewrite ?length_set_int; lia). apply get_set_int_eq. lia.
Qed.

Lemma header_block n bs x j b :
  (4 + 4 * length bs <= length x)%nat -> bs !! j = Some b -> hb_block (header n bs x) j = i32 b.
Proof.
  intros. unfold header. apply (put_blocks_get 0); [|done].
  unfold hb_set_n. rewrite length_set_int; lia.
Qed.

Lemma length_header n bs x :
  (4 + 4 * length bs <= length x)%nat -> length (header n bs x) = length x.
Proof.
  intros. unfold header, hb_set_n. rewrite length_put_blocks; rewrite length_set_int; lia.
Qed.

(** ** Sequences of block writes *)

Definition last_write (ws : list (Z * block)) (b : Z) : option block :=
  foldl (fun o w => if decide (w.1 = b) then Some w.2 else o) None ws.

Lemma last_write_snoc ws w b :
  last_write (ws ++ [w]) b = if decide (w.1 = b) then Some w.2 else last_write ws b.
Proof. unfold last_write. by rewrite foldl_app. Qed.

Lemma lookup_apply_writes ws d b :
  apply_writes ws d !! b = match last_write ws b with Some x => Some x | None => d !! b end.
Proof.
  induction ws as [|w ws IH] using rev_ind; [done|].
  rewrite apply_writes_app, last_write_snoc. simpl. rewrite lookup_insert.
  by case_decide.
Qed.

Lemma last_write_None ws b : last_write ws b = None <-> forall w, w ∈ ws -> w.1 <> b.
Proof.
  induction ws as [|w ws IH] using rev_ind.
  { split; [|done]. intros _ w Hw. by apply elem_of_nil in Hw. }
  rewrite last_write_snoc. case_decide as Hd.
  - split; [done|]. intros Hall. exfalso. apply (Hall w); [|done]. apply elem_of_app. right. left.
  - rewrite IH. split.
    + intros Hall w' [?|Hw']%elem_of_app; [auto|]. by apply list_elem_of_singleton in Hw' as ->.
    + intros Hall w' Hw'. apply Hall, elem_of_app. by left.
Qed.

Lemma dread_apply_ne ws d b :
  (forall w, w ∈ ws -> w.1 <> b) -> dread (apply_writes ws d) b = dread d b.
Proof. intros Hw. unfold dread. rewrite lookup_apply_writes. by rewrite (proj2 (last_write_None ws b) Hw). Qed.

(** Writing a sequence over a part of itself that already got there. *)
Lemma apply_writes_again ws ws' d :
  (forall w, w ∈ ws' -> exists w', w' ∈ ws /\ w'.1 = w.1) ->
  apply_writes ws (apply_writes ws' d) = apply_writes ws d.
Proof.
  intros Hsub. apply map_eq. intros b. rewrite !lookup_apply_writes.
  destruct (last_write ws b) eqn:E; [done|].
  rewrite (proj2 (last_write_None ws' b)); [done|].
  intros w Hw Heq. destruct (Hsub w Hw) as (w' & Hw' & He).
  rewrite last_write_None in E. apply (E w' Hw'). congruence.
Qed.

(** ** What a device with a log means *)

Section Redo.
Variables start cap : Z.

(** The header and the [cap] blocks behind it. *)
Definition in_log (b : Z) : Prop := start <= b <= start + cap.
Definition log_blk (i : nat) : Z := start + Z.of_nat i + 1.

Definition targets (d : blocks) : list Z :=
  let x := dread d start in
  (fun i => u32 (hb_block x i)) <$> seq 0 (Z.to_nat (hb_n x)).

Definition copies (bl : list Z) (d : blocks) : list (Z * block) :=
  imap (fun i b => (b, dread d (log_blk i))) bl.

(** The committed transaction, if the header names one, in its home locations. *)
Definition redo (d : blocks) : blocks := apply_writes (copies (targets d) d) d.

Definition wf_log (d : blocks) : Prop :=
  length (dread d start) = Z.to_nat BSIZE /\
  0 <= hb_n (dread d start) <= cap /\
  forall b, b ∈ targets d -> ~ in_log b.

Lemma copies_fst bl d w : w ∈ copies bl d -> w.1 ∈ bl.
Proof.
  unfold copies. rewrite elem_of_lookup_imap. intros (i & b & -> & Hb). simpl.
  by eapply list_elem_of_lookup_2.
Qed.

Lemma length_targets d : length (targets d) = Z.to_nat (hb_n (dread d start)).
Proof. unfold targets. by rewrite length_fmap, length_seq. Qed.

Lemma in_log_start : 0 <= cap -> in_log start.
Proof. unfold in_log. lia. Qed.

Lemma in_log_blk i : (i < Z.to_nat cap)%nat -> in_log (log_blk i).
Proof. unfold in_log, log_blk. lia. Qed.

(** Devices with the same log area name the same transaction. *)
Lemma targets_same d d' : dread d' start = dread d start -> targets d' = targets d.
Proof. unfold targets. by intros ->. Qed.

Lemma copies_same bl d d' :
  (length bl <= Z.to_nat cap)%nat ->
  (forall b, in_log b -> dread d' b = dread d b) -> copies bl d' = copies bl d.
Proof.
  intros Hlen Hsame. unfold copies. apply imap_ext. intros i b Hi. f_equal.
  apply Hsame, in_log_blk. apply lookup_lt_Some in Hi. lia.
Qed.

(** Installing any part of the transaction keeps the meaning of the device. *)
Lemma redo_prefix d k :
  wf_log d ->
  let d' := apply_writes (take k (copies (targets d) d)) d in
  wf_log d' /\ redo d' = redo d.
Proof.
  intros (Hlen & Hn & Ht) d'.
  assert (forall b, in_log b -> dread d' b = dread d b) as Hsame.
  { intros b Hb. apply dread_apply_ne. intros w Hw He. subst b.
    apply (Ht w.1); [|done]. eapply copies_fst, in_take, Hw. }
  pose proof (targets_same d d' (Hsame start (in_log_start ltac:(lia)))) as Htg.
  split.
  - unfold wf_log. by rewrite Htg, (Hsame start (in_log_start ltac:(lia))).
  - unfold redo. rewrite Htg, (copies_same _ d) by (try done; rewrite length_targets; lia).
    unfold d'. apply apply_writes_again. intros w Hw. exists w. split; [|done].
    by eapply in_take.
Qed.

(** An empty header: the device means what is on it. *)
Lemma redo_empty d : hb_n (dread d start) = 0 -> redo d = d.
Proof. intros H. unfold redo, targets. by rewrite H. Qed.

End Redo.

(** The references left after those of [bl] are dropped. *)
Definition dels (R : gmap Z bref) (bl : list Z) : gmap Z bref :=
  foldl (fun R b => delete b R) R bl.

Lemma dels_snoc R bl b : dels R (bl ++ [b]) = delete b (dels R bl).
Proof. unfold dels. by rewrite foldl_app. Qed.

Lemma lookup_dels R bl b : dels R bl !! b = if decide (b ∈ bl) then None else R !! b.
Proof.
  induction bl as [|c bl IH] using rev_ind; [done|]. rewrite dels_snoc, lookup_delete, IH.
  destruct (decide (c = b)) as [->|Hne].
  - rewrite decide_True; [done|]. apply elem_of_app. right. left.
  - destruct (decide (b ∈ bl)) as [Hin|Hin].
    + rewrite decide_True; [done|]. apply elem_of_app. by left.
    + rewrite decide_False; [done|]. intros [?|Hb]%elem_of_app; [done|].
      by apply list_elem_of_singleton in Hb.
Qed.

Lemma size_dels R bl : (size (dels R bl) <= size R)%nat.
Proof.
  apply map_subseteq_size, map_subseteq_spec. intros b r. rewrite lookup_dels.
  by case_decide.
Qed.

Lemma dels_id R bl : (forall b, b ∈ bl -> R !! b = None) -> dels R bl = R.
Proof.
  intros Hn. apply map_eq. intros b. rewrite lookup_dels. case_decide; [|done].
  symmetry. by apply Hn.
Qed.

(** The contents of block [b] as the kernel sees it: the buffer if the block is
    referenced, else the device. *)
Definition content (v : cview) (b : Z) : block :=
  match cv_refs v !! b with Some r => br_data r | None => dread (cv_disk v) b end.

(** ** Rules for the calls into the cache *)

Section Rules.
Context {S : Type} `{BufCacheLaws S}.

Definition at_view (s : sys S) (g : log) (v : cview) : Prop :=
  sys_log s = g /\ cache_rep (sys_cache s) v.

Lemma r_read_hit s g v b r (Q : nat -> sys S -> Prop) :
  at_view s g v -> cv_refs v !! b = Some r -> br_locked r = false -> br_cnt r < 2 ^ 32 - 1 ->
  0 <= b < 2 ^ 32 ->
  (forall s', at_view s' g
     (set_refs <[b := BRef (br_h r) (br_cnt r + 1) true (br_data r)]> v) -> Q (br_h r) s') ->
  wp (sread ROOTDEV b) Q s.
Proof.
  intros [Hg Hrep] Hr Hl Hc Hb HQ. destruct (bread_hit _ _ _ _ Hrep Hr Hl Hc) as (c & He & Hc').
  unfold sread. rewrite (u32_small b) by done. apply wp_zoom. eapply wp_intro; [exact He|].
  by apply HQ.
Qed.

Lemma r_read_miss s g v b (Q : nat -> sys S -> Prop) :
  at_view s g v -> cv_refs v !! b = None -> (size (cv_refs v) < NBUF)%nat -> 0 <= b < 2 ^ 32 ->
  (forall h s', at_view s' g (set_refs <[b := BRef h 1 true (dread (cv_disk v) b)]> v) -> Q h s') ->
  wp (sread ROOTDEV b) Q s.
Proof.
  intros [Hg Hrep] Hr Hsz Hb HQ. destruct (bread_miss _ _ _ Hrep Hr Hsz) as (h & c & He & Hc').
  unfold sread. rewrite (u32_small b) by done. apply wp_zoom. eapply wp_intro; [exact He|].
  by apply HQ.
Qed.

Lemma r_data s g v b r h (Q : block -> sys S -> Prop) :
  at_view s g v -> cv_refs v !! b = Some r -> br_h r = h -> Q (br_data r) s -> wp (sdata h) Q s.
Proof.
  intros [Hg Hrep] Hr <- HQ. apply wp_gets. by rewrite (bdata_law _ _ _ _ Hrep Hr).
Qed.

Lemma r_set s g v b r h x (Q : unit -> sys S -> Prop) :
  at_view s g v -> cv_refs v !! b = Some r -> br_h r = h -> br_locked r = true ->
  (forall s', at_view s' g (set_refs <[b := BRef h (br_cnt r) true x]> v) -> Q tt s') ->
  wp (sset h x) Q s.
Proof.
  intros [Hg Hrep] Hr <- Hl HQ. destruct (bset_law _ _ _ _ x Hrep Hr Hl) as (c & He & Hc').
  apply wp_zoom. eapply wp_intro; [exact He|]. by apply HQ.
Qed.

Lemma r_write s g v b r h (Q : unit -> sys S -> Prop) :
  at_view s g v -> cv_refs v !! b = Some r -> br_h r = h -> br_locked r = true ->
  (forall s', at_view s' g (CView (<[b := br_data r]> (cv_disk v))
                              (cv_writes v ++ [(b, br_data r)]) (cv_refs v)) -> Q tt s') ->
  wp (swrite h) Q s.
Proof.
  intros [Hg Hrep] Hr <- Hl HQ. destruct (bwrite_law _ _ _ _ Hrep Hr Hl) as (c & He & Hc').
  apply wp_zoom. eapply wp_intro; [exact He|]. by apply HQ.
Qed.

Lemma r_relse_last s g v b r h (Q : unit -> sys S -> Prop) :
  at_view s g v -> cv_refs v !! b = Some r -> br_h r = h -> br_locked r = true -> br_cnt r = 1 ->
  br_data r = dread (cv_disk v) b ->
  (forall s', at_view s' g (set_refs (delete b) v) -> Q tt s') ->
  wp (srelse h) Q s.
Proof.
  intros [Hg Hrep] Hr <- Hl Hc Hd HQ.
  destruct (brelse_last _ _ _ _ Hrep Hr Hl Hc Hd) as (c & He & Hc').
  apply wp_zoom. eapply wp_intro; [exact He|]. by apply HQ.
Qed.

Lemma r_relse_more s g v b r h (Q : unit -> sys S -> Prop) :
  at_view s g v -> cv_refs v !! b = Some r -> br_h r = h -> br_locked r = true -> 1 < br_cnt r ->
  (forall s', at_view s' g (set_refs <[b := BRef h (br_cnt r - 1) false (br_data r)]> v) -> Q tt s') ->
  wp (srelse h) Q s.
Proof.
  intros [Hg Hrep] Hr <- Hl Hc HQ.
  destruct (brelse_more _ _ _ _ Hrep Hr Hl Hc) as (c & He & Hc').
  apply wp_zoom. eapply wp_intro; [exact He|]. by apply HQ.
Qed.

Lemma r_unpin s g v b r h (Q : unit -> sys S -> Prop) :
  at_view s g v -> cv_refs v !! b = Some r -> br_h r = h -> 1 < br_cnt r ->
  (forall s', at_view s' g
     (set_refs <[b := BRef h (br_cnt r - 1) (br_locked r) (br_data r)]> v) -> Q tt s') ->
  wp (zoom cacheL (bunpin h)) Q s.
Proof.
  intros [Hg Hrep] Hr <- Hc HQ. destruct (bunpin_law _ _ _ _ Hrep Hr Hc) as (c & He & Hc').
  apply wp_zoom. eapply wp_intro; [exact He|]. by apply HQ.
Qed.

Lemma r_pin s g v b r h (Q : unit -> sys S -> Prop) :
  at_view s g v -> cv_refs v !! b = Some r -> br_h r = h -> br_cnt r < 2 ^ 32 - 1 ->
  (forall s', at_view s' g
     (set_refs <[b := BRef h (br_cnt r + 1) (br_locked r) (br_data r)]> v) -> Q tt s') ->
  wp (zoom cacheL (bpin h)) Q s.
Proof.
  intros [Hg Hrep] Hr <- Hc HQ. destruct (bpin_law _ _ _ _ Hrep Hr Hc) as (c & He & Hc').
  apply wp_zoom. eapply wp_intro; [exact He|]. by apply HQ.
Qed.

Lemma r_log {A} s g v (f : log -> A) (Q : A -> sys S -> Prop) :
  at_view s g v -> Q (f g) s -> wp (glog f) Q s.
Proof. intros [<- _] HQ. by apply wp_gets. Qed.

Lemma r_mlog s g v f (Q : unit -> sys S -> Prop) :
  at_view s g v -> (forall s', at_view s' (f g) v -> Q tt s') -> wp (mlog f) Q s.
Proof. intros [<- Hr] HQ. apply wp_modify, HQ. by split. Qed.

Lemma r_lh_get s g v i b (Q : Z -> sys S -> Prop) :
  at_view s g v -> lh_block (lg_lh g) !! i = Some b -> Q b s -> wp (lh_get i) Q s.
Proof. intros [<- _] Hb HQ. by eapply wp_arr_get. Qed.

Lemma r_lh_put s g v i b (Q : unit -> sys S -> Prop) :
  at_view s g v -> (i < length (lh_block (lg_lh g)))%nat ->
  (forall s', at_view s' (set_lh_block (<[i := b]> (lh_block (lg_lh g))) g) v -> Q tt s') ->
  wp (lh_put i b) Q s.
Proof.
  intros Hv Hi HQ. unfold lh_put. apply wp_bind. eapply r_log; [done|].
  unfold arr_set. rewrite decide_True by done. by eapply r_mlog.
Qed.

Lemma r_acquire s g v (Q : unit -> sys S -> Prop) :
  at_view s g v -> lg_lock g = Free ->
  (forall s', at_view s' (set_lock Held g) v -> Q tt s') -> wp (acquire log_lockL) Q s.
Proof.
  intros [<- Hr] Hl HQ. unfold wp, acquire. simpl. rewrite Hl. by apply HQ.
Qed.

Lemma r_release s g v (Q : unit -> sys S -> Prop) :
  at_view s g v -> lg_lock g = Held ->
  (forall s', at_view s' (set_lock Free g) v -> Q tt s') -> wp (release log_lockL) Q s.
Proof.
  intros [<- Hr] Hl HQ. unfold wp, release. simpl. rewrite Hl. by apply HQ.
Qed.

Lemma r_blockno s g v b r h (Q : Z -> sys S -> Prop) :
  at_view s g v -> cv_refs v !! b = Some r -> br_h r = h -> Q b s ->
  wp (gets (fun s => bblockno h (sys_cache s))) Q s.
Proof.
  intros [Hg Hrep] Hr <- HQ. apply wp_gets. by rewrite (bblockno_law _ _ _ _ Hrep Hr).
Qed.

(** The loop over the entries of the in-memory header. *)
Lemma r_for_tail s g v (body : nat -> M (sys S) unit) (Q : unit -> sys S -> Prop)
    (I : nat -> sys S -> Prop) :
  at_view s g v -> I O s ->
  (forall i s, (i < Z.to_nat (lh_n (lg_lh g)))%nat -> I i s ->
     wp (body i) (fun _ s' => I (Datatypes.S i) s') s) ->
  (forall s, I (Z.to_nat (lh_n (lg_lh g))) s -> Q tt s) ->
  wp (for_tail body) Q s.
Proof.
  intros Hv HI0 Hstep Hend. unfold for_tail. apply wp_bind. eapply r_log; [done|].
  apply wp_bind. apply wp_for_each with (I := fun l s => I (length l) s); [done| |].
  - intros done x rest s' Hseq HI. apply wp_bind.
    assert (x = length done /\ (x < Z.to_nat (lh_n (lg_lh g)))%nat) as [-> Hlt].
    { assert (seq 0 (Z.to_nat (lh_n (lg_lh g))) !! length done = Some x) as Hx.
      { rewrite Hseq. by apply list_lookup_middle. }
      apply lookup_seq in Hx. lia. }
    eapply wp_mono; [|by apply Hstep]. intros [] s'' HI'. simpl.
    apply wp_ret. by rewrite length_app, Nat.add_comm.
  - intros s'. rewrite length_seq. intros HI. by apply wp_ret, Hend.
Qed.
End Rules.

(** Tactics that run the code against the rules. *)
Ltac bind := match goal with |- wp (mbind _ _) _ _ => apply wp_bind | |- _ => idtac end.
Ltac rd_log := apply wp_bind; eapply r_log; [eassumption|].
Ltac side := first [done | simpl; lia | simpl; rewrite dread_insert_eq; done
                   | simpl; rewrite dread_insert_ne; done].
(** Apply the rule of a cache operation to the buffer of block [b]; [Hv] is the view. *)
Ltac call rule b Hv :=
  bind; eapply (rule _ _ _ b); [exact Hv | by simplify_map_eq | side .. |];
  clear Hv; intros ? Hv; unfold set_refs in Hv; simpl in Hv.
Ltac get b Hv := bind; eapply (r_data _ _ _ b); [exact Hv | by simplify_map_eq | done | simpl].
(** Two maps of references that agree once the keys [b1] and [b2] are told apart. *)
Ltac refs_eq b1 b2 :=
  apply map_eq; intros k; destruct (decide (k = b1)), (decide (k = b2)); subst; by simplify_map_eq.

(** ** The parts of a commit *)

Section Parts.
Context {S : Type} `{BufCacheLaws S}.
Variables start cap : Z.
Hypothesis start_range : 0 <= start /\ start + LOGSIZE < 2 ^ 31.
Hypothesis cap_range : 0 <= cap < LOGSIZE.

Abbreviation in_logS := (in_log start cap).
Abbreviation log_blkS := (log_blk start).

(** The in-memory log: geometry, and the block numbers [bl] in the header. *)
Record log_is (g : log) (bl : list Z) : Prop := {
  li_start : lg_start g = start;
  li_dev : lg_dev g = ROOTDEV;
  li_n : lh_n (lg_lh g) = Z.of_nat (length bl);
  li_len : length (lh_block (lg_lh g)) = Z.to_nat LOGSIZE;
  li_max : (length bl <= Z.to_nat cap)%nat;
  li_block : forall i b, bl !! i = Some b -> lh_block (lg_lh g) !! i = Some (i32 b);
  li_range : forall b, b ∈ bl -> 0 <= b < 2 ^ 32 /\ ~ in_logS b
}.

Definition no_log_refs (v : cview) : Prop := forall b, in_logS b -> cv_refs v !! b = None.

(** Block [b] is pinned by the log and not otherwise referenced, or, during
    recovery, not referenced at all. *)
Definition pinned (recovering : bool) (R : gmap Z bref) (b : Z) : Prop :=
  if recovering then R !! b = None else exists h x, R !! b = Some (BRef h 1 false x).

Lemma sread_i32 s (Q : nat -> sys S -> Prop) dv b :
  wp (sread dv b) Q s -> wp (sread dv (i32 b)) Q s.
Proof. unfold sread. by rewrite u32_i32. Qed.

Lemma delete_same (R : gmap Z bref) b : R !! b = None -> delete b R = R.
Proof. apply delete_id. Qed.

(** One round of [install_trans]. *)
Lemma install_one recovering s g v i b bl (Q : unit -> sys S -> Prop) :
  at_view s g v -> log_is g bl -> bl !! i = Some b -> no_log_refs v ->
  pinned recovering (cv_refs v) b ->
  (size (cv_refs v) + (if recovering then 2 else 1) <= NBUF)%nat ->
  (forall s', at_view s' g (CView (<[b := dread (cv_disk v) (log_blkS i)]> (cv_disk v))
                              (cv_writes v ++ [(b, dread (cv_disk v) (log_blkS i))])
                              (delete b (cv_refs v))) -> Q tt s') ->
  wp (dv ← glog lg_dev; start ← glog lg_start;
      lbuf ← sread dv (start + Z.of_nat i + 1);
      b ← lh_get i;
      dbuf ← sread dv b;
      x ← sdata lbuf; sset dbuf x;;
      swrite dbuf;;
      when (negb recovering) (zoom cacheL (bunpin dbuf));;
      srelse lbuf;;
      srelse dbuf) Q s.
Proof.
  intros Hv Hli Hi Hnl Hpin Hsz HQ. destruct v as [d ws R]; simpl in *.
  assert (i < length bl)%nat as Hlt by (by eapply lookup_lt_Some).
  pose proof (li_max _ _ Hli) as Hmax.
  destruct (li_range _ _ Hli b) as [Hbr Hbl]; [by eapply list_elem_of_lookup_2|].
  assert (in_logS (log_blkS i)) as Hlb by (apply in_log_blk; lia).
  assert (b <> log_blkS i) as Hne by (intros ->; done).
  assert (0 <= log_blkS i < 2 ^ 32) as Hlbr.
  { unfold log_blk in *. unfold LOGSIZE, MAXOPBLOCKS in *. lia. }
  rd_log. rd_log. rewrite (li_dev _ _ Hli), (li_start _ _ Hli).
  apply wp_bind. eapply r_read_miss; [exact Hv | by apply Hnl | destruct recovering; simpl in *; lia | done |].
  clear Hv. intros lbuf s1 Hv. unfold set_refs in Hv; simpl in Hv.
  apply wp_bind. eapply r_lh_get; [exact Hv | by eapply (li_block _ _ Hli) |].
  apply wp_bind, sread_i32. pose proof (Hnl _ Hlb) as HRl. destruct recovering; simpl in Hpin, Hsz.
  - eapply r_read_miss; [exact Hv | by simplify_map_eq | | done |].
    { simpl. rewrite map_size_insert_None by done. lia. }
    clear Hv. intros dbuf s2 Hv. unfold set_refs in Hv; simpl in Hv.
    get (log_blkS i) Hv. call r_set b Hv. call r_write b Hv. apply wp_bind, wp_ret.
    call r_relse_last (log_blkS i) Hv. call r_relse_last b Hv. apply HQ.
    match type of Hv with at_view _ _ (CView _ _ ?m) => replace (delete b R) with m; [done|] end.
    refs_eq b (log_blkS i).
  - destruct Hpin as (dbuf & y & Hpin). call r_read_hit b Hv.
    get (log_blkS i) Hv. call r_set b Hv. call r_write b Hv. call r_unpin b Hv.
    call r_relse_last (log_blkS i) Hv. call r_relse_last b Hv. apply HQ.
    match type of Hv with at_view _ _ (CView _ _ ?m) => replace (delete b R) with m; [done|] end.
    refs_eq b (log_blkS i).
Qed.

Lemma install_trans_spec recovering s g v bl (Q : unit -> sys S -> Prop) :
  at_view s g v -> log_is g bl -> no_log_refs v ->
  (forall b, b ∈ bl -> pinned recovering (cv_refs v) b) ->
  (recovering = false -> NoDup bl) ->
  (size (cv_refs v) + (if recovering then 2 else 1) <= NBUF)%nat ->
  (forall s', let W := copies start bl (cv_disk v) in
     at_view s' g (CView (apply_writes W (cv_disk v)) (cv_writes v ++ W) (dels (cv_refs v) bl)) ->
     Q tt s') ->
  wp (install_trans recovering) Q s.
Proof.
  intros Hv Hli Hnl Hpin Hnd Hsz HQ. destruct v as [d ws R]; simpl in *.
  set (W := copies start bl d) in *.
  assert (length W = length bl) as HW by apply length_imap.
  eapply (r_for_tail _ _ _ _ _ (fun i s => at_view s g
    (CView (apply_writes (take i W) d) (ws ++ take i W) (dels R (take i bl))))); [exact Hv | | |].
  - rewrite !take_0, app_nil_r. exact Hv.
  - intros i s' Hi Hv'. rewrite (li_n _ _ Hli), Nat2Z.id in Hi.
    destruct (lookup_lt_is_Some_2 bl i Hi) as [b Hb].
    assert (W !! i = Some (b, dread d (log_blkS i))) as HWi.
    { unfold W, copies. by rewrite list_lookup_imap, Hb. }
    assert (dread (apply_writes (take i W) d) (log_blkS i) = dread d (log_blkS i)) as Hsame.
    { apply dread_apply_ne. intros w Hw%in_take%copies_fst He.
      apply (li_range _ _ Hli _ Hw). rewrite He. apply in_log_blk.
      pose proof (li_max _ _ Hli). lia. }
    eapply install_one; [exact Hv' | exact Hli | exact Hb | | | |].
    + intros c Hc. simpl. rewrite lookup_dels. case_decide; [done|]. by apply Hnl.
    + specialize (Hpin b (list_elem_of_lookup_2 _ _ _ Hb)). unfold pinned in *. simpl.
      rewrite lookup_dels. destruct recovering; case_decide as Hin; try done.
      exfalso. apply list_elem_of_lookup in Hin as [j Hj]. apply lookup_take_Some in Hj as [Hj Hlt].
      pose proof (NoDup_lookup _ _ _ _ (Hnd eq_refl) Hb Hj). lia.
    + simpl. pose proof (size_dels R (take i bl)). lia.
    + intros s'' Hv''. simpl in Hv''. rewrite Hsame in Hv''.
      rewrite (take_S_r _ _ _ HWi), (take_S_r _ _ _ Hb), apply_writes_app, dels_snoc, app_assoc.
      exact Hv''.
  - intros s' Hv'. rewrite (li_n _ _ Hli), Nat2Z.id in Hv'.
    rewrite !take_ge in Hv' by lia. by apply HQ.
Qed.

(** One round of [write_log]. *)
Lemma write_log_one s g v i b bl (Q : unit -> sys S -> Prop) :
  at_view s g v -> log_is g bl -> bl !! i = Some b -> no_log_refs v ->
  pinned false (cv_refs v) b -> (size (cv_refs v) < NBUF)%nat ->
  (forall s', at_view s' g (CView (<[log_blkS i := content v b]> (cv_disk v))
                              (cv_writes v ++ [(log_blkS i, content v b)]) (cv_refs v)) -> Q tt s') ->
  wp (dv ← glog lg_dev; start ← glog lg_start;
      to ← sread dv (start + Z.of_nat i + 1);
      b ← lh_get i;
      from ← sread dv b;
      x ← sdata from; sset to x;;
      swrite to;;
      srelse from;;
      srelse to) Q s.
Proof.
  intros Hv Hli Hi Hnl (from & x & Hpin) Hsz HQ. destruct v as [d ws R]. unfold content in *.
  simpl in *. rewrite Hpin in HQ. simpl in HQ.
  assert (i < length bl)%nat as Hlt by (by eapply lookup_lt_Some).
  pose proof (li_max _ _ Hli) as Hmax.
  destruct (li_range _ _ Hli b) as [Hbr Hbl]; [by eapply list_elem_of_lookup_2|].
  assert (in_logS (log_blkS i)) as Hlb by (apply in_log_blk; lia).
  assert (b <> log_blkS i) as Hne by (intros ->; done).
  assert (0 <= log_blkS i < 2 ^ 32) as Hlbr.
  { unfold log_blk in *. unfold LOGSIZE, MAXOPBLOCKS in *. lia. }
  rd_log. rd_log. rewrite (li_dev _ _ Hli), (li_start _ _ Hli).
  apply wp_bind. eapply r_read_miss; [exact Hv | by apply Hnl | done | done |].
  clear Hv. intros to s1 Hv. unfold set_refs in Hv; simpl in Hv.
  apply wp_bind. eapply r_lh_get; [exact Hv | by eapply (li_block _ _ Hli) |].
  apply wp_bind, sread_i32. pose proof (Hnl _ Hlb) as HRl. simpl in HRl.
  call r_read_hit b Hv. get b Hv. call r_set (log_blkS i) Hv. call r_write (log_blkS i) Hv.
  call r_relse_more b Hv. call r_relse_last (log_blkS i) Hv. apply HQ.
  match type of Hv with at_view _ _ (CView _ _ ?m) => replace R with m; [done|] end.
  refs_eq b (log_blkS i).
Qed.

(** The blocks [write_log] copies from the cache. *)
Definition log_copies (bl : list Z) (v : cview) : list (Z * block) :=
  imap (fun i b => (log_blkS i, content v b)) bl.

Lemma write_log_spec s g v bl (Q : unit -> sys S -> Prop) :
  at_view s g v -> log_is g bl -> no_log_refs v ->
  (forall b, b ∈ bl -> pinned false (cv_refs v) b) -> (size (cv_refs v) < NBUF)%nat ->
  (forall s', let W := log_copies bl v in
     at_view s' g (CView (apply_writes W (cv_disk v)) (cv_writes v ++ W) (cv_refs v)) -> Q tt s') ->
  wp write_log Q s.
Proof.
  intros Hv Hli Hnl Hpin Hsz HQ. destruct v as [d ws R]; simpl in *.
  set (W := log_copies bl (CView d ws R)) in *.
  assert (length W = length bl) as HW by apply length_imap.
  eapply (r_for_tail _ _ _ _ _ (fun i s => at_view s g
    (CView (apply_writes (take i W) d) (ws ++ take i W) R))); [exact Hv | | |].
  - rewrite !take_0, app_nil_r. exact Hv.
  - intros i s' Hi Hv'. rewrite (li_n _ _ Hli), Nat2Z.id in Hi.
    destruct (lookup_lt_is_Some_2 bl i Hi) as [b Hb].
    assert (W !! i = Some (log_blkS i, content (CView d ws R) b)) as HWi.
    { unfold W, log_copies. by rewrite list_lookup_imap, Hb. }
    specialize (Hpin b (list_elem_of_lookup_2 _ _ _ Hb)).
    eapply write_log_one; [exact Hv' | exact Hli | exact Hb | done | done | done |].
    destruct Hpin as (h & x & Hx). unfold content in *. simpl in *. rewrite Hx in *. simpl.
    intros s'' Hv''. rewrite (take_S_r _ _ _ HWi), apply_writes_app, app_assoc. exact Hv''.
  - intros s' Hv'. rewrite (li_n _ _ Hli), Nat2Z.id in Hv'.
    rewrite !take_ge in Hv' by lia. by apply HQ.
Qed.

Lemma start_u32 : 0 <= start < 2 ^ 32.
Proof. unfold LOGSIZE, MAXOPBLOCKS in start_range. lia. Qed.

(** The header block [write_head] leaves on the device. *)
Definition new_header (bl : list Z) (d : blocks) : block :=
  header (Z.of_nat (length bl)) (i32 <$> bl) (dread d start).

Lemma write_head_spec s g v bl (Q : unit -> sys S -> Prop) :
  at_view s g v -> log_is g bl -> no_log_refs v -> (size (cv_refs v) < NBUF)%nat ->
  (forall s', let x := new_header bl (cv_disk v) in
     at_view s' g (CView (<[start := x]> (cv_disk v)) (cv_writes v ++ [(start, x)]) (cv_refs v)) ->
     Q tt s') ->
  wp write_head Q s.
Proof.
  intros Hv Hli Hnl Hsz HQ. destruct v as [d ws R]; simpl in *.
  pose proof (Hnl start (in_log_start start cap ltac:(lia))) as HRs. simpl in HRs.
  unfold write_head. rd_log. rd_log. rewrite (li_dev _ _ Hli), (li_start _ _ Hli).
  apply wp_bind. eapply r_read_miss; [exact Hv | done | done | apply start_u32 |].
  clear Hv. intros h s1 Hv. unfold set_refs in Hv; simpl in Hv.
  rd_log. rewrite (li_n _ _ Hli). get start Hv. call r_set start Hv. apply wp_bind.
  set (x0 := hb_set_n (Z.of_nat (length bl)) (dread d start)) in *.
  eapply (r_for_tail _ _ _ _ _ (fun i s => at_view s g (CView d ws
    (<[start := BRef h 1 true (put_blocks 0 (take i (i32 <$> bl)) x0)]> R)))); [exact Hv | | |].
  - rewrite take_0. simpl. by rewrite insert_insert_eq in Hv.
  - clear Hv. intros i si Hi Hv. rewrite (li_n _ _ Hli), Nat2Z.id in Hi.
    destruct (lookup_lt_is_Some_2 bl i Hi) as [b Hb].
    apply wp_bind. eapply r_lh_get; [exact Hv | by eapply (li_block _ _ Hli) |].
    get start Hv. call r_set start Hv. rewrite insert_insert_eq in Hv.
    assert ((i32 <$> bl) !! i = Some (i32 b)) as Hb' by (by rewrite list_lookup_fmap, Hb).
    rewrite (take_S_r _ _ _ Hb'), put_blocks_snoc, length_take, length_fmap, Nat.min_l by lia.
    exact Hv.
  - clear Hv. intros sn Hv. rewrite (li_n _ _ Hli), Nat2Z.id in Hv.
    rewrite take_ge in Hv by (rewrite length_fmap; lia).
    call r_write start Hv. call r_relse_last start Hv. apply HQ.
    by rewrite delete_insert_eq, delete_id in Hv.
Qed.

Lemma read_head_spec s g v d (Q : unit -> sys S -> Prop) :
  at_view s g v -> lg_start g = start -> lg_dev g = ROOTDEV ->
  length (lh_block (lg_lh g)) = Z.to_nat LOGSIZE ->
  cv_disk v = d -> no_log_refs v -> (size (cv_refs v) < NBUF)%nat -> wf_log start cap d ->
  (forall s' h, log_is (set_lh h g) (targets start d) -> at_view s' (set_lh h g) v -> Q tt s') ->
  wp read_head Q s.
Proof.
  intros Hv Hst Hdv Hlen <- Hnl Hsz (Hx & Hn & Ht) HQ. destruct v as [d ws R]; simpl in *.
  pose proof (Hnl start (in_log_start start cap ltac:(lia))) as HRs. simpl in HRs.
  unfold read_head. rd_log. rd_log. rewrite Hdv, Hst.
  apply wp_bind. eapply r_read_miss; [exact Hv | done | done | apply start_u32 |].
  clear Hv. intros h s1 Hv. unfold set_refs in Hv; simpl in Hv. set (x := dread d start) in *.
  get start Hv. apply wp_bind. eapply r_mlog; [exact Hv|]. clear Hv. intros s2 Hv.
  apply wp_bind.
  eapply (r_for_tail _ _ _ _ _ (fun i s => exists bs,
    length bs = Z.to_nat LOGSIZE /\ (forall j, (j < i)%nat -> bs !! j = Some (hb_block x j)) /\
    at_view s (set_lh (LogHeader (hb_n x) bs) g) (CView d ws (<[start := BRef h 1 true x]> R))));
    [exact Hv | | |].
  - eexists. split_and!; [exact Hlen | intros; lia | exact Hv].
  - clear Hv. intros i si Hi (bs & Hbs & Hall & Hv). simpl in Hi.
    get start Hv. eapply r_lh_put; [exact Hv | simpl; lia |]. simpl.
    intros s'' Hv''. exists (<[i := hb_block x i]> bs). rewrite length_insert. split_and!; [done | |exact Hv''].
    intros j Hj. destruct (decide (j = i)) as [->|Hne].
    + rewrite list_lookup_insert_eq; [done|]. lia.
    + rewrite list_lookup_insert_ne by done. apply Hall. lia.
  - clear Hv. intros sn (bs & Hbs & Hall & Hv). simpl in Hall.
    call r_relse_last start Hv. rewrite delete_insert_eq, delete_id in Hv by done.
    eapply HQ; [|exact Hv]. split; simpl; try done.
    + rewrite length_targets. fold x. lia.
    + rewrite length_targets. fold x. lia.
    + intros i b Hb. unfold targets in Hb. fold x in Hb.
      rewrite list_lookup_fmap in Hb. apply fmap_Some in Hb as (j & Hj & ->).
      apply lookup_seq in Hj as [-> Hj]. simpl. rewrite (Hall i Hj). f_equal.
      unfold hb_block, get_int. generalize (le_join (take 4 (drop (4 + 4 * i) x))). intros y.
      by rewrite u32_i32, <- i32_u32.
    + intros b Hb. split; [|by apply Ht]. unfold targets in Hb. apply list_elem_of_fmap in Hb as (j & -> & _).
      apply u32_range.
Qed.

(** ** Commit *)

(** The device after the commit point. *)
Definition logged_writes (bl : list Z) (v : cview) : list (Z * block) :=
  log_copies bl v ++ [(start, new_header bl (apply_writes (log_copies bl v) (cv_disk v)))].
Definition logged (bl : list Z) (v : cview) : blocks := apply_writes (logged_writes bl v) (cv_disk v).

(** All the writes of a commit, in order. *)
Definition commit_writes (bl : list Z) (v : cview) : list (Z * block) :=
  logged_writes bl v ++ copies start bl (logged bl v) ++
  [(start, new_header [] (apply_writes (copies start bl (logged bl v)) (logged bl v)))].

Lemma log_is_clear g bl : log_is g bl -> log_is (set_lh_n 0 g) [].
Proof. intros []. split; simpl; try done; [lia | by intros ? []%elem_of_nil]. Qed.

Lemma no_log_refs_dels v bl d w :
  no_log_refs v -> no_log_refs (CView d w (dels (cv_refs v) bl)).
Proof. intros Hnl b Hb. simpl. rewrite lookup_dels. case_decide; [done|]. by apply Hnl. Qed.

(** The log and the view when the first [i] calls of [commit_body] have returned. *)
Definition commit_at (bl : list Z) (g : log) (v : cview) (i : nat) : log * cview :=
  let W1 := log_copies bl v in
  let W3 := copies start bl (logged bl v) in
  match i with
  | 0%nat => (g, v)
  | 1%nat => (g, CView (apply_writes W1 (cv_disk v)) (cv_writes v ++ W1) (cv_refs v))
  | 2%nat => (g, CView (logged bl v) (cv_writes v ++ logged_writes bl v) (cv_refs v))
  | 3%nat => (g, CView (apply_writes W3 (logged bl v)) (cv_writes v ++ logged_writes bl v ++ W3) (dels (cv_refs v) bl))
  | 4%nat => (set_lh_n 0 g, CView (apply_writes W3 (logged bl v)) (cv_writes v ++ logged_writes bl v ++ W3) (dels (cv_refs v) bl))
  | _ => (set_lh_n 0 g, CView (apply_writes (commit_writes bl v) (cv_disk v)) (cv_writes v ++ commit_writes bl v) (dels (cv_refs v) bl))
  end.

Lemma commit_stage i m s g v bl (Q : unit -> sys S -> Prop) :
  commit_body !! i = Some m -> at_view s (commit_at bl g v i).1 (commit_at bl g v i).2 ->
  log_is g bl -> NoDup bl -> no_log_refs v ->
  (forall b, b ∈ bl -> pinned false (cv_refs v) b) -> (size (cv_refs v) < NBUF)%nat ->
  (forall s', at_view s' (commit_at bl g v (Datatypes.S i)).1 (commit_at bl g v (Datatypes.S i)).2 -> Q tt s') ->
  wp m Q s.
Proof.
  intros Hm Hv Hli Hnd Hnl Hpin Hsz HQ.
  destruct i as [|[|[|[|[|i]]]]]; [injection Hm as <-; simpl in Hv, HQ..|done].
  - by eapply write_log_spec.
  - eapply write_head_spec; [exact Hv | done..|]. intros s' x Hs'. apply HQ. simpl in Hs'.
    unfold logged, logged_writes. rewrite apply_writes_app, app_assoc. exact Hs'.
  - eapply (install_trans_spec false); [exact Hv | done | done | done | done | simpl; lia |].
    intros s' W Hs'. apply HQ. simpl in Hs'. rewrite app_assoc. exact Hs'.
  - by eapply r_mlog.
  - eapply write_head_spec; [exact Hv | by eapply log_is_clear | by apply no_log_refs_dels | |].
    { simpl. pose proof (size_dels (cv_refs v) bl). lia. }
    intros s' x Hs'. apply HQ. simpl in Hs'. unfold commit_writes. rewrite !apply_writes_app. simpl.
    fold (logged bl v). rewrite <- !app_assoc in Hs'. exact Hs'.
Qed.

Lemma commit_spec s g v bl (Q : unit -> sys S -> Prop) :
  at_view s g v -> log_is g bl -> bl <> [] -> NoDup bl -> no_log_refs v ->
  (forall b, b ∈ bl -> pinned false (cv_refs v) b) -> (size (cv_refs v) < NBUF)%nat ->
  (forall s', let W := commit_writes bl v in
     at_view s' (set_lh_n 0 g)
       (CView (apply_writes W (cv_disk v)) (cv_writes v ++ W) (dels (cv_refs v) bl)) -> Q tt s') ->
  wp commit Q s.
Proof.
  intros Hv Hli Hne Hnd Hnl Hpin Hsz HQ. unfold commit. rd_log. rewrite (li_n _ _ Hli).
  assert (0 < length bl)%nat by (destruct bl; [done | simpl; lia]).
  rewrite (proj2 (Z.ltb_lt 0 (Z.of_nat (length bl)))) by lia. cbn [when foldr commit_body].
  assert (forall i m s, commit_body !! i = Some m -> at_view s (commit_at bl g v i).1 (commit_at bl g v i).2 ->
    wp m (fun _ s' => at_view s' (commit_at bl g v (Datatypes.S i)).1 (commit_at bl g v (Datatypes.S i)).2) s) as Hst.
  { intros i m s' Hm Hs'. by eapply (commit_stage i m s' g v bl). }
  do 5 (apply wp_bind; eapply wp_mono; [|first [exact (Hst 0%nat _ _ eq_refl Hv) | exact (Hst 1%nat _ _ eq_refl Hv)
    | exact (Hst 2%nat _ _ eq_refl Hv) | exact (Hst 3%nat _ _ eq_refl Hv) | exact (Hst 4%nat _ _ eq_refl Hv)]]; clear Hv; intros [] ? Hv).
  apply wp_ret, HQ. exact Hv.
Qed.

(** The writes at each of these points are a prefix of those of the whole commit; the
    commit point is after the first [write_head]. *)
Lemma commit_at_prefix bl g v i : exists k,
  cv_writes (commit_at bl g v i).2 = cv_writes v ++ take k (commit_writes bl v) /\
  cv_disk (commit_at bl g v i).2 = apply_writes (take k (commit_writes bl v)) (cv_disk v) /\
  ((k <= length bl)%nat <-> (i <= 1)%nat).
Proof.
  assert (length (log_copies bl v) = length bl) as Hl1 by apply length_imap.
  assert (length (logged_writes bl v) = Datatypes.S (length bl)) as Hl2 by (unfold logged_writes; rewrite length_app, Hl1; simpl; lia).
  assert (length (copies start bl (logged bl v)) = length bl) as Hl3 by apply length_imap.
  assert (take (length bl) (commit_writes bl v) = log_copies bl v) as T1.
  { unfold commit_writes, logged_writes. rewrite <- !app_assoc, <- Hl1. apply take_app_length. }
  assert (take (Datatypes.S (length bl)) (commit_writes bl v) = logged_writes bl v) as T2.
  { unfold commit_writes. rewrite <- Hl2. apply take_app_length. }
  assert (take (Datatypes.S (length bl) + length bl) (commit_writes bl v) = logged_writes bl v ++ copies start bl (logged bl v)) as T3.
  { unfold commit_writes. rewrite app_assoc. apply take_app_length'. rewrite length_app, Hl2, Hl3. lia. }
  assert (length (commit_writes bl v) = Datatypes.S (Datatypes.S (length bl) + length bl)) as Hl4.
  { unfold commit_writes. rewrite !length_app, Hl2, Hl3. simpl. lia. }
  destruct i as [|[|[|[|[|i]]]]]; simpl.
  - exists 0%nat. rewrite take_0, app_nil_r. split_and!; [done | done | lia].
  - exists (length bl). rewrite T1. split_and!; [done | done | lia].
  - exists (Datatypes.S (length bl)). rewrite T2. split_and!; [done | done | lia].
  - exists (Datatypes.S (length bl) + length bl)%nat. rewrite T3, apply_writes_app. split_and!; [done | done | lia].
  - exists (Datatypes.S (length bl) + length bl)%nat. rewrite T3, apply_writes_app. split_and!; [done | done | lia].
  - exists (length (commit_writes bl v)). rewrite firstn_all. split_and!; [done | done | lia].
Qed.
End Parts.

(** ** Crash points *)

Section Crash.
Variables start cap : Z.
Variables (bl : list Z) (v : cview).
Hypothesis cap_range : 0 <= cap < LOGSIZE.
Hypothesis bl_max : (length bl <= Z.to_nat cap)%nat.
Hypothesis bl_range : forall b, b ∈ bl -> 0 <= b < 2 ^ 32 /\ ~ in_log start cap b.
Hypothesis bl_nodup : NoDup bl.
Hypothesis hdr_len : length (dread (cv_disk v) start) = Z.to_nat BSIZE.
Hypothesis hdr_empty : hb_n (dread (cv_disk v) start) = 0.

(** What the device is to hold once the transaction is committed. *)
Definition committed (b : Z) : block :=
  if decide (b ∈ bl) then content v b else dread (cv_disk v) b.

Abbreviation d0 := (cv_disk v).
Abbreviation W1 := (log_copies start bl v).

Lemma log_copies_in w : w ∈ W1 -> exists i b, bl !! i = Some b /\ w = (log_blk start i, content v b).
Proof. unfold log_copies. rewrite elem_of_lookup_imap. naive_solver. Qed.

Lemma log_copies_log w : w ∈ W1 -> in_log start cap w.1 /\ w.1 <> start.
Proof.
  intros (i & b & Hi & ->)%log_copies_in. simpl. split; [|unfold log_blk; lia].
  apply in_log_blk. apply lookup_lt_Some in Hi. lia.
Qed.

Lemma log_copies_prefix k : let d' := apply_writes (take k W1) d0 in
  dread d' start = dread d0 start /\ forall b, ~ in_log start cap b -> dread d' b = dread d0 b.
Proof.
  split.
  - apply dread_apply_ne. intros w Hw%in_take. by apply log_copies_log.
  - intros b Hb. apply dread_apply_ne. intros w Hw%in_take <-. by apply Hb, log_copies_log.
Qed.

(** Before the header is written. *)
Lemma before_commit k : let d' := apply_writes (take k W1) d0 in
  wf_log start cap d' /\ forall b, ~ in_log start cap b -> dread (redo start d') b = dread d0 b.
Proof.
  destruct (log_copies_prefix k) as [Hs Hb]. intros d'. fold d' in Hs, Hb. split.
  - unfold wf_log, targets. rewrite Hs, hdr_empty. split_and!; try done; [lia|].
    intros b Hin. by apply elem_of_nil in Hin.
  - intros b Hnb. rewrite redo_empty; [by apply Hb|]. by rewrite Hs.
Qed.

Lemma hdr_fits : (4 + 4 * length (i32 <$> bl) <= length (dread d0 start))%nat.
Proof. rewrite length_fmap, hdr_len. unfold LOGSIZE, MAXOPBLOCKS, BSIZE in *. lia. Qed.

Lemma logged_start : dread (logged start bl v) start = header (Z.of_nat (length bl)) (i32 <$> bl) (dread d0 start).
Proof.
  unfold logged, logged_writes. rewrite apply_writes_app. simpl. rewrite dread_insert_eq.
  unfold new_header. f_equal. pose proof (log_copies_prefix (length W1)) as [Hs _].
  by rewrite firstn_all in Hs.
Qed.

Lemma logged_targets : targets start (logged start bl v) = bl.
Proof.
  pose proof hdr_fits. unfold targets. rewrite logged_start, header_n by done.
  rewrite i32_small by (unfold LOGSIZE, MAXOPBLOCKS in *; lia). rewrite Nat2Z.id.
  apply list_eq. intros i. rewrite list_lookup_fmap.
  destruct (bl !! i) as [b|] eqn:Hi.
  - rewrite lookup_seq_lt by (by eapply lookup_lt_Some). simpl. f_equal.
    rewrite (header_block _ _ _ _ (i32 b)); [|done | by rewrite list_lookup_fmap, Hi].
    rewrite !u32_i32. apply u32_small, bl_range. by eapply list_elem_of_lookup_2.
  - rewrite lookup_seq_ge; [done|]. by apply lookup_ge_None.
Qed.

Lemma last_write_imap (f : nat -> Z -> Z * block) (ks : list Z) i b x :
  NoDup ks -> ks !! i = Some b -> (forall j c, (f j c).1 = c) -> (f i b).2 = x ->
  last_write (imap f ks) b = Some x.
Proof.
  intros Hnd Hi Hf Hx. revert Hnd Hi. induction ks as [|c ks IH] using rev_ind; [done|].
  intros Hnd Hi. rewrite imap_app. simpl. rewrite last_write_snoc, Nat.add_0_r, Hf. apply NoDup_app in Hnd as (Hnd & Hsep & _).
  apply lookup_app_Some in Hi as [Hi|[Hge Hi]].
  - rewrite decide_False; [by apply IH|]. intros ->.
    apply (Hsep b); [by eapply list_elem_of_lookup_2 | left].
  - apply list_lookup_singleton_Some in Hi as [Hi ->]. rewrite decide_True by done.
    replace (length ks) with i by lia. by rewrite Hx.
Qed.

Lemma log_copies_read i b :
  bl !! i = Some b -> dread (logged start bl v) (log_blk start i) = content v b.
Proof.
  intros Hi. unfold logged, logged_writes. rewrite apply_writes_app. simpl.
  rewrite dread_insert_ne by (unfold log_blk; lia).
  unfold dread. rewrite lookup_apply_writes.
  assert (last_write W1 (log_blk start i) = Some (content v b)) as ->; [|done].
  assert (length bl = length (log_blk start <$> seq 0 (length bl))) as Hlen
    by (by rewrite length_fmap, length_seq).
  assert (W1 = imap (fun i c => (c, content v (default 0 (bl !! i)))) (log_blk start <$> seq 0 (length bl))) as ->.
  { apply list_eq. intros j. unfold log_copies. rewrite !list_lookup_imap, list_lookup_fmap.
    destruct (bl !! j) as [c|] eqn:Hj.
    - by rewrite lookup_seq_lt by (by eapply lookup_lt_Some).
    - rewrite lookup_seq_ge; [done|]. by apply lookup_ge_None. }
  eapply last_write_imap with (i := i); [| | done | simpl; by rewrite Hi].
  - apply NoDup_fmap_2_strong; [|apply NoDup_seq]. unfold log_blk. intros. lia.
  - rewrite list_lookup_fmap, lookup_seq_lt by (by eapply lookup_lt_Some). done.
Qed.

(** At the commit point: the device means the new contents. *)
Lemma at_commit :
  wf_log start cap (logged start bl v) /\
  copies start (targets start (logged start bl v)) (logged start bl v) = copies start bl (logged start bl v) /\
  forall b, ~ in_log start cap b -> dread (redo start (logged start bl v)) b = committed b.
Proof.
  split_and!.
  - unfold wf_log. rewrite logged_targets, logged_start, length_header, header_n by apply hdr_fits.
    rewrite i32_small by (unfold LOGSIZE, MAXOPBLOCKS in *; lia).
    split_and!; [done | unfold LOGSIZE, MAXOPBLOCKS in *; lia..|]. intros b Hb. by apply bl_range.
  - by rewrite logged_targets.
  - intros b Hb. unfold redo, committed. rewrite logged_targets. case_decide as Hin.
    + apply list_elem_of_lookup in Hin as [i Hi]. unfold dread at 1. rewrite lookup_apply_writes.
      unfold copies. erewrite (last_write_imap _ bl i b (content v b)); [done | done | done | done |].
      simpl. by apply log_copies_read.
    + rewrite dread_apply_ne; [|intros w Hw%copies_fst <-; done].
      unfold logged, logged_writes. rewrite apply_writes_app. simpl.
      rewrite dread_insert_ne by (intros <-; apply Hb, in_log_start; lia).
      pose proof (log_copies_prefix (length W1)) as [_ Hs]. rewrite firstn_all in Hs. by apply Hs.
Qed.

Lemma length_logged : length (logged_writes start bl v) = Datatypes.S (length bl).
Proof. unfold logged_writes, log_copies. rewrite length_app, length_imap. simpl. lia. Qed.

(** A crash after [k] of the writes of a commit. *)
Lemma commit_prefix k : let d' := apply_writes (take k (commit_writes start bl v)) d0 in
  wf_log start cap d' /\
  forall b, ~ in_log start cap b ->
    dread (redo start d') b = if decide (k <= length bl)%nat then dread d0 b else committed b.
Proof.
  intros d'. destruct at_commit as (Hwf & Hcp & Hred).
  destruct (decide (k <= length bl)%nat) as [Hk|Hk].
  - assert (take k (commit_writes start bl v) = take k W1) as Ht.
    { unfold commit_writes, logged_writes. rewrite <- !app_assoc.
      apply take_app_le. unfold log_copies. by rewrite length_imap. }
    unfold d'. rewrite Ht. apply before_commit.
  - set (W3 := copies start bl (logged start bl v)).
    set (h4 := new_header start [] (apply_writes W3 (logged start bl v))).
    assert (d' = apply_writes (take (k - Datatypes.S (length bl)) (W3 ++ [(start, h4)])) (logged start bl v)) as ->.
    { unfold d', commit_writes. rewrite take_app_ge by (rewrite length_logged; lia).
      by rewrite apply_writes_app, length_logged. }
    set (k' := (k - Datatypes.S (length bl))%nat).
    destruct (decide (k' <= length W3)%nat) as [Hk'|Hk'].
    + rewrite take_app_le by done. unfold W3. rewrite <- Hcp.
      destruct (redo_prefix start cap (logged start bl v) k' Hwf) as [H1 H2]. split; [exact H1|].
      intros b Hb. simpl in H2. rewrite H2. by apply Hred.
    + rewrite take_ge by (rewrite length_app; simpl; lia). rewrite apply_writes_app. simpl.
      destruct (redo_prefix start cap (logged start bl v) (length W3) Hwf) as [(Hl & _) _].
      rewrite Hcp in Hl. fold W3 in Hl. rewrite firstn_all in Hl.
      assert (hb_n h4 = 0) as Hh4.
      { unfold h4, new_header. simpl. rewrite header_n; [done|]. rewrite Hl. unfold BSIZE. simpl. lia. }
      split.
      * unfold wf_log, targets. rewrite dread_insert_eq, Hh4. split_and!; [|done | lia |].
        { unfold h4, new_header. rewrite length_header; [done|]. rewrite Hl. unfold BSIZE. simpl. lia. }
        intros b Hb. by apply elem_of_nil in Hb.
      * intros b Hb. rewrite redo_empty by (by rewrite dread_insert_eq).
        rewrite dread_insert_ne by (intros <-; apply Hb, in_log_start; lia).
        rewrite <- Hred by done. unfold redo. by rewrite Hcp.
Qed.

(** The device after the whole commit. *)
Lemma commit_done : let d' := apply_writes (commit_writes start bl v) d0 in
  length (dread d' start) = Z.to_nat BSIZE /\ hb_n (dread d' start) = 0 /\
  forall b, ~ in_log start cap b -> dread d' b = committed b.
Proof.
  intros d'. destruct (commit_prefix (length (commit_writes start bl v))) as [(Hl & _) Hr].
  rewrite firstn_all in Hl, Hr. fold d' in Hl, Hr.
  assert (hb_n (dread d' start) = 0) as Hn.
  { destruct at_commit as (Hwf & Hcp & _).
    destruct (redo_prefix start cap _ (length (copies start bl (logged start bl v))) Hwf) as [(Hl' & _) _].
    rewrite Hcp, firstn_all in Hl'.
    unfold d', commit_writes. rewrite !apply_writes_app. fold (logged start bl v). simpl.
    rewrite dread_insert_eq. unfold new_header. rewrite header_n; [done|].
    rewrite Hl'. unfold BSIZE. simpl. lia. }
  split_and!; [done | done |]. intros b Hb. rewrite <- (redo_empty start d') by done.
  rewrite Hr by done. apply decide_False.
  unfold commit_writes. rewrite length_app, length_logged. lia.
Qed.
End Crash.

(** ** Recovery *)

Section Recovery.
Context {S : Type} `{BufCacheLaws S}.
Variables start cap : Z.
Hypothesis start_range : 0 <= start /\ start + LOGSIZE < 2 ^ 31.
Hypothesis cap_range : 0 <= cap < LOGSIZE.

Definition recover_writes (d : blocks) : list (Z * block) :=
  copies start (targets start d) d ++ [(start, new_header start [] (redo start d))].

Lemma recover_spec s g v (Q : unit -> sys S -> Prop) :
  at_view s g v -> lg_start g = start -> lg_dev g = ROOTDEV ->
  length (lh_block (lg_lh g)) = Z.to_nat LOGSIZE -> cv_refs v = ∅ -> wf_log start cap (cv_disk v) ->
  (forall s' h, let W := recover_writes (cv_disk v) in
     log_is start cap (set_lh h g) [] ->
     at_view s' (set_lh h g) (CView (apply_writes W (cv_disk v)) (cv_writes v ++ W) ∅) -> Q tt s') ->
  wp recover_from_log Q s.
Proof.
  intros Hv Hst Hdv Hlen Hr Hwf HQ. destruct v as [d ws R]; simpl in *. subst R.
  assert (forall d w, no_log_refs start cap (CView d w ∅)) as Hnl by (intros ????; simpl; by rewrite lookup_empty).
  unfold recover_from_log. apply wp_bind.
  eapply (read_head_spec start cap start_range cap_range _ _ _ d); [exact Hv | done..| simpl; rewrite map_size_empty; unfold NBUF; lia | done |].
  clear Hv. intros s1 h Hli Hv. apply wp_bind.
  eapply (install_trans_spec start cap start_range cap_range true); [exact Hv | exact Hli | done | | done | |].
  { intros b _. simpl. apply lookup_empty. }
  { simpl. rewrite map_size_empty. unfold NBUF. lia. }
  clear Hv. intros s2 W Hv. simpl in Hv. rewrite dels_id in Hv by (intros; apply lookup_empty).
  apply wp_bind. eapply r_mlog; [exact Hv|]. clear Hv. intros s3 Hv.
  eapply (write_head_spec start cap start_range cap_range); [exact Hv | by eapply log_is_clear | done | |].
  { simpl. rewrite map_size_empty. unfold NBUF. lia. }
  clear Hv. intros s4 x Hv. simpl in Hv.
  eapply (HQ _ (LogHeader 0 (lh_block h))); [by apply log_is_clear in Hli|].
  unfold recover_writes. rewrite apply_writes_app, app_assoc. exact Hv.
Qed.

Lemma initlog_spec s v sb (Q : unit -> sys S -> Prop) :
  at_view s log_bss v -> sb_logstart sb = start -> cv_refs v = ∅ -> wf_log start cap (cv_disk v) ->
  (forall s' g, let W := recover_writes (cv_disk v) in
     log_is start cap g [] -> lg_lock g = Free -> lg_committing g = false -> lg_outstanding g = 0 ->
     lg_size g = i32 (sb_nlog sb) ->
     at_view s' g (CView (apply_writes W (cv_disk v)) (cv_writes v ++ W) ∅) -> Q tt s') ->
  wp (initlog ROOTDEV sb) Q s.
Proof.
  intros [Hg Hv] Hst Hr Hwf HQ. unfold initlog.
  change (BSIZE <=? sizeof_logheader) with false. cbv iota.
  apply wp_bind, wp_modify, wp_bind. eapply r_mlog.
  { split; [reflexivity | exact Hv]. }
  intros s1 Hv1. eapply recover_spec; [exact Hv1 | | done | | done | done |].
  - simpl. rewrite Hst. apply i32_small. unfold LOGSIZE, MAXOPBLOCKS in start_range. lia.
  - simpl. rewrite Hg. reflexivity.
  - intros s' h W Hli Hv'. eapply HQ; [exact Hli | | | | | exact Hv']; simpl; by rewrite ?Hg.
Qed.

(** A crash after [k] writes of the recovery. *)
Lemma recover_prefix d k : wf_log start cap d -> let d' := apply_writes (take k (recover_writes d)) d in
  wf_log start cap d' /\ forall b, ~ in_log start cap b -> dread (redo start d') b = dread (redo start d) b.
Proof.
  intros Hwf d'. set (W := copies start (targets start d) d).
  destruct (decide (k <= length W)%nat) as [Hk|Hk].
  - destruct (redo_prefix start cap d k Hwf) as [H1 H2]. fold W in H1, H2.
    unfold d', recover_writes. rewrite take_app_le by done. fold W. split; [done|].
    intros b _. by rewrite H2.
  - destruct (redo_prefix start cap d (length W) Hwf) as [(Hl & _) _]. fold W in Hl. rewrite firstn_all in Hl.
    unfold d', recover_writes. fold W. rewrite take_ge by (rewrite length_app; simpl; lia).
    rewrite apply_writes_app. simpl.
    assert (4 + 4 * length (i32 <$> []) <= length (dread (redo start d) start))%nat as Hfit.
    { unfold redo. fold W. rewrite Hl. unfold BSIZE. simpl. lia. }
    assert (hb_n (new_header start [] (redo start d)) = 0) as Hh.
    { unfold new_header. by rewrite header_n. }
    split.
    + unfold wf_log, targets. rewrite dread_insert_eq, Hh. split_and!; [|done | lia |].
      * unfold new_header. rewrite length_header by done. exact Hl.
      * intros b Hb. by apply elem_of_nil in Hb.
    + intros b Hb. rewrite redo_empty by (by rewrite dread_insert_eq).
      by rewrite dread_insert_ne by (intros <-; apply Hb, in_log_start; lia).
Qed.

(** Once recovery is complete the header is empty. *)
Lemma recover_empty d : wf_log start cap d ->
  let d' := apply_writes (recover_writes d) d in
  length (dread d' start) = Z.to_nat BSIZE /\ hb_n (dread d' start) = 0 /\
  forall b, ~ in_log start cap b -> dread d' b = dread (redo start d) b.
Proof.
  intros Hwf d'. destruct (recover_prefix d (length (recover_writes d)) Hwf) as [(Hl & _ & _) Hr].
  rewrite firstn_all in Hl, Hr. fold d' in Hl, Hr.
  destruct (redo_prefix start cap d (length (copies start (targets start d) d)) Hwf) as [(Hl' & _) _].
  rewrite firstn_all in Hl'.
  assert (hb_n (dread d' start) = 0) as Hn.
  { unfold d', recover_writes. rewrite apply_writes_app. simpl. rewrite dread_insert_eq.
    unfold new_header. rewrite header_n; [done|]. unfold redo. rewrite Hl'. unfold BSIZE. simpl. lia. }
  split_and!; [done | done |]. intros b Hb. rewrite <- Hr by done. by rewrite redo_empty.
Qed.
End Recovery.

(** ** Operations between commits *)

Section Trans.
Context {S : Type} `{BufCacheLaws S}.
Variables start cap : Z.
Hypothesis start_range : 0 <= start /\ start + LOGSIZE < 2 ^ 31.
Hypothesis cap_range : 0 <= cap < LOGSIZE.

(** The state between operations: [bl] are the blocks the transaction has
    modified; they are pinned, unlocked, and the only referenced blocks, and the
    header on the device is empty. *)
Record log_inv (s : sys S) (g : log) (v : cview) (bl : list Z) : Prop := {
  inv_view : at_view s g v;
  inv_log : log_is start cap g bl;
  inv_lock : lg_lock g = Free;
  inv_idle : lg_committing g = false;
  inv_size : lg_size g = cap + 1;
  inv_out : 0 <= lg_outstanding g;
  inv_nodup : NoDup bl;
  inv_pins : forall b, b ∈ bl -> pinned false (cv_refs v) b;
  inv_only : forall b, b ∉ bl -> cv_refs v !! b = None;
  inv_hdr : length (dread (cv_disk v) start) = Z.to_nat BSIZE /\ hb_n (dread (cv_disk v) start) = 0
}.

Lemma inv_no_log s g v bl : log_inv s g v bl -> no_log_refs start cap v.
Proof.
  intros Hi b Hb. apply (inv_only _ _ _ _ Hi). intros Hin.
  by apply (li_range _ _ _ _ (inv_log _ _ _ _ Hi) b Hin).
Qed.

Lemma inv_refs_size s g v bl : log_inv s g v bl -> (size (cv_refs v) < NBUF)%nat.
Proof.
  intros Hi. assert (dom (cv_refs v) ⊆ list_to_set (C := gset Z) bl) as Hsub.
  { intros b Hb. apply elem_of_list_to_set. destruct (decide (b ∈ bl)) as [|Hn]; [done|].
    apply (inv_only _ _ _ _ Hi) in Hn. apply elem_of_dom in Hb as [r Hr]. congruence. }
  apply subseteq_size in Hsub. rewrite size_dom in Hsub.
  rewrite size_list_to_set in Hsub by apply Hi.
  pose proof (li_max _ _ _ _ (inv_log _ _ _ _ Hi)). unfold NBUF, LOGSIZE, MAXOPBLOCKS in *. lia.
Qed.

(** The typical use given in the comment above [log_write]. *)
Definition fs_write (b : Z) (x : block) : M (sys S) unit :=
  dv ← glog lg_dev;
  bp ← sread dv b;
  sset bp x;;
  log_write bp;;
  srelse bp.

Lemma absorb_in b bl bs i j :
  (forall k c, bl !! k = Some c -> bs !! k = Some (i32 c)) -> length bs = length bl ->
  (forall c, c ∈ bl -> 0 <= c < 2 ^ 32) -> NoDup bl -> bl !! j = Some b ->
  absorb b bs i = (i + j)%nat.
Proof.
  revert bs i j. induction bl as [|c bl IH]; intros [|c' bs] i j Hall Hlen Hr Hnd Hj; try done.
  pose proof (Hall 0%nat c eq_refl) as Hc. simpl in Hc. simplify_eq. cbn [absorb].
  rewrite u32_i32, u32_small by (apply Hr; left).
  apply NoDup_cons in Hnd as [Hn Hnd]. destruct j as [|j]; simpl in Hj; simplify_eq.
  - rewrite Z.eqb_refl. lia.
  - replace (c =? b) with false.
    2:{ symmetry. apply Z.eqb_neq. intros ->. apply Hn. by eapply list_elem_of_lookup_2. }
    rewrite (IH bs _ j); [lia | | by simpl in Hlen; lia | | done | done].
    + intros k d Hk. by apply (Hall (Datatypes.S k)).
    + intros d Hd. apply Hr. by right.
Qed.

Lemma absorb_out b bl bs i :
  (forall k c, bl !! k = Some c -> bs !! k = Some (i32 c)) -> length bs = length bl ->
  (forall c, c ∈ bl -> 0 <= c < 2 ^ 32) -> b ∉ bl ->
  absorb b bs i = (i + length bl)%nat.
Proof.
  revert bs i. induction bl as [|c bl IH]; intros [|c' bs] i Hall Hlen Hr Hb; try done.
  pose proof (Hall 0%nat c eq_refl) as Hc. simpl in Hc. simplify_eq. cbn [absorb].
  rewrite u32_i32, u32_small by (apply Hr; left).
  apply not_elem_of_cons in Hb as [Hbc Hb].
  replace (c =? b) with false by (symmetry; apply Z.eqb_neq; done).
  rewrite (IH bs); [simpl; lia | | by simpl in Hlen; lia | | done].
  - intros k d Hk. by apply (Hall (Datatypes.S k)).
  - intros d Hd. apply Hr. by right.
Qed.

Lemma log_is_snoc g bl b :
  log_is start cap g bl -> Z.of_nat (length bl) < cap -> 0 <= b < 2 ^ 32 -> ~ in_log start cap b ->
  log_is start cap (set_lh (LogHeader (Z.of_nat (length bl) + 1)
                          (<[length bl := i32 b]> (lh_block (lg_lh g)))) g) (bl ++ [b]).
Proof.
  intros [Hs Hd Hn Hl Hm Hb Hr] Hlt Hbr Hbl. split; simpl; try done.
  - rewrite length_app. simpl. lia.
  - by rewrite length_insert.
  - rewrite length_app. simpl. lia.
  - intros i c [Hi|[Hi Hc]]%lookup_app_Some.
    + rewrite list_lookup_insert_ne; [by apply Hb|]. apply lookup_lt_Some in Hi. lia.
    + apply list_lookup_singleton_Some in Hc as [Hi0 <-].
      replace i with (length bl) by lia. apply list_lookup_insert_eq. lia.
  - intros c [Hc|Hc]%elem_of_app; [by apply Hr|]. by apply list_elem_of_singleton in Hc as ->.
Qed.

(** [log_write] of a buffer held for block [b]. *)
Lemma log_write_spec s g v bl b r h (Q : unit -> sys S -> Prop) :
  at_view s g v -> log_is start cap g bl -> lg_lock g = Free -> NoDup bl ->
  1 <= lg_outstanding g -> lg_size g = cap + 1 -> Z.of_nat (length bl) < cap ->
  0 <= b < 2 ^ 32 -> ~ in_log start cap b ->
  cv_refs v !! b = Some r -> br_h r = h -> br_cnt r < 2 ^ 32 - 1 ->
  (forall s' hd, let bl' := if decide (b ∈ bl) then bl else bl ++ [b] in
     log_is start cap (set_lh hd g) bl' ->
     at_view s' (set_lh hd g)
       (if decide (b ∈ bl) then v
        else set_refs <[b := BRef h (br_cnt r + 1) (br_locked r) (br_data r)]> v) -> Q tt s') ->
  wp (log_write h) Q s.
Proof.
  intros Hv Hli Hlk Hnd Ho Hs1 Hs2 Hbr Hbl Hr Hh Hc HQ.
  pose proof (li_n _ _ _ _ Hli) as Hn. pose proof (li_len _ _ _ _ Hli) as Hlen.
  unfold log_write. apply wp_bind. eapply r_acquire; [exact Hv | done |].
  clear Hv. intros s1 Hv. rd_log. unfold id. cbn [set_lock lg_lh lg_size lg_outstanding].
  rewrite Hn. replace (_ || _) with false by (symmetry; apply orb_false_intro; lia).
  replace (lg_outstanding g <? 1) with false by lia.
  apply wp_bind. eapply r_blockno; [exact Hv | exact Hr | done |]. rewrite Nat2Z.id.
  set (bs := take (length bl) (lh_block (lg_lh g))).
  assert (length bs = length bl) as Hbs.
  { unfold bs. rewrite length_take, Hlen. unfold LOGSIZE, MAXOPBLOCKS in *. lia. }
  assert (forall k c, bl !! k = Some c -> bs !! k = Some (i32 c)) as Hall.
  { intros k c Hk. unfold bs. rewrite lookup_take_lt by (by eapply lookup_lt_Some).
    by apply (li_block _ _ _ _ Hli). }
  assert (forall c, c ∈ bl -> 0 <= c < 2 ^ 32) as Hrange by (intros c Hin; by apply (li_range _ _ _ _ Hli)).
  destruct (decide (b ∈ bl)) as [Hin|Hin].
  - pose proof Hin as [j Hj]%list_elem_of_lookup. rewrite (absorb_in b bl bs 0 j) by done.
    assert (j < length bl)%nat by (by eapply lookup_lt_Some). simpl.
    apply wp_bind. eapply r_lh_put; [exact Hv | simpl; rewrite Hlen; unfold LOGSIZE, MAXOPBLOCKS in *; lia |].
    clear Hv. intros s2 Hv. replace (Z.of_nat j =? Z.of_nat (length bl)) with false by lia.
    apply wp_bind, wp_ret. eapply r_release; [exact Hv | done |]. clear Hv. intros s3 Hv.
    simpl in Hv. rewrite list_insert_id in Hv by (by apply (li_block _ _ _ _ Hli)).
    eapply (HQ s3 (lg_lh g)).
    + destruct Hli. by split.
    + destruct g as [lk ? ? ? ? ? [? ?]]; simpl in *. by subst lk.
  - rewrite (absorb_out b bl bs 0) by done. simpl.
    apply wp_bind. eapply r_lh_put; [exact Hv | simpl; rewrite Hlen; unfold LOGSIZE, MAXOPBLOCKS in *; lia |].
    clear Hv. intros s2 Hv. rewrite Z.eqb_refl. cbn [when].
    apply wp_bind, wp_bind. eapply (r_pin _ _ _ b); [exact Hv | done..|].
    clear Hv. intros s3 Hv. eapply r_mlog; [exact Hv|]. clear Hv. intros s4 Hv.
    eapply r_release; [exact Hv | done |]. clear Hv. intros s5 Hv.
    eapply (HQ s5 (LogHeader (Z.of_nat (length bl) + 1) (<[length bl := i32 b]> (lh_block (lg_lh g))))).
    + apply log_is_snoc; [done | lia | done | done].
    + destruct g as [lk ? ? ? ? ? [? ?]]; simpl in *. by subst lk.
Qed.

(** The log after a block is written. *)
Definition add_block (b : Z) (bl : list Z) : list Z := if decide (b ∈ bl) then bl else bl ++ [b].

(** A write inside a transaction that still fits: nothing reaches the device, the
    kernel sees the new contents, and the block is logged once. *)
Lemma fs_write_spec s g v bl b x (Q : unit -> sys S -> Prop) :
  log_inv s g v bl -> 1 <= lg_outstanding g -> Z.of_nat (length bl) < cap ->
  0 <= b < 2 ^ 32 -> ~ in_log start cap b ->
  (forall s' hd R, let v' := CView (cv_disk v) (cv_writes v) R in
     log_inv s' (set_lh hd g) v' (add_block b bl) ->
     (forall c, content v' c = if decide (c = b) then x else content v c) -> Q tt s') ->
  wp (fs_write b x) Q s.
Proof.
  intros Hinv Ho Hroom Hbr Hbl HQ. pose proof (inv_refs_size _ _ _ _ Hinv) as Hsz.
  destruct Hinv as [Hv Hli Hlk Hid Hs1 Ho0 Hnd Hpin Honly Hh].
  destruct v as [d ws R]; simpl in *.
  unfold fs_write. rd_log. rewrite (li_dev _ _ _ _ Hli). unfold add_block in HQ.
  destruct (decide (b ∈ bl)) as [Hin|Hin].
  - destruct (Hpin b Hin) as (h & y & Hb). call r_read_hit b Hv. call r_set b Hv.
    apply wp_bind. eapply (log_write_spec _ _ _ bl b); [exact Hv | done..| by simplify_map_eq | done | simpl; lia |].
    rewrite !decide_True by done. clear Hv. intros s1 hd bl' Hli' Hv.
    call r_relse_more b Hv. rewrite !insert_insert_eq in Hv.
    eapply HQ.
    + split; try done; simpl.
      * intros c Hc. rewrite lookup_insert. case_decide; [by do 2 eexists|]. by apply Hpin.
      * intros c Hc. rewrite lookup_insert_ne by (intros ->; done). by apply Honly.
    + intros c. unfold content. simpl. rewrite lookup_insert. by repeat case_decide.
  - pose proof (Honly b Hin) as Hb. apply wp_bind.
    eapply r_read_miss; [exact Hv | done..|]. clear Hv. intros h s1 Hv. unfold set_refs in Hv; simpl in Hv.
    call r_set b Hv. apply wp_bind.
    eapply (log_write_spec _ _ _ bl b); [exact Hv | done..| by simplify_map_eq | done | simpl; lia |].
    rewrite !decide_False by done. clear Hv. intros s2 hd bl' Hli' Hv. unfold set_refs in Hv; simpl in Hv.
    call r_relse_more b Hv. rewrite !insert_insert_eq in Hv.
    eapply HQ.
    + split; try done; simpl.
      * apply NoDup_app. split_and!; [done | | apply NoDup_singleton].
        intros c Hc Hc'. apply list_elem_of_singleton in Hc' as ->. done.
      * intros c [Hc|Hc]%elem_of_app.
        -- rewrite lookup_insert_ne by (intros ->; done). by apply Hpin.
        -- apply list_elem_of_singleton in Hc as ->. rewrite lookup_insert_eq. by do 2 eexists.
      * intros c [Hc1 Hc2]%not_elem_of_app. rewrite lookup_insert_ne; [by apply Honly|].
        intros ->. apply Hc2. left.
    + intros c. unfold content. simpl. rewrite lookup_insert. by repeat case_decide.
Qed.

Lemma log_write_full h (s : sys S) :
  lg_lock (sys_log s) = Free -> lg_size (sys_log s) - 1 <= lh_n (lg_lh (sys_log s)) ->
  log_write h s = Panic "too big a transaction".
Proof.
  intros Hl Hn. unfold log_write.
  erewrite bind_ret; [|unfold acquire; simpl; rewrite Hl; reflexivity].
  erewrite bind_ret by reflexivity. unfold id. simpl.
  replace (_ || _) with true; [done|]. symmetry. apply orb_true_intro. right. by apply Z.leb_le.
Qed.

(** A write by a process when the log is full: [log_write] panics. *)
Lemma fs_write_full s g v bl b x :
  log_inv s g v bl -> cap <= Z.of_nat (length bl) -> 0 <= b < 2 ^ 32 ->
  fs_write b x s = Panic "too big a transaction".
Proof.
  intros Hinv Hfull Hbr. pose proof (inv_refs_size _ _ _ _ Hinv) as Hsz.
  assert (wp (dv ← glog lg_dev; bp ← sread dv b; sset bp x;; mret bp)
            (fun bp s' => exists v', at_view s' g v') s) as Hpre.
  { destruct Hinv as [Hv Hli Hlk Hid Hs1 Ho0 Hnd Hpin Honly Hh].
    destruct v as [d ws R]; simpl in *. rd_log. rewrite (li_dev _ _ _ _ Hli).
    destruct (decide (b ∈ bl)) as [Hin|Hin].
    - destruct (Hpin b Hin) as (h & y & Hb). call r_read_hit b Hv. call r_set b Hv.
      apply wp_ret. eauto.
    - pose proof (Honly b Hin) as Hb. apply wp_bind.
      eapply r_read_miss; [exact Hv | done..|]. clear Hv. intros h s1 Hv. unfold set_refs in Hv; simpl in Hv.
      call r_set b Hv. apply wp_ret. eauto. }
  apply wp_elim in Hpre as (bp & s' & He & v' & Hg & _).
  assert (fs_write b x s = ((dv ← glog lg_dev; bp ← sread dv b; sset bp x;; mret bp)
            ≫= fun bp => log_write bp;; srelse bp) s) as ->.
  { unfold fs_write, mbind, M_bind. simpl. destruct (sread _ b s) as [bp' s0| | |]; try done.
    by destruct (sset bp' x s0). }
  erewrite bind_ret by exact He. apply bind_panic. subst g. apply log_write_full.
  - apply Hinv.
  - rewrite (li_n _ _ _ _ (inv_log _ _ _ _ Hinv)), (inv_size _ _ _ _ Hinv). lia.
Qed.

Lemma begin_op_spec s g v bl :
  log_inv s g v bl ->
  if Z.of_nat (length bl) + (lg_outstanding g + 1) * MAXOPBLOCKS >? LOGSIZE
  then exists s', begin_op s = Blocked "log" s' /\ log_inv s' g v bl
  else exists s', begin_op s = Ret tt s' /\
         log_inv s' (set_outstanding (lg_outstanding g + 1) g) v bl.
Proof.
  intros Hinv. assert (forall s', at_view s' g v -> log_inv s' g v bl) as Hsame.
  { intros s' Hv. destruct Hinv. by split. }
  pose proof Hinv as [[Hg Hrep] Hli Hlk Hid Hs1 Ho Hnd Hpin Honly Hh].
  destruct s as [g0 c]; simpl in *; subst g0. pose proof (li_n _ _ _ _ Hli) as Hn.
  unfold begin_op. unfold mbind, M_bind, acquire, release, glog, gets, mlog, modify. simpl.
  rewrite Hlk. unfold id. simpl. rewrite Hid, Hn.
  destruct (_ >? LOGSIZE) eqn:E; simpl.
  - eexists. split; [reflexivity|]. apply Hsame. split; [|done]. simpl.
    destruct g; simpl in *. by subst.
  - eexists. split; [reflexivity|]. split; simpl; try done; try lia.
    + split; [|done]. simpl. unfold set_outstanding. simpl. by rewrite Hlk.
    + by destruct Hli.
Qed.

(** The writes [end_op] causes when it ends the last operation. *)
Definition end_writes (bl : list Z) (v : cview) : list (Z * block) :=
  if decide (bl = []) then [] else commit_writes start bl v.

Lemma commit_any s g v bl (Q : unit -> sys S -> Prop) :
  at_view s g v -> log_is start cap g bl -> NoDup bl -> no_log_refs start cap v ->
  (forall b, b ∈ bl -> pinned false (cv_refs v) b) -> (size (cv_refs v) < NBUF)%nat ->
  (forall s', let W := end_writes bl v in
     at_view s' (set_lh_n 0 g)
       (CView (apply_writes W (cv_disk v)) (cv_writes v ++ W) (dels (cv_refs v) bl)) -> Q tt s') ->
  wp commit Q s.
Proof.
  intros Hv Hli Hnd Hnl Hpin Hsz HQ. unfold end_writes in HQ.
  destruct (decide (bl = [])) as [->|Hne]; [|by eapply commit_spec].
  unfold commit. rd_log. pose proof (li_n _ _ _ _ Hli) as Hn. simpl in Hn. rewrite Hn. simpl.
  apply wp_ret, HQ. simpl. rewrite app_nil_r.
  destruct g as [? ? ? ? ? ? [n ?]], v; unfold set_lh_n, set_lh; simpl in *. by rewrite Hn in Hv.
Qed.

(** The last operation leaves: the log is as it was, but for [committing]. *)
Lemma leave_last s g v bl : log_inv s g v bl -> lg_outstanding g = 1 ->
  exists s', end_op_leave s = Ret true s' /\ at_view s' (set_committing true (set_outstanding 0 g)) v.
Proof.
  intros [[Hg Hrep] Hli Hlk Hid Hs1 Ho0 Hnd Hpin Honly Hh] Ho. destruct s as [g0 c]; simpl in *; subst g0.
  unfold end_op_leave, mbind, M_bind, acquire, release, glog, gets, mlog, modify. simpl.
  rewrite Hlk. simpl. rewrite Hid, Ho. simpl. eexists. split; [reflexivity|]. split; [|done].
  simpl. unfold set_committing, set_outstanding. simpl. by rewrite Hlk.
Qed.

Lemma leave_more s g v bl :
  log_inv s g v bl -> 1 < lg_outstanding g ->
  exists s', end_op_leave s = Ret false s' /\ log_inv s' (set_outstanding (lg_outstanding g - 1) g) v bl.
Proof.
  intros Hinv Ho. pose proof Hinv as [[Hg Hrep] Hli Hlk Hid Hs1 Ho0 Hnd Hpin Honly Hh].
  destruct s as [g0 c]; simpl in *; subst g0.
  unfold end_op_leave, mbind, M_bind, acquire, release, glog, gets, mlog, modify. simpl.
  rewrite Hlk. simpl. rewrite Hid. replace (lg_outstanding g - 1 =? 0) with false by lia. simpl.
  eexists. split; [reflexivity|]. split; simpl; try done; try lia.
  - split; [|done]. simpl. unfold set_outstanding. simpl. by rewrite Hlk.
  - by destruct Hli.
Qed.

(** While a commit is under way the log is what it was when the last operation left,
    but for [committing]. *)
Definition committing (g : log) (v : cview) (bl : list Z) : Prop :=
  lg_committing g = true /\ lg_outstanding g = 0 /\ exists s0, log_inv s0 (set_committing false g) v bl.

Lemma committing_facts g v bl : committing g v bl ->
  log_is start cap g bl /\ lg_lock g = Free /\ lg_size g = cap + 1 /\ NoDup bl /\ no_log_refs start cap v /\
  (forall b, b ∈ bl -> pinned false (cv_refs v) b) /\ (size (cv_refs v) < NBUF)%nat /\
  (forall b, b ∉ bl -> cv_refs v !! b = None) /\
  length (dread (cv_disk v) start) = Z.to_nat BSIZE /\ hb_n (dread (cv_disk v) start) = 0.
Proof.
  intros (_ & _ & s0 & Hi). pose proof (inv_refs_size _ _ _ _ Hi) as Hsz. pose proof (inv_no_log _ _ _ _ Hi) as Hnl.
  destruct Hi as [Hv Hli Hlk Hid Hs1 Ho0 Hnd Hpin Honly [Hhl Hhe]]. split_and!; try done. by destruct Hli.
Qed.

Lemma leave_committing s g v bl : log_inv s g v bl -> committing (set_committing true (set_outstanding 0 g)) v bl.
Proof.
  intros [[Hg Hrep] Hli Hlk Hid Hs1 Ho0 Hnd Hpin Honly Hh]. split_and!; [done | done |].
  exists (Sys (set_committing false (set_outstanding 0 g)) (sys_cache s)). split; try done. by destruct Hli.
Qed.

(** [begin_op] waits for it. *)
Lemma begin_op_committing s g v : at_view s g v -> lg_committing g = true -> lg_lock g = Free -> begin_op s = Blocked "log" s.
Proof.
  intros [Hg _] Hc Hlk. destruct s as [g0 c]; simpl in *; subst g0.
  unfold begin_op, mbind, M_bind, acquire, release, glog, gets, mlog, modify. simpl. rewrite Hlk. unfold id. simpl. rewrite Hc. simpl.
  unfold sleep_on. do 2 f_equal. unfold with_log, set_lock. simpl. destruct g; simpl in *. by subst.
Qed.

(** The end of a commit. *)
Lemma done_spec s g v bl : committing g v bl -> let W := end_writes bl v in let d' := apply_writes W (cv_disk v) in
  at_view s (set_lh_n 0 g) (CView d' (cv_writes v ++ W) (dels (cv_refs v) bl)) ->
  exists s' g', end_op_done s = Ret tt s' /\ log_inv s' g' (CView d' (cv_writes v ++ W) ∅) [] /\
    lg_outstanding g' = 0 /\ lg_size g' = lg_size g /\ (forall b, ~ in_log start cap b -> dread d' b = content v b).
Proof.
  intros Hc W d' [Hg Hrep]. destruct (committing_facts _ _ _ Hc) as (Hli & Hlk & Hs1 & Hnd & _ & _ & _ & Honly & Hhl & Hhe).
  assert (dels (cv_refs v) bl = ∅) as Hdels.
  { apply map_empty. intros b. rewrite lookup_dels. case_decide; [done|]. by apply Honly. }
  rewrite Hdels in Hrep. destruct s as [g0 c]; simpl in *; subst g0.
  assert (length (dread d' start) = Z.to_nat BSIZE /\ hb_n (dread d' start) = 0 /\
          forall b, ~ in_log start cap b -> dread d' b = content v b) as (H1 & H2 & H3).
  { unfold d', W, end_writes. case_decide as Hbl.
    - split_and!; [done..|]. intros b _. unfold content. rewrite Honly; [done|]. subst. apply not_elem_of_nil.
    - destruct (commit_done start cap bl v) as (H1 & H2 & H3); try done; [apply Hli | apply Hli |].
      split_and!; [done..|]. intros b Hb. rewrite H3 by done. unfold committed. case_decide; [done|].
      unfold content. by rewrite Honly. }
  exists (Sys (set_committing false (set_lh_n 0 g)) c), (set_committing false (set_lh_n 0 g)). split_and!; try done; [| |apply Hc].
  - unfold end_op_done, mbind, M_bind, acquire, release, mlog, modify. simpl. rewrite Hlk. simpl. do 2 f_equal.
    unfold with_log, set_committing, set_lock. simpl. by rewrite Hlk.
  - destruct (log_is_clear start cap cap_range g bl Hli) as [L1 L2 L3 L4 L5 L6 L7]. destruct Hc as (_ & Ho & _).
    split; simpl; try done; try lia; [apply NoDup_nil_2 | by intros ? []%elem_of_nil].
Qed.

Lemma end_op_last s g v bl (Q : unit -> sys S -> Prop) :
  log_inv s g v bl -> lg_outstanding g = 1 ->
  (forall s' g', let W := end_writes bl v in let d' := apply_writes W (cv_disk v) in
     log_inv s' g' (CView d' (cv_writes v ++ W) ∅) [] ->
     lg_outstanding g' = 0 -> lg_size g' = lg_size g ->
     (forall b, ~ in_log start cap b -> dread d' b = content v b) -> Q tt s') ->
  wp end_op Q s.
Proof.
  intros Hinv Ho HQ. destruct (leave_last _ _ _ _ Hinv Ho) as (s1 & E1 & Hv). pose proof (leave_committing _ _ _ _ Hinv) as Hc.
  destruct (committing_facts _ _ _ Hc) as (Hli & _ & _ & Hnd & Hnl & Hpin & Hsz & _).
  unfold end_op. apply wp_bind. eapply wp_intro; [exact E1|]. cbn [when]. apply wp_bind.
  eapply commit_any; [exact Hv | done..|]. intros s2 W Hv2.
  destruct (done_spec s2 _ v bl Hc Hv2) as (s3 & g3 & E3 & Hi3 & Ho3 & Hs3 & Hd3). eapply wp_intro; [exact E3|]. by eapply HQ.
Qed.

Lemma end_op_more s g v bl :
  log_inv s g v bl -> 1 < lg_outstanding g ->
  exists s', end_op s = Ret tt s' /\ log_inv s' (set_outstanding (lg_outstanding g - 1) g) v bl.
Proof.
  intros Hinv Ho. destruct (leave_more _ _ _ _ Hinv Ho) as (s' & E & Hi). exists s'. split; [|done].
  unfold end_op. by rewrite (bind_ret _ _ _ _ _ E).
Qed.
End Trans.
