(* ===== verification/LogCrash.v ===== *)
(** * LogCrash: file-system operations, crashes and recovery

    The log of [Log] over the buffer cache of [Bio]: the system that [initlog]
    starts after a boot, operations of several processes interleaved between
    [begin_op] and [end_op], a power failure after any number of block writes,
    and any number of further failures while the log is being recovered.

    [commit] runs without the log's lock: its calls are separate steps, and other
    processes call [begin_op] between them, which waits because of [log.committing]. *)

From S2P Require Import Prelude BufCache Sleeplock Bio Log.

(** ** The running system *)

Abbreviation ksys := (sys bio).

(** What the kernel sees in block [b]: the referenced buffer, or the device. *)
Definition kview (s : ksys) (b : Z) : block :=
  match List.find (fun x => (dev x =? ROOTDEV) && (blockno x =? b) && negb (refcnt x =? 0))
          (bufs (sys_cache s)) with
  | Some x => data x
  | None => dread (disk (sys_cache s)) b
  end.

(** A boot: [binit], then [initlog] by the first process. *)
Definition mount (sb : superblock) (d : blocks) : outcome ksys unit :=
  initlog (H := bio_cache 1) ROOTDEV sb (Sys log_bss (booted d)).

Definition write_block (pid b : Z) (x : block) : M ksys unit := fs_write (H := bio_cache pid) b x.
Definition finish (pid : Z) : M ksys unit := end_op (H := bio_cache pid).

(** Where in [end_op] the process is that commits: before the test of [commit], or after
    the first [i] calls of its body. *)
Inductive cpos := CTest | CAt (i : nat).

(** The system, the operations in progress (the process and how many blocks it has
    written), the process that commits, and the contents at each commit, latest first. *)
Record world := World {
  w_sys : ksys;
  w_ops : list (Z * nat);
  w_commit : option (Z * cpos);
  w_hist : list (Z -> block)
}.

Section Crashes.
Variable sb : superblock.
Abbreviation start := (sb_logstart sb).
Abbreviation cap := (sb_nlog sb - 1).

Abbreviation body pid := (commit_body (H := bio_cache pid)).

Inductive txstep : world -> world -> Prop :=
| tx_begin pid s s' ops cm C :
    begin_op s = Ret tt s' ->
    txstep (World s ops cm C) (World s' ((pid, 0%nat) :: ops) cm C)
| tx_wait s s' ops cm C :
    begin_op s = Blocked "log" s' ->
    txstep (World s ops cm C) (World s' ops cm C)
| tx_write pid u b x s s' ops1 ops2 cm C :
    Z.of_nat u < MAXOPBLOCKS -> 0 <= b < 2 ^ 32 -> ~ in_log start cap b ->
    write_block pid b x s = Ret tt s' ->
    txstep (World s (ops1 ++ (pid, u) :: ops2) cm C) (World s' (ops1 ++ (pid, S u) :: ops2) cm C)
| tx_end pid u s s' do_commit ops1 ops2 cm C :
    end_op_leave s = Ret do_commit s' ->
    txstep (World s (ops1 ++ (pid, u) :: ops2) cm C)
           (World s' (ops1 ++ ops2) (if do_commit then Some (pid, CTest) else cm) C)
| tx_test pid s ops C :
    txstep (World s ops (Some (pid, CTest)) C)
           (if 0 <? lh_n (lg_lh (sys_log s)) then World s ops (Some (pid, CAt 0)) C
            else World s ops (Some (pid, CAt (length (body pid)))) (kview s :: C))
| tx_commit pid i m s s' ops C :
    body pid !! i = Some m -> m s = Ret tt s' ->
    txstep (World s ops (Some (pid, CAt i)) C)
           (World s' ops (Some (pid, CAt (S i))) (if decide (i = 1%nat) then kview s :: C else C))
| tx_done pid s s' ops C :
    end_op_done s = Ret tt s' ->
    txstep (World s ops (Some (pid, CAt (length (body pid)))) C) (World s' ops None C).

(** Power fails any number of times during recovery, which at last completes. *)
Inductive recovers : blocks -> blocks -> Prop :=
| rec_done d s : mount sb d = Ret tt s -> recovers d (disk (sys_cache s))
| rec_crash d s k d' :
    mount sb d = Ret tt s ->
    recovers (apply_writes (take k (writes (sys_cache s))) d) d' -> recovers d d'.

(** ** Invariant *)

Hypothesis start_range : 0 <= start /\ start + LOGSIZE < 2 ^ 31.
Hypothesis size_range : 0 < sb_nlog sb <= LOGSIZE.

Abbreviation inv pid := (log_inv (H0 := bio_laws pid) start cap).

Lemma cap_range : 0 <= cap < LOGSIZE.
Proof. lia. Qed.

Lemma bio_rep_pid p q s v :
  bio_rep p s v -> (forall b r, cv_refs v !! b = Some r -> br_locked r = false) -> bio_rep q s v.
Proof.
  intros [Hl Hr Hc Hd Hw] Hun. split; try done. destruct Hc as [H1 H2 H3 H4]. split; try done.
  intros b r Hb. destruct (H2 b r Hb) as (x & Hx & [Hs Hcnt]). exists x. split; [done|].
  split; [|done]. by rewrite Hs, (Hun b r Hb).
Qed.

Lemma inv_unlocked p s g v bl : inv p s g v bl ->
  forall b r, cv_refs v !! b = Some r -> br_locked r = false.
Proof.
  intros Hi b r Hb. destruct (decide (b ∈ bl)) as [Hin|Hin].
  - destruct (inv_pins _ _ _ _ _ _ Hi b Hin) as (h & x & Hr). by simplify_eq.
  - by rewrite (inv_only _ _ _ _ _ _ Hi b Hin) in Hb.
Qed.

Lemma inv_pid p q s g v bl : inv p s g v bl -> inv q s g v bl.
Proof.
  intros Hi. pose proof (inv_unlocked _ _ _ _ _ Hi) as Hun.
  destruct Hi as [[Hg Hrep] ? ? ? ? ? ? ? ? ?]. split; try done. split; [done|].
  by apply (bio_rep_pid p).
Qed.

Lemma kview_content pid s v b :
  bio_rep pid (sys_cache s) v -> kview s b = content v b.
Proof.
  intros Hrep. pose proof (rep_content _ _ _ Hrep) as Hc. unfold kview, content.
  rewrite (rep_disk _ _ _ Hrep).
  destruct (List.find _ _) as [x|] eqn:E.
  - apply List.find_some in E as [Hin Ht]. apply list_elem_of_In, list_elem_of_lookup in Hin as [i Hi].
    apply andb_prop in Ht as [[Hd Hb]%andb_prop Hn]. apply negb_true_iff, Z.eqb_neq in Hn.
    destruct (ct_bufs _ _ _ Hc i x Hi) as [(H0 & _)|(r & Hr & Hh)]; [done|].
    assert (blockno x = b) as <- by lia. rewrite Hr.
    destruct (ct_refs _ _ _ Hc _ _ Hr) as (y & Hy & [Hs _]). rewrite Hh, Hi in Hy.
    injection Hy as <-. by rewrite Hs.
  - destruct (cv_refs v !! b) as [r|] eqn:Hr; [|done]. exfalso.
    destruct (ct_refs _ _ _ Hc _ _ Hr) as (y & Hy & [Hs Hcnt]).
    apply (List.find_none _ _) with (x := y) in E.
    2:{ apply list_elem_of_In. by eapply list_elem_of_lookup_2. }
    rewrite Hs in E. simpl in E. rewrite Z.eqb_refl in E. simpl in E. lia.
Qed.

(** The space the operations in progress may still take. *)
Definition budget (ops : list (Z * nat)) : Z :=
  foldr (fun o t => MAXOPBLOCKS - Z.of_nat o.2 + t) 0 ops.

Lemma budget_app l1 l2 : budget (l1 ++ l2) = budget l1 + budget l2.
Proof. unfold budget. induction l1 as [|o l1 IH]; simpl; lia. Qed.

(** Every crash point of the run so far means one of the commits. *)
Definition durable (d : blocks) (ws : list (Z * block)) (C : list (Z -> block)) : Prop :=
  (forall k, let d' := apply_writes (take k ws) d in
     wf_log start cap d' /\
     exists c, c ∈ C /\ forall b, ~ in_log start cap b -> dread (redo start d') b = c b) /\
  exists c C', C = c :: C' /\
    forall b, ~ in_log start cap b -> dread (redo start (apply_writes ws d)) b = c b.

(** A commit under way: [g], [v], [bl] are the log, the view and the blocks when the last
    operation left, [C0] the commits until then. *)
Abbreviation view pid := (at_view (H0 := bio_laws pid)).
Definition commit_inv (d : blocks) (s : ksys) (pos : cpos) (C : list (Z -> block)) : Prop :=
  exists g v bl C0,
    committing (H0 := bio_laws 1) start cap g v bl /\ lg_size g = sb_nlog sb /\
    cv_disk v = apply_writes (cv_writes v) d /\ durable d (cv_writes v) C0 /\
    match pos with
    | CTest => view 1 s g v /\ C = C0
    | CAt i =>
      if decide (bl = []) then i = 5%nat /\ view 1 s g v /\ exists c, C = c :: C0 /\ forall b, c b = content v b
      else (i <= 5)%nat /\ view 1 s (commit_at start bl g v i).1 (commit_at start bl g v i).2 /\
        if decide (i <= 1)%nat then C = C0 else exists c, C = c :: C0 /\ forall b, ~ in_log start cap b -> c b = content v b
    end.

Record winv (d : blocks) (w : world) : Prop := {
  wi_inv : match w_commit w with
    | None => exists g v bl,
        inv 1 (w_sys w) g v bl /\ lg_outstanding g = Z.of_nat (length (w_ops w)) /\
        lg_size g = sb_nlog sb /\
        Z.of_nat (length bl) + budget (w_ops w) <= LOGSIZE /\
        cv_disk v = apply_writes (cv_writes v) d
    | Some (_, pos) => w_ops w = [] /\ commit_inv d (w_sys w) pos (w_hist w)
    end;
  wi_ops : Forall (fun o => Z.of_nat o.2 <= MAXOPBLOCKS) (w_ops w);
  wi_durable : durable d (writes (sys_cache (w_sys w))) (w_hist w)
}.

(** ** The invariant is preserved *)

(** What [initlog] leaves: an empty log over the recovered device. *)
Lemma mount_inv d : wf_log start cap d ->
  exists s g, mount sb d = Ret tt s /\ lg_outstanding g = 0 /\
    inv 1 s g (CView (apply_writes (recover_writes start d) d) (recover_writes start d) ∅) [].
Proof.
  intros Hwf. destruct (recover_empty start cap cap_range d Hwf) as (H1 & H2 & _).
  assert (wp (initlog (H := bio_cache 1) ROOTDEV sb)
    (fun _ s => exists g, lg_outstanding g = 0 /\
      inv 1 s g (CView (apply_writes (recover_writes start d) d) (recover_writes start d) ∅) []) (Sys log_bss (booted d))) as Hw.
  { eapply (initlog_spec (H0 := bio_laws 1) start cap start_range cap_range _ (CView d [] ∅)); [|done..|].
    { split; [done|]. apply bio_boot_rep. }
    simpl. intros s g Hli Hlk Hcm Ho Hsz Hv. exists g. split; [done|].
    rewrite i32_small in Hsz by (unfold LOGSIZE, MAXOPBLOCKS in size_range; lia).
    split; simpl; try done; [lia | lia | apply NoDup_nil_2 | by intros ? []%elem_of_nil]. }
  apply wp_elim in Hw as ([] & s & He & g & Hrest). exists s, g. split; [exact He | exact Hrest].
Qed.

Lemma winv_mount d : wf_log start cap d ->
  exists s, mount sb d = Ret tt s /\ winv d (World s [] None [dread (redo start d)]) /\
    writes (sys_cache s) = recover_writes start d /\
    disk (sys_cache s) = apply_writes (recover_writes start d) d.
Proof.
  intros Hwf. destruct (mount_inv d Hwf) as (s & g & Hm & Ho & Hi). exists s.
  pose proof (inv_view _ _ _ _ _ _ Hi) as [_ Hrep].
  pose proof (rep_writes _ _ _ Hrep) as Hws. pose proof (rep_disk _ _ _ Hrep) as Hdk. simpl in Hws, Hdk.
  destruct (recover_empty start cap cap_range d Hwf) as (_ & H2 & H3).
  split_and!; [done | | done | done]. split; simpl.
  - eexists g, _, []. split_and!; [exact Hi | done | | simpl; unfold LOGSIZE, MAXOPBLOCKS; lia | done].
    rewrite (inv_size _ _ _ _ _ _ Hi). lia.
  - constructor.
  - rewrite <- Hws. split.
    + intros k d'. destruct (recover_prefix start cap cap_range d k Hwf) as [Hw1 Hw2].
      split; [done|]. eexists. split; [left|]. apply Hw2.
    + eexists _, []. split; [done|]. intros b Hb. by rewrite redo_empty, H3.
Qed.

Lemma durable_ext d ws c c' C : (forall b, ~ in_log start cap b -> c b = c' b) -> durable d ws (c :: C) -> durable d ws (c' :: C).
Proof.
  intros He [Hall (c0 & C0 & HC & Hlast)]. simplify_eq. split.
  - intros k. destruct (Hall k) as [Hwf (c1 & Hin & Hc1)]. split; [done|].
    apply elem_of_cons in Hin as [->|Hin].
    + exists c'. split; [left|]. intros b Hb. by rewrite <- He, Hc1.
    + exists c1. split; [by right | done].
  - exists c', C0. split; [done|]. intros b Hb. by rewrite <- He, Hlast.
Qed.

(** Nothing to commit. *)
Lemma durable_same d v C : cv_disk v = apply_writes (cv_writes v) d -> (forall b, cv_refs v !! b = None) ->
  hb_n (dread (cv_disk v) start) = 0 -> durable d (cv_writes v) C -> durable d (cv_writes v) (content v :: C).
Proof.
  intros Hd Honly He [Hall _]. split.
  - intros k. destruct (Hall k) as [Hwf (c0 & Hin & Hc0)]. split; [done|]. exists c0. split; [by right | done].
  - eexists _, C. split; [done|]. intros b Hb. rewrite <- Hd, redo_empty by done. unfold content. by rewrite Honly.
Qed.

(** After [j] of the writes of a commit. *)
Lemma durable_prefix d v bl C j :
  cv_disk v = apply_writes (cv_writes v) d ->
  (length bl <= Z.to_nat cap)%nat -> (forall b, b ∈ bl -> 0 <= b < 2 ^ 32 /\ ~ in_log start cap b) ->
  NoDup bl -> (forall b, b ∉ bl -> cv_refs v !! b = None) ->
  length (dread (cv_disk v) start) = Z.to_nat BSIZE -> hb_n (dread (cv_disk v) start) = 0 ->
  durable d (cv_writes v) C ->
  durable d (cv_writes v ++ take j (commit_writes start bl v)) (if decide (j <= length bl)%nat then C else content v :: C).
Proof.
  intros Hd Hmax Hr Hnd Honly Hl He [Hall (c & C' & HC & Hlast)].
  assert (forall b, content v b = committed bl v b) as Hcomm.
  { intros b. unfold committed. case_decide; [done|]. unfold content. by rewrite Honly. }
  assert (forall k, let d' := apply_writes (take k (commit_writes start bl v)) (cv_disk v) in
    wf_log start cap d' /\ forall b, ~ in_log start cap b -> dread (redo start d') b =
      if decide (k <= length bl)%nat then dread (cv_disk v) b else committed bl v b) as Hcp
    by (intros k; by apply (commit_prefix start cap bl v cap_range)).
  assert (forall b, ~ in_log start cap b -> dread (cv_disk v) b = c b) as Hold.
  { intros b Hb. rewrite <- Hlast by done. by rewrite <- Hd, redo_empty. }
  split.
  - intros k d'. destruct (decide (k <= length (cv_writes v))%nat) as [Hk|Hk].
    + unfold d'. rewrite take_app_le by done.
      destruct (Hall k) as [Hwf (c0 & Hin & Hc0)]. split; [done|]. exists c0. split; [case_decide; [done | by right] | done].
    + unfold d'. rewrite take_app_ge, apply_writes_app, <- Hd, take_take by lia. set (k' := (_ `min` j)%nat).
      destruct (Hcp k') as [Hwf Hb]. split; [done|]. destruct (decide (k' <= length bl)%nat) as [Hk'|Hk'].
      * exists c. split; [subst C; case_decide; [left | right; left]|]. intros b Hnb. by rewrite (Hb b Hnb), Hold.
      * rewrite decide_False by lia. exists (content v). split; [left|]. intros b Hnb. by rewrite (Hb b Hnb), Hcomm.
  - assert (forall b, ~ in_log start cap b -> dread (redo start (apply_writes (cv_writes v ++ take j (commit_writes start bl v)) d)) b =
      if decide (j <= length bl)%nat then dread (cv_disk v) b else committed bl v b) as Hj.
    { intros b Hb. rewrite apply_writes_app, <- Hd. by apply Hcp. }
    case_decide as Hjl.
    + exists c, C'. split; [done|]. intros b Hb. by rewrite Hj, Hold.
    + eexists _, C. split; [done|]. intros b Hb. by rewrite Hj, Hcomm.
Qed.

(** Facts of a state with a commit under way. *)
Lemma at_pid p q s g v : view p s g v -> (forall b r, cv_refs v !! b = Some r -> br_locked r = false) -> view q s g v.
Proof. intros [Hg Hrep] Hun. split; [done|]. by apply (bio_rep_pid p). Qed.

Lemma committing_unlocked g v bl : committing (H0 := bio_laws 1) start cap g v bl ->
  forall b r, cv_refs v !! b = Some r -> br_locked r = false.
Proof. intros (_ & _ & s0 & Hi). by eapply inv_unlocked. Qed.

Lemma commit_at_unlocked g v bl i : committing (H0 := bio_laws 1) start cap g v bl ->
  forall b r, cv_refs (commit_at start bl g v i).2 !! b = Some r -> br_locked r = false.
Proof.
  intros Hc b r Hb. apply (committing_unlocked _ _ _ Hc b).
  destruct i as [|[|[|[|[|i]]]]]; simpl in Hb; try done; rewrite lookup_dels in Hb; by case_decide.
Qed.

Lemma commit_inv_view d s pos C : commit_inv d s pos C -> exists g v,
  view 1 s g v /\ lg_committing g = true /\ lg_lock g = Free /\ lg_outstanding g = 0 /\ lh_n (lg_lh g) <= LOGSIZE /\
  (forall b r, cv_refs v !! b = Some r -> br_locked r = false).
Proof.
  intros (g & v & bl & C0 & Hc & Hsz & Hd & Hdur & Hpos). pose proof Hc as (Hcm & Ho & _).
  destruct (committing_facts _ _ cap_range _ _ _ Hc) as (Hli & Hlk & _). pose proof (li_n _ _ _ _ Hli) as Hn. pose proof (li_max _ _ _ _ Hli) as Hm.
  pose proof cap_range as Hcap. assert (lh_n (lg_lh g) <= LOGSIZE) as Hle by (unfold LOGSIZE, MAXOPBLOCKS in *; lia).
  pose proof (committing_unlocked _ _ _ Hc) as Hu. destruct pos as [|i]; [destruct Hpos as [Hv _]; by exists g, v|].
  case_decide; [destruct Hpos as (_ & Hv & _); by exists g, v|]. destruct Hpos as (_ & Hv & _). do 2 eexists. split; [exact Hv|].
  assert (0 <= LOGSIZE) by (unfold LOGSIZE, MAXOPBLOCKS; lia).
  destruct i as [|[|[|[|[|i]]]]]; simpl; split_and!; try done; intros b r Hb; try (by eapply Hu); rewrite lookup_dels in Hb; case_decide; (done || by eapply Hu).
Qed.

Lemma winv_none d s ops cm C : winv d (World s ops cm C) -> ops <> [] -> cm = None.
Proof. intros [Hi _ _] Hne. destruct cm as [[pid pos]|]; [|done]. by destruct Hi as [? _]. Qed.

Lemma winv_begin d pid s s' ops cm C :
  winv d (World s ops cm C) -> begin_op s = Ret tt s' -> winv d (World s' ((pid, 0%nat) :: ops) cm C).
Proof.
  intros [Hinv Hops Hdur] He. destruct cm as [[pid' pos]|].
  { destruct Hinv as [_ (g & v & Hv & Hc & Hlk & _)%commit_inv_view]. simpl in Hv. by rewrite (begin_op_committing _ _ _ Hv Hc Hlk) in He. }
  destruct Hinv as (g & v & bl & Hi & Ho & Hsz & Hb & Hd). simpl in *.
  pose proof (begin_op_spec _ _ _ _ _ _ Hi) as Hspec.
  destruct (_ >? LOGSIZE) eqn:E in Hspec.
  { destruct Hspec as (s0 & He' & _). by rewrite He in He'. }
  destruct Hspec as (s0 & He' & Hi'). rewrite He in He'. injection He' as <-.
  assert (writes (sys_cache s') = writes (sys_cache s)) as Hws.
  { rewrite <- (rep_writes _ _ _ (proj2 (inv_view _ _ _ _ _ _ Hi))).
    by rewrite <- (rep_writes _ _ _ (proj2 (inv_view _ _ _ _ _ _ Hi'))). }
  assert (budget ops <= MAXOPBLOCKS * Z.of_nat (length ops)) as Hbo.
  { clear. unfold budget. induction ops as [|o ops IH]; simpl; lia. }
  split; simpl.
  - do 3 eexists. split_and!; [exact Hi' | simpl; lia | done | | done].
    unfold MAXOPBLOCKS in *. lia.
  - constructor; [|done]. simpl. unfold MAXOPBLOCKS. lia.
  - by rewrite Hws.
Qed.

Lemma winv_wait d s s' ops cm C :
  winv d (World s ops cm C) -> begin_op s = Blocked "log" s' -> winv d (World s' ops cm C).
Proof.
  intros Hw He. pose proof Hw as [Hinv Hops Hdur]. destruct cm as [[pid' pos]|].
  { destruct Hinv as [_ (g & v & Hv & Hc & Hlk & _)%commit_inv_view]. simpl in Hv.
    rewrite (begin_op_committing _ _ _ Hv Hc Hlk) in He. by injection He as <-. }
  destruct Hinv as (g & v & bl & Hi & Ho & Hsz & Hb & Hd). simpl in *.
  pose proof (begin_op_spec _ _ _ _ _ _ Hi) as Hspec.
  destruct (_ >? LOGSIZE) eqn:E in Hspec; destruct Hspec as (s0 & He' & Hi'); rewrite He in He'; [|done]. injection He' as <-.
  split; simpl; [by exists g, v, bl | done |].
  rewrite <- (rep_writes _ _ _ (proj2 (inv_view _ _ _ _ _ _ Hi'))). by rewrite (rep_writes _ _ _ (proj2 (inv_view _ _ _ _ _ _ Hi))).
Qed.

Lemma length_add_block b bl : (length (add_block b bl) <= S (length bl))%nat.
Proof. unfold add_block. case_decide; [lia|]. rewrite length_app. simpl. lia. Qed.

(** What a write by an operation within its budget does. *)
Lemma write_cases d pid b x s ops cm C :
  winv d (World s ops cm C) -> ops <> [] -> 0 <= b < 2 ^ 32 -> ~ in_log start cap b ->
  if lh_n (lg_lh (sys_log s)) <? sb_nlog sb - 1
  then exists s' g v bl, write_block pid b x s = Ret tt s' /\ inv 1 s' g v bl /\
    lg_outstanding g = Z.of_nat (length ops) /\ lg_size g = sb_nlog sb /\
    Z.of_nat (length bl) <= lh_n (lg_lh (sys_log s)) + 1 /\
    cv_disk v = apply_writes (cv_writes v) d /\ writes (sys_cache s') = writes (sys_cache s) /\
    disk (sys_cache s') = disk (sys_cache s) /\
    (forall c, kview s' c = if decide (c = b) then x else kview s c)
  else write_block pid b x s = Panic "too big a transaction".
Proof.
  intros Hw Hne Hbr Hbl. pose proof (winv_none _ _ _ _ _ Hw Hne) as ->. destruct Hw as [(g & v & bl & Hi & Ho & Hsz & Hb & Hd) Hops Hdur]. simpl in *.
  apply (inv_pid 1 pid) in Hi. pose proof (inv_view _ _ _ _ _ _ Hi) as [Hg Hrep].
  pose proof (li_n _ _ _ _ (inv_log _ _ _ _ _ _ Hi)) as Hn. rewrite Hg, Hn.
  assert (1 <= Z.of_nat (length ops)) by (destruct ops; [done | simpl; lia]).
  destruct (_ <? _) eqn:E; bcase.
  - enough (wp (fs_write (H := bio_cache pid) b x) (fun _ s' => exists g' v' bl', inv 1 s' g' v' bl' /\
      lg_outstanding g' = Z.of_nat (length ops) /\ lg_size g' = sb_nlog sb /\
      Z.of_nat (length bl') <= Z.of_nat (length bl) + 1 /\
      cv_disk v' = apply_writes (cv_writes v') d /\ writes (sys_cache s') = writes (sys_cache s) /\
      disk (sys_cache s') = disk (sys_cache s) /\
      (forall c, kview s' c = if decide (c = b) then x else kview s c)) s) as Hw.
    { apply wp_elim in Hw as ([] & s' & He & g' & v' & bl' & Hrest). exists s', g', v', bl'. by split. }
    eapply (fs_write_spec (H0 := bio_laws pid)); [exact cap_range | exact Hi | lia | lia | done | done |].
    intros s' hd R v' Hi' Hc. pose proof (proj2 (inv_view _ _ _ _ _ _ Hi')) as Hrep'.
    exists (set_lh hd g), v', (add_block b bl). split_and!; simpl; try done.
    + by apply (inv_pid pid 1).
    + pose proof (length_add_block b bl). lia.
    + rewrite <- (rep_writes _ _ _ Hrep). by rewrite <- (rep_writes _ _ _ Hrep').
    + rewrite <- (rep_disk _ _ _ Hrep). by rewrite <- (rep_disk _ _ _ Hrep').
    + intros c. rewrite (kview_content pid s' v' c Hrep'), (kview_content pid s v c Hrep). apply Hc.
  - apply (fs_write_full (H0 := bio_laws pid) start cap cap_range s g v bl); [exact Hi | lia | done].
Qed.

Lemma winv_write d pid u b x s s' ops1 ops2 cm C :
  Z.of_nat u < MAXOPBLOCKS -> 0 <= b < 2 ^ 32 -> ~ in_log start cap b ->
  winv d (World s (ops1 ++ (pid, u) :: ops2) cm C) -> write_block pid b x s = Ret tt s' ->
  winv d (World s' (ops1 ++ (pid, S u) :: ops2) cm C).
Proof.
  intros Hu Hbr Hbl Hw He. pose proof (winv_none _ _ _ _ _ Hw ltac:(by destruct ops1)) as ->.
  pose proof (write_cases d pid b x s _ None C Hw ltac:(by destruct ops1) Hbr Hbl) as Hc.
  destruct Hw as [(g & v & bl & Hi & Ho & Hsz & Hb & Hd) Hops Hdur]; simpl in *.
  destruct (_ <? _) in Hc; [|by rewrite He in Hc].
  destruct Hc as (s0 & g' & v' & bl' & He' & Hi' & Ho' & Hsz' & Hlen & Hd' & Hws & _).
  rewrite He in He'. injection He' as <-.
  pose proof (inv_view _ _ _ _ _ _ Hi) as [Hg _].
  rewrite Hg, (li_n _ _ _ _ (inv_log _ _ _ _ _ _ Hi)) in Hlen.
  split; simpl.
  - exists g', v', bl'. split_and!; try done.
    + rewrite Ho', !length_app. done.
    + rewrite budget_app in *. simpl in *. lia.
  - apply Forall_app in Hops as [? Hops]. apply Forall_cons in Hops as [? ?].
    apply Forall_app. split; [done|]. constructor; [simpl; lia | done].
  - by rewrite Hws.
Qed.

Lemma winv_end d pid u s s' do_commit ops1 ops2 cm C :
  winv d (World s (ops1 ++ (pid, u) :: ops2) cm C) -> end_op_leave s = Ret do_commit s' ->
  winv d (World s' (ops1 ++ ops2) (if do_commit then Some (pid, CTest) else cm) C).
Proof.
  intros Hw He. pose proof (winv_none _ _ _ _ _ Hw ltac:(by destruct ops1)) as ->.
  destruct Hw as [(g & v & bl & Hi & Ho & Hsz & Hb & Hd) Hops Hdur]. simpl in *.
  pose proof (proj2 (inv_view _ _ _ _ _ _ Hi)) as Hrep.
  rewrite budget_app in Hb. simpl in Hb. rewrite length_app in Ho. simpl in Ho.
  apply Forall_app in Hops as [Hops1 Hops]. apply Forall_cons in Hops as [Hu Hops2]. simpl in Hu.
  assert (Forall (fun o : Z * nat => Z.of_nat o.2 <= MAXOPBLOCKS) (ops1 ++ ops2)) as Hops by (by apply Forall_app).
  destruct (decide (ops1 ++ ops2 = [])) as [Hnil|Hnil].
  - apply app_eq_nil in Hnil as [-> ->]. simpl in *.
    destruct (leave_last _ _ _ _ _ _ Hi ltac:(lia)) as (s0 & He' & Hv'). rewrite He in He'. injection He' as -> <-.
    pose proof (rep_writes _ _ _ (proj2 Hv')) as Hws'. pose proof (rep_writes _ _ _ Hrep) as Hws. rewrite <- Hws in Hdur.
    split; simpl; [|constructor | by rewrite <- Hws']. split; [done|]. eexists _, v, bl, C. split_and!; [by eapply leave_committing | done..].
  - assert (length ops1 + length ops2 <> 0)%nat.
    { rewrite <- length_app. by destruct (ops1 ++ ops2). }
    destruct (leave_more _ _ _ _ _ _ Hi ltac:(lia)) as (s0 & He' & Hi0). rewrite He in He'. injection He' as -> <-.
    split; simpl; [|done|].
    + do 3 eexists. split_and!; [exact Hi0 | | done | | done].
      * simpl. rewrite length_app. lia.
      * rewrite budget_app. unfold MAXOPBLOCKS in *. lia.
    + rewrite <- (rep_writes _ _ _ (proj2 (inv_view _ _ _ _ _ _ Hi0))).
      by rewrite (rep_writes _ _ _ Hrep).
Qed.

(** The commit under way at its next point. *)
Lemma winv_at d s pid i g v bl C0 C :
  committing (H0 := bio_laws 1) start cap g v bl -> lg_size g = sb_nlog sb -> cv_disk v = apply_writes (cv_writes v) d ->
  durable d (cv_writes v) C0 -> bl <> [] -> (i <= 5)%nat -> view 1 s (commit_at start bl g v i).1 (commit_at start bl g v i).2 ->
  (if decide (i <= 1)%nat then C = C0 else exists c, C = c :: C0 /\ forall b, ~ in_log start cap b -> c b = content v b) ->
  winv d (World s [] (Some (pid, CAt i)) C).
Proof.
  intros Hc Hsz Hd Hdur Hbl Hi Hv HC. destruct (committing_facts _ _ cap_range _ _ _ Hc) as (Hli & _ & _ & Hnd & _ & _ & _ & Honly & Hhl & Hhe).
  split; simpl; [split; [done|]; exists g, v, bl, C0; split_and!; try done; by rewrite decide_False | constructor |].
  destruct (commit_at_prefix start bl g v i) as (k & Hk1 & _ & Hk3). rewrite <- (rep_writes _ _ _ (proj2 Hv)), Hk1.
  pose proof (durable_prefix d v bl C0 k Hd (li_max _ _ _ _ Hli) (li_range _ _ _ _ Hli) Hnd Honly Hhl Hhe Hdur) as Hp.
  destruct (decide (i <= 1)%nat) as [H1|H1].
  - rewrite decide_True in Hp by tauto. by subst C.
  - rewrite decide_False in Hp by tauto. destruct HC as (c & -> & Hcb). eapply durable_ext; [|exact Hp]. intros b Hb. symmetry. by apply Hcb.
Qed.

Lemma winv_test d pid s ops C : winv d (World s ops (Some (pid, CTest)) C) ->
  winv d (if 0 <? lh_n (lg_lh (sys_log s)) then World s ops (Some (pid, CAt 0)) C
          else World s ops (Some (pid, CAt 5)) (kview s :: C)).
Proof.
  intros [[Hnil (g & v & bl & C0 & Hc & Hsz & Hd & Hdur & Hv & HC)] _ _]. simpl in *. subst ops C.
  destruct (committing_facts _ _ cap_range _ _ _ Hc) as (Hli & _ & _ & _ & _ & _ & _ & Honly & _ & Hhe).
  rewrite (proj1 Hv), (li_n _ _ _ _ Hli). destruct bl as [|b0 bl0]; simpl.
  - assert (forall b, kview s b = content v b) as Hkv by (intros b; apply (kview_content 1), Hv).
    assert (commit_inv d s (CAt 5) (kview s :: C0)) as Hci.
    { exists g, v, [], C0. split_and!; [exact Hc | done | done | done |]. rewrite decide_True by done. split_and!; [done | exact Hv | by exists (kview s)]. }
    split; simpl; [split; [done | exact Hci] | constructor |].
    rewrite <- (rep_writes _ _ _ (proj2 Hv)). eapply durable_ext; [|by apply durable_same; [done | intros b; apply Honly, not_elem_of_nil | done | exact Hdur]].
    intros b _. symmetry. apply Hkv.
  - by eapply (winv_at d s pid 0 g v (b0 :: bl0) C0 C0); [..|lia | exact Hv |].
Qed.

Lemma winv_commit d pid i m s s' ops C : body pid !! i = Some m -> m s = Ret tt s' ->
  winv d (World s ops (Some (pid, CAt i)) C) ->
  winv d (World s' ops (Some (pid, CAt (S i))) (if decide (i = 1%nat) then kview s :: C else C)).
Proof.
  intros Hm He [[Hnil (g & v & bl & C0 & Hc & Hsz & Hd & Hdur & Hpos)] _ _]. simpl in *. subst ops.
  pose proof (lookup_lt_Some _ _ _ Hm) as Hlt. simpl in Hlt. case_decide as Hbl; [destruct Hpos as [-> _]; lia|].
  destruct Hpos as (Hi & Hv & HC). destruct (committing_facts _ _ cap_range _ _ _ Hc) as (Hli & _ & _ & Hnd & Hnl & Hpin & Hrs & Honly & Hhl & _).
  assert (view 1 s' (commit_at start bl g v (S i)).1 (commit_at start bl g v (S i)).2) as Hv'.
  { apply (at_pid pid); [|by apply commit_at_unlocked]. apply (at_pid 1 pid) in Hv; [|by apply commit_at_unlocked].
    assert (wp m (fun _ s' => view pid s' (commit_at start bl g v (S i)).1 (commit_at start bl g v (S i)).2) s) as Hw.
    { by eapply (commit_stage (H0 := bio_laws pid) start cap start_range cap_range i m s g v bl). }
    apply wp_elim in Hw as ([] & s0 & He' & Hs0). rewrite He in He'. by injection He' as <-. }
  eapply (winv_at d s' pid (S i) g v bl C0); try done; try lia. destruct i as [|[|i]]; simpl in *; [done | | done].
  subst C. exists (kview s). split; [done|]. intros b Hb. rewrite (kview_content 1 s _ b (proj2 Hv)). unfold content. simpl.
  destruct (cv_refs v !! b); [done|]. apply dread_apply_ne. intros w Hw <-. by apply Hb, (log_copies_log start cap bl v cap_range (li_max _ _ _ _ Hli) (li_range _ _ _ _ Hli) Hhl).
Qed.

(** All the writes have been made. *)
Lemma commit_end_view s g v bl C0 C : committing (H0 := bio_laws 1) start cap g v bl ->
  (if decide (bl = []) then 5%nat = 5%nat /\ view 1 s g v /\ exists c, C = c :: C0 /\ forall b, c b = content v b
   else (5 <= 5)%nat /\ view 1 s (commit_at start bl g v 5).1 (commit_at start bl g v 5).2 /\
     if decide (5 <= 1)%nat then C = C0 else exists c, C = c :: C0 /\ forall b, ~ in_log start cap b -> c b = content v b) ->
  view 1 s (set_lh_n 0 g) (CView (apply_writes (end_writes start bl v) (cv_disk v)) (cv_writes v ++ end_writes start bl v) (dels (cv_refs v) bl)).
Proof.
  intros Hc Hpos. destruct (committing_facts _ _ cap_range _ _ _ Hc) as (Hli & _). unfold end_writes. case_decide as Hbl; [|by destruct Hpos as (_ & Hv & _)].
  destruct Hpos as (_ & Hv & _). subst bl. simpl. rewrite app_nil_r. pose proof (li_n _ _ _ _ Hli) as Hn. simpl in Hn.
  destruct g as [? ? ? ? ? ? [n ?]], v; unfold set_lh_n, set_lh; simpl in *. by rewrite Hn in Hv.
Qed.

Lemma winv_done d pid s s' ops C : end_op_done s = Ret tt s' ->
  winv d (World s ops (Some (pid, CAt 5)) C) -> winv d (World s' ops None C).
Proof.
  intros He [[Hnil (g & v & bl & C0 & Hc & Hsz & Hd & Hdur & Hpos)] _ Hdur']. simpl in *. subst ops.
  pose proof (commit_end_view _ _ _ _ _ _ Hc Hpos) as Hv.
  destruct (done_spec _ _ cap_range s g v bl Hc Hv) as (s0 & g' & E & Hi & Ho & Hs' & _). rewrite He in E. injection E as <-.
  split; simpl; [|constructor|].
  - do 3 eexists. split_and!; [exact Hi | done | congruence | simpl; unfold LOGSIZE, MAXOPBLOCKS; lia |]. simpl. by rewrite apply_writes_app, <- Hd.
  - rewrite <- (rep_writes _ _ _ (proj2 (inv_view _ _ _ _ _ _ Hi))). rewrite <- (rep_writes _ _ _ (proj2 Hv)) in Hdur'. exact Hdur'.
Qed.

Lemma winv_reachable d w w' : winv d w -> rtc txstep w w' -> winv d w'.
Proof.
  intros Hw Hsteps. induction Hsteps as [|w1 w2 w3 Hstep _ IH]; [done|]. apply IH.
  destruct Hstep; [by eapply winv_begin | by eapply winv_wait | by eapply winv_write | by eapply winv_end | by apply winv_test | by eapply winv_commit | by eapply winv_done].
Qed.

(** The calls in a reachable state. *)
Lemma log_room d s ops cm C : winv d (World s ops cm C) -> lh_n (lg_lh (sys_log s)) + budget ops <= LOGSIZE.
Proof.
  intros [Hinv _ _]. destruct cm as [[pid pos]|].
  - destruct Hinv as [Hnil (g & v & Hv & _ & _ & _ & Hle & _)%commit_inv_view]. simpl in *. subst ops. rewrite (proj1 Hv). simpl. lia.
  - destruct Hinv as (g & v & bl & Hi & _ & _ & Hb & _). simpl in *. pose proof (inv_view _ _ _ _ _ _ Hi) as [-> _].
    by rewrite (li_n _ _ _ _ (inv_log _ _ _ _ _ _ Hi)).
Qed.

Lemma begin_cases d s ops cm C : winv d (World s ops cm C) ->
  if decide (cm <> None \/ lh_n (lg_lh (sys_log s)) + (Z.of_nat (length ops) + 1) * MAXOPBLOCKS > LOGSIZE)
  then exists s', begin_op s = Blocked "log" s' else exists s', begin_op s = Ret tt s'.
Proof.
  intros [Hinv _ _]. destruct cm as [[pid pos]|].
  - rewrite decide_True by (by left). destruct Hinv as [_ (g & v & Hv & Hc & Hlk & _)%commit_inv_view]. exists s. by apply (begin_op_committing (H0 := bio_laws 1) s g v).
  - destruct Hinv as (g & v & bl & Hi & Ho & _). simpl in *. pose proof (begin_op_spec _ _ _ _ _ _ Hi) as Hspec.
    pose proof (inv_view _ _ _ _ _ _ Hi) as [-> _]. rewrite (li_n _ _ _ _ (inv_log _ _ _ _ _ _ Hi)), <- Ho.
    destruct (_ >? _) eqn:E in Hspec; destruct Hspec as (s' & He & _).
    + rewrite decide_True by (right; lia). eauto.
    + rewrite decide_False by (intros [?|?]; [done | lia]). eauto.
Qed.

Lemma commit_steps d s ops pid pos C : winv d (World s ops (Some (pid, pos)) C) -> ops = [] /\
  exists s' c' C', txstep (World s ops (Some (pid, pos)) C) (World s' [] c' C') /\
    match pos with
    | CTest => c' = Some (pid, CAt (if 0 <? lh_n (lg_lh (sys_log s)) then 0 else 5))
    | CAt i => c' = if decide (i = 5%nat) then None else Some (pid, CAt (S i))
    end.
Proof.
  intros [[Hnil (g & v & bl & C0 & Hc & Hsz & Hd & Hdur & Hpos)] _ _]. simpl in *. subst ops. split; [done|].
  destruct (committing_facts _ _ cap_range _ _ _ Hc) as (Hli & Hlk & _ & Hnd & Hnl & Hpin & Hrs & _). destruct pos as [|i].
  { pose proof (tx_test pid s [] C) as Hst. destruct (0 <? _); by do 3 eexists. }
  destruct (decide (i = 5%nat)) as [->|Hi5].
  - assert (view 1 s (set_lh_n 0 g) (CView (apply_writes (end_writes start bl v) (cv_disk v)) (cv_writes v ++ end_writes start bl v) (dels (cv_refs v) bl))) as Hv
      by (by eapply commit_end_view).
    destruct (done_spec _ _ cap_range s g v bl Hc Hv) as (s' & g' & E & _). exists s', None, C. split; [by apply tx_done | done].
  - case_decide; [destruct Hpos as [-> _]; done|]. destruct Hpos as (Hi & Hv & _).
    destruct (lookup_lt_is_Some_2 (body pid) i) as [m Hm]; [simpl; lia|]. apply (at_pid 1 pid) in Hv; [|by apply commit_at_unlocked].
    assert (wp m (fun _ _ => True) s) as Hw by (by eapply (commit_stage (H0 := bio_laws pid) start cap start_range cap_range i m s g v bl)).
    apply wp_elim in Hw as ([] & s' & E & _). do 3 eexists. split; [by eapply tx_commit | done].
Qed.

Lemma end_cases d s ops cm C pid : winv d (World s ops cm C) -> ops <> [] ->
  (exists s', end_op_leave s = Ret (bool_decide (length ops = 1%nat)) s') /\ exists s', finish pid s = Ret tt s'.
Proof.
  intros Hw Hne. pose proof (winv_none _ _ _ _ _ Hw Hne) as ->. destruct Hw as [(g & v & bl & Hi & Ho & _) _ _]. simpl in *.
  destruct (decide (length ops = 1%nat)) as [H1|H1].
  - rewrite bool_decide_eq_true_2 by done. destruct (leave_last _ _ _ _ _ _ Hi ltac:(lia)) as (s' & E & _). split; [by eexists|]. apply (inv_pid 1 pid) in Hi.
    assert (wp (end_op (H := bio_cache pid)) (fun _ _ => True) s) as Hwp by (eapply (end_op_last (H0 := bio_laws pid) _ _ start_range cap_range); (done || lia)).
    apply wp_elim in Hwp as ([] & s2 & He & _). exists s2. exact He.
  - rewrite bool_decide_eq_false_2 by done. assert (length ops <> 0%nat) by (by rewrite length_zero_iff_nil).
    destruct (leave_more _ _ _ _ _ _ Hi ltac:(lia)) as (s' & E & _). split; [by eexists|]. apply (inv_pid 1 pid) in Hi.
    destruct (end_op_more (H0 := bio_laws pid) _ _ s g v bl Hi ltac:(lia)) as (s2 & He & _). exists s2. exact He.
Qed.

(** Recovery, however often it is interrupted, establishes what the device means. *)
Lemma recovers_redo d d' :
  recovers d d' -> wf_log start cap d ->
  forall b, ~ in_log start cap b -> dread d' b = dread (redo start d) b.
Proof.
  induction 1 as [d s Hm|d s k d' Hm _ IH]; intros Hwf b Hb;
    destruct (winv_mount d Hwf) as (s' & Hm' & _ & Hws & Hdk); rewrite Hm in Hm'; injection Hm' as <-.
  - rewrite Hdk. by apply (recover_empty start cap cap_range d Hwf).
  - rewrite Hws in IH. destruct (recover_prefix start cap cap_range d k Hwf) as [Hwf' Hr].
    rewrite IH by done. by apply Hr.
Qed.
End Crashes.

(** ** Scripts of operations *)

(** Operations by their position among those in progress; [ACommit] is a step of the
    process that commits. *)
Inductive act := ABegin (pid : Z) | AWrite (i : nat) (b : Z) (x : block) | AEnd (i : nat) | ACommit.

Definition do_act (sb : superblock) (a : act) (w : world) : option world :=
  match a with
  | ABegin pid =>
    match begin_op (w_sys w) with
    | Ret _ s' => Some (World s' ((pid, 0%nat) :: w_ops w) (w_commit w) (w_hist w))
    | Blocked why s' => if decide (why = "log") then Some (World s' (w_ops w) (w_commit w) (w_hist w)) else None
    | _ => None
    end
  | AWrite i b x =>
    match w_ops w !! i with
    | Some (pid, u) =>
      if decide (Z.of_nat u < MAXOPBLOCKS /\ 0 <= b < 2 ^ 32 /\
                 ~ (sb_logstart sb <= b <= sb_logstart sb + (sb_nlog sb - 1))) then
        match write_block pid b x (w_sys w) with
        | Ret _ s' => Some (World s' (<[i := (pid, S u)]> (w_ops w)) (w_commit w) (w_hist w))
        | _ => None
        end
      else None
    | None => None
    end
  | AEnd i =>
    match w_ops w !! i with
    | Some (pid, u) =>
      match end_op_leave (w_sys w) with
      | Ret do_commit s' =>
        Some (World s' (delete i (w_ops w)) (if do_commit : bool then Some (pid, CTest) else w_commit w) (w_hist w))
      | _ => None
      end
    | None => None
    end
  | ACommit =>
    match w_commit w with
    | None => None
    | Some (pid, CTest) =>
      Some (if 0 <? lh_n (lg_lh (sys_log (w_sys w))) then World (w_sys w) (w_ops w) (Some (pid, CAt 0)) (w_hist w)
            else World (w_sys w) (w_ops w) (Some (pid, CAt 5)) (kview (w_sys w) :: w_hist w))
    | Some (pid, CAt i) =>
      match commit_body (H := bio_cache pid) !! i with
      | Some m =>
        match m (w_sys w) with
        | Ret _ s' => Some (World s' (w_ops w) (Some (pid, CAt (S i))) (if decide (i = 1%nat) then kview (w_sys w) :: w_hist w else w_hist w))
        | _ => None
        end
      | None =>
        if decide (i = 5%nat) then
          match end_op_done (w_sys w) with
          | Ret _ s' => Some (World s' (w_ops w) None (w_hist w))
          | _ => None
          end
        else None
      end
    end
  end.

Definition do_acts (sb : superblock) (l : list act) (w : world) : option world :=
  foldl (fun o a => w ← o; do_act sb a w) (Some w) l.

Lemma do_act_sound sb a w w' : do_act sb a w = Some w' -> txstep sb w w'.
Proof.
  destruct w as [s ops cm C]. destruct a as [pid|i b x|i|]; simpl.
  - destruct (begin_op s) as [[] s'| |why s'|] eqn:E; try done; [intros [= <-]; by constructor|].
    case_decide as Hwhy; [|done]. subst why. intros [= <-]. by constructor.
  - destruct (ops !! i) as [[pid u]|] eqn:Hi; [|done]. case_decide as Hd; [|done].
    destruct (write_block pid b x s) as [[] s'| | |] eqn:E; try done. intros [= <-].
    rewrite insert_take_drop by (by eapply lookup_lt_Some).
    rewrite <- (take_drop_middle _ _ _ Hi) at 1. destruct Hd as (? & ? & ?). by eapply tx_write.
  - destruct (ops !! i) as [[pid u]|] eqn:Hi; [|done].
    destruct (end_op_leave s) as [dc s'| | |] eqn:E; try done. intros [= <-].
    rewrite delete_take_drop.
    rewrite <- (take_drop_middle _ _ _ Hi) at 1. by apply tx_end.
  - destruct cm as [[pid [|i]]|]; [intros [= <-]; apply tx_test | | done].
    destruct (commit_body (H := bio_cache pid) !! i) as [m|] eqn:Hm.
    + destruct (m s) as [[] s'| | |] eqn:E; try done. intros [= <-]. by eapply tx_commit.
    + case_decide as Hi; [|done]. subst i. destruct (end_op_done s) as [[] s'| | |] eqn:E; try done. intros [= <-]. by apply tx_done.
Qed.

Lemma do_acts_sound sb l w w' : do_acts sb l w = Some w' -> rtc (txstep sb) w w'.
Proof.
  revert w'. unfold do_acts. induction l as [|a l IH] using rev_ind; intros w'; simpl.
  - intros [= <-]. constructor.
  - rewrite foldl_app. simpl. destruct (foldl _ _ l) as [w1|] eqn:E; [|done]. simpl. intros Ha.
    eapply rtc_r; [by apply IH | by eapply do_act_sound].
Qed.

(** The file system [mkfs] makes. *)
Definition mkfs_sb : superblock := SuperBlock 0x10203040 2000 1954 200 30 2 32 45.

(** Such a system after a script, from an empty device. *)
Definition demo0 : world :=
  match mount mkfs_sb ∅ with
  | Ret _ s => World s [] None [dread (redo 2 ∅)]
  | _ => World (Sys log_bss (booted ∅)) [] None []
  end.
Definition demo (l : list act) : world := default demo0 (do_acts mkfs_sb l demo0).

Definition is_done (l : list act) : bool :=
  match do_acts mkfs_sb l demo0 with Some _ => true | None => false end.

Lemma demo_mount : mount mkfs_sb ∅ = Ret tt (w_sys demo0).
Proof. vm_compute. reflexivity. Qed.

Lemma demo0_eq : demo0 = World (w_sys demo0) [] None [dread (redo 2 ∅)].
Proof. unfold demo0 at 1. rewrite demo_mount. reflexivity. Qed.

Lemma demo_reachable l : is_done l = true -> rtc (txstep mkfs_sb) demo0 (demo l).
Proof.
  unfold is_done, demo. intros Hd. apply (do_acts_sound _ l).
  destruct (do_acts mkfs_sb l demo0) as [w|]; [reflexivity | discriminate Hd].
Qed.

Definition block_of (n : Z) : block := replicate (Z.to_nat BSIZE) n.

(** Three operations that write 10, 10 and 9 distinct blocks. *)
Definition script_full : list act :=
  [ABegin 3; ABegin 4; ABegin 5] ++
  ((fun n => AWrite 0 (100 + Z.of_nat n) (block_of 1)) <$> seq 0 10) ++
  ((fun n => AWrite 1 (110 + Z.of_nat n) (block_of 2)) <$> seq 0 10) ++
  ((fun n => AWrite 2 (120 + Z.of_nat n) (block_of 3)) <$> seq 0 9).

Lemma script_full_ok : is_done script_full = true.
Proof. vm_compute. reflexivity. Qed.

#[local] Opaque demo0 demo mount.

(** ** Properties *)

(** Where [mkfs] and [fsinit] put the log: inside the range of an [int], with room
    for [LOGSIZE] blocks at most. *)
Definition good_sb (sb : superblock) : Prop :=
  (0 <= sb_logstart sb /\ sb_logstart sb + LOGSIZE < 2 ^ 31) /\ 0 < sb_nlog sb <= LOGSIZE.

Lemma mkfs_sb_good : good_sb mkfs_sb.
Proof. unfold good_sb, LOGSIZE, MAXOPBLOCKS; simpl; lia. Qed.

Lemma wf_log_empty : wf_log 2 29 ∅.
Proof. split_and!; [vm_compute; reflexivity | vm_compute; congruence..|]. intros b Hb. inversion Hb. Qed.

(** C1: crash consistency of the log.  Boot from a device with a well-formed log,
    run any interleaving of operations of any number of processes, each between
    [begin_op] and [end_op] and within its budget, and let the power fail after any
    number [k] of block writes.  Then the machine boots again, and whatever further
    failures happen while the log is recovered, the blocks outside the log end up
    with the contents the kernel showed when the last operation of some group
    ended: all the writes of the group are there or none, and if the failure came
    after all the writes so far, it is the latest such commit. *)
Theorem log_crash_consistent sb d s0 w k :
  good_sb sb -> wf_log (sb_logstart sb) (sb_nlog sb - 1) d -> mount sb d = Ret tt s0 ->
  rtc (txstep sb) (World s0 [] None [dread (redo (sb_logstart sb) d)]) w ->
  let ws := writes (sys_cache (w_sys w)) in
  let d' := apply_writes (take k ws) d in
  (exists s', mount sb d' = Ret tt s') /\
  forall d'', recovers sb d' d'' ->
    exists c, c ∈ w_hist w /\ (forall b, ~ in_log (sb_logstart sb) (sb_nlog sb - 1) b -> dread d'' b = c b) /\
      ((length ws <= k)%nat -> List.hd_error (w_hist w) = Some c).
Proof.
  intros [Hst Hsz] Hwf Hm Hrun ws d'.
  destruct (winv_mount sb Hst Hsz d Hwf) as (s0' & Hm' & Hi0 & _).
  rewrite Hm in Hm'. injection Hm' as <-.
  destruct (winv_reachable sb Hst Hsz _ _ _ Hi0 Hrun) as [_ _ [Hall (c & C & HC & Hlast)]].
  destruct (Hall k) as [Hwf' (c' & Hin & Hc')]. fold ws d' in Hwf', Hc'.
  split. { destruct (winv_mount sb Hst Hsz d' Hwf') as (s' & ? & _). eauto. }
  intros d'' Hrec. pose proof (recovers_redo sb Hst Hsz _ _ Hrec Hwf') as Hd.
  destruct (decide (length ws <= k)%nat) as [Hk|Hk].
  - exists c. rewrite HC. split_and!; [left | | done]. intros b Hb. rewrite Hd by done.
    unfold d'. rewrite take_ge by done. by apply Hlast.
  - exists c'. split_and!; [done | | lia]. intros b Hb. rewrite Hd by done. by apply Hc'.
Qed.

(** One operation that writes block 100; the power fails after the header write. *)
Definition script_one : list act := [ABegin 3; AWrite 0 100 (block_of 7); AEnd 0] ++ replicate 7 ACommit.

Lemma script_one_ok : is_done script_one = true.
Proof. vm_compute. reflexivity. Qed.

Lemma log_crash_consistent_witness :
  let d' := apply_writes (take 3 (writes (sys_cache (w_sys (demo script_one))))) ∅ in
  exists d'', recovers mkfs_sb d' d'' /\
    exists c, c ∈ w_hist (demo script_one) /\ forall b, ~ in_log 2 29 b -> dread d'' b = c b.
Proof.
  destruct (log_crash_consistent mkfs_sb ∅ (w_sys demo0) (demo script_one) 3
              mkfs_sb_good wf_log_empty demo_mount) as [[s' Hm] Hall].
  - change (sb_logstart mkfs_sb) with 2. rewrite <- demo0_eq. apply demo_reachable, script_one_ok.
  - exists (disk (sys_cache s')). split; [by apply rec_done|].
    destruct (Hall _ (rec_done mkfs_sb _ _ Hm)) as (c & Hin & Hc & _).
    exists c. split; [exact Hin | exact Hc].
Defined.

(** C2: recovery is total and idempotent.  Booting from any device with a
    well-formed log succeeds, leaves an empty log and the committed transaction in
    its home locations; a failure after any number of its writes leaves a device
    with a well-formed log from which recovery, interrupted any number of times,
    reaches the same contents. *)
Theorem recovery_idempotent sb d :
  good_sb sb -> wf_log (sb_logstart sb) (sb_nlog sb - 1) d ->
  exists s, mount sb d = Ret tt s /\
    hb_n (dread (disk (sys_cache s)) (sb_logstart sb)) = 0 /\
    (forall b, ~ in_log (sb_logstart sb) (sb_nlog sb - 1) b ->
       dread (disk (sys_cache s)) b = dread (redo (sb_logstart sb) d) b) /\
    forall k, let d' := apply_writes (take k (writes (sys_cache s))) d in
      wf_log (sb_logstart sb) (sb_nlog sb - 1) d' /\
      forall d'', recovers sb d' d'' ->
        forall b, ~ in_log (sb_logstart sb) (sb_nlog sb - 1) b -> dread d'' b = dread (disk (sys_cache s)) b.
Proof.
  intros [Hst Hsz] Hwf. destruct (winv_mount sb Hst Hsz d Hwf) as (s & Hm & _ & Hws & Hdk).
  destruct (recover_empty _ _ (cap_range sb Hsz) d Hwf) as (_ & Hn & Hr).
  exists s. rewrite Hdk, Hws. split_and!; [done | done | done |].
  intros k d'. destruct (recover_prefix _ _ (cap_range sb Hsz) d k Hwf) as [Hwf' Hr']. fold d' in Hwf', Hr'.
  split; [done|]. intros d'' Hrec b Hb.
  by rewrite (recovers_redo sb Hst Hsz _ _ Hrec Hwf' b Hb), Hr', Hr.
Qed.

(** A device that crashed with a committed transaction in the log. *)
Definition crashed : blocks :=
  apply_writes (take 3 (writes (sys_cache (w_sys (demo script_one))))) ∅.

Lemma crashed_wf : wf_log 2 29 crashed.
Proof.
  split_and!; [vm_compute; reflexivity | vm_compute; congruence..|].
  assert (targets 2 crashed = [100]) as -> by (vm_compute; reflexivity).
  intros b Hb. apply list_elem_of_singleton in Hb as ->. unfold in_log, LOGSIZE, MAXOPBLOCKS. lia.
Qed.

Lemma recovery_idempotent_witness :
  exists s, mount mkfs_sb crashed = Ret tt s /\ dread (disk (sys_cache s)) 100 = block_of 7.
Proof.
  destruct (recovery_idempotent mkfs_sb crashed mkfs_sb_good crashed_wf) as (s & Hm & _ & Hd & _).
  exists s. split; [done|]. rewrite Hd.
  - vm_compute. reflexivity.
  - unfold in_log, LOGSIZE, MAXOPBLOCKS. simpl. lia.
Defined.

(** C3: what an operation's calls do, also while a commit is under way.  In every
    reachable state the blocks in the log plus what the operations in progress may still
    write fit in [LOGSIZE].  [begin_op] never panics: it waits exactly when a process is
    between setting and clearing [log.committing] or admitting one more operation could
    exceed that space.  During a commit no operation is in progress, and the committing
    process can always take its next step.  A block write by an operation returns while
    the log holds fewer than [log.size - 1] blocks, sends nothing to the device, and the
    kernel then sees the new contents in that block and the old ones elsewhere; otherwise
    it panics.  An operation in progress can leave, and [end_op] run to its end returns. *)
Theorem log_operations sb d s0 w :
  good_sb sb -> wf_log (sb_logstart sb) (sb_nlog sb - 1) d -> mount sb d = Ret tt s0 ->
  rtc (txstep sb) (World s0 [] None [dread (redo (sb_logstart sb) d)]) w ->
  let s := w_sys w in let n := lh_n (lg_lh (sys_log s)) in
  n + budget (w_ops w) <= LOGSIZE /\
  (if decide (w_commit w <> None \/ n + (Z.of_nat (length (w_ops w)) + 1) * MAXOPBLOCKS > LOGSIZE)
   then exists s', begin_op s = Blocked "log" s' else exists s', begin_op s = Ret tt s') /\
  (forall pid c, w_commit w = Some (pid, c) -> w_ops w = [] /\
   exists s' c' C', txstep sb w (World s' [] c' C') /\
     match c with
     | CTest => c' = Some (pid, CAt (if 0 <? n then 0 else 5))
     | CAt i => c' = if decide (i = 5%nat) then None else Some (pid, CAt (S i))
     end) /\
  (w_ops w <> [] -> forall pid b x, 0 <= b < 2 ^ 32 -> ~ in_log (sb_logstart sb) (sb_nlog sb - 1) b ->
   if n <? sb_nlog sb - 1
   then exists s', write_block pid b x s = Ret tt s' /\
     disk (sys_cache s') = disk (sys_cache s) /\
     forall c, kview s' c = if decide (c = b) then x else kview s c
   else write_block pid b x s = Panic "too big a transaction") /\
  (w_ops w <> [] -> forall pid, (exists s', end_op_leave s = Ret (bool_decide (length (w_ops w) = 1%nat)) s') /\ exists s', finish pid s = Ret tt s').
Proof.
  intros [Hst Hsz] Hwf Hm Hrun s n.
  destruct (winv_mount sb Hst Hsz d Hwf) as (s0' & Hm' & Hi0 & _).
  rewrite Hm in Hm'. injection Hm' as <-.
  pose proof (winv_reachable sb Hst Hsz _ _ _ Hi0 Hrun) as Hw.
  destruct w as [s1 ops cm C]. simpl in s, n. subst s. simpl.
  split_and!.
  - by eapply log_room.
  - by eapply begin_cases.
  - intros pid c ->. by eapply commit_steps.
  - intros Hne pid b x Hbr Hbl. pose proof (write_cases sb Hsz d pid b x s1 ops cm C Hw Hne Hbr Hbl) as Hc.
    fold n in Hc. destruct (_ <? _); [|done].
    destruct Hc as (s' & g' & v' & bl' & He & _ & _ & _ & _ & _ & _ & Hdk & Hk). exists s'. by split_and!.
  - intros Hne pid. by eapply end_cases.
Qed.

(** While the first operation commits, a second one begins and waits. *)
Definition script_commit : list act := [ABegin 3; AWrite 0 100 (block_of 7); AEnd 0; ACommit; ACommit; ABegin 4].

Lemma script_commit_ok : is_done script_commit = true /\ w_commit (demo script_commit) <> None.
Proof. vm_compute. split; congruence. Qed.

Lemma script_begin_ok : is_done [ABegin 3] = true.
Proof. vm_compute. reflexivity. Qed.

Lemma log_operations_witness :
  (exists s', begin_op (w_sys (demo script_commit)) = Blocked "log" s') /\
  exists s', write_block 3 100 (block_of 9) (w_sys (demo [ABegin 3])) = Ret tt s' /\ kview s' 100 = block_of 9.
Proof.
  assert (forall l, is_done l = true -> rtc (txstep mkfs_sb) (World (w_sys demo0) [] None [dread (redo (sb_logstart mkfs_sb) ∅)]) (demo l)) as Hr.
  { intros l Hl. change (sb_logstart mkfs_sb) with 2. rewrite <- demo0_eq. by apply demo_reachable. }
  split.
  - destruct (log_operations mkfs_sb ∅ (w_sys demo0) (demo script_commit) mkfs_sb_good wf_log_empty demo_mount
      (Hr _ (proj1 script_commit_ok))) as (_ & Hb & _).
    rewrite decide_True in Hb; [exact Hb|]. left. apply script_commit_ok.
  - destruct (log_operations mkfs_sb ∅ (w_sys demo0) (demo [ABegin 3]) mkfs_sb_good wf_log_empty demo_mount
      (Hr _ script_begin_ok)) as (_ & _ & _ & Hw & _).
    assert (w_ops (demo [ABegin 3]) <> []) as Hne by (vm_compute; congruence).
    assert ((lh_n (lg_lh (sys_log (w_sys (demo [ABegin 3])))) <? sb_nlog mkfs_sb - 1) = true) as Hlt
      by (vm_compute; reflexivity).
    assert (~ in_log (sb_logstart mkfs_sb) (sb_nlog mkfs_sb - 1) 100) as Hb
      by (unfold in_log, LOGSIZE, MAXOPBLOCKS; simpl; lia).
    specialize (Hw Hne 3 100 (block_of 9) ltac:(lia) Hb). rewrite Hlt in Hw.
    destruct Hw as (s' & He & _ & Hk). exists s'. split; [exact He|].
    rewrite Hk. apply decide_True. reflexivity.
Defined.

(** C40: on the file system [mkfs] makes ([nlog = LOGSIZE]), operations that respect
    their budget can exhaust the log: three operations in progress write 29
    distinct blocks, none more than ten, and the next write of the operation that
    has written nine panics. *)
Theorem log_budget_panic :
  sb_nlog mkfs_sb = LOGSIZE /\
  exists s0 w ops pid u b x,
    mount mkfs_sb ∅ = Ret tt s0 /\
    rtc (txstep mkfs_sb) (World s0 [] None [dread (redo (sb_logstart mkfs_sb) ∅)]) w /\
    w_ops w = ops ++ [(pid, u)] /\ Z.of_nat u < MAXOPBLOCKS /\ ~ in_log (sb_logstart mkfs_sb) (sb_nlog mkfs_sb - 1) b /\
    write_block pid b x (w_sys w) = Panic "too big a transaction".
Proof.
  split; [reflexivity|].
  exists (w_sys demo0), (demo script_full), [(5, 10%nat); (4, 10%nat)], 3, 9%nat, 129, (block_of 3).
  split_and!.
  - apply demo_mount.
  - change (sb_logstart mkfs_sb) with 2. rewrite <- demo0_eq. apply demo_reachable, script_full_ok.
  - vm_compute. reflexivity.
  - unfold MAXOPBLOCKS. lia.
  - unfold in_log, LOGSIZE, MAXOPBLOCKS. simpl. lia.
  - vm_compute. reflexivity.
Qed.
