(* ===== verification/Spinlock.v ===== *)
(** * Spinlock: the spin locks of [kernel/spinlock.c] on several CPUs

    Each CPU runs [acquire] and [release] one memory access at a time, in any
    interleaving with the others; between calls it runs code of its own.  A lock is
    its [locked] word and its [cpu] field, a CPU its [noff] and [intena] fields and
    whether interrupts are enabled ([SSTATUS.SIE]).  Memory is sequentially
    consistent: the fences of the source order the accesses of the critical section
    and are not events of the model.

    The theorems say that at most one CPU is between the swaps of [acquire] and
    [release] of a lock, that the only panics are those of a double [acquire] and of
    a [release] by a CPU that does not hold the lock, that a CPU that holds a lock
    has interrupts off, and that the lock behaves as the free-or-held lock of
    [Prelude], on which the other components rely. *)

From S2P Require Import Prelude.

(** ** State *)

Record spinlock := SpinLock { locked : Z; lk_cpu : option nat }.

(** Where a CPU is: the next access of [acquire] or [release], its own code, or
    stopped in [panic]. *)
Inductive acq_pc :=
| A_push       (* push_off(); *)
| A_locked     (* holding: lk->locked *)
| A_cpu        (* holding: lk->cpu == mycpu() *)
| A_swap       (* while(__sync_lock_test_and_set(&lk->locked, 1) != 0) *)
| A_own.       (* lk->cpu = mycpu(); *)

Inductive rel_pc :=
| R_locked | R_cpu   (* holding *)
| R_clear            (* lk->cpu = 0; *)
| R_swap             (* __sync_lock_release(&lk->locked); *)
| R_pop.             (* pop_off(); *)

Inductive pc := Run | Acq (l : nat) (a : acq_pc) | Rel (l : nat) (r : rel_pc) | Stopped (msg : string).

Record intr := Intr { noff : Z; intena : bool; ie : bool }.
Record cpu := Cpu { c_intr : intr; c_pc : pc }.

Record machine := Machine { cpus : list cpu; locks : list spinlock }.

Definition initlock : spinlock := SpinLock 0 None.

(** ** Operations *)

Definition push_off : M intr unit :=
  old ← gets ie;
  modify (fun c => Intr (noff c) (intena c) false);;
  n ← gets noff;
  when (n =? 0) (modify (fun c => Intr (noff c) old (ie c)));;
  modify (fun c => Intr (noff c + 1) (intena c) (ie c)).

Definition pop_off : M intr unit :=
  on ← gets ie;
  if (on : bool) then panic "pop_off - interruptible" else
  n ← gets noff;
  if n <? 1 then panic "pop_off" else
  modify (fun c => Intr (noff c - 1) (intena c) (ie c));;
  c ← gets id;
  when ((noff c =? 0) && intena c) (modify (fun c => Intr (noff c) (intena c) true)).

(** [holding] is two reads; the second happens only if the first is not 0. *)
Definition holding (c : nat) (lk : spinlock) : bool :=
  negb (locked lk =? 0) && bool_decide (lk_cpu lk = Some c).

(** One access of [acquire(lk)] on CPU [c]: what the CPU and the lock become. *)
Definition acquire_step (c l : nat) (a : acq_pc) (i : intr) (lk : spinlock) : cpu * spinlock :=
  match a with
  | A_push =>
    match push_off i with
    | Ret _ i' => (Cpu i' (Acq l A_locked), lk)
    | Panic msg => (Cpu i (Stopped msg), lk)
    | _ => (Cpu i (Acq l A_push), lk)
    end
  | A_locked => (Cpu i (Acq l (if locked lk =? 0 then A_swap else A_cpu)), lk)
  | A_cpu => (Cpu i (if decide (lk_cpu lk = Some c) then Stopped "acquire" else Acq l A_swap), lk)
  | A_swap =>
    if locked lk =? 0 then (Cpu i (Acq l A_own), SpinLock 1 (lk_cpu lk))
    else (Cpu i (Acq l A_swap), SpinLock 1 (lk_cpu lk))
  | A_own => (Cpu i Run, SpinLock (locked lk) (Some c))
  end.

Definition release_step (c l : nat) (r : rel_pc) (i : intr) (lk : spinlock) : cpu * spinlock :=
  match r with
  | R_locked => (Cpu i (if locked lk =? 0 then Stopped "release" else Rel l R_cpu), lk)
  | R_cpu => (Cpu i (if decide (lk_cpu lk = Some c) then Rel l R_clear else Stopped "release"), lk)
  | R_clear => (Cpu i (Rel l R_swap), SpinLock (locked lk) None)
  | R_swap => (Cpu i (Rel l R_pop), SpinLock 0 (lk_cpu lk))
  | R_pop =>
    match pop_off i with
    | Ret _ i' => (Cpu i' Run, lk)
    | Panic msg => (Cpu i (Stopped msg), lk)
    | _ => (Cpu i (Rel l R_pop), lk)
    end
  end.

(** The machine: any CPU makes its next access, or, in its own code, calls
    [acquire] or [release] of any lock, or turns interrupts on or off when it has
    not disabled them through [push_off]. *)
Inductive mstep : machine -> machine -> Prop :=
| m_acquire c l a i lk ks cs x :
    cs !! c = Some (Cpu i (Acq l a)) -> ks !! l = Some lk -> acquire_step c l a i lk = x ->
    mstep (Machine cs ks) (Machine (<[c := x.1]> cs) (<[l := x.2]> ks))
| m_release c l r i lk ks cs x :
    cs !! c = Some (Cpu i (Rel l r)) -> ks !! l = Some lk -> release_step c l r i lk = x ->
    mstep (Machine cs ks) (Machine (<[c := x.1]> cs) (<[l := x.2]> ks))
| m_call c l i ks cs p :
    cs !! c = Some (Cpu i Run) -> is_Some (ks !! l) -> p = Acq l A_push \/ p = Rel l R_locked ->
    mstep (Machine cs ks) (Machine (<[c := Cpu i p]> cs) ks)
| m_intr c i ks cs b :
    cs !! c = Some (Cpu i Run) -> noff i = 0 ->
    mstep (Machine cs ks) (Machine (<[c := Cpu (Intr 0 (intena i) b) Run]> cs) ks).

Definition minit (ncpu nlock : nat) : machine :=
  Machine (replicate ncpu (Cpu (Intr 0 false false) Run)) (replicate nlock initlock).

(** ** Nesting of [push_off] and [pop_off] *)

Lemma push_off_eq n i e :
  push_off (Intr n i e) = Ret tt (Intr (n + 1) (if n =? 0 then e else i) false).
Proof. unfold push_off, mbind, M_bind, gets, modify, when. simpl. by destruct (n =? 0). Qed.

Lemma pop_off_eq n i :
  1 <= n -> pop_off (Intr n i false) = Ret tt (Intr (n - 1) i ((n =? 1) && i)).
Proof.
  intros Hn. unfold pop_off, mbind, M_bind, gets, modify, when, id. simpl.
  replace (n <? 1) with false by lia. simpl.
  replace (n - 1 =? 0) with (n =? 1) by lia.
  by destruct (n =? 1), i.
Qed.

(** Well-nested sequences of [push_off] and [pop_off]. *)
Inductive nested : M intr unit -> Prop :=
| n_nil : nested (mret tt)
| n_pair m : nested m -> nested (push_off;; m;; pop_off)
| n_seq m1 m2 : nested m1 -> nested m2 -> nested (m1;; m2).

Lemma nested_keeps m c :
  nested m -> 0 <= noff c -> (0 < noff c -> ie c = false) ->
  exists c', m c = Ret tt c' /\ noff c' = noff c /\ ie c' = ie c /\
    (0 < noff c -> intena c' = intena c).
Proof.
  intros Hn. revert c. induction Hn as [|m _ IH|m1 m2 _ IH1 _ IH2]; intros [n i e] Hn0 Hoff; simpl in *.
  - eexists. split; [reflexivity|]. done.
  - erewrite bind_ret by apply push_off_eq.
    destruct (IH (Intr (n + 1) (if n =? 0 then e else i) false)) as ([n' i' e'] & He & H1 & H2 & H3);
      simpl in *; [lia | done |]. subst.
    erewrite bind_ret by exact He. rewrite H3 by lia. rewrite pop_off_eq by lia.
    eexists. split; [reflexivity|]. simpl. replace (n + 1 =? 1) with (n =? 0) by lia.
    destruct (n =? 0) eqn:E; bcase; split_and!; try lia; try done.
    by rewrite Hoff by lia.
  - destruct (IH1 (Intr n i e)) as (c1 & He & H1 & H2 & H3); [done | done|].
    erewrite bind_ret by exact He. simpl in *.
    destruct (IH2 c1) as (c2 & He2 & H4 & H5 & H6); [lia | rewrite H1, H2; done|].
    exists c2. split_and!; [done | lia | congruence |]. intros Hp. rewrite H6, H3; [done | done | lia].
Qed.

(** ** The invariant of the machine *)

(** The CPU has taken the lock and not yet said so, or has said it gives it back
    and not yet done so. *)
Definition mid (p : pc) (l : nat) : Prop := p = Acq l A_own \/ p = Rel l R_swap.

(** A CPU owns the lock from the swap of [acquire] to the swap of [release]. *)
Definition owns (m : machine) (c l : nat) : Prop :=
  (exists lk, locks m !! l = Some lk /\ lk_cpu lk = Some c) \/
  (exists i p, cpus m !! c = Some (Cpu i p) /\ mid p l).

(** [push_off] calls of the CPU not yet undone by [pop_off]. *)
Definition need (p : pc) : Z :=
  match p with
  | Acq _ A_push => 0
  | Acq _ _ => 1
  | Rel _ (R_swap | R_pop) => 1
  | _ => 0
  end.
Definition hold_of (c : nat) (lk : spinlock) : Z := if decide (lk_cpu lk = Some c) then 1 else 0.
Definition held (c : nat) (ks : list spinlock) : Z := foldr (fun lk t => hold_of c lk + t) 0 ks.

Definition running (p : pc) : Prop := match p with Stopped _ => False | _ => True end.
Definition lock_of (p : pc) : option nat := match p with Acq l _ | Rel l _ => Some l | _ => None end.

Definition lock_ok (lk : spinlock) : Prop :=
  (locked lk = 0 /\ lk_cpu lk = None) \/ locked lk = 1.

Record minv (m : machine) : Prop := {
  mi_lock : forall l lk, locks m !! l = Some lk -> lock_ok lk;
  mi_valid : forall c i p l, cpus m !! c = Some (Cpu i p) -> lock_of p = Some l -> is_Some (locks m !! l);
  mi_mid : forall c i p l, cpus m !! c = Some (Cpu i p) -> mid p l -> locks m !! l = Some (SpinLock 1 None);
  mi_clear : forall c i l, cpus m !! c = Some (Cpu i (Rel l R_clear)) ->
    exists lk, locks m !! l = Some lk /\ lk_cpu lk = Some c;
  mi_excl : forall c c' i i' p p' l, cpus m !! c = Some (Cpu i p) -> cpus m !! c' = Some (Cpu i' p') ->
    mid p l -> mid p' l -> c = c';
  mi_noff : forall c i p, cpus m !! c = Some (Cpu i p) -> running p ->
    noff i = held c (locks m) + need p /\ (0 < noff i -> ie i = false);
  mi_stop : forall c i msg, cpus m !! c = Some (Cpu i (Stopped msg)) -> msg = "acquire" \/ msg = "release"
}.

Lemma held_insert c ks l lk lk' :
  ks !! l = Some lk -> held c (<[l := lk']> ks) = held c ks - hold_of c lk + hold_of c lk'.
Proof.
  revert l. induction ks as [|k ks IH]; intros [|l] Hl; simpl in *; simplify_eq; [lia|].
  rewrite IH by done. lia.
Qed.

Lemma held_nonneg c ks : 0 <= held c ks.
Proof. induction ks as [|k ks IH]; simpl; [lia|]. unfold hold_of. case_decide; lia. Qed.

(** A step of CPU [c] on lock [l]: if it changes the lock, then no other CPU has a
    claim on it. *)
Lemma minv_update cs ks c l i p lk i' p' lk' :
  minv (Machine cs ks) -> cs !! c = Some (Cpu i p) -> ks !! l = Some lk ->
  lock_ok lk' ->
  (lk' = lk \/
   (forall c' i0 p0, cs !! c' = Some (Cpu i0 p0) -> mid p0 l -> c' = c) /\
   (lk_cpu lk = None \/ lk_cpu lk = Some c) /\ (lk_cpu lk' = None \/ lk_cpu lk' = Some c)) ->
  (forall l', lock_of p' = Some l' -> l' = l) ->
  (forall l', mid p' l' -> lk' = SpinLock 1 None /\
     forall c' i0 p0, cs !! c' = Some (Cpu i0 p0) -> mid p0 l' -> c' = c) ->
  (p' = Rel l R_clear -> lk_cpu lk' = Some c) ->
  (running p' -> noff i' = held c ks - hold_of c lk + hold_of c lk' + need p' /\
     (0 < noff i' -> ie i' = false)) ->
  (forall msg, p' = Stopped msg -> msg = "acquire" \/ msg = "release") ->
  minv (Machine (<[c := Cpu i' p']> cs) (<[l := lk']> ks)).
Proof.
  intros Hi Hc Hl Hok Hown Hof Hmid Hclr Hnoff Hmsg.
  assert (l < length ks)%nat as Hll by (by eapply lookup_lt_Some).
  assert (forall q, mid p' q -> q = l) as Hml.
  { intros q [->| ->]; by apply Hof. }
  split; simpl.
  - intros q k [(-> & <- & _)|[? Hq]]%list_lookup_insert_Some; [done | by eapply (mi_lock _ Hi)].
  - intros c' i0 p0 q [(-> & [= <- <-] & _)|[? Hq]]%list_lookup_insert_Some Hlo.
    + rewrite (Hof q Hlo). rewrite list_lookup_insert_eq by done. eauto.
    + destruct (mi_valid _ Hi _ _ _ _ Hq Hlo) as [k Hk]. simpl in Hk.
      destruct (decide (l = q)) as [->|]; [rewrite list_lookup_insert_eq by done; eauto|].
      rewrite list_lookup_insert_ne by done. eauto.
  - intros c' i0 p0 q [(-> & [= <- <-] & _)|[? Hq]]%list_lookup_insert_Some Hm.
    + rewrite (Hml q Hm). rewrite list_lookup_insert_eq by done. f_equal. by apply (Hmid q).
    + pose proof (mi_mid _ Hi _ _ _ _ Hq Hm) as Hk. simpl in Hk.
      destruct (decide (l = q)) as [<-|]; [|by rewrite list_lookup_insert_ne].
      rewrite list_lookup_insert_eq by done. destruct Hown as [->|(Ha & _)]; [congruence|].
      exfalso. by rewrite (Ha _ _ _ Hq Hm) in *.
  - intros c' i0 q [(-> & [= <- ->] & _)|[? Hq]]%list_lookup_insert_Some.
    + specialize (Hof q eq_refl). subst q. exists lk'. rewrite list_lookup_insert_eq by done.
      split; [done|]. by apply Hclr.
    + destruct (mi_clear _ Hi _ _ _ Hq) as (k & Hk & Hkc). simpl in Hk.
      destruct (decide (l = q)) as [<-|]; [|exists k; by rewrite list_lookup_insert_ne].
      exists lk'. rewrite list_lookup_insert_eq by done. split; [done|].
      destruct Hown as [->|(_ & [Hn|Hn] & _)]; congruence.
  - intros c1 c2 i1 i2 p1 p2 q [(<- & [= <- <-] & _)|[? H1]]%list_lookup_insert_Some
      [(<- & [= <- <-] & _)|[? H2]]%list_lookup_insert_Some Hm1 Hm2.
    + done.
    + symmetry. by eapply (proj2 (Hmid q Hm1)).
    + by eapply (proj2 (Hmid q Hm2)).
    + by eapply (mi_excl _ Hi c1 c2).
  - intros c' i0 p0 [(-> & [= <- <-] & _)|[? Hq]]%list_lookup_insert_Some Hrun.
    + rewrite (held_insert _ _ _ lk) by done. by apply Hnoff.
    + rewrite (held_insert _ _ _ lk) by done.
      assert (hold_of c' lk' = hold_of c' lk) as ->.
      { destruct Hown as [->|(_ & Hn & Hn')]; [done|]. unfold hold_of.
        rewrite !decide_False; [done | destruct Hn; congruence | destruct Hn'; congruence]. }
      destruct (mi_noff _ Hi _ _ _ Hq Hrun). simpl in *. split; [lia | done].
  - intros c' i0 msg [(-> & [= <- ->] & _)|[? Hq]]%list_lookup_insert_Some; [by apply Hmsg|].
    by eapply (mi_stop _ Hi).
Qed.

(** A CPU that is alone with a lock: it owns it, or the lock is free. *)
Lemma alone cs ks c l lk :
  minv (Machine cs ks) -> ks !! l = Some lk -> lk <> SpinLock 1 None ->
  forall c' i0 p0, cs !! c' = Some (Cpu i0 p0) -> mid p0 l -> c' = c.
Proof.
  intros Hi Hl Hne c' i0 p0 Hc Hm. pose proof (mi_mid _ Hi _ _ _ _ Hc Hm) as Hk. simpl in Hk. congruence.
Qed.

(** A step that does not change the lock and does not enter or leave it. *)
Lemma minv_local cs ks c l i p lk i' p' :
  minv (Machine cs ks) -> cs !! c = Some (Cpu i p) -> ks !! l = Some lk ->
  (forall l', lock_of p' = Some l' -> l' = l) -> (forall l', ~ mid p' l') ->
  (p' = Rel l R_clear -> lk_cpu lk = Some c) ->
  (running p' -> noff i' = held c ks + need p' /\ (0 < noff i' -> ie i' = false)) ->
  (forall msg, p' = Stopped msg -> msg = "acquire" \/ msg = "release") ->
  minv (Machine (<[c := Cpu i' p']> cs) (<[l := lk]> ks)).
Proof.
  intros Hi Hc Hl Hof Hmid Hclr Hn Hmsg. eapply minv_update; try done.
  - by apply (mi_lock _ Hi _ _ Hl).
  - by left.
  - intros l' Hm. by destruct (Hmid l').
  - intros Hr. specialize (Hn Hr). split; [lia | apply Hn].
Qed.

Ltac local := eapply minv_local; [eassumption | eassumption | eassumption | simpl; congruence
  | intros ? [|]; congruence | simpl; congruence | simpl; intros; split; (lia || done)
  | intros ?; first [intros [= <-]; first [left; done | right; done] | congruence]].

Lemma acquire_keeps cs ks c l a i lk x :
  minv (Machine cs ks) -> cs !! c = Some (Cpu i (Acq l a)) -> ks !! l = Some lk ->
  acquire_step c l a i lk = x -> minv (Machine (<[c := x.1]> cs) (<[l := x.2]> ks)).
Proof.
  intros Hi Hc Hl <-. pose proof (mi_lock _ Hi _ _ Hl) as Hok.
  destruct (mi_noff _ Hi _ _ _ Hc I) as [Hn Hie]. simpl in Hn. pose proof (held_nonneg c ks).
  destruct a; simpl in *.
  - destruct i as [n ena e]; rewrite push_off_eq; simpl in *. local.
  - destruct (locked lk =? 0); local.
  - destruct (decide (lk_cpu lk = Some c)); local.
  - destruct (locked lk =? 0) eqn:E; bcase; destruct Hok as [[Hk Hcpu]|Hk]; try lia; simpl.
    + destruct lk as [z o]; simpl in *; subst.
      assert (forall c' i0 p0, cs !! c' = Some (Cpu i0 p0) -> mid p0 l -> c' = c) as Ha by (by eapply alone).
      eapply minv_update; try done; simpl; try congruence.
      * by right.
      * right. split_and!; [done | by left | by left].
      * intros l' [[= <-]|?]; [|done]. split; [done|]. exact Ha.
      * intros _. unfold hold_of; simpl. split; [lia | done].
    + destruct lk as [z o]; simpl in *; subst.
      local.
  - pose proof (mi_mid _ Hi _ _ _ l Hc ltac:(by left)) as Hk. simpl in Hk. rewrite Hl in Hk. simplify_eq.
    eapply minv_update; try done; simpl; try congruence; try (by intros ? [|]).
    + by right.
    + right. split_and!; [|by left | by right]. intros c' i0 p0 Hc' Hm.
      eapply (mi_excl _ Hi); [exact Hc' | exact Hc | exact Hm | by left].
    + intros _. unfold hold_of; simpl. rewrite decide_True by done. split; [lia | done].
Qed.

Lemma release_keeps cs ks c l r i lk x :
  minv (Machine cs ks) -> cs !! c = Some (Cpu i (Rel l r)) -> ks !! l = Some lk ->
  release_step c l r i lk = x -> minv (Machine (<[c := x.1]> cs) (<[l := x.2]> ks)).
Proof.
  intros Hi Hc Hl <-. pose proof (mi_lock _ Hi _ _ Hl) as Hok.
  destruct (mi_noff _ Hi _ _ _ Hc I) as [Hn Hie]. simpl in Hn. pose proof (held_nonneg c ks).
  destruct r; simpl in *.
  - destruct (locked lk =? 0); local.
  - destruct (decide (lk_cpu lk = Some c)); local.
  - destruct (mi_clear _ Hi _ _ _ Hc) as (k & Hk & Hkc). simpl in Hk. rewrite Hl in Hk. injection Hk as <-.
    assert (locked lk = 1) as H1 by (destruct Hok as [[_ ?]|?]; [congruence | done]).
    assert (forall c' i0 p0, cs !! c' = Some (Cpu i0 p0) -> mid p0 l -> c' = c) as Ha.
    { eapply alone; [done | done |]. by destruct lk; simpl in *; simplify_eq. }
    eapply minv_update; try done; simpl; try congruence.
    + by right.
    + right. split_and!; [done | by right | by left].
    + intros l' [?|[= <-]]; [done|]. rewrite H1. by split.
    + intros _. unfold hold_of; simpl. rewrite decide_True by done. split; [lia | done].
  - pose proof (mi_mid _ Hi _ _ _ l Hc ltac:(by right)) as Hk. simpl in Hk. rewrite Hl in Hk. simplify_eq.
    eapply minv_update; try done; simpl; try congruence; try (by intros ? [|]).
    + by left.
    + right. split_and!; [|by left | by left]. intros c' i0 p0 Hc' Hm.
      eapply (mi_excl _ Hi); [exact Hc' | exact Hc | exact Hm | by right].
    + intros _. unfold hold_of; simpl. split; [lia | done].
  - destruct i as [n ena e]; simpl in *. rewrite Hie by lia. rewrite pop_off_eq by lia.
    eapply minv_local; try done; simpl; try congruence; try (by intros ? [|]).
    intros _. split; [lia|]. intros. replace (n =? 1) with false by lia. done.
Qed.

Lemma minv_step m m' : minv m -> mstep m m' -> minv m'.
Proof.
  intros Hi Hs. destruct Hs as [c l a i lk ks cs x Hc Hl Hx|c l r i lk ks cs x Hc Hl Hx|
                                c l i ks cs p Hc [lk Hl] Hp|c i ks cs b Hc Hn].
  - by eapply acquire_keeps.
  - by eapply release_keeps.
  - destruct (mi_noff _ Hi _ _ _ Hc I) as [Hn Hie]. simpl in Hn.
    rewrite <- (list_insert_id ks l lk Hl). destruct Hp as [->| ->]; local.
  - destruct (mi_noff _ Hi _ _ _ Hc I) as [Hn0 Hie]. simpl in Hn0. split; simpl.
    + apply Hi.
    + intros c' i0 p0 q [(-> & [= <- <-] & _)|[? Hq]]%list_lookup_insert_Some; [done|]. by eapply (mi_valid _ Hi).
    + intros c' i0 p0 q [(-> & [= <- <-] & _)|[? Hq]]%list_lookup_insert_Some; [by intros [|]|].
      by eapply (mi_mid _ Hi).
    + intros c' i0 q [(-> & [=] & _)|[? Hq]]%list_lookup_insert_Some. by eapply (mi_clear _ Hi).
    + intros c1 c2 i1 i2 p1 p2 q [(<- & [= <- <-] & _)|[? H1]]%list_lookup_insert_Some; [by intros _ [|]|].
      intros [(<- & [= <- <-] & _)|[? H2]]%list_lookup_insert_Some; [by intros _ [|]|].
      by eapply (mi_excl _ Hi).
    + intros c' i0 p0 [(-> & [= <- <-] & _)|[? Hq]]%list_lookup_insert_Some; [simpl; split; lia|].
      by eapply (mi_noff _ Hi).
    + intros c' i0 msg [(-> & [=] & _)|[? Hq]]%list_lookup_insert_Some. by eapply (mi_stop _ Hi).
Qed.

Lemma minv_init ncpu nlock : minv (minit ncpu nlock).
Proof.
  split; simpl.
  - intros l lk [-> _]%lookup_replicate. by left.
  - intros c i p l [[= -> ->] _]%lookup_replicate. done.
  - intros c i p l [[= -> ->] _]%lookup_replicate. by intros [|].
  - intros c i l [[=] _]%lookup_replicate.
  - intros c c' i i' p p' l [[= -> ->] _]%lookup_replicate _. by intros [|].
  - intros c i p [[= -> ->] _]%lookup_replicate _. simpl. split; [|lia].
    induction nlock; simpl in *; [done|]. unfold hold_of at 1. simpl. lia.
  - intros c i msg [[=] _]%lookup_replicate.
Qed.

Lemma minv_reachable ncpu nlock m : rtc mstep (minit ncpu nlock) m -> minv m.
Proof.
  intros Hr. pose proof (minv_init ncpu nlock) as Hi.
  induction Hr as [|m1 m2 m3 Hs _ IH]; [done|]. by apply IH, (minv_step m1).
Qed.

(** ** A taken lock has an owner *)

Definition owned (m : machine) : Prop :=
  forall l lk, locks m !! l = Some lk -> locked lk = 1 -> exists c, owns m c l.

(** A step of CPU [c] on lock [l] that leaves [l] owned if it is taken. *)
Lemma owned_update cs ks c l i p lk x lk' :
  owned (Machine cs ks) -> cs !! c = Some (Cpu i p) -> ks !! l = Some lk ->
  (forall q, mid p q -> q = l) ->
  (locked lk' = 1 -> lk_cpu lk' = Some c \/ mid (c_pc x) l \/
     (~ mid p l /\ lk_cpu lk' = lk_cpu lk /\ locked lk = 1)) ->
  owned (Machine (<[c := x]> cs) (<[l := lk']> ks)).
Proof.
  intros Ho Hc Hl Hmid Hnew q k Hq Hk. simpl in Hq. pose proof (lookup_lt_Some _ _ _ Hc) as Hcl.
  assert (forall c' q', owns (Machine cs ks) c' q' -> (q' = l -> lk_cpu lk' = lk_cpu lk /\ ~ mid p l) ->
            owns (Machine (<[c := x]> cs) (<[l := lk']> ks)) c' q') as Hkeep.
  { intros c' q' [(k' & Hk' & Hcpu)|(i' & p' & Hc' & Hm)] Hsame; simpl in *.
    - left. destruct (decide (l = q')) as [<-|Hne].
      + exists lk'. simpl. rewrite list_lookup_insert_eq by (by eapply lookup_lt_Some).
        split; [done|]. destruct (Hsame eq_refl) as [-> _]. congruence.
      + exists k'. simpl. by rewrite list_lookup_insert_ne.
    - right. destruct (decide (c = c')) as [<-|Hne].
      + rewrite Hc in Hc'. simplify_eq. pose proof (Hmid _ Hm). subst q'. by destruct (Hsame eq_refl).
      + exists i', p'. simpl. by rewrite list_lookup_insert_ne. }
  apply list_lookup_insert_Some in Hq as [(-> & <- & _)|[Hne Hq]].
  - destruct (Hnew Hk) as [Hcpu|[Hm|(Hnm & Hcpu & Hlk)]].
    + exists c. left. exists lk'. simpl. by rewrite list_lookup_insert_eq by (by eapply lookup_lt_Some).
    + exists c. right. destruct x as [ix px]. exists ix, px. simpl. by rewrite list_lookup_insert_eq.
    + destruct (Ho _ _ Hl Hlk) as (c' & Hown). exists c'. by apply Hkeep.
  - destruct (Ho q k Hq Hk) as (c' & Hown). exists c'. apply Hkeep; [done|]. intros ->. done.
Qed.

Lemma owned_step m m' : minv m -> owned m -> mstep m m' -> owned m'.
Proof.
  intros Hi Ho Hs. destruct Hs as [c l a i lk ks cs x Hc Hl <-|c l r i lk ks cs x Hc Hl <-|
                                c l i ks cs p Hc [lk Hl] Hp|c i ks cs b Hc Hn].
  - eapply owned_update; [exact Ho | exact Hc | exact Hl | by intros q [[=]|[=]] |].
    destruct a; simpl.
    + destruct i as [n e ena]. rewrite push_off_eq. right; right. split; [by intros [|] | done].
    + right; right. split; [by intros [|] | done].
    + right; right. split; [by intros [|] | done].
    + destruct (locked lk =? 0) eqn:E; bcase; simpl; intros _; right; [left; by left | right].
      split; [by intros [|]|]. split; [done|]. by destruct (mi_lock _ Hi _ _ Hl) as [[? _]|?].
    + by left.
  - eapply owned_update; [exact Ho | exact Hc | exact Hl | by intros q [[=]|[=]] |].
    destruct r; simpl.
    + right; right. split; [by intros [|] | done].
    + right; right. split; [by intros [|] | done].
    + right; left. by right.
    + done.
    + destruct (pop_off i); simpl; right; right; (split; [by intros [|] | done]).
  - rewrite <- (list_insert_id ks l lk Hl).
    eapply owned_update; [exact Ho | exact Hc | exact Hl | by intros q [[=]|[=]] |].
    right; right. split; [by intros [|] | done].
  - intros q k Hq Hk. destruct (Ho q k Hq Hk) as (c' & [Hown|(i' & p' & Hc' & Hm)]); exists c'.
    + by left.
    + right. exists i', p'. simpl in *. rewrite list_lookup_insert_ne; [done|]. intros <-.
      rewrite Hc in Hc'. simplify_eq. by destruct Hm.
Qed.

Lemma owned_reachable ncpu nlock m : rtc mstep (minit ncpu nlock) m -> owned m.
Proof.
  intros Hr. assert (minv m /\ owned m) as [_ ?]; [|done].
  assert (minv (minit ncpu nlock) /\ owned (minit ncpu nlock)) as Hi0.
  { split; [apply minv_init|]. intros l lk [-> _]%lookup_replicate Hlk. simpl in Hlk. lia. }
  induction Hr as [|m1 m2 m3 Hs _ IH]; [done|]. apply IH. destruct Hi0.
  split; [by eapply minv_step | by eapply owned_step].
Qed.

Lemma owns_unique m c1 c2 l : minv m -> owns m c1 l -> owns m c2 l -> c1 = c2.
Proof.
  intros Hi [(k1 & Hk1 & H1)|(i1 & p1 & Hc1 & Hm1)] [(k2 & Hk2 & H2)|(i2 & p2 & Hc2 & Hm2)].
  - congruence.
  - rewrite (mi_mid _ Hi _ _ _ _ Hc2 Hm2) in Hk1. by simplify_eq.
  - rewrite (mi_mid _ Hi _ _ _ _ Hc1 Hm1) in Hk2. by simplify_eq.
  - by eapply (mi_excl _ Hi).
Qed.

(** The lock as the other components see it. *)
Definition spin_of (m : machine) (l : nat) : spin :=
  match locks m !! l with Some lk => if locked lk =? 0 then Free else Held | None => Free end.

Lemma spin_of_owned m l : minv m -> owned m -> (spin_of m l = Held <-> exists c, owns m c l).
Proof.
  intros Hi Ho. unfold spin_of. split.
  - destruct (locks m !! l) as [lk|] eqn:Hl; [|done]. destruct (locked lk =? 0) eqn:E; bcase; [done|].
    intros _. apply (Ho l lk Hl). by destruct (mi_lock _ Hi _ _ Hl) as [[? _]|?].
  - intros (c & [(lk & Hl & Hcpu)|(i & p & Hc & Hm)]).
    + rewrite Hl. destruct (mi_lock _ Hi _ _ Hl) as [[_ ?]|Hlk]; [congruence|]. by rewrite Hlk.
    + by rewrite (mi_mid _ Hi _ _ _ _ Hc Hm).
Qed.

(** Ownership ends only when the lock becomes free. *)
Lemma owns_lost m m' c l :
  minv m -> mstep m m' -> owns m c l -> owns m' c l \/ spin_of m' l = Free.
Proof.
  intros Hi Hs Hown.
  assert (forall cs ks c0 l0 i0 p0 lk0 x lk', m = Machine cs ks -> cs !! c0 = Some (Cpu i0 p0) ->
    ks !! l0 = Some lk0 -> (l0 = l -> lk_cpu lk0 = Some c -> lk_cpu lk' = Some c \/ (c0 = c /\ mid (c_pc x) l)) ->
    (c0 = c -> mid p0 l -> mid (c_pc x) l \/ (l0 = l /\ (lk_cpu lk' = Some c \/ locked lk' = 0))) ->
    owns (Machine (<[c0 := x]> cs) (<[l0 := lk']> ks)) c l \/
    spin_of (Machine (<[c0 := x]> cs) (<[l0 := lk']> ks)) l = Free) as Hgen.
  { intros cs ks c0 l0 i0 p0 lk0 [ix px] lk' -> Hc0 Hl0 H1 H2.
    pose proof (lookup_lt_Some _ _ _ Hc0) as Hcl. pose proof (lookup_lt_Some _ _ _ Hl0) as Hll.
    destruct Hown as [(k & Hk & Hcpu)|(i & p & Hc & Hm)]; simpl in *.
    - destruct (decide (l0 = l)) as [->|Hne].
      + rewrite Hl0 in Hk. injection Hk as ->. destruct (H1 eq_refl Hcpu) as [?|[-> ?]]; left.
        * left. exists lk'. simpl. by rewrite list_lookup_insert_eq.
        * right. exists ix, px. simpl. by rewrite list_lookup_insert_eq.
      + left; left. exists k. simpl. by rewrite list_lookup_insert_ne.
    - destruct (decide (c0 = c)) as [->|Hne].
      + rewrite Hc0 in Hc. injection Hc as -> ->. destruct (H2 eq_refl Hm) as [?|[-> [?|Hz]]].
        * left; right. exists ix, px. simpl. by rewrite list_lookup_insert_eq.
        * left; left. exists lk'. simpl. by rewrite list_lookup_insert_eq.
        * right. unfold spin_of. simpl. rewrite list_lookup_insert_eq by done. by rewrite Hz.
      + left; right. exists i, p. simpl. by rewrite list_lookup_insert_ne. }
  destruct Hs as [c0 l0 a i lk ks cs x Hc Hl <-|c0 l0 r i lk ks cs x Hc Hl <-|
                  c0 l0 i ks cs p Hc [lk Hl] Hp|c0 i ks cs b Hc Hn].
  - eapply Hgen; [done | done | done | |].
    + intros -> Hcpu. left. destruct a; simpl; try done; try (by destruct (locked lk =? 0)).
      * by destruct (push_off i).
      * pose proof (mi_mid _ Hi _ _ _ l Hc ltac:(by left)) as Hk. simpl in Hk. rewrite Hl in Hk. by simplify_eq.
    + intros -> [[= -> ->]|[=]]. right. simpl. auto.
  - eapply Hgen; [done | done | done | |].
    + intros -> Hcpu. destruct r; simpl; try (by left).
      * right. destruct (mi_clear _ Hi _ _ _ Hc) as (k & Hk & Hkc). simpl in Hk. rewrite Hl in Hk.
        simplify_eq. split; [congruence | by right].
      * left. by destruct (pop_off i).
    + intros -> [[=]|[= -> ->]]. right. simpl. auto.
  - rewrite <- (list_insert_id ks l0 lk Hl). eapply Hgen; [done | done | done | by auto |].
    intros _ [[=]|[=]].
  - left. destruct Hown as [?|(i' & p' & Hc' & Hm)]; [by left|]. right. exists i', p'. simpl in *.
    rewrite list_lookup_insert_ne; [done|]. intros <-. rewrite Hc in Hc'. simplify_eq. by destruct Hm.
Qed.

(** ** Properties *)

(** C32: mutual exclusion.  On any number of CPUs and locks, whatever the
    interleaving and whatever locks the CPUs' code acquires and releases: at most
    one CPU owns a lock; a lock is taken exactly when some CPU owns it; a CPU that
    owns a lock has interrupts disabled; a CPU becomes the owner only of a lock that
    is free, and gives ownership up only by freeing the lock. *)
Theorem spinlock_mutual_exclusion ncpu nlock m :
  rtc mstep (minit ncpu nlock) m ->
  (forall l c1 c2, owns m c1 l -> owns m c2 l -> c1 = c2) /\
  (forall l, spin_of m l = Held <-> exists c, owns m c l) /\
  (forall l c i p, owns m c l -> cpus m !! c = Some (Cpu i p) -> running p ->
     ie i = false /\ 0 < noff i) /\
  (forall m' l c, mstep m m' ->
     (~ owns m c l -> owns m' c l -> spin_of m l = Free /\ spin_of m' l = Held) /\
     (owns m c l -> ~ owns m' c l -> spin_of m l = Held /\ spin_of m' l = Free)).
Proof.
  intros Hr. pose proof (minv_reachable _ _ _ Hr) as Hi. pose proof (owned_reachable _ _ _ Hr) as Ho.
  split_and!.
  - intros. by eapply owns_unique.
  - intros. by apply spin_of_owned.
  - intros l c i p Hown Hc Hrun. destruct (mi_noff _ Hi _ _ _ Hc Hrun) as [Hn Hie].
    assert (0 < noff i); [|split; [by apply Hie | done]]. rewrite Hn.
    pose proof (held_nonneg c (locks m)).
    destruct Hown as [(lk & Hl & Hcpu)|(i' & p' & Hc' & Hm)].
    + pose proof (held_insert c _ _ _ initlock Hl) as Hh. pose proof (held_nonneg c (<[l := initlock]> (locks m))).
      unfold hold_of in Hh. simpl in Hh. rewrite decide_True in Hh by done.
      assert (0 <= need p) by (destruct p as [|? []|? []|]; simpl; lia). lia.
    + rewrite Hc in Hc'. simplify_eq. destruct Hm as [->| ->]; simpl; lia.
  - intros m' l c Hs. pose proof (minv_step _ _ Hi Hs) as Hi'. pose proof (owned_step _ _ Hi Ho Hs) as Ho'.
    split.
    + intros Hn Hy. assert (spin_of m' l = Held) as Hh by (apply spin_of_owned; eauto). split; [|done].
      destruct (spin_of m l) eqn:E; [done|]. apply spin_of_owned in E as (c0 & Hc0); [|done|done].
      destruct (owns_lost _ _ _ _ Hi Hs Hc0) as [Hc0'|Hf]; [|congruence].
      by rewrite (owns_unique _ _ _ _ Hi' Hy Hc0') in Hn.
    + intros Hy Hn. split; [apply spin_of_owned; eauto|]. by destruct (owns_lost _ _ _ _ Hi Hs Hy).
Qed.

(** CPU 0 has just swapped lock 0. *)
Definition demo_owner : machine :=
  Machine [Cpu (Intr 1 false false) (Acq 0 A_own); Cpu (Intr 0 false false) Run] [SpinLock 1 None].

Lemma demo_owner_reachable : rtc mstep (minit 2 1) demo_owner.
Proof.
  eapply rtc_l; [eapply (m_call 0 0); [reflexivity | by eexists | by left]|]. simpl.
  eapply rtc_l; [eapply (m_acquire 0 0 A_push); reflexivity|]. simpl.
  eapply rtc_l; [eapply (m_acquire 0 0 A_locked); reflexivity|]. simpl.
  eapply rtc_l; [eapply (m_acquire 0 0 A_swap); reflexivity|]. simpl. constructor.
Qed.

Lemma spinlock_mutual_exclusion_witness : owns demo_owner 0 0 /\ spin_of demo_owner 0 = Held.
Proof.
  destruct (spinlock_mutual_exclusion 2 1 demo_owner demo_owner_reachable) as (_ & Hh & _).
  assert (owns demo_owner 0 0) as Hown.
  { right. exists (Intr 1 false false), (Acq 0 A_own). split; [reflexivity | by left]. }
  split; [exact Hown|]. apply Hh. by exists 0%nat.
Defined.

(** C22: [push_off] and [pop_off] nest.  Any well-nested sequence of them returns,
    and leaves the nesting depth and the interrupt enable of the CPU as they were,
    whether interrupts were on or off before. *)
Theorem push_pop_nest m n ena e :
  nested m -> 0 <= n -> (0 < n -> e = false) ->
  exists ena', m (Intr n ena e) = Ret tt (Intr n ena' e).
Proof.
  intros Hm Hn Hoff. destruct (nested_keeps m (Intr n ena e) Hm Hn Hoff) as ([n' ena' e'] & He & H1 & H2 & _).
  simpl in *. subst. by exists ena'.
Qed.

Lemma push_pop_nest_witness :
  exists ena', (push_off;; (push_off;; mret tt;; pop_off);; pop_off) (Intr 0 false true)
    = Ret tt (Intr 0 ena' true).
Proof.
  apply (push_pop_nest (push_off;; (push_off;; mret tt;; pop_off);; pop_off) 0 false true).
  - apply n_pair, n_pair, n_nil.
  - lia.
  - lia.
Defined.

(** The panics of the lock code are exactly the misuses.  A CPU in its own code
    that calls [acquire] of a lock it owns stops in that call with "acquire", one
    that calls [release] of a lock it does not own stops with "release"; no CPU ever
    stops for another reason. *)
Theorem spinlock_panics ncpu nlock m :
  rtc mstep (minit ncpu nlock) m ->
  (forall c i msg, cpus m !! c = Some (Cpu i (Stopped msg)) -> msg = "acquire" \/ msg = "release") /\
  (forall c i l lk, cpus m !! c = Some (Cpu i (Acq l A_cpu)) -> locks m !! l = Some lk ->
     acquire_step c l A_cpu i lk = (Cpu i (Stopped "acquire"), lk) <-> owns m c l) /\
  (forall c i l lk, cpus m !! c = Some (Cpu i (Acq l A_locked)) -> locks m !! l = Some lk ->
     owns m c l -> acquire_step c l A_locked i lk = (Cpu i (Acq l A_cpu), lk)) /\
  (forall c i l lk, cpus m !! c = Some (Cpu i (Rel l R_cpu)) -> locks m !! l = Some lk ->
     release_step c l R_cpu i lk = (Cpu i (Rel l R_clear), lk) <-> owns m c l) /\
  (forall c i l lk, cpus m !! c = Some (Cpu i (Rel l R_locked)) -> locks m !! l = Some lk ->
     owns m c l -> release_step c l R_locked i lk = (Cpu i (Rel l R_cpu), lk)).
Proof.
  intros Hr. pose proof (minv_reachable _ _ _ Hr) as Hi.
  assert (forall c i p l lk, cpus m !! c = Some (Cpu i p) -> ~ mid p l -> locks m !! l = Some lk ->
            (owns m c l <-> lk_cpu lk = Some c)) as Hown.
  { intros c i p l lk Hc Hnm Hl. split.
    - intros [(k & Hk & Hcpu)|(i' & p' & Hc' & Hm)]; [congruence|]. rewrite Hc in Hc'. by simplify_eq.
    - intros Hcpu. left. eauto. }
  split_and!.
  - apply (mi_stop _ Hi).
  - intros c i l lk Hc Hl. rewrite (Hown c i _ l lk Hc ltac:(by intros [|]) Hl). simpl. case_decide; naive_solver.
  - intros c i l lk Hc Hl Ho. apply (Hown c i _ l lk Hc ltac:(by intros [|]) Hl) in Ho. simpl.
    destruct (mi_lock _ Hi _ _ Hl) as [[_ ?]|Hk]; [congruence|]. by rewrite Hk.
  - intros c i l lk Hc Hl. rewrite (Hown c i _ l lk Hc ltac:(by intros [|]) Hl). simpl. case_decide; naive_solver.
  - intros c i l lk Hc Hl Ho. apply (Hown c i _ l lk Hc ltac:(by intros [|]) Hl) in Ho. simpl.
    destruct (mi_lock _ Hi _ _ Hl) as [[_ ?]|Hk]; [congruence|]. by rewrite Hk.
Qed.

(** CPU 0 owns lock 0 and calls [acquire] of it again. *)
Definition demo_double : machine :=
  Machine [Cpu (Intr 2 false false) (Acq 0 A_cpu); Cpu (Intr 0 false false) Run] [SpinLock 1 (Some 0%nat)].

Lemma demo_double_reachable : rtc mstep (minit 2 1) demo_double.
Proof.
  transitivity demo_owner; [apply demo_owner_reachable|]. unfold demo_owner.
  eapply rtc_l; [eapply (m_acquire 0 0 A_own); reflexivity|]. simpl.
  eapply rtc_l; [eapply (m_call 0 0); [reflexivity | by eexists | by left]|]. simpl.
  eapply rtc_l; [eapply (m_acquire 0 0 A_push); reflexivity|]. simpl.
  eapply rtc_l; [eapply (m_acquire 0 0 A_locked); reflexivity|]. simpl. constructor.
Qed.

Lemma spinlock_panics_witness :
  acquire_step 0 0 A_cpu (Intr 2 false false) (SpinLock 1 (Some 0%nat))
    = (Cpu (Intr 2 false false) (Stopped "acquire"), SpinLock 1 (Some 0%nat)).
Proof.
  apply (spinlock_panics 2 1 demo_double demo_double_reachable); [reflexivity | reflexivity |].
  left. exists (SpinLock 1 (Some 0%nat)). by split.
Defined.
