(* ===== verification/Ring.v ===== *)
(** * Ring: ring buffers indexed by free-running counters

    The pipe, the console and the UART driver all keep bytes in an array of [N]
    slots with a write counter and a read counter that only ever increase and wrap
    around at the width of their type; slot [c mod N] belongs to count [c].  This is
    correct because [N] divides the modulus [W] of the counters. *)

From S2P Require Import Prelude.

Section Ring.
Variables N W : Z.
Hypothesis N_pos : 0 < N.
Hypothesis N_lt : N < W.
Hypothesis N_div : (N | W).

(** The number of bytes between read counter [r] and write counter [w]. *)
Definition dist (w r : Z) : Z := (w - r) mod W.

(** The [n] slots from count [r] on. *)
Definition window (l : list Z) (r : Z) (n : nat) : list Z :=
  (fun k => l !!! Z.to_nat ((r + Z.of_nat k) mod N)) <$> seq 0 n.

Lemma dist_range w r : 0 <= dist w r < W.
Proof. apply Z.mod_pos_bound. lia. Qed.

Lemma length_window l r n : length (window l r n) = n.
Proof. unfold window. by rewrite length_fmap, length_seq. Qed.

Lemma mod_wrap x : (x mod W) mod N = x mod N.
Proof. by apply Z.mod_mod_divide. Qed.

Lemma mod_zero_small x : - W < x < W -> x mod W = 0 -> x = 0.
Proof.
  intros Hx Hm. destruct (Z_lt_le_dec x 0) as [Hn|Hp]; [|by rewrite Z.mod_small in Hm by lia].
  rewrite <- (Z_mod_plus_full x 1) in Hm. rewrite Z.mod_small in Hm by lia. lia.
Qed.

Lemma dist_empty w r : 0 <= w < W -> 0 <= r < W -> (r =? w) = (dist w r =? 0).
Proof.
  intros Hw Hr. unfold dist. destruct (Z.eqb_spec r w) as [->|Hne].
  - by rewrite Z.sub_diag, Z.mod_0_l by lia.
  - symmetry. apply Z.eqb_neq. intros Hm. apply mod_zero_small in Hm; lia.
Qed.

(** Two counts at the same distance from [r] are equal. *)
Lemma dist_inj w w' r : 0 <= w < W -> 0 <= w' < W -> dist w r = dist w' r -> w = w'.
Proof.
  intros Hw Hw' He. unfold dist in He.
  assert ((w - w') mod W = 0) as Hm.
  { replace (w - w') with ((w - r) - (w' - r)) by lia. rewrite Zminus_mod, He, Z.sub_diag. by apply Z.mod_0_l; lia. }
  apply mod_zero_small in Hm; lia.
Qed.

Lemma dist_add r n : 0 <= n < W -> dist ((r + n) mod W) r = n.
Proof.
  intros Hn. unfold dist. rewrite Zminus_mod_idemp_l. replace (r + n - r) with n by lia.
  by apply Z.mod_small.
Qed.

Lemma dist_full w r : 0 <= w < W -> 0 <= r < W -> (w =? (r + N) mod W) = (dist w r =? N).
Proof.
  intros Hw Hr. pose proof (Z.mod_pos_bound (r + N) W).
  destruct (Z.eqb_spec w ((r + N) mod W)) as [->|Hne]; symmetry.
  - apply Z.eqb_eq, dist_add. lia.
  - apply Z.eqb_neq. intros Hc. apply Hne, (dist_inj _ _ r); [lia | lia |]. rewrite Hc, dist_add; lia.
Qed.

Lemma dist_push w r : dist w r < W - 1 -> dist ((w + 1) mod W) r = dist w r + 1.
Proof.
  intros Hlt. pose proof (dist_range w r). unfold dist in *. rewrite Zminus_mod_idemp_l.
  replace (w + 1 - r) with (w - r + 1) by lia. rewrite <- Zplus_mod_idemp_l. apply Z.mod_small. lia.
Qed.

Lemma dist_pop w r : 0 < dist w r -> dist w ((r + 1) mod W) = dist w r - 1.
Proof.
  intros Hlt. pose proof (dist_range w r). unfold dist in *. rewrite Zminus_mod_idemp_r.
  replace (w - (r + 1)) with (w - r - 1) by lia. rewrite <- Zminus_mod_idemp_l. apply Z.mod_small. lia.
Qed.

Lemma dist_unpush w r : 0 < dist w r -> dist ((w - 1) mod W) r = dist w r - 1.
Proof.
  intros Hlt. pose proof (dist_range w r). unfold dist in *. rewrite Zminus_mod_idemp_l.
  replace (w - 1 - r) with (w - r - 1) by lia. rewrite <- Zminus_mod_idemp_l. apply Z.mod_small. lia.
Qed.

(** The slot of the write counter, seen from the read counter. *)
Lemma slot_of w r : w mod N = (r + dist w r) mod N.
Proof.
  unfold dist. rewrite <- (Zplus_mod_idemp_r ((w - r) mod W)), mod_wrap, Zplus_mod_idemp_r. f_equal. lia.
Qed.

(** Storing at the write counter extends the window. *)
Lemma window_push l w r c :
  length l = Z.to_nat N -> dist w r < N ->
  window (<[Z.to_nat (w mod N) := c]> l) r (S (Z.to_nat (dist w r))) =
  window l r (Z.to_nat (dist w r)) ++ [c].
Proof.
  intros Hl Hlt. pose proof (dist_range w r) as Hd. rewrite (slot_of w r).
  replace (S (Z.to_nat (dist w r))) with (Z.to_nat (dist w r) + 1)%nat by lia.
  unfold window. rewrite seq_app, fmap_app. simpl. f_equal.
  - apply list_fmap_ext. intros i k [-> Hk]%lookup_seq. simpl. apply list_lookup_total_insert_ne.
    intros He. apply Z2Nat.inj in He; try (apply Z.mod_pos_bound; lia).
    assert ((dist w r - Z.of_nat i) mod N = 0) as Hz.
    { replace (dist w r - Z.of_nat i) with (r + dist w r - (r + Z.of_nat i)) by lia.
      rewrite Zminus_mod, He, Z.sub_diag. by apply Z.mod_0_l; lia. }
    rewrite Z.mod_small in Hz by lia. lia.
  - f_equal. rewrite Z2Nat.id by lia. apply list_lookup_total_insert_eq.
    rewrite Hl. apply Z2Nat.inj_lt; try lia; apply Z.mod_pos_bound; lia.
Qed.

(** The window starts at the slot of the read counter. *)
Lemma window_pop l r n : window l r (S n) = l !!! Z.to_nat (r mod N) :: window l ((r + 1) mod W) n.
Proof.
  unfold window. cbn [seq fmap list_fmap]. rewrite Z.add_0_r. f_equal.
  rewrite <- fmap_S_seq, <- list_fmap_compose. apply list_fmap_ext.
  intros i k [-> Hk]%lookup_seq. unfold compose. simpl. f_equal. f_equal.
  rewrite <- (Zplus_mod_idemp_l ((r + 1) mod W)), mod_wrap, Zplus_mod_idemp_l. f_equal. lia.
Qed.

(** A longer window is the shorter one and the slots after it. *)
Lemma window_app l r n m : window l r (n + m) = window l r n ++ window l ((r + Z.of_nat n) mod W) m.
Proof.
  revert r. induction n as [|n IH]; intros r.
  - simpl. rewrite Z.add_0_r. unfold window. apply list_fmap_ext. intros i k Hk. f_equal. f_equal.
    rewrite <- (Zplus_mod_idemp_l (r mod W)), mod_wrap, Zplus_mod_idemp_l. done.
  - cbn [Nat.add]. rewrite !window_pop, IH. cbn [app]. do 3 f_equal.
    rewrite Zplus_mod_idemp_l. f_equal. lia.
Qed.

Lemma window_snoc l r n : window l r (S n) = window l r n ++ [l !!! Z.to_nat ((r + Z.of_nat n) mod N)].
Proof.
  replace (S n) with (n + 1)%nat by lia. unfold window. rewrite seq_app, fmap_app. done.
Qed.
End Ring.

Lemma window_take N l r n m : (m <= n)%nat -> take m (window N l r n) = window N l r m.
Proof.
  intros Hm. unfold window. rewrite <- fmap_take. f_equal. replace n with (m + (n - m))%nat by lia.
  rewrite seq_app. apply take_app_length'. by rewrite length_seq.
Qed.
