(* ===== verification/Pipe.v ===== *)
(** * Pipe: [kernel/pipe.c]

    A pipe with the processes that read and write it.  A call runs with the pipe's
    lock from its entry, or from the point where it was woken, to the next point
    where it sleeps or returns; such a section is one operation of the model, and
    the sections of all processes interleave freely.  Besides the [pipe] structure
    the state has the processes asleep on [&pi->nread] and [&pi->nwrite], and, in
    order, the bytes copied in from and out to user memory.

    The theorems: the pipe is a FIFO of at most [PIPESIZE] bytes although its
    counters wrap around, from which a call loses a byte only when its [copyout]
    fails; a process sleeps only while what it waits for has not happened, except
    for readers whose wake-up a writer killed in the middle of its call left out;
    what the calls return. *)

From S2P Require Import Prelude Ring.

Definition PIPESIZE : Z := 512.

Record pipe := Pipe {
  pi_lock : spin;
  pi_data : list Z;
  nread : Z;
  nwrite : Z;
  readopen : bool;
  writeopen : bool
}.

(** [rq], [wq]: who sleeps on [&pi->nread], [&pi->nwrite]; [uin]: the
    bytes that [copyin] brought; [uout]: the bytes taken out of the pipe, each with
    whether [copyout] delivered it; [freed]: the page was freed. *)
Record psys := PSys {
  pp : pipe;
  rq : list nat;
  wq : list nat;
  uin : list Z;
  uout : list (Z * bool);
  freed : bool
}.

(** The bytes that reached the readers. *)
Definition delivered (s : psys) : list Z := (filter (fun x => x.2 = true) (uout s)).*1.

Definition with_pipe (f : pipe -> pipe) (s : psys) : psys :=
  PSys (f (pp s)) (rq s) (wq s) (uin s) (uout s) (freed s).

Definition pi_lockL : lens psys spin :=
  Lens (fun s => pi_lock (pp s))
       (fun l => with_pipe (fun p => Pipe l (pi_data p) (nread p) (nwrite p) (readopen p) (writeopen p))).

Definition gpipe {A} (f : pipe -> A) : M psys A := gets (fun s => f (pp s)).

Definition wakeup_nread : M psys unit :=
  modify (fun s => PSys (pp s) [] (wq s) (uin s) (uout s) (freed s)).
Definition wakeup_nwrite : M psys unit :=
  modify (fun s => PSys (pp s) (rq s) [] (uin s) (uout s) (freed s)).

(** How a section ends: asleep in the loop with the local [i], or returning. *)
Inductive pres := Asleep (i : Z) | Done (r : Z).

(** [sleep(&pi->nread, &pi->lock)] and [sleep(&pi->nwrite, &pi->lock)]. *)
Definition sleep_nread (pid : nat) (i : Z) : M psys pres :=
  modify (fun s => PSys (pp s) (pid :: rq s) (wq s) (uin s) (uout s) (freed s));;
  release pi_lockL;;
  mret (Asleep i).
Definition sleep_nwrite (pid : nat) (i : Z) : M psys pres :=
  modify (fun s => PSys (pp s) (rq s) (pid :: wq s) (uin s) (uout s) (freed s));;
  release pi_lockL;;
  mret (Asleep i).

(** ** Operations *)

(** The pipe of a new pair of files, in the page at hand. *)
Definition pipe_init (p : pipe) : pipe := Pipe Free (pi_data p) 0 0 true true.

Definition pipeclose (writable : bool) : M psys unit :=
  acquire pi_lockL;;
  (if writable then
     modify (with_pipe (fun p => Pipe (pi_lock p) (pi_data p) (nread p) (nwrite p) (readopen p) false));;
     wakeup_nread
   else
     modify (with_pipe (fun p => Pipe (pi_lock p) (pi_data p) (nread p) (nwrite p) false (writeopen p)));;
     wakeup_nwrite);;
  p ← gpipe id;
  if negb (readopen p) && negb (writeopen p) then
    release pi_lockL;;
    modify (fun s => PSys (pp s) (rq s) (wq s) (uin s) (uout s) true)
  else release pi_lockL.

(** [pi->data[pi->nwrite++ % PIPESIZE] = ch] and [ch = pi->data[pi->nread++ % PIPESIZE]] *)
Definition put_byte (ch : Z) (p : pipe) : pipe :=
  Pipe (pi_lock p) (<[Z.to_nat (nwrite p mod PIPESIZE) := ch]> (pi_data p))
       (nread p) (u32 (nwrite p + 1)) (readopen p) (writeopen p).
Definition next_byte (p : pipe) : Z := pi_data p !!! Z.to_nat (nread p mod PIPESIZE).
Definition drop_byte (p : pipe) : pipe :=
  Pipe (pi_lock p) (pi_data p) (u32 (nread p + 1)) (nwrite p) (readopen p) (writeopen p).

Section Calls.
(** The calling process: its id, what [killed] answers in each round, and user
    memory as [copyin] and [copyout] of one byte see it. *)
Variable pid : nat.
Variable killed : Z -> bool.
Variable src : Z -> option Z.
Variable dst : Z -> bool.

Definition write_done (i : Z) : M psys pres :=
  wakeup_nread;;
  release pi_lockL;;
  mret (Done i).

(** The loop of [pipewrite] with [k] bytes to go. *)
Fixpoint pipewrite_loop (addr i : Z) (k : nat) : M psys pres :=
  match k with
  | O => write_done i
  | S k =>
    ro ← gpipe readopen;
    if negb (ro : bool) || killed i then release pi_lockL;; mret (Done (-1)) else
    full ← gpipe (fun p => nwrite p =? u32 (nread p + PIPESIZE));
    if (full : bool) then wakeup_nread;; sleep_nwrite pid i else
    match src (u64 (addr + i)) with
    | None => write_done i
    | Some ch =>
      modify (fun s => PSys (put_byte ch (pp s)) (rq s) (wq s) (uin s ++ [ch]) (uout s) (freed s));;
      pipewrite_loop addr (i + 1) k
    end
  end.

(** [pipewrite(pi, addr, n)] from the loop with local [i]: 0 at the call, the [i] of
    [Asleep] when woken. *)
Definition pipewrite (addr n i : Z) : M psys pres :=
  acquire pi_lockL;;
  pipewrite_loop addr i (Z.to_nat (n - i)).

Definition read_done (i : Z) : M psys pres :=
  wakeup_nwrite;;
  release pi_lockL;;
  mret (Done i).

Fixpoint piperead_loop (addr i : Z) (k : nat) : M psys pres :=
  match k with
  | O => read_done i
  | S k =>
    empty ← gpipe (fun p => nread p =? nwrite p);
    if (empty : bool) then read_done i else
    ch ← gpipe next_byte;
    modify (with_pipe drop_byte);;
    let ok := dst (u64 (addr + i)) in
    modify (fun s => PSys (pp s) (rq s) (wq s) (uin s) (uout s ++ [(ch, ok)]) (freed s));;
    if negb ok then read_done i else piperead_loop addr (i + 1) k
  end.

Definition piperead (addr n : Z) : M psys pres :=
  acquire pi_lockL;;
  p ← gpipe id;
  if (nread p =? nwrite p) && writeopen p then
    if killed 0 then release pi_lockL;; mret (Done (-1)) else sleep_nread pid 0
  else piperead_loop addr 0 (Z.to_nat n).
End Calls.

(** ** The ring buffer *)

Definition count (p : pipe) : Z := u32 (nwrite p - nread p).

(** The bytes in the pipe, oldest first. *)
Definition contents (p : pipe) : list Z := window PIPESIZE (pi_data p) (nread p) (Z.to_nat (count p)).

Record pipe_ok (p : pipe) : Prop := {
  ok_len : length (pi_data p) = Z.to_nat PIPESIZE;
  ok_nread : 0 <= nread p < 2 ^ 32;
  ok_nwrite : 0 <= nwrite p < 2 ^ 32;
  ok_count : count p <= PIPESIZE
}.

Lemma pipe_ring : 0 < PIPESIZE /\ PIPESIZE < 2 ^ 32 /\ (PIPESIZE | 2 ^ 32).
Proof. unfold PIPESIZE. split_and!; [lia | lia | by exists (2 ^ 23)]. Qed.

Lemma count_range p : 0 <= count p < 2 ^ 32.
Proof. apply u32_range. Qed.

Lemma length_contents p : Z.of_nat (length (contents p)) = count p.
Proof. unfold contents. rewrite length_window. pose proof (count_range p). lia. Qed.

Lemma empty_count p : pipe_ok p -> (nread p =? nwrite p) = (count p =? 0).
Proof. intros [_ Hr Hw _]. destruct pipe_ring as (? & ? & ?). by apply (dist_empty PIPESIZE (2 ^ 32)). Qed.

Lemma full_count p : pipe_ok p -> (nwrite p =? u32 (nread p + PIPESIZE)) = (count p =? PIPESIZE).
Proof. intros [_ Hr Hw _]. destruct pipe_ring as (? & ? & ?). by apply (dist_full PIPESIZE (2 ^ 32)). Qed.

Lemma put_byte_spec ch p : pipe_ok p -> count p < PIPESIZE ->
  pipe_ok (put_byte ch p) /\ contents (put_byte ch p) = contents p ++ [ch].
Proof.
  intros [Hl Hr Hw Hc] Hlt. destruct pipe_ring as (Hp & HW & Hdv). pose proof (count_range p).
  assert (count (put_byte ch p) = count p + 1) as Hc'.
  { apply (dist_push PIPESIZE (2 ^ 32)); [done | done |]. change (count p < 2 ^ 32 - 1). unfold PIPESIZE in *. lia. }
  split.
  - split; simpl; [by rewrite length_insert | done | apply u32_range | unfold PIPESIZE in *; lia].
  - unfold contents. rewrite Hc'. replace (Z.to_nat (count p + 1)) with (S (Z.to_nat (count p))) by lia.
    by apply (window_push PIPESIZE (2 ^ 32)).
Qed.

Lemma drop_byte_spec p : pipe_ok p -> 0 < count p ->
  pipe_ok (drop_byte p) /\ contents p = next_byte p :: contents (drop_byte p).
Proof.
  intros [Hl Hr Hw Hc] Hlt. destruct pipe_ring as (Hp & HW & Hdv). pose proof (count_range p).
  assert (count (drop_byte p) = count p - 1) as Hc' by (by apply (dist_pop PIPESIZE (2 ^ 32))).
  split.
  - split; simpl; [done | apply u32_range | done | lia].
  - unfold contents. rewrite Hc'. replace (Z.to_nat (count p)) with (S (Z.to_nat (count p - 1))) by lia.
    by apply (window_pop PIPESIZE (2 ^ 32)).
Qed.

(** ** What a section does *)

Definition same_ends (s s' : psys) : Prop :=
  readopen (pp s') = readopen (pp s) /\ writeopen (pp s') = writeopen (pp s) /\ freed s' = freed s.

(** The bytes [bs] went from user memory at [addr + i] into the pipe. *)
Record wrote (src : Z -> option Z) (addr i : Z) (bs : list Z) (s s' : psys) : Prop := {
  wr_ok : pipe_ok (pp s');
  wr_lock : pi_lock (pp s') = Free;
  wr_ends : same_ends s s';
  wr_in : uin s' = uin s ++ bs;
  wr_out : uout s' = uout s;
  wr_contents : contents (pp s') = contents (pp s) ++ bs;
  wr_src : forall k b, bs !! k = Some b -> src (u64 (addr + (i + Z.of_nat k))) = Some b
}.

(** How the section of [pipewrite] that wrote [m] bytes of [k] ends. *)
Inductive write_end (pid : nat) (killed : Z -> bool) (src : Z -> option Z) (addr i : Z) (k m : nat)
    (s s' : psys) : pres -> Prop :=
| we_done : (m = k \/ src (u64 (addr + (i + Z.of_nat m))) = None) -> rq s' = [] -> wq s' = wq s ->
    write_end pid killed src addr i k m s s' (Done (i + Z.of_nat m))
| we_fail : (readopen (pp s) = false \/ killed (i + Z.of_nat m) = true) -> rq s' = rq s -> wq s' = wq s ->
    write_end pid killed src addr i k m s s' (Done (-1))
| we_sleep : (m < k)%nat -> count (pp s') = PIPESIZE -> readopen (pp s) = true ->
    rq s' = [] -> wq s' = pid :: wq s ->
    write_end pid killed src addr i k m s s' (Asleep (i + Z.of_nat m)).

(** The pipe with its lock released. *)
Definition unlocked (p : pipe) : pipe :=
  Pipe Free (pi_data p) (nread p) (nwrite p) (readopen p) (writeopen p).

Lemma unlocked_ok p : pipe_ok p -> pipe_ok (unlocked p).
Proof. by intros []. Qed.

Lemma wrote_none src addr i s q w :
  pipe_ok (pp s) -> wrote src addr i [] s (PSys (unlocked (pp s)) q w (uin s) (uout s) (freed s)).
Proof. intros Hok. split; simpl; try done; [by apply unlocked_ok | by rewrite app_nil_r..]. Qed.

Lemma release_eq s : pi_lock (pp s) = Held ->
  release pi_lockL s = Ret tt (PSys (unlocked (pp s)) (rq s) (wq s) (uin s) (uout s) (freed s)).
Proof. intros Hl. unfold release. simpl. by rewrite Hl. Qed.

Lemma write_done_eq i s : pi_lock (pp s) = Held ->
  write_done i s = Ret (Done i) (PSys (unlocked (pp s)) [] (wq s) (uin s) (uout s) (freed s)).
Proof. intros Hl. unfold write_done, mbind, M_bind. simpl. by rewrite release_eq. Qed.

Lemma write_loop_spec pid killed src addr k : forall i s,
  pipe_ok (pp s) -> pi_lock (pp s) = Held ->
  exists r s' bs, pipewrite_loop pid killed src addr i k s = Ret r s' /\
    wrote src addr i bs s s' /\ (length bs <= k)%nat /\
    write_end pid killed src addr i k (length bs) s s' r /\
    (bs <> [] -> readopen (pp s) = true /\ killed i = false).
Proof.
  induction k as [|k IH]; intros i s Hok Hlk; cbn [pipewrite_loop].
  { exists (Done (i + Z.of_nat 0)). eexists. exists [].
    split; [rewrite Z.add_0_r; by apply write_done_eq|]. split; [by apply wrote_none|].
    split; [done|]. split; [|done]. apply we_done; [by left | done..]. }
  erewrite bind_ret by reflexivity. destruct (negb (readopen (pp s)) || killed i) eqn:E1.
  { exists (Done (-1)). eexists. exists [].
    split; [erewrite bind_ret by (by apply release_eq); reflexivity|].
    split; [by apply wrote_none|]. split; [simpl; lia|]. split; [|done].
    apply we_fail; try done. simpl. rewrite Z.add_0_r. apply orb_prop in E1 as [?|?]; [left|by right].
    by destruct (readopen (pp s)). }
  apply orb_false_elim in E1 as [Hro Hk]. apply negb_false_iff in Hro.
  erewrite bind_ret by reflexivity. rewrite full_count by done. destruct (count (pp s) =? PIPESIZE) eqn:E2; bcase.
  { exists (Asleep (i + Z.of_nat 0)). eexists. exists []. split.
    { erewrite bind_ret by reflexivity. unfold sleep_nwrite. erewrite bind_ret by reflexivity.
      erewrite bind_ret by (by apply release_eq). rewrite Z.add_0_r. reflexivity. }
    split; [exact (wrote_none src addr i s _ _ Hok)|]. split; [simpl; lia|].
    split; [|done]. apply we_sleep; try done. simpl. lia. }
  destruct (src (u64 (addr + i))) as [ch|] eqn:E3.
  2:{ exists (Done (i + Z.of_nat 0)). eexists. exists [].
      split; [rewrite Z.add_0_r; by apply write_done_eq|]. split; [by apply wrote_none|].
      split; [simpl; lia|]. split; [|done]. apply we_done; try done. right. simpl. by rewrite Z.add_0_r. }
  destruct (put_byte_spec ch (pp s) Hok) as [Hok' Hct]; [pose proof (ok_count _ Hok); lia|].
  erewrite bind_ret by reflexivity.
  destruct (IH (i + 1) (PSys (put_byte ch (pp s)) (rq s) (wq s) (uin s ++ [ch]) (uout s) (freed s)))
    as (r & s' & bs & He & Hw & Hle & Hend & _); [done | done |].
  exists r, s', (ch :: bs). split; [exact He|]. destruct Hw as [H1 H2 H3 H4 H5 H6 H7]. simpl in *.
  assert (i + 1 + Z.of_nat (length bs) = i + Z.of_nat (length (ch :: bs))) as Hi by (simpl; lia).
  split; [|split; [lia|split; [|done]]].
  - split; simpl; try done; [by rewrite H4, <- app_assoc | by rewrite H6, Hct, <- app_assoc|].
    intros [|j] b Hb; simpl in Hb; simplify_eq; [by rewrite Z.add_0_r|].
    rewrite <- (H7 j b Hb). do 2 f_equal. lia.
  - destruct Hend as [Hd Hq1 Hq2|Hd Hq1 Hq2|Hd Hc Ho Hq1 Hq2]; rewrite ?Hi in *.
    + apply we_done; try done. simpl. destruct Hd; [left; lia | by right].
    + by apply we_fail.
    + apply we_sleep; try done. simpl. lia.
Qed.

(** The bytes [bs] went from the pipe to user memory; [lost] is the byte, if any,
    that was taken out when [copyout] failed. *)
Record took (dst : Z -> bool) (addr i : Z) (bs lost : list Z) (s s' : psys) : Prop := {
  tk_ok : pipe_ok (pp s');
  tk_lock : pi_lock (pp s') = Free;
  tk_ends : same_ends s s';
  tk_in : uin s' = uin s;
  tk_out : uout s' = uout s ++ ((fun b => (b, true)) <$> bs) ++ ((fun b => (b, false)) <$> lost);
  tk_contents : contents (pp s) = bs ++ lost ++ contents (pp s');
  tk_lost : lost = [] \/ length lost = 1%nat /\ dst (u64 (addr + (i + Z.of_nat (length bs)))) = false;
  tk_dst : forall k, (k < length bs)%nat -> dst (u64 (addr + (i + Z.of_nat k))) = true;
  tk_rq : rq s' = rq s;
  tk_wq : wq s' = []
}.

Lemma read_done_eq i s : pi_lock (pp s) = Held ->
  read_done i s = Ret (Done i) (PSys (unlocked (pp s)) (rq s) [] (uin s) (uout s) (freed s)).
Proof. intros Hl. unfold read_done, mbind, M_bind. simpl. by rewrite release_eq. Qed.

Lemma contents_empty p : count p = 0 -> contents p = [].
Proof. intros Hc. unfold contents. by rewrite Hc. Qed.

Lemma took_none dst addr i s :
  pipe_ok (pp s) -> took dst addr i [] [] s (PSys (unlocked (pp s)) (rq s) [] (uin s) (uout s) (freed s)).
Proof.
  intros Hok. split; simpl; try done; [by apply unlocked_ok | by rewrite app_nil_r | by left | intros; lia].
Qed.

Lemma read_loop_spec dst addr k : forall i s,
  pipe_ok (pp s) -> pi_lock (pp s) = Held ->
  exists s' bs lost, piperead_loop dst addr i k s = Ret (Done (i + Z.of_nat (length bs))) s' /\
    took dst addr i bs lost s s' /\ (length bs <= k)%nat /\
    (length bs = k \/ contents (pp s') = [] \/ lost <> []).
Proof.
  induction k as [|k IH]; intros i s Hok Hlk; cbn [piperead_loop].
  { eexists. exists [], []. split; [rewrite Z.add_0_r; by apply read_done_eq|].
    split; [by apply took_none|]. split; [done | by left]. }
  erewrite bind_ret by reflexivity. rewrite empty_count by done.
  destruct (count (pp s) =? 0) eqn:E1; bcase.
  { eexists. exists [], []. split; [rewrite Z.add_0_r; by apply read_done_eq|].
    split; [by apply took_none|]. split; [simpl; lia|]. right; left. simpl. by apply contents_empty. }
  destruct (drop_byte_spec (pp s) Hok) as [Hok' Hct]; [pose proof (count_range (pp s)); lia|].
  erewrite bind_ret by reflexivity. erewrite bind_ret by reflexivity.
  cbv zeta. erewrite bind_ret by reflexivity. destruct (dst (u64 (addr + i))) eqn:E2; cbn [negb].
  2:{ eexists. exists [], [next_byte (pp s)]. split; [rewrite Z.add_0_r; by apply read_done_eq|].
      split; [|split; [simpl; lia | by right; right]].
      split; simpl; try done; [by apply unlocked_ok | | intros; lia].
      right. split; [done|]. by rewrite Z.add_0_r. }
  destruct (IH (i + 1) (PSys (drop_byte (pp s)) (rq s) (wq s) (uin s) (uout s ++ [(next_byte (pp s), true)]) (freed s)))
    as (s' & bs & lost & He & Hw & Hle & Hend); [done | done |].
  exists s', (next_byte (pp s) :: bs), lost. destruct Hw as [H1 H2 H3 H4 H5 H6 H7 H8 H9 H10]. simpl in *.
  assert (i + 1 + Z.of_nat (length bs) = i + Z.of_nat (S (length bs))) as Hi by lia.
  split; [by rewrite <- Hi|]. split; [|split; [lia | destruct Hend as [?|?]; [left; lia | by right]]].
  split; try done.
  - by rewrite H5, <- app_assoc.
  - by rewrite Hct, H6.
  - cbn [length]. by rewrite <- Hi.
  - intros [|j] Hj; [by rewrite Z.add_0_r|]. rewrite <- (H8 j) by (simpl in Hj; lia). do 2 f_equal. lia.
Qed.

(** ** The system *)

(** The flag says that readers are asleep whose wake-up was left out: a writer put
    bytes into the pipe and then found itself killed.  It is cleared when nobody
    sleeps on [&pi->nread] any more. *)
Definition stranded (k : bool) (s' : psys) : bool := k && bool_decide (rq s' <> []).

Definition killed_midway (r : pres) (s s' : psys) : bool :=
  match r with Done r => (r =? -1) && bool_decide (uin s' <> uin s) | Asleep _ => false end.

Inductive pstep : psys * bool -> psys * bool -> Prop :=
| ps_write pid (killed : Z -> bool) (src : Z -> option Z) addr n i r s s' k :
    freed s = false -> pid ∉ rq s -> pid ∉ wq s -> 0 <= i ->
    pipewrite pid killed src addr n i s = Ret r s' ->
    pstep (s, k) (s', stranded (k || killed_midway r s s') s')
| ps_read pid (killed dst : Z -> bool) addr n r s s' k :
    freed s = false -> pid ∉ rq s -> pid ∉ wq s ->
    piperead pid killed dst addr n s = Ret r s' -> pstep (s, k) (s', stranded k s')
| ps_close (w : bool) s s' k :
    freed s = false -> (if w then writeopen (pp s) else readopen (pp s)) = true ->
    pipeclose w s = Ret tt s' -> pstep (s, k) (s', stranded k s')
| ps_kill pid s k :
    let s' := PSys (pp s) (filter (fun q => q <> pid) (rq s)) (filter (fun q => q <> pid) (wq s)) (uin s) (uout s) (freed s) in
    pstep (s, k) (s', stranded k s').

(** A new pipe in a page whose contents are arbitrary. *)
Definition pnew (d : list Z) : psys :=
  PSys (pipe_init (Pipe Free d 0 0 false false)) [] [] [] [] false.

Record sys_ok (k : bool) (s : psys) : Prop := {
  so_pipe : pipe_ok (pp s);
  so_lock : pi_lock (pp s) = Free;
  so_fifo : uin s = (uout s).*1 ++ contents (pp s);
  so_rq : rq s <> [] -> writeopen (pp s) = true /\ (count (pp s) = 0 \/ k = true);
  so_wq : wq s <> [] -> count (pp s) = PIPESIZE /\ readopen (pp s) = true;
  so_or : rq s = [] \/ wq s = [];
  so_freed : freed s = negb (readopen (pp s)) && negb (writeopen (pp s))
}.

Definition locked_pipe (p : pipe) : pipe :=
  Pipe Held (pi_data p) (nread p) (nwrite p) (readopen p) (writeopen p).

Lemma acquire_eq s : pi_lock (pp s) = Free ->
  acquire pi_lockL s = Ret tt (PSys (locked_pipe (pp s)) (rq s) (wq s) (uin s) (uout s) (freed s)).
Proof. intros Hl. unfold acquire. simpl. by rewrite Hl. Qed.

Lemma count_contents p p' bs : contents p' = contents p ++ bs -> count p' = count p + Z.of_nat (length bs).
Proof. intros He. rewrite <- !length_contents, He, length_app. lia. Qed.

Lemma pipewrite_total pid killed src addr n i s :
  pipe_ok (pp s) -> pi_lock (pp s) = Free ->
  exists r s' bs, pipewrite pid killed src addr n i s = Ret r s' /\
    wrote src addr i bs s s' /\ (length bs <= Z.to_nat (n - i))%nat /\
    write_end pid killed src addr i (Z.to_nat (n - i)) (length bs) s s' r /\
    (bs <> [] -> readopen (pp s) = true /\ killed i = false).
Proof.
  intros Hok Hl. unfold pipewrite. erewrite bind_ret by (by apply acquire_eq).
  destruct (write_loop_spec pid killed src addr (Z.to_nat (n - i)) i
    (PSys (locked_pipe (pp s)) (rq s) (wq s) (uin s) (uout s) (freed s))) as (r & s' & bs & He & Hw & Hle & Hend & Hne).
  - by destruct Hok.
  - done.
  - exists r, s', bs. split_and!; [done | | done | | done].
    + by destruct Hw.
    + by destruct Hend; [apply we_done | apply we_fail | apply we_sleep].
Qed.

Lemma stranded_rq k s' : rq s' <> [] -> stranded k s' = k.
Proof. intros Hne. unfold stranded. rewrite bool_decide_eq_true_2 by done. by destruct k. Qed.

Lemma sys_ok_write pid killed src addr n i r s s' k :
  sys_ok k s -> pipewrite pid killed src addr n i s = Ret r s' -> sys_ok (stranded (k || killed_midway r s s') s') s'.
Proof.
  intros Hs He.
  destruct (pipewrite_total pid killed src addr n i s) as (r' & s0 & bs & He' & Hw & Hle & Hend & Hbs);
    [apply Hs | apply Hs |]. rewrite He in He'. simplify_eq.
  destruct Hs as [Hok Hl Hf Hrq Hwq Hor Hfr]. destruct Hw as [H1 H2 (H3 & H4 & H5) H6 H7 H8 H9].
  pose proof (count_contents _ _ _ H8) as Hc. pose proof (ok_count _ H1).
  split; try done.
  - by rewrite H6, H7, H8, Hf, app_assoc.
  - intros Hne. rewrite stranded_rq by done. rewrite H4.
    destruct Hend as [Hd Hq1 Hq2|Hd Hq1 Hq2|Hd Hcc Ho Hq1 Hq2]; try (by rewrite Hq1 in Hne).
    rewrite Hq1 in Hne. destruct (Hrq Hne) as [Hwo Hz]. split; [done|]. unfold killed_midway.
    destruct bs as [|b bs]; [simpl in Hc; destruct Hz as [Hz| ->]; [left; lia | by right]|].
    right. rewrite (bool_decide_eq_true_2 (uin s0 <> uin s)); [by rewrite orb_true_r|].
    rewrite H6. intros E%(f_equal length). rewrite length_app in E. simpl in E. lia.
  - intros Hne. rewrite H3. destruct Hend as [Hd Hq1 Hq2|Hd Hq1 Hq2|Hd Hcc Ho Hq1 Hq2].
    + rewrite Hq2 in Hne. destruct (Hwq Hne). split; [lia | done].
    + rewrite Hq2 in Hne. destruct (Hwq Hne). split; [lia | done].
    + done.
  - destruct Hend as [Hd -> ->|Hd -> ->|Hd Hcc Ho -> ->]; auto.
  - by rewrite H3, H4, H5.
Qed.

Lemma piperead_total pid killed dst addr n s :
  pipe_ok (pp s) -> pi_lock (pp s) = Free ->
  exists r s', piperead pid killed dst addr n s = Ret r s' /\
    ((count (pp s) = 0 /\ writeopen (pp s) = true /\
        (r = Done (-1) /\ killed 0 = true /\ s' = s \/
         r = Asleep 0 /\ killed 0 = false /\ s' = PSys (pp s) (pid :: rq s) (wq s) (uin s) (uout s) (freed s))) \/
     ((0 < count (pp s) \/ writeopen (pp s) = false) /\
        exists bs lost, r = Done (Z.of_nat (length bs)) /\ took dst addr 0 bs lost s s' /\
          (length bs <= Z.to_nat n)%nat /\
          (length bs = Z.to_nat n \/ contents (pp s') = [] \/ lost <> []))).
Proof.
  intros Hok Hl. unfold piperead. erewrite bind_ret by (by apply acquire_eq).
  erewrite bind_ret by reflexivity. unfold id. simpl.
  rewrite empty_count by done. pose proof (count_range (pp s)).
  assert (unlocked (locked_pipe (pp s)) = pp s) as Hu by (destruct s as [[]]; simpl in *; by subst).
  assert (((count (pp s) =? 0) && writeopen (pp s) = true /\ count (pp s) = 0 /\ writeopen (pp s) = true) \/
          ((count (pp s) =? 0) && writeopen (pp s) = false /\ (0 < count (pp s) \/ writeopen (pp s) = false)))
    as [(-> & Hz & Hwo)|(-> & Hor)].
  { destruct (count (pp s) =? 0) eqn:E1; bcase; destruct (writeopen (pp s)); simpl; auto with lia. }
  - destruct (killed 0) eqn:Ek.
    + exists (Done (-1)), s. split; [|by auto 10].
      erewrite bind_ret by (by apply release_eq). simpl. rewrite Hu. by destruct s.
    + exists (Asleep 0). eexists. split; [|left; split_and!; [done | done | by right]].
      unfold sleep_nread. erewrite bind_ret by reflexivity.
      erewrite bind_ret by (by apply release_eq). simpl. by rewrite Hu.
  - destruct (read_loop_spec dst addr (Z.to_nat n) 0
      (PSys (locked_pipe (pp s)) (rq s) (wq s) (uin s) (uout s) (freed s))) as (s' & bs & lost & He & Ht & Hle & Hend).
    + by destruct Hok.
    + done.
    + do 2 eexists. split; [exact He|]. right. split; [done|]. exists bs, lost.
      split_and!; [done | by destruct Ht | done | done].
Qed.

Lemma sys_ok_read pid killed dst addr n r s s' k :
  sys_ok k s -> piperead pid killed dst addr n s = Ret r s' -> sys_ok (stranded k s') s'.
Proof.
  intros Hs He.
  destruct (piperead_total pid killed dst addr n s) as (r' & s0 & He' & Hcase); [apply Hs | apply Hs |].
  rewrite He in He'. simplify_eq. destruct Hs as [Hok Hl Hf Hrq Hwq Hor Hfr].
  destruct Hcase as [(Hz & Hwo & [(-> & _ & ->)|(-> & _ & ->)])|(Hor' & bs & lost & -> & Ht & Hle & Hend)].
  - split; try done. intros Hne. rewrite stranded_rq by done. by apply Hrq.
  - split; simpl; try done.
    + intros _. by auto.
    + right. destruct (wq s) as [|w q]; [done|]. destruct (Hwq ltac:(done)) as [Hfull _]. unfold PIPESIZE in Hfull. lia.
  - destruct Ht as [H1 H2 (H3 & H4 & H5) H6 H7 H8 H9 H10 H11 H12].
    pose proof (f_equal length H8) as Hlen. rewrite !length_app in Hlen.
    pose proof (length_contents (pp s)). pose proof (length_contents (pp s0)).
    split; try done.
    + rewrite H6, H7, Hf, H8, !fmap_app, <- !list_fmap_compose. unfold compose. simpl.
      rewrite !list_fmap_id. by rewrite <- !app_assoc.
    + intros Hne. rewrite stranded_rq by done. rewrite H4. rewrite H11 in Hne. destruct (Hrq Hne) as [Hwo Hz].
      split; [done|]. destruct Hz as [Hz|?]; [left; lia | by right].
    + rewrite H12. by right.
    + by rewrite H3, H4, H5.
Qed.

Lemma sys_ok_close (w : bool) s s' k :
  sys_ok k s -> (if w then writeopen (pp s) else readopen (pp s)) = true ->
  pipeclose w s = Ret tt s' -> sys_ok (stranded k s') s'.
Proof.
  intros [Hok Hl Hf Hrq Hwq Hor Hfr] Hopen He. destruct s as [[lk dt nr nw ro wo] q1 q2 ui uo fr]; simpl in *. subst.
  unfold pipeclose, mbind, M_bind, acquire, release, gpipe, gets, modify, id in He. simpl in He.
  destruct w; simpl in He; subst; [destruct ro|destruct wo]; simpl in He; simplify_eq;
    (split; simpl; [by destruct Hok | done | done | intros Hne; try done | intros; try done | by auto | done]);
    rewrite ?stranded_rq by done; naive_solver.
Qed.

Lemma sys_ok_step x x' : sys_ok x.2 x.1 -> pstep x x' -> sys_ok x'.2 x'.1.
Proof.
  intros Hs Hstep. destruct Hstep; simpl in *.
  - by eapply sys_ok_write.
  - by eapply sys_ok_read.
  - by eapply sys_ok_close.
  - destruct Hs as [Hok Hl Hf Hrq Hwq Hor Hfr]. split; simpl; try done.
    + intros Hne. rewrite stranded_rq by done. apply Hrq. intros E. by rewrite E in Hne.
    + intros Hne. apply Hwq. intros E. by rewrite E in Hne.
    + destruct Hor as [-> | ->]; auto.
Qed.

Lemma sys_ok_reachable d s k : length d = Z.to_nat PIPESIZE -> rtc pstep (pnew d, false) (s, k) -> sys_ok k s.
Proof.
  intros Hd Hr. assert (sys_ok false (pnew d)) as H0.
  { split; simpl; try done. by left. }
  change (sys_ok (s, k).2 (s, k).1). change (sys_ok (pnew d, false).2 (pnew d, false).1) in H0. revert H0.
  generalize (pnew d, false) (s, k) Hr. clear. intros x y Hr H0.
  induction Hr as [|s1 s2 s3 Hs _ IH]; [done|]. by apply IH, (sys_ok_step s1).
Qed.

(** The bytes of a read. *)
Lemma delivered_app s s' bs lost :
  uout s' = uout s ++ ((fun b => (b, true)) <$> bs) ++ ((fun b => (b, false)) <$> lost) ->
  delivered s' = delivered s ++ bs.
Proof.
  intros E. unfold delivered. rewrite E, !filter_app, !fmap_app. f_equal.
  assert (forall l : list Z, (filter (fun x : Z * bool => x.2 = true) ((fun b => (b, true)) <$> l)).*1 = l) as ->.
  { induction l as [|b l IH]; [done|]. rewrite fmap_cons, filter_cons_True, fmap_cons by done. by rewrite IH. }
  assert (forall l : list Z, (filter (fun x : Z * bool => x.2 = true) ((fun b => (b, false)) <$> l)).*1 = []) as ->.
  { induction l as [|b l IH]; [done|]. by rewrite fmap_cons, filter_cons_False. }
  by rewrite app_nil_r.
Qed.

Lemma read_effect pid killed dst addr n r s s' :
  (count (pp s) = 0 /\ writeopen (pp s) = true /\
     (r = Done (-1) /\ killed 0 = true /\ s' = s \/
      r = Asleep 0 /\ killed 0 = false /\ s' = PSys (pp s) (pid :: rq s) (wq s) (uin s) (uout s) (freed s))) \/
  ((0 < count (pp s) \/ writeopen (pp s) = false) /\
     exists bs lost, r = Done (Z.of_nat (length bs)) /\ took dst addr 0 bs lost s s' /\
       (length bs <= Z.to_nat n)%nat /\ (length bs = Z.to_nat n \/ contents (pp s') = [] \/ lost <> [])) ->
  exists bs lost, contents (pp s) = bs ++ lost ++ contents (pp s') /\
    uout s' = uout s ++ ((fun b => (b, true)) <$> bs) ++ ((fun b => (b, false)) <$> lost) /\
    delivered s' = delivered s ++ bs /\
    (forall j, (j < length bs)%nat -> dst (u64 (addr + Z.of_nat j)) = true) /\
    (lost = [] \/ length lost = 1%nat /\ r = Done (Z.of_nat (length bs)) /\ dst (u64 (addr + Z.of_nat (length bs))) = false).
Proof.
  intros [(_ & _ & [(-> & _ & ->)|(-> & _ & ->)])|(_ & bs & lost & -> & Ht & _ & _)].
  1,2: exists [], []; split_and!; simpl; rewrite ?app_nil_r; try done; [intros; lia | by left].
  exists bs, lost. destruct Ht as [_ _ _ _ H5 H6 H7 H8 _ _]. split_and!; [done | done | by eapply delivered_app | exact H8 |].
  destruct H7 as [?|[? ?]]; [by left | by right].
Qed.

(** Who wakes the readers. *)
Lemma write_wakes pid killed src addr i k m s s' r : 0 <= i -> write_end pid killed src addr i k m s s' r ->
  (r <> Done (-1) -> rq s' = []) /\ (r = Done (-1) -> readopen (pp s) = true -> exists j, killed j = true).
Proof. intros Hi [Hd Hq1 Hq2|[?|?] Hq1 Hq2|]; (split; [naive_solver|]); intros Hr Hro; [exfalso; injection Hr; lia | congruence | eauto | done]. Qed.

Lemma close_wakes s : pi_lock (pp s) = Free -> exists s', pipeclose true s = Ret tt s' /\ rq s' = [].
Proof.
  intros Hl. destruct s as [[lk dt nr nw ro wo] q1 q2 ui uo fr]; simpl in *. subst.
  unfold pipeclose, mbind, M_bind, acquire, release, gpipe, gets, modify, id. simpl. destruct ro; simpl; by eexists.
Qed.

(** ** Properties *)

(** C33: a pipe is a FIFO.  After any interleaving of writes, reads, closes and kills
    by any processes, the bytes taken from the writers are exactly the bytes taken
    out of the pipe, in order, followed by the at most [PIPESIZE] bytes in it,
    although the counters wrap around at 32 bits; and the pipe's page is freed
    exactly when both ends are closed.  A read delivers the bytes it takes out, in
    order, except that where [copyout] fails it returns the number delivered before
    and the one byte at hand is lost. *)
Theorem pipe_fifo d s k :
  length d = Z.to_nat PIPESIZE -> rtc pstep (pnew d, false) (s, k) ->
  uin s = (uout s).*1 ++ contents (pp s) /\ Z.of_nat (length (contents (pp s))) <= PIPESIZE /\
  freed s = negb (readopen (pp s)) && negb (writeopen (pp s)) /\
  forall pid killed dst addr n, exists r s', piperead pid killed dst addr n s = Ret r s' /\
    exists bs lost, contents (pp s) = bs ++ lost ++ contents (pp s') /\
      uout s' = uout s ++ ((fun b => (b, true)) <$> bs) ++ ((fun b => (b, false)) <$> lost) /\
      delivered s' = delivered s ++ bs /\
      (forall j, (j < length bs)%nat -> dst (u64 (addr + Z.of_nat j)) = true) /\
      (lost = [] \/ length lost = 1%nat /\ r = Done (Z.of_nat (length bs)) /\ dst (u64 (addr + Z.of_nat (length bs))) = false).
Proof.
  intros Hd Hr. destruct (sys_ok_reachable d s k Hd Hr) as [Hok Hl Hf _ _ _ Hfr].
  split_and!; [done | rewrite length_contents; by apply ok_count | done |].
  intros pid kl dst addr n. destruct (piperead_total pid kl dst addr n s Hok Hl) as (r & s' & He & Hcase).
  exists r, s'. split; [done|]. apply (read_effect pid kl dst addr n r s s' Hcase).
Qed.

(** C34: no wake-up is lost but one.  A process asleep on [&pi->nwrite] is asleep while
    the pipe is full and has a reader.  One asleep on [&pi->nread] is asleep while the
    pipe has a writer and is empty, unless a writer since put bytes into it and returned
    -1 because it was killed before it reached its [wakeup]; every section of a
    [pipewrite] that does not return -1 leaves nobody asleep there, and closing the
    write end neither.  Readers and writers never wait for each other. *)
Theorem pipe_no_lost_wakeup d s k :
  length d = Z.to_nat PIPESIZE -> rtc pstep (pnew d, false) (s, k) ->
  (rq s <> [] -> writeopen (pp s) = true /\ (contents (pp s) = [] \/ k = true)) /\
  (wq s <> [] -> Z.of_nat (length (contents (pp s))) = PIPESIZE /\ readopen (pp s) = true) /\
  (rq s = [] \/ wq s = []) /\
  (forall pid killed src addr n i, 0 <= i -> exists r s', pipewrite pid killed src addr n i s = Ret r s' /\
     (r <> Done (-1) -> rq s' = []) /\
     (r = Done (-1) -> readopen (pp s) = true -> exists j, killed j = true)) /\
  (writeopen (pp s) = true -> exists s', pipeclose true s = Ret tt s' /\ rq s' = []).
Proof.
  intros Hd Hr. destruct (sys_ok_reachable d s k Hd Hr) as [Hok Hl _ Hrq Hwq Hor _]. split_and!.
  - intros Hne. destruct (Hrq Hne) as [Hw Hz]. split; [done|]. destruct Hz as [Hz|?]; [left; by apply contents_empty | by right].
  - intros Hne. rewrite length_contents. by apply Hwq.
  - done.
  - intros pid kl src addr n i Hi. destruct (pipewrite_total pid kl src addr n i s Hok Hl) as (r & s' & bs & He & _ & _ & Hend & _).
    exists r, s'. split; [done|]. exact (write_wakes _ _ _ _ _ _ _ _ _ _ Hi Hend).
  - intros _. by apply close_wakes.
Qed.

(** What the calls do.  In every reachable state, each call returns or sleeps.
    [pipewrite] of [n] bytes appends what it takes from user memory and returns
    their number when all were taken or [copyin] fails, -1 if there is no reader or
    the process is killed, and sleeps only with a full pipe.  [piperead] of an empty
    pipe sleeps while there is a writer (or returns -1 if killed), returns 0 at end
    of file, and otherwise returns the oldest bytes, as many as there are up to
    [n]. *)
Theorem pipe_calls d s k pid killed src addr n :
  length d = Z.to_nat PIPESIZE -> rtc pstep (pnew d, false) (s, k) -> 0 <= n ->
  (exists r s' bs, pipewrite pid killed src addr n 0 s = Ret r s' /\
     contents (pp s') = contents (pp s) ++ bs /\
     (forall k b, bs !! k = Some b -> src (u64 (addr + Z.of_nat k)) = Some b) /\
     match r with
     | Asleep i => i = Z.of_nat (length bs) /\ i < n /\
         Z.of_nat (length (contents (pp s'))) = PIPESIZE /\ pid ∈ wq s'
     | Done r =>
         r = Z.of_nat (length bs) /\ (r = n \/ src (u64 (addr + r)) = None) \/
         r = -1 /\ (readopen (pp s) = false \/ exists i, killed i = true)
     end) /\
  (exists r s', piperead pid killed (fun _ => true) addr n s = Ret r s' /\
     match r with
     | Asleep _ => contents (pp s) = [] /\ writeopen (pp s) = true /\ pid ∈ rq s' /\ pp s' = pp s
     | Done r =>
         if decide (r = -1) then contents (pp s) = [] /\ killed 0 = true /\ s' = s
         else exists bs, delivered s' = delivered s ++ bs /\ contents (pp s) = bs ++ contents (pp s') /\
                r = Z.of_nat (length bs) /\ r = Z.min n (Z.of_nat (length (contents (pp s))))
     end).
Proof.
  intros Hd Hr Hn. destruct (sys_ok_reachable d s k Hd Hr) as [Hok Hl _ _ _ _ _]. split.
  - destruct (pipewrite_total pid killed src addr n 0 s Hok Hl) as (r & s' & bs & He & Hw & Hle & Hend & _).
    rewrite Z.sub_0_r in *. exists r, s', bs. destruct Hw as [H1 H2 H3 H4 H5 H6 H7]. split_and!; try done.
    destruct Hend as [Hd' _ _|Hd' _ _|Hd' Hc _ _ Hq]; rewrite ?Z.add_0_l in *.
    + left. split; [done|]. destruct Hd' as [Hd'|Hd']; [left; lia | by right].
    + right. split; [done|]. destruct Hd' as [?|?]; eauto.
    + rewrite length_contents, Hq. split_and!; [done | lia | done | left].
  - destruct (piperead_total pid killed (fun _ => true) addr n s Hok Hl) as (r & s' & He & Hcase).
    exists r, s'. split; [done|].
    destruct Hcase as [(Hz & Hwo & [(-> & Hk & ->)|(-> & Hk & ->)])|(Hor & bs & lost & -> & Ht & Hle & Hend)].
    + rewrite decide_True by done. split_and!; [by apply contents_empty | done..].
    + split_and!; [by apply contents_empty | done | left | done].
    + rewrite decide_False by lia. exists bs. destruct Ht as [H1 H2 H3 H4 H5 H6 H7 H8 H9 H10].
      pose proof (delivered_app _ _ _ _ H5). destruct H7 as [->|[_ ?]]; [|done]. simpl in H6. split_and!; try done.
      pose proof (f_equal length H6) as Hlen. rewrite length_app in Hlen.
      destruct Hend as [Hend|[Hend|?]]; [| |done]; rewrite ?Hend in *; simpl in *; lia.
Qed.

Definition demo_data : list Z := replicate 512 7.

(** Process 1 writes the bytes 10, 11, 12. *)
Definition demo_src (a : Z) : option Z := Some (10 + a).
Definition demo_pipe : psys :=
  match pipewrite 1 (fun _ => false) demo_src 0 3 0 (pnew demo_data) with Ret _ s => s | _ => pnew demo_data end.

Lemma demo_pipe_reachable : rtc pstep (pnew demo_data, false) (demo_pipe, false).
Proof.
  eapply rtc_l; [|constructor].
  eapply (ps_write 1 (fun _ => false) demo_src 0 3 0 (Done 3) (pnew demo_data) demo_pipe false); [done | apply not_elem_of_nil | apply not_elem_of_nil | lia |].
  vm_compute. reflexivity.
Qed.

(** Process 2 reads two bytes; the first reaches its memory, the second does not. *)
Lemma pipe_fifo_witness : uin demo_pipe = [10; 11; 12] /\
  uin demo_pipe = (uout demo_pipe).*1 ++ contents (pp demo_pipe) /\
  exists r s', piperead 2 (fun _ => false) (fun a => a =? 0) 0 2 demo_pipe = Ret r s' /\ exists lost, uin demo_pipe = delivered s' ++ lost ++ contents (pp s').
Proof.
  destruct (pipe_fifo demo_data demo_pipe false eq_refl demo_pipe_reachable) as (Hf & _ & _ & Hr).
  split; [vm_compute; reflexivity|]. split; [exact Hf|].
  destruct (Hr 2%nat (fun _ => false) (fun a => a =? 0) 0 2) as (r & s' & He & bs & lost & Hc & _ & Hdl & _).
  exists r, s'. split; [exact He|]. exists lost. rewrite Hf, Hdl, Hc. reflexivity.
Defined.

(** Process 2 asleep in an empty pipe; process 1 writes a byte and is killed before
    the next one. *)
Definition demo_asleep : psys :=
  match piperead 2 (fun _ => false) (fun _ => true) 0 2 (pnew demo_data) with Ret _ s => s | _ => pnew demo_data end.
Definition demo_stranded : psys :=
  match pipewrite 1 (fun i => i =? 1) demo_src 0 3 0 demo_asleep with Ret _ s => s | _ => demo_asleep end.

Lemma demo_asleep_reachable : rtc pstep (pnew demo_data, false) (demo_asleep, false).
Proof.
  eapply rtc_l; [|constructor].
  eapply (ps_read 2 (fun _ => false) (fun _ => true) 0 2 (Asleep 0) (pnew demo_data) demo_asleep false); [done | apply not_elem_of_nil | apply not_elem_of_nil |].
  vm_compute. reflexivity.
Qed.

Lemma demo_stranded_reachable : rtc pstep (pnew demo_data, false) (demo_stranded, true).
Proof.
  eapply rtc_r; [apply demo_asleep_reachable|].
  eapply (ps_write 1 (fun i => i =? 1) demo_src 0 3 0 (Done (-1)) demo_asleep demo_stranded false); [done | | apply not_elem_of_nil | lia |].
  - change (1%nat ∉ [2%nat]). by rewrite list_elem_of_singleton.
  - vm_compute. reflexivity.
Qed.

Lemma pipe_no_lost_wakeup_witness :
  rq demo_asleep = [2%nat] /\ (contents (pp demo_asleep) = [] \/ false = true) /\
  rq demo_stranded = [2%nat] /\ contents (pp demo_stranded) = [10] /\
  exists r s', pipewrite 3 (fun _ => false) demo_src 0 1 0 demo_stranded = Ret r s' /\ (r <> Done (-1) -> rq s' = []).
Proof.
  assert (rq demo_asleep = [2%nat]) as Hq by (vm_compute; reflexivity).
  split; [exact Hq|]. split.
  - apply (pipe_no_lost_wakeup demo_data demo_asleep false eq_refl demo_asleep_reachable). rewrite Hq. discriminate.
  - split; [vm_compute; reflexivity|]. split; [vm_compute; reflexivity|].
    destruct (pipe_no_lost_wakeup demo_data demo_stranded true eq_refl demo_stranded_reachable) as (_ & _ & _ & Hw & _).
    destruct (Hw 3%nat (fun _ => false) demo_src 0 1 0 ltac:(lia)) as (r & s' & He & Hr & _). exists r, s'. split; [exact He | exact Hr].
Defined.

Lemma pipe_calls_witness :
  exists r s', piperead 2 (fun _ => false) (fun _ => true) 0 2 demo_pipe = Ret r s' /\ r = Done 2.
Proof.
  destruct (pipe_calls demo_data demo_pipe false 2 (fun _ => false) demo_src 0 2 eq_refl demo_pipe_reachable
              ltac:(lia)) as [_ (r & s' & He & _)].
  exists r, s'. split; [exact He|].
  enough (match piperead 2 (fun _ => false) (fun _ => true) 0 2 demo_pipe with Ret r _ => r | _ => Done 0 end = Done 2)
    as Hr by (by rewrite He in Hr).
  vm_compute. reflexivity.
Defined.

(** Two gaps.  A reader's byte is lost when [copyout] fails: it has left the pipe
    and was not delivered.  And a writer that is killed in the middle of a call
    returns without waking the readers: a reader sleeps although the pipe is not
    empty. *)
Theorem pipe_gaps :
  (exists s', piperead 2 (fun _ => false) (fun _ => false) 0 2 demo_pipe = Ret (Done 0) s' /\
     contents (pp demo_pipe) = [10; 11; 12] /\ contents (pp s') = [11; 12] /\ uout s' = [(10, false)]) /\
  (exists s1 s2, piperead 2 (fun _ => false) (fun _ => true) 0 2 (pnew demo_data) = Ret (Asleep 0) s1 /\
     pipewrite 1 (fun i => i =? 1) demo_src 0 3 0 s1 = Ret (Done (-1)) s2 /\
     rq s2 = [2%nat] /\ contents (pp s2) = [10]).
Proof.
  split.
  - eexists. split; [vm_compute; reflexivity|]. split_and!; vm_compute; reflexivity.
  - do 2 eexists. split; [vm_compute; reflexivity|]. split; [vm_compute; reflexivity|].
    split; vm_compute; reflexivity.
Qed.
