(* ===== verification/Uart.v ===== *)
(** * Uart: the 16550 driver of [kernel/uart.c]

    The driver's transmit ring with the device behind it.  The device is what the
    data sheet says of the registers the driver uses: writing THR hands over one
    byte and makes the transmitter busy; LSR bit 5 is set when it is idle again,
    which also raises the transmit interrupt; reading ISR acknowledges that
    interrupt; LSR bit 0 says whether RHR has an input byte.  [busy] is how many
    more times LSR reads "not idle", [pace] how long a byte takes.

    The theorems: bytes leave the ring in the order [uartputc] put them; a process
    that waits for room waits only while the ring is full; and whenever a call
    leaves bytes in the ring, the transmitter is busy or its interrupt is pending,
    so that output cannot get stuck. *)

From S2P Require Import Prelude Ring.

Definition RHR : Z := 0.
Definition THR : Z := 0.
Definition IER : Z := 1.
Definition FCR : Z := 2.
Definition ISR : Z := 2.
Definition LCR : Z := 3.
Definition LSR : Z := 5.
Definition IER_RX_ENABLE : Z := 1.
Definition IER_TX_ENABLE : Z := 2.
Definition FCR_FIFO_ENABLE : Z := 1.
Definition FCR_FIFO_CLEAR : Z := 6.
Definition LCR_EIGHT_BITS : Z := 3.
Definition LCR_BAUD_LATCH : Z := 128.
Definition LSR_RX_READY : Z := 1.
Definition LSR_TX_IDLE : Z := 32.
Definition UART_TX_BUF_SIZE : Z := 32.

(** The device. *)
Record dev := Dev {
  busy : nat;            (* polls of LSR until the transmitter is idle *)
  pace : nat;            (* polls a byte takes *)
  txirq : bool;          (* the transmit interrupt is pending *)
  line : list Z;         (* bytes handed to the transmitter *)
  rx : list Z;           (* input bytes not yet read *)
  wrote : list (Z * Z)   (* writes to the other registers *)
}.

Record uart := Uart {
  ut_lock : spin;
  tx_buf : list Z;
  tx_w : Z;
  tx_r : Z;
  panicked : bool;
  udev : dev;
  waiting : list nat;    (* asleep on &uart_tx_r *)
  queued : list Z;       (* every byte uartputc accepted *)
  started : list Z       (* every byte uartstart took from the ring *)
}.

Definition ut_lockL : lens uart spin :=
  Lens ut_lock (fun l s => Uart l (tx_buf s) (tx_w s) (tx_r s) (panicked s) (udev s)
                             (waiting s) (queued s) (started s)).
Definition udevL : lens uart dev :=
  Lens udev (fun d s => Uart (ut_lock s) (tx_buf s) (tx_w s) (tx_r s) (panicked s) d
                          (waiting s) (queued s) (started s)).

(** ** Register accesses *)

(** The transmitter makes progress; when it becomes idle it interrupts. *)
Definition tick (d : dev) : dev :=
  match busy d with
  | O => d
  | S O => Dev 0 (pace d) true (line d) (rx d) (wrote d)
  | S n => Dev n (pace d) (txirq d) (line d) (rx d) (wrote d)
  end.

Definition read_lsr : M dev Z := fun d =>
  let v := Z.lor (if decide (busy d = 0%nat) then LSR_TX_IDLE else 0)
                 (if decide (rx d = []) then 0 else LSR_RX_READY) in
  Ret v (tick d).

Definition read_rhr : M dev Z := fun d =>
  Ret (default 0 (List.hd_error (rx d))) (Dev (busy d) (pace d) (txirq d) (line d) (tail (rx d)) (wrote d)).

Definition read_isr : M dev unit :=
  modify (fun d => Dev (busy d) (pace d) false (line d) (rx d) (wrote d)).

Definition write_thr (c : Z) : M dev unit :=
  modify (fun d => Dev (pace d) (pace d) (txirq d || bool_decide (pace d = 0%nat))
                     (line d ++ [u8 c]) (rx d) (wrote d)).

Definition WriteReg (reg v : Z) : M dev unit :=
  modify (fun d => Dev (busy d) (pace d) (txirq d) (line d) (rx d) (wrote d ++ [(reg, v)])).

(** ** Operations *)

Definition uartinit : M uart unit :=
  zoom udevL (
    WriteReg IER 0;;
    WriteReg LCR LCR_BAUD_LATCH;;
    WriteReg 0 3;;
    WriteReg 1 0;;
    WriteReg LCR LCR_EIGHT_BITS;;
    WriteReg FCR (Z.lor FCR_FIFO_ENABLE FCR_FIFO_CLEAR);;
    WriteReg IER (Z.lor IER_TX_ENABLE IER_RX_ENABLE));;
  modify (put ut_lockL Free).

(** [for(;;) ;] after a panic *)
Definition halt_if_panicked : M uart unit :=
  p ← gets panicked;
  if (p : bool) then sleep_on "panicked" else mret tt.

Definition slot (x : Z) : nat := Z.to_nat (x mod UART_TX_BUF_SIZE).

(** The loop of [uartstart]; each round takes a byte from the ring. *)
Fixpoint uartstart_loop (fuel : nat) : M uart unit :=
  match fuel with
  | O => fun _ => NoFuel
  | S fuel =>
    s ← gets id;
    if tx_w s =? tx_r s then zoom udevL read_isr else
    v ← zoom udevL read_lsr;
    if Z.land v LSR_TX_IDLE =? 0 then mret tt else
    c ← gets (fun s => tx_buf s !!! slot (tx_r s));
    modify (fun s => Uart (ut_lock s) (tx_buf s) (tx_w s) (u64 (tx_r s + 1)) (panicked s) (udev s)
                       [] (queued s) (started s ++ [c]));;
    zoom udevL (write_thr c);;
    uartstart_loop fuel
  end.
(** Each round but the last empties one slot. *)
Definition uartstart : M uart unit :=
  n ← gets (fun s => Z.to_nat (u64 (tx_w s - tx_r s)));
  uartstart_loop (S n).

(** [uartputc(c)] by process [pid]: [false] when it went to sleep. *)
Definition uartputc (pid : nat) (c : Z) : M uart bool :=
  acquire ut_lockL;;
  halt_if_panicked;;
  s ← gets id;
  if tx_w s =? u64 (tx_r s + UART_TX_BUF_SIZE) then
    modify (fun s => Uart (ut_lock s) (tx_buf s) (tx_w s) (tx_r s) (panicked s) (udev s)
                       (pid :: waiting s) (queued s) (started s));;
    release ut_lockL;;
    mret false
  else
    modify (fun s => Uart (ut_lock s) (<[slot (tx_w s) := u8 c]> (tx_buf s)) (u64 (tx_w s + 1)) (tx_r s)
                       (panicked s) (udev s) (waiting s) (queued s ++ [u8 c]) (started s));;
    uartstart;;
    release ut_lockL;;
    mret true.

(** [while((ReadReg(LSR) & LSR_TX_IDLE) == 0) ;] *)
Fixpoint wait_idle (fuel : nat) : M dev unit :=
  match fuel with
  | O => fun _ => NoFuel
  | S fuel => v ← read_lsr; if Z.land v LSR_TX_IDLE =? 0 then wait_idle fuel else mret tt
  end.

Definition uartputc_sync (c : Z) : M uart unit :=
  halt_if_panicked;;
  n ← gets (fun s => busy (udev s));
  zoom udevL (wait_idle (S n));;
  zoom udevL (write_thr c).

(** -1 if no input is waiting. *)
Definition uartgetc : M dev Z :=
  v ← read_lsr;
  if Z.land v 1 =? 0 then mret (-1) else read_rhr.

(** The input loop of [uartintr]: the characters it hands to [consoleintr]. *)
Fixpoint uartintr_rx (fuel : nat) : M dev (list Z) :=
  match fuel with
  | O => fun _ => NoFuel
  | S fuel =>
    c ← uartgetc;
    if c =? -1 then mret [] else
    cs ← uartintr_rx fuel;
    mret (c :: cs)
  end.

Definition uartintr_tx : M uart unit :=
  acquire ut_lockL;;
  uartstart;;
  release ut_lockL.

(** ** The ring *)

Definition tx_count (s : uart) : Z := u64 (tx_w s - tx_r s).

(** The bytes waiting in the ring. *)
Definition pending (s : uart) : list Z :=
  window UART_TX_BUF_SIZE (tx_buf s) (tx_r s) (Z.to_nat (tx_count s)).

Lemma uart_ring : 0 < UART_TX_BUF_SIZE /\ UART_TX_BUF_SIZE < 2 ^ 64 /\ (UART_TX_BUF_SIZE | 2 ^ 64).
Proof. unfold UART_TX_BUF_SIZE. split_and!; [lia | lia | by exists (2 ^ 59)]. Qed.

(** More output will be attempted without anyone asking for it. *)
Definition alive (d : dev) : Prop := (0 < busy d)%nat \/ txirq d = true.

Record uart_ok (s : uart) : Prop := {
  uo_len : length (tx_buf s) = Z.to_nat UART_TX_BUF_SIZE;
  uo_bytes : Forall byte_range (tx_buf s);
  uo_w : 0 <= tx_w s < 2 ^ 64;
  uo_r : 0 <= tx_r s < 2 ^ 64;
  uo_count : tx_count s <= UART_TX_BUF_SIZE;
  uo_fifo : queued s = started s ++ pending s;
  uo_line : started s `sublist_of` line (udev s);
  uo_wait : waiting s <> [] -> tx_count s = UART_TX_BUF_SIZE
}.

Record uart_inv (s : uart) : Prop := {
  ui_ok : uart_ok s;
  ui_lock : ut_lock s = Free;
  ui_alive : pending s <> [] -> alive (udev s)
}.

Lemma tx_count_range s : 0 <= tx_count s < 2 ^ 64.
Proof. apply u64_range. Qed.

Lemma length_pending s : Z.of_nat (length (pending s)) = tx_count s.
Proof. unfold pending. rewrite length_window. pose proof (tx_count_range s). lia. Qed.

Lemma pending_nil s : tx_count s = 0 -> pending s = [].
Proof. intros H. unfold pending. by rewrite H. Qed.

Lemma empty_tx s : uart_ok s -> (tx_w s =? tx_r s) = (tx_count s =? 0).
Proof.
  intros Hok. destruct uart_ring as (? & ? & ?). rewrite Z.eqb_sym.
  apply (dist_empty UART_TX_BUF_SIZE (2 ^ 64)); [done | done | apply Hok | apply Hok].
Qed.

Lemma full_tx s : uart_ok s -> (tx_w s =? u64 (tx_r s + UART_TX_BUF_SIZE)) = (tx_count s =? UART_TX_BUF_SIZE).
Proof.
  intros Hok. destruct uart_ring as (? & ? & ?).
  apply (dist_full UART_TX_BUF_SIZE (2 ^ 64)); [done | done | apply Hok | apply Hok].
Qed.

(** [s] with another device. *)
Definition with_dev (d : dev) (s : uart) : uart := put udevL d s.

Lemma zoom_dev {A} (m : M dev A) s a d :
  m (udev s) = Ret a d -> zoom udevL m s = Ret a (with_dev d s).
Proof. intros H. unfold zoom. change (view udevL s) with (udev s). by rewrite H. Qed.

Lemma uart_ok_dev s d : uart_ok s -> started s `sublist_of` line d -> uart_ok (with_dev d s).
Proof. intros [] ?. by split. Qed.

(** A byte put in the ring. *)
Definition put_tx (c : Z) (s : uart) : uart :=
  Uart (ut_lock s) (<[slot (tx_w s) := u8 c]> (tx_buf s)) (u64 (tx_w s + 1)) (tx_r s)
       (panicked s) (udev s) (waiting s) (queued s ++ [u8 c]) (started s).

Lemma put_tx_ok c s : uart_ok s -> tx_count s < UART_TX_BUF_SIZE -> uart_ok (put_tx c s).
Proof.
  intros Hok Hlt. destruct uart_ring as (Hp & HW & Hdv). pose proof (tx_count_range s).
  destruct Hok as [Hl Hb Hw Hr Hc Hf Hln Hwt].
  assert (tx_count (put_tx c s) = tx_count s + 1) as Hc'.
  { apply (dist_push UART_TX_BUF_SIZE (2 ^ 64)); [done | done |]. change (tx_count s < 2 ^ 64 - 1).
    unfold UART_TX_BUF_SIZE in *. lia. }
  split; simpl; try done.
  - by rewrite length_insert.
  - apply Forall_insert; [done|]. apply u8_range.
  - apply u64_range.
  - unfold UART_TX_BUF_SIZE in *. lia.
  - rewrite Hf, <- app_assoc. f_equal. unfold pending. rewrite Hc'.
    replace (Z.to_nat (tx_count s + 1)) with (S (Z.to_nat (tx_count s))) by lia.
    symmetry. by apply (window_push UART_TX_BUF_SIZE (2 ^ 64)).
  - intros Hne. specialize (Hwt Hne). lia.
Qed.

(** A byte taken from the ring and handed to the transmitter. *)
Definition send_tx (s : uart) : uart :=
  let c := tx_buf s !!! slot (tx_r s) in
  let d := udev s in
  Uart (ut_lock s) (tx_buf s) (tx_w s) (u64 (tx_r s + 1)) (panicked s)
       (Dev (pace d) (pace d) (txirq d || bool_decide (pace d = 0%nat)) (line d ++ [u8 c]) (rx d) (wrote d))
       [] (queued s) (started s ++ [c]).

Lemma send_tx_ok s : uart_ok s -> 0 < tx_count s ->
  uart_ok (send_tx s) /\ tx_count (send_tx s) = tx_count s - 1 /\ alive (udev (send_tx s)).
Proof.
  intros Hok Hlt. destruct uart_ring as (Hp & HW & Hdv). pose proof (tx_count_range s).
  destruct Hok as [Hl Hb Hw Hr Hc Hf Hln Hwt].
  assert (tx_count (send_tx s) = tx_count s - 1) as Hc' by (by apply (dist_pop UART_TX_BUF_SIZE (2 ^ 64))).
  assert (byte_range (tx_buf s !!! slot (tx_r s))) as Hbyte.
  { apply Forall_lookup_total_1; [done|]. rewrite Hl. unfold slot.
    apply Z2Nat.inj_lt; try lia; apply Z.mod_pos_bound; lia. }
  split_and!; [|done|].
  - split; simpl; try done.
    + apply u64_range.
    + unfold UART_TX_BUF_SIZE in *. lia.
    + rewrite Hf, <- app_assoc. f_equal. unfold pending. rewrite Hc'.
      replace (Z.to_nat (tx_count s)) with (S (Z.to_nat (tx_count s - 1))) by lia.
      by apply (window_pop UART_TX_BUF_SIZE (2 ^ 64)).
    + rewrite u8_small by exact Hbyte. by apply sublist_app.
  - unfold alive. simpl. destruct (pace (udev s)); [right; apply orb_true_r | left; lia].
Qed.

(** ** What the calls do *)

Lemma lsr_idle d : exists v, read_lsr d = Ret v (tick d) /\
  (Z.land v LSR_TX_IDLE =? 0) = negb (bool_decide (busy d = 0%nat)) /\
  (Z.land v 1 =? 0) = bool_decide (rx d = []).
Proof.
  eexists. split; [reflexivity|].
  destruct (decide (busy d = 0%nat)) as [E1|E1], (decide (rx d = [])) as [E2|E2].
  - by rewrite !bool_decide_eq_true_2.
  - by rewrite bool_decide_eq_true_2, bool_decide_eq_false_2.
  - by rewrite bool_decide_eq_false_2, bool_decide_eq_true_2.
  - by rewrite !bool_decide_eq_false_2.
Qed.

Lemma tick_line d : line (tick d) = line d.
Proof. unfold tick. by destruct (busy d) as [|[|n]]. Qed.

Lemma tick_rx d : rx (tick d) = rx d.
Proof. unfold tick. by destruct (busy d) as [|[|n]]. Qed.

Lemma tick_alive d : (0 < busy d)%nat -> alive (tick d).
Proof. unfold tick, alive. destruct (busy d) as [|[|n]]; simpl; auto with lia. Qed.

Lemma tick_idle d : busy d = 0%nat -> tick d = d.
Proof. unfold tick. by intros ->. Qed.

Lemma tick_keeps d : alive d -> alive (tick d).
Proof.
  intros [Hb|Hi]; [by apply tick_alive|]. unfold tick, alive.
  destruct (busy d) as [|[|n]]; simpl; auto.
Qed.

Definition same_tx (s s' : uart) : Prop :=
  ut_lock s' = ut_lock s /\ panicked s' = panicked s /\ queued s' = queued s /\
  (waiting s' = waiting s \/ waiting s' = []).

Lemma uartstart_loop_spec n s :
  uart_ok s -> tx_count s <= Z.of_nat n ->
  exists s', uartstart_loop (S n) s = Ret tt s' /\ uart_ok s' /\ same_tx s s' /\
    (pending s' <> [] -> alive (udev s')).
Proof.
  revert s. induction n as [|n IH]; intros s Hok Hn; pose proof (tx_count_range s);
    change (uartstart_loop (S ?m)) with (s ← gets id;
      if tx_w s =? tx_r s then zoom udevL read_isr else
      v ← zoom udevL read_lsr;
      if Z.land v LSR_TX_IDLE =? 0 then mret tt else
      c ← gets (fun s => tx_buf s !!! slot (tx_r s));
      modify (fun s => Uart (ut_lock s) (tx_buf s) (tx_w s) (u64 (tx_r s + 1)) (panicked s) (udev s)
                       [] (queued s) (started s ++ [c]));;
      zoom udevL (write_thr c);;
      uartstart_loop m);
    erewrite bind_ret by reflexivity; unfold id; rewrite empty_tx by done.
  - replace (tx_count s =? 0) with true by lia. eexists. split; [reflexivity|]. split_and!.
    + apply uart_ok_dev; [done | apply Hok].
    + by repeat split; left.
    + intros Hp. destruct Hp. apply pending_nil. change (tx_count s = 0). lia.
  - destruct (tx_count s =? 0) eqn:E; bcase.
    { eexists. split; [reflexivity|]. split_and!.
      + apply uart_ok_dev; [done | apply Hok].
      + by repeat split; left.
      + intros Hp. destruct Hp. apply pending_nil. change (tx_count s = 0). lia. }
    destruct (lsr_idle (udev s)) as (v & Hv & Hidle & _).
    erewrite bind_ret by (by apply zoom_dev). rewrite Hidle.
    assert (uart_ok (with_dev (tick (udev s)) s)) as Hok1.
    { apply uart_ok_dev; [done|]. rewrite tick_line. apply Hok. }
    destruct (decide (busy (udev s) = 0%nat)) as [Hb|Hb].
    + rewrite bool_decide_eq_true_2 by done. cbn [negb].
      rewrite tick_idle by done. replace (with_dev (udev s) s) with s by (by destruct s).
      erewrite bind_ret by reflexivity. erewrite bind_ret by reflexivity. erewrite bind_ret by reflexivity.
      destruct (send_tx_ok s Hok ltac:(lia)) as (Hok2 & Hc2 & Hal).
      destruct (IH (send_tx s) Hok2 ltac:(lia)) as (s' & He & Hok' & Hsame & Hal').
      exists s'. split_and!; [exact He | done | | done].
      destruct Hsame as (? & ? & ? & Hw). repeat split; try done. right. by destruct Hw as [->| ->].
    + rewrite bool_decide_eq_false_2 by done. cbn [negb].
      eexists. split; [reflexivity|]. split_and!; [exact Hok1 | by repeat split; left |].
      intros _. apply tick_alive. lia.
Qed.

Lemma uartstart_spec s :
  uart_ok s ->
  exists s', uartstart s = Ret tt s' /\ uart_ok s' /\ same_tx s s' /\ (pending s' <> [] -> alive (udev s')).
Proof.
  intros Hok. unfold uartstart. erewrite bind_ret by reflexivity. apply uartstart_loop_spec; [done|].
  pose proof (tx_count_range s). unfold tx_count in *. lia.
Qed.

Lemma lock_eq s : ut_lock s = Free -> acquire ut_lockL s = Ret tt (put ut_lockL Held s).
Proof. intros Hl. unfold acquire. simpl. by rewrite Hl. Qed.
Lemma unlock_eq s : ut_lock s = Held -> release ut_lockL s = Ret tt (put ut_lockL Free s).
Proof. intros Hl. unfold release. simpl. by rewrite Hl. Qed.
Lemma uart_ok_lock l s : uart_ok s -> uart_ok (put ut_lockL l s).
Proof. intros []. by split. Qed.

Lemma halt_eq s : panicked s = false -> halt_if_panicked s = Ret tt s.
Proof. intros Hp. unfold halt_if_panicked. erewrite bind_ret by reflexivity. by rewrite Hp. Qed.

(** [uartputc]: the byte is queued and output attempted, or the ring is full and the
    process sleeps. *)
Lemma uartputc_spec pid c s :
  uart_inv s -> panicked s = false ->
  exists r s', uartputc pid c s = Ret r s' /\ uart_inv s' /\ panicked s' = false /\
    r = negb (tx_count s =? UART_TX_BUF_SIZE) /\
    (if r then queued s' = queued s ++ [u8 c]
     else s' = Uart (ut_lock s) (tx_buf s) (tx_w s) (tx_r s) (panicked s) (udev s)
                 (pid :: waiting s) (queued s) (started s)).
Proof.
  intros [Hok Hl Hal] Hp. unfold uartputc. erewrite bind_ret by (by apply lock_eq).
  erewrite bind_ret by (by apply halt_eq).
  erewrite bind_ret by reflexivity. unfold id.
  pose proof (uart_ok_lock Held _ Hok) as Hok1. rewrite full_tx by done.
  change (tx_count (put ut_lockL Held s)) with (tx_count s).
  destruct (tx_count s =? UART_TX_BUF_SIZE) eqn:E; bcase.
  - exists false. eexists. split.
    { erewrite bind_ret by reflexivity. erewrite bind_ret by (by apply unlock_eq). reflexivity. }
    destruct s as [lk b w r pk d wt q st]; simpl in *; subst. split_and!; try done.
    split; try done. destruct Hok. by split.
  - erewrite (bind_ret _ _ _ tt (put_tx c (put ut_lockL Held s))) by reflexivity.
    destruct (uartstart_spec (put_tx c (put ut_lockL Held s))) as (s2 & He & Hok2 & (Hl2 & Hp2 & Hq2 & _) & Hal2).
    { apply put_tx_ok; [done|]. pose proof (uo_count _ Hok). change (tx_count s < UART_TX_BUF_SIZE). lia. }
    exists true. eexists. split.
    { erewrite bind_ret by exact He. erewrite bind_ret by (by apply unlock_eq; rewrite Hl2). reflexivity. }
    split_and!; try done.
    + split; [by apply uart_ok_lock | done | exact Hal2].
    + simpl in *. congruence.
Qed.

Lemma wait_idle_spec n d : (busy d <= n)%nat ->
  exists d', wait_idle (S n) d = Ret tt d' /\ busy d' = 0%nat /\ pace d' = pace d /\
    line d' = line d /\ rx d' = rx d /\ (alive d -> alive d').
Proof.
  revert d. induction n as [|n IH]; intros d Hn; cbn [wait_idle];
    destruct (lsr_idle d) as (v & Hv & Hidle & _); erewrite bind_ret by exact Hv; rewrite Hidle;
    (destruct (decide (busy d = 0%nat)) as [Hb|Hb];
     [rewrite bool_decide_eq_true_2 by done; cbn [negb]; exists d; rewrite tick_idle by done; by split_and!|]).
  - lia.
  - rewrite bool_decide_eq_false_2 by done. cbn [negb].
    destruct (IH (tick d)) as (d' & He & H1 & H2 & H3 & H4 & H5).
    { unfold tick. destruct (busy d) as [|[|k]]; simpl; lia. }
    exists d'. split_and!; [exact He | done | | by rewrite H3, tick_line | by rewrite H4, tick_rx |].
    + rewrite H2. unfold tick. by destruct (busy d) as [|[|k]].
    + intros _. apply H5, tick_alive. lia.
Qed.

Lemma uartputc_sync_spec c s :
  uart_inv s -> panicked s = false ->
  exists s', uartputc_sync c s = Ret tt s' /\ uart_inv s' /\ panicked s' = false /\
    line (udev s') = line (udev s) ++ [u8 c] /\ queued s' = queued s.
Proof.
  intros [Hok Hl Hal] Hp. unfold uartputc_sync.
  erewrite bind_ret by (by apply halt_eq).
  erewrite bind_ret by reflexivity.
  destruct (wait_idle_spec (busy (udev s)) (udev s)) as (d & He & Hb & Hpc & Hln & Hrx & Hal'); [lia|].
  erewrite bind_ret by (by apply zoom_dev). eexists. split; [by apply zoom_dev|]. split_and!.
  - split; [|done|].
    + apply uart_ok_dev; [|simpl; rewrite Hln; apply sublist_inserts_r, Hok].
      apply uart_ok_dev; [done|]. rewrite Hln. apply Hok.
    + intros _. unfold alive. simpl. destruct (pace d); [right; apply orb_true_r | left; lia].
  - done.
  - simpl. by rewrite Hln.
  - done.
Qed.

Lemma uartintr_tx_spec s :
  uart_inv s -> exists s', uartintr_tx s = Ret tt s' /\ uart_inv s' /\ panicked s' = panicked s /\ queued s' = queued s.
Proof.
  intros [Hok Hl Hal]. unfold uartintr_tx. erewrite bind_ret by (by apply lock_eq).
  destruct (uartstart_spec (put ut_lockL Held s)) as (s2 & He & Hok2 & (Hl2 & Hp2 & Hq2 & _) & Hal2);
    [by apply uart_ok_lock|].
  erewrite bind_ret by exact He. eexists. split; [by apply unlock_eq; rewrite Hl2|].
  split_and!; [|done|done]. split; [by apply uart_ok_lock | done | exact Hal2].
Qed.

(** All waiting input is read, in order. *)
Lemma uartintr_rx_spec d :
  Forall byte_range (rx d) ->
  exists d', uartintr_rx (S (length (rx d))) d = Ret (rx d) d' /\ rx d' = [] /\ line d' = line d /\
    (alive d -> alive d').
Proof.
  remember (rx d) as cs eqn:Hcs. revert d Hcs. induction cs as [|c cs IH]; intros d Hcs Hb;
    cbn [uartintr_rx length]; unfold uartgetc;
    destruct (lsr_idle d) as (v & Hv & _ & Hrx).
  - erewrite bind_ret. 2:{ erewrite bind_ret by exact Hv. rewrite Hrx, <- Hcs. reflexivity. }
    simpl. eexists. split; [reflexivity|]. rewrite tick_rx, tick_line. split_and!; [done | done |].
    apply tick_keeps.
  - erewrite bind_ret. 2:{ erewrite bind_ret by exact Hv. rewrite Hrx, <- Hcs. reflexivity. }
    apply Forall_cons in Hb as [Hc Hb]. rewrite tick_rx, <- Hcs. simpl.
    replace (c =? -1) with false by (unfold byte_range in Hc; lia).
    destruct (IH (Dev (busy (tick d)) (pace (tick d)) (txirq (tick d)) (line (tick d)) cs (wrote (tick d))))
      as (d' & He & H1 & H2 & H3); [done | done |].
    erewrite bind_ret by exact He. exists d'. split_and!; [done | done | by rewrite H2; simpl; rewrite tick_line |].
    intros Ha. apply H3. by apply tick_keeps in Ha.
Qed.

(** ** The system *)

(** Processes print, the kernel prints, the transmitter works, interrupts are
    served, input arrives. *)
Inductive ustep : uart -> uart -> Prop :=
| us_putc pid c r s s' : pid ∉ waiting s -> uartputc pid c s = Ret r s' -> ustep s s'
| us_sync c s s' : uartputc_sync c s = Ret tt s' -> ustep s s'
| us_intr s s' : uartintr_tx s = Ret tt s' -> ustep s s'
| us_tick s : ustep s (with_dev (tick (udev s)) s)
| us_input cs s :
    ustep s (with_dev (Dev (busy (udev s)) (pace (udev s)) (txirq (udev s)) (line (udev s))
                         (rx (udev s) ++ cs) (wrote (udev s))) s).

(** The zeroed driver over a quiet device, and what [uartinit] makes of it. *)
Definition uart_bss (n : nat) : uart :=
  Uart Free (replicate 32 0) 0 0 false (Dev 0 n false [] [] []) [] [] [].
Definition uart_boot (n : nat) : uart :=
  Uart Free (replicate 32 0) 0 0 false
       (Dev 0 n false [] [] [(1, 0); (3, 128); (0, 3); (1, 0); (3, 3); (2, 7); (1, 3)]) [] [] [].

Lemma uartinit_boot n : uartinit (uart_bss n) = Ret tt (uart_boot n).
Proof. reflexivity. Qed.

Lemma uart_inv_boot n : uart_inv (uart_boot n).
Proof.
  split; [|done|intros Hp; by destruct Hp].
  split; simpl; try done. repeat (constructor; [unfold byte_range; lia|]). constructor.
Qed.

Lemma uart_inv_step s s' : uart_inv s -> panicked s = false -> ustep s s' -> uart_inv s' /\ panicked s' = false.
Proof.
  intros Hi Hp Hs. destruct Hs as [pid c r s s' _ He|c s s' He|s s' He|s|cs s].
  - destruct (uartputc_spec pid c s Hi Hp) as (r' & s0 & He' & ? & ? & _). rewrite He in He'. by simplify_eq.
  - destruct (uartputc_sync_spec c s Hi Hp) as (s0 & He' & ? & ? & _). rewrite He in He'. by simplify_eq.
  - destruct (uartintr_tx_spec s Hi) as (s0 & He' & ? & ? & _). rewrite He in He'. simplify_eq. split; congruence.
  - split; [|done]. destruct Hi as [Hok Hl Hal]. split; [|done|].
    + apply uart_ok_dev; [done|]. rewrite tick_line. apply Hok.
    + intros Hne. by apply tick_keeps, Hal.
  - split; [|done]. destruct Hi as [Hok Hl Hal]. split; [|done | exact Hal].
    apply uart_ok_dev; [done|]. apply Hok.
Qed.

Lemma uart_inv_reachable n s : rtc ustep (uart_boot n) s -> uart_inv s /\ panicked s = false.
Proof.
  intros Hr. assert (uart_inv (uart_boot n) /\ panicked (uart_boot n) = false) as H0 by (split; [apply uart_inv_boot | done]).
  induction Hr as [|s1 s2 s3 Hs _ IH]; [done|]. apply IH. destruct H0. by eapply uart_inv_step.
Qed.

(** ** Properties *)

(** C36: output is complete and in order.  However calls by processes, kernel prints,
    interrupts, input and the transmitter interleave, each call being one step: the bytes [uartputc] accepted
    are those already handed to the transmitter, in order, followed by the at most
    32 in the ring; a process waits for room only while the ring is full; and when
    the ring is not empty, the transmitter is busy or its interrupt is pending, so
    the rest will be sent without further calls. *)
Theorem uart_output n s :
  rtc ustep (uart_boot n) s ->
  queued s = started s ++ pending s /\ started s `sublist_of` line (udev s) /\
  Z.of_nat (length (pending s)) <= UART_TX_BUF_SIZE /\
  (waiting s <> [] -> Z.of_nat (length (pending s)) = UART_TX_BUF_SIZE) /\
  (pending s <> [] -> (0 < busy (udev s))%nat \/ txirq (udev s) = true).
Proof.
  intros Hr. destruct (uart_inv_reachable n s Hr) as [[Hok _ Hal] _].
  rewrite length_pending. destruct Hok. by split_and!.
Qed.

Definition after (r : outcome uart bool) (s : uart) : uart := match r with Ret _ s' => s' | _ => s end.
Definition demo_uart1 : uart := after (uartputc 1 72 (uart_boot 5)) (uart_boot 5).
Definition demo_uart : uart := after (uartputc 1 105 demo_uart1) demo_uart1.

Lemma demo_uart_reachable : rtc ustep (uart_boot 5) demo_uart.
Proof.
  apply rtc_l with demo_uart1.
  { apply (us_putc 1 72 true); [apply not_elem_of_nil | vm_compute; reflexivity]. }
  apply rtc_l with demo_uart; [|apply rtc_refl].
  apply (us_putc 1 105 true); [|vm_compute; reflexivity].
  assert (waiting demo_uart1 = []) as -> by (vm_compute; reflexivity). apply not_elem_of_nil.
Qed.

Lemma uart_output_witness :
  pending demo_uart = [105] /\ ((0 < busy (udev demo_uart))%nat \/ txirq (udev demo_uart) = true).
Proof.
  assert (pending demo_uart = [105]) as Hp by (vm_compute; reflexivity).
  split; [exact Hp|]. apply (uart_output 5 demo_uart demo_uart_reachable). rewrite Hp. discriminate.
Defined.

(** The calls return.  In every reachable state [uartputc_sync] waits for the
    transmitter and hands it the byte, [uartputc] queues the byte or, exactly when the
    ring is full, sleeps, and an interrupt reads all the waiting input in order. *)
Theorem uart_calls n s c pid :
  rtc ustep (uart_boot n) s ->
  (exists s', uartputc_sync c s = Ret tt s' /\ line (udev s') = line (udev s) ++ [u8 c]) /\
  (exists s', uartputc pid c s = Ret (negb (Z.of_nat (length (pending s)) =? UART_TX_BUF_SIZE)) s') /\
  (Forall byte_range (rx (udev s)) ->
   exists d, uartintr_rx (S (length (rx (udev s)))) (udev s) = Ret (rx (udev s)) d /\ rx d = []) /\
  (exists s', uartintr_tx s = Ret tt s').
Proof.
  intros Hr. destruct (uart_inv_reachable n s Hr) as [Hi Hp]. rewrite length_pending. split_and!.
  - destruct (uartputc_sync_spec c s Hi Hp) as (s' & ? & _ & _ & ? & _). eauto.
  - destruct (uartputc_spec pid c s Hi Hp) as (r & s' & He & _ & _ & -> & _). eauto.
  - intros Hb. destruct (uartintr_rx_spec (udev s) Hb) as (d & ? & ? & _). eauto.
  - destruct (uartintr_tx_spec s Hi) as (s' & ? & _). eauto.
Qed.

Lemma uart_calls_witness : exists s', uartputc_sync 33 demo_uart = Ret tt s' /\ line (udev s') = [72; 33].
Proof.
  destruct (uart_calls 5 demo_uart 33 1 demo_uart_reachable) as [(s' & He & Hl) _].
  exists s'. split; [exact He|]. rewrite Hl. vm_compute. reflexivity.
Defined.
