(* ===== verification/Console.v ===== *)
(** * Console: line input and output, [kernel/console.c]

    The input ring has three counters: bytes from [r] to [w] are complete lines
    ready for [consoleread], bytes from [w] to [e] are the line being edited.
    Echoed characters go through [consputc] to the UART of [Uart].  As in [Pipe], a
    call to [consoleread] runs with the lock from its entry or wake-up to the next
    sleep or return.

    The theorems: [consoleintr] is the line editor described by [edit], on lists
    instead of counters that wrap around; readers get complete lines in order, each
    read ending after a newline, before or at an end-of-file character, or when the
    count is reached; a reader sleeps only while no line is complete. *)

From S2P Require Import Prelude Ring Uart.

Definition BACKSPACE : Z := 256.
Definition INPUT_BUF_SIZE : Z := 128.

(** [C(x)]: control-[x]; the characters the driver knows. *)
Definition C (x : Z) : Z := x - 64.
Definition ctl_D : Z := C 68.
Definition ctl_H : Z := C 72.
Definition ctl_P : Z := C 80.
Definition ctl_U : Z := C 85.
Definition DEL : Z := 127.
Definition NL : Z := 10.
Definition CR : Z := 13.

Definition consputc (c : Z) : M uart unit :=
  if c =? BACKSPACE then
    uartputc_sync 8;; uartputc_sync 32;; uartputc_sync 8
  else uartputc_sync c.

Record cons := Cons {
  c_lock : spin;
  c_buf : list Z;
  c_r : Z;
  c_w : Z;
  c_e : Z;
  c_wait : list nat;   (* asleep on &cons.r *)
  c_got : list Z;      (* bytes copied out to readers *)
  c_tty : uart
}.

Definition c_lockL : lens cons spin :=
  Lens c_lock (fun l s => Cons l (c_buf s) (c_r s) (c_w s) (c_e s) (c_wait s) (c_got s) (c_tty s)).
Definition c_ttyL : lens cons uart :=
  Lens c_tty (fun u s => Cons (c_lock s) (c_buf s) (c_r s) (c_w s) (c_e s) (c_wait s) (c_got s) u).

Definition set_e (e : Z) (s : cons) : cons :=
  Cons (c_lock s) (c_buf s) (c_r s) (c_w s) (u32 e) (c_wait s) (c_got s) (c_tty s).
Definition set_r (r : Z) (s : cons) : cons :=
  Cons (c_lock s) (c_buf s) (u32 r) (c_w s) (c_e s) (c_wait s) (c_got s) (c_tty s).

Definition islot (x : Z) : nat := Z.to_nat (x mod INPUT_BUF_SIZE).

(** ** The interrupt handler *)

(** The loop of the kill-line character. *)
Fixpoint kill_line (fuel : nat) : M cons unit :=
  match fuel with
  | O => fun _ => NoFuel
  | S fuel =>
    s ← gets id;
    if negb (c_e s =? c_w s) && negb (c_buf s !!! islot (u32 (c_e s - 1)) =? NL) then
      modify (set_e (c_e s - 1));;
      zoom c_ttyL (consputc BACKSPACE);;
      kill_line fuel
    else mret tt
  end.

Definition consoleintr (procdump : M uart unit) (c : Z) : M cons unit :=
  acquire c_lockL;;
  (if c =? ctl_P then zoom c_ttyL procdump
   else if c =? ctl_U then
     n ← gets (fun s => Z.to_nat (u32 (c_e s - c_w s)));
     kill_line (S n)
   else if (c =? ctl_H) || (c =? DEL) then
     s ← gets id;
     when (negb (c_e s =? c_w s)) (
       modify (set_e (c_e s - 1));;
       zoom c_ttyL (consputc BACKSPACE))
   else
     s ← gets id;
     when (negb (c =? 0) && (u32 (c_e s - c_r s) <? INPUT_BUF_SIZE)) (
       let c := if c =? CR then NL else c in
       zoom c_ttyL (consputc c);;
       modify (fun s => Cons (c_lock s) (<[islot (c_e s) := u8 c]> (c_buf s)) (c_r s) (c_w s)
                          (u32 (c_e s + 1)) (c_wait s) (c_got s) (c_tty s));;
       s ← gets id;
       when ((c =? NL) || (c =? ctl_D) || (u32 (c_e s - c_r s) =? INPUT_BUF_SIZE)) (
         modify (fun s => Cons (c_lock s) (c_buf s) (c_r s) (c_e s) (c_e s) [] (c_got s) (c_tty s)))));;
  release c_lockL.

(** ** Reading and writing *)

Inductive cres := Asleep (dst n : Z) | Done (r : Z).
Inductive wres := WAsleep (i c : Z) | WDone (r : Z).

Section Calls.
Variables (pid : nat) (killed : bool).
Variable copyout : Z -> bool.   (* either_copyout of one byte succeeds *)
Variable copyin : Z -> option Z.   (* either_copyin of one byte *)

Definition read_finish (target n : Z) : M cons cres := release c_lockL;; mret (Done (target - n)).

(** The loop with [n] bytes to go; [k] is its length. *)
Fixpoint consoleread_loop (target dst n : Z) (k : nat) : M cons cres :=
  match k with
  | O => read_finish target n
  | S k =>
    s ← gets id;
    if c_r s =? c_w s then
      if killed then release c_lockL;; mret (Done (-1)) else
      modify (fun s => Cons (c_lock s) (c_buf s) (c_r s) (c_w s) (c_e s) (pid :: c_wait s) (c_got s) (c_tty s));;
      release c_lockL;;
      mret (Asleep dst n)
    else
    let c := c_buf s !!! islot (c_r s) in
    modify (set_r (c_r s + 1));;
    if c =? ctl_D then
      when (n <? target) (modify (fun s => set_r (c_r s - 1) s));;
      read_finish target n
    else if negb (copyout dst) then read_finish target n else
    modify (fun s => Cons (c_lock s) (c_buf s) (c_r s) (c_w s) (c_e s) (c_wait s) (c_got s ++ [c]) (c_tty s));;
    if c =? NL then read_finish target (n - 1) else
    consoleread_loop target (u64 (dst + 1)) (n - 1) k
  end.

(** [consoleread] of [target] bytes, from the entry ([n = target]) or from a wake-up
    with [n] bytes to go. *)
Definition consoleread (target dst n : Z) : M cons cres :=
  acquire c_lockL;;
  consoleread_loop target dst n (Z.to_nat n).

(** [consolewrite] in round [i] with [n] rounds to go.  A round that finds the
    transmit ring full sleeps in [uartputc] with the byte at hand, and goes on with
    it ([held]) when woken. *)
Fixpoint consolewrite (src i : Z) (held : option Z) (n : nat) : M uart wres :=
  match n with
  | O => mret (WDone i)
  | S n' =>
    match (match held with Some c => Some c | None => copyin (u64 (src + i)) end) with
    | None => mret (WDone i)
    | Some c =>
      ok ← uartputc pid c;
      if (ok : bool) then consolewrite src (i + 1) None n' else mret (WAsleep i c)
    end
  end.
End Calls.

(** [consoleinit] connects the device switch; what remains is the zeroed structure
    over an initialised UART. *)
Definition cons_boot (n : nat) : cons :=
  Cons Free (replicate 128 0) 0 0 0 [] [] (uart_boot n).

(** ** The line editor *)

(** Complete lines, and the line being edited. *)
Definition lines (s : cons) : list Z :=
  window INPUT_BUF_SIZE (c_buf s) (c_r s) (Z.to_nat (u32 (c_w s - c_r s))).
Definition editing (s : cons) : list Z :=
  window INPUT_BUF_SIZE (c_buf s) (c_w s) (Z.to_nat (u32 (c_e s - c_w s))).

(** What a character does to them. *)
Definition edit (c : Z) (l : list Z * list Z) : list Z * list Z :=
  let '(done, cur) := l in
  if c =? ctl_P then (done, cur)
  else if c =? ctl_U then (done, [])
  else if (c =? ctl_H) || (c =? DEL) then (done, take (length cur - 1) cur)
  else if negb (c =? 0) && (Z.of_nat (length done + length cur) <? INPUT_BUF_SIZE) then
    let c := if c =? CR then NL else c in
    if (c =? NL) || (c =? ctl_D) || (Z.of_nat (length done + length cur) + 1 =? INPUT_BUF_SIZE)
    then (done ++ cur ++ [c], []) else (done, cur ++ [c])
  else (done, cur).

Record cons_ok (s : cons) : Prop := {
  co_len : length (c_buf s) = Z.to_nat INPUT_BUF_SIZE;
  co_r : 0 <= c_r s < 2 ^ 32;
  co_w : 0 <= c_w s < 2 ^ 32;
  co_e : 0 <= c_e s < 2 ^ 32;
  co_sum : u32 (c_w s - c_r s) + u32 (c_e s - c_w s) = u32 (c_e s - c_r s);
  co_max : u32 (c_e s - c_r s) <= INPUT_BUF_SIZE;
  co_clean : NL ∉ editing s;
  co_wait : c_wait s <> [] -> lines s = []
}.

Record cons_inv (s : cons) : Prop := {
  ci_ok : cons_ok s;
  ci_lock : c_lock s = Free;
  ci_tty : uart_inv (c_tty s) /\ panicked (c_tty s) = false
}.

(** ** The counters *)

Lemma cons_ring : 0 < INPUT_BUF_SIZE /\ INPUT_BUF_SIZE < 2 ^ 32 /\ (INPUT_BUF_SIZE | 2 ^ 32).
Proof. unfold INPUT_BUF_SIZE. split_and!; [lia | lia | by exists (2 ^ 25)]. Qed.

Abbreviation cdist := (dist (2 ^ 32)).

Lemma u32_dist a b : u32 (a - b) = cdist a b.
Proof. done. Qed.

Lemma cdist_range a b : 0 <= cdist a b < 2 ^ 32.
Proof. apply u32_range. Qed.

(** Everything in the ring: complete lines, then the line being edited. *)
Definition all_input (s : cons) : list Z :=
  window INPUT_BUF_SIZE (c_buf s) (c_r s) (Z.to_nat (cdist (c_e s) (c_r s))).

Lemma input_split s : cons_ok s -> all_input s = lines s ++ editing s.
Proof.
  intros Hok. destruct cons_ring as (? & ? & ?). pose proof (co_sum _ Hok) as Hs. rewrite !u32_dist in Hs.
  pose proof (cdist_range (c_w s) (c_r s)). pose proof (cdist_range (c_e s) (c_w s)).
  unfold all_input, lines, editing. rewrite !u32_dist, <- Hs, Z2Nat.inj_add by lia.
  rewrite (window_app INPUT_BUF_SIZE (2 ^ 32)) by done. do 3 f_equal.
  rewrite Z2Nat.id by lia. unfold dist. rewrite Zplus_mod_idemp_r.
  replace (c_r s + (c_w s - c_r s)) with (c_w s) by lia. apply Z.mod_small, Hok.
Qed.

Lemma length_lines s : Z.of_nat (length (lines s)) = cdist (c_w s) (c_r s).
Proof. unfold lines. rewrite length_window, u32_dist. pose proof (cdist_range (c_w s) (c_r s)). lia. Qed.
Lemma length_editing s : Z.of_nat (length (editing s)) = cdist (c_e s) (c_w s).
Proof. unfold editing. rewrite length_window, u32_dist. pose proof (cdist_range (c_e s) (c_w s)). lia. Qed.
Lemma length_both s : cons_ok s -> Z.of_nat (length (lines s) + length (editing s)) = u32 (c_e s - c_r s).
Proof. intros Hok. rewrite Nat2Z.inj_add, length_lines, length_editing. apply Hok. Qed.

Lemma editing_empty s : cons_ok s -> (c_e s =? c_w s) = (Z.of_nat (length (editing s)) =? 0).
Proof.
  intros Hok. destruct cons_ring as (? & ? & ?). rewrite length_editing, Z.eqb_sym.
  apply (dist_empty INPUT_BUF_SIZE (2 ^ 32)); [done | done | apply Hok | apply Hok].
Qed.

Lemma lines_empty s : cons_ok s -> (c_r s =? c_w s) = (Z.of_nat (length (lines s)) =? 0).
Proof.
  intros Hok. destruct cons_ring as (? & ? & ?). rewrite length_lines.
  apply (dist_empty INPUT_BUF_SIZE (2 ^ 32)); [done | done | apply Hok | apply Hok].
Qed.

(** [s] with another UART, lock, or set of waiting processes. *)
Lemma cons_ok_frame s l u g q :
  cons_ok s -> (q <> [] -> lines s = []) ->
  cons_ok (Cons l (c_buf s) (c_r s) (c_w s) (c_e s) q g u).
Proof. intros [] ?. by split. Qed.

(** Erase the last character of the line. *)
Lemma erase_ok s : cons_ok s -> editing s <> [] ->
  cons_ok (set_e (c_e s - 1) s) /\ lines (set_e (c_e s - 1) s) = lines s /\
  editing (set_e (c_e s - 1) s) = take (length (editing s) - 1) (editing s).
Proof.
  intros Hok Hne. destruct cons_ring as (Hp & HW & Hdv).
  assert (0 < cdist (c_e s) (c_w s)) as Hpos.
  { rewrite <- length_editing. destruct (editing s); [done | simpl; lia]. }
  pose proof (co_sum _ Hok) as Hs. rewrite !u32_dist in Hs. pose proof (cdist_range (c_w s) (c_r s)).
  assert (cdist (u32 (c_e s - 1)) (c_w s) = cdist (c_e s) (c_w s) - 1) as H1
    by (by apply (dist_unpush INPUT_BUF_SIZE)).
  assert (cdist (u32 (c_e s - 1)) (c_r s) = cdist (c_e s) (c_r s) - 1) as H2
    by (apply (dist_unpush INPUT_BUF_SIZE); lia).
  assert (editing (set_e (c_e s - 1) s) = take (length (editing s) - 1) (editing s)) as He.
  { unfold editing at 1. simpl. rewrite u32_dist, H1. unfold editing. rewrite window_take by (rewrite length_window; lia).
    rewrite length_window. f_equal. rewrite u32_dist. lia. }
  split_and!; [|done|done].
  destruct Hok. split; simpl; try done; rewrite ?u32_dist in *.
  - apply u32_range.
  - lia.
  - lia.
  - rewrite He. intros Hin. by apply in_take in Hin.
Qed.

(** Append a character to the line. *)
Definition add_char (c : Z) (s : cons) : cons :=
  Cons (c_lock s) (<[islot (c_e s) := u8 c]> (c_buf s)) (c_r s) (c_w s)
       (u32 (c_e s + 1)) (c_wait s) (c_got s) (c_tty s).

Lemma add_char_lists c s : cons_ok s -> u32 (c_e s - c_r s) < INPUT_BUF_SIZE ->
  lines (add_char c s) = lines s /\ editing (add_char c s) = editing s ++ [u8 c] /\
  u32 (c_e (add_char c s) - c_r s) = u32 (c_e s - c_r s) + 1 /\
  u32 (c_e (add_char c s) - c_w s) = u32 (c_e s - c_w s) + 1.
Proof.
  intros Hok Hlt. destruct cons_ring as (Hp & HW & Hdv). pose proof (co_sum _ Hok) as Hs. rewrite !u32_dist in *.
  pose proof (cdist_range (c_w s) (c_r s)). pose proof (cdist_range (c_e s) (c_w s)).
  assert (cdist (u32 (c_e s + 1)) (c_r s) = cdist (c_e s) (c_r s) + 1) as H2
    by (apply (dist_push INPUT_BUF_SIZE); unfold INPUT_BUF_SIZE in *; lia).
  assert (cdist (u32 (c_e s + 1)) (c_w s) = cdist (c_e s) (c_w s) + 1) as H1
    by (apply (dist_push INPUT_BUF_SIZE); unfold INPUT_BUF_SIZE in *; lia).
  assert (window INPUT_BUF_SIZE (c_buf (add_char c s)) (c_r s) (S (Z.to_nat (cdist (c_e s) (c_r s))))
          = lines s ++ editing s ++ [u8 c]) as Hall.
  { rewrite app_assoc, <- input_split by done. apply (window_push INPUT_BUF_SIZE (2 ^ 32)); try done. apply Hok. }
  replace (S (Z.to_nat (cdist (c_e s) (c_r s))))
    with (Z.to_nat (cdist (c_w s) (c_r s)) + S (Z.to_nat (cdist (c_e s) (c_w s))))%nat in Hall by lia.
  rewrite (window_app INPUT_BUF_SIZE (2 ^ 32)) in Hall by done.
  apply app_inj_1 in Hall as [Ha Hb].
  2:{ rewrite length_window. pose proof (length_lines s). lia. }
  split_and!; [exact Ha | | exact H2 | exact H1].
  rewrite <- Hb. unfold editing. simpl c_w. simpl c_e. rewrite u32_dist, H1.
  replace (Z.to_nat (cdist (c_e s) (c_w s) + 1)) with (S (Z.to_nat (cdist (c_e s) (c_w s)))) by lia.
  f_equal. rewrite Z2Nat.id by lia. unfold dist. rewrite Zplus_mod_idemp_r.
  replace (c_r s + (c_w s - c_r s)) with (c_w s) by lia. symmetry. apply Z.mod_small, Hok.
Qed.

Lemma add_char_ok c s : cons_ok s -> u32 (c_e s - c_r s) < INPUT_BUF_SIZE -> u8 c <> NL ->
  cons_ok (add_char c s).
Proof.
  intros Hok Hlt Hc. destruct (add_char_lists c s Hok Hlt) as (Hl & He & H1 & H2).
  destruct Hok as [Hlen Hr Hw Hee Hsum Hmax Hcl Hwt]. split; simpl; try done.
  - by rewrite length_insert.
  - apply u32_range.
  - simpl in H1, H2. lia.
  - simpl in H1. lia.
  - rewrite He. intros [?|Hin]%elem_of_app; [done|]. apply list_elem_of_singleton in Hin. done.
  - intros Hne. rewrite Hl. by apply Hwt.
Qed.

(** Complete the line and wake the readers. *)
Definition complete (s : cons) : cons :=
  Cons (c_lock s) (c_buf s) (c_r s) (c_e s) (c_e s) [] (c_got s) (c_tty s).

Lemma complete_ok c s : cons_ok s -> u32 (c_e s - c_r s) < INPUT_BUF_SIZE ->
  cons_ok (complete (add_char c s)) /\
  lines (complete (add_char c s)) = lines s ++ editing s ++ [u8 c] /\ editing (complete (add_char c s)) = [].
Proof.
  intros Hok Hlt. destruct cons_ring as (Hp & HW & Hdv). destruct (add_char_lists c s Hok Hlt) as (Hl & He & H1 & H2).
  assert (cdist (u32 (c_e s + 1)) (u32 (c_e s + 1)) = 0) as H0 by (unfold dist; by rewrite Z.sub_diag).
  assert (editing (complete (add_char c s)) = []) as Hed.
  { unfold editing. simpl. by rewrite u32_dist, H0. }
  split_and!; [| |done].
  - destruct Hok as [Hlen Hr Hw Hee Hsum Hmax Hcl Hwt]. split; try done; simpl.
    + by rewrite length_insert.
    + apply u32_range.
    + apply u32_range.
    + rewrite !u32_dist, H0. lia.
    + simpl in H1. lia.
    + rewrite Hed. apply not_elem_of_nil.
  - rewrite app_assoc, <- input_split by done. unfold lines. simpl.
    rewrite u32_dist. simpl in H1. rewrite !u32_dist in H1. rewrite H1.
    pose proof (cdist_range (c_e s) (c_r s)).
    replace (Z.to_nat (cdist (c_e s) (c_r s) + 1)) with (S (Z.to_nat (cdist (c_e s) (c_r s)))) by lia.
    apply (window_push INPUT_BUF_SIZE (2 ^ 32)); try done. apply Hok.
Qed.

(** ** The interrupt handler is the line editor *)

Definition tty_ok (u : uart) : Prop := uart_inv u /\ panicked u = false.

(** A routine that only prints. *)
Definition prints (m : M uart unit) : Prop := forall u, tty_ok u -> wp m (fun _ u' => tty_ok u') u.

Lemma prints_sync c : prints (uartputc_sync c).
Proof.
  intros u [Hi Hp]. destruct (uartputc_sync_spec c u Hi Hp) as (u' & He & Hi' & Hp' & _).
  by eapply wp_intro.
Qed.

Lemma prints_seq m1 m2 : prints m1 -> prints m2 -> prints (m1;; m2).
Proof. intros H1 H2 u Hu. apply wp_bind. eapply wp_mono; [|by apply H1]. intros [] u' Hu'. by apply H2. Qed.

Lemma prints_consputc c : prints (consputc c).
Proof.
  unfold consputc. destruct (c =? BACKSPACE); [|apply prints_sync].
  apply prints_seq; [apply prints_sync|]. apply prints_seq; apply prints_sync.
Qed.

Lemma wp_lock s (Q : unit -> cons -> Prop) :
  c_lock s = Free -> Q tt (put c_lockL Held s) -> wp (acquire c_lockL) Q s.
Proof. intros Hl HQ. unfold wp, acquire. simpl. by rewrite Hl. Qed.
Lemma wp_unlock s (Q : unit -> cons -> Prop) :
  c_lock s = Held -> Q tt (put c_lockL Free s) -> wp (release c_lockL) Q s.
Proof. intros Hl HQ. unfold wp, release. simpl. by rewrite Hl. Qed.

(** The state inside the handler. *)
Definition working (s : cons) : Prop := cons_ok s /\ c_lock s = Held /\ tty_ok (c_tty s).

Lemma wp_tty m s (Q : unit -> cons -> Prop) :
  prints m -> tty_ok (c_tty s) -> (forall u, tty_ok u -> Q tt (put c_ttyL u s)) -> wp (zoom c_ttyL m) Q s.
Proof. intros Hm Hu HQ. apply wp_zoom. eapply wp_mono; [|by apply Hm]. intros [] u Hu'. by apply HQ. Qed.

Lemma working_tty u s : working s -> tty_ok u ->
  working (put c_ttyL u s) /\ lines (put c_ttyL u s) = lines s /\ editing (put c_ttyL u s) = editing s.
Proof.
  intros (Hok & Hl & _) Hu. split_and!; [|done|done]. split_and!; [|done|done].
  apply cons_ok_frame; [done|]. apply Hok.
Qed.

(** Erase one character and show it. *)
Lemma wp_erase s (Q : unit -> cons -> Prop) :
  working s -> editing s <> [] ->
  (forall s', working s' -> lines s' = lines s -> c_got s' = c_got s ->
     editing s' = take (length (editing s) - 1) (editing s) -> Q tt s') ->
  wp (modify (set_e (c_e s - 1));; zoom c_ttyL (consputc BACKSPACE)) Q s.
Proof.
  intros (Hok & Hl & Hu) Hne HQ. destruct (erase_ok s Hok Hne) as (Hok' & Hln & Hed).
  apply wp_bind, wp_modify. apply wp_tty; [apply prints_consputc | done |]. intros u Hu'.
  destruct (working_tty u (set_e (c_e s - 1) s)) as (Hw & H1 & H2); [by split_and!| done|].
  apply HQ; [done | by rewrite H1 | done | by rewrite H2].
Qed.

Lemma kill_line_spec n s (Q : unit -> cons -> Prop) :
  working s -> (length (editing s) <= n)%nat ->
  (forall s', working s' -> lines s' = lines s -> c_got s' = c_got s -> editing s' = [] -> Q tt s') ->
  wp (kill_line (S n)) Q s.
Proof.
  revert s. induction n as [|n IH]; intros s Hw Hn HQ.
  - assert (editing s = []) as He by (destruct (editing s); [done | simpl in Hn; lia]).
    cbn [kill_line]. apply wp_bind, wp_gets. unfold id.
    rewrite editing_empty, He by apply Hw. simpl. by apply wp_ret, HQ.
  - change (kill_line (S (S n))) with (s ← gets id;
      if negb (c_e s =? c_w s) && negb (c_buf s !!! islot (u32 (c_e s - 1)) =? NL) then
        modify (set_e (c_e s - 1));; zoom c_ttyL (consputc BACKSPACE);; kill_line (S n) else mret tt).
    apply wp_bind, wp_gets. unfold id. rewrite editing_empty by apply Hw.
    destruct (decide (editing s = [])) as [He|He].
    { rewrite He. simpl. by apply wp_ret, HQ. }
    assert (0 < length (editing s))%nat by (destruct (editing s); [done | simpl; lia]).
    replace (Z.of_nat (length (editing s)) =? 0) with false by lia.
    assert (c_buf s !!! islot (u32 (c_e s - 1)) ∈ editing s) as Hin.
    { destruct cons_ring as (? & ? & ?). unfold islot, editing.
      pose proof (length_editing s) as Hle. pose proof (cdist_range (c_e s) (c_w s)).
      rewrite (u32_dist (c_e s) (c_w s)). replace (Z.to_nat (cdist (c_e s) (c_w s))) with (S (Z.to_nat (cdist (c_e s) (c_w s) - 1))) by lia.
      rewrite window_snoc. apply elem_of_app. right. apply list_elem_of_singleton. do 2 f_equal.
      rewrite (slot_of INPUT_BUF_SIZE (2 ^ 32) (ltac:(done)) (u32 (c_e s - 1)) (c_w s)). do 2 f_equal.
      rewrite Z2Nat.id by lia. apply (dist_unpush INPUT_BUF_SIZE); [done | done | lia]. }
    destruct (c_buf s !!! islot (u32 (c_e s - 1)) =? NL) eqn:E; bcase.
    { rewrite E in Hin. by destruct (co_clean _ (proj1 Hw)). }
    cbn [negb andb].
    assert (wp ((modify (set_e (c_e s - 1));; zoom c_ttyL (consputc BACKSPACE));; kill_line (S n)) Q s) as Hgoal.
    { apply wp_bind. apply wp_erase; [done | done |]. intros s' Hw' Hl' Hg' He'.
      apply IH; [done | rewrite He', length_take; lia |]. intros s'' Hw'' Hl'' Hg'' He''.
      apply HQ; [done | congruence | congruence | done]. }
    revert Hgoal. unfold wp, mbind, M_bind. simpl. done.
Qed.

Lemma consoleintr_spec procdump c s :
  prints procdump -> cons_inv s -> 0 <= c < 256 ->
  exists s', consoleintr procdump c s = Ret tt s' /\ cons_inv s' /\ c_got s' = c_got s /\
    (lines s', editing s') = edit c (lines s, editing s).
Proof.
  intros Hpd [Hok Hlk Htty] Hc.
  enough (wp (consoleintr procdump c) (fun _ s' => cons_inv s' /\ c_got s' = c_got s /\
    (lines s', editing s') = edit c (lines s, editing s)) s) as Hw
    by (apply wp_elim in Hw as ([] & s' & ? & ?); eauto).
  unfold consoleintr. apply wp_bind, wp_lock; [done|].
  set (s1 := put c_lockL Held s).
  assert (working s1 /\ lines s1 = lines s /\ editing s1 = editing s /\ c_got s1 = c_got s) as (Hw1 & Hl1 & He1 & Hg1).
  { split_and!; try done. split_and!; [|done|done]. apply cons_ok_frame; [done | apply Hok]. }
  clearbody s1.
  apply wp_bind.
  assert (forall s', working s' -> c_got s' = c_got s -> (lines s', editing s') = edit c (lines s, editing s) ->
    wp (release c_lockL) (fun _ s' => cons_inv s' /\ c_got s' = c_got s /\
      (lines s', editing s') = edit c (lines s, editing s)) s') as Hrel.
  { intros s' (Hok' & Hl' & Hu') Hg' He'. apply wp_unlock; [done|].
    split_and!; [|done|done]. split; [|done|done]. apply cons_ok_frame; [done | apply Hok']. }
  unfold edit in *. rewrite <- Hl1, <- He1, <- Hg1 in *. clear Hok Hlk Htty.
  destruct (c =? ctl_P).
  { apply wp_tty; [done | apply Hw1 |]. intros u Hu. destruct (working_tty u s1 Hw1 Hu) as (Hw2 & H1 & H2).
    by apply Hrel; [| |rewrite H1, H2]. }
  destruct (c =? ctl_U).
  { apply wp_bind, wp_gets. apply kill_line_spec; [done | |].
    - unfold editing. by rewrite length_window.
    - intros s' Hw' Hl' Hg' He'. apply Hrel; [done | done | by rewrite Hl', He']. }
  destruct ((c =? ctl_H) || (c =? DEL)).
  { apply wp_bind, wp_gets. unfold id. rewrite editing_empty by apply Hw1.
    destruct (decide (editing s1 = [])) as [He|He].
    - replace (Z.of_nat (length (editing s1)) =? 0) with true by (by rewrite He).
      apply wp_ret, Hrel; [done | done | by rewrite He].
    - assert (0 < length (editing s1))%nat by (destruct (editing s1); [done | simpl; lia]).
      replace (Z.of_nat (length (editing s1)) =? 0) with false by lia.
      apply wp_erase; [done | done |]. intros s' Hw' Hl' Hg' He'.
      apply Hrel; [done | done | by rewrite Hl', He']. }
  apply wp_bind, wp_gets. unfold id. rewrite length_both in * by apply Hw1.
  destruct (negb (c =? 0) && (u32 (c_e s1 - c_r s1) <? INPUT_BUF_SIZE)) eqn:Eroom.
  2:{ by apply wp_ret, Hrel. }
  apply andb_prop in Eroom as [_ Hroom]. apply Z.ltb_lt in Hroom. cbn [when].
  set (c' := if c =? CR then NL else c) in *.
  assert (u8 c' = c') as Hu8 by (apply u8_small; unfold c', NL; destruct (c =? CR); lia).
  apply wp_bind. apply wp_tty; [apply prints_consputc | apply Hw1 |]. intros u Hu.
  destruct (working_tty u s1 Hw1 Hu) as (Hw2 & Hl2 & He2). set (s2 := put c_ttyL u s1) in *.
  assert (c_got s2 = c_got s1 /\ u32 (c_e s2 - c_r s2) = u32 (c_e s1 - c_r s1)) as [Hg2 Hr2] by done.
  rewrite <- Hl2, <- He2, <- Hg2, <- Hr2 in *. clearbody s2. clear Hl1 He1 Hg1 Hw1 Hl2 He2 Hg2 Hr2.
  apply wp_bind, wp_modify. match goal with |- wp _ _ ?x => change x with (add_char c' s2) end.
  apply wp_bind, wp_gets. unfold id.
  destruct (add_char_lists c' s2 (proj1 Hw2) Hroom) as (Hl3 & He3 & Hr3 & _).
  change (c_r (add_char c' s2)) with (c_r s2). rewrite Hr3.
  destruct ((c' =? NL) || (c' =? ctl_D) || (u32 (c_e s2 - c_r s2) + 1 =? INPUT_BUF_SIZE)) eqn:Ecomp.
  - destruct (complete_ok c' s2 (proj1 Hw2) Hroom) as (Hok4 & Hl4 & He4).
    apply wp_modify. apply (Hrel (complete (add_char c' s2))); [split_and!; [done | apply Hw2 | apply Hw2] | done | by rewrite Hl4, He4, Hu8].
  - apply wp_ret, Hrel.
    + split_and!; [|apply Hw2 | apply Hw2]. apply add_char_ok; [apply Hw2 | done |]. rewrite Hu8. intros Heq.
      rewrite Heq in Ecomp. done.
    + done.
    + by rewrite Hl3, He3, Hu8.
Qed.

(** ** Reading *)

Lemma pop_line s c l : cons_ok s -> lines s = c :: l ->
  c_buf s !!! islot (c_r s) = c /\ (c_wait s = []) /\
  cons_ok (set_r (c_r s + 1) s) /\ lines (set_r (c_r s + 1) s) = l /\
  editing (set_r (c_r s + 1) s) = editing s /\
  set_r (c_r (set_r (c_r s + 1) s) - 1) (set_r (c_r s + 1) s) = s.
Proof.
  intros Hok Hl. destruct cons_ring as (Hp & HW & Hdv). pose proof (length_lines s) as Hlen. rewrite Hl in Hlen.
  simpl in Hlen. pose proof (co_sum _ Hok) as Hs. rewrite !u32_dist in Hs.
  pose proof (cdist_range (c_e s) (c_w s)).
  assert (cdist (c_w s) (u32 (c_r s + 1)) = cdist (c_w s) (c_r s) - 1) as H1
    by (apply (dist_pop INPUT_BUF_SIZE); lia).
  assert (cdist (c_e s) (u32 (c_r s + 1)) = cdist (c_e s) (c_r s) - 1) as H2
    by (apply (dist_pop INPUT_BUF_SIZE); lia).
  pose proof Hl as Hl'. unfold lines in Hl'. rewrite u32_dist in Hl'.
  replace (Z.to_nat (cdist (c_w s) (c_r s))) with (S (Z.to_nat (cdist (c_w s) (c_r s) - 1))) in Hl' by lia.
  rewrite (window_pop INPUT_BUF_SIZE (2 ^ 32)) in Hl' by done. injection Hl' as Hc Hw.
  assert (c_wait s = []) as Hwait.
  { destruct (c_wait s) eqn:E; [done|]. pose proof (co_wait _ Hok) as Hn. rewrite E, Hl in Hn. by discriminate Hn. }
  assert (lines (set_r (c_r s + 1) s) = l) as Hl1.
  { unfold lines. simpl. rewrite u32_dist, H1. exact Hw. }
  split_and!; try done.
  - destruct Hok. split; simpl; try done; rewrite ?u32_dist in *.
    + apply u32_range.
    + lia.
    + lia.
  - destruct s as [lk bf r w e wt gt ty]. unfold set_r. simpl. f_equal.
    unfold u32. rewrite Zminus_mod_idemp_l. replace (r + 1 - 1) with r by lia.
    apply Z.mod_small, Hok.
Qed.

(** What a read does to the complete lines: the bytes delivered, the lines that
    remain, and how the section ends. *)
Section ReadSpec.
Variables (killed : bool) (copyout : Z -> bool) (target : Z).

Fixpoint read_line (dst n : Z) (k : nat) (l : list Z) : list Z * list Z * cres :=
  match k, l with
  | O, _ => ([], l, Done (target - n))
  | S _, [] => ([], [], if killed then Done (-1) else Asleep dst n)
  | S k, c :: l' =>
    if c =? ctl_D then ([], if n <? target then l else l', Done (target - n))
    else if negb (copyout dst) then ([], l', Done (target - n))
    else if c =? NL then ([c], l', Done (target - (n - 1)))
    else let '(bs, rest, r) := read_line (u64 (dst + 1)) (n - 1) k l' in (c :: bs, rest, r)
  end.

Lemma read_finish_spec n s : working s ->
  exists s', read_finish target n s = Ret (Done (target - n)) s' /\ cons_inv s' /\
    lines s' = lines s /\ editing s' = editing s /\ c_got s' = c_got s.
Proof.
  intros (Hok & Hl & Hu). eexists. unfold read_finish.
  erewrite bind_ret by (unfold release; simpl; rewrite Hl; reflexivity).
  split_and!; try done. split; [|done|done]. apply cons_ok_frame; [done | apply Hok].
Qed.

Lemma consoleread_loop_spec pid dst n k s : working s ->
  exists s', let '(bs, rest, r) := read_line dst n k (lines s) in
    consoleread_loop pid killed copyout target dst n k s = Ret r s' /\ cons_inv s' /\
    lines s' = rest /\ editing s' = editing s /\ c_got s' = c_got s ++ bs.
Proof.
  revert dst n s. induction k as [|k IH]; intros dst n s Hw; cbn [read_line consoleread_loop].
  { destruct (read_finish_spec n s Hw) as (s' & He & Hi & H1 & H2 & H3). exists s'. by rewrite app_nil_r. }
  erewrite bind_ret by reflexivity. unfold id. rewrite lines_empty by apply Hw.
  destruct (lines s) as [|c l] eqn:El; cbn [length].
  - simpl. destruct Hw as (Hok & Hl & Hu). destruct killed.
    + eexists. erewrite bind_ret by (unfold release; simpl; rewrite Hl; reflexivity).
      rewrite app_nil_r. split_and!; try done. split; [|done|done]. apply cons_ok_frame; [done | by intros].
    + eexists. erewrite bind_ret by reflexivity.
      erewrite bind_ret by (unfold release; simpl; rewrite Hl; reflexivity).
      rewrite app_nil_r. split_and!; try done. split; [|done|done]. by apply (cons_ok_frame s).
  - replace (Z.of_nat (S (length l)) =? 0) with false by (symmetry; apply Z.eqb_neq; clear; lia).
    destruct (pop_line s c l (proj1 Hw) El) as (Hc & Hwt & Hok1 & Hl1 & He1 & Hback). rewrite Hc.
    set (s1 := set_r (c_r s + 1) s) in *.
    erewrite (bind_ret _ _ _ tt s1) by reflexivity.
    assert (working s1) as Hw1 by (split_and!; [done | apply Hw | apply Hw]).
    assert (c_got s1 = c_got s) as Hg1 by done.
    destruct (c =? ctl_D).
    { destruct (n <? target); cbn [when].
      - erewrite (bind_ret _ _ _ tt s) by (unfold modify; by rewrite Hback).
        destruct (read_finish_spec n s Hw) as (s' & He & Hi & H1 & H2 & H3). exists s'.
        by rewrite app_nil_r, H1.
      - erewrite (bind_ret _ _ _ tt s1) by reflexivity.
        destruct (read_finish_spec n s1 Hw1) as (s' & He & Hi & H1 & H2 & H3). exists s'.
        by rewrite app_nil_r, H1, H2, He1, H3. }
    destruct (negb (copyout dst)).
    { destruct (read_finish_spec n s1 Hw1) as (s' & He & Hi & H1 & H2 & H3). exists s'.
      by rewrite app_nil_r, H1, H2, He1, H3. }
    set (s2 := Cons (c_lock s1) (c_buf s1) (c_r s1) (c_w s1) (c_e s1) (c_wait s1) (c_got s1 ++ [c]) (c_tty s1)).
    erewrite (bind_ret _ _ _ tt s2) by reflexivity.
    assert (working s2) as Hw2.
    { split_and!; [|apply Hw | apply Hw]. apply cons_ok_frame; [done | apply Hok1]. }
    assert (lines s2 = l /\ editing s2 = editing s /\ c_got s2 = c_got s ++ [c]) as (Hl2 & He2 & Hg2) by done.
    destruct (c =? NL).
    + destruct (read_finish_spec (n - 1) s2 Hw2) as (s' & He & Hi & H1 & H2 & H3). exists s'.
      by rewrite H1, H2, H3.
    + destruct (IH (u64 (dst + 1)) (n - 1) s2 Hw2) as (s' & Hs'). exists s'. rewrite Hl2 in Hs'.
      destruct (read_line (u64 (dst + 1)) (n - 1) k l) as [[bs rest] r].
      rewrite He2, Hg2, <- app_assoc in Hs'. exact Hs'.
Qed.
End ReadSpec.

Lemma consoleread_spec pid killed copyout target dst n s : cons_inv s ->
  exists s', let '(bs, rest, r) := read_line killed copyout target dst n (Z.to_nat n) (lines s) in
    consoleread pid killed copyout target dst n s = Ret r s' /\ cons_inv s' /\
    lines s' = rest /\ editing s' = editing s /\ c_got s' = c_got s ++ bs.
Proof.
  intros [Hok Hl Hu]. unfold consoleread.
  erewrite bind_ret by (unfold acquire; simpl; rewrite Hl; reflexivity).
  apply (consoleread_loop_spec killed copyout target pid dst n (Z.to_nat n)
           (Cons Held (c_buf s) (c_r s) (c_w s) (c_e s) (c_wait s) (c_got s) (c_tty s))).
  split_and!; [|done|done]. apply cons_ok_frame; [done | apply Hok].
Qed.

(** ** The system *)

(** Characters arrive, processes read, sleeping readers are killed, and the UART
    goes on by itself or for other callers. *)
Inductive cstep (procdump : M uart unit) : cons -> cons -> Prop :=
| cs_intr c s s' : 0 <= c < 256 -> consoleintr procdump c s = Ret tt s' -> cstep procdump s s'
| cs_read pid killed copyout target dst n r s s' :
    pid ∉ c_wait s -> n <= target ->
    consoleread pid killed copyout target dst n s = Ret r s' -> cstep procdump s s'
| cs_kill pid s :
    cstep procdump s (Cons (c_lock s) (c_buf s) (c_r s) (c_w s) (c_e s)
                        (filter (fun p => p <> pid) (c_wait s)) (c_got s) (c_tty s))
| cs_uart u s : ustep (c_tty s) u -> cstep procdump s (put c_ttyL u s).

Lemma cons_inv_boot n : cons_inv (cons_boot n).
Proof.
  split; [|done|split; [apply uart_inv_boot | done]].
  split; simpl; try done. apply not_elem_of_nil.
Qed.

Lemma cons_inv_step procdump s s' : prints procdump -> cons_inv s -> cstep procdump s s' -> cons_inv s'.
Proof.
  intros Hpd Hi Hs. destruct Hs as [c s s' Hc He|pid k co tg dst n r s s' Hp Hn He|pid s|u s Hu].
  - destruct (consoleintr_spec procdump c s Hpd Hi Hc) as (s0 & He' & Hi' & _). rewrite He in He'. by simplify_eq.
  - destruct (consoleread_spec pid k co tg dst n s Hi) as (s0 & Hs0).
    destruct (read_line k co tg dst n (Z.to_nat n) (lines s)) as [[bs rest] r0].
    destruct Hs0 as (He' & Hi' & _). rewrite He in He'. by simplify_eq.
  - destruct Hi as [Hok Hl Hu]. split; [|done|done]. apply cons_ok_frame; [done|].
    intros Hne. apply Hok. intros E. by rewrite E in Hne.
  - destruct Hi as [Hok Hl [Hu1 Hu2]]. split; [|done|by apply (uart_inv_step (c_tty s))].
    apply cons_ok_frame; [done | apply Hok].
Qed.

Lemma cons_inv_reachable procdump n s :
  prints procdump -> rtc (cstep procdump) (cons_boot n) s -> cons_inv s.
Proof.
  intros Hpd Hr. pose proof (cons_inv_boot n) as H0.
  induction Hr as [|s1 s2 s3 Hs _ IH]; [done|]. by apply IH, (cons_inv_step procdump s1).
Qed.

(** A read whose bytes can all be delivered, in words. *)
Lemma read_line_spec killed target dst n k l : 0 < n <= target -> k = Z.to_nat n ->
  let '(bs, rest, r) := read_line killed (fun _ => true) target dst n k l in
  ctl_D ∉ bs /\ NL ∉ take (length bs - 1) bs /\
  match r with
  | Asleep _ m => l = bs /\ rest = [] /\ NL ∉ bs /\ m = n - Z.of_nat (length bs) /\ 0 < m /\ killed = false
  | Done r =>
      r = -1 /\ l = bs /\ rest = [] /\ NL ∉ bs /\ killed = true \/
      r = target - n + Z.of_nat (length bs) /\
      ((l = bs ++ rest /\ (Z.of_nat (length bs) = n \/ last bs = Some NL \/ (0 < r /\ head rest = Some ctl_D))) \/
       (bs = [] /\ r = 0 /\ l = ctl_D :: rest))
  end.
Proof.
  revert dst n l. induction k as [|k IH]; intros dst n l Hn Hk; [lia|]. cbn [read_line].
  destruct l as [|c l]; [destruct killed|].
  - split_and!; [apply not_elem_of_nil | apply not_elem_of_nil |]. left. split_and!; try done. apply not_elem_of_nil.
  - simpl. split_and!; try done; try apply not_elem_of_nil; lia.
  - destruct (Z.eqb_spec c ctl_D) as [->|ED]; [|destruct (Z.eqb_spec c NL) as [->|EN]].
    + split_and!; [apply not_elem_of_nil | apply not_elem_of_nil |]. right. simpl. split; [lia|].
      destruct (Z.ltb_spec n target).
      * left. split; [done|]. right. right. split; [lia | done].
      * right. split_and!; [done | lia | done].
    + simpl. split_and!; [by apply not_elem_of_cons; split; [done | apply not_elem_of_nil] | apply not_elem_of_nil |].
      right. split; [lia|]. left. split; [done|]. right. by left.
    + cbn [negb].
      destruct (decide (n = 1)) as [->|Hn1].
      { replace k with O by lia. simpl.
        split_and!; [by apply not_elem_of_cons; split; [done | apply not_elem_of_nil] | apply not_elem_of_nil |].
        right. split; [lia|]. left. split; [done|]. by left. }
      specialize (IH (u64 (dst + 1)) (n - 1) l ltac:(lia) ltac:(lia)).
      destruct (read_line killed (fun _ => true) target (u64 (dst + 1)) (n - 1) k l) as [[bs rest] r].
      destruct IH as (Hd & Hnl & Hr).
      assert (ctl_D ∉ c :: bs) by (by apply not_elem_of_cons).
      assert (NL ∉ bs -> NL ∉ c :: bs) as Hcl by (intros; by apply not_elem_of_cons).
      split_and!; [done | |].
      { destruct bs as [|b bs]; [apply not_elem_of_nil|]. simpl in *. rewrite Nat.sub_0_r in *.
        apply not_elem_of_cons. by split. }
      destruct r as [d m|r].
      * destruct Hr as (-> & -> & Hno & -> & Hm & Hk'). simpl. split_and!; try done; [by apply Hcl | lia..].
      * destruct Hr as [(-> & -> & -> & Hno & Hk')|(-> & Hr)]; [left; split_and!; try done; by apply Hcl|].
        right. simpl. split; [lia|].
        destruct Hr as [(-> & Hr)|(-> & Hr & ->)]; [left|lia]. split; [done|].
        destruct Hr as [Hr|[Hr|Hr]]; [left; lia | right; left; by destruct bs | right; right; split; [lia | apply Hr]].
Qed.

(** [consolewrite] queues bytes in order until it is done, [copyin] fails, or the
    ring is full. *)
Lemma consolewrite_spec pid copyin src i n u : tty_ok u ->
  exists r u' bs, consolewrite pid copyin src i None n u = Ret r u' /\ tty_ok u' /\
    queued u' = queued u ++ bs /\ (length bs <= n)%nat /\
    (forall k b, bs !! k = Some b -> exists c, copyin (u64 (src + i + Z.of_nat k)) = Some c /\ b = u8 c) /\
    match r with
    | WDone r => r = i + Z.of_nat (length bs) /\ (length bs = n \/ copyin (u64 (src + r)) = None)
    | WAsleep j c => j = i + Z.of_nat (length bs) /\ (length bs < n)%nat /\ copyin (u64 (src + j)) = Some c /\
        Z.of_nat (length (pending u')) = UART_TX_BUF_SIZE /\ pid ∈ waiting u'
    end.
Proof.
  revert i u. induction n as [|n IH]; intros i u Hu; cbn [consolewrite].
  { exists (WDone i), u, []. simpl. rewrite app_nil_r. split_and!; try done; [lia | by left]. }
  destruct (copyin (u64 (src + i))) as [c|] eqn:Ec.
  2:{ exists (WDone i), u, []. simpl. rewrite app_nil_r, Z.add_0_r. split_and!; try done; [lia | by right]. }
  destruct Hu as [Hi Hp].
  destruct (uartputc_spec pid c u Hi Hp) as (ok & u1 & He & Hi1 & Hp1 & Hok & Hq). erewrite bind_ret by exact He.
  destruct ok.
  - destruct (IH (i + 1) u1 (conj Hi1 Hp1)) as (r & u' & bs & He' & Hu' & Hq' & Hle & Hbs & Hr).
    exists r, u', (u8 c :: bs). rewrite Hq', Hq, <- app_assoc. simpl. split_and!; try done; [lia | |].
    + intros [|k] b Hb; simpl in Hb.
      * injection Hb as <-. rewrite Z.add_0_r. eauto.
      * destruct (Hbs k b Hb) as (c' & Hc' & ->). exists c'. split; [|done]. rewrite <- Hc'. do 2 f_equal. lia.
    + destruct r as [j c'|r]; [destruct Hr as (-> & Hlt & Hr)|destruct Hr as (-> & Hr)].
      * split_and!; [lia | lia | apply Hr..].
      * split; [lia|]. destruct Hr as [Hr|Hr]; [left; lia | right; done].
  - exists (WAsleep i c), u1, []. rewrite app_nil_r. simpl. rewrite length_pending.
    symmetry in Hok. apply negb_false_iff, Z.eqb_eq in Hok. subst u1. simpl.
    split_and!; try done; [lia | lia | lia | left].
Qed.

(** ** Properties *)

(** C35: the console edits lines.  In every reachable state, every input character
    returns and does to the complete lines and the line being edited what [edit]
    says: control-U empties the line, control-H and delete remove its last character,
    control-P prints, carriage return counts as newline, a newline, a control-D and
    the 128th pending character complete it, and characters beyond that are dropped.
    A reader is asleep only while no line is complete, so completing a line leaves
    nobody asleep. *)
Theorem console_editing procdump n s c :
  prints procdump -> rtc (cstep procdump) (cons_boot n) s -> 0 <= c < 256 ->
  (exists s', consoleintr procdump c s = Ret tt s' /\
     (lines s', editing s') = edit c (lines s, editing s) /\ c_got s' = c_got s) /\
  (c_wait s <> [] -> lines s = []) /\
  Z.of_nat (length (lines s) + length (editing s)) <= INPUT_BUF_SIZE.
Proof.
  intros Hpd Hr Hc. pose proof (cons_inv_reachable procdump n s Hpd Hr) as Hi.
  destruct (consoleintr_spec procdump c s Hpd Hi Hc) as (s' & He & _ & Hg & Hl).
  destruct Hi as [Hok _ _]. split_and!; [by exists s' | apply Hok |].
  rewrite length_both by done. apply Hok.
Qed.

(** Reads give lines.  In every reachable state a [consoleread] of [n] bytes
    returns or sleeps.  It delivers bytes from the front of the complete lines, none
    of them a control-D and only the last possibly a newline.  It returns their
    number: when there are [n], after a newline, or before a control-D, which stays
    for the next read; a read that starts at a control-D consumes it and returns 0.
    It sleeps only when it has delivered every complete line, and returns -1 instead
    if killed.  [consolewrite] returns or sleeps too, having queued the bytes read
    from user memory in order. *)
Theorem console_reads procdump m s pid killed copyin a n :
  prints procdump -> rtc (cstep procdump) (cons_boot m) s -> 0 < n ->
  (exists r s' bs, consoleread pid killed (fun _ => true) n a n s = Ret r s' /\
     c_got s' = c_got s ++ bs /\ editing s' = editing s /\
     ctl_D ∉ bs /\ NL ∉ take (length bs - 1) bs /\
     match r with
     | Asleep _ k => lines s = bs /\ lines s' = [] /\ NL ∉ bs /\ k = n - Z.of_nat (length bs) /\ 0 < k /\ killed = false
     | Done r =>
       r = -1 /\ lines s = bs /\ lines s' = [] /\ NL ∉ bs /\ killed = true \/
       r = Z.of_nat (length bs) /\
       (lines s = bs ++ lines s' /\ (r = n \/ last bs = Some NL \/ (0 < r /\ head (lines s') = Some ctl_D)) \/
        bs = [] /\ lines s = ctl_D :: lines s')
     end) /\
  (exists r u bs, consolewrite pid copyin a 0 None (Z.to_nat n) (c_tty s) = Ret r u /\
     queued u = queued (c_tty s) ++ bs /\
     (forall k b, bs !! k = Some b -> exists c, copyin (u64 (a + Z.of_nat k)) = Some c /\ b = u8 c) /\
     match r with
     | WDone r => r = Z.of_nat (length bs) /\ (r = n \/ copyin (u64 (a + r)) = None)
     | WAsleep i _ => i = Z.of_nat (length bs) /\ i < n /\ Z.of_nat (length (pending u)) = UART_TX_BUF_SIZE
     end).
Proof.
  intros Hpd Hr Hn. pose proof (cons_inv_reachable procdump m s Hpd Hr) as Hi. split.
  - destruct (consoleread_spec pid killed (fun _ => true) n a n s Hi) as (s' & Hs').
    pose proof (read_line_spec killed n a n (Z.to_nat n) (lines s) ltac:(lia) eq_refl) as Hsp.
    destruct (read_line killed (fun _ => true) n a n (Z.to_nat n) (lines s)) as [[bs rest] r].
    destruct Hs' as (He & _ & Hl & Hed & Hg). subst rest. destruct Hsp as (Hd & Hnl & Hsp).
    exists r, s', bs. split_and!; try done. destruct r as [d k|r]; [done|].
    rewrite Z.sub_diag, Z.add_0_l in Hsp. destruct Hsp as [Hsp|(-> & Hsp)]; [by left|].
    right. split; [done|]. destruct Hsp as [Hsp|(? & _ & ?)]; [by left | by right].
  - destruct (consolewrite_spec pid copyin a 0 (Z.to_nat n) (c_tty s) (ci_tty _ Hi))
      as (r & u & bs & He & _ & Hq & Hle & Hbs & Hr').
    exists r, u, bs. rewrite Z.add_0_r in Hbs. split_and!; try done. destruct r as [i c|r].
    + destruct Hr' as (-> & ? & _ & ? & _). split_and!; [done | lia | done].
    + destruct Hr' as (-> & Hr'). split; [done|]. destruct Hr' as [Hr'|Hr']; [left; lia | by right].
Qed.

(** A user types a, b, erase, c, carriage return; control-P prints a star. *)
Definition demo_dump : M uart unit := uartputc_sync 42.
Definition type (c : Z) (s : cons) : cons :=
  match consoleintr demo_dump c s with Ret _ s' => s' | _ => s end.
Definition demo_cons : cons := foldl (fun s c => type c s) (cons_boot 1) [97; 98; 127; 99; 13; 100].

Lemma type_step c s : 0 <= c < 256 ->
  match consoleintr demo_dump c s with Ret _ _ => True | _ => False end ->
  cstep demo_dump s (type c s).
Proof.
  intros Hc Hd. apply (cs_intr demo_dump c); [done|]. unfold type.
  destruct (consoleintr demo_dump c s) as [[] s'| | |]; done.
Qed.

Lemma demo_cons_reachable : rtc (cstep demo_dump) (cons_boot 1) demo_cons.
Proof.
  unfold demo_cons. cbn [foldl].
  repeat match goal with |- rtc _ _ (type ?c ?s) =>
    apply rtc_r with s; [|apply type_step; [lia | vm_compute; exact I]] end.
  apply rtc_refl.
Qed.

Lemma console_editing_witness :
  exists s', consoleintr demo_dump 13 demo_cons = Ret tt s' /\ lines s' = [97; 99; 10; 100; 10].
Proof.
  destruct (console_editing demo_dump 1 demo_cons 13 (prints_sync 42) demo_cons_reachable ltac:(lia))
    as [(s' & He & Hl & _) _].
  exists s'. split; [exact He|].
  assert (edit 13 (lines demo_cons, editing demo_cons) = ([97; 99; 10; 100; 10], [])) as E by (vm_compute; reflexivity).
  rewrite E in Hl. exact (f_equal fst Hl).
Defined.

Lemma console_reads_witness :
  exists r s' bs, consoleread 1 false (fun _ => true) 10 0 10 demo_cons = Ret r s' /\
    c_got s' = c_got demo_cons ++ bs /\ r = Done 3.
Proof.
  destruct (console_reads demo_dump 1 demo_cons 1 false (fun _ => None) 0 10 (prints_sync 42) demo_cons_reachable
              ltac:(lia)) as [(r & s' & bs & He & Hg & _) _].
  exists r, s', bs. split; [exact He|]. split; [exact Hg|].
  enough (match consoleread 1 false (fun _ => true) 10 0 10 demo_cons with Ret r _ => r | _ => Done 0 end = Done 3)
    as Hr by (by rewrite He in Hr).
  vm_compute. reflexivity.
Defined.
