(* ===== verification/Vm.v ===== *)
(** * Vm: page tables and user memory, [kernel/vm.c]

    Page tables live in the memory of the allocator's state [kmem]: a table is a
    page of 512 little-endian words.  The build defines [LAB_SYSCALL], so
    [uvmalloc] does not clear the pages it maps.  [kend] is the linker's [end].

    [pt] describes a page table: the pages of its tables by level and index
    prefix, and its leaf entries by virtual page number; [pt_rep] says that memory
    spells it.  The operations are specified as changes of that description, of
    the list of free pages, and of nothing else in memory. *)

From S2P Require Import Prelude CString Riscv Kalloc.
Import KString.

(** ** The operations *)

Definition ldq (a : Z) : M kmem Z := gets (fun s => ld64 (kmem_mem s) a).
Definition stq (a v : Z) : M kmem unit := modify (fun s => set_mem (st64 (kmem_mem s) a v) s).
Definition ldb (a : Z) : M kmem Z := gets (fun s => rd (kmem_mem s) a).
Definition stb (a v : Z) : M kmem unit := modify (fun s => set_mem (<[a := v]> (kmem_mem s)) s).
Definition do_mem (f : mem -> mem) : M kmem unit := modify (fun s => set_mem (f (kmem_mem s)) s).

Definition has (v bit : Z) : bool := negb (Z.land v bit =? 0).

Fixpoint walk_loop (level : nat) (pagetable va : Z) (alloc : bool) : M kmem Z :=
  let pte := pagetable + 8 * PX (Z.of_nat level) va in
  match level with
  | O => mret pte
  | S level =>
    v ← ldq pte;
    if has v PTE_V then walk_loop level (PTE2PA v) va alloc
    else if negb alloc then mret 0
    else
      pagetable ← kalloc;
      if pagetable =? 0 then mret 0 else
      do_mem (fun m => memset m pagetable 0 PGSIZE);;
      stq pte (Z.lor (PA2PTE pagetable) PTE_V);;
      walk_loop level pagetable va alloc
  end.

Definition walk (pagetable va : Z) (alloc : bool) : M kmem Z :=
  if MAXVA <=? va then panic "walk" else walk_loop 2 pagetable va alloc.

Definition walkaddr (pagetable va : Z) : M kmem Z :=
  if MAXVA <=? va then mret 0 else
  pte ← walk pagetable va false;
  if pte =? 0 then mret 0 else
  v ← ldq pte;
  if negb (has v PTE_V) then mret 0 else
  if negb (has v PTE_U) then mret 0 else
  mret (PTE2PA v).

Fixpoint mappages_loop (fuel : nat) (pagetable a last pa perm : Z) : M kmem Z :=
  match fuel with
  | O => fun _ => NoFuel
  | S fuel =>
    pte ← walk pagetable a true;
    if pte =? 0 then mret (-1) else
    v ← ldq pte;
    if has v PTE_V then panic "mappages: remap" else
    stq pte (Z.lor (Z.lor (PA2PTE pa) perm) PTE_V);;
    if a =? last then mret 0 else
    mappages_loop fuel pagetable (u64 (a + PGSIZE)) last (u64 (pa + PGSIZE)) perm
  end.

(** One round per page. *)
Definition mappages (pagetable va size pa perm : Z) : M kmem Z :=
  if negb (va mod PGSIZE =? 0) then panic "mappages: va not aligned" else
  if negb (size mod PGSIZE =? 0) then panic "mappages: size not aligned" else
  if size =? 0 then panic "mappages: size" else
  mappages_loop (Z.to_nat (size / PGSIZE)) pagetable va (u64 (va + size - PGSIZE)) pa perm.

Definition kvmmap (kpgtbl va pa sz perm : Z) : M kmem unit :=
  r ← mappages kpgtbl va sz pa perm;
  if negb (r =? 0) then panic "kvmmap" else mret tt.

Section Vm.
Variable kend : Z.

Fixpoint uvmunmap_loop (fuel : nat) (pagetable a aend : Z) (do_free : bool) : M kmem unit :=
  match fuel with
  | O => fun _ => NoFuel
  | S fuel =>
    if a <? aend then
      pte ← walk pagetable a false;
      if pte =? 0 then panic "uvmunmap: walk" else
      v ← ldq pte;
      if negb (has v PTE_V) then panic "uvmunmap: not mapped" else
      if PTE_FLAGS v =? PTE_V then panic "uvmunmap: not a leaf" else
      when do_free (kfree kend (PTE2PA v));;
      stq pte 0;;
      uvmunmap_loop fuel pagetable (u64 (a + PGSIZE)) aend do_free
    else mret tt
  end.

Definition uvmunmap (pagetable va npages : Z) (do_free : bool) : M kmem unit :=
  if negb (va mod PGSIZE =? 0) then panic "uvmunmap: not aligned" else
  uvmunmap_loop (S (Z.to_nat npages)) pagetable va (u64 (va + u64 (npages * PGSIZE))) do_free.

Definition uvmcreate : M kmem Z :=
  pagetable ← kalloc;
  if pagetable =? 0 then mret 0 else
  do_mem (fun m => memset m pagetable 0 PGSIZE);;
  mret pagetable.

Definition uvmfirst (pagetable src sz : Z) : M kmem unit :=
  if PGSIZE <=? sz then panic "uvmfirst: more than a page" else
  mem ← kalloc;
  do_mem (fun m => memset m mem 0 PGSIZE);;
  mappages pagetable 0 PGSIZE mem (Z.lor (Z.lor (Z.lor PTE_W PTE_R) PTE_X) PTE_U);;
  do_mem (fun m => memmove m mem src sz).

Definition uvmdealloc (pagetable oldsz newsz : Z) : M kmem Z :=
  if oldsz <=? newsz then mret oldsz else
  when (PGROUNDUP newsz <? PGROUNDUP oldsz) (
    let npages := i32 ((PGROUNDUP oldsz - PGROUNDUP newsz) / PGSIZE) in
    uvmunmap pagetable (PGROUNDUP newsz) npages true);;
  mret newsz.

Fixpoint uvmalloc_loop (fuel : nat) (pagetable a oldsz newsz xperm : Z) : M kmem Z :=
  match fuel with
  | O => fun _ => NoFuel
  | S fuel =>
    if a <? newsz then
      mem ← kalloc;
      if mem =? 0 then
        uvmdealloc pagetable a oldsz;;
        mret 0
      else
      r ← mappages pagetable a PGSIZE mem (Z.lor (Z.lor PTE_R PTE_U) xperm);
      if negb (r =? 0) then
        kfree kend mem;;
        uvmdealloc pagetable a oldsz;;
        mret 0
      else uvmalloc_loop fuel pagetable (u64 (a + PGSIZE)) oldsz newsz xperm
    else mret newsz
  end.

Definition uvmalloc (pagetable oldsz newsz xperm : Z) : M kmem Z :=
  if newsz <? oldsz then mret oldsz else
  let oldsz := PGROUNDUP oldsz in
  uvmalloc_loop (S (Z.to_nat ((newsz - oldsz + PGSIZE - 1) / PGSIZE))) pagetable oldsz oldsz newsz xperm.

(** [depth]: the levels of tables, 3 from the root. *)
Fixpoint freewalk (depth : nat) (pagetable : Z) : M kmem unit :=
  match depth with
  | O => fun _ => NoFuel
  | S depth =>
    (for_each (seq 0 512) (fun i =>
       let e := pagetable + 8 * Z.of_nat i in
       pte ← ldq e;
       if has pte PTE_V && (Z.land pte (Z.lor (Z.lor PTE_R PTE_W) PTE_X) =? 0) then
         freewalk depth (PTE2PA pte);;
         stq e 0;;
         mret (None : option unit)
       else if has pte PTE_V then panic "freewalk: leaf"
       else mret None));;
    kfree kend pagetable
  end.

Definition uvmfree (pagetable sz : Z) : M kmem unit :=
  when (0 <? sz) (uvmunmap pagetable 0 (PGROUNDUP sz / PGSIZE) true);;
  freewalk 3 pagetable.

Definition uvmcopy_err (new i : Z) : M kmem Z :=
  uvmunmap new 0 (i / PGSIZE) true;;
  mret (-1).

Fixpoint uvmcopy_loop (fuel : nat) (old new i sz : Z) : M kmem Z :=
  match fuel with
  | O => fun _ => NoFuel
  | S fuel =>
    if i <? sz then
      pte ← walk old i false;
      if pte =? 0 then panic "uvmcopy: pte should exist" else
      v ← ldq pte;
      if negb (has v PTE_V) then panic "uvmcopy: page not present" else
      let pa := PTE2PA v in
      let flags := PTE_FLAGS v in
      mem ← kalloc;
      if mem =? 0 then uvmcopy_err new i else
      do_mem (fun m => memmove m mem pa PGSIZE);;
      r ← mappages new i PGSIZE mem flags;
      if negb (r =? 0) then
        kfree kend mem;;
        uvmcopy_err new i
      else uvmcopy_loop fuel old new (u64 (i + PGSIZE)) sz
    else mret 0
  end.

Definition uvmcopy (old new sz : Z) : M kmem Z :=
  uvmcopy_loop (S (Z.to_nat ((sz + PGSIZE - 1) / PGSIZE))) old new 0 sz.

Definition uvmclear (pagetable va : Z) : M kmem unit :=
  pte ← walk pagetable va false;
  if pte =? 0 then panic "uvmclear" else
  v ← ldq pte;
  stq pte (Z.land v (Z.lnot PTE_U)).

(** A copy touches at most two pages more than the whole pages of its length, and
    the loops end with one more test. *)
Definition copy_rounds (len : Z) : nat := S (S (S (Z.to_nat (len / PGSIZE)))).

Fixpoint copyout_loop (fuel : nat) (pagetable dstva src len : Z) : M kmem Z :=
  match fuel with
  | O => fun _ => NoFuel
  | S fuel =>
    if 0 <? len then
      let va0 := PGROUNDDOWN dstva in
      if MAXVA <=? va0 then mret (-1) else
      pte ← walk pagetable va0 false;
      if pte =? 0 then mret (-1) else
      v ← ldq pte;
      if negb (has v PTE_W) then mret (-1) else
      pa0 ← walkaddr pagetable va0;
      if pa0 =? 0 then mret (-1) else
      let n := Z.min (PGSIZE - (dstva - va0)) len in
      do_mem (fun m => memmove m (pa0 + (dstva - va0)) src n);;
      copyout_loop fuel pagetable (u64 (va0 + PGSIZE)) (src + n) (len - n)
    else mret 0
  end.

Definition copyout (pagetable dstva src len : Z) : M kmem Z :=
  copyout_loop (copy_rounds len) pagetable dstva src len.

Fixpoint copyin_loop (fuel : nat) (pagetable dst srcva len : Z) : M kmem Z :=
  match fuel with
  | O => fun _ => NoFuel
  | S fuel =>
    if 0 <? len then
      let va0 := PGROUNDDOWN srcva in
      pa0 ← walkaddr pagetable va0;
      if pa0 =? 0 then mret (-1) else
      let n := Z.min (PGSIZE - (srcva - va0)) len in
      do_mem (fun m => memmove m dst (pa0 + (srcva - va0)) n);;
      copyin_loop fuel pagetable (dst + n) (u64 (va0 + PGSIZE)) (len - n)
    else mret 0
  end.

Definition copyin (pagetable dst srcva len : Z) : M kmem Z :=
  copyin_loop (copy_rounds len) pagetable dst srcva len.

(** The inner loop of [copyinstr]: [n] bytes of one page; whether a NUL was found,
    the next [dst], and [max]. *)
Fixpoint copyinstr_page (n : nat) (p dst max : Z) : M kmem (bool * Z * Z) :=
  match n with
  | O => mret (false, dst, max)
  | S n =>
    c ← ldb p;
    if c =? 0 then
      stb dst 0;;
      mret (true, dst, max)
    else
      stb dst c;;
      copyinstr_page n (p + 1) (dst + 1) (max - 1)
  end.

Fixpoint copyinstr_loop (fuel : nat) (pagetable dst srcva max : Z) : M kmem Z :=
  match fuel with
  | O => fun _ => NoFuel
  | S fuel =>
    if 0 <? max then
      let va0 := PGROUNDDOWN srcva in
      pa0 ← walkaddr pagetable va0;
      if pa0 =? 0 then mret (-1) else
      let n := Z.min (PGSIZE - (srcva - va0)) max in
      '(got_null, dst, max) ← copyinstr_page (Z.to_nat n) (pa0 + (srcva - va0)) dst max;
      if (got_null : bool) then mret 0 else
      copyinstr_loop fuel pagetable dst (u64 (va0 + PGSIZE)) max
    else mret (-1)
  end.

Definition copyinstr (pagetable dst srcva max : Z) : M kmem Z :=
  copyinstr_loop (copy_rounds max) pagetable dst srcva max.
End Vm.

(** ** Entries *)

(** The entry for the page at [pa] with flags [f]. *)
Definition mkpte (pa f : Z) : Z := pa / PGSIZE * 1024 + f.

Lemma lor_low a f : 0 <= f < 1024 -> Z.lor (a * 1024) f = a * 1024 + f.
Proof.
  intros Hf. pose proof (Z.add_lor_land (a * 1024) f) as E.
  assert (Z.land (a * 1024) f = 0) as H0; [|lia].
  change 1024 with (2 ^ 10). rewrite <- Z.shiftl_mul_pow2 by lia.
  apply Z.bits_inj'. intros i Hi. rewrite Z.land_spec, Z.bits_0, Z.shiftl_spec by done.
  destruct (decide (i < 10)); [by rewrite Z.testbit_neg_r by lia|].
  rewrite andb_comm, Z.bits_above_log2; [done | lia |].
  destruct (decide (f = 0)) as [->|]; [simpl; lia|]. apply Z.log2_lt_pow2; [lia|].
  eapply Z.lt_le_trans; [apply Hf|]. change 1024 with (2 ^ 10). apply Z.pow_le_mono_r; lia.
Qed.

Lemma PA2PTE_eq pa f : 0 <= pa < 2 ^ 56 -> 0 <= f < 1024 -> Z.lor (PA2PTE pa) f = mkpte pa f.
Proof.
  intros Hp Hf. unfold PA2PTE, mkpte. rewrite Z.shiftl_mul_pow2, Z.shiftr_div_pow2 by lia.
  change (2 ^ 10) with 1024. change (2 ^ 12) with PGSIZE.
  rewrite u64_small by (unfold PGSIZE; Z.to_euclidean_division_equations; lia). by apply lor_low.
Qed.

Lemma lor_1024 a b : 0 <= a < 1024 -> 0 <= b < 1024 -> 0 <= Z.lor a b < 1024.
Proof.
  intros Ha Hb. assert (0 <= Z.lor a b) by (apply Z.lor_nonneg; lia). split; [done|]. change 1024 with (2 ^ 10).
  destruct (decide (Z.lor a b = 0)) as [->|]; [done|]. apply Z.log2_lt_pow2; [lia|]. rewrite Z.log2_lor by lia.
  apply Z.max_lub_lt.
  - destruct (decide (a = 0)) as [->|]; [done | apply Z.log2_lt_pow2; lia].
  - destruct (decide (b = 0)) as [->|]; [done | apply Z.log2_lt_pow2; lia].
Qed.

Lemma PA2PTE_perm pa f : 0 <= pa < 2 ^ 56 -> 0 <= f < 1024 ->
  Z.lor (Z.lor (PA2PTE pa) f) PTE_V = mkpte pa (Z.lor f PTE_V) /\ 0 <= Z.lor f PTE_V < 1024.
Proof.
  intros Hp Hf. assert (0 <= Z.lor f PTE_V < 1024) as Hr by (apply lor_1024; unfold PTE_V; lia).
  split; [|done]. rewrite <- Z.lor_assoc. by apply PA2PTE_eq.
Qed.

Lemma mkpte_range pa f : 0 <= pa < 2 ^ 56 -> 0 <= f < 1024 -> 0 <= mkpte pa f < 2 ^ 64.
Proof. intros. unfold mkpte, PGSIZE. Z.to_euclidean_division_equations. lia. Qed.

Lemma mkpte_pa pa f : 0 <= pa < 2 ^ 56 -> pa mod PGSIZE = 0 -> 0 <= f < 1024 -> PTE2PA (mkpte pa f) = pa.
Proof.
  intros. unfold PTE2PA, mkpte. rewrite Z.shiftl_mul_pow2, Z.shiftr_div_pow2 by lia.
  change (2 ^ 10) with 1024. change (2 ^ 12) with 4096. unfold PGSIZE in *.
  rewrite Z.div_add_l, (Z.div_small f), Z.add_0_r by lia.
  rewrite u64_small; Z.to_euclidean_division_equations; lia.
Qed.

Lemma mkpte_land pa f b : 0 <= f < 1024 -> 0 <= b < 1024 -> Z.land (mkpte pa f) b = Z.land f b.
Proof.
  intros Hf Hb. assert (b = Z.land (Z.ones 10) b) as Hm.
  { rewrite Z.land_comm, Z.land_ones by lia. symmetry. apply Z.mod_small. lia. }
  rewrite Hm, !Z.land_assoc, !Z.land_ones by lia. f_equal. unfold mkpte. change (2 ^ 10) with 1024.
  rewrite Z.add_comm, Z.mod_add by lia. done.
Qed.

Lemma mkpte_has pa f b : 0 <= f < 1024 -> 0 <= b < 1024 -> has (mkpte pa f) b = has f b.
Proof. intros. unfold has. by rewrite mkpte_land. Qed.

Lemma mkpte_flags pa f : 0 <= f < 1024 -> PTE_FLAGS (mkpte pa f) = f.
Proof.
  intros. unfold PTE_FLAGS. rewrite mkpte_land by lia. change 1023 with (Z.ones 10).
  rewrite Z.land_ones by lia.
  by apply Z.mod_small.
Qed.

Lemma PX_eq l va : 0 <= va -> PX (Z.of_nat l) va = va / PGSIZE / 512 ^ Z.of_nat l mod 512.
Proof.
  intros. unfold PX, PXSHIFT, PXMASK, PGSHIFT. change 511 with (Z.ones 9).
  rewrite Z.land_ones, Z.shiftr_div_pow2 by lia. change (2 ^ 9) with 512. f_equal. rewrite Z.div_div by (unfold PGSIZE; lia). f_equal.
  change 512 with (2 ^ 9). rewrite <- Z.pow_mul_r by lia. change PGSIZE with (2 ^ 12).
  by rewrite <- Z.pow_add_r by lia.
Qed.

(** ** What a page table describes *)

(** [tabs]: the page of the table of a level and index prefix, the root's being
    [(2, 0)]; [leaf]: the entries by virtual page number. *)
Record pt := Pt { tabs : gmap (nat * Z) Z; leaf : gmap Z Z }.

Definition tables (P : pt) : list Z := (map_to_list (tabs P)).*2.

(** The entry for prefix [k] in a table of level [l]. *)
Definition entry (P : pt) (l : nat) (k : Z) : Z :=
  match l with
  | O => default 0 (leaf P !! k)
  | S l => match tabs P !! (l, k) with Some p => mkpte p PTE_V | None => 0 end
  end.

Definition good_pte (v : Z) : Prop :=
  exists pa f, v = mkpte pa f /\ 0 <= pa < 2 ^ 56 /\ pa mod PGSIZE = 0 /\ 0 <= f < 1024 /\ has f PTE_V = true.

Definition VPNS : Z := MAXVA / PGSIZE.

Lemma MAXVA_eq : MAXVA = 2 ^ 38.
Proof. done. Qed.
Lemma VPNS_eq : VPNS = 2 ^ 26.
Proof. done. Qed.

Section Spec.
Variable kend : Z.
Context (Hend : KERNBASE <= kend <= PHYSTOP).

Record pt_rep (m : mem) (P : pt) (root : Z) : Prop := {
  pr_root : tabs P !! (2%nat, 0) = Some root;
  pr_key : forall l k p, tabs P !! (l, k) = Some p ->
    page_ok kend p /\ (l = 2%nat /\ k = 0 \/ (l < 2)%nat /\ is_Some (tabs P !! (S l, k / 512)));
  pr_inj : forall i j p, tabs P !! i = Some p -> tabs P !! j = Some p -> i = j;
  pr_leaf : forall k v, leaf P !! k = Some v ->
    good_pte v /\ 0 <= k < VPNS /\ is_Some (tabs P !! (0%nat, k / 512));
  pr_mem : forall l k p j, tabs P !! (l, k) = Some p -> 0 <= j < 512 ->
    ld64 m (p + 8 * j) = entry P l (k * 512 + j)
}.

Lemma in_tables P p : p ∈ tables P <-> exists i, tabs P !! i = Some p.
Proof.
  unfold tables. rewrite list_elem_of_fmap. split.
  - intros ([i q] & -> & Hi). exists i. by apply elem_of_map_to_list in Hi.
  - intros [i Hi]. exists (i, p). split; [done|]. by apply elem_of_map_to_list.
Qed.

Lemma tables_insert P i p :
  tabs P !! i = None -> tables (Pt (<[i := p]> (tabs P)) (leaf P)) ≡ₚ p :: tables P.
Proof. intros Hi. unfold tables. simpl. by rewrite map_to_list_insert. Qed.

Lemma PGROUNDDOWN_in p a : p mod PGSIZE = 0 -> p <= a < p + PGSIZE -> PGROUNDDOWN a = p.
Proof. intros. rewrite PGROUNDDOWN_eq. unfold PGSIZE in *. Z.to_euclidean_division_equations. lia. Qed.

Lemma ld64_ext m m' a : (forall i, a <= i < a + 8 -> rd m' i = rd m i) -> ld64 m' a = ld64 m a.
Proof. intros H. unfold ld64. f_equal. apply rdn_ext. intros i Hi. apply H. lia. Qed.

(** The free list only depends on the free pages. *)
Lemma kinv_frame s m' l :
  (forall a, PGROUNDDOWN a ∈ l -> rd m' a = rd (kmem_mem s) a) -> kinv kend s l -> kinv kend (set_mem m' s) l.
Proof.
  intros Hf [H1 H2 H3 H4]. split; try done. simpl. clear H1 H3. revert Hf H2 H4. generalize (freelist s).
  induction l as [|p l IH]; intros r Hf Hc Hp; [done|]. destruct Hc as [-> Hc]. apply Forall_cons in Hp as [Hp Hl].
  split; [done|]. rewrite (ld64_ext (kmem_mem s) m').
  - apply IH; [|done|done]. intros a Ha. apply Hf. by right.
  - intros i Hi. apply Hf. rewrite (PGROUNDDOWN_in p); [left | apply Hp | unfold PGSIZE; lia].
Qed.

(** A page table only depends on the pages of its tables. *)
Lemma pt_rep_frame m m' P root :
  (forall a, PGROUNDDOWN a ∈ tables P -> rd m' a = rd m a) -> pt_rep m P root -> pt_rep m' P root.
Proof.
  intros Hf [H1 H2 H3 H4 H5]. split; try done. intros l k p j Hp Hj. rewrite <- (H5 _ _ _ _ Hp Hj).
  apply ld64_ext. intros i Hi. apply Hf. destruct (H2 _ _ _ Hp) as [[Hm _] _].
  rewrite (PGROUNDDOWN_in p); [|done|unfold PGSIZE; lia]. apply in_tables. eauto.
Qed.

Lemma slot_page p j : p mod PGSIZE = 0 -> 0 <= j < 512 ->
  forall i, p + 8 * j <= i < p + 8 * j + 8 -> PGROUNDDOWN i = p.
Proof. intros Hp Hj i Hi. apply PGROUNDDOWN_in; [done|]. unfold PGSIZE. lia. Qed.

(** Two slots are equal or apart. *)
Lemma slots_apart m P root l k p j l' k' p' j' :
  pt_rep m P root -> tabs P !! (l, k) = Some p -> tabs P !! (l', k') = Some p' ->
  0 <= j < 512 -> 0 <= j' < 512 -> (l, k, j) <> (l', k', j') ->
  p + 8 * j + 8 <= p' + 8 * j' \/ p' + 8 * j' + 8 <= p + 8 * j.
Proof.
  intros H Hp Hp' Hj Hj' Hne. destruct (decide (p = p')) as [->|Hpp].
  - pose proof (pr_inj _ _ _ H _ _ _ Hp Hp'). simplify_eq. assert (j <> j') by congruence. lia.
  - destruct (pr_key _ _ _ H _ _ _ Hp) as [Hok _]. destruct (pr_key _ _ _ H _ _ _ Hp') as [Hok' _].
    pose proof (page_ok_apart kend p p' Hok Hok' Hpp). unfold PGSIZE in *. lia.
Qed.

(** Change the leaf entry of [k] in its table. *)
Lemma set_leaf m P root k q v :
  pt_rep m P root -> tabs P !! (0%nat, k / 512) = Some q -> 0 <= k < VPNS ->
  v = 0 \/ good_pte v ->
  pt_rep (st64 m (q + 8 * (k mod 512)) v)
    (Pt (tabs P) (partial_alter (fun _ => if v =? 0 then None else Some v) k (leaf P))) root.
Proof.
  intros H Hq Hk Hv.
  assert (0 <= k mod 512 < 512) as Hj by (apply Z.mod_pos_bound; lia).
  split; simpl; try apply H.
  - intros k' v' Hl. destruct (decide (k = k')) as [<-|Hne].
    + rewrite lookup_partial_alter_eq in Hl. destruct (v =? 0) eqn:E; [done|]. bcase. simplify_eq.
      destruct Hv as [?|?]; [done|]. eauto.
    + rewrite lookup_partial_alter_ne in Hl by done. by apply H in Hl.
  - intros l k' p j Hp Hj'. destruct (decide ((l, k', j) = (0%nat, k / 512, k mod 512))) as [E|Hne].
    + injection E as -> -> ->. assert (p = q) as -> by congruence. rewrite ld64_st64_eq. simpl.
      replace (k / 512 * 512 + k mod 512) with k by (rewrite Z.mul_comm; apply Z.div_mod; lia).
      rewrite lookup_partial_alter_eq. destruct Hv as [->|(pa & f & -> & ? & ? & ? & Hf)]; [done|].
      rewrite u64_small by (by apply mkpte_range). destruct (mkpte pa f =? 0) eqn:E; [|done]. bcase.
      exfalso. rewrite <- (mkpte_has pa f PTE_V) in Hf by (unfold PTE_V; lia). by rewrite E in Hf.
    + rewrite ld64_st64_ne by (by eapply slots_apart). rewrite (pr_mem _ _ _ H _ _ _ _ Hp Hj').
      destruct l as [|l]; [|done]. simpl. rewrite lookup_partial_alter_ne; [done|].
      intros ->. apply Hne. f_equal; [f_equal|].
      * rewrite Z.div_add_l, Z.div_small by lia. lia.
      * rewrite Z.add_comm, Z.mod_add, Z.mod_small by lia. done.
Qed.

Lemma memset_page_ld m q j : 0 <= j < 512 -> ld64 (memset m q 0 PGSIZE) (q + 8 * j) = 0.
Proof.
  intros Hj. unfold ld64. assert (rdn (memset m q 0 PGSIZE) (q + 8 * j) 8 = replicate 8 0) as ->; [|done].
  apply list_eq. intros i. destruct (decide (i < 8)%nat) as [Hi|Hi].
  - rewrite rdn_lookup, lookup_replicate_2 by done. f_equal. rewrite memset_spec by (unfold PGSIZE; lia).
    rewrite decide_True by (unfold PGSIZE; lia). done.
  - rewrite !lookup_ge_None_2; rewrite ?length_rdn, ?length_replicate; (done || lia).
Qed.

Lemma memset_page_ne m q a : q + PGSIZE <= a \/ a + 8 <= q -> ld64 (memset m q 0 PGSIZE) a = ld64 m a.
Proof.
  intros Ha. apply ld64_ext. intros i Hi. rewrite memset_spec by (unfold PGSIZE; lia). by rewrite decide_False by lia.
Qed.

Lemma join_div x j : 0 <= j < 512 -> (x * 512 + j) / 512 = x /\ (x * 512 + j) mod 512 = j.
Proof. intros. split; Z.to_euclidean_division_equations; lia. Qed.
Lemma split_join x : x / 512 * 512 + x mod 512 = x.
Proof. rewrite Z.mul_comm. symmetry. apply Z.div_mod. lia. Qed.

(** No table, no entries below it. *)
Lemma no_table m P root l x j : pt_rep m P root -> tabs P !! (l, x) = None -> (l < 2)%nat -> 0 <= j < 512 ->
  entry P l (x * 512 + j) = 0.
Proof.
  intros H Hn Hl2 Hj. destruct l as [|l]; simpl.
  - destruct (leaf P !! (x * 512 + j)) as [v|] eqn:E; [|done].
    destruct (pr_leaf _ _ _ H _ _ E) as (_ & _ & [q Hq]). rewrite (proj1 (join_div x j Hj)) in Hq. congruence.
  - destruct (tabs P !! (l, x * 512 + j)) as [q|] eqn:E; [|done].
    destruct (pr_key _ _ _ H _ _ _ E) as [_ [[? _]|[? [q' Hq]]]]; [lia|].
    rewrite (proj1 (join_div x j Hj)) in Hq. congruence.
Qed.

(** Put a new table below an existing one. *)
Lemma add_table m P root l x p q :
  pt_rep m P root -> tabs P !! (S l, x / 512) = Some p -> tabs P !! (l, x) = None -> (l < 2)%nat ->
  page_ok kend q -> q ∉ tables P ->
  pt_rep (st64 (memset m q 0 PGSIZE) (p + 8 * (x mod 512)) (mkpte q PTE_V))
    (Pt (<[(l, x) := q]> (tabs P)) (leaf P)) root.
Proof.
  intros H Hp Hn Hl2 Hq Hnew. assert (0 <= x mod 512 < 512) as Hxj by (apply Z.mod_pos_bound; lia).
  pose proof (page_ok_bounds kend Hend q Hq) as Hqb.
  assert (forall i p', tabs P !! i = Some p' -> p' <> q) as Hfresh.
  { intros i p' Hi ->. apply Hnew, in_tables. eauto. }
  assert (forall i p', tabs P !! i = Some p' -> <[(l, x) := q]> (tabs P) !! i = Some p') as Hkeep.
  { intros i p' Hi. rewrite lookup_insert_ne; [done|]. intros <-. congruence. }
  split; simpl.
  - apply Hkeep, H.
  - intros l' k' p' Hp'. destruct (decide ((l, x) = (l', k'))) as [E|Hne].
    + injection E as <- <-. rewrite lookup_insert_eq in Hp'. simplify_eq. split; [done|]. right. split; [done|].
      exists p. by apply Hkeep.
    + rewrite lookup_insert_ne in Hp' by done. destruct (pr_key _ _ _ H _ _ _ Hp') as [? [?|[? [q' Hq']]]]; [by auto|].
      split; [done|]. right. split; [done|]. exists q'. by apply Hkeep.
  - intros i j p' Hi Hj. rewrite lookup_insert in Hi, Hj.
    destruct (decide ((l, x) = i)), (decide ((l, x) = j)); [congruence | | | by eapply H].
    + injection Hi as <-. by destruct (Hfresh _ _ Hj).
    + injection Hj as <-. by destruct (Hfresh _ _ Hi).
  - intros k v Hk. destruct (pr_leaf _ _ _ H _ _ Hk) as (? & ? & [q' Hq']). split; [done|]. split; [done|]. exists q'. by apply Hkeep.
  - intros l' k' p' j Hp' Hj. destruct (decide ((l, x) = (l', k'))) as [E|Hne].
    + injection E as <- <-. rewrite lookup_insert_eq in Hp'. injection Hp' as <-.
      rewrite ld64_st64_ne.
      2:{ destruct (pr_key _ _ _ H _ _ _ Hp) as [Hpo _].
          destruct (page_ok_apart kend p q Hpo Hq (Hfresh _ _ Hp)); unfold PGSIZE in *; lia. }
      rewrite memset_page_ld by done. pose proof (no_table m P root l x j H Hn Hl2 Hj) as Hz.
      destruct l as [|l]; simpl in *; [done|]. rewrite lookup_insert_ne by (intros E; simplify_eq; lia). done.
    + rewrite lookup_insert_ne in Hp' by done.
      destruct (decide ((l', k', j) = (S l, x / 512, x mod 512))) as [E|Hne'].
      * injection E as -> -> ->. assert (p' = p) as -> by congruence. rewrite ld64_st64_eq, split_join. simpl.
        rewrite lookup_insert_eq. apply u64_small, mkpte_range; unfold PTE_V; lia.
      * rewrite ld64_st64_ne by (by eapply slots_apart). rewrite memset_page_ne.
        2:{ destruct (pr_key _ _ _ H _ _ _ Hp') as [Hpo _].
            destruct (page_ok_apart kend p' q Hpo Hq (Hfresh _ _ Hp')); unfold PGSIZE in *; lia. }
        rewrite (pr_mem _ _ _ H _ _ _ _ Hp' Hj). destruct l' as [|l']; simpl; [done|].
        rewrite lookup_insert_ne; [done|]. intros E. injection E as -> ->. apply Hne'.
        destruct (join_div k' j Hj) as [-> ->]. done.
Qed.

(** ** Growing a page table *)

(** [P'] has more tables than [P], with keys [K], taken from the free pages. *)
Record grow (K : nat * Z -> Prop) (P P' : pt) (free free' : list Z) (m m' : mem) : Prop := {
  g_tabs : tabs P ⊆ tabs P';
  g_keys : forall i p, tabs P' !! i = Some p -> tabs P !! i = Some p \/ K i;
  g_perm : tables P' ++ free' ≡ₚ tables P ++ free;
  g_frame : forall a, PGROUNDDOWN a ∉ tables P ++ free -> rd m' a = rd m a
}.

Lemma grow_refl K P free m : grow K P P free free m m.
Proof. split; eauto. Qed.

Lemma grow_trans (K : nat * Z -> Prop) P1 P2 P3 f1 f2 f3 m1 m2 m3 :
  grow K P1 P2 f1 f2 m1 m2 -> grow K P2 P3 f2 f3 m2 m3 -> grow K P1 P3 f1 f3 m1 m3.
Proof.
  intros [A1 A2 A3 A4] [B1 B2 B3 B4]. split.
  - by etrans.
  - intros i p Hi. destruct (B2 i p Hi) as [?|?]; auto.
  - by etrans.
  - intros a Ha. rewrite B4 by (by rewrite A3). by apply A4.
Qed.

Lemma grow_mono (K K' : nat * Z -> Prop) P1 P2 f1 f2 m1 m2 :
  (forall i, K i -> K' i) -> grow K P1 P2 f1 f2 m1 m2 -> grow K' P1 P2 f1 f2 m1 m2.
Proof. intros HK [A1 A2 A3 A4]. split; try done. intros i p Hi. destruct (A2 i p Hi); auto. Qed.

Lemma grow_sep K P1 P2 f1 f2 m1 m2 X :
  grow K P1 P2 f1 f2 m1 m2 -> NoDup (tables P1 ++ f1 ++ X) -> NoDup (tables P2 ++ f2 ++ X).
Proof. intros [_ _ Hp _] Hn. rewrite app_assoc, Hp, <- app_assoc. done. Qed.

(** The tables on the way to virtual page [v]. *)
Definition on_path (v : Z) (i : nat * Z) : Prop := i = (1%nat, v / 512 / 512) \/ i = (0%nat, v / 512).

(** ** [walk] *)

(** The prefix of virtual page [v] that selects a table of level [l]. *)
Definition pfx (v : Z) (l : nat) : Z := v / 512 ^ Z.of_nat (S l).

Lemma pfx_0 v : pfx v 0 = v / 512.
Proof. done. Qed.
Lemma pfx_S v l : pfx v (S l) = pfx v l / 512.
Proof.
  unfold pfx. rewrite Z.div_div by (try apply Z.pow_pos_nonneg; lia). f_equal.
  rewrite (Nat2Z.inj_succ (S l)), Z.pow_succ_r by lia. lia.
Qed.

Lemma PX_0 va : 0 <= va -> PX 0 va = va / PGSIZE mod 512.
Proof. intros. rewrite (PX_eq 0) by done. simpl. by rewrite Z.div_1_r. Qed.
Lemma PX_pfx va l : 0 <= va -> PX (Z.of_nat (S l)) va = pfx (va / PGSIZE) l mod 512.
Proof. intros. by rewrite PX_eq. Qed.

Lemma path_none m P root v l : pt_rep m P root -> (l < 2)%nat -> tabs P !! (l, pfx v l) = None ->
  tabs P !! (0%nat, v / 512) = None.
Proof.
  intros H Hl Hn. destruct l as [|[|l]]; [done | | lia].
  destruct (tabs P !! (0%nat, v / 512)) as [q|] eqn:E; [|done].
  destruct (pr_key _ _ _ H _ _ _ E) as [_ [[? _]|[_ [q' Hq]]]]; [done|].
  rewrite pfx_S, pfx_0 in Hn. congruence.
Qed.

(** The address of the entry of virtual page [v]. *)
Definition slot_of (P : pt) (v : Z) : Z :=
  match tabs P !! (0%nat, v / 512) with Some q => q + 8 * (v mod 512) | None => 0 end.

Lemma next_entry m P root va l p : pt_rep m P root -> 0 <= va -> tabs P !! (S l, pfx (va / PGSIZE) (S l)) = Some p ->
  ld64 m (p + 8 * PX (Z.of_nat (S l)) va) = entry P (S l) (pfx (va / PGSIZE) l).
Proof.
  intros H Hva Hp. rewrite PX_pfx by done.
  rewrite (pr_mem _ _ _ H _ _ _ _ Hp) by (apply Z.mod_pos_bound; lia).
  by rewrite pfx_S, split_join.
Qed.

Lemma table_entry p f : page_ok kend p -> f = PTE_V -> has (mkpte p f) PTE_V = true /\ PTE2PA (mkpte p f) = p.
Proof.
  intros Hp ->. pose proof (page_ok_bounds kend Hend p Hp). destruct Hp as [Hm _]. split.
  - rewrite mkpte_has by (unfold PTE_V; lia). done.
  - apply mkpte_pa; [lia | done | unfold PTE_V; lia].
Qed.

Lemma walk_loop_find P root l p va s :
  pt_rep (kmem_mem s) P root -> 0 <= va -> (l <= 2)%nat -> tabs P !! (l, pfx (va / PGSIZE) l) = Some p ->
  walk_loop l p va false s = Ret (slot_of P (va / PGSIZE)) s.
Proof.
  intros H Hva. revert p. induction l as [|l IH]; intros p Hl Hp.
  - unfold slot_of. rewrite pfx_0 in Hp. rewrite Hp. cbn [walk_loop]. by rewrite PX_0.
  - cbn [walk_loop]. erewrite bind_ret by reflexivity. rewrite (next_entry _ P root) by done. cbn [entry].
    destruct (tabs P !! (l, pfx (va / PGSIZE) l)) as [q|] eqn:E.
    + destruct (pr_key _ _ _ H _ _ _ E) as [Hq _]. destruct (table_entry q PTE_V Hq eq_refl) as [-> ->].
      apply IH; [lia | done].
    + simpl. unfold slot_of. rewrite (path_none _ _ _ _ l H); [done | lia | done].
Qed.

Lemma vpn_range va : 0 <= va < MAXVA -> 0 <= va / PGSIZE < VPNS.
Proof. rewrite VPNS_eq, MAXVA_eq. unfold PGSIZE. intros. Z.to_euclidean_division_equations. lia. Qed.

Lemma pfx_root v : 0 <= v < VPNS -> pfx v 2 = 0.
Proof. rewrite VPNS_eq. intros. unfold pfx. apply Z.div_small. simpl Z.of_nat. lia. Qed.

Lemma walk_find P root va s :
  pt_rep (kmem_mem s) P root -> 0 <= va < MAXVA -> walk root va false s = Ret (slot_of P (va / PGSIZE)) s.
Proof.
  intros H Hva. unfold walk. rewrite (proj2 (Z.leb_gt _ _)) by lia.
  apply walk_loop_find with (root := root); [done | lia | lia |]. rewrite pfx_root by (by apply vpn_range). apply H.
Qed.

(** The step that creates a table. *)
Lemma new_table P root l x p q free s :
  kinv kend s free -> pt_rep (kmem_mem s) P root -> NoDup (tables P ++ q :: free) -> page_ok kend q ->
  tabs P !! (S l, x / 512) = Some p -> tabs P !! (l, x) = None -> (l < 2)%nat ->
  let m2 := st64 (memset (kmem_mem s) q 0 PGSIZE) (p + 8 * (x mod 512)) (mkpte q PTE_V) in
  let P2 := Pt (<[(l, x) := q]> (tabs P)) (leaf P) in
  kinv kend (set_mem m2 s) free /\ pt_rep m2 P2 root /\ NoDup (tables P2 ++ free) /\
  grow (eq (l, x)) P P2 (q :: free) free (kmem_mem s) m2.
Proof.
  intros Hk H Hnd Hq Hp Hn Hl2 m2 P2.
  assert (tables P2 ++ free ≡ₚ tables P ++ q :: free) as Hperm.
  { unfold P2. rewrite tables_insert by done. by rewrite <- Permutation_middle. }
  pose proof Hnd as (_ & Hdis & Hnf)%NoDup_app. apply NoDup_cons in Hnf as [Hqf _].
  assert (q ∉ tables P) as Hfresh by (intros ?; eapply Hdis; [done | left]).
  assert (p ∈ tables P) as Hpt by (apply in_tables; eauto).
  assert (forall a, PGROUNDDOWN a <> q -> PGROUNDDOWN a <> p -> rd m2 a = rd (kmem_mem s) a) as Hframe.
  { intros a Haq Hap. unfold m2. destruct (pr_key _ _ _ H _ _ _ Hp) as [[Hpm _] _]. destruct Hq as [Hqm _].
    pose proof (PGROUNDDOWN_in p a Hpm). pose proof (PGROUNDDOWN_in q a Hqm).
    assert (0 <= x mod 512 < 512) by (apply Z.mod_pos_bound; lia).
    rewrite rd_st64_ne by (unfold PGSIZE in *; lia). rewrite memset_spec by (unfold PGSIZE; lia).
    by rewrite decide_False by lia. }
  split_and!.
  - apply kinv_frame; [|done]. intros a Ha. apply Hframe; intros E; rewrite E in Ha; [done|].
    eapply Hdis; [done | by right].
  - by apply add_table.
  - by rewrite Hperm.
  - split; [by apply insert_subseteq | | done |].
    + intros i p' Hi. simpl in Hi. rewrite lookup_insert in Hi. case_decide; [by right | by left].
    + intros a Ha. apply Hframe; intros E; apply Ha; rewrite E, elem_of_app; [right; left | by left].
Qed.

Lemma walk_loop_alloc P root l p va s free :
  kinv kend s free -> pt_rep (kmem_mem s) P root -> NoDup (tables P ++ free) ->
  0 <= va < MAXVA -> (l <= 2)%nat -> tabs P !! (l, pfx (va / PGSIZE) l) = Some p ->
  exists r s' P' free', walk_loop l p va true s = Ret r s' /\ kinv kend s' free' /\
    pt_rep (kmem_mem s') P' root /\ leaf P' = leaf P /\
    grow (on_path (va / PGSIZE)) P P' free free' (kmem_mem s) (kmem_mem s') /\
    (r = 0 /\ free' = [] \/ is_Some (tabs P' !! (0%nat, va / PGSIZE / 512)) /\ r = slot_of P' (va / PGSIZE)).
Proof.
  intros Hk H Hnd Hva. revert P p s free Hk H Hnd. induction l as [|l IH]; intros P p s free Hk H Hnd Hl Hp.
  - exists (slot_of P (va / PGSIZE)), s, P, free. rewrite pfx_0 in Hp. cbn [walk_loop].
    unfold slot_of. rewrite Hp, PX_0 by lia. split_and!; try done; [apply grow_refl | right; split; [eauto | done]].
  - cbn [walk_loop]. erewrite bind_ret by reflexivity. rewrite (next_entry _ P root) by (done || lia). cbn [entry].
    destruct (tabs P !! (l, pfx (va / PGSIZE) l)) as [q|] eqn:E.
    + destruct (pr_key _ _ _ H _ _ _ E) as [Hq _]. destruct (table_entry q PTE_V Hq eq_refl) as [-> ->].
      apply IH; try done. lia.
    + simpl. destruct free as [|q free].
      { erewrite bind_ret by (by apply (kalloc_none kend)). simpl. exists 0, s, P, [].
        split_and!; try done; [apply grow_refl | by left]. }
      destruct (kalloc_some kend Hend s q free Hk) as (s1 & He & Hk1 & Hm1). erewrite bind_ret by exact He.
      pose proof (kinv_pages _ _ _ Hk) as [Hq _]%Forall_cons. pose proof (page_ok_bounds kend Hend q Hq).
      rewrite (proj2 (Z.eqb_neq q 0)) by lia.
      erewrite bind_ret by reflexivity. erewrite bind_ret by reflexivity.
      rewrite PA2PTE_eq, PX_pfx by (unfold PTE_V; lia). rewrite pfx_S in Hp. rewrite <- Hm1 in H.
      destruct (new_table P root l (pfx (va / PGSIZE) l) p q free s1 Hk1 H Hnd Hq Hp E ltac:(lia))
        as (Hk2 & H2 & Hnd2 & Hg2).
      destruct (IH _ q _ free Hk2 H2 Hnd2 ltac:(lia)) as (r & s' & P' & free' & He' & Hk' & H' & Hl' & Hg' & Hr).
      { simpl. by rewrite lookup_insert_eq. }
      exists r, s', P', free'. split_and!; try done. rewrite <- Hm1.
      eapply grow_trans; [|exact Hg']. eapply grow_mono; [|exact Hg2].
      intros i <-. unfold on_path. destruct l as [|[|l]]; [right; by rewrite pfx_0 | left; by rewrite pfx_S, pfx_0 | lia].
Qed.

Lemma walk_alloc P root va s free :
  kinv kend s free -> pt_rep (kmem_mem s) P root -> NoDup (tables P ++ free) -> 0 <= va < MAXVA ->
  exists r s' P' free', walk root va true s = Ret r s' /\ kinv kend s' free' /\
    pt_rep (kmem_mem s') P' root /\ leaf P' = leaf P /\
    grow (on_path (va / PGSIZE)) P P' free free' (kmem_mem s) (kmem_mem s') /\
    (r = 0 /\ free' = [] \/ is_Some (tabs P' !! (0%nat, va / PGSIZE / 512)) /\ r = slot_of P' (va / PGSIZE)).
Proof.
  intros Hk H Hnd Hva. unfold walk. rewrite (proj2 (Z.leb_gt _ _)) by lia.
  apply walk_loop_alloc; try done. rewrite pfx_root by (by apply vpn_range). apply H.
Qed.

(** ** Mapping *)

Definition set_pte (k v : Z) (P : pt) : pt :=
  Pt (tabs P) (partial_alter (fun _ => if v =? 0 then None else Some v) k (leaf P)).

Lemma leaf_entry m P root v : pt_rep m P root -> is_Some (tabs P !! (0%nat, v / 512)) ->
  slot_of P v <> 0 /\ ld64 m (slot_of P v) = default 0 (leaf P !! v).
Proof.
  intros H [q Hq]. unfold slot_of. rewrite Hq. destruct (pr_key _ _ _ H _ _ _ Hq) as [Hok _].
  pose proof (page_ok_bounds kend Hend q Hok). assert (0 <= v mod 512 < 512) by (apply Z.mod_pos_bound; lia).
  split; [lia|]. rewrite (pr_mem _ _ _ H _ _ _ _ Hq) by done. by rewrite split_join.
Qed.

Lemma good_nonzero v : good_pte v -> (v =? 0) = false /\ has v PTE_V = true.
Proof.
  intros (pa & f & -> & ? & ? & ? & Hf). assert (has (mkpte pa f) PTE_V = true) as Hh
    by (rewrite mkpte_has by (unfold PTE_V; lia); done).
  split; [|done]. apply Z.eqb_neq. intros E. by rewrite E in Hh.
Qed.

Lemma put_leaf P root k v s free :
  kinv kend s free -> pt_rep (kmem_mem s) P root -> NoDup (tables P ++ free) ->
  is_Some (tabs P !! (0%nat, k / 512)) -> 0 <= k < VPNS -> v = 0 \/ good_pte v ->
  let m' := st64 (kmem_mem s) (slot_of P k) v in
  kinv kend (set_mem m' s) free /\ pt_rep m' (set_pte k v P) root /\
  (forall a, PGROUNDDOWN a ∉ tables P -> rd m' a = rd (kmem_mem s) a).
Proof.
  intros Hk H Hnd [q Hq] Hkr Hv.
  assert (slot_of P k = q + 8 * (k mod 512)) as -> by (unfold slot_of; by rewrite Hq). intros m'.
  apply NoDup_app in Hnd as (_ & Hdis & _).
  assert (q ∈ tables P) as Hqt by (apply in_tables; eauto).
  assert (forall a, PGROUNDDOWN a ∉ tables P -> rd m' a = rd (kmem_mem s) a) as Hf.
  { intros a Ha. unfold m'. destruct (pr_key _ _ _ H _ _ _ Hq) as [[Hm _] _].
    assert (0 <= k mod 512 < 512) as Hj by (apply Z.mod_pos_bound; lia).
    pose proof (slot_page q (k mod 512) Hm Hj a) as Hs. apply rd_st64_ne.
    destruct (decide (q + 8 * (k mod 512) <= a < q + 8 * (k mod 512) + 8)) as [Hin|]; [|lia].
    rewrite Hs in Ha by done. done. }
  split_and!; [|by apply set_leaf|done].
  apply kinv_frame; [|done]. intros a Ha. apply Hf. intros Ht. by eapply Hdis.
Qed.

(** Virtual pages [k ..] mapped to the physical pages from [pa] on. *)
Fixpoint map_range (n : nat) (k pa f : Z) (L : gmap Z Z) : gmap Z Z :=
  match n with O => L | S n => map_range n (k + 1) (pa + PGSIZE) f (<[k := mkpte pa f]> L) end.

Lemma lookup_map_range n k pa f L j :
  map_range n k pa f L !! j =
  if decide (k <= j < k + Z.of_nat n) then Some (mkpte (pa + (j - k) * PGSIZE) f) else L !! j.
Proof.
  revert k pa L. induction n as [|n IH]; intros k pa L; cbn [map_range].
  - by rewrite decide_False by lia.
  - rewrite IH. destruct (decide (k = j)) as [->|Hne].
    + rewrite decide_False, decide_True by lia. rewrite lookup_insert_eq. do 2 f_equal. lia.
    + rewrite lookup_insert_ne by done.
      destruct (decide (k <= j < k + Z.of_nat (S n))) as [Hin|Hin].
      * rewrite decide_True by lia. do 2 f_equal. lia.
      * by rewrite decide_False by lia.
Qed.

Lemma grow_put K P P1 k v free free1 m m1 m2 :
  grow K P P1 free free1 m m1 -> (forall a, PGROUNDDOWN a ∉ tables P1 -> rd m2 a = rd m1 a) ->
  grow K P (set_pte k v P1) free free1 m m2.
Proof.
  intros [A1 A2 A3 A4] Hf. split; try done. intros a Ha. rewrite Hf; [by apply A4|].
  intros Ht. apply Ha. rewrite <- A3. apply elem_of_app. by left.
Qed.

Definition on_paths (k : Z) (n : nat) (i : nat * Z) : Prop := exists v, k <= v < k + Z.of_nat n /\ on_path v i.

(** One round: the walk, and the entry it finds. *)
Lemma map_one P root k s free :
  kinv kend s free -> pt_rep (kmem_mem s) P root -> NoDup (tables P ++ free) -> 0 <= k < VPNS ->
  exists r s1 P1 free1, walk root (k * PGSIZE) true s = Ret r s1 /\ kinv kend s1 free1 /\
    pt_rep (kmem_mem s1) P1 root /\ leaf P1 = leaf P /\
    grow (on_path k) P P1 free free1 (kmem_mem s) (kmem_mem s1) /\
    (r = 0 /\ free1 = [] \/
     r <> 0 /\ ld64 (kmem_mem s1) r = default 0 (leaf P !! k) /\
     forall v, v = 0 \/ good_pte v ->
       let m2 := st64 (kmem_mem s1) r v in
       kinv kend (set_mem m2 s1) free1 /\ pt_rep m2 (set_pte k v P1) root /\
       grow (on_path k) P (set_pte k v P1) free free1 (kmem_mem s) m2).
Proof.
  intros Hk H Hnd Hkr.
  destruct (walk_alloc P root (k * PGSIZE) s free Hk H Hnd) as (r & s1 & P1 & free1 & He & Hk1 & H1 & Hl1 & Hg1 & Hr).
  { rewrite MAXVA_eq. rewrite VPNS_eq in Hkr. unfold PGSIZE. lia. }
  rewrite Z.div_mul in Hr, Hg1 by (unfold PGSIZE; lia).
  exists r, s1, P1, free1. split_and!; try done. destruct Hr as [Hr|[Htab ->]]; [by left|right].
  destruct (leaf_entry _ _ _ _ H1 Htab) as [Hs Hld]. rewrite Hl1 in Hld. split_and!; try done.
  intros v Hv. assert (NoDup (tables P1 ++ free1)) as Hnd1 by (rewrite (g_perm _ _ _ _ _ _ _ Hg1); done).
  destruct (put_leaf P1 root k v s1 free1 Hk1 H1 Hnd1 Htab Hkr Hv) as (? & ? & ?). split_and!; try done.
  by eapply grow_put.
Qed.

Lemma mappages_loop_spec n k pa perm P root s free :
  kinv kend s free -> pt_rep (kmem_mem s) P root -> NoDup (tables P ++ free) ->
  0 <= k -> k + Z.of_nat (S n) <= VPNS -> 0 <= pa -> pa + Z.of_nat (S n) * PGSIZE <= 2 ^ 56 -> pa mod PGSIZE = 0 ->
  0 <= perm < 1024 -> (forall v, k <= v < k + Z.of_nat (S n) -> leaf P !! v = None) ->
  exists r s' P' free' i, mappages_loop (S n) root (k * PGSIZE) ((k + Z.of_nat n) * PGSIZE) pa perm s = Ret r s' /\
    kinv kend s' free' /\ pt_rep (kmem_mem s') P' root /\
    leaf P' = map_range i k pa (Z.lor perm PTE_V) (leaf P) /\
    grow (on_paths k (S n)) P P' free free' (kmem_mem s) (kmem_mem s') /\
    (r = 0 /\ i = S n \/ r = -1 /\ (i <= n)%nat /\ free' = []).
Proof.
  revert k pa P s free. induction n as [n IH] using lt_wf_ind.
  intros k pa P s free Hk H Hnd Hk0 Hk1 Hp0 Hp1 Hpm Hperm Hnone. rewrite VPNS_eq in *.
  destruct (map_one P root k s free Hk H Hnd) as (r & s1 & P1 & free1 & He & Hk1' & H1 & Hl1 & Hg1 & Hr);
    [rewrite VPNS_eq; lia|].
  cbn [mappages_loop]. erewrite bind_ret by exact He.
  assert (forall i, on_path k i -> on_paths k (S n) i) as Hon by (intros i Hi; exists k; split; [lia | done]).
  destruct Hr as [[-> ->]|(Hr0 & Hld & Hput)].
  { exists (-1), s1, P1, [], O. simpl. split_and!; try done; [by eapply grow_mono | right; split_and!; (done || lia)]. }
  rewrite (proj2 (Z.eqb_neq r 0)) by done. erewrite bind_ret by reflexivity.
  rewrite Hld, Hnone by lia. change (has (default 0 None) PTE_V) with false. cbv iota.
  destruct (PA2PTE_perm pa perm ltac:(unfold PGSIZE in *; lia) Hperm) as [-> Hf].
  set (f := Z.lor perm PTE_V) in *.
  assert (good_pte (mkpte pa f)) as Hgood.
  { exists pa, f. split_and!; try done; try lia; [unfold PGSIZE in *; lia|]. unfold has, f.
    rewrite Z.land_comm, Z.land_lor_distr_r. apply negb_true_iff, Z.eqb_neq. intros [_ Hb]%Z.lor_eq_0_iff. done. }
  destruct (Hput (mkpte pa f) (or_intror Hgood)) as (Hk2 & H2 & Hg2).
  erewrite bind_ret by reflexivity.
  assert (leaf (set_pte k (mkpte pa f) P1) = <[k := mkpte pa f]> (leaf P)) as Hl2.
  { simpl. rewrite Hl1. by rewrite (proj1 (good_nonzero _ Hgood)). }
  destruct n as [|n].
  - rewrite (proj2 (Z.eqb_eq _ _)) by (simpl; lia).
    exists 0, (set_mem (st64 (kmem_mem s1) r (mkpte pa f)) s1), (set_pte k (mkpte pa f) P1), free1, 1%nat.
    split_and!; try done; [by eapply grow_mono | by left].
  - rewrite (proj2 (Z.eqb_neq _ _)) by (unfold PGSIZE; lia).
    rewrite !u64_small by (unfold PGSIZE in *; lia).
    destruct (IH n ltac:(lia) (k + 1) (pa + PGSIZE) _ _ _ Hk2 H2) as (r' & s' & P' & free' & i & He' & Hk' & H' & Hl' & Hg' & Hr').
    + rewrite (g_perm _ _ _ _ _ _ _ Hg2). done.
    + lia.
    + lia.
    + unfold PGSIZE in *; lia.
    + unfold PGSIZE in *; lia.
    + rewrite <- Hpm. rewrite <- (Z.mod_add pa 1) by (unfold PGSIZE; lia). f_equal; lia.
    + done.
    + intros v Hv. rewrite Hl2, lookup_insert_ne by lia. apply Hnone. lia.
    + replace (k * PGSIZE + PGSIZE) with ((k + 1) * PGSIZE) by lia.
      replace (k + Z.of_nat (S n)) with (k + 1 + Z.of_nat n) by lia.
      exists r', s', P', free', (S i). split_and!; try done.
      * by rewrite Hl', Hl2.
      * eapply grow_trans; [by eapply grow_mono|]. eapply grow_mono; [|exact Hg'].
        intros j (v & Hv & Hj). exists v. split; [lia | done].
      * destruct Hr' as [[-> ->]|(-> & ? & ->)]; [by left | right; split_and!; (done || lia)].
Qed.

Lemma mappages_spec n k pa perm P root s free :
  kinv kend s free -> pt_rep (kmem_mem s) P root -> NoDup (tables P ++ free) ->
  0 <= k -> k + Z.of_nat n <= VPNS -> (0 < n)%nat -> 0 <= pa -> pa + Z.of_nat n * PGSIZE <= 2 ^ 56 -> pa mod PGSIZE = 0 ->
  0 <= perm < 1024 -> (forall v, k <= v < k + Z.of_nat n -> leaf P !! v = None) ->
  exists r s' P' free' i, mappages root (k * PGSIZE) (Z.of_nat n * PGSIZE) pa perm s = Ret r s' /\
    kinv kend s' free' /\ pt_rep (kmem_mem s') P' root /\
    leaf P' = map_range i k pa (Z.lor perm PTE_V) (leaf P) /\
    grow (on_paths k n) P P' free free' (kmem_mem s) (kmem_mem s') /\
    (r = 0 /\ i = n \/ r = -1 /\ (i < n)%nat /\ free' = []).
Proof.
  intros Hk H Hnd Hk0 Hk1 Hn Hp0 Hp1 Hpm Hperm Hnone. destruct n as [|n]; [lia|].
  unfold mappages. rewrite !Z.mod_mul by (unfold PGSIZE; lia). cbn [negb].
  rewrite (proj2 (Z.eqb_neq (Z.of_nat (S n) * PGSIZE) 0)) by (unfold PGSIZE; lia).
  rewrite Z.div_mul, Nat2Z.id by (unfold PGSIZE; lia).
  rewrite u64_small by (rewrite VPNS_eq in Hk1; unfold PGSIZE; lia).
  replace (k * PGSIZE + Z.of_nat (S n) * PGSIZE - PGSIZE) with ((k + Z.of_nat n) * PGSIZE) by lia.
  destruct (mappages_loop_spec n k pa perm P root s free) as (r & s' & P' & free' & i & ? & ? & ? & ? & ? & Hr); try done.
  exists r, s', P', free', i. split_and!; try done. destruct Hr as [?|(? & ? & ?)]; [by left | right; split_and!; (done || lia)].
Qed.

(** ** Unmapping *)

Fixpoint unmap_range (n : nat) (k : Z) (L : gmap Z Z) : gmap Z Z :=
  match n with O => L | S n => unmap_range n (k + 1) (delete k L) end.

Lemma lookup_unmap_range n k L j :
  unmap_range n k L !! j = if decide (k <= j < k + Z.of_nat n) then None else L !! j.
Proof.
  revert k L. induction n as [|n IH]; intros k L; cbn [unmap_range].
  - by rewrite decide_False by lia.
  - rewrite IH. destruct (decide (k = j)) as [->|Hne].
    + rewrite decide_False, decide_True by lia. by rewrite lookup_delete_eq.
    + rewrite lookup_delete_ne by done. repeat case_decide; (done || lia).
Qed.

(** The physical pages of virtual pages [k ..]. *)
Fixpoint pas (n : nat) (k : Z) (L : gmap Z Z) : list Z :=
  match n with O => [] | S n => PTE2PA (default 0 (L !! k)) :: pas n (k + 1) L end.

Lemma pas_ext n k L L' : (forall v, k <= v < k + Z.of_nat n -> L !! v = L' !! v) -> pas n k L = pas n k L'.
Proof.
  revert k. induction n as [|n IH]; intros k He; [done|]. cbn [pas]. f_equal; [by rewrite He by lia|].
  apply IH. intros v Hv. apply He. lia.
Qed.

Lemma length_pas n k L : length (pas n k L) = n.
Proof. revert k. induction n; intros; simpl; auto. Qed.

Lemma pas_app n m k L : pas (n + m) k L = pas n k L ++ pas m (k + Z.of_nat n) L.
Proof.
  revert k. induction n as [|n IH]; intros k; [simpl; by rewrite Z.add_0_r|].
  cbn [pas Nat.add app]. rewrite IH. do 3 f_equal. lia.
Qed.

Lemma lookup_pas n k L i : (i < n)%nat -> pas n k L !! i = Some (PTE2PA (default 0 (L !! (k + Z.of_nat i)))).
Proof.
  revert k i. induction n as [|n IH]; intros k i Hi; [lia|]. destruct i as [|i]; cbn [pas].
  - simpl. by rewrite Z.add_0_r.
  - cbn [lookup list_lookup]. rewrite IH by lia. by replace (k + 1 + Z.of_nat i) with (k + Z.of_nat (S i)) by lia.
Qed.

Lemma pas_snoc m k L q f : page_ok kend q -> 0 <= f < 1024 ->
  pas (S m) k (<[k + Z.of_nat m := mkpte q f]> L) = pas m k L ++ [q].
Proof.
  intros Hq Hf. pose proof (page_ok_bounds kend Hend q Hq).
  replace (S m) with (m + 1)%nat by lia. rewrite pas_app. simpl. rewrite lookup_insert_eq. simpl.
  rewrite mkpte_pa by (lia || apply Hq). f_equal. apply pas_ext. intros v Hv. by rewrite lookup_insert_ne by lia.
Qed.

Lemma set_zero k P : set_pte k 0 P = Pt (tabs P) (delete k (leaf P)).
Proof. done. Qed.

(** Freeing a page that is neither free nor a table. *)
Lemma free_step (fr : bool) pa P root s free :
  kinv kend s free -> pt_rep (kmem_mem s) P root ->
  (fr = true -> page_ok kend pa /\ pa ∉ tables P /\ pa ∉ free) ->
  let g := if fr then [pa] else [] in
  exists s1, when fr (kfree kend pa) s = Ret tt s1 /\ kinv kend s1 (g ++ free) /\ pt_rep (kmem_mem s1) P root /\
    forall a, PGROUNDDOWN a ∉ g -> rd (kmem_mem s1) a = rd (kmem_mem s) a.
Proof.
  intros Hk H Hpa g. unfold g. destruct fr; [|exists s; by split_and!].
  destruct (Hpa eq_refl) as (Hok & Hnt & Hnf). destruct (kfree_ok kend Hend pa s free Hk Hok Hnf) as [E Hk'].
  assert (forall a, PGROUNDDOWN a ∉ [pa] -> rd (kmem_mem (kfreed pa s)) a = rd (kmem_mem s) a) as Hfr.
  { intros a Ha. simpl. apply rd_st64_ne. pose proof (PGROUNDDOWN_in pa a (proj1 Hok)) as Hin. unfold PGSIZE in *.
    destruct (decide (a < pa \/ pa + 8 <= a)) as [|?]; [done|]. exfalso. apply Ha. rewrite Hin by lia. left. }
  exists (kfreed pa s). split_and!; try done. eapply pt_rep_frame; [|done]. intros a Ha. apply Hfr.
  intros E'%list_elem_of_singleton. by rewrite E' in Ha.
Qed.

Lemma uvmunmap_loop_spec n fuel k (fr : bool) P root s free :
  let gone := if fr then pas n k (leaf P) else [] in
  kinv kend s free -> pt_rep (kmem_mem s) P root -> NoDup (tables P ++ gone ++ free) -> Forall (page_ok kend) gone ->
  0 <= k -> k + Z.of_nat n <= VPNS -> (n < fuel)%nat ->
  (forall v, k <= v < k + Z.of_nat n -> exists e, leaf P !! v = Some e /\ PTE_FLAGS e <> PTE_V) ->
  exists s', uvmunmap_loop kend fuel root (k * PGSIZE) ((k + Z.of_nat n) * PGSIZE) fr s = Ret tt s' /\
    kinv kend s' (reverse gone ++ free) /\ pt_rep (kmem_mem s') (Pt (tabs P) (unmap_range n k (leaf P))) root /\
    (forall a, PGROUNDDOWN a ∉ tables P ++ gone -> rd (kmem_mem s') a = rd (kmem_mem s) a).
Proof.
  revert fuel k P s free. induction n as [|n IH]; intros fuel k P s free gone Hk H Hnd Hok Hk0 Hk1 Hfuel Hmap;
    (destruct fuel as [|fuel]; [lia|]); cbn [uvmunmap_loop].
  - assert (gone = []) as -> by (unfold gone; by destruct fr).
    rewrite (proj2 (Z.ltb_ge _ _)) by lia. exists s. destruct P. split_and!; try done.
  - rewrite (proj2 (Z.ltb_lt _ _)) by (unfold PGSIZE; lia).
    destruct (Hmap k ltac:(lia)) as (e & He & Hef).
    destruct (pr_leaf _ _ _ H _ _ He) as ((pa & f & -> & Hpa & Hpm & Hf & Hfv) & Hkr & Htab).
    erewrite bind_ret by (apply (walk_find P); [done | rewrite VPNS_eq in *; rewrite MAXVA_eq; unfold PGSIZE; lia]).
    rewrite Z.div_mul by (unfold PGSIZE; lia).
    destruct (leaf_entry _ _ _ _ H Htab) as [Hs0 Hld]. rewrite He in Hld. simpl in Hld.
    rewrite (proj2 (Z.eqb_neq _ 0)) by done. erewrite bind_ret by reflexivity. rewrite Hld.
    rewrite mkpte_has by (unfold PTE_V; lia). rewrite Hfv. cbn [negb].
    rewrite (proj2 (Z.eqb_neq _ _)) by done. rewrite mkpte_pa by done.
    set (g1 := if fr then [pa] else []).
    assert (gone = g1 ++ if fr then pas n (k + 1) (leaf P) else []) as Hgone.
    { unfold gone, g1. destruct fr; [|done]. cbn [pas]. rewrite He. simpl. by rewrite mkpte_pa. }
    set (gone' := if fr then pas n (k + 1) (leaf P) else []) in *. rewrite Hgone in *. clear Hgone gone.
    apply Forall_app in Hok as [Hok1 Hok'].
    destruct (free_step fr pa P root s free Hk H) as (s1 & He1 & Hk1' & H1 & Hf1).
    { intros ->. apply NoDup_app in Hnd as (_ & Hdis & Hndf). unfold g1 in *. simpl in *. apply NoDup_cons in Hndf as [Hin _].
      rewrite Forall_singleton in Hok1. split_and!; [done | |].
      - intros Ht. eapply Hdis; [done | left].
      - intros ?. apply Hin, elem_of_app. by right. }
    erewrite bind_ret by exact He1.
    assert (NoDup (tables P ++ gone' ++ g1 ++ free)) as Hnd'.
    { rewrite (app_assoc gone'), (Permutation_app_comm gone' g1), <- app_assoc. by rewrite <- app_assoc in Hnd. }
    assert (NoDup (tables P ++ g1 ++ free)) as Hnd1.
    { rewrite (Permutation_app_comm gone'), app_assoc in Hnd'. by apply NoDup_app in Hnd' as [? _]. }
    destruct (put_leaf P root k 0 s1 (g1 ++ free) Hk1' H1 Hnd1 Htab Hkr (or_introl eq_refl)) as (Hk2 & H2 & Hf2).
    erewrite bind_ret by reflexivity. rewrite set_zero in H2.
    rewrite u64_small by (rewrite VPNS_eq in *; unfold PGSIZE; lia).
    replace (k * PGSIZE + PGSIZE) with ((k + 1) * PGSIZE) by lia.
    replace (k + Z.of_nat (S n)) with (k + 1 + Z.of_nat n) in * by lia.
    assert (pas n (k + 1) (delete k (leaf P)) = pas n (k + 1) (leaf P)) as Hpas.
    { apply pas_ext. intros v Hv. by rewrite lookup_delete_ne by lia. }
    destruct (IH fuel (k + 1) _ _ _ Hk2 H2) as (s' & He' & Hk' & H' & Hf').
    + simpl. by rewrite Hpas.
    + simpl. by rewrite Hpas.
    + lia.
    + lia.
    + lia.
    + intros v Hv. simpl. rewrite lookup_delete_ne by lia. apply Hmap. lia.
    + simpl in Hk', Hf'. rewrite Hpas in Hk', Hf'. exists s'. split_and!; try done.
      * rewrite reverse_app, <- app_assoc. unfold g1 in *. by destruct fr.
      * intros a Ha. rewrite !elem_of_app in Ha. rewrite Hf' by (rewrite elem_of_app; fold gone'; tauto).
        simpl. rewrite Hf2 by tauto. apply Hf1. tauto.
Qed.

Lemma uvmunmap_spec n k (fr : bool) P root s free :
  let gone := if fr then pas n k (leaf P) else [] in
  kinv kend s free -> pt_rep (kmem_mem s) P root -> NoDup (tables P ++ gone ++ free) -> Forall (page_ok kend) gone ->
  0 <= k -> k + Z.of_nat n <= VPNS ->
  (forall v, k <= v < k + Z.of_nat n -> exists e, leaf P !! v = Some e /\ PTE_FLAGS e <> PTE_V) ->
  exists s', uvmunmap kend root (k * PGSIZE) (Z.of_nat n) fr s = Ret tt s' /\
    kinv kend s' (reverse gone ++ free) /\ pt_rep (kmem_mem s') (Pt (tabs P) (unmap_range n k (leaf P))) root /\
    (forall a, PGROUNDDOWN a ∉ tables P ++ gone -> rd (kmem_mem s') a = rd (kmem_mem s) a).
Proof.
  intros gone Hk H Hnd Hok Hk0 Hk1 Hmap. unfold uvmunmap. rewrite Z.mod_mul by (unfold PGSIZE; lia). cbn [negb].
  rewrite Nat2Z.id. pose proof VPNS_eq as HV. rewrite (u64_small (Z.of_nat n * PGSIZE)) by (unfold PGSIZE; lia).
  rewrite u64_small by (unfold PGSIZE; lia). replace (k * PGSIZE + Z.of_nat n * PGSIZE) with ((k + Z.of_nat n) * PGSIZE) by lia.
  apply uvmunmap_loop_spec; (done || lia).
Qed.

(** ** User address spaces *)

(** The first [n] virtual pages are mapped, to pages the address space owns: not
    free, not tables, and each mapped once.  Above them only the trap pages may be
    mapped, and not for the user. *)
Record uspace (s : kmem) (P : pt) (root : Z) (n : nat) (free : list Z) : Prop := {
  us_k : kinv kend s free;
  us_rep : pt_rep (kmem_mem s) P root;
  us_sep : NoDup (tables P ++ pas n 0 (leaf P) ++ free);
  us_pages : Forall (page_ok kend) (pas n 0 (leaf P));
  us_map : forall v, 0 <= v < Z.of_nat n -> exists e, leaf P !! v = Some e /\ PTE_FLAGS e <> PTE_V;
  us_top : forall v e, leaf P !! v = Some e ->
    v < Z.of_nat n \/ TRAPFRAME / PGSIZE <= v /\ has e PTE_U = false
}.

Lemma top_eq : TRAPFRAME / PGSIZE = 2 ^ 26 - 2.
Proof. done. Qed.

Lemma us_nd s P root n free : uspace s P root n free -> NoDup (tables P ++ free).
Proof.
  intros [_ _ H _ _ _]. rewrite (Permutation_app_comm (pas _ _ _)), app_assoc in H. by apply NoDup_app in H as [? _].
Qed.

(** The page table got more tables and nothing else. *)
Lemma uspace_grow K s s' P P' root n free free' :
  uspace s P root n free -> grow K P P' free free' (kmem_mem s) (kmem_mem s') -> kinv kend s' free' ->
  pt_rep (kmem_mem s') P' root -> leaf P' = leaf P -> uspace s' P' root n free'.
Proof.
  intros [H1 H2 H3 H4 H5 H6] Hg Hk H Hl. split; rewrite ?Hl; try done.
  rewrite (Permutation_app_comm (pas _ _ _)), app_assoc, (g_perm _ _ _ _ _ _ _ Hg), <- app_assoc.
  by rewrite (Permutation_app_comm free).
Qed.

(** Shrinking from [n] to [n'] pages. *)
Lemma shrink_spec s P root n n' free :
  uspace s P root n free -> (n' <= n)%nat -> Z.of_nat n <= TRAPFRAME / PGSIZE ->
  let gone := pas (n - n') (Z.of_nat n') (leaf P) in
  let P' := Pt (tabs P) (unmap_range (n - n') (Z.of_nat n') (leaf P)) in
  exists s', uvmunmap kend root (Z.of_nat n' * PGSIZE) (Z.of_nat (n - n')) true s = Ret tt s' /\
    uspace s' P' root n' (reverse gone ++ free) /\
    (forall a, PGROUNDDOWN a ∉ tables P ++ gone -> rd (kmem_mem s') a = rd (kmem_mem s) a).
Proof.
  intros [H1 H2 H3 H4 H5 H6] Hle Hn gone P'. rewrite top_eq in *.
  assert (pas n 0 (leaf P) = pas n' 0 (leaf P) ++ gone) as Hsplit.
  { unfold gone. replace n with (n' + (n - n'))%nat at 1 by lia. rewrite pas_app. done. }
  rewrite Hsplit in *. apply Forall_app in H4 as [H4 H4'].
  rewrite <- app_assoc in H3.
  destruct (uvmunmap_spec (n - n') (Z.of_nat n') true P root s free H1 H2) as (s' & He & Hk & Hr & Hf); simpl.
  - rewrite app_assoc, (Permutation_app_comm (tables P)), <- app_assoc in H3. by apply NoDup_app in H3 as (_ & _ & ?).
  - done.
  - lia.
  - rewrite VPNS_eq. lia.
  - intros v Hv. apply H5. lia.
  - simpl in Hk, Hf. fold gone in Hk, Hf. exists s'. split_and!; try done.
    assert (pas n' 0 (leaf P') = pas n' 0 (leaf P)) as Hpas.
    { apply pas_ext. intros v Hv. simpl. rewrite lookup_unmap_range. by rewrite decide_False by lia. }
    split; rewrite ?Hpas; try done.
    + change (tables P') with (tables P). by rewrite reverse_Permutation.
    + intros v Hv. simpl. rewrite lookup_unmap_range, decide_False by lia. apply H5. lia.
    + intros v e. simpl. rewrite lookup_unmap_range. case_decide; [done|]. intros [?|?]%H6; [left; lia | by right].
Qed.

Lemma PGROUNDUP_page n : Z.of_nat n <= 2 ^ 26 -> PGROUNDUP (Z.of_nat n * PGSIZE) = Z.of_nat n * PGSIZE.
Proof. intros. apply PGROUNDUP_aligned; [unfold PGSIZE; lia | unfold PGSIZE; lia | apply Z.mod_mul; unfold PGSIZE; lia]. Qed.

(** [uvmdealloc] of whole pages. *)
Lemma uvmdealloc_pages s P root n n' free :
  uspace s P root n free -> (n' <= n)%nat -> Z.of_nat n <= TRAPFRAME / PGSIZE ->
  let gone := pas (n - n') (Z.of_nat n') (leaf P) in
  let P' := Pt (tabs P) (unmap_range (n - n') (Z.of_nat n') (leaf P)) in
  exists s', uvmdealloc kend root (Z.of_nat n * PGSIZE) (Z.of_nat n' * PGSIZE) s = Ret (Z.of_nat n' * PGSIZE) s' /\
    uspace s' P' root n' (reverse gone ++ free) /\
    (forall a, PGROUNDDOWN a ∉ tables P ++ gone -> rd (kmem_mem s') a = rd (kmem_mem s) a).
Proof.
  intros H Hle Hn gone P'. unfold uvmdealloc. rewrite top_eq in *. destruct (decide (n' = n)) as [->|Hne].
  - rewrite (proj2 (Z.leb_le _ _)) by lia. exists s. unfold gone, P'. rewrite Nat.sub_diag. simpl. destruct P. by split_and!.
  - rewrite (proj2 (Z.leb_gt _ _)) by (unfold PGSIZE; lia). rewrite !PGROUNDUP_page by lia.
    rewrite (proj2 (Z.ltb_lt _ _)) by (unfold PGSIZE; lia). cbn [when].
    rewrite <- Z.mul_sub_distr_r, Z.div_mul, i32_small by (unfold PGSIZE; lia).
    rewrite <- Nat2Z.inj_sub by done.
    destruct (shrink_spec s P root n n' free H Hle) as (s' & He & Hu & Hf); [rewrite top_eq; lia|].
    erewrite bind_ret by exact He. by exists s'.
Qed.

(** One more page at the end of the address space. *)
Lemma extend_spec s P root n q free perm :
  uspace s P root n (q :: free) -> Z.of_nat n < TRAPFRAME / PGSIZE -> 0 <= perm < 1024 -> Z.lor perm PTE_V <> PTE_V ->
  forall s1, kinv kend s1 free -> (forall a, PGROUNDDOWN a <> q -> rd (kmem_mem s1) a = rd (kmem_mem s) a) ->
  exists r s' P' free', mappages root (Z.of_nat n * PGSIZE) PGSIZE q perm s1 = Ret r s' /\
    grow (on_path (Z.of_nat n)) P P' free free' (kmem_mem s1) (kmem_mem s') /\
    (r = 0 /\ uspace s' P' root (S n) free' /\ leaf P' = <[Z.of_nat n := mkpte q (Z.lor perm PTE_V)]> (leaf P) \/
     r = -1 /\ leaf P' = leaf P /\ kinv kend s' free' /\ pt_rep (kmem_mem s') P' root /\ free' = []).
Proof.
  intros H Hn Hperm Hleaf s1 Hk1 Hm1. pose proof (us_nd _ _ _ _ _ H) as Hnd.
  destruct H as [H1 H2 H3 H4 H5 H6]. rewrite top_eq in *.
  pose proof (kinv_pages _ _ _ H1) as [Hq _]%Forall_cons. pose proof (page_ok_bounds kend Hend q Hq) as Hqb.
  apply NoDup_app in Hnd as (Hnt & Hdis & Hnf).
  assert (pt_rep (kmem_mem s1) P root) as H1'.
  { eapply pt_rep_frame; [|exact H2]. intros a Ha. apply Hm1. intros E. rewrite E in Ha. eapply Hdis; [done | left]. }
  destruct (mappages_spec 1 (Z.of_nat n) q perm P root s1 free Hk1 H1') as (r & s' & P' & free' & i & He & Hk' & H' & Hl' & Hg & Hr);
    try done; try lia.
  - apply NoDup_app. split_and!; [done | | by apply NoDup_cons in Hnf as [_ ?]].
    intros x Hx Hf. eapply Hdis; [done | by right].
  - rewrite VPNS_eq. lia.
  - unfold PGSIZE. lia.
  - apply Hq.
  - intros v Hv. destruct (leaf P !! v) eqn:E; [|done]. destruct (H6 _ _ E) as [?|[? _]]; lia.
  - rewrite Z.mul_1_l in He. exists r, s', P', free'. split; [done|].
    split. { eapply grow_mono; [|exact Hg]. intros j (v & Hv & Hj). by replace (Z.of_nat n) with v by lia. }
    destruct Hr as [[-> ->]|(-> & Hi & ->)]; [left | right; by replace i with O in Hl' by lia].
    simpl in Hl'. destruct (PA2PTE_perm q perm ltac:(lia) Hperm) as [_ Hf].
    assert (pas (S n) 0 (leaf P') = pas n 0 (leaf P) ++ [q]) as Hpas.
    { rewrite Hl'. by apply (pas_snoc n 0). }
    split_and!; [done | | done]. split; rewrite ?Hpas; try done.
    + rewrite (Permutation_app_comm (pas _ _ _ ++ _)), app_assoc, (g_perm _ _ _ _ _ _ _ Hg).
      rewrite (Permutation_app_comm (pas _ _ _)), <- app_assoc, (app_assoc free), (Permutation_app_comm free).
      simpl. by rewrite (Permutation_app_comm (pas _ _ _)) in H3.
    + apply Forall_app. split; [done | by apply Forall_singleton].
    + intros v Hv. rewrite Hl'. destruct (decide (v = Z.of_nat n)) as [->|].
      * rewrite lookup_insert_eq. eexists. split; [done|]. by rewrite mkpte_flags.
      * rewrite lookup_insert_ne by lia. apply H5. lia.
    + intros v e. rewrite Hl', lookup_insert. case_decide as E; [intros _; left; lia|].
      intros [?|?]%H6; [left; lia | by right].
Qed.

(** The flags of [uvmalloc]'s pages. *)
Definition uflags (xperm : Z) : Z := Z.lor (Z.lor (Z.lor PTE_R PTE_U) xperm) PTE_V.

Lemma uflags_ok xperm : 0 <= xperm < 1024 ->
  0 <= Z.lor (Z.lor PTE_R PTE_U) xperm < 1024 /\ uflags xperm <> PTE_V.
Proof.
  intros Hx. split; [apply lor_1024; [done | lia]|]. intros E.
  assert (Z.testbit (uflags xperm) 1 = true) as Hb by (unfold uflags; by rewrite !Z.lor_spec).
  by rewrite E in Hb.
Qed.

Lemma kalloc_uspace s P root n q free : uspace s P root n (q :: free) ->
  q <> 0 /\ exists s1, kalloc s = Ret q s1 /\ kinv kend s1 free /\ kmem_mem s1 = kmem_mem s.
Proof.
  intros H. destruct (kalloc_some kend Hend s q free (us_k _ _ _ _ _ H)) as (s1 & He & Hk & Hm).
  pose proof (kinv_pages _ _ _ (us_k _ _ _ _ _ H)) as [Hq _]%Forall_cons.
  pose proof (page_ok_bounds kend Hend q Hq). split; [lia | by exists s1].
Qed.

(** After a failure to map the new page [q] it is given back. *)
Lemma give_back K s s1 s' P P' root n q free free' :
  uspace s P root n (q :: free) -> (forall a, PGROUNDDOWN a <> q -> rd (kmem_mem s1) a = rd (kmem_mem s) a) ->
  grow K P P' free free' (kmem_mem s1) (kmem_mem s') -> leaf P' = leaf P -> kinv kend s' free' -> pt_rep (kmem_mem s') P' root ->
  exists s2, kfree kend q s' = Ret tt s2 /\ uspace s2 P' root n (q :: free') /\
    tables P' ++ q :: free' ≡ₚ tables P ++ q :: free /\
    (forall a, PGROUNDDOWN a ∉ tables P ++ q :: free -> rd (kmem_mem s2) a = rd (kmem_mem s) a).
Proof.
  intros H Hm Hg Hl Hk' H'. pose proof (us_nd _ _ _ _ _ H) as Hnd. destruct H as [H1 H2 H3 H4 H5 H6].
  pose proof (kinv_pages _ _ _ H1) as [Hq _]%Forall_cons.
  assert (tables P' ++ q :: free' ≡ₚ tables P ++ q :: free) as Hperm.
  { rewrite <- !Permutation_middle. constructor. apply Hg. }
  assert (q ∉ tables P' /\ q ∉ free') as [Hqt Hqf].
  { rewrite <- Hperm in Hnd. apply NoDup_app in Hnd as (_ & Hd & Hnf). apply NoDup_cons in Hnf as [? _].
    split; [|done]. intros Ht. eapply Hd; [done | left]. }
  destruct (free_step true q P' root s' free' Hk' H') as (s2 & He & Hk2 & Hr2 & Hf2); [intros _; by split_and!|].
  exists s2. split_and!; try done.
  - split; rewrite ?Hl; try done. simpl.
    rewrite (Permutation_app_comm (pas _ _ _)), app_assoc, Hperm, <- app_assoc.
    by rewrite (Permutation_app_comm (q :: free)).
  - intros a Ha. rewrite Hf2.
    + rewrite elem_of_app, elem_of_cons in Ha. rewrite (g_frame _ _ _ _ _ _ _ Hg), Hm; [done | tauto |].
      rewrite elem_of_app. tauto.
    + intros E%list_elem_of_singleton. apply Ha. rewrite E, elem_of_app. right. left.
Qed.

(** Giving up: back to [n0] pages. *)
Lemma back_out s s1 P P1 root n0 n free free1 :
  uspace s1 P1 root n free1 -> (n0 <= n)%nat -> Z.of_nat n <= TRAPFRAME / PGSIZE ->
  leaf P1 = leaf P -> tables P1 ++ free1 ≡ₚ tables P ++ free ->
  (forall a, PGROUNDDOWN a ∉ tables P ++ free -> rd (kmem_mem s1) a = rd (kmem_mem s) a) ->
  exists s' P' free', (uvmdealloc kend root (Z.of_nat n * PGSIZE) (Z.of_nat n0 * PGSIZE);; mret 0) s1 = Ret 0 s' /\
    uspace s' P' root n0 free' /\ leaf P' = unmap_range (n - n0) (Z.of_nat n0) (leaf P) /\
    tables P' ++ pas n0 0 (leaf P') ++ free' ≡ₚ tables P ++ pas n 0 (leaf P) ++ free /\
    (forall a, PGROUNDDOWN a ∉ tables P ++ pas (n - n0) (Z.of_nat n0) (leaf P) ++ free ->
       rd (kmem_mem s') a = rd (kmem_mem s) a).
Proof.
  intros H Hle Hn Hl Hp Hf. destruct (uvmdealloc_pages s1 P1 root n n0 free1 H Hle Hn) as (s' & He & Hu & Hf').
  eexists s', _, _. erewrite bind_ret by exact He. split; [done|]. split; [exact Hu|]. simpl. rewrite Hl in *.
  split; [done|]. split.
  - change (tables (Pt (tabs P1) _)) with (tables P1).
    assert (pas n0 0 (unmap_range (n - n0) (Z.of_nat n0) (leaf P)) = pas n0 0 (leaf P)) as ->.
    { apply pas_ext. intros v Hv. rewrite lookup_unmap_range. by rewrite decide_False by lia. }
    replace n with (n0 + (n - n0))%nat at 2 by lia. rewrite pas_app, reverse_Permutation, Z.add_0_l.
    rewrite <- (app_assoc (pas n0 _ _)), !(app_assoc (pas n0 _ _)).
    rewrite (Permutation_app_comm (_ ++ pas (n - n0) _ _) free1), (Permutation_app_comm (_ ++ pas (n - n0) _ _) free).
    by rewrite !app_assoc, Hp.
  - intros a Ha. rewrite !elem_of_app in Ha.
    assert (PGROUNDDOWN a ∉ tables P ++ free) as Ha' by (rewrite elem_of_app; tauto).
    rewrite Hf'; [by apply Hf|]. rewrite elem_of_app. intros [Ht|Ht]; [|tauto].
    apply Ha'. rewrite <- Hp. apply elem_of_app. by left.
Qed.

Lemma uvmalloc_loop_spec k fuel s P root n0 n free newsz xperm :
  uspace s P root n free -> (n0 <= n)%nat -> Z.of_nat (n + k) <= TRAPFRAME / PGSIZE -> (k < fuel)%nat ->
  newsz <= Z.of_nat (n + k) * PGSIZE -> (k = O \/ (Z.of_nat (n + k) - 1) * PGSIZE < newsz) -> 0 <= xperm < 1024 ->
  exists r s' P' free' n',
    uvmalloc_loop kend fuel root (Z.of_nat n * PGSIZE) (Z.of_nat n0 * PGSIZE) newsz xperm s = Ret r s' /\
    uspace s' P' root n' free' /\
    tables P' ++ pas n' 0 (leaf P') ++ free' ≡ₚ tables P ++ pas n 0 (leaf P) ++ free /\
    (forall a, PGROUNDDOWN a ∉ tables P ++ pas (n - n0) (Z.of_nat n0) (leaf P) ++ free ->
       rd (kmem_mem s') a = rd (kmem_mem s) a) /\
    (r = newsz /\ n' = (n + k)%nat /\
       (forall v, leaf P' !! v = if decide (Z.of_nat n <= v < Z.of_nat n')
                                 then Some (mkpte (PTE2PA (default 0 (leaf P' !! v))) (uflags xperm)) else leaf P !! v) \/
     r = 0 /\ n' = n0 /\ leaf P' = unmap_range (n - n0) (Z.of_nat n0) (leaf P)).
Proof.
  rewrite top_eq. revert fuel s P n free. induction k as [|k IH]; intros fuel s P n free H Hn0 Htop Hfuel Hnew Hnew' Hx;
    (destruct fuel as [|fuel]; [lia|]); cbn [uvmalloc_loop].
  - rewrite (proj2 (Z.ltb_ge _ _)) by (rewrite Nat.add_0_r in Hnew; lia).
    exists newsz, s, P, free, n. split_and!; try done. left. split_and!; [done | lia |]. intros v. by rewrite decide_False by lia.
  - rewrite (proj2 (Z.ltb_lt _ _)) by (unfold PGSIZE in *; lia).
    destruct free as [|q free].
    { erewrite bind_ret by (apply (kalloc_none kend), H). rewrite Z.eqb_refl.
      destruct (back_out s s P P root n0 n [] [] H) as (s' & P' & free' & He & Hu & Hl & Hp & Hf); try done; [rewrite top_eq; lia|].
      exists 0, s', P', free', n0. split_and!; try done. right. by split_and!. }
    destruct (kalloc_uspace _ _ _ _ _ _ H) as (Hq0 & s1 & He1 & Hk1 & Hm1). erewrite bind_ret by exact He1.
    rewrite (proj2 (Z.eqb_neq _ _)) by done.
    destruct (uflags_ok xperm Hx) as [Hperm Hfl].
    destruct (extend_spec s P root n q free _ H ltac:(rewrite top_eq; lia) Hperm Hfl s1 Hk1) as (r & s2 & P2 & free2 & He2 & Hg2 & Hr);
      [intros a _; by rewrite Hm1|].
    erewrite bind_ret by exact He2.
    destruct Hr as [(-> & Hu2 & Hl2)|(-> & Hl2 & Hk2 & Hr2 & ->)].
    + rewrite Z.eqb_refl. cbn [negb]. rewrite u64_small by (unfold PGSIZE; lia).
      replace (Z.of_nat n * PGSIZE + PGSIZE) with (Z.of_nat (S n) * PGSIZE) by lia.
      destruct (IH fuel s2 P2 (S n) free2 Hu2) as (r & s' & P' & free' & n' & He' & Hu' & Hp' & Hf' & Hr');
        try lia; try done.
      pose proof (kinv_pages _ _ _ (us_k _ _ _ _ _ H)) as [Hq _]%Forall_cons.
      destruct (PA2PTE_perm q _ ltac:(pose proof (page_ok_bounds kend Hend q Hq); lia) Hperm) as [_ Hff].
      assert (pas (S n) 0 (leaf P2) = pas n 0 (leaf P) ++ [q]) as Hpas1 by (rewrite Hl2; by apply (pas_snoc n 0)).
      assert (pas (S n - n0) (Z.of_nat n0) (leaf P2) = pas (n - n0) (Z.of_nat n0) (leaf P) ++ [q]) as Hpas2.
      { rewrite Hl2, Nat.sub_succ_l by lia. replace (Z.of_nat n) with (Z.of_nat n0 + Z.of_nat (n - n0)) by lia. by apply pas_snoc. }
      pose proof (g_perm _ _ _ _ _ _ _ Hg2) as Hperm2.
      exists r, s', P', free', n'. split_and!; try done.
      * rewrite Hp', Hpas1. transitivity ((tables P2 ++ free2) ++ pas n 0 (leaf P) ++ [q]); [solve_Permutation|].
        rewrite Hperm2. solve_Permutation.
      * intros a Ha. rewrite !elem_of_app, elem_of_cons in Ha. rewrite Hf'.
        { rewrite (g_frame _ _ _ _ _ _ _ Hg2), Hm1; [done|]. rewrite elem_of_app. tauto. }
        rewrite Hpas2, !elem_of_app, list_elem_of_singleton.
        assert (PGROUNDDOWN a ∉ tables P2 ++ free2) as Hx' by (rewrite Hperm2, elem_of_app; tauto).
        rewrite elem_of_app in Hx'. tauto.
      * destruct Hr' as [(-> & -> & Hl')|(-> & -> & Hl')]; [left|right]; (split_and!; [done | lia |]).
        -- intros v. rewrite Hl' at 1. rewrite Hl2. destruct (decide (v = Z.of_nat n)) as [->|Hne].
           ++ rewrite decide_False, decide_True by lia. rewrite Hl', decide_False by lia. rewrite Hl2, lookup_insert_eq.
              simpl. rewrite mkpte_pa; [done | pose proof (page_ok_bounds kend Hend q Hq); lia | apply Hq | done].
           ++ rewrite lookup_insert_ne by done. repeat case_decide; (done || lia).
        -- rewrite Hl', Hl2. apply map_eq. intros v. rewrite !lookup_unmap_range.
           destruct (decide (v = Z.of_nat n)) as [->|Hne].
           ++ rewrite decide_True, decide_False by lia. destruct (leaf P !! Z.of_nat n) eqn:E; [|done].
              rewrite <- top_eq in Htop. destruct (us_top _ _ _ _ _ H _ _ E) as [?|[? _]]; lia.
           ++ rewrite lookup_insert_ne by done. repeat case_decide; (done || lia).
    + cbn [negb Z.eqb].
      destruct (give_back _ s s1 _ _ _ _ _ _ _ _ H ltac:(intros a _; by rewrite Hm1) Hg2 Hl2 Hk2 Hr2) as (s3 & He3 & Hu3 & Hp3 & Hf3).
      erewrite bind_ret by exact He3.
      destruct (back_out s s3 P P2 root n0 n (q :: free) [q] Hu3) as (s' & P' & free' & He & Hu & Hl & Hp & Hf); try done; [rewrite top_eq; lia|].
      exists 0, s', P', free', n0. split_and!; try done. right. by split_and!.
Qed.

(** ** Copying an address space *)

(** The first [n] pages of [Q] have the flags and contents of those of [P]. *)
Definition copied (m : mem) (P Q : pt) (n : nat) : Prop :=
  forall v, 0 <= v < Z.of_nat n -> exists e q, leaf P !! v = Some e /\
    leaf Q !! v = Some (mkpte q (PTE_FLAGS e)) /\ page_ok kend q /\
    forall off, 0 <= off < PGSIZE -> rd m (q + off) = rd m (PTE2PA e + off).

Lemma in_pas n k L v : k <= v < k + Z.of_nat n -> PTE2PA (default 0 (L !! v)) ∈ pas n k L.
Proof.
  intros Hv. apply list_elem_of_lookup_2 with (Z.to_nat (v - k)). rewrite lookup_pas by lia.
  by replace (k + Z.of_nat (Z.to_nat (v - k))) with v by lia.
Qed.

Lemma page_off q off : q mod PGSIZE = 0 -> 0 <= off < PGSIZE -> PGROUNDDOWN (q + off) = q.
Proof. intros. apply PGROUNDDOWN_in; [done | lia]. Qed.

(** A copy stays one while neither side's pages change. *)
Lemma copied_frame m m' P Q n :
  Forall (page_ok kend) (pas n 0 (leaf P)) ->
  (forall a, PGROUNDDOWN a ∈ pas n 0 (leaf P) ++ pas n 0 (leaf Q) -> rd m' a = rd m a) ->
  copied m P Q n -> copied m' P Q n.
Proof.
  intros Hok Hf Hc v Hv. destruct (Hc v Hv) as (e & q & Hp & Hq & Hqok & Hm). exists e, q. split_and!; try done.
  pose proof (in_pas n 0 (leaf P) v ltac:(lia)) as Hin. rewrite Hp in Hin. simpl in Hin.
  pose proof (in_pas n 0 (leaf Q) v ltac:(lia)) as Hin'. rewrite Hq in Hin'. simpl in Hin'.
  assert (0 <= PTE_FLAGS e < 1024) as Hfl.
  { unfold PTE_FLAGS. change 1023 with (Z.ones 10). rewrite Z.land_ones by lia. apply Z.mod_pos_bound. lia. }
  rewrite mkpte_pa in Hin' by (done || apply Hqok || (pose proof (page_ok_bounds kend Hend q Hqok); lia)).
  rewrite Forall_forall in Hok. destruct (Hok _ Hin) as [Hpm _].
  intros off Hoff. rewrite !Hf; [by apply Hm | |]; rewrite elem_of_app.
  - left. by rewrite page_off.
  - right. rewrite page_off; [done | apply Hqok | done].
Qed.

Lemma has_V f : has f PTE_V = Z.testbit f 0.
Proof.
  unfold has, PTE_V. change 1 with (Z.ones 1). rewrite Z.land_ones, Z.bit0_odd by lia. change (2 ^ 1) with 2.
  rewrite Zmod_odd. by destruct (Z.odd f).
Qed.

Lemma lor_V f : has f PTE_V = true -> Z.lor f PTE_V = f.
Proof.
  rewrite has_V. intros Hb. apply Z.bits_inj'. intros i Hi. rewrite Z.lor_spec.
  destruct (decide (i = 0)) as [->|Hne]; [by rewrite Hb|].
  change PTE_V with (2 ^ 0). rewrite Z.pow2_bits_false by lia. by rewrite orb_false_r.
Qed.

(** One page of [uvmcopy] up to the mapping: the new page [q] holds the contents. *)
Lemma copy_page s P Q oroot nroot n i q free :
  uspace s P oroot n (q :: free) -> uspace s Q nroot i (q :: free) -> (i < n)%nat ->
  forall s1, kinv kend s1 free -> kmem_mem s1 = kmem_mem s ->
  forall e, leaf P !! Z.of_nat i = Some e ->
  let m2 := memmove (kmem_mem s1) q (PTE2PA e) PGSIZE in
  kinv kend (set_mem m2 s1) free /\
  (forall a, PGROUNDDOWN a <> q -> rd m2 a = rd (kmem_mem s) a) /\
  (forall off, 0 <= off < PGSIZE -> rd m2 (q + off) = rd m2 (PTE2PA e + off)).
Proof.
  intros HP HQ Hi s1 Hk1 Hm1 e He m2.
  pose proof (kinv_pages _ _ _ (us_k _ _ _ _ _ HP)) as [Hq _]%Forall_cons.
  pose proof (in_pas n 0 (leaf P) (Z.of_nat i) ltac:(lia)) as Hin. rewrite He in Hin. simpl in Hin.
  pose proof (us_pages _ _ _ _ _ HP) as Hall. rewrite Forall_forall in Hall. destruct (Hall _ Hin) as [Hem _].
  pose proof (us_sep _ _ _ _ _ HP) as (_ & _ & (_ & Hd & Hnf)%NoDup_app)%NoDup_app.
  apply NoDup_cons in Hnf as [Hqf _].
  assert (forall a, PGROUNDDOWN a <> q -> rd m2 a = rd (kmem_mem s) a) as Hf.
  { intros a Ha. unfold m2. rewrite memmove_rd, Hm1 by (unfold PGSIZE; lia). rewrite decide_False; [done|].
    intros ?. apply Ha. apply PGROUNDDOWN_in; [apply Hq | lia]. }
  split_and!; [|done|].
  - apply kinv_frame; [|done]. intros a Ha. rewrite Hf, Hm1; [done|]. intros E. by rewrite E in Ha.
  - intros off Hoff. rewrite (Hf (PTE2PA e + off)).
    + unfold m2. rewrite memmove_rd, Hm1 by (unfold PGSIZE; lia). rewrite decide_True by lia. f_equal. lia.
    + rewrite page_off by done. intros E. eapply Hd; [exact Hin|]. rewrite E. left.
Qed.

(** The pages of an address space. *)
Definition owned (P : pt) (n : nat) : list Z := tables P ++ pas n 0 (leaf P).

(** An address space is not affected by what happens to pages [R] it does not own. *)
Lemma uspace_other s s' P root n free free' R :
  uspace s P root n free -> NoDup (owned P n ++ R) -> free' ⊆ R -> kinv kend s' free' ->
  (forall a, PGROUNDDOWN a ∉ R -> rd (kmem_mem s') a = rd (kmem_mem s) a) -> uspace s' P root n free'.
Proof.
  intros [H1 H2 H3 H4 H5 H6] Hnd Hsub Hk Hf. unfold owned in Hnd.
  pose proof Hnd as (Hnd1 & Hdis & _)%NoDup_app. split; try done.
  - eapply pt_rep_frame; [|done]. intros a Ha. apply Hf. apply Hdis, elem_of_app. by left.
  - rewrite app_assoc. apply NoDup_app. split_and!; [done | | apply Hk]. intros x Hx Hx'. by eapply Hdis, Hsub.
Qed.

Definition spaces (P Q : pt) (n i : nat) (free : list Z) : Prop := NoDup (owned P n ++ owned Q i ++ free).

(** [goto err]: everything mapped so far is given back. *)
Lemma uvmcopy_err_spec s P Q oroot nroot n i free :
  uspace s P oroot n free -> uspace s Q nroot i free -> spaces P Q n i free -> Z.of_nat i <= TRAPFRAME / PGSIZE ->
  exists s' Q' free', uvmcopy_err kend nroot (Z.of_nat i * PGSIZE) s = Ret (-1) s' /\
    uspace s' P oroot n free' /\ uspace s' Q' nroot 0 free' /\ leaf Q' = unmap_range i 0 (leaf Q) /\
    owned Q' 0 ++ free' ≡ₚ owned Q i ++ free /\
    (forall a, PGROUNDDOWN a ∉ owned Q i ++ free -> rd (kmem_mem s') a = rd (kmem_mem s) a).
Proof.
  intros HP HQ Hsp Hi. unfold uvmcopy_err. rewrite Z.div_mul by (unfold PGSIZE; lia).
  destruct (shrink_spec s Q nroot i 0 free HQ ltac:(lia) Hi) as (s' & He & Hu & Hf). simpl in *. rewrite Nat.sub_0_r in *.
  erewrite bind_ret by exact He. eexists s', _, _. split; [done|].
  assert (owned (Pt (tabs Q) (unmap_range i 0 (leaf Q))) 0 ++ reverse (pas i 0 (leaf Q)) ++ free ≡ₚ owned Q i ++ free) as Hp.
  { unfold owned. simpl. change (tables (Pt (tabs Q) _)) with (tables Q). rewrite reverse_Permutation. solve_Permutation. }
  assert (forall a, PGROUNDDOWN a ∉ owned Q i ++ free -> rd (kmem_mem s') a = rd (kmem_mem s) a) as Hf'.
  { intros a Ha. apply Hf. unfold owned in Ha. rewrite !elem_of_app in *. tauto. }
  split_and!; try done.
  eapply uspace_other; [done | exact Hsp | | apply Hu | done].
  intros x Hx. rewrite <- Hp. apply elem_of_app. by right.
Qed.

Lemma copy_mapped K s s3 P Q Q3 oroot nroot n i q pa f free free3 m2 :
  uspace s P oroot n (q :: free) -> uspace s Q nroot i (q :: free) -> spaces P Q n i (q :: free) -> (i < n)%nat ->
  leaf P !! Z.of_nat i = Some (mkpte pa f) -> 0 <= pa < 2 ^ 56 -> pa mod PGSIZE = 0 -> 0 <= f < 1024 ->
  copied (kmem_mem s) P Q i -> (forall a, PGROUNDDOWN a <> q -> rd m2 a = rd (kmem_mem s) a) ->
  (forall off, 0 <= off < PGSIZE -> rd m2 (q + off) = rd m2 (pa + off)) ->
  grow K Q Q3 free free3 m2 (kmem_mem s3) -> uspace s3 Q3 nroot (S i) free3 ->
  leaf Q3 = <[Z.of_nat i := mkpte q f]> (leaf Q) ->
  uspace s3 P oroot n free3 /\ owned Q3 (S i) ++ free3 ≡ₚ owned Q i ++ q :: free /\
  (forall a, PGROUNDDOWN a ∉ tables Q ++ q :: free -> rd (kmem_mem s3) a = rd (kmem_mem s) a) /\
  copied (kmem_mem s3) P Q3 (S i).
Proof.
  intros HP HQ Hsp Hi Hlp Hpa Hpm Hf Hc Hm2 Hcp Hg HQ3 Hl3.
  pose proof (kinv_pages _ _ _ (us_k _ _ _ _ _ HP)) as [Hq _]%Forall_cons.
  assert (owned Q3 (S i) ++ free3 ≡ₚ owned Q i ++ q :: free) as Hperm.
  { unfold owned. rewrite Hl3. rewrite (pas_snoc i 0) by done.
    transitivity ((tables Q3 ++ free3) ++ pas i 0 (leaf Q) ++ [q]); [solve_Permutation|].
    rewrite (g_perm _ _ _ _ _ _ _ Hg). solve_Permutation. }
  assert (forall a, PGROUNDDOWN a ∉ tables Q ++ q :: free -> rd (kmem_mem s3) a = rd (kmem_mem s) a) as Hfr.
  { intros a Ha. rewrite elem_of_app, elem_of_cons in Ha. rewrite (g_frame _ _ _ _ _ _ _ Hg), Hm2; [done | tauto |].
    rewrite elem_of_app. tauto. }
  pose proof Hsp as (_ & Hdis & _)%NoDup_app. pose proof (us_sep _ _ _ _ _ HQ) as HsQ.
  assert (forall x, x ∈ owned P n -> x ∉ tables Q ++ q :: free) as Hd1.
  { intros x Hx. specialize (Hdis x Hx). unfold owned in Hdis. rewrite !elem_of_app in *. tauto. }
  assert (forall x, x ∈ pas i 0 (leaf Q) -> x ∉ tables Q ++ q :: free) as Hd2.
  { intros x Hx. rewrite app_assoc, (Permutation_app_comm (tables Q)), <- app_assoc in HsQ.
    apply NoDup_app in HsQ as (_ & Hd & _). by apply Hd. }
  split_and!; try done.
  - eapply uspace_other; [exact HP | exact Hsp | | apply HQ3 |].
    + intros x Hx. rewrite <- Hperm. apply elem_of_app. by right.
    + intros a Ha. apply Hfr. unfold owned in Ha. rewrite !elem_of_app in *. tauto.
  - intros v Hv. destruct (decide (v = Z.of_nat i)) as [->|Hne].
    + exists (mkpte pa f), q. rewrite Hl3, lookup_insert_eq, mkpte_flags by done. split_and!; try done.
      rewrite mkpte_pa by done. pose proof (us_nd _ _ _ _ _ HQ) as Hnd. rewrite <- Permutation_middle in Hnd.
      apply NoDup_cons in Hnd as [Hqn _].
      assert (pa ∈ owned P n) as Hpin.
      { unfold owned. apply elem_of_app. right. pose proof (in_pas n 0 (leaf P) (Z.of_nat i) ltac:(lia)) as Hin.
        rewrite Hlp in Hin. simpl in Hin. by rewrite mkpte_pa in Hin. }
      specialize (Hd1 pa Hpin). rewrite elem_of_app, elem_of_cons in Hd1.
      intros off Hoff. rewrite !(g_frame _ _ _ _ _ _ _ Hg); [by apply Hcp | |].
      * rewrite page_off, elem_of_app by done. tauto.
      * rewrite page_off; [done | apply Hq | done].
    + assert (copied (kmem_mem s3) P Q i) as Hc3.
      { eapply copied_frame; [| |done].
        - pose proof (us_pages _ _ _ _ _ HP) as Hp. replace n with (i + (n - i))%nat in Hp by lia.
          rewrite pas_app in Hp. by apply Forall_app in Hp as [? _].
        - intros a Ha. apply Hfr. apply elem_of_app in Ha as [Ha|Ha]; [apply Hd1 | by apply Hd2].
          unfold owned. apply elem_of_app. right. replace n with (i + (n - i))%nat by lia. rewrite pas_app.
          apply elem_of_app. by left. }
      destruct (Hc3 v ltac:(lia)) as (e & q' & H1 & H2 & H3 & H4). exists e, q'.
      rewrite Hl3, lookup_insert_ne by lia. by split_and!.
Qed.

Lemma uvmcopy_loop_spec k fuel s P Q oroot nroot n i free sz :
  uspace s P oroot n free -> uspace s Q nroot i free -> spaces P Q n i free ->
  n = (i + k)%nat -> Z.of_nat n <= TRAPFRAME / PGSIZE -> (k < fuel)%nat ->
  sz <= Z.of_nat n * PGSIZE -> (k = O \/ (Z.of_nat n - 1) * PGSIZE < sz) -> copied (kmem_mem s) P Q i ->
  exists r s' Q' free' n', uvmcopy_loop kend fuel oroot nroot (Z.of_nat i * PGSIZE) sz s = Ret r s' /\
    uspace s' P oroot n free' /\ uspace s' Q' nroot n' free' /\ owned Q' n' ++ free' ≡ₚ owned Q i ++ free /\
    (forall a, PGROUNDDOWN a ∉ owned Q i ++ free -> rd (kmem_mem s') a = rd (kmem_mem s) a) /\
    (r = 0 /\ n' = n /\ copied (kmem_mem s') P Q' n \/ r = -1 /\ n' = O) /\
    (forall v, Z.of_nat n <= v -> leaf Q' !! v = leaf Q !! v).
Proof.
  rewrite top_eq. revert fuel s Q i free.
  induction k as [|k IH]; intros fuel s Q i free HP HQ Hsp Hn Htop Hfuel Hsz Hsz' Hc;
    (destruct fuel as [|fuel]; [lia|]); cbn [uvmcopy_loop].
  - rewrite Nat.add_0_r in Hn. subst i. rewrite (proj2 (Z.ltb_ge _ _)) by lia.
    exists 0, s, Q, free, n. split_and!; try done. left. by split_and!.
  - rewrite (proj2 (Z.ltb_lt _ _)) by (unfold PGSIZE in *; lia).
    destruct (us_map _ _ _ _ _ HP (Z.of_nat i) ltac:(lia)) as (e & He & Hef).
    destruct (pr_leaf _ _ _ (us_rep _ _ _ _ _ HP) _ _ He) as ((pa & f & -> & Hpa & Hpm & Hff & Hfv) & Hir & Htab).
    erewrite bind_ret by (apply (walk_find P); [apply HP | rewrite VPNS_eq in *; rewrite MAXVA_eq; unfold PGSIZE; lia]).
    rewrite Z.div_mul by (unfold PGSIZE; lia).
    destruct (leaf_entry _ _ _ _ (us_rep _ _ _ _ _ HP) Htab) as [Hs0 Hld]. rewrite He in Hld. simpl in Hld.
    rewrite (proj2 (Z.eqb_neq _ 0)) by done. erewrite bind_ret by reflexivity. rewrite Hld.
    rewrite mkpte_has by (unfold PTE_V; lia). rewrite Hfv. cbn [negb].
    rewrite mkpte_flags in * by done.
    destruct free as [|q free].
    { erewrite bind_ret by (apply (kalloc_none kend), HP). rewrite Z.eqb_refl.
      destruct (uvmcopy_err_spec s P Q oroot nroot n i [] HP HQ Hsp) as (s' & Q' & free' & Hr & ? & ? & Hl & ? & ?);
        [rewrite top_eq; lia|].
      exists (-1), s', Q', free', O. split_and!; try done; [by right|].
      intros v Hv. by rewrite Hl, lookup_unmap_range, decide_False by lia. }
    destruct (kalloc_uspace _ _ _ _ _ _ HP) as (Hq0 & s1 & He1 & Hk1 & Hm1). erewrite bind_ret by exact He1.
    rewrite (proj2 (Z.eqb_neq _ _)) by done. erewrite bind_ret by reflexivity.
    destruct (copy_page s P Q oroot nroot n i q free HP HQ ltac:(lia) s1 Hk1 Hm1 _ He) as (Hk2 & Hf2 & Hcp).
    rewrite mkpte_pa in * by done. set (s2 := set_mem _ s1) in *.
    destruct (extend_spec s Q nroot i q free f HQ ltac:(rewrite top_eq; lia) Hff ltac:(by rewrite lor_V) s2 Hk2 Hf2)
      as (r & s3 & Q3 & free3 & He3 & Hg3 & Hr).
    erewrite bind_ret by exact He3.
    destruct Hr as [(-> & Hu3 & Hl3)|(-> & Hl3 & Hk3 & Hr3 & ->)].
    + rewrite lor_V in Hl3 by done.
      destruct (copy_mapped _ s s3 P Q Q3 oroot nroot n i q pa f free free3 _ HP HQ Hsp ltac:(lia) He Hpa Hpm Hff Hc
                  Hf2 Hcp Hg3 Hu3 Hl3) as (HP3 & Hp3 & Hf3 & Hc3).
      rewrite Z.eqb_refl. cbn [negb]. rewrite u64_small by (unfold PGSIZE; lia).
      replace (Z.of_nat i * PGSIZE + PGSIZE) with (Z.of_nat (S i) * PGSIZE) by lia.
      destruct (IH fuel s3 Q3 (S i) free3 HP3 Hu3) as (r & s' & Q' & free' & n' & He' & HP' & HQ' & Hp' & Hf' & Hr' & Hl');
        try lia; try done.
      { unfold spaces. by rewrite Hp3. }
      exists r, s', Q', free', n'. split_and!; try done.
      * by rewrite Hp'.
      * intros a Ha. rewrite Hf' by (by rewrite Hp3). apply Hf3. unfold owned in Ha. rewrite !elem_of_app in *. tauto.
      * intros v Hv. rewrite Hl', Hl3, lookup_insert_ne by lia. done.
    + cbn [negb Z.eqb].
      destruct (give_back _ s s2 _ _ _ _ _ _ _ _ HQ Hf2 Hg3 Hl3 Hk3 Hr3) as (s4 & He4 & Hu4 & Hp4 & Hf4).
      erewrite bind_ret by exact He4.
      assert (owned Q3 i ++ [q] ≡ₚ owned Q i ++ q :: free) as Hp5.
      { unfold owned. rewrite Hl3. transitivity ((tables Q3 ++ [q]) ++ pas i 0 (leaf Q)); [solve_Permutation|].
        rewrite Hp4. solve_Permutation. }
      assert (forall a, PGROUNDDOWN a ∉ owned Q i ++ q :: free -> rd (kmem_mem s4) a = rd (kmem_mem s) a) as Hf5.
      { intros a Ha. apply Hf4. unfold owned in Ha. rewrite !elem_of_app in *. tauto. }
      assert (uspace s4 P oroot n [q]) as HP4.
      { eapply uspace_other; [exact HP | exact Hsp | | apply Hu4 | done]. intros x Hx. apply elem_of_app. right.
        apply list_elem_of_singleton in Hx as ->. left. }
      destruct (uvmcopy_err_spec s4 P Q3 oroot nroot n i [q] HP4 Hu4) as (s' & Q' & free' & Hr & HP' & HQ' & Hl' & Hp' & Hf');
        [unfold spaces; by rewrite Hp5 | rewrite top_eq; lia |].
      exists (-1), s', Q', free', O. split_and!; try done.
      * by rewrite Hp', Hp5.
      * intros a Ha. rewrite Hf' by (by rewrite Hp5). by apply Hf5.
      * by right.
      * intros v Hv. by rewrite Hl', Hl3, lookup_unmap_range, decide_False by lia.
Qed.

(** ** Freeing the tables *)

(** The tables below (and including) the table of level [l] and prefix [k]. *)
Definition under (l : nat) (k : Z) (i : nat * Z) : Prop :=
  (i.1 <= l)%nat /\ i.2 / 512 ^ Z.of_nat (l - i.1) = k.

#[local] Instance under_dec l k i : Decision (under l k i).
Proof. unfold under. apply _. Defined.

Lemma under_self l k : under l k (l, k).
Proof. split; simpl; [lia|]. rewrite Nat.sub_diag. apply Z.div_1_r. Qed.

Lemma under_parent l k l' k' : (l' < l)%nat -> under l k (l', k') <-> under l k (S l', k' / 512).
Proof.
  intros Hl. unfold under. simpl. rewrite Z.div_div by (try apply Z.pow_pos_nonneg; lia).
  replace (Z.of_nat (l - l')) with (Z.succ (Z.of_nat (l - S l'))) by lia. rewrite Z.pow_succ_r by lia.
  split; intros [_ H]; (split; [lia | done]).
Qed.

Lemma under_child l k i : under (S l) k i <-> i = (S l, k) \/ exists j, 0 <= j < 512 /\ under l (k * 512 + j) i.
Proof.
  destruct i as [l' k']. unfold under. simpl. split.
  - intros [Hl Hk]. destruct (decide (l' = S l)) as [->|Hne].
    + left. rewrite Nat.sub_diag, Z.div_1_r in Hk. by subst.
    + right. exists (k' / 512 ^ Z.of_nat (l - l') mod 512). split; [apply Z.mod_pos_bound; lia|]. split; [lia|].
      rewrite Nat.sub_succ_l in Hk by lia. rewrite Nat2Z.inj_succ, Z.pow_succ_r, Z.mul_comm, <- Z.div_div in Hk by lia.
      rewrite <- Hk. by rewrite split_join.
  - intros [E|(j & Hj & Hl & Hk)].
    + injection E as -> ->. rewrite Nat.sub_diag, Z.div_1_r. split; [lia | done].
    + split; [lia|]. rewrite Nat.sub_succ_l, Nat2Z.inj_succ, Z.pow_succ_r by lia.
      rewrite Z.mul_comm, <- Z.div_div, Hk by lia. by apply join_div.
Qed.

Definition sub (P : pt) (l : nat) (k x : Z) : Prop := exists i, under l k i /\ tabs P !! i = Some x.

(** [P] without the tables below [(l, c)]. *)
Definition cut (l : nat) (c : Z) (P : pt) : pt := Pt (filter (fun kv => ~ under l c kv.1) (tabs P)) (leaf P).

Lemma lookup_cut l c P i x : tabs (cut l c P) !! i = Some x <-> tabs P !! i = Some x /\ ~ under l c i.
Proof. unfold cut. simpl. rewrite map_lookup_filter_Some. done. Qed.

Lemma cut_entry l c P l0 k : ~ under l c (S l0, k / 512) -> (l0, k) <> (l, c) -> entry (cut l c P) (S l0) k = entry P (S l0) k.
Proof.
  intros Hn Hne. unfold entry. assert (tabs (cut l c P) !! (l0, k) = tabs P !! (l0, k)) as ->; [|done].
  apply option_eq. intros x. rewrite lookup_cut. split; [by intros [? _]|]. intros Hx. split; [done|].
  intros Hu. destruct (decide (l0 < l)%nat) as [Hlt|Hge]; [by apply Hn, (under_parent l c l0 k Hlt)|].
  destruct Hu as [Hle Hk]. simpl in *. replace l0 with l in * by lia. rewrite Nat.sub_diag, Z.div_1_r in Hk. congruence.
Qed.

(** Cutting a subtree off: its pages may have changed, its entry is cleared. *)
Lemma cut_rep m m' P root l c p :
  pt_rep m P root -> leaf P = ∅ -> tabs P !! (S l, c / 512) = Some p -> (l < 2)%nat ->
  (forall a, ~ sub P l c (PGROUNDDOWN a) -> rd m' a = rd m a) ->
  pt_rep (st64 m' (p + 8 * (c mod 512)) 0) (cut l c P) root.
Proof.
  intros H Hleaf Hp Hl Hf. assert (0 <= c mod 512 < 512) as Hcm by (apply Z.mod_pos_bound; lia).
  assert (~ under l c (S l, c / 512)) as Hpn by (intros [Hx _]; simpl in Hx; lia).
  split.
  - apply lookup_cut. split; [apply H|]. intros [Hx _]. simpl in Hx. lia.
  - intros l0 k0 p0 [Hp0 Hn]%lookup_cut. destruct (pr_key _ _ _ H _ _ _ Hp0) as [Hok [?|[Hl0 [q Hq]]]]; [by auto|].
    split; [done|]. right. split; [done|]. exists q. apply lookup_cut. split; [done|]. intros Hu. apply Hn.
    apply under_parent; [|done]. destruct Hu as [Hx _]. simpl in Hx. lia.
  - intros i j x [Hi _]%lookup_cut [Hj _]%lookup_cut. by eapply H.
  - intros k v. simpl. by rewrite Hleaf, lookup_empty.
  - intros l0 k0 p0 j [Hp0 Hn]%lookup_cut Hj.
    destruct (decide ((l0, k0, j) = (S l, c / 512, c mod 512))) as [E|Hne].
    + injection E as -> -> ->. assert (p0 = p) as -> by congruence. rewrite ld64_st64_eq, split_join.
      unfold entry. destruct (tabs (cut l c P) !! (l, c)) eqn:E; [|done].
      apply lookup_cut in E as [_ []]. apply under_self.
    + rewrite ld64_st64_ne by (by eapply slots_apart). rewrite (ld64_ext m m').
      * rewrite (pr_mem _ _ _ H _ _ _ _ Hp0 Hj). destruct l0 as [|l0]; [done|].
        rewrite cut_entry; [done | |].
        -- by rewrite (proj1 (join_div k0 j Hj)).
        -- intros E. injection E as -> E. apply Hne. rewrite <- E. destruct (join_div k0 j Hj) as [-> ->]. done.
      * intros i Hi. apply Hf. destruct (pr_key _ _ _ H _ _ _ Hp0) as [[Hm _] _].
        rewrite (slot_page p0 j Hm Hj i Hi). intros (i' & Hu & Hi'). by rewrite (pr_inj _ _ _ H _ _ _ Hi' Hp0) in Hu.
Qed.

(** What is below [(l, k)] has [(l, k)] above it. *)
Lemma ancestor m P root l k i x : pt_rep m P root -> (l <= 2)%nat -> tabs P !! i = Some x -> under l k i ->
  is_Some (tabs P !! (l, k)).
Proof.
  intros H Hl. destruct i as [l' k']. remember (l - l')%nat as d eqn:Hd. revert l' k' x Hd.
  induction d as [|d IH]; intros l' k' x Hd Hx [Hle Hk]; simpl in *.
  - replace l' with l in * by lia. rewrite Nat.sub_diag, Z.div_1_r in Hk. subst. eauto.
  - destruct (pr_key _ _ _ H _ _ _ Hx) as [_ [[? _]|[_ [q Hq]]]]; [lia|].
    apply (IH (S l') (k' / 512) q); [lia | done |]. apply (proj1 (under_parent l k l' k' ltac:(lia))). by split.
Qed.

(** The keys below the first [j] entries of the table [(l, k)]. *)
Definition gone (l : nat) (k j : Z) (i : nat * Z) : Prop :=
  match l with O => False | S l => exists j', 0 <= j' < j /\ under l (k * 512 + j') i end.

Lemma gone_next l k j i : 0 <= j -> gone (S l) k (j + 1) i <-> gone (S l) k j i \/ under l (k * 512 + j) i.
Proof.
  intros Hj. split.
  - intros (j' & Hj' & Hu). destruct (decide (j' = j)) as [->|]; [by right|]. left. exists j'. split; [lia | done].
  - intros [(j' & Hj' & Hu)|Hu]; [exists j' | exists j]; (split; [lia | done]).
Qed.

Lemma under_iff l k i : under l k i <-> i = (l, k) \/ gone l k 512 i.
Proof.
  destruct l as [|l]; [|apply under_child]. simpl. split.
  - destruct i as [l' k']. intros [Hl Hk]. simpl in *. left. replace l' with O in * by lia. rewrite Z.div_1_r in Hk. by subst.
  - intros [->|[]]. apply under_self.
Qed.

Lemma gone_not_self l k j : ~ gone l k j (l, k).
Proof. destruct l as [|l]; [intros []|]. intros (j' & _ & Hl & _). simpl in Hl. lia. Qed.

#[local] Instance gone_dec l k j i : Decision (gone l k j i).
Proof.
  destruct l as [|l]; [right; by intros []|].
  destruct (decide (k * 512 <= i.2 / 512 ^ Z.of_nat (l - i.1) < k * 512 + j /\ (i.1 <= l)%nat)) as [Hd|Hd].
  - left. exists (i.2 / 512 ^ Z.of_nat (l - i.1) - k * 512). split; [lia|]. split; [apply Hd | lia].
  - right. intros (j' & Hj' & Hle & Hk). apply Hd. lia.
Defined.

(** The state of the loop of [freewalk] before entry [j]. *)
Record walking (s0 : kmem) (P : pt) (root : Z) (l : nat) (k : Z) (free : list Z) (j : Z) (s : kmem) (Pj : pt) (fj : list Z) : Prop := {
  wk_k : kinv kend s fj;
  wk_rep : pt_rep (kmem_mem s) Pj root;
  wk_leaf : leaf Pj = ∅;
  wk_tabs : forall i x, tabs Pj !! i = Some x <-> tabs P !! i = Some x /\ ~ gone l k j i;
  wk_free : forall x, x ∈ fj <-> x ∈ free \/ exists i, tabs P !! i = Some x /\ gone l k j i;
  wk_frame : forall a, ~ sub P l k (PGROUNDDOWN a) -> rd (kmem_mem s) a = rd (kmem_mem s0) a
}.

(** What [freewalk] of the table [(l, k)] does. *)
Definition frees (l : nat) : Prop := forall P root k p s free,
  kinv kend s free -> pt_rep (kmem_mem s) P root -> leaf P = ∅ -> tabs P !! (l, k) = Some p ->
  (forall x, x ∈ tables P -> x ∉ free) ->
  exists s' free', freewalk kend (S l) p s = Ret tt s' /\ kinv kend s' free' /\
    (forall x, x ∈ free' <-> x ∈ free \/ sub P l k x) /\
    (forall a, ~ sub P l k (PGROUNDDOWN a) -> rd (kmem_mem s') a = rd (kmem_mem s) a).

Lemma walking_skip s0 P root l k free j s Pj fj :
  walking s0 P root (S l) k free j s Pj fj -> 0 <= j -> (l < 2)%nat -> tabs Pj !! (l, k * 512 + j) = None ->
  walking s0 P root (S l) k free (j + 1) s Pj fj.
Proof.
  intros [H1 H2 H3 H4 H5 H6] Hj Hl Hn.
  assert (forall i x, tabs P !! i = Some x -> under l (k * 512 + j) i -> gone (S l) k j i) as Hno.
  { intros i x Hi Hu. destruct (decide (tabs Pj !! i = None)) as [E|E].
    - destruct (gone_dec (S l) k j i) as [?|Hng]; [done|].
      assert (tabs Pj !! i = Some x) by (by apply H4). congruence.
    - destruct (tabs Pj !! i) as [y|] eqn:Ey; [|done].
      destruct (ancestor _ _ _ l _ _ _ H2 ltac:(lia) Ey Hu) as [q Hq]. congruence. }
  split; try done.
  - intros i x. rewrite H4. split; intros [Hx Hg]; (split; [done|]); intros Hg'; apply Hg.
    + apply (gone_next l k j i Hj) in Hg' as [?|?]; [done | by eapply Hno].
    + apply (gone_next l k j i Hj). by left.
  - intros x. rewrite H5. split; (intros [?|(i & Hi & Hg)]; [by left|]); right; exists i; (split; [done|]).
    + apply (gone_next l k j i Hj). by left.
    + apply (gone_next l k j i Hj) in Hg as [?|?]; [done | by eapply Hno].
Qed.

Lemma walking_child s0 P root l k free j s Pj fj p q :
  frees l -> pt_rep (kmem_mem s0) P root -> tabs P !! (S l, k) = Some p -> (forall x, x ∈ tables P -> x ∉ free) ->
  walking s0 P root (S l) k free j s Pj fj -> 0 <= j < 512 -> (l < 2)%nat -> tabs Pj !! (l, k * 512 + j) = Some q ->
  exists s1 f1, freewalk kend (S l) q s = Ret tt s1 /\
    walking s0 P root (S l) k free (j + 1) (set_mem (st64 (kmem_mem s1) (p + 8 * j) 0) s1) (cut l (k * 512 + j) Pj) f1.
Proof.
  intros Hfr H0 Hp Hsep [H1 H2 H3 H4 H5 H6] Hj Hl Hq. set (c := k * 512 + j) in *.
  destruct (join_div k j Hj) as [Hcd Hcm]. fold c in Hcd, Hcm.
  assert (tabs Pj !! (S l, k) = Some p) as Hpj by (apply H4; split; [done | apply gone_not_self]).
  assert (forall x, x ∈ tables Pj -> x ∉ fj) as Hsepj.
  { intros x [i Hi]%in_tables. apply H4 in Hi as [Hi Hng]. rewrite H5. intros [?|(i' & Hi' & Hg)].
    - eapply Hsep; [|done]. apply in_tables. eauto.
    - by rewrite (pr_inj _ _ _ H0 _ _ _ Hi' Hi) in Hg. }
  destruct (Hfr Pj root c q s fj H1 H2 H3 Hq Hsepj) as (s1 & f1 & He & Hk1 & Hf1 & Hm1).
  exists s1, f1. split; [done|].
  assert (forall x, sub Pj l c x <-> exists i, tabs P !! i = Some x /\ ~ gone (S l) k j i /\ under l c i) as Hsub.
  { intros x. split.
    - intros (i & Hu & [Hi Hg]%H4). by exists i.
    - intros (i & Hi & Hg & Hu). exists i. split; [done|]. by apply H4. }
  assert (forall i, under l c i -> under (S l) k i) as Hup.
  { intros i Hu. apply under_child. right. by exists j. }
  assert (~ sub Pj l c p) as Hps.
  { intros (i & Hi & _ & Hu)%Hsub. rewrite (pr_inj _ _ _ H0 _ _ _ Hi Hp) in Hu. destruct Hu as [Hu _]. simpl in Hu. lia. }
  destruct (pr_key _ _ _ H0 _ _ _ Hp) as [[Hpm _] _].
  assert (forall a, PGROUNDDOWN a <> p -> rd (st64 (kmem_mem s1) (p + 8 * j) 0) a = rd (kmem_mem s1) a) as Hst.
  { intros a Ha. apply rd_st64_ne. pose proof (slot_page p j Hpm Hj a).
    destruct (decide (p + 8 * j <= a < p + 8 * j + 8)); [|lia]. by destruct Ha; auto. }
  split; cbn [set_mem kmem_mem].
  - apply kinv_frame; [|done]. intros a Ha. apply Hst. intros E. rewrite E, Hf1 in Ha. destruct Ha as [Ha|Ha]; [|done].
    eapply Hsepj; [|exact Ha]. apply in_tables. eauto.
  - rewrite <- Hcm. apply (cut_rep (kmem_mem s)); try done. by rewrite Hcd.
  - done.
  - intros i x. rewrite lookup_cut, H4, (gone_next l k j i (proj1 Hj)). tauto.
  - intros x. rewrite Hf1, H5. split.
    + intros [[?|(i & Hi & Hg)]|(i & Hi & _ & Hu)%Hsub]; [by left | right; exists i | right; exists i];
        (split; [done|]); apply (gone_next l k j i (proj1 Hj)); [by left | by right].
    + intros [?|(i & Hi & Hg)]; [left; by left|].
      destruct (decide (under l c i)) as [Hu|Hu].
      * destruct (tabs Pj !! i) as [y|] eqn:Ey.
        -- right. exists i. split; [done|]. destruct (proj1 (H4 i y) Ey) as [Ey' _]. congruence.
        -- left. right. exists i. split; [done|]. destruct (gone_dec (S l) k j i) as [?|Hng]; [done|].
           assert (tabs Pj !! i = Some x) by (by apply H4). congruence.
      * left. right. exists i. split; [done|]. by apply (gone_next l k j i (proj1 Hj)) in Hg as [?|?].
  - intros a Ha. rewrite Hst, Hm1; [by apply H6 | |].
    + intros (i & Hi & _ & Hu)%Hsub. apply Ha. exists i. split; [by apply Hup | done].
    + intros E. apply Ha. rewrite E. exists (S l, k). split; [apply under_self | done].
Qed.

Lemma has_0 b : has 0 b = false.
Proof. done. Qed.

(** The loop over the entries, then the table itself. *)
Lemma freewalk_table l P root k p s free :
  (forall l', l = S l' -> frees l') -> (l <= 2)%nat ->
  kinv kend s free -> pt_rep (kmem_mem s) P root -> leaf P = ∅ -> tabs P !! (l, k) = Some p ->
  (forall x, x ∈ tables P -> x ∉ free) ->
  wp (freewalk kend (S l) p) (fun _ s' => exists free', kinv kend s' free' /\
    (forall x, x ∈ free' <-> x ∈ free \/ sub P l k x) /\
    (forall a, ~ sub P l k (PGROUNDDOWN a) -> rd (kmem_mem s') a = rd (kmem_mem s) a)) s.
Proof.
  intros Hfr Hl Hk H Hleaf Hp Hsep.
  destruct (pr_key _ _ _ H _ _ _ Hp) as [Hpok _].
  change (freewalk kend (S l) p) with ((for_each (seq 0 512) (fun i =>
       let e := p + 8 * Z.of_nat i in
       pte ← ldq e;
       if has pte PTE_V && (Z.land pte (Z.lor (Z.lor PTE_R PTE_W) PTE_X) =? 0) then
         freewalk kend l (PTE2PA pte);;
         stq e 0;;
         mret (None : option unit)
       else if has pte PTE_V then panic "freewalk: leaf"
       else mret None));; kfree kend p).
  apply wp_bind. eapply (wp_for_each (fun done s' => exists Pj fj, walking s P root l k free (Z.of_nat (length done)) s' Pj fj)).
  - exists P, free. split; try done.
    + intros i x. split; [|by intros [? _]]. intros Hx. split; [done|]. destruct l; [by intros []|]. intros (j & Hj & _). simpl in Hj. lia.
    + intros x. split; [by left|]. intros [?|(i & _ & Hg)]; [done|]. destruct l; [by destruct Hg|].
      destruct Hg as (j & Hj & _). simpl in Hj. lia.
  - intros done i rest s1 Hseq (Pj & fj & Hw).
    assert (i = length done /\ (i < 512)%nat) as [Hi Hi512].
    { assert (seq 0 512 !! length done = Some i) as Hlk by (rewrite Hseq; by apply list_lookup_middle).
      apply lookup_seq in Hlk. lia. }
    rewrite length_app. simpl length. rewrite Nat.add_1_r, Nat2Z.inj_succ, <- Z.add_1_r, <- Hi in *.
    assert (tabs Pj !! (l, k) = Some p) as Hpj by (apply Hw; split; [done | apply gone_not_self]).
    apply wp_bind, wp_gets. rewrite (pr_mem _ _ _ (wk_rep _ _ _ _ _ _ _ _ _ _ Hw) _ _ _ _ Hpj) by lia.
    destruct l as [|l].
    { simpl entry. rewrite (wk_leaf _ _ _ _ _ _ _ _ _ _ Hw), lookup_empty. simpl default. rewrite has_0. simpl.
      apply wp_ret. exists Pj, fj. by destruct Hw. }
    cbn [entry]. destruct (tabs Pj !! (l, k * 512 + Z.of_nat i)) as [q|] eqn:Eq.
    + destruct (pr_key _ _ _ (wk_rep _ _ _ _ _ _ _ _ _ _ Hw) _ _ _ Eq) as [Hq _].
      destruct (table_entry q PTE_V Hq eq_refl) as [-> ->]. rewrite mkpte_land by (unfold PTE_V; done).
      change (Z.land PTE_V _ =? 0) with true. cbn [andb].
      destruct (walking_child s P root l k free (Z.of_nat i) s1 Pj fj p q (Hfr l eq_refl) H Hp Hsep Hw ltac:(lia) ltac:(lia) Eq)
        as (s2 & f2 & He & Hw2).
      apply wp_bind. eapply wp_intro; [exact He|]. apply wp_bind, wp_modify, wp_ret. eauto.
    + rewrite has_0. simpl. apply wp_ret. exists Pj, fj. apply walking_skip; (done || lia).
  - intros s1 (Pj & fj & [H1 H2 H3 H4 H5 H6]). rewrite length_seq in *. change (Z.of_nat 512) with 512 in *.
    assert (p ∉ fj) as Hpf.
    { rewrite H5. intros [Hx|(i & Hi & Hg)]; [eapply Hsep; [|done]; apply in_tables; eauto|].
      rewrite (pr_inj _ _ _ H _ _ _ Hi Hp) in Hg. by apply gone_not_self in Hg. }
    destruct (kfree_ok kend Hend p s1 fj H1 Hpok Hpf) as [E Hk']. eapply wp_intro; [exact E|].
    exists (p :: fj). split; [done|]. split.
    + intros x. rewrite elem_of_cons, H5. split.
      * intros [->|[?|(i & Hi & Hg)]]; [right; exists (l, k) | by left | right; exists i];
          (split; [apply under_iff; auto | done]).
      * intros [?|(i & [->|Hg]%under_iff & Hi)]; [by auto | left; congruence | right; right; eauto].
    + intros a Ha. simpl. rewrite rd_st64_ne; [by apply H6|].
      pose proof (PGROUNDDOWN_in p a (proj1 Hpok)) as Hin. unfold PGSIZE in *.
      destruct (decide (p <= a < p + 8)); [|lia]. exfalso. apply Ha. rewrite Hin by lia. exists (l, k).
      split; [apply under_self | done].
Qed.

Lemma freewalk_frees l : (l <= 2)%nat -> frees l.
Proof.
  induction l as [|l IH]; intros Hl P root k p s free Hk H Hleaf Hp Hsep.
  all: edestruct (fun Hfr => wp_elim _ _ _ (freewalk_table _ P root k p s free Hfr Hl Hk H Hleaf Hp Hsep))
    as ([] & s' & He & free' & Hr); [|by exists s', free'].
  - done.
  - intros l' E. injection E as <-. apply IH. lia.
Qed.

Lemma uvmfree_spec s P root n free sz :
  uspace s P root n free -> (forall v e, leaf P !! v = Some e -> v < Z.of_nat n) ->
  Z.of_nat n <= TRAPFRAME / PGSIZE -> 0 <= sz -> PGROUNDUP sz = Z.of_nat n * PGSIZE ->
  exists s' free', uvmfree kend root sz s = Ret tt s' /\ kinv kend s' free' /\ free' ≡ₚ owned P n ++ free /\
    (forall a, PGROUNDDOWN a ∉ owned P n -> rd (kmem_mem s') a = rd (kmem_mem s) a).
Proof.
  intros H Hno Hn Hsz Hup.
  destruct (shrink_spec s P root n 0 free H ltac:(lia) Hn) as (s1 & He1 & Hu1 & Hf1). rewrite Nat.sub_0_r in *. simpl in *.
  set (P1 := Pt (tabs P) (unmap_range n 0 (leaf P))) in *.
  assert (leaf P1 = ∅) as Hl1.
  { apply map_eq. intros v. simpl. rewrite lookup_unmap_range, lookup_empty. case_decide as Hd; [done|].
    destruct (leaf P !! v) eqn:E; [|done]. pose proof (Hno _ _ E).
    destruct (pr_leaf _ _ _ (us_rep _ _ _ _ _ H) _ _ E) as (_ & Hv & _). lia. }
  assert (exists s1', when (0 <? sz) (uvmunmap kend root 0 (PGROUNDUP sz / PGSIZE) true) s = Ret tt s1' /\ s1' = s1) as (s1' & He1' & ->).
  { rewrite Hup, Z.div_mul by (unfold PGSIZE; lia). destruct (0 <? sz) eqn:E; bcase; cbn [when].
    - exists s1. split; [exact He1 | done].
    - replace sz with 0 in * by lia. change (PGROUNDUP 0) with 0 in Hup. assert (n = O) as -> by (unfold PGSIZE in Hup; lia).
      exists s. split; [done|]. unfold uvmunmap in He1. simpl in He1. by injection He1. }
  unfold uvmfree. erewrite bind_ret by exact He1'.
  destruct (freewalk_frees 2 ltac:(lia) P1 root 0 root s1 _ (us_k _ _ _ _ _ Hu1) (us_rep _ _ _ _ _ Hu1) Hl1
              (pr_root _ _ _ (us_rep _ _ _ _ _ Hu1))) as (s' & free' & He' & Hk' & Hfr & Hf').
  { pose proof (us_nd _ _ _ _ _ Hu1) as (_ & Hd & _)%NoDup_app. done. }
  assert (forall x, sub P1 2 0 x <-> x ∈ tables P) as Hsub.
  { intros x. rewrite in_tables. split; [by intros (i & _ & Hi); exists i|]. intros [[l k] Hi]. exists (l, k).
    split; [|done]. destruct (pr_key _ _ _ (us_rep _ _ _ _ _ H) _ _ _ Hi) as [_ Hkey].
    destruct Hkey as [[-> ->]|[Hl [q Hq]]]; [apply under_self|].
    apply under_parent; [done|]. destruct l as [|[|l]]; [| |lia].
    - apply under_parent; [lia|]. destruct (pr_key _ _ _ (us_rep _ _ _ _ _ H) _ _ _ Hq) as [_ [[? _]|[_ [q' Hq']]]]; [done|].
      destruct (pr_key _ _ _ (us_rep _ _ _ _ _ H) _ _ _ Hq') as [_ [[_ ->]|[? _]]]; [apply under_self | lia].
    - destruct (pr_key _ _ _ (us_rep _ _ _ _ _ H) _ _ _ Hq) as [_ [[_ ->]|[? _]]]; [apply under_self | lia]. }
  exists s', free'. split_and!; try done.
  - apply NoDup_Permutation; [apply Hk' | unfold owned; rewrite <- app_assoc; apply H |].
    intros x. rewrite Hfr, Hsub. unfold owned. rewrite !elem_of_app, elem_of_reverse. tauto.
  - intros a Ha. unfold owned in Ha. rewrite elem_of_app in Ha. rewrite Hf' by (rewrite Hsub; tauto).
    apply Hf1. rewrite elem_of_app. tauto.
Qed.

Lemma memset_rep m q root : q = root -> page_ok kend q ->
  pt_rep (memset m q 0 PGSIZE) (Pt {[ (2%nat, 0) := q ]} ∅) root.
Proof.
  intros -> Hq. split; simpl.
  - by rewrite lookup_singleton_eq.
  - intros l k p [E <-]%lookup_singleton_Some. injection E as <- <-. auto.
  - intros i j p [<- _]%lookup_singleton_Some [<- _]%lookup_singleton_Some. done.
  - intros k v. by rewrite lookup_empty.
  - intros l k p j [E <-]%lookup_singleton_Some Hj. injection E as <- <-. rewrite memset_page_ld by done.
    unfold entry. simpl. by rewrite lookup_singleton_ne.
Qed.

Lemma uvmcreate_spec s free :
  kinv kend s free ->
  exists r s' free', uvmcreate s = Ret r s' /\
    (r = 0 /\ free = [] /\ s' = s \/
     free = r :: free' /\ uspace s' (Pt {[ (2%nat, 0) := r ]} ∅) r 0 free' /\
     forall a, PGROUNDDOWN a <> r -> rd (kmem_mem s') a = rd (kmem_mem s) a).
Proof.
  intros Hk. unfold uvmcreate. destruct free as [|q free].
  { erewrite bind_ret by (by apply (kalloc_none kend)). exists 0, s, []. split; [done | by left]. }
  destruct (kalloc_some kend Hend s q free Hk) as (s1 & He & Hk1 & Hm1). erewrite bind_ret by exact He.
  pose proof (kinv_pages _ _ _ Hk) as [Hq _]%Forall_cons. pose proof (page_ok_bounds kend Hend q Hq).
  rewrite (proj2 (Z.eqb_neq q 0)) by lia. erewrite bind_ret by reflexivity.
  pose proof (kinv_nodup _ _ _ Hk) as [Hqf Hnf]%NoDup_cons.
  assert (forall a, PGROUNDDOWN a <> q -> rd (memset (kmem_mem s1) q 0 PGSIZE) a = rd (kmem_mem s) a) as Hf.
  { intros a Ha. rewrite memset_spec, Hm1 by (unfold PGSIZE; lia). rewrite decide_False; [done|].
    intros Hin. apply Ha. apply PGROUNDDOWN_in; [apply Hq | lia]. }
  eexists q, _, free. split; [done|]. right. split; [done|]. split; [|done].
  split; simpl; try done.
  - apply kinv_frame; [|done]. intros a Ha. rewrite Hf, Hm1; [done|]. intros E. by rewrite E in Ha.
  - by apply memset_rep.
  - unfold tables. simpl. rewrite map_to_list_singleton. simpl. by apply NoDup_cons.
  - intros v Hv. lia.
Qed.

(** ** Copying between kernel and user memory *)

(** Which virtual addresses the user can read, can write, and where they are. *)
Definition umapped (P : pt) (va : Z) : Prop :=
  match leaf P !! (va / PGSIZE) with Some e => has e PTE_U = true | None => False end.
Definition wmapped (P : pt) (va : Z) : Prop :=
  match leaf P !! (va / PGSIZE) with Some e => has e PTE_U = true /\ has e PTE_W = true | None => False end.
Definition phys (P : pt) (va : Z) : Z := PTE2PA (default 0 (leaf P !! (va / PGSIZE))) + va mod PGSIZE.

#[global] Instance umapped_dec P va : Decision (umapped P va).
Proof. unfold umapped. destruct (leaf P !! (va / PGSIZE)); apply _. Defined.
#[global] Instance wmapped_dec P va : Decision (wmapped P va).
Proof. unfold wmapped. destruct (leaf P !! (va / PGSIZE)); apply _. Defined.

Lemma wmapped_umapped P va : wmapped P va -> umapped P va.
Proof. unfold wmapped, umapped. destruct (leaf P !! (va / PGSIZE)); tauto. Qed.

Lemma same_page P va i : va mod PGSIZE + i < PGSIZE -> 0 <= i ->
  (va + i) / PGSIZE = va / PGSIZE /\ phys P (va + i) = phys P va + i.
Proof.
  intros H1 H2. assert ((va + i) / PGSIZE = va / PGSIZE) as E.
  { unfold PGSIZE in *. Z.to_euclidean_division_equations. lia. }
  split; [done|]. unfold phys. rewrite E. unfold PGSIZE in *. Z.to_euclidean_division_equations. lia.
Qed.

(** A user-mapped address is in one of the pages the address space owns. *)
Lemma umapped_owned s P root n free va : uspace s P root n free -> 0 <= va -> umapped P va ->
  va / PGSIZE < Z.of_nat n /\ PGROUNDDOWN (phys P va) = PTE2PA (default 0 (leaf P !! (va / PGSIZE))) /\
  PTE2PA (default 0 (leaf P !! (va / PGSIZE))) ∈ pas n 0 (leaf P) /\
  page_ok kend (PTE2PA (default 0 (leaf P !! (va / PGSIZE)))).
Proof.
  intros H Hva Hu. unfold umapped in Hu. destruct (leaf P !! (va / PGSIZE)) as [e|] eqn:E; [|done].
  assert (0 <= va / PGSIZE) by (apply Z.div_pos; unfold PGSIZE; lia).
  destruct (us_top _ _ _ _ _ H _ _ E) as [Hlt|[_ Hno]]; [|congruence].
  pose proof (in_pas n 0 (leaf P) (va / PGSIZE) ltac:(lia)) as Hin. rewrite E in Hin.
  pose proof (us_pages _ _ _ _ _ H) as Hall. rewrite Forall_forall in Hall. pose proof (Hall _ Hin) as Hok.
  split_and!; try done. unfold phys. rewrite E. apply page_off; [apply Hok|]. apply Z.mod_pos_bound. unfold PGSIZE. lia.
Qed.

Lemma phys_inj s P root n free va va' : uspace s P root n free -> 0 <= va -> 0 <= va' ->
  umapped P va -> umapped P va' -> phys P va = phys P va' -> va = va'.
Proof.
  intros H H1 H2 Hu Hu' E. destruct (umapped_owned _ _ _ _ _ _ H H1 Hu) as (Hlt & Hp & _ & _).
  destruct (umapped_owned _ _ _ _ _ _ H H2 Hu') as (Hlt' & Hp' & _ & _).
  assert (0 <= va / PGSIZE) by (apply Z.div_pos; unfold PGSIZE; lia).
  assert (0 <= va' / PGSIZE) by (apply Z.div_pos; unfold PGSIZE; lia).
  assert (va / PGSIZE = va' / PGSIZE) as Hv.
  { rewrite E in Hp. rewrite Hp in Hp'.
    pose proof (us_sep _ _ _ _ _ H) as (_ & _ & (Hnd & _ & _)%NoDup_app)%NoDup_app.
    assert (Z.to_nat (va / PGSIZE) = Z.to_nat (va' / PGSIZE)) as Hz; [|lia].
    eapply (NoDup_lookup _ _ _ (PTE2PA (default 0 (leaf P !! (va / PGSIZE)))) Hnd).
    - rewrite lookup_pas, Z.add_0_l, Z2Nat.id by lia. done.
    - rewrite lookup_pas, Z.add_0_l, Z2Nat.id by lia. by rewrite Hp'. }
  unfold phys in E. rewrite Hv in E. unfold PGSIZE in *. Z.to_euclidean_division_equations. lia.
Qed.

Lemma walkaddr_spec s P root n free va : uspace s P root n free -> 0 <= va ->
  walkaddr root va s =
  Ret (if decide (umapped P va) then PTE2PA (default 0 (leaf P !! (va / PGSIZE))) else 0) s.
Proof.
  intros H Hva. unfold walkaddr. destruct (Z.leb_spec MAXVA va) as [Hbig|Hsmall].
  - rewrite decide_False; [done|]. unfold umapped. destruct (leaf P !! (va / PGSIZE)) eqn:E; [|by intros []].
    destruct (pr_leaf _ _ _ (us_rep _ _ _ _ _ H) _ _ E) as (_ & Hv & _). rewrite VPNS_eq in Hv. rewrite MAXVA_eq in Hbig.
    exfalso. unfold PGSIZE in *. Z.to_euclidean_division_equations. lia.
  - erewrite bind_ret by (apply (walk_find P); [apply H | lia]).
    destruct (tabs P !! (0%nat, va / PGSIZE / 512)) as [q|] eqn:Et.
    + destruct (leaf_entry _ _ _ (va / PGSIZE) (us_rep _ _ _ _ _ H)) as [Hs Hld]; [eauto|].
      rewrite (proj2 (Z.eqb_neq _ 0)) by done. erewrite bind_ret by reflexivity. rewrite Hld.
      destruct (decide (umapped P va)) as [Hu|Hu]; unfold umapped in Hu;
        (destruct (leaf P !! (va / PGSIZE)) as [e|] eqn:E; [change (default 0 (Some e)) with e|done]);
        destruct (pr_leaf _ _ _ (us_rep _ _ _ _ _ H) _ _ E) as (Hg & _ & _); rewrite (proj2 (good_nonzero _ Hg)); cbn [negb].
      * by rewrite Hu.
      * by rewrite (not_true_is_false _ Hu).
    + unfold slot_of. rewrite Et. rewrite decide_False; [done|]. unfold umapped.
      destruct (leaf P !! (va / PGSIZE)) as [e|] eqn:E; [|by intros []].
      destruct (pr_leaf _ _ _ (us_rep _ _ _ _ _ H) _ _ E) as (_ & _ & [q Hq]). congruence.
Qed.

(** Memory changes outside tables and free pages keep the address space. *)
Lemma uspace_data s P root n free m' : uspace s P root n free ->
  (forall a, PGROUNDDOWN a ∈ tables P ++ free -> rd m' a = rd (kmem_mem s) a) -> uspace (set_mem m' s) P root n free.
Proof.
  intros [H1 H2 H3 H4 H5 H6] Hf. split; try done.
  - apply kinv_frame; [|done]. intros a Ha. apply Hf, elem_of_app. by right.
  - eapply pt_rep_frame; [|done]. intros a Ha. apply Hf, elem_of_app. by left.
Qed.

Lemma round_facts va : 0 <= va ->
  0 <= PGROUNDDOWN va /\ PGROUNDDOWN va / PGSIZE = va / PGSIZE /\ va - PGROUNDDOWN va = va mod PGSIZE /\
  0 <= va mod PGSIZE < PGSIZE.
Proof. intros. rewrite PGROUNDDOWN_eq. unfold PGSIZE. Z.to_euclidean_division_equations. lia. Qed.

Lemma umapped_page P va : umapped P (PGROUNDDOWN va) <-> umapped P va.
Proof.
  unfold umapped. assert (PGROUNDDOWN va / PGSIZE = va / PGSIZE) as ->; [|done].
  rewrite PGROUNDDOWN_eq. apply Z.div_mul. unfold PGSIZE. lia.
Qed.

(** The first chunk of a transfer at [va]: its length, and what remains. *)
Definition chunk (va len : Z) : Z := Z.min (PGSIZE - va mod PGSIZE) len.
Definition pages_of (va len : Z) : Z := (va mod PGSIZE + len + PGSIZE - 1) / PGSIZE.

Lemma chunk_facts va len : 0 <= va -> 0 < len ->
  0 < chunk va len <= len /\
  (chunk va len < len -> va + chunk va len = PGROUNDDOWN va + PGSIZE) /\
  0 <= pages_of (PGROUNDDOWN va + PGSIZE) (len - chunk va len) < pages_of va len /\
  (forall i, 0 <= i < chunk va len -> va mod PGSIZE + i < PGSIZE).
Proof.
  intros Hva Hlen. destruct (round_facts va Hva) as (_ & _ & Hoff & Hr). unfold chunk, pages_of.
  assert ((PGROUNDDOWN va + PGSIZE) mod PGSIZE = 0) as ->.
  { rewrite PGROUNDDOWN_eq, <- Z.mul_succ_l. apply Z.mod_mul. unfold PGSIZE. lia. }
  generalize dependent (va mod PGSIZE). intros off Hoff Hr. unfold PGSIZE in *.
  destruct (Z.min_spec (4096 - off) len) as [[? ->]|[? ->]].
  - split_and!; try lia; Z.to_euclidean_division_equations; lia.
  - split_and!; try lia; Z.to_euclidean_division_equations; lia.
Qed.

(** Copying out one chunk. *)
Lemma write_chunk s P root n free dst src c :
  uspace s P root n free -> 0 <= dst -> wmapped P dst -> (forall i, 0 <= i < c -> dst mod PGSIZE + i < PGSIZE) -> 0 <= c ->
  (forall i, 0 <= i < c -> PGROUNDDOWN (src + i) ∉ pas n 0 (leaf P)) ->
  let m' := memmove (kmem_mem s) (phys P dst) src c in
  uspace (set_mem m' s) P root n free /\
  (forall i, 0 <= i < c -> wmapped P (dst + i) /\ rd m' (phys P (dst + i)) = rd (kmem_mem s) (src + i)) /\
  (forall a, (forall i, 0 <= i < c -> a <> phys P (dst + i)) -> rd m' a = rd (kmem_mem s) a).
Proof.
  intros H Hd Hw Hc Hc0 Hsrc m'.
  assert (forall i, 0 <= i < c -> (dst + i) / PGSIZE = dst / PGSIZE /\ phys P (dst + i) = phys P dst + i) as Hsame.
  { intros i Hi. apply same_page; [by apply Hc | lia]. }
  assert (forall a, (forall i, 0 <= i < c -> a <> phys P (dst + i)) -> rd m' a = rd (kmem_mem s) a) as Hf.
  { intros a Ha. unfold m'. rewrite memmove_rd by lia. rewrite decide_False; [done|]. intros Hin.
    destruct (Hsame (a - phys P dst)) as [_ E]; [lia|]. apply (Ha (a - phys P dst)); lia. }
  assert (forall i, 0 <= i < c -> wmapped P (dst + i)) as Hwi.
  { intros i Hi. unfold wmapped in *. by rewrite (proj1 (Hsame i Hi)). }
  split_and!; [|intros i Hi; split; [by apply Hwi|]|done].
  - apply uspace_data; [done|]. intros a Ha. apply Hf. intros i Hi ->.
    destruct (umapped_owned s P root n free (dst + i) H ltac:(lia)) as (_ & Hp & Hin & _); [by apply wmapped_umapped, Hwi|].
    rewrite Hp in Ha. pose proof (us_sep _ _ _ _ _ H) as (_ & Hd1 & (_ & Hd2 & _)%NoDup_app)%NoDup_app.
    apply elem_of_app in Ha as [Ha|Ha]; [eapply Hd1; [exact Ha|]; apply elem_of_app; by left | by eapply Hd2].
  - unfold m'. rewrite memmove_rd by lia. rewrite (proj2 (Hsame i Hi)), decide_True by lia. f_equal. lia.
Qed.

(** [copyout]'s test of the entry, then [walkaddr]: the page is writable by the user. *)
Lemma out_entry s P root n free va : uspace s P root n free -> 0 <= va < MAXVA ->
  exists pte, walk root va false s = Ret pte s /\
    ((pte = 0 \/ has (ld64 (kmem_mem s) pte) PTE_W = false \/ ~ umapped P va) /\ ~ wmapped P va \/
     pte <> 0 /\ has (ld64 (kmem_mem s) pte) PTE_W = true /\ wmapped P va).
Proof.
  intros H Hva. exists (slot_of P (va / PGSIZE)). split; [apply walk_find; [apply H | done]|].
  destruct (tabs P !! (0%nat, va / PGSIZE / 512)) as [q|] eqn:Et.
  - destruct (leaf_entry _ _ _ (va / PGSIZE) (us_rep _ _ _ _ _ H)) as [Hs Hld]; [eauto|]. rewrite Hld.
    unfold wmapped, umapped. destruct (leaf P !! (va / PGSIZE)) as [e|] eqn:E; [|left; split; [right; by left | by intros []]].
    change (default 0 (Some e)) with e. destruct (has e PTE_W) eqn:Ew, (has e PTE_U) eqn:Eu; naive_solver.
  - left. unfold slot_of. rewrite Et. split; [by left|]. unfold wmapped.
    destruct (leaf P !! (va / PGSIZE)) as [e|] eqn:E; [|by intros []].
    destruct (pr_leaf _ _ _ (us_rep _ _ _ _ _ H) _ _ E) as (_ & _ & [q Hq]). congruence.
Qed.

Lemma page_mapped P va : umapped P (PGROUNDDOWN va) <-> umapped P va.
Proof. apply umapped_page. Qed.
Lemma page_wmapped P va : wmapped P (PGROUNDDOWN va) <-> wmapped P va.
Proof.
  unfold wmapped. assert (PGROUNDDOWN va / PGSIZE = va / PGSIZE) as ->; [|done].
  rewrite PGROUNDDOWN_eq. apply Z.div_mul. unfold PGSIZE. lia.
Qed.

Lemma user_va s P root n free va : uspace s P root n free -> umapped P va -> va < MAXVA.
Proof.
  intros H Hu. unfold umapped in Hu. destruct (leaf P !! (va / PGSIZE)) as [e|] eqn:E; [|done].
  destruct (pr_leaf _ _ _ (us_rep _ _ _ _ _ H) _ _ E) as (_ & Hv & _). rewrite VPNS_eq in Hv. rewrite MAXVA_eq.
  unfold PGSIZE in *. Z.to_euclidean_division_equations. lia.
Qed.

Lemma set_mem_id s : set_mem (kmem_mem s) s = s.
Proof. by destruct s. Qed.

(** One round of each loop. *)
Lemma copyout_round fuel s P root n free dst src len :
  uspace s P root n free -> 0 <= dst -> 0 < len ->
  copyout_loop (S fuel) root dst src len s =
  if decide (wmapped P dst) then
    copyout_loop fuel root (PGROUNDDOWN dst + PGSIZE) (src + chunk dst len) (len - chunk dst len)
      (set_mem (memmove (kmem_mem s) (phys P dst) src (chunk dst len)) s)
  else Ret (-1) s.
Proof.
  intros H Hdst Hlen. cbn [copyout_loop]. rewrite (proj2 (Z.ltb_lt 0 len)) by done.
  destruct (round_facts dst Hdst) as (Hp0 & Hpv & Hoff & Hrange). rewrite Hoff.
  destruct (Z.leb_spec MAXVA (PGROUNDDOWN dst)) as [Hbig|Hsmall].
  { rewrite decide_False; [done|]. intros Hw%wmapped_umapped. apply page_mapped, (user_va _ _ _ _ _ _ H) in Hw. lia. }
  destruct (out_entry s P root n free (PGROUNDDOWN dst) H ltac:(lia)) as (pte & He & Hcase).
  rewrite page_wmapped, page_mapped in Hcase. erewrite bind_ret by exact He.
  destruct (Z.eqb_spec pte 0) as [->|Hne].
  { rewrite decide_False; [done|]. destruct Hcase as [[_ ?]|[? _]]; done. }
  erewrite bind_ret by reflexivity.
  destruct (has (ld64 (kmem_mem s) pte) PTE_W) eqn:Ew; cbn [negb].
  2:{ rewrite decide_False; [done|]. destruct Hcase as [[_ ?]|(_ & ? & _)]; done. }
  erewrite bind_ret by (by apply (walkaddr_spec s P root n free)).
  destruct (decide (wmapped P dst)) as [Hw|Hw].
  - destruct (umapped_owned s P root n free dst H Hdst (wmapped_umapped _ _ Hw)) as (_ & _ & _ & Hok).
    rewrite decide_True by (by apply page_mapped, wmapped_umapped). rewrite Hpv.
    pose proof (page_ok_bounds kend Hend _ Hok). rewrite (proj2 (Z.eqb_neq _ 0)) by lia.
    erewrite bind_ret by reflexivity. rewrite MAXVA_eq in Hsmall. rewrite u64_small by (unfold PGSIZE; lia). done.
  - rewrite decide_False; [done|]. rewrite page_mapped. destruct Hcase as [[[?|[?|?]] _]|(_ & _ & ?)]; done.
Qed.

Lemma copyin_round fuel s P root n free dst src len :
  uspace s P root n free -> 0 <= src -> 0 < len ->
  copyin_loop (S fuel) root dst src len s =
  if decide (umapped P src) then
    copyin_loop fuel root (dst + chunk src len) (PGROUNDDOWN src + PGSIZE) (len - chunk src len)
      (set_mem (memmove (kmem_mem s) dst (phys P src) (chunk src len)) s)
  else Ret (-1) s.
Proof.
  intros H Hsrc Hlen. cbn [copyin_loop]. rewrite (proj2 (Z.ltb_lt 0 len)) by done.
  destruct (round_facts src Hsrc) as (Hp0 & Hpv & Hoff & Hrange). rewrite Hoff.
  erewrite bind_ret by (by apply (walkaddr_spec s P root n free)). rewrite Hpv.
  destruct (decide (umapped P src)) as [Hu|Hu].
  - destruct (umapped_owned s P root n free src H Hsrc Hu) as (_ & _ & _ & Hok).
    rewrite decide_True by (by apply page_mapped). pose proof (page_ok_bounds kend Hend _ Hok).
    rewrite (proj2 (Z.eqb_neq _ 0)) by lia. erewrite bind_ret by reflexivity.
    pose proof (user_va _ _ _ _ _ _ H Hu) as Hv. rewrite MAXVA_eq in Hv.
    rewrite u64_small by (unfold PGSIZE in *; lia). done.
  - rewrite decide_False by (by rewrite page_mapped). done.
Qed.

Lemma pages_nonneg va len : 0 <= va -> 0 <= len -> 0 <= pages_of va len.
Proof.
  intros Hva Hlen. destruct (round_facts va Hva) as (_ & _ & _ & ?). apply Z.div_pos; unfold PGSIZE in *; lia.
Qed.

Lemma copyout_loop_spec fuel s P root n free dst src len :
  uspace s P root n free -> 0 <= dst -> 0 <= len -> pages_of dst len < Z.of_nat fuel ->
  (forall i, 0 <= i < len -> PGROUNDDOWN (src + i) ∉ pas n 0 (leaf P)) ->
  exists r m', copyout_loop fuel root dst src len s = Ret r (set_mem m' s) /\ uspace (set_mem m' s) P root n free /\
    (forall a, (forall i, 0 <= i < len -> wmapped P (dst + i) -> a <> phys P (dst + i)) -> rd m' a = rd (kmem_mem s) a) /\
    (r = 0 /\ (forall i, 0 <= i < len -> wmapped P (dst + i) /\ rd m' (phys P (dst + i)) = rd (kmem_mem s) (src + i)) \/
     r = -1 /\ exists i, 0 <= i < len /\ ~ wmapped P (dst + i)).
Proof.
  revert s dst src len. induction fuel as [|fuel IH]; intros s dst src len H Hdst Hlen Hfuel Hsrc.
  { pose proof (pages_nonneg dst len Hdst Hlen). lia. }
  destruct (decide (len = 0)) as [->|Hpos].
  { exists 0, (kmem_mem s). rewrite set_mem_id. split_and!; try done. left. split; [done | lia]. }
  rewrite (copyout_round fuel s P root n free) by (done || lia).
  destruct (chunk_facts dst len Hdst ltac:(lia)) as (Hc & Hnext & Hpages & Hin). set (c := chunk dst len) in *.
  destruct (decide (wmapped P dst)) as [Hw|Hw].
  2:{ exists (-1), (kmem_mem s). rewrite set_mem_id. split_and!; try done. right. split; [done|].
      exists 0. rewrite Z.add_0_r. split; [lia | done]. }
  destruct (write_chunk s P root n free dst src c H Hdst Hw Hin ltac:(lia)) as (H1 & Hw1 & Hf1); [intros; apply Hsrc; lia|].
  set (m1 := memmove (kmem_mem s) (phys P dst) src c) in *. destruct (round_facts dst Hdst) as (Hp0 & _).
  destruct (IH (set_mem m1 s) (PGROUNDDOWN dst + PGSIZE) (src + c) (len - c) H1) as (r & m2 & He & H2 & Hf2 & Hr).
  { unfold PGSIZE. lia. } { lia. } { lia. }
  { intros i Hi. rewrite <- Z.add_assoc. apply Hsrc. lia. }
  assert (forall i, 0 <= i < len - c -> PGROUNDDOWN dst + PGSIZE + i = dst + (c + i)) as Hshift by (intros i Hi; lia).
  cbn [set_mem kmem_mem] in *.
  exists r, m2. split_and!; [exact He | exact H2 | |].
  - intros a Ha. rewrite Hf2, Hf1; [done | |].
    + intros i Hi. apply Ha; [lia | by apply Hw1].
    + intros i Hi. rewrite Hshift by lia. apply Ha. lia.
  - destruct Hr as [[-> Hr]|[-> (i & Hi & Hno)]]; [left | right]; (split; [done|]).
    + intros i Hi. destruct (decide (i < c)) as [Hlt|Hge].
      * destruct (Hw1 i ltac:(lia)) as [Hwi Hv]. split; [done|]. rewrite Hf2; [done|].
        intros j Hj Hwj E. rewrite Hshift in E, Hwj by lia.
        apply (phys_inj s P root n free (dst + i) (dst + (c + j)) H ltac:(lia) ltac:(lia) (wmapped_umapped _ _ Hwi) (wmapped_umapped _ _ Hwj)) in E. lia.
      * destruct (Hr (i - c) ltac:(lia)) as [Hwi Hv]. rewrite Hshift in Hwi, Hv by lia.
        replace (c + (i - c)) with i in * by lia. split; [done|]. rewrite Hv, Hf1; [f_equal; lia|].
        intros j Hj E. destruct (Hw1 j Hj) as [Hwj _]. apply wmapped_umapped in Hwj.
        destruct (umapped_owned s P root n free (dst + j) H ltac:(lia) Hwj) as (_ & Hp & Hpin & _).
        rewrite <- E in Hp. apply (Hsrc i Hi). replace (src + i) with (src + c + (i - c)) by lia. by rewrite Hp.
    + exists (c + i). rewrite <- Hshift by lia. split; [lia | done].
Qed.

(** A kernel buffer: outside the address space and the free pages. *)
Definition kbuf (P : pt) (n : nat) (free : list Z) (a len : Z) : Prop :=
  forall i, 0 <= i < len -> PGROUNDDOWN (a + i) ∉ owned P n ++ free.

Lemma kbuf_part P n free a len b len' : kbuf P n free a len -> a <= b -> b + len' <= a + len -> kbuf P n free b len'.
Proof. intros H Hb Hl i Hi. replace (b + i) with (a + (b - a + i)) by lia. apply H. lia. Qed.

(** Writing to a kernel buffer keeps the address space and what the user sees. *)
Lemma kbuf_write s P root n free m' dst len :
  uspace s P root n free -> kbuf P n free dst len ->
  (forall a, ~ dst <= a < dst + len -> rd m' a = rd (kmem_mem s) a) ->
  uspace (set_mem m' s) P root n free /\
  (forall va, 0 <= va -> umapped P va -> rd m' (phys P va) = rd (kmem_mem s) (phys P va)).
Proof.
  intros H Hk Hf. assert (forall a, PGROUNDDOWN a ∈ owned P n ++ free -> rd m' a = rd (kmem_mem s) a) as Hf'.
  { intros a Ha. apply Hf. intros Hin. apply (Hk (a - dst)); [lia|]. by replace (dst + (a - dst)) with a by lia. }
  split.
  - apply uspace_data; [done|]. intros a Ha. apply Hf'. unfold owned. rewrite !elem_of_app in *. tauto.
  - intros va Hva Hu. apply Hf'. destruct (umapped_owned s P root n free va H Hva Hu) as (_ & -> & Hin & _).
    unfold owned. rewrite !elem_of_app. tauto.
Qed.

Lemma chunk_phys P va len i : 0 <= va -> 0 < len -> 0 <= i < chunk va len ->
  (va + i) / PGSIZE = va / PGSIZE /\ phys P (va + i) = phys P va + i /\ (umapped P (va + i) <-> umapped P va).
Proof.
  intros Hva Hlen Hi. destruct (chunk_facts va len Hva Hlen) as (_ & _ & _ & Hin).
  destruct (same_page P va i) as [E1 E2]; [by apply Hin | lia |]. split_and!; try done. unfold umapped. by rewrite E1.
Qed.

Lemma copyin_loop_spec fuel s P root n free dst src len :
  uspace s P root n free -> 0 <= src -> 0 <= len -> pages_of src len < Z.of_nat fuel -> kbuf P n free dst len ->
  exists r m', copyin_loop fuel root dst src len s = Ret r (set_mem m' s) /\ uspace (set_mem m' s) P root n free /\
    (forall a, ~ dst <= a < dst + len -> rd m' a = rd (kmem_mem s) a) /\
    (r = 0 /\ (forall i, 0 <= i < len -> umapped P (src + i) /\ rd m' (dst + i) = rd (kmem_mem s) (phys P (src + i))) \/
     r = -1 /\ exists i, 0 <= i < len /\ ~ umapped P (src + i)).
Proof.
  revert s dst src len. induction fuel as [|fuel IH]; intros s dst src len H Hsrc Hlen Hfuel Hdst.
  { pose proof (pages_nonneg src len Hsrc Hlen). lia. }
  destruct (decide (len = 0)) as [->|Hpos].
  { exists 0, (kmem_mem s). rewrite set_mem_id. split_and!; try done. left. split; [done | lia]. }
  rewrite (copyin_round fuel s P root n free) by (done || lia).
  destruct (chunk_facts src len Hsrc ltac:(lia)) as (Hc & Hnext & Hpages & _).
  pose proof (fun i => chunk_phys P src len i Hsrc ltac:(lia)) as Hcp. set (c := chunk src len) in *.
  destruct (decide (umapped P src)) as [Hu|Hu].
  2:{ exists (-1), (kmem_mem s). rewrite set_mem_id. split_and!; try done. right. split; [done|].
      exists 0. rewrite Z.add_0_r. split; [lia | done]. }
  set (m1 := memmove (kmem_mem s) dst (phys P src) c).
  assert (forall a, rd m1 a = if decide (dst <= a < dst + c) then rd (kmem_mem s) (phys P src + (a - dst)) else rd (kmem_mem s) a) as Hm1
    by (intros a; apply memmove_rd; lia).
  destruct (kbuf_write s P root n free m1 dst c H) as [H1 Hu1].
  { eapply kbuf_part; [done | lia | lia]. } { intros a Ha. by rewrite Hm1, decide_False. }
  destruct (round_facts src Hsrc) as (Hp0 & _).
  destruct (IH (set_mem m1 s) (dst + c) (PGROUNDDOWN src + PGSIZE) (len - c) H1) as (r & m2 & He & H2 & Hf2 & Hr).
  { unfold PGSIZE. lia. } { lia. } { lia. } { eapply kbuf_part; [done | lia | lia]. }
  assert (forall i, 0 <= i < len - c -> PGROUNDDOWN src + PGSIZE + i = src + (c + i)) as Hshift by (intros i Hi; lia).
  cbn [set_mem kmem_mem] in *. exists r, m2. split_and!; [exact He | exact H2 | |].
  - intros a Ha. rewrite Hf2 by lia. by rewrite Hm1, decide_False by lia.
  - destruct Hr as [[-> Hr]|[-> (i & Hi & Hno)]]; [left | right]; (split; [done|]).
    + intros i Hi. destruct (decide (i < c)) as [Hlt|Hge].
      * destruct (Hcp i ltac:(lia)) as (_ & Hph & Hum). split; [by apply Hum|].
        rewrite Hf2, Hm1, decide_True, Hph by lia. f_equal. lia.
      * destruct (Hr (i - c) ltac:(lia)) as [Hui Hv]. rewrite Hshift in Hui, Hv by lia.
        replace (c + (i - c)) with i in * by lia. split; [done|].
        replace (dst + i) with (dst + c + (i - c)) by lia. rewrite Hv. apply Hu1; [lia | done].
    + exists (c + i). rewrite <- Hshift by lia. split; [lia | done].
Qed.

(** One page of [copyinstr]: [j] bytes are not NUL, and either the next one is, or
    that is the whole chunk. *)
Lemma copyinstr_page_spec k p dst max s :
  (forall i j, 0 <= i < Z.of_nat k -> 0 <= j < Z.of_nat k -> dst + i <> p + j) ->
  exists (got : bool) (j : nat) m', copyinstr_page k p dst max s = Ret (got, dst + Z.of_nat j, max - Z.of_nat j) (set_mem m' s) /\
    (if got then (j < k)%nat /\ rd (kmem_mem s) (p + Z.of_nat j) = 0 else j = k) /\
    (forall i, 0 <= i < Z.of_nat j -> rd (kmem_mem s) (p + i) <> 0) /\
    (let c := if got then Z.of_nat j + 1 else Z.of_nat j in
     forall a, rd m' a = if decide (dst <= a < dst + c) then rd (kmem_mem s) (p + (a - dst)) else rd (kmem_mem s) a).
Proof.
  revert p dst max s. induction k as [|k IH]; intros p dst max s Hd; cbn [copyinstr_page].
  { exists false, O, (kmem_mem s). rewrite set_mem_id, Z.add_0_r, Z.sub_0_r. split_and!; try done; [simpl; lia|].
    cbv zeta. intros a. by rewrite decide_False by lia. }
  erewrite bind_ret by reflexivity. destruct (Z.eqb_spec (rd (kmem_mem s) p) 0) as [E|E].
  - erewrite bind_ret by reflexivity. exists true, O. eexists. split; [by rewrite Z.add_0_r, Z.sub_0_r|].
    rewrite Z.add_0_r. split_and!; [lia | done | simpl; lia |]. cbv zeta. intros a. rewrite rd_insert.
    destruct (decide (dst = a)) as [<-|]; [rewrite decide_True by lia; by rewrite Z.sub_diag, Z.add_0_r | by rewrite decide_False by lia].
  - erewrite bind_ret by reflexivity.
    set (s1 := set_mem (<[dst := rd (kmem_mem s) p]> (kmem_mem s)) s).
    assert (forall i, 0 <= i < Z.of_nat k -> rd (kmem_mem s1) (p + 1 + i) = rd (kmem_mem s) (p + 1 + i)) as Hs1.
    { intros i Hi. unfold s1. cbn [set_mem kmem_mem]. rewrite rd_insert_ne; [done|].
      specialize (Hd 0 (1 + i) ltac:(lia) ltac:(lia)). lia. }
    destruct (IH (p + 1) (dst + 1) (max - 1) s1) as (got & j & m' & He & Hg & Hnz & Hm).
    { intros i i' Hi Hi'. specialize (Hd (i + 1) (i' + 1) ltac:(lia) ltac:(lia)). lia. }
    exists got, (S j), m'. split_and!.
    + replace (dst + Z.of_nat (S j)) with (dst + 1 + Z.of_nat j) by lia.
      replace (max - Z.of_nat (S j)) with (max - 1 - Z.of_nat j) by lia. exact He.
    + destruct got; [|lia]. destruct Hg as [Hj Hz]. split; [lia|]. rewrite Hs1 in Hz by lia. rewrite <- Hz. f_equal. lia.
    + intros i Hi. destruct (decide (i = 0)) as [->|]; [by rewrite Z.add_0_r|].
      replace (p + i) with (p + 1 + (i - 1)) by lia. rewrite <- Hs1 by (destruct got; lia). apply Hnz. lia.
    + cbv zeta. intros a. rewrite Hm. destruct (decide (a = dst)) as [->|Hne].
      * rewrite decide_False, decide_True by (destruct got; lia). unfold s1. cbn [set_mem kmem_mem].
        rewrite rd_insert_eq, Z.sub_diag, Z.add_0_r. done.
      * destruct (decide (dst + 1 <= a < dst + 1 + (if got then Z.of_nat j + 1 else Z.of_nat j))) as [Hin|Hin].
        -- rewrite decide_True by (destruct got; lia). rewrite Hs1 by (destruct got; lia). f_equal. lia.
        -- rewrite decide_False by (destruct got; lia). unfold s1. cbn [set_mem kmem_mem]. by rewrite rd_insert_ne.
Qed.

Definition ubyte (m : mem) (P : pt) (va : Z) : Z := rd m (phys P va).

Lemma copyinstr_loop_spec fuel s P root n free dst src max :
  uspace s P root n free -> 0 <= src -> 0 <= max -> pages_of src max < Z.of_nat fuel -> kbuf P n free dst max ->
  let u := fun i => ubyte (kmem_mem s) P (src + i) in
  exists r m', copyinstr_loop fuel root dst src max s = Ret r (set_mem m' s) /\ uspace (set_mem m' s) P root n free /\
    (r = 0 /\ (exists k, 0 <= k < max /\ (forall i, 0 <= i < k -> u i <> 0) /\ u k = 0 /\
        (forall i, 0 <= i <= k -> umapped P (src + i) /\ rd m' (dst + i) = u i) /\
        (forall a, ~ dst <= a <= dst + k -> rd m' a = rd (kmem_mem s) a)) \/
     r = -1 /\ (forall a, ~ dst <= a < dst + max -> rd m' a = rd (kmem_mem s) a) /\
       exists k, 0 <= k <= max /\ (forall i, 0 <= i < k -> umapped P (src + i) /\ u i <> 0) /\
         (k = max \/ ~ umapped P (src + k))).
Proof.
  revert s dst src max. induction fuel as [|fuel IH]; intros s dst src max H Hsrc Hmax Hfuel Hdst u.
  { pose proof (pages_nonneg src max Hsrc Hmax). lia. }
  cbn [copyinstr_loop]. destruct (Z.ltb_spec 0 max) as [Hpos|Hzero].
  2:{ exists (-1), (kmem_mem s). rewrite set_mem_id. split_and!; try done. right. split_and!; try done.
      exists 0. split_and!; [lia | lia | lia | left; lia]. }
  destruct (round_facts src Hsrc) as (Hp0 & Hpv & Hoff & Hrange). rewrite Hoff.
  erewrite bind_ret by (by apply (walkaddr_spec s P root n free)). rewrite Hpv.
  destruct (chunk_facts src max Hsrc Hpos) as (Hc & Hnext & Hpages & _).
  pose proof (fun i => chunk_phys P src max i Hsrc Hpos) as Hcp. fold (chunk src max). set (c := chunk src max) in *.
  destruct (decide (umapped P src)) as [Hu|Hu].
  2:{ rewrite decide_False by (by rewrite page_mapped). exists (-1), (kmem_mem s). rewrite set_mem_id.
      split_and!; try done. right. split_and!; try done. exists 0. rewrite Z.add_0_r. split_and!; [lia | lia | lia | by right]. }
  destruct (umapped_owned s P root n free src H Hsrc Hu) as (_ & Hpp & Hpin & Hok).
  rewrite decide_True by (by apply page_mapped). pose proof (page_ok_bounds kend Hend _ Hok).
  rewrite (proj2 (Z.eqb_neq _ 0)) by lia. fold (phys P src).
  destruct (copyinstr_page_spec (Z.to_nat c) (phys P src) dst max s) as (got & j & m1 & He & Hg & Hnz & Hm1).
  { intros i i' Hi Hi' E. rewrite Z2Nat.id in Hi, Hi' by lia. destruct (Hcp i' Hi') as (Ed & Hph & _).
    apply (Hdst i); [lia|]. rewrite E, <- Hph. destruct (umapped_owned s P root n free (src + i') H ltac:(lia)) as (_ & Hq & Hqin & _).
    { by apply Hcp. } rewrite Hq. unfold owned. rewrite !elem_of_app. tauto. }
  erewrite bind_ret by exact He. cbv iota beta.
  assert (forall i, 0 <= i < c -> u i = rd (kmem_mem s) (phys P src + i)) as Hui.
  { intros i Hi. unfold u, ubyte. by rewrite (proj1 (proj2 (Hcp i Hi))). }
  destruct got.
  - destruct Hg as [Hj Hz]. exists 0, m1.
    destruct (kbuf_write s P root n free m1 dst (Z.of_nat j + 1) H) as [H1 _].
    { eapply kbuf_part; [done | lia | lia]. } { intros a Ha. by rewrite Hm1, decide_False. }
    split_and!; try done. left. split; [done|]. exists (Z.of_nat j). split_and!; [lia | lia | | | |].
    + intros i Hi. rewrite Hui by lia. by apply Hnz.
    + by rewrite Hui by lia.
    + intros i Hi. split; [apply Hcp; [lia | done]|]. rewrite Hm1, decide_True, Hui by lia. f_equal. lia.
    + intros a Ha. by rewrite Hm1, decide_False by lia.
  - subst j. rewrite Z2Nat.id in * by lia.
    destruct (kbuf_write s P root n free m1 dst c H) as [H1 Hu1].
    { eapply kbuf_part; [done | lia | lia]. } { intros a Ha. by rewrite Hm1, decide_False. }
    pose proof (user_va _ _ _ _ _ _ H Hu) as Hv. rewrite MAXVA_eq in Hv.
    rewrite u64_small by (unfold PGSIZE in *; lia).
    destruct (IH (set_mem m1 s) (dst + c) (PGROUNDDOWN src + PGSIZE) (max - c) H1) as (r & m2 & He2 & H2 & Hr).
    { unfold PGSIZE. lia. } { lia. } { lia. } { eapply kbuf_part; [done | lia | lia]. }
    cbn [set_mem kmem_mem] in *. exists r, m2. split_and!; [exact He2 | exact H2 |].
    assert (forall i, 0 <= i < max - c -> PGROUNDDOWN src + PGSIZE + i = src + (c + i)) as Hshift by (intros i Hi; lia).
    assert (forall i, 0 <= i < max - c -> umapped P (src + (c + i)) -> ubyte m1 P (src + (c + i)) = u (c + i)) as Hsame.
    { intros i Hi Hm. apply Hu1; [lia | done]. }
    destruct Hr as [[-> (k & Hk & Hnz' & Hz & Hcopy & Hf)]|[-> (Hf & k & Hk & Hbefore & Hend')]]; [left|right].
    + split; [done|]. exists (c + k). split_and!; [lia | lia | | | |].
      * intros i Hi. destruct (decide (i < c)); [rewrite Hui by lia; apply Hnz; lia|].
        specialize (Hnz' (i - c) ltac:(lia)). destruct (Hcopy (i - c) ltac:(lia)) as [Hm _].
        rewrite Hshift in Hnz', Hm by lia. rewrite Hsame in Hnz' by (done || lia). by replace (c + (i - c)) with i in Hnz' by lia.
      * destruct (Hcopy k ltac:(lia)) as [Hm _]. rewrite Hshift in Hz, Hm by lia. by rewrite Hsame in Hz by (done || lia).
      * intros i Hi. destruct (decide (i < c)).
        -- split; [apply Hcp; [lia | done]|]. rewrite Hf, Hm1, decide_True, Hui by lia. f_equal. lia.
        -- destruct (Hcopy (i - c) ltac:(lia)) as [Hm Hv2]. rewrite Hshift in Hm, Hv2 by lia.
           rewrite Hsame in Hv2 by (done || lia). replace (c + (i - c)) with i in * by lia. split; [done|].
           rewrite <- Hv2. f_equal. lia.
      * intros a Ha. rewrite Hf by lia. by rewrite Hm1, decide_False by lia.
    + split_and!; [done | intros a Ha; rewrite Hf by lia; by rewrite Hm1, decide_False by lia |].
      exists (c + k). split_and!; [lia | lia | |].
      * intros i Hi. destruct (decide (i < c)).
        -- split; [apply Hcp; [lia | done]|]. rewrite Hui by lia. apply Hnz. lia.
        -- destruct (Hbefore (i - c) ltac:(lia)) as [Hm Hv2]. rewrite Hshift in Hm, Hv2 by lia.
           rewrite Hsame in Hv2 by (done || lia). replace (c + (i - c)) with i in * by lia. done.
      * destruct (decide (k = max - c)); [left; lia|]. right. rewrite <- Hshift by lia. destruct Hend'; [lia | done].
Qed.

Lemma copy_rounds_ok va len : 0 <= va -> 0 <= len -> pages_of va len < Z.of_nat (copy_rounds len).
Proof.
  intros Hva Hlen. destruct (round_facts va Hva) as (_ & _ & _ & Hr). unfold pages_of, copy_rounds.
  rewrite !Nat2Z.inj_succ, Z2Nat.id by (apply Z.div_pos; unfold PGSIZE; lia).
  revert Hr. generalize (va mod PGSIZE). intros off Hr. unfold PGSIZE in *. Z.to_euclidean_division_equations. lia.
Qed.

(** ** The guard page *)

Lemma clear_U pa f : 0 <= f < 1024 ->
  Z.land (mkpte pa f) (Z.lnot PTE_U) = mkpte pa (Z.land f (Z.lnot PTE_U)) /\ 0 <= Z.land f (Z.lnot PTE_U) < 1024.
Proof.
  intros Hf. assert (0 <= Z.land f (Z.lnot PTE_U) < 1024) as Hr.
  { assert (f = Z.land f (Z.ones 10)) as E by (rewrite Z.land_ones by lia; symmetry; apply Z.mod_small; lia).
    rewrite E, <- Z.land_assoc, (Z.land_comm (Z.ones 10)), Z.land_assoc, Z.land_ones by lia.
    apply Z.mod_pos_bound. lia. }
  split; [|done]. unfold mkpte. rewrite <- (lor_low _ f), <- (lor_low _ (Z.land f _)) by done.
  rewrite Z.land_lor_distr_l. f_equal. apply Z.bits_inj'. intros i Hi. rewrite Z.land_spec, Z.lnot_spec by done.
  change PTE_U with (2 ^ 4). destruct (decide (i = 4)) as [->|Hne].
  - change 1024 with (2 ^ 10). rewrite Z.mul_pow2_bits_low by lia. done.
  - rewrite Z.pow2_bits_false by lia. by rewrite andb_true_r.
Qed.

Lemma uvmclear_spec s P root n free va e :
  uspace s P root n free -> 0 <= va < Z.of_nat n * PGSIZE -> leaf P !! (va / PGSIZE) = Some e ->
  has e PTE_R = true ->
  exists s', uvmclear root va s = Ret tt s' /\
    let P' := set_pte (va / PGSIZE) (Z.land e (Z.lnot PTE_U)) P in
    uspace s' P' root n free /\ leaf P' = <[va / PGSIZE := Z.land e (Z.lnot PTE_U)]> (leaf P) /\ ~ umapped P' va /\
    (forall a, PGROUNDDOWN a ∉ tables P -> rd (kmem_mem s') a = rd (kmem_mem s) a).
Proof.
  intros H Hva He HeR. assert (0 <= va / PGSIZE < Z.of_nat n) as Hv
    by (unfold PGSIZE in *; Z.to_euclidean_division_equations; lia).
  destruct (pr_leaf _ _ _ (us_rep _ _ _ _ _ H) _ _ He) as ((pa & f & -> & Hpa & Hpm & Hf & HfV) & Hvr & Htab).
  destruct (clear_U pa f Hf) as [Eu Hfr]. set (f' := Z.land f (Z.lnot PTE_U)) in *.
  rewrite mkpte_has in HeR by (unfold PTE_R; lia).
  assert (has f' PTE_V = true /\ has f' PTE_R = true /\ has f' PTE_U = false) as (HV & HR & HU).
  { unfold has, f' in *. rewrite <- !Z.land_assoc. split_and!; [exact HfV | exact HeR |].
    change (Z.land (Z.lnot PTE_U) PTE_U) with 0. by rewrite Z.land_0_r. }
  assert (good_pte (mkpte pa f')) as Hgood by (by exists pa, f').
  destruct (leaf_entry _ _ _ _ (us_rep _ _ _ _ _ H) Htab) as [Hs0 Hld]. rewrite He in Hld. simpl in Hld.
  destruct (put_leaf P root (va / PGSIZE) (mkpte pa f') s free (us_k _ _ _ _ _ H) (us_rep _ _ _ _ _ H) (us_nd _ _ _ _ _ H)
              Htab Hvr (or_intror Hgood)) as (Hk' & Hr' & Hf').
  eexists. split.
  { unfold uvmclear. erewrite bind_ret by (apply (walk_find P); [apply H | rewrite MAXVA_eq; rewrite VPNS_eq in Hvr; unfold PGSIZE in *; Z.to_euclidean_division_equations; lia]).
    rewrite (proj2 (Z.eqb_neq _ 0)) by done. erewrite bind_ret by reflexivity. rewrite Hld, Eu. reflexivity. }
  cbv zeta. rewrite Eu.
  assert (leaf (set_pte (va / PGSIZE) (mkpte pa f') P) = <[va / PGSIZE := mkpte pa f']> (leaf P)) as Hl
    by (simpl; by rewrite (proj1 (good_nonzero _ Hgood))).
  assert (pas n 0 (leaf (set_pte (va / PGSIZE) (mkpte pa f') P)) = pas n 0 (leaf P)) as Hpas.
  { rewrite Hl. apply list_eq. intros i. destruct (decide (i < n)%nat); [|by rewrite !lookup_ge_None_2 by (rewrite length_pas; lia)].
    rewrite !lookup_pas by done. f_equal. rewrite Z.add_0_l. destruct (decide (va / PGSIZE = Z.of_nat i)) as [E|E].
    - rewrite <- E, lookup_insert_eq, He. simpl. by rewrite !mkpte_pa.
    - by rewrite lookup_insert_ne. }
  split_and!; try done.
  - destruct H as [H1 H2 H3 H4 H5 H6]. split; rewrite ?Hpas; try done; rewrite Hl.
    + intros v Hv'. destruct (decide (va / PGSIZE = v)) as [<-|]; [|rewrite lookup_insert_ne by done; by apply H5].
      rewrite lookup_insert_eq. eexists. split; [done|]. rewrite mkpte_flags by done. intros E. by rewrite E in HR.
    + intros v e'. rewrite lookup_insert. case_decide; [intros _; left; lia | apply H6].
  - unfold umapped. rewrite Hl, lookup_insert_eq, mkpte_has by (unfold PTE_U; lia). by rewrite HU.
Qed.

End Spec.
