(* ===== verification/UserMem.v ===== *)
(** * UserMem: what the user-memory operations of [kernel/vm.c] do

    The properties of the operations modelled in [Vm], stated for an address space
    [uspace]: [n] user pages, a page table, and the list of free pages, all
    disjoint.  Growing, shrinking, copying and freeing conserve pages: what an
    address space owns together with the free pages is a permutation of what it was
    before, nothing is leaked and nothing is owned twice, on the error paths too.
    Transfers touch exactly the bytes they should, and only memory the user may
    access. *)

From S2P Require Import Prelude CString Riscv Kalloc Vm.
Import KString.

(** The number of pages of a size. *)
Definition npg (sz : Z) : nat := Z.to_nat (PGROUNDUP sz / PGSIZE).

Lemma npg_pages sz : 0 <= sz <= TRAPFRAME ->
  PGROUNDUP sz = Z.of_nat (npg sz) * PGSIZE /\ (Z.of_nat (npg sz) - 1) * PGSIZE < sz \/
  PGROUNDUP sz = Z.of_nat (npg sz) * PGSIZE /\ sz = 0 /\ npg sz = O.
Proof.
  intros Hsz. change TRAPFRAME with 274877898752 in Hsz.
  destruct (PGROUNDUP_range sz) as [Hr Hm]; [lia | unfold PGSIZE; lia |].
  unfold npg. assert (PGROUNDUP sz = PGROUNDUP sz / PGSIZE * PGSIZE) as E.
  { rewrite (Z.div_mod (PGROUNDUP sz) PGSIZE) at 1 by done. lia. }
  rewrite Z2Nat.id by (apply Z.div_pos; unfold PGSIZE in *; lia).
  destruct (decide (sz = 0)) as [->|]; [right | left]; (split; [exact E|]).
  - done.
  - unfold PGSIZE in *. lia.
Qed.

Lemma npg_le sz : 0 <= sz <= TRAPFRAME -> Z.of_nat (npg sz) <= TRAPFRAME / PGSIZE /\ sz <= Z.of_nat (npg sz) * PGSIZE.
Proof.
  intros Hsz. destruct (PGROUNDUP_range sz) as [Hr _].
  { lia. } { change TRAPFRAME with 274877898752 in Hsz. unfold PGSIZE. lia. }
  rewrite top_eq. change TRAPFRAME with 274877898752 in Hsz.
  destruct (npg_pages sz) as [[E ?]|[E ?]]; try (change TRAPFRAME with 274877898752; lia); rewrite E in Hr; unfold PGSIZE in *; lia.
Qed.

Lemma npg_mono a b : 0 <= a <= b -> b <= TRAPFRAME -> (npg a <= npg b)%nat.
Proof.
  intros Hab Hb. destruct (npg_le b ltac:(lia)) as [_ Hb']. destruct (npg_pages a ltac:(lia)) as [[_ Ha]|(_ & _ & ->)]; [|lia].
  unfold PGSIZE in *. lia.
Qed.

Lemma unmap_none kend root k fr s : 0 <= k <= 2 ^ 26 ->
  uvmunmap kend root (k * PGSIZE) (Z.of_nat 0) fr s = Ret tt s.
Proof.
  intros Hk. unfold uvmunmap. rewrite Z.mod_mul by done. cbn [negb Z.eqb uvmunmap_loop].
  change (u64 (Z.of_nat 0 * PGSIZE)) with 0. rewrite Z.add_0_r, u64_small by (unfold PGSIZE; lia).
  by rewrite Z.ltb_irrefl.
Qed.

Lemma uvmalloc_ok kend s P root oldsz newsz xperm free :
  KERNBASE <= kend <= PHYSTOP -> uspace kend s P root (npg oldsz) free ->
  0 <= oldsz <= newsz -> newsz <= TRAPFRAME -> 0 <= xperm < 1024 ->
  exists r s' P' free' n', uvmalloc kend root oldsz newsz xperm s = Ret r s' /\ uspace kend s' P' root n' free' /\
    owned P' n' ++ free' ≡ₚ owned P (npg oldsz) ++ free /\
    (forall a, PGROUNDDOWN a ∉ tables P ++ free -> rd (kmem_mem s') a = rd (kmem_mem s) a) /\
    (forall v, v < Z.of_nat (npg oldsz) \/ Z.of_nat (npg newsz) <= v -> leaf P' !! v = leaf P !! v) /\
    (r = newsz /\ n' = npg newsz /\
       (forall v, Z.of_nat (npg oldsz) <= v < Z.of_nat n' -> exists pa, leaf P' !! v = Some (mkpte pa (uflags xperm))) \/
     r = 0 /\ n' = npg oldsz /\ leaf P' = leaf P).
Proof.
  intros Hend H Hsz Htop Hx. unfold uvmalloc. rewrite (proj2 (Z.ltb_ge _ _)) by lia.
  set (n := npg oldsz) in *. pose proof (npg_mono oldsz newsz ltac:(lia) Htop) as Hmono. fold n in Hmono.
  assert (PGROUNDUP oldsz = Z.of_nat n * PGSIZE) as -> by (destruct (npg_pages oldsz ltac:(lia)) as [[? _]|[? _]]; done).
  set (k := (npg newsz - n)%nat).
  destruct (npg_le newsz ltac:(lia)) as [Htop' Hle].
  assert (k = O \/ (Z.of_nat (n + k) - 1) * PGSIZE < newsz) as Hk.
  { destruct (npg_pages newsz ltac:(lia)) as [[_ ?]|(_ & _ & E)]; [right; unfold k; replace (n + (npg newsz - n))%nat with (npg newsz) by lia; done | left; lia]. }
  destruct (uvmalloc_loop_spec kend Hend k (S (Z.to_nat ((newsz - Z.of_nat n * PGSIZE + PGSIZE - 1) / PGSIZE)))
              s P root n n free newsz xperm H ltac:(lia)) as (r & s' & P' & free' & n' & He & Hu & Hp & Hf & Hr).
  - rewrite top_eq in *. lia.
  - unfold k in *. destruct Hk as [Hk|Hk]; unfold PGSIZE in *; Z.to_euclidean_division_equations; lia.
  - replace (n + k)%nat with (npg newsz) by lia. done.
  - done.
  - done.
  - rewrite Nat.sub_diag in Hf. simpl in Hf. exists r, s', P', free', n'. split_and!; try done.
    + unfold owned. by rewrite <- !app_assoc.
    + intros v Hv. destruct Hr as [(_ & En & Hl)|(_ & _ & ->)].
      * rewrite Hl, decide_False; [done|]. lia.
      * rewrite Nat.sub_diag. done.
    + destruct Hr as [(-> & -> & Hl)|(-> & -> & ->)]; [left | right].
      * split_and!; [done | lia |]. intros v Hv. rewrite Hl, decide_True by lia. eauto.
      * rewrite Nat.sub_diag. by split_and!.
Qed.

(** C28: growing a process.  [uvmalloc] from [oldsz] to [newsz], at most [TRAPFRAME],
    always returns.  On success the address space has the pages of [newsz], the new ones mapped
    readable, for the user, with the extra permissions asked for; the old ones are
    mapped as before.  When memory runs out it returns 0 and every data page it took
    is free again.  In both cases pages are conserved, and no byte outside the page
    tables and the formerly free pages has changed. *)
Theorem uvmalloc_grows kend s P root oldsz newsz xperm free :
  KERNBASE <= kend <= PHYSTOP -> uspace kend s P root (npg oldsz) free ->
  0 <= oldsz <= newsz -> newsz <= TRAPFRAME -> 0 <= xperm < 1024 ->
  exists r s' P' free' n', uvmalloc kend root oldsz newsz xperm s = Ret r s' /\ uspace kend s' P' root n' free' /\
    owned P' n' ++ free' ≡ₚ owned P (npg oldsz) ++ free /\
    (forall a, PGROUNDDOWN a ∉ tables P ++ free -> rd (kmem_mem s') a = rd (kmem_mem s) a) /\
    (forall v, v < Z.of_nat (npg oldsz) \/ Z.of_nat (npg newsz) <= v -> leaf P' !! v = leaf P !! v) /\
    (r = newsz /\ n' = npg newsz /\
       (forall v, Z.of_nat (npg oldsz) <= v < Z.of_nat n' -> exists pa, leaf P' !! v = Some (mkpte pa (uflags xperm))) \/
     r = 0 /\ n' = npg oldsz /\ leaf P' = leaf P).
Proof. apply uvmalloc_ok. Qed.

Lemma uvmdealloc_ok kend s P root oldsz newsz free :
  KERNBASE <= kend <= PHYSTOP -> uspace kend s P root (npg oldsz) free ->
  0 <= oldsz <= TRAPFRAME -> 0 <= newsz ->
  exists r s' P' free', uvmdealloc kend root oldsz newsz s = Ret r s' /\ r = Z.min oldsz newsz /\
    uspace kend s' P' root (npg r) free' /\ owned P' (npg r) ++ free' ≡ₚ owned P (npg oldsz) ++ free /\
    (forall v, leaf P' !! v = if decide (Z.of_nat (npg r) <= v < Z.of_nat (npg oldsz)) then None else leaf P !! v) /\
    (forall a, PGROUNDDOWN a ∈ pas (npg r) 0 (leaf P) \/ PGROUNDDOWN a ∉ owned P (npg oldsz) ->
       rd (kmem_mem s') a = rd (kmem_mem s) a).
Proof.
  intros Hend H Hold Hnew. unfold uvmdealloc. destruct (Z.leb_spec oldsz newsz) as [Hle|Hlt].
  { exists oldsz, s, P, free. rewrite Z.min_l by lia. split_and!; try done. intros v. by rewrite decide_False by lia. }
  rewrite Z.min_r by lia. pose proof (npg_mono newsz oldsz ltac:(lia) ltac:(lia)) as Hmono.
  destruct (npg_le oldsz ltac:(lia)) as [Htop _].
  assert (forall sz, 0 <= sz <= TRAPFRAME -> PGROUNDUP sz = Z.of_nat (npg sz) * PGSIZE) as Hup
    by (intros sz Hs; destruct (npg_pages sz Hs) as [[? _]|[? _]]; done).
  rewrite !Hup by lia. destruct (shrink_spec kend Hend s P root (npg oldsz) (npg newsz) free H Hmono Htop) as (s' & He & Hu & Hf).
  set (gone := pas (npg oldsz - npg newsz) (Z.of_nat (npg newsz)) (leaf P)) in *.
  set (P' := Pt (tabs P) (unmap_range (npg oldsz - npg newsz) (Z.of_nat (npg newsz)) (leaf P))) in *.
  assert (pas (npg oldsz) 0 (leaf P) = pas (npg newsz) 0 (leaf P) ++ gone) as Hsplit.
  { unfold gone. replace (npg oldsz) with (npg newsz + (npg oldsz - npg newsz))%nat at 1 by lia. rewrite pas_app. done. }
  assert (exists s1, when (Z.of_nat (npg newsz) * PGSIZE <? Z.of_nat (npg oldsz) * PGSIZE)
    (let npages := i32 ((Z.of_nat (npg oldsz) * PGSIZE - Z.of_nat (npg newsz) * PGSIZE) / PGSIZE) in
     uvmunmap kend root (Z.of_nat (npg newsz) * PGSIZE) npages true) s = Ret tt s1 /\ s1 = s') as (s1 & He1 & ->).
  { destruct (Z.ltb_spec (Z.of_nat (npg newsz) * PGSIZE) (Z.of_nat (npg oldsz) * PGSIZE)) as [Hl|Hl]; cbn [when].
    - exists s'. split; [|done]. rewrite <- Z.mul_sub_distr_r, Z.div_mul, <- Nat2Z.inj_sub by (done || lia).
      rewrite top_eq in Htop. cbv zeta. rewrite i32_small by lia. exact He.
    - exists s. split; [done|]. assert (npg oldsz - npg newsz = 0)%nat as E by (unfold PGSIZE in Hl; lia).
      rewrite E, unmap_none in He by (rewrite top_eq in Htop; lia). by injection He. }
  erewrite bind_ret by exact He1. eexists _, s', P', _. split_and!; [done | done | exact Hu | | |].
  - unfold owned. rewrite Hsplit. change (tables P') with (tables P).
    assert (pas (npg newsz) 0 (leaf P') = pas (npg newsz) 0 (leaf P)) as ->.
    { apply pas_ext. intros v Hv. simpl. rewrite lookup_unmap_range. by rewrite decide_False by lia. }
    rewrite reverse_Permutation. solve_Permutation.
  - intros v. unfold P'. simpl. rewrite lookup_unmap_range. repeat case_decide; (done || lia).
  - intros a [Ha|Ha]; apply Hf.
    2:{ unfold owned in Ha. rewrite Hsplit in Ha. rewrite !elem_of_app in *. tauto. }
    pose proof (us_sep _ _ _ _ _ _ H) as Hnd. rewrite Hsplit in Hnd.
    apply NoDup_app in Hnd as (_ & Hd & Hnd). rewrite <- app_assoc in Hnd. apply NoDup_app in Hnd as (_ & Hd' & _).
    intros [Ht|Ht]%elem_of_app.
    + apply (Hd _ Ht). rewrite !elem_of_app. tauto.
    + apply (Hd' _ Ha). rewrite elem_of_app. tauto.
Qed.

(** Shrinking a process.  [uvmdealloc] to a size not below the current one
    changes nothing; otherwise it unmaps exactly the pages between the two sizes and
    frees them.  The remaining pages keep their mapping and contents, and nothing
    outside the address space is written. *)
Theorem uvmdealloc_shrinks kend s P root oldsz newsz free :
  KERNBASE <= kend <= PHYSTOP -> uspace kend s P root (npg oldsz) free ->
  0 <= oldsz <= TRAPFRAME -> 0 <= newsz ->
  exists r s' P' free', uvmdealloc kend root oldsz newsz s = Ret r s' /\ r = Z.min oldsz newsz /\
    uspace kend s' P' root (npg r) free' /\ owned P' (npg r) ++ free' ≡ₚ owned P (npg oldsz) ++ free /\
    (forall v, leaf P' !! v = if decide (Z.of_nat (npg r) <= v < Z.of_nat (npg oldsz)) then None else leaf P !! v) /\
    (forall a, PGROUNDDOWN a ∈ pas (npg r) 0 (leaf P) \/ PGROUNDDOWN a ∉ owned P (npg oldsz) ->
       rd (kmem_mem s') a = rd (kmem_mem s) a).
Proof. apply uvmdealloc_ok. Qed.

Lemma uvmcopy_ok kend s P Q oroot nroot sz free :
  KERNBASE <= kend <= PHYSTOP -> 0 <= sz <= TRAPFRAME ->
  uspace kend s P oroot (npg sz) free -> uspace kend s Q nroot 0 free -> spaces P Q (npg sz) 0 free ->
  exists r s' Q' free' n', uvmcopy kend oroot nroot sz s = Ret r s' /\
    uspace kend s' P oroot (npg sz) free' /\ uspace kend s' Q' nroot n' free' /\
    owned Q' n' ++ free' ≡ₚ owned Q 0 ++ free /\
    (forall a, PGROUNDDOWN a ∉ owned Q 0 ++ free -> rd (kmem_mem s') a = rd (kmem_mem s) a) /\
    (forall a, PGROUNDDOWN a ∈ owned P (npg sz) -> rd (kmem_mem s') a = rd (kmem_mem s) a) /\
    (r = 0 /\ n' = npg sz /\ copied kend (kmem_mem s') P Q' n' \/ r = -1 /\ n' = O).
Proof.
  intros Hend Hsz HP HQ Hsp. unfold uvmcopy. destruct (npg_le sz Hsz) as [Htop Hle].
  destruct (uvmcopy_loop_spec kend Hend (npg sz) (S (Z.to_nat ((sz + PGSIZE - 1) / PGSIZE))) s P Q oroot nroot (npg sz) 0 free sz
              HP HQ Hsp eq_refl Htop) as (r & s' & Q' & free' & n' & He & HP' & HQ' & Hp & Hf & Hr & _).
  - destruct (npg_pages sz Hsz) as [[_ ?]|(_ & _ & ->)]; [|lia]. unfold PGSIZE in *. Z.to_euclidean_division_equations. lia.
  - done.
  - destruct (npg_pages sz Hsz) as [[_ ?]|(_ & _ & ?)]; auto.
  - intros v Hv. lia.
  - exists r, s', Q', free', n'. split_and!; try done.
    + intros a Ha. apply Hf. unfold spaces in Hsp. apply NoDup_app in Hsp as (_ & Hd & _). by apply Hd.
    + destruct Hr as [(-> & -> & ?)|[-> ->]]; [by left | by right].
Qed.

(** C27: fork's copy of memory.  [uvmcopy] into an empty address space always returns.
    On success the child has as many pages as the parent, its own ones, with the
    same permissions and the same contents.  When memory runs out it returns -1
    and the child is empty again.  The parent's memory and page table do not
    change, pages are conserved, and nothing outside the child's tables and the
    free pages is written. *)
Theorem uvmcopy_copies kend s P Q oroot nroot sz free :
  KERNBASE <= kend <= PHYSTOP -> 0 <= sz <= TRAPFRAME ->
  uspace kend s P oroot (npg sz) free -> uspace kend s Q nroot 0 free -> spaces P Q (npg sz) 0 free ->
  exists r s' Q' free' n', uvmcopy kend oroot nroot sz s = Ret r s' /\
    uspace kend s' P oroot (npg sz) free' /\ uspace kend s' Q' nroot n' free' /\
    owned Q' n' ++ free' ≡ₚ owned Q 0 ++ free /\
    (forall a, PGROUNDDOWN a ∉ owned Q 0 ++ free -> rd (kmem_mem s') a = rd (kmem_mem s) a) /\
    (forall a, PGROUNDDOWN a ∈ owned P (npg sz) -> rd (kmem_mem s') a = rd (kmem_mem s) a) /\
    (r = 0 /\ n' = npg sz /\ copied kend (kmem_mem s') P Q' n' \/ r = -1 /\ n' = O).
Proof. apply uvmcopy_ok. Qed.

(** C29: freeing an address space.  After [uvmfree] of an address space without
    trap pages, every page it owned, data and tables of all three levels, is on the
    free list exactly once, and no other page was touched; a page table made by
    [uvmcreate] is an empty address space, and is 0 exactly when there is no free
    page. *)
Theorem uvmfree_returns kend s P root sz free :
  KERNBASE <= kend <= PHYSTOP -> 0 <= sz <= TRAPFRAME -> uspace kend s P root (npg sz) free ->
  (forall v e, leaf P !! v = Some e -> v < Z.of_nat (npg sz)) ->
  (exists s' free', uvmfree kend root sz s = Ret tt s' /\ kinv kend s' free' /\ free' ≡ₚ owned P (npg sz) ++ free /\
     (forall a, PGROUNDDOWN a ∉ owned P (npg sz) -> rd (kmem_mem s') a = rd (kmem_mem s) a)) /\
  (exists r s' free', uvmcreate s = Ret r s' /\
     (r = 0 /\ free = [] /\ s' = s \/
      free = r :: free' /\ uspace kend s' (Pt {[ (2%nat, 0) := r ]} ∅) r 0 free' /\
      forall a, PGROUNDDOWN a <> r -> rd (kmem_mem s') a = rd (kmem_mem s) a)).
Proof.
  intros Hend Hsz H Hno. split.
  - destruct (npg_le sz Hsz) as [Htop _]. apply (uvmfree_spec kend Hend); try done; [lia|].
    destruct (npg_pages sz Hsz) as [[? _]|[? _]]; done.
  - apply (uvmcreate_spec kend Hend), H.
Qed.

Lemma user_copies_ok kend s P root n free uva ka len :
  KERNBASE <= kend <= PHYSTOP -> uspace kend s P root n free -> 0 <= uva -> 0 <= len -> kbuf P n free ka len ->
  (exists r m', copyout root uva ka len s = Ret r (set_mem m' s) /\ uspace kend (set_mem m' s) P root n free /\
     (forall a, (forall i, 0 <= i < len -> wmapped P (uva + i) -> a <> phys P (uva + i)) -> rd m' a = rd (kmem_mem s) a) /\
     (r = 0 /\ (forall i, 0 <= i < len -> wmapped P (uva + i) /\ ubyte m' P (uva + i) = rd (kmem_mem s) (ka + i)) \/
      r = -1 /\ exists i, 0 <= i < len /\ ~ wmapped P (uva + i))) /\
  (exists r m', copyin root ka uva len s = Ret r (set_mem m' s) /\ uspace kend (set_mem m' s) P root n free /\
     (forall a, ~ ka <= a < ka + len -> rd m' a = rd (kmem_mem s) a) /\
     (r = 0 /\ (forall i, 0 <= i < len -> umapped P (uva + i) /\ rd m' (ka + i) = ubyte (kmem_mem s) P (uva + i)) \/
      r = -1 /\ exists i, 0 <= i < len /\ ~ umapped P (uva + i))) /\
  (exists r m', copyinstr root ka uva len s = Ret r (set_mem m' s) /\ uspace kend (set_mem m' s) P root n free /\
     (r = 0 /\ (exists k, 0 <= k < len /\ (forall i, 0 <= i < k -> ubyte (kmem_mem s) P (uva + i) <> 0) /\
         ubyte (kmem_mem s) P (uva + k) = 0 /\
         (forall i, 0 <= i <= k -> umapped P (uva + i) /\ rd m' (ka + i) = ubyte (kmem_mem s) P (uva + i)) /\
         (forall a, ~ ka <= a <= ka + k -> rd m' a = rd (kmem_mem s) a)) \/
      r = -1 /\ (forall a, ~ ka <= a < ka + len -> rd m' a = rd (kmem_mem s) a) /\
        exists k, 0 <= k <= len /\
          (forall i, 0 <= i < k -> umapped P (uva + i) /\ ubyte (kmem_mem s) P (uva + i) <> 0) /\
          (k = len \/ ~ umapped P (uva + k)))).
Proof.
  intros Hend H Hu Hlen Hk. pose proof (copy_rounds_ok uva len Hu Hlen) as Hr. split_and!.
  - unfold copyout, ubyte. apply (copyout_loop_spec kend Hend (copy_rounds len) s P root n free uva ka len H Hu Hlen Hr).
    intros i Hi Hin. apply (Hk i Hi). unfold owned. rewrite !elem_of_app. tauto.
  - exact (copyin_loop_spec kend Hend (copy_rounds len) s P root n free ka uva len H Hu Hlen Hr Hk).
  - exact (copyinstr_loop_spec kend Hend (copy_rounds len) s P root n free ka uva len H Hu Hlen Hr Hk).
Qed.

(** C26: transfers between kernel and user memory.  [copyout] returns 0 exactly when
    every destination byte is mapped writable for the user, and then the user sees
    the source bytes there; it never writes a byte the user could not write.
    [copyin] returns 0 exactly when every source byte is mapped for the user, and
    then the buffer holds them.  [copyinstr] returns 0 exactly when a NUL comes
    within [max] readable bytes, and then the buffer holds the string and its NUL.
    None of them changes any other memory. *)
Theorem user_copies kend s P root n free uva ka len :
  KERNBASE <= kend <= PHYSTOP -> uspace kend s P root n free -> 0 <= uva -> 0 <= len -> kbuf P n free ka len ->
  (exists r m', copyout root uva ka len s = Ret r (set_mem m' s) /\ uspace kend (set_mem m' s) P root n free /\
     (forall a, (forall i, 0 <= i < len -> wmapped P (uva + i) -> a <> phys P (uva + i)) -> rd m' a = rd (kmem_mem s) a) /\
     (r = 0 /\ (forall i, 0 <= i < len -> wmapped P (uva + i) /\ ubyte m' P (uva + i) = rd (kmem_mem s) (ka + i)) \/
      r = -1 /\ exists i, 0 <= i < len /\ ~ wmapped P (uva + i))) /\
  (exists r m', copyin root ka uva len s = Ret r (set_mem m' s) /\ uspace kend (set_mem m' s) P root n free /\
     (forall a, ~ ka <= a < ka + len -> rd m' a = rd (kmem_mem s) a) /\
     (r = 0 /\ (forall i, 0 <= i < len -> umapped P (uva + i) /\ rd m' (ka + i) = ubyte (kmem_mem s) P (uva + i)) \/
      r = -1 /\ exists i, 0 <= i < len /\ ~ umapped P (uva + i))) /\
  (exists r m', copyinstr root ka uva len s = Ret r (set_mem m' s) /\ uspace kend (set_mem m' s) P root n free /\
     (r = 0 /\ (exists k, 0 <= k < len /\ (forall i, 0 <= i < k -> ubyte (kmem_mem s) P (uva + i) <> 0) /\
         ubyte (kmem_mem s) P (uva + k) = 0 /\
         (forall i, 0 <= i <= k -> umapped P (uva + i) /\ rd m' (ka + i) = ubyte (kmem_mem s) P (uva + i)) /\
         (forall a, ~ ka <= a <= ka + k -> rd m' a = rd (kmem_mem s) a)) \/
      r = -1 /\ (forall a, ~ ka <= a < ka + len -> rd m' a = rd (kmem_mem s) a) /\
        exists k, 0 <= k <= len /\
          (forall i, 0 <= i < k -> umapped P (uva + i) /\ ubyte (kmem_mem s) P (uva + i) <> 0) /\
          (k = len \/ ~ umapped P (uva + k)))).
Proof. apply user_copies_ok. Qed.

(** ** An example: sixteen pages of memory *)

Definition demo_end : Z := PHYSTOP - 16 * PGSIZE.
Definition demo_kmem : kmem :=
  match kinit demo_end (Kmem Free 0 ∅) with Ret _ s => s | _ => Kmem Free 0 ∅ end.
Definition demo_free : list Z := reverse (all_pages demo_end).

Lemma demo_range : KERNBASE <= demo_end <= PHYSTOP.
Proof. vm_compute. split; discriminate. Qed.

Lemma demo_kinv : kinv demo_end demo_kmem demo_free.
Proof.
  destruct (kinit_ok demo_end demo_range (Kmem Free 0 ∅) eq_refl) as (s & He & Hk). unfold demo_kmem. by rewrite He.
Qed.

(** An empty address space at the first free page. *)
Definition demo_root : Z := PHYSTOP - PGSIZE.
Definition demo_pt : pt := Pt {[ (2%nat, 0) := demo_root ]} ∅.
Definition demo_space : kmem := match uvmcreate demo_kmem with Ret _ s => s | _ => demo_kmem end.

Lemma demo_free_eq : demo_free = demo_root :: tail demo_free.
Proof. vm_compute. reflexivity. Qed.

Lemma demo_uspace : uspace demo_end demo_space demo_pt demo_root (npg 0) (tail demo_free).
Proof.
  destruct (uvmcreate_spec demo_end demo_range demo_kmem demo_free demo_kinv) as (r & s & fr & He & Hcase).
  unfold demo_space. rewrite He. pose proof demo_free_eq as E.
  destruct Hcase as [(_ & E0 & _)|(E1 & Hu & _)]; [by rewrite E0 in E|]. rewrite E1 in E |- *. injection E as ->. exact Hu.
Qed.

Lemma uvmalloc_grows_witness :
  exists r s', uvmalloc demo_end demo_root 0 5000 PTE_W demo_space = Ret r s' /\ r = 5000.
Proof.
  destruct (uvmalloc_grows demo_end demo_space demo_pt demo_root 0 5000 PTE_W (tail demo_free) demo_range demo_uspace)
    as (r & s' & P' & fr & n & He & _); [split; discriminate | vm_compute; discriminate | split; [discriminate | reflexivity] |].
  exists r, s'. split; [exact He|].
  enough (match uvmalloc demo_end demo_root 0 5000 PTE_W demo_space with Ret r _ => r | _ => 0 end = 5000) as Hr by (by rewrite He in Hr).
  vm_compute. reflexivity.
Defined.

Lemma uvmdealloc_shrinks_witness : exists r s', uvmdealloc demo_end demo_root 0 4096 demo_space = Ret r s' /\ r = 0.
Proof.
  destruct (uvmdealloc_shrinks demo_end demo_space demo_pt demo_root 0 4096 (tail demo_free) demo_range demo_uspace)
    as (r & s' & P' & fr & He & Hr & _); [split; [discriminate | vm_compute; discriminate] | discriminate |].
  exists r, s'. split; [exact He | exact Hr].
Defined.

(** The same with one page, and a second, empty address space beside it. *)
Definition demo_page : kmem := match uvmalloc demo_end demo_root 0 4096 PTE_W demo_space with Ret _ s => s | _ => demo_space end.
Definition demo_child : Z := match uvmcreate demo_page with Ret r _ => r | _ => 0 end.
Definition demo_pair : kmem := match uvmcreate demo_page with Ret _ s => s | _ => demo_page end.

Lemma alloc_one kend root xperm :
  uvmalloc kend root 0 4096 xperm = uvmalloc_loop kend 2 root (Z.of_nat 0 * PGSIZE) (Z.of_nat 0 * PGSIZE) 4096 xperm.
Proof.
  unfold uvmalloc. change (4096 <? 0) with false. cbv iota zeta. change (PGROUNDUP 0) with 0.
  change (Z.to_nat ((4096 - 0 + PGSIZE - 1) / PGSIZE)) with 1%nat. by change (Z.of_nat 0 * PGSIZE) with 0.
Qed.

Lemma demo_one : exists P free, uspace demo_end demo_page P demo_root (npg 4096) free /\ free <> [] /\
  (forall v e, leaf P !! v = Some e -> v < Z.of_nat (npg 4096)) /\ is_Some (leaf P !! 0).
Proof.
  destruct (uvmalloc_loop_spec demo_end demo_range 1 2 demo_space demo_pt demo_root 0 0 (tail demo_free) 4096 PTE_W demo_uspace)
    as (r & s' & P' & free' & n' & He & Hu & Hp & _ & Hr);
    [lia | vm_compute; discriminate | lia | vm_compute; discriminate | right; reflexivity | split; [discriminate | reflexivity] |].
  rewrite <- alloc_one in He.
  assert (r = 4096) as ->.
  { enough (match uvmalloc demo_end demo_root 0 4096 PTE_W demo_space with Ret r _ => r | _ => 0 end = 4096) as E by (by rewrite He in E).
    vm_compute. reflexivity. }
  destruct Hr as [(_ & -> & Hl)|[? _]]; [|done]. exists P', free'. unfold demo_page. rewrite He.
  change (npg 4096) with 1%nat. split_and!; [exact Hu | | |].
  - intros ->. assert (kalloc s' = Ret 0 s') as Ek by (apply (kalloc_none demo_end), Hu).
    assert (match uvmalloc demo_end demo_root 0 4096 PTE_W demo_space with
            | Ret _ s => match kalloc s with Ret q _ => q | _ => 0 end | _ => 0 end = 0) as E by (by rewrite He, Ek).
    vm_compute in E. discriminate E.
  - intros v e Hv. rewrite Hl in Hv. case_decide as Hd; [simpl; lia|]. change (leaf demo_pt) with (∅ : gmap Z Z) in Hv. by rewrite lookup_empty in Hv.
  - rewrite Hl, decide_True by lia. eauto.
Qed.

Lemma demo_two : exists P Q free, uspace demo_end demo_pair P demo_root (npg 4096) free /\
  uspace demo_end demo_pair Q demo_child 0 free /\ spaces P Q (npg 4096) 0 free.
Proof.
  destruct demo_one as (P & free & HP & Hne & _).
  destruct (uvmcreate_spec demo_end demo_range demo_page free (us_k _ _ _ _ _ _ HP)) as (r & s & fr & He & Hcase).
  unfold demo_pair, demo_child. rewrite He. destruct Hcase as [(_ & E & _)|(E1 & Hu & Hf)]; [by destruct Hne|].
  exists P, (Pt {[ (2%nat, 0) := r ]} ∅), fr. pose proof (us_sep _ _ _ _ _ _ HP) as Hnd. rewrite app_assoc in Hnd. subst free.
  split_and!; [|exact Hu|].
  - eapply uspace_other; [exact HP | exact Hnd | | apply Hu |].
    + intros x Hx. by right.
    + intros a Ha. apply Hf. intros E. apply Ha. rewrite E. left.
  - unfold spaces, owned at 2, tables. simpl. rewrite map_to_list_singleton. exact Hnd.
Qed.

Lemma uvmcopy_copies_witness :
  exists r s', uvmcopy demo_end demo_root demo_child 4096 demo_pair = Ret r s' /\ r = 0.
Proof.
  destruct demo_two as (P & Q & free & HP & HQ & Hsp).
  destruct (uvmcopy_copies demo_end demo_pair P Q demo_root demo_child 4096 free demo_range
              ltac:(split; [discriminate | vm_compute; discriminate]) HP HQ Hsp) as (r & s' & Q' & fr & n & He & _).
  exists r, s'. split; [exact He|].
  enough (match uvmcopy demo_end demo_root demo_child 4096 demo_pair with Ret r _ => r | _ => 1 end = 0) as E by (by rewrite He in E).
  vm_compute. reflexivity.
Defined.

Lemma uvmfree_returns_witness :
  exists s' free', uvmfree demo_end demo_root 4096 demo_page = Ret tt s' /\ kinv demo_end s' free'.
Proof.
  destruct demo_one as (P & free & HP & _ & Hno & _).
  destruct (uvmfree_returns demo_end demo_page P demo_root 4096 free demo_range
              ltac:(split; [discriminate | vm_compute; discriminate]) HP Hno) as [(s' & fr & He & Hk & _) _].
  exists s', fr. split; [exact He | exact Hk].
Defined.

Lemma user_copies_witness :
  exists r m', copyout demo_root 4000 KERNBASE 8 demo_page = Ret r (set_mem m' demo_page) /\ r = 0.
Proof.
  destruct demo_one as (P & free & HP & _).
  destruct (user_copies demo_end demo_page P demo_root (npg 4096) free 4000 KERNBASE 8 demo_range HP) as [(r & m' & He & _) _].
  - discriminate.
  - discriminate.
  - intros i Hi. assert (PGROUNDDOWN (KERNBASE + i) = KERNBASE) as -> by (apply PGROUNDDOWN_in; [reflexivity | unfold PGSIZE; lia]).
    unfold owned. rewrite !elem_of_app. assert (~ page_ok demo_end KERNBASE) as Hno by (intros [_ Hk]; vm_compute in Hk; destruct Hk; contradiction).
    intros [[Ht|Ht]|Ht].
    + apply in_tables in Ht as [[l k] Hk]. by destruct (pr_key _ _ _ _ (us_rep _ _ _ _ _ _ HP) _ _ _ Hk) as [? _].
    + pose proof (us_pages _ _ _ _ _ _ HP) as Hall. rewrite Forall_forall in Hall. by apply Hno, Hall.
    + pose proof (kinv_pages _ _ _ (us_k _ _ _ _ _ _ HP)) as Hall. rewrite Forall_forall in Hall. by apply Hno, Hall.
  - exists r, m'. split; [exact He|].
    enough (match copyout demo_root 4000 KERNBASE 8 demo_page with Ret r _ => r | _ => 1 end = 0) as E by (by rewrite He in E).
    vm_compute. reflexivity.
Defined.
