(* ===== verification/Kvm.v ===== *)
(** * Kvm: the kernel's page table, [kvmmake] of [kernel/vm.c]

    The page table built at boot: devices and physical memory at their own
    addresses, the trampoline at the top, and below it the kernel stacks of
    [proc_mapstacks] ([kernel/proc.c]) with unmapped guard pages between them.
    [etext] and [trampoline] are linker symbols. *)

From S2P Require Import Prelude CString Riscv Kalloc Vm.
Import KString.

(** ** The kernel's page table *)

Section Kvm.
Variables (etext trampoline : Z).   (* linker symbols *)

Definition NPROC : nat := 64.

Definition proc_mapstacks (kpgtbl : Z) : M kmem unit :=
  (for_each (seq 0 NPROC) (fun p =>
     pa ← kalloc;
     if pa =? 0 then panic "kalloc" else
     kvmmap kpgtbl (KSTACK (Z.of_nat p)) pa PGSIZE (Z.lor PTE_R PTE_W);;
     mret (None : option unit)));;
  mret tt.

Definition kvmmake : M kmem Z :=
  kpgtbl ← kalloc;
  do_mem (fun m => memset m kpgtbl 0 PGSIZE);;
  kvmmap kpgtbl UART0 UART0 PGSIZE (Z.lor PTE_R PTE_W);;
  kvmmap kpgtbl VIRTIO0 VIRTIO0 PGSIZE (Z.lor PTE_R PTE_W);;
  kvmmap kpgtbl PLIC PLIC 67108864 (Z.lor PTE_R PTE_W);;
  kvmmap kpgtbl KERNBASE KERNBASE (etext - KERNBASE) (Z.lor PTE_R PTE_X);;
  kvmmap kpgtbl etext etext (PHYSTOP - etext) (Z.lor PTE_R PTE_W);;
  kvmmap kpgtbl TRAMPOLINE trampoline PGSIZE (Z.lor PTE_R PTE_X);;
  proc_mapstacks kpgtbl;;
  mret kpgtbl.
End Kvm.

(** ** The tables it needs *)

(** The keys of the tables for the devices, the memory and the top of the address
    space; 102 of them. *)
Definition kkeys : list (nat * Z) :=
  [(2%nat, 0); (1%nat, 0); (1%nat, 2); (1%nat, 255); (0%nat, 131071)] ++
  ((fun i => (0%nat, 96 + Z.of_nat i)) <$> seq 0 33) ++ ((fun i => (0%nat, 1024 + Z.of_nat i)) <$> seq 0 64).

Definition kvpn (v : Z) : Prop :=
  49152 <= v < 65536 + 512 \/ 524288 <= v < 557056 \/ 67108352 <= v < 67108864.

Lemma kvpn_keys v i : kvpn v -> on_path v i -> i ∈ kkeys.
Proof.
  intros Hv Hi. unfold kkeys. rewrite !elem_of_app, !list_elem_of_fmap.
  assert (v / 512 / 512 = v / 262144) as E by (rewrite Z.div_div by lia; done).
  destruct Hi as [-> | ->].
  - left. rewrite E. destruct Hv as [Hv|[Hv|Hv]].
    + replace (v / 262144) with 0 by (Z.to_euclidean_division_equations; lia). set_solver.
    + replace (v / 262144) with 2 by (Z.to_euclidean_division_equations; lia). set_solver.
    + replace (v / 262144) with 255 by (Z.to_euclidean_division_equations; lia). set_solver.
  - destruct Hv as [Hv|[Hv|Hv]].
    + right. left. exists (Z.to_nat (v / 512 - 96)). assert (96 <= v / 512 <= 128) by (Z.to_euclidean_division_equations; lia).
      split; [f_equal; lia | apply elem_of_seq; lia].
    + right. right. exists (Z.to_nat (v / 512 - 1024)). assert (1024 <= v / 512 < 1088) by (Z.to_euclidean_division_equations; lia).
      split; [f_equal; lia | apply elem_of_seq; lia].
    + left. replace (v / 512) with 131071 by (Z.to_euclidean_division_equations; lia). set_solver.
Qed.

Section Boot.
Variables (kend etext trampoline : Z).
Context (Hend : KERNBASE <= kend <= PHYSTOP).
Context (Htext : etext mod PGSIZE = 0 /\ KERNBASE < etext < PHYSTOP).
Context (Htramp : trampoline mod PGSIZE = 0 /\ KERNBASE <= trampoline < etext).

(** A page table under construction: [spare] counts the free pages that are left
    even when all tables have been made. *)
Record kbuild (s : kmem) (P : pt) (root : Z) (free : list Z) (spare : nat) : Prop := {
  kb_k : kinv kend s free;
  kb_rep : pt_rep kend (kmem_mem s) P root;
  kb_sep : NoDup (tables P ++ free);
  kb_keys : forall i p, tabs P !! i = Some p -> i ∈ kkeys;
  kb_spare : (length (tables P) + length free = length kkeys + spare)%nat
}.

Lemma kbuild_tables s P root free spare : kbuild s P root free spare -> (length (tables P) <= length kkeys)%nat.
Proof.
  intros H. assert ((map_to_list (tabs P)).*1 ⊆+ kkeys) as Hs.
  { apply NoDup_submseteq; [apply NoDup_fst_map_to_list|]. intros i ([i' p] & -> & Hp)%list_elem_of_fmap.
    apply elem_of_map_to_list in Hp. by eapply kb_keys. }
  apply submseteq_length in Hs. unfold tables. by rewrite !length_fmap in *.
Qed.

Lemma kvmmap_spec s P root free spare n k pa perm :
  kbuild s P root free (S spare) -> 0 <= k -> k + Z.of_nat n <= VPNS -> (0 < n)%nat -> 0 <= pa ->
  pa + Z.of_nat n * PGSIZE <= 2 ^ 56 -> pa mod PGSIZE = 0 -> 0 <= perm < 1024 ->
  (forall v, k <= v < k + Z.of_nat n -> kvpn v /\ leaf P !! v = None) ->
  exists s' P' free', kvmmap root (k * PGSIZE) pa (Z.of_nat n * PGSIZE) perm s = Ret tt s' /\
    kbuild s' P' root free' (S spare) /\ leaf P' = map_range n k pa (Z.lor perm PTE_V) (leaf P) /\
    tables P' ++ free' ≡ₚ tables P ++ free.
Proof.
  intros H Hk Hkn Hn Hpa Hpan Hpm Hperm Hv. unfold kvmmap.
  destruct (mappages_spec kend Hend n k pa perm P root s free (kb_k _ _ _ _ _ H) (kb_rep _ _ _ _ _ H) (kb_sep _ _ _ _ _ H) Hk Hkn Hn
              Hpa Hpan Hpm Hperm) as (r & s' & P' & free' & i & He & Hk' & Hr' & Hl & Hg & Hr); [intros v Hv'; by apply Hv|].
  erewrite bind_ret by exact He.
  assert (kbuild s' P' root free' (S spare)) as Hb.
  { split; try done.
    - rewrite (g_perm _ _ _ _ _ _ _ Hg). apply H.
    - intros j p Hj. destruct (g_keys _ _ _ _ _ _ _ Hg j p Hj) as [Hj'|(v & Hvr & Hon)]; [by eapply kb_keys|].
      eapply kvpn_keys; [|exact Hon]. by apply Hv.
    - rewrite <- length_app, (g_perm _ _ _ _ _ _ _ Hg), length_app. apply H. }
  destruct Hr as [[-> ->]|(-> & _ & ->)].
  - exists s', P', free'. split_and!; try done. apply Hg.
  - exfalso. pose proof (kbuild_tables _ _ _ _ _ Hb). pose proof (kb_spare _ _ _ _ _ Hb). simpl in *. lia.
Qed.

(** ** The stacks *)

Definition kstack_vpn (p : nat) : Z := 67108861 - 2 * Z.of_nat p.

Lemma KSTACK_eq p : (p < 64)%nat -> KSTACK (Z.of_nat p) = kstack_vpn p * PGSIZE.
Proof. intros. unfold KSTACK, TRAMPOLINE, kstack_vpn. rewrite MAXVA_eq. unfold PGSIZE. lia. Qed.

Definition kflags : Z := Z.lor (Z.lor PTE_R PTE_W) PTE_V.
Definition xflags : Z := Z.lor (Z.lor PTE_R PTE_X) PTE_V.

(** The page table after [n] stacks in pages [q] on top of the mappings [L]. *)
Record stacked (L : gmap Z Z) (q : list Z) (P : pt) (free : list Z) : Prop := {
  st_in : forall p a, q !! p = Some a -> leaf P !! kstack_vpn p = Some (mkpte a kflags) /\ page_ok kend a;
  st_out : forall v, (forall p, (p < length q)%nat -> v <> kstack_vpn p) -> leaf P !! v = L !! v;
  st_sep : NoDup (q ++ tables P ++ free)
}.

Lemma stack_step s P root free spare L q :
  kbuild s P root free (S (S spare)) -> stacked L q P free -> (length q < 64)%nat -> L !! kstack_vpn (length q) = None ->
  exists a s', kalloc s = Ret a s' /\ a <> 0 /\
  exists s2 P2 free2, kvmmap root (KSTACK (Z.of_nat (length q))) a PGSIZE (Z.lor PTE_R PTE_W) s' = Ret tt s2 /\
    kbuild s2 P2 root free2 (S spare) /\ stacked L (q ++ [a]) P2 free2.
Proof.
  intros H [Hin Hout Hsep] Hq HL.
  destruct free as [|a free].
  { exfalso. pose proof (kbuild_tables _ _ _ _ _ H). pose proof (kb_spare _ _ _ _ _ H). simpl in *. lia. }
  destruct (kalloc_some kend Hend s a free (kb_k _ _ _ _ _ H)) as (s' & He & Hk & Hm).
  pose proof (kinv_pages _ _ _ (kb_k _ _ _ _ _ H)) as [Ha _]%Forall_cons. pose proof (page_ok_bounds kend Hend a Ha).
  exists a, s'. split_and!; [done | lia |]. rewrite KSTACK_eq by done.
  assert (kbuild s' P root free (S spare)) as Hb.
  { destruct H as [H1 H2 H3 H4 H5]. split; try done.
    - by rewrite Hm.
    - rewrite <- Permutation_middle in H3. by apply NoDup_cons in H3 as [_ ?].
    - change (length (a :: free)) with (S (length free)) in H5. lia. }
  assert (leaf P !! kstack_vpn (length q) = None) as Hnone.
  { rewrite Hout; [done|]. intros p Hp. unfold kstack_vpn. lia. }
  destruct (kvmmap_spec s' P root free spare 1 (kstack_vpn (length q)) a (Z.lor PTE_R PTE_W) Hb) as (s2 & P2 & free2 & He2 & Hb2 & Hl2 & Hp2);
    try done; try (unfold kstack_vpn; rewrite ?VPNS_eq; unfold PGSIZE; lia).
  - apply Ha.
  - intros v Hv. replace v with (kstack_vpn (length q)) by lia. split; [|done]. right. right. unfold kstack_vpn. lia.
  - rewrite Z.mul_1_l in He2. exists s2, P2, free2. split_and!; try done. simpl in Hl2. split.
    + intros p b Hb'. rewrite Hl2. fold kflags. destruct (decide (p = length q)) as [->|Hne].
      * rewrite lookup_app_r, Nat.sub_diag in Hb' by lia. injection Hb' as <-. by rewrite lookup_insert_eq.
      * assert (p < length q)%nat as Hpl.
        { apply lookup_lt_Some in Hb'. rewrite length_app in Hb'. simpl in Hb'. lia. }
        rewrite lookup_app_l in Hb' by done. rewrite lookup_insert_ne by (unfold kstack_vpn; lia). by apply Hin.
    + intros v Hv. rewrite length_app in Hv. simpl in Hv. rewrite Hl2, lookup_insert_ne.
      * apply Hout. intros p Hp. apply Hv. lia.
      * intros <-. apply (Hv (length q)); [lia | done].
    + assert ((q ++ [a]) ++ tables P2 ++ free2 ≡ₚ q ++ tables P ++ a :: free) as ->; [|done]. rewrite Hp2. solve_Permutation.
Qed.

Lemma proc_mapstacks_spec s P root free spare L :
  kbuild s P root free (64 + S spare) -> stacked L [] P free -> (forall p, (p < 64)%nat -> L !! kstack_vpn p = None) ->
  exists s' P' free' q, proc_mapstacks root s = Ret tt s' /\ kbuild s' P' root free' (S spare) /\
    stacked L q P' free' /\ length q = 64%nat.
Proof.
  intros H H0 HL.
  enough (wp (proc_mapstacks root) (fun _ s' => exists P' free' q, kbuild s' P' root free' (S spare) /\
    stacked L q P' free' /\ length q = 64%nat) s) as Hw.
  { apply wp_elim in Hw as ([] & s' & He & P' & free' & q & ?). by exists s', P', free', q. }
  unfold proc_mapstacks. apply wp_bind.
  eapply (wp_for_each (fun done s' => exists P' free' q, length q = length done /\
    kbuild s' P' root free' (64 - length q + S spare) /\ stacked L q P' free')).
  - exists P, free, []. by split_and!.
  - intros done p rest s1 Hseq (P1 & free1 & q & Hlen & Hb & Hst).
    assert (p = length done /\ (p < 64)%nat) as [Hp Hp64].
    { assert (seq 0 NPROC !! length done = Some p) as Hlk by (rewrite Hseq; by apply list_lookup_middle).
      apply lookup_seq in Hlk. unfold NPROC in Hlk. lia. }
    rewrite <- Hp in Hlen. replace (64 - length q + S spare)%nat with (S (S (63 - length q + spare))) in Hb by lia.
    destruct (stack_step s1 P1 root free1 (63 - length q + spare) L q Hb Hst ltac:(lia) (HL (length q) ltac:(lia)))
      as (a & s2 & He & Ha & s3 & P3 & free3 & He3 & Hb3 & Hst3).
    apply wp_bind. eapply wp_intro; [exact He|]. rewrite (proj2 (Z.eqb_neq a 0)) by done.
    apply wp_bind. rewrite Hlen in He3. eapply wp_intro; [exact He3|]. apply wp_ret.
    exists P3, free3, (q ++ [a]). rewrite !length_app. simpl. split_and!; [lia | | done].
    by replace (64 - (length q + 1) + S spare)%nat with (S (63 - length q + spare)) by lia.
  - intros s1 (P1 & free1 & q & Hlen & Hb & Hst). apply wp_ret. exists P1, free1, q.
    rewrite length_seq in Hlen. unfold NPROC in Hlen. rewrite Hlen in Hb. by split_and!.
Qed.

(** ** All of it *)

(** The mappings before the stacks, in the order they are made; [tn] pages of text. *)
Definition kmaps (tn : nat) : gmap Z Z :=
  map_range 1 67108863 trampoline xflags
    (map_range (Z.to_nat 32768 - tn) (524288 + Z.of_nat tn) etext kflags
      (map_range tn 524288 KERNBASE xflags
        (map_range (Z.to_nat 16384) 49152 PLIC kflags
          (map_range 1 65537 VIRTIO0 kflags
            (map_range 1 65536 UART0 kflags ∅))))).

#[local] Opaque map_range.

Lemma kmap_step s P root free spare n k pa perm (m : M kmem Z) (R : Z -> kmem -> Prop) va sz :
  kbuild s P root free (S spare) -> va = k * PGSIZE -> sz = Z.of_nat n * PGSIZE ->
  0 <= k -> k + Z.of_nat n <= VPNS -> (0 < n)%nat -> 0 <= pa ->
  pa + Z.of_nat n * PGSIZE <= 2 ^ 56 -> pa mod PGSIZE = 0 -> 0 <= perm < 1024 ->
  (forall v, k <= v < k + Z.of_nat n -> kvpn v /\ leaf P !! v = None) ->
  (forall s' P' free', kbuild s' P' root free' (S spare) ->
     leaf P' = map_range n k pa (Z.lor perm PTE_V) (leaf P) -> wp m R s') ->
  wp (kvmmap root va pa sz perm;; m) R s.
Proof.
  intros H -> -> H1 H2 H3 H4 H5 H6 H7 H8 Hm.
  destruct (kvmmap_spec s P root free spare n k pa perm H H1 H2 H3 H4 H5 H6 H7 H8) as (s' & P' & free' & He & Hb & Hl & _).
  apply wp_bind. eapply wp_intro; [exact He|]. by eapply Hm.
Qed.

Lemma kvmmake_ok s free spare :
  kinv kend s free -> length free = (length kkeys + (64 + S spare))%nat ->
  exists root s' P free' q, kvmmake etext trampoline s = Ret root s' /\ kbuild s' P root free' (S spare) /\
    stacked (kmaps (Z.to_nat ((etext - KERNBASE) / PGSIZE))) q P free' /\ length q = 64%nat.
Proof.
  intros Hk Hlen. set (tn := Z.to_nat ((etext - KERNBASE) / PGSIZE)).
  enough (wp (kvmmake etext trampoline) (fun root s' => exists P free' q, kbuild s' P root free' (S spare) /\
    stacked (kmaps tn) q P free' /\ length q = 64%nat) s) as Hw.
  { apply wp_elim in Hw as (root & s' & He & P & free' & q & ?). by exists root, s', P, free', q. }
  destruct free as [|root free]; [simpl in Hlen; lia|].
  destruct (uvmcreate_spec kend Hend s (root :: free) Hk) as (r & s1 & free1 & He1 & Hc).
  destruct Hc as [(_ & ? & _)|(E & Hu & _)]; [done|]. injection E as <- <-.
  unfold uvmcreate in He1. destruct (kalloc_some kend Hend s root free Hk) as (s0 & Ea & Hk0 & _).
  erewrite bind_ret in He1 by exact Ea. pose proof (kinv_pages _ _ _ Hk) as [Ha _]%Forall_cons.
  pose proof (page_ok_bounds kend Hend root Ha). rewrite (proj2 (Z.eqb_neq root 0)) in He1 by lia.
  erewrite bind_ret in He1 by reflexivity. injection He1 as Hs1.
  assert (kbuild s1 (Pt {[ (2%nat, 0) := root ]} ∅) root free (64 + S spare)) as H1.
  { split; [apply Hu | apply Hu | eapply us_nd, Hu | |].
    - intros i p Hi. simpl in Hi. apply lookup_singleton_Some in Hi as [<- _]. unfold kkeys. rewrite elem_of_app. left. left.
    - unfold tables. simpl tabs. rewrite map_to_list_singleton.
      change (length (root :: free)) with (S (length free)) in Hlen. simpl fmap. change (length [root]) with 1%nat. lia. }
  unfold kvmmake. apply wp_bind. eapply wp_intro; [exact Ea|]. apply wp_bind, wp_modify. rewrite Hs1. clear Hs1 Ea Hk0 Hu Hk Hlen.
  assert (etext = (524288 + Z.of_nat tn) * PGSIZE /\ 0 < Z.of_nat tn < 32768) as [Et Htn].
  { destruct Htext as [Hm Hr]. unfold tn, KERNBASE, PHYSTOP, KERNBASE, PGSIZE in *. Z.to_euclidean_division_equations. lia. }
  clearbody tn. pose proof VPNS_eq as HV. change (64 + S spare)%nat with (S (64 + spare)) in H1.
  eapply (kmap_step s1 _ root free (64 + spare) 1 65536); [exact H1 | done | done | done | done | lia | done | done | done | done | |].
  { intros v Hv. split; [left; lia | done]. }
  clear H1 s1 s0. intros s1 P1 f1 H1 L1. fold kflags in L1. cbn [leaf] in L1.
  eapply (kmap_step s1 P1 root f1 (64 + spare) 1 65537); [exact H1 | done | done | done | done | lia | done | done | done | done | |].
  { intros v Hv. split; [left; lia|]. rewrite L1, lookup_map_range, decide_False by lia. done. }
  clear H1. intros s2 P2 f2 H2 L2. fold kflags in L2. rewrite L1 in L2.
  eapply (kmap_step s2 P2 root f2 (64 + spare) (Z.to_nat 16384) 49152); [exact H2 | done | unfold PGSIZE; lia | done | lia | lia | done | unfold PLIC, PGSIZE; lia | done | done | |].
  { intros v Hv. split; [left; lia|]. rewrite L2, !lookup_map_range, !decide_False by lia. done. }
  clear H2 L1. intros s3 P3 f3 H3 L3. fold kflags in L3. rewrite L2 in L3.
  eapply (kmap_step s3 P3 root f3 (64 + spare) tn 524288); [exact H3 | reflexivity | rewrite Et; unfold KERNBASE, PGSIZE; lia | discriminate | lia | lia | discriminate | unfold KERNBASE, PGSIZE; lia | reflexivity | split; [discriminate | reflexivity] | |].
  { intros v Hv. split; [right; left; lia|]. rewrite L3, !lookup_map_range, !decide_False by lia. apply lookup_empty. }
  clear H3 L2. intros s4 P4 f4 H4 L4. fold xflags in L4. rewrite L3 in L4.
  eapply (kmap_step s4 P4 root f4 (64 + spare) (Z.to_nat 32768 - tn) (524288 + Z.of_nat tn)); [exact H4 | exact Et | rewrite Et; unfold PHYSTOP, KERNBASE, PGSIZE; lia | lia | lia | lia | unfold KERNBASE in *; lia | rewrite Et; unfold PGSIZE; lia | apply Htext | split; [discriminate | reflexivity] | |].
  { intros v Hv. split; [right; left; lia|]. rewrite L4, !lookup_map_range, !decide_False by lia. apply lookup_empty. }
  clear H4 L3. intros s5 P5 f5 H5 L5. fold kflags in L5. rewrite L4 in L5.
  eapply (kmap_step s5 P5 root f5 (64 + spare) 1 67108863); [exact H5 | reflexivity | reflexivity | discriminate | lia | lia | unfold KERNBASE in *; lia | unfold KERNBASE, PHYSTOP, KERNBASE, PGSIZE in *; lia | apply Htramp | split; [discriminate | reflexivity] | |].
  { intros v Hv. split; [right; right; lia|]. rewrite L5, !lookup_map_range, !decide_False by lia. apply lookup_empty. }
  clear H5 L4. intros s6 P6 f6 H6 L6. fold xflags in L6. rewrite L5 in L6. fold (kmaps tn) in L6.
  destruct (proc_mapstacks_spec s6 P6 root f6 spare (kmaps tn)) as (s7 & P7 & f7 & q & He & Hb & Hst & Hq).
  - by replace (64 + S spare)%nat with (S (64 + spare)) by lia.
  - split; [by intros p a Hp | intros v _; by rewrite L6 | apply H6].
  - intros p Hp. unfold kmaps, kstack_vpn. rewrite !lookup_map_range, !decide_False by lia. done.
  - apply wp_bind. eapply wp_intro; [exact He|]. apply wp_ret. by exists P7, f7, q.
Qed.

End Boot.

(** Where the page table sends an address, with the flags. *)
Definition translate (P : pt) (va : Z) : option (Z * Z) :=
  match leaf P !! (va / PGSIZE) with
  | Some e => Some (PTE2PA e + va mod PGSIZE, PTE_FLAGS e)
  | None => None
  end.

Lemma translate_seg P va base k f :
  leaf P !! (va / PGSIZE) = Some (mkpte (base + (va / PGSIZE - k) * PGSIZE) f) ->
  0 <= base + (va / PGSIZE - k) * PGSIZE < 2 ^ 56 -> base mod PGSIZE = 0 -> 0 <= f < 1024 ->
  translate P va = Some (base + (va - k * PGSIZE), f).
Proof.
  intros Hl Hp Hm Hf. unfold translate. rewrite Hl, mkpte_pa, mkpte_flags; [|done|done|by rewrite Z.mod_add|done].
  do 2 f_equal. pose proof (Z.div_mod va PGSIZE ltac:(done)). lia.
Qed.

Lemma kmaps_flags etext trampoline tn v e : kmaps etext trampoline tn !! v = Some e ->
  exists pa, e = mkpte pa kflags \/ e = mkpte pa xflags.
Proof.
  unfold kmaps. rewrite !lookup_map_range, lookup_empty. repeat case_decide; intros E; simplify_eq; eauto.
Qed.

Lemma div_seg va k n : k * PGSIZE <= va < (k + n) * PGSIZE -> k <= va / PGSIZE < k + n.
Proof. unfold PGSIZE. intros. Z.to_euclidean_division_equations. lia. Qed.

#[local] Ltac seg_lookup :=
  unfold kmaps; rewrite !lookup_map_range;
  repeat first [rewrite decide_True by lia | rewrite decide_False by lia]; reflexivity.

(** C30: the kernel's address space.  With 167 free pages or more, [kvmmake] returns
    the page table of an address space in which the devices and the memory after
    the kernel text are at their own addresses, readable and writable; the text at
    its own address, readable and executable; the trampoline at the top; and each
    process's kernel stack in a page of its own with the page below it unmapped.
    Nothing is both writable and executable, and nothing is accessible to the
    user. *)
Theorem kvmmake_maps kend etext trampoline s free :
  KERNBASE <= kend <= PHYSTOP -> etext mod PGSIZE = 0 /\ KERNBASE < etext < PHYSTOP ->
  trampoline mod PGSIZE = 0 /\ KERNBASE <= trampoline < etext ->
  kinv kend s free -> (167 <= length free)%nat ->
  exists root s' P free' q, kvmmake etext trampoline s = Ret root s' /\
    kinv kend s' free' /\ pt_rep kend (kmem_mem s') P root /\ NoDup (q ++ tables P ++ free') /\ length q = NPROC /\
    (forall va, UART0 <= va < UART0 + PGSIZE \/ VIRTIO0 <= va < VIRTIO0 + PGSIZE \/
       PLIC <= va < PLIC + 67108864 \/ etext <= va < PHYSTOP -> translate P va = Some (va, kflags)) /\
    (forall va, KERNBASE <= va < etext -> translate P va = Some (va, xflags)) /\
    (forall va, TRAMPOLINE <= va < MAXVA -> translate P va = Some (trampoline + (va - TRAMPOLINE), xflags)) /\
    (forall p a va, q !! p = Some a -> KSTACK (Z.of_nat p) <= va < KSTACK (Z.of_nat p) + PGSIZE ->
       translate P va = Some (a + (va - KSTACK (Z.of_nat p)), kflags)) /\
    (forall p va, (p < NPROC)%nat -> KSTACK (Z.of_nat p) - PGSIZE <= va < KSTACK (Z.of_nat p) -> translate P va = None) /\
    (forall va pa f, translate P va = Some (pa, f) ->
       has f PTE_U = false /\ (has f PTE_W = false \/ has f PTE_X = false)).
Proof.
  intros Hend Htext Htramp Hk Hlen. change (length kkeys) with 102%nat in *.
  destruct (kvmmake_ok kend etext trampoline Hend Htext Htramp s free (length free - 167) Hk) as (root & s' & P & free' & q & He & Hb & Hst & Hq).
  { change (length kkeys) with 102%nat. lia. }
  set (tn := Z.to_nat ((etext - KERNBASE) / PGSIZE)) in *.
  assert (etext = (524288 + Z.of_nat tn) * PGSIZE /\ 0 < Z.of_nat tn < 32768) as [Et Htn].
  { destruct Htext as [Hm Hr]. unfold tn, KERNBASE, PHYSTOP, KERNBASE, PGSIZE in *. Z.to_euclidean_division_equations. lia. }
  clearbody tn. exists root, s', P, free', q. destruct Hst as [Hin Hout Hsep].
  assert (forall va, ~ (67108733 <= va / PGSIZE <= 67108861) -> leaf P !! (va / PGSIZE) = kmaps etext trampoline tn !! (va / PGSIZE)) as Hlow.
  { intros va Hva. apply Hout. intros p Hp E. rewrite Hq in Hp. unfold kstack_vpn in E. lia. }
  assert (forall va base k n f, k * PGSIZE <= va < (k + n) * PGSIZE -> k + n <= 67108733 \/ 67108861 < k ->
    (k <= va / PGSIZE < k + n -> kmaps etext trampoline tn !! (va / PGSIZE) = Some (mkpte (base + (va / PGSIZE - k) * PGSIZE) f)) ->
    0 <= base /\ base + n * PGSIZE <= 2 ^ 56 -> base mod PGSIZE = 0 -> f = kflags \/ f = xflags ->
    translate P va = Some (base + (va - k * PGSIZE), f)) as Hseg.
  { intros va base k n f Hva Hk' Hl Hb' Hm Hf. pose proof (div_seg va k n Hva) as Hd.
    apply translate_seg; [rewrite Hlow by lia; by apply Hl | unfold PGSIZE in *; lia | done | destruct Hf as [-> | ->]; done]. }
  split_and!; [exact He | apply Hb | apply Hb | exact Hsep | exact Hq | | | | | |].
  - intros va [Hva|[Hva|[Hva|Hva]]].
    + rewrite (Hseg va UART0 65536 1 kflags); [do 2 f_equal; unfold UART0, PGSIZE; lia | unfold UART0, PGSIZE in *; lia | lia | intros; seg_lookup | done | done | by left].
    + rewrite (Hseg va VIRTIO0 65537 1 kflags); [do 2 f_equal; unfold VIRTIO0, PGSIZE; lia | unfold VIRTIO0, PGSIZE in *; lia | lia | intros; seg_lookup | done | done | by left].
    + rewrite (Hseg va PLIC 49152 16384 kflags); [do 2 f_equal; unfold PLIC, PGSIZE; lia | unfold PLIC, PGSIZE in *; lia | lia | intros; seg_lookup | done | done | by left].
    + rewrite (Hseg va etext (524288 + Z.of_nat tn) (32768 - Z.of_nat tn) kflags);
        [do 2 f_equal; lia | unfold PHYSTOP, KERNBASE, PGSIZE in *; lia | lia | intros; seg_lookup | unfold KERNBASE, PGSIZE in *; lia | apply Htext | by left].
  - intros va Hva. rewrite (Hseg va KERNBASE 524288 (Z.of_nat tn) xflags);
      [do 2 f_equal; unfold KERNBASE, PGSIZE; lia | unfold KERNBASE, PGSIZE in *; lia | lia | intros; seg_lookup | unfold KERNBASE, PGSIZE in *; lia | done | by right].
  - intros va Hva. rewrite (Hseg va trampoline 67108863 1 xflags);
      [do 2 f_equal; unfold TRAMPOLINE; rewrite MAXVA_eq; unfold PGSIZE; lia | unfold TRAMPOLINE in Hva; rewrite MAXVA_eq in Hva; unfold PGSIZE in *; lia
      | lia | intros; seg_lookup | unfold KERNBASE, PHYSTOP, KERNBASE, PGSIZE in *; lia | apply Htramp | by right].
  - intros p a va Hp Hva. pose proof (lookup_lt_Some _ _ _ Hp) as Hpl. rewrite Hq in Hpl.
    rewrite KSTACK_eq in * by done. destruct (Hin p a Hp) as [Hl [Ham Har]].
    pose proof (div_seg va (kstack_vpn p) 1 ltac:(lia)) as Hd.
    apply translate_seg; [|unfold KERNBASE, PHYSTOP, KERNBASE, PGSIZE in *; lia | done | done].
    replace (va / PGSIZE) with (kstack_vpn p) by lia. rewrite Hl. do 2 f_equal. lia.
  - intros p va Hp Hva. unfold NPROC in Hp. rewrite KSTACK_eq in Hva by done.
    pose proof (div_seg va (kstack_vpn p - 1) 1 ltac:(lia)) as Hd. unfold translate.
    replace (va / PGSIZE) with (kstack_vpn p - 1) by lia. rewrite Hout.
    + unfold kstack_vpn. seg_lookup.
    + intros p' Hp' E. unfold kstack_vpn in E. lia.
  - intros va pa f Ht. unfold translate in Ht. destruct (leaf P !! (va / PGSIZE)) as [e|] eqn:El; [|done].
    injection Ht as _ <-.
    assert (exists pa, e = mkpte pa kflags \/ e = mkpte pa xflags) as (pa' & Hf).
    { destruct (decide (Exists (fun p => va / PGSIZE = kstack_vpn p) (seq 0 64))) as [(p & Hp & E)%Exists_exists|Hno].
      - apply elem_of_seq in Hp. destruct (lookup_lt_is_Some_2 q p ltac:(lia)) as [a Ha]. destruct (Hin p a Ha) as [Hl _].
        rewrite E, Hl in El. injection El as <-. eauto.
      - apply (kmaps_flags etext trampoline tn (va / PGSIZE)). rewrite <- Hout; [done|]. intros p Hp E. apply Hno, Exists_exists.
        exists p. split; [apply elem_of_seq; lia | done]. }
    destruct Hf as [-> | ->]; rewrite mkpte_flags by done; vm_compute; auto.
Qed.

Definition boot_end : Z := PHYSTOP - 200 * PGSIZE.
Definition boot_kmem : kmem := match kinit boot_end (Kmem Free 0 ∅) with Ret _ s => s | _ => Kmem Free 0 ∅ end.

Lemma kvmmake_maps_witness :
  exists root s' P, kvmmake (KERNBASE + 8 * PGSIZE) (KERNBASE + 7 * PGSIZE) boot_kmem = Ret root s' /\
    pt_rep boot_end (kmem_mem s') P root /\ translate P UART0 = Some (UART0, kflags).
Proof.
  assert (KERNBASE <= boot_end <= PHYSTOP) as Hend by (vm_compute; split; discriminate).
  destruct (kinit_ok boot_end Hend (Kmem Free 0 ∅) eq_refl) as (s & He & Hk).
  destruct (kvmmake_maps boot_end (KERNBASE + 8 * PGSIZE) (KERNBASE + 7 * PGSIZE) s (reverse (all_pages boot_end)) Hend)
    as (root & s' & P & free' & q & Hm & _ & Hr & _ & _ & Hdev & _).
  - vm_compute. repeat split; discriminate || reflexivity.
  - vm_compute. repeat split; discriminate || reflexivity.
  - exact Hk.
  - apply Nat.leb_le. vm_compute. reflexivity.
  - exists root, s', P. unfold boot_kmem. rewrite He. split; [exact Hm|]. split; [exact Hr|].
    apply Hdev. left. vm_compute. split; [discriminate | reflexivity].
Defined.
