(* ===== verification/Proc.v ===== *)
(** * Proc: the process table, [kernel/proc.c]

    The table of processes beside the memory and the page allocator, and the
    routines of [kernel/proc.c] that need nothing of the file system; [fork], [exit]
    and [wait] are in [Lifecycle], the scheduler is in [Sched].  A pointer to a
    [struct proc] is an index of the table, [None] is the null pointer; the fields
    of the trapframe are words of the page it lies in.

    The main invariant, [pinv], says that the pages of all processes (page tables,
    memory, trapframes) and the free pages are pairwise different and that every
    process in use has a well-formed address space; the operations keep it and move
    pages only between the process they act on and the free list. *)

From S2P Require Import Prelude CString Riscv Kalloc Vm UserMem Kvm.
Import KString.

Definition NOFILE : nat := 16.

Inductive procstate := UNUSED | USED | SLEEPING | RUNNABLE | RUNNING | ZOMBIE.

#[export] Instance procstate_eq_dec : EqDecision procstate.
Proof. solve_decision. Defined.

Definition is_state (a b : procstate) : bool := bool_decide (a = b).

(** [struct context]: [ra], [sp] and the twelve callee-saved registers. *)
Record context := Context { ctx_ra : Z; ctx_sp : Z; ctx_s : list Z }.

Record proc := Proc {
  p_lock : spin;
  p_state : procstate;
  p_chan : Z;
  p_killed : Z;
  p_xstate : Z;
  p_pid : Z;
  p_parent : option nat;
  p_kstack : Z;
  p_sz : Z;
  p_pagetable : Z;
  p_trapframe : Z;
  p_context : context;
  p_ofile : list (option nat);
  p_cwd : option nat;
  p_name : list Z;
  p_trace_mask : Z
}.

Definition setp_lock (v : spin) (p : proc) : proc :=
  Proc v (p_state p) (p_chan p) (p_killed p) (p_xstate p) (p_pid p) (p_parent p) (p_kstack p)
    (p_sz p) (p_pagetable p) (p_trapframe p) (p_context p) (p_ofile p) (p_cwd p) (p_name p)
    (p_trace_mask p).
Definition setp_state (v : procstate) (p : proc) : proc :=
  Proc (p_lock p) v (p_chan p) (p_killed p) (p_xstate p) (p_pid p) (p_parent p) (p_kstack p) (p_sz
    p) (p_pagetable p) (p_trapframe p) (p_context p) (p_ofile p) (p_cwd p) (p_name p)
    (p_trace_mask p).
Definition setp_chan (v : Z) (p : proc) : proc :=
  Proc (p_lock p) (p_state p) v (p_killed p) (p_xstate p) (p_pid p) (p_parent p) (p_kstack p)
    (p_sz p) (p_pagetable p) (p_trapframe p) (p_context p) (p_ofile p) (p_cwd p) (p_name p)
    (p_trace_mask p).
Definition setp_killed (v : Z) (p : proc) : proc :=
  Proc (p_lock p) (p_state p) (p_chan p) v (p_xstate p) (p_pid p) (p_parent p) (p_kstack p) (p_sz
    p) (p_pagetable p) (p_trapframe p) (p_context p) (p_ofile p) (p_cwd p) (p_name p)
    (p_trace_mask p).
Definition setp_xstate (v : Z) (p : proc) : proc :=
  Proc (p_lock p) (p_state p) (p_chan p) (p_killed p) v (p_pid p) (p_parent p) (p_kstack p) (p_sz
    p) (p_pagetable p) (p_trapframe p) (p_context p) (p_ofile p) (p_cwd p) (p_name p)
    (p_trace_mask p).
Definition setp_pid (v : Z) (p : proc) : proc :=
  Proc (p_lock p) (p_state p) (p_chan p) (p_killed p) (p_xstate p) v (p_parent p) (p_kstack p)
    (p_sz p) (p_pagetable p) (p_trapframe p) (p_context p) (p_ofile p) (p_cwd p) (p_name p)
    (p_trace_mask p).
Definition setp_parent (v : option nat) (p : proc) : proc :=
  Proc (p_lock p) (p_state p) (p_chan p) (p_killed p) (p_xstate p) (p_pid p) v (p_kstack p) (p_sz
    p) (p_pagetable p) (p_trapframe p) (p_context p) (p_ofile p) (p_cwd p) (p_name p)
    (p_trace_mask p).
Definition setp_kstack (v : Z) (p : proc) : proc :=
  Proc (p_lock p) (p_state p) (p_chan p) (p_killed p) (p_xstate p) (p_pid p) (p_parent p) v (p_sz
    p) (p_pagetable p) (p_trapframe p) (p_context p) (p_ofile p) (p_cwd p) (p_name p)
    (p_trace_mask p).
Definition setp_sz (v : Z) (p : proc) : proc :=
  Proc (p_lock p) (p_state p) (p_chan p) (p_killed p) (p_xstate p) (p_pid p) (p_parent p)
    (p_kstack p) v (p_pagetable p) (p_trapframe p) (p_context p) (p_ofile p) (p_cwd p) (p_name p)
    (p_trace_mask p).
Definition setp_pagetable (v : Z) (p : proc) : proc :=
  Proc (p_lock p) (p_state p) (p_chan p) (p_killed p) (p_xstate p) (p_pid p) (p_parent p)
    (p_kstack p) (p_sz p) v (p_trapframe p) (p_context p) (p_ofile p) (p_cwd p) (p_name p)
    (p_trace_mask p).
Definition setp_trapframe (v : Z) (p : proc) : proc :=
  Proc (p_lock p) (p_state p) (p_chan p) (p_killed p) (p_xstate p) (p_pid p) (p_parent p)
    (p_kstack p) (p_sz p) (p_pagetable p) v (p_context p) (p_ofile p) (p_cwd p) (p_name p)
    (p_trace_mask p).
Definition setp_context (v : context) (p : proc) : proc :=
  Proc (p_lock p) (p_state p) (p_chan p) (p_killed p) (p_xstate p) (p_pid p) (p_parent p)
    (p_kstack p) (p_sz p) (p_pagetable p) (p_trapframe p) v (p_ofile p) (p_cwd p) (p_name p)
    (p_trace_mask p).
Definition setp_ofile (v : list (option nat)) (p : proc) : proc :=
  Proc (p_lock p) (p_state p) (p_chan p) (p_killed p) (p_xstate p) (p_pid p) (p_parent p)
    (p_kstack p) (p_sz p) (p_pagetable p) (p_trapframe p) (p_context p) v (p_cwd p) (p_name p)
    (p_trace_mask p).
Definition setp_cwd (v : option nat) (p : proc) : proc :=
  Proc (p_lock p) (p_state p) (p_chan p) (p_killed p) (p_xstate p) (p_pid p) (p_parent p)
    (p_kstack p) (p_sz p) (p_pagetable p) (p_trapframe p) (p_context p) (p_ofile p) v (p_name p)
    (p_trace_mask p).
Definition setp_name (v : list Z) (p : proc) : proc :=
  Proc (p_lock p) (p_state p) (p_chan p) (p_killed p) (p_xstate p) (p_pid p) (p_parent p)
    (p_kstack p) (p_sz p) (p_pagetable p) (p_trapframe p) (p_context p) (p_ofile p) (p_cwd p) v
    (p_trace_mask p).
Definition setp_trace_mask (v : Z) (p : proc) : proc :=
  Proc (p_lock p) (p_state p) (p_chan p) (p_killed p) (p_xstate p) (p_pid p) (p_parent p)
    (p_kstack p) (p_sz p) (p_pagetable p) (p_trapframe p) (p_context p) (p_ofile p) (p_cwd p)
    (p_name p) v.

(** The globals of [proc.c] over the memory; [cur] is [mycpu()->proc] of the CPU
    that runs the code. *)
Record kproc := KProc {
  procs : list proc;
  nextpid : Z;
  pid_lock : spin;
  wait_lock : spin;
  initproc : option nat;
  cur : option nat;
  km : kmem
}.

Definition setk_procs (v : list proc) (s : kproc) : kproc :=
  KProc v (nextpid s) (pid_lock s) (wait_lock s) (initproc s) (cur s) (km s).
Definition setk_nextpid (v : Z) (s : kproc) : kproc :=
  KProc (procs s) v (pid_lock s) (wait_lock s) (initproc s) (cur s) (km s).
Definition setk_pid_lock (v : spin) (s : kproc) : kproc :=
  KProc (procs s) (nextpid s) v (wait_lock s) (initproc s) (cur s) (km s).
Definition setk_wait_lock (v : spin) (s : kproc) : kproc :=
  KProc (procs s) (nextpid s) (pid_lock s) v (initproc s) (cur s) (km s).
Definition setk_initproc (v : option nat) (s : kproc) : kproc :=
  KProc (procs s) (nextpid s) (pid_lock s) (wait_lock s) v (cur s) (km s).
Definition setk_cur (v : option nat) (s : kproc) : kproc :=
  KProc (procs s) (nextpid s) (pid_lock s) (wait_lock s) (initproc s) v (km s).
Definition setk_km (v : kmem) (s : kproc) : kproc :=
  KProc (procs s) (nextpid s) (pid_lock s) (wait_lock s) (initproc s) (cur s) v.

Definition kmL : lens kproc kmem := Lens km setk_km.
Definition pid_lockL : lens kproc spin := Lens pid_lock setk_pid_lock.
Definition wait_lockL : lens kproc spin := Lens wait_lock setk_wait_lock.

Definition upd_proc (i : nat) (f : proc -> proc) (s : kproc) : kproc := setk_procs (alter f i (procs s)) s.

(** [p->field] and [p->field = v]; the null pointer and pointers outside the table
    have no meaning. *)
Definition pget {A} (i : nat) (f : proc -> A) : M kproc A := p ← arr_get procs i; mret (f p).
Definition pupd (i : nat) (f : proc -> proc) : M kproc unit := p ← arr_get procs i; modify (upd_proc i (fun _ => f p)).

Definition proc_lockL (i : nat) : lens kproc spin :=
  Lens (fun s => match procs s !! i with Some p => p_lock p | None => Held end)
       (fun l => upd_proc i (setp_lock l)).

(** Offsets in [struct trapframe]. *)
Definition tf_epc : Z := 24.
Definition tf_sp : Z := 48.
Definition tf_a0 : Z := 112.
Definition tf_a1 : Z := 120.
Definition sizeof_trapframe : Z := 288.

Definition zero_context : context := Context 0 0 (replicate 12 0).

(** [sizeof(struct proc)] *)
Definition sizeof_proc : Z := 368.

Section Proc.
(** The linker's [end] and [trampoline], the address of [forkret] and of [proc]. *)
Variables kend trampoline forkret proc_base : Z.

(** The address of an element of [proc], as a wait channel. *)
Definition proc_addr (i : nat) : Z := proc_base + sizeof_proc * Z.of_nat i.
Definition ptr_addr (p : option nat) : Z := match p with Some i => proc_addr i | None => 0 end.

Definition procinit : M kproc unit :=
  modify (setk_pid_lock Free);;
  modify (setk_wait_lock Free);;
  for_each (R := unit) (seq 0 NPROC) (fun p =>
    modify (put (proc_lockL p) Free);;
    pupd p (setp_state UNUSED);;
    pupd p (setp_kstack (KSTACK (Z.of_nat p)));;
    mret None);;
  mret tt.

(** [mycpu()->proc]; the interrupt-disabling around it is in [Spinlock]. *)
Definition myproc : M kproc (option nat) := gets cur.

(** [myproc()] where the result is dereferenced. *)
Definition me : M kproc nat :=
  p ← myproc; match p with Some i => mret i | None => undefined end.

Definition allocpid : M kproc Z :=
  acquire pid_lockL;;
  pid ← gets nextpid;
  modify (setk_nextpid (i32 (pid + 1)));;
  release pid_lockL;;
  mret pid.

Definition proc_pagetable (p : nat) : M kproc Z :=
  pagetable ← zoom kmL uvmcreate;
  if pagetable =? 0 then mret 0 else
  r ← zoom kmL (mappages pagetable TRAMPOLINE PGSIZE trampoline (Z.lor PTE_R PTE_X));
  if r <? 0 then
    zoom kmL (uvmfree kend pagetable 0);;
    mret 0
  else
  tf ← pget p p_trapframe;
  r ← zoom kmL (mappages pagetable TRAPFRAME PGSIZE tf (Z.lor PTE_R PTE_W));
  if r <? 0 then
    zoom kmL (uvmunmap kend pagetable TRAMPOLINE 1 false);;
    zoom kmL (uvmfree kend pagetable 0);;
    mret 0
  else mret pagetable.

Definition proc_freepagetable (pagetable sz : Z) : M kproc unit :=
  zoom kmL (uvmunmap kend pagetable TRAMPOLINE 1 false);;
  zoom kmL (uvmunmap kend pagetable TRAPFRAME 1 false);;
  zoom kmL (uvmfree kend pagetable sz).

Definition freeproc (p : nat) : M kproc unit :=
  tf ← pget p p_trapframe;
  when (negb (tf =? 0)) (zoom kmL (kfree kend tf));;
  pupd p (setp_trapframe 0);;
  pagetable ← pget p p_pagetable;
  sz ← pget p p_sz;
  when (negb (pagetable =? 0)) (proc_freepagetable pagetable sz);;
  pupd p (setp_pagetable 0);;
  pupd p (setp_sz 0);;
  pupd p (setp_pid 0);;
  pupd p (setp_parent None);;
  pupd p (fun q => setp_name (<[O := 0]> (p_name q)) q);;
  pupd p (setp_chan 0);;
  pupd p (setp_killed 0);;
  pupd p (setp_xstate 0);;
  pupd p (setp_state UNUSED);;
  pupd p (setp_trace_mask 0).

(** The search for an unused entry, which is returned with its lock held. *)
Definition find_unused : M kproc (option nat) :=
  for_each (seq 0 NPROC) (fun p =>
    acquire (proc_lockL p);;
    st ← pget p p_state;
    if is_state st UNUSED then mret (Some p) else release (proc_lockL p);; mret None).

Definition allocproc : M kproc (option nat) :=
  found ← find_unused;
  match found with
  | None => mret None
  | Some p =>
    pid ← allocpid;
    pupd p (setp_pid pid);;
    pupd p (setp_state USED);;
    tf ← zoom kmL kalloc;
    pupd p (setp_trapframe tf);;
    if tf =? 0 then
      freeproc p;;
      release (proc_lockL p);;
      mret None
    else
    pagetable ← proc_pagetable p;
    pupd p (setp_pagetable pagetable);;
    if pagetable =? 0 then
      freeproc p;;
      release (proc_lockL p);;
      mret None
    else
    pupd p (setp_context zero_context);;
    pupd p (fun q => setp_context (Context forkret (ctx_sp (p_context q)) (ctx_s (p_context q))) q);;
    pupd p (fun q => setp_context (Context (ctx_ra (p_context q)) (p_kstack q + PGSIZE) (ctx_s (p_context q))) q);;
    mret (Some p)
  end.

Definition growproc (n : Z) : M kproc Z :=
  p ← me;
  sz ← pget p p_sz;
  pagetable ← pget p p_pagetable;
  if 0 <? n then
    sz' ← zoom kmL (uvmalloc kend pagetable sz (u64 (sz + n)) PTE_W);
    if sz' =? 0 then mret (-1) else
    pupd p (setp_sz sz');; mret 0
  else if n <? 0 then
    sz' ← zoom kmL (uvmdealloc kend pagetable sz (u64 (sz + n)));
    pupd p (setp_sz sz');; mret 0
  else
    pupd p (setp_sz sz);; mret 0.

Definition wakeup (chan : Z) : M kproc unit :=
  for_each (R := unit) (seq 0 NPROC) (fun p =>
    m ← myproc;
    (if decide (m = Some p) then mret tt else
      acquire (proc_lockL p);;
      st ← pget p p_state;
      ch ← pget p p_chan;
      when (is_state st SLEEPING && (ch =? chan)) (pupd p (setp_state RUNNABLE));;
      release (proc_lockL p));;
    mret None);;
  mret tt.

Definition reparent (p : nat) : M kproc unit :=
  for_each (R := unit) (seq 0 NPROC) (fun pp =>
    par ← pget pp p_parent;
    when (bool_decide (par = Some p)) (
      init ← gets initproc;
      pupd pp (setp_parent init);;
      wakeup (ptr_addr init));;
    mret None);;
  mret tt.

Definition kill (pid : Z) : M kproc Z :=
  r ← for_each (seq 0 NPROC) (fun p =>
    acquire (proc_lockL p);;
    q ← pget p p_pid;
    if q =? pid then
      pupd p (setp_killed 1);;
      st ← pget p p_state;
      when (is_state st SLEEPING) (pupd p (setp_state RUNNABLE));;
      release (proc_lockL p);;
      mret (Some 0)
    else
      release (proc_lockL p);;
      mret None);
  mret (default (-1) r).

Definition setkilled (p : nat) : M kproc unit :=
  acquire (proc_lockL p);;
  pupd p (setp_killed 1);;
  release (proc_lockL p).

Definition killed (p : nat) : M kproc Z :=
  acquire (proc_lockL p);;
  k ← pget p p_killed;
  release (proc_lockL p);;
  mret k.

Definition either_copyout (user_dst : bool) (dst src len : Z) : M kproc Z :=
  p ← myproc;
  if user_dst then
    match p with
    | Some i => pagetable ← pget i p_pagetable; zoom kmL (copyout pagetable dst src len)
    | None => undefined
    end
  else
    zoom kmL (do_mem (fun m => memmove m dst src len));;
    mret 0.

Definition either_copyin (dst : Z) (user_src : bool) (src len : Z) : M kproc Z :=
  p ← myproc;
  if user_src then
    match p with
    | Some i => pagetable ← pget i p_pagetable; zoom kmL (copyin pagetable dst src len)
    | None => undefined
    end
  else
    zoom kmL (do_mem (fun m => memmove m dst src len));;
    mret 0.

(** The loop of [nproc] over the rest of the table. *)
Fixpoint nproc_loop (l : list nat) (n : Z) : M kproc Z :=
  match l with
  | [] => mret n
  | p :: l =>
    acquire (proc_lockL p);;
    st ← pget p p_state;
    let n := if is_state st UNUSED then n else n + 1 in
    release (proc_lockL p);;
    nproc_loop l n
  end.
Definition nproc : M kproc Z := nproc_loop (seq 0 NPROC) 0.

Definition fileopencount_process : M kproc Z :=
  p ← me;
  acquire (proc_lockL p);;
  files ← pget p p_ofile;
  let count := foldl (fun n i => match files !! i with Some (Some _) => n + 1 | _ => n end) 0 (seq 0 NOFILE) in
  release (proc_lockL p);;
  mret count.

End Proc.

(** ** Evaluation in the larger state *)

Lemma zoom_km {A} (m : M kmem A) s a k : m (km s) = Ret a k -> zoom kmL m s = Ret a (setk_km k s).
Proof. unfold zoom. simpl. by intros ->. Qed.

Lemma pget_eq {A} i (f : proc -> A) s p : procs s !! i = Some p -> pget i f s = Ret (f p) s.
Proof. intros Hp. unfold pget, mbind, M_bind, arr_get. by rewrite Hp. Qed.

Lemma pupd_eq i f s p : procs s !! i = Some p -> pupd i f s = Ret tt (setk_procs (<[i := f p]> (procs s)) s).
Proof.
  intros Hp. unfold pupd, mbind, M_bind, arr_get. rewrite Hp. unfold modify, upd_proc. do 2 f_equal.
  apply list_eq. intros j. destruct (decide (i = j)) as [->|Hne].
  - rewrite list_lookup_alter_eq, Hp. simpl. rewrite list_lookup_insert_eq; [done|]. by eapply lookup_lt_Some.
  - by rewrite list_lookup_alter_ne, list_lookup_insert_ne.
Qed.

Lemma alter_insert_eq {A} (f : A -> A) i (l : list A) x : l !! i = Some x -> alter f i l = <[i := f x]> l.
Proof.
  intros Hx. apply list_eq. intros j. destruct (decide (i = j)) as [->|Hne].
  - rewrite list_lookup_alter_eq, Hx. simpl. rewrite list_lookup_insert_eq; [done|]. by eapply lookup_lt_Some.
  - by rewrite list_lookup_alter_ne, list_lookup_insert_ne.
Qed.

Lemma acquire_proc i s p : procs s !! i = Some p -> p_lock p = Free ->
  acquire (proc_lockL i) s = Ret tt (setk_procs (<[i := setp_lock Held p]> (procs s)) s).
Proof.
  intros Hp Hl. unfold acquire. simpl. rewrite Hp, Hl. unfold upd_proc. by erewrite alter_insert_eq.
Qed.

Lemma release_proc i s p : procs s !! i = Some p -> p_lock p = Held ->
  release (proc_lockL i) s = Ret tt (setk_procs (<[i := setp_lock Free p]> (procs s)) s).
Proof.
  intros Hp Hl. unfold release. simpl. rewrite Hp, Hl. unfold upd_proc. by erewrite alter_insert_eq.
Qed.

(** The state with entry [i] replaced: the form in which the routines that work on
    one entry are evaluated. *)
Definition with_proc (i : nat) (p : proc) (s : kproc) : kproc := setk_procs (<[i := p]> (procs s)) s.

Lemma with_proc_id i p s : procs s !! i = Some p -> with_proc i p s = s.
Proof. intros Hp. unfold with_proc. rewrite list_insert_id by done. by destruct s. Qed.

Lemma with_with i p q s : with_proc i p (with_proc i q s) = with_proc i p s.
Proof. unfold with_proc. simpl. by rewrite list_insert_insert_eq. Qed.

Section With.
Context (i : nat) (s : kproc) (Hi : (i < length (procs s))%nat).

Lemma with_lookup p : procs (with_proc i p s) !! i = Some p.
Proof. by apply list_lookup_insert_eq. Qed.

Lemma with_get {A} (f : proc -> A) p : pget i f (with_proc i p s) = Ret (f p) (with_proc i p s).
Proof. apply pget_eq, with_lookup. Qed.

Lemma with_upd f p : pupd i f (with_proc i p s) = Ret tt (with_proc i (f p) s).
Proof. erewrite pupd_eq by apply with_lookup. fold (with_proc i (f p) (with_proc i p s)). by rewrite with_with. Qed.

Lemma with_acquire p : p_lock p = Free -> acquire (proc_lockL i) (with_proc i p s) = Ret tt (with_proc i (setp_lock Held p) s).
Proof.
  intros Hl. erewrite acquire_proc by (apply with_lookup || done).
  fold (with_proc i (setp_lock Held p) (with_proc i p s)). by rewrite with_with.
Qed.

Lemma with_release p : p_lock p = Held -> release (proc_lockL i) (with_proc i p s) = Ret tt (with_proc i (setp_lock Free p) s).
Proof.
  intros Hl. erewrite release_proc by (apply with_lookup || done).
  fold (with_proc i (setp_lock Free p) (with_proc i p s)). by rewrite with_with.
Qed.

Lemma with_km {A} (m : M kmem A) p a k :
  m (km s) = Ret a k -> zoom kmL m (with_proc i p s) = Ret a (with_proc i p (setk_km k s)).
Proof. intros He. by erewrite (zoom_km m (with_proc i p s)). Qed.
End With.

(** One access to the entry the routine works on. *)
Ltac pstep := first
  [ erewrite bind_ret by (apply with_get; assumption)
  | erewrite bind_ret by (apply with_upd; assumption)
  | erewrite bind_ret by (apply with_acquire; [assumption | reflexivity])
  | erewrite bind_ret by (apply with_release; [assumption | reflexivity]) ].

(** ** Page tables of processes *)

Definition TRAMP_VPN : Z := TRAMPOLINE / PGSIZE.
Definition FRAME_VPN : Z := TRAPFRAME / PGSIZE.
Definition tramp_pte (t : Z) : Z := mkpte t (Z.lor (Z.lor PTE_R PTE_X) PTE_V).
Definition frame_pte (t : Z) : Z := mkpte t (Z.lor (Z.lor PTE_R PTE_W) PTE_V).

Section Space.
Context (kend trampoline : Z).
Context (Hend : KERNBASE <= kend <= PHYSTOP).
Context (Htramp : 0 <= trampoline < 2 ^ 56 - PGSIZE /\ trampoline mod PGSIZE = 0).

(** Mapping one of the two trap pages: page-table pages may be taken from the free
    list; nothing else changes. *)
Lemma map_trap s P root n free v pa perm :
  uspace kend s P root n free -> FRAME_VPN <= v < VPNS -> leaf P !! v = None -> Z.of_nat n <= FRAME_VPN ->
  0 <= pa < 2 ^ 56 - PGSIZE -> pa mod PGSIZE = 0 -> 0 <= perm < 1024 -> has (Z.lor perm PTE_V) PTE_U = false ->
  exists r s' P' free', mappages root (v * PGSIZE) PGSIZE pa perm s = Ret r s' /\ uspace kend s' P' root n free' /\
    tables P' ++ free' ≡ₚ tables P ++ free /\
    (forall a, PGROUNDDOWN a ∉ tables P ++ free -> rd (kmem_mem s') a = rd (kmem_mem s) a) /\
    (r = 0 /\ leaf P' = <[v := mkpte pa (Z.lor perm PTE_V)]> (leaf P) \/ r = -1 /\ leaf P' = leaf P).
Proof.
  intros H Hv Hnone Hn Hpa Hpm Hperm HU. pose proof (us_nd _ _ _ _ _ _ H) as Hnd.
  destruct (mappages_spec kend Hend 1 v pa perm P root s free (us_k _ _ _ _ _ _ H) (us_rep _ _ _ _ _ _ H) Hnd)
    as (r & s' & P' & free' & i & He & Hk & Hr & Hl & Hg & Hres); try done; try (unfold FRAME_VPN in *; rewrite top_eq in *; lia).
  { intros w Hw. by replace w with v by lia. }
  change (Z.of_nat 1 * PGSIZE) with PGSIZE in He.
  exists r, s', P', free'. split; [done|].
  assert (r = 0 /\ leaf P' = <[v := mkpte pa (Z.lor perm PTE_V)]> (leaf P) \/ r = -1 /\ leaf P' = leaf P) as Hcase.
  { destruct Hres as [[-> ->]|(-> & Hi & _)]; [left | right]; (split; [done|]); rewrite Hl; [done|].
    by replace i with O by lia. }
  split_and!; [|apply Hg | apply Hg | exact Hcase].
  destruct Hcase as [[_ El]|[_ El]]; [|by eapply uspace_grow].
  assert (pas n 0 (leaf P') = pas n 0 (leaf P)) as Hpas.
  { apply pas_ext. intros w Hw. rewrite El, lookup_insert_ne; [done|]. unfold FRAME_VPN in *. lia. }
  split; rewrite ?Hpas; try done.
  - rewrite (Permutation_app_comm (pas _ _ _)), app_assoc, (g_perm _ _ _ _ _ _ _ Hg), <- app_assoc.
    rewrite (Permutation_app_comm free). apply H.
  - apply H.
  - intros w Hw. rewrite El, lookup_insert_ne by (unfold FRAME_VPN in *; lia). by apply H.
  - intros w e. rewrite El. destruct (decide (v = w)) as [<-|Hne].
    + rewrite lookup_insert_eq. intros [= <-]. right. split; [apply Hv|].
      rewrite mkpte_has; [done | | unfold PTE_U; lia]. apply lor_1024; [done | unfold PTE_V; lia].
    + rewrite lookup_insert_ne by done. apply H.
Qed.

(** Unmapping one, without freeing the page it maps. *)
Lemma unmap_trap s P root n free v e :
  uspace kend s P root n free -> FRAME_VPN <= v < VPNS -> leaf P !! v = Some e -> PTE_FLAGS e <> PTE_V ->
  Z.of_nat n <= FRAME_VPN ->
  exists s', uvmunmap kend root (v * PGSIZE) 1 false s = Ret tt s' /\
    uspace kend s' (Pt (tabs P) (delete v (leaf P))) root n free /\
    (forall a, PGROUNDDOWN a ∉ tables P -> rd (kmem_mem s') a = rd (kmem_mem s) a).
Proof.
  intros H Hv He Hfl Hn. pose proof (us_nd _ _ _ _ _ _ H) as Hnd.
  destruct (uvmunmap_spec kend Hend 1 v false P root s free (us_k _ _ _ _ _ _ H) (us_rep _ _ _ _ _ _ H) Hnd)
    as (s' & Hev & Hk & Hr & Hf); try (simpl; unfold FRAME_VPN in *; rewrite top_eq in *; lia).
  { constructor. }
  { intros w Hw. replace w with v by lia. eauto. }
  simpl in Hr, Hk, Hf. exists s'. split; [done|]. split; [|by rewrite app_nil_r in Hf].
  assert (pas n 0 (delete v (leaf P)) = pas n 0 (leaf P)) as Hpas.
  { apply pas_ext. intros w Hw. rewrite lookup_delete_ne; [done|]. unfold FRAME_VPN in *. lia. }
  split; simpl; rewrite ?Hpas; try done; try apply H.
  - intros w Hw. rewrite lookup_delete_ne by (unfold FRAME_VPN in *; lia). by apply H.
  - intros w e' [_ Hl]%lookup_delete_Some. exact (us_top _ _ _ _ _ _ H _ _ Hl).
Qed.

Lemma tramp_vpn : TRAMPOLINE = TRAMP_VPN * PGSIZE /\ TRAPFRAME = FRAME_VPN * PGSIZE /\
  FRAME_VPN <= TRAMP_VPN < VPNS /\ FRAME_VPN < TRAMP_VPN.
Proof. by vm_compute. Qed.

Definition trap_leaves (tf : Z) : gmap Z Z := {[ TRAMP_VPN := tramp_pte trampoline; FRAME_VPN := frame_pte tf ]}.

(** An address space as a process has it: user pages below, the trap pages above. *)
Definition trapped (P : pt) (n : nat) (tf : Z) : Prop :=
  leaf P !! TRAMP_VPN = Some (tramp_pte trampoline) /\ leaf P !! FRAME_VPN = Some (frame_pte tf) /\
  Z.of_nat n <= FRAME_VPN.

Lemma page_ok_pa q : page_ok kend q -> 0 <= q < 2 ^ 56 - PGSIZE /\ q mod PGSIZE = 0.
Proof. intros Hq. pose proof (page_ok_bounds kend Hend q Hq). split; [unfold PGSIZE; lia | apply Hq]. Qed.

(** Freeing a page table with nothing but tables. *)
Lemma free_empty s P root free : uspace kend s P root 0 free -> leaf P = ∅ ->
  exists s' free', uvmfree kend root 0 s = Ret tt s' /\ kinv kend s' free' /\ free' ≡ₚ tables P ++ free /\
    (forall a, PGROUNDDOWN a ∉ tables P -> rd (kmem_mem s') a = rd (kmem_mem s) a).
Proof.
  intros H Hl. destruct (uvmfree_spec kend Hend s P root 0 free 0 H) as (s' & free' & He & Hk & Hp & Hf); try done.
  { intros v e. by rewrite Hl. }
  exists s', free'. unfold owned in *. simpl in *. rewrite app_nil_r in *. done.
Qed.

Lemma proc_pagetable_spec s p q free :
  procs s !! p = Some q -> kinv kend (km s) free -> page_ok kend (p_trapframe q) ->
  exists r k' free', proc_pagetable kend trampoline p s = Ret r (setk_km k' s) /\ kinv kend k' free' /\
    (forall a, PGROUNDDOWN a ∉ free -> rd (kmem_mem k') a = rd (kmem_mem (km s)) a) /\
    (r = 0 /\ free' ≡ₚ free \/
     r <> 0 /\ exists P, uspace kend k' P r 0 free' /\ tables P ++ free' ≡ₚ free /\ trapped P 0 (p_trapframe q) /\
       leaf P = trap_leaves (p_trapframe q)).
Proof.
  intros Hp Hk Htf. destruct (page_ok_pa _ Htf) as [Htf1 Htf2]. destruct tramp_vpn as (Et & Ef & Hv1 & Hv2).
  unfold proc_pagetable.
  destruct (uvmcreate_spec kend Hend (km s) free Hk) as (root & k1 & f1 & He1 & Hc1).
  erewrite bind_ret by (by apply zoom_km). destruct Hc1 as [(-> & -> & ->)|(-> & Hu1 & Hf1)].
  { eexists 0, (km s), []. split; [by destruct s|]. split_and!; try done. by left. }
  pose proof (kinv_pages _ _ _ Hk) as [Hroot _]%Forall_cons. pose proof (page_ok_bounds kend Hend _ Hroot).
  rewrite (proj2 (Z.eqb_neq root 0)) by lia. set (P1 := Pt {[ (2%nat, 0) := root ]} ∅) in *.
  assert (tables P1 = [root]) as Ht1 by done.
  destruct (map_trap k1 P1 root 0 f1 TRAMP_VPN trampoline (Z.lor PTE_R PTE_X) Hu1)
    as (r2 & k2 & P2 & f2 & He2 & Hu2 & Hp2 & Hf2 & Hc2); try done; try lia.
  rewrite Et. erewrite bind_ret by (apply zoom_km; exact He2). rewrite Ht1 in *.
  assert (forall a, PGROUNDDOWN a ∉ root :: f1 -> rd (kmem_mem k2) a = rd (kmem_mem (km s)) a) as Hf12.
  { intros a Ha. rewrite Hf2 by done. apply Hf1. intros E. apply Ha. rewrite E. left. }
  destruct Hc2 as [[-> Hl2]|[-> Hl2]]; cbn [Z.ltb Z.compare].
  2:{ destruct (free_empty k2 P2 root f2 Hu2 Hl2) as (k3 & f3 & He3 & Hk3 & Hp3 & Hf3).
      erewrite bind_ret by (apply zoom_km; exact He3). eexists 0, k3, f3. split; [done|].
      assert (f3 ≡ₚ root :: f1) as Hp31 by (by rewrite Hp3).
      split_and!; [done | | by left]. intros a Ha. rewrite Hf3, Hf12; [done | done |].
      intros Hin. apply Ha. assert (PGROUNDDOWN a ∈ tables P2 ++ f2) as Hin' by (apply elem_of_app; by left).
      by rewrite Hp2 in Hin'. }
  erewrite bind_ret by (by apply pget_eq).
  destruct (map_trap k2 P2 root 0 f2 FRAME_VPN (p_trapframe q) (Z.lor PTE_R PTE_W) Hu2)
    as (r3 & k3 & P3 & f3 & He3 & Hu3 & Hp3 & Hf3 & Hc3); try done; try lia.
  { rewrite Hl2. simpl. rewrite lookup_insert_ne by lia. done. }
  rewrite Ef. erewrite bind_ret by (apply zoom_km; exact He3).
  assert (tables P3 ++ f3 ≡ₚ root :: f1) as Hp31 by (by rewrite Hp3, Hp2).
  assert (forall a, PGROUNDDOWN a ∉ root :: f1 -> rd (kmem_mem k3) a = rd (kmem_mem (km s)) a) as Hf13.
  { intros a Ha. rewrite Hf3, Hf12; [done | done |]. by rewrite Hp2. }
  destruct Hc3 as [[-> Hl3]|[-> Hl3]]; cbn [Z.ltb Z.compare].
  - eexists root, k3, f3. split; [done|]. split_and!; [apply Hu3 | done |]. right. split; [lia|]. exists P3.
    assert (leaf P3 = trap_leaves (p_trapframe q)) as El.
    { rewrite Hl3, Hl2. unfold trap_leaves. simpl. apply insert_insert_ne. lia. }
    split_and!; try done. unfold trapped. rewrite El. unfold trap_leaves.
    rewrite lookup_insert_eq, lookup_insert_ne, lookup_singleton_eq by lia. done.
  - destruct (unmap_trap k3 P3 root 0 f3 TRAMP_VPN (tramp_pte trampoline) Hu3) as (k4 & He4 & Hu4 & Hf4); try done.
    { rewrite Hl3, Hl2. simpl. by rewrite lookup_insert_eq. }
    { unfold tramp_pte. rewrite mkpte_flags; done. }
    erewrite bind_ret by (apply zoom_km; exact He4).
    destruct (free_empty k4 _ root f3 Hu4) as (k5 & f5 & He5 & Hk5 & Hp5 & Hf5).
    { simpl. rewrite Hl3, Hl2. simpl. apply map_eq. intros v. rewrite lookup_empty.
      destruct (decide (v = TRAMP_VPN)) as [->|]; by simplify_map_eq. }
    erewrite bind_ret by (apply zoom_km; exact He5). eexists 0, k5, f5. split; [done|].
    change (tables (Pt (tabs P3) _)) with (tables P3) in *.
    split_and!; [done | | left; split; [done | by rewrite Hp5]].
    intros a Ha. assert (PGROUNDDOWN a ∉ tables P3) as Ha3.
    { intros Hin. apply Ha. rewrite <- Hp31. apply elem_of_app. by left. }
    by rewrite Hf5, Hf4, Hf13.
Qed.

Lemma proc_freepagetable_spec s P root sz tf free :
  uspace kend (km s) P root (npg sz) free -> trapped P (npg sz) tf -> 0 <= sz <= TRAPFRAME ->
  exists k' free', proc_freepagetable kend root sz s = Ret tt (setk_km k' s) /\ kinv kend k' free' /\
    free' ≡ₚ owned P (npg sz) ++ free /\
    (forall a, PGROUNDDOWN a ∉ owned P (npg sz) -> rd (kmem_mem k') a = rd (kmem_mem (km s)) a).
Proof.
  intros H (Hl1 & Hl2 & Hn) Hsz. destruct tramp_vpn as (Et & Ef & Hv1 & Hv2). unfold proc_freepagetable. rewrite Et, Ef.
  destruct (unmap_trap (km s) P root (npg sz) free TRAMP_VPN _ H ltac:(lia) Hl1) as (k1 & He1 & Hu1 & Hf1); [|done|].
  { unfold tramp_pte. by rewrite mkpte_flags. }
  erewrite bind_ret by (apply zoom_km; exact He1). set (P1 := Pt _ _) in Hu1.
  destruct (unmap_trap k1 P1 root (npg sz) free FRAME_VPN (frame_pte tf) Hu1 ltac:(lia)) as (k2 & He2 & Hu2 & Hf2); [| |done|].
  { simpl. by rewrite lookup_delete_ne by lia. }
  { unfold frame_pte. by rewrite mkpte_flags. }
  erewrite bind_ret by (apply zoom_km; exact He2). set (P2 := Pt _ _) in Hu2.
  assert (owned P2 (npg sz) = owned P (npg sz)) as Ho.
  { unfold owned. f_equal. apply pas_ext. intros v Hv. simpl. rewrite !lookup_delete_ne by lia. done. }
  destruct (uvmfree_spec kend Hend k2 P2 root (npg sz) free sz Hu2) as (k3 & f3 & He3 & Hk3 & Hp3 & Hf3).
  - intros v e Hv. simpl in Hv. apply lookup_delete_Some in Hv as [Hv3 [Hv4 Hv]%lookup_delete_Some].
    destruct (us_top _ _ _ _ _ _ H _ _ Hv) as [?|[Hge _]]; [done|].
    destruct (pr_leaf _ _ _ _ (us_rep _ _ _ _ _ _ H) _ _ Hv) as (_ & Hr & _).
    exfalso. unfold FRAME_VPN, TRAMP_VPN, VPNS in *. change (TRAPFRAME / PGSIZE) with 67108862 in *.
    change (TRAMPOLINE / PGSIZE) with 67108863 in *. change (MAXVA / PGSIZE) with 67108864 in *. lia.
  - done.
  - lia.
  - destruct (npg_pages sz Hsz) as [[? _]|[? _]]; done.
  - rewrite Ho in *. exists k3, f3. split_and!; try done. { exact (zoom_km _ (setk_km k2 (setk_km k1 s)) _ _ He3). }
    intros a Ha. assert (PGROUNDDOWN a ∉ tables P) as Ht by (intros Hin; apply Ha; unfold owned; apply elem_of_app; by left).
    by rewrite Hf3, Hf2, Hf1.
Qed.
End Space.

(** ** The invariant of the table *)

Definition slot_pages (p : proc) (P : option pt) : list Z :=
  match P with Some P => p_trapframe p :: owned P (npg (p_sz p)) | None => [] end.

Definition used_pages (ps : list proc) (Ps : list (option pt)) : list Z := concat (zip_with slot_pages ps Ps).

(** What [freeproc] leaves of an entry. *)
Definition freed (p : proc) : proc :=
  Proc (p_lock p) UNUSED 0 0 0 0 None (p_kstack p) 0 0 0 (p_context p) (p_ofile p) (p_cwd p)
    (<[O := 0]> (p_name p)) 0.

Lemma concat_split {A} (L : list (list A)) i x :
  L !! i = Some x -> concat L ≡ₚ x ++ concat (take i L) ++ concat (drop (S i) L).
Proof.
  intros Hx. rewrite <- (take_drop_middle L i x Hx) at 1. rewrite concat_app. simpl. solve_Permutation.
Qed.

Section Table.
Context (kend trampoline forkret proc_base : Z).
Context (Hend : KERNBASE <= kend <= PHYSTOP).
Context (Htramp : 0 <= trampoline < 2 ^ 56 - PGSIZE /\ trampoline mod PGSIZE = 0).

Record in_use (k : kmem) (free : list Z) (p : proc) (P : pt) : Prop := {
  iu_state : p_state p <> UNUSED;
  iu_space : uspace kend k P (p_pagetable p) (npg (p_sz p)) free;
  iu_trap : trapped trampoline P (npg (p_sz p)) (p_trapframe p);
  iu_sz : 0 <= p_sz p <= TRAPFRAME;
  iu_tf : page_ok kend (p_trapframe p)
}.

Definition unused (p : proc) : Prop :=
  p_state p = UNUSED /\ p_trapframe p = 0 /\ p_pagetable p = 0 /\ p_sz p = 0 /\ p_pid p = 0.

Definition slot_ok (k : kmem) (free : list Z) (p : proc) (P : option pt) : Prop :=
  match P with Some P => in_use k free p P | None => unused p end.

(** [Ps] describes the page table of each process in use; [free] is the free list. *)
Record pinv (s : kproc) (Ps : list (option pt)) (free : list Z) : Prop := {
  pi_len : length (procs s) = NPROC;
  pi_lenP : length Ps = NPROC;
  pi_k : kinv kend (km s) free;
  pi_slot : forall i p P, procs s !! i = Some p -> Ps !! i = Some P -> slot_ok (km s) free p P;
  pi_sep : NoDup (used_pages (procs s) Ps ++ free);
  pi_next : 1 <= nextpid s;
  pi_pid : forall i p, procs s !! i = Some p -> p_state p <> UNUSED -> 1 <= p_pid p < nextpid s;
  pi_uniq : forall i j p q, procs s !! i = Some p -> procs s !! j = Some q ->
    p_state p <> UNUSED -> p_pid p = p_pid q -> i = j
}.

Lemma slot_split s Ps free i p P :
  pinv s Ps free -> procs s !! i = Some p -> Ps !! i = Some P -> exists others,
    used_pages (procs s) Ps ≡ₚ slot_pages p P ++ others /\
    (forall p' P', used_pages (<[i := p']> (procs s)) (<[i := P']> Ps) ≡ₚ slot_pages p' P' ++ others) /\
    (forall j q Q, j <> i -> procs s !! j = Some q -> Ps !! j = Some Q -> slot_pages q Q ⊆ others).
Proof.
  intros Hi Hp HP. set (L := zip_with slot_pages (procs s) Ps).
  assert (forall j q Q, procs s !! j = Some q -> Ps !! j = Some Q -> L !! j = Some (slot_pages q Q)) as HL.
  { intros j q Q Hq HQ. unfold L. rewrite lookup_zip_with, Hq, HQ. done. }
  exists (concat (take i L) ++ concat (drop (S i) L)). split_and!.
  - apply concat_split. by apply HL.
  - intros p' P'. unfold used_pages. rewrite <- insert_zip_with. fold L.
    rewrite (concat_split _ i (slot_pages p' P')).
    + rewrite take_insert_ge, drop_insert_lt by lia. done.
    + apply list_lookup_insert_eq. apply lookup_lt_Some with (slot_pages p P). by apply HL.
  - intros j q Q Hj Hq HQ x Hx. specialize (HL j q Q Hq HQ). rewrite elem_of_app, !list_elem_of_In, !in_concat.
    destruct (decide (j < i)%nat); [left | right]; exists (slot_pages q Q);
      rewrite <- !list_elem_of_In; (split; [|done]); apply list_elem_of_lookup.
    + exists j. by rewrite lookup_take_lt.
    + exists (j - S i)%nat. rewrite lookup_drop. by replace (S i + (j - S i))%nat with j by lia.
Qed.

(** Changing one entry, its pages and the free list, and no memory but those. *)
Lemma pinv_step s s' Ps free free' i p P p' P' :
  pinv s Ps free -> procs s !! i = Some p -> Ps !! i = Some P ->
  procs s' = <[i := p']> (procs s) -> kinv kend (km s') free' ->
  slot_pages p' P' ++ free' ≡ₚ slot_pages p P ++ free ->
  (forall a, PGROUNDDOWN a ∉ slot_pages p P ++ free -> rd (kmem_mem (km s')) a = rd (kmem_mem (km s)) a) ->
  slot_ok (km s') free' p' P' -> nextpid s <= nextpid s' ->
  (p_state p' <> UNUSED -> 1 <= p_pid p' < nextpid s' /\
     forall j q, j <> i -> procs s !! j = Some q -> p_state q <> UNUSED -> p_pid q <> p_pid p') ->
  pinv s' (<[i := P']> Ps) free'.
Proof.
  intros Hi Hp HP Es Hk Hperm Hf Hok Hn Hpid. destruct (slot_split _ _ _ _ _ _ Hi Hp HP) as (oth & Ho & Ho' & Hsub).
  pose proof (pi_sep _ _ _ Hi) as Hsep. rewrite Ho in Hsep.
  assert (NoDup (oth ++ slot_pages p P ++ free)) as Hnd.
  { eapply NoDup_Permutation_proper; [|exact Hsep]. solve_Permutation. }
  assert (i < length (procs s))%nat as Hlt by (by eapply lookup_lt_Some).
  split; rewrite ?Es, ?length_insert; try apply Hi; try done.
  - intros j q Q Hq HQ. destruct (decide (i = j)) as [<-|Hne].
    { rewrite list_lookup_insert_eq in Hq by done. rewrite list_lookup_insert_eq in HQ
        by (rewrite (pi_lenP _ _ _ Hi), <- (pi_len _ _ _ Hi); done). by simplify_eq. }
    rewrite list_lookup_insert_ne in Hq by done. rewrite list_lookup_insert_ne in HQ by done. pose proof (pi_slot _ _ _ Hi j q Q Hq HQ) as Hj.
    destruct Q as [Q|]; [|done]. destruct Hj as [H1 H2 H3 H4 H5]. split; try done.
    eapply uspace_other with (R := slot_pages p P ++ free); [exact H2 | | | done | exact Hf].
    + assert (p_trapframe q :: owned Q (npg (p_sz q)) ⊆ oth) as Hs by (by apply (Hsub j q (Some Q))).
      apply NoDup_app. apply NoDup_app in Hnd as (_ & Hd & Hnd). split_and!; [| |done].
      * pose proof (us_sep _ _ _ _ _ _ H2) as Hnd'. rewrite app_assoc in Hnd'. by apply NoDup_app in Hnd' as [? _].
      * intros x Hx. apply Hd, Hs. by right.
    + intros x Hx. rewrite <- Hperm. apply elem_of_app. by right.
  - rewrite Ho'. eapply NoDup_Permutation_proper; [|exact Hnd]. rewrite <- Hperm. solve_Permutation.
  - pose proof (pi_next _ _ _ Hi). lia.
  - intros j q Hq Hst. destruct (decide (i = j)) as [<-|Hne].
    + rewrite list_lookup_insert_eq in Hq by done. simplify_eq. by apply Hpid.
    + rewrite list_lookup_insert_ne in Hq by done. pose proof (pi_pid _ _ _ Hi j q Hq Hst). lia.
  - intros j l q r Hq Hr Hst E. destruct (decide (i = j)) as [<-|Hj], (decide (i = l)) as [<-|Hl]; try done.
    + rewrite list_lookup_insert_eq in Hq by done. rewrite list_lookup_insert_ne in Hr by done. simplify_eq.
      destruct (Hpid Hst) as [Hp1 Hu]. destruct (decide (p_state r = UNUSED)) as [Hun|Hun].
      * destruct (lookup_lt_is_Some_2 Ps l) as [R HR].
        { rewrite (pi_lenP _ _ _ Hi), <- (pi_len _ _ _ Hi). by eapply lookup_lt_Some. }
        pose proof (pi_slot _ _ _ Hi l r R Hr HR) as Hso. destruct R as [R|]; [by destruct (iu_state _ _ _ _ Hso)|].
        destruct Hso as (_ & _ & _ & _ & Hz). lia.
      * by destruct (Hu l r).
    + rewrite list_lookup_insert_ne in Hq by done. rewrite list_lookup_insert_eq in Hr by done. simplify_eq.
      destruct (decide (p_state r = UNUSED)) as [Hun|Hun]; [|by destruct (Hpid Hun) as [_ Hu]; destruct (Hu j q)].
      destruct P' as [Q|]; [by destruct (iu_state _ _ _ _ Hok)|]. destruct Hok as (_ & _ & _ & _ & Hz).
      pose proof (pi_pid _ _ _ Hi j q Hq Hst). lia.
    + rewrite list_lookup_insert_ne in Hq by done. rewrite list_lookup_insert_ne in Hr by done. by eapply (pi_uniq _ _ _ Hi).
Qed.

(** ** Freeing an entry *)

(** The pages that hang from an entry: the trapframe and the address space, each
    there or not. *)
Definition hanging (k : kmem) (free : list Z) (p : proc) (P : option pt) : Prop :=
  (p_trapframe p = 0 \/ page_ok kend (p_trapframe p)) /\ (0 <= p_sz p <= TRAPFRAME) /\
  match P with
  | None => p_pagetable p = 0
  | Some P => p_pagetable p <> 0 /\ exists tf, uspace kend k P (p_pagetable p) (npg (p_sz p)) free /\
      trapped trampoline P (npg (p_sz p)) tf
  end.
Definition hung (p : proc) (P : option pt) : list Z :=
  (if p_trapframe p =? 0 then [] else [p_trapframe p]) ++ match P with Some P => owned P (npg (p_sz p)) | None => [] end.

Lemma freeproc_spec i p P s free :
  (i < length (procs s))%nat -> kinv kend (km s) free -> hanging (km s) free p P -> NoDup (hung p P ++ free) ->
  exists k' free', freeproc kend i (with_proc i p s) = Ret tt (with_proc i (freed p) (setk_km k' s)) /\
    kinv kend k' free' /\ free' ≡ₚ hung p P ++ free /\
    (forall a, PGROUNDDOWN a ∉ hung p P ++ free -> rd (kmem_mem k') a = rd (kmem_mem (km s)) a).
Proof.
  intros Hi Hk (Htf & Hsz & HP) Hnd. unfold freeproc. pstep.
  (* the trapframe *)
  assert (exists k1 f1, when (negb (p_trapframe p =? 0)) (zoom kmL (kfree kend (p_trapframe p))) (with_proc i p s)
            = Ret tt (with_proc i p (setk_km k1 s)) /\ kinv kend k1 f1 /\
          f1 ≡ₚ (if p_trapframe p =? 0 then [] else [p_trapframe p]) ++ free /\
          (forall a, PGROUNDDOWN a ∉ f1 -> rd (kmem_mem k1) a = rd (kmem_mem (km s)) a)) as (k1 & f1 & He1 & Hk1 & Hp1 & Hf1).
  { unfold hung in Hnd. destruct (Z.eqb_spec (p_trapframe p) 0) as [E|E]; cbn [negb when].
    - exists (km s), free. split_and!; try done.
    - destruct Htf as [?|Htf]; [done|]. assert (p_trapframe p ∉ free) as Hni.
      { apply NoDup_app in Hnd as (_ & Hd & _). apply Hd. left. }
      destruct (kfree_ok kend Hend _ _ _ Hk Htf Hni) as [He Hk'].
      eexists _, _. split; [apply with_km; exact He|]. split_and!; [done | done |].
      intros a Ha. simpl. apply rd_st64_ne. apply not_elem_of_cons in Ha as [Ha _].
      destruct (decide (p_trapframe p <= a < p_trapframe p + PGSIZE)) as [Hin|Hin].
      + destruct Ha. apply PGROUNDDOWN_in; [apply Htf | done].
      + unfold PGSIZE in Hin. lia. }
  erewrite bind_ret by exact He1. set (s1 := setk_km k1 s) in *.
  assert (i < length (procs s1))%nat as Hi1 by done. pstep. pstep. pstep. cbn [p_sz p_pagetable setp_trapframe].
  set (p1 := setp_trapframe 0 p).
  (* the page table *)
  assert (exists k2 f2, when (negb (p_pagetable p =? 0)) (proc_freepagetable kend (p_pagetable p) (p_sz p)) (with_proc i p1 s1)
            = Ret tt (with_proc i p1 (setk_km k2 s)) /\ kinv kend k2 f2 /\ f2 ≡ₚ hung p P ++ free /\
          (forall a, PGROUNDDOWN a ∉ hung p P ++ free -> rd (kmem_mem k2) a = rd (kmem_mem (km s)) a)) as (k2 & f2 & He2 & Hk2 & Hp2 & Hf2).
  { unfold hung in *. destruct P as [P|].
    - destruct HP as (Hpt & tf & Hu & Htr). rewrite (proj2 (Z.eqb_neq (p_pagetable p) 0)) by done. cbn [negb when].
      assert (uspace kend k1 P (p_pagetable p) (npg (p_sz p)) f1) as Hu1.
      { eapply uspace_other with (R := f1); [exact Hu | | done | done | exact Hf1].
        eapply NoDup_Permutation_proper; [|exact Hnd]. rewrite Hp1. solve_Permutation. }
      destruct (proc_freepagetable_spec kend trampoline Hend (with_proc i p1 s1) P (p_pagetable p) (p_sz p) tf f1 Hu1 Htr Hsz)
        as (k2 & f2 & He2 & Hk2 & Hp2 & Hf2).
      exists k2, f2. split_and!; [exact He2 | done | |].
      + rewrite Hp2, Hp1. solve_Permutation.
      + intros a Ha. rewrite !elem_of_app in Ha. rewrite Hf2 by tauto. apply Hf1. rewrite Hp1, elem_of_app. tauto.
    - rewrite HP. cbn [negb Z.eqb when]. exists k1, f1. split_and!; try done.
      + rewrite Hp1, app_nil_r. done.
      + intros a Ha. apply Hf1. rewrite app_nil_r, <- Hp1 in Ha. done. }
  erewrite bind_ret by exact He2. assert (i < length (procs (setk_km k2 s)))%nat by done.
  do 9 pstep. exists k2, f2. split_and!; [|done..].
  erewrite with_upd by done. by destruct p.
Qed.

(** ** Allocating an entry *)

Record locks_free (s : kproc) : Prop := {
  lf_pid : pid_lock s = Free;
  lf_wait : wait_lock s = Free;
  lf_proc : forall i p, procs s !! i = Some p -> p_lock p = Free
}.

Lemma setp_lock_same p : p_lock p = Free -> setp_lock Free (setp_lock Held p) = p.
Proof. by destruct p; simpl; intros ->. Qed.

Lemma find_unused_spec s : length (procs s) = NPROC -> locks_free s ->
  (exists i p, procs s !! i = Some p /\ p_state p = UNUSED /\
     (forall j q, (j < i)%nat -> procs s !! j = Some q -> p_state q <> UNUSED) /\
     find_unused s = Ret (Some i) (with_proc i (setp_lock Held p) s)) \/
  (forall i p, procs s !! i = Some p -> p_state p <> UNUSED) /\ find_unused s = Ret None s.
Proof.
  intros Hlen Hlf.
  assert (forall i p, procs s !! i = Some p ->
    (acquire (proc_lockL i);; st ← pget i p_state;
     if is_state st UNUSED then mret (Some i) else release (proc_lockL i);; mret None) s =
    if is_state (p_state p) UNUSED then Ret (Some i) (with_proc i (setp_lock Held p) s) else Ret None s) as Hround.
  { intros i p Hp. assert (i < length (procs s))%nat by (by eapply lookup_lt_Some).
    pose proof (lf_proc _ Hlf i p Hp) as Hl. rewrite <- (with_proc_id i p s Hp) at 1.
    erewrite bind_ret by (by apply with_acquire). pstep. cbn [p_state setp_lock].
    destruct (is_state (p_state p) UNUSED); [done|]. pstep. rewrite setp_lock_same by done. by rewrite with_proc_id. }
  assert (forall i, (i < NPROC)%nat -> exists p, procs s !! i = Some p) as Hall.
  { intros i Hi. apply lookup_lt_is_Some_2. by rewrite Hlen. }
  destruct (seq_first (fun i => p_state <$> procs s !! i = Some UNUSED) NPROC) as [(i & Hi & HP & Hj & l2 & E)|Hn].
  - left. destruct (Hall i Hi) as [p Hp]. rewrite Hp in HP. injection HP as HP. exists i, p. split_and!; try done.
    { intros j q Hji Hq Hu. apply (Hj j Hji). by rewrite Hq, <- Hu. }
    unfold find_unused. rewrite E. apply for_each_hit.
    + intros j Hjs. apply elem_of_seq in Hjs. destruct (Hall j ltac:(lia)) as [q Hq]. rewrite (Hround j q Hq).
      unfold is_state. rewrite bool_decide_eq_false_2; [done|]. intros Hu. apply (Hj j ltac:(lia)). by rewrite Hq, <- Hu.
    + rewrite (Hround i p Hp). unfold is_state. by rewrite bool_decide_eq_true_2.
  - right. assert (forall i p, procs s !! i = Some p -> p_state p <> UNUSED) as Hno.
    { intros i p Hp Hu. apply (Hn i); [rewrite <- Hlen; by eapply lookup_lt_Some | by rewrite Hp, <- Hu]. }
    split; [done|]. apply for_each_none. intros i Hi. apply elem_of_seq in Hi.
    destruct (Hall i ltac:(lia)) as [p Hp]. rewrite (Hround i p Hp). unfold is_state.
    rewrite bool_decide_eq_false_2; [done|]. by eapply Hno.
Qed.

Lemma allocpid_eq s : pid_lock s = Free -> allocpid s = Ret (nextpid s) (setk_nextpid (i32 (nextpid s + 1)) s).
Proof. intros Hl. destruct s; simpl in *. by subst. Qed.

(** The entry [allocproc] hands out. *)
Definition fresh_proc (p : proc) (pid tf pagetable : Z) : proc :=
  Proc Held USED (p_chan p) (p_killed p) (p_xstate p) pid (p_parent p) (p_kstack p) (p_sz p) pagetable tf
    (Context forkret (p_kstack p + PGSIZE) (replicate 12 0)) (p_ofile p) (p_cwd p) (p_name p) (p_trace_mask p).

Lemma allocproc_spec s Ps free :
  pinv s Ps free -> locks_free s -> nextpid s < 2 ^ 31 - 1 ->
  ((forall i p, procs s !! i = Some p -> p_state p <> UNUSED) /\
     allocproc kend trampoline forkret s = Ret None s) \/
  exists i p k' free', procs s !! i = Some p /\ p_state p = UNUSED /\
    (forall j q, (j < i)%nat -> procs s !! j = Some q -> p_state q <> UNUSED) /\
    (forall a, PGROUNDDOWN a ∉ free -> rd (kmem_mem k') a = rd (kmem_mem (km s)) a) /\
    let s' q := with_proc i q (setk_km k' (setk_nextpid (nextpid s + 1) s)) in
    ((allocproc kend trampoline forkret s = Ret None (s' (freed p)) /\ p_lock p = Free /\
      pinv (s' (freed p)) Ps free' /\ free' ≡ₚ free) \/
     exists tf root P, let q := fresh_proc p (nextpid s) tf root in
      allocproc kend trampoline forkret s = Ret (Some i) (s' q) /\
      pinv (s' q) (<[i := Some P]> Ps) free' /\ slot_pages q (Some P) ++ free' ≡ₚ free /\
      leaf P = trap_leaves trampoline tf).
Proof.
  intros Hi Hlf Hn. destruct (find_unused_spec s (pi_len _ _ _ Hi) Hlf)
    as [(i & p & Hp & Hst & Hlow & He)|[Hno He]]; [right | left].
  2:{ split; [done|]. unfold allocproc. by erewrite bind_ret by exact He. }
  assert (i < length (procs s))%nat as Hlt by (by eapply lookup_lt_Some).
  destruct (lookup_lt_is_Some_2 Ps i) as [P0 HP0]. { by rewrite (pi_lenP _ _ _ Hi), <- (pi_len _ _ _ Hi). }
  pose proof (pi_slot _ _ _ Hi i p P0 Hp HP0) as Hso.
  destruct P0 as [P0|]; [by destruct (iu_state _ _ _ _ Hso)|]. destruct Hso as (_ & Htf0 & Hpt0 & Hsz0 & Hpid0).
  pose proof (pi_k _ _ _ Hi) as Hk. pose proof (pi_next _ _ _ Hi) as Hn1.
  pose proof (lf_proc _ Hlf i p Hp) as Hlk. set (s1 := setk_nextpid (nextpid s + 1) s).
  assert (i < length (procs s1))%nat as Hlt1 by done.
  set (p1 := setp_state USED (setp_pid (nextpid s) (setp_lock Held p))).
  assert (forall k' free', kinv kend k' free' -> free' ≡ₚ free ->
    (forall a, PGROUNDDOWN a ∉ free -> rd (kmem_mem k') a = rd (kmem_mem (km s)) a) ->
    pinv (with_proc i (freed p) (setk_km k' s1)) Ps free') as Hback.
  { intros k' free' Hk' Hp' Hf'. rewrite <- (list_insert_id Ps i None HP0).
    eapply (pinv_step s _ Ps free free' i p None (freed p) None); try done; simpl; try lia. }
  assert (setp_lock Free (freed p1) = freed p) as Hfr by (destruct p; simpl in *; by rewrite Hlk).
  assert (allocpid (with_proc i (setp_lock Held p) s) = Ret (nextpid s) (with_proc i (setp_lock Held p) s1)) as Hpid.
  { rewrite allocpid_eq by apply Hlf. simpl. rewrite i32_small by lia. done. }
  destruct free as [|tf free1].
  - (* no page for the trapframe *)
    destruct (freeproc_spec i p1 None s1 []) as (k' & f' & Hev & Hk' & Hp' & Hf'); simpl; try done.
    { split_and!; simpl; rewrite ?Hsz0; (done || by left). }
    { unfold hung. simpl. rewrite Htf0. apply NoDup_nil_2. }
    unfold hung in *. simpl in Hp', Hf'. rewrite Htf0 in *. simpl in *.
    exists i, p, k', f'. split_and!; try done. left.
    split_and!; [|done | by apply Hback | done]. unfold allocproc. erewrite bind_ret by exact He.
    cbv beta iota. erewrite bind_ret by exact Hpid. pstep. pstep.
    erewrite bind_ret by (apply with_km; apply (kalloc_none kend); done). pstep. cbn [Z.eqb].
    replace (setp_trapframe 0 _) with p1 by (destruct p; simpl in *; by subst).
    erewrite bind_ret by (destruct s; exact Hev). erewrite bind_ret by (apply with_release; done). by rewrite Hfr.
  - destruct (kalloc_some kend Hend (km s) tf free1 Hk) as (k1 & He1 & Hk1 & Hm1).
    pose proof (kinv_pages _ _ _ Hk) as [Htf _]%Forall_cons. pose proof (kinv_nodup _ _ _ Hk) as [Htn Hnf]%NoDup_cons.
    pose proof (page_ok_bounds kend Hend tf Htf). set (p2 := setp_trapframe tf p1).
    set (s2 := setk_km k1 s1). assert (i < length (procs s2))%nat as Hlt2 by done.
    destruct (proc_pagetable_spec kend trampoline Hend Htramp (with_proc i p2 s2) i p2 free1) as
      (root & k2 & f2 & He2 & Hk2 & Hf2 & Hc2); [by apply with_lookup | done | done |].
    set (s3 := setk_km k2 s1). assert (i < length (procs s3))%nat as Hlt3 by done.
    assert (allocproc kend trampoline forkret s =
      (pupd i (setp_pagetable root);;
       (if root =? 0 then freeproc kend i;; release (proc_lockL i);; mret None
        else pupd i (setp_context zero_context);;
          pupd i (fun q => setp_context (Context forkret (ctx_sp (p_context q)) (ctx_s (p_context q))) q);;
          pupd i (fun q => setp_context (Context (ctx_ra (p_context q)) (p_kstack q + PGSIZE) (ctx_s (p_context q))) q);;
          mret (Some i))) (with_proc i p2 s3)) as ->.
    { unfold allocproc. erewrite bind_ret by exact He. cbv beta iota. erewrite bind_ret by exact Hpid. pstep. pstep.
      erewrite bind_ret by (apply with_km; exact He1). fold s2. pstep. rewrite (proj2 (Z.eqb_neq tf 0)) by lia.
      fold p1. fold p2. erewrite bind_ret by exact He2. done. }
    pstep. set (p3 := setp_pagetable root p2).
    destruct Hc2 as [[-> Hp2]|(Hr & P & Hu & Hpm & Htr & Hl)].
    + (* no memory for the page table *)
      destruct (freeproc_spec i p3 None s3 f2) as (k' & f' & Hev & Hk' & Hp' & Hf'); try done.
      { split_and!; simpl; rewrite ?Hsz0; (done || by right). }
      { unfold hung. simpl. rewrite (proj2 (Z.eqb_neq tf 0)) by lia. rewrite Hp2. by apply NoDup_cons. }
      unfold hung in *. simpl in Hp', Hf'. rewrite (proj2 (Z.eqb_neq tf 0)) in Hp', Hf' by lia. simpl in Hp', Hf'.
      assert (forall a, PGROUNDDOWN a ∉ tf :: free1 -> rd (kmem_mem k') a = rd (kmem_mem (km s)) a) as Hfa.
      { intros a Ha. rewrite Hf' by (by rewrite Hp2). simpl. rewrite Hf2 by (intros Hin; apply Ha; by right). simpl. by rewrite Hm1. }
      exists i, p, k', f'. split_and!; try done. left.
      split_and!; [|done | apply Hback; [done | by rewrite Hp', Hp2 | done] | by rewrite Hp', Hp2].
      cbn [Z.eqb]. erewrite bind_ret by exact Hev. erewrite bind_ret by (apply with_release; done).
      replace (setp_lock Free (freed p3)) with (freed p) by (destruct p; simpl in *; by rewrite Hlk). done.
    + rewrite (proj2 (Z.eqb_neq root 0)) by done. pstep. pstep. pstep. exists i, p, k2, f2. split_and!; try done.
      { intros a Ha. rewrite Hf2 by (intros Hin; apply Ha; by right). simpl. by rewrite Hm1. }
      right. exists tf, root, P. set (q := fresh_proc p (nextpid s) tf root).
      assert (npg (p_sz q) = O) as Hn0 by (simpl; by rewrite Hsz0).
      assert (slot_pages q (Some P) ++ f2 ≡ₚ tf :: free1) as Hsp.
      { simpl. rewrite Hsz0. unfold owned. simpl. rewrite app_nil_r. by rewrite Hpm. }
      split_and!; [by destruct p | | done | done].
      eapply (pinv_step s _ Ps (tf :: free1) f2 i p None q (Some P)); try done; simpl; try lia.
      * intros a Ha. rewrite Hf2 by (intros Hin; apply Ha; by right). simpl. by rewrite Hm1.
      * split; simpl; rewrite ?Hsz0; done.
      * intros _. split; [lia|]. intros j r _ Hrj Hrs. pose proof (pi_pid _ _ _ Hi j r Hrj Hrs). lia.
Qed.

(** ** Loops over the table *)

(** A loop that changes every entry under its lock. *)
Lemma for_each_procs (body : nat -> M kproc (option unit)) (f : nat -> proc -> proc) s :
  (forall L j p, L !! j = Some p -> p_lock p = Free ->
     body j (setk_procs L s) = Ret None (setk_procs (<[j := f j p]> L) s)) ->
  (forall i p, procs s !! i = Some p -> p_lock p = Free) ->
  for_each (seq 0 (length (procs s))) body s = Ret None (setk_procs (imap f (procs s)) s).
Proof.
  intros Hbody Hfree.
  assert (forall l2 l1, procs s = l1 ++ l2 ->
    for_each (seq (length l1) (length l2)) body (setk_procs (imap f l1 ++ l2) s) = Ret None (setk_procs (imap f (l1 ++ l2)) s)) as H.
  { induction l2 as [|p l2 IH]; intros l1 E; simpl.
    - by rewrite !app_nil_r.
    - erewrite bind_ret; [|apply (Hbody _ _ p); [|apply (Hfree (length l1))]].
      + cbv beta iota. specialize (IH (l1 ++ [p])). rewrite length_app in IH. simpl in IH.
        rewrite Nat.add_1_r, <- app_assoc in IH. simpl in IH. rewrite <- IH by done. do 2 f_equal.
        rewrite imap_app. simpl. rewrite <- app_assoc. simpl. rewrite insert_app_r_alt by (rewrite length_imap; lia).
        rewrite length_imap, Nat.sub_diag. simpl. by rewrite Nat.add_0_r.
      + rewrite lookup_app_r by (rewrite length_imap; lia). by rewrite length_imap, Nat.sub_diag.
      + rewrite E. by apply list_lookup_middle. }
  specialize (H (procs s) [] eq_refl). simpl in H. rewrite <- H. by destruct s.
Qed.

Definition woken (me : option nat) (chan : Z) (j : nat) (p : proc) : proc :=
  if decide (me = Some j) then p
  else if is_state (p_state p) SLEEPING && (p_chan p =? chan) then setp_state RUNNABLE p else p.

Lemma wakeup_spec s chan : length (procs s) = NPROC -> locks_free s ->
  wakeup chan s = Ret tt (setk_procs (imap (woken (cur s) chan) (procs s)) s).
Proof.
  intros Hlen Hlf. unfold wakeup. rewrite <- Hlen.
  erewrite bind_ret; [done|]. apply for_each_procs; [|apply Hlf]. intros L j p Hj Hl.
  erewrite bind_ret by reflexivity. cbn [cur setk_procs]. unfold woken.
  set (s0 := setk_procs L s). assert (procs s0 !! j = Some p) as Hp by done.
  assert (j < length (procs s0))%nat as Hlt by (by eapply lookup_lt_Some).
  destruct (decide (cur s = Some j)).
  { erewrite bind_ret by reflexivity. rewrite list_insert_id by done. done. }
  assert ((acquire (proc_lockL j);; st ← pget j p_state; ch ← pget j p_chan;
           when (is_state st SLEEPING && (ch =? chan)) (pupd j (setp_state RUNNABLE));; release (proc_lockL j)) s0 =
          Ret tt (with_proc j (if is_state (p_state p) SLEEPING && (p_chan p =? chan) then setp_state RUNNABLE p else p) s0)) as E.
  { rewrite <- (with_proc_id j p s0 Hp) at 1. erewrite bind_ret by (by apply with_acquire). pstep. pstep.
    cbn [p_state p_chan setp_lock]. destruct (is_state (p_state p) SLEEPING && (p_chan p =? chan)); cbn [when].
    - pstep. erewrite with_release by done. by destruct p; simpl in *; subst.
    - erewrite bind_ret by reflexivity. erewrite with_release by done. rewrite setp_lock_same; done. }
  by erewrite bind_ret by exact E.
Qed.

Lemma nproc_spec s : length (procs s) = NPROC -> locks_free s ->
  nproc s = Ret (Z.of_nat (length (filter (fun p => p_state p <> UNUSED) (procs s)))) s.
Proof.
  intros Hlen Hlf. unfold nproc. rewrite <- Hlen.
  assert (forall l2 l1 n, procs s = l1 ++ l2 -> nproc_loop (seq (length l1) (length l2)) n s =
    Ret (n + Z.of_nat (length (filter (fun p => p_state p <> UNUSED) l2))) s) as H.
  { induction l2 as [|p l2 IH]; intros l1 n E; simpl; [by rewrite Z.add_0_r|].
    assert (procs s !! length l1 = Some p) as Hp by (rewrite E; by apply list_lookup_middle).
    assert (length l1 < length (procs s))%nat by (by eapply lookup_lt_Some). pose proof (lf_proc _ Hlf _ _ Hp).
    rewrite <- (with_proc_id (length l1) p s Hp) at 1. erewrite bind_ret by (by apply with_acquire). pstep. pstep.
    rewrite setp_lock_same, with_proc_id by done. specialize (IH (l1 ++ [p])). rewrite length_app, Nat.add_1_r, <- app_assoc in IH.
    rewrite IH by done. cbn [p_state setp_lock]. unfold is_state.
    destruct (decide (p_state p = UNUSED)) as [Hu|Hu].
    - rewrite bool_decide_eq_true_2 by done. rewrite filter_cons_False by (by intros ?). done.
    - rewrite bool_decide_eq_false_2 by done. rewrite filter_cons_True by done. simpl. f_equal. lia. }
  specialize (H (procs s) [] 0 eq_refl). simpl in H. exact H.
Qed.

(** What [kill] does to the entry it finds. *)
Definition marked (p : proc) : proc :=
  setp_killed 1 (if is_state (p_state p) SLEEPING then setp_state RUNNABLE p else p).

Lemma kill_spec s pid : length (procs s) = NPROC -> locks_free s ->
  (exists i p, procs s !! i = Some p /\ p_pid p = pid /\ (forall j q, (j < i)%nat -> procs s !! j = Some q -> p_pid q <> pid) /\
     kill pid s = Ret 0 (with_proc i (marked p) s)) \/
  (forall i p, procs s !! i = Some p -> p_pid p <> pid) /\ kill pid s = Ret (-1) s.
Proof.
  intros Hlen Hlf.
  assert (forall i p, procs s !! i = Some p ->
    (acquire (proc_lockL i);; q ← pget i p_pid;
     if q =? pid then
       pupd i (setp_killed 1);; st ← pget i p_state;
       when (is_state st SLEEPING) (pupd i (setp_state RUNNABLE));; release (proc_lockL i);; mret (Some 0)
     else release (proc_lockL i);; mret None) s =
    if p_pid p =? pid then Ret (Some 0) (with_proc i (marked p) s) else Ret None s) as Hround.
  { intros i p Hp. assert (i < length (procs s))%nat by (by eapply lookup_lt_Some).
    pose proof (lf_proc _ Hlf i p Hp) as Hl. rewrite <- (with_proc_id i p s Hp) at 1.
    erewrite bind_ret by (by apply with_acquire). pstep. cbn [p_pid setp_lock].
    destruct (p_pid p =? pid).
    - pstep. pstep. cbn [p_state setp_lock setp_killed]. unfold marked. destruct (is_state (p_state p) SLEEPING); cbn [when].
      + pstep. pstep. by destruct p; simpl in *; subst.
      + erewrite bind_ret by reflexivity. pstep. by destruct p; simpl in *; subst.
    - pstep. rewrite setp_lock_same by done. by rewrite with_proc_id. }
  assert (forall i, (i < NPROC)%nat -> exists p, procs s !! i = Some p) as Hall.
  { intros i Hi. apply lookup_lt_is_Some_2. by rewrite Hlen. }
  destruct (seq_first (fun i => p_pid <$> procs s !! i = Some pid) NPROC) as [(i & Hi & HP & Hj & l2 & E)|Hn].
  - left. destruct (Hall i Hi) as [p Hp]. rewrite Hp in HP. injection HP as HP. exists i, p. split_and!; try done.
    { intros j q Hji Hq Hu. apply (Hj j Hji). by rewrite Hq, <- Hu. }
    unfold kill. rewrite E. rewrite (bind_ret _ _ _ (Some 0) (with_proc i (marked p) s)); [done|]. apply for_each_hit.
    + intros j Hjs. apply elem_of_seq in Hjs. destruct (Hall j ltac:(lia)) as [q Hq]. rewrite (Hround j q Hq).
      rewrite (proj2 (Z.eqb_neq _ _)); [done|]. intros Hu. apply (Hj j ltac:(lia)). by rewrite Hq, <- Hu.
    + rewrite (Hround i p Hp). by rewrite HP, Z.eqb_refl.
  - right. assert (forall i p, procs s !! i = Some p -> p_pid p <> pid) as Hno.
    { intros i p Hp Hu. apply (Hn i); [rewrite <- Hlen; by eapply lookup_lt_Some | by rewrite Hp, <- Hu]. }
    split; [done|]. unfold kill. rewrite (bind_ret _ _ _ None s); [done|]. apply for_each_none. intros i Hi. apply elem_of_seq in Hi.
    destruct (Hall i ltac:(lia)) as [p Hp]. rewrite (Hround i p Hp).
    rewrite (proj2 (Z.eqb_neq _ _)); [done|]. by eapply Hno.
Qed.
End Table.
