(* ===== verification/ProcOps.v ===== *)
(** * ProcOps: what the operations on the process table do

    The properties of [allocproc], [freeproc], [growproc], [wakeup], [kill] and
    [nproc] as modelled in [Proc], for any table that satisfies the invariant
    [pinv], and the boot-time table as the concrete instance. *)

From S2P Require Import Prelude CString Riscv Kalloc Vm UserMem Kvm Proc.

Section Ops.
Context (kend trampoline forkret : Z).
Context (Hend : KERNBASE <= kend <= PHYSTOP).
Context (Htramp : 0 <= trampoline < 2 ^ 56 - PGSIZE /\ trampoline mod PGSIZE = 0).

Abbreviation pinvK := (pinv kend trampoline).

(** Replacing an entry by one that owns the same pages and has the same pid. *)
Lemma pinv_same s Ps free i p q : pinvK s Ps free -> procs s !! i = Some p ->
  p_pid q = p_pid p -> p_sz q = p_sz p -> p_pagetable q = p_pagetable p -> p_trapframe q = p_trapframe p ->
  (p_state p = UNUSED <-> p_state q = UNUSED) -> pinvK (with_proc i q s) Ps free.
Proof.
  clear Hend Htramp. intros Hi Hp E1 E2 E3 E4 Est. destruct (lookup_lt_is_Some_2 Ps i) as [P HP].
  { rewrite (pi_lenP _ _ _ _ _ Hi), <- (pi_len _ _ _ _ _ Hi). by eapply lookup_lt_Some. }
  rewrite <- (list_insert_id Ps i P HP). pose proof (pi_slot _ _ _ _ _ Hi i p P Hp HP) as Hso.
  eapply (pinv_step kend trampoline s _ Ps free free i p P q P); try done; simpl; try lia.
  - apply Hi.
  - destruct P; simpl; rewrite ?E2, ?E4; done.
  - destruct P as [P|]; simpl in *.
    + destruct Hso. split; rewrite ?E2, ?E3, ?E4; try done. tauto.
    + destruct Hso as (? & ? & ? & ? & ?). unfold unused. rewrite E1, E2, E3, E4. tauto.
  - intros Hq. rewrite E1. split; [apply (pi_pid _ _ _ _ _ Hi i p Hp); tauto|].
    intros j r Hj Hr Hst Epid. apply Hj. symmetry in Epid. symmetry. by eapply (pi_uniq _ _ _ _ _ Hi i j p r); [..|tauto|].
Qed.

(** Growing a process whose address space is [P]. *)
Lemma growproc_ok s Ps free i p P n :
  pinvK s Ps free -> cur s = Some i -> procs s !! i = Some p -> Ps !! i = Some (Some P) ->
  p_sz p + n <= TRAPFRAME -> - 2 ^ 31 <= n < 2 ^ 31 ->
  exists r s' P' free' sz', growproc kend n s = Ret r s' /\ s' = with_proc i (setp_sz sz' p) (setk_km (km s') s) /\
    pinvK s' (<[i := Some P']> Ps) free' /\
    owned P' (npg sz') ++ free' ≡ₚ owned P (npg (p_sz p)) ++ free /\
    (forall v, v < Z.of_nat (npg (Z.min sz' (p_sz p))) -> leaf P' !! v = leaf P !! v) /\
    (r = 0 /\ sz' = (if decide (p_sz p + n < 0) then p_sz p else p_sz p + n) \/
     r = -1 /\ 0 < n /\ sz' = p_sz p /\ leaf P' = leaf P).
Proof.
  clear Htramp. intros Hi Hc Hp HP Hn Hn32. pose proof (pi_slot _ _ _ _ _ Hi i p _ Hp HP) as [Hst Hu Htr Hsz Htf].
  assert (i < length (procs s))%nat as Hlt by (by eapply lookup_lt_Some).
  pose proof Hsz as Hsz'. change TRAPFRAME with 274877898752 in Hsz', Hn.
  (* the new state once the address space has been resized *)
  assert (forall k' P' free' sz', uspace kend k' P' (p_pagetable p) (npg sz') free' -> 0 <= sz' <= TRAPFRAME ->
    owned P' (npg sz') ++ free' ≡ₚ owned P (npg (p_sz p)) ++ free ->
    (forall a, PGROUNDDOWN a ∉ owned P (npg (p_sz p)) ++ free -> rd (kmem_mem k') a = rd (kmem_mem (km s)) a) ->
    leaf P' !! TRAMP_VPN = leaf P !! TRAMP_VPN -> leaf P' !! FRAME_VPN = leaf P !! FRAME_VPN ->
    pinvK (with_proc i (setp_sz sz' p) (setk_km k' s)) (<[i := Some P']> Ps) free') as Hdone.
  { intros k' P' free' sz' Hu' Hs' Hpm Hf E1 E2.
    eapply (pinv_step kend trampoline s _ Ps free free' i p (Some P) (setp_sz sz' p) (Some P')); try done; simpl; try lia.
    - apply Hu'.
    - by rewrite Hpm.
    - intros a Ha. apply Hf. intros Hin. apply Ha. by right.
    - split; simpl; try done. destruct Htr as (? & ? & ?). unfold trapped. rewrite E1, E2.
      split_and!; [done..|]. unfold FRAME_VPN. by apply npg_le.
    - intros _. split; [by apply (pi_pid _ _ _ _ _ Hi i p Hp)|].
      intros j q Hj Hq Hqs E. apply Hj. by eapply (pi_uniq _ _ _ _ _ Hi). }
  assert (me (with_proc i p s) = Ret i (with_proc i p s)) as Hme by (unfold me, myproc, mbind, M_bind, gets; simpl; by rewrite Hc).
  assert (growproc kend n s = growproc kend n (with_proc i p s)) as -> by (by rewrite with_proc_id).
  unfold growproc. erewrite bind_ret by exact Hme. pstep. pstep.
  destruct (Z.ltb_spec 0 n) as [Hpos|Hneg].
  - rewrite u64_small by lia.
    destruct (uvmalloc_ok kend (km s) P (p_pagetable p) (p_sz p) (p_sz p + n) PTE_W free Hend Hu) as
      (r & k' & P' & free' & n' & He & Hu' & Hpm & Hf & Hlv & Hr); try (unfold PTE_W; lia).
    { change TRAPFRAME with 274877898752. lia. }
    erewrite bind_ret by (apply with_km; exact He).
    assert (i < length (procs (setk_km k' s)))%nat by done.
    assert (forall a, PGROUNDDOWN a ∉ owned P (npg (p_sz p)) ++ free -> rd (kmem_mem k') a = rd (kmem_mem (km s)) a) as Hfa.
    { intros a Ha. apply Hf. unfold owned in Ha. rewrite !elem_of_app in *. tauto. }
    destruct Hr as [(-> & -> & _)|(-> & -> & Hl)].
    + rewrite (proj2 (Z.eqb_neq _ 0)) by lia. pstep. eexists 0, _, P', free', (p_sz p + n). split; [done|].
      assert (forall v, FRAME_VPN <= v -> leaf P' !! v = leaf P !! v) as Htop.
      { intros v Hv. apply Hlv. right. destruct (npg_le (p_sz p + n)) as [? _]; [change TRAPFRAME with 274877898752; lia|].
        unfold FRAME_VPN in Hv. lia. }
      split_and!; [done | | done | intros v Hv; apply Hlv; rewrite Z.min_r in Hv by lia; by left | left; rewrite decide_False by lia; done].
      apply Hdone; try done; [change TRAPFRAME with 274877898752; lia | apply Htop; by vm_compute..].
    + eexists (-1), _, P', free', (p_sz p). split; [done|].
      replace (setp_sz (p_sz p) p) with p by (by destruct p).
      split_and!; [done | | done | intros v Hv; by rewrite Hl | right; done].
      replace p with (setp_sz (p_sz p) p) at 1 by (by destruct p). apply Hdone; try done; by rewrite Hl.
  - destruct (Z.ltb_spec n 0) as [Hlt0|Hz].
    + set (newsz := u64 (p_sz p + n)).
      assert (0 <= newsz /\ (p_sz p + n < 0 /\ p_sz p < newsz \/ 0 <= p_sz p + n /\ newsz = p_sz p + n)) as [Hn0 Hnew].
      { unfold newsz. pose proof (u64_range (p_sz p + n)). split; [lia|]. destruct (decide (p_sz p + n < 0)); [left | right].
        - split; [done|]. unfold u64. rewrite <- (Z.mod_add _ 1) by lia. rewrite Z.mod_small; lia.
        - split; [lia|]. rewrite u64_small; lia. }
      destruct (uvmdealloc_ok kend (km s) P (p_pagetable p) (p_sz p) newsz free Hend Hu Hsz Hn0) as
        (r & k' & P' & free' & He & Er & Hu' & Hpm & Hl & Hf).
      erewrite bind_ret by (apply with_km; exact He). assert (i < length (procs (setk_km k' s)))%nat by done. pstep.
      rewrite Er in *. set (sz' := Z.min (p_sz p) newsz) in *. assert (0 <= sz' <= p_sz p) as Hs' by lia.
      assert (npg sz' <= npg (p_sz p))%nat as Hmono by (apply npg_mono; lia).
      destruct (npg_le (p_sz p) Hsz) as [Hle _].
      eexists 0, _, P', free', sz'. split; [done|]. split_and!; [done | | done | |].
      * apply Hdone; try done; [lia | | |].
        -- intros a Ha. apply Hf. right. intros Hin. apply Ha, elem_of_app. by left.
        -- rewrite Hl, decide_False; [done|]. destruct tramp_vpn as (_ & _ & ? & ?). unfold FRAME_VPN in *. lia.
        -- rewrite Hl, decide_False; [done|]. unfold FRAME_VPN in *. lia.
      * intros v Hv. rewrite Z.min_l in Hv by lia. rewrite Hl, decide_False by lia. done.
      * left. split; [done|]. unfold sz'. case_decide; lia.
    + assert (n = 0) as -> by lia. pstep. eexists 0, _, P, free, (p_sz p). split; [done|].
      split_and!; try done; [|left; rewrite decide_False by lia; split; [done | lia]].
      replace s with (setk_km (km s) s) at 1 by (by destruct s). by apply Hdone.
Qed.

(** An entry that is not in use has pid 0, one in use has not. *)
Lemma pid_zero s Ps free i p : pinvK s Ps free -> procs s !! i = Some p -> p_pid p = 0 <-> p_state p = UNUSED.
Proof.
  clear Hend Htramp. intros Hi Hp. destruct (decide (p_state p = UNUSED)) as [Hu|Hu].
  - split; [done|]. intros _. destruct (lookup_lt_is_Some_2 Ps i) as [P HP].
    { rewrite (pi_lenP _ _ _ _ _ Hi), <- (pi_len _ _ _ _ _ Hi). by eapply lookup_lt_Some. }
    pose proof (pi_slot _ _ _ _ _ Hi i p P Hp HP) as Hso. destruct P; [by destruct (iu_state _ _ _ _ _ _ Hso)|]. apply Hso.
  - split; [|done]. intros E. pose proof (pi_pid _ _ _ _ _ Hi i p Hp Hu). lia.
Qed.

Lemma locks_with s i p q : locks_free s -> procs s !! i = Some p -> p_lock q = Free -> locks_free (with_proc i q s).
Proof.
  intros [H1 H2 H3] Hp Hq. split; simpl; try done. intros j r. destruct (decide (i = j)) as [<-|Hne].
  - rewrite list_lookup_insert_eq by (by eapply lookup_lt_Some). by intros [= <-].
  - rewrite list_lookup_insert_ne by done. apply H3.
Qed.

(** C37: process allocation, while the pids have not reached the largest [int].  [allocproc] returns null and changes nothing when every
    entry is in use.  Otherwise it takes the first unused entry.  If memory suffices,
    it returns that entry locked, with a pid no other process has, a context that
    starts in [forkret] on its kernel stack, and an empty address space of its own
    that maps the trampoline and its trapframe page.  If memory runs out, it returns
    null, the entry is unused and unlocked again, and all pages it took are free; the pid
    is not used again.  The
    invariant of the table holds in every case. *)
Theorem allocproc_fresh s Ps free :
  pinvK s Ps free -> locks_free s -> nextpid s < 2 ^ 31 - 1 ->
  ((forall i p, procs s !! i = Some p -> p_state p <> UNUSED) /\ allocproc kend trampoline forkret s = Ret None s) \/
  exists i p s' free', procs s !! i = Some p /\ p_state p = UNUSED /\
    (forall j q, (j < i)%nat -> procs s !! j = Some q -> p_state q <> UNUSED) /\
    (forall j, j <> i -> procs s' !! j = procs s !! j) /\
    (forall a, PGROUNDDOWN a ∉ free -> rd (kmem_mem (km s')) a = rd (kmem_mem (km s)) a) /\
    ((allocproc kend trampoline forkret s = Ret None s' /\ pinvK s' Ps free' /\ free' ≡ₚ free /\ locks_free s') \/
     exists q P, allocproc kend trampoline forkret s = Ret (Some i) s' /\ procs s' !! i = Some q /\
       pinvK s' (<[i := Some P]> Ps) free' /\ slot_pages q (Some P) ++ free' ≡ₚ free /\
       p_lock q = Held /\ p_state q = USED /\ p_pid q = nextpid s /\
       (forall j r, procs s !! j = Some r -> p_pid r <> p_pid q) /\
       p_context q = Context forkret (p_kstack p + PGSIZE) (replicate 12 0) /\
       leaf P = {[ TRAMP_VPN := tramp_pte trampoline; FRAME_VPN := frame_pte (p_trapframe q) ]}).
Proof.
  intros Hi Hlf Hn.
  destruct (allocproc_spec kend trampoline forkret Hend Htramp s Ps free Hi Hlf Hn)
    as [?|(i & p & k' & free' & Hp & Hu & Hlow & Hf & Hc)]; [by left | right].
  assert (i < length (procs s))%nat as Hlt by (by eapply lookup_lt_Some).
  destruct Hc as [(He & Hlk & Hpi & Hpm)|(tf & root & P & He & Hpi & Hpm & Hl)].
  - exists i, p, (with_proc i (freed p) (setk_km k' (setk_nextpid (nextpid s + 1) s))), free'.
    split_and!; [done | done | done | | exact Hf | left; split_and!; [exact He | done | done |]].
    + intros j Hj. simpl. by rewrite list_lookup_insert_ne.
    + apply (locks_with _ i p); [destruct Hlf; by split | done | done].
  - exists i, p, (with_proc i (fresh_proc forkret p (nextpid s) tf root) (setk_km k' (setk_nextpid (nextpid s + 1) s))), free'.
    split_and!; [done | done | done | | exact Hf | right].
    { intros j Hj. simpl. by rewrite list_lookup_insert_ne. }
    eexists _, P. split_and!; [exact He | by apply list_lookup_insert_eq | done..| |done | done].
    intros j r Hr. simpl. destruct (decide (p_state r = UNUSED)) as [Hru|Hru].
    + apply (pid_zero s Ps free j r Hi Hr) in Hru. pose proof (pi_next _ _ _ _ _ Hi). lia.
    + pose proof (pi_pid _ _ _ _ _ Hi j r Hr Hru). lia.
Qed.

(** Changing the size of a process.  [growproc] by [n] bytes, with room below the
    trap pages, returns 0 and sets the size to the sum; asking for less than nothing
    changes nothing.  If memory runs out it returns -1 and the size and all mappings
    are as before.  Pages that stay keep their mapping, pages are conserved, and the
    invariant of the table holds. *)
Theorem growproc_resizes s Ps free i p P n :
  pinvK s Ps free -> cur s = Some i -> procs s !! i = Some p -> Ps !! i = Some (Some P) ->
  p_sz p + n <= TRAPFRAME -> - 2 ^ 31 <= n < 2 ^ 31 ->
  exists r s' P' free' sz', growproc kend n s = Ret r s' /\ procs s' = <[i := setp_sz sz' p]> (procs s) /\
    pinvK s' (<[i := Some P']> Ps) free' /\
    owned P' (npg sz') ++ free' ≡ₚ owned P (npg (p_sz p)) ++ free /\
    (forall v, v < Z.of_nat (npg (Z.min sz' (p_sz p))) -> leaf P' !! v = leaf P !! v) /\
    (r = 0 /\ sz' = (if decide (p_sz p + n < 0) then p_sz p else p_sz p + n) \/
     r = -1 /\ 0 < n /\ sz' = p_sz p /\ leaf P' = leaf P).
Proof.
  clear Htramp. intros Hi Hc Hp HP Hn Hr. destruct (growproc_ok s Ps free i p P n Hi Hc Hp HP Hn Hr)
    as (r & s' & P' & free' & sz' & He & Es & H). exists r, s', P', free', sz'. rewrite Es in *. done.
Qed.

(** Wake-ups and kills.  [wakeup] makes runnable exactly the other processes that
    sleep on the channel and changes nothing else.  [kill] of a pid in use marks that
    process, wakes it if it sleeps, changes nothing else and returns 0; of any other
    positive pid it returns -1 and changes nothing.  [nproc] counts the entries in
    use. *)
Theorem wakeup_kill s Ps free :
  pinvK s Ps free -> locks_free s ->
  (forall chan, exists s', wakeup chan s = Ret tt s' /\ pinvK s' Ps free /\
     s' = setk_procs (imap (fun j p => if decide (cur s <> Some j /\ p_state p = SLEEPING /\ p_chan p = chan)
                                       then setp_state RUNNABLE p else p) (procs s)) s) /\
  (forall i p, procs s !! i = Some p -> p_state p <> UNUSED -> exists s', kill (p_pid p) s = Ret 0 s' /\ pinvK s' Ps free /\
     s' = with_proc i (setp_killed 1 (if decide (p_state p = SLEEPING) then setp_state RUNNABLE p else p)) s) /\
  (forall pid, 0 < pid -> (forall i p, procs s !! i = Some p -> p_pid p <> pid) -> kill pid s = Ret (-1) s) /\
  nproc s = Ret (Z.of_nat (length (filter (fun p => p_state p <> UNUSED) (procs s)))) s.
Proof.
  clear Hend Htramp. intros Hi Hlf. pose proof (pi_len _ _ _ _ _ Hi) as Hlen. split_and!; [| | |by apply nproc_spec].
  - intros chan. eexists. split; [by apply wakeup_spec|].
    assert (forall j p, woken (cur s) chan j p =
      if decide (cur s <> Some j /\ p_state p = SLEEPING /\ p_chan p = chan) then setp_state RUNNABLE p else p) as Hw.
    { intros j p. unfold woken, is_state. destruct (decide (cur s = Some j)); [rewrite decide_False by tauto; done|].
      destruct (decide (p_state p = SLEEPING)) as [Hs|Hs].
      - rewrite bool_decide_eq_true_2 by done. simpl. destruct (Z.eqb_spec (p_chan p) chan);
          [rewrite decide_True by done | rewrite decide_False by tauto]; done.
      - rewrite bool_decide_eq_false_2 by done. simpl. rewrite decide_False by tauto. done. }
    split; [|f_equal; apply imap_ext; intros; apply Hw].
    assert (forall j p, p_pid (woken (cur s) chan j p) = p_pid p /\ (p_state (woken (cur s) chan j p) = UNUSED <-> p_state p = UNUSED) /\
      p_sz (woken (cur s) chan j p) = p_sz p /\ p_pagetable (woken (cur s) chan j p) = p_pagetable p /\
      p_trapframe (woken (cur s) chan j p) = p_trapframe p) as Hsame.
    { intros j p. rewrite Hw. case_decide as Hd; simpl; split_and!; try done. destruct Hd as (_ & -> & _). split; done. }
    destruct Hi as [H1 H2 H3 H4 H5 H6 H7 H8]. split; simpl; try done.
    + by rewrite length_imap.
    + intros j q Q Hq HQ. rewrite list_lookup_imap in Hq. destruct (procs s !! j) as [p|] eqn:Hp; [|done].
      simpl in Hq. injection Hq as <-. specialize (H4 j p Q Hp HQ). destruct (Hsame j p) as (E1 & E2 & E3 & E4 & E5).
      destruct Q as [Q|]; simpl in *.
      * destruct H4. split; rewrite ?E3, ?E4, ?E5; try done. tauto.
      * unfold unused in *. rewrite E1, E3, E4, E5. tauto.
    + replace (used_pages (imap (woken (cur s) chan) (procs s)) Ps) with (used_pages (procs s) Ps); [done|].
      unfold used_pages. f_equal. apply list_eq. intros j. rewrite !lookup_zip_with, list_lookup_imap.
      destruct (procs s !! j) as [p|]; [|done]. simpl. destruct (Ps !! j) as [[Q|]|]; simpl; try done.
      destruct (Hsame j p) as (_ & _ & E3 & _ & E5). by rewrite E3, E5.
    + intros j q Hq. rewrite list_lookup_imap in Hq. destruct (procs s !! j) as [p|] eqn:Hp; [|done].
      simpl in Hq. injection Hq as <-. destruct (Hsame j p) as (E1 & E2 & _). rewrite E1. intros Hst. apply (H7 j p Hp). tauto.
    + intros j l q r Hq Hr. rewrite list_lookup_imap in Hq, Hr. destruct (procs s !! j) as [p|] eqn:Hp; [|done].
      destruct (procs s !! l) as [p'|] eqn:Hp'; [|done]. simpl in Hq, Hr. injection Hq as <-. injection Hr as <-.
      destruct (Hsame j p) as (E1 & E2 & _), (Hsame l p') as (F1 & _). rewrite E1, F1. intros Hst. apply (H8 j l p p' Hp Hp'). tauto.
  - intros i p Hp Hu. destruct (kill_spec s (p_pid p) Hlen Hlf) as [(j & q & Hq & E & _ & He)|[Hno _]].
    2:{ by destruct (Hno i p). }
    assert (i = j) as <- by (by eapply (pi_uniq _ _ _ _ _ Hi i j p q)). simplify_eq.
    assert (marked p = setp_killed 1 (if decide (p_state p = SLEEPING) then setp_state RUNNABLE p else p)) as <-.
    { unfold marked, is_state. case_decide; [by rewrite bool_decide_eq_true_2 | by rewrite bool_decide_eq_false_2]. }
    eexists. split; [exact He|]. split; [|done].
    apply (pinv_same s Ps free i p); try done; unfold marked, is_state; case_bool_decide as Hs; simpl; try done.
  - intros pid Hpid Hno. destruct (kill_spec s pid Hlen Hlf) as [(j & q & Hq & E & _)|[_ He]]; [|done].
    by destruct (Hno j q).
Qed.

(** C39: [kill(0)] marks an unused entry.  Unused entries have pid 0, so [kill(0)]
    succeeds whenever there is one, and leaves the first of them marked as killed; the
    next process [allocproc] makes out of that entry starts its life killed. *)
Theorem kill_zero s Ps free i p s' j s'' :
  pinvK s Ps free -> locks_free s -> nextpid s < 2 ^ 31 - 1 ->
  procs s !! i = Some p -> p_state p = UNUSED ->
  (forall j q, (j < i)%nat -> procs s !! j = Some q -> p_state q <> UNUSED) ->
  kill 0 s = Ret 0 s' -> allocproc kend trampoline forkret s' = Ret (Some j) s'' ->
  j = i /\ s' = with_proc i (setp_killed 1 p) s /\ exists q, procs s'' !! i = Some q /\ p_state q = USED /\ p_killed q = 1.
Proof.
  intros Hi Hlf Hn Hp Hu Hlow Hk Ha. pose proof (pi_len _ _ _ _ _ Hi) as Hlen.
  destruct (kill_spec s 0 Hlen Hlf) as [(l & q & Hq & E & Hlow' & He)|[Hno _]].
  2:{ destruct (Hno i p Hp). by apply (pid_zero s Ps free i p Hi Hp). }
  assert (l = i) as ->.
  { apply (pid_zero s Ps free l q Hi Hq) in E. destruct (decide (l < i)%nat); [by destruct (Hlow l q)|].
    destruct (decide (i < l)%nat); [|lia]. destruct (Hlow' i p); [done..|]. by apply (pid_zero s Ps free i p Hi Hp). }
  simplify_eq. assert (marked p = setp_killed 1 p) as Em by (unfold marked, is_state; by rewrite Hu).
  rewrite Em in He. rewrite He in Hk. injection Hk as <-.
  assert (i < length (procs s))%nat as Hlt by (by eapply lookup_lt_Some).
  assert (pinvK (with_proc i (setp_killed 1 p) s) Ps free) as Hi' by (by apply (pinv_same s Ps free i p)).
  assert (locks_free (with_proc i (setp_killed 1 p) s)) as Hlf'.
  { apply (locks_with s i p); [done | done |]. simpl. by apply (lf_proc _ Hlf i p). }
  destruct (allocproc_spec kend trampoline forkret Hend Htramp _ Ps free Hi' Hlf' Hn)
    as [[Hno _]|(l & r & k' & free' & Hr & Hru & Hrl & _ & Hc)].
  { by destruct (Hno i (setp_killed 1 p) (with_lookup i s Hlt _)). }
  destruct Hc as [(He' & _)|(tf & root & P & He' & _)]; rewrite He' in Ha; [done|]. injection Ha as <- <-.
  assert (l = i) as ->.
  { destruct (decide (l = i)) as [|Hne]; [done|]. simpl in Hr. rewrite list_lookup_insert_ne in Hr by done.
    destruct (decide (l < i)%nat); [by destruct (Hlow l r)|].
    destruct (Hrl i (setp_killed 1 p)); [lia | by apply with_lookup | done]. }
  rewrite with_lookup in Hr by done. injection Hr as <-.
  split_and!; [done | done |]. eexists. split; [simpl; by apply list_lookup_insert_eq; rewrite length_insert|]. done.
Qed.
End Ops.

(** ** The table at boot *)

(** An entry of the zeroed table, and the table after [procinit] over the memory of
    [UserMem]'s example. *)
Definition bss_proc : proc :=
  Proc Free UNUSED 0 0 0 0 None 0 0 0 0 zero_context (replicate NOFILE None) None (replicate 16 0) 0.
Definition bss_table (k : kmem) : kproc := KProc (replicate NPROC bss_proc) 1 Free Free None None k.
Definition boot_table (k : kmem) : kproc := match procinit (bss_table k) with Ret _ s => s | _ => bss_table k end.

Lemma boot_table_eq k : procinit (bss_table k) = Ret tt (boot_table k) /\
  procs (boot_table k) = imap (fun i p => setp_kstack (KSTACK (Z.of_nat i)) p) (replicate NPROC bss_proc) /\
  boot_table k = setk_procs (procs (boot_table k)) (bss_table k).
Proof. split_and!; vm_compute; reflexivity. Qed.

#[global] Opaque boot_table.

Lemma boot_entry k i p : procs (boot_table k) !! i = Some p -> p = setp_kstack (KSTACK (Z.of_nat i)) bss_proc.
Proof.
  destruct (boot_table_eq k) as (_ & -> & _). rewrite list_lookup_imap. intros (q & Hq & ->)%fmap_Some.
  by apply lookup_replicate in Hq as [-> _].
Qed.

Lemma used_nil L n : used_pages L (replicate n None) = [].
Proof.
  unfold used_pages. revert L. induction n as [|n IH]; intros [|p L]; [done..|]. simpl. apply IH.
Qed.

Lemma boot_pinv kend trampoline k free : kinv kend k free -> pinv kend trampoline (boot_table k) (replicate NPROC None) free.
Proof.
  intros Hk. destruct (boot_table_eq k) as (_ & Ep & Es).
  assert (km (boot_table k) = k) as Ek by (by rewrite Es). assert (nextpid (boot_table k) = 1) as En by (by rewrite Es).
  split.
  - by rewrite Ep, length_imap, length_replicate.
  - by rewrite length_replicate.
  - by rewrite Ek.
  - intros i p P Hp HP. apply lookup_replicate in HP as [-> _]. rewrite (boot_entry _ _ _ Hp). repeat split.
  - rewrite used_nil. apply Hk.
  - by rewrite En.
  - intros i p Hp. rewrite (boot_entry _ _ _ Hp). intros Hu. by destruct Hu.
  - intros i j p q Hp _. rewrite (boot_entry _ _ _ Hp). intros Hu. by destruct Hu.
Qed.

Lemma boot_locks k : locks_free (boot_table k).
Proof.
  destruct (boot_table_eq k) as (_ & _ & Es). split; [by rewrite Es..|]. intros i p Hp. by rewrite (boot_entry _ _ _ Hp).
Qed.

Definition demo_table : kproc := boot_table demo_kmem.
Definition demo_tramp : Z := KERNBASE.
Definition demo_forkret : Z := KERNBASE + 4096.

Lemma demo_tramp_ok : 0 <= demo_tramp < 2 ^ 56 - PGSIZE /\ demo_tramp mod PGSIZE = 0.
Proof. vm_compute. repeat split; discriminate. Qed.

(** The table with one process, running. *)
Definition demo_alloc : outcome kproc (option nat) := allocproc demo_end demo_tramp demo_forkret demo_table.

Lemma allocproc_fresh_witness : exists s' q, demo_alloc = Ret (Some 0%nat) s' /\ procs s' !! 0%nat = Some q /\ p_pid q = 1.
Proof.
  assert (nextpid demo_table < 2 ^ 31 - 1) as Hn by (vm_compute; reflexivity).
  destruct (allocproc_fresh demo_end demo_tramp demo_forkret demo_range demo_tramp_ok demo_table (replicate NPROC None) demo_free
              (boot_pinv _ _ _ _ demo_kinv) (boot_locks _) Hn)
    as [[_ He]|(i & p & s' & free' & Hp & Hu & Hlow & Ho & Hf & [(He & _)|(q & P & He & Hq & _ & _ & _ & _ & Hpid & _)])].
  - enough (match demo_alloc with Ret (Some _) _ => true | _ => false end = true) as E by (unfold demo_alloc in E; by rewrite He in E).
    vm_compute. reflexivity.
  - enough (match demo_alloc with Ret (Some _) _ => true | _ => false end = true) as E by (unfold demo_alloc in E; by rewrite He in E).
    vm_compute. reflexivity.
  - assert (i = 0%nat) as ->.
    { destruct i as [|i]; [done|]. destruct (Hlow 0%nat (setp_kstack (KSTACK 0) bss_proc) ltac:(lia)); vm_compute; reflexivity. }
    exists s', q. split; [exact He|]. split; [exact Hq|]. rewrite Hpid. vm_compute. reflexivity.
Defined.

(** Making the process just allocated the running one of this CPU. *)
Definition run_first (s : kproc) : kproc :=
  setk_cur (Some 0%nat) (upd_proc 0 (fun p => setp_lock Free (setp_state RUNNING p)) s).

Lemma run_first_inv kend trampoline forkret s Ps free p0 s1 :
  KERNBASE <= kend <= PHYSTOP -> 0 <= trampoline < 2 ^ 56 - PGSIZE /\ trampoline mod PGSIZE = 0 ->
  pinv kend trampoline s Ps free -> locks_free s -> nextpid s < 2 ^ 31 - 1 ->
  procs s !! 0%nat = Some p0 -> p_state p0 = UNUSED -> allocproc kend trampoline forkret s = Ret (Some 0%nat) s1 ->
  exists P free' p, pinv kend trampoline (run_first s1) (<[0%nat := Some P]> Ps) free' /\ locks_free (run_first s1) /\
    procs (run_first s1) !! 0%nat = Some p /\ p_sz p = 0 /\ p_state p = RUNNING /\ p_pid p = nextpid s.
Proof.
  intros Hend Htr Hi Hl Hn Hp0 Hu0 Ea.
  assert (p_sz p0 = 0) as Hsz0.
  { destruct (lookup_lt_is_Some_2 Ps 0%nat) as [P HP]; [rewrite (pi_lenP _ _ _ _ _ Hi); unfold NPROC; lia|].
    pose proof (pi_slot _ _ _ _ _ Hi 0 p0 P Hp0 HP) as Hso. destruct P; [by destruct (iu_state _ _ _ _ _ _ Hso)|]. apply Hso. }
  destruct (allocproc_spec kend trampoline forkret Hend Htr s Ps free Hi Hl Hn)
    as [[Hno _]|(i & p & k' & free' & Hp & Hu & Hlow & Hf & [(He & _)|(tf & root & P & He & Hpi & _)])].
  { by destruct (Hno 0%nat p0). }
  { by rewrite He in Ea. }
  rewrite He in Ea. injection Ea as -> <-. rewrite Hp0 in Hp. injection Hp as <-.
  set (q := fresh_proc _ _ _ _ _) in *. set (s2 := setk_km k' _) in *.
  assert (0 < length (procs s2))%nat as Hlt by (by eapply lookup_lt_Some).
  assert (run_first (with_proc 0 q s2) = setk_cur (Some 0%nat) (with_proc 0 (setp_lock Free (setp_state RUNNING q)) s2)) as ->.
  { unfold run_first. f_equal. unfold upd_proc. erewrite alter_insert_eq by (by apply with_lookup).
    fold (with_proc 0 (setp_lock Free (setp_state RUNNING q)) (with_proc 0 q s2)). apply with_with. }
  assert (pinv kend trampoline (with_proc 0 (setp_lock Free (setp_state RUNNING q)) s2) (<[0%nat := Some P]> Ps) free') as Hi'.
  { rewrite <- (with_with 0 _ q). eapply pinv_same with (p := q); try done. by apply with_lookup. }
  exists P, free', (setp_lock Free (setp_state RUNNING q)). split_and!; try done.
  - destruct Hi'. by split.
  - destruct Hl as [H1 H2 H3]. split; simpl; try done. intros j r. destruct (decide (j = 0%nat)) as [->|Hne].
    + rewrite list_lookup_insert_eq by done. by intros [= <-].
    + rewrite list_lookup_insert_ne by done. apply H3.
  - simpl. by apply list_lookup_insert_eq.
Qed.

Definition demo_running : kproc := match demo_alloc with Ret _ s => run_first s | _ => demo_table end.

Lemma demo_running_inv : exists P Ps free p, pinv demo_end demo_tramp demo_running Ps free /\ locks_free demo_running /\
  Ps !! 0%nat = Some (Some P) /\ procs demo_running !! 0%nat = Some p /\ p_sz p = 0 /\ p_state p = RUNNING /\ p_pid p = 1.
Proof.
  assert (match demo_alloc with Ret r _ => r | _ => None end = Some 0%nat) as E by (vm_compute; reflexivity).
  unfold demo_running. destruct demo_alloc as [r s1| | |] eqn:Ea; [|discriminate..]. subst r.
  destruct (run_first_inv demo_end demo_tramp demo_forkret demo_table (replicate NPROC None) demo_free
    (setp_kstack (KSTACK 0) bss_proc) s1 demo_range demo_tramp_ok (boot_pinv _ _ _ _ demo_kinv) (boot_locks _)) as (P & free' & p & Hi & Hl & Hp & Hz & Hst & Hpid).
  - vm_compute. reflexivity.
  - vm_compute. reflexivity.
  - reflexivity.
  - exact Ea.
  - exists P, (<[0%nat := Some P]> (replicate NPROC None)), free', p. split_and!; [exact Hi | exact Hl | reflexivity | exact Hp | exact Hz | exact Hst |].
    rewrite Hpid. vm_compute. reflexivity.
Qed.

Lemma growproc_resizes_witness : exists r s', growproc demo_end 5000 demo_running = Ret r s' /\ r = 0.
Proof.
  destruct demo_running_inv as (P & Ps & free & p & Hi & _ & HP & Hp & Hsz & _).
  destruct (growproc_resizes demo_end demo_tramp demo_range demo_running Ps free 0 p P 5000 Hi) as (r & s' & P' & free' & sz' & He & _).
  - vm_compute. reflexivity.
  - exact Hp.
  - exact HP.
  - rewrite Hsz. vm_compute. discriminate.
  - lia.
  - exists r, s'. split; [exact He|].
    enough (match growproc demo_end 5000 demo_running with Ret r _ => r | _ => 1 end = 0) as E by (by rewrite He in E).
    vm_compute. reflexivity.
Defined.

Lemma wakeup_kill_witness : exists s', kill 1 demo_running = Ret 0 s'.
Proof.
  destruct demo_running_inv as (P & Ps & free & p & Hi & Hl & HP & Hp & Hsz & Hst & Epid).
  destruct (wakeup_kill demo_end demo_tramp demo_running Ps free Hi Hl) as (_ & Hk & _ & _).
  destruct (Hk 0%nat p Hp) as (s' & He & _); [by rewrite Hst|]. exists s'.
  rewrite Epid in He. exact He.
Defined.

Lemma kill_zero_witness : exists s' s'' q, kill 0 demo_table = Ret 0 s' /\
  allocproc demo_end demo_tramp demo_forkret s' = Ret (Some 0%nat) s'' /\ procs s'' !! 0%nat = Some q /\ p_killed q = 1.
Proof.
  assert (match kill 0 demo_table with
          | Ret r s' => r = 0 /\ match allocproc demo_end demo_tramp demo_forkret s' with Ret r _ => r = Some 0%nat | _ => False end
          | _ => False end) as E by (vm_compute; split; reflexivity).
  destruct (kill 0 demo_table) as [r s'| | |] eqn:Ek; [|contradiction..]. destruct E as [-> E].
  destruct (allocproc demo_end demo_tramp demo_forkret s') as [r' s''| | |] eqn:Ea; [|contradiction..]. subst r'.
  destruct (kill_zero demo_end demo_tramp demo_forkret demo_range demo_tramp_ok demo_table (replicate NPROC None) demo_free 0
              (setp_kstack (KSTACK 0) bss_proc) s' 0 s'' (boot_pinv _ _ _ _ demo_kinv) (boot_locks _)) as (_ & _ & q & Hq & _ & Hkl).
  - vm_compute. reflexivity.
  - vm_compute. reflexivity.
  - reflexivity.
  - intros j q Hj. lia.
  - exact Ek.
  - exact Ea.
  - exists s', s'', q. split; [reflexivity|]. split; [exact Ea|]. split; [exact Hq | exact Hkl].
Defined.
