(* ===== verification/Txn.v ===== *)
(** * Txn: what the log promises to the file system

    The file system ([kernel/fs.c]) reads and changes blocks through [bread],
    [bp->data], [log_write] and [brelse], between [begin_op] and [end_op].  This file
    states that use as an interface with laws: a block has one current contents, a
    buffer is held from [bread] to [brelse], and a change must be given to
    [log_write] before the buffer is released.  [Log] over any cache that satisfies
    [BufCache] provides the interface; the file system is verified against it. *)

From S2P Require Import Prelude BufCache Log.

(** The blocks as the operations see them: their contents, the blocks the current
    transaction has logged, the buffers held with the data in them, the number of
    operations under way and the number of blocks the log can take. *)
Record tview := TView {
  tv_blk : Z -> block;
  tv_log : list Z;
  tv_held : gmap Z (nat * block);
  tv_ops : Z;
  tv_cap : Z
}.

Definition upd_blk (b : Z) (x : block) (f : Z -> block) : Z -> block := fun c => if decide (c = b) then x else f c.

Definition hold (b : Z) (h : nat) (x : block) (v : tview) : tview :=
  TView (tv_blk v) (tv_log v) (<[b := (h, x)]> (tv_held v)) (tv_ops v) (tv_cap v).
Definition unhold (b : Z) (v : tview) : tview :=
  TView (tv_blk v) (tv_log v) (delete b (tv_held v)) (tv_ops v) (tv_cap v).
Definition record (b : Z) (x : block) (v : tview) : tview :=
  TView (upd_blk b x (tv_blk v)) (add_block b (tv_log v)) (tv_held v) (tv_ops v) (tv_cap v).
Definition with_ops (n : Z) (v : tview) : tview :=
  TView (tv_blk v) (tv_log v) (tv_held v) n (tv_cap v).

Class Txn (T : Type) := {
  tinit : Z -> superblock -> M T unit;
  tread : Z -> Z -> M T nat;
  tdata : nat -> T -> block;
  tset : nat -> block -> M T unit;
  tlog : nat -> M T unit;
  trelse : nat -> M T unit;
  tbegin : M T unit;
  tend : M T unit
}.

Class TxnLaws (T : Type) `{Txn T} := {
  txn_rep : T -> tview -> Prop;
  home : Z -> Prop;      (* blocks outside the log *)

  t_nodup : forall t v, txn_rep t v -> NoDup (tv_log v);

  t_read : forall t v b, txn_rep t v -> tv_held v !! b = None -> 0 <= b < 2 ^ 32 ->
    (size (tv_held v) + length (tv_log v) < NBUF)%nat ->
    exists h t', tread ROOTDEV b t = Ret h t' /\ txn_rep t' (hold b h (tv_blk v b) v);

  t_data : forall t v b h x, txn_rep t v -> tv_held v !! b = Some (h, x) -> tdata h t = x;

  t_set : forall t v b h x y, txn_rep t v -> tv_held v !! b = Some (h, x) ->
    exists t', tset h y t = Ret tt t' /\ txn_rep t' (hold b h y v);

  t_log : forall t v b h x, txn_rep t v -> tv_held v !! b = Some (h, x) -> 0 <= b < 2 ^ 32 -> home b ->
    1 <= tv_ops v -> Z.of_nat (length (tv_log v)) < tv_cap v ->
    exists t', tlog h t = Ret tt t' /\ txn_rep t' (record b x v);

  t_relse : forall t v b h, txn_rep t v -> tv_held v !! b = Some (h, tv_blk v b) ->
    exists t', trelse h t = Ret tt t' /\ txn_rep t' (unhold b v);

  t_begin : forall t v, txn_rep t v -> tv_held v = ∅ ->
    if Z.of_nat (length (tv_log v)) + (tv_ops v + 1) * MAXOPBLOCKS >? LOGSIZE
    then exists t', tbegin t = Blocked "log" t' /\ txn_rep t' v
    else exists t', tbegin t = Ret tt t' /\ txn_rep t' (with_ops (tv_ops v + 1) v);

  t_end : forall t v, txn_rep t v -> tv_held v = ∅ -> 1 <= tv_ops v ->
    exists t' v', tend t = Ret tt t' /\ txn_rep t' v' /\ tv_held v' = ∅ /\ tv_ops v' = tv_ops v - 1 /\
      tv_cap v' = tv_cap v /\ tv_log v' = (if decide (tv_ops v = 1) then [] else tv_log v) /\
      forall b, home b -> tv_blk v' b = tv_blk v b
}.

(** ** The log is such a store *)

Section LogTxn.
Context {S : Type} `{BufCacheLaws S}.
Variables start cap : Z.
Hypothesis start_range : 0 <= start /\ start + LOGSIZE < 2 ^ 31.
Hypothesis cap_range : 0 <= cap < LOGSIZE.

#[export] Instance log_txn : Txn (sys S) := {
  tinit dv sb := initlog dv sb;
  tread dv b := sread dv b;
  tdata h s := bdata h (sys_cache s);
  tset h x := sset h x;
  tlog h := log_write h;
  trelse h := srelse h;
  tbegin := begin_op;
  tend := end_op
}.

(** How a block shows in the cache: held or not, pinned by the log or not. *)
Definition shown (d : blocks) (R : gmap Z bref) (v : tview) (b : Z) : Prop :=
  match tv_held v !! b with
  | Some (h, x) =>
    R !! b = Some (BRef h (if decide (b ∈ tv_log v) then 2 else 1) true x) /\
    (b ∉ tv_log v -> tv_blk v b = dread d b)
  | None =>
    if decide (b ∈ tv_log v) then exists h, R !! b = Some (BRef h 1 false (tv_blk v b))
    else R !! b = None /\ tv_blk v b = dread d b
  end.

Record log_rep (s : sys S) (v : tview) : Prop := {
  lr_view : exists cv, at_view s (sys_log s) cv /\ (forall b, shown (cv_disk cv) (cv_refs cv) v b) /\
    length (dread (cv_disk cv) start) = Z.to_nat BSIZE /\ hb_n (dread (cv_disk cv) start) = 0;
  lr_log : log_is start cap (sys_log s) (tv_log v);
  lr_lock : lg_lock (sys_log s) = Free;
  lr_idle : lg_committing (sys_log s) = false;
  lr_size : lg_size (sys_log s) = cap + 1;
  lr_cap : tv_cap v = cap;
  lr_ops : lg_outstanding (sys_log s) = tv_ops v;
  lr_out : 0 <= tv_ops v;
  lr_nodup : NoDup (tv_log v)
}.

Lemma refs_size d R v : NoDup (tv_log v) -> (forall b, shown d R v b) -> (size R <= size (tv_held v) + length (tv_log v))%nat.
Proof.
  intros Hnd Hs. assert (dom R ⊆ dom (tv_held v) ∪ list_to_set (tv_log v)) as Hsub.
  { intros b Hb. apply elem_of_union. apply elem_of_dom in Hb as [r Hr]. specialize (Hs b). unfold shown in Hs.
    destruct (tv_held v !! b) as [[h x]|] eqn:E; [left; apply elem_of_dom; by eexists|].
    right. apply elem_of_list_to_set. case_decide as Hd; [done|]. destruct Hs as [Hs _]. congruence. }
  apply subseteq_size in Hsub. rewrite size_dom in Hsub. etrans; [exact Hsub|].
  rewrite size_union_alt, size_dom.
  assert (size (list_to_set (C := gset Z) (tv_log v) ∖ dom (tv_held v)) <= size (list_to_set (C := gset Z) (tv_log v)))%nat
    by (apply subseteq_size; set_solver).
  rewrite size_list_to_set in H1 by done. lia.
Qed.

(** The buffers change, the log structure and the device stay. *)
Lemma log_rep_refs s s' cv R v v' :
  log_rep s v -> at_view s (sys_log s) cv -> at_view s' (sys_log s) (CView (cv_disk cv) (cv_writes cv) R) ->
  (forall b, shown (cv_disk cv) R v' b) ->
  length (dread (cv_disk cv) start) = Z.to_nat BSIZE -> hb_n (dread (cv_disk cv) start) = 0 ->
  tv_log v' = tv_log v -> tv_ops v' = tv_ops v -> tv_cap v' = tv_cap v -> log_rep s' v'.
Proof.
  intros [_ H2 H3 H4 H5 H6 H7 H8 H9] _ [Hg Hr] Hs Hh1 Hh2 E1 E2 E3. rewrite <- Hg in *.
  split; rewrite ?E1, ?E2, ?E3; try done. exists (CView (cv_disk cv) (cv_writes cv) R). split_and!; done.
Qed.

Lemma shown_ne d R R' v v' c :
  shown d R v c -> R' !! c = R !! c -> tv_held v' !! c = tv_held v !! c -> tv_blk v' c = tv_blk v c ->
  (c ∈ tv_log v' <-> c ∈ tv_log v) -> shown d R' v' c.
Proof.
  unfold shown. intros Hs -> -> -> Hl. destruct (tv_held v !! c) as [[h x]|].
  - destruct Hs as [-> Hs2]. split; [|tauto]. repeat case_decide; tauto.
  - repeat case_decide; tauto.
Qed.

Lemma log_t_read s v b : log_rep s v -> tv_held v !! b = None -> 0 <= b < 2 ^ 32 ->
  (size (tv_held v) + length (tv_log v) < NBUF)%nat ->
  exists h s', sread ROOTDEV b s = Ret h s' /\ log_rep s' (hold b h (tv_blk v b) v).
Proof.
  intros Hrep Hh Hb Hsz. destruct (lr_view _ _ Hrep) as (cv & Hv & Hs & Hh1 & Hh2).
  pose proof (Hs b) as Hsb. unfold shown in Hsb. rewrite Hh in Hsb.
  assert (wp (sread ROOTDEV b) (fun h s' => at_view s' (sys_log s)
    (set_refs <[b := BRef h (if decide (b ∈ tv_log v) then 2 else 1) true (tv_blk v b)]> cv)) s) as Hwp.
  { case_decide as Hd.
    - destruct Hsb as [h Hr]. eapply (r_read_hit _ _ _ b); [exact Hv | exact Hr | done | simpl; lia | done | done].
    - destruct Hsb as [Hr Hd']. eapply (r_read_miss _ _ _ b); [exact Hv | exact Hr | | done | ].
      + pose proof (refs_size _ _ _ (lr_nodup _ _ Hrep) Hs). lia.
      + intros h s' Hv'. by rewrite <- Hd' in Hv'. }
  apply wp_elim in Hwp as (h & s' & He & Hv'). exists h, s'. split; [done|].
  eapply log_rep_refs; [exact Hrep | exact Hv | exact Hv' | | done..].
  intros c. destruct (decide (c = b)) as [->|Hne].
  - unfold shown. simpl. rewrite !lookup_insert_eq. split; [done|]. intros Hn. rewrite decide_False in Hsb by done. apply Hsb.
  - eapply shown_ne; [apply Hs | simpl; by rewrite lookup_insert_ne..|done | done].
Qed.

Lemma log_t_data s v b h x : log_rep s v -> tv_held v !! b = Some (h, x) -> bdata h (sys_cache s) = x.
Proof.
  intros Hrep Hh. destruct (lr_view _ _ Hrep) as (cv & [_ Hv] & Hs & _). specialize (Hs b). unfold shown in Hs. rewrite Hh in Hs.
  destruct Hs as [Hr _]. by apply (bdata_law _ _ _ _ Hv Hr).
Qed.

Lemma log_t_set s v b h x y : log_rep s v -> tv_held v !! b = Some (h, x) ->
  exists s', sset h y s = Ret tt s' /\ log_rep s' (hold b h y v).
Proof.
  intros Hrep Hh. destruct (lr_view _ _ Hrep) as (cv & Hv & Hs & Hh1 & Hh2).
  pose proof (Hs b) as Hsb. unfold shown in Hsb. rewrite Hh in Hsb. destruct Hsb as [Hr Hd].
  assert (wp (sset h y) (fun _ s' => at_view s' (sys_log s)
    (set_refs <[b := BRef h (if decide (b ∈ tv_log v) then 2 else 1) true y]> cv)) s) as Hwp.
  { eapply (r_set _ _ _ b); [exact Hv | exact Hr | done..]. }
  apply wp_elim in Hwp as ([] & s' & He & Hv'). exists s'. split; [done|].
  eapply log_rep_refs; [exact Hrep | exact Hv | exact Hv' | | done..].
  intros c. destruct (decide (c = b)) as [->|Hne].
  - unfold shown. simpl. rewrite !lookup_insert_eq. done.
  - eapply shown_ne; [apply Hs | simpl; by rewrite lookup_insert_ne..|done | done].
Qed.

Lemma log_t_log s v b h x : log_rep s v -> tv_held v !! b = Some (h, x) -> 0 <= b < 2 ^ 32 -> ~ in_log start cap b ->
  1 <= tv_ops v -> Z.of_nat (length (tv_log v)) < tv_cap v ->
  exists s', log_write h s = Ret tt s' /\ log_rep s' (record b x v).
Proof.
  intros Hrep Hh Hb Hhome Ho Hcap. destruct (lr_view _ _ Hrep) as (cv & Hv & Hs & Hh1 & Hh2).
  pose proof (Hs b) as Hsb. unfold shown in Hsb. rewrite Hh in Hsb. destruct Hsb as [Hr Hd].
  assert (wp (log_write h) (fun _ s' => exists hd, log_is start cap (set_lh hd (sys_log s)) (add_block b (tv_log v)) /\
    at_view s' (set_lh hd (sys_log s)) (set_refs <[b := BRef h 2 true x]> cv)) s) as Hwp.
  { destruct Hrep as [_ H2 H3 H4 H5 H6 H7 H8 H9].
    eapply (log_write_spec start cap cap_range s _ cv (tv_log v) b); [exact Hv | done..|lia|lia|lia|done|done|exact Hr|done| |].
    { simpl. case_decide; lia. }
    intros s' hd bl' Hli Hv'. exists hd. unfold add_block. split; [exact Hli|]. simpl in Hv'.
    destruct (decide (b ∈ tv_log v)); [|exact Hv'].
    replace (set_refs <[b := BRef h 2 true x]> cv) with cv; [done|]. unfold set_refs. rewrite insert_id by done. by destruct cv. }
  apply wp_elim in Hwp as ([] & s' & He & hd & Hli & [Hg Hv']). exists s'. split; [done|].
  destruct Hrep as [_ H2 H3 H4 H5 H6 H7 H8 H9].
  split; rewrite ?Hg; simpl; try done.
  - eexists. split; [split; [exact Hg | exact Hv']|]. split_and!; try done. intros c. simpl.
    destruct (decide (c = b)) as [->|Hne].
    + unfold shown. simpl. rewrite Hh, lookup_insert_eq. assert (b ∈ add_block b (tv_log v)) as Hin.
      { unfold add_block. case_decide; [done|]. apply elem_of_app. right. by apply list_elem_of_singleton. }
      rewrite decide_True by done. split; [done|]. by intros [].
    + eapply shown_ne; [apply Hs | by rewrite lookup_insert_ne | done | simpl; unfold upd_blk; by rewrite decide_False |].
      simpl. unfold add_block. case_decide; [done|]. rewrite elem_of_app, list_elem_of_singleton. tauto.
  - unfold add_block. case_decide; [done|]. apply NoDup_app. split_and!; [done | | apply NoDup_singleton].
    intros c Hc Hc'. apply list_elem_of_singleton in Hc' as ->. done.
Qed.

Lemma log_t_relse s v b h : log_rep s v -> tv_held v !! b = Some (h, tv_blk v b) ->
  exists s', srelse h s = Ret tt s' /\ log_rep s' (unhold b v).
Proof.
  intros Hrep Hh. destruct (lr_view _ _ Hrep) as (cv & Hv & Hs & Hh1 & Hh2).
  pose proof (Hs b) as Hsb. unfold shown in Hsb. rewrite Hh in Hsb. destruct Hsb as [Hr Hd].
  assert (wp (srelse h) (fun _ s' => at_view s' (sys_log s)
    (set_refs (if decide (b ∈ tv_log v) then <[b := BRef h 1 false (tv_blk v b)]> else delete b) cv)) s) as Hwp.
  { destruct (decide (b ∈ tv_log v)) as [Hin|Hin].
    - eapply (r_relse_more _ _ _ b); [exact Hv | exact Hr | done | done | simpl; lia | done].
    - eapply (r_relse_last _ _ _ b); [exact Hv | exact Hr | done | done | done | simpl; by apply Hd | done]. }
  apply wp_elim in Hwp as ([] & s' & He & Hv'). exists s'. split; [done|].
  eapply log_rep_refs; [exact Hrep | exact Hv | exact Hv' | | done..].
  intros c. destruct (decide (c = b)) as [->|Hne].
  - unfold shown. simpl. rewrite lookup_delete_eq. case_decide; simpl.
    + eexists. by rewrite lookup_insert_eq.
    + rewrite lookup_delete_eq. split; [done | by apply Hd].
  - eapply shown_ne; [apply Hs | | simpl; by rewrite lookup_delete_ne | done | done].
    case_decide; simpl; [by rewrite lookup_insert_ne | by rewrite lookup_delete_ne].
Qed.

(** With no buffer held this is the invariant of [Log]. *)
Lemma log_rep_inv s v : log_rep s v -> tv_held v = ∅ ->
  exists cv, log_inv start cap s (sys_log s) cv (tv_log v) /\ (forall b, content cv b = tv_blk v b).
Proof.
  intros Hrep Hh. destruct (lr_view _ _ Hrep) as (cv & Hv & Hs & Hh1 & Hh2).
  destruct Hrep as [_ H2 H3 H4 H5 H6 H7 H8 H9]. exists cv.
  assert (forall b, if decide (b ∈ tv_log v) then exists h, cv_refs cv !! b = Some (BRef h 1 false (tv_blk v b))
    else cv_refs cv !! b = None /\ tv_blk v b = dread (cv_disk cv) b) as Hs'.
  { intros b. specialize (Hs b). unfold shown in Hs. by rewrite Hh, lookup_empty in Hs. }
  split.
  - split; try done; try lia.
    + intros b Hb. specialize (Hs' b). rewrite decide_True in Hs' by done. destruct Hs' as [h Hr]. by exists h, (tv_blk v b).
    + intros b Hb. specialize (Hs' b). rewrite decide_False in Hs' by done. apply Hs'.
  - intros b. unfold content. specialize (Hs' b). case_decide.
    + destruct Hs' as [h ->]. done.
    + by destruct Hs' as [-> ->].
Qed.

Lemma log_inv_rep s g cv bl : log_inv start cap s g cv bl ->
  log_rep s (TView (content cv) bl ∅ (lg_outstanding g) cap).
Proof.
  intros [[Hg Hv] H2 H3 H4 H5 H7 H8 H9 H10 [H11 H12]]. rewrite <- Hg in *. split; simpl; try done; try lia.
  - exists cv. split_and!; try done. intros b. unfold shown. simpl. rewrite lookup_empty. case_decide as Hd.
    + destruct (H9 b Hd) as (h & x & Hr). exists h. unfold content. by rewrite Hr.
    + unfold content. rewrite (H10 b Hd). done.
Qed.

Lemma log_t_begin s v : log_rep s v -> tv_held v = ∅ ->
  if Z.of_nat (length (tv_log v)) + (tv_ops v + 1) * MAXOPBLOCKS >? LOGSIZE
  then exists s', begin_op s = Blocked "log" s' /\ log_rep s' v
  else exists s', begin_op s = Ret tt s' /\ log_rep s' (with_ops (tv_ops v + 1) v).
Proof.
  intros Hrep Hh. destruct (log_rep_inv _ _ Hrep Hh) as (cv & Hinv & Hc).
  pose proof (begin_op_spec start cap s (sys_log s) cv (tv_log v) Hinv) as Hb. rewrite (lr_ops _ _ Hrep) in Hb.
  destruct (lr_view _ _ Hrep) as (cv0 & Hv0 & Hs0 & Hd1 & Hd2).
  assert (forall s' g cv' ops, log_inv start cap s' g cv' (tv_log v) -> lg_outstanding g = ops ->
    (forall b, content cv' b = tv_blk v b) -> log_rep s' (with_ops ops v)) as Hback.
  { intros s' g cv' ops Hi <- Hcon. pose proof (log_inv_rep _ _ _ _ Hi) as [(c & Hcv & Hcs & Hch) K2 K3 K4 K5 K6 K7 K8 K9].
    split; try done; [|apply Hrep]. exists c. split_and!; try apply Hch; try done. intros b. specialize (Hcs b).
    eapply shown_ne; [exact Hcs | done | simpl; by rewrite Hh | simpl; by rewrite Hcon | done]. }
  destruct (_ >? _).
  - destruct Hb as (s' & He & Hi). exists s'. split; [done|].
    replace v with (with_ops (tv_ops v) v) by (by destruct v). eapply Hback; [exact Hi | apply Hrep | done].
  - destruct Hb as (s' & He & Hi). exists s'. split; [done|]. eapply Hback; [exact Hi | done | done].
Qed.

Lemma log_t_end s v : log_rep s v -> tv_held v = ∅ -> 1 <= tv_ops v ->
  exists s' v', end_op s = Ret tt s' /\ log_rep s' v' /\ tv_held v' = ∅ /\ tv_ops v' = tv_ops v - 1 /\
    tv_cap v' = tv_cap v /\ tv_log v' = (if decide (tv_ops v = 1) then [] else tv_log v) /\
    forall b, ~ in_log start cap b -> tv_blk v' b = tv_blk v b.
Proof.
  intros Hrep Hh Ho. destruct (log_rep_inv _ _ Hrep Hh) as (cv & Hinv & Hc). case_decide as H1.
  - assert (wp end_op (fun _ s' => exists v', log_rep s' v' /\ tv_held v' = ∅ /\ tv_ops v' = tv_ops v - 1 /\
      tv_cap v' = tv_cap v /\ tv_log v' = [] /\ forall b, ~ in_log start cap b -> tv_blk v' b = tv_blk v b) s) as Hwp.
    { eapply (end_op_last start cap start_range cap_range); [exact Hinv | by rewrite (lr_ops _ _ Hrep)|].
      intros s' g' W d' Hi Hz Hsz Hd. eexists. split; [eapply log_inv_rep; exact Hi|].
      simpl. split_and!; [done | lia | symmetry; apply Hrep | done |]. intros b Hb. rewrite <- Hc, <- Hd by done. unfold content. simpl.
      by rewrite lookup_empty. }
    apply wp_elim in Hwp as ([] & s' & He & v' & Hv'). by exists s', v'.
  - destruct (end_op_more start cap s (sys_log s) cv (tv_log v) Hinv) as (s' & He & Hi). { rewrite (lr_ops _ _ Hrep). lia. }
    eexists s', _. split; [done|]. split; [eapply log_inv_rep; exact Hi|]. simpl.
    rewrite (lr_ops _ _ Hrep), (lr_cap _ _ Hrep). split_and!; done.
Qed.

#[export] Instance log_laws : TxnLaws (sys S) := {
  txn_rep := log_rep;
  home b := ~ in_log start cap b;
  t_nodup := fun s v Hrep => lr_nodup s v Hrep;
  t_read := log_t_read;
  t_data := log_t_data;
  t_set := log_t_set;
  t_log := log_t_log;
  t_relse := log_t_relse;
  t_begin := log_t_begin;
  t_end := log_t_end
}.
End LogTxn.
