(* ===== verification/Fs.v ===== *)
(** * Fs: the file system of [kernel/fs.c]

    Blocks, inodes, file contents, directories and path names, over the
    transactional block store [Txn] and the process table and memory of [Proc].  An
    inode pointer is an index of the inode table, [None] is the null pointer; path
    names and file names are lists of bytes without the terminating NUL; a [struct
    dinode], [dirent] or [superblock] is its bytes in a block.

    The bytes of a buffer also lie in memory, at an address that is a parameter
    here: [stage] makes the copy that [either_copyout] and [either_copyin] read and
    write, [unstage] takes it back into the buffer.  The [struct dirent] locals of
    [dirlookup] and [dirlink] are at a parameter address too. *)

From S2P Require Import Prelude CString Riscv Kalloc Vm Sleeplock BufCache Log Txn Proc.

Definition NDIRECT : nat := 12.
Definition NINDIRECT : nat := 256.
Definition MAXFILE : nat := NDIRECT + NINDIRECT.
Definition NINODE : nat := 50.
Definition IPB : Z := 16.
Definition BPB : Z := BSIZE * 8.
Definition DIRSIZ : nat := 14.
Definition ROOTINO : Z := 1.
Definition FSMAGIC : Z := 270544960.     (* 0x10203040 *)
Definition T_DIR : Z := 1.
Definition T_FILE : Z := 2.
Definition T_DEVICE : Z := 3.

Definition i16 (x : Z) : Z := (x + 2 ^ 15) mod 2 ^ 16 - 2 ^ 15.

(** The [uint] and the [short] at byte [off] of a block. *)
Definition get_uint (x : block) (off : nat) : Z := le_join (take 4 (drop off x)).
Definition set_uint (off : nat) (v : Z) (x : block) : block := splice x off (le_split 4 v).
Definition get_short (x : block) (off : nat) : Z := i16 (le_join (take 2 (drop off x))).
Definition set_short (off : nat) (v : Z) (x : block) : block := splice x off (le_split 2 v).

Record inode := Inode {
  i_dev : Z;
  i_inum : Z;
  i_ref : Z;
  i_lock : sleeplock;
  i_valid : bool;
  i_type : Z;
  i_major : Z;
  i_minor : Z;
  i_nlink : Z;
  i_size : Z;
  i_addrs : list Z
}.

Definition seti_dev (v : Z) (i : inode) : inode :=
  Inode v (i_inum i) (i_ref i) (i_lock i) (i_valid i) (i_type i) (i_major i) (i_minor i) (i_nlink
    i) (i_size i) (i_addrs i).
Definition seti_inum (v : Z) (i : inode) : inode :=
  Inode (i_dev i) v (i_ref i) (i_lock i) (i_valid i) (i_type i) (i_major i) (i_minor i) (i_nlink
    i) (i_size i) (i_addrs i).
Definition seti_ref (v : Z) (i : inode) : inode :=
  Inode (i_dev i) (i_inum i) v (i_lock i) (i_valid i) (i_type i) (i_major i) (i_minor i) (i_nlink
    i) (i_size i) (i_addrs i).
Definition seti_lock (v : sleeplock) (i : inode) : inode :=
  Inode (i_dev i) (i_inum i) (i_ref i) v (i_valid i) (i_type i) (i_major i) (i_minor i) (i_nlink
    i) (i_size i) (i_addrs i).
Definition seti_valid (v : bool) (i : inode) : inode :=
  Inode (i_dev i) (i_inum i) (i_ref i) (i_lock i) v (i_type i) (i_major i) (i_minor i) (i_nlink i)
    (i_size i) (i_addrs i).
Definition seti_type (v : Z) (i : inode) : inode :=
  Inode (i_dev i) (i_inum i) (i_ref i) (i_lock i) (i_valid i) v (i_major i) (i_minor i) (i_nlink
    i) (i_size i) (i_addrs i).
Definition seti_major (v : Z) (i : inode) : inode :=
  Inode (i_dev i) (i_inum i) (i_ref i) (i_lock i) (i_valid i) (i_type i) v (i_minor i) (i_nlink i)
    (i_size i) (i_addrs i).
Definition seti_minor (v : Z) (i : inode) : inode :=
  Inode (i_dev i) (i_inum i) (i_ref i) (i_lock i) (i_valid i) (i_type i) (i_major i) v (i_nlink i)
    (i_size i) (i_addrs i).
Definition seti_nlink (v : Z) (i : inode) : inode :=
  Inode (i_dev i) (i_inum i) (i_ref i) (i_lock i) (i_valid i) (i_type i) (i_major i) (i_minor i) v
    (i_size i) (i_addrs i).
Definition seti_size (v : Z) (i : inode) : inode :=
  Inode (i_dev i) (i_inum i) (i_ref i) (i_lock i) (i_valid i) (i_type i) (i_major i) (i_minor i)
    (i_nlink i) v (i_addrs i).
Definition seti_addrs (v : list Z) (i : inode) : inode :=
  Inode (i_dev i) (i_inum i) (i_ref i) (i_lock i) (i_valid i) (i_type i) (i_major i) (i_minor i)
    (i_nlink i) (i_size i) v.

Section Fs.
Context {T : Type} `{Txn T}.
Variable buf_addr : nat -> Z.
Variable de_addr : Z.

Record fsys := FSys {
  f_tx : T;
  f_sb : superblock;
  it_lock : spin;
  it_inode : list inode;
  f_k : kproc
}.

Definition setf_tx (t : T) (s : fsys) : fsys := FSys t (f_sb s) (it_lock s) (it_inode s) (f_k s).
Definition setf_sb (b : superblock) (s : fsys) : fsys := FSys (f_tx s) b (it_lock s) (it_inode s) (f_k s).
Definition setf_lock (l : spin) (s : fsys) : fsys := FSys (f_tx s) (f_sb s) l (it_inode s) (f_k s).
Definition setf_inode (l : list inode) (s : fsys) : fsys := FSys (f_tx s) (f_sb s) (it_lock s) l (f_k s).
Definition setf_k (k : kproc) (s : fsys) : fsys := FSys (f_tx s) (f_sb s) (it_lock s) (it_inode s) k.

Definition txL : lens fsys T := Lens f_tx setf_tx.
Definition fkL : lens fsys kproc := Lens f_k setf_k.
Definition it_lockL : lens fsys spin := Lens it_lock setf_lock.
Definition ino_lockL (ip : nat) : lens fsys sleeplock :=
  Lens (fun s => match it_inode s !! ip with Some i => i_lock i | None => inhabitant end)
       (fun l s => setf_inode (alter (seti_lock l) ip (it_inode s)) s).

(** [ip->field], [ip->field = v]. *)
Definition iget_f {A} (ip : nat) (f : inode -> A) : M fsys A := i ← arr_get it_inode ip; mret (f i).
Definition iupd (ip : nat) (f : inode -> inode) : M fsys unit :=
  i ← arr_get it_inode ip; modify (fun s => setf_inode (<[ip := f i]> (it_inode s)) s).

Definition fbread (dv b : Z) : M fsys nat := zoom txL (tread dv b).
Definition fdata (h : nat) : M fsys block := gets (fun s => tdata h (f_tx s)).
Definition fset (h : nat) (x : block) : M fsys unit := zoom txL (tset h x).
Definition flog_write (h : nat) : M fsys unit := zoom txL (tlog h).
Definition fbrelse (h : nat) : M fsys unit := zoom txL (trelse h).

Definition IBLOCK (i : Z) (sb : superblock) : Z := i / IPB + sb_inodestart sb.
Definition BBLOCK (b : Z) (sb : superblock) : Z := b / BPB + sb_bmapstart sb.

(** The bytes of buffer [h] in memory, and back. *)
Definition stage (h : nat) : M fsys unit :=
  x ← fdata h; zoom fkL (zoom kmL (do_mem (fun m => wrn m (buf_addr h) x))).
Definition unstage (h : nat) : M fsys unit :=
  s ← gets id; fset h (rdn (kmem_mem (km (f_k s))) (buf_addr h) (Z.to_nat BSIZE)).

(** ** Blocks *)

Definition superblock_of (x : block) : superblock :=
  SuperBlock (get_uint x 0) (get_uint x 4) (get_uint x 8) (get_uint x 12)
    (get_uint x 16) (get_uint x 20) (get_uint x 24) (get_uint x 28).

Definition readsb (dv : Z) : M fsys unit :=
  bp ← fbread dv 1;
  x ← fdata bp;
  modify (setf_sb (superblock_of x));;
  fbrelse bp.

Definition fsinit (dv : Z) : M fsys unit :=
  readsb dv;;
  sb ← gets f_sb;
  if negb (sb_magic sb =? FSMAGIC) then panic "invalid file system" else
  zoom txL (tinit dv sb).

Definition bzero (dv bno : Z) : M fsys unit :=
  bp ← fbread dv bno;
  fset bp zero_block;;
  flog_write bp;;
  fbrelse bp.

(** [bp->data[bi/8] & m] with [m = 1 << (bi % 8)], and setting and clearing it. *)
Definition byte_at (x : block) (i : Z) : Z := x !!! Z.to_nat i.
Definition bit_mask (bi : Z) : Z := Z.shiftl 1 (bi mod 8).
Definition bit_clear (x : block) (bi : Z) : bool := Z.land (byte_at x (bi / 8)) (bit_mask bi) =? 0.
Definition set_bit (x : block) (bi : Z) : block :=
  <[Z.to_nat (bi / 8) := u8 (Z.lor (byte_at x (bi / 8)) (bit_mask bi))]> x.
Definition clear_bit (x : block) (bi : Z) : block :=
  <[Z.to_nat (bi / 8) := u8 (Z.land (byte_at x (bi / 8)) (Z.lnot (bit_mask bi)))]> x.

(** The blocks [b, b + 1, ..] covered by one bitmap block. *)
Definition balloc_scan (dv b : Z) (bp : nat) (n : nat) : M fsys (option Z) :=
  for_each (seq 0 n) (fun bi =>
    let bi := Z.of_nat bi in
    x ← fdata bp;
    if bit_clear x bi then
      fset bp (set_bit x bi);;
      flog_write bp;;
      fbrelse bp;;
      bzero dv (b + bi);;
      mret (Some (b + bi))
    else mret None).

Fixpoint balloc_loop (fuel : nat) (dv b : Z) : M fsys Z :=
  match fuel with
  | O => fun _ => NoFuel
  | S fuel =>
    sb ← gets f_sb;
    if b <? sb_size sb then
      bp ← fbread dv (BBLOCK b sb);
      r ← balloc_scan dv b bp (Z.to_nat (Z.min BPB (sb_size sb - b)));
      match r with
      | Some v => mret v
      | None => fbrelse bp;; balloc_loop fuel dv (b + BPB)
      end
    else mret 0
  end.

(** One round per bitmap block and a last test. *)
Definition balloc (dv : Z) : M fsys Z :=
  sb ← gets f_sb;
  balloc_loop (S (S (Z.to_nat (sb_size sb / BPB)))) dv 0.

Definition bfree (dv b : Z) : M fsys unit :=
  sb ← gets f_sb;
  bp ← fbread dv (BBLOCK b sb);
  let bi := b mod BPB in
  x ← fdata bp;
  if bit_clear x bi then panic "freeing free block" else
  fset bp (clear_bit x bi);;
  flog_write bp;;
  fbrelse bp.

(** ** Inodes *)

(** [struct dinode], 64 bytes: offsets of the fields in the block. *)
Definition di_base (inum : Z) : nat := 64 * Z.to_nat (inum mod IPB).
Definition di_type (x : block) (o : nat) : Z := get_short x o.
Definition put_dinode (o : nat) (i : inode) (x : block) : block :=
  let x := set_short o (i_type i) x in
  let x := set_short (o + 2) (i_major i) x in
  let x := set_short (o + 4) (i_minor i) x in
  let x := set_short (o + 6) (i_nlink i) x in
  let x := set_uint (o + 8) (i_size i) x in
  splice x (o + 12) (concat (le_split 4 <$> i_addrs i)).
Definition get_dinode (o : nat) (x : block) (i : inode) : inode :=
  seti_addrs ((fun j => get_uint x (o + 12 + 4 * j)) <$> seq 0 (S NDIRECT))
    (seti_size (get_uint x (o + 8)) (seti_nlink (get_short x (o + 6)) (seti_minor (get_short x (o + 4))
      (seti_major (get_short x (o + 2)) (seti_type (get_short x o) i))))).
Definition new_dinode (o : nat) (type : Z) (x : block) : block :=
  set_short o type (splice x o (replicate 64 0)).

Definition iinit : M fsys unit :=
  modify (setf_lock Free);;
  for_each (R := unit) (seq 0 NINODE) (fun i =>
    zoom (ino_lockL i) initsleeplock;;
    mret None);;
  mret tt.

(** What the search of [iget] does with an entry. *)
Fixpoint iget_scan (dv inum : Z) (l : list inode) (ip : nat) (empty : option nat) : nat + option nat :=
  match l with
  | [] => inr empty
  | i :: l =>
    if (0 <? i_ref i) && (i_dev i =? dv) && (i_inum i =? inum) then inl ip
    else iget_scan dv inum l (S ip) (match empty with
                                     | None => if i_ref i =? 0 then Some ip else None
                                     | Some e => Some e end)
  end.

Definition iget (dv inum : Z) : M fsys nat :=
  acquire it_lockL;;
  l ← gets it_inode;
  match iget_scan dv inum l 0 None with
  | inl ip =>
    iupd ip (fun i => seti_ref (i_ref i + 1) i);;
    release it_lockL;;
    mret ip
  | inr None => panic "iget: no inodes"
  | inr (Some ip) =>
    iupd ip (seti_dev dv);;
    iupd ip (seti_inum inum);;
    iupd ip (seti_ref 1);;
    iupd ip (seti_valid false);;
    release it_lockL;;
    mret ip
  end.

Definition ialloc (dv type : Z) : M fsys (option nat) :=
  sb ← gets f_sb;
  r ← for_each (seq 1 (Z.to_nat (sb_ninodes sb) - 1)) (fun inum =>
    let inum := Z.of_nat inum in
    bp ← fbread dv (IBLOCK inum sb);
    x ← fdata bp;
    if di_type x (di_base inum) =? 0 then
      fset bp (new_dinode (di_base inum) type x);;
      flog_write bp;;
      fbrelse bp;;
      ip ← iget dv inum;
      mret (Some ip)
    else
      fbrelse bp;;
      mret None);
  mret r.

Definition iupdate (ip : nat) : M fsys unit :=
  sb ← gets f_sb;
  i ← iget_f ip id;
  bp ← fbread (i_dev i) (IBLOCK (i_inum i) sb);
  x ← fdata bp;
  fset bp (put_dinode (di_base (i_inum i)) i x);;
  flog_write bp;;
  fbrelse bp.

Definition idup (ip : nat) : M fsys nat :=
  acquire it_lockL;;
  iupd ip (fun i => seti_ref (i_ref i + 1) i);;
  release it_lockL;;
  mret ip.

(** [myproc()->pid] *)
Definition mypid : M fsys Z := zoom fkL (p ← me; pget p p_pid).

Definition ilock (ip : option nat) : M fsys unit :=
  match ip with
  | None => panic "ilock"
  | Some ip =>
    ref ← iget_f ip i_ref;
    if ref <? 1 then panic "ilock" else
    pid ← mypid;
    zoom (ino_lockL ip) (acquiresleep pid);;
    valid ← iget_f ip i_valid;
    if (valid : bool) then mret tt else
    sb ← gets f_sb;
    i ← iget_f ip id;
    bp ← fbread (i_dev i) (IBLOCK (i_inum i) sb);
    x ← fdata bp;
    iupd ip (get_dinode (di_base (i_inum i)) x);;
    fbrelse bp;;
    iupd ip (seti_valid true);;
    type ← iget_f ip i_type;
    if type =? 0 then panic "ilock: no type" else mret tt
  end.

Definition iunlock (ip : option nat) : M fsys unit :=
  match ip with
  | None => panic "iunlock"
  | Some ip =>
    pid ← mypid;
    h ← zoom (ino_lockL ip) (holdingsleep pid);
    if negb (h : bool) then panic "iunlock" else
    ref ← iget_f ip i_ref;
    if ref <? 1 then panic "iunlock" else
    zoom (ino_lockL ip) releasesleep
  end.

(** [for(i = 0; i < NDIRECT; i++)] *)
Definition itrunc_direct (ip : nat) : M fsys unit :=
  for_each (R := unit) (seq 0 NDIRECT) (fun i =>
    ino ← iget_f ip id;
    let a := i_addrs ino !!! i in
    when (negb (a =? 0)) (
      bfree (i_dev ino) a;;
      iupd ip (fun ino => seti_addrs (<[i := 0]> (i_addrs ino)) ino));;
    mret None);;
  mret tt.

Definition itrunc (ip : nat) : M fsys unit :=
  itrunc_direct ip;;
  ino ← iget_f ip id;
  let ind := i_addrs ino !!! NDIRECT in
  when (negb (ind =? 0)) (
    bp ← fbread (i_dev ino) ind;
    for_each (R := unit) (seq 0 NINDIRECT) (fun j =>
      x ← fdata bp;
      when (negb (get_uint x (4 * j) =? 0)) (bfree (i_dev ino) (get_uint x (4 * j)));;
      mret None);;
    fbrelse bp;;
    bfree (i_dev ino) ind;;
    iupd ip (fun ino => seti_addrs (<[NDIRECT := 0]> (i_addrs ino)) ino));;
  iupd ip (seti_size 0);;
  iupdate ip.

Definition iput (ip : nat) : M fsys unit :=
  acquire it_lockL;;
  i ← iget_f ip id;
  when ((i_ref i =? 1) && i_valid i && (i_nlink i =? 0)) (
    pid ← mypid;
    zoom (ino_lockL ip) (acquiresleep pid);;
    release it_lockL;;
    itrunc ip;;
    iupd ip (seti_type 0);;
    iupdate ip;;
    iupd ip (seti_valid false);;
    zoom (ino_lockL ip) releasesleep;;
    acquire it_lockL);;
  iupd ip (fun i => seti_ref (i_ref i - 1) i);;
  release it_lockL.

Definition iunlockput (ip : nat) : M fsys unit :=
  iunlock (Some ip);;
  iput ip.

(** ** File contents *)

Definition bmap (ip : nat) (bn : Z) : M fsys Z :=
  ino ← iget_f ip id;
  if bn <? Z.of_nat NDIRECT then
    let i := Z.to_nat bn in
    let addr := i_addrs ino !!! i in
    if addr =? 0 then
      addr ← balloc (i_dev ino);
      if addr =? 0 then mret 0 else
      iupd ip (fun ino => seti_addrs (<[i := addr]> (i_addrs ino)) ino);;
      mret addr
    else mret addr
  else
  let bn := bn - Z.of_nat NDIRECT in
  if bn <? Z.of_nat NINDIRECT then
    let ind := i_addrs ino !!! NDIRECT in
    addr ← (if ind =? 0 then
              addr ← balloc (i_dev ino);
              when (negb (addr =? 0)) (iupd ip (fun ino => seti_addrs (<[NDIRECT := addr]> (i_addrs ino)) ino));;
              mret addr
            else mret ind);
    if addr =? 0 then mret 0 else
    bp ← fbread (i_dev ino) addr;
    x ← fdata bp;
    let o := (4 * Z.to_nat bn)%nat in
    addr ← (if get_uint x o =? 0 then
              addr ← balloc (i_dev ino);
              when (negb (addr =? 0)) (
                x ← fdata bp;
                fset bp (set_uint o addr x);;
                flog_write bp);;
              mret addr
            else mret (get_uint x o));
    fbrelse bp;;
    mret addr
  else panic "bmap: out of range".

(** [struct stat]: its fields. *)
Record stat := Stat { st_dev : Z; st_ino : Z; st_type : Z; st_nlink : Z; st_size : Z }.

Definition stati (ip : nat) : M fsys stat :=
  i ← iget_f ip id;
  mret (Stat (i_dev i) (i_inum i) (i_type i) (i_nlink i) (i_size i)).

Fixpoint readi_loop (fuel : nat) (ip : nat) (user_dst : bool) (dst off n tot : Z) : M fsys Z :=
  match fuel with
  | O => fun _ => NoFuel
  | S fuel =>
    if tot <? n then
      addr ← bmap ip (off / BSIZE);
      if addr =? 0 then mret tot else
      dv ← iget_f ip i_dev;
      bp ← fbread dv addr;
      let m := Z.min (n - tot) (BSIZE - off mod BSIZE) in
      stage bp;;
      r ← zoom fkL (either_copyout user_dst dst (buf_addr bp + off mod BSIZE) m);
      if r =? -1 then
        fbrelse bp;;
        mret (-1)
      else
        fbrelse bp;;
        readi_loop fuel ip user_dst (u64 (dst + m)) (u32 (off + m)) n (tot + m)
    else mret tot
  end.

(** At most one round per block of the range and two partial ones. *)
Definition io_rounds (n : Z) : nat := S (S (S (Z.to_nat (n / BSIZE)))).

Definition readi (ip : nat) (user_dst : bool) (dst off n : Z) : M fsys Z :=
  size ← iget_f ip i_size;
  if (size <? off) || (u32 (off + n) <? off) then mret 0 else
  let n := if size <? u32 (off + n) then size - off else n in
  readi_loop (io_rounds n) ip user_dst dst off n 0.

(** The loop of [writei]: the final [tot] and [off]. *)
Fixpoint writei_loop (fuel : nat) (ip : nat) (user_src : bool) (src off n tot : Z) : M fsys (Z * Z) :=
  match fuel with
  | O => fun _ => NoFuel
  | S fuel =>
    if tot <? n then
      addr ← bmap ip (off / BSIZE);
      if addr =? 0 then mret (tot, off) else
      dv ← iget_f ip i_dev;
      bp ← fbread dv addr;
      let m := Z.min (n - tot) (BSIZE - off mod BSIZE) in
      stage bp;;
      r ← zoom fkL (either_copyin (buf_addr bp + off mod BSIZE) user_src src m);
      unstage bp;;
      if r =? -1 then
        fbrelse bp;;
        mret (tot, off)
      else
        flog_write bp;;
        fbrelse bp;;
        writei_loop fuel ip user_src (u64 (src + m)) (u32 (off + m)) n (tot + m)
    else mret (tot, off)
  end.

Definition writei (ip : nat) (user_src : bool) (src off n : Z) : M fsys Z :=
  size ← iget_f ip i_size;
  if (size <? off) || (u32 (off + n) <? off) then mret (-1) else
  if Z.of_nat MAXFILE * BSIZE <? u32 (off + n) then mret (-1) else
  '(tot, off) ← writei_loop (io_rounds n) ip user_src src off n 0;
  size ← iget_f ip i_size;
  when (size <? off) (iupd ip (seti_size off));;
  iupdate ip;;
  mret tot.

(** ** Directories *)

(** [strncmp] on strings given as their bytes. *)
Fixpoint strncmp_l (n : nat) (p q : list Z) : Z :=
  match n with
  | O => 0
  | S n =>
    let a := default 0 (head p) in
    let b := default 0 (head q) in
    if negb (a =? 0) && (a =? b) then strncmp_l n (tail p) (tail q) else a - b
  end.

Definition namecmp (s t : list Z) : Z := strncmp_l DIRSIZ s t.

(** [strncpy] of a string into a zero-filled field of [n] bytes. *)
Definition strncpy_l (n : nat) (s : list Z) : list Z := take n s ++ replicate (n - length s) 0.

(** [struct dirent]: [ushort inum; char name[DIRSIZ]]. *)
Definition sizeof_dirent : Z := 16.
Definition get_mem {A} (f : mem -> A) : M fsys A := gets (fun s => f (kmem_mem (km (f_k s)))).
Definition de_inum : M fsys Z := get_mem (fun m => le_join (rdn m de_addr 2)).
Definition de_name : M fsys (list Z) := get_mem (fun m => rdn m (de_addr + 2) DIRSIZ).
Definition set_de (inum : Z) (name : list Z) : M fsys unit :=
  zoom fkL (zoom kmL (do_mem (fun m => wrn m de_addr (le_split 2 inum ++ strncpy_l DIRSIZ name)))).

(** [readi(dp, 0, (uint64)&de, off, sizeof(de)) != sizeof(de)] *)
Definition read_de (dp : nat) (off : Z) : M fsys bool :=
  r ← readi dp false de_addr off sizeof_dirent;
  mret (negb (r =? sizeof_dirent)).

(** The entry found: the inode and [*poff]. *)
Fixpoint dirlookup_loop (fuel : nat) (dp : nat) (name : list Z) (off : Z) : M fsys (option (nat * Z)) :=
  match fuel with
  | O => fun _ => NoFuel
  | S fuel =>
    size ← iget_f dp i_size;
    if off <? size then
      bad ← read_de dp off;
      if (bad : bool) then panic "dirlookup read" else
      inum ← de_inum;
      if inum =? 0 then dirlookup_loop fuel dp name (u32 (off + sizeof_dirent)) else
      dname ← de_name;
      if namecmp name dname =? 0 then
        dv ← iget_f dp i_dev;
        ip ← iget dv inum;
        mret (Some (ip, off))
      else dirlookup_loop fuel dp name (u32 (off + sizeof_dirent))
    else mret None
  end.

(** One round per entry and a last test. *)
Definition dir_rounds (size : Z) : nat := S (S (Z.to_nat (size / sizeof_dirent))).

Definition dirlookup (dp : nat) (name : list Z) : M fsys (option (nat * Z)) :=
  type ← iget_f dp i_type;
  if negb (type =? T_DIR) then panic "dirlookup not DIR" else
  size ← iget_f dp i_size;
  dirlookup_loop (dir_rounds size) dp name 0.

(** The search for an empty entry: where it ends. *)
Fixpoint dirlink_scan (fuel : nat) (dp : nat) (off : Z) : M fsys Z :=
  match fuel with
  | O => fun _ => NoFuel
  | S fuel =>
    size ← iget_f dp i_size;
    if off <? size then
      bad ← read_de dp off;
      if (bad : bool) then panic "dirlink read" else
      inum ← de_inum;
      if inum =? 0 then mret off else dirlink_scan fuel dp (off + sizeof_dirent)
    else mret off
  end.

Definition dirlink (dp : nat) (name : list Z) (inum : Z) : M fsys Z :=
  found ← dirlookup dp name;
  match found with
  | Some (ip, _) => iput ip;; mret (-1)
  | None =>
    size ← iget_f dp i_size;
    off ← dirlink_scan (dir_rounds size) dp 0;
    set_de inum name;;
    r ← writei dp false de_addr off sizeof_dirent;
    if negb (r =? sizeof_dirent) then mret (-1) else mret 0
  end.

(** ** Paths *)

Definition SLASH : Z := 47.

(** [while( *path == '/') path++;] and the loop over the element. *)
Fixpoint skip_slashes (path : list Z) : list Z :=
  match path with
  | c :: path' => if c =? SLASH then skip_slashes path' else path
  | [] => []
  end.
Fixpoint span_elem (path : list Z) : list Z * list Z :=
  match path with
  | c :: path' =>
    if c =? SLASH then ([], path)
    else let '(e, rest) := span_elem path' in (c :: e, rest)
  | [] => ([], [])
  end.

(** The rest of the path and the name, of which at most [DIRSIZ] bytes are kept. *)
Definition skipelem (path : list Z) : option (list Z * list Z) :=
  match skip_slashes path with
  | [] => None
  | s =>
    let '(e, rest) := span_elem s in
    Some (skip_slashes rest, if decide (DIRSIZ <= length e)%nat then take DIRSIZ e else e)
  end.

(** The loop of [namex] from inode [ip]. *)
Fixpoint namex_loop (fuel : nat) (ip : nat) (path : list Z) (nameiparent : bool) (name : list Z)
    : M fsys (option (nat * list Z)) :=
  match fuel with
  | O => fun _ => NoFuel
  | S fuel =>
    match skipelem path with
    | None =>
      if nameiparent then iput ip;; mret None else mret (Some (ip, name))
    | Some (path, name) =>
      ilock (Some ip);;
      type ← iget_f ip i_type;
      if negb (type =? T_DIR) then
        iunlockput ip;; mret None
      else if nameiparent && bool_decide (path = []) then
        iunlock (Some ip);; mret (Some (ip, name))
      else
        next ← dirlookup ip name;
        match next with
        | None => iunlockput ip;; mret None
        | Some (next, _) =>
          iunlockput ip;;
          namex_loop fuel next path nameiparent name
        end
    end
  end.

(** A path has at most as many elements as bytes. *)
Definition namex (path : list Z) (nameiparent : bool) : M fsys (option (nat * list Z)) :=
  ip ← (if bool_decide (head path = Some SLASH) then iget ROOTDEV ROOTINO
        else
          cwd ← zoom fkL (p ← me; pget p p_cwd);
          match cwd with Some d => idup d | None => undefined end);
  namex_loop (S (length path)) ip path nameiparent [].

Definition namei (path : list Z) : M fsys (option nat) :=
  r ← namex path false;
  mret (fst <$> r).

Definition nameiparent (path : list Z) : M fsys (option (nat * list Z)) := namex path true.
End Fs.
Arguments fsys T : clear implicits.
