(* ===== verification/FsBlocks.v ===== *)
(** * FsBlocks: the block allocator of [kernel/fs.c]

    The rules for one buffer at a time, the bitmap as a set of blocks, and what
    [bzero], [balloc] and [bfree] do to the contents of the blocks.  The file system
    fits in one bitmap block, as [mkfs] makes it. *)

From S2P Require Import Prelude CString Riscv Kalloc Vm Sleeplock BufCache Log Txn Proc Fs.

(** ** Bits of the bitmap *)

Lemma mask_pow bi : bit_mask bi = 2 ^ (bi mod 8).
Proof. unfold bit_mask. rewrite Z.shiftl_mul_pow2; [lia|]. apply Z.mod_pos_bound. lia. Qed.

Lemma bit_clear_spec x bi : bit_clear x bi = negb (Z.testbit (byte_at x (bi / 8)) (bi mod 8)).
Proof.
  unfold bit_clear. rewrite mask_pow. pose proof (Z.mod_pos_bound bi 8 ltac:(lia)) as Hm.
  destruct (Z.testbit (byte_at x (bi / 8)) (bi mod 8)) eqn:E; simpl.
  - apply Z.eqb_neq. intros E0. assert (Z.testbit (Z.land (byte_at x (bi / 8)) (2 ^ (bi mod 8))) (bi mod 8) = true) as H.
    { rewrite Z.land_spec, E, Z.pow2_bits_true by lia. done. }
    by rewrite E0, Z.bits_0 in H.
  - apply Z.eqb_eq. apply Z.bits_inj'. intros n Hn. rewrite Z.land_spec, Z.bits_0.
    destruct (decide (n = bi mod 8)) as [->|Hne]; [by rewrite E|]. rewrite Z.pow2_bits_false by lia. apply andb_false_r.
Qed.

Lemma u8_bits x n : 0 <= n < 8 -> Z.testbit (u8 x) n = Z.testbit x n.
Proof. intros Hn. unfold u8. by rewrite Z.mod_pow2_bits_low by lia. Qed.

Lemma byte_at_insert x i j v : 0 <= i -> 0 <= j -> (Z.to_nat i < length x)%nat ->
  byte_at (<[Z.to_nat i := v]> x) j = if decide (i = j) then v else byte_at x j.
Proof.
  intros Hi Hj Hlt. unfold byte_at. destruct (decide (i = j)) as [->|Hne].
  - by apply list_lookup_total_insert_eq.
  - apply list_lookup_total_insert_ne. lia.
Qed.

Lemma bit_index bi bj : 0 <= bi -> 0 <= bj -> bi <> bj -> bi / 8 = bj / 8 -> bi mod 8 <> bj mod 8.
Proof. intros. intros E. apply H1. rewrite (Z.div_mod bi 8), (Z.div_mod bj 8) by lia. lia. Qed.

Lemma bit_clear_set x bi bj : 0 <= bi -> 0 <= bj -> (Z.to_nat (bi / 8) < length x)%nat ->
  bit_clear (set_bit x bi) bj = if decide (bi = bj) then false else bit_clear x bj.
Proof.
  intros Hi Hj Hlt. rewrite !bit_clear_spec. unfold set_bit.
  pose proof (Z.mod_pos_bound bj 8 ltac:(lia)). pose proof (Z.mod_pos_bound bi 8 ltac:(lia)).
  rewrite byte_at_insert by (done || apply Z.div_pos; lia).
  destruct (decide (bi / 8 = bj / 8)) as [E|E].
  - rewrite u8_bits, Z.lor_spec, mask_pow by lia. destruct (decide (bi = bj)) as [->|Hne].
    + rewrite Z.pow2_bits_true by lia. by rewrite orb_true_r.
    + rewrite Z.pow2_bits_false by (by apply bit_index). by rewrite orb_false_r, E.
  - rewrite decide_False by (by intros ->). done.
Qed.

Lemma bit_clear_clear x bi bj : 0 <= bi -> 0 <= bj -> (Z.to_nat (bi / 8) < length x)%nat ->
  bit_clear (clear_bit x bi) bj = if decide (bi = bj) then true else bit_clear x bj.
Proof.
  intros Hi Hj Hlt. rewrite !bit_clear_spec. unfold clear_bit.
  pose proof (Z.mod_pos_bound bj 8 ltac:(lia)). pose proof (Z.mod_pos_bound bi 8 ltac:(lia)).
  rewrite byte_at_insert by (done || apply Z.div_pos; lia).
  destruct (decide (bi / 8 = bj / 8)) as [E|E].
  - rewrite u8_bits, Z.land_spec, Z.lnot_spec, mask_pow by lia. destruct (decide (bi = bj)) as [->|Hne].
    + rewrite Z.pow2_bits_true by lia. by rewrite andb_false_r.
    + rewrite Z.pow2_bits_false by (by apply bit_index). by rewrite andb_true_r, E.
  - rewrite decide_False by (by intros ->). done.
Qed.

(** ** One buffer at a time *)

Section Steps.
Context {T : Type} `{TxnLaws T}.
Context (sb : superblock) (lk : spin) (il : list inode) (k : kproc).

Abbreviation st t := (FSys t sb lk il k).

Lemma k_read t v b : txn_rep t v -> tv_held v !! b = None -> 0 <= b < 2 ^ 32 ->
  (size (tv_held v) + length (tv_log v) < NBUF)%nat ->
  exists h t', fbread ROOTDEV b (st t) = Ret h (st t') /\ txn_rep t' (hold b h (tv_blk v b) v).
Proof.
  intros Hr Hh Hb Hs. destruct (t_read t v b Hr Hh Hb Hs) as (h & t' & He & Hr'). exists h, t'. split; [|done].
  unfold fbread, zoom. simpl. by rewrite He.
Qed.

Lemma k_data t v b h x : txn_rep t v -> tv_held v !! b = Some (h, x) -> fdata h (st t) = Ret x (st t).
Proof. intros Hr Hh. unfold fdata, gets. simpl. by rewrite (t_data t v b h x). Qed.

Lemma k_set t v b h x y : txn_rep t v -> tv_held v !! b = Some (h, x) ->
  exists t', fset h y (st t) = Ret tt (st t') /\ txn_rep t' (hold b h y v).
Proof.
  intros Hr Hh. destruct (t_set t v b h x y Hr Hh) as (t' & He & Hr'). exists t'. split; [|done].
  unfold fset, zoom. simpl. by rewrite He.
Qed.

Lemma k_log t v b h x : txn_rep t v -> tv_held v !! b = Some (h, x) -> 0 <= b < 2 ^ 32 -> home b ->
  1 <= tv_ops v -> Z.of_nat (length (tv_log v)) < tv_cap v ->
  exists t', flog_write h (st t) = Ret tt (st t') /\ txn_rep t' (record b x v).
Proof.
  intros Hr Hh Hb Hhm Ho Hc. destruct (t_log t v b h x Hr Hh Hb Hhm Ho Hc) as (t' & He & Hr'). exists t'. split; [|done].
  unfold flog_write, zoom. simpl. by rewrite He.
Qed.

Lemma k_relse t v b h : txn_rep t v -> tv_held v !! b = Some (h, tv_blk v b) ->
  exists t', fbrelse h (st t) = Ret tt (st t') /\ txn_rep t' (unhold b v).
Proof.
  intros Hr Hh. destruct (t_relse t v b h Hr Hh) as (t' & He & Hr'). exists t'. split; [|done].
  unfold fbrelse, zoom. simpl. by rewrite He.
Qed.

(** The room a routine needs: an operation is under way, the blocks [X] and [n] more
    fit in the log, and the cache has buffers for them. *)
Definition fits (v : tview) (X : gset Z) (n : nat) : Prop :=
  1 <= tv_ops v /\ Z.of_nat (size (list_to_set (tv_log v) ∪ X) + n) < tv_cap v /\ tv_cap v < Z.of_nat NBUF.

Lemma fits_length t v X n : txn_rep t v -> fits v X n -> Z.of_nat (length (tv_log v) + n) < tv_cap v /\ (length (tv_log v) + 1 < NBUF)%nat.
Proof.
  intros Hr (Ho & Hc & Hn). pose proof (t_nodup t v Hr) as Hnd. rewrite <- (size_list_to_set (C := gset Z) _ Hnd).
  assert (size (list_to_set (C := gset Z) (tv_log v)) <= size (list_to_set (tv_log v) ∪ X))%nat by (apply subseteq_size; set_solver).
  lia.
Qed.

Lemma fits_record v X n b x : b ∈ X -> fits v X n -> fits (record b x v) X n.
Proof.
  intros Hb (Ho & Hc & Hn). split_and!; [done | | done]. simpl.
  replace (list_to_set (add_block b (tv_log v)) ∪ X) with (list_to_set (tv_log v) ∪ X); [done|].
  unfold add_block. case_decide; set_solver.
Qed.

Lemma fits_fresh v X n b : fits v X (S n) -> fits v (X ∪ {[b]}) n.
Proof.
  intros (Ho & Hc & Hn). split_and!; [done | | done].
  assert (size (list_to_set (tv_log v) ∪ (X ∪ {[b]})) <= S (size (list_to_set (tv_log v) ∪ X)))%nat; [|lia].
  rewrite union_assoc_L, size_union_alt.
  assert (size ({[b]} ∖ (list_to_set (tv_log v) ∪ X)) <= size ({[b]} : gset Z))%nat as Hs by (apply subseteq_size; set_solver).
  rewrite size_singleton in Hs. lia.
Qed.

Lemma fits_weaken v X Y n m : Y ⊆ X -> (m <= n)%nat -> fits v X n -> fits v Y m.
Proof.
  intros HY Hm (Ho & Hc & Hn). split_and!; [done | | done].
  assert (size (list_to_set (tv_log v) ∪ Y) <= size (list_to_set (tv_log v) ∪ X))%nat by (apply subseteq_size; set_solver). lia.
Qed.

(** Holding a block, logging its new contents and releasing it is a change of the
    contents. *)
Lemma unhold_record b h h' x y v : tv_held v !! b = None -> unhold b (record b y (hold b h y (hold b h' x v))) = record b y v.
Proof.
  intros Hh. unfold unhold, record, hold. simpl. f_equal. rewrite insert_insert_eq. by apply delete_insert_id.
Qed.

Lemma unhold_hold b h x v : tv_held v !! b = None -> unhold b (hold b h x v) = v.
Proof. intros Hh. unfold unhold, hold. simpl. rewrite delete_insert_id by done. by destruct v. Qed.

(** Read a block, change it, log it and release it. *)
Lemma k_change t v b f X n : txn_rep t v -> tv_held v !! b = None -> 0 <= b < 2 ^ 32 -> home b ->
  fits v X n -> (size (tv_held v) <= 1)%nat ->
  exists t', (bp ← fbread ROOTDEV b; x ← fdata bp; fset bp (f x);; flog_write bp;; fbrelse bp) (st t) = Ret tt (st t') /\
    txn_rep t' (record b (f (tv_blk v b)) v).
Proof.
  intros Hr Hh Hb Hhm Hfit Hs. destruct (fits_length t v X n Hr Hfit) as [Hc Hn].
  destruct (k_read t v b Hr Hh Hb) as (h & t1 & He1 & Hr1); [lia|]. erewrite bind_ret by exact He1.
  erewrite bind_ret by (eapply k_data; [exact Hr1 | simpl; by rewrite lookup_insert_eq]).
  destruct (k_set t1 _ b h (tv_blk v b) (f (tv_blk v b)) Hr1) as (t2 & He2 & Hr2); [simpl; by rewrite lookup_insert_eq|].
  erewrite bind_ret by exact He2.
  destruct (k_log t2 _ b h (f (tv_blk v b)) Hr2) as (t3 & He3 & Hr3); try done; [simpl; by rewrite lookup_insert_eq | apply Hfit | simpl; lia |].
  erewrite bind_ret by exact He3.
  destruct (k_relse t3 _ b h Hr3) as (t4 & He4 & Hr4).
  { simpl. rewrite lookup_insert_eq. unfold upd_blk. by rewrite decide_True. }
  exists t4. split; [exact He4|]. by rewrite unhold_record in Hr4.
Qed.
End Steps.

(** ** The layout *)

Record geom {T : Type} `{TxnLaws T} (sb : superblock) : Prop := {
  g_size : 0 < sb_size sb <= BPB;
  g_inode : 1 < sb_inodestart sb;
  g_bmap : sb_inodestart sb + sb_ninodes sb / IPB < sb_bmapstart sb < sb_size sb;
  g_ninodes : 0 < sb_ninodes sb < 2 ^ 16;
  g_home : forall b, sb_inodestart sb <= b < sb_size sb -> home b
}.

(** A block is in use when its bit is set. *)
Definition in_use_blk (sb : superblock) (v : tview) (b : Z) : Prop := bit_clear (tv_blk v (sb_bmapstart sb)) b = false.

Definition blk_ok (v : tview) : Prop := forall b, length (tv_blk v b) = Z.to_nat BSIZE /\ Forall byte_range (tv_blk v b).

(** The blocks before the data area are in use. *)
Definition meta_used (sb : superblock) (v : tview) : Prop :=
  forall b, 0 <= b <= sb_bmapstart sb -> in_use_blk sb v b.

Lemma BSIZE_eq : Z.to_nat BSIZE = 1024%nat.
Proof. done. Qed.

Lemma zero_block_ok : length zero_block = Z.to_nat BSIZE /\ Forall byte_range zero_block.
Proof. split; [done|]. apply Forall_replicate. by vm_compute. Qed.

Lemma byte_at_range x i : Forall byte_range x -> byte_range (byte_at x i).
Proof.
  intros Hx. unfold byte_at. destruct (x !! Z.to_nat i) as [b|] eqn:E.
  - erewrite list_lookup_total_correct by exact E. by eapply Forall_lookup_1.
  - rewrite list_lookup_total_alt, E. by vm_compute.
Qed.

Lemma u8_byte x : byte_range (u8 x).
Proof. apply (u8_range x). Qed.

Lemma set_bit_ok x bi : length x = Z.to_nat BSIZE /\ Forall byte_range x ->
  length (set_bit x bi) = Z.to_nat BSIZE /\ Forall byte_range (set_bit x bi).
Proof. intros [? ?]. unfold set_bit. rewrite length_insert. split; [done|]. apply Forall_insert; [done | apply u8_byte]. Qed.
Lemma clear_bit_ok x bi : length x = Z.to_nat BSIZE /\ Forall byte_range x ->
  length (clear_bit x bi) = Z.to_nat BSIZE /\ Forall byte_range (clear_bit x bi).
Proof. intros [? ?]. unfold clear_bit. rewrite length_insert. split; [done|]. apply Forall_insert; [done | apply u8_byte]. Qed.

Lemma blk_ok_record v b x : blk_ok v -> length x = Z.to_nat BSIZE /\ Forall byte_range x -> blk_ok (record b x v).
Proof. intros Hv Hx c. simpl. unfold upd_blk. case_decide; [done | apply Hv]. Qed.

Section Alloc.
Context {T : Type} `{TxnLaws T}.
Context (sb : superblock) (Hg : geom sb) (lk : spin) (il : list inode) (k : kproc).

Abbreviation st t := (FSys t sb lk il k).
Abbreviation bm := (sb_bmapstart sb).

Lemma bm_range : 0 <= bm < 2 ^ 32 /\ home bm.
Proof.
  destruct Hg as [H1 H2 H3 H4 H5]. assert (0 <= sb_ninodes sb / IPB) by (apply Z.div_pos; unfold IPB; lia).
  unfold BPB, BSIZE in *. split; [lia|]. apply H5. lia.
Qed.

Lemma BBLOCK_one b : 0 <= b < sb_size sb -> BBLOCK b sb = bm.
Proof. intros Hb. unfold BBLOCK. pose proof (g_size _ Hg). rewrite Z.div_small by lia. lia. Qed.

Lemma bit_in_block v b : blk_ok v -> 0 <= b < sb_size sb -> (Z.to_nat (b / 8) < length (tv_blk v bm))%nat.
Proof.
  intros Hv Hb. rewrite (proj1 (Hv bm)). pose proof (g_size _ Hg). unfold BPB, BSIZE in *.
  assert (b / 8 < 1024) by (apply Z.div_lt_upper_bound; lia). lia.
Qed.

Lemma bzero_spec t v b X n : txn_rep t v -> tv_held v !! b = None -> 0 <= b < 2 ^ 32 -> home b ->
  fits v X n -> (size (tv_held v) <= 1)%nat ->
  exists t', bzero ROOTDEV b (st t) = Ret tt (st t') /\ txn_rep t' (record b zero_block v).
Proof.
  intros Hr Hh Hb Hhm Hrm Hs. destruct (k_change sb lk il k t v b (fun _ => zero_block) X n Hr Hh Hb Hhm Hrm Hs) as (t' & He & Hr').
  exists t'. split; [|done]. unfold bzero.
  destruct (k_read sb lk il k t v b Hr Hh Hb) as (h & t1 & He1 & Hr1); [destruct (fits_length _ _ _ _ Hr Hrm); lia|].
  erewrite bind_ret in He by exact He1.
  erewrite bind_ret in He by (eapply k_data; [exact Hr1 | simpl; by rewrite lookup_insert_eq]).
  erewrite bind_ret by exact He1. exact He.
Qed.

(** Block [b] allocated: its bit set, its contents zero. *)
Definition allocated (b : Z) (v : tview) : tview := record b zero_block (record bm (set_bit (tv_blk v bm) b) v).
Definition released (b : Z) (v : tview) : tview := record bm (clear_bit (tv_blk v bm) b) v.

Lemma allocated_blk b v c : b <> bm ->
  tv_blk (allocated b v) c = if decide (c = b) then zero_block else if decide (c = bm) then set_bit (tv_blk v bm) b else tv_blk v c.
Proof. intros Hb. simpl. unfold upd_blk. repeat case_decide; done. Qed.

Lemma allocated_use b v c : blk_ok v -> 0 <= b < sb_size sb -> 0 <= c -> b <> bm ->
  in_use_blk sb (allocated b v) c <-> c = b \/ in_use_blk sb v c.
Proof.
  intros Hv Hb Hc Hne. unfold in_use_blk. rewrite allocated_blk by done. rewrite decide_False, decide_True by done.
  rewrite bit_clear_set by (lia || by apply bit_in_block). case_decide; naive_solver.
Qed.

Lemma allocated_ok b v : blk_ok v -> blk_ok (allocated b v).
Proof. intros Hv. apply blk_ok_record; [apply blk_ok_record; [done | by apply set_bit_ok] | apply zero_block_ok]. Qed.

(** [balloc]: the first free block, or 0 and no change when there is none. *)
Lemma balloc_spec t v X n : txn_rep t v -> blk_ok v -> fits v X (S n) -> bm ∈ X -> (size (tv_held v) <= 1)%nat ->
  meta_used sb v -> (forall b, is_Some (tv_held v !! b) -> 0 <= b /\ in_use_blk sb v b /\ b <> bm) ->
  (exists b t', bm < b < sb_size sb /\ ~ in_use_blk sb v b /\ (forall c, 0 <= c < b -> in_use_blk sb v c) /\
     balloc ROOTDEV (st t) = Ret b (st t') /\ txn_rep t' (allocated b v) /\ fits (allocated b v) (X ∪ {[b]}) n) \/
  ((forall c, 0 <= c < sb_size sb -> in_use_blk sb v c) /\ exists t', balloc ROOTDEV (st t) = Ret 0 (st t') /\ txn_rep t' v).
Proof.
  intros Hr Hv Hrm HbX Hs Hmeta Hheld. destruct bm_range as [Hb1 Hb2]. pose proof (g_size _ Hg) as Hsz.
  assert (tv_held v !! bm = None) as Hhb.
  { destruct (tv_held v !! bm) eqn:E; [|done]. by destruct (Hheld bm ltac:(by eexists)) as (_ & _ & []). }
  destruct (k_read sb lk il k t v bm Hr Hhb Hb1) as (h & t1 & He1 & Hr1); [destruct (fits_length _ _ _ _ Hr Hrm); lia|].
  assert (forall bi, 0 <= bi < sb_size sb -> 0 <= bi) as _ by lia.
  set (x := tv_blk v bm) in *. set (N := Z.to_nat (sb_size sb)).
  assert (fdata h (st t1) = Ret x (st t1)) as Hd by (eapply k_data; [exact Hr1 | simpl; by rewrite lookup_insert_eq]).
  assert (forall r s, balloc_scan ROOTDEV 0 h N (st t1) = Ret r s ->
    balloc ROOTDEV (st t) = match r with Some v => Ret v s | None => (fbrelse h;; balloc_loop (S (Z.to_nat (sb_size sb / BPB))) ROOTDEV BPB) s end) as Hbal.
  { intros r s Hscan. unfold balloc. erewrite bind_ret by reflexivity. cbn [f_sb balloc_loop]. erewrite bind_ret by reflexivity.
    cbn [f_sb]. rewrite (proj2 (Z.ltb_lt 0 _)) by lia. rewrite BBLOCK_one by lia. erewrite bind_ret by exact He1.
    rewrite Z.sub_0_r, Z.min_r by lia. erewrite bind_ret by exact Hscan. by destruct r. }
  destruct (seq_first (fun bi => bit_clear x (Z.of_nat bi) = true) N) as [(i & Hi & Hc & Hlow & l2 & E)|Hno]; [left | right].
  - set (b := Z.of_nat i).
    assert (forall c, 0 <= c < b -> in_use_blk sb v c) as Huse.
    { intros c Hcb. unfold in_use_blk. specialize (Hlow (Z.to_nat c) ltac:(lia)). rewrite Z2Nat.id in Hlow by lia.
      by apply not_true_is_false. }
    assert (0 <= b < sb_size sb) as Hbr by lia.
    assert (bm < b) as Hbb.
    { destruct (decide (bm < b)); [done|]. pose proof (Hmeta b ltac:(lia)) as Hm. unfold in_use_blk in Hm. fold x in Hm. unfold b in Hm. congruence. }
    assert (tv_held v !! b = None) as Hhb2.
    { destruct (tv_held v !! b) eqn:Ehb; [|done]. destruct (Hheld b ltac:(by eexists)) as (_ & Hu & _). unfold in_use_blk in Hu. fold x in Hu. unfold b in Hu. congruence. }
    destruct (k_set sb lk il k t1 _ bm h x (set_bit x b) Hr1) as (t2 & He2 & Hr2); [simpl; by rewrite lookup_insert_eq|].
    destruct (k_log sb lk il k t2 _ bm h (set_bit x b) Hr2) as (t3 & He3 & Hr3); try done.
    { simpl. by rewrite lookup_insert_eq. } { apply Hrm. } { simpl. destruct (fits_length _ _ _ _ Hr Hrm). lia. }
    destruct (k_relse sb lk il k t3 _ bm h Hr3) as (t4 & He4 & Hr4).
    { simpl. rewrite lookup_insert_eq. unfold upd_blk. by rewrite decide_True. }
    rewrite unhold_record in Hr4 by done.
    assert (fits (record bm (set_bit x b) v) (X ∪ {[b]}) n) as Hfit4.
    { apply fits_record; [set_solver|]. by apply fits_fresh. }
    destruct (bzero_spec t4 _ b (X ∪ {[b]}) n Hr4) as (t5 & He5 & Hr5).
    { done. } { unfold BPB, BSIZE in *. lia. } { apply Hg. pose proof (g_bmap _ Hg). assert (0 <= sb_ninodes sb / IPB) by (apply Z.div_pos; [pose proof (g_ninodes _ Hg); lia | done]). lia. }
    { done. } { done. }
    exists b, t5. split; [lia|]. split; [unfold in_use_blk; fold x; unfold b; congruence|]. split; [exact Huse|].
    split; [|split; [exact Hr5 | apply fits_record; [set_solver | exact Hfit4]]]. rewrite (Hbal (Some b) (st t5)); [done|]. unfold balloc_scan. rewrite E. apply for_each_hit.
    + intros j Hj. apply elem_of_seq in Hj. erewrite bind_ret by exact Hd.
      rewrite (not_true_is_false _ (Hlow j ltac:(lia))). done.
    + erewrite bind_ret by exact Hd. rewrite Hc. fold b. erewrite bind_ret by exact He2. erewrite bind_ret by exact He3.
      erewrite bind_ret by exact He4. rewrite Z.add_0_l. erewrite bind_ret by exact He5. done.
  - split.
    { intros c Hc. unfold in_use_blk. specialize (Hno (Z.to_nat c) ltac:(lia)). rewrite Z2Nat.id in Hno by lia. by apply not_true_is_false. }
    destruct (k_relse sb lk il k t1 _ bm h Hr1) as (t2 & He2 & Hr2); [simpl; by rewrite lookup_insert_eq|].
    rewrite unhold_hold in Hr2 by done. exists t2. split; [|done].
    rewrite (Hbal None (st t1)).
    + erewrite bind_ret by exact He2. cbn [balloc_loop]. erewrite bind_ret by reflexivity. cbn [f_sb].
      by rewrite (proj2 (Z.ltb_ge BPB _)) by lia.
    + apply for_each_none. intros j Hj. apply elem_of_seq in Hj. erewrite bind_ret by exact Hd.
      rewrite (not_true_is_false _ (Hno j ltac:(lia))). done.
Qed.

(** [bfree] of a block in use; of a free one it panics. *)
Lemma bfree_spec t v b X n : txn_rep t v -> blk_ok v -> fits v X n -> (size (tv_held v) <= 1)%nat -> tv_held v !! bm = None ->
  0 <= b < sb_size sb ->
  if bit_clear (tv_blk v bm) b then bfree ROOTDEV b (st t) = Panic "freeing free block"
  else exists t', bfree ROOTDEV b (st t) = Ret tt (st t') /\ txn_rep t' (released b v).
Proof.
  intros Hr Hv Hrm Hs Hh Hb. destruct bm_range as [Hb1 Hb2]. pose proof (g_size _ Hg) as Hsz.
  destruct (k_change sb lk il k t v bm (fun x => clear_bit x b) X n Hr Hh Hb1 Hb2 Hrm Hs) as (t' & He & Hr').
  assert (b mod BPB = b) as Eb by (apply Z.mod_small; lia).
  destruct (k_read sb lk il k t v bm Hr Hh Hb1) as (h & t1 & He1 & Hr1); [destruct (fits_length _ _ _ _ Hr Hrm); lia|].
  assert (fdata h (st t1) = Ret (tv_blk v bm) (st t1)) as Hd by (eapply k_data; [exact Hr1 | simpl; by rewrite lookup_insert_eq]).
  unfold bfree. erewrite bind_ret by reflexivity. cbn [f_sb]. rewrite BBLOCK_one, Eb by done.
  erewrite bind_ret in He by exact He1. erewrite bind_ret in He by exact Hd.
  erewrite bind_ret by exact He1. erewrite bind_ret by exact Hd.
  destruct (bit_clear (tv_blk v bm) b); [done|]. exists t'. split; [exact He | exact Hr'].
Qed.
End Alloc.
