(* ===== verification/FsFiles.v ===== *)
(** * FsFiles: the contents of files, [bmap], [readi] and [writei] of [kernel/fs.c]

    A file's contents is the sequence of bytes of its blocks in the order of the
    block map (12 direct addresses and the words of the indirect block); a block
    that is not there reads as zeros.  The theorems: [writei] changes exactly the
    bytes it reports to have written, [readi] delivers exactly the bytes of the
    file, and neither touches a block that belongs to anything else. *)

From S2P Require Import Prelude CString Riscv Kalloc Vm Sleeplock BufCache Log Txn Proc Fs FsBlocks.

(** ** Words in a block *)

Lemma get_uint_range x o : Forall byte_range x -> 0 <= get_uint x o < 2 ^ 32.
Proof.
  intros Hx. unfold get_uint. pose proof (le_join_range (take 4 (drop o x))) as Hr.
  assert (length (take 4 (drop o x)) <= 4)%nat as Hl by (rewrite length_take; lia).
  destruct Hr as [Hr1 Hr2]. { by apply Forall_take, Forall_drop. }
  split; [done|]. eapply Z.lt_le_trans; [exact Hr2|]. change (2 ^ 32) with (256 ^ 4). apply Z.pow_le_mono_r; lia.
Qed.

Lemma get_set_uint_eq x o a : (o + 4 <= length x)%nat -> 0 <= a < 2 ^ 32 -> get_uint (set_uint o a x) o = a.
Proof.
  intros Hl Ha. unfold get_uint, set_uint. replace 4%nat with (length (le_split 4 a)) at 1 by apply length_le_split.
  rewrite take_drop_splice_in by (by rewrite length_le_split). rewrite le_join_split. by apply Z.mod_small.
Qed.

Lemma get_set_uint_ne x o a o' : (o + 4 <= length x)%nat -> (o' + 4 <= o \/ o + 4 <= o')%nat ->
  get_uint (set_uint o a x) o' = get_uint x o'.
Proof.
  intros Hl Hd. unfold get_uint, set_uint. by rewrite take_drop_splice_out by (rewrite length_le_split; lia).
Qed.

Lemma splice_bytes x o l : Forall byte_range x -> Forall byte_range l -> Forall byte_range (splice x o l).
Proof. intros. unfold splice. apply Forall_app. split; [by apply Forall_take|]. apply Forall_app. split; [done | by apply Forall_drop]. Qed.

Lemma set_uint_ok o a x : (o + 4 <= length x)%nat -> length x = Z.to_nat BSIZE /\ Forall byte_range x ->
  length (set_uint o a x) = Z.to_nat BSIZE /\ Forall byte_range (set_uint o a x).
Proof.
  intros Ho [Hl Hb]. unfold set_uint. rewrite length_splice by (by rewrite length_le_split).
  split; [done|]. apply splice_bytes; [done | apply le_split_bytes].
Qed.

Lemma get_uint_zero o : get_uint zero_block o = 0.
Proof.
  unfold get_uint, zero_block. rewrite drop_replicate, take_replicate.
  induction (4 `min` (Z.to_nat BSIZE - o))%nat as [|m IH]; [done|]. simpl. rewrite IH. done.
Qed.

Lemma byte_at_zero i : 0 <= i < BSIZE -> byte_at zero_block i = 0.
Proof.
  intros Hi. unfold byte_at, zero_block. apply list_lookup_total_correct. apply lookup_replicate.
  split; [done|]. unfold BSIZE in *. lia.
Qed.

(** ** The block map *)

Definition blkno (v : tview) (addrs : list Z) (bn : nat) : Z :=
  if decide (bn < NDIRECT)%nat then addrs !!! bn
  else if addrs !!! NDIRECT =? 0 then 0 else get_uint (tv_blk v (addrs !!! NDIRECT)) (4 * (bn - NDIRECT)).

(** The blocks a file owns: [Some bn] its data blocks, [None] the indirect block. *)
Definition own (v : tview) (addrs : list Z) (o : option nat) : Z :=
  match o with Some bn => blkno v addrs bn | None => addrs !!! NDIRECT end.
Definition slot_in (o : option nat) : Prop := match o with Some bn => (bn < MAXFILE)%nat | None => True end.

Record ino_ok (sb : superblock) (v : tview) (addrs : list Z) : Prop := {
  io_len : length addrs = S NDIRECT;
  io_data : forall o, slot_in o -> own v addrs o <> 0 -> sb_bmapstart sb < own v addrs o < sb_size sb /\ in_use_blk sb v (own v addrs o);
  io_inj : forall o o', slot_in o -> slot_in o' -> own v addrs o <> 0 -> own v addrs o = own v addrs o' -> o = o'
}.

(** What changes when a file gets blocks: [Own] are the blocks that were its own. *)
Record extends (sb : superblock) (v v' : tview) (addrs : list Z) : Prop := {
  ex_ops : tv_ops v' = tv_ops v;
  ex_cap : tv_cap v' = tv_cap v;
  ex_use : forall c, 0 <= c -> in_use_blk sb v c -> in_use_blk sb v' c;
  ex_same : forall c, 0 <= c -> in_use_blk sb v c -> c <> sb_bmapstart sb ->
    (forall o, slot_in o -> own v addrs o <> 0 -> own v addrs o <> c) -> tv_blk v' c = tv_blk v c
}.

(** A byte of the file. *)
Definition fbyte (v : tview) (addrs : list Z) (p : Z) : Z :=
  let b := blkno v addrs (Z.to_nat (p / BSIZE)) in
  if b =? 0 then 0 else byte_at (tv_blk v b) (p mod BSIZE).

Section Files.
Context {T : Type} `{TxnLaws T}.
Context (sb : superblock) (Hg : geom sb) (lk : spin).

Abbreviation st t il k := (FSys t sb lk il k).
Abbreviation bm := (sb_bmapstart sb).

Lemma addrs_data v addrs o : ino_ok sb v addrs -> slot_in o -> own v addrs o <> 0 ->
  0 <= own v addrs o < 2 ^ 32 /\ home (own v addrs o) /\ own v addrs o <> bm.
Proof.
  intros Hok Hs Hne. destruct (io_data _ _ _ Hok o Hs Hne) as [Hr _]. destruct (bm_range sb Hg) as [Hb _].
  pose proof (g_size _ Hg). pose proof (g_bmap _ Hg). pose proof (g_ninodes _ Hg). pose proof (g_inode _ Hg).
  assert (0 <= sb_ninodes sb / IPB) by (apply Z.div_pos; unfold IPB; lia).
  unfold BPB, BSIZE in *. split_and!; [lia | lia | apply Hg; lia | lia].
Qed.

Lemma blkno_range v addrs bn : blk_ok v -> ino_ok sb v addrs -> (bn < MAXFILE)%nat -> 0 <= blkno v addrs bn.
Proof.
  intros Hv Hok Hbn. destruct (decide (blkno v addrs bn = 0)) as [->|Hne]; [done|].
  destruct (addrs_data v addrs (Some bn) Hok Hbn Hne) as [? _]. simpl in *. lia.
Qed.

(** A newly allocated block is none of the file's. *)
Lemma fresh_not_own v addrs b : ino_ok sb v addrs -> ~ in_use_blk sb v b -> 0 < b ->
  forall o, slot_in o -> own v addrs o <> b.
Proof. intros Hok Hb Hp o Hs E. apply Hb. rewrite <- E. apply (io_data _ _ _ Hok o Hs). lia. Qed.

(** Allocation changes no block of the file. *)
Lemma own_allocated v addrs b : ino_ok sb v addrs -> bm < b -> ~ in_use_blk sb v b ->
  forall o, slot_in o -> own (allocated sb b v) addrs o = own v addrs o.
Proof.
  intros Hok Hb Hn [bn|] Hs; [|done]. simpl. unfold blkno. case_decide; [done|].
  destruct (Z.eqb_spec (addrs !!! NDIRECT) 0) as [|Hne]; [done|]. f_equal.
  destruct (bm_range sb Hg) as [Hbm _]. rewrite allocated_blk by lia.
  rewrite decide_False by (apply (fresh_not_own v addrs b Hok Hn ltac:(lia) None); done).
  rewrite decide_False; [done|]. apply (addrs_data v addrs None Hok); done.
Qed.

Lemma ino_ok_allocated v addrs b : ino_ok sb v addrs -> blk_ok v -> bm < b < sb_size sb -> ~ in_use_blk sb v b ->
  ino_ok sb (allocated sb b v) addrs.
Proof.
  intros Hok Hv Hb Hn. destruct (bm_range sb Hg) as [Hbm _].
  pose proof (own_allocated v addrs b Hok ltac:(lia) Hn) as Ho. destruct Hok as [K1 K2 K3]. split; [done | |].
  - intros o Hs. rewrite Ho by done. intros Hne. destruct (K2 o Hs Hne) as [Hr Hu]. split; [done|].
    apply allocated_use; try done; try lia. by right.
  - intros o o' Hs Hs'. rewrite !Ho by done. by apply K3.
Qed.

(** Entering block [b] in the map as direct block [i] or as the indirect block. *)
Lemma own_insert v addrs i b o : length addrs = S NDIRECT -> (i <= NDIRECT)%nat ->
  (i = NDIRECT -> addrs !!! NDIRECT = 0 /\ tv_blk v b = zero_block) -> slot_in o ->
  own v (<[i := b]> addrs) o =
  if decide (o = if decide (i = NDIRECT) then None else Some i) then b else own v addrs o.
Proof.
  intros Hl Hi Hz Hs. unfold NDIRECT in *. destruct o as [bn|]; simpl.
  - unfold blkno, NDIRECT. destruct (decide (i = 12%nat)) as [->|Hne].
    + rewrite (decide_False (P := Some bn = None)) by done. destruct (Hz eq_refl) as [Hz1 Hz2]. case_decide as Hd.
      * apply list_lookup_total_insert_ne. lia.
      * rewrite list_lookup_total_insert_eq by lia. rewrite Hz1. simpl. destruct (b =? 0); [done|]. by rewrite Hz2, get_uint_zero.
    + case_decide as Hd; destruct (decide (Some bn = Some i)) as [E|E]; simplify_eq; try lia.
      * apply list_lookup_total_insert_eq. lia.
      * apply list_lookup_total_insert_ne. intros ->. by apply E.
      * by rewrite list_lookup_total_insert_ne by lia.
  - destruct (decide (i = 12%nat)) as [->|Hne].
    + rewrite decide_True by done. apply list_lookup_total_insert_eq. lia.
    + rewrite decide_False by done. apply list_lookup_total_insert_ne. unfold NDIRECT. lia.
Qed.

Lemma ino_ok_insert v addrs i b : ino_ok sb v addrs -> (i <= NDIRECT)%nat ->
  (i = NDIRECT -> addrs !!! NDIRECT = 0 /\ tv_blk v b = zero_block) ->
  bm < b < sb_size sb -> in_use_blk sb v b -> (forall o, slot_in o -> own v addrs o <> b) ->
  ino_ok sb v (<[i := b]> addrs).
Proof.
  intros Hok Hi Hz Hb Hu Hn. destruct Hok as [K1 K2 K3]. split.
  - by rewrite length_insert.
  - intros o Hs. rewrite own_insert by done. case_decide; [done|]. by apply K2.
  - intros o o' Hs Hs'. rewrite !own_insert by done.
    destruct (decide (o = _)) as [E1|E1], (decide (o' = _)) as [E2|E2].
    + congruence.
    + intros _ E. symmetry in E. by destruct (Hn o' Hs').
    + intros _ E. by destruct (Hn o Hs).
    + by apply K3.
Qed.

Lemma extends_refl v addrs : extends sb v v addrs.
Proof. by split. Qed.

Lemma extends_allocated v addrs b : blk_ok v -> bm < b < sb_size sb -> ~ in_use_blk sb v b ->
  extends sb v (allocated sb b v) addrs.
Proof.
  intros Hv Hb Hn. destruct (bm_range sb Hg) as [Hbm _]. split; try done.
  - intros c Hc Hu. apply allocated_use; try done; try lia. by right.
  - intros c Hc Hu Hne _. rewrite allocated_blk by lia. rewrite decide_False by (by intros ->). by rewrite decide_False.
Qed.

(** Extending in two steps: what the second changes is new or was the file's. *)
Lemma extends_trans v1 v2 v3 a1 a2 : extends sb v1 v2 a1 -> extends sb v2 v3 a2 ->
  (forall o, slot_in o -> own v2 a2 o <> 0 ->
     ~ in_use_blk sb v1 (own v2 a2 o) \/ exists o', slot_in o' /\ own v1 a1 o' = own v2 a2 o) ->
  extends sb v1 v3 a1.
Proof.
  intros [E1 E2 E3 E4] [F1 F2 F3 F4] Hown. split; [congruence | congruence | auto |].
  intros c Hc Hu Hne Hno. rewrite F4; [by apply E4 | done | by apply E3 | done |].
  intros o Hs Hnz E. destruct (Hown o Hs Hnz) as [Hn|(o' & Hs' & E')]; [by rewrite E in Hn|].
  apply (Hno o' Hs'); congruence.
Qed.

(** The file got blocks, all of them new and zero; its bytes are the same. *)
Record grown (v v' : tview) (addrs addrs' : list Z) : Prop := {
  gr_ext : extends sb v v' addrs;
  gr_ok : ino_ok sb v' addrs';
  gr_blk : blk_ok v';
  gr_meta : meta_used sb v';
  gr_held : tv_held v' = tv_held v;
  gr_keep : forall bn, (bn < MAXFILE)%nat -> blkno v addrs bn <> 0 ->
    blkno v' addrs' bn = blkno v addrs bn /\ tv_blk v' (blkno v addrs bn) = tv_blk v (blkno v addrs bn);
  gr_new : forall o, slot_in o -> own v' addrs' o <> 0 ->
    own v addrs o = own v' addrs' o \/ ~ in_use_blk sb v (own v' addrs' o);
  gr_zero : forall bn, (bn < MAXFILE)%nat -> blkno v addrs bn = 0 ->
    blkno v' addrs' bn = 0 \/ tv_blk v' (blkno v' addrs' bn) = zero_block
}.

Lemma grown_refl v addrs : blk_ok v -> meta_used sb v -> ino_ok sb v addrs -> grown v v addrs addrs.
Proof. intros. split; try done; [by left.. | by left]. Qed.

Lemma grown_trans v1 v2 v3 a1 a2 a3 : grown v1 v2 a1 a2 -> grown v2 v3 a2 a3 -> grown v1 v3 a1 a3.
Proof.
  intros [E1 E2 E3 E4 E5 E6 E7 E8] [F1 F2 F3 F4 F5 F6 F7 F8]. split; try done.
  - eapply extends_trans; [done | exact F1 |]. intros o Hs Hne. destruct (E7 o Hs Hne) as [E|E]; [right; by exists o | by left].
  - congruence.
  - intros bn Hbn Hne. destruct (E6 bn Hbn Hne) as [Eb Ec]. destruct (F6 bn Hbn ltac:(congruence)) as [Fb Fc].
    split; congruence.
  - intros o Hs Hne. destruct (F7 o Hs Hne) as [E|E].
    + rewrite <- E. apply E7; [done | congruence].
    + right. intros Hu. apply E. apply (ex_use _ _ _ _ E1); [|done].
      destruct (addrs_data v3 a3 o F2 Hs Hne) as [? _]. lia.
  - intros bn Hbn Hz. destruct (E8 bn Hbn Hz) as [E|E]; [by apply F8|].
    destruct (decide (blkno v2 a2 bn = 0)) as [Ez|Ez]; [by apply F8|].
    destruct (F6 bn Hbn Ez) as [Fb Fc]. right. congruence.
Qed.

Lemma meta_allocated v b : blk_ok v -> bm < b < sb_size sb -> meta_used sb v -> meta_used sb (allocated sb b v).
Proof.
  intros Hv Hb Hm c Hc. destruct (bm_range sb Hg) as [Hbm _]. apply allocated_use; try done; try lia. right. by apply Hm.
Qed.

(** The blocks of the file when a new one is entered in the inode. *)
Lemma own_entry v addrs i b : ino_ok sb v addrs -> (i <= NDIRECT)%nat -> addrs !!! i = 0 -> bm < b -> ~ in_use_blk sb v b ->
  forall o, slot_in o -> own (allocated sb b v) (<[i := b]> addrs) o =
    if decide (o = if decide (i = NDIRECT) then None else Some i) then b else own v addrs o.
Proof.
  intros Hok Hi Hz Hb Hn o Hs. assert (tv_blk (allocated sb b v) b = zero_block) as Hzb by (rewrite allocated_blk by lia; by rewrite decide_True).
  rewrite own_insert; try done; [|apply Hok | by intros ->]. case_decide; [done | by apply own_allocated].
Qed.

(** A new block entered in the inode. *)
Lemma grown_entry v addrs i b : blk_ok v -> meta_used sb v -> ino_ok sb v addrs -> (i <= NDIRECT)%nat -> addrs !!! i = 0 ->
  bm < b < sb_size sb -> ~ in_use_blk sb v b -> grown v (allocated sb b v) addrs (<[i := b]> addrs).
Proof.
  intros Hv Hm Hok Hi Hz Hb Hn. destruct (bm_range sb Hg) as [Hbm _].
  pose proof (own_allocated v addrs b Hok ltac:(lia) Hn) as Ho.
  assert (tv_blk (allocated sb b v) b = zero_block) as Hzb by (rewrite allocated_blk by lia; by rewrite decide_True).
  pose proof (ino_ok_allocated v addrs b Hok Hv Hb Hn) as Hok'.
  pose proof (own_entry v addrs i b Hok Hi Hz ltac:(lia) Hn) as Hown.
  assert (own v addrs (if decide (i = NDIRECT) then None else Some i) = 0) as Hwas.
  { case_decide as Hd; simpl; [by subst|]. unfold blkno. by rewrite decide_True by lia. }
  set (sl := if decide (i = NDIRECT) then None else Some i) in *. clearbody sl.
  split.
  - by apply extends_allocated.
  - apply ino_ok_insert; try done; [by intros -> | apply allocated_use; try done; try lia; by left |].
    intros o Hs. rewrite Ho by done. by apply (fresh_not_own v addrs b Hok Hn ltac:(lia)).
  - by apply allocated_ok.
  - by apply meta_allocated.
  - done.
  - intros bn Hbn Hne. pose proof (Hown (Some bn) Hbn) as E. simpl in E. case_decide as Hd.
    + rewrite <- Hd in Hwas. simpl in Hwas. done.
    + split; [done|]. rewrite allocated_blk by lia. destruct (addrs_data v addrs (Some bn) Hok Hbn Hne) as (? & _ & ?).
      rewrite decide_False by (apply (fresh_not_own v addrs b Hok Hn ltac:(lia) (Some bn) Hbn)). by rewrite decide_False.
  - intros o Hs. rewrite Hown by done. case_decide; intros _; [by right | by left].
  - intros bn Hbn Hz0. pose proof (Hown (Some bn) Hbn) as E. simpl in E. rewrite E. case_decide; [by right | by left].
Qed.

(** A new block entered in the indirect block. *)
Definition entered (ind : Z) (j : nat) (b : Z) (v : tview) : tview :=
  record ind (set_uint (4 * j) b (tv_blk v ind)) v.

Lemma own_entered v addrs j b : blk_ok v -> ino_ok sb v addrs -> (j < NINDIRECT)%nat -> addrs !!! NDIRECT <> 0 ->
  bm < b < sb_size sb -> ~ in_use_blk sb v b ->
  forall o, slot_in o -> own (entered (addrs !!! NDIRECT) j b (allocated sb b v)) addrs o =
    if decide (o = Some (NDIRECT + j)%nat) then b else own v addrs o.
Proof.
  intros Hv Hok Hj Hind Hb Hn o Hs. destruct (bm_range sb Hg) as [Hbm _]. pose proof (g_size _ Hg) as Hgs.
  set (ind := addrs !!! NDIRECT) in *. set (v1 := allocated sb b v). pose proof (allocated_ok sb b v Hv) as Hv1. fold v1 in Hv1.
  assert (4 * j + 4 <= length (tv_blk v1 ind))%nat as Hlen by (rewrite (proj1 (Hv1 ind)), BSIZE_eq; unfold NINDIRECT in Hj; lia).
  destruct o as [bn|]; [|done]. pose proof (own_allocated v addrs b Hok ltac:(lia) Hn (Some bn) Hs) as Ho. cbn [own] in *. unfold blkno in Ho |- *.
  destruct (decide (bn < NDIRECT)%nat) as [Hd|Hd].
  - rewrite decide_False; [done|]. intros E. assert (bn = NDIRECT + j)%nat by congruence. lia.
  - fold ind in Ho |- *. rewrite (proj2 (Z.eqb_neq ind 0)) in * by done. unfold entered. cbn [record tv_blk]. unfold upd_blk. rewrite (decide_True (P := ind = ind)) by done.
    destruct (decide (Some bn = Some (NDIRECT + j)%nat)) as [E|E].
    + assert (bn = NDIRECT + j)%nat as -> by congruence. replace (NDIRECT + j - NDIRECT)%nat with j by lia. apply get_set_uint_eq; [done|]. unfold BPB, BSIZE in *. lia.
    + rewrite get_set_uint_ne; [done | done |]. assert (bn <> NDIRECT + j)%nat by congruence. lia.
Qed.

Lemma grown_word v addrs j b : blk_ok v -> meta_used sb v -> ino_ok sb v addrs -> (j < NINDIRECT)%nat ->
  addrs !!! NDIRECT <> 0 -> blkno v addrs (NDIRECT + j) = 0 ->
  bm < b < sb_size sb -> ~ in_use_blk sb v b ->
  grown v (entered (addrs !!! NDIRECT) j b (allocated sb b v)) addrs addrs.
Proof.
  intros Hv Hm Hok Hj Hind Hz Hb Hn. destruct (bm_range sb Hg) as [Hbm _]. pose proof (g_size _ Hg) as Hgs.
  set (ind := addrs !!! NDIRECT) in *. set (v1 := allocated sb b v). set (v2 := entered ind j b v1).
  pose proof (own_allocated v addrs b Hok ltac:(lia) Hn) as Ho.
  pose proof (ino_ok_allocated v addrs b Hok Hv Hb Hn) as Hok1. fold v1 in Hok1.
  destruct (addrs_data v addrs None Hok I Hind) as (Hr & _ & Hnb). simpl in Hr, Hnb. fold ind in Hr, Hnb.
  assert (ind <> b) as Hib by (apply (fresh_not_own v addrs b Hok Hn ltac:(lia) None I)).
  pose proof (allocated_ok sb b v Hv) as Hv1. fold v1 in Hv1.
  assert (4 * j + 4 <= length (tv_blk v1 ind))%nat as Hlen by (rewrite (proj1 (Hv1 ind)), BSIZE_eq; unfold NINDIRECT in Hj; lia).
  assert (forall c, tv_blk v2 c = if decide (c = ind) then set_uint (4 * j) b (tv_blk v1 ind) else tv_blk v1 c) as Hblk by done.
  assert (tv_blk v2 bm = tv_blk v1 bm) as Hbmp by (rewrite Hblk; by rewrite decide_False).
  assert (forall c, 0 <= c -> in_use_blk sb v2 c <-> c = b \/ in_use_blk sb v c) as Huse.
  { intros c Hc. unfold in_use_blk. rewrite Hbmp. fold (in_use_blk sb v1 c). apply allocated_use; try done; lia. }
  pose proof (own_entered v addrs j b Hv Hok Hj Hind Hb Hn) as Hown. fold ind v1 v2 in Hown.
  split.
  - split; try done.
    + intros c Hc Hu. apply Huse; [done | by right].
    + intros c Hc Hu Hne Hno. rewrite Hblk, decide_False; [|intros ->; by apply (Hno None I Hind)].
      unfold v1. rewrite allocated_blk by lia. rewrite decide_False by (by intros ->). by rewrite decide_False.
  - split; [apply Hok | |].
    + intros o Hs. rewrite Hown by done. case_decide as Hd.
      * intros _. split; [done|]. apply Huse; [lia | by left].
      * intros Hne. destruct (io_data _ _ _ Hok o Hs Hne) as [? Hu]. split; [done|]. apply Huse; [lia | by right].
    + intros o o' Hs Hs'. rewrite !Hown by done. destruct (decide (o = _)) as [E1|E1], (decide (o' = _)) as [E2|E2].
      * congruence.
      * intros _ E. symmetry in E. by destruct (fresh_not_own v addrs b Hok Hn ltac:(lia) o' Hs').
      * intros _ E. by destruct (fresh_not_own v addrs b Hok Hn ltac:(lia) o Hs).
      * by apply (io_inj _ _ _ Hok).
  - apply blk_ok_record; [done|]. apply set_uint_ok; [done | apply Hv1].
  - intros c Hc. apply Huse; [lia|]. right. by apply Hm.
  - done.
  - intros bn Hbn Hne. pose proof (Hown (Some bn) Hbn) as E. simpl in E. case_decide as Hd; [simplify_eq; done|].
    split; [done|]. destruct (addrs_data v addrs (Some bn) Hok Hbn Hne) as (? & _ & ?). cbn [own] in *.
    rewrite Hblk, decide_False.
    2:{ intros E'. by pose proof (io_inj _ _ _ Hok (Some bn) None Hbn I Hne E'). }
    unfold v1. rewrite allocated_blk by lia.
    rewrite decide_False by (apply (fresh_not_own v addrs b Hok Hn ltac:(lia) (Some bn) Hbn)). by rewrite decide_False.
  - intros o Hs. rewrite Hown by done. case_decide; intros _; [by right | by left].
  - intros bn Hbn Hz0. pose proof (Hown (Some bn) Hbn) as E. simpl in E. rewrite E. case_decide; [right | by left].
    rewrite Hblk, decide_False by done. unfold v1. rewrite allocated_blk by lia. by rewrite decide_True.
Qed.

Lemma grown_fbyte v v' a a' p : grown v v' a a' -> 0 <= p < Z.of_nat MAXFILE * BSIZE -> fbyte v' a' p = fbyte v a p.
Proof.
  intros Hgr Hp. unfold fbyte. set (bn := Z.to_nat (p / BSIZE)).
  assert (bn < MAXFILE)%nat as Hbn.
  { unfold bn. assert (p / BSIZE < Z.of_nat MAXFILE) by (apply Z.div_lt_upper_bound; unfold BSIZE in *; lia).
    pose proof (Z.div_pos p BSIZE ltac:(lia) ltac:(done)). lia. }
  destruct (Z.eqb_spec (blkno v a bn) 0) as [E|E].
  - destruct (gr_zero _ _ _ _ Hgr bn Hbn E) as [E'|E']; [by rewrite E'|]. rewrite E'. case_match; [done|].
    apply byte_at_zero. by apply Z.mod_pos_bound.
  - destruct (gr_keep _ _ _ _ Hgr bn Hbn E) as [E1 E2]. rewrite E1, E2. by rewrite (proj2 (Z.eqb_neq _ 0)).
Qed.

(** ** [bmap] *)

(** Whether the indirect block is still to be allocated. *)
Definition ind_need (addrs : list Z) : nat := if addrs !!! NDIRECT =? 0 then 1 else 0.

Lemma iget_f_eq {A} t il k ip ino (f : inode -> A) : il !! ip = Some ino -> iget_f (T := T) ip f (st t il k) = Ret (f ino) (st t il k).
Proof. intros Hi. unfold iget_f, mbind, M_bind, arr_get. simpl. by rewrite Hi. Qed.

Lemma iupd_eq t il k ip ino f : il !! ip = Some ino -> iupd (T := T) ip f (st t il k) = Ret tt (st t (<[ip := f ino]> il) k).
Proof. intros Hi. unfold iupd, mbind, M_bind, arr_get. simpl. by rewrite Hi. Qed.

Definition with_addrs (ip : nat) (addrs : list Z) (ino : inode) (il : list inode) : list inode :=
  <[ip := seti_addrs addrs ino]> il.

Lemma with_addrs_id ip ino il : il !! ip = Some ino -> with_addrs ip (i_addrs ino) ino il = il.
Proof. intros Hi. apply list_insert_id. rewrite Hi. by destruct ino. Qed.

(** Allocation while the buffers held, if any, are the file's own. *)
Lemma balloc_grown t v addrs il k X n :
  txn_rep t v -> blk_ok v -> meta_used sb v -> ino_ok sb v addrs -> (size (tv_held v) <= 1)%nat ->
  (forall b, is_Some (tv_held v !! b) -> b <> 0 /\ exists o, slot_in o /\ own v addrs o = b) ->
  bm ∈ X -> fits v X (S n) ->
  (exists b t', bm < b < sb_size sb /\ ~ in_use_blk sb v b /\ balloc ROOTDEV (st t il k) = Ret b (st t' il k) /\
     txn_rep t' (allocated sb b v) /\ fits (allocated sb b v) (X ∪ {[b]}) n) \/
  ((forall c, 0 <= c < sb_size sb -> in_use_blk sb v c) /\ exists t', balloc ROOTDEV (st t il k) = Ret 0 (st t' il k) /\ txn_rep t' v).
Proof.
  intros Hr Hv Hm Hok Hs Hheld HX Hf.
  destruct (balloc_spec sb Hg lk il k t v X n Hr Hv Hf HX Hs Hm) as [(b & t' & Hb & Hn & _ & He & Hr' & Hf')|?].
  - intros b Hb. destruct (Hheld b Hb) as [Hb0 (o & Ho & <-)].
    destruct (addrs_data v addrs o Hok Ho Hb0) as (? & _ & ?). destruct (io_data _ _ _ Hok o Ho Hb0) as [_ ?].
    split_and!; [lia | done | done].
  - left. by exists b, t'.
  - by right.
Qed.

(** Only the contents of the blocks matters. *)
Lemma ino_ok_view v v' addrs : tv_blk v' = tv_blk v -> ino_ok sb v addrs -> ino_ok sb v' addrs.
Proof.
  intros E [K1 K2 K3]. assert (forall o, own v' addrs o = own v addrs o) as Ho by (intros [bn|]; [simpl; unfold blkno; by rewrite E | done]).
  split; [done | |].
  - intros o. rewrite Ho. unfold in_use_blk. rewrite E. apply K2.
  - intros o o'. rewrite !Ho. apply K3.
Qed.

(** A step of [bmap]: from [v] and [addrs], [r] is returned and the file has grown;
    [X'] are the blocks it may log, with room for [n] more. *)
Record mapped (ip : nat) (ino : inode) (il : list inode) (k : kproc) (v : tview) (addrs : list Z) (X : gset Z) (n : nat)
    (out : outcome (fsys T) Z) (r : Z) (t' : T) (v' : tview) (addrs' : list Z) (X' : gset Z) : Prop := {
  mp_out : out = Ret r (st t' (with_addrs ip addrs' ino il) k);
  mp_rep : txn_rep t' v';
  mp_grown : grown v v' addrs addrs';
  mp_sub : X ⊆ X';
  mp_fits : fits v' X' (ind_need addrs' + n);
  mp_ind : addrs' !!! NDIRECT <> 0 -> addrs' !!! NDIRECT ∈ X';
  mp_full : r = 0 -> forall c, 0 <= c < sb_size sb -> in_use_blk sb v' c
}.

Lemma mapped_weaken ip ino il k v addrs X n m out r t' v' addrs' X' : (m <= n)%nat ->
  mapped ip ino il k v addrs X n out r t' v' addrs' X' -> mapped ip ino il k v addrs X m out r t' v' addrs' X'.
Proof. intros Hle [K1 K2 K3 K4 K5 K6 K7]. split; try done. eapply fits_weaken; [| |exact K5]; [done | lia]. Qed.

Section Bmap.
Context (ip : nat) (ino : inode) (il : list inode) (k : kproc).
Context (Hi : il !! ip = Some ino) (Hdev : i_dev ino = ROOTDEV).

(** Entry [i] of the inode: a direct block, or the indirect block. *)
Lemma entry_spec t v X n (i : nat) : let addrs := i_addrs ino in
  txn_rep t v -> blk_ok v -> meta_used sb v -> ino_ok sb v addrs -> tv_held v = ∅ -> (i <= NDIRECT)%nat ->
  bm ∈ X -> (addrs !!! NDIRECT <> 0 -> addrs !!! NDIRECT ∈ X) ->
  fits v X (S ((if decide (i = NDIRECT) then 0 else ind_need addrs) + n)) ->
  addrs !!! i = 0 ->
  exists b t' v' addrs' X',
    mapped ip ino il k v addrs X n
      ((addr ← balloc (i_dev ino);
        when (negb (addr =? 0)) (iupd ip (fun ino => seti_addrs (<[i := addr]> (i_addrs ino)) ino));;
        mret addr) (st t il k)) b t' v' addrs' X' /\
    b = addrs' !!! i /\ (b <> 0 -> b ∈ X').
Proof.
  intros addrs Hr Hv Hm Hok Hheld Hle HX Hind Hfit Hz.
  assert (size (tv_held v) <= 1)%nat as Hs by (rewrite Hheld, map_size_empty; lia).
  assert (forall b, is_Some (tv_held v !! b) -> b <> 0 /\ exists o, slot_in o /\ own v addrs o = b) as Hh.
  { intros b. rewrite Hheld, lookup_empty. by intros []. }
  destruct (bm_range sb Hg) as [Hbm _]. rewrite Hdev.
  destruct (balloc_grown t v addrs il k X _ Hr Hv Hm Hok Hs Hh HX Hfit)
    as [(b & t' & Hb & Hn & He & Hr' & Hf')|(Hfull & t' & He & Hr')]; erewrite bind_ret by exact He.
  - rewrite (proj2 (Z.eqb_neq b 0)) by lia. cbn [negb when]. erewrite bind_ret by (by apply iupd_eq).
    assert ((<[i := b]> addrs) !!! i = b) as Eb by (apply list_lookup_total_insert_eq; rewrite (io_len _ _ _ Hok); lia).
    assert (i <> NDIRECT -> (<[i := b]> addrs) !!! NDIRECT = addrs !!! NDIRECT) as En by (intros; by apply list_lookup_total_insert_ne).
    exists b, t', (allocated sb b v), (<[i := b]> addrs), (X ∪ {[b]}). split; [|split; [done | set_solver]].
    split; [done | done | by apply grown_entry | set_solver | | | lia].
    + unfold ind_need in *. case_decide as Hd; [subst i; rewrite Eb, (proj2 (Z.eqb_neq b 0)) by lia; exact Hf'|]. by rewrite En.
    + destruct (decide (i = NDIRECT)) as [->|Hd]; [rewrite Eb; set_solver|]. rewrite En by done. intros Hn0. specialize (Hind Hn0). set_solver.
  - cbn [Z.eqb negb when]. erewrite bind_ret by reflexivity. exists 0, t', v, addrs, X. split; [|done].
    split; try done.
    + unfold addrs. by rewrite with_addrs_id.
    + by apply grown_refl.
    + eapply fits_weaken; [| |exact Hfit]; [done|]. unfold ind_need. case_decide as Hd; [|lia]. subst i. rewrite Hz. done.
Qed.

(** Word [j] of the indirect block [ind]. *)
Lemma word_spec t v X n addrs (j : nat) : let ind := addrs !!! NDIRECT in let il1 := with_addrs ip addrs ino il in
  txn_rep t v -> blk_ok v -> meta_used sb v -> ino_ok sb v addrs -> tv_held v = ∅ -> (j < NINDIRECT)%nat ->
  bm ∈ X -> ind ∈ X -> ind <> 0 -> fits v X (S n) ->
  exists r t' v' X',
    mapped ip ino il k v addrs X n
     ((bp ← fbread (i_dev ino) ind;
       x ← fdata bp;
       let o := (4 * j)%nat in
       addr ← (if get_uint x o =? 0 then
                 addr ← balloc (i_dev ino);
                 when (negb (addr =? 0)) (
                   x ← fdata bp;
                   fset bp (set_uint o addr x);;
                   flog_write bp);;
                 mret addr
               else mret (get_uint x o));
       fbrelse bp;;
       mret addr) (st t il1 k)) r t' v' addrs X' /\
    r = blkno v' addrs (NDIRECT + j) /\ (r <> 0 -> r ∈ X') /\ (blkno v addrs (NDIRECT + j) <> 0 -> v' = v).
Proof.
  intros ind il1 Hr Hv Hm Hok Hheld Hj HX Hind Hn0 Hfit. destruct (bm_range sb Hg) as [Hbm _]. rewrite Hdev.
  destruct (addrs_data v addrs None Hok I Hn0) as (Hir & Hih & Hib). cbn [own] in Hir, Hih, Hib. fold ind in Hir, Hih, Hib.
  assert (ind_need addrs = 0)%nat as En by (unfold ind_need; fold ind; by rewrite (proj2 (Z.eqb_neq ind 0))).
  destruct (fits_length _ _ _ _ Hr Hfit) as [Hcap Hbuf].
  destruct (k_read sb lk il1 k t v ind Hr) as (h & t1 & He1 & Hr1); [by rewrite Hheld | done | rewrite Hheld, map_size_empty; lia |].
  erewrite bind_ret by exact He1. set (x := tv_blk v ind) in *.
  assert (forall y w, tv_held (hold ind h y w) !! ind = Some (h, y)) as Hl by (intros; simpl; by rewrite lookup_insert_eq).
  erewrite bind_ret by (eapply k_data; [exact Hr1 | apply Hl]). cbv zeta.
  assert (get_uint x (4 * j) = blkno v addrs (NDIRECT + j)) as Eg.
  { unfold blkno. rewrite decide_False by lia. fold ind. rewrite (proj2 (Z.eqb_neq ind 0)) by done. by replace (NDIRECT + j - NDIRECT)%nat with j by lia. }
  rewrite Eg. destruct (Z.eqb_spec (blkno v addrs (NDIRECT + j)) 0) as [Hz|Hz].
  - set (v1 := hold ind h x v) in *.
    assert (forall b, is_Some (tv_held v1 !! b) -> b <> 0 /\ exists o, slot_in o /\ own v1 addrs o = b) as Hh.
    { intros b [y Hy]. simpl in Hy. rewrite Hheld in Hy. apply lookup_insert_Some in Hy as [[<- _]|[_ Hy]]; [|by rewrite lookup_empty in Hy].
      split; [done|]. by exists None. }
    assert (size (tv_held v1) <= 1)%nat as Hs by (simpl; rewrite Hheld, map_size_insert_None, map_size_empty by done; lia).
    destruct (balloc_grown t1 v1 addrs il1 k X n Hr1 Hv Hm (ino_ok_view v v1 addrs eq_refl Hok) Hs Hh HX Hfit)
      as [(b & t2 & Hb & Hn & He2 & Hr2 & Hf2)|(Hfull & t2 & He2 & Hr2)]; rewrite bind_assoc; erewrite bind_ret by exact He2.
    + rewrite (proj2 (Z.eqb_neq b 0)) by lia. cbn [negb when]. rewrite !bind_assoc.
      assert (ind <> b) as Hnb by (apply (fresh_not_own v addrs b Hok Hn ltac:(lia) None I)).
      assert (tv_held (allocated sb b v1) !! ind = Some (h, x)) as Hl2 by (simpl; by rewrite lookup_insert_eq).
      erewrite bind_ret by (eapply k_data; [exact Hr2 | exact Hl2]).
      destruct (k_set sb lk il1 k t2 _ ind h x (set_uint (4 * j) b x) Hr2 Hl2) as (t3 & He3 & Hr3).
      rewrite !bind_assoc. erewrite bind_ret by exact He3.
      destruct (fits_length _ _ _ _ Hr2 Hf2) as [Hcap2 _].
      destruct (k_log sb lk il1 k t3 _ ind h (set_uint (4 * j) b x) Hr3) as (t4 & He4 & Hr4); [apply Hl | done | done | apply Hfit | cbn [hold tv_log tv_cap] in *; lia |].
      erewrite bind_ret by exact He4. erewrite bind_ret by reflexivity.
      destruct (k_relse sb lk il1 k t4 _ ind h Hr4) as (t5 & He5 & Hr5).
      { etransitivity; [apply Hl|]. cbn [record tv_blk]. unfold upd_blk. by rewrite decide_True. }
      erewrite bind_ret by exact He5.
      assert (unhold ind (record ind (set_uint (4 * j) b x) (hold ind h (set_uint (4 * j) b x) (allocated sb b v1))) = entered ind j b (allocated sb b v)) as Ev.
      { unfold unhold, entered, record, hold, allocated, v1. simpl. f_equal.
        - unfold upd_blk. by rewrite !decide_False by done.
        - rewrite insert_insert_eq, Hheld. by rewrite delete_insert_id. }
      rewrite Ev in Hr5. clear Ev. pose proof (grown_word v addrs j b Hv Hm Hok Hj Hn0 Hz Hb Hn) as Hgr.
      exists b, t5, (entered ind j b (allocated sb b v)), (X ∪ {[b]}). split; [|split; [|split; [set_solver | done]]].
      * split; [done | done | done | set_solver | | | lia].
        -- rewrite En. apply fits_record; [set_solver|]. exact Hf2.
        -- intros _. fold ind. set_solver.
      * assert (4 * j + 4 <= length x)%nat as Hlen by (unfold x; rewrite (proj1 (Hv ind)), BSIZE_eq; unfold NINDIRECT in Hj; lia).
        unfold blkno. rewrite decide_False by lia. fold ind. rewrite (proj2 (Z.eqb_neq ind 0)) by done.
        replace (NDIRECT + j - NDIRECT)%nat with j by lia. simpl. unfold upd_blk. rewrite !decide_True, !decide_False by done.
        fold x. symmetry. apply get_set_uint_eq; [done|]. pose proof (g_size _ Hg). unfold BPB, BSIZE in *. lia.
    + cbn [Z.eqb negb when]. erewrite bind_ret by reflexivity.
      destruct (k_relse sb lk il1 k t2 _ ind h Hr2) as (t3 & He3 & Hr3); [apply Hl|].
      erewrite bind_ret by exact He3. unfold v1 in Hr3. rewrite unhold_hold in Hr3 by (by rewrite Hheld).
      exists 0, t3, v, X. split; [|done]. split; try done; [by apply grown_refl|]. rewrite En. eapply fits_weaken; [| |exact Hfit]; [done | lia].
  - erewrite bind_ret by reflexivity.
    destruct (k_relse sb lk il1 k t1 _ ind h Hr1) as (t3 & He3 & Hr3); [apply Hl|].
    erewrite bind_ret by exact He3. rewrite unhold_hold in Hr3 by (by rewrite Hheld).
    exists (blkno v addrs (NDIRECT + j)), t3, v, (X ∪ {[blkno v addrs (NDIRECT + j)]}). split; [|split; [done | split; [set_solver | done]]].
    split; try done; [by apply grown_refl | set_solver | rewrite En; by apply fits_fresh | intros _; fold ind; set_solver].
Qed.

Lemma bmap_spec t v bn X n : let addrs := i_addrs ino in
  txn_rep t v -> blk_ok v -> meta_used sb v -> ino_ok sb v addrs -> tv_held v = ∅ -> (bn < MAXFILE)%nat ->
  bm ∈ X -> (addrs !!! NDIRECT <> 0 -> addrs !!! NDIRECT ∈ X) -> fits v X (S (ind_need addrs + n)) ->
  exists r t' v' addrs' X',
    mapped ip ino il k v addrs X n (bmap ip (Z.of_nat bn) (st t il k)) r t' v' addrs' X' /\
    r = blkno v' addrs' bn /\ (r <> 0 -> r ∈ X') /\ (blkno v addrs bn <> 0 -> v' = v /\ addrs' = addrs).
Proof.
  intros addrs Hr Hv Hm Hok Hheld Hbn HX Hind Hfit. unfold bmap. erewrite bind_ret by (by apply iget_f_eq). unfold id. fold addrs.
  assert (with_addrs ip addrs ino il = il) as Ei by (by apply with_addrs_id).
  destruct (Z.ltb_spec (Z.of_nat bn) (Z.of_nat NDIRECT)) as [Hd|Hd].
  - rewrite Nat2Z.id. cbv zeta.
    assert (forall w l, blkno w l bn = l !!! bn) as Eb by (intros; unfold blkno; by rewrite decide_True by lia).
    destruct (Z.eqb_spec (addrs !!! bn) 0) as [Hz|Hz].
    + destruct (entry_spec t v X n bn Hr Hv Hm Hok Hheld ltac:(lia) HX Hind) as (b & t' & v' & addrs' & X' & Hmp & E1 & E2);
        [by rewrite decide_False by lia | done |]. fold addrs in Hmp.
      exists b, t', v', addrs', X'. split; [|by rewrite !Eb].
      destruct Hmp as [K1 K2 K3 K4 K5 K6 K7]. split; try done. rewrite <- K1. unfold mbind, M_bind.
      destruct (balloc _ _) as [b' ? | | |]; try done. by destruct (Z.eqb_spec b' 0) as [->|].
    + exists (addrs !!! bn), t, v, addrs, (X ∪ {[addrs !!! bn]}). rewrite Eb. split; [|split; [done | split; [set_solver | done]]].
      split; try done; [by rewrite Ei | by apply grown_refl | set_solver | by apply fits_fresh |]. intros Hn0. specialize (Hind Hn0). set_solver.
  - assert (exists j, bn = (NDIRECT + j)%nat /\ (j < NINDIRECT)%nat) as (j & -> & Hj).
    { exists (bn - NDIRECT)%nat. unfold MAXFILE in Hbn. lia. }
    cbv zeta. replace (Z.of_nat (NDIRECT + j) - Z.of_nat NDIRECT) with (Z.of_nat j) by lia.
    rewrite (proj2 (Z.ltb_lt (Z.of_nat j) _)) by lia. rewrite Nat2Z.id.
    assert (exists a t1 v1 addrs1 X1, mapped ip ino il k v addrs X (S n)
      ((if addrs !!! NDIRECT =? 0 then
          addr ← balloc (i_dev ino);
          when (negb (addr =? 0)) (iupd ip (fun ino => seti_addrs (<[NDIRECT := addr]> (i_addrs ino)) ino));;
          mret addr
        else mret (addrs !!! NDIRECT)) (st t il k)) a t1 v1 addrs1 X1 /\
      a = addrs1 !!! NDIRECT /\ (blkno v addrs (NDIRECT + j) <> 0 -> v1 = v /\ addrs1 = addrs)) as (a & t1 & v1 & addrs1 & X1 & Hmp & Ea & Hsame).
    { destruct (Z.eqb_spec (addrs !!! NDIRECT) 0) as [Hz|Hz].
      - destruct (entry_spec t v X (S n) NDIRECT Hr Hv Hm Hok Hheld ltac:(lia) HX Hind) as (b & t' & v' & addrs' & X' & Hmp & E1 & E2); try done.
        { rewrite decide_True by done. revert Hfit. unfold ind_need. rewrite Hz. done. }
        exists b, t', v', addrs', X'. split; [done|]. split; [done|]. unfold blkno. rewrite decide_False by lia. by rewrite Hz.
      - exists (addrs !!! NDIRECT), t, v, addrs, X. split; [|done].
        split; try done; [by rewrite Ei | by apply grown_refl | eapply fits_weaken; [| |exact Hfit]; [done | lia]]. }
    destruct Hmp as [K1 K2 K3 K4 K5 K6 K7]. erewrite bind_ret by exact K1.
    destruct (Z.eqb_spec a 0) as [Ha0|Ha0].
    + exists 0, t1, v1, addrs1, X1. split; [|split; [|done]].
      * split; try done; [|intros _; by apply K7]. eapply fits_weaken; [| |exact K5]; [done | lia].
      * unfold blkno. rewrite decide_False by lia. by rewrite <- Ea, Ha0.
    + rewrite Ea in Ha0 |- *.
      destruct (word_spec t1 v1 X1 n addrs1 j K2 (gr_blk _ _ _ _ K3) (gr_meta _ _ _ _ K3) (gr_ok _ _ _ _ K3)) as (r & t2 & v2 & X2 & Hmp2 & Er & Hr2 & Hs2); try done.
      { by rewrite (gr_held _ _ _ _ K3). } { set_solver. } { by apply K6. } { eapply fits_weaken; [| |exact K5]; [done | lia]. }
      destruct Hmp2 as [J1 J2 J3 J4 J5 J6 J7]. exists r, t2, v2, addrs1, X2. split; [|split; [done | split; [done|]]].
      * split; try done; [by eapply grown_trans | set_solver].
      * intros Hb. destruct (Hsame Hb) as [-> ->]. split; [by apply Hs2 | done].
Qed.
(** A block that is there: no transaction is needed. *)
Lemma bmap_there t v bn : txn_rep t v -> tv_held v = ∅ -> (length (tv_log v) < NBUF)%nat -> ino_ok sb v (i_addrs ino) ->
  (bn < MAXFILE)%nat -> blkno v (i_addrs ino) bn <> 0 ->
  exists t', bmap ip (Z.of_nat bn) (st t il k) = Ret (blkno v (i_addrs ino) bn) (st t' il k) /\ txn_rep t' v.
Proof.
  intros Hr Hheld Hlog Hok Hbn Hne. set (addrs := i_addrs ino) in *. unfold bmap.
  erewrite bind_ret by (by apply iget_f_eq). unfold id. fold addrs. cbv zeta. unfold blkno in Hne |- *.
  destruct (Z.ltb_spec (Z.of_nat bn) (Z.of_nat NDIRECT)) as [Hd|Hd].
  - rewrite decide_True in Hne |- * by lia. rewrite Nat2Z.id, (proj2 (Z.eqb_neq _ 0)) by done. by exists t.
  - rewrite decide_False in Hne |- * by lia. destruct (Z.eqb_spec (addrs !!! NDIRECT) 0) as [|Hi0]; [done|].
    rewrite (proj2 (Z.ltb_lt _ (Z.of_nat NINDIRECT))) by (unfold MAXFILE in Hbn; lia).
    erewrite bind_ret by reflexivity. rewrite (proj2 (Z.eqb_neq (addrs !!! NDIRECT) 0)) by done. rewrite Hdev.
    destruct (addrs_data v addrs None Hok I Hi0) as (Hir & _ & _). cbn [own] in Hir.
    destruct (k_read sb lk il k t v (addrs !!! NDIRECT) Hr) as (h & t1 & He1 & Hr1); [by rewrite Hheld | done | rewrite Hheld, map_size_empty; lia |].
    erewrite bind_ret by exact He1. erewrite bind_ret by (eapply k_data; [exact Hr1 | simpl; by rewrite lookup_insert_eq]).
    replace (Z.to_nat (Z.of_nat bn - Z.of_nat NDIRECT)) with (bn - NDIRECT)%nat by lia.
    rewrite (proj2 (Z.eqb_neq _ 0)) by done. erewrite bind_ret by reflexivity.
    destruct (k_relse sb lk il k t1 _ (addrs !!! NDIRECT) h Hr1) as (t2 & He2 & Hr2); [simpl; by rewrite lookup_insert_eq|].
    erewrite bind_ret by exact He2. rewrite unhold_hold in Hr2 by (by rewrite Hheld). by exists t2.
Qed.
End Bmap.
End Files.
