(* ===== verification/FsInode.v ===== *)
(** * FsInode: inodes on disk and in the table, [kernel/fs.c]

    The 64 bytes of a [struct dinode] and their fields, [iupdate] and [ilock] as a
    round trip through the inode's block, and the table of inodes in memory with its
    reference counts: [iget], [idup] and [iput]. *)

From S2P Require Import Prelude CString Riscv Kalloc Vm Sleeplock BufCache Log Txn Proc Fs FsBlocks FsFiles.

(** ** The encoding *)

Definition dinode_bytes (i : inode) : list Z :=
  le_split 2 (i_type i) ++ le_split 2 (i_major i) ++ le_split 2 (i_minor i) ++ le_split 2 (i_nlink i) ++
  le_split 4 (i_size i) ++ concat (le_split 4 <$> i_addrs i).

Lemma length_words l : length (concat (le_split 4 <$> l)) = (4 * length l)%nat.
Proof. induction l as [|x l IH]; [done|]. cbn [fmap list_fmap concat]. rewrite length_app, IH, length_le_split. simpl. lia. Qed.

Lemma length_dinode i : length (i_addrs i) = S NDIRECT -> length (dinode_bytes i) = 64%nat.
Proof. intros Hl. unfold dinode_bytes. rewrite !length_app, !length_le_split, length_words, Hl. done. Qed.

Lemma splice_next {A} (x : list A) o l1 l2 n : n = (o + length l1)%nat -> (o + length l1 + length l2 <= length x)%nat ->
  splice (splice x o l1) n l2 = splice x o (l1 ++ l2).
Proof. intros -> Hl. by apply splice_splice. Qed.

Lemma put_dinode_eq o i x : length (i_addrs i) = S NDIRECT -> (o + 64 <= length x)%nat ->
  put_dinode o i x = splice x o (dinode_bytes i).
Proof.
  intros Hl Hx. unfold put_dinode, set_short, set_uint. cbv zeta. pose proof (length_words (i_addrs i)) as Hw. rewrite Hl in Hw.
  change (4 * S NDIRECT)%nat with 52%nat in Hw.
  do 5 (rewrite (splice_next x o) by (rewrite ?length_app, ?length_le_split, ?Hw; simpl; lia)). unfold dinode_bytes. by rewrite <- !app_assoc.
Qed.

(** The fields are in the range of their C types. *)
Definition i16_range (z : Z) : Prop := - 2 ^ 15 <= z < 2 ^ 15.
Record ino_range (i : inode) : Prop := {
  ir_type : i16_range (i_type i);
  ir_major : i16_range (i_major i);
  ir_minor : i16_range (i_minor i);
  ir_nlink : i16_range (i_nlink i);
  ir_size : 0 <= i_size i < 2 ^ 32;
  ir_len : length (i_addrs i) = S NDIRECT;
  ir_addrs : Forall (fun a => 0 <= a < 2 ^ 32) (i_addrs i)
}.

Lemma i16_split z : i16_range z -> i16 (le_join (le_split 2 z)) = z.
Proof. unfold i16_range, i16. intros Hz. rewrite le_join_split. change (256 ^ Z.of_nat 2) with (2 ^ 16). Z.to_euclidean_division_equations. lia. Qed.

Lemma u32_split z : 0 <= z < 2 ^ 32 -> le_join (le_split 4 z) = z.
Proof. intros Hz. rewrite le_join_split. change (256 ^ Z.of_nat 4) with (2 ^ 32). by apply Z.mod_small. Qed.

Lemma word_at l j a : l !! j = Some a -> take 4 (drop (4 * j) (concat (le_split 4 <$> l))) = le_split 4 a.
Proof.
  revert j. induction l as [|x l IH]; intros [|j]; try done.
  - by intros [= ->].
  - replace (4 * S j)%nat with (4 + 4 * j)%nat by lia. simpl. intros Hj. by apply IH.
Qed.

(** The fields of [i] that are on disk, in the in-memory inode [j]. *)
Definition loaded (i j : inode) : inode :=
  Inode (i_dev j) (i_inum j) (i_ref j) (i_lock j) (i_valid j) (i_type i) (i_major i) (i_minor i) (i_nlink i) (i_size i) (i_addrs i).

(** [get] reads what [put] wrote; the other inodes of the block are as they were. *)
Lemma get_put_dinode o i x j : ino_range i -> (o + 64 <= length x)%nat ->
  get_dinode o (put_dinode o i x) j = loaded i j.
Proof.
  intros [R1 R2 R3 R4 R5 Hl Ha] Hx. rewrite put_dinode_eq by done. pose proof (length_dinode i Hl) as Hd.
  assert (forall m k, (m + k <= 64)%nat -> take k (drop (o + m) (splice x o (dinode_bytes i))) = take k (drop m (dinode_bytes i))) as Hp.
  { intros m k Hk. apply take_drop_splice_part; lia. }
  unfold loaded, get_dinode, get_short, get_uint, seti_addrs, seti_size, seti_nlink, seti_minor, seti_major, seti_type. cbn [i_dev i_inum i_ref i_lock i_valid i_type i_major i_minor i_nlink i_size].
  f_equal.
  - rewrite <- (i16_split (i_type i) R1). do 2 f_equal. rewrite <- (Nat.add_0_r o) at 1. rewrite Hp by lia. done.
  - rewrite <- (i16_split (i_major i) R2). do 2 f_equal. rewrite Hp by lia. done.
  - rewrite <- (i16_split (i_minor i) R3). do 2 f_equal. rewrite Hp by lia. done.
  - rewrite <- (i16_split (i_nlink i) R4). do 2 f_equal. rewrite Hp by lia. done.
  - rewrite <- (u32_split (i_size i) R5). do 2 f_equal. rewrite Hp by lia. done.
  - apply list_eq. intros n. rewrite list_lookup_fmap. destruct (decide (n < S NDIRECT)%nat) as [Hn|Hn].
    + rewrite lookup_seq_lt by done. simpl fmap. destruct (lookup_lt_is_Some_2 (i_addrs i) n) as [a En]; [lia|]. rewrite En. f_equal.
      rewrite <- Nat.add_assoc, Hp by (unfold NDIRECT in Hn; lia). rewrite <- (u32_split a); [|exact (Forall_lookup_1 _ _ _ _ Ha En)].
      f_equal. rewrite <- (word_at _ _ _ En). done.
    + rewrite lookup_seq_ge, lookup_ge_None_2 by lia. done.
Qed.

Lemma get_put_other o o' i x j : length (i_addrs i) = S NDIRECT -> (o + 64 <= length x)%nat -> (o' + 64 <= o \/ o + 64 <= o')%nat ->
  get_dinode o' (put_dinode o i x) j = get_dinode o' x j.
Proof.
  intros Hl Hx Hd. rewrite put_dinode_eq by done. pose proof (length_dinode i Hl) as Hlen.
  assert (forall m k, (m + k <= 64)%nat -> take k (drop (o' + m) (splice x o (dinode_bytes i))) = take k (drop (o' + m) x)) as Hp.
  { intros m k Hk. apply take_drop_splice_out; lia. }
  unfold get_dinode, get_short, get_uint. f_equal.
  - apply list_fmap_ext. intros n a [-> Hn]%lookup_seq. rewrite Nat.add_0_l, <- Nat.add_assoc, Hp by (unfold NDIRECT in Hn; lia). done.
  - f_equal; [by rewrite Hp by lia|]. f_equal; [by rewrite Hp by lia|]. f_equal; [by rewrite Hp by lia|]. f_equal; [by rewrite Hp by lia|].
    pose proof (Hp 0%nat 2%nat ltac:(lia)) as E. rewrite Nat.add_0_r in E. by rewrite E.
Qed.

Lemma put_dinode_ok o i x : length (i_addrs i) = S NDIRECT -> (o + 64 <= length x)%nat ->
  length x = Z.to_nat BSIZE /\ Forall byte_range x -> length (put_dinode o i x) = Z.to_nat BSIZE /\ Forall byte_range (put_dinode o i x).
Proof.
  intros Hl Hx [Hlen Hb]. rewrite put_dinode_eq by done. rewrite length_splice by (by rewrite length_dinode). split; [done|].
  apply splice_bytes; [done|]. unfold dinode_bytes. rewrite !Forall_app. split_and!; try apply le_split_bytes.
  apply Forall_concat, Forall_fmap, Forall_true. intros a. apply le_split_bytes.
Qed.

Section Inodes.
Context {T : Type} `{TxnLaws T}.
Context (sb : superblock) (Hg : geom sb) (lk : spin).

Abbreviation st t il k := (FSys t sb lk il k).
Abbreviation bm := (sb_bmapstart sb).

(** The inode's block lies between the log and the bitmap. *)
Lemma IBLOCK_range inum : 0 <= inum < sb_ninodes sb -> sb_inodestart sb <= IBLOCK inum sb < bm /\ 0 <= IBLOCK inum sb < 2 ^ 32 /\ home (IBLOCK inum sb).
Proof.
  intros Hi. pose proof (g_bmap _ Hg). pose proof (g_inode _ Hg). pose proof (g_size _ Hg). unfold IBLOCK, IPB, BPB, BSIZE in *.
  assert (0 <= inum / 16) by (apply Z.div_pos; lia). assert (inum / 16 <= sb_ninodes sb / 16) by (apply Z.div_le_mono; lia).
  split_and!; try lia. apply Hg. lia.
Qed.

Lemma di_base_range inum : (di_base inum + 64 <= Z.to_nat BSIZE)%nat.
Proof. unfold di_base, IPB. pose proof (Z.mod_pos_bound inum 16 ltac:(lia)). rewrite BSIZE_eq. lia. Qed.

(** Inodes of one block have different places. *)
Lemma di_base_ne inum inum' : 0 <= inum -> 0 <= inum' -> inum <> inum' -> IBLOCK inum sb = IBLOCK inum' sb ->
  (di_base inum + 64 <= di_base inum' \/ di_base inum' + 64 <= di_base inum)%nat.
Proof.
  intros Hi Hi' Hne E. unfold IBLOCK, di_base, IPB in *. assert (inum / 16 = inum' / 16) by lia.
  pose proof (Z.mod_pos_bound inum 16 ltac:(lia)). pose proof (Z.mod_pos_bound inum' 16 ltac:(lia)).
  assert (inum mod 16 <> inum' mod 16) by (intros E'; apply Hne; rewrite (Z.div_mod inum 16), (Z.div_mod inum' 16) by lia; congruence). lia.
Qed.

(** A block before the bitmap is no file's: writing it leaves the files alone. *)
Lemma own_meta v a b y : ino_ok sb v a -> 0 <= b < bm -> forall o, own (record b y v) a o = own v a o.
Proof.
  intros Hok Hb [bn|]; [|done]. cbn [own]. unfold blkno. case_decide; [done|].
  destruct (Z.eqb_spec (a !!! NDIRECT) 0) as [|Hi]; [done|]. cbn [record tv_blk]. unfold upd_blk. rewrite decide_False; [done|].
  destruct (io_data _ _ _ Hok None I Hi) as [Hr _]. simpl in Hr. lia.
Qed.

Lemma use_meta v b y c : 0 <= b < bm -> in_use_blk sb (record b y v) c <-> in_use_blk sb v c.
Proof. intros Hb. unfold in_use_blk. simpl. unfold upd_blk. by rewrite decide_False by lia. Qed.

Lemma ino_ok_meta v a b y : ino_ok sb v a -> 0 <= b < bm -> ino_ok sb (record b y v) a.
Proof.
  intros Hok Hb. pose proof (own_meta v a b y Hok Hb) as Ho. destruct Hok as [K1 K2 K3]. split; [done | |].
  - intros o. rewrite Ho, use_meta by done. apply K2.
  - intros o o'. rewrite !Ho. apply K3.
Qed.

Lemma fbyte_meta v a b y p : ino_ok sb v a -> 0 <= b < bm -> 0 <= p < Z.of_nat MAXFILE * BSIZE -> fbyte (record b y v) a p = fbyte v a p.
Proof.
  intros Hok Hb Hp. unfold fbyte. rewrite (own_meta v a b y Hok Hb (Some (Z.to_nat (p / BSIZE))) : blkno _ _ _ = blkno _ _ _).
  destruct (Z.eqb_spec (blkno v a (Z.to_nat (p / BSIZE))) 0) as [|Hn]; [done|]. simpl. unfold upd_blk. rewrite decide_False; [done|].
  destruct (io_data _ _ _ Hok (Some (Z.to_nat (p / BSIZE)))) as [Hr _]; [|done|simpl in Hr; lia].
  simpl. assert (p / BSIZE < Z.of_nat MAXFILE) by (apply Z.div_lt_upper_bound; unfold BSIZE in *; lia).
  pose proof (Z.div_pos p BSIZE ltac:(lia) ltac:(done)). lia.
Qed.

Lemma meta_meta v b y : meta_used sb v -> 0 <= b < bm -> meta_used sb (record b y v).
Proof. intros Hm Hb c Hc. rewrite use_meta by done. by apply Hm. Qed.

(** The copy of inode [inum] on disk. *)
Definition disk_inode (v : tview) (inum : Z) (i : inode) : inode := get_dinode (di_base inum) (tv_blk v (IBLOCK inum sb)) i.

Definition updated (i : inode) (v : tview) : tview :=
  record (IBLOCK (i_inum i) sb) (put_dinode (di_base (i_inum i)) i (tv_blk v (IBLOCK (i_inum i) sb))) v.

Lemma iupdate_spec t v il k ip i X n : txn_rep t v -> tv_held v = ∅ -> il !! ip = Some i -> i_dev i = ROOTDEV ->
  0 <= i_inum i < sb_ninodes sb -> fits v X n ->
  exists t', iupdate ip (st t il k) = Ret tt (st t' il k) /\ txn_rep t' (updated i v).
Proof.
  intros Hr Hheld Hi Hdev Hnum Hfit. destruct (IBLOCK_range (i_inum i) Hnum) as (_ & Hb & Hh).
  destruct (k_change sb lk il k t v (IBLOCK (i_inum i) sb) (put_dinode (di_base (i_inum i)) i) X n Hr) as (t' & He & Hr'); try done.
  { by rewrite Hheld. } { rewrite Hheld, map_size_empty. lia. }
  exists t'. split; [|done]. unfold iupdate. erewrite bind_ret by reflexivity. erewrite bind_ret by (by apply iget_f_eq).
  unfold id. rewrite Hdev. exact He.
Qed.

Lemma updated_blk_ok i v : length (i_addrs i) = S NDIRECT -> blk_ok v -> blk_ok (updated i v).
Proof.
  intros Hl Hv. apply blk_ok_record; [done|]. apply put_dinode_ok; [done | | apply Hv]. rewrite (proj1 (Hv _)). apply di_base_range.
Qed.

(** [iupdate] then a read of the inode, of this or of another one. *)
Lemma updated_disk i v inum j : blk_ok v -> ino_range i -> 0 <= inum -> 0 <= i_inum i ->
  disk_inode (updated i v) inum j =
  if decide (inum = i_inum i) then loaded i j else disk_inode v inum j.
Proof.
  intros Hv Hi Hn Hn'. unfold disk_inode, updated. cbn [record tv_blk]. unfold upd_blk. pose proof (di_base_range (i_inum i)) as Hb.
  destruct (decide (inum = i_inum i)) as [->|Hne].
  - rewrite decide_True by done. rewrite get_put_dinode; try done. by rewrite (proj1 (Hv _)).
  - case_decide as E; [|done]. rewrite E. apply get_put_other; [apply Hi | by rewrite (proj1 (Hv _)) |].
    pose proof (di_base_ne inum (i_inum i) Hn Hn' Hne E). lia.
Qed.
End Inodes.
