(* ===== verification/FsIO.v ===== *)
(** * FsIO: [readi] and [writei] of [kernel/fs.c]

    The data of a file goes through a buffer: the block is in the buffer's memory
    while [either_copyin] or [either_copyout] runs.  Where the other end of the copy
    lies, in kernel memory or in the memory of the process, is kept apart: [gives]
    and [takes] say what the loops need of it, and are shown for both. *)

From S2P Require Import Prelude CString Riscv Kalloc Vm UserMem Sleeplock BufCache Log Txn Proc Fs FsBlocks FsFiles FsInode.

(** ** Changes of a file *)

Section Evolves.
Context {T : Type} `{TxnLaws T}.
Context (sb : superblock) (Hg : geom sb).

Abbreviation bm := (sb_bmapstart sb).

(** The file may have got new blocks, and what its data blocks contain may have
    changed; nothing else has, the bitmap apart. *)
Record evolves (v v' : tview) (addrs addrs' : list Z) : Prop := {
  ev_ext : extends sb v v' addrs;
  ev_ok : ino_ok sb v' addrs';
  ev_blk : blk_ok v';
  ev_meta : meta_used sb v';
  ev_held : tv_held v' = tv_held v;
  ev_keep : forall bn, (bn < MAXFILE)%nat -> blkno v addrs bn <> 0 -> blkno v' addrs' bn = blkno v addrs bn;
  ev_new : forall o, slot_in o -> own v' addrs' o <> 0 ->
    own v addrs o = own v' addrs' o \/ ~ in_use_blk sb v (own v' addrs' o)
}.

Lemma grown_evolves v v' a a' : grown sb v v' a a' -> evolves v v' a a'.
Proof. intros [K1 K2 K3 K4 K5 K6 K7 K8]. split; try done. intros bn Hbn Hne. by apply K6. Qed.

Lemma evolves_refl v a : blk_ok v -> meta_used sb v -> ino_ok sb v a -> evolves v v a a.
Proof. intros. by apply grown_evolves, grown_refl. Qed.

Lemma evolves_trans v1 v2 v3 a1 a2 a3 : evolves v1 v2 a1 a2 -> evolves v2 v3 a2 a3 -> evolves v1 v3 a1 a3.
Proof.
  intros [E1 E2 E3 E4 E5 E6 E7] [F1 F2 F3 F4 F5 F6 F7]. split; try done.
  - eapply extends_trans; [done | exact F1 |]. intros o Hs Hne. destruct (E7 o Hs Hne) as [E|E]; [right; by exists o | by left].
  - congruence.
  - intros bn Hbn Hne. rewrite <- (E6 bn Hbn Hne) in Hne |- *. by apply F6.
  - intros o Hs Hne. destruct (F7 o Hs Hne) as [E|E].
    + rewrite <- E. apply E7; [done | congruence].
    + right. intros Hu. apply E. apply (ex_use _ _ _ _ E1); [|done].
      destruct (addrs_data sb Hg v3 a3 o F2 Hs Hne) as [? _]. lia.
Qed.

(** Writing a data block of the file. *)
Lemma own_data v a bn y : ino_ok sb v a -> (bn < MAXFILE)%nat -> blkno v a bn <> 0 ->
  forall o, own (record (blkno v a bn) y v) a o = own v a o.
Proof.
  intros Hok Hbn Hne [bn'|]; [|done]. cbn [own]. unfold blkno at 1 3. case_decide; [done|].
  destruct (Z.eqb_spec (a !!! NDIRECT) 0) as [|Hi]; [done|]. cbn [record tv_blk]. unfold upd_blk. rewrite decide_False; [done|].
  intros E. by pose proof (io_inj _ _ _ Hok None (Some bn) I Hbn Hi E).
Qed.

Lemma evolves_data v a bn y : blk_ok v -> meta_used sb v -> ino_ok sb v a -> (bn < MAXFILE)%nat -> blkno v a bn <> 0 ->
  length y = Z.to_nat BSIZE /\ Forall byte_range y -> evolves v (record (blkno v a bn) y v) a a.
Proof.
  intros Hv Hm Hok Hbn Hne Hy. set (b := blkno v a bn) in *. pose proof (own_data v a bn y Hok Hbn Hne) as Ho. fold b in Ho.
  destruct (addrs_data sb Hg v a (Some bn) Hok Hbn Hne) as (Hr & _ & Hnb). cbn [own] in Hr, Hnb. fold b in Hr, Hnb.
  assert (forall c, c <> b -> tv_blk (record b y v) c = tv_blk v c) as Hc by (intros; simpl; unfold upd_blk; by rewrite decide_False).
  assert (forall c, in_use_blk sb (record b y v) c <-> in_use_blk sb v c) as Hu by (intros c; unfold in_use_blk; by rewrite Hc).
  split.
  - split; try done; [intros c _; by rewrite Hu|]. intros c Hc0 Huc Hnc Hno. apply Hc. intros ->. by apply (Hno (Some bn)).
  - split; [apply Hok | |].
    + intros o Hs. rewrite Ho, Hu. by apply Hok.
    + intros o o'. rewrite !Ho. apply Hok.
  - by apply blk_ok_record.
  - intros c Hc0. rewrite Hu. by apply Hm.
  - done.
  - intros bn' Hbn' _. apply (Ho (Some bn')).
  - intros o Hs _. left. by rewrite Ho.
Qed.

Lemma fbyte_data v a bn y p : ino_ok sb v a -> (bn < MAXFILE)%nat -> blkno v a bn <> 0 -> 0 <= p < Z.of_nat MAXFILE * BSIZE ->
  fbyte (record (blkno v a bn) y v) a p = if decide (Z.to_nat (p / BSIZE) = bn) then byte_at y (p mod BSIZE) else fbyte v a p.
Proof.
  intros Hok Hbn Hne Hp. unfold fbyte. rewrite (own_data v a bn y Hok Hbn Hne (Some (Z.to_nat (p / BSIZE))) : blkno _ _ _ = blkno _ _ _).
  assert (Z.to_nat (p / BSIZE) < MAXFILE)%nat as Hpn.
  { assert (p / BSIZE < Z.of_nat MAXFILE) by (apply Z.div_lt_upper_bound; unfold BSIZE in *; lia).
    pose proof (Z.div_pos p BSIZE ltac:(lia) ltac:(done)). lia. }
  destruct (decide (Z.to_nat (p / BSIZE) = bn)) as [->|Hd].
  - rewrite (proj2 (Z.eqb_neq _ 0)) by done. simpl. unfold upd_blk. by rewrite decide_True.
  - destruct (Z.eqb_spec (blkno v a (Z.to_nat (p / BSIZE))) 0) as [|Hn0]; [done|]. simpl. unfold upd_blk. rewrite decide_False; [done|].
    intros E. pose proof (io_inj _ _ _ Hok (Some _) (Some bn) Hpn Hbn Hn0 E). congruence.
Qed.

(** Every block below [size] is there. *)
Definition full (v : tview) (addrs : list Z) (size : Z) : Prop :=
  forall bn, (bn < MAXFILE)%nat -> Z.of_nat bn * BSIZE < size -> blkno v addrs bn <> 0.

Lemma full_evolves v v' a a' size : evolves v v' a a' -> full v a size -> full v' a' size.
Proof. intros He Hf bn Hbn Hs. rewrite (ev_keep _ _ _ _ He) by auto. auto. Qed.
End Evolves.

(** ** The two ends of a copy *)

Definition mem_of (k : kproc) : mem := kmem_mem (km k).
Definition kmem_at (m : mem) (k : kproc) : kproc := setk_km (set_mem m (km k)) k.

Lemma kmem_at_at m m' k : kmem_at m (kmem_at m' k) = kmem_at m k.
Proof. done. Qed.
Lemma kmem_at_id k : kmem_at (mem_of k) k = k.
Proof. unfold kmem_at, mem_of, setk_km. destruct k as [? ? ? ? ? ? kk]; by destruct kk. Qed.

Section Ends.
Variable buf_addr : nat -> Z.

(** The memory of the buffers. *)
Definition bufmem (a : Z) : Prop := exists h, buf_addr h <= a < buf_addr h + BSIZE.

(** The same state but for the memory at [W]. *)
Definition same_but (W : Z -> Prop) (k k' : kproc) : Prop :=
  exists m, k' = kmem_at m k /\ forall a, ~ W a -> rd m a = rd (mem_of k) a.

Lemma same_but_refl W k : same_but W k k.
Proof. exists (mem_of k). split; [by rewrite kmem_at_id | done]. Qed.

Lemma same_but_trans (W : Z -> Prop) k1 k2 k3 : same_but W k1 k2 -> same_but W k2 k3 -> same_but W k1 k3.
Proof. intros (m & -> & Hm) (m' & -> & Hm'). exists m'. split; [done|]. intros a Ha. rewrite Hm' by done. by apply Hm. Qed.

Lemma same_but_mono (W W' : Z -> Prop) k k' : (forall a, W a -> W' a) -> same_but W k k' -> same_but W' k k'.
Proof. intros Hi (m & -> & Hm). exists m. split; [done|]. intros a Ha. apply Hm. auto. Qed.

(** [either_copyin] from [src] delivers the bytes [bs], whatever the buffers hold. *)
Definition gives (user_src : bool) (k : kproc) (src : Z) (bs : list Z) : Prop :=
  Forall byte_range bs /\
  forall k' h o i n, same_but bufmem k k' -> 0 <= o -> 0 < n -> o + n <= BSIZE -> 0 <= i -> i + n <= Z.of_nat (length bs) ->
  exists m, either_copyin (buf_addr h + o) user_src (u64 (src + i)) n k' = Ret 0 (kmem_at m k') /\
    forall a, rd m a = if decide (buf_addr h + o <= a < buf_addr h + o + n) then bs !!! Z.to_nat (i + (a - (buf_addr h + o))) else rd (mem_of k') a.

(** [either_copyout] to [dst] stores [n] bytes; the [i]-th goes to [loc i]. *)
Definition takes (user_dst : bool) (k : kproc) (dst n : Z) (loc : Z -> Z) : Prop :=
  let W a := bufmem a \/ exists j, 0 <= j < n /\ a = loc j in
  (forall i, 0 <= i < n -> ~ bufmem (loc i)) /\
  (forall i j, 0 <= i < n -> 0 <= j < n -> loc i = loc j -> i = j) /\
  forall k' h o i l, same_but W k k' -> 0 <= o -> 0 < l -> o + l <= BSIZE -> 0 <= i -> i + l <= n ->
  exists m, either_copyout user_dst (u64 (dst + i)) (buf_addr h + o) l k' = Ret 0 (kmem_at m k') /\
    (forall j, i <= j < i + l -> rd m (loc j) = rd (mem_of k') (buf_addr h + o + (j - i))) /\
    (forall a, (forall j, i <= j < i + l -> a <> loc j) -> rd m a = rd (mem_of k') a).

(** [either_copyout] to [dst] returns 0 or -1 and changes memory only at [W]. *)
Definition may_take (user_dst : bool) (k : kproc) (dst n : Z) (W : Z -> Prop) : Prop :=
  (forall a, bufmem a -> W a) /\
  forall k' h o i l, same_but W k k' -> 0 <= o -> 0 < l -> o + l <= BSIZE -> 0 <= i -> i + l <= n ->
  exists r m, either_copyout user_dst (u64 (dst + i)) (buf_addr h + o) l k' = Ret r (kmem_at m k') /\
    (r = 0 \/ r = -1) /\ same_but W k' (kmem_at m k').

(** A part of the [n] bytes at [dst] cannot be stored. *)
Definition refuses (user_dst : bool) (dst n : Z) : Prop :=
  exists i l src k k', 0 <= i /\ 0 < l /\ i + l <= n /\ either_copyout user_dst (u64 (dst + i)) src l k = Ret (-1) k'.

(** Kernel memory away from the buffers. *)
Lemma gives_kernel k src bs : Forall byte_range bs -> 0 <= src -> src + Z.of_nat (length bs) < 2 ^ 64 ->
  (forall i, 0 <= i < Z.of_nat (length bs) -> ~ bufmem (src + i) /\ rd (mem_of k) (src + i) = bs !!! Z.to_nat i) ->
  gives false k src bs.
Proof.
  intros Hb Hs Hr Hmem. split; [done|]. intros k' h o i n (m & -> & Hm) Ho Hn Hon Hi Hin.
  assert (u64 (src + i) = src + i) as -> by (apply Z.mod_small; lia).
  eexists. split; [reflexivity|]. intros a. cbn [kmem_at km]. change (kmem_mem _) with m. rewrite KString.memmove_rd by lia.
  case_decide as Ha; [|done]. destruct (Hmem (i + (a - (buf_addr h + o)))) as [Hnb <-]; [lia|].
  rewrite <- Hm by done. f_equal. lia.
Qed.

Lemma takes_kernel k dst n : 0 <= dst -> dst + n < 2 ^ 64 -> (forall i, 0 <= i < n -> ~ bufmem (dst + i)) ->
  takes false k dst n (fun i => dst + i).
Proof.
  intros Hd Hr Hnb. split_and!; [done | lia |]. intros k' h o i l (m & -> & Hm) Ho Hl Hol Hi Hil.
  assert (u64 (dst + i) = dst + i) as -> by (apply Z.mod_small; lia).
  eexists. split; [reflexivity|]. cbn [kmem_at km]. change (kmem_mem _) with m. split.
  - intros j Hj. rewrite KString.memmove_rd, decide_True by lia. change (mem_of (kmem_at m k)) with m. f_equal. lia.
  - intros a Ha. rewrite KString.memmove_rd, decide_False by (lia || (intros ?; apply (Ha (a - dst)); lia)). done.
Qed.
(** The memory of the current process. *)
Section User.
Context (kend : Z) (Hend : KERNBASE <= kend <= PHYSTOP).
Context (k : kproc) (i : nat) (p : proc) (P : pt) (np : nat) (free : list Z).
Context (Hcur : cur k = Some i) (Hp : procs k !! i = Some p).
Context (Hus : uspace kend (km k) P (p_pagetable p) np free).
Context (Hbuf : forall h, kbuf P np free (buf_addr h) BSIZE).

Lemma bufmem_pages a : PGROUNDDOWN a ∈ owned P np ++ free -> ~ bufmem a.
Proof. intros Ha (h & Hh). apply (Hbuf h (a - buf_addr h)); [lia|]. by replace (buf_addr h + (a - buf_addr h)) with a by lia. Qed.

Lemma phys_page va : 0 <= va -> umapped P va -> PGROUNDDOWN (phys P va) ∈ pas np 0 (leaf P).
Proof. intros Hva Hu. by destruct (umapped_owned kend _ _ _ _ _ va Hus Hva Hu) as (_ & -> & ? & _). Qed.

Lemma phys_buf va : 0 <= va -> umapped P va -> ~ bufmem (phys P va).
Proof. intros Hva Hu. apply bufmem_pages. unfold owned. rewrite !elem_of_app. left. right. by apply phys_page. Qed.

Lemma user_space m W : (forall a, W a -> PGROUNDDOWN a ∉ tables P ++ free) ->
  (forall a, ~ W a -> rd m a = rd (mem_of k) a) -> uspace kend (set_mem m (km k)) P (p_pagetable p) np free.
Proof. intros HW Hm. apply uspace_data; [done|]. intros a Ha. apply Hm. intros Hin. by apply (HW a). Qed.

Lemma buf_tables a : bufmem a -> PGROUNDDOWN a ∉ tables P ++ free.
Proof. intros Hb Hin. apply (bufmem_pages a); [|done]. unfold owned. rewrite !elem_of_app in *. tauto. Qed.

Lemma va_u64 va : 0 <= va -> umapped P va -> u64 va = va.
Proof.
  intros Hva Hu. pose proof (user_va _ _ _ _ _ _ _ Hus Hu) as Hm. rewrite MAXVA_eq in Hm. apply Z.mod_small. lia.
Qed.

Lemma gives_user src bs : Forall byte_range bs -> 0 <= src ->
  (forall j, 0 <= j < Z.of_nat (length bs) -> umapped P (src + j) /\ ubyte (mem_of k) P (src + j) = bs !!! Z.to_nat j) ->
  gives true k src bs.
Proof.
  intros Hb Hs Hmem. split; [done|]. intros k' h o j n (m & -> & Hm) Ho Hn Hon Hj Hjn.
  rewrite va_u64 by (lia || apply Hmem; lia).
  destruct (user_copies_ok kend (set_mem m (km k)) P (p_pagetable p) np free (src + j) (buf_addr h + o) n Hend) as (_ & (r & m' & He & _ & Hf & Hres) & _); try lia.
  { eapply user_space; [|exact Hm]. apply buf_tables. } { eapply kbuf_part; [apply (Hbuf h) | lia | lia]. }
  destruct Hres as [[-> Hres]|[_ (j' & Hj' & Hno)]].
  2:{ destruct Hno. replace (src + j + j') with (src + (j + j')) by lia. apply Hmem. lia. }
  exists m'. split.
  - unfold either_copyin, myproc. erewrite bind_ret by reflexivity. cbn [kmem_at setk_km cur]. rewrite Hcur.
    erewrite bind_ret by (apply (pget_eq i p_pagetable _ p); exact Hp). erewrite zoom_km by exact He. done.
  - intros a. case_decide as Ha; [|by apply Hf].
    destruct (Hres (a - (buf_addr h + o)) ltac:(lia)) as [Hu E]. replace (buf_addr h + o + (a - (buf_addr h + o))) with a in E by lia.
    rewrite E. destruct (Hmem (j + (a - (buf_addr h + o)))) as [Hu' <-]; [lia|]. unfold ubyte. rewrite Z.add_assoc.
    apply Hm. apply phys_buf; [lia|]. by rewrite Z.add_assoc in Hu'.
Qed.

Lemma takes_user dst n : 0 <= dst -> (forall j, 0 <= j < n -> wmapped P (dst + j)) ->
  takes true k dst n (fun j => phys P (dst + j)).
Proof.
  intros Hd Hw. assert (forall j, 0 <= j < n -> umapped P (dst + j)) as Hu by (intros; by apply (wmapped_umapped kend), Hw).
  split_and!.
  - intros j Hj. apply phys_buf; [lia | by apply Hu].
  - intros j j' Hj Hj' E. apply (phys_inj _ _ _ _ _ _ _ _ Hus) in E; [lia | lia | lia | by apply Hu | by apply Hu].
  - intros k' h o j l (m & -> & Hm) Ho Hl Hol Hj Hjl.
    rewrite va_u64 by (lia || apply Hu; lia).
    destruct (user_copies_ok kend (set_mem m (km k)) P (p_pagetable p) np free (dst + j) (buf_addr h + o) l Hend) as ((r & m' & He & _ & Hf & Hres) & _ & _); try lia.
    { eapply user_space; [|exact Hm]. intros a [Ha|(j' & Hj' & ->)] Hin; [by eapply buf_tables|].
      pose proof (phys_page (dst + j') ltac:(lia) (Hu j' Hj')) as Hpp.
      pose proof (us_sep _ _ _ _ _ _ Hus) as (_ & Hd1 & (_ & Hd2 & _)%NoDup_app)%NoDup_app.
      apply elem_of_app in Hin as [Ha|Ha]; [eapply Hd1; [exact Ha|]; apply elem_of_app; by left | by eapply Hd2]. }
    { eapply kbuf_part; [apply (Hbuf h) | lia | lia]. }
    destruct Hres as [[-> Hres]|[_ (j' & Hj' & Hno)]].
    2:{ destruct Hno. replace (dst + j + j') with (dst + (j + j')) by lia. apply Hw. lia. }
    exists m'. split_and!.
    + unfold either_copyout, myproc. erewrite bind_ret by reflexivity. cbn [kmem_at setk_km cur]. rewrite Hcur.
      erewrite bind_ret by (apply (pget_eq i p_pagetable _ p); exact Hp). erewrite zoom_km by exact He. done.
    + intros j' Hj'. destruct (Hres (j' - j) ltac:(lia)) as [_ E]. unfold ubyte in E. by replace (dst + j + (j' - j)) with (dst + j') in E by lia.
    + intros a Ha. apply Hf. intros j' Hj' _ ->. apply (Ha (j + j')); [lia|]. f_equal. lia.
Qed.

(** Whatever part of the range is mapped, [either_copyout] to it changes only what is. *)
Lemma may_take_user dst n : 0 <= dst -> dst + n < 2 ^ 64 ->
  may_take true k dst n (fun a => bufmem a \/ exists j, 0 <= j < n /\ wmapped P (dst + j) /\ a = phys P (dst + j)).
Proof.
  intros Hd Hn. split; [by left|]. intros k' h o j l (m & -> & Hm) Ho Hl Hol Hj Hjl.
  assert (u64 (dst + j) = dst + j) as -> by (apply Z.mod_small; lia).
  destruct (user_copies_ok kend (set_mem m (km k)) P (p_pagetable p) np free (dst + j) (buf_addr h + o) l Hend) as ((r & m' & He & _ & Hf & Hres) & _ & _); try lia.
  { eapply user_space; [|exact Hm]. intros a [Ha|(j' & Hj' & Hw & ->)] Hin; [by eapply buf_tables|].
    assert (umapped P (dst + j')) as Hu by (by apply (wmapped_umapped kend)).
    pose proof (phys_page (dst + j') ltac:(lia) Hu) as Hpp.
    pose proof (us_sep _ _ _ _ _ _ Hus) as (_ & Hd1 & (_ & Hd2 & _)%NoDup_app)%NoDup_app.
    apply elem_of_app in Hin as [Ha|Ha]; [eapply Hd1; [exact Ha|]; apply elem_of_app; by left | by eapply Hd2]. }
  { eapply kbuf_part; [apply (Hbuf h) | lia | lia]. }
  exists r, m'. split_and!.
  - unfold either_copyout, myproc. erewrite bind_ret by reflexivity. cbn [kmem_at setk_km cur]. rewrite Hcur.
    erewrite bind_ret by (apply (pget_eq i p_pagetable _ p); exact Hp). erewrite zoom_km by exact He. done.
  - destruct Hres as [[-> _]|[-> _]]; auto.
  - exists m'. split; [done|]. intros a Ha. apply Hf. intros j' Hj' Hw ->. apply Ha. right. exists (j + j'). rewrite Z.add_assoc. split_and!; [lia | lia | done | done].
Qed.
End User.
End Ends.

(** ** Blocks of a range of bytes *)

Definition nblocks (off n : Z) : nat := if n <=? 0 then 0 else Z.to_nat ((off + n - 1) / BSIZE - off / BSIZE + 1).
Definition part (off n : Z) : Z := Z.min n (BSIZE - off mod BSIZE).

Lemma part_facts off n : 0 <= off -> 0 < n ->
  0 < part off n <= n /\ 0 <= off mod BSIZE /\ off mod BSIZE + part off n <= BSIZE /\
  nblocks off n = S (nblocks (off + part off n) (n - part off n)).
Proof.
  intros Ho Hn. unfold part, nblocks, BSIZE. rewrite (proj2 (Z.leb_gt n 0)) by done.
  destruct (Z.min_spec n (1024 - off mod 1024)) as [[? ->]|[? ->]].
  - rewrite Z.sub_diag. simpl. split_and!; try lia; try (Z.to_euclidean_division_equations; lia).
  - split_and!; try lia; try (Z.to_euclidean_division_equations; lia).
    destruct (Z.leb_spec (n - (1024 - off mod 1024)) 0); Z.to_euclidean_division_equations; lia.
Qed.

(** The positions of one round lie in the block [off / BSIZE]. *)
Lemma part_div off n p : 0 <= off -> 0 < n -> off <= p < off + part off n ->
  p / BSIZE = off / BSIZE /\ p mod BSIZE = off mod BSIZE + (p - off).
Proof.
  intros Ho Hn Hp. destruct (part_facts off n Ho Hn) as (_ & _ & Hm & _). unfold BSIZE in *.
  Z.to_euclidean_division_equations. lia.
Qed.

Lemma nblocks_rounds off n : 0 <= off -> (nblocks off n < io_rounds n)%nat.
Proof.
  intros Ho. unfold nblocks, io_rounds, BSIZE. destruct (Z.leb_spec n 0); [lia|]. Z.to_euclidean_division_equations. lia.
Qed.

Lemma block_index off n : 0 <= off -> 0 < n -> off + n <= Z.of_nat MAXFILE * BSIZE ->
  (Z.to_nat (off / BSIZE) < MAXFILE)%nat /\ Z.of_nat (Z.to_nat (off / BSIZE)) = off / BSIZE.
Proof.
  intros Ho Hn Hle. assert (0 <= off / BSIZE) by (apply Z.div_pos; [done | by vm_compute]).
  assert (off / BSIZE < Z.of_nat MAXFILE) by (apply Z.div_lt_upper_bound; [by vm_compute | lia]). lia.
Qed.

Lemma maxfile_u32 x : 0 <= x <= Z.of_nat MAXFILE * BSIZE -> u32 x = x.
Proof. intros Hx. apply Z.mod_small. change (Z.of_nat MAXFILE * BSIZE) with 274432 in Hx. lia. Qed.

Section IO.
Context {T : Type} `{TxnLaws T}.
Context (sb : superblock) (Hg : geom sb) (lk : spin) (buf_addr : nat -> Z).

Abbreviation st t il k := (FSys t sb lk il k).
Abbreviation bm := (sb_bmapstart sb).
Abbreviation bufs := (bufmem buf_addr).

(** ** A buffer's memory *)

Lemma stage_eq t il k h x : tdata h t = x ->
  stage buf_addr h (st t il k) = Ret tt (st t il (kmem_at (wrn (mem_of k) (buf_addr h) x) k)).
Proof. intros Hx. unfold stage. erewrite bind_ret by reflexivity. cbn [f_tx]. by rewrite Hx. Qed.

Lemma stage_same k h x : length x = Z.to_nat BSIZE -> same_but bufs k (kmem_at (wrn (mem_of k) (buf_addr h) x) k).
Proof.
  intros Hl. eexists. split; [done|]. intros a Ha. rewrite rd_wrn, decide_False; [done|]. rewrite Hl, BSIZE_eq.
  intros Hin. apply Ha. exists h. unfold BSIZE. lia.
Qed.

Lemma stage_rd m h x j : length x = Z.to_nat BSIZE -> 0 <= j < BSIZE -> rd (wrn m (buf_addr h) x) (buf_addr h + j) = byte_at x j.
Proof.
  intros Hl Hj. rewrite rd_wrn, decide_True by (rewrite Hl, BSIZE_eq; unfold BSIZE in *; lia).
  replace (buf_addr h + j - buf_addr h) with j by lia. unfold byte_at.
  destruct (lookup_lt_is_Some_2 x (Z.to_nat j)) as [c Hc]; [rewrite Hl; unfold BSIZE in *; lia|].
  rewrite (list_lookup_total_correct _ _ _ Hc). by apply nth_lookup_Some.
Qed.

Lemma byte_at_rdn m h j : 0 <= j < BSIZE -> byte_at (rdn m (buf_addr h) (Z.to_nat BSIZE)) j = rd m (buf_addr h + j).
Proof.
  intros Hj. unfold byte_at. apply list_lookup_total_correct. rewrite rdn_lookup by (unfold BSIZE in *; lia).
  do 2 f_equal. unfold BSIZE in *. lia.
Qed.

Lemma rdn_block_ok m h : (forall j, 0 <= j < BSIZE -> byte_range (rd m (buf_addr h + j))) ->
  length (rdn m (buf_addr h) (Z.to_nat BSIZE)) = Z.to_nat BSIZE /\ Forall byte_range (rdn m (buf_addr h) (Z.to_nat BSIZE)).
Proof.
  intros Hb. split; [apply length_rdn|]. apply Forall_lookup_2. intros i c Hc.
  assert (i < Z.to_nat BSIZE)%nat as Hi by (apply lookup_lt_Some in Hc; by rewrite length_rdn in Hc).
  rewrite rdn_lookup in Hc by done. simplify_eq. apply Hb. unfold BSIZE in *. lia.
Qed.

Lemma with_addrs_twice ip a a' ino il : with_addrs ip a' (seti_addrs a ino) (with_addrs ip a ino il) = with_addrs ip a' ino il.
Proof. unfold with_addrs. rewrite list_insert_insert_eq. done. Qed.
(** ** [writei] *)

Section Write.
Context (ip : nat) (ino : inode) (il : list inode) (Hi : il !! ip = Some ino) (Hdev : i_dev ino = ROOTDEV).
Context (user : bool) (src : Z) (bs : list Z) (k0 : kproc) (Hgives : gives buf_addr user k0 src bs).

Abbreviation N := (Z.of_nat (length bs)).
Abbreviation wa a := (with_addrs ip a ino il).

Lemma wa_lookup a : wa a !! ip = Some (seti_addrs a ino).
Proof. unfold with_addrs. apply list_lookup_insert_eq. by eapply lookup_lt_Some. Qed.

(** What one round does to block [b]: the bytes of [bs] from [tot] on go to offset [o]. *)
Definition patched (x : block) (o m tot : Z) (y : block) : Prop :=
  (length y = Z.to_nat BSIZE /\ Forall byte_range y) /\
  forall j, 0 <= j < BSIZE -> byte_at y j = if decide (o <= j < o + m) then bs !!! Z.to_nat (tot + (j - o)) else byte_at x j.

Lemma patch_spec t v a k b X n o m tot : txn_rep t v -> tv_held v = ∅ -> blk_ok v -> 0 <= b < 2 ^ 32 -> home b -> b ∈ X -> fits v X n ->
  same_but bufs k0 k -> 0 <= o -> 0 < m -> o + m <= BSIZE -> 0 <= tot -> tot + m <= N ->
  exists t' y k', (forall fail cont : M (fsys T) (Z * Z), (bp ← fbread ROOTDEV b;
      stage buf_addr bp;;
      r ← zoom fkL (either_copyin (buf_addr bp + o) user (u64 (src + tot)) m);
      unstage buf_addr bp;;
      if r =? -1 then fbrelse bp;; fail
      else flog_write bp;; fbrelse bp;; cont) (st t (wa a) k) = cont (st t' (wa a) k')) /\
    txn_rep t' (record b y v) /\ patched (tv_blk v b) o m tot y /\ same_but bufs k0 k'.
Proof.
  intros Hr Hheld Hv Hb Hh HX Hfit Hk Ho Hm Hom Htot Htm.
  destruct (fits_length _ _ _ _ Hr Hfit) as [Hcap Hbuf]. destruct (Hv b) as [Hlen Hbytes].
  destruct (k_read sb lk (wa a) k t v b Hr) as (h & t1 & He1 & Hr1); [by rewrite Hheld | done | rewrite Hheld, map_size_empty; lia |].
  set (x := tv_blk v b) in *.
  assert (forall y w, tv_held (hold b h y w) !! b = Some (h, y)) as Hl by (intros; simpl; by rewrite lookup_insert_eq).
  pose proof (stage_eq t1 (wa a) k h x (t_data _ _ _ _ _ Hr1 (Hl _ _))) as Hst.
  pose proof (same_but_trans _ _ _ _ Hk (stage_same k h x Hlen)) as Hk1. set (k1 := kmem_at _ k) in *.
  destruct Hgives as [Hbs Hin]. destruct (Hin k1 h o tot m Hk1) as (m' & He2 & Hm'); try done.
  set (y := rdn m' (buf_addr h) (Z.to_nat BSIZE)).
  assert (forall j, 0 <= j < BSIZE -> rd m' (buf_addr h + j) = if decide (o <= j < o + m) then bs !!! Z.to_nat (tot + (j - o)) else byte_at x j) as Hy.
  { intros j Hj. rewrite Hm'. destruct (decide (o <= j < o + m)).
    - rewrite decide_True by lia. do 2 f_equal. lia.
    - rewrite decide_False by lia. by apply stage_rd. }
  destruct (k_set sb lk (wa a) (kmem_at m' k1) t1 _ b h x y Hr1 (Hl _ _)) as (t2 & He3 & Hr2).
  destruct (k_log sb lk (wa a) (kmem_at m' k1) t2 _ b h y Hr2) as (t3 & He4 & Hr3); [apply Hl | done | done | apply Hfit | simpl; lia |].
  destruct (k_relse sb lk (wa a) (kmem_at m' k1) t3 _ b h Hr3) as (t4 & He5 & Hr4).
  { etransitivity; [apply Hl|]. simpl. unfold upd_blk. by rewrite decide_True. }
  rewrite unhold_record in Hr4 by (by rewrite Hheld).
  exists t4, y, (kmem_at m' k1). split_and!.
  - intros fail cont. erewrite bind_ret by exact He1. erewrite bind_ret by exact Hst.
    rewrite (bind_ret _ _ _ 0 (st t1 (wa a) (kmem_at m' k1))) by (unfold zoom; simpl; by rewrite He2).
    unfold unstage. rewrite bind_assoc. erewrite bind_ret by reflexivity. unfold id. cbn [f_k kmem_at km].
    erewrite bind_ret by exact He3. cbn [Z.eqb]. erewrite bind_ret by exact He4. erewrite bind_ret by exact He5. done.
  - exact Hr4.
  - split; [|intros j Hj; unfold y; rewrite byte_at_rdn by done; by apply Hy].
    apply rdn_block_ok. intros j Hj. rewrite Hy by done. case_decide; [|by apply byte_at_range].
    destruct (lookup_lt_is_Some_2 bs (Z.to_nat (tot + (j - o)))) as [c Hc]; [lia|].
    rewrite (list_lookup_total_correct _ _ _ Hc). by eapply Forall_lookup_1.
  - eapply same_but_trans; [exact Hk1|]. exists m'. split; [done|]. intros c Hc. rewrite Hm', decide_False; [done|].
    intros Hin'. apply Hc. exists h. lia.
Qed.
(** The loop, from [tot] bytes written to the end or to a full disk. *)
Record written (v v' : tview) (a a' : list Z) (off tot r : Z) : Prop := {
  wr_ev : evolves sb v v' a a';
  wr_bytes : forall p, 0 <= p < Z.of_nat MAXFILE * BSIZE ->
    fbyte v' a' p = if decide (off <= p < off + r) then bs !!! Z.to_nat (tot + (p - off)) else fbyte v a p;
  wr_full : forall size, off <= size -> full v a size -> full v' a' (Z.max size (off + r))
}.

Lemma written_grown v v' a a' off tot : grown sb v v' a a' -> written v v' a a' off tot 0.
Proof.
  intros Hgr. pose proof (grown_evolves _ _ _ _ _ Hgr) as He. split; [done | |].
  - intros p Hp. rewrite decide_False by lia. by eapply grown_fbyte.
  - intros size Hs Hf. rewrite Z.max_l by lia. by eapply full_evolves.
Qed.

Lemma written_round v a off tot m y : blk_ok v -> meta_used sb v -> ino_ok sb v a -> 0 <= off -> 0 < m -> m = part off m ->
  off + m <= Z.of_nat MAXFILE * BSIZE -> let b := blkno v a (Z.to_nat (off / BSIZE)) in b <> 0 ->
  patched (tv_blk v b) (off mod BSIZE) m tot y -> written v (record b y v) a a off tot m.
Proof.
  intros Hv Hm Hok Ho Hm0 Hpart Hmax b Hb [Hy Hbytes]. destruct (block_index off m Ho Hm0 Hmax) as [Hbn Ebn].
  destruct (part_facts off m Ho Hm0) as (_ & Hmod & Hin & _). rewrite <- Hpart in Hin.
  pose proof (evolves_data sb Hg v a _ y Hv Hm Hok Hbn Hb Hy) as Hev. split; [done | |].
  - intros p Hp. unfold b. rewrite (fbyte_data sb) by done. assert (0 <= p / BSIZE) by (apply Z.div_pos; [lia | by vm_compute]).
    destruct (decide (off <= p < off + m)) as [Hd|Hd].
    + rewrite Hpart in Hd. destruct (part_div off m p Ho Hm0 Hd) as [E1 E2]. rewrite <- Hpart in Hd. rewrite decide_True by (by rewrite E1).
      rewrite Hbytes by (rewrite E2; lia). rewrite E2, decide_True by lia. do 2 f_equal. lia.
    + case_decide as Hd2; [|done]. assert (p / BSIZE = off / BSIZE) as E by lia.
      rewrite Hbytes by (by apply Z.mod_pos_bound). rewrite decide_False by (unfold BSIZE in *; Z.to_euclidean_division_equations; lia).
      unfold fbyte. rewrite E. fold b. by rewrite (proj2 (Z.eqb_neq b 0)).
  - intros size Hs Hf bn Hbn' Hlt. destruct (decide (Z.of_nat bn * BSIZE < size)) as [Hd|Hd].
    + by apply (full_evolves sb _ _ _ _ _ Hev Hf).
    + assert (Z.of_nat bn = off / BSIZE) as E by (unfold BSIZE in *; Z.to_euclidean_division_equations; lia).
      assert (bn = Z.to_nat (off / BSIZE)) as -> by lia. rewrite (ev_keep _ _ _ _ _ Hev) by done. done.
Qed.

Lemma written_trans v1 v2 v3 a1 a2 a3 off tot m r : written v1 v2 a1 a2 off tot m -> written v2 v3 a2 a3 (off + m) (tot + m) r ->
  0 <= m -> 0 <= r -> written v1 v3 a1 a3 off tot (m + r).
Proof.
  intros [E1 E2 E3] [F1 F2 F3] Hm Hr. split; [by eapply evolves_trans | |].
  - intros p Hp. rewrite F2, E2 by done. repeat case_decide; try lia; try done. do 2 f_equal. lia.
  - intros size Hs Hf. replace (Z.max size (off + (m + r))) with (Z.max (Z.max size (off + m)) (off + m + r)) by lia.
    apply F3; [lia|]. by apply E3.
Qed.

Lemma writei_loop_spec fuel t v a k off tot X n :
  txn_rep t v -> blk_ok v -> meta_used sb v -> ino_ok sb v a -> tv_held v = ∅ -> same_but bufs k0 k ->
  0 <= tot <= N -> 0 <= off -> off + (N - tot) <= Z.of_nat MAXFILE * BSIZE ->
  bm ∈ X -> (a !!! NDIRECT <> 0 -> a !!! NDIRECT ∈ X) -> (nblocks off (N - tot) < fuel)%nat ->
  fits v X (nblocks off (N - tot) + (ind_need a + n)) ->
  exists r t' v' a' k' X', writei_loop buf_addr fuel ip user (u64 (src + tot)) off N tot (st t (wa a) k) = Ret (tot + r, off + r) (st t' (wa a') k') /\
    txn_rep t' v' /\ same_but bufs k0 k' /\ written v v' a a' off tot r /\ 0 <= r <= N - tot /\ X ⊆ X' /\ fits v' X' n /\
    (r < N - tot -> forall c, 0 <= c < sb_size sb -> in_use_blk sb v' c).
Proof.
  revert t v a k off tot X. induction fuel as [|fuel IH]; [lia|].
  intros t v a k off tot X Hr Hv Hm Hok Hheld Hk Htot Hoff Hmax HX Hind Hfuel Hfit. cbn [writei_loop].
  destruct (Z.ltb_spec tot N) as [Hlt|Hge].
  2:{ exists 0, t, v, a, k, X. rewrite !Z.add_0_r. split_and!; try done; try lia; [by apply written_grown, grown_refl|].
      eapply fits_weaken; [| |exact Hfit]; [done | lia]. }
  destruct (part_facts off (N - tot) Hoff ltac:(lia)) as (Hp & Hmod & Hpm & Hnb). set (m := part off (N - tot)) in *.
  destruct (block_index off m Hoff ltac:(lia) ltac:(lia)) as [Hbn Ebn].
  rewrite Hnb in Hfit, Hfuel.
  destruct (bmap_spec sb Hg lk ip (seti_addrs a ino) (wa a) k (wa_lookup a) Hdev t v (Z.to_nat (off / BSIZE)) X (nblocks (off + m) (N - tot - m) + n))
    as (b & t1 & v1 & a1 & X1 & [K1 K2 K3 K4 K5 K6 K7] & Eb & HbX & _); try done.
  { eapply fits_weaken; [| |exact Hfit]; [done|]. change (i_addrs (seti_addrs a ino)) with a. lia. }
  rewrite Ebn in K1. rewrite with_addrs_twice in K1. erewrite bind_ret by exact K1.
  change (i_addrs (seti_addrs a ino)) with a in K3.
  destruct (Z.eqb_spec b 0) as [Hb0|Hb0].
  { exists 0, t1, v1, a1, k, X1. rewrite !Z.add_0_r. split_and!; try done; try lia; [by apply written_grown | |intros _; by apply K7].
    eapply fits_weaken; [| |exact K5]; [done | lia]. }
  erewrite bind_ret by (apply iget_f_eq, wa_lookup). change (i_dev (seti_addrs a1 ino)) with (i_dev ino). rewrite Hdev.
  pose proof (gr_ok _ _ _ _ _ K3) as Hok1. pose proof (gr_blk _ _ _ _ _ K3) as Hv1. pose proof (gr_meta _ _ _ _ _ K3) as Hm1.
  pose proof (gr_held _ _ _ _ _ K3) as Hh1. rewrite Hheld in Hh1.
  destruct (addrs_data sb Hg v1 a1 (Some (Z.to_nat (off / BSIZE))) Hok1 Hbn) as (Hbr & Hbh & _); [cbn [own]; congruence|].
  cbn [own] in Hbr, Hbh. rewrite <- Eb in Hbr, Hbh.
  destruct (patch_spec t1 v1 a1 k b X1 _ (off mod BSIZE) m tot K2 Hh1 Hv1 Hbr Hbh (HbX Hb0) K5 Hk) as (t2 & y & k2 & He & Hr2 & Hy & Hk2); try lia.
  cbv zeta. fold (part off (N - tot)). fold m. rewrite He.
  assert (m = part off m) as Hpart by (unfold m, part; lia).
  rewrite Eb in Hy, Hb0, Hr2. pose proof (written_round v1 a1 off tot m y Hv1 Hm1 Hok1 Hoff ltac:(lia) Hpart ltac:(lia) Hb0 Hy) as Hw.
  set (v2 := record _ y v1) in *. pose proof (wr_ev _ _ _ _ _ _ _ Hw) as [_ Hok2 Hv2 Hm2 Hh2 _ _]. rewrite Hh1 in Hh2.
  replace (u64 (u64 (src + tot) + m)) with (u64 (src + (tot + m))) by (unfold u64; rewrite Z.add_mod_idemp_l by lia; f_equal; lia).
  rewrite maxfile_u32 by lia.
  destruct (IH t2 v2 a1 k2 (off + m) (tot + m) X1 Hr2 Hv2 Hm2 Hok2 Hh2 Hk2) as (r & t3 & v3 & a3 & k3 & X3 & He3 & Hr3 & Hk3 & Hw3 & Hr' & HX3 & Hf3 & Hfull3); try lia.
  { set_solver. } { done. }
  { replace (N - (tot + m)) with (N - tot - m) by lia. lia. }
  { replace (N - (tot + m)) with (N - tot - m) by lia. apply fits_record; [rewrite <- Eb; apply HbX; congruence|].
    eapply fits_weaken; [| |exact K5]; [done | lia]. }
  exists (m + r), t3, v3, a3, k3, X3. rewrite (Z.add_assoc tot m r), (Z.add_assoc off m r). split; [exact He3|]. split; [done|]. split; [done|]. split.
  { eapply (written_trans v v1 v3 a a1 a3 off tot 0 (m + r)); [by apply written_grown | | lia | lia]. rewrite !Z.add_0_r.
    eapply written_trans; [exact Hw | exact Hw3 | lia | lia]. }
  split; [lia|]. split; [set_solver|]. split; [done|]. intros Hlt'. apply Hfull3. lia.
Qed.
(** The blocks a write may log besides new ones: bitmap, inode and indirect block. *)
Definition file_blocks (i : inode) : gset Z :=
  {[ bm; IBLOCK (i_inum i) sb ]} ∪ (if i_addrs i !!! NDIRECT =? 0 then ∅ else {[ i_addrs i !!! NDIRECT ]}).

Definition resized (size : Z) (addrs : list Z) (i : inode) : inode := seti_size size (seti_addrs addrs i).

Lemma writei_spec t v off :
  txn_rep t v -> tv_held v = ∅ -> blk_ok v -> meta_used sb v -> ino_ok sb v (i_addrs ino) ->
  full v (i_addrs ino) (i_size ino) -> 0 <= i_inum ino < sb_ninodes sb -> 0 <= src < 2 ^ 64 ->
  0 <= off <= i_size ino -> off + N <= Z.of_nat MAXFILE * BSIZE ->
  fits v (file_blocks ino) (nblocks off N + ind_need (i_addrs ino)) ->
  exists r t' v1 a k', let ino' := resized (Z.max (i_size ino) (off + r)) a ino in
    writei buf_addr ip user src off N (st t il k0) = Ret r (st t' (<[ip := ino']> il) k') /\
    txn_rep t' (updated sb ino' v1) /\ same_but bufs k0 k' /\ 0 <= r <= N /\ written v v1 (i_addrs ino) a off 0 r /\
    (r < N -> forall c, 0 <= c < sb_size sb -> in_use_blk sb v1 c) /\ (length (tv_log (updated sb ino' v1)) < NBUF)%nat.
Proof.
  intros Hr Hheld Hv Hm Hok Hfull Hnum Hsrc Hoff Hmax Hfit.
  destruct (writei_loop_spec (io_rounds N) t v (i_addrs ino) k0 off 0 (file_blocks ino) 0) as (r & t1 & v1 & a1 & k1 & X1 & He & Hr1 & Hk1 & Hw & Hrr & HX1 & Hf1 & Hfull1);
    rewrite ?Z.sub_0_r; try done; try lia.
  { apply same_but_refl. }
  { unfold file_blocks. set_solver. }
  { unfold file_blocks. destruct (Z.eqb_spec (i_addrs ino !!! NDIRECT) 0); [done|]. set_solver. }
  { apply nblocks_rounds; lia. }
  { by rewrite Nat.add_0_r. }
  rewrite Z.sub_0_r, !Z.add_0_l in *. rewrite with_addrs_id in He by done.
  assert (u64 src = src) as Es by (by apply Z.mod_small). rewrite Z.add_0_r, Es in He.
  unfold writei. erewrite bind_ret by (by apply iget_f_eq). rewrite maxfile_u32 by lia.
  rewrite (proj2 (Z.ltb_ge (i_size ino) off)), (proj2 (Z.ltb_ge (off + N) off)), (proj2 (Z.ltb_ge _ (off + N))) by lia. cbn [orb].
  erewrite bind_ret by exact He. cbv beta iota. erewrite bind_ret by (apply iget_f_eq, wa_lookup).
  change (i_size (seti_addrs a1 ino)) with (i_size ino).
  set (ino' := resized (Z.max (i_size ino) (off + r)) a1 ino).
  rewrite (bind_ret _ _ _ tt (st t1 (<[ip := ino']> il) k1)).
  2:{ unfold ino', resized. destruct (Z.ltb_spec (i_size ino) (off + r)); cbn [when].
      - erewrite iupd_eq by apply wa_lookup. unfold with_addrs. rewrite list_insert_insert_eq, Z.max_r by lia. done.
      - rewrite Z.max_l by lia. done. }
  destruct (iupdate_spec sb Hg lk t1 v1 (<[ip := ino']> il) k1 ip ino' X1 0) as (t2 & He2 & Hr2); try done.
  { by rewrite (ev_held _ _ _ _ _ (wr_ev _ _ _ _ _ _ _ Hw)). }
  { apply list_lookup_insert_eq. by eapply lookup_lt_Some. }
  erewrite bind_ret by exact He2. exists r, t2, v1, a1, k1. split_and!; try done; try lia. fold ino'.
  assert (IBLOCK (i_inum ino') sb ∈ X1) as HinX by (apply HX1; unfold file_blocks; set_solver).
  destruct (fits_length t2 (updated sb ino' v1) X1 0 Hr2) as [_ Hlen]; [by apply fits_record | lia].
Qed.
End Write.
(** ** [readi] *)

Section Read.
Context (ip : nat) (ino : inode) (il : list inode) (Hi : il !! ip = Some ino) (Hdev : i_dev ino = ROOTDEV).
Context (user : bool) (dst n : Z) (loc : Z -> Z) (k0 : kproc) (Htakes : takes buf_addr user k0 dst n loc).
Context (v : tview) (Hheld : tv_held v = ∅) (Hlog : (length (tv_log v) < NBUF)%nat) (Hv : blk_ok v) (Hok : ino_ok sb v (i_addrs ino)).

Abbreviation W := (fun a => bufs a \/ exists j, 0 <= j < n /\ a = loc j).
Abbreviation fb := (fbyte v (i_addrs ino)).

(** [tot] bytes have been delivered. *)
Definition delivered (off0 tot : Z) (k : kproc) : Prop :=
  exists m, k = kmem_at m k0 /\ (forall j, 0 <= j < tot -> rd m (loc j) = fb (off0 + j)) /\
    (forall a, ~ bufs a -> (forall j, 0 <= j < tot -> a <> loc j) -> rd m a = rd (mem_of k0) a).

Lemma delivered_same off0 tot k : 0 <= tot <= n -> delivered off0 tot k -> same_but W k0 k.
Proof.
  intros Ht (m & -> & _ & Hm). exists m. split; [done|]. intros a Ha. apply Hm; [tauto|].
  intros j Hj ->. apply Ha. right. exists j. split; [lia | done].
Qed.

(** One round: block [b], staged and copied out. *)
Lemma deliver_round t k b h tot off o l : txn_rep t (hold b h (tv_blk v b) v) -> delivered off tot k ->
  0 <= tot -> 0 < l -> tot + l <= n -> 0 <= o -> o + l <= BSIZE -> (forall j, 0 <= j < l -> fb (off + tot + j) = byte_at (tv_blk v b) (o + j)) ->
  exists k1 k', stage buf_addr h (st t il k) = Ret tt (st t il k1) /\
    either_copyout user (u64 (dst + tot)) (buf_addr h + o) l k1 = Ret 0 k' /\ delivered off (tot + l) k'.
Proof.
  intros Hr Hdel Htot Hl Htl Ho Hol Hfb. destruct Htakes as (Hnb & Hinj & Hcopy).
  pose proof (stage_eq t il k h _ (t_data _ _ b h (tv_blk v b) Hr (ltac:(simpl; by rewrite lookup_insert_eq)))) as Hst.
  destruct (Hv b) as [Hlen _]. pose proof (delivered_same off tot k ltac:(lia) Hdel) as Hsame.
  pose proof (same_but_mono _ W _ _ (fun a Ha => or_introl Ha) (stage_same k h _ Hlen)) as Hs1.
  set (k1 := kmem_at _ k) in *. destruct (Hcopy k1 h o tot l (same_but_trans _ _ _ _ Hsame Hs1)) as (m' & He & Hc & Hf); try done.
  exists k1, (kmem_at m' k1). split_and!; [done | done |].
  destruct Hdel as (m & -> & Hd1 & Hd2). exists m'. split; [done|].
  assert (forall a, ~ bufs a -> rd (mem_of k1) a = rd m a) as Hk1.
  { destruct (stage_same (kmem_at m k0) h (tv_blk v b) Hlen) as (m1 & E & Hm1). fold k1 in E. rewrite E. intros a Ha. apply (Hm1 a Ha). }
  split.
  - intros j Hj. destruct (decide (j < tot)) as [Hd|Hd].
    + rewrite Hf by (intros j' Hj' E; apply Hinj in E; lia). rewrite Hk1 by (apply Hnb; lia). apply Hd1. lia.
    + rewrite Hc by lia. change (mem_of k1) with (wrn (mem_of (kmem_at m k0)) (buf_addr h) (tv_blk v b)).
      rewrite <- Z.add_assoc, stage_rd by (done || lia). rewrite <- Hfb by lia. f_equal. lia.
  - intros a Ha Hno. rewrite Hf by (intros j Hj; apply Hno; lia). rewrite Hk1 by done. apply Hd2; [done|]. intros j Hj. apply Hno. lia.
Qed.

Lemma readi_loop_spec fuel t k off tot cnt :
  txn_rep t v -> delivered off tot k -> 0 <= tot <= cnt -> cnt <= n -> 0 <= off -> off + cnt <= i_size ino ->
  i_size ino <= Z.of_nat MAXFILE * BSIZE -> full v (i_addrs ino) (i_size ino) -> (nblocks (off + tot) (cnt - tot) < fuel)%nat ->
  exists t' k', readi_loop buf_addr fuel ip user (u64 (dst + tot)) (off + tot) cnt tot (st t il k) = Ret cnt (st t' il k') /\
    txn_rep t' v /\ delivered off cnt k'.
Proof.
  revert t k tot. induction fuel as [|fuel IH]; [lia|].
  intros t k tot Hr Hdel Htot Hcnt Hoff Hsz Hmax Hfull Hfuel. cbn [readi_loop].
  destruct (Z.ltb_spec tot cnt) as [Hlt|Hge].
  2:{ assert (tot = cnt) as -> by lia. by exists t, k. }
  destruct (part_facts (off + tot) (cnt - tot) ltac:(lia) ltac:(lia)) as (Hp & Hmod & Hpm & Hnb).
  pose proof (part_div (off + tot) (cnt - tot)) as Hdiv. set (l := part (off + tot) (cnt - tot)) in *.
  destruct (block_index (off + tot) l ltac:(lia) ltac:(lia) ltac:(lia)) as [Hbn Ebn].
  assert (blkno v (i_addrs ino) (Z.to_nat ((off + tot) / BSIZE)) <> 0) as Hb0.
  { apply Hfull; [done|]. rewrite Ebn. unfold BSIZE. Z.to_euclidean_division_equations. lia. }
  destruct (bmap_there sb Hg lk ip ino il k Hi Hdev t v _ Hr Hheld Hlog Hok Hbn Hb0) as (t1 & He1 & Hr1).
  rewrite Ebn in He1. erewrite bind_ret by exact He1. set (b := blkno _ _ _) in *.
  rewrite (proj2 (Z.eqb_neq b 0)) by done. erewrite bind_ret by (by apply iget_f_eq). rewrite Hdev.
  destruct (addrs_data sb Hg v (i_addrs ino) (Some (Z.to_nat ((off + tot) / BSIZE))) Hok Hbn Hb0) as (Hbr & _ & _). cbn [own] in Hbr. fold b in Hbr.
  destruct (k_read sb lk il k t1 v b Hr1) as (h & t2 & He2 & Hr2); [by rewrite Hheld | done | rewrite Hheld, map_size_empty; lia |].
  erewrite bind_ret by exact He2. cbv zeta. fold (part (off + tot) (cnt - tot)). fold l.
  destruct (deliver_round t2 k b h tot off ((off + tot) mod BSIZE) l Hr2 Hdel) as (k1 & k2 & He3 & He4 & Hdel2); try lia.
  { intros j Hj. destruct (Hdiv (off + tot + j) ltac:(lia) ltac:(lia) ltac:(lia)) as [E1 E2]. unfold fbyte. rewrite E1, E2. fold b.
    rewrite (proj2 (Z.eqb_neq b 0)) by done. f_equal. lia. }
  erewrite bind_ret by exact He3.
  rewrite (bind_ret _ _ _ 0 (st t2 il k2)) by (unfold zoom; simpl; by rewrite He4). cbn [Z.eqb].
  destruct (k_relse sb lk il k2 t2 _ b h Hr2) as (t3 & He5 & Hr3); [simpl; by rewrite lookup_insert_eq|].
  rewrite unhold_hold in Hr3 by (by rewrite Hheld). erewrite bind_ret by exact He5.
  replace (u64 (u64 (dst + tot) + l)) with (u64 (dst + (tot + l))) by (unfold u64; rewrite Z.add_mod_idemp_l by lia; f_equal; lia).
  rewrite maxfile_u32 by lia. rewrite <- Z.add_assoc.
  apply (IH t3 k2 (tot + l)); try done; try lia.
  replace (cnt - (tot + l)) with (cnt - tot - l) by lia. rewrite Z.add_assoc. lia.
Qed.

(** [readi]: the bytes of the file from [off], as many as there are. *)
Lemma readi_spec t off : txn_rep t v -> 0 <= n -> 0 <= dst < 2 ^ 64 -> 0 <= off <= i_size ino -> off + n < 2 ^ 32 ->
  i_size ino <= Z.of_nat MAXFILE * BSIZE -> full v (i_addrs ino) (i_size ino) ->
  let cnt := Z.min n (i_size ino - off) in
  exists t' k', readi buf_addr ip user dst off n (st t il k0) = Ret cnt (st t' il k') /\ txn_rep t' v /\ delivered off cnt k'.
Proof.
  intros Hr Hn Hdst Hoff Hlt Hmax Hfull cnt.
  destruct (readi_loop_spec (io_rounds cnt) t k0 off 0 cnt Hr) as (t' & k' & He & Hr' & Hd'); try done; try lia.
  { exists (mem_of k0). split; [by rewrite kmem_at_id|]. split; [lia | done]. }
  { rewrite Z.sub_0_r. apply nblocks_rounds. lia. }
  exists t', k'. split; [|done]. unfold readi. erewrite bind_ret by (by apply iget_f_eq).
  assert (u32 (off + n) = off + n) as -> by (apply Z.mod_small; lia).
  rewrite (proj2 (Z.ltb_ge (i_size ino) off)), (proj2 (Z.ltb_ge (off + n) off)) by lia. cbn [orb].
  assert ((if i_size ino <? off + n then i_size ino - off else n) = cnt) as -> by (destruct (Z.ltb_spec (i_size ino) (off + n)); lia).
  rewrite !Z.add_0_r in He. assert (u64 dst = dst) as E by (by apply Z.mod_small). rewrite E in He. exact He.
Qed.
End Read.

(** [readi] to a destination of which nothing is known. *)
Section ReadAny.
Context (ip : nat) (ino : inode) (il : list inode) (Hi : il !! ip = Some ino) (Hdev : i_dev ino = ROOTDEV).
Context (user : bool) (dst n : Z) (W : Z -> Prop) (k0 : kproc) (Hmay : may_take buf_addr user k0 dst n W).
Context (v : tview) (Hheld : tv_held v = ∅) (Hlog : (length (tv_log v) < NBUF)%nat) (Hv : blk_ok v) (Hok : ino_ok sb v (i_addrs ino)).

Lemma readi_loop_any fuel t k off tot cnt :
  txn_rep t v -> same_but W k0 k -> 0 <= tot <= cnt -> cnt <= n -> 0 <= off -> off + cnt <= i_size ino ->
  i_size ino <= Z.of_nat MAXFILE * BSIZE -> full v (i_addrs ino) (i_size ino) -> (nblocks (off + tot) (cnt - tot) < fuel)%nat ->
  exists r t' k', readi_loop buf_addr fuel ip user (u64 (dst + tot)) (off + tot) cnt tot (st t il k) = Ret r (st t' il k') /\
    txn_rep t' v /\ same_but W k0 k' /\ (r = cnt \/ r = -1 /\ refuses user dst cnt).
Proof.
  revert t k tot. induction fuel as [|fuel IH]; [lia|].
  intros t k tot Hr Hk Htot Hcnt Hoff Hsz Hmax Hfull Hfuel. cbn [readi_loop].
  destruct (Z.ltb_spec tot cnt) as [Hlt|Hge].
  2:{ assert (tot = cnt) as -> by lia. exists cnt, t, k. by auto. }
  destruct (part_facts (off + tot) (cnt - tot) ltac:(lia) ltac:(lia)) as (Hp & Hmod & Hpm & Hnb). set (l := part (off + tot) (cnt - tot)) in *.
  destruct (block_index (off + tot) l ltac:(lia) ltac:(lia) ltac:(lia)) as [Hbn Ebn].
  assert (blkno v (i_addrs ino) (Z.to_nat ((off + tot) / BSIZE)) <> 0) as Hb0.
  { apply Hfull; [done|]. rewrite Ebn. unfold BSIZE. Z.to_euclidean_division_equations. lia. }
  destruct (bmap_there sb Hg lk ip ino il k Hi Hdev t v _ Hr Hheld Hlog Hok Hbn Hb0) as (t1 & He1 & Hr1).
  rewrite Ebn in He1. erewrite bind_ret by exact He1. set (b := blkno _ _ _) in *.
  rewrite (proj2 (Z.eqb_neq b 0)) by done. erewrite bind_ret by (by apply iget_f_eq). rewrite Hdev.
  destruct (addrs_data sb Hg v (i_addrs ino) (Some (Z.to_nat ((off + tot) / BSIZE))) Hok Hbn Hb0) as (Hbr & _ & _). cbn [own] in Hbr. fold b in Hbr.
  destruct (k_read sb lk il k t1 v b Hr1) as (h & t2 & He2 & Hr2); [by rewrite Hheld | done | rewrite Hheld, map_size_empty; lia |].
  erewrite bind_ret by exact He2. cbv zeta. fold (part (off + tot) (cnt - tot)). fold l.
  pose proof (stage_eq t2 il k h _ (t_data _ _ b h (tv_blk v b) Hr2 (ltac:(simpl; by rewrite lookup_insert_eq)))) as Hst.
  destruct (Hv b) as [Hlen _]. destruct Hmay as [HW Hcopy].
  pose proof (same_but_trans _ _ _ _ Hk (same_but_mono _ W _ _ HW (stage_same k h _ Hlen))) as Hk1. set (k1 := kmem_at _ k) in *.
  destruct (Hcopy k1 h ((off + tot) mod BSIZE) tot l Hk1) as (r & m & He & Hres & Hk2); try lia.
  pose proof (same_but_trans _ _ _ _ Hk1 Hk2) as Hk3. erewrite bind_ret by exact Hst.
  rewrite (bind_ret _ _ _ r (st t2 il (kmem_at m k1))) by (unfold zoom; simpl; by rewrite He).
  destruct (k_relse sb lk il (kmem_at m k1) t2 _ b h Hr2) as (t3 & He5 & Hr3); [simpl; by rewrite lookup_insert_eq|].
  rewrite unhold_hold in Hr3 by (by rewrite Hheld). destruct Hres as [-> | ->]; [change (0 =? -1) with false | change (-1 =? -1) with true]; cbv iota.
  2:{ erewrite bind_ret by exact He5. exists (-1), t3, (kmem_at m k1). split_and!; [done | done | done |]. right. split; [done|].
      exists tot, l. do 3 eexists. split_and!; [lia | lia | lia | exact He]. }
  erewrite bind_ret by exact He5.
  replace (u64 (u64 (dst + tot) + l)) with (u64 (dst + (tot + l))) by (unfold u64; rewrite Z.add_mod_idemp_l by lia; f_equal; lia).
  rewrite maxfile_u32 by lia. rewrite <- Z.add_assoc.
  apply (IH t3 (kmem_at m k1) (tot + l)); try done; try lia.
  replace (cnt - (tot + l)) with (cnt - tot - l) by lia. rewrite Z.add_assoc. lia.
Qed.

Lemma readi_any t off : txn_rep t v -> 0 <= n -> 0 <= dst < 2 ^ 64 -> 0 <= off <= i_size ino -> off + n < 2 ^ 32 ->
  i_size ino <= Z.of_nat MAXFILE * BSIZE -> full v (i_addrs ino) (i_size ino) ->
  let cnt := Z.min n (i_size ino - off) in
  exists r t' k', readi buf_addr ip user dst off n (st t il k0) = Ret r (st t' il k') /\ txn_rep t' v /\ same_but W k0 k' /\
    (r = cnt \/ r = -1 /\ refuses user dst cnt).
Proof.
  intros Hr Hn Hdst Hoff Hlt Hmax Hfull cnt.
  destruct (readi_loop_any (io_rounds cnt) t k0 off 0 cnt Hr) as (r & t' & k' & He & Hrest); try done; try lia.
  { apply same_but_refl. }
  { rewrite Z.sub_0_r. apply nblocks_rounds. lia. }
  exists r, t', k'. split; [|done]. unfold readi. erewrite bind_ret by (by apply iget_f_eq).
  assert (u32 (off + n) = off + n) as -> by (apply Z.mod_small; lia).
  rewrite (proj2 (Z.ltb_ge (i_size ino) off)), (proj2 (Z.ltb_ge (off + n) off)) by lia. cbn [orb].
  assert ((if i_size ino <? off + n then i_size ino - off else n) = cnt) as -> by (destruct (Z.ltb_spec (i_size ino) (off + n)); lia).
  rewrite !Z.add_0_r in He. assert (u64 dst = dst) as E by (by apply Z.mod_small). rewrite E in He. exact He.
Qed.
End ReadAny.
End IO.
