(* ===== verification/FsSpec.v ===== *)
(** * FsSpec: what [readi] and [writei] promise

    [vol] says that the store represents a volume whose blocks are well formed, and
    [file_ok] that an inode in memory describes a file of it.  The theorems of this
    file are stated for any transactional store; the examples take the log over the
    buffer cache, on the disk [mkfs] lays out. *)

From S2P Require Import Prelude CString Riscv Kalloc Vm UserMem Sleeplock BufCache Bio Log LogCrash Txn Proc Fs FsBlocks FsFiles FsInode FsIO.

Section Spec.
Context {T : Type} `{TxnLaws T}.
Context (sb : superblock) (Hg : geom sb) (lk : spin) (buf_addr : nat -> Z).

Abbreviation st t il k := (FSys t sb lk il k).
Abbreviation bm := (sb_bmapstart sb).
Abbreviation bufs := (bufmem buf_addr).

(** No buffer is held; the blocks have their size; the metadata blocks are in use. *)
Record vol (t : T) (v : tview) : Prop := {
  vol_rep : txn_rep t v;
  vol_held : tv_held v = ∅;
  vol_blk : blk_ok v;
  vol_meta : meta_used sb v
}.

(** An inode in memory and the file it describes. *)
Record file_ok (v : tview) (i : inode) : Prop := {
  fo_dev : i_dev i = ROOTDEV;
  fo_inum : 0 <= i_inum i < sb_ninodes sb;
  fo_range : ino_range i;
  fo_size : i_size i <= Z.of_nat MAXFILE * BSIZE;
  fo_map : ino_ok sb v (i_addrs i);
  fo_full : full v (i_addrs i) (i_size i)
}.

(** Byte [p] of the file. *)
Definition byte_of (v : tview) (i : inode) (p : Z) : Z := fbyte v (i_addrs i) p.

(** Files that share no block. *)
Definition apart (v : tview) (i j : inode) : Prop :=
  forall o o', slot_in o -> slot_in o' -> own v (i_addrs j) o <> 0 -> own v (i_addrs j) o <> own v (i_addrs i) o'.

(** The inode after a write that ends at [e]. *)
Lemma seti_size_addrs e a i : i_addrs (resized e a i) = a /\ i_size (resized e a i) = e /\ i_dev (resized e a i) = i_dev i /\ i_inum (resized e a i) = i_inum i.
Proof. done. Qed.

(** A file stays what it is when another one changes. *)
Lemma apart_evolves v v' i a' j : evolves sb v v' (i_addrs i) a' -> file_ok v j -> apart v i j ->
  file_ok v' j /\ (forall p, 0 <= p < Z.of_nat MAXFILE * BSIZE -> byte_of v' j p = byte_of v j p) /\
  (forall o, slot_in o -> own v' (i_addrs j) o = own v (i_addrs j) o).
Proof.
  intros [[E1 E2 E3 E4] F1 F2 F3 F4 F5 F6] [J1 J2 J3 J4 J5 J6] Hap.
  assert (forall o, slot_in o -> own v (i_addrs j) o <> 0 -> tv_blk v' (own v (i_addrs j) o) = tv_blk v (own v (i_addrs j) o)) as Hsame.
  { intros o Hs Hne. destruct (io_data _ _ _ J5 o Hs Hne) as [_ Hu]. destruct (addrs_data sb Hg v _ o J5 Hs Hne) as (? & _ & ?).
    apply E4; [lia | done | done |]. intros o' Hs' _ E. by apply (Hap o o' Hs Hs' Hne). }
  assert (forall o, slot_in o -> own v' (i_addrs j) o = own v (i_addrs j) o) as Ho.
  { intros [bn|] Hs; [|done]. cbn [own]. unfold blkno. case_decide; [done|].
    destruct (Z.eqb_spec (i_addrs j !!! NDIRECT) 0) as [|Hn]; [done|]. pose proof (Hsame None I Hn) as E. cbn [own] in E. by rewrite E. }
  split_and!; [|intros p Hp | done].
  - split; try done.
    + split; [apply J5 | |].
      * intros o Hs. rewrite Ho by done. intros Hne. destruct (io_data _ _ _ J5 o Hs Hne) as [Hr Hu]. split; [done|].
        apply E3; [|done]. destruct (addrs_data sb Hg v _ o J5 Hs Hne) as (? & _). lia.
      * intros o o' Hs Hs'. rewrite !Ho by done. by apply J5.
    + intros bn Hbn Hlt. rewrite (Ho (Some bn) Hbn : blkno v' _ bn = blkno v _ bn). by apply J6.
  - unfold byte_of, fbyte. assert (Z.to_nat (p / BSIZE) < MAXFILE)%nat as Hbn.
    { assert (p / BSIZE < Z.of_nat MAXFILE) by (apply Z.div_lt_upper_bound; unfold BSIZE in *; lia).
      pose proof (Z.div_pos p BSIZE ltac:(lia) ltac:(done)). lia. }
    rewrite (Ho (Some _) Hbn : blkno v' _ _ = blkno v _ _). destruct (Z.eqb_spec (blkno v (i_addrs j) (Z.to_nat (p / BSIZE))) 0) as [|Hn]; [done|].
    by rewrite (Hsame (Some _) Hbn Hn : tv_blk v' (blkno v (i_addrs j) (Z.to_nat (p / BSIZE))) = _).
Qed.


Lemma ino_ok_addrs v a : ino_ok sb v a -> Forall (fun x => 0 <= x < 2 ^ 32) a.
Proof.
  intros Hok. apply Forall_lookup_2. intros i x Hx. pose proof (lookup_lt_Some _ _ _ Hx) as Hl. rewrite (io_len _ _ _ Hok) in Hl.
  destruct (decide (x = 0)) as [->|Hx0]; [done|]. set (o := if decide (i = NDIRECT) then None else Some i).
  assert (own v a o = x) as E.
  { unfold o. case_decide as Hd; cbn [own]; [subst i; by apply list_lookup_total_correct|].
    unfold blkno. rewrite decide_True by lia. by apply list_lookup_total_correct. }
  assert (slot_in o) as Hs by (unfold o; case_decide; [done|]; simpl; unfold MAXFILE; lia).
  destruct (addrs_data sb Hg v a o Hok Hs) as [Hr _]; [congruence|]. by rewrite E in Hr.
Qed.

(** Writing the inode back keeps every file. *)
Lemma updated_file v i j : blk_ok v -> 0 <= i_inum i < sb_ninodes sb -> length (i_addrs i) = S NDIRECT -> file_ok v j ->
  file_ok (updated sb i v) j /\ (forall p, 0 <= p < Z.of_nat MAXFILE * BSIZE -> byte_of (updated sb i v) j p = byte_of v j p).
Proof.
  intros Hv Hn Hl [J1 J2 J3 J4 J5 J6]. destruct (IBLOCK_range sb Hg (i_inum i) Hn) as (Hb & Hb32 & _). pose proof (g_inode _ Hg).
  split; [split; try done|].
  - unfold updated. apply ino_ok_meta; [done | lia].
  - intros bn Hbn Hlt. pose proof (own_meta sb v (i_addrs j) (IBLOCK (i_inum i) sb) (put_dinode (di_base (i_inum i)) i (tv_blk v (IBLOCK (i_inum i) sb))) J5 ltac:(lia) (Some bn)) as E.
    cbn [own] in E. unfold updated. rewrite E. by apply J6.
  - intros p Hp. unfold byte_of, updated. apply (fbyte_meta sb); [done | lia | done].
Qed.

Lemma updated_vol t v i : txn_rep t (updated sb i v) -> tv_held v = ∅ -> blk_ok v -> meta_used sb v ->
  0 <= i_inum i < sb_ninodes sb -> length (i_addrs i) = S NDIRECT -> vol t (updated sb i v).
Proof.
  intros Hr Hh Hv Hm Hn Hl. destruct (IBLOCK_range sb Hg (i_inum i) Hn) as (Hb & Hb32 & _).
  split; [done | done | by apply updated_blk_ok | apply meta_meta; [done | lia]].
Qed.

Lemma written_file v v' i a' off bs r : file_ok v i -> written sb bs v v' (i_addrs i) a' off 0 r ->
  0 <= off <= i_size i -> off + r <= Z.of_nat MAXFILE * BSIZE -> file_ok v' (resized (Z.max (i_size i) (off + r)) a' i).
Proof.
  intros [J1 J2 J3 J4 J5 J6] [E1 E2 E3] Ho Hmax. pose proof (ev_ok _ _ _ _ _ E1) as Hok.
  change (Z.of_nat MAXFILE * BSIZE) with 274432 in *.
  split; try done; simpl.
  - destruct J3. split; try done; simpl; [lia | apply Hok | by eapply ino_ok_addrs].
  - change (Z.of_nat MAXFILE * BSIZE) with 274432. lia.
  - apply E3; [lia | done].
Qed.

(** The whole effect of a write of [r] bytes at [off]. *)
Record write_effect (v v' : tview) (i i' : inode) (off : Z) (bs : list Z) (r : Z) : Prop := {
  we_size : i' = resized (Z.max (i_size i) (off + r)) (i_addrs i') i;
  we_file : file_ok v' i';
  we_bytes : forall p, 0 <= p < Z.of_nat MAXFILE * BSIZE ->
    byte_of v' i' p = if decide (off <= p < off + r) then bs !!! Z.to_nat (p - off) else byte_of v i p;
  we_disk : disk_inode sb v' (i_inum i) i' = i';
  we_others : forall j, file_ok v j -> apart v i j -> file_ok v' j /\ forall p, 0 <= p < Z.of_nat MAXFILE * BSIZE -> byte_of v' j p = byte_of v j p;
  we_short : r < Z.of_nat (length bs) -> forall c, 0 <= c < sb_size sb -> in_use_blk sb v' c
}.

Lemma writei_ok t v il ip i k user src bs off :
  vol t v -> il !! ip = Some i -> file_ok v i -> gives buf_addr user k src bs -> 0 <= src < 2 ^ 64 -> 0 <= off < 2 ^ 32 ->
  Z.of_nat (length bs) < 2 ^ 32 ->
  let n := Z.of_nat (length bs) in
  (i_size i < off \/ Z.of_nat MAXFILE * BSIZE < off + n -> writei buf_addr ip user src off n (st t il k) = Ret (-1) (st t il k)) /\
  (off <= i_size i -> off + n <= Z.of_nat MAXFILE * BSIZE -> fits v (file_blocks sb i) (nblocks off n + ind_need (i_addrs i)) ->
   exists r t' v' i' k', writei buf_addr ip user src off n (st t il k) = Ret r (st t' (<[ip := i']> il) k') /\
     vol t' v' /\ same_but bufs k k' /\ 0 <= r <= n /\ write_effect v v' i i' off bs r /\ (length (tv_log v') < NBUF)%nat).
Proof.
  intros [Hr Hh Hv Hm] Hi [J1 J2 J3 J4 J5 J6] Hgv Hsrc Hoff Hn n. split.
  - intros Hbad. unfold writei. erewrite bind_ret by (by apply iget_f_eq). change (Z.of_nat MAXFILE * BSIZE) with 274432 in *.
    destruct (Z.ltb_spec (i_size i) off) as [|Hs]; [done|]. destruct Hbad as [|Hbad]; [lia|].
    destruct (Z.ltb_spec (u32 (off + n)) off) as [|Ho]; [done|]. cbn [orb].
    rewrite (proj2 (Z.ltb_lt 274432 _)); [done|]. unfold u32 in *. rewrite Z.mod_small in Ho |- *; [done | |]; Z.to_euclidean_division_equations; lia.
  - intros Hos Hmax Hfit.
    destruct (writei_spec sb Hg lk buf_addr ip i il Hi J1 user src bs k Hgv t v off) as (r & t' & v1 & a & k' & He & Hr' & Hk' & Hrr & Hw & Hfull & Hlen); try done; try lia.
    set (i' := resized (Z.max (i_size i) (off + r)) a i) in *.
    pose proof (written_file v v1 i a off bs r ltac:(by split) Hw ltac:(lia) ltac:(lia)) as Hf1. fold i' in Hf1.
    pose proof (wr_ev _ _ _ _ _ _ _ _ _ Hw) as Hev. pose proof (ev_blk _ _ _ _ _ Hev) as Hv1.
    destruct (updated_file v1 i' i' Hv1) as [Hf2 Hb2]; try done; [apply Hf1|].
    destruct (IBLOCK_range sb Hg (i_inum i) J2) as (Hib & _ & _). pose proof (g_inode _ Hg) as Hg2.
    exists r, t', (updated sb i' v1), i', k'. split_and!; try done; try lia.
    + apply updated_vol; try done; [by rewrite (ev_held _ _ _ _ _ Hev) | apply Hev | apply Hf1].
    + split; try done.
      * intros p Hp. rewrite Hb2 by done. unfold byte_of. rewrite (wr_bytes _ _ _ _ _ _ _ _ _ Hw) by done. simpl. done.
      * pose proof (updated_disk sb i' v1 (i_inum i) i' Hv1 (fo_range _ _ Hf1) ltac:(lia) ltac:(simpl; lia)) as Hd. rewrite Hd. by rewrite decide_True.
      * intros j Hj Hap. destruct (apart_evolves v v1 i a j Hev Hj Hap) as (Hj1 & Hbj & _).
        destruct (updated_file v1 i' j Hv1) as [Hj2 Hbj2]; try done; [apply Hf1|]. split; [done|]. intros p Hp. rewrite Hbj2 by done. by apply Hbj.
      * intros Hlt c Hc. apply (use_meta sb); [simpl; lia|]. by apply Hfull.
Qed.

(** [n] bytes of the file from [off] are at [loc 0 .. loc (n - 1)]; the rest of memory
    is as it was, the buffers apart. *)
Record read_effect (v : tview) (i : inode) (off n : Z) (loc : Z -> Z) (k k' : kproc) : Prop := {
  re_state : k' = kmem_at (mem_of k') k;
  re_bytes : forall j, 0 <= j < n -> rd (mem_of k') (loc j) = byte_of v i (off + j);
  re_rest : forall a, ~ bufs a -> (forall j, 0 <= j < n -> a <> loc j) -> rd (mem_of k') a = rd (mem_of k) a
}.

Lemma readi_ok t v il ip i k user dst n loc off :
  vol t v -> (length (tv_log v) < NBUF)%nat -> il !! ip = Some i -> file_ok v i -> takes buf_addr user k dst n loc ->
  0 <= dst < 2 ^ 64 -> 0 <= off <= i_size i -> 0 <= n -> off + n < 2 ^ 32 ->
  exists t' k', readi buf_addr ip user dst off n (st t il k) = Ret (Z.min n (i_size i - off)) (st t' il k') /\
    vol t' v /\ read_effect v i off (Z.min n (i_size i - off)) loc k k'.
Proof.
  intros [Hr Hh Hv Hm] Hlog Hi [J1 J2 J3 J4 J5 J6] Htk Hdst Hoff Hn Hlt.
  destruct (readi_spec sb Hg lk buf_addr ip i il Hi J1 user dst n loc k Htk v Hh Hlog Hv J5 t off Hr) as (t' & k' & He & Hr' & m & -> & Hb & Hrest); try done; try lia.
  exists t', (kmem_at m k). split_and!; [done | done |]. split; done.
Qed.

Lemma readi_beyond t il ip i k user dst n off : il !! ip = Some i -> 0 <= off < 2 ^ 32 -> 0 <= n < 2 ^ 32 ->
  i_size i < off \/ 2 ^ 32 <= off + n -> readi buf_addr ip user dst off n (st t il k) = Ret 0 (st t il k).
Proof.
  intros Hi Hoff Hn Hbad. unfold readi. erewrite bind_ret by (by apply iget_f_eq).
  destruct (Z.ltb_spec (i_size i) off) as [|Hs]; [done|]. destruct Hbad as [|Hbad]; [lia|].
  rewrite (proj2 (Z.ltb_lt (u32 (off + n)) off)); [by rewrite orb_true_r|]. unfold u32. Z.to_euclidean_division_equations. lia.
Qed.

Lemma readi_some t v il ip i k user dst n W off :
  vol t v -> (length (tv_log v) < NBUF)%nat -> il !! ip = Some i -> file_ok v i -> may_take buf_addr user k dst n W ->
  0 <= dst < 2 ^ 64 -> 0 <= off <= i_size i -> 0 <= n -> off + n < 2 ^ 32 ->
  exists r t' k', readi buf_addr ip user dst off n (st t il k) = Ret r (st t' il k') /\ vol t' v /\ same_but W k k' /\
    (r = Z.min n (i_size i - off) \/ r = -1 /\ refuses user dst (Z.min n (i_size i - off))).
Proof.
  intros [Hr Hh Hv Hm] Hlog Hi [J1 J2 J3 J4 J5 J6] Htk Hdst Hoff Hn Hlt.
  destruct (readi_any sb Hg lk buf_addr ip i il Hi J1 user dst n W k Htk v Hh Hlog Hv J5 t off Hr) as (r & t' & k' & He & Hr' & Hsame & Hres); try done; try lia.
  exists r, t', k'. split_and!; [done | by split | done | done].
Qed.

Lemma takes_same user k k' dst n loc : same_but bufs k k' -> takes buf_addr user k dst n loc -> takes buf_addr user k' dst n loc.
Proof.
  intros Hk (H1 & H2 & H3). split_and!; [done | done |]. intros k'' h o i l Hk''. apply H3.
  eapply same_but_trans; [|exact Hk'']. eapply same_but_mono; [|exact Hk]. by left.
Qed.

Lemma write_read_ok t v il ip i k user src bs off user' dst loc :
  let n := Z.of_nat (length bs) in
  vol t v -> il !! ip = Some i -> file_ok v i -> gives buf_addr user k src bs -> 0 <= src < 2 ^ 64 ->
  0 <= off <= i_size i -> off + n <= Z.of_nat MAXFILE * BSIZE -> fits v (file_blocks sb i) (nblocks off n + ind_need (i_addrs i)) ->
  takes buf_addr user' k dst n loc -> 0 <= dst < 2 ^ 64 ->
  exists r t' il' k', (r ← writei buf_addr ip user src off n; readi buf_addr ip user' dst off r) (st t il k) = Ret r (st t' il' k') /\
    0 <= r <= n /\ forall j, 0 <= j < r -> rd (mem_of k') (loc j) = bs !!! Z.to_nat j.
Proof.
  intros n Hvol Hi Hf Hgv Hsrc Hoff Hmax Hfit Htk Hdst. assert (n <= 274432) as Hn by (change 274432 with (Z.of_nat MAXFILE * BSIZE); lia).
  assert (off < 2 ^ 32 /\ off + n < 2 ^ 32) as [Hoff32 Hon32] by (pose proof (fo_size _ _ Hf); change (Z.of_nat MAXFILE * BSIZE) with 274432 in *; lia).
  destruct (writei_ok t v il ip i k user src bs off Hvol Hi Hf Hgv Hsrc) as [_ Hw].
  { lia. } { fold n. lia. }
  destruct (Hw ltac:(lia) Hmax Hfit) as (r & t1 & v1 & i1 & k1 & He & Hvol1 & Hk1 & Hr & [W1 W2 W3 W4 W5 W6] & Hlog).
  assert (Z.min r (i_size i1 - off) = r) as Er by (rewrite W1; simpl; lia).
  destruct (readi_ok t1 v1 (<[ip := i1]> il) ip i1 k1 user' dst r loc off Hvol1 Hlog) as (t2 & k2 & He2 & Hvol2 & [R1 R2 R3]); try done; try lia.
  { apply list_lookup_insert_eq. by eapply lookup_lt_Some. }
  { destruct (takes_same _ _ _ _ _ _ Hk1 Htk) as (K1 & K2 & K3). split_and!; [intros; apply K1; lia | intros; apply K2; lia|].
    intros k' h o j l Hs. intros. apply K3; try done; [|lia]. eapply same_but_mono; [|exact Hs].
    intros a [?|(j' & ? & ?)]; [by left | right; exists j'; split; [lia | done]]. }
  rewrite Er in *.
  exists r, t2, (<[ip := i1]> il), k2. split; [erewrite bind_ret by exact He; exact He2|]. split; [done|].
  intros j Hj. rewrite R2 by done. rewrite W3 by (change (Z.of_nat MAXFILE * BSIZE) with 274432 in *; lia). rewrite decide_True by lia. do 2 f_equal. lia.
Qed.
End Spec.

(** ** A volume *)

(** The store of the kernel: the log [fsinit] sets up over the buffer cache. *)
Lemma mkfs_start : 0 <= 2 /\ 2 + LOGSIZE < 2 ^ 31.
Proof. unfold LOGSIZE, MAXOPBLOCKS. lia. Qed.
Lemma mkfs_cap : 0 <= 29 < LOGSIZE.
Proof. unfold LOGSIZE, MAXOPBLOCKS. lia. Qed.

#[export] Instance kstore : Txn ksys := log_txn (H := bio_cache 1).
#[export] Instance kstore_laws : TxnLaws ksys := log_laws (H0 := bio_laws 1) 2 29 mkfs_start mkfs_cap.

(** A volume on which the blocks up to the bitmap are in use, and one data block. *)
Definition demo_bitmap : block := replicate 5 255 ++ [127] ++ replicate 1018 0.
Definition demo_block : block := [114; 111; 99; 113] ++ replicate 1020 0.
Definition demo_disk : blocks := {[ 45 := demo_bitmap; 46 := demo_block ]}.
Definition demo_mounted : blocks := apply_writes (recover_writes 2 demo_disk) demo_disk.
Definition demo_view : tview := TView (dread demo_mounted) [] ∅ 1 29.

Lemma demo_wf : wf_log 2 29 demo_disk.
Proof. split_and!; [vm_compute; reflexivity | vm_compute; congruence..|]. intros b Hb. inversion Hb. Qed.

(** Mounted, with one operation begun. *)
Lemma demo_rep : exists t, txn_rep t demo_view.
Proof.
  destruct (mount_inv mkfs_sb mkfs_start ltac:(by vm_compute) demo_disk demo_wf) as (s & g & _ & Ho & Hi).
  apply (log_inv_rep 2 29) in Hi. rewrite Ho in Hi.
  pose proof (t_begin (TxnLaws := kstore_laws) s _ Hi eq_refl) as Hb. change (_ >? LOGSIZE) with false in Hb. cbv iota in Hb.
  destruct Hb as (t & _ & Hr). exists t. exact Hr.
Qed.

Definition block_okb (x : block) : bool := (length x =? Z.to_nat BSIZE)%nat && forallb (fun c => (0 <=? c) && (c <? 256)) x.

Lemma block_okb_ok x : block_okb x = true -> length x = Z.to_nat BSIZE /\ Forall byte_range x.
Proof.
  unfold block_okb. intros [Hl Hb]%andb_prop. split; [by apply Nat.eqb_eq|]. apply Forall_forall. intros c Hc.
  apply forallb_forall with (x := c) in Hb; [|by apply list_elem_of_In]. apply andb_prop in Hb as [H1 H2]. unfold byte_range. lia.
Qed.

Lemma dread_ok d : forallb (fun x => block_okb x.2) (map_to_list d) = true -> forall b, length (dread d b) = Z.to_nat BSIZE /\ Forall byte_range (dread d b).
Proof.
  intros Hd b. unfold dread. destruct (d !! b) as [x|] eqn:E; [|apply zero_block_ok]. apply block_okb_ok.
  apply forallb_forall with (x := (b, x)) in Hd; [done|]. by apply list_elem_of_In, elem_of_map_to_list.
Qed.

Lemma demo_vol : exists t, vol mkfs_sb t demo_view.
Proof.
  destruct demo_rep as [t Ht]. exists t. split; [done | done | |].
  - intros b. apply dread_ok. vm_compute. reflexivity.
  - assert (forallb (fun b => negb (bit_clear (dread demo_mounted 45) (Z.of_nat b))) (seq 0 46) = true) as Hb by (vm_compute; reflexivity).
    intros b Hr. simpl in Hr. apply forallb_forall with (x := Z.to_nat b) in Hb; [|apply in_seq; lia].
    rewrite Z2Nat.id in Hb by lia. unfold in_use_blk. simpl. by apply negb_true_iff in Hb.
Qed.

Lemma mkfs_geom : geom mkfs_sb.
Proof.
  split; try (vm_compute; split; congruence); try (vm_compute; congruence).
  intros b Hb. simpl. unfold in_log. simpl in Hb. lia.
Qed.

(** An empty file. *)
Definition demo_file : inode := Inode ROOTDEV 2 1 inhabitant true T_FILE 0 0 1 0 (replicate 13 0).

Lemma demo_file_ok : file_ok mkfs_sb demo_view demo_file.
Proof.
  assert (forall o, slot_in o -> own demo_view (i_addrs demo_file) o = 0) as Ho.
  { intros [bn|] Hs; [|done]. cbn [own]. unfold blkno. case_decide as Hd; [|done]. apply list_lookup_total_correct, lookup_replicate. split; [done | unfold NDIRECT in Hd; lia]. }
  split; simpl; try done; try lia.
  - split; simpl; try done; try lia. apply (Forall_replicate _ 13 0). lia.
  - split; [done | intros o Hs Hne; by rewrite Ho in Hne | intros o o' Hs Hs' Hne; by rewrite Ho in Hne].
  - intros bn Hbn Hlt. unfold BSIZE in Hlt. lia.
Qed.

(** A file of four bytes, in that block. *)
Definition demo_full : inode := Inode ROOTDEV 3 1 inhabitant true T_FILE 0 0 1 4 (46 :: replicate 12 0).

Lemma demo_full_own o : slot_in o -> own demo_view (i_addrs demo_full) o = if decide (o = Some 0%nat) then 46 else 0.
Proof.
  intros Hs. destruct o as [bn|]; [|done]. cbn [own]. unfold blkno. case_decide as Hd.
  - destruct bn as [|bn]; [done|]. rewrite decide_False by done. apply list_lookup_total_correct, (lookup_replicate 12). split; [done | unfold NDIRECT in Hd; lia].
  - rewrite decide_False by (intros [= ->]; unfold NDIRECT in Hd; lia). done.
Qed.

Lemma demo_full_ok : file_ok mkfs_sb demo_view demo_full.
Proof.
  assert (in_use_blk mkfs_sb demo_view 46) as Hu by (unfold in_use_blk; vm_compute; reflexivity).
  split; simpl; try done; try lia.
  - split; simpl; try done; try lia. constructor; [lia|]. apply (Forall_replicate _ 12 0). lia.
  - split; [done| |].
    + intros o Hs. rewrite demo_full_own by done. case_decide; [|done]. intros _. split; [by vm_compute | exact Hu].
    + intros o o' Hs Hs'. rewrite !demo_full_own by done. repeat case_decide; congruence.
  - intros bn Hbn Hlt. assert (bn = 0%nat) as -> by (unfold BSIZE in Hlt; lia). done.
Qed.

(** Buffers far from the bytes to write, which are at 100, and from the destination 200. *)
Definition demo_buf (h : nat) : Z := 2 ^ 40 + 1024 * Z.of_nat h.
Definition demo_bytes : list Z := [104; 105].
Definition demo_k : kproc := KProc [] 1 Free Free None None (Kmem Free 0 (wrn ∅ 100 demo_bytes)).
Definition demo_il : list inode := [demo_file].

Lemma demo_far a : a < 2 ^ 40 -> ~ bufmem demo_buf a.
Proof. intros Ha (h & Hh). unfold demo_buf in Hh. lia. Qed.

Lemma demo_gives : gives demo_buf false demo_k 100 demo_bytes.
Proof.
  apply gives_kernel; [repeat constructor; by vm_compute | lia | simpl; lia |].
  intros i Hi. split; [apply demo_far; simpl in Hi; lia|]. assert (i = 0 \/ i = 1) as [->| ->] by (simpl in Hi; lia); reflexivity.
Qed.

Lemma demo_takes : takes demo_buf false demo_k 200 2 (fun i => 200 + i).
Proof. apply takes_kernel; [lia | lia |]. intros i Hi. apply demo_far. lia. Qed.

Lemma demo_fits : fits demo_view (file_blocks mkfs_sb demo_file) (nblocks 0 2 + ind_need (i_addrs demo_file)).
Proof. split_and!; [done | by vm_compute | by vm_compute]. Qed.

(** C5: writing a file, from a source that can be read in full ([gives]).  [writei] at an
    offset beyond the end of the file, or reaching past the largest file, returns -1 and
    changes nothing.  Otherwise, when the log has room for the blocks of the range
    ([fits]), it returns the number [r] of bytes written: they are in the file at [off],
    every other byte of the file is as before, the file ends at [off + r] or where it
    ended, the inode on disk says so, and no other file has changed.  [r] is less than
    asked only when every block of the disk is in use.  Not covered: a copy that fails in
    the middle of a block, after which the buffer has bytes that are not logged. *)
Theorem writei_writes {T} `{TxnLaws T} sb lk buf_addr t v il ip i k user src bs off :
  geom sb -> vol sb t v -> il !! ip = Some i -> file_ok sb v i -> gives buf_addr user k src bs -> 0 <= src < 2 ^ 64 ->
  0 <= off < 2 ^ 32 -> Z.of_nat (length bs) < 2 ^ 32 ->
  let n := Z.of_nat (length bs) in
  let s := FSys t sb lk il k in
  (i_size i < off \/ Z.of_nat MAXFILE * BSIZE < off + n -> writei buf_addr ip user src off n s = Ret (-1) s) /\
  (off <= i_size i -> off + n <= Z.of_nat MAXFILE * BSIZE -> fits v (file_blocks sb i) (nblocks off n + ind_need (i_addrs i)) ->
   exists r t' v' i' k', writei buf_addr ip user src off n s = Ret r (FSys t' sb lk (<[ip := i']> il) k') /\
     vol sb t' v' /\ same_but (bufmem buf_addr) k k' /\ 0 <= r <= n /\ write_effect sb v v' i i' off bs r).
Proof.
  intros Hg Hvol Hi Hf Hgv Hsrc Hoff Hn n s. destruct (writei_ok sb Hg lk buf_addr t v il ip i k user src bs off Hvol Hi Hf Hgv Hsrc Hoff Hn) as [H1 H2].
  split; [exact H1|]. intros A B C. destruct (H2 A B C) as (r & t' & v' & i' & k' & He & Hv' & Hk' & Hr & Hw & _). by exists r, t', v', i', k'.
Qed.

Lemma writei_writes_witness : exists t r t' v' i' k',
  writei demo_buf 0 false 100 0 2 (FSys t mkfs_sb Free demo_il demo_k) = Ret r (FSys t' mkfs_sb Free [i'] k') /\
  write_effect mkfs_sb demo_view v' demo_file i' 0 demo_bytes r.
Proof.
  destruct demo_vol as [t Hvol].
  destruct (writei_writes mkfs_sb Free demo_buf t demo_view demo_il 0 demo_file demo_k false 100 demo_bytes 0
    mkfs_geom Hvol eq_refl demo_file_ok demo_gives ltac:(lia) ltac:(lia) ltac:(simpl; lia)) as [_ Hw].
  destruct Hw as (r & t' & v' & i' & k' & He & _ & _ & _ & Hwe); [simpl; lia | by vm_compute | apply demo_fits |].
  exists t, r, t', v', i', k'. split; [exact He | exact Hwe].
Defined.



(** C7: what was written is read back.  [writei] followed by [readi] of the same range,
    of as many bytes as were written, puts the bytes that were at the source at the
    destination; source and destination may be in kernel memory or in the memory of the
    process. *)
Theorem read_back {T} `{TxnLaws T} sb lk buf_addr t v il ip i k user src bs off user' dst loc :
  let n := Z.of_nat (length bs) in
  geom sb -> vol sb t v -> il !! ip = Some i -> file_ok sb v i -> gives buf_addr user k src bs -> 0 <= src < 2 ^ 64 ->
  0 <= off <= i_size i -> off + n <= Z.of_nat MAXFILE * BSIZE -> fits v (file_blocks sb i) (nblocks off n + ind_need (i_addrs i)) ->
  takes buf_addr user' k dst n loc -> 0 <= dst < 2 ^ 64 ->
  exists r t' il' k', (r ← writei buf_addr ip user src off n; readi buf_addr ip user' dst off r) (FSys t sb lk il k) = Ret r (FSys t' sb lk il' k') /\
    0 <= r <= n /\ forall j, 0 <= j < r -> rd (mem_of k') (loc j) = bs !!! Z.to_nat j.
Proof. intros n Hg. by apply (write_read_ok sb Hg lk). Qed.

Lemma read_back_witness : exists t r t' il' k',
  (r ← writei demo_buf 0 false 100 0 2; readi demo_buf 0 false 200 0 r) (FSys t mkfs_sb Free demo_il demo_k) = Ret r (FSys t' mkfs_sb Free il' k') /\
  forall j, 0 <= j < r -> rd (mem_of k') (200 + j) = demo_bytes !!! Z.to_nat j.
Proof.
  destruct demo_vol as [t Hvol].
  destruct (read_back mkfs_sb Free demo_buf t demo_view demo_il 0 demo_file demo_k false 100 demo_bytes 0 false 200 (fun i => 200 + i))
    as (r & t' & il' & k' & He & _ & Hb); [apply mkfs_geom | done | done | apply demo_file_ok | apply demo_gives | lia | simpl; lia | by vm_compute | apply demo_fits | apply demo_takes | lia |].
  exists t, r, t', il', k'. split; [exact He | exact Hb].
Defined.
