(* ===== verification/File.v ===== *)
(** * File: open files, [kernel/file.c], and [pipealloc] of [kernel/pipe.c]

    The state is that of the file system with the table of open files, the pipes by
    the address of their page, and the devices.  [devsw] maps a major number to the
    functions of a driver; the table is filled at run time, so the drivers are
    parameters here.

    A call runs until it returns or sleeps.  A section of [Pipe] ([pipewrite],
    [piperead], [pipeclose]) works on one pipe; here it is given the memory of the
    process and its wake-ups reach the process table. *)

From S2P Require Import Prelude CString Riscv Kalloc Vm Pipe Sleeplock BufCache Log Txn Proc Fs.

Definition NFILE : nat := 100.
Definition NDEV : Z := 10.

Inductive fdtype := FD_NONE | FD_PIPE | FD_INODE | FD_DEVICE.
#[export] Instance fdtype_eq : EqDecision fdtype.
Proof. solve_decision. Defined.

Record file := MkFile {
  fl_type : fdtype;
  fl_ref : Z;
  fl_readable : bool;
  fl_writable : bool;
  fl_pipe : Z;
  fl_ip : option nat;
  fl_off : Z;
  fl_major : Z
}.

Definition setl_type v f := MkFile v (fl_ref f) (fl_readable f) (fl_writable f) (fl_pipe f) (fl_ip f) (fl_off f) (fl_major f).
Definition setl_ref v f := MkFile (fl_type f) v (fl_readable f) (fl_writable f) (fl_pipe f) (fl_ip f) (fl_off f) (fl_major f).
Definition setl_readable v f := MkFile (fl_type f) (fl_ref f) v (fl_writable f) (fl_pipe f) (fl_ip f) (fl_off f) (fl_major f).
Definition setl_writable v f := MkFile (fl_type f) (fl_ref f) (fl_readable f) v (fl_pipe f) (fl_ip f) (fl_off f) (fl_major f).
Definition setl_pipe v f := MkFile (fl_type f) (fl_ref f) (fl_readable f) (fl_writable f) v (fl_ip f) (fl_off f) (fl_major f).
Definition setl_ip v f := MkFile (fl_type f) (fl_ref f) (fl_readable f) (fl_writable f) (fl_pipe f) v (fl_off f) (fl_major f).
Definition setl_off v f := MkFile (fl_type f) (fl_ref f) (fl_readable f) (fl_writable f) (fl_pipe f) (fl_ip f) v (fl_major f).
Definition setl_major v f := MkFile (fl_type f) (fl_ref f) (fl_readable f) (fl_writable f) (fl_pipe f) (fl_ip f) (fl_off f) v.

Section File.
Context {T : Type} `{Txn T} {D : Type}.
(** The linker's [end]; where the bytes of buffers and local variables lie. *)
Variable kend : Z.
Variable buf_addr : nat -> Z.
Variables st_addr ch_addr : Z.

Record fstate := FState {
  fs_sys : fsys T;
  ft_lock : spin;
  ft_file : list file;
  fs_pipes : gmap Z psys;
  fs_dev : D
}.

Definition sets_sys v s := FState v (ft_lock s) (ft_file s) (fs_pipes s) (fs_dev s).
Definition sets_lock v s := FState (fs_sys s) v (ft_file s) (fs_pipes s) (fs_dev s).
Definition sets_file v s := FState (fs_sys s) (ft_lock s) v (fs_pipes s) (fs_dev s).
Definition sets_pipes v s := FState (fs_sys s) (ft_lock s) (ft_file s) v (fs_dev s).
Definition sets_dev v s := FState (fs_sys s) (ft_lock s) (ft_file s) (fs_pipes s) v.

Definition sysL : lens fstate (fsys T) := Lens fs_sys sets_sys.
Definition ft_lockL : lens fstate spin := Lens ft_lock sets_lock.
Definition devL : lens fstate D := Lens fs_dev sets_dev.

Definition in_fs {A} (m : M (fsys T) A) : M fstate A := zoom sysL m.
Definition in_proc {A} (m : M kproc A) : M fstate A := zoom sysL (zoom fkL m).
Definition in_mem {A} (m : M kmem A) : M fstate A := zoom sysL (zoom fkL (zoom kmL m)).

(** The drivers of [devsw]. *)
Variables dev_read dev_write : Z -> option (Z -> Z -> Z -> M fstate Z).

(** [f->field], [f->field = v]. *)
Definition flget {A} (f : nat) (g : file -> A) : M fstate A := x ← arr_get ft_file f; mret (g x).
Definition flupd (f : nat) (g : file -> file) : M fstate unit :=
  x ← arr_get ft_file f; modify (fun s => sets_file (<[f := g x]> (ft_file s)) s).

(** ** Pipes *)

(** Offsets of [nread] and [nwrite] in [struct pipe]: the wait channels. *)
Definition off_nread : Z := 536.
Definition off_nwrite : Z := 540.

Definition pipeL (pi : Z) : lens fstate psys :=
  Lens (fun s => default (PSys (Pipe Free (replicate (Z.to_nat PIPESIZE) 0) 0 0 false false) [] [] [] [] true) (fs_pipes s !! pi))
       (fun p s => sets_pipes (<[pi := p]> (fs_pipes s)) s).

(** A byte of user memory as [copyin] and [copyout] of one byte see it. *)
Definition user_byte (pt : Z) (k : kmem) (va : Z) : option Z :=
  match copyin pt ch_addr va 1 k with
  | Ret r k' => if r =? -1 then None else Some (rd (kmem_mem k') ch_addr)
  | _ => None
  end.
Definition user_takes (pt : Z) (k : kmem) (va : Z) : bool :=
  match copyout pt va ch_addr 1 k with Ret r _ => negb (r =? -1) | _ => false end.

(** The bytes a section delivered, stored in user memory. *)
Fixpoint deliver (pt addr : Z) (bs : list Z) : M fstate unit :=
  match bs with
  | [] => mret tt
  | ch :: bs =>
    in_mem (stb ch_addr ch);;
    in_mem (copyout pt addr ch_addr 1);;
    deliver pt (u64 (addr + 1)) bs
  end.

Definition chan_wakeup (chan : Z) : M fstate unit := in_proc (wakeup chan).

Definition pipeclose (pi : Z) (writable : bool) : M fstate unit :=
  zoom (pipeL pi) (Pipe.pipeclose writable);;
  chan_wakeup (pi + (if writable then off_nread else off_nwrite));;
  fr ← gets (fun s => Pipe.freed (view (pipeL pi) s));
  when fr (
    in_mem (kfree kend pi);;
    modify (fun s => sets_pipes (delete pi (fs_pipes s)) s)).

Definition pipewrite (pi addr n : Z) : M fstate Z :=
  p ← in_proc me;
  kl ← in_proc (killed p);
  pt ← in_proc (pget p p_pagetable);
  k ← gets (fun s => km (f_k (fs_sys s)));
  r ← zoom (pipeL pi) (Pipe.pipewrite p (fun _ => negb (kl =? 0)) (user_byte pt k) addr n 0);
  match r with
  | Done i => when (negb (i =? -1)) (chan_wakeup (pi + off_nread));; mret i
  | Asleep _ => chan_wakeup (pi + off_nread);; sleep_on "pipe"
  end.

Definition piperead (pi addr n : Z) : M fstate Z :=
  p ← in_proc me;
  kl ← in_proc (killed p);
  pt ← in_proc (pget p p_pagetable);
  k ← gets (fun s => km (f_k (fs_sys s)));
  n0 ← gets (fun s => length (delivered (view (pipeL pi) s)));
  r ← zoom (pipeL pi) (Pipe.piperead p (fun _ => negb (kl =? 0)) (user_takes pt k) addr n);
  match r with
  | Done i =>
    bs ← gets (fun s => drop n0 (delivered (view (pipeL pi) s)));
    deliver pt addr bs;;
    when (negb (i =? -1)) (chan_wakeup (pi + off_nwrite));;
    mret i
  | Asleep _ => sleep_on "pipe"
  end.

(** ** The table of open files *)

Definition fileinit : M fstate unit := modify (sets_lock Free).

Definition filealloc : M fstate (option nat) :=
  acquire ft_lockL;;
  r ← for_each (seq 0 NFILE) (fun f =>
    ref ← flget f fl_ref;
    if ref =? 0 then
      flupd f (setl_ref 1);;
      release ft_lockL;;
      mret (Some f)
    else mret None);
  match r with
  | Some f => mret (Some f)
  | None => release ft_lockL;; mret None
  end.

Definition filedup (f : nat) : M fstate nat :=
  acquire ft_lockL;;
  ref ← flget f fl_ref;
  if ref <? 1 then panic "filedup" else
  flupd f (setl_ref (ref + 1));;
  release ft_lockL;;
  mret f.

Definition begin_op_ : M fstate unit := in_fs (zoom txL tbegin).
Definition end_op_ : M fstate unit := in_fs (zoom txL tend).

(** [iput] of a pointer. *)
Definition iput_ (ip : option nat) : M fstate unit :=
  match ip with Some ip => in_fs (iput ip) | None => undefined end.

Definition fileclose (f : nat) : M fstate unit :=
  acquire ft_lockL;;
  ref ← flget f fl_ref;
  if ref <? 1 then panic "fileclose" else
  flupd f (setl_ref (ref - 1));;
  if 0 <? ref - 1 then release ft_lockL else
  ff ← flget f id;
  flupd f (fun x => setl_type FD_NONE (setl_ref 0 x));;
  release ft_lockL;;
  match fl_type ff with
  | FD_PIPE => pipeclose (fl_pipe ff) (fl_writable ff)
  | FD_INODE | FD_DEVICE =>
    begin_op_;;
    iput_ (fl_ip ff);;
    end_op_
  | FD_NONE => mret tt
  end.

(** [struct stat] in memory: 24 bytes, of which four are padding. *)
Definition sizeof_stat : Z := 24.
Definition put_stat (a : Z) (st : stat) (m : mem) : mem :=
  wrn (wrn m a (le_split 4 (st_dev st) ++ le_split 4 (st_ino st) ++ le_split 2 (st_type st) ++ le_split 2 (st_nlink st)))
      (a + 16) (le_split 8 (st_size st)).

Definition filestat (f : nat) (addr : Z) : M fstate Z :=
  p ← in_proc me;
  ty ← flget f fl_type;
  if decide (ty = FD_INODE \/ ty = FD_DEVICE) then
    ip ← flget f fl_ip;
    in_fs (ilock ip);;
    st ← match ip with Some ip => in_fs (stati ip) | None => undefined end;
    in_fs (iunlock ip);;
    pt ← in_proc (pget p p_pagetable);
    in_mem (do_mem (put_stat st_addr st));;
    r ← in_mem (copyout pt addr st_addr sizeof_stat);
    if r <? 0 then mret (-1) else mret 0
  else mret (-1).

Definition fileread (f : nat) (addr n : Z) : M fstate Z :=
  ff ← flget f id;
  if negb (fl_readable ff) then mret (-1) else
  match fl_type ff with
  | FD_PIPE => piperead (fl_pipe ff) addr n
  | FD_DEVICE =>
    if (fl_major ff <? 0) || (NDEV <=? fl_major ff) then mret (-1) else
    match dev_read (fl_major ff) with
    | None => mret (-1)
    | Some rd => rd 1 addr n
    end
  | FD_INODE =>
    in_fs (ilock (fl_ip ff));;
    r ← match fl_ip ff with
        | Some ip => off ← flget f fl_off; in_fs (readi buf_addr ip true addr off (u32 n))
        | None => undefined
        end;
    when (0 <? r) (flupd f (fun x => setl_off (u32 (fl_off x + r)) x));;
    in_fs (iunlock (fl_ip ff));;
    mret r
  | FD_NONE => panic "fileread"
  end.

(** [((MAXOPBLOCKS-1-1-2) / 2) * BSIZE] *)
Definition write_max : Z := (MAXOPBLOCKS - 1 - 1 - 2) / 2 * BSIZE.

(** One transaction of [filewrite]. *)
Definition filewrite_chunk (f : nat) (addr n1 : Z) : M fstate Z :=
  begin_op_;;
  ff ← flget f id;
  in_fs (ilock (fl_ip ff));;
  r ← match fl_ip ff with
      | Some ip => off ← flget f fl_off; in_fs (writei buf_addr ip true addr off n1)
      | None => undefined
      end;
  when (0 <? r) (flupd f (fun x => setl_off (u32 (fl_off x + r)) x));;
  in_fs (iunlock (fl_ip ff));;
  end_op_;;
  mret r.

Fixpoint filewrite_loop (fuel : nat) (f : nat) (addr n i : Z) : M fstate Z :=
  match fuel with
  | O => fun _ => NoFuel
  | S fuel =>
    if i <? n then
      let n1 := Z.min (n - i) write_max in
      r ← filewrite_chunk f (u64 (addr + i)) n1;
      if negb (r =? n1) then mret i else
      filewrite_loop fuel f addr n (i + r)
    else mret i
  end.

Definition filewrite (f : nat) (addr n : Z) : M fstate Z :=
  ff ← flget f id;
  if negb (fl_writable ff) then mret (-1) else
  match fl_type ff with
  | FD_PIPE => pipewrite (fl_pipe ff) addr n
  | FD_DEVICE =>
    if (fl_major ff <? 0) || (NDEV <=? fl_major ff) then mret (-1) else
    match dev_write (fl_major ff) with
    | None => mret (-1)
    | Some wr => wr 1 addr n
    end
  | FD_INODE =>
    i ← filewrite_loop (S (S (Z.to_nat (n / write_max)))) f addr n 0;
    mret (if i =? n then n else -1)
  | FD_NONE => panic "filewrite"
  end.

Fixpoint open_count (l : list file) : Z :=
  match l with [] => 0 | f :: l => (if 0 <? fl_ref f then 1 else 0) + open_count l end.

Definition fileopencount : M fstate Z :=
  acquire ft_lockL;;
  count ← gets (fun s => open_count (take NFILE (ft_file s)));
  release ft_lockL;;
  mret count.

(** ** [pipealloc] *)

(** The error exit: close what was opened. *)
Definition pipealloc_bad (f0 f1 : option nat) : M fstate (option (nat * nat)) :=
  match f0 with Some f => fileclose f | None => mret tt end;;
  match f1 with Some f => fileclose f | None => mret tt end;;
  mret None.

(** The two files, or nothing when the call returns -1. *)
Definition pipealloc : M fstate (option (nat * nat)) :=
  r0 ← filealloc;
  match r0 with
  | None => pipealloc_bad None None
  | Some f0 =>
    r1 ← filealloc;
    match r1 with
    | None => pipealloc_bad (Some f0) None
    | Some f1 =>
      pi ← in_mem kalloc;
      if pi =? 0 then pipealloc_bad (Some f0) (Some f1) else
      m ← gets (fun s => kmem_mem (km (f_k (fs_sys s))));
      modify (fun s => sets_pipes (<[pi := PSys (Pipe Free (rdn m (pi + 24) (Z.to_nat PIPESIZE)) 0 0 true true) [] [] [] [] false]> (fs_pipes s)) s);;
      flupd f0 (fun x => setl_pipe pi (setl_writable false (setl_readable true (setl_type FD_PIPE x))));;
      flupd f1 (fun x => setl_pipe pi (setl_writable true (setl_readable false (setl_type FD_PIPE x))));;
      mret (Some (f0, f1))
    end
  end.
End File.
