(* ===== verification/Sched.v ===== *)
(** * Sched: the scheduler on several CPUs, [scheduler], [sched], [yield] and [sleep] of [kernel/proc.c]

    Every CPU is at a point of [scheduler] or carries a process that is at a point of
    [yield], [sleep], [exit] or of its own code; any CPU may make the next step.  A
    lock is the CPU that holds it; a CPU that waits for a lock makes no step.  The
    code of a process may take and release locks; it, or an interrupt handler, may
    change the state of another process under that process's lock in the ways
    [wakeup], [kill], [allocproc], [fork] and [wait] do.

    Of a process the scheduler sees its lock, state and channel; [s_intena] is the
    local variable of [sched] on its stack and [s_tail] where its thread resumes.

    The theorems: no two CPUs ever run the same process, and a process that could be
    chosen is on none; the checks of [sched] fail only for a process that holds
    another lock; a process that sleeps on a channel has not missed a wake-up; a
    runnable process runs before any CPU completes a scan of the table. *)

From S2P Require Import Prelude Riscv Kvm Spinlock Proc.

(** What follows the call of [sched] in the thread. *)
Inductive tail := TFork | TYield | TSleep (lk : nat).

Record slot := Slot {
  s_lock : option nat;
  s_state : procstate;
  s_chan : Z;
  s_intena : bool;
  s_tail : tail
}.

Definition set_lock (l : option nat) (p : slot) : slot := Slot l (s_state p) (s_chan p) (s_intena p) (s_tail p).
Definition set_state (v : procstate) (p : slot) : slot := Slot (s_lock p) v (s_chan p) (s_intena p) (s_tail p).
Definition set_chan (v : Z) (p : slot) : slot := Slot (s_lock p) (s_state p) v (s_intena p) (s_tail p).
Definition set_intena (v : bool) (p : slot) : slot := Slot (s_lock p) (s_state p) (s_chan p) v (s_tail p).
Definition set_tail (v : tail) (p : slot) : slot := Slot (s_lock p) (s_state p) (s_chan p) (s_intena p) v.

(** Why [sched] is called. *)
Inductive why := Yield | Sleep (chan : Z) (lk : nat) | Exit (wait_lock : nat).

Inductive spc :=
| SLoop                             (* intr_on(); int found = 0; *)
| SAcq (i : nat) (found : bool)     (* acquire(&p->lock); *)
| STest (i : nat) (found : bool)    (* if(p->state == RUNNABLE) *)
| SBack (i : nat)                   (* c->proc = 0; found = 1; *)
| SRel (i : nat) (found : bool)     (* release(&p->lock); *)
| SWait                             (* asm volatile("wfi"); *)
| PEnter (i : nat)                  (* swtch has returned in sched, or forkret *)
| PLock (i : nat) (lk : nat)        (* sleep: acquire(lk); *)
| PRun (i : nat)                    (* the code of the process *)
| PAcq (i : nat) (w : why)          (* acquire(&p->lock); *)
| PSet (i : nat) (w : why)          (* with p->lock: sleep's release(lk), or p->state = ... *)
| PRest (i : nat) (w : why)         (* sleep's p->state = SLEEPING, exit's release(&wait_lock) *)
| PSched (i : nat)                  (* sched() *)
| Stop (i : nat) (msg : string).   (* panic in sched *)

Record scpu := SCpu { c_proc : option nat; c_at : spc; c_in : intr }.

Record smp := SMP { slots : list slot; locks : list (option nat); cpus : list scpu }.

(** [push_off] and [pop_off] of [Spinlock]; they return when used in pairs. *)
Definition pushed (x : intr) : intr := match push_off x with Ret _ y => y | _ => x end.
Definition popped (x : intr) : intr := match pop_off x with Ret _ y => y | _ => x end.

(** [p->state = RUNNABLE] in [yield], and the like in [sleep] and [exit]. *)
Definition cede (w : why) (p : slot) : slot :=
  match w with
  | Yield => set_tail TYield (set_state RUNNABLE p)
  | Sleep chan lk => set_tail (TSleep lk) (set_state SLEEPING (set_chan chan p))
  | Exit _ => set_state ZOMBIE p
  end.

(** The lock [sleep] and [exit] release once they have [p->lock]. *)
Definition why_lock (w : why) : option nat :=
  match w with Yield => None | Sleep _ lk => Some lk | Exit lk => Some lk end.

(** [mycpu()->intena = intena] after the [swtch] of [sched]; [forkret] does not have it. *)
Definition switched (p : slot) (x : intr) : intr :=
  match s_tail p with TFork => x | _ => Intr (noff x) (s_intena p) (ie x) end.

(** The end of the loop body of [scheduler]: the next entry, or the end of the scan. *)
Definition next_entry (n i : nat) (found : bool) : spc :=
  if decide (S i < n)%nat then SAcq (S i) found else if found then SLoop else SWait.

(** The checks of [sched], and the switch to the scheduler of CPU [c]. *)
Definition sched (c i : nat) (p : slot) (x : intr) : spc :=
  if decide (s_lock p <> Some c) then Stop i "sched p->lock"
  else if negb (noff x =? 1) then Stop i "sched locks"
  else if decide (s_state p = RUNNING) then Stop i "sched running"
  else if ie x then Stop i "sched interruptible"
  else SBack i.

(** The process a CPU carries, and the entry whose lock its code holds. *)
Definition carries (k : spc) : option nat :=
  match k with
  | PEnter i | PLock i _ | PRun i | PAcq i _ | PSet i _ | PRest i _ | PSched i | SBack i | Stop i _ => Some i
  | _ => None
  end.
Definition owns (k : spc) : option nat :=
  match k with
  | STest i _ | SRel i _ | PEnter i | PSet i _ | PRest i _ | PSched i | SBack i | Stop i _ => Some i
  | _ => None
  end.
(** How the code of a process changes the state of another one, under its lock. *)
Inductive touches : slot -> slot -> Prop :=
| t_wakeup p : s_state p = SLEEPING -> touches p (set_state RUNNABLE p)
| t_alloc p : s_state p = UNUSED -> touches p (set_tail TFork (set_state USED p))
| t_free p : s_state p = USED \/ s_state p = ZOMBIE -> touches p (set_chan 0 (set_state UNUSED p))
| t_ready p : s_state p = USED -> touches p (set_state RUNNABLE p).

Definition at_cpu (c : nat) (x : scpu) (s : smp) : smp := SMP (slots s) (locks s) (<[c := x]> (cpus s)).
Definition at_slot (i : nat) (p : slot) (s : smp) : smp := SMP (<[i := p]> (slots s)) (locks s) (cpus s).
Definition at_lock (l : nat) (o : option nat) (s : smp) : smp := SMP (slots s) (<[l := o]> (locks s)) (cpus s).

(** One step of CPU [c], which is [x], given the entry [p] its code is at. *)
Inductive sstep (c : nat) : smp -> smp -> Prop :=
| s_loop s q x : cpus s !! c = Some (SCpu q SLoop x) ->
    sstep c s (at_cpu c (SCpu q (SAcq 0 false) (Intr (noff x) (intena x) true)) s)
| s_acquire s q x i f p : cpus s !! c = Some (SCpu q (SAcq i f) x) -> slots s !! i = Some p -> s_lock p = None ->
    sstep c s (at_cpu c (SCpu q (STest i f) (pushed x)) (at_slot i (set_lock (Some c) p) s))
| s_switch s q x i f p : cpus s !! c = Some (SCpu q (STest i f) x) -> slots s !! i = Some p -> s_state p = RUNNABLE ->
    sstep c s (at_cpu c (SCpu (Some i) (PEnter i) (switched p x)) (at_slot i (set_state RUNNING p) s))
| s_skip s q x i f p : cpus s !! c = Some (SCpu q (STest i f) x) -> slots s !! i = Some p -> s_state p <> RUNNABLE ->
    sstep c s (at_cpu c (SCpu q (SRel i f) x) s)
| s_release s q x i f p : cpus s !! c = Some (SCpu q (SRel i f) x) -> slots s !! i = Some p ->
    sstep c s (at_cpu c (SCpu q (next_entry (length (slots s)) i f) (popped x)) (at_slot i (set_lock None p) s))
| s_wfi s q x : cpus s !! c = Some (SCpu q SWait x) ->
    sstep c s (at_cpu c (SCpu q SLoop (Intr (noff x) (intena x) true)) s)
| s_enter s q x i p : cpus s !! c = Some (SCpu q (PEnter i) x) -> slots s !! i = Some p ->
    sstep c s (at_cpu c (SCpu q (match s_tail p with TSleep lk => PLock i lk | _ => PRun i end) (popped x))
      (at_slot i (set_lock None (match s_tail p with TSleep _ => set_chan 0 p | _ => p end)) s))
| s_relock s q x i lk : cpus s !! c = Some (SCpu q (PLock i lk) x) -> locks s !! lk = Some None ->
    sstep c s (at_cpu c (SCpu q (PRun i) (pushed x)) (at_lock lk (Some c) s))
| s_take s q x i lk : cpus s !! c = Some (SCpu q (PRun i) x) -> locks s !! lk = Some None ->
    sstep c s (at_cpu c (SCpu q (PRun i) (pushed x)) (at_lock lk (Some c) s))
| s_drop s q x i lk : cpus s !! c = Some (SCpu q (PRun i) x) -> locks s !! lk = Some (Some c) ->
    sstep c s (at_cpu c (SCpu q (PRun i) (popped x)) (at_lock lk None s))
| s_intr s q x i b : cpus s !! c = Some (SCpu q (PRun i) x) -> noff x = 0 ->
    sstep c s (at_cpu c (SCpu q (PRun i) (Intr (noff x) (intena x) b)) s)
| s_touch s x j p p' : cpus s !! c = Some x -> owns (c_at x) = None -> slots s !! j = Some p -> s_lock p = None -> touches p p' ->
    sstep c s (at_slot j p' s)
| s_call s q x i w : cpus s !! c = Some (SCpu q (PRun i) x) -> (forall lk, why_lock w = Some lk -> locks s !! lk = Some (Some c)) ->
    sstep c s (at_cpu c (SCpu q (PAcq i w) x) s)
| s_own s q x i w p : cpus s !! c = Some (SCpu q (PAcq i w) x) -> slots s !! i = Some p -> s_lock p = None ->
    sstep c s (at_cpu c (SCpu q (PSet i w) (pushed x)) (at_slot i (set_lock (Some c) p) s))
| s_yield s q x i p : cpus s !! c = Some (SCpu q (PSet i Yield) x) -> slots s !! i = Some p ->
    sstep c s (at_cpu c (SCpu q (PSched i) x) (at_slot i (cede Yield p) s))
| s_unlock s q x i ch lk : cpus s !! c = Some (SCpu q (PSet i (Sleep ch lk)) x) ->
    sstep c s (at_cpu c (SCpu q (PRest i (Sleep ch lk)) (popped x)) (at_lock lk None s))
| s_sleep s q x i ch lk p : cpus s !! c = Some (SCpu q (PRest i (Sleep ch lk)) x) -> slots s !! i = Some p ->
    sstep c s (at_cpu c (SCpu q (PSched i) x) (at_slot i (cede (Sleep ch lk) p) s))
| s_zombie s q x i lk p : cpus s !! c = Some (SCpu q (PSet i (Exit lk)) x) -> slots s !! i = Some p ->
    sstep c s (at_cpu c (SCpu q (PRest i (Exit lk)) x) (at_slot i (cede (Exit lk) p) s))
| s_exit s q x i lk : cpus s !! c = Some (SCpu q (PRest i (Exit lk)) x) ->
    sstep c s (at_cpu c (SCpu q (PSched i) (popped x)) (at_lock lk None s))
| s_sched s q x i p : cpus s !! c = Some (SCpu q (PSched i) x) -> slots s !! i = Some p ->
    sstep c s (at_cpu c (SCpu q (sched c i p x) x) (at_slot i (set_intena (intena x) p) s))
| s_back s q x i : cpus s !! c = Some (SCpu q (SBack i) x) ->
    sstep c s (at_cpu c (SCpu None (SRel i true) x) s).

Definition smp_step (s s' : smp) : Prop := exists c, sstep c s s'.

(** At boot: no lock held, the CPUs about to call [scheduler], no process running. *)
Definition boot_cpu : scpu := SCpu None SLoop (Intr 0 false false).
Definition smp_boot (s : smp) : Prop :=
  length (slots s) = NPROC /\
  (forall i p, slots s !! i = Some p -> s_lock p = None /\ s_state p <> RUNNING) /\
  (forall l o, locks s !! l = Some o -> o = None) /\
  (forall c x, cpus s !! c = Some x -> x = boot_cpu).

(** ** Who holds what *)

(** The process is still marked running. *)
Definition live (k : spc) : bool :=
  match k with
  | PEnter _ | PLock _ _ | PRun _ | PAcq _ _ | PSet _ _ => true
  | PRest _ (Sleep _ _) => true
  | _ => false
  end.
(** The other lock [sleep] or [exit] is about to release. *)
Definition pending (k : spc) : option nat :=
  match k with
  | PAcq _ w => why_lock w
  | PSet _ w => why_lock w
  | PRest _ (Exit lk) => Some lk
  | _ => None
  end.

(** In [scheduler]: no other lock is held. *)
Definition quiet (k : spc) : bool :=
  match k with SLoop | SAcq _ _ | STest _ _ | SBack _ | SRel _ _ | SWait => true | _ => false end.

Definition holds (c : nat) (o : option nat) : nat := if decide (o = Some c) then 1 else 0.
Definition held (c : nat) (s : smp) : nat :=
  sum_list (holds c ∘ s_lock <$> slots s) + sum_list (holds c <$> locks s).

Record smp_inv (s : smp) : Prop := {
  inv_len : length (slots s) = NPROC;
  inv_owns : forall c x i, cpus s !! c = Some x -> owns (c_at x) = Some i -> exists p, slots s !! i = Some p /\ s_lock p = Some c;
  inv_lock : forall i p c, slots s !! i = Some p -> s_lock p = Some c ->
    exists x, cpus s !! c = Some x /\ owns (c_at x) = Some i;
  inv_carries : forall c x i, cpus s !! c = Some x -> carries (c_at x) = Some i ->
    c_proc x = Some i /\ exists p, slots s !! i = Some p /\ (s_state p = RUNNING <-> live (c_at x) = true);
  inv_running : forall i p, slots s !! i = Some p -> s_state p = RUNNING ->
    exists c x, cpus s !! c = Some x /\ carries (c_at x) = Some i;
  inv_one : forall c c' x x' i, cpus s !! c = Some x -> cpus s !! c' = Some x' ->
    carries (c_at x) = Some i -> carries (c_at x') = Some i -> c = c';
  inv_pending : forall c x lk, cpus s !! c = Some x -> pending (c_at x) = Some lk -> locks s !! lk = Some (Some c);
  inv_noff : forall c x, cpus s !! c = Some x -> noff (c_in x) = Z.of_nat (held c s);
  inv_ie : forall c x, cpus s !! c = Some x -> ie (c_in x) = true -> noff (c_in x) = 0;
  inv_quiet : forall c x, cpus s !! c = Some x -> quiet (c_at x) = true -> sum_list (holds c <$> locks s) = 0%nat
}.

(** ** Sums over lists *)

Lemma sum_list_insert (l : list nat) i a b : l !! i = Some a ->
  (sum_list (<[i := b]> l) + a = sum_list l + b)%nat.
Proof.
  revert i. induction l as [|y l IH]; intros [|i] Hi; try done; simpl in *.
  - simplify_eq. lia.
  - specialize (IH i Hi). lia.
Qed.

Lemma held_slot c s i p p' : slots s !! i = Some p ->
  (held c (at_slot i p' s) + holds c (s_lock p) = held c s + holds c (s_lock p'))%nat.
Proof.
  intros Hi. unfold held. simpl. rewrite list_fmap_insert.
  pose proof (sum_list_insert (holds c ∘ s_lock <$> slots s) i (holds c (s_lock p)) ((holds c ∘ s_lock) p')) as E.
  rewrite list_lookup_fmap, Hi in E. specialize (E eq_refl). change ((holds c ∘ s_lock) p') with (holds c (s_lock p')) in *. lia.
Qed.

Lemma held_lock c s l o o' : locks s !! l = Some o -> (held c (at_lock l o' s) + holds c o = held c s + holds c o')%nat.
Proof.
  intros Hl. unfold held. simpl. rewrite list_fmap_insert.
  pose proof (sum_list_insert (holds c <$> locks s) l (holds c o) (holds c o')) as E.
  rewrite list_lookup_fmap, Hl in E. specialize (E eq_refl). lia.
Qed.

Lemma holds_eq c : holds c (Some c) = 1%nat.
Proof. unfold holds. by rewrite decide_True. Qed.
Lemma holds_ne c c' : c <> c' -> holds c (Some c') = 0%nat.
Proof. intros. unfold holds. rewrite decide_False; congruence. Qed.

Lemma holds_none c : holds c None = 0%nat.
Proof. unfold holds. by rewrite decide_False. Qed.

(** ** What a step may change *)

(** CPU [c] goes from [x] to [x'] and changes entry [i] from [p] to [p']. *)
Record move_ok (s : smp) (c : nat) (x x' : scpu) (i : nat) (p p' : slot) : Prop := {
  mo_lock : s_lock p = None \/ s_lock p = Some c;
  mo_lock' : s_lock p' = None \/ s_lock p' = Some c;
  mo_owns : forall j, owns (c_at x) = Some j <-> j = i /\ s_lock p = Some c;
  mo_owns' : forall j, owns (c_at x') = Some j <-> j = i /\ s_lock p' = Some c;
  mo_proc : forall j, carries (c_at x') = Some j -> j = i /\ c_proc x' = Some i /\ (s_state p' = RUNNING <-> live (c_at x') = true);
  mo_carry : forall j, carries (c_at x) = Some j -> j = i;
  mo_new : carries (c_at x') = Some i -> carries (c_at x) = Some i \/ s_state p = RUNNABLE /\ s_lock p = Some c;
  mo_run : s_state p' = RUNNING -> carries (c_at x') = Some i \/ s_state p = RUNNING /\ carries (c_at x) = None;
  mo_view : carries (c_at x) = Some i \/ (s_state p' = RUNNING <-> s_state p = RUNNING) \/ s_state p = RUNNABLE /\ s_lock p = Some c;
  mo_pend : forall lk, pending (c_at x') = Some lk -> locks s !! lk = Some (Some c);
  mo_noff : noff (c_in x') + Z.of_nat (holds c (s_lock p)) = noff (c_in x) + Z.of_nat (holds c (s_lock p'));
  mo_ie : ie (c_in x') = true -> noff (c_in x') = 0;
  mo_quiet : quiet (c_at x') = true -> quiet (c_at x) = true \/ noff (c_in x) = 1 /\ s_lock p = Some c
}.

(** The two states agree away from CPU [c] and entry [i]. *)
Lemma move_lookup s c x' i p' : is_Some (cpus s !! c) -> is_Some (slots s !! i) ->
  let s' := at_cpu c x' (at_slot i p' s) in
  (forall d y, cpus s' !! d = Some y <-> d = c /\ y = x' \/ d <> c /\ cpus s !! d = Some y) /\
  (forall j q, slots s' !! j = Some q <-> j = i /\ q = p' \/ j <> i /\ slots s !! j = Some q).
Proof.
  intros Hc Hi s'. split.
  - intros d y. simpl. rewrite list_lookup_insert_Some. apply lookup_lt_is_Some in Hc. naive_solver.
  - intros j q. simpl. rewrite list_lookup_insert_Some. apply lookup_lt_is_Some in Hi. naive_solver.
Qed.

(** A CPU that carries a process that is not running holds its lock. *)
Lemma dead_owns k i : carries k = Some i -> live k = false -> owns k = Some i.
Proof. by destruct k as [| | | | | | | | | | |? []| |]. Qed.

Lemma move_inv s c x x' i p p' : smp_inv s -> cpus s !! c = Some x -> slots s !! i = Some p -> move_ok s c x x' i p p' ->
  smp_inv (at_cpu c x' (at_slot i p' s)).
Proof.
  intros Hinv Hc Hi M. pose proof Hinv as [I0 I1 I2 I3 I4 I5 I6 I7 I8 I9]. destruct M as [M1 M2 M3 M4 M6 M7 M8 M9 M10 M11 M12 M13 M14].
  destruct (move_lookup s c x' i p' ltac:(by eexists) ltac:(by eexists)) as [Hcpu Hslot].
  assert (carries (c_at x) = Some i \/ s_state p = RUNNABLE /\ s_lock p = Some c ->
    forall d y, d <> c -> cpus s !! d = Some y -> carries (c_at y) <> Some i) as Hothers.
  { intros [Hx|[Hst Hl]] d y Hne Hd Hy; [apply Hne; by eapply I5|].
    destruct (I3 d y i Hd Hy) as (_ & q & Hq & Hlive). rewrite Hi in Hq. simplify_eq. rewrite Hst in Hlive.
    assert (owns (c_at y) = Some i) as Hown by (apply dead_owns; [done|]; destruct (live (c_at y)) eqn:El; [by pose proof (proj2 Hlive eq_refl) | done]).
    destruct (I1 d y i Hd Hown) as (q' & Hq' & Hl'). rewrite Hi in Hq'. by simplify_eq. }
  split.
  - simpl. by rewrite length_insert.
  - intros d y j [[-> ->]|[Hne Hd]]%Hcpu Hy.
    + apply M4 in Hy as [-> Hl]. exists p'. rewrite Hslot. naive_solver.
    + destruct (I1 d y j Hd Hy) as (q & Hq & Hl). exists q. rewrite Hslot. split; [|done]. right. split; [|done].
      intros ->. rewrite Hi in Hq. simplify_eq. destruct M1; congruence.
  - intros j q d [[-> ->]|[Hne Hq]]%Hslot Hl.
    + assert (d = c) as -> by (destruct M2; congruence). exists x'. rewrite Hcpu. split; [by left|]. by apply M4.
    + destruct (I2 j q d Hq Hl) as (y & Hy & Ho). destruct (decide (d = c)) as [->|Hdne].
      * rewrite Hc in Hy. simplify_eq. apply M3 in Ho as [? _]. done.
      * exists y. rewrite Hcpu. naive_solver.
  - intros d y j [[-> ->]|[Hne Hd]]%Hcpu Hy.
    + destruct (M6 j Hy) as (-> & Hp & Hl). split; [done|]. exists p'. rewrite Hslot. naive_solver.
    + destruct (I3 d y j Hd Hy) as (Hp & q & Hq & Hl). split; [done|]. destruct (decide (j = i)) as [->|Hji].
      * rewrite Hi in Hq. simplify_eq. exists p'. rewrite Hslot. split; [by left|].
        destruct M10 as [M10|[M10|M10]]; [by destruct (Hothers (or_introl M10) d y Hne Hd) | by rewrite M10 | by destruct (Hothers (or_intror M10) d y Hne Hd)].
      * exists q. rewrite Hslot. naive_solver.
  - intros j q [[-> ->]|[Hne Hq]]%Hslot Hst.
    + destruct (M9 Hst) as [?|[Hst0 Hno]]; [exists c, x'; rewrite Hcpu; naive_solver|].
      destruct (I4 i p Hi Hst0) as (d & y & Hd & Hy). exists d, y. rewrite Hcpu. split; [|done]. right. split; [|done].
      intros ->. rewrite Hc in Hd. by simplify_eq.
    + destruct (I4 j q Hq Hst) as (d & y & Hd & Hy). exists d, y. rewrite Hcpu. split; [|done]. right. split; [|done].
      intros ->. rewrite Hc in Hd. simplify_eq. apply Hne. by apply M7.
  - intros d d' y y' j [[-> ->]|[Hne Hd]]%Hcpu [[-> ->]|[Hne' Hd']]%Hcpu Hy Hy'; try done.
    + destruct (M6 j Hy) as (-> & _). by destruct (Hothers (M8 Hy) d' y' Hne' Hd').
    + destruct (M6 j Hy') as (-> & _). by destruct (Hothers (M8 Hy') d y Hne Hd).
    + by eapply I5.
  - intros d y lk [[-> ->]|[Hne Hd]]%Hcpu Hy; simpl; [by apply M11 | by eapply I6].
  - intros d y [[-> ->]|[Hne Hd]]%Hcpu.
    + pose proof (held_slot c s i p p' Hi) as E. rewrite (I7 c x Hc) in M12. change (held c (at_cpu c x' (at_slot i p' s))) with (held c (at_slot i p' s)). lia.
    + rewrite (I7 d y Hd). pose proof (held_slot d s i p p' Hi) as E. change (held d (at_cpu c x' (at_slot i p' s))) with (held d (at_slot i p' s)).
      assert (holds d (s_lock p) = 0%nat) as E1 by (destruct M1 as [-> | ->]; [done | by apply holds_ne]).
      assert (holds d (s_lock p') = 0%nat) as E2 by (destruct M2 as [-> | ->]; [done | by apply holds_ne]). lia.
  - intros d y [[-> ->]|[Hne Hd]]%Hcpu; [done | by apply (I8 d)].
  - intros d y [[-> ->]|[Hne Hd]]%Hcpu Hq; simpl; [|by eapply I9]. destruct (M14 Hq) as [Hx|[Hn Hl]]; [by eapply I9|].
    pose proof (I7 c x Hc) as E. pose proof (held_slot c s i p (set_lock None p) Hi) as E1.
    rewrite Hl, holds_eq in E1. unfold holds at 1, held in E1. simpl in E1. unfold held in E. lia.
Qed.

(** CPU [c] goes from [x] to [x'] without touching an entry; the other locks become [ls]. *)
Record step_ok (s : smp) (c : nat) (x x' : scpu) (ls : list (option nat)) : Prop := {
  so_owns : owns (c_at x') = owns (c_at x);
  so_carry : carries (c_at x') = carries (c_at x);
  so_live : carries (c_at x) <> None -> live (c_at x') = live (c_at x) /\ c_proc x' = c_proc x;
  so_others : forall l d, d <> c -> locks s !! l = Some (Some d) -> ls !! l = Some (Some d);
  so_pend : forall lk, pending (c_at x') = Some lk -> ls !! lk = Some (Some c);
  so_noff : noff (c_in x') + Z.of_nat (sum_list (holds c <$> locks s)) = noff (c_in x) + Z.of_nat (sum_list (holds c <$> ls));
  so_count : forall d, d <> c -> sum_list (holds d <$> ls) = sum_list (holds d <$> locks s);
  so_ie : ie (c_in x') = true -> noff (c_in x') = 0;
  so_quiet : quiet (c_at x') = true -> quiet (c_at x) = true /\ ls = locks s
}.

Lemma step_inv s c x x' ls : smp_inv s -> cpus s !! c = Some x -> step_ok s c x x' ls ->
  smp_inv (SMP (slots s) ls (<[c := x']> (cpus s))).
Proof.
  intros [I0 I1 I2 I3 I4 I5 I6 I7 I8 I9] Hc [S1 S2 S3 S4 S5 S6 S6' S7 S8].
  assert (forall d y, <[c := x']> (cpus s) !! d = Some y <-> d = c /\ y = x' \/ d <> c /\ cpus s !! d = Some y) as Hcpu.
  { intros d y. rewrite list_lookup_insert_Some. apply lookup_lt_Some in Hc. naive_solver. }
  (* every CPU has a counterpart that owns and carries the same *)
  assert (forall d y, <[c := x']> (cpus s) !! d = Some y -> exists y0, cpus s !! d = Some y0 /\ owns (c_at y) = owns (c_at y0) /\
    carries (c_at y) = carries (c_at y0) /\ (carries (c_at y0) <> None -> live (c_at y) = live (c_at y0) /\ c_proc y = c_proc y0)) as Hback.
  { intros d y [[-> ->]|[Hne Hd]]%Hcpu; [by exists x | by exists y]. }
  assert (forall d y0, cpus s !! d = Some y0 -> exists y, <[c := x']> (cpus s) !! d = Some y /\ owns (c_at y) = owns (c_at y0) /\ carries (c_at y) = carries (c_at y0)) as Hforw.
  { intros d y0 Hd. destruct (decide (d = c)) as [->|Hne].
    - rewrite Hc in Hd. simplify_eq. exists x'. rewrite Hcpu. naive_solver.
    - exists y0. rewrite Hcpu. naive_solver. }
  split; simpl.
  - done.
  - intros d y i Hd Hy. destruct (Hback d y Hd) as (y0 & Hy0 & E & _). eapply I1; [exact Hy0 | congruence].
  - intros i p d Hp Hl. destruct (I2 i p d Hp Hl) as (y0 & Hy0 & Ho). destruct (Hforw d y0 Hy0) as (y & Hy & E & _). exists y. split; [done | congruence].
  - intros d y i Hd Hy. destruct (Hback d y Hd) as (y0 & Hy0 & _ & E & Hl). rewrite E in Hy. destruct (I3 d y0 i Hy0 Hy) as (Hp & q & Hq & Hlv).
    destruct Hl as [-> ->]; [congruence|]. split; [done|]. by exists q.
  - intros i p Hp Hst. destruct (I4 i p Hp Hst) as (d & y0 & Hd & Ho). destruct (Hforw d y0 Hd) as (y & Hy & _ & E). exists d, y. split; [done | congruence].
  - intros d d' y y' i Hd Hd' Hy Hy'. destruct (Hback d y Hd) as (y0 & Hy0 & _ & E & _). destruct (Hback d' y' Hd') as (y0' & Hy0' & _ & E' & _).
    eapply I5; [exact Hy0 | exact Hy0' | rewrite <- E; exact Hy | rewrite <- E'; exact Hy'].
  - intros d y lk [[-> ->]|[Hne Hd]]%Hcpu Hy; [by apply S5|]. apply S4; [done|]. by eapply I6.
  - intros d y [[-> ->]|[Hne Hd]]%Hcpu; unfold held; simpl.
    + pose proof (I7 c x Hc) as E. unfold held in E. lia.
    + pose proof (I7 d y Hd) as E. unfold held in E. rewrite (S6' d) by done. lia.
  - intros d y [[-> ->]|[Hne Hd]]%Hcpu; [done | by apply (I8 d)].
  - intros d y [[-> ->]|[Hne Hd]]%Hcpu Hq; [|rewrite (S6' d) by done; by eapply I9]. destruct (S8 Hq) as [Hx ->]. by eapply I9.
Qed.

(** An entry changed under its lock by the code of another process. *)
Lemma touch_inv s j p p' : smp_inv s -> slots s !! j = Some p -> s_lock p = None -> touches p p' -> smp_inv (at_slot j p' s).
Proof.
  intros [I0 I1 I2 I3 I4 I5 I6 I7 I8 I9] Hj Hl Ht.
  assert (s_lock p' = None /\ s_state p <> RUNNING /\ s_state p' <> RUNNING) as (Hl' & Hst & Hst').
  { destruct Ht as [p E|p E|p E|p E]; simpl; split_and!; try done; try (rewrite E; done). destruct E as [-> | ->]; done. }
  assert (forall i q, slots (at_slot j p' s) !! i = Some q <-> i = j /\ q = p' \/ i <> j /\ slots s !! i = Some q) as Hslot.
  { intros i q. simpl. rewrite list_lookup_insert_Some. apply lookup_lt_Some in Hj. naive_solver. }
  assert (forall c x, cpus s !! c = Some x -> owns (c_at x) <> Some j) as Hno.
  { intros c x Hc Ho. destruct (I1 c x j Hc Ho) as (q & Hq & E). rewrite Hj in Hq. by simplify_eq. }
  assert (forall c x, cpus s !! c = Some x -> carries (c_at x) <> Some j) as Hnc.
  { intros c x Hc Ho. destruct (I3 c x j Hc Ho) as (_ & q & Hq & E). rewrite Hj in Hq. simplify_eq.
    apply (Hno c x Hc). apply dead_owns; [done|]. destruct (live (c_at x)) eqn:El; [|done]. by destruct Hst; apply E. }
  split; simpl.
  - by rewrite length_insert.
  - intros c x i Hc Hx. destruct (I1 c x i Hc Hx) as (q & Hq & E). exists q. rewrite Hslot. split; [|done]. right. split; [|done].
    intros ->. by apply (Hno c x Hc).
  - intros i q c [[-> ->]|[Hne Hq]]%Hslot E; [congruence | by eapply I2].
  - intros c x i Hc Hx. destruct (I3 c x i Hc Hx) as (Hp & q & Hq & E). split; [done|]. exists q. rewrite Hslot. split; [|done].
    right. split; [|done]. intros ->. by apply (Hnc c x Hc).
  - intros i q [[-> ->]|[Hne Hq]]%Hslot E; [done | by eapply I4].
  - done.
  - done.
  - intros c x Hc. rewrite (I7 c x Hc). pose proof (held_slot c s j p p' Hj) as E. rewrite Hl, Hl' in E. change (SMP _ _ _) with (at_slot j p' s). lia.
  - done.
  - done.
Qed.

Lemma pushed_noff x : noff (pushed x) = noff x + 1 /\ ie (pushed x) = false.
Proof. unfold pushed, push_off, mbind, M_bind, when, gets, modify. simpl. by destruct (noff x =? 0). Qed.

Lemma popped_noff x : 1 <= noff x -> ie x = false -> noff (popped x) = noff x - 1 /\ (ie (popped x) = true -> noff (popped x) = 0).
Proof.
  intros Hn Hi. unfold popped, pop_off, mbind, M_bind, when, gets, modify. simpl. rewrite Hi. simpl. rewrite (proj2 (Z.ltb_ge (noff x) 1)) by lia. simpl.
  destruct (Z.eqb_spec (noff x - 1) 0), (intena x); simpl; split; try done; congruence.
Qed.

(** A CPU that holds a lock has interrupts off. *)
Lemma owner_off s c x i p : smp_inv s -> cpus s !! c = Some x -> slots s !! i = Some p -> s_lock p = Some c ->
  1 <= noff (c_in x) /\ ie (c_in x) = false.
Proof.
  intros Hinv Hc Hi Hl. pose proof (inv_noff _ Hinv c x Hc) as Hn. pose proof (held_slot c s i p (set_lock None p) Hi) as E.
  rewrite Hl, holds_eq in E. unfold holds in E at 1. simpl in E. assert (1 <= noff (c_in x)) by lia. split; [done|].
  destruct (ie (c_in x)) eqn:Ei; [|done]. pose proof (inv_ie _ Hinv c x Hc Ei). lia.
Qed.

Lemma holder_off s c x l : smp_inv s -> cpus s !! c = Some x -> locks s !! l = Some (Some c) -> 1 <= noff (c_in x) /\ ie (c_in x) = false.
Proof.
  intros Hinv Hc Hl. pose proof (inv_noff _ Hinv c x Hc) as Hn. pose proof (held_lock c s l (Some c) None Hl) as E.
  rewrite holds_eq in E. unfold holds in E at 1. simpl in E. assert (1 <= noff (c_in x)) by lia. split; [done|].
  destruct (ie (c_in x)) eqn:Ei; [|done]. pose proof (inv_ie _ Hinv c x Hc Ei). lia.
Qed.

(** ** Every step keeps the invariant *)

Lemma sum_list_zero (l : list nat) : (forall x, x ∈ l -> x = 0%nat) -> sum_list l = 0%nat.
Proof.
  induction l as [|y l IH]; intros Hl; simpl; [done|]. rewrite (Hl y) by left. apply IH. intros x Hx. apply Hl. by right.
Qed.

(** In the scheduler with no entry locked, no lock is held at all. *)
Lemma free_noff s c x : smp_inv s -> cpus s !! c = Some x -> quiet (c_at x) = true -> owns (c_at x) = None -> noff (c_in x) = 0.
Proof.
  intros Hinv Hc Hq Ho. rewrite (inv_noff _ Hinv c x Hc). unfold held. rewrite (inv_quiet _ Hinv c x Hc Hq), sum_list_zero; [done|].
  intros n (p & -> & (i & Hp)%list_elem_of_lookup)%list_elem_of_fmap. simpl. unfold holds. case_decide as E; [|done].
  destruct (inv_lock _ Hinv i p c Hp E) as (y & Hy & E'). congruence.
Qed.

(** What a CPU that is at a point of a process sees. *)
Lemma at_proc s c x i : smp_inv s -> cpus s !! c = Some x -> owns (c_at x) = Some i -> exists p, slots s !! i = Some p /\ s_lock p = Some c /\
  1 <= noff (c_in x) /\ ie (c_in x) = false.
Proof.
  intros Hinv Hc Ho. destruct (inv_owns _ Hinv c x i Hc Ho) as (p & Hi & Hl). exists p. split_and!; try done; by eapply owner_off.
Qed.

Lemma at_carried s c x i p : smp_inv s -> cpus s !! c = Some x -> carries (c_at x) = Some i -> slots s !! i = Some p ->
  c_proc x = Some i /\ (s_state p = RUNNING <-> live (c_at x) = true).
Proof. intros Hinv Hc Ho Hi. destruct (inv_carries _ Hinv c x i Hc Ho) as (E & q & Hq & Hst). by simplify_eq. Qed.

(** The steps that change an entry, and those that change a lock or the CPU only. *)
Ltac inv_move Hinv Hc Hi := eapply (move_inv _ _ _ _ _ _ _ Hinv Hc Hi); split; simpl in *.
Ltac inv_owner Hinv Hc Hi := let q := fresh "q" in let Hq := fresh "Hq" in
  destruct (at_proc _ _ _ _ Hinv Hc eq_refl) as (q & Hq & ? & ? & ?); rewrite Hi in Hq; injection Hq as <-.
Ltac inv_carried Hinv Hc Hi := destruct (at_carried _ _ _ _ _ Hinv Hc eq_refl Hi) as [? ?].
Ltac inv_cpu Hinv Hc := eapply (step_inv _ _ _ _ _ Hinv Hc); split; simpl in *.

(** A lock is taken by CPU [c], or released by it. *)
Lemma locks_take s c lk : locks s !! lk = Some None ->
  (forall l d, d <> c -> locks s !! l = Some (Some d) -> <[lk := Some c]> (locks s) !! l = Some (Some d)) /\
  sum_list (holds c <$> <[lk := Some c]> (locks s)) = S (sum_list (holds c <$> locks s)) /\
  (forall d, d <> c -> sum_list (holds d <$> <[lk := Some c]> (locks s)) = sum_list (holds d <$> locks s)).
Proof.
  intros Hl. split_and!.
  - intros l d Hd E. rewrite list_lookup_insert_ne; [done|]. intros ->. congruence.
  - pose proof (held_lock c s lk None (Some c) Hl) as E. unfold held in E. simpl in E. rewrite holds_eq, holds_none in E. lia.
  - intros d Hd. pose proof (held_lock d s lk None (Some c) Hl) as E. unfold held in E. simpl in E. rewrite holds_ne, holds_none in E by done. lia.
Qed.

Lemma locks_drop s c lk : locks s !! lk = Some (Some c) ->
  (forall l d, d <> c -> locks s !! l = Some (Some d) -> <[lk := None]> (locks s) !! l = Some (Some d)) /\
  sum_list (holds c <$> locks s) = S (sum_list (holds c <$> <[lk := None]> (locks s))) /\
  (forall d, d <> c -> sum_list (holds d <$> <[lk := None]> (locks s)) = sum_list (holds d <$> locks s)).
Proof.
  intros Hl. split_and!.
  - intros l d Hd E. rewrite list_lookup_insert_ne; [done|]. intros ->. congruence.
  - pose proof (held_lock c s lk (Some c) None Hl) as E. unfold held in E. simpl in E. rewrite holds_eq, holds_none in E. lia.
  - intros d Hd. pose proof (held_lock d s lk (Some c) None Hl) as E. unfold held in E. simpl in E. rewrite holds_ne, holds_none in E by done. lia.
Qed.

Lemma at_slot_id s i p : slots s !! i = Some p -> at_slot i p s = s.
Proof. intros Hi. destruct s as [l k c]. unfold at_slot. simpl in *. by rewrite list_insert_id. Qed.

Lemma next_entry_at n i f : owns (next_entry n i f) = None /\ carries (next_entry n i f) = None /\ pending (next_entry n i f) = None.
Proof. unfold next_entry. case_decide; [done|]. by destruct f. Qed.

Lemma sched_at c i p x : s_lock p = Some c ->
  owns (sched c i p x) = Some i /\ carries (sched c i p x) = Some i /\ pending (sched c i p x) = None /\ live (sched c i p x) = false /\
  (quiet (sched c i p x) = true -> noff x = 1).
Proof.
  intros Hl. unfold sched. rewrite decide_False by (intros E; by apply E). destruct (Z.eqb_spec (noff x) 1) as [E|E]; simpl; [|done].
  case_decide; [done|]. by destruct (ie x).
Qed.

(** The cases of a step of CPU [c], with the names used throughout. *)
Ltac step_cases Hs :=
  destruct Hs as [s q y Hd|s q y j f r Hd Hj Hlj|s q y j f r Hd Hj Hst|s q y j f r Hd Hj Hst|s q y j f r Hd Hj|s q y Hd
    |s q y j r Hd Hj|s q y j lj Hd Hlk|s q y j lj Hd Hlk|s q y j lj Hd Hlk|s q y j b Hd Hn|s y j r r' Hd Ho Hj Hlj Ht|s q y j w Hd Hlk
    |s q y j w r Hd Hj Hlj|s q y j r Hd Hj|s q y j hj lj Hd|s q y j hj lj r Hd Hj|s q y j lj r Hd Hj|s q y j lj Hd|s q y j r Hd Hj|s q y j Hd].

(** The steps of [scheduler]. *)
Lemma scheduler_inv c s s' : smp_inv s -> sstep c s s' -> (exists x, cpus s !! c = Some x /\ carries (c_at x) = None) -> smp_inv s'.
Proof.
  intros Hinv Hs (x0 & Hx0 & Hcar). step_cases Hs;
    rewrite Hd in Hx0; injection Hx0 as <-; try done.
  - pose proof (free_noff _ _ _ Hinv Hd eq_refl eq_refl). by inv_cpu Hinv Hd.
  - destruct (pushed_noff y) as [E1 E2]. inv_move Hinv Hd Hj; rewrite ?Hlj, ?holds_eq, ?holds_none, ?E1, ?E2; try naive_solver lia.
  - inv_owner Hinv Hd Hj. inv_move Hinv Hd Hj; rewrite ?Hst; try naive_solver; unfold switched; destruct (s_tail r); simpl; try lia; congruence.
  - inv_owner Hinv Hd Hj. inv_cpu Hinv Hd; first [done | congruence].
  - inv_owner Hinv Hd Hj. destruct (next_entry_at (length (slots s)) j f) as (N1 & N2 & N3).
    destruct (popped_noff y) as [E1 E2]; [done|done|].
    inv_move Hinv Hd Hj; rewrite ?N1, ?N2, ?N3, ?holds_none, ?H, ?holds_eq; first [lia | done | naive_solver].
  - pose proof (free_noff _ _ _ Hinv Hd eq_refl eq_refl). by inv_cpu Hinv Hd.
  - by eapply touch_inv.
Qed.

(** The steps of a process. *)
Lemma process_inv c s s' : smp_inv s -> sstep c s s' -> (exists x i, cpus s !! c = Some x /\ carries (c_at x) = Some i) -> smp_inv s'.
Proof.
  intros Hinv Hs (x0 & i0 & Hx0 & Hcar). step_cases Hs;
    rewrite Hd in Hx0; injection Hx0 as <-; try done.
  - inv_owner Hinv Hd Hj. inv_carried Hinv Hd Hj. destruct (popped_noff y) as [E1 E2]; [done|done|].
    destruct (s_tail r); inv_move Hinv Hd Hj; rewrite ?holds_none, ?H, ?holds_eq; first [lia | done | naive_solver].
  - destruct (pushed_noff y) as [E1 E2]. destruct (locks_take s c lj Hlk) as (L1 & L2 & L3). inv_cpu Hinv Hd; try done; rewrite ?E1, ?E2, ?L2; try done; lia.
  - destruct (pushed_noff y) as [E1 E2]. destruct (locks_take s c lj Hlk) as (L1 & L2 & L3). inv_cpu Hinv Hd; try done; rewrite ?E1, ?E2, ?L2; try done; lia.
  - destruct (holder_off _ _ _ _ Hinv Hd Hlk) as [Hn Hie]. destruct (popped_noff y) as [E1 E2]; [done|done|].
    destruct (locks_drop s c lj Hlk) as (L1 & L2 & L3). inv_cpu Hinv Hd; try done; rewrite ?E1, ?L2; try done; lia.
  - by inv_cpu Hinv Hd.
  - by eapply touch_inv.
  - pose proof (inv_ie _ Hinv _ _ Hd) as Hie. by inv_cpu Hinv Hd.
  - inv_carried Hinv Hd Hj. destruct (pushed_noff y) as [E1 E2]. pose proof (fun lj => inv_pending _ Hinv _ _ lj Hd) as Hp.
    inv_move Hinv Hd Hj; rewrite ?Hlj, ?holds_eq, ?holds_none, ?E1, ?E2; try naive_solver lia.
  - inv_owner Hinv Hd Hj. inv_carried Hinv Hd Hj. inv_move Hinv Hd Hj; first [congruence | naive_solver].
  - pose proof (inv_pending _ Hinv _ _ lj Hd eq_refl) as Hlk. destruct (holder_off _ _ _ _ Hinv Hd Hlk) as [Hn Hie].
    destruct (popped_noff y) as [E1 E2]; [done|done|]. destruct (locks_drop s c lj Hlk) as (L1 & L2 & L3). inv_cpu Hinv Hd; try done; rewrite ?E1, ?L2; try done; lia.
  - inv_owner Hinv Hd Hj. inv_carried Hinv Hd Hj. inv_move Hinv Hd Hj; first [congruence | naive_solver].
  - inv_owner Hinv Hd Hj. inv_carried Hinv Hd Hj. pose proof (inv_pending _ Hinv _ _ lj Hd eq_refl) as Hlk. inv_move Hinv Hd Hj; first [congruence | naive_solver].
  - pose proof (inv_pending _ Hinv _ _ lj Hd eq_refl) as Hlk. destruct (holder_off _ _ _ _ Hinv Hd Hlk) as [Hn Hie].
    destruct (popped_noff y) as [E1 E2]; [done|done|]. destruct (locks_drop s c lj Hlk) as (L1 & L2 & L3). inv_cpu Hinv Hd; try done; rewrite ?E1, ?L2; try done; lia.
  - inv_owner Hinv Hd Hj. inv_carried Hinv Hd Hj. destruct (sched_at c j r y) as (S1 & S2 & S3 & S4 & S5); [done|].
    inv_move Hinv Hd Hj; rewrite ?S1, ?S2, ?S3, ?S4; first [congruence | naive_solver].
  - destruct (at_proc _ _ _ _ Hinv Hd eq_refl) as (r & Hj & Hlj & Hn & Hie). inv_carried Hinv Hd Hj.
    rewrite <- (at_slot_id s j r Hj). inv_move Hinv Hd Hj; first [congruence | naive_solver].
Qed.

Lemma sstep_inv c s s' : smp_inv s -> sstep c s s' -> smp_inv s'.
Proof.
  intros Hinv Hs. assert (is_Some (cpus s !! c)) as [x Hx] by (destruct Hs; by eexists).
  destruct (carries (c_at x)) as [i|] eqn:E; [eapply process_inv | eapply scheduler_inv]; eauto.
Qed.

Lemma boot_inv s : smp_boot s -> smp_inv s.
Proof.
  intros (B0 & B1 & B2 & B3). split.
  - done.
  - intros c x i Hc. by rewrite (B3 c x Hc).
  - intros i p c Hi Hl. destruct (B1 i p Hi). congruence.
  - intros c x i Hc. by rewrite (B3 c x Hc).
  - intros i p Hi Hst. by destruct (B1 i p Hi).
  - intros c c' x x' i Hc _. by rewrite (B3 c x Hc).
  - intros c x lk Hc. by rewrite (B3 c x Hc).
  - intros c x Hc. rewrite (B3 c x Hc). simpl. unfold held. rewrite !sum_list_zero; [done| |].
    + intros n (o & -> & (l & Ho)%list_elem_of_lookup)%list_elem_of_fmap. by rewrite (B2 l o Ho), holds_none.
    + intros n (p & -> & (i & Hp)%list_elem_of_lookup)%list_elem_of_fmap. simpl. destruct (B1 i p Hp) as [-> _]. apply holds_none.
  - intros c x Hc. by rewrite (B3 c x Hc).
  - intros c x Hc _. apply sum_list_zero. intros n (o & -> & (l & Ho)%list_elem_of_lookup)%list_elem_of_fmap. by rewrite (B2 l o Ho), holds_none.
Qed.

Lemma reach_inv s s' : smp_inv s -> rtc smp_step s s' -> smp_inv s'.
Proof. intros Hinv. induction 1 as [|s s1 s' [c Hs] _ IH]; eauto using sstep_inv. Qed.

(** ** What a panic of [sched] can say *)

Definition stops_ok (s : smp) : Prop :=
  forall c x i msg, cpus s !! c = Some x -> c_at x = Stop i msg -> msg = "sched locks".

(** The checks of [sched] as they come out for a caller that has [p->lock]. *)
Lemma sched_checks s c q x i p : smp_inv s -> cpus s !! c = Some (SCpu q (PSched i) x) -> slots s !! i = Some p ->
  sched c i p x = if noff x =? 1 then SBack i else Stop i "sched locks".
Proof.
  intros Hinv Hc Hi. inv_owner Hinv Hc Hi. inv_carried Hinv Hc Hi. unfold sched. rewrite decide_False by (intros E; by apply E).
  destruct (noff x =? 1); simpl; [|done]. rewrite decide_False by (intros E; naive_solver). simpl in *. by rewrite H1.
Qed.

Lemma next_entry_stop n i f j msg : next_entry n i f <> Stop j msg.
Proof. unfold next_entry. case_decide; [done|]. by destruct f. Qed.

Lemma stops_step c s s' : smp_inv s -> stops_ok s -> sstep c s s' -> stops_ok s'.
Proof.
  intros Hinv Hok Hs d x i msg Hd Hst.
  assert (cpus s !! d = Some x \/ d = c /\ cpus s' !! c = Some x) as [Hold|[-> Hnew]]; [|by eapply Hok|].
  { destruct Hs; simpl in Hd; try (by left); apply list_lookup_insert_Some in Hd as [(-> & <- & ?)|[? Hd]]; try (by left);
      right; (split; [done|]); simpl; by rewrite list_lookup_insert_eq. }
  clear Hd. destruct Hs; simpl in Hnew; try (rewrite list_lookup_insert_eq in Hnew by (by eapply lookup_lt_Some); injection Hnew as <-; simpl in Hst; try done).
  - by destruct (next_entry_stop _ _ _ _ _ Hst).
  - by destruct (s_tail p).
  - by eapply Hok.
  - erewrite sched_checks in Hst by done. destruct (noff x0 =? 1); by simplify_eq.
Qed.

Lemma stops_reach s s' : smp_inv s -> stops_ok s -> rtc smp_step s s' -> stops_ok s'.
Proof. intros Hinv Hok Hs. revert Hinv Hok. induction Hs as [|s s1 s' [c Hs] _ IH]; eauto using sstep_inv, stops_step. Qed.

(** What holds in every state the CPUs reach. *)
Record smp_safe (s : smp) : Prop := {
  safe_one : forall c c' x x' i, cpus s !! c = Some x -> cpus s !! c' = Some x' -> carries (c_at x) = Some i -> carries (c_at x') = Some i -> c = c';
  safe_running : forall i p, slots s !! i = Some p -> s_state p = RUNNING ->
    exists c x, cpus s !! c = Some x /\ carries (c_at x) = Some i /\ c_proc x = Some i;
  safe_free : forall i p c x, slots s !! i = Some p -> s_lock p = None -> s_state p <> RUNNING -> cpus s !! c = Some x -> carries (c_at x) <> Some i;
  safe_noff : forall c x, cpus s !! c = Some x -> noff (c_in x) = Z.of_nat (held c s) /\ (ie (c_in x) = true -> held c s = 0%nat);
  safe_sched : forall c q x i p, cpus s !! c = Some (SCpu q (PSched i) x) -> slots s !! i = Some p ->
    sched c i p x = if decide (held c s = 1%nat) then SBack i else Stop i "sched locks";
  safe_stop : stops_ok s
}.

(** ** Running the model *)

(** The step of CPU [c] when the processes do nothing but call [sched] for [w]. *)
Definition run_step (c : nat) (w : why) (s : smp) : option smp :=
  x ← cpus s !! c;
  let go k y s := Some (at_cpu c (SCpu (c_proc x) k y) s) in
  let y := c_in x in
  match c_at x with
  | SLoop => go (SAcq 0 false) (Intr (noff y) (intena y) true) s
  | SAcq i f => p ← slots s !! i; if s_lock p is None then go (STest i f) (pushed y) (at_slot i (set_lock (Some c) p) s) else None
  | STest i f => p ← slots s !! i;
    if decide (s_state p = RUNNABLE) then Some (at_cpu c (SCpu (Some i) (PEnter i) (switched p y)) (at_slot i (set_state RUNNING p) s))
    else go (SRel i f) y s
  | SRel i f => p ← slots s !! i; go (next_entry (length (slots s)) i f) (popped y) (at_slot i (set_lock None p) s)
  | SWait => go SLoop (Intr (noff y) (intena y) true) s
  | PEnter i => p ← slots s !! i;
    go (match s_tail p with TSleep lk => PLock i lk | _ => PRun i end) (popped y) (at_slot i (set_lock None (match s_tail p with TSleep _ => set_chan 0 p | _ => p end)) s)
  | PLock i lk => if decide (locks s !! lk = Some None) then go (PRun i) (pushed y) (at_lock lk (Some c) s) else None
  | PRun i =>
    match why_lock w with
    | None => go (PAcq i w) y s
    | Some lk =>
      if decide (locks s !! lk = Some (Some c)) then go (PAcq i w) y s
      else if decide (locks s !! lk = Some None) then go (PRun i) (pushed y) (at_lock lk (Some c) s) else None
    end
  | PAcq i w => p ← slots s !! i; if s_lock p is None then go (PSet i w) (pushed y) (at_slot i (set_lock (Some c) p) s) else None
  | PSet i (Sleep ch lk) => go (PRest i (Sleep ch lk)) (popped y) (at_lock lk None s)
  | PSet i Yield => p ← slots s !! i; go (PSched i) y (at_slot i (cede Yield p) s)
  | PSet i (Exit lk) => p ← slots s !! i; go (PRest i (Exit lk)) y (at_slot i (cede (Exit lk) p) s)
  | PRest i (Sleep ch lk) => p ← slots s !! i; go (PSched i) y (at_slot i (cede (Sleep ch lk) p) s)
  | PRest i (Exit lk) => go (PSched i) (popped y) (at_lock lk None s)
  | PSched i => p ← slots s !! i; go (sched c i p y) y (at_slot i (set_intena (intena y) p) s)
  | SBack i => Some (at_cpu c (SCpu None (SRel i true) y) s)
  | PRest _ Yield | Stop _ _ => None
  end.

Lemma run_step_ok c w s s' : run_step c w s = Some s' -> sstep c s s'.
Proof.
  unfold run_step. intros ([q k y] & Hc & E)%bind_Some. simpl in E.
  destruct k as [|i f|i f|i|i f| |i|i lk|i|i w'|i [|ch lk|lk]|i [|ch lk|lk]|i|]; try done; repeat (apply bind_Some in E as (? & ? & E));
    repeat (case_match || case_decide); simplify_eq; try (by econstructor); try (econstructor; first [exact Hc | done | congruence | naive_solver]);
    pose proof (s_enter c s q y i x Hc H) as E; rewrite H0 in E; exact E.
Qed.

Definition run_total (c : nat) (w : why) (s : smp) : smp := default s (run_step c w s).
Definition run (c : nat) (w : why) (n : nat) (s : smp) : smp := Nat.iter n (run_total c w) s.

Lemma run_total_step c w s : run_total c w s = s \/ smp_step s (run_total c w s).
Proof. unfold run_total. destruct (run_step c w s) as [s'|] eqn:E; [|by left]. right. exists c. by eapply run_step_ok. Qed.

Lemma run_reach c w n s : rtc smp_step s (run c w n s).
Proof.
  induction n as [|n IH]; [done|]. unfold run in *. simpl. destruct (run_total_step c w (Nat.iter n (run_total c w) s)) as [->|Hs]; [done|].
  by eapply rtc_r.
Qed.

Lemma run_cycle c w p n m s : run c w p (run c w n s) = run c w n s -> run c w (n + m * p) s = run c w n s.
Proof.
  intros Hp. induction m as [|m IH]; [by rewrite Nat.add_0_r|]. replace (n + S m * p)%nat with (p + (n + m * p))%nat by lia.
  unfold run in *. rewrite Nat.iter_add, IH. done.
Qed.

(** One CPU, process 3 ready to run. *)
Definition demo_smp : smp :=
  SMP (<[3%nat := Slot None RUNNABLE 0 false TFork]> (replicate NPROC (Slot None UNUSED 0 false TFork))) [None] [boot_cpu].
Definition pos_of (c : nat) (s : smp) : option spc := c_at <$> cpus s !! c.

Lemma demo_boot : smp_boot demo_smp.
Proof.
  split_and!; [done| | |].
  - intros i p Hi. assert (Forall (fun p => s_lock p = None /\ s_state p <> RUNNING) (slots demo_smp)) as HF by (vm_compute; repeat constructor; done).
    rewrite Forall_lookup in HF. by eapply HF.
  - by intros [|l] o E; simplify_eq/=.
  - by intros [|c] x E; simplify_eq/=.
Qed.

Definition in_state (j : nat) (st : procstate) (s : smp) : Prop := exists p, slots s !! j = Some p /\ s_state p = st.
(** CPU [c] is at point [k]. *)
Definition at_point (c : nat) (k : spc) (s : smp) : Prop := exists q x, cpus s !! c = Some (SCpu q k x).

Lemma pos_at c s k : pos_of c s = Some k -> at_point c k s.
Proof. unfold pos_of. intros ([q k' x] & E & ->)%fmap_Some. by exists q, x. Qed.

(** C9: However the CPUs interleave after boot, no two of them run the same process;
    a process marked running is on a CPU; a process that is not, and whose lock is
    free, is on none, so that whoever locks it may change it and a scheduler may
    switch to it; [noff] counts the spin locks a CPU holds and interrupts are on only
    when it holds none; [sched] switches to the scheduler unless its caller holds a
    lock besides [p->lock], and none of its other panics can happen. *)
Theorem scheduler_exclusive s s' : smp_boot s -> rtc smp_step s s' -> smp_safe s'.
Proof.
  intros Hb Hs. pose proof (reach_inv _ _ (boot_inv _ Hb) Hs) as Hinv. split.
  - apply (inv_one _ Hinv).
  - intros i p Hi Hst. destruct (inv_running _ Hinv i p Hi Hst) as (c & x & Hc & Hx). exists c, x. split_and!; try done. by eapply (inv_carries _ Hinv).
  - intros i p c x Hi Hl Hst Hc Hx. destruct (at_carried _ _ _ _ _ Hinv Hc Hx Hi) as [_ Hlv].
    destruct (live (c_at x)) eqn:El; [naive_solver|]. destruct (inv_owns _ Hinv c x i Hc (dead_owns _ _ Hx El)) as (q & Hq & E). by simplify_eq.
  - intros c x Hc. pose proof (inv_noff _ Hinv c x Hc) as E. split; [done|]. intros Hie. pose proof (inv_ie _ Hinv c x Hc Hie). lia.
  - intros c q x i p Hc Hi. rewrite (sched_checks _ _ _ _ _ _ Hinv Hc Hi). pose proof (inv_noff _ Hinv _ _ Hc) as E. simpl in E.
    destruct (Z.eqb_spec (noff x) 1); case_decide; try done; lia.
  - eapply stops_reach; [by apply boot_inv| |done]. intros c x i msg Hc. destruct Hb as (_ & _ & _ & B3). by rewrite (B3 c x Hc).
Qed.

Lemma scheduler_exclusive_witness : smp_safe (run 0 Yield 15 demo_smp) /\ in_state 3 RUNNING (run 0 Yield 15 demo_smp).
Proof.
  split.
  - apply (scheduler_exclusive demo_smp); [exact demo_boot | apply run_reach].
  - eexists. split; vm_compute; reflexivity.
Defined.

(** ** Sleeping and waking *)

(** CPU [c] is in [sleep(ch, lk)] with [p->lock] of process [i], or back in the
    scheduler with the process asleep. *)
Definition falling (c i : nat) (ch : Z) (lk : nat) (s : smp) : Prop :=
  exists x p, cpus s !! c = Some x /\ slots s !! i = Some p /\ s_lock p = Some c /\
    match c_at x with
    | PSet j w | PRest j w => j = i /\ w = Sleep ch lk
    | PSched j | SBack j | SRel j _ | Stop j _ => j = i /\ s_state p = SLEEPING /\ s_chan p = ch /\ s_tail p = TSleep lk
    | _ => False
    end.
Definition asleep (i : nat) (ch : Z) (lk : nat) (s : smp) : Prop :=
  exists p, slots s !! i = Some p /\ s_lock p = None /\ s_state p = SLEEPING /\ s_chan p = ch /\ s_tail p = TSleep lk.

(** The rest of the machine leaves a locked entry and another CPU alone. *)
Lemma sstep_frame c d s s' x i p : smp_inv s -> sstep d s s' -> d <> c -> cpus s !! c = Some x -> slots s !! i = Some p -> s_lock p = Some c ->
  cpus s' !! c = Some x /\ slots s' !! i = Some p.
Proof.
  intros Hinv Hs Hne Hc Hi Hl.
  assert (forall j q, slots s !! j = Some q -> s_lock q = None \/ s_lock q = Some d -> j <> i) as Hdiff by (intros j q Hj Hq ->; destruct Hq; congruence).
  step_cases Hs;
    simpl; rewrite ?(list_lookup_insert_ne (cpus s)) by done; (split; [done|]); try done;
    rewrite list_lookup_insert_ne; try done; apply (Hdiff _ r Hj); first [by left | inv_owner Hinv Hd Hj; by right].
Qed.

Lemma falling_step c d i ch lk s s' : smp_inv s -> falling c i ch lk s -> sstep d s s' -> falling c i ch lk s' \/ asleep i ch lk s'.
Proof.
  intros Hinv (x & p & Hc & Hi & Hl & Hat) Hs. destruct (decide (d = c)) as [->|Hne].
  2:{ left. destruct (sstep_frame c d s s' x i p Hinv Hs Hne Hc Hi Hl) as [Hc' Hi']. by exists x, p. }
  assert ((c < length (cpus s))%nat) as Hlc by (by eapply lookup_lt_Some). assert ((i < length (slots s))%nat) as Hli by (by eapply lookup_lt_Some).
  step_cases Hs; rewrite Hd in Hc; injection Hc as <-; simpl in Hat; try done;
    try (destruct Hat as [-> Hat]); try (rewrite Hi in Hj; injection Hj as <-); try (destruct Hat as (Hat1 & Hat2 & Hat3)); simplify_eq; simpl in *.
  - right. exists (set_lock None p). simpl. by rewrite list_lookup_insert_eq.
  - by destruct (c_at y).
  - left. eexists _, p. simpl. rewrite list_lookup_insert_eq by done. by split_and!.
  - left. eexists _, _. simpl. rewrite !list_lookup_insert_eq by done. by split_and!.
  - left. eexists _, _. simpl. rewrite !list_lookup_insert_eq by done. split_and!; [done|done|done|].
    rewrite (sched_checks _ _ _ _ _ _ Hinv Hd Hi). simpl. by destruct (noff y =? 1).
  - left. eexists _, p. simpl. rewrite list_lookup_insert_eq by done. by split_and!.
Qed.

Lemma falling_reach c i ch lk s s' : smp_inv s -> falling c i ch lk s -> rtc smp_step s s' ->
  falling c i ch lk s' \/ exists s1, rtc smp_step s s1 /\ asleep i ch lk s1 /\ rtc smp_step s1 s'.
Proof.
  intros Hinv Hf Hs. revert Hinv Hf. induction Hs as [|s s1 s' [d Hs] Hr IH]; intros Hinv Hf; [by left|].
  destruct (falling_step _ _ _ _ _ _ _ Hinv Hf Hs) as [Hf'|Ha].
  - destruct (IH (sstep_inv _ _ _ Hinv Hs) Hf') as [?|(s2 & ? & ? & ?)]; [by left|]. right. exists s2. split_and!; try done. eapply rtc_l; [by exists d|done].
  - right. exists s1. split_and!; try done. apply rtc_once. by exists d.
Qed.

(** How the state of an entry can change in one step. *)
Definition next_state (c : nat) (s : smp) (i : nat) (p p' : slot) : Prop :=
  (s_state p = RUNNABLE -> s_state p' = RUNNABLE \/ s_state p' = RUNNING /\ exists q f x, cpus s !! c = Some (SCpu q (STest i f) x)) /\
  (s_state p = SLEEPING -> s_chan p' = s_chan p /\ s_tail p' = s_tail p /\ (s_state p' = SLEEPING \/ s_state p' = RUNNABLE)).

Lemma sstep_state c s s' i p : smp_inv s -> sstep c s s' -> slots s !! i = Some p ->
  exists p', slots s' !! i = Some p' /\ next_state c s i p p'.
Proof.
  intros Hinv Hs Hi. assert (forall j r r', slots s !! j = Some r -> (j = i -> r = p -> next_state c s i p r') ->
    exists p', <[j := r']> (slots s) !! i = Some p' /\ next_state c s i p p') as Hupd.
  { intros j r r' Hj Hr. destruct (decide (j = i)) as [->|Hne].
    - exists r'. rewrite list_lookup_insert_eq by (by eapply lookup_lt_Some). simplify_eq. auto.
    - exists p. rewrite list_lookup_insert_ne by done. split; [done|]. by split; auto. }
  step_cases Hs; simpl; try (exists p; split; [done|]; split; by auto); apply (Hupd j r _ Hj); intros -> ->; unfold next_state; simpl; try (split; by auto);
    try (inv_carried Hinv Hd Hj; simpl in *; split; intros E; rewrite E in *; naive_solver).
  - split; [intros _; right; split; [done|]; by eexists _, _, _ | congruence].
  - destruct Ht as [p E|p E|p E|p E]; simpl; split; intros E'; rewrite E' in E; try done; try (by destruct E); auto.
Qed.

(** C10: [sleep] misses no wake-up.  When a process has its own lock in [sleep(ch, lk)]
    it still holds [lk], so no one can have made the condition true and called
    [wakeup] since it was tested; from then on its entry stays locked until it is
    marked SLEEPING on [ch], which is what [wakeup(ch)] looks for under that lock; and
    a sleeping process stays so, keeping its channel and the lock it must take
    again, until it is made RUNNABLE. *)
Theorem sleep_no_lost_wakeup s0 s c q x i ch lk : smp_boot s0 -> rtc smp_step s0 s -> cpus s !! c = Some (SCpu q (PSet i (Sleep ch lk)) x) ->
  locks s !! lk = Some (Some c) /\
  forall s', rtc smp_step s s' ->
    ((exists p, slots s' !! i = Some p /\ s_lock p = Some c) \/
     exists s1, rtc smp_step s s1 /\ asleep i ch lk s1 /\ rtc smp_step s1 s') /\
    forall p s'', slots s' !! i = Some p -> s_state p = SLEEPING -> smp_step s' s'' ->
      exists p', slots s'' !! i = Some p' /\ s_chan p' = s_chan p /\ s_tail p' = s_tail p /\ (s_state p' = SLEEPING \/ s_state p' = RUNNABLE).
Proof.
  intros Hb H0 Hc. pose proof (reach_inv _ _ (boot_inv _ Hb) H0) as Hinv. split; [by eapply (inv_pending _ Hinv _ _ lk Hc)|].
  destruct (at_proc _ _ _ _ Hinv Hc eq_refl) as (p0 & Hi0 & Hl0 & _).
  intros s' Hs. split.
  - destruct (falling_reach c i ch lk s s' Hinv) as [(y & p & _ & Hi & Hl & _)|?]; [by eexists _, p0|done|left; by exists p|by right].
  - intros p s'' Hi Hst [d Hd]. destruct (sstep_state d s' s'' i p (reach_inv _ _ Hinv Hs) Hd Hi) as (p' & Hp' & _ & Hsl). exists p'. by split; [|auto].
Qed.

Lemma sleep_no_lost_wakeup_witness : let s := run 0 (Sleep 7 0) 16 demo_smp in
  pos_of 0 s = Some (PSet 3 (Sleep 7 0)) /\ locks s !! 0%nat = Some (Some 0%nat).
Proof.
  assert (at_point 0 (PSet 3 (Sleep 7 0)) (run 0 (Sleep 7 0) 16 demo_smp)) as (q & x & E) by (apply pos_at; vm_compute; reflexivity).
  split; [vm_compute; reflexivity|]. exact (proj1 (sleep_no_lost_wakeup demo_smp _ 0 q x 3 7 0 demo_boot (run_reach 0 (Sleep 7 0) 16 demo_smp) E)).
Defined.

(** ** A runnable process runs *)


(** The scan is at an entry up to [j], which has not been passed. *)
Definition before (j : nat) (k : spc) : Prop :=
  match k with
  | SLoop | SWait => False
  | SAcq i _ | STest i _ => (i <= j)%nat
  | SRel i _ | SBack i | PEnter i | PLock i _ | PRun i | PAcq i _ | PSet i _ | PRest i _ | PSched i | Stop i _ => (i < j)%nat
  end.
Definition scanning (c j : nat) (s : smp) : Prop := exists x, cpus s !! c = Some x /\ before j (c_at x).

Lemma scanning_step c d j s s' : smp_inv s -> sstep d s s' -> in_state j RUNNABLE s -> scanning c j s ->
  in_state j RUNNING s' \/ in_state j RUNNABLE s' /\ scanning c j s'.
Proof.
  intros Hinv Hs (p & Hp & Hrun) (x & Hc & Hx). destruct (sstep_state d s s' j p Hinv Hs Hp) as (p' & Hp' & Hr & _).
  destruct (Hr Hrun) as [Hst'|[Hst' _]]; [|left; by exists p']. right. split; [by exists p'|].
  assert ((j < length (slots s))%nat) as Hjl by (by eapply lookup_lt_Some). assert ((c < length (cpus s))%nat) as Hlc by (by eapply lookup_lt_Some).
  destruct (decide (d = c)) as [->|Hne].
  2:{ exists x. split; [|done]. destruct Hs; simpl; rewrite ?list_lookup_insert_ne by done; done. }
  rename j into jj. step_cases Hs; rewrite Hd in Hc; injection Hc as <-; simpl in *;
    try (eexists; split; [apply list_lookup_insert_eq; done | simpl; try done]).
  - destruct (decide (j = jj)) as [->|]; [|lia]. rewrite list_lookup_insert_eq in Hp' by done. by simplify_eq.
  - destruct (decide (j = jj)) as [->|]; [|lia]. congruence.
  - unfold next_entry. rewrite decide_True by lia. simpl. lia.
  - by destruct (s_tail r).
  - by exists y.
  - unfold sched. repeat (case_decide || case_match); done.
Qed.

(** An execution: at each moment some CPU makes a step, or nothing happens. *)
Definition execution (tr : nat -> smp) : Prop := smp_boot (tr 0%nat) /\ forall k, tr (S k) = tr k \/ smp_step (tr k) (tr (S k)).

Lemma execution_inv tr k : execution tr -> smp_inv (tr k).
Proof.
  intros [Hb Hs]. induction k as [|k IH]; [by apply boot_inv|]. destruct (Hs k) as [->|[c Hc]]; eauto using sstep_inv.
Qed.

Lemma runnable_until tr j m d : execution tr -> in_state j RUNNABLE (tr m) ->
  (exists k, (m <= k <= m + d)%nat /\ in_state j RUNNING (tr k)) \/ in_state j RUNNABLE (tr (m + d)%nat).
Proof.
  intros He Hj. induction d as [|d [(k & Hk & Hr)|(p & Hp & Hst)]]; [right; by rewrite Nat.add_0_r | left; exists k; split; [lia|done] |].
  rewrite Nat.add_succ_r. destruct (proj2 He (m + d)%nat) as [->|[c Hs]]; [right; by exists p|].
  destruct (sstep_state _ _ _ j p (execution_inv _ _ He) Hs Hp) as (p' & Hp' & Hr & _). destruct (Hr Hst) as [?|[? _]].
  - right. by exists p'.
  - left. exists (S (m + d)). split; [lia|]. by exists p'.
Qed.

Lemma scan_until tr c j m d : execution tr -> in_state j RUNNABLE (tr m) -> scanning c j (tr m) ->
  (exists k, (m <= k <= m + d)%nat /\ in_state j RUNNING (tr k)) \/ in_state j RUNNABLE (tr (m + d)%nat) /\ scanning c j (tr (m + d)%nat).
Proof.
  intros He Hj Hc. induction d as [|d [(k & Hk & Hr)|[Hr Hsc]]]; [right; by rewrite Nat.add_0_r | left; exists k; split; [lia|done] |].
  rewrite Nat.add_succ_r. destruct (proj2 He (m + d)%nat) as [->|[c' Hs]]; [by right|].
  destruct (scanning_step _ _ _ _ _ (execution_inv _ _ He) Hs Hr Hsc) as [?|?]; [left; exists (S (m + d)); split; [lia|done] | by right].
Qed.

(** C11: The scheduler starves no process.  In any execution in which some CPU keeps
    beginning and completing scans of the table (the timer forces processes back into
    the scheduler), a process that is runnable at some moment runs later, and before
    that CPU has completed the next scan it begins. *)
Theorem scheduler_live tr c j n : execution tr ->
  (forall k, exists m, (k <= m)%nat /\ at_point c (SAcq 0 false) (tr m)) -> (forall k, exists m, (k <= m)%nat /\ (at_point c SLoop (tr m) \/ at_point c SWait (tr m))) ->
  in_state j RUNNABLE (tr n) ->
  (exists k, (n <= k)%nat /\ in_state j RUNNING (tr k)) /\
  forall m m', (n <= m <= m')%nat -> at_point c (SAcq 0 false) (tr m) -> at_point c SLoop (tr m') \/ at_point c SWait (tr m') ->
    exists k, (n <= k <= m')%nat /\ in_state j RUNNING (tr k).
Proof.
  intros He Hbeg Hend Hj.
  assert (forall m m', (n <= m <= m')%nat -> at_point c (SAcq 0 false) (tr m) -> at_point c SLoop (tr m') \/ at_point c SWait (tr m') ->
    exists k, (n <= k <= m')%nat /\ in_state j RUNNING (tr k)) as Hscan.
  { intros m m' Hm (q & x & Hb) He'. destruct (runnable_until tr j n (m - n) He Hj) as [(k & Hk & Hr)|Hr]; [exists k; split; [lia|done]|].
    replace (n + (m - n))%nat with m in Hr by lia.
    destruct (scan_until tr c j m (m' - m) He Hr) as [(k & Hk & Hk')|[_ (y & Hy & Hbef)]]; [eexists; split; [exact Hb|simpl; lia] | exists k; split; [lia|done] |].
    replace (m + (m' - m))%nat with m' in Hy by lia. destruct He' as [(q' & x' & E)|(q' & x' & E)]; rewrite E in Hy; by simplify_eq. }
  split; [|done]. destruct (Hbeg n) as (m & Hm & Hb). destruct (Hend m) as (m' & Hm' & He').
  destruct (Hscan m m' ltac:(lia) Hb He') as (k & Hk & Hr). exists k. split; [lia|done].
Qed.

(** A process that yields whenever it runs: after the first scan the execution repeats. *)
Definition demo_run (n : nat) : smp := run 0 Yield n demo_smp.

Lemma demo_cycle m : demo_run (199 + m * 199) = demo_run 199.
Proof. apply run_cycle. vm_compute. reflexivity. Qed.

Lemma demo_next n : demo_run (S n) = run_total 0 Yield (demo_run n).
Proof. done. Qed.

Lemma demo_execution : execution demo_run.
Proof. split; [apply demo_boot|]. intros k. apply run_total_step. Qed.

Lemma scheduler_live_witness : exists k, (150 <= k)%nat /\ in_state 3 RUNNING (demo_run k).
Proof.
  apply (scheduler_live demo_run 0 3 150 demo_execution).
  - intros k. exists (S (199 + k * 199))%nat. split; [lia|]. apply pos_at.
    rewrite demo_next, demo_cycle. vm_compute. reflexivity.
  - intros k. exists (199 + k * 199)%nat. split; [lia|]. left. rewrite demo_cycle. apply pos_at. vm_compute. reflexivity.
  - eexists. split; vm_compute; reflexivity.
Defined.
