(* ===== verification/Lifecycle.v ===== *)
(** * Lifecycle: creation and death of processes, [userinit], [fork], [exit], [wait] and [forkret] of [kernel/proc.c]

    The routines of the process table that use the open files and the file system.
    A process that gives up the CPU in [sleep] or for good in [exit] is the outcome
    [Blocked]; the scheduler, which [Sched] models, then releases its lock. *)

From S2P Require Import Prelude CString Riscv Kalloc Vm Pipe Sleeplock BufCache Log Txn Kvm Proc Fs File.

(** [safestrcpy(s, t, k + 1)] on the bytes of the destination and the string with its NUL. *)
Fixpoint safestrcpy_l (k : nat) (s t : list Z) : list Z :=
  match k, s, t with
  | S k, _ :: s, c :: t => c :: (if c =? 0 then <[O := 0]> s else safestrcpy_l k s t)
  | _, _, _ => <[O := 0]> s
  end.

(** [initcode], the program that calls [exec("/init")]. *)
Definition initcode : list Z :=
  [23; 5; 0; 0; 19; 5; 69; 2; 151; 5; 0; 0; 147; 133; 53; 2;
   147; 8; 112; 0; 115; 0; 0; 0; 147; 8; 32; 0; 115; 0; 0; 0;
   239; 240; 159; 255; 47; 105; 110; 105; 116; 0; 0; 36; 0; 0; 0; 0;
   0; 0; 0; 0].

(** The C string ["initcode"]. *)
Definition initcode_name : list Z := [105; 110; 105; 116; 99; 111; 100; 101; 0].

(** The offset of [xstate] in [struct proc]. *)
Definition off_xstate : Z := 44.

Section Lifecycle.
Context {T : Type} `{Txn T} {D : Type}.
Variables kend trampoline forkret_addr proc_base initcode_addr : Z.
Variable buf_addr : nat -> Z.
Variable de_addr : Z.
Notation fstate := (@fstate T D).

Definition release_proc_ (p : nat) : M fstate unit := in_proc (release (proc_lockL p)).

(** A pointer that is dereferenced. *)
Definition deref {A} (p : option A) : M fstate A := match p with Some x => mret x | None => undefined end.

Definition userinit : M fstate unit :=
  r ← in_proc (allocproc kend trampoline forkret_addr);
  in_proc (modify (setk_initproc r));;
  p ← deref r;
  pagetable ← in_proc (pget p p_pagetable);
  in_mem (do_mem (fun m => wrn m initcode_addr initcode));;
  in_mem (uvmfirst pagetable initcode_addr (Z.of_nat (length initcode)));;
  in_proc (pupd p (setp_sz PGSIZE));;
  tf ← in_proc (pget p p_trapframe);
  in_mem (stq (tf + tf_epc) 0);;
  in_mem (stq (tf + tf_sp) PGSIZE);;
  in_proc (pupd p (fun q => setp_name (safestrcpy_l 15 (p_name q) initcode_name) q));;
  cwd ← in_fs (namei buf_addr de_addr [SLASH]);
  in_proc (pupd p (setp_cwd cwd));;
  in_proc (pupd p (setp_state RUNNABLE));;
  release_proc_ p.

(** [if(p->ofile[i]) np->ofile[i] = filedup(p->ofile[i])] *)
Definition dup_files (p np : nat) : M fstate unit :=
  for_each (R := unit) (seq 0 NOFILE) (fun i =>
    files ← in_proc (pget p p_ofile);
    match files !! i with
    | None => undefined
    | Some None => mret None
    | Some (Some f) =>
      f' ← filedup f;
      in_proc (pupd np (fun q => setp_ofile (<[i := Some f']> (p_ofile q)) q));;
      mret None
    end);;
  mret tt.

Definition fork : M fstate Z :=
  p ← in_proc me;
  r ← in_proc (allocproc kend trampoline forkret_addr);
  match r with
  | None => mret (-1)
  | Some np =>
    old ← in_proc (pget p p_pagetable);
    new ← in_proc (pget np p_pagetable);
    sz ← in_proc (pget p p_sz);
    c ← in_mem (uvmcopy kend old new sz);
    if c <? 0 then
      in_proc (freeproc kend np);;
      release_proc_ np;;
      mret (-1)
    else
    in_proc (pupd np (setp_sz sz));;
    tf ← in_proc (pget p p_trapframe);
    ntf ← in_proc (pget np p_trapframe);
    in_mem (do_mem (fun m => wrn m ntf (rdn m tf (Z.to_nat sizeof_trapframe))));;
    in_mem (stq (ntf + tf_a0) 0);;
    dup_files p np;;
    cwd ← in_proc (pget p p_cwd);
    cwd ← deref cwd;
    cwd ← in_fs (idup cwd);
    in_proc (pupd np (setp_cwd (Some cwd)));;
    name ← in_proc (pget p p_name);
    in_proc (pupd np (fun q => setp_name (safestrcpy_l 15 (p_name q) name) q));;
    pid ← in_proc (pget np p_pid);
    release_proc_ np;;
    in_proc (acquire wait_lockL);;
    in_proc (pupd np (setp_parent (Some p)));;
    in_proc (release wait_lockL);;
    in_proc (acquire (proc_lockL np));;
    in_proc (pupd np (setp_state RUNNABLE));;
    release_proc_ np;;
    mask ← in_proc (pget p p_trace_mask);
    in_proc (pupd np (setp_trace_mask mask));;
    mret pid
  end.

(** [sched()] with [p->lock] held: the scheduler releases the lock. *)
Definition sched_ {A} (p : nat) : M fstate A := release_proc_ p;; sleep_on "sched".

(** The loop of [exit] that closes the files. *)
Definition close_files (p : nat) : M fstate unit :=
  for_each (R := unit) (seq 0 NOFILE) (fun fd =>
    files ← in_proc (pget p p_ofile);
    match files !! fd with
    | None => undefined
    | Some None => mret None
    | Some (Some f) =>
      fileclose kend f;;
      in_proc (pupd p (fun q => setp_ofile (<[fd := None]> (p_ofile q)) q));;
      mret None
    end);;
  mret tt.

Definition exit (status : Z) : M fstate unit :=
  p ← in_proc me;
  init ← in_proc (gets initproc);
  if decide (init = Some p) then panic "init exiting" else
  close_files p;;
  begin_op_;;
  cwd ← in_proc (pget p p_cwd);
  iput_ cwd;;
  end_op_;;
  in_proc (pupd p (setp_cwd None));;
  in_proc (acquire wait_lockL);;
  in_proc (reparent proc_base p);;
  parent ← in_proc (pget p p_parent);
  chan_wakeup (ptr_addr proc_base parent);;
  in_proc (acquire (proc_lockL p));;
  in_proc (pupd p (setp_xstate status));;
  in_proc (pupd p (setp_state ZOMBIE));;
  in_proc (release wait_lockL);;
  sched_ p.

(** [sleep(chan, lk)] up to the switch to the scheduler. *)
Definition sleep_ {A} (p : nat) (chan : Z) (lk : lens kproc spin) : M fstate A :=
  in_proc (acquire (proc_lockL p));;
  in_proc (release lk);;
  in_proc (pupd p (setp_chan chan));;
  in_proc (pupd p (setp_state SLEEPING));;
  sched_ p.

(** A zombie child found by [wait]: its exit status is copied out and it is freed. *)
Definition reap (p pp : nat) (addr : Z) : M fstate Z :=
  pid ← in_proc (pget pp p_pid);
  pt ← in_proc (pget p p_pagetable);
  x ← in_proc (pget pp p_xstate);
  in_mem (do_mem (fun m => wrn m (proc_addr proc_base pp + off_xstate) (le_split 4 x)));;
  r ← (if addr =? 0 then mret 0 else in_mem (copyout pt addr (proc_addr proc_base pp + off_xstate) 4));
  if r <? 0 then
    release_proc_ pp;;
    in_proc (release wait_lockL);;
    mret (-1)
  else
  in_proc (freeproc kend pp);;
  release_proc_ pp;;
  in_proc (release wait_lockL);;
  mret pid.

(** The scan of the table: the result of [reap], or whether there are children. *)
Fixpoint wait_scan (l : list nat) (p : nat) (addr : Z) (havekids : bool) : M fstate (Z + bool) :=
  match l with
  | [] => mret (inr havekids)
  | pp :: l =>
    parent ← in_proc (pget pp p_parent);
    if decide (parent = Some p) then
      in_proc (acquire (proc_lockL pp));;
      st ← in_proc (pget pp p_state);
      if is_state st ZOMBIE then r ← reap p pp addr; mret (inl r) else
      release_proc_ pp;;
      wait_scan l p addr true
    else wait_scan l p addr havekids
  end.

(** One round of [wait]; a process that is woken in [sleep] clears its channel, takes
    [wait_lock] again and starts the next round. *)
Definition wait (addr : Z) : M fstate Z :=
  p ← in_proc me;
  in_proc (acquire wait_lockL);;
  r ← wait_scan (seq 0 NPROC) p addr false;
  match r with
  | inl pid => mret pid
  | inr havekids =>
    k ← (if havekids : bool then in_proc (killed p) else mret 1);
    if negb (k =? 0) then in_proc (release wait_lockL);; mret (-1) else
    sleep_ p (proc_addr proc_base p) wait_lockL
  end.

(** [forkret] up to its return to user space; [first] is the static variable. *)
Definition forkret (first : bool) : M fstate bool :=
  p ← in_proc me;
  release_proc_ p;;
  (if first then in_fs (fsinit ROOTDEV) else mret tt);;
  mret false.

End Lifecycle.
