(* ===== verification/Printf.v ===== *)
(** * Printf: formatted output, [kernel/printf.c] and [user/printf.c]

    Both are written over the routine that takes one character ([consputc], or
    [putc], which is a [write] of one byte), a parameter here.  A format is its bytes
    without the NUL; the arguments are the 64-bit words [va_arg] takes them from.
    Strings are in memory.

    [printint] collects the digits in an array of 16 bytes: a longer number has no
    meaning in C, and the model stops there.

    The theorems: both print what the format says, the numbers as the numerals of
    their values; what ["%d"] prints, [atoi] reads back; the decimal output of a
    number of more than 16 digits overruns the kernel's buffer. *)

From S2P Require Import Prelude CString.

(** The conversions of a format. *)
Inductive conv := Num (wide : bool) (base : Z) (sign : bool) | Ptr | Str | Pct | Unknown.

(** The chain of tests on the characters after [%]: the conversion, and by how much
    [i] is advanced besides. *)
Definition conv_of (c0 c1 c2 : Z) : conv * nat :=
  if c0 =? chr "d" then (Num false 10 true, 0%nat)
  else if (c0 =? chr "l") && (c1 =? chr "d") then (Num true 10 true, 1%nat)
  else if (c0 =? chr "l") && (c1 =? chr "l") && (c2 =? chr "d") then (Num true 10 true, 2%nat)
  else if c0 =? chr "u" then (Num false 10 false, 0%nat)
  else if (c0 =? chr "l") && (c1 =? chr "u") then (Num true 10 false, 1%nat)
  else if (c0 =? chr "l") && (c1 =? chr "l") && (c2 =? chr "u") then (Num true 10 false, 2%nat)
  else if c0 =? chr "x" then (Num false 16 false, 0%nat)
  else if (c0 =? chr "l") && (c1 =? chr "x") then (Num true 16 false, 1%nat)
  else if (c0 =? chr "l") && (c1 =? chr "l") && (c2 =? chr "x") then (Num true 16 false, 2%nat)
  else if c0 =? chr "p" then (Ptr, 0%nat)
  else if c0 =? chr "s" then (Str, 0%nat)
  else if c0 =? chr "%" then (Pct, 0%nat)
  else (Unknown, 0%nat).

(** [c1] and [c2] are read only when the character before is not NUL. *)
Definition lookahead (r : list Z) : Z * Z := (default 0 (r !! 0%nat), default 0 (r !! 1%nat)).

Section Out.
Context {S : Type} (putc : Z -> M S unit) (m : mem) (strfuel : nat) (digits : list Z).

Fixpoint puts (l : list Z) : M S unit :=
  match l with [] => mret tt | c :: l => putc c;; puts l end.

(** The [do ... while((x /= base) != 0)] that fills [buf]. *)
Fixpoint fill (fuel : nat) (x base : Z) : list Z :=
  match fuel with
  | O => []
  | Datatypes.S fuel => (digits !!! Z.to_nat (x mod base)) :: (if x / base =? 0 then [] else fill fuel (x / base) base)
  end.

(** [while(--i >= 0) putc(buf[i])] on [char buf[16]]. *)
Definition put_buf (buf : list Z) : M S unit :=
  if decide (16 < length buf)%nat then undefined else puts (reverse buf).

Fixpoint ptr_loop (n : nat) (x : Z) : M S unit :=
  match n with
  | O => mret tt
  | Datatypes.S n => putc (digits !!! Z.to_nat (Z.shiftr x 60));; ptr_loop n (u64 (Z.shiftl x 4))
  end.
Definition printptr (x : Z) : M S unit := putc (chr "0");; putc (chr "x");; ptr_loop 16 x.

Definition null_str : list Z := bytes "(null)".

(** [for(; *s; s++) putc( *s )] *)
Fixpoint str_loop (fuel : nat) (s : Z) : M S unit :=
  match fuel with
  | O => fun _ => NoFuel
  | Datatypes.S fuel => if rd m s =? 0 then mret tt else putc (rd m s);; str_loop fuel (s + 1)
  end.
Definition printstr (s : Z) : M S unit := if s =? 0 then puts null_str else str_loop strfuel s.

Section convert.
Variable printint : bool -> Z -> Z -> bool -> M S unit.   (* wide, the word, base, sign *)

(** What one conversion prints; the arguments that are left. *)
Definition convert (k : conv) (c0 : Z) (ap : list Z) : M S (list Z) :=
  match k, ap with
  | Num wide base sign, x :: ap => printint wide x base sign;; mret ap
  | Ptr, x :: ap => printptr x;; mret ap
  | Str, x :: ap => printstr x;; mret ap
  | Pct, ap => putc (chr "%");; mret ap
  | Unknown, ap => putc (chr "%");; putc c0;; mret ap
  | _, [] => undefined
  end.
End convert.
End Out.

Module KPrintf.
Section KPrintf.
Context {S : Type} (consputc : Z -> M S unit) (m : mem) (strfuel : nat).

Definition digits : list Z := bytes "0123456789abcdef".

Definition printint (xx base : Z) (sign : bool) : M S unit :=
  let neg := sign && (xx <? 0) in
  let x := u64 (if neg then - xx else xx) in
  put_buf consputc (fill digits 64 x base ++ (if neg then [chr "-"] else [])).

(** [va_arg(ap, int)] or [va_arg(ap, uint64)], as a [long long]. *)
Definition print_arg (wide : bool) (w base : Z) (sign : bool) : M S unit :=
  printint (if wide then i64 w else i32 w) base sign.

(** The loop of [printf] over the rest of the format. *)
Fixpoint printf_loop (fuel : nat) (fmt ap : list Z) : M S unit :=
  match fuel, fmt with
  | _, [] => mret tt
  | O, _ => fun _ => NoFuel
  | Datatypes.S fuel, cx :: fmt =>
    if negb (cx =? chr "%") then consputc cx;; printf_loop fuel fmt ap else
    match fmt with
    | [] => mret tt
    | c0 :: r =>
      let '(c1, c2) := lookahead r in
      let '(k, n) := conv_of c0 c1 c2 in
      ap ← convert consputc m strfuel digits print_arg k c0 ap;
      printf_loop fuel (drop n r) ap
    end
  end.

(** [pr] and [panicked] beside the console. *)
Record pr := Pr { pr_lock : spin; pr_locking : bool; panicked : bool; pr_con : S }.
Definition pr_lockL : lens pr spin := Lens pr_lock (fun l s => Pr l (pr_locking s) (panicked s) (pr_con s)).
Definition pr_conL : lens pr S := Lens pr_con (fun c s => Pr (pr_lock s) (pr_locking s) (panicked s) c).

Definition printf (fmt ap : list Z) : M pr Z :=
  locking ← gets pr_locking;
  when locking (acquire pr_lockL);;
  zoom pr_conL (printf_loop (length fmt) fmt ap);;
  when locking (release pr_lockL);;
  mret 0.

(** [panic(s)] spins for ever after its output. *)
Definition kpanic (s : Z) : M pr unit :=
  modify (fun p => Pr (pr_lock p) false (panicked p) (pr_con p));;
  printf (bytes "panic: ") [];;
  printf (bytes "%s" ++ [10]) [s];;
  modify (fun p => Pr (pr_lock p) (pr_locking p) true (pr_con p));;
  sleep_on "panic".

Definition printfinit : M pr unit := modify (fun p => Pr Free true (panicked p) (pr_con p)).
End KPrintf.
End KPrintf.

Module UPrintf.
Section UPrintf.
Context {S : Type} (write : Z -> list Z -> M S Z) (m : mem) (strfuel : nat).

Definition digits : list Z := bytes "0123456789ABCDEF".

Definition putc (fd c : Z) : M S unit := write fd [c];; mret tt.

Definition printint (fd xx base : Z) (sgn : bool) : M S unit :=
  let neg := sgn && (xx <? 0) in
  let x := u32 (if neg then - xx else xx) in
  put_buf (putc fd) (fill digits 64 x base ++ (if neg then [chr "-"] else [])).

(** The argument is converted to [int] whatever its width. *)
Definition print_arg (fd : Z) (wide : bool) (w base : Z) (sgn : bool) : M S unit := printint fd (i32 w) base sgn.

(** The loop of [vprintf]; [pct] is [state == '%']. *)
Fixpoint vprintf_loop (fuel : nat) (fd : Z) (fmt ap : list Z) (pct : bool) : M S unit :=
  match fuel, fmt with
  | _, [] => mret tt
  | O, _ => fun _ => NoFuel
  | Datatypes.S fuel, c0 :: r =>
    if pct then
      let '(c1, c2) := lookahead r in
      let '(k, n) := conv_of c0 c1 c2 in
      ap ← convert (putc fd) m strfuel digits (print_arg fd) k c0 ap;
      vprintf_loop fuel fd (drop n r) ap false
    else if c0 =? chr "%" then vprintf_loop fuel fd r ap true
    else putc fd c0;; vprintf_loop fuel fd r ap false
  end.
Definition vprintf (fd : Z) (fmt ap : list Z) : M S unit := vprintf_loop (length fmt) fd fmt ap false.
Definition fprintf (fd : Z) (fmt ap : list Z) : M S unit := vprintf fd fmt ap.
Definition printf (fmt ap : list Z) : M S unit := vprintf 1 fmt ap.
End UPrintf.
End UPrintf.

(** ** Numerals *)

(** Digits, least significant first, without a leading zero. *)
Definition value (base : Z) (l : list Z) : Z := foldr (fun d a => d + base * a) 0 l.
Definition numeral (base x : Z) (l : list Z) : Prop :=
  Forall (fun d => 0 <= d < base) l /\ value base l = x /\ l <> [] /\ (last l = Some 0 -> l = [0]).

Lemma value_nonneg base l : 0 <= base -> Forall (fun d => 0 <= d < base) l -> 0 <= value base l.
Proof. intros Hb. induction 1 as [|d l Hd _ IH]; simpl; [done|]. nia. Qed.

(** A list of digits of value 0 ends in a zero. *)
Lemma value_zero base l : 0 < base -> Forall (fun d => 0 <= d < base) l -> l <> [] -> value base l = 0 -> last l = Some 0.
Proof.
  intros Hb. induction 1 as [|d l Hd Hl IH]; intros Hne Hv; [done|]. simpl in Hv. pose proof (value_nonneg base l ltac:(lia) Hl).
  assert (d = 0 /\ value base l = 0) as [-> Hv'] by nia. destruct l as [|e l]; [done|]. change (last (e :: l) = Some 0). by apply IH.
Qed.

Lemma numeral_cons base d l x : 0 < base -> numeral base x (d :: l) -> x mod base = d /\ x / base = value base l /\
  (x / base = 0 <-> l = []) /\ (l <> [] -> numeral base (x / base) l).
Proof.
  intros Hb (Hf & Hv & _ & Hz). apply Forall_cons in Hf as [Hd Hl]. simpl in Hv.
  assert (x = base * value base l + d) as E by lia.
  assert (x mod base = d) as Em by (rewrite E, Z.add_comm, Z.mul_comm, Z.mod_add by lia; apply Z.mod_small; lia).
  assert (x / base = value base l) as Ed by (rewrite E, Z.add_comm, Z.mul_comm, Z.div_add by lia; rewrite Z.div_small; lia).
  split_and!; [done|done| |].
  - rewrite Ed. split; [|by intros ->]. intros Hv0. destruct l as [|e l]; [done|].
    assert (last (e :: l) = Some 0) as Hlast by (by apply (value_zero base)). rewrite last_cons, Hlast in Hz. by specialize (Hz eq_refl).
  - intros Hne. split_and!; [done|done|done|]. intros Hlast. rewrite last_cons, Hlast in Hz. specialize (Hz eq_refl). congruence.
Qed.

(** [fill] produces the numeral, and there is only one. *)
Lemma fill_numeral digits fuel base x l : 0 < base -> numeral base x l -> (length l <= fuel)%nat ->
  fill digits fuel x base = (fun d => digits !!! Z.to_nat d) <$> l.
Proof.
  intros Hb. revert x fuel. induction l as [|d l IH]; intros x fuel Hn Hle; [by destruct Hn as (_ & _ & ? & _)|].
  destruct fuel as [|fuel]; [simpl in Hle; lia|]. destruct (numeral_cons base d l x Hb Hn) as (Em & Ed & Hz & Hl). simpl. rewrite Em. f_equal.
  destruct (Z.eqb_spec (x / base) 0) as [E|E]; [by rewrite (proj1 Hz E)|]. apply IH; [|simpl in Hle; lia]. apply Hl. intros ->. by apply E, Hz.
Qed.

Lemma numeral_exists base fuel x : 2 <= base -> 0 <= x < base ^ Z.of_nat fuel -> (1 <= fuel)%nat -> exists l, numeral base x l /\ (length l <= fuel)%nat.
Proof.
  intros Hb. revert x. induction fuel as [|fuel IH]; intros x Hx Hf; [lia|].
  pose proof (Z.mod_pos_bound x base ltac:(lia)) as Hm. pose proof (Z.div_mod x base ltac:(lia)) as Hdm.
  destruct (decide (x / base = 0)) as [E|E].
  - exists [x mod base]. split; [|simpl; lia]. split_and!; [by constructor| simpl; lia | done |]. simpl. congruence.
  - assert (0 <= x / base < base ^ Z.of_nat fuel) as Hx'.
    { split; [apply Z.div_pos; lia|]. apply Z.div_lt_upper_bound; [lia|]. rewrite Nat2Z.inj_succ, Z.pow_succ_r in Hx by lia. lia. }
    assert (1 <= fuel)%nat as Hf' by (destruct fuel; [simpl in Hx'; lia | lia]).
    destruct (IH _ Hx' Hf') as (l & (Hl & Hv & Hne & Hz) & Hlen). exists (x mod base :: l). split; [|simpl; lia].
    split_and!; [by constructor | simpl; rewrite Hv; lia | done |]. rewrite last_cons. destruct (last l) as [y|] eqn:El.
    + intros [= ->]. specialize (Hz eq_refl). subst l. simpl in Hv. lia.
    + by apply last_None in El.
Qed.

(** A number of at least [base ^ k] has more than [k] digits. *)
Lemma numeral_length base x l k : 2 <= base -> numeral base x l -> base ^ Z.of_nat k <= x -> (k < length l)%nat.
Proof.
  intros Hb (Hl & Hv & _ & _) Hx. assert (value base l < base ^ Z.of_nat (length l)) as Hlt.
  { clear - Hb Hl. induction Hl as [|d l Hd _ IH]; [simpl; lia|]. cbn [value foldr length]. fold (value base l). rewrite Nat2Z.inj_succ, Z.pow_succ_r by lia. nia. }
  apply Nat2Z.inj_lt. apply (Z.pow_lt_mono_r_iff base); lia.
Qed.

(** ** Formats as sequences of items *)

Inductive item := Lit (c : Z) | Cv (ls : nat) (k : Z) | IPtr | IStr | IPct | IUnk (c : Z).

Definition spell (i : item) : list Z :=
  match i with
  | Lit c => [c]
  | Cv ls k => chr "%" :: replicate ls (chr "l") ++ [k]
  | IPtr => bytes "%p"
  | IStr => bytes "%s"
  | IPct => bytes "%%"
  | IUnk c => [chr "%"; c]
  end.

Fixpoint fmt_of (l : list item) : list Z := match l with [] => [] | i :: l => spell i ++ fmt_of l end.

Definition item_ok (i : item) : Prop :=
  match i with
  | Lit c => c <> chr "%"
  | Cv ls k => (ls <= 2)%nat /\ (k = chr "d" \/ k = chr "u" \/ k = chr "x")
  | IUnk c => c ∉ bytes "dluxps%"
  | _ => True
  end.

Section renders.
Context (digits : list Z) (bits : Z) (val : bool -> Z -> Z) (m : mem).

(** The text of a number: a numeral, after a minus sign where the conversion is signed. *)
Definition num_text (v base : Z) (sign : bool) (t : list Z) : Prop :=
  exists l, numeral base (if sign && (v <? 0) then - v else v mod 2 ^ bits) l /\
    t = (if sign && (v <? 0) then [chr "-"] else []) ++ ((fun d => digits !!! Z.to_nat d) <$> reverse l).

Definition str_text (w : Z) (t : list Z) : Prop := w = 0 /\ t = null_str \/ w <> 0 /\ ULib.str_at m w t.

(** [t] is what the items ask for, given the arguments. *)
Inductive renders (strfuel : nat) : list item -> list Z -> list Z -> Prop :=
| r_nil ap : renders strfuel [] ap []
| r_lit c l ap t : renders strfuel l ap t -> renders strfuel (Lit c :: l) ap (c :: t)
| r_num ls k w l ap t1 t : num_text (val (negb (ls =? 0)%nat) w) (if k =? chr "x" then 16 else 10) (k =? chr "d") t1 -> (length t1 <= 16)%nat ->
    renders strfuel l ap t -> renders strfuel (Cv ls k :: l) (w :: ap) (t1 ++ t)
| r_ptr w l ap ds t : length ds = 16%nat -> Forall (fun d => 0 <= d < 16) ds -> value 16 (reverse ds) = w ->
    renders strfuel l ap t -> renders strfuel (IPtr :: l) (w :: ap) (bytes "0x" ++ ((fun d => digits !!! Z.to_nat d) <$> ds) ++ t)
| r_str w l ap t1 t : str_text w t1 -> (length t1 < strfuel)%nat -> renders strfuel l ap t -> renders strfuel (IStr :: l) (w :: ap) (t1 ++ t)
| r_pct l ap t : renders strfuel l ap t -> renders strfuel (IPct :: l) ap (chr "%" :: t)
| r_unk c l ap t : renders strfuel l ap t -> renders strfuel (IUnk c :: l) ap (chr "%" :: c :: t).
End renders.

(** ** The pieces print their texts *)

Section pieces.
Context {S : Type} (putc : Z -> M S unit) (m : mem) (strfuel : nat) (digits : list Z).

Lemma puts_app a b s : puts putc (a ++ b) s = (puts putc a;; puts putc b) s.
Proof.
  revert s. induction a as [|c a IH]; intros s; [done|]. simpl. rewrite bind_assoc. unfold mbind, M_bind in *. destruct (putc c s); [|done..]. apply IH.
Qed.

Lemma num_prints bits v base sign t : 2 <= base -> 0 < bits <= 64 -> - 2 ^ (bits - 1) <= v < 2 ^ (bits - 1) -> num_text digits bits v base sign t -> (length t <= 16)%nat ->
  put_buf putc (fill digits 64 ((if sign && (v <? 0) then - v else v) mod 2 ^ bits) base ++ (if sign && (v <? 0) then [chr "-"] else [])) = puts putc t.
Proof.
  intros Hb Hbits Hv (l & Hn & ->) Hlen. rewrite length_app, length_fmap, length_reverse in Hlen.
  assert ((if sign && (v <? 0) then - v else v) mod 2 ^ bits = if sign && (v <? 0) then - v else v mod 2 ^ bits) as ->.
  { destruct sign, (Z.ltb_spec v 0); simpl; try done. apply Z.mod_small. split; [lia|].
    assert (2 ^ bits = 2 * 2 ^ (bits - 1)) as -> by (rewrite <- Z.pow_succ_r by lia; f_equal; lia). lia. }
  rewrite (fill_numeral digits 64 base _ l) by (done || lia). unfold put_buf. rewrite decide_False by (rewrite length_app, length_fmap; lia).
  f_equal. rewrite reverse_app, fmap_reverse. by destruct (sign && (v <? 0)).
Qed.

Lemma ptr_prints n ds x s : length ds = n -> (n <= 16)%nat -> Forall (fun d => 0 <= d < 16) ds -> x = value 16 (reverse ds) * 16 ^ (16 - Z.of_nat n) ->
  ptr_loop putc digits n x s = puts putc ((fun d => digits !!! Z.to_nat d) <$> ds) s.
Proof.
  revert ds x s. induction n as [|n IH]; intros ds x s Hl Hn Hf Hx; [by destruct ds|].
  destruct ds as [|d ds]; [done|]. apply Forall_cons in Hf as [Hd Hf]. simpl in Hl.
  assert (forall ds, Forall (fun d => 0 <= d < 16) ds -> 0 <= value 16 (reverse ds) < 16 ^ Z.of_nat (length ds)) as Hbound.
  { clear. intros ds Hf. rewrite <- length_reverse. apply Forall_reverse in Hf. induction Hf as [|d l Hd _ IH]; [simpl; lia|].
    cbn [value foldr length]. fold (value 16 l). rewrite Nat2Z.inj_succ, Z.pow_succ_r by lia. lia. }
  assert (forall l d, value 16 (l ++ [d]) = value 16 l + d * 16 ^ Z.of_nat (length l)) as Hsnoc.
  { clear. induction l as [|e l IH]; intros d; [simpl; lia|]. cbn [app value foldr length]. fold (value 16 (l ++ [d])) (value 16 l).
    rewrite IH, Nat2Z.inj_succ, Z.pow_succ_r by lia. lia. }
  specialize (Hbound ds Hf). rewrite reverse_cons, Hsnoc, length_reverse in Hx. injection Hl as Hl. rewrite Hl in Hx, Hbound.
  replace (16 - Z.of_nat (Datatypes.S n)) with (15 - Z.of_nat n) in Hx by lia.
  assert (x = d * 2 ^ 60 + value 16 (reverse ds) * 16 ^ (15 - Z.of_nat n)) as Ex.
  { rewrite Hx, Z.mul_add_distr_r, Z.add_comm. f_equal. rewrite <- Z.mul_assoc, <- Z.pow_add_r by lia. replace (Z.of_nat n + (15 - Z.of_nat n)) with 15 by lia. done. }
  assert (0 <= value 16 (reverse ds) * 16 ^ (15 - Z.of_nat n) < 2 ^ 60) as Hlow.
  { split; [apply Z.mul_nonneg_nonneg; [lia | apply Z.pow_nonneg; lia]|]. change (2 ^ 60) with (16 ^ 15). replace 15 with (Z.of_nat n + (15 - Z.of_nat n)) at 2 by lia.
    rewrite Z.pow_add_r by lia. apply Z.mul_lt_mono_pos_r; [apply Z.pow_pos_nonneg; lia | lia]. }
  cbn [ptr_loop fmap list_fmap puts]. replace (Z.shiftr x 60) with d.
  2:{ rewrite Z.shiftr_div_pow2 by lia. rewrite Ex, Z.add_comm, Z.div_add, Z.div_small by lia. lia. }
  unfold mbind, M_bind. destruct (putc _ s); [|done..]. apply IH; [done|lia|done|].
  unfold u64. rewrite Z.shiftl_mul_pow2 by lia. rewrite Ex. replace (2 ^ 64) with (2 ^ 60 * 2 ^ 4) by lia. rewrite Z.mul_mod_distr_r by lia.
  rewrite Z.add_comm, Z.mod_add, Z.mod_small by lia. rewrite <- Z.mul_assoc. f_equal. change (2 ^ 4) with (16 ^ 1). rewrite <- Z.pow_add_r by lia. f_equal. lia.
Qed.

Lemma str_prints fuel w t s : ULib.str_at m w t -> (length t < fuel)%nat -> str_loop putc m fuel w s = puts putc t s.
Proof.
  revert fuel w s. induction t as [|c t IH]; intros [|fuel] w s Hs Hf; try (simpl in Hf; lia); simpl.
  - apply ULib.str_at_nil in Hs. by rewrite Hs.
  - apply ULib.str_at_cons in Hs as (Hc & Hnz & Hs). rewrite Hc, (proj2 (Z.eqb_neq c 0)) by done.
    unfold mbind, M_bind. destruct (putc c s); [|done..]. apply IH; [done | simpl in Hf; lia].
Qed.
End pieces.

(** ** The loops print what the items ask for *)

Section loops.
Context {S : Type} (putc : Z -> M S unit) (m : mem) (strfuel : nat).

(** How the tests on the characters after [%] come out for an item. *)
Lemma conv_item ls k r : item_ok (Cv ls k) -> exists c0 r0, replicate ls (chr "l") ++ [k] ++ r = c0 :: r0 /\
  let '(c1, c2) := lookahead r0 in
  conv_of c0 c1 c2 = (Num (negb (ls =? 0)%nat) (if k =? chr "x" then 16 else 10) (k =? chr "d"), ls) /\ drop ls r0 = r.
Proof.
  intros [Hls Hk]. destruct ls as [|[|[|ls]]]; [| | |lia]; (eexists _, _; split; [reflexivity|]); destruct Hk as [-> | [-> | ->]]; by split.
Qed.

Lemma conv_unknown c c1 c2 : item_ok (IUnk c) -> conv_of c c1 c2 = (Unknown, 0%nat).
Proof.
  simpl. unfold bytes. simpl. rewrite !not_elem_of_cons. intros (Hd & Hl & Hu & Hx & Hp & Hs & Hq & _). unfold conv_of.
  rewrite (proj2 (Z.eqb_neq c (chr "d"))), (proj2 (Z.eqb_neq c (chr "l"))), (proj2 (Z.eqb_neq c (chr "u"))), (proj2 (Z.eqb_neq c (chr "x"))),
    (proj2 (Z.eqb_neq c (chr "p"))), (proj2 (Z.eqb_neq c (chr "s"))), (proj2 (Z.eqb_neq c (chr "%"))) by done. done.
Qed.

Lemma then_ret {A B} (f : M S A) (x : B) {C} (k : B -> M S C) s : ((f;; mret x) ≫= k) s = (f ≫= (fun _ => k x)) s.
Proof. unfold mbind, M_bind. by destruct (f s). Qed.

Lemma bind_ext {A B} (f g : M S A) (k k' : A -> M S B) s : f s = g s -> (forall x s', k x s' = k' x s') -> (f ≫= k) s = (g ≫= k') s.
Proof. intros E Hk. unfold mbind, M_bind. rewrite E. by destruct (g s). Qed.

(** Conversions print the texts of [renders]. *)
Context (digits : list Z) (bits : Z) (val : bool -> Z -> Z) (printint : bool -> Z -> Z -> bool -> M S unit).
Hypothesis printint_ok : forall wide w base sign t s, 2 <= base -> num_text digits bits (val wide w) base sign t -> (length t <= 16)%nat ->
  printint wide w base sign s = puts putc t s.

Lemma convert_num wide w base sign c0 ap t s : 2 <= base -> num_text digits bits (val wide w) base sign t -> (length t <= 16)%nat ->
  convert putc m strfuel digits printint (Num wide base sign) c0 (w :: ap) s = (puts putc t;; mret ap) s.
Proof. intros. simpl. apply bind_ext; eauto. Qed.

Lemma convert_ptr w ds c0 ap s : length ds = 16%nat -> Forall (fun d => 0 <= d < 16) ds -> value 16 (reverse ds) = w ->
  convert putc m strfuel digits printint Ptr c0 (w :: ap) s = (puts putc (bytes "0x" ++ ((fun d => digits !!! Z.to_nat d) <$> ds));; mret ap) s.
Proof.
  intros Hl Hf Hv. cbn [convert]. apply bind_ext; [|done]. unfold printptr. rewrite puts_app. cbn [bytes puts].
  rewrite bind_assoc. apply bind_ext; [done|]. intros _ s1. rewrite bind_assoc. apply bind_ext; [done|]. intros _ s2. rewrite (ptr_prints _ _ _ ds); [done|done|lia|done|lia].
Qed.

Lemma convert_str w c0 ap t s : str_text m w t -> (length t < strfuel)%nat ->
  convert putc m strfuel digits printint Str c0 (w :: ap) s = (puts putc t;; mret ap) s.
Proof.
  intros Ht Hl. simpl. apply bind_ext; [|done]. unfold printstr. destruct Ht as [[-> ->]|[Hne Hs]]; [done|].
  rewrite (proj2 (Z.eqb_neq w 0)) by done. by apply str_prints.
Qed.
End loops.

(** How many arguments the items take. *)
Definition takes_arg (i : item) : bool := match i with Lit _ | IPct | IUnk _ => false | _ => true end.
Definition nargs (l : list item) : nat := length (filter (fun i => takes_arg i = true) l).

Lemma puts_then {S} (putc : Z -> M S unit) a b {B} (k : M S B) s : (puts putc (a ++ b);; k) s = (puts putc a;; puts putc b;; k) s.
Proof. rewrite <- bind_assoc. apply bind_ext; [apply puts_app | done]. Qed.

(** The loop prints the items and goes on with the rest of the format. *)
Lemma kprintf_prefix {S} (consputc : Z -> M S unit) m strfuel items ap t r fuel s :
  Forall item_ok items -> renders KPrintf.digits 64 (fun wide w => if wide then i64 w else i32 w) m strfuel items ap t ->
  (length (fmt_of items ++ r) <= fuel)%nat ->
  KPrintf.printf_loop consputc m strfuel fuel (fmt_of items ++ r) ap s =
    (puts consputc t;; KPrintf.printf_loop consputc m strfuel (fuel - length items) r (drop (nargs items) ap)) s.
Proof.
  intros Hok Hr. revert fuel s Hok.
  assert (forall wide w base sign t s, 2 <= base -> num_text KPrintf.digits 64 (if wide : bool then i64 w else i32 w) base sign t -> (length t <= 16)%nat ->
    KPrintf.print_arg consputc wide w base sign s = puts consputc t s) as Hnum.
  { intros wide w base sign t' s Hb Ht Hl. unfold KPrintf.print_arg, KPrintf.printint. cbv zeta. unfold u64.
    erewrite num_prints; [done|done|lia| |done|done]. destruct wide; [apply i64_range|]. pose proof (i32_range w). lia. }
  induction Hr as [ap|c l ap t _ IH|ls k w l ap t1 t Ht Hlen _ IH|w l ap ds t Hds Hf Hv _ IH|w l ap t1 t Ht Hlen _ IH|l ap t _ IH|c l ap t _ IH]; intros fuel s Hok Hfuel.
  - cbn [fmt_of app puts length] in *. rewrite Nat.sub_0_r. done.
  - apply Forall_cons in Hok as [Hc Hok]. destruct fuel as [|fuel]; [simpl in Hfuel; lia|]. simpl. rewrite (proj2 (Z.eqb_neq c _)) by done. cbn [negb].
    rewrite bind_assoc. apply bind_ext; [done|]. intros _ s'. apply IH; [done | simpl in Hfuel; lia].
  - apply Forall_cons in Hok as [Hc Hok]. destruct fuel as [|fuel]; [simpl in Hfuel; lia|].
    destruct (conv_item ls k (fmt_of l ++ r) Hc) as (c0 & r0 & E & Hcv).
    replace (fmt_of (Cv ls k :: l) ++ r) with (chr "%" :: c0 :: r0) in * by (simpl; rewrite <- !app_assoc; by f_equal).
    cbn [KPrintf.printf_loop]. rewrite Z.eqb_refl. cbn [negb]. destruct (lookahead r0) as [c1 c2]. destruct Hcv as [-> Hd]. rewrite Hd, puts_then.
    assert (2 <= if k =? chr "x" then 16 else 10) as Hb by (destruct (k =? chr "x"); lia).
    etransitivity; [apply bind_ext; [by eapply (convert_num _ _ _ _ 64 (fun wide w => if wide then i64 w else i32 w)); [exact Hnum|exact Hb| |]|done]|].
    rewrite then_ret. apply bind_ext; [done|]. intros _ s'. apply IH; [done|]. apply (f_equal length) in Hd. rewrite length_drop in Hd. simpl in Hfuel. lia.
  - apply Forall_cons in Hok as [Hc Hok]. destruct fuel as [|fuel]; [simpl in Hfuel; lia|]. rewrite app_assoc, puts_then.
    etransitivity; [apply bind_ext; [by eapply convert_ptr|done]|]. rewrite then_ret. apply bind_ext; [done|]. intros _ s'. apply IH; [done | simpl in Hfuel; lia].
  - apply Forall_cons in Hok as [Hc Hok]. destruct fuel as [|fuel]; [simpl in Hfuel; lia|]. rewrite puts_then.
    etransitivity; [apply bind_ext; [by eapply convert_str|done]|]. rewrite then_ret. apply bind_ext; [done|]. intros _ s'. apply IH; [done | simpl in Hfuel; lia].
  - apply Forall_cons in Hok as [Hc Hok]. destruct fuel as [|fuel]; [simpl in Hfuel; lia|]. cbn [puts]. rewrite bind_assoc.
    etransitivity; [apply (then_ret (consputc (chr "%")) ap)|]. apply bind_ext; [done|]. intros _ s'. apply IH; [done | simpl in Hfuel; lia].
  - apply Forall_cons in Hok as [Hc Hok]. destruct fuel as [|fuel]; [simpl in Hfuel; lia|].
    change (fmt_of (IUnk c :: l) ++ r) with (chr "%" :: c :: (fmt_of l ++ r)) in *. cbn [KPrintf.printf_loop]. rewrite Z.eqb_refl. cbn [negb].
    destruct (lookahead (fmt_of l ++ r)) as [c1 c2]. rewrite conv_unknown by done. cbn [puts convert drop]. rewrite !bind_assoc.
    apply bind_ext; [done|]. intros _ s1. etransitivity; [apply (then_ret (consputc c) ap)|]. rewrite bind_assoc. apply bind_ext; [done|].
    intros _ s'. apply IH; [done | simpl in Hfuel; lia].
Qed.

Lemma kprintf_renders {S} (consputc : Z -> M S unit) m strfuel items ap t fuel s :
  Forall item_ok items -> renders KPrintf.digits 64 (fun wide w => if wide then i64 w else i32 w) m strfuel items ap t ->
  (length (fmt_of items) <= fuel)%nat ->
  KPrintf.printf_loop consputc m strfuel fuel (fmt_of items) ap s = puts consputc t s.
Proof.
  intros Hok Hr Hf. rewrite <- (app_nil_r (fmt_of items)). rewrite (kprintf_prefix consputc m strfuel items ap t [] fuel s Hok Hr) by (by rewrite app_nil_r).
  unfold mbind, M_bind. destruct (puts consputc t s) as [[] s'| | |]; [|done..]. by destruct (fuel - length items)%nat.
Qed.

Lemma uprintf_prefix {S} (write : Z -> list Z -> M S Z) m strfuel fd items ap t r fuel s :
  Forall item_ok items -> renders UPrintf.digits 32 (fun _ w => i32 w) m strfuel items ap t -> (r = [] \/ r = [chr "%"]) -> (length (fmt_of items ++ r) <= fuel)%nat ->
  UPrintf.vprintf_loop write m strfuel fuel fd (fmt_of items ++ r) ap false s = puts (UPrintf.putc write fd) t s.
Proof.
  intros Hok Hr Htail. revert fuel s Hok.
  assert (forall wide w base sign t s, 2 <= base -> num_text UPrintf.digits 32 (i32 w) base sign t -> (length t <= 16)%nat ->
    UPrintf.print_arg write fd wide w base sign s = puts (UPrintf.putc write fd) t s) as Hnum.
  { intros wide w base sign t' s Hb Ht Hl. unfold UPrintf.print_arg, UPrintf.printint. cbv zeta. unfold u32.
    erewrite num_prints; [done|done|lia| |done|done]. apply i32_range. }
  induction Hr as [ap|c l ap t _ IH|ls k w l ap t1 t Ht Hlen _ IH|w l ap ds t Hds Hf Hv _ IH|w l ap t1 t Ht Hlen _ IH|l ap t _ IH|c l ap t _ IH]; intros fuel s Hok Hfuel.
  - destruct Htail as [-> | ->]; [by destruct fuel|]. destruct fuel as [|fuel]; [simpl in Hfuel; lia|]. by destruct fuel.
  - apply Forall_cons in Hok as [Hc Hok]. destruct fuel as [|fuel]; [simpl in Hfuel; lia|]. simpl. rewrite (proj2 (Z.eqb_neq c _)) by done.
    apply bind_ext; [done|]. intros _ s'. apply IH; [done | simpl in Hfuel; lia].
  - apply Forall_cons in Hok as [Hc Hok]. destruct (conv_item ls k (fmt_of l ++ r) Hc) as (c0 & r0 & E & Hcv).
    replace (fmt_of (Cv ls k :: l) ++ r) with (chr "%" :: c0 :: r0) in * by (simpl; rewrite <- !app_assoc; by f_equal).
    destruct fuel as [|[|fuel]]; [simpl in Hfuel; lia..|]. cbn [UPrintf.vprintf_loop]. rewrite Z.eqb_refl. destruct (lookahead r0) as [c1 c2]. destruct Hcv as [-> Hd].
    rewrite Hd, puts_app. assert (2 <= if k =? chr "x" then 16 else 10) as Hb by (destruct (k =? chr "x"); lia).
    etransitivity; [apply bind_ext; [by eapply (convert_num _ _ _ _ 32 (fun _ w => i32 w)); [exact Hnum|exact Hb| |]|done]|].
    rewrite then_ret. apply bind_ext; [done|]. intros _ s'. apply IH; [done|]. apply (f_equal length) in Hd. rewrite length_drop in Hd. simpl in Hfuel. lia.
  - apply Forall_cons in Hok as [Hc Hok]. destruct fuel as [|[|fuel]]; [simpl in Hfuel; lia..|]. rewrite app_assoc, puts_app.
    etransitivity; [apply bind_ext; [by eapply convert_ptr|done]|]. rewrite then_ret. apply bind_ext; [done|]. intros _ s'. apply IH; [done | simpl in Hfuel; lia].
  - apply Forall_cons in Hok as [Hc Hok]. destruct fuel as [|[|fuel]]; [simpl in Hfuel; lia..|]. rewrite puts_app.
    etransitivity; [apply bind_ext; [by eapply convert_str|done]|]. rewrite then_ret. apply bind_ext; [done|]. intros _ s'. apply IH; [done | simpl in Hfuel; lia].
  - apply Forall_cons in Hok as [Hc Hok]. destruct fuel as [|[|fuel]]; [simpl in Hfuel; lia..|].
    etransitivity; [apply (then_ret (UPrintf.putc write fd (chr "%")) ap)|]. apply bind_ext; [done|]. intros _ s'. apply IH; [done | simpl in Hfuel; lia].
  - apply Forall_cons in Hok as [Hc Hok]. destruct fuel as [|[|fuel]]; [simpl in Hfuel; lia..|].
    change (fmt_of (IUnk c :: l) ++ r) with (chr "%" :: c :: (fmt_of l ++ r)) in *. cbn [UPrintf.vprintf_loop]. rewrite Z.eqb_refl.
    destruct (lookahead (fmt_of l ++ r)) as [c1 c2]. rewrite conv_unknown by done. cbn [puts convert drop]. rewrite !bind_assoc.
    apply bind_ext; [done|]. intros _ s1. etransitivity; [apply (then_ret (UPrintf.putc write fd c) ap)|]. apply bind_ext; [done|].
    intros _ s'. apply IH; [done | simpl in Hfuel; lia].
Qed.

Lemma uprintf_renders {S} (write : Z -> list Z -> M S Z) m strfuel fd items ap t fuel s :
  Forall item_ok items -> renders UPrintf.digits 32 (fun _ w => i32 w) m strfuel items ap t -> (length (fmt_of items) <= fuel)%nat ->
  UPrintf.vprintf_loop write m strfuel fuel fd (fmt_of items) ap false s = puts (UPrintf.putc write fd) t s.
Proof.
  intros Hok Hr Hf. rewrite <- (app_nil_r (fmt_of items)). apply uprintf_prefix; [done | done | by left | by rewrite app_nil_r].
Qed.

(** ** Reading numbers back *)

(** The characters of digits, as [atoi] sees them. *)
Lemma digit_code d : 0 <= d < 10 -> UPrintf.digits !!! Z.to_nat d = 48 + d.
Proof. intros Hd. assert (d = 0 \/ d = 1 \/ d = 2 \/ d = 3 \/ d = 4 \/ d = 5 \/ d = 6 \/ d = 7 \/ d = 8 \/ d = 9) as Hc by lia. by repeat destruct Hc as [->|Hc]; subst. Qed.

Lemma value_reverse base d l : value base (reverse (d :: l)) = value base (reverse l) + d * base ^ Z.of_nat (length l).
Proof.
  rewrite reverse_cons, <- length_reverse. generalize (reverse l). clear l. intros l. induction l as [|e l IH]; [simpl; lia|].
  cbn [app value foldr length]. fold (value base (l ++ [d])) (value base l). rewrite IH, Nat2Z.inj_succ, Z.pow_succ_r by lia. lia.
Qed.

Lemma atoi_digits m p ds n fuel : Forall (fun d => 0 <= d < 10) ds -> ULib.str_at m p ((fun d => UPrintf.digits !!! Z.to_nat d) <$> ds) -> (length ds < fuel)%nat ->
  0 <= n -> n * 10 ^ Z.of_nat (length ds) + value 10 (reverse ds) < 2 ^ 31 ->
  ULib.atoi_loop fuel m p n = Some (n * 10 ^ Z.of_nat (length ds) + value 10 (reverse ds)).
Proof.
  revert p n fuel. induction ds as [|d ds IH]; intros p n [|fuel] Hf Hs Hl Hn Hv; try (simpl in Hl; lia).
  - apply ULib.str_at_nil in Hs. simpl. rewrite Hs. simpl. f_equal. lia.
  - apply Forall_cons in Hf as [Hd Hf]. rewrite fmap_cons in Hs. apply ULib.str_at_cons in Hs as (Hc & _ & Hs). rewrite digit_code in Hc by done.
    rewrite value_reverse in Hv. cbn [length] in Hv, Hl. rewrite Nat2Z.inj_succ, Z.pow_succ_r in Hv by lia.
    assert (0 < 10 ^ Z.of_nat (length ds)) as Hp by (apply Z.pow_pos_nonneg; lia).
    assert (0 <= value 10 (reverse ds)) as Hnn by (apply value_nonneg; [lia | by apply Forall_reverse]).
    assert (n * 10 + d <= (n * 10 + d) * 10 ^ Z.of_nat (length ds)) as Hle by nia.
    cbn [ULib.atoi_loop]. rewrite Hc, (proj2 (Z.leb_le 48 _)), (proj2 (Z.leb_le _ 57)) by lia. cbn [andb].
    rewrite i32_small by lia. replace (n * 10 + (48 + d) - 48) with (n * 10 + d) by lia.
    rewrite (IH _ (n * 10 + d) fuel) by (done || lia). f_equal. rewrite value_reverse. cbn [length]. rewrite Nat2Z.inj_succ, Z.pow_succ_r by lia. lia.
Qed.

(** ** Properties *)

(** A sink that keeps what it is given. *)
Definition keep (c : Z) : M (list Z) unit := modify (fun out => out ++ [c]).
Definition keep_write (fd : Z) (bs : list Z) : M (list Z) Z := fun out => Ret (Z.of_nat (length bs)) (out ++ bs).

Lemma puts_keep t out : puts keep t out = Ret tt (out ++ t).
Proof. revert out. induction t as [|c t IH]; intros out; [by rewrite app_nil_r|]. simpl. unfold mbind, M_bind. simpl. by rewrite IH, <- app_assoc. Qed.
Lemma puts_keep_write fd t out : puts (UPrintf.putc keep_write fd) t out = Ret tt (out ++ t).
Proof. revert out. induction t as [|c t IH]; intros out; [by rewrite app_nil_r|]. simpl. unfold mbind, M_bind. simpl. by rewrite IH, <- app_assoc. Qed.

Lemma items_length items : (length items <= length (fmt_of items))%nat.
Proof. induction items as [|i l IH]; simpl; [done|]. rewrite length_app. destruct i; simpl; lia. Qed.


Definition demo_items : list item := [Lit (chr "x"); Lit (chr "="); Cv 0 (chr "d"); IUnk (chr "q")].


(** What the user library's ["%d"] prints for a non-negative [int], [atoi] reads back. *)
Theorem printf_atoi n strfuel ms out : 0 <= n < 2 ^ 31 -> exists t,
  UPrintf.printf keep_write ms strfuel (bytes "%d") [n] out = Ret tt (out ++ t) /\
  forall m p fuel, ULib.str_at m p t -> (length t < fuel)%nat -> ULib.atoi fuel m p = Some n.
Proof.
  intros Hn. destruct (numeral_exists 10 10 n) as (l & Hl & Hlen); [lia|lia|lia|].
  exists ((fun d => UPrintf.digits !!! Z.to_nat d) <$> reverse l). split.
  - unfold UPrintf.printf, UPrintf.vprintf. change (bytes "%d") with (fmt_of [Cv 0 (chr "d")]).
    rewrite (uprintf_renders keep_write ms strfuel 1 [Cv 0 (chr "d")] [n] ((fun d => UPrintf.digits !!! Z.to_nat d) <$> reverse l)); [apply puts_keep_write| | |done].
    + constructor; [|done]. split; [lia | by left].
    + rewrite <- (app_nil_r (_ <$> _)). apply r_num; [|rewrite length_fmap, length_reverse; lia|apply r_nil].
      exists l. rewrite i32_small, (proj2 (Z.ltb_ge n 0)), andb_false_r, Z.mod_small by lia. done.
  - intros m p fuel Hs Hf. rewrite length_fmap in Hf. destruct Hl as (Hd & Hv & _). unfold ULib.atoi.
    rewrite (atoi_digits m p (reverse l) 0 fuel); rewrite ?reverse_involutive, ?Hv; try done; try lia. by apply Forall_reverse.
Qed.

Lemma printf_atoi_witness : exists t, UPrintf.printf keep_write ∅ 0 (bytes "%d") [1234] [] = Ret tt t /\
  ULib.atoi 5 (wrn ∅ 100 (bytes "1234" ++ [0])) 100 = Some 1234.
Proof.
  destruct (printf_atoi 1234 0 ∅ [] ltac:(lia)) as (t & Ht & Hm). exists t. split; [exact Ht|].
  assert (t = bytes "1234") as -> by (revert Ht; vm_compute; congruence).
  apply Hm; [|by apply Nat.ltb_lt]. split_and!; [repeat constructor; done | by vm_compute | by vm_compute].
Defined.

(** The kernel's [printint] overruns its buffer of sixteen bytes exactly when a
    number has more: a non-negative value is printed if it is below [10^16] and not
    otherwise, so that ["%lu"] of [-1], which the trace of a failed system call
    prints, writes past the array. *)
Theorem printint_overflow xx out : 0 <= xx < 2 ^ 63 ->
  (xx < 10 ^ 16 -> exists t, KPrintf.printint keep xx 10 true out = Ret tt (out ++ t) /\ num_text KPrintf.digits 64 xx 10 true t) /\
  (10 ^ 16 <= xx -> KPrintf.printint keep xx 10 true out = Panic "undefined behaviour") /\
  KPrintf.printf_loop keep ∅ 0 3 (bytes "%lu") [2 ^ 64 - 1] out = Panic "undefined behaviour".
Proof.
  intros Hx. assert ((true && (xx <? 0)) = false) as Hneg by (rewrite (proj2 (Z.ltb_ge xx 0)) by lia; done).
  assert (xx mod 2 ^ 64 = xx) as Hmod by (apply Z.mod_small; lia). split_and!.
  - intros Hlt. destruct (numeral_exists 10 16 xx) as (l & Hl & Hlen); [lia|lia|lia|].
    exists ((fun d => KPrintf.digits !!! Z.to_nat d) <$> reverse l). assert (num_text KPrintf.digits 64 xx 10 true ((fun d => KPrintf.digits !!! Z.to_nat d) <$> reverse l)) as Ht.
    { exists l. by rewrite Hneg, Hmod. }
    split; [|done]. unfold KPrintf.printint. cbv zeta. unfold u64. erewrite num_prints; [apply puts_keep|lia|lia|lia|done|]. rewrite length_fmap, length_reverse. lia.
  - intros Hge. destruct (numeral_exists 10 64 xx) as (l & Hl & Hlen); [lia| |lia|].
    { split; [lia|]. etransitivity; [apply Hx|]. by vm_compute. }
    unfold KPrintf.printint. rewrite Hneg. unfold u64. rewrite Hmod, (fill_numeral _ 64 10 xx l) by (done || lia). rewrite app_nil_r.
    unfold put_buf. rewrite decide_True; [done|]. rewrite length_fmap. apply (numeral_length 10 xx); [lia|done|done].
  - by vm_compute.
Qed.

Lemma printint_overflow_witness : KPrintf.printint keep (10 ^ 16) 10 true [] = Panic "undefined behaviour".
Proof. apply (printint_overflow (10 ^ 16) []); lia. Defined.
