(* ===== verification/SysArgs.v ===== *)
(** * SysArgs: the arguments of system calls, [fetchaddr] to [argstr] of [kernel/syscall.c]

    The state of the kernel as the system calls see it: open files over everything
    below, the clock, and the characters printed on the console.  A pointer to a
    variable of the caller is the address of that variable where its bytes matter
    ([fetchaddr], [fetchstr]), and the value read otherwise. *)

From S2P Require Import Prelude CString Riscv Kalloc Vm Pipe Txn Proc Fs File Lifecycle Printf.
Import KString.

Section SysArgs.
Context {T : Type} `{Txn T} {D : Type}.
Notation fstate := (@fstate T D).

Record kstate := KState {
  ks_f : fstate;
  ks_ticks : Z;
  ks_tickslock : spin;
  ks_out : list Z
}.

Definition ksfL : lens kstate fstate := Lens ks_f (fun f s => KState f (ks_ticks s) (ks_tickslock s) (ks_out s)).
Definition tickslockL : lens kstate spin := Lens ks_tickslock (fun l s => KState (ks_f s) (ks_ticks s) l (ks_out s)).
Definition outL : lens kstate (list Z) := Lens ks_out (fun o s => KState (ks_f s) (ks_ticks s) (ks_tickslock s) o).

Definition in_f {A} (m : M fstate A) : M kstate A := zoom ksfL m.
Definition k_proc {A} (m : M kproc A) : M kstate A := in_f (in_proc m).
Definition k_mem {A} (m : M kmem A) : M kstate A := in_f (in_mem m).
Definition k_fs {A} (m : M (fsys T) A) : M kstate A := in_f (in_fs m).

(** The kernel's memory. *)
Definition kmemory (s : kstate) : mem := kmem_mem (km (f_k (fs_sys (ks_f s)))).

(** [printf] on the console, with the strings it is given at their addresses. *)
Definition kprintf (fmt ap : list Z) (strs : list (Z * list Z)) : M kstate unit :=
  m ← gets kmemory;
  let m := foldr (fun x m => wrn m x.1 (x.2 ++ [0])) m strs in
  zoom outL (KPrintf.printf_loop keep m 256 (length fmt) fmt ap).

(** The address of [*ip] in [fetchaddr]. *)
Variable ip_addr : Z.

Definition fetchaddr (addr : Z) : M kstate (option Z) :=
  p ← k_proc me;
  sz ← k_proc (pget p p_sz);
  if (sz <=? addr) || (sz <? u64 (addr + 8)) then mret None else
  pt ← k_proc (pget p p_pagetable);
  r ← k_mem (copyin pt ip_addr addr 8);
  if negb (r =? 0) then mret None else
  v ← gets (fun s => ld64 (kmemory s) ip_addr);
  mret (Some v).

(** [strlen(buf)] of a string of at most [max] characters. *)
Definition kstrlen (buf max : Z) : M kstate Z := fun s =>
  match strlen (S (Z.to_nat max)) (kmemory s) buf with Some n => Ret (i32 n) s | None => NoFuel end.

Definition fetchstr (addr buf max : Z) : M kstate Z :=
  p ← k_proc me;
  pt ← k_proc (pget p p_pagetable);
  r ← k_mem (copyinstr pt buf addr max);
  if r <? 0 then mret (-1) else
  kstrlen buf max.

Definition argraw (n : Z) : M kstate Z :=
  p ← k_proc me;
  tf ← k_proc (pget p p_trapframe);
  if (0 <=? n) && (n <=? 5) then k_mem (ldq (tf + tf_a0 + 8 * n)) else panic "argraw".

Definition argint (n : Z) : M kstate Z := x ← argraw n; mret (i32 x).
Definition argaddr (n : Z) : M kstate Z := argraw n.
Definition argstr (n buf max : Z) : M kstate Z := addr ← argaddr n; fetchstr addr buf max.

(** The string [argstr] left at [buf]. *)
Definition str_of (buf max : Z) : M kstate (list Z) := gets (fun s => cstr (kmemory s) buf (Z.to_nat max)).

(** [sleep(chan, lk)] up to the switch to the scheduler. *)
Definition ksleep {A} (p : nat) (chan : Z) (lk : lens kstate spin) : M kstate A :=
  k_proc (acquire (proc_lockL p));;
  release lk;;
  k_proc (pupd p (setp_chan chan));;
  k_proc (pupd p (setp_state SLEEPING));;
  in_f (sched_ p).

End SysArgs.
