(* ===== verification/SysProc.v ===== *)
(** * SysProc: the system calls of [kernel/sysproc.c]

    Each [sys_] routine fetches its arguments from the trapframe and calls the
    routine that does the work; its result is what the process finds in [a0]. *)

From S2P Require Import Prelude CString Riscv Kalloc Vm Pipe Txn Proc Fs File Lifecycle SysArgs.

Section SysProc.
Context {T : Type} `{Txn T} {D : Type}.
Variables kend trampoline forkret_addr proc_base ticks_addr info_addr : Z.
Notation kstate := (@kstate T D).

Definition sys_exit : M kstate Z :=
  n ← argint 0;
  in_f (exit kend proc_base n);;
  mret 0.

Definition sys_getpid : M kstate Z := p ← k_proc me; k_proc (pget p p_pid).

Definition sys_fork : M kstate Z := in_f (fork kend trampoline forkret_addr).

Definition sys_wait : M kstate Z := p ← argaddr 0; in_f (wait kend proc_base p).

Definition sys_sbrk : M kstate Z :=
  n ← argint 0;
  p ← k_proc me;
  addr ← k_proc (pget p p_sz);
  r ← k_proc (growproc kend n);
  if r <? 0 then mret (-1) else mret addr.

(** The loop of [sys_sleep], with [tickslock] held; a process that sleeps starts the
    next round when it is woken. *)
Definition sleep_round (ticks0 n : Z) : M kstate Z :=
  t ← gets ks_ticks;
  if u32 (t - ticks0) <? n then
    p ← k_proc me;
    k ← k_proc (killed p);
    if negb (k =? 0) then release tickslockL;; mret (-1) else
    ksleep p ticks_addr tickslockL
  else release tickslockL;; mret 0.

Definition sys_sleep : M kstate Z :=
  n ← argint 0;
  let n := if n <? 0 then 0 else n in
  acquire tickslockL;;
  ticks0 ← gets ks_ticks;
  sleep_round ticks0 n.

Definition sys_kill : M kstate Z := pid ← argint 0; k_proc (Proc.kill pid).

Definition sys_uptime : M kstate Z :=
  acquire tickslockL;;
  xticks ← gets ks_ticks;
  release tickslockL;;
  mret xticks.

Definition sys_hello : M kstate Z := kprintf (bytes "Hello, world! " ++ [10]) [] [];; mret 0.

Definition sys_trace : M kstate Z :=
  mask ← argint 0;
  if mask <? 0 then mret (-1) else
  p ← k_proc me;
  k_proc (pupd p (setp_trace_mask mask));;
  mret 0.

(** [struct sysinfo]: three [int]s. *)
Definition sizeof_sysinfo : Z := 12.
Definition put_sysinfo (a fm np nf : Z) (m : mem) : mem := wrn m a (le_split 4 fm ++ le_split 4 np ++ le_split 4 nf).

Definition sysinfo (addr : Z) : M kstate Z :=
  p ← k_proc me;
  fm ← k_mem freemem;
  np ← k_proc nproc;
  nf ← in_f fileopencount;
  pt ← k_proc (pget p p_pagetable);
  k_mem (do_mem (put_sysinfo info_addr fm np nf));;
  r ← k_mem (copyout pt addr info_addr sizeof_sysinfo);
  if r <? 0 then mret (-1) else mret 0.

Definition sys_sysinfo : M kstate Z :=
  info ← argaddr 0;
  if info <? 0 then mret 1 else sysinfo info.

End SysProc.
