(* ===== verification/Exec.v ===== *)
(** * Exec: running a program file, [kernel/exec.c]

    [exec] builds a new address space from an ELF file, copies the arguments to its
    stack and makes it the process's own; on any error it takes back what it built.
    The local variables whose bytes are read from the file or copied to user memory
    ([elf], [ph], [ustack]) are at parameter addresses; the argument strings are in
    kernel memory. *)

From S2P Require Import Prelude CString Riscv Kalloc Vm Pipe BufCache Txn Proc Fs File Lifecycle.
Import KString.

Definition MAXARG : nat := 32.
Definition USERSTACK : Z := 1.

(** The fields of [struct elfhdr] and [struct proghdr] that are used. *)
Definition ELF_MAGIC : Z := 1179403647.     (* 0x464C457F *)
Definition ELF_PROG_LOAD : Z := 1.
Definition sizeof_elfhdr : Z := 64.
Definition sizeof_proghdr : Z := 56.
Record elfhdr := ElfHdr { e_magic : Z; e_entry : Z; e_phoff : Z; e_phnum : Z }.
Record proghdr := ProgHdr { ph_type : Z; ph_flags : Z; ph_off : Z; ph_vaddr : Z; ph_filesz : Z; ph_memsz : Z }.

Definition field (m : mem) (a : Z) (n : nat) : Z := le_join (rdn m a n).
Definition get_elfhdr (m : mem) (a : Z) : elfhdr := ElfHdr (field m a 4) (field m (a + 24) 8) (field m (a + 32) 8) (field m (a + 56) 2).
Definition get_proghdr (m : mem) (a : Z) : proghdr :=
  ProgHdr (field m a 4) (field m (a + 4) 4) (field m (a + 8) 8) (field m (a + 16) 8) (field m (a + 32) 8) (field m (a + 40) 8).

Definition flags2perm (flags : Z) : Z :=
  let perm := if has flags 1 then PTE_X else 0 in
  if has flags 2 then Z.lor perm PTE_W else perm.

(** [for(last=s=path; *s; s++) if( *s == '/' ) last = s+1;] *)
Fixpoint last_elem (last path : list Z) : list Z :=
  match path with
  | [] => last
  | c :: s => last_elem (if c =? SLASH then s else last) s
  end.

Section Exec.
Context {T : Type} `{Txn T} {D : Type}.
Variables kend trampoline : Z.
Variable buf_addr : nat -> Z.
Variables de_addr elf_addr ph_addr ustack_addr : Z.
Notation fstate := (@fstate T D).

Definition fmemory (s : fstate) : mem := kmem_mem (km (f_k (fs_sys s))).

Fixpoint loadseg_loop (fuel : nat) (pagetable va : Z) (ip : nat) (offset sz i : Z) : M fstate Z :=
  match fuel with
  | O => fun _ => NoFuel
  | S fuel =>
    if i <? sz then
      pa ← in_mem (walkaddr pagetable (u64 (va + i)));
      if pa =? 0 then panic "loadseg: address should exist" else
      let n := if u32 (sz - i) <? PGSIZE then u32 (sz - i) else PGSIZE in
      r ← in_fs (readi buf_addr ip false pa (u32 (offset + i)) n);
      if negb (r =? n) then mret (-1) else
      loadseg_loop fuel pagetable va ip offset sz (u32 (i + PGSIZE))
    else mret 0
  end.
(** One round per page and a last test. *)
Definition loadseg (pagetable va : Z) (ip : nat) (offset sz : Z) : M fstate Z :=
  loadseg_loop (S (S (Z.to_nat (sz / PGSIZE)))) pagetable va ip offset sz 0.

(** [bad:], with the new page table, if there is one, and the inode, if it is still held. *)
Definition exec_bad (pagetable sz : Z) (ip : option nat) : M fstate Z :=
  when (negb (pagetable =? 0)) (in_proc (proc_freepagetable kend pagetable sz));;
  match ip with
  | Some ip => in_fs (iunlockput ip);; end_op_
  | None => mret tt
  end;;
  mret (-1).

(** The loop over the program headers: the size reached, and whether there was no error. *)
Fixpoint load_loop (fuel : nat) (pagetable : Z) (ip : nat) (phnum i off sz : Z) : M fstate (bool * Z) :=
  match fuel with
  | O => fun _ => NoFuel
  | S fuel =>
    if i <? phnum then
      r ← in_fs (readi buf_addr ip false ph_addr (u32 off) sizeof_proghdr);
      if negb (r =? sizeof_proghdr) then mret (false, sz) else
      ph ← gets (fun s => get_proghdr (fmemory s) ph_addr);
      let next := load_loop fuel pagetable ip phnum (i + 1) (i32 (off + sizeof_proghdr)) in
      if negb (ph_type ph =? ELF_PROG_LOAD) then next sz else
      if ph_memsz ph <? ph_filesz ph then mret (false, sz) else
      if u64 (ph_vaddr ph + ph_memsz ph) <? ph_vaddr ph then mret (false, sz) else
      if negb (ph_vaddr ph mod PGSIZE =? 0) then mret (false, sz) else
      sz1 ← in_mem (uvmalloc kend pagetable sz (u64 (ph_vaddr ph + ph_memsz ph)) (flags2perm (ph_flags ph)));
      if sz1 =? 0 then mret (false, sz) else
      l ← loadseg pagetable (ph_vaddr ph) ip (u32 (ph_off ph)) (u32 (ph_filesz ph));
      if l <? 0 then mret (false, sz1) else
      next sz1
    else mret (true, sz)
  end.

(** [strlen] of an argument, which fits a page. *)
Definition arg_len (a : Z) : M fstate Z := fun s =>
  match strlen (S (Z.to_nat PGSIZE)) (fmemory s) a with Some n => Ret n s | None => NoFuel end.

(** The loop that pushes the argument strings: the final [sp] and [ustack], or nothing. *)
Fixpoint push_args (fuel : nat) (pagetable stackbase : Z) (argv : list Z) (argc : nat) (sp : Z) (ustack : list Z)
    : M fstate (option (Z * list Z)) :=
  match fuel with
  | O => fun _ => NoFuel
  | S fuel =>
    match argv !! argc with
    | None => undefined
    | Some a =>
      if a =? 0 then mret (Some (sp, ustack)) else
      if decide (MAXARG <= argc)%nat then mret None else
      n ← arg_len a;
      let sp := u64 (sp - (n + 1)) in
      let sp := sp - sp mod 16 in
      if sp <? stackbase then mret None else
      r ← in_mem (copyout pagetable sp a (n + 1));
      if r <? 0 then mret None else
      push_args fuel pagetable stackbase argv (S argc) sp (ustack ++ [sp])
    end
  end.

(** From the end of the loading loop: the stack, the arguments and the switch to the
    new image. *)
Definition exec_image (p : nat) (path argv : list Z) (entry pagetable sz : Z) : M fstate Z :=
  oldsz ← in_proc (pget p p_sz);
  let sz := PGROUNDUP sz in
  sz1 ← in_mem (uvmalloc kend pagetable sz (u64 (sz + (USERSTACK + 1) * PGSIZE)) PTE_W);
  if sz1 =? 0 then exec_bad pagetable sz None else
  let sz := sz1 in
  in_mem (uvmclear pagetable (u64 (sz - (USERSTACK + 1) * PGSIZE)));;
  let stackbase := u64 (sz - USERSTACK * PGSIZE) in
  r ← push_args (S (S MAXARG)) pagetable stackbase argv 0 sz [];
  match r with
  | None => exec_bad pagetable sz None
  | Some (sp, ustack) =>
    let argc := length ustack in
    if decide (MAXARG <= argc)%nat then undefined else
    let sp := u64 (sp - (Z.of_nat argc + 1) * 8) in
    let sp := sp - sp mod 16 in
    if sp <? stackbase then exec_bad pagetable sz None else
    in_mem (do_mem (fun m => wrn m ustack_addr (concat (le_split 8 <$> ustack ++ [0]))));;
    r ← in_mem (copyout pagetable sp ustack_addr ((Z.of_nat argc + 1) * 8));
    if r <? 0 then exec_bad pagetable sz None else
    tf ← in_proc (pget p p_trapframe);
    in_mem (stq (tf + tf_a1) sp);;
    in_proc (pupd p (fun q => setp_name (safestrcpy_l 15 (p_name q) (last_elem path path ++ [0])) q));;
    oldpagetable ← in_proc (pget p p_pagetable);
    in_proc (pupd p (setp_pagetable pagetable));;
    in_proc (pupd p (setp_sz sz));;
    in_mem (stq (tf + tf_epc) entry);;
    in_mem (stq (tf + tf_sp) sp);;
    in_proc (proc_freepagetable kend oldpagetable oldsz);;
    mret (Z.of_nat argc)
  end.

Definition exec (path argv : list Z) : M fstate Z :=
  p ← in_proc me;
  begin_op_;;
  r ← in_fs (namei buf_addr de_addr path);
  match r with
  | None => end_op_;; mret (-1)
  | Some ip =>
    in_fs (ilock (Some ip));;
    r ← in_fs (readi buf_addr ip false elf_addr 0 sizeof_elfhdr);
    if negb (r =? sizeof_elfhdr) then exec_bad 0 0 (Some ip) else
    elf ← gets (fun s => get_elfhdr (fmemory s) elf_addr);
    if negb (e_magic elf =? ELF_MAGIC) then exec_bad 0 0 (Some ip) else
    pagetable ← in_proc (proc_pagetable kend trampoline p);
    if pagetable =? 0 then exec_bad 0 0 (Some ip) else
    '(ok, sz) ← load_loop (S (Z.to_nat (e_phnum elf))) pagetable ip (e_phnum elf) 0 (i32 (e_phoff elf)) 0;
    if negb (ok : bool) then exec_bad pagetable sz (Some ip) else
    in_fs (iunlockput ip);;
    end_op_;;
    exec_image p path argv (e_entry elf) pagetable sz
  end.

End Exec.
