(* ===== verification/SysFile.v ===== *)
(** * SysFile: the system calls on files, [kernel/sysfile.c]

    A file descriptor is an index of the process's [ofile].  Paths are read into
    buffers at parameter addresses.  [argfd] gives the descriptor and the file, or
    nothing where it returns -1. *)

From S2P Require Import Prelude CString Riscv Kalloc Vm Pipe BufCache Txn Proc Fs File Lifecycle Exec SysArgs.
Import KString.

Definition MAXPATH : Z := 128.
Definition O_RDONLY : Z := 0.
Definition O_WRONLY : Z := 1.
Definition O_RDWR : Z := 2.
Definition O_CREATE : Z := 512.
Definition O_TRUNC : Z := 1024.

Definition DOT : list Z := [46].
Definition DOTDOT : list Z := [46; 46].

Section SysFile.
Context {T : Type} `{Txn T} {D : Type}.
Variables kend trampoline : Z.
Variable buf_addr : nat -> Z.
Variables de_addr st_addr ch_addr elf_addr ph_addr ustack_addr ip_addr : Z.
(** The path buffers of a system call, and [fd0] and [fd1] of [sys_pipe]. *)
Variables path_addr new_addr fd_addr : Z.
Notation kstate := (@kstate T D).
Variables dev_read dev_write : Z -> option (Z -> Z -> Z -> M (@fstate T D) Z).

Definition kbegin_op : M kstate unit := in_f begin_op_.
Definition kend_op : M kstate unit := in_f end_op_.

Definition argfd (n : Z) : M kstate (option (nat * nat)) :=
  fd ← argint n;
  if (fd <? 0) || (Z.of_nat NOFILE <=? fd) then mret None else
  p ← k_proc me;
  files ← k_proc (pget p p_ofile);
  match files !! Z.to_nat fd with
  | None => undefined
  | Some None => mret None
  | Some (Some f) => mret (Some (Z.to_nat fd, f))
  end.

(** [p->ofile[fd] = f] *)
Definition set_ofile (p fd : nat) (f : option nat) : M kstate unit :=
  k_proc (pupd p (fun q => setp_ofile (<[fd := f]> (p_ofile q)) q)).

Definition fdalloc (f : nat) : M kstate Z :=
  p ← k_proc me;
  r ← for_each (seq 0 NOFILE) (fun fd =>
    files ← k_proc (pget p p_ofile);
    match files !! fd with
    | None => undefined
    | Some None => set_ofile p fd (Some f);; mret (Some (Z.of_nat fd))
    | Some (Some _) => mret None
    end);
  mret (default (-1) r).

Definition sys_dup : M kstate Z :=
  r ← argfd 0;
  match r with
  | None => mret (-1)
  | Some (_, f) =>
    fd ← fdalloc f;
    if fd <? 0 then mret (-1) else
    in_f (filedup f);;
    mret fd
  end.

Definition sys_read : M kstate Z :=
  p ← argaddr 1;
  n ← argint 2;
  r ← argfd 0;
  match r with
  | None => mret (-1)
  | Some (_, f) => in_f (fileread buf_addr ch_addr dev_read f p n)
  end.

Definition sys_write : M kstate Z :=
  p ← argaddr 1;
  n ← argint 2;
  r ← argfd 0;
  match r with
  | None => mret (-1)
  | Some (_, f) => in_f (filewrite buf_addr ch_addr dev_write f p n)
  end.

Definition sys_close : M kstate Z :=
  r ← argfd 0;
  match r with
  | None => mret (-1)
  | Some (fd, f) =>
    p ← k_proc me;
    set_ofile p fd None;;
    in_f (fileclose kend f);;
    mret 0
  end.

Definition sys_fstat : M kstate Z :=
  st ← argaddr 1;
  r ← argfd 0;
  match r with
  | None => mret (-1)
  | Some (_, f) => in_f (filestat st_addr f st)
  end.

(** [ip->field], [ip->field = v] *)
Definition kiget {A} (ip : nat) (f : inode -> A) : M kstate A := k_fs (iget_f ip f).
Definition kiupd (ip : nat) (f : inode -> inode) : M kstate unit := k_fs (iupd ip f).
Definition add_nlink (ip : nat) (d : Z) : M kstate unit :=
  kiupd ip (fun i => seti_nlink (i16 (i_nlink i + d)) i);;
  k_fs (iupdate ip).

(** [bad:] of [sys_link]. *)
Definition link_bad (ip : nat) : M kstate Z :=
  k_fs (ilock (Some ip));;
  add_nlink ip (-1);;
  k_fs (iunlockput ip);;
  kend_op;;
  mret (-1).

(** [sys_link] once the link count of [ip] is raised. *)
Definition link_entry (ip : nat) (new : list Z) : M kstate Z :=
  r ← k_fs (nameiparent buf_addr de_addr new);
  match r with
  | None => link_bad ip
  | Some (dp, name) =>
    k_fs (ilock (Some dp));;
    d1 ← kiget dp i_dev;
    d2 ← kiget ip i_dev;
    inum ← kiget ip i_inum;
    l ← (if negb (d1 =? d2) then mret (-1) else k_fs (dirlink buf_addr de_addr dp name inum));
    if l <? 0 then
      k_fs (iunlockput dp);;
      link_bad ip
    else
    k_fs (iunlockput dp);;
    k_fs (iput ip);;
    kend_op;;
    mret 0
  end.

Definition sys_link : M kstate Z :=
  r ← argstr 0 path_addr MAXPATH;
  if r <? 0 then mret (-1) else
  r ← argstr 1 new_addr MAXPATH;
  if r <? 0 then mret (-1) else
  old ← str_of path_addr MAXPATH;
  new ← str_of new_addr MAXPATH;
  kbegin_op;;
  r ← k_fs (namei buf_addr de_addr old);
  match r with
  | None => kend_op;; mret (-1)
  | Some ip =>
    k_fs (ilock (Some ip));;
    type ← kiget ip i_type;
    if type =? T_DIR then
      k_fs (iunlockput ip);;
      kend_op;;
      mret (-1)
    else
    add_nlink ip 1;;
    k_fs (iunlock (Some ip));;
    link_entry ip new
  end.

Fixpoint isdirempty_loop (fuel : nat) (dp : nat) (off : Z) : M kstate bool :=
  match fuel with
  | O => fun _ => NoFuel
  | S fuel =>
    size ← kiget dp i_size;
    if off <? size then
      bad ← k_fs (read_de buf_addr de_addr dp off);
      if (bad : bool) then panic "isdirempty: readi" else
      inum ← k_fs (de_inum de_addr);
      if negb (inum =? 0) then mret false else isdirempty_loop fuel dp (off + sizeof_dirent)
    else mret true
  end.
Definition isdirempty (dp : nat) : M kstate bool :=
  size ← kiget dp i_size;
  isdirempty_loop (dir_rounds size) dp (2 * sizeof_dirent).

(** [bad:] of [sys_unlink]. *)
Definition unlink_bad (dp : nat) : M kstate Z :=
  k_fs (iunlockput dp);;
  kend_op;;
  mret (-1).

(** [sys_unlink] with the entry found at [off] of [dp] for [ip], which is locked. *)
Definition unlink_entry (dp ip : nat) (off : Z) : M kstate Z :=
  k_fs (set_de de_addr 0 []);;
  w ← k_fs (writei buf_addr dp false de_addr off sizeof_dirent);
  if negb (w =? sizeof_dirent) then panic "unlink: writei" else
  type ← kiget ip i_type;
  when (type =? T_DIR) (add_nlink dp (-1));;
  k_fs (iunlockput dp);;
  add_nlink ip (-1);;
  k_fs (iunlockput ip);;
  kend_op;;
  mret 0.

Definition sys_unlink : M kstate Z :=
  r ← argstr 0 path_addr MAXPATH;
  if r <? 0 then mret (-1) else
  path ← str_of path_addr MAXPATH;
  kbegin_op;;
  r ← k_fs (nameiparent buf_addr de_addr path);
  match r with
  | None => kend_op;; mret (-1)
  | Some (dp, name) =>
    k_fs (ilock (Some dp));;
    if (namecmp name DOT =? 0) || (namecmp name DOTDOT =? 0) then unlink_bad dp else
    found ← k_fs (dirlookup buf_addr de_addr dp name);
    match found with
    | None => unlink_bad dp
    | Some (ip, off) =>
      k_fs (ilock (Some ip));;
      nlink ← kiget ip i_nlink;
      if nlink <? 1 then panic "unlink: nlink < 1" else
      type ← kiget ip i_type;
      empty ← (if type =? T_DIR then isdirempty ip else mret true);
      if negb (empty : bool) then
        k_fs (iunlockput ip);;
        unlink_bad dp
      else unlink_entry dp ip off
    end
  end.

(** [fail:] of [create]. *)
Definition create_fail (dp ip : nat) : M kstate (option nat) :=
  kiupd ip (seti_nlink 0);;
  k_fs (iupdate ip);;
  k_fs (iunlockput ip);;
  k_fs (iunlockput dp);;
  mret None.

(** [create] with a new inode [ip], locked, for [name] in [dp]. *)
Definition create_entry (dp ip : nat) (name : list Z) (type major minor : Z) : M kstate (option nat) :=
  kiupd ip (seti_major (i16 major));;
  kiupd ip (seti_minor (i16 minor));;
  kiupd ip (seti_nlink 1);;
  k_fs (iupdate ip);;
  inum ← kiget ip i_inum;
  pinum ← kiget dp i_inum;
  d ← (if type =? T_DIR then
         d ← k_fs (dirlink buf_addr de_addr ip DOT inum);
         if d <? 0 then mret d else k_fs (dirlink buf_addr de_addr ip DOTDOT pinum)
       else mret 0);
  if d <? 0 then create_fail dp ip else
  d ← k_fs (dirlink buf_addr de_addr dp name inum);
  if d <? 0 then create_fail dp ip else
  when (type =? T_DIR) (add_nlink dp 1);;
  k_fs (iunlockput dp);;
  mret (Some ip).

Definition create (path : list Z) (type major minor : Z) : M kstate (option nat) :=
  r ← k_fs (nameiparent buf_addr de_addr path);
  match r with
  | None => mret None
  | Some (dp, name) =>
    k_fs (ilock (Some dp));;
    found ← k_fs (dirlookup buf_addr de_addr dp name);
    match found with
    | Some (ip, _) =>
      k_fs (iunlockput dp);;
      k_fs (ilock (Some ip));;
      t ← kiget ip i_type;
      if (type =? T_FILE) && ((t =? T_FILE) || (t =? T_DEVICE)) then mret (Some ip) else
      k_fs (iunlockput ip);;
      mret None
    | None =>
      dv ← kiget dp i_dev;
      r ← k_fs (ialloc dv type);
      match r with
      | None => k_fs (iunlockput dp);; mret None
      | Some ip =>
        k_fs (ilock (Some ip));;
        create_entry dp ip name type major minor
      end
    end
  end.

(** An exit of [sys_open] that gives the inode back. *)
Definition open_fail (ip : nat) : M kstate Z :=
  k_fs (iunlockput ip);;
  kend_op;;
  mret (-1).

(** [sys_open] with the inode found or created, and locked. *)
Definition open_inode (ip : nat) (omode : Z) : M kstate Z :=
  type ← kiget ip i_type;
  major ← kiget ip i_major;
  if (type =? T_DEVICE) && ((major <? 0) || (NDEV <=? major)) then open_fail ip else
  r ← in_f filealloc;
  match r with
  | None => open_fail ip
  | Some f =>
    fd ← fdalloc f;
    if fd <? 0 then in_f (fileclose kend f);; open_fail ip else
    (if type =? T_DEVICE then in_f (flupd f (fun x => setl_major major (setl_type FD_DEVICE x)))
     else in_f (flupd f (fun x => setl_off 0 (setl_type FD_INODE x))));;
    in_f (flupd f (setl_ip (Some ip)));;
    in_f (flupd f (setl_readable (negb (has omode O_WRONLY))));;
    in_f (flupd f (setl_writable (has omode O_WRONLY || has omode O_RDWR)));;
    when (has omode O_TRUNC && (type =? T_FILE)) (k_fs (itrunc ip));;
    k_fs (iunlock (Some ip));;
    kend_op;;
    mret fd
  end.

Definition sys_open : M kstate Z :=
  omode ← argint 1;
  n ← argstr 0 path_addr MAXPATH;
  if n <? 0 then mret (-1) else
  path ← str_of path_addr MAXPATH;
  kbegin_op;;
  if has omode O_CREATE then
    r ← create path T_FILE 0 0;
    match r with
    | None => kend_op;; mret (-1)
    | Some ip => open_inode ip omode
    end
  else
    r ← k_fs (namei buf_addr de_addr path);
    match r with
    | None => kend_op;; mret (-1)
    | Some ip =>
      k_fs (ilock (Some ip));;
      type ← kiget ip i_type;
      if (type =? T_DIR) && negb (omode =? O_RDONLY) then open_fail ip else
      open_inode ip omode
    end.

(** The common end of [sys_mkdir] and [sys_mknod]. *)
Definition made (r : option nat) : M kstate Z :=
  match r with
  | None => kend_op;; mret (-1)
  | Some ip =>
    k_fs (iunlockput ip);;
    kend_op;;
    mret 0
  end.

Definition sys_mkdir : M kstate Z :=
  kbegin_op;;
  n ← argstr 0 path_addr MAXPATH;
  if n <? 0 then made None else
  path ← str_of path_addr MAXPATH;
  r ← create path T_DIR 0 0;
  made r.

Definition sys_mknod : M kstate Z :=
  kbegin_op;;
  major ← argint 1;
  minor ← argint 2;
  n ← argstr 0 path_addr MAXPATH;
  if n <? 0 then made None else
  path ← str_of path_addr MAXPATH;
  r ← create path T_DEVICE (i16 major) (i16 minor);
  made r.

Definition sys_chdir : M kstate Z :=
  p ← k_proc me;
  kbegin_op;;
  n ← argstr 0 path_addr MAXPATH;
  if n <? 0 then kend_op;; mret (-1) else
  path ← str_of path_addr MAXPATH;
  r ← k_fs (namei buf_addr de_addr path);
  match r with
  | None => kend_op;; mret (-1)
  | Some ip =>
    k_fs (ilock (Some ip));;
    type ← kiget ip i_type;
    if negb (type =? T_DIR) then
      k_fs (iunlockput ip);;
      kend_op;;
      mret (-1)
    else
    k_fs (iunlock (Some ip));;
    cwd ← k_proc (pget p p_cwd);
    in_f (iput_ cwd);;
    kend_op;;
    k_proc (pupd p (setp_cwd (Some ip)));;
    mret 0
  end.

(** [for(i = 0; i < NELEM(argv) && argv[i] != 0; i++) kfree(argv[i]);] *)
Fixpoint free_argv (argv : list Z) : M kstate unit :=
  match argv with
  | [] => mret tt
  | a :: argv => if a =? 0 then mret tt else k_mem (kfree kend a);; free_argv argv
  end.

(** The loop that fetches the arguments: [argv], and whether it got to the end. *)
Fixpoint fetch_argv (fuel : nat) (uargv : Z) (argv : list Z) (i : nat) : M kstate (bool * list Z) :=
  match fuel with
  | O => fun _ => NoFuel
  | S fuel =>
    if decide (MAXARG <= i)%nat then mret (false, argv) else
    r ← fetchaddr ip_addr (u64 (uargv + 8 * Z.of_nat i));
    match r with
    | None => mret (false, argv)
    | Some uarg =>
      if uarg =? 0 then mret (true, <[i := 0]> argv) else
      a ← k_mem kalloc;
      let argv := <[i := a]> argv in
      if a =? 0 then mret (false, argv) else
      n ← fetchstr uarg a PGSIZE;
      if n <? 0 then mret (false, argv) else
      fetch_argv fuel uargv argv (S i)
    end
  end.

Definition sys_exec : M kstate Z :=
  uargv ← argaddr 1;
  n ← argstr 0 path_addr MAXPATH;
  if n <? 0 then mret (-1) else
  path ← str_of path_addr MAXPATH;
  '(ok, argv) ← fetch_argv (S MAXARG) uargv (replicate MAXARG 0) 0;
  if negb (ok : bool) then free_argv argv;; mret (-1) else
  ret ← in_f (exec kend trampoline buf_addr de_addr elf_addr ph_addr ustack_addr path argv);
  free_argv argv;;
  mret ret.

(** The errors of [sys_pipe]: descriptors cleared, both ends closed. *)
Definition pipe_fail (p : nat) (fds : list Z) (rf wf : nat) : M kstate Z :=
  for_each (R := unit) fds (fun fd => set_ofile p (Z.to_nat fd) None;; mret None);;
  in_f (fileclose kend rf);;
  in_f (fileclose kend wf);;
  mret (-1).

Definition sys_pipe : M kstate Z :=
  p ← k_proc me;
  fdarray ← argaddr 0;
  r ← in_f (pipealloc kend);
  match r with
  | None => mret (-1)
  | Some (rf, wf) =>
    fd0 ← fdalloc rf;
    if fd0 <? 0 then pipe_fail p [] rf wf else
    fd1 ← fdalloc wf;
    if fd1 <? 0 then pipe_fail p [fd0] rf wf else
    pt ← k_proc (pget p p_pagetable);
    k_mem (do_mem (fun m => wrn m fd_addr (le_split 4 fd0 ++ le_split 4 fd1)));;
    r ← k_mem (copyout pt fdarray fd_addr 4);
    if r <? 0 then pipe_fail p [fd0; fd1] rf wf else
    r ← k_mem (copyout pt (u64 (fdarray + 4)) (fd_addr + 4) 4);
    if r <? 0 then pipe_fail p [fd0; fd1] rf wf else
    mret 0
  end.

End SysFile.
