(* ===== verification/Syscall.v ===== *)
(** * Syscall: the dispatch of system calls, [syscall] of [kernel/syscall.c]

    The number is taken from [a7] of the trapframe, the handler from the table, and
    the result goes to [a0]; if the process is traced for that number a line is
    printed.  [1 << num] is the shift instruction, which looks at the low five bits
    of [num]. *)

From S2P Require Import Prelude CString Riscv Kalloc Vm Pipe BufCache Txn Proc Fs File Lifecycle Printf Exec SysArgs SysProc SysFile.

Definition tf_a7 : Z := 168.
(** The offset of [name] in [struct proc]. *)
Definition off_name : Z := 344.

Inductive sysno :=
| SYS_fork | SYS_exit | SYS_wait | SYS_pipe | SYS_read | SYS_kill | SYS_exec | SYS_fstat | SYS_chdir | SYS_dup | SYS_getpid | SYS_sbrk
| SYS_sleep | SYS_uptime | SYS_open | SYS_write | SYS_mknod | SYS_unlink | SYS_link | SYS_mkdir | SYS_close | SYS_hello | SYS_trace | SYS_sysinfo.

(** The numbers of [kernel/syscall.h], from 1. *)
Definition sysnos : list sysno :=
  [SYS_fork; SYS_exit; SYS_wait; SYS_pipe; SYS_read; SYS_kill; SYS_exec; SYS_fstat; SYS_chdir; SYS_dup; SYS_getpid; SYS_sbrk;
   SYS_sleep; SYS_uptime; SYS_open; SYS_write; SYS_mknod; SYS_unlink; SYS_link; SYS_mkdir; SYS_close; SYS_hello; SYS_trace; SYS_sysinfo].

(** [num > 0 && num < NELEM(syscalls) && syscalls[num]] *)
Definition sys_of (num : Z) : option sysno := if num <=? 0 then None else sysnos !! Z.to_nat (num - 1).

Definition sys_name (n : sysno) : list Z :=
  match n with
  | SYS_fork => bytes "fork" | SYS_exit => bytes "exit" | SYS_wait => bytes "wait" | SYS_pipe => bytes "pipe" | SYS_read => bytes "read"
  | SYS_kill => bytes "kill" | SYS_exec => bytes "exec" | SYS_fstat => bytes "fstat" | SYS_chdir => bytes "chdir" | SYS_dup => bytes "dup"
  | SYS_getpid => bytes "getpid" | SYS_sbrk => bytes "sbrk" | SYS_sleep => bytes "sleep" | SYS_uptime => bytes "uptime" | SYS_open => bytes "open"
  | SYS_write => bytes "write" | SYS_mknod => bytes "mknod" | SYS_unlink => bytes "unlink" | SYS_link => bytes "link" | SYS_mkdir => bytes "mkdir"
  | SYS_close => bytes "close" | SYS_hello => bytes "hello" | SYS_trace => bytes "trace" | SYS_sysinfo => bytes "sysinfo"
  end.

Section Syscall.
Context {T : Type} `{Txn T} {D : Type}.
Variables kend trampoline forkret_addr proc_base ticks_addr info_addr : Z.
Variable buf_addr : nat -> Z.
Variables de_addr st_addr ch_addr elf_addr ph_addr ustack_addr ip_addr path_addr new_addr fd_addr str_addr : Z.
Notation kstate := (@kstate T D).
Variables dev_read dev_write : Z -> option (Z -> Z -> Z -> M (@fstate T D) Z).

Definition syscalls (n : sysno) : M kstate Z :=
  match n with
  | SYS_fork => sys_fork kend trampoline forkret_addr
  | SYS_exit => sys_exit kend proc_base
  | SYS_wait => sys_wait kend proc_base
  | SYS_pipe => sys_pipe kend fd_addr
  | SYS_read => sys_read buf_addr ch_addr dev_read
  | SYS_kill => sys_kill
  | SYS_exec => sys_exec kend trampoline buf_addr de_addr elf_addr ph_addr ustack_addr ip_addr path_addr
  | SYS_fstat => sys_fstat st_addr
  | SYS_chdir => sys_chdir buf_addr de_addr path_addr
  | SYS_dup => sys_dup
  | SYS_getpid => sys_getpid
  | SYS_sbrk => sys_sbrk kend
  | SYS_sleep => sys_sleep ticks_addr
  | SYS_uptime => sys_uptime
  | SYS_open => sys_open kend buf_addr de_addr path_addr
  | SYS_write => sys_write buf_addr ch_addr dev_write
  | SYS_mknod => sys_mknod buf_addr de_addr path_addr
  | SYS_unlink => sys_unlink buf_addr de_addr path_addr
  | SYS_link => sys_link buf_addr de_addr path_addr new_addr
  | SYS_mkdir => sys_mkdir buf_addr de_addr path_addr
  | SYS_close => sys_close kend
  | SYS_hello => sys_hello
  | SYS_trace => sys_trace
  | SYS_sysinfo => sys_sysinfo info_addr
  end.

(** [p->name] as a string, up to its NUL. *)
Fixpoint c_str (l : list Z) : list Z :=
  match l with [] => [] | c :: l => if c =? 0 then [] else c :: c_str l end.

Definition unknown_fmt : list Z := bytes "%d %s: unknown sys call %d" ++ [10].
Definition trace_fmt : list Z := bytes "%d: syscall %s -> %lu" ++ [10].

Definition syscall : M kstate unit :=
  p ← k_proc me;
  tf ← k_proc (pget p p_trapframe);
  a7 ← k_mem (ldq (tf + tf_a7));
  let num := i32 a7 in
  match sys_of num with
  | Some n =>
    r ← syscalls n;
    tf ← k_proc (pget p p_trapframe);
    k_mem (stq (tf + tf_a0) (u64 r))
  | None =>
    pid ← k_proc (pget p p_pid);
    name ← k_proc (pget p p_name);
    kprintf unknown_fmt [pid; proc_addr proc_base p + off_name; num] [(proc_addr proc_base p + off_name, c_str name)];;
    tf ← k_proc (pget p p_trapframe);
    k_mem (stq (tf + tf_a0) (u64 (-1)))
  end;;
  mask ← k_proc (pget p p_trace_mask);
  if Z.land mask (i32 (Z.shiftl 1 (num mod 32))) =? 0 then mret tt else
  pid ← k_proc (pget p p_pid);
  tf ← k_proc (pget p p_trapframe);
  a0 ← k_mem (ldq (tf + tf_a0));
  match sys_of num with
  | Some n => kprintf trace_fmt [pid; str_addr; a0] [(str_addr, sys_name n)]
  | None => if num =? 0 then kprintf trace_fmt [pid; 0; a0] [] else undefined   (* sys_name[0] is a null pointer *)
  end.

End Syscall.
