(* ===== verification/Frame.v ===== *)
(** * Frame: what the routines of the kernel leave alone

    [post m Q B s]: a call of [m] in [s] that returns ends in [Q], and one that waits or
    gives up the CPU does so in [B].  [keeps R m]: whatever state it ends in is related
    to the first by [R].  The relations here say that the descriptors of the processes,
    the current process and the fields of open files that matter to their users stay as
    they are; almost every routine has them as a frame, and the tactic [frame] shows it
    by going through its text. *)

From S2P Require Import Prelude CString Riscv Kalloc Vm Pipe Sleeplock BufCache Log Txn Kvm Proc Fs File Lifecycle Printf Exec SysArgs SysProc SysFile.

(** ** Posts *)

Definition post {S A} (m : M S A) (Q : A -> S -> Prop) (B : S -> Prop) (s : S) : Prop :=
  match m s with Ret a s' => Q a s' | Blocked _ s' => B s' | _ => True end.
Definition keeps {S A} (R : S -> S -> Prop) (m : M S A) : Prop := forall s, post m (fun _ s' => R s s') (fun s' => R s s') s.

Section rules.
Context {S : Type}.
Implicit Types s : S.

Lemma post_bind {A B'} (m : M S A) (k : A -> M S B') Q B s : post m (fun a s' => post (k a) Q B s') B s -> post (m ≫= k) Q B s.
Proof. unfold post, mbind, M_bind. by destruct (m s). Qed.
Lemma post_mono {A} (m : M S A) (Q Q' : A -> S -> Prop) (B B' : S -> Prop) s :
  (forall a s', Q a s' -> Q' a s') -> (forall s', B s' -> B' s') -> post m Q B s -> post m Q' B' s.
Proof. unfold post. destruct (m s); eauto. Qed.
Lemma post_zoom {T A} (l : lens S T) (m : M T A) Q B s :
  post m (fun a t => Q a (put l t s)) (fun t => B (put l t s)) (view l s) -> post (zoom l m) Q B s.
Proof. unfold post, zoom. by destruct (m (view l s)). Qed.

Context (R : S -> S -> Prop) `{!PreOrder R}.

Lemma keeps_ret {A} (a : A) : keeps R (mret a).
Proof. intros s. unfold post. simpl. reflexivity. Qed.
Lemma keeps_bind {A B} (m : M S A) (k : A -> M S B) : keeps R m -> (forall a, keeps R (k a)) -> keeps R (m ≫= k).
Proof.
  intros Hm Hk s. apply post_bind. specialize (Hm s). unfold post in *. destruct (m s) as [a s1| |c s1|]; try done.
  specialize (Hk a s1). unfold post in Hk. destruct (k a s1); try done; by etransitivity.
Qed.
Lemma keeps_gets {A} (f : S -> A) : keeps R (gets f).
Proof. intros s. unfold post. simpl. reflexivity. Qed.
Lemma keeps_modify f : (forall s, R s (f s)) -> keeps R (modify f).
Proof. intros Hf s. unfold post. simpl. apply Hf. Qed.
Lemma keeps_panic {A} msg : keeps R (panic (A := A) msg).
Proof. done. Qed.
Lemma keeps_undefined {A} : keeps R (undefined (A := A)).
Proof. done. Qed.
Lemma keeps_sleep {A} c : keeps R (sleep_on (A := A) c).
Proof. intros s. unfold post. simpl. reflexivity. Qed.
Lemma keeps_nofuel {A} : keeps R (fun _ : S => NoFuel (A := A)).
Proof. done. Qed.
Lemma keeps_arr_get {A} (f : S -> list A) i : keeps R (arr_get f i).
Proof. intros s. unfold post, arr_get. destruct (f s !! i); [reflexivity|done]. Qed.
Lemma keeps_when b m : keeps R m -> keeps R (when b m).
Proof. intros Hm. destruct b; [done|apply keeps_ret]. Qed.
Lemma keeps_for_each {X Y} (l : list X) (body : X -> M S (option Y)) : (forall x, keeps R (body x)) -> keeps R (for_each l body).
Proof. intros Hb. induction l as [|x l IH]; simpl; [apply keeps_ret|]. apply keeps_bind; [done|]. intros [v|]; [apply keeps_ret | done]. Qed.
Lemma keeps_zoom {T A} (R' : T -> T -> Prop) (l : lens S T) (m : M T A) :
  (forall s t, R' (view l s) t -> R s (put l t s)) -> keeps R' m -> keeps R (zoom l m).
Proof. intros Hl Hm s. apply post_zoom. specialize (Hm (view l s)). unfold post in *. destruct (m (view l s)); auto. Qed.
Lemma keeps_zoom_any {T A} (l : lens S T) (m : M T A) : (forall s t, R s (put l t s)) -> keeps R (zoom l m).
Proof. intros Hl s. apply post_zoom. unfold post. destruct (m (view l s)); auto. Qed.
Lemma keeps_acquire (l : lens S spin) : (forall s t, R s (put l t s)) -> keeps R (acquire l).
Proof. intros Hl s. unfold post, acquire. destruct (view l s); [apply Hl | reflexivity]. Qed.
Lemma keeps_release (l : lens S spin) : (forall s t, R s (put l t s)) -> keeps R (release l).
Proof. intros Hl s. unfold post, release. destruct (view l s); [done | apply Hl]. Qed.

(** A step of a routine that keeps [R]. *)
Lemma post_keeps {A B'} (m : M S A) (k : A -> M S B') Q B s : keeps R m -> (forall s', R s s' -> B s') ->
  (forall a s', R s s' -> post (k a) Q B s') -> post (m ≫= k) Q B s.
Proof. intros Hm HB Hk. apply post_bind. specialize (Hm s). unfold post in Hm. unfold post at 1. destruct (m s); auto. Qed.
Lemma post_step {A B'} s0 (m : M S A) (k : A -> M S B') Q s : keeps R m -> R s0 s -> (forall a s', R s0 s' -> post (k a) Q (R s0) s') -> post (m ≫= k) Q (R s0) s.
Proof. intros Hm H0 Hk. apply post_keeps; [done|intros s' Hs; by etransitivity|]. intros a s' Hs. apply Hk. by etransitivity. Qed.
Lemma post_last {A} s0 (m : M S A) s : keeps R m -> R s0 s -> post m (fun _ s' => R s0 s') (R s0) s.
Proof. intros Hm H0. specialize (Hm s). unfold post in *. destruct (m s); try done; by etransitivity. Qed.
Lemma post_end {A} (m : M S A) (Q : A -> S -> Prop) (B : S -> Prop) s : keeps R m -> (forall s', R s s' -> B s') -> (forall a s', R s s' -> Q a s') -> post m Q B s.
Proof. intros Hm HB Hk. specialize (Hm s). unfold post in *. destruct (m s); auto. Qed.
End rules.

Lemma post_gets {S A B'} (f : S -> A) (k : A -> M S B') Q B s : post (k (f s)) Q B s -> post (gets f ≫= k) Q B s.
Proof. done. Qed.
Lemma post_arr {S A B'} (f : S -> list A) i (k : A -> M S B') Q B s : (forall x, f s !! i = Some x -> post (k x) Q B s) -> post (arr_get f i ≫= k) Q B s.
Proof. intros Hk. apply post_bind. unfold post at 1, arr_get. destruct (f s !! i) eqn:E; [by apply Hk|done]. Qed.

(** A loop with an invariant [I] and what holds on leaving it. *)
Lemma post_for_each {S X Y} (I : S -> Prop) (P : Y -> S -> Prop) (B : S -> Prop) (l : list X) (body : X -> M S (option Y)) s : I s ->
  (forall x s1, x ∈ l -> I s1 -> post (body x) (fun r s' => match r with Some v => P v s' | None => I s' end) B s1) ->
  post (for_each l body) (fun r s' => match r with Some v => P v s' | None => I s' end) B s.
Proof.
  revert s. induction l as [|x l IH]; intros s Hs Hb; simpl; [done|]. apply post_bind. eapply post_mono; [| |apply Hb; [by left|done]]; [|done].
  intros [v|] s' Hr; [done|]. apply IH; [done|]. intros y s1 Hy. apply Hb. by right.
Qed.

Create HintDb frame discriminated.
#[export] Hint Constants Opaque : frame.
#[export] Hint Variables Opaque : frame.
#[export] Hint Resolve keeps_ret keeps_gets keeps_panic keeps_undefined keeps_sleep keeps_nofuel keeps_arr_get : frame.
Ltac frame_step :=
  first
    [ solve [eauto 3 with frame typeclass_instances nocore]
    | progress intros
    | match goal with
      | |- keeps _ (mbind _ _) => apply keeps_bind; [apply _| |]
      | |- keeps _ (when _ _) => apply keeps_when; [apply _|]
      | |- keeps _ (for_each _ _) => apply keeps_for_each; [apply _|]
      | |- keeps _ (let '(_, _) := ?x in _) => destruct x
      | |- keeps _ (if ?x then _ else _) => destruct x
      | |- keeps _ (match ?x with _ => _ end) => destruct x eqn:?
      | |- keeps _ (let _ := _ in _) => cbv zeta
      end ].
Ltac frame := repeat frame_step.

(** ** The process table *)

Definition dead (p : proc) : bool := is_state (p_state p) UNUSED || is_state (p_state p) ZOMBIE.
Definition nofiles (p : proc) : Prop := Forall (fun f => f = None) (p_ofile p).
Definition ofs (k : kproc) : list (list (option nat)) := p_ofile <$> procs k.
Definition kinv (k : kproc) : Prop := forall i p, procs k !! i = Some p -> dead p = true -> nofiles p.
Definition living (i : nat) (k : kproc) : Prop := exists p, procs k !! i = Some p /\ dead p = false.
(** The current process is there and alive. *)
Definition alive (k : kproc) : Prop := exists i, cur k = Some i /\ living i k.

Definition Rk (k k' : kproc) : Prop := ofs k' = ofs k /\ cur k' = cur k /\ (kinv k -> kinv k') /\ (forall i, living i k -> living i k').

#[export] Instance Rk_pre : PreOrder Rk.
Proof. split; [intros k; by split_and!|]. intros k1 k2 k3 (? & ? & ? & ?) (? & ? & ? & ?). split_and!; try congruence; auto. Qed.

Lemma Rk_upd k i f : (forall p, procs k !! i = Some p -> p_ofile (f p) = p_ofile p) ->
  (forall p, procs k !! i = Some p -> dead (f p) = true -> dead p = true) -> Rk k (upd_proc i f k).
Proof.
  intros Hf Hd. unfold Rk, ofs, kinv, living, upd_proc. simpl. split_and!; [|done| |].
  - apply list_eq. intros j. rewrite !list_lookup_fmap. destruct (decide (i = j)) as [<-|Hij].
    + rewrite list_lookup_alter_eq. destruct (procs k !! i) eqn:E; [|done]. simpl. by rewrite Hf.
    + by rewrite list_lookup_alter_ne.
  - intros Hk j p. destruct (decide (i = j)) as [<-|Hij]; [|rewrite list_lookup_alter_ne by done; apply Hk].
    rewrite list_lookup_alter_eq. intros (q & Eq & ->)%fmap_Some Hdead. unfold nofiles. rewrite (Hf q Eq). apply (Hk i q Eq). by apply Hd.
  - intros c (p & Ep & Hp). destruct (decide (i = c)) as [<-|Hic].
    + exists (f p). rewrite list_lookup_alter_eq, Ep. split; [done|]. specialize (Hd p Ep). destruct (dead (f p)); [|done]. by rewrite Hd in Hp.
    + exists p. by rewrite list_lookup_alter_ne.
Qed.

Lemma keeps_pupd i f : (forall p, p_ofile (f p) = p_ofile p) -> (forall p, dead (f p) = true -> dead p = true) -> keeps Rk (pupd i f).
Proof.
  intros Hf Hd k. unfold pupd. apply post_arr. intros p Ep. unfold post. simpl. apply Rk_upd; intros q Eq; rewrite Ep in Eq; simplify_eq; auto.
Qed.
Lemma keeps_proc_lock i : forall k t, Rk k (put (proc_lockL i) t k).
Proof. intros k t. apply Rk_upd; done. Qed.
Lemma keeps_km k t : Rk k (setk_km t k).
Proof. done. Qed.
Lemma keeps_pget {A} i (f : proc -> A) : keeps Rk (pget i f).
Proof. unfold pget. frame. Qed.
Lemma keeps_me : keeps Rk me.
Proof. unfold me, myproc. frame. Qed.
Lemma keeps_acq i : keeps Rk (acquire (proc_lockL i)).
Proof. apply keeps_acquire; [apply _|apply keeps_proc_lock]. Qed.
Lemma keeps_rel i : keeps Rk (release (proc_lockL i)).
Proof. apply keeps_release. apply keeps_proc_lock. Qed.
Lemma keeps_mem {A} (m : M kmem A) : keeps Rk (zoom kmL m).
Proof. by apply keeps_zoom_any. Qed.
#[export] Hint Resolve keeps_pget keeps_me keeps_acq keeps_rel keeps_mem : frame.
#[export] Hint Extern 1 (keeps Rk (pupd _ _)) => (apply keeps_pupd; [done | first [done | by intros []]]) : frame.
#[export] Hint Extern 1 (keeps Rk (acquire _)) => (by apply keeps_acquire; [apply _|]) : frame.
#[export] Hint Extern 1 (keeps Rk (release _)) => (by apply keeps_release) : frame.
#[export] Hint Extern 1 (keeps Rk (modify _)) => (by apply keeps_modify) : frame.

Lemma keeps_allocpid : keeps Rk allocpid.
Proof. unfold allocpid. frame. Qed.
Lemma keeps_proc_pagetable kend trampoline p : keeps Rk (proc_pagetable kend trampoline p).
Proof. unfold proc_pagetable. frame. Qed.
Lemma keeps_proc_freepagetable kend pt sz : keeps Rk (proc_freepagetable kend pt sz).
Proof. unfold proc_freepagetable. frame. Qed.
#[export] Hint Resolve keeps_allocpid keeps_proc_pagetable keeps_proc_freepagetable : frame.
Lemma keeps_growproc kend n : keeps Rk (growproc kend n).
Proof. unfold growproc. frame. Qed.
Lemma keeps_wakeup chan : keeps Rk (wakeup chan).
Proof. unfold wakeup, myproc. frame. Qed.
#[export] Hint Resolve keeps_growproc keeps_wakeup : frame.
Lemma keeps_reparent base p : keeps Rk (reparent base p).
Proof. unfold reparent. frame. Qed.
Lemma keeps_kill pid : keeps Rk (Proc.kill pid).
Proof. unfold Proc.kill. frame. Qed.
Lemma keeps_killed p : keeps Rk (killed p).
Proof. unfold killed. frame. Qed.
Lemma keeps_either_copyout u d s n : keeps Rk (either_copyout u d s n).
Proof. unfold either_copyout, myproc. frame. Qed.
Lemma keeps_either_copyin d u s n : keeps Rk (either_copyin d u s n).
Proof. unfold either_copyin, myproc. frame. Qed.
Lemma keeps_nproc : keeps Rk nproc.
Proof. unfold nproc. generalize 0. generalize (seq 0 NPROC). intros l. induction l as [|p l IH]; intros n; simpl; frame. Qed.
Lemma keeps_fileopencount_process : keeps Rk fileopencount_process.
Proof. unfold fileopencount_process. frame. Qed.
#[export] Hint Resolve keeps_reparent keeps_kill keeps_killed keeps_either_copyout keeps_either_copyin keeps_nproc keeps_fileopencount_process : frame.

(** An entry that holds no files and no living process. *)
Definition spare (p : nat) (k : kproc) : Prop := (forall l, ofs k !! p = Some l -> Forall (fun f => f = None) l) /\ ~ living p k.

Lemma Rk_free k k1 p : Rk k k1 -> spare p k -> Rk k (upd_proc p (setp_state UNUSED) k1).
Proof.
  intros (Ho & Hc & Hk & Ha) [Hn Hs]. unfold Rk. simpl. split_and!; [| done | |].
  - rewrite <- Ho. unfold ofs, upd_proc. simpl. apply list_eq. intros j. rewrite !list_lookup_fmap. destruct (decide (p = j)) as [<-|]; [|by rewrite list_lookup_alter_ne].
    rewrite list_lookup_alter_eq. by destruct (procs k1 !! p).
  - intros Hi j q. unfold upd_proc. simpl. destruct (decide (p = j)) as [<-|]; [|rewrite list_lookup_alter_ne by done; by apply Hk].
    rewrite list_lookup_alter_eq. intros (q' & Eq & ->)%fmap_Some _. unfold nofiles. simpl. apply Hn. rewrite <- Ho. unfold ofs. by rewrite list_lookup_fmap, Eq.
  - intros i Hl. assert (i <> p) as Hip by (intros ->; by apply Hs). destruct (Ha i Hl) as (q & Eq & Hd). exists q. unfold upd_proc. simpl. by rewrite list_lookup_alter_ne.
Qed.

Lemma post_freeproc kend p k k0 : Rk k k0 -> spare p k -> post (freeproc kend p) (fun _ k' => Rk k k') (Rk k) k0.
Proof.
  intros H0 Hs. assert (forall k1, Rk k k1 -> post (pupd p (setp_state UNUSED);; pupd p (setp_trace_mask 0)) (fun _ k' => Rk k k') (Rk k) k1) as Hlast.
  { intros k1 Hk1. apply post_bind. unfold pupd at 1. apply post_arr. intros q Eq. unfold post at 1. simpl.
    assert (upd_proc p (fun _ => setp_state UNUSED q) k1 = upd_proc p (setp_state UNUSED) k1) as ->.
    { unfold upd_proc. f_equal. apply list_alter_ext; [|done]. intros q' Eq'. congruence. }
    apply (post_last Rk); [frame | by apply Rk_free]. }
  unfold freeproc.
  repeat (eapply (post_step Rk); [solve [frame] | exact H0 | clear dependent k0; intros ? k0 H0]). by apply Hlast.
Qed.

Lemma alive_Rk k k' : Rk k k' -> alive k -> alive k'.
Proof. intros (_ & Ec & _ & Hl) (i & Hc & Hi). exists i. split; [by rewrite Ec | by apply Hl]. Qed.

Lemma dead_spare p q k : kinv k -> procs k !! p = Some q -> dead q = true -> spare p k.
Proof.
  intros Hk Eq Hd. split; [|intros (q' & Eq' & Hl); congruence]. intros l. unfold ofs. rewrite list_lookup_fmap, Eq. simpl. intros [= <-]. by apply (Hk p q).
Qed.

Lemma spare_back p k k' : Rk k k' -> spare p k' -> spare p k.
Proof. intros (Ho & _ & _ & Hl) [Hn Hd]. split; [by rewrite <- Ho|]. intros Hp. by apply Hd, Hl. Qed.

Lemma post_allocproc kend trampoline fr k : kinv k ->
  post (allocproc kend trampoline fr) (fun r k' => Rk k k' /\ match r with Some p => spare p k /\ living p k' | None => True end) (Rk k) k.
Proof.
  intros Hk. unfold allocproc. apply post_bind.
  assert (forall p k1, Rk k k1 -> spare p k -> post (freeproc kend p;; release (proc_lockL p);; mret None)
    (fun r k' => Rk k k' /\ match r with Some p => spare p k /\ living p k' | None => True end) (Rk k) k1) as Hbad.
  { intros p k1 H1 Hs. apply post_bind. eapply post_mono; [| |by apply post_freeproc]; [|done]. intros u k2 H2.
    eapply (post_step Rk); [frame|done|]. intros u' k3 H3. done. }
  unfold find_unused. eapply post_mono; [| |apply (post_for_each (Rk k) (fun p k' => Rk k k' /\ spare p k) (Rk k)); [done|]].
  - intros [p|] k1; [|done]. intros [H1 Hs].
    do 2 (eapply (post_step Rk); [solve [frame] | exact H1 | clear dependent k1; intros ? k1 H1]).
    apply post_bind. unfold pupd at 1. apply post_arr. intros q Eq. unfold post at 1. cbn.
    set (k2 := upd_proc p _ k1). assert (Rk k k2 /\ living p k2) as [H2 Hl].
    { split; [etransitivity; [exact H1|]; apply Rk_upd; intros q' Eq'; [by simplify_eq|done]|].
      exists (setp_state USED q). unfold k2, upd_proc. simpl. by rewrite list_lookup_alter_eq, Eq. }
    clearbody k2. clear dependent k1 q. assert (Rk k2 k2) as H3 by done. revert H3. generalize k2 at 2 3. intros k3 H3.
    repeat first [ (eapply (post_keeps Rk); [solve [frame] | intros k4 H4; by repeat (etransitivity; [eassumption|]) | intros ? k4 H4; eapply transitivity in H4; [|exact H3]; clear dependent k3; rename k4 into k3; rename H4 into H3])
                 | match goal with |- post (if ?b then _ else _) _ _ _ => destruct b; [apply Hbad; [by etransitivity|done]|] end ].
    split; [by etransitivity|]. split; [done|]. by apply H3.
  - done.
  - intros p k1 _ H1. eapply (post_step Rk); [frame|done|]. intros u k2 H2. unfold pget. apply post_bind. apply post_arr. intros q Eq. unfold post at 1. simpl.
    destruct (is_state (p_state q) UNUSED) eqn:Eu.
    + unfold post. simpl. split; [done|]. apply (spare_back _ _ _ H2). eapply dead_spare; [by apply H2|done|]. unfold dead. by rewrite Eu.
    + eapply (post_step Rk); [frame|done|]. intros u' k3 H3. done.
Qed.

(** ** The file system *)

Section Fs.
Context {T : Type} `{Txn T}.
Variable buf_addr : nat -> Z.
Variable de_addr : Z.

Definition Rf (s s' : fsys T) : Prop := Rk (f_k s) (f_k s').

#[export] Instance Rf_pre : PreOrder Rf.
Proof. split; [intros s; unfold Rf; reflexivity|]. intros s1 s2 s3 H1 H2. unfold Rf in *. by etransitivity. Qed.

Lemma keeps_fk {A} (m : M kproc A) : keeps Rk m -> keeps Rf (zoom fkL m).
Proof. by apply keeps_zoom. Qed.
Lemma keeps_tx {A} (m : M T A) : keeps Rf (zoom txL m).
Proof. by apply keeps_zoom_any. Qed.
Lemma keeps_ino_lock {A} ip (m : M sleeplock A) : keeps Rf (zoom (ino_lockL ip) m).
Proof. by apply keeps_zoom_any. Qed.
#[local] Hint Resolve keeps_fk keeps_tx keeps_ino_lock : frame.
#[local] Hint Extern 1 (keeps Rf (acquire _)) => (by apply keeps_acquire; [apply _|]) : frame.
#[local] Hint Extern 1 (keeps Rf (release _)) => (by apply keeps_release) : frame.
#[local] Hint Extern 1 (keeps Rf (modify _)) => (by apply keeps_modify) : frame.
#[local] Hint Extern 2 (keeps Rf (zoom fkL _)) => (apply keeps_fk; by frame) : frame.

Lemma keeps_iget_f {A} ip (f : inode -> A) : keeps Rf (iget_f ip f).
Proof. unfold iget_f. frame. Qed.
Lemma keeps_iupd ip f : keeps Rf (iupd ip f).
Proof. unfold iupd. frame. Qed.
Lemma keeps_fbread dv b : keeps Rf (fbread dv b).
Proof. unfold fbread. frame. Qed.
Lemma keeps_fdata h : keeps Rf (fdata h).
Proof. unfold fdata. frame. Qed.
Lemma keeps_fset h x : keeps Rf (fset h x).
Proof. unfold fset. frame. Qed.
Lemma keeps_flog_write h : keeps Rf (flog_write h).
Proof. unfold flog_write. frame. Qed.
Lemma keeps_fbrelse h : keeps Rf (fbrelse h).
Proof. unfold fbrelse. frame. Qed.
#[local] Hint Resolve keeps_iget_f keeps_iupd keeps_fbread keeps_fdata keeps_fset keeps_flog_write keeps_fbrelse : frame.
Lemma keeps_stage h : keeps Rf (stage buf_addr h).
Proof. unfold stage. frame. Qed.
Lemma keeps_unstage h : keeps Rf (unstage buf_addr h).
Proof. unfold unstage. frame. Qed.
#[local] Hint Resolve keeps_stage keeps_unstage : frame.
Lemma keeps_bzero dv b : keeps Rf (bzero dv b).
Proof. unfold bzero. frame. Qed.
#[local] Hint Resolve keeps_bzero : frame.
Lemma keeps_balloc_loop fuel dv b : keeps Rf (balloc_loop fuel dv b).
Proof. revert b. induction fuel as [|fuel IH]; intros b; simpl; unfold balloc_scan; frame. Qed.
#[local] Hint Resolve keeps_balloc_loop : frame.
Lemma keeps_balloc dv : keeps Rf (balloc dv).
Proof. unfold balloc. frame. Qed.
Lemma keeps_bfree dv b : keeps Rf (bfree dv b).
Proof. unfold bfree. frame. Qed.
#[local] Hint Resolve keeps_balloc keeps_bfree : frame.

Lemma keeps_iget dv inum : keeps Rf (iget dv inum).
Proof. unfold iget. frame. Qed.
#[local] Hint Resolve keeps_iget : frame.
Lemma keeps_ialloc dv type : keeps Rf (ialloc dv type).
Proof. unfold ialloc. frame. Qed.
Lemma keeps_iupdate ip : keeps Rf (iupdate ip).
Proof. unfold iupdate. frame. Qed.
Lemma keeps_idup ip : keeps Rf (idup ip).
Proof. unfold idup. frame. Qed.
Lemma keeps_mypid : keeps Rf mypid.
Proof. unfold mypid. frame. Qed.
#[local] Hint Resolve keeps_ialloc keeps_iupdate keeps_idup keeps_mypid : frame.
Lemma keeps_ilock ip : keeps Rf (ilock ip).
Proof. unfold ilock. frame. Qed.
Lemma keeps_iunlock ip : keeps Rf (iunlock ip).
Proof. unfold iunlock. frame. Qed.
Lemma keeps_itrunc ip : keeps Rf (itrunc ip).
Proof. unfold itrunc, itrunc_direct. frame. Qed.
#[local] Hint Resolve keeps_ilock keeps_iunlock keeps_itrunc : frame.
Lemma keeps_iput ip : keeps Rf (iput ip).
Proof. unfold iput. frame. Qed.
#[local] Hint Resolve keeps_iput : frame.
Lemma keeps_iunlockput ip : keeps Rf (iunlockput ip).
Proof. unfold iunlockput. frame. Qed.
Lemma keeps_bmap ip bn : keeps Rf (bmap ip bn).
Proof. unfold bmap. frame. Qed.
Lemma keeps_stati ip : keeps Rf (stati ip).
Proof. unfold stati. frame. Qed.
#[local] Hint Resolve keeps_iunlockput keeps_bmap keeps_stati : frame.
Lemma keeps_readi_loop fuel ip u dst off n tot : keeps Rf (readi_loop buf_addr fuel ip u dst off n tot).
Proof. revert dst off tot. induction fuel as [|fuel IH]; intros dst off tot; simpl; frame. Qed.
#[local] Hint Resolve keeps_readi_loop : frame.
Lemma keeps_readi ip u dst off n : keeps Rf (readi buf_addr ip u dst off n).
Proof. unfold readi. frame. Qed.
Lemma keeps_writei_loop fuel ip u src off n tot : keeps Rf (writei_loop buf_addr fuel ip u src off n tot).
Proof. revert src off tot. induction fuel as [|fuel IH]; intros src off tot; simpl; frame. Qed.
#[local] Hint Resolve keeps_readi keeps_writei_loop : frame.
Lemma keeps_writei ip u src off n : keeps Rf (writei buf_addr ip u src off n).
Proof. unfold writei. frame. Qed.
#[local] Hint Resolve keeps_writei : frame.
Lemma keeps_read_de dp off : keeps Rf (read_de buf_addr de_addr dp off).
Proof. unfold read_de. frame. Qed.
Lemma keeps_set_de inum name : keeps Rf (set_de de_addr inum name).
Proof. unfold set_de. frame. Qed.
Lemma keeps_get_mem {A} (f : mem -> A) : keeps Rf (get_mem f).
Proof. unfold get_mem. frame. Qed.
#[local] Hint Resolve keeps_read_de keeps_set_de keeps_get_mem : frame.
Lemma keeps_dirlookup_loop fuel dp name off : keeps Rf (dirlookup_loop buf_addr de_addr fuel dp name off).
Proof. revert off. induction fuel as [|fuel IH]; intros off; simpl; unfold de_inum, de_name; frame. Qed.
#[local] Hint Resolve keeps_dirlookup_loop : frame.
Lemma keeps_dirlookup dp name : keeps Rf (dirlookup buf_addr de_addr dp name).
Proof. unfold dirlookup. frame. Qed.
Lemma keeps_dirlink_scan fuel dp off : keeps Rf (dirlink_scan buf_addr de_addr fuel dp off).
Proof. revert off. induction fuel as [|fuel IH]; intros off; simpl; unfold de_inum; frame. Qed.
#[local] Hint Resolve keeps_dirlookup keeps_dirlink_scan : frame.
Lemma keeps_dirlink dp name inum : keeps Rf (dirlink buf_addr de_addr dp name inum).
Proof. unfold dirlink. frame. Qed.
Lemma keeps_namex_loop fuel ip path np name : keeps Rf (namex_loop buf_addr de_addr fuel ip path np name).
Proof. revert ip path name. induction fuel as [|fuel IH]; intros ip path name; simpl; frame. Qed.
#[local] Hint Resolve keeps_dirlink keeps_namex_loop : frame.
Lemma keeps_namex path np : keeps Rf (namex buf_addr de_addr path np).
Proof. unfold namex. frame. Qed.
#[local] Hint Resolve keeps_namex : frame.
Lemma keeps_namei path : keeps Rf (namei buf_addr de_addr path).
Proof. unfold namei. frame. Qed.
Lemma keeps_nameiparent path : keeps Rf (nameiparent buf_addr de_addr path).
Proof. unfold nameiparent. frame. Qed.
End Fs.

#[export] Hint Resolve keeps_fk keeps_tx keeps_iget_f keeps_iupd keeps_ialloc keeps_iupdate keeps_idup keeps_ilock keeps_iunlock keeps_itrunc keeps_iput keeps_iunlockput
  keeps_stati keeps_readi keeps_writei keeps_read_de keeps_set_de keeps_get_mem keeps_dirlookup keeps_dirlink keeps_namei keeps_nameiparent : frame.
#[export] Hint Extern 2 (keeps Rf (zoom fkL _)) => (apply keeps_fk; by frame) : frame.

(** ** Open files *)

Section File.
Context {T : Type} `{Txn T} {D : Type}.
Variable kend : Z.
Variable buf_addr : nat -> Z.
Variables st_addr ch_addr : Z.
Notation fstate := (@fstate T D).

(** What the users of an open file rely on. *)
Definition fshape (x : file) : Z * fdtype * option nat := (fl_ref x, fl_type x, fl_ip x).
Definition fview (s : fstate) : list (Z * fdtype * option nat) := fshape <$> ft_file s.
Definition Rs (s s' : fstate) : Prop := Rf (fs_sys s) (fs_sys s') /\ fview s' = fview s.

#[export] Instance Rs_pre : PreOrder Rs.
Proof. split; [intros s; by split|]. intros s1 s2 s3 [? ?] [? ?]. split; [by etransitivity|congruence]. Qed.

Lemma keeps_in_fs {A} (m : M (fsys T) A) : keeps Rf m -> keeps Rs (in_fs m).
Proof. by apply keeps_zoom. Qed.
Lemma keeps_in_proc {A} (m : M kproc A) : keeps Rk m -> keeps Rs (in_proc m).
Proof. intros Hm. by apply keeps_in_fs, keeps_fk. Qed.
Lemma keeps_in_mem {A} (m : M kmem A) : keeps Rs (in_mem m).
Proof. apply keeps_in_proc, keeps_mem. Qed.
Lemma keeps_pipe {A} pi (m : M psys A) : keeps Rs (zoom (pipeL pi) m).
Proof. by apply keeps_zoom_any. Qed.
Lemma keeps_flget {A} f (g : file -> A) : keeps Rs (flget f g).
Proof. unfold flget. frame. Qed.
Lemma keeps_flupd f g : (forall x, fshape (g x) = fshape x) -> keeps Rs (flupd f g).
Proof.
  intros Hg s. unfold flupd. apply post_arr. intros x Ex. unfold post. simpl. split; [done|]. unfold fview. simpl. rewrite list_fmap_insert, Hg.
  apply list_insert_id. by rewrite list_lookup_fmap, Ex.
Qed.
#[local] Hint Resolve keeps_in_mem keeps_pipe keeps_flget : frame.
#[local] Hint Extern 2 (keeps Rs (in_fs _)) => (apply keeps_in_fs; by frame) : frame.
#[local] Hint Extern 2 (keeps Rs (in_proc _)) => (apply keeps_in_proc; by frame) : frame.
#[local] Hint Extern 1 (keeps Rs (flupd _ _)) => (by apply keeps_flupd) : frame.
#[local] Hint Extern 1 (keeps Rs (acquire _)) => (by apply keeps_acquire; [apply _|]) : frame.
#[local] Hint Extern 1 (keeps Rs (release _)) => (by apply keeps_release) : frame.
#[local] Hint Extern 1 (keeps Rs (modify _)) => (by apply keeps_modify) : frame.

Lemma keeps_chan_wakeup chan : keeps Rs (chan_wakeup chan).
Proof. unfold chan_wakeup. frame. Qed.
#[local] Hint Resolve keeps_chan_wakeup : frame.
Lemma keeps_pipeclose pi w : keeps Rs (pipeclose kend pi w).
Proof. unfold pipeclose. frame. Qed.
Lemma keeps_deliver pt a bs : keeps Rs (deliver ch_addr pt a bs).
Proof. revert a. induction bs as [|b bs IH]; intros a; simpl; frame. Qed.
#[local] Hint Resolve keeps_pipeclose keeps_deliver : frame.
Lemma keeps_pipewrite pi a n : keeps Rs (pipewrite ch_addr pi a n).
Proof. unfold pipewrite. frame. Qed.
Lemma keeps_piperead pi a n : keeps Rs (piperead ch_addr pi a n).
Proof. unfold piperead. frame. Qed.
Lemma keeps_begin_op : keeps Rs begin_op_.
Proof. unfold begin_op_. frame. Qed.
Lemma keeps_end_op : keeps Rs end_op_.
Proof. unfold end_op_. frame. Qed.
Lemma keeps_iput_ ip : keeps Rs (iput_ ip).
Proof. unfold iput_. frame. Qed.
#[local] Hint Resolve keeps_pipewrite keeps_piperead keeps_begin_op keeps_end_op keeps_iput_ : frame.
Lemma keeps_filestat f a : keeps Rs (filestat st_addr f a).
Proof. unfold filestat. frame. Qed.
Lemma keeps_fileopencount : keeps Rs fileopencount.
Proof. unfold fileopencount. frame. Qed.

(** The drivers leave the open files and the descriptors alone. *)
Variables dev_read dev_write : Z -> option (Z -> Z -> Z -> M fstate Z).
Hypothesis dev_read_ok : forall mj rd u a n, dev_read mj = Some rd -> keeps Rs (rd u a n).
Hypothesis dev_write_ok : forall mj wr u a n, dev_write mj = Some wr -> keeps Rs (wr u a n).

Lemma keeps_fileread f a n : keeps Rs (fileread buf_addr ch_addr dev_read f a n).
Proof. unfold fileread. frame. Qed.
Lemma keeps_filewrite_loop fuel f a n i : keeps Rs (filewrite_loop buf_addr fuel f a n i).
Proof. revert i. induction fuel as [|fuel IH]; intros i; simpl; unfold filewrite_chunk; frame. Qed.
#[local] Hint Resolve keeps_filewrite_loop : frame.
Lemma keeps_filewrite f a n : keeps Rs (filewrite buf_addr ch_addr dev_write f a n).
Proof. unfold filewrite. frame. Qed.
End File.

#[export] Hint Resolve keeps_in_mem keeps_pipe keeps_flget keeps_chan_wakeup keeps_pipeclose keeps_begin_op keeps_end_op keeps_iput_ keeps_filestat keeps_fileopencount
  keeps_fileread keeps_filewrite : frame.
#[export] Hint Extern 2 (keeps Rs (in_fs _)) => (apply keeps_in_fs; by frame) : frame.
#[export] Hint Extern 2 (keeps Rs (in_proc _)) => (apply keeps_in_proc; by frame) : frame.
#[export] Hint Extern 1 (keeps Rs (flupd _ _)) => (by apply keeps_flupd) : frame.
#[export] Hint Extern 1 (keeps Rs (acquire _)) => (by apply keeps_acquire; [apply _|]) : frame.
#[export] Hint Extern 1 (keeps Rs (release _)) => (by apply keeps_release) : frame.
#[export] Hint Extern 1 (keeps Rs (modify _)) => (by apply keeps_modify) : frame.

(** ** Processes and programs *)

Section Lifecycle.
Context {T : Type} `{Txn T} {D : Type}.
Variables kend trampoline proc_base : Z.
Variable buf_addr : nat -> Z.
Variables de_addr elf_addr ph_addr ustack_addr : Z.
Notation fstate := (@fstate T D).

Lemma keeps_release_proc_ p : keeps (Rs (T := T) (D := D)) (release_proc_ p).
Proof. unfold release_proc_. frame. Qed.
Lemma keeps_deref {A} (p : option A) : keeps (Rs (T := T) (D := D)) (deref p).
Proof. unfold deref. frame. Qed.
#[local] Hint Resolve keeps_release_proc_ keeps_deref : frame.
Lemma keeps_sched_ {A} p : keeps (Rs (T := T) (D := D)) (sched_ (A := A) p).
Proof. unfold sched_. frame. Qed.
#[local] Hint Resolve keeps_sched_ : frame.

Lemma keeps_loadseg_loop fuel pt va ip off sz i : keeps (Rs (T := T) (D := D)) (loadseg_loop buf_addr fuel pt va ip off sz i).
Proof. revert i. induction fuel as [|fuel IH]; intros i; simpl; frame. Qed.
#[local] Hint Resolve keeps_loadseg_loop : frame.
Lemma keeps_load_loop fuel pt ip phnum i off sz : keeps (Rs (T := T) (D := D)) (load_loop kend buf_addr ph_addr fuel pt ip phnum i off sz).
Proof. revert i off sz. induction fuel as [|fuel IH]; intros i off sz; simpl; unfold loadseg; frame. Qed.
Lemma keeps_arg_len a : keeps (Rs (T := T) (D := D)) (arg_len a).
Proof. intros s. unfold post, arg_len. destruct (KString.strlen _ _ _); [reflexivity|done]. Qed.
#[local] Hint Resolve keeps_load_loop keeps_arg_len : frame.
Lemma keeps_push_args fuel pt sb argv argc sp us : keeps (Rs (T := T) (D := D)) (push_args fuel pt sb argv argc sp us).
Proof. revert argc sp us. induction fuel as [|fuel IH]; intros argc sp us; simpl; frame. Qed.
Lemma keeps_exec_bad pt sz ip : keeps (Rs (T := T) (D := D)) (exec_bad kend pt sz ip).
Proof. unfold exec_bad. frame. Qed.
#[local] Hint Resolve keeps_push_args keeps_exec_bad : frame.
Lemma keeps_exec_image p path argv entry pt sz : keeps (Rs (T := T) (D := D)) (exec_image kend ustack_addr p path argv entry pt sz).
Proof. unfold exec_image. frame. Qed.
#[local] Hint Resolve keeps_exec_image : frame.
Lemma keeps_exec path argv : keeps (Rs (T := T) (D := D)) (exec kend trampoline buf_addr de_addr elf_addr ph_addr ustack_addr path argv).
Proof. unfold exec. frame. Qed.
End Lifecycle.

#[export] Hint Resolve keeps_release_proc_ keeps_deref keeps_sched_ keeps_exec : frame.

(** ** System calls *)

Section Sys.
Context {T : Type} `{Txn T} {D : Type}.
Variables kend trampoline ticks_addr info_addr : Z.
Variable buf_addr : nat -> Z.
Variables de_addr st_addr ch_addr elf_addr ph_addr ustack_addr ip_addr path_addr new_addr : Z.
Notation kstate := (@kstate T D).
Variables dev_read dev_write : Z -> option (Z -> Z -> Z -> M (@fstate T D) Z).
Hypothesis dev_read_ok : forall mj rd u a n, dev_read mj = Some rd -> keeps Rs (rd u a n).
Hypothesis dev_write_ok : forall mj wr u a n, dev_write mj = Some wr -> keeps Rs (wr u a n).

Definition Rz (s s' : kstate) : Prop := Rs (ks_f s) (ks_f s').

#[export] Instance Rz_pre : PreOrder Rz.
Proof. split; [intros s; unfold Rz; reflexivity|]. intros s1 s2 s3 H1 H2. unfold Rz in *. by etransitivity. Qed.

Lemma keeps_in_f {A} (m : M (@fstate T D) A) : keeps Rs m -> keeps Rz (in_f m).
Proof. by apply keeps_zoom. Qed.
Lemma keeps_k_proc {A} (m : M kproc A) : keeps Rk m -> keeps Rz (k_proc m).
Proof. intros Hm. by apply keeps_in_f, keeps_in_proc. Qed.
Lemma keeps_k_mem {A} (m : M kmem A) : keeps Rz (k_mem m).
Proof. apply keeps_in_f, keeps_in_mem. Qed.
Lemma keeps_k_fs {A} (m : M (fsys T) A) : keeps Rf m -> keeps Rz (k_fs m).
Proof. intros Hm. by apply keeps_in_f, keeps_in_fs. Qed.
Lemma keeps_out {A} (m : M (list Z) A) : keeps Rz (zoom outL m).
Proof. by apply keeps_zoom_any. Qed.
#[local] Hint Resolve keeps_k_mem keeps_out : frame.
#[local] Hint Extern 2 (keeps Rz (in_f _)) => (apply keeps_in_f; by frame) : frame.
#[local] Hint Extern 2 (keeps Rz (k_fs _)) => (apply keeps_k_fs; by frame) : frame.
#[local] Hint Extern 2 (keeps Rz (k_proc _)) => (apply keeps_k_proc; by frame) : frame.
#[local] Hint Extern 1 (keeps Rz (acquire _)) => (by apply keeps_acquire; [apply _|]) : frame.
#[local] Hint Extern 1 (keeps Rz (release _)) => (by apply keeps_release) : frame.

Lemma keeps_kprintf fmt ap strs : keeps Rz (kprintf fmt ap strs).
Proof. unfold kprintf. frame. Qed.
Lemma keeps_fetchaddr a : keeps Rz (fetchaddr ip_addr a).
Proof. unfold fetchaddr. frame. Qed.
Lemma keeps_fetchstr a buf max : keeps Rz (fetchstr a buf max).
Proof.
  unfold fetchstr. frame. intros s. unfold post, kstrlen. destruct (KString.strlen _ _ _); [reflexivity|done].
Qed.
Lemma keeps_argraw n : keeps Rz (argraw n).
Proof. unfold argraw. frame. Qed.
#[local] Hint Resolve keeps_kprintf keeps_fetchaddr keeps_fetchstr keeps_argraw : frame.
Lemma keeps_argint n : keeps Rz (argint n).
Proof. unfold argint. frame. Qed.
Lemma keeps_argaddr n : keeps Rz (argaddr n).
Proof. unfold argaddr. frame. Qed.
#[local] Hint Resolve keeps_argint keeps_argaddr : frame.
Lemma keeps_argstr n buf max : keeps Rz (argstr n buf max).
Proof. unfold argstr. frame. Qed.
Lemma keeps_str_of buf max : keeps Rz (str_of buf max).
Proof. unfold str_of. frame. Qed.
Lemma keeps_ksleep {A} p chan : keeps Rz (ksleep (A := A) p chan tickslockL).
Proof. unfold ksleep. frame. Qed.
#[local] Hint Resolve keeps_argstr keeps_str_of keeps_ksleep : frame.

Lemma keeps_sys_getpid : keeps Rz sys_getpid.
Proof. unfold sys_getpid. frame. Qed.
Lemma keeps_sys_sbrk : keeps Rz (sys_sbrk kend).
Proof. unfold sys_sbrk. frame. Qed.
Lemma keeps_sys_sleep : keeps Rz (sys_sleep ticks_addr).
Proof. unfold sys_sleep, sleep_round. frame. Qed.
Lemma keeps_sys_kill : keeps Rz sys_kill.
Proof. unfold sys_kill. frame. Qed.
Lemma keeps_sys_uptime : keeps Rz sys_uptime.
Proof. unfold sys_uptime. frame. Qed.
Lemma keeps_sys_hello : keeps Rz sys_hello.
Proof. unfold sys_hello. frame. Qed.
Lemma keeps_sys_trace : keeps Rz sys_trace.
Proof. unfold sys_trace. frame. Qed.
Lemma keeps_sys_sysinfo : keeps Rz (sys_sysinfo info_addr).
Proof. unfold sys_sysinfo, sysinfo. frame. Qed.

Lemma keeps_argfd n : keeps Rz (argfd n).
Proof. unfold argfd. frame. Qed.
#[local] Hint Resolve keeps_argfd : frame.
Lemma keeps_sys_read : keeps Rz (sys_read buf_addr ch_addr dev_read).
Proof. unfold sys_read. frame. Qed.
Lemma keeps_sys_write : keeps Rz (sys_write buf_addr ch_addr dev_write).
Proof. unfold sys_write. frame. Qed.
Lemma keeps_sys_fstat : keeps Rz (sys_fstat st_addr).
Proof. unfold sys_fstat. frame. Qed.

Lemma keeps_kbegin_op : keeps Rz kbegin_op.
Proof. unfold kbegin_op. frame. Qed.
Lemma keeps_kend_op : keeps Rz kend_op.
Proof. unfold kend_op. frame. Qed.
Lemma keeps_kiget {A} ip (f : inode -> A) : keeps Rz (kiget ip f).
Proof. unfold kiget. frame. Qed.
Lemma keeps_kiupd ip f : keeps Rz (kiupd ip f).
Proof. unfold kiupd. frame. Qed.
#[local] Hint Resolve keeps_kbegin_op keeps_kend_op keeps_kiget keeps_kiupd : frame.
Lemma keeps_add_nlink ip d : keeps Rz (add_nlink ip d).
Proof. unfold add_nlink. frame. Qed.
#[local] Hint Resolve keeps_add_nlink : frame.
Lemma keeps_sys_link : keeps Rz (sys_link buf_addr de_addr path_addr new_addr).
Proof. unfold sys_link, link_entry, link_bad. frame. Qed.
Lemma keeps_isdirempty_loop fuel dp off : keeps Rz (isdirempty_loop buf_addr de_addr fuel dp off).
Proof. revert off. induction fuel as [|fuel IH]; intros off; simpl; unfold de_inum; frame. Qed.
#[local] Hint Resolve keeps_isdirempty_loop : frame.
Lemma keeps_sys_unlink : keeps Rz (sys_unlink buf_addr de_addr path_addr).
Proof. unfold sys_unlink, unlink_entry, unlink_bad, isdirempty. frame. Qed.
Lemma keeps_create path type major minor : keeps Rz (create buf_addr de_addr path type major minor).
Proof. unfold create, create_entry, create_fail. frame. Qed.
Lemma keeps_made r : keeps Rz (made r).
Proof. unfold made. frame. Qed.
Lemma keeps_open_fail ip : keeps Rz (open_fail ip).
Proof. unfold open_fail. frame. Qed.
#[local] Hint Resolve keeps_create keeps_made keeps_open_fail : frame.
Lemma keeps_sys_mkdir : keeps Rz (sys_mkdir buf_addr de_addr path_addr).
Proof. unfold sys_mkdir. frame. Qed.
Lemma keeps_sys_mknod : keeps Rz (sys_mknod buf_addr de_addr path_addr).
Proof. unfold sys_mknod. frame. Qed.
Lemma keeps_sys_chdir : keeps Rz (sys_chdir buf_addr de_addr path_addr).
Proof. unfold sys_chdir. frame. Qed.
Lemma keeps_free_argv argv : keeps Rz (free_argv kend argv).
Proof. induction argv as [|a argv IH]; simpl; frame. Qed.
Lemma keeps_fetch_argv fuel u argv i : keeps Rz (fetch_argv ip_addr fuel u argv i).
Proof. revert argv i. induction fuel as [|fuel IH]; intros argv i; simpl; frame. Qed.
#[local] Hint Resolve keeps_free_argv keeps_fetch_argv : frame.
Lemma keeps_sys_exec : keeps Rz (sys_exec kend trampoline buf_addr de_addr elf_addr ph_addr ustack_addr ip_addr path_addr).
Proof. unfold sys_exec. frame. Qed.
End Sys.

#[export] Hint Resolve keeps_k_mem keeps_kprintf keeps_argint keeps_argaddr keeps_argstr keeps_str_of keeps_argfd keeps_kbegin_op keeps_kend_op keeps_kiget keeps_kiupd
  keeps_create keeps_open_fail keeps_sys_getpid keeps_sys_sbrk keeps_sys_sleep keeps_sys_kill keeps_sys_uptime keeps_sys_hello keeps_sys_trace keeps_sys_sysinfo
  keeps_sys_read keeps_sys_write keeps_sys_fstat keeps_sys_link keeps_sys_unlink keeps_sys_mkdir keeps_sys_mknod keeps_sys_chdir keeps_sys_exec : frame.
#[export] Hint Extern 2 (keeps Rz (in_f _)) => (apply keeps_in_f; by frame) : frame.
#[export] Hint Extern 2 (keeps Rz (k_fs _)) => (apply keeps_k_fs; by frame) : frame.
#[export] Hint Extern 2 (keeps Rz (k_proc _)) => (apply keeps_k_proc; by frame) : frame.
