(* ===== verification/FileRefs.v ===== *)
(** * FileRefs: descriptors, references and types of open files across the system calls

    An open file is shared by descriptors of processes.  The invariant: the reference
    count of every entry of the table is the number of descriptors that hold it, an
    entry that is referenced has a type its users know, with an inode where the type
    says so, one that is not has none, and only living processes hold descriptors.
    Every system call that returns, and a process that ends, leaves it true; inside a
    call the counts may be off by the references the call itself holds ([H]) and the
    files it is making may have no type yet ([U]). *)

From S2P Require Import Prelude CString Riscv Kalloc Vm Pipe Sleeplock BufCache Log Txn Kvm Proc Fs File Lifecycle Printf Exec SysArgs SysProc SysFile Syscall Frame Bio LogCrash FsSpec.

(** ** Counting *)

Notation fentry := (Z * fdtype * option nat)%type.

Definition one (b : bool) : Z := if b then 1 else 0.
Fixpoint cnt (f : nat) (l : list (option nat)) : Z :=
  match l with [] => 0 | x :: l => one (bool_decide (x = Some f)) + cnt f l end.
Fixpoint refs (f : nat) (O : list (list (option nat))) : Z :=
  match O with [] => 0 | l :: Os => cnt f l + refs f Os end.

Lemma cnt_insert f l i old new : l !! i = Some old ->
  cnt f (<[i := new]> l) = cnt f l - one (bool_decide (old = Some f)) + one (bool_decide (new = Some f)).
Proof. revert i. induction l as [|x l IH]; intros [|i] E; simplify_eq/=; [lia|]. rewrite (IH i E). lia. Qed.
Lemma refs_insert f O p l l' : O !! p = Some l -> refs f (<[p := l']> O) = refs f O - cnt f l + cnt f l'.
Proof. revert p. induction O as [|x O IH]; intros [|p] E; simplify_eq/=; [lia|]. rewrite (IH p E). lia. Qed.
Lemma cnt_nonneg f l : 0 <= cnt f l.
Proof. induction l as [|x l IH]; simpl; [done|]. unfold one. case_bool_decide; lia. Qed.
Lemma refs_nonneg f O : 0 <= refs f O.
Proof. induction O as [|l O IH]; simpl; [done|]. pose proof (cnt_nonneg f l). lia. Qed.
Lemma cnt_slot f l i : l !! i = Some (Some f) -> 1 <= cnt f l.
Proof.
  revert i. induction l as [|x l IH]; intros [|i] E; simplify_eq/=.
  - rewrite bool_decide_eq_true_2 by done. pose proof (cnt_nonneg f l). unfold one. lia.
  - specialize (IH i E). unfold one. case_bool_decide; lia.
Qed.
Lemma refs_slot f O p l i : O !! p = Some l -> l !! i = Some (Some f) -> 1 <= refs f O.
Proof.
  revert p. induction O as [|x O IH]; intros [|p] E Ei; simplify_eq/=.
  - apply cnt_slot in Ei. pose proof (refs_nonneg f O). lia.
  - specialize (IH p E Ei). pose proof (cnt_nonneg f x). lia.
Qed.

(** ** The invariant on the tables *)

Definition typed (v : fentry) : Prop :=
  let '(r, t, ip) := v in
  match t with
  | FD_NONE => r = 0
  | FD_PIPE => 1 <= r
  | FD_INODE | FD_DEVICE => 1 <= r /\ is_Some ip
  end.

Record ok (H : nat -> Z) (U : list nat) (O : list (list (option nat))) (V : list fentry) : Prop := {
  ok_len : length V = NFILE;
  ok_ofs : Forall (fun l => length l = NOFILE) O;
  ok_valid : forall f p l i, O !! p = Some l -> l !! i = Some (Some f) -> (f < NFILE)%nat;
  ok_refs : forall f v, V !! f = Some v -> v.1.1 = refs f O + H f;
  ok_typed : forall f v, V !! f = Some v -> f ∉ U -> typed v
}.

Definition none_held : nat -> Z := fun _ => 0.
Definition hold_ref (f : nat) (d : Z) (H : nat -> Z) : nat -> Z := fun g => H g + (if decide (g = f) then d else 0).

Lemma ok_ext H H' U O V : (forall f, H f = H' f) -> ok H U O V -> ok H' U O V.
Proof. intros E [? ? ? Hr ?]. split; try done. intros f v Ev. rewrite <- E. by apply Hr. Qed.
Lemma ok_weaken H U U' O V : U ⊆ U' -> ok H U O V -> ok H U' O V.
Proof. intros HU [? ? ? ? Ht]. split; try done. intros f v Ev Hf. apply (Ht f v Ev). set_solver. Qed.

(** An entry changes: its count by [d], or the change completes it. *)
Lemma ok_entry H U O V f v v' d : ok H U O V -> V !! f = Some v -> v'.1.1 = v.1.1 + d -> (f ∉ U -> typed v') -> ok (hold_ref f d H) U O (<[f := v']> V).
Proof.
  intros [Hl Ho Hv Hr Ht] Ev Ed Hty. split; try done.
  - by rewrite length_insert.
  - intros g w. unfold hold_ref. case_decide as E; [subst g|].
    + rewrite list_lookup_insert_eq by (by eapply lookup_lt_Some). intros [= <-]. rewrite Ed, (Hr f v Ev). lia.
    + rewrite list_lookup_insert_ne by done. intros Ew. rewrite (Hr g w Ew). lia.
  - intros g w Ew HU. destruct (decide (g = f)) as [->|Hne].
    + rewrite list_lookup_insert_eq in Ew by (by eapply lookup_lt_Some). simplify_eq. by apply Hty.
    + rewrite list_lookup_insert_ne in Ew by done. by eapply Ht.
Qed.
Lemma ok_complete H U O V f v : ok H (f :: U) O V -> V !! f = Some v -> typed v -> ok H U O V.
Proof.
  intros [Hl Ho Hv Hr Ht] Ev Hty. split; try done. intros g w Ew HU. destruct (decide (g = f)) as [->|Hne]; [by simplify_eq|].
  apply (Ht g w Ew). by apply not_elem_of_cons.
Qed.

(** A descriptor changes. *)
Lemma ok_slot H U O V p l i old new : ok H U O V -> O !! p = Some l -> l !! i = Some old -> (forall f, new = Some f -> (f < NFILE)%nat) ->
  ok (fun g => H g + one (bool_decide (old = Some g)) - one (bool_decide (new = Some g))) U (<[p := <[i := new]> l]> O) V.
Proof.
  intros [Hl Ho Hv Hr Ht] El Ei Hnew. split; try done.
  - apply Forall_insert; [done|]. rewrite length_insert. rewrite Forall_forall in Ho. eapply Ho, list_elem_of_lookup_2, El.
  - intros f q m j Eq Ej. destruct (decide (p = q)) as [<-|Hpq]; [|rewrite list_lookup_insert_ne in Eq by done; by eapply Hv].
    rewrite list_lookup_insert_eq in Eq by (by eapply lookup_lt_Some). simplify_eq. destruct (decide (i = j)) as [<-|Hij].
    + rewrite list_lookup_insert_eq in Ej by (by eapply lookup_lt_Some). simplify_eq. by apply Hnew.
    + rewrite list_lookup_insert_ne in Ej by done. by eapply Hv.
  - intros f v Ev. rewrite (refs_insert f O p l _ El), (cnt_insert f l i old new Ei), (Hr f v Ev). lia.
Qed.

(** The same steps on a table where nothing is held. *)
Definition closed (v : fentry) : fentry := if v.1.1 =? 1 then (0, FD_NONE, v.2) else (v.1.1 - 1, v.1.2, v.2).

Lemma typed_closed v : 1 <= v.1.1 -> typed v -> typed (closed v).
Proof. destruct v as [[r t] ip]. unfold closed. simpl. intros Hr Ht. destruct (Z.eqb_spec r 1) as [->|]; [done|]. destruct t; simpl; intuition lia. Qed.
Lemma closed_ref v : 1 <= v.1.1 -> (closed v).1.1 = v.1.1 + -1.
Proof. intros Hr. unfold closed. destruct (Z.eqb_spec v.1.1 1); simpl; lia. Qed.
Lemma ok_lookup H U O V f p l i : ok H U O V -> O !! p = Some l -> l !! i = Some (Some f) -> exists v, V !! f = Some v.
Proof. intros Hok El Ei. apply lookup_lt_is_Some. rewrite (ok_len _ _ _ _ Hok). by eapply ok_valid. Qed.

Lemma ok_dup O V f v p l i : ok none_held [] O V -> V !! f = Some v -> 1 <= v.1.1 -> O !! p = Some l -> l !! i = Some None ->
  ok none_held [] (<[p := <[i := Some f]> l]> O) (<[f := (v.1.1 + 1, v.1.2, v.2)]> V).
Proof.
  intros Hok Ev Hr El Ei. assert (f < NFILE)%nat as Hf by (rewrite <- (ok_len _ _ _ _ Hok); by eapply lookup_lt_Some).
  pose proof (ok_entry _ _ _ _ f v (v.1.1 + 1, v.1.2, v.2) 1 Hok Ev eq_refl) as H1.
  eapply ok_ext; [|eapply ok_slot; [apply H1|exact El|exact Ei|intros ? [= <-]; done]].
  - intros g. unfold hold_ref, none_held. rewrite (bool_decide_eq_false_2 (None = Some g)) by done. unfold one. destruct (decide (g = f)) as [->|Hne]; [rewrite bool_decide_eq_true_2 by done; lia | rewrite bool_decide_eq_false_2 by congruence; lia].
  - intros Hn. pose proof (ok_typed _ _ _ _ Hok f v Ev Hn) as Ht. destruct v as [[r t] ip]. destruct t; simpl in *; intuition lia.
Qed.
Lemma ok_drop O V f v p l i : ok none_held [] O V -> V !! f = Some v -> 1 <= v.1.1 -> O !! p = Some l -> l !! i = Some (Some f) ->
  ok none_held [] (<[p := <[i := None]> l]> O) (<[f := closed v]> V).
Proof.
  intros Hok Ev Hr El Ei. pose proof (ok_entry _ _ _ _ f v (closed v) (-1) Hok Ev (closed_ref _ Hr)) as H1.
  eapply ok_ext; [|eapply ok_slot; [apply H1|exact El|exact Ei|done]].
  - intros g. unfold hold_ref, none_held. rewrite (bool_decide_eq_false_2 (None = Some g)) by done. unfold one. destruct (decide (g = f)) as [->|Hne]; [rewrite bool_decide_eq_true_2 by done; lia | rewrite bool_decide_eq_false_2 by congruence; lia].
  - intros Hn. apply typed_closed; [done|]. by apply (ok_typed _ _ _ _ Hok f).
Qed.

(** The same for a file that is being made. *)
Lemma ok_alloc H U O V f v : ok H U O V -> V !! f = Some v -> v.1.1 = 0 -> ok (hold_ref f 1 H) (f :: U) O (<[f := (1, v.1.2, v.2)]> V).
Proof.
  intros Hok Ev Hr. eapply (ok_entry _ _ _ _ f v (1, v.1.2, v.2) 1); [eapply ok_weaken, Hok; set_solver|done|simpl; lia|].
  intros Hn. exfalso. apply Hn. by left.
Qed.
Lemma ok_close H U O V f v : ok H U O V -> V !! f = Some v -> 1 <= v.1.1 -> ok (hold_ref f (-1) H) U O (<[f := closed v]> V).
Proof. intros Hok Ev Hr. eapply ok_entry; [done|done|by apply closed_ref|]. intros Hn. apply typed_closed; [done|]. by apply (ok_typed _ _ _ _ Hok f). Qed.
Lemma ok_close_new H U O V f v : ok H (f :: U) O V -> V !! f = Some v -> v.1.1 = 1 -> ok (hold_ref f (-1) H) U O (<[f := closed v]> V).
Proof.
  intros Hok Ev Hr. eapply ok_complete; [eapply ok_close; [done|done|lia]|apply list_lookup_insert_eq; by eapply lookup_lt_Some|].
  unfold closed. by rewrite Hr.
Qed.
Lemma ok_set H U O V f v v' : ok H (f :: U) O V -> V !! f = Some v -> v'.1.1 = v.1.1 -> ok H (f :: U) O (<[f := v']> V).
Proof.
  intros Hok Ev Hr. eapply ok_ext; [|eapply (ok_entry _ _ _ _ f v v' 0 Hok Ev); [lia|]].
  - intros g. unfold hold_ref. destruct (decide _); lia.
  - intros Hn. exfalso. apply Hn. by left.
Qed.
Ltac refs_ext := let g := fresh in intros g; unfold hold_ref, none_held, one; repeat (case_bool_decide || case_decide); simplify_eq; lia.

(** ** The operations on the table *)

Section Files.
Context {T : Type} `{Txn T} {D : Type}.
Variables kend trampoline forkret_addr proc_base : Z.
Notation fstate := (@fstate T D).
Implicit Types s : fstate.

Definition kp (s : fstate) : kproc := f_k (fs_sys s).

(** What the state shows of the tables: [p] runs, and it and the processes of [L] live. *)
Record sees (p : nat) (L : list nat) (O : list (list (option nat))) (V : list fentry) (s : fstate) : Prop := {
  se_cur : cur (kp s) = Some p;
  se_ofs : ofs (kp s) = O;
  se_view : fview s = V;
  se_kinv : kinv (kp s);
  se_live : Forall (fun i => living i (kp s)) (p :: L)
}.

Lemma sees_Rs p L O V s s' : Rs s s' -> sees p L O V s -> sees p L O V s'.
Proof.
  intros [(Ho & Hc & Hk & Hl) Hv] [Ec Eo Ev Hi Hlv]. split; unfold kp in *; try congruence; [by apply Hk|]. eapply Forall_impl; [exact Hlv|done].
Qed.
Lemma sees_alive p L O V s : sees p L O V s -> alive (kp s).
Proof. intros Hs. exists p. split; [apply (se_cur _ _ _ _ _ Hs)|]. pose proof (se_live _ _ _ _ _ Hs) as [Hp _]%Forall_cons. exact Hp. Qed.

(** Where a call may wait. *)
Variable B : fstate -> Prop.
Hypothesis HB : forall s, alive (kp s) -> B s.

Lemma sees_B p L O V s : sees p L O V s -> B s.
Proof. intros Hs. eapply HB, sees_alive, Hs. Qed.

Lemma fstep {A A'} (m : M fstate A) (k : A -> M fstate A') Q p L O V s : keeps Rs m -> sees p L O V s ->
  (forall a s', sees p L O V s' -> post (k a) Q B s') -> post (m ≫= k) Q B s.
Proof. intros Hm Hs Hk. eapply (post_keeps Rs); [done| |]; intros; [eapply sees_B, sees_Rs; done|]. apply Hk. by eapply sees_Rs. Qed.
Lemma flast {A} (m : M fstate A) p L O V s : keeps Rs m -> sees p L O V s -> post m (fun _ s' => sees p L O V s') B s.
Proof. intros Hm Hs. eapply (post_end Rs); [done| |]; intros; [eapply sees_B, sees_Rs; done|]. by eapply sees_Rs. Qed.

Lemma post_flget {A A'} f (g : file -> A) (k : A -> M fstate A') Q p L O V s : sees p L O V s ->
  (forall x, V !! f = Some (fshape x) -> post (k (g x)) Q B s) -> post (flget f g ≫= k) Q B s.
Proof.
  intros Hs Hk. unfold flget. apply post_bind, post_arr. intros x Ex. unfold post at 1. simpl. apply Hk.
  rewrite <- (se_view _ _ _ _ _ Hs). unfold fview. by rewrite list_lookup_fmap, Ex.
Qed.
Lemma post_flupd {A'} f g g' (k : unit -> M fstate A') Q p L O V s : (forall x, fshape (g x) = g' (fshape x)) -> sees p L O V s ->
  (forall v s', V !! f = Some v -> sees p L O (<[f := g' v]> V) s' -> post (k tt) Q B s') -> post (flupd f g ≫= k) Q B s.
Proof.
  intros Hg Hs Hk. unfold flupd. apply post_bind, post_arr. intros x Ex. unfold post at 1. simpl.
  apply (Hk (fshape x)); [rewrite <- (se_view _ _ _ _ _ Hs); unfold fview; by rewrite list_lookup_fmap, Ex|].
  destruct Hs as [Ec Eo Ev Hi Hlv]. split; try done. rewrite <- Ev. unfold fview. simpl. by rewrite list_fmap_insert, Hg.
Qed.

(** [acquire] and [release] of [ftable.lock], and whatever else has the frame. *)
Ltac fgo Hs := eapply fstep; [solve [frame] | exact Hs | clear Hs; intros ? ? Hs].

Lemma post_filealloc p L O V s : sees p L O V s ->
  post filealloc (fun r s' => match r with
    | Some f => exists v, V !! f = Some v /\ v.1.1 = 0 /\ sees p L O (<[f := (1, v.1.2, v.2)]> V) s'
    | None => sees p L O V s' end) B s.
Proof.
  intros Hs. unfold filealloc. fgo Hs. apply post_bind.
  eapply post_mono; [| |apply (post_for_each (sees p L O V) (fun f s' => exists v, V !! f = Some v /\ v.1.1 = 0 /\ sees p L O (<[f := (1, v.1.2, v.2)]> V) s') B); [exact Hs|]].
  - intros [f|] s1 H1; [done|]. fgo H1. done.
  - done.
  - clear Hs. intros f s1 _ Hs. eapply post_flget; [exact Hs|]. intros x Ex. destruct (Z.eqb_spec (fl_ref x) 0) as [E|E]; [|done].
    eapply (post_flupd _ _ (fun v => (1, v.1.2, v.2))); [done|exact Hs|]. intros v s2 Ev H1. fgo H1. exists v. split_and!; [done| |done].
    rewrite Ex in Ev. simplify_eq. done.
Qed.

Lemma post_filedup f p L O V s : sees p L O V s ->
  post (filedup f) (fun r s' => r = f /\ exists v, V !! f = Some v /\ 1 <= v.1.1 /\ sees p L O (<[f := (v.1.1 + 1, v.1.2, v.2)]> V) s') B s.
Proof.
  intros Hs. unfold filedup. fgo Hs. eapply post_flget; [exact Hs|]. intros x Ex. destruct (Z.ltb_spec (fl_ref x) 1) as [E|E]; [done|].
  eapply (post_flupd _ _ (fun v => (fl_ref x + 1, v.1.2, v.2))); [done|exact Hs|]. intros v s1 Ev H1. fgo H1. split; [done|]. exists v.
  rewrite Ex in Ev. simplify_eq. done.
Qed.

Lemma post_fileclose f p L O V s : sees p L O V s ->
  post (fileclose kend f) (fun _ s' => exists v, V !! f = Some v /\ 1 <= v.1.1 /\ sees p L O (<[f := closed v]> V) s') B s.
Proof.
  intros Hs. unfold fileclose. fgo Hs. eapply post_flget; [exact Hs|]. intros x Ex. destruct (Z.ltb_spec (fl_ref x) 1) as [E|E]; [done|].
  eapply (post_flupd _ _ (fun v => (fl_ref x - 1, v.1.2, v.2))); [done|exact Hs|]. intros v s1 Ev H1. rewrite Ex in Ev. simplify_eq. cbn [fst snd] in H1.
  destruct (Z.ltb_spec 0 (fl_ref x - 1)) as [E1|E1].
  - eapply post_mono; [| |eapply flast; [frame | exact H1]]; [|done]. intros u s2 H2. exists (fshape x). split_and!; [done|done|].
    unfold closed. simpl. rewrite (proj2 (Z.eqb_neq _ 1)) by lia. done.
  - eapply post_flget; [exact H1|]. intros y Ey. rewrite list_lookup_insert_eq in Ey by (by eapply lookup_lt_Some). simplify_eq.
    eapply (post_flupd _ _ (fun v => (0, FD_NONE, v.2))); [done|exact H1|]. intros v s2 Ev H2. rewrite list_lookup_insert_eq in Ev by (by eapply lookup_lt_Some).
    simplify_eq. rewrite list_insert_insert_eq in H2. fgo H2.
    eapply post_mono; [| |eapply flast; [|exact H2]]; [|done|].
    + intros u s3 H3. exists (fshape x). split_and!; [done|done|]. unfold closed. simpl. rewrite (proj2 (Z.eqb_eq _ 1)) by lia. done.
    + unfold id. frame.
Qed.

Lemma post_in_proc {A A'} (m : M kproc A) (k : A -> M fstate A') Q s :
  post m (fun a k' => post (k a) Q B (sets_sys (setf_k k' (fs_sys s)) s)) (fun k' => B (sets_sys (setf_k k' (fs_sys s)) s)) (kp s) -> post (in_proc m ≫= k) Q B s.
Proof. intros Hm. apply post_bind. unfold in_proc. by do 2 apply post_zoom. Qed.

Lemma post_me {A'} (k : nat -> M fstate A') Q p L O V s : sees p L O V s -> post (k p) Q B s -> post (in_proc me ≫= k) Q B s.
Proof.
  intros Hs Hk. apply post_in_proc. unfold me, myproc. apply post_gets. change (f_k (fs_sys s)) with (kp s). rewrite (se_cur _ _ _ _ _ Hs).
  unfold post at 1. simpl. by destruct s as [[] ? ? ? ?].
Qed.
Lemma post_files {A'} q (k : list (option nat) -> M fstate A') Q p L O V s : sees p L O V s -> (forall l, O !! q = Some l -> post (k l) Q B s) ->
  post (in_proc (pget q p_ofile) ≫= k) Q B s.
Proof.
  intros Hs Hk. apply post_in_proc. unfold pget. apply post_arr. intros x Ex. unfold post at 1. simpl.
  assert (O !! q = Some (p_ofile x)) as El by (rewrite <- (se_ofs _ _ _ _ _ Hs); unfold ofs; by rewrite list_lookup_fmap, Ex).
  specialize (Hk _ El). by destruct s as [[] ? ? ? ?].
Qed.

Lemma kinv_slot k q r fd x : kinv k -> procs k !! q = Some r -> (x = None \/ living q k) ->
  kinv (upd_proc q (fun _ => setp_ofile (<[fd := x]> (p_ofile r)) r) k).
Proof.
  intros Hk Er Hx i t. unfold upd_proc. simpl. destruct (decide (q = i)) as [<-|Hi]; [|rewrite list_lookup_alter_ne by done; apply Hk].
  rewrite list_lookup_alter_eq, Er. simpl. intros [= <-] Hd. change (dead r = true) in Hd. unfold nofiles. simpl.
  destruct Hx as [->|(r' & Er' & Hr')]; [|congruence]. apply Forall_insert; [|done]. by apply (Hk q r).
Qed.

(** [p->ofile[fd] = x] *)
Lemma post_slot {A'} q fd x (k : unit -> M fstate A') Q p L O V s : sees p L O V s -> (x = None \/ q ∈ p :: L) ->
  (forall l s', O !! q = Some l -> sees p L (<[q := <[fd := x]> l]> O) V s' -> post (k tt) Q B s') ->
  post (in_proc (pupd q (fun r => setp_ofile (<[fd := x]> (p_ofile r)) r)) ≫= k) Q B s.
Proof.
  intros Hs Hx Hk. apply post_in_proc. unfold pupd. apply post_arr. intros r Er. unfold post at 1. simpl. change (f_k (fs_sys s)) with (kp s) in *.
  destruct Hs as [Ec Eo Ev Hi Hl]. apply (Hk (p_ofile r)); [rewrite <- Eo; unfold ofs; by rewrite list_lookup_fmap, Er|]. split; try done.
  - rewrite <- Eo. unfold ofs, upd_proc. cbn [kp fs_sys sets_sys setf_k f_k setk_procs procs]. apply list_eq. intros j. rewrite list_lookup_fmap. destruct (decide (q = j)) as [<-|Hj].
    + rewrite list_lookup_alter_eq, Er, list_lookup_insert_eq; [done|]. rewrite length_fmap. by eapply lookup_lt_Some.
    + by rewrite list_lookup_alter_ne, list_lookup_insert_ne, list_lookup_fmap.
  - apply kinv_slot; [done|done|]. destruct Hx as [->|Hx]; [by left|right]. rewrite Forall_forall in Hl. by apply Hl.
  - eapply Forall_impl; [exact Hl|]. intros i (t & Et & Hd). unfold living, upd_proc. cbn [kp fs_sys sets_sys setf_k f_k setk_procs procs]. destruct (decide (q = i)) as [<-|Hj].
    + rewrite list_lookup_alter_eq, Er. simpl. eexists. split; [done|]. change (dead r = false). congruence.
    + rewrite list_lookup_alter_ne by done. by exists t.
Qed.

(** ** Processes *)

Definition good (p : nat) (L : list nat) (s : fstate) : Prop := exists O V, sees p L O V s /\ ok none_held [] O V.

Lemma good_Rs p L s s' : Rs s s' -> good p L s -> good p L s'.
Proof. intros HR (O & V & Hs & Hok). exists O, V. split; [by eapply sees_Rs | done]. Qed.

Lemma post_dup_files p np s O V ln : np <> p -> sees p [np] O V s -> ok none_held [] O V -> O !! np = Some ln -> Forall (fun f => f = None) ln ->
  post (dup_files p np) (fun _ s' => good p [np] s') B s.
Proof.
  intros Hne Hs Hok En Hn. unfold dup_files. apply post_bind.
  assert (forall n a s O V ln, (a + n = NOFILE)%nat -> sees p [np] O V s -> ok none_held [] O V -> O !! np = Some ln -> (forall j x, (a <= j)%nat -> ln !! j = Some x -> x = None) ->
    post (for_each (R := unit) (seq a n) (fun i => files ← in_proc (pget p p_ofile);
      match files !! i with
      | None => undefined
      | Some None => mret None
      | Some (Some f) => f' ← filedup f; in_proc (pupd np (fun q => setp_ofile (<[i := Some f']> (p_ofile q)) q));; mret None
      end)) (fun _ s' => good p [np] s') B s) as Hloop.
  { clear dependent s O V ln. induction n as [|n IH]; intros a s O V ln Ha Hs Hok En Hn; [by exists O, V|]. cbn [seq for_each]. apply post_bind.
    eapply post_files; [exact Hs|]. intros l El. destruct (l !! a) as [[f|]|] eqn:Ea; [| |done].
    2:{ unfold post at 1. simpl. eapply (IH (S a)); [lia|exact Hs|done|exact En|]. intros j x Hj. apply Hn. lia. }
    apply post_bind. eapply post_mono; [| |by eapply post_filedup]; [|done]. intros r s1 (-> & v & Ev & Hr & H1).
    eapply post_slot; [exact H1|right; right; by left|]. intros ln' s2 En' H2. rewrite En in En'. simplify_eq. unfold post at 1. simpl.
    assert (ln' !! a = Some None) as Eln.
    { destruct (ln' !! a) as [x|] eqn:E; [by rewrite (Hn a x)|]. apply lookup_ge_None in E. pose proof (ok_ofs _ _ _ _ Hok) as Ho.
      rewrite Forall_forall in Ho. rewrite (Ho ln') in E by (by eapply list_elem_of_lookup_2). lia. }
    eapply (IH (S a)); [lia|exact H2|by eapply ok_dup|apply list_lookup_insert_eq; by eapply lookup_lt_Some|].
    intros j x Hj. rewrite list_lookup_insert_ne by lia. apply Hn. lia. }
  eapply post_mono; [| |eapply (Hloop NOFILE 0%nat); [done|exact Hs|done|exact En|]]; [done|done|].
  intros j x _ Ex. rewrite Forall_forall in Hn. by eapply Hn, list_elem_of_lookup_2.
Qed.

(** The steps of a routine on a table without open references. *)
Lemma gstep {A A'} (m : M fstate A) (k : A -> M fstate A') Q p L s : keeps Rs m -> good p L s ->
  (forall a s', good p L s' -> post (k a) Q B s') -> post (m ≫= k) Q B s.
Proof.
  intros Hm (O & V & Hs & Hok) Hk. eapply fstep; [done|exact Hs|]. intros a s' Hs'. apply Hk. by exists O, V.
Qed.
Ltac ggo Hg := eapply gstep; [solve [frame] | exact Hg | clear Hg; intros ? ? Hg].

Lemma good_living p L i s : good p L s -> i ∈ p :: L -> living i (kp s).
Proof. intros (O & V & Hs & _) Hi. pose proof (se_live _ _ _ _ _ Hs) as Hl. rewrite Forall_forall in Hl. by apply Hl. Qed.
Lemma good_more p L i s : good p L s -> living i (kp s) -> good p (i :: L) s.
Proof.
  intros (O & V & [Ec Eo Ev Hk Hl] & Hok) Hi. exists O, V. split; [|done]. split; try done. apply Forall_cons in Hl as [Hp Hl]. by repeat constructor.
Qed.
Lemma good_less p L i s : good p (i :: L) s -> good p L s.
Proof.
  intros (O & V & [Ec Eo Ev Hk Hl] & Hok). exists O, V. split; [|done]. split; try done. apply Forall_cons in Hl as [Hp Hl]. apply Forall_cons in Hl as [_ Hl]. by constructor.
Qed.

Lemma Rs_proc s k' : Rk (kp s) k' -> Rs s (sets_sys (setf_k k' (fs_sys s)) s).
Proof. done. Qed.

(** The same, keeping what relates the state to an earlier one. *)
Lemma rstep {A A'} (m : M fstate A) (k : A -> M fstate A') Q p L s0 s : keeps Rs m -> Rs s0 s -> good p L s ->
  (forall a s', Rs s0 s' -> good p L s' -> post (k a) Q B s') -> post (m ≫= k) Q B s.
Proof.
  intros Hm H0 Hg Hk. eapply (post_keeps Rs); [done| |]; intros; [destruct Hg as (O & V & Hs & Hok); eapply sees_B, sees_Rs; done|].
  apply Hk; [by etransitivity | by eapply good_Rs].
Qed.
Ltac rgo H0 Hg := eapply rstep; [solve [frame] | exact H0 | exact Hg | clear H0 Hg; intros ? ? H0 Hg].

Lemma post_fork p s : good p [] s -> post (fork kend trampoline forkret_addr) (fun _ s' => good p [] s') B s.
Proof.
  intros Hg. pose proof Hg as (O & V & Hs & Hok). unfold fork. eapply post_me; [exact Hs|]. apply post_in_proc.
  eapply post_mono; [| |apply post_allocproc, (se_kinv _ _ _ _ _ Hs)]; cycle 1.
  { intros k' Hk'. eapply sees_B, sees_Rs, Hs. by apply Rs_proc. }
  intros [np|] k' [Hk' Hnp]; [|eapply good_Rs, Hg; by apply Rs_proc]. destruct Hnp as [Hsp Hl].
  assert (np <> p) as Hne by (intros ->; apply Hsp; eapply good_living; [exact Hg|by left]).
  set (s1 := sets_sys _ s). assert (Rs s s1 /\ living np (kp s1)) as [H1 Hl1] by (split; [by apply Rs_proc|done]). clearbody s1. clear dependent k'.
  assert (good p [np] s1) as Hg1 by (apply good_more; [by eapply good_Rs|done]). clear Hl1.
  do 4 rgo H1 Hg1. destruct (_ <? 0).
  - apply post_in_proc. eapply post_mono; [| |apply (post_freeproc _ _ (kp s)); [apply H1|exact Hsp]].
    + intros u k2 H2. eapply (gstep _ _ _ p []); [frame | eapply good_Rs, Hg; split; [exact H2|apply H1] |]. done.
    + intros k2 H2. eapply sees_B, sees_Rs, Hs. split; [done|apply H1].
  - do 5 rgo H1 Hg1. apply post_bind.
    destruct (good_living _ _ np _ Hg1) as (q & Eq & _); [right; by left|]. destruct Hg1 as (O' & V' & Hs' & Hok').
    eapply post_mono; [| |eapply post_dup_files; [exact Hne|exact Hs'|done| |]].
    + intros u s2 Hg2. repeat ggo Hg2. by eapply good_less.
    + done.
    + rewrite <- (se_ofs _ _ _ _ _ Hs'). unfold ofs. by rewrite list_lookup_fmap, Eq.
    + apply (proj1 Hsp). unfold kp in *. rewrite <- (proj1 (proj1 H1)). unfold ofs. by rewrite list_lookup_fmap, Eq.
Qed.

Lemma post_close_files p s : good p [] s ->
  post (close_files kend p) (fun _ s' => good p [] s' /\ forall l, ofs (kp s') !! p = Some l -> Forall (fun f => f = None) l) B s.
Proof.
  intros (O & V & Hs & Hok). unfold close_files. apply post_bind.
  assert (forall n a s O V, (a + n = NOFILE)%nat -> sees p [] O V s -> ok none_held [] O V -> (forall l j x, O !! p = Some l -> (j < a)%nat -> l !! j = Some x -> x = None) ->
    post (for_each (R := unit) (seq a n) (fun fd => files ← in_proc (pget p p_ofile);
      match files !! fd with
      | None => undefined
      | Some None => mret None
      | Some (Some f) => fileclose kend f;; in_proc (pupd p (fun q => setp_ofile (<[fd := None]> (p_ofile q)) q));; mret None
      end)) (fun _ s' => good p [] s' /\ forall l, ofs (kp s') !! p = Some l -> Forall (fun f => f = None) l) B s) as Hloop.
  { clear dependent s O V. induction n as [|n IH]; intros a s O V Ha Hs Hok Hn.
    { split; [by exists O, V|]. intros l El. apply Forall_forall. intros x Hx. apply list_elem_of_lookup in Hx as [j Ej].
      rewrite (se_ofs _ _ _ _ _ Hs) in El. eapply (Hn l j x El); [|done]. pose proof (ok_ofs _ _ _ _ Hok) as Ho. rewrite Forall_forall in Ho.
      apply lookup_lt_Some in Ej. rewrite (Ho l) in Ej by (by eapply list_elem_of_lookup_2). lia. }
    cbn [seq for_each]. apply post_bind. eapply post_files; [exact Hs|]. intros l El. destruct (l !! a) as [[f|]|] eqn:Ea; [| |done].
    2:{ unfold post at 1. simpl. eapply (IH (S a)); [lia|exact Hs|done|]. intros l' j x El' Hj Ex. rewrite El in El'. simplify_eq.
        destruct (decide (j = a)) as [->|]; [congruence|]. apply (Hn l' j x El); [lia|done]. }
    apply post_bind. eapply post_mono; [| |by eapply post_fileclose]; [|done]. intros u s1 (v & Ev & Hr & H1).
    eapply post_slot; [exact H1|by left|]. intros l' s2 El' H2. rewrite El in El'. simplify_eq. unfold post at 1. simpl.
    eapply (IH (S a)); [lia|exact H2|by eapply ok_drop|]. intros l j x El' Hj Ex. rewrite list_lookup_insert_eq in El' by (by eapply lookup_lt_Some). simplify_eq.
    destruct (decide (j = a)) as [->|].
    - rewrite list_lookup_insert_eq in Ex by (by eapply lookup_lt_Some). congruence.
    - rewrite list_lookup_insert_ne in Ex by done. apply (Hn l' j x El); [lia|done]. }
  eapply post_mono; [| |eapply (Hloop NOFILE 0%nat); [done|exact Hs|done|lia]]; done.
Qed.

(** The invariant of the tables, also after the death of the running process. *)
Definition file_inv (s : fstate) : Prop := ok none_held [] (ofs (kp s)) (fview s) /\ kinv (kp s).

Lemma good_file_inv p L s : good p L s -> file_inv s.
Proof. intros (O & V & [Ec Eo Ev Hk Hl] & Hok). split; [by rewrite Eo, Ev | done]. Qed.
Lemma file_inv_good s : file_inv s -> alive (kp s) -> exists p, good p [] s.
Proof. intros [Hok Hk] (p & Hc & Hl). exists p, (ofs (kp s)), (fview s). split; [|done]. split; try done. by repeat constructor. Qed.
Lemma file_inv_Rs s s' : Rs s s' -> file_inv s -> file_inv s'.
Proof. intros [(Ho & _ & Hk & _) Hv] [Hok Hi]. split; [unfold kp in *; by rewrite Ho, Hv | by apply Hk]. Qed.

Lemma zombie_inv s p q : file_inv s -> procs (kp s) !! p = Some q -> (forall l, ofs (kp s) !! p = Some l -> Forall (fun f => f = None) l) ->
  file_inv (sets_sys (setf_k (upd_proc p (fun _ => setp_state ZOMBIE q) (kp s)) (fs_sys s)) s).
Proof.
  intros [Hok Hk] Eq Hn. assert (Forall (fun f => f = None) (p_ofile q)) as Hq by (apply Hn; unfold ofs; by rewrite list_lookup_fmap, Eq).
  split.
  - replace (ofs _) with (ofs (kp s)); [done|]. unfold ofs, upd_proc. cbn [kp fs_sys sets_sys setf_k f_k setk_procs procs].
    apply list_eq. intros j. rewrite !list_lookup_fmap. destruct (decide (p = j)) as [<-|]; [by rewrite list_lookup_alter_eq, Eq | by rewrite list_lookup_alter_ne].
  - intros j r. unfold upd_proc. cbn [kp fs_sys sets_sys setf_k f_k setk_procs procs]. destruct (decide (p = j)) as [<-|]; [|rewrite list_lookup_alter_ne by done; apply Hk].
    rewrite list_lookup_alter_eq, Eq. simpl. by intros [= <-].
Qed.

Hypothesis HB' : forall s, file_inv s -> B s.

Lemma post_exit p s status : good p [] s -> post (exit kend proc_base status) (fun _ s' => file_inv s') B s.
Proof.
  intros Hg. pose proof Hg as (O & V & Hs & _). unfold exit. eapply post_me; [exact Hs|]. clear dependent O V. ggo Hg. destruct (decide _); [done|]. apply post_bind.
  eapply post_mono; [| |by apply post_close_files]; [|done]. intros u s1 [H1 Hn]. clear dependent s.
  assert (exists s2, s2 = s1 /\ Rs s1 s2) as (s2 & E2 & H0) by (by exists s1). rewrite <- E2 in H1 |- *. clear E2.
  do 11 rgo H0 H1. apply post_in_proc. unfold pupd. apply post_arr. intros q Eq. unfold post at 1. cbn [modify].
  set (s3 := sets_sys _ _). assert (file_inv s3) as Hinv.
  { apply zombie_inv; [by eapply good_file_inv|done|]. intros l. unfold kp. rewrite (proj1 (proj1 H0)). apply Hn. }
  eapply (post_end Rs); [frame|intros; eapply HB', file_inv_Rs; done|intros; eapply file_inv_Rs; done].
Qed.

Lemma post_wait p s addr : good p [] s -> post (wait kend proc_base addr) (fun _ s' => good p [] s') B s.
Proof.
  intros Hg. pose proof Hg as (O & V & Hs & _). unfold wait. eapply post_me; [exact Hs|]. assert (exists s2, s2 = s /\ Rs s s2) as (s2 & E2 & H0) by (by exists s).
  rewrite <- E2. assert (good p [] s2) as Hg2 by (by rewrite E2). clear E2. rgo H0 Hg2.
  assert (forall l hk s2, Rs s s2 -> good p [] s2 -> post (wait_scan kend proc_base l p addr hk) (fun _ s' => Rs s s' /\ good p [] s') B s2) as Hscan.
  { clear H0 Hg2. induction l as [|pp l IH]; intros hk s2' H0 Hg2; simpl; [done|]. rgo H0 Hg2. destruct (decide _); [|by apply IH]. rgo H0 Hg2.
    apply post_in_proc. unfold pget at 1. apply post_arr. intros q Eq. unfold post at 1. cbn [mret M_ret].
    set (s3 := sets_sys _ _). assert (Rs s s3 /\ good p [] s3) as (H3 & Hg3) by (split; [by etransitivity|by eapply good_Rs]). clearbody s3.
    destruct (is_state (p_state q) ZOMBIE) eqn:Ez; [|rgo H3 Hg3; by apply IH].
    assert (spare pp (kp s)) as Hsp.
    { eapply spare_back; [apply H0|]. eapply dead_spare; [|exact Eq|unfold dead; rewrite Ez; apply orb_true_r]. by eapply good_file_inv, Hg2. }
    apply post_bind. unfold reap. do 5 rgo H3 Hg3. destruct (_ <? 0); [do 2 rgo H3 Hg3; done|]. apply post_in_proc.
    eapply post_mono; [| |apply (post_freeproc _ _ (kp s)); [apply H3|exact Hsp]].
    - intros u k2 H2. eapply (rstep _ _ _ p [] s); [frame|split; [exact H2|apply H3]|eapply good_Rs, Hg; split; [exact H2|apply H3]|].
      clear Hg3 H3. intros ? ? H3 Hg3. rgo H3 Hg3. done.
    - intros k2 H2. eapply sees_B, sees_Rs, Hs. split; [done|apply H3]. }
  apply post_bind. eapply post_mono; [| |by apply Hscan]; [|done]. intros [pid|hk] s3 [H3 Hg3]; [done|].
  rgo H3 Hg3. destruct (negb _); [rgo H3 Hg3; done|]. unfold sleep_. do 4 rgo H3 Hg3.
  eapply (post_end Rs); [frame| |]; intros; [|by eapply good_Rs]. destruct Hg3 as (O' & V' & Hs' & _). by eapply sees_B, sees_Rs.
Qed.
End Files.

(** ** System calls *)

Section Sys.
Context {T : Type} `{Txn T} {D : Type}.
Variables kend trampoline forkret_addr proc_base ticks_addr info_addr : Z.
Variable buf_addr : nat -> Z.
Variables de_addr st_addr ch_addr elf_addr ph_addr ustack_addr ip_addr path_addr new_addr fd_addr str_addr : Z.
Notation kstate := (@kstate T D).
Implicit Types s : kstate.

(** A call that waits does so in a living process; one that ends the process leaves the tables in order. *)
Definition rest (x : @fstate T D) : Prop := alive (kp x) \/ file_inv x.
Definition krest (s : kstate) : Prop := rest (ks_f s).
Definition ksees p L O V (s : kstate) : Prop := sees p L O V (ks_f s).

Lemma rest_alive (x : @fstate T D) : alive (kp x) -> rest x.
Proof. by left. Qed.
Lemma ksees_rest p L O V s : ksees p L O V s -> krest s.
Proof. intros Hs. left. by eapply sees_alive. Qed.

Lemma kstep {A A'} (m : M kstate A) (k : A -> M kstate A') Q p L O V s : keeps Rz m -> ksees p L O V s ->
  (forall a s', ksees p L O V s' -> post (k a) Q krest s') -> post (m ≫= k) Q krest s.
Proof. intros Hm Hs Hk. eapply (post_keeps Rz); [done| |]; intros; [eapply ksees_rest, sees_Rs; done|]. apply Hk. by eapply sees_Rs. Qed.
Lemma klast {A} (m : M kstate A) p L O V s : keeps Rz m -> ksees p L O V s -> post m (fun _ s' => ksees p L O V s') krest s.
Proof. intros Hm Hs. eapply (post_end Rz); [done| |]; intros; [eapply ksees_rest, sees_Rs; done|]. by eapply sees_Rs. Qed.
Lemma post_in_f {A} (m : M (@fstate T D) A) (Q : A -> kstate -> Prop) s :
  post m (fun a x => forall s', ks_f s' = x -> Q a s') rest (ks_f s) -> post (in_f m) Q krest s.
Proof. intros Hm. unfold in_f. apply post_zoom. eapply post_mono; [| |exact Hm]; [|done]. intros a x HQ. by apply HQ. Qed.
Lemma post_eq {A A'} (m : M kstate A) (k : A -> M kstate A') Q B s a s' : m s = Ret a s' -> post (k a) Q B s' -> post (m ≫= k) Q B s.
Proof. intros E Hk. apply post_bind. unfold post at 1. by rewrite E. Qed.
Ltac kgo Hs := eapply kstep; [solve [frame] | exact Hs | clear Hs; intros ? ? Hs].

Lemma k_me p L O V s : ksees p L O V s -> k_proc me s = Ret p s.
Proof.
  intros Hs. pose proof (se_cur _ _ _ _ _ Hs) as Ec. destruct s as [[[] ? ? ? ?] ? ? ?]. unfold kp in Ec. simpl in Ec.
  unfold k_proc, in_f, in_proc, zoom, me, myproc, mbind, M_bind, gets. simpl. by rewrite Ec.
Qed.
Lemma k_files p L O V s : ksees p L O V s -> exists l, O !! p = Some l /\ k_proc (pget p p_ofile) s = Ret l s.
Proof.
  intros Hs. pose proof (se_live _ _ _ _ _ Hs) as [(q & Eq & _) _]%Forall_cons. exists (p_ofile q).
  rewrite <- (se_ofs _ _ _ _ _ Hs). split; [unfold ofs; by rewrite list_lookup_fmap, Eq|].
  destruct s as [[[] ? ? ? ?] ? ? ?]. unfold kp in Eq. simpl in Eq. unfold k_proc, in_f, in_proc, zoom, pget, mbind, M_bind, arr_get. simpl. by rewrite Eq.
Qed.
Lemma post_set_ofile {A'} fd x (k : unit -> M kstate A') Q p L O V s : ksees p L O V s ->
  (forall l s', O !! p = Some l -> ksees p L (<[p := <[fd := x]> l]> O) V s' -> post (k tt) Q krest s') -> post (set_ofile p fd x ≫= k) Q krest s.
Proof.
  intros Hs Hk. apply post_bind. unfold set_ofile, k_proc. apply post_in_f.
  assert (post (in_proc (pupd p (fun q => setp_ofile (<[fd := x]> (p_ofile q)) q)) ≫= mret)
    (fun _ y => forall s', ks_f s' = y -> post (k tt) Q krest s') rest (ks_f s)) as Hp.
  { eapply post_slot; [exact Hs|right; by left|]. intros l s1 El H1 s' <-. by eapply Hk. }
  unfold post, mbind, M_bind in Hp |- *. destruct (in_proc _ _) as [[]| | |]; done.
Qed.

Lemma post_fdalloc f p L O V s : ksees p L O V s ->
  post (fdalloc f) (fun r s' => r = -1 /\ ksees p L O V s' \/
    exists fd l, r = Z.of_nat fd /\ O !! p = Some l /\ l !! fd = Some None /\ ksees p L (<[p := <[fd := Some f]> l]> O) V s') krest s.
Proof.
  intros Hs. unfold fdalloc. eapply post_eq; [by eapply k_me|]. apply post_bind.
  eapply post_mono; [| |apply (post_for_each (ksees p L O V) (fun r s' => exists fd l, r = Z.of_nat fd /\ O !! p = Some l /\ l !! fd = Some None /\
    ksees p L (<[p := <[fd := Some f]> l]> O) V s') krest); [exact Hs|]].
  - intros [r|] s' Hr; [by right | by left].
  - done.
  - clear dependent s. intros fd s _ Hs. destruct (k_files _ _ _ _ _ Hs) as (l & El & E). eapply post_eq; [exact E|].
    destruct (l !! fd) as [[g|]|] eqn:Efd; [done| |done]. eapply post_set_ofile; [exact Hs|]. intros l' s1 El' H1. rewrite El in El'. simplify_eq.
    by exists fd, l'.
Qed.

Definition kgood (p : nat) (s : kstate) : Prop := good p [] (ks_f s).

Lemma kgstep {A} (m : M kstate A) p s : keeps Rz m -> kgood p s -> post m (fun _ s' => kgood p s') krest s.
Proof. intros Hm (O & V & Hs & Hok). eapply post_mono; [| |eapply klast; [done|exact Hs]]; [|done]. intros a s' H'. by exists O, V. Qed.

Lemma post_argfd n p L O V s : ksees p L O V s ->
  post (argfd n) (fun r s' => ksees p L O V s' /\ match r with Some (fd, f) => exists l, O !! p = Some l /\ l !! fd = Some (Some f) | None => True end) krest s.
Proof.
  intros Hs. unfold argfd. kgo Hs. destruct (_ || _); [done|]. eapply post_eq; [by eapply k_me|]. destruct (k_files _ _ _ _ _ Hs) as (l & El & E).
  eapply post_eq; [exact E|]. destruct (l !! Z.to_nat a) as [[f|]|] eqn:Ef; [|done|done]. split; [done|]. by exists l.
Qed.

Lemma post_sys_dup p s : kgood p s -> post sys_dup (fun _ s' => kgood p s') krest s.
Proof.
  intros (O & V & Hs & Hok). unfold sys_dup. apply post_bind. eapply post_mono; [| |by apply post_argfd]; [|done].
  intros [[fd f]|] s1 [H1 Hf]; [|by exists O, V]. destruct Hf as (l & El & Ef). apply post_bind. eapply post_mono; [| |by apply post_fdalloc]; [|done].
  intros r s2 [[-> H2]|(fd' & l' & -> & El' & Efd & H2)]; [by exists O, V|]. rewrite (proj2 (Z.ltb_ge _ 0)) by lia. apply post_bind, post_in_f.
  eapply post_mono; [| |eapply post_filedup; [apply rest_alive|exact H2]]; [|done]. intros r x (-> & v & Ev & Hr & H3) s3 <-.
  eexists _, _. split; [exact H3|]. by eapply ok_dup.
Qed.

Lemma post_sys_close p s : kgood p s -> post (sys_close kend) (fun _ s' => kgood p s') krest s.
Proof.
  intros (O & V & Hs & Hok). unfold sys_close. apply post_bind. eapply post_mono; [| |by apply post_argfd]; [|done].
  intros [[fd f]|] s1 [H1 Hf]; [|by exists O, V]. destruct Hf as (l & El & Ef). eapply post_eq; [by eapply k_me|].
  eapply post_set_ofile; [exact H1|]. intros l' s2 El' H2. rewrite El in El'. simplify_eq. apply post_bind, post_in_f.
  eapply post_mono; [| |eapply post_fileclose; [apply rest_alive|exact H2]]; [|done]. intros u x (v & Ev & Hr & H3) s3 <-.
  eexists _, _. split; [exact H3|]. by eapply ok_drop.
Qed.

Lemma post_kflupd {A'} f g g' (k : unit -> M kstate A') Q p L O V s : (forall x, fshape (g x) = g' (fshape x)) -> ksees p L O V s ->
  (forall v s', V !! f = Some v -> ksees p L O (<[f := g' v]> V) s' -> post (k tt) Q krest s') -> post (in_f (flupd f g) ≫= k) Q krest s.
Proof.
  intros Hg Hs Hk. apply post_bind, post_in_f.
  assert (post (flupd f g ≫= mret) (fun _ y => forall s', ks_f s' = y -> post (k tt) Q krest s') rest (ks_f s)) as Hp.
  { eapply post_flupd; [exact Hg|exact Hs|]. intros v y Ev H1 s' <-. by eapply Hk. }
  unfold post, mbind, M_bind in Hp |- *. destruct (flupd _ _ _) as [[]| | |]; done.
Qed.

Lemma post_open_inode ip omode p s : kgood p s -> post (open_inode kend ip omode) (fun _ s' => kgood p s') krest s.
Proof.
  intros (O & V & Hs & Hok). unfold open_inode. do 2 kgo Hs. destruct (_ && _); [apply kgstep; [frame|by exists O, V]|]. apply post_bind, post_in_f.
  eapply post_mono; [| |eapply post_filealloc; [apply rest_alive|exact Hs]]; [|done].
  intros [f|] x; [|intros H1 s1 <-; apply kgstep; [frame|by exists O, V]]. intros (v & Ev & Hr & H1) s1 <-. pose proof (ok_alloc _ _ _ _ _ _ Hok Ev Hr) as Hok1.
  assert (forall w, <[f := w]> V !! f = Some w) as Elook by (intros w; apply list_lookup_insert_eq; by eapply lookup_lt_Some).
  apply post_bind. eapply post_mono; [| |by apply post_fdalloc]; [|done]. intros r s2 [[-> H2]|(fd & l & -> & El & Efd & H2)].
  - apply post_bind, post_in_f. eapply post_mono; [| |eapply post_fileclose; [apply rest_alive|exact H2]]; [|done]. intros u x (w & Ew & Hw & H3) s3 <-.
    apply kgstep; [frame|]. eexists _, _. split; [exact H3|]. rewrite Elook in Ew. simplify_eq.
    eapply ok_ext; [|eapply ok_close_new; [exact Hok1|apply Elook|done]]. refs_ext.
  - rewrite (proj2 (Z.ltb_ge _ 0)) by lia.
    assert (ok none_held [f] (<[p := <[fd := Some f]> l]> O) (<[f := (1, v.1.2, v.2)]> V)) as Hok2.
    { eapply ok_ext; [|eapply ok_slot; [exact Hok1|exact El|exact Efd|]]; [refs_ext|]. intros ? [= <-]. rewrite <- (ok_len _ _ _ _ Hok). by eapply lookup_lt_Some. }
    assert (forall ty, (ty = FD_DEVICE \/ ty = FD_INODE) -> forall s3, ksees p [] (<[p := <[fd := Some f]> l]> O) (<[f := (1, ty, v.2)]> V) s3 ->
      post (in_f (flupd f (setl_ip (Some ip)));;
            in_f (flupd f (setl_readable (negb (has omode O_WRONLY))));;
            in_f (flupd f (setl_writable (has omode O_WRONLY || has omode O_RDWR)));;
            when (has omode O_TRUNC && (a =? T_FILE)) (k_fs (itrunc ip));;
            k_fs (iunlock (Some ip));;
            kend_op;;
            mret (Z.of_nat fd)) (fun _ s' => kgood p s') krest s3) as Hend.
    { intros ty Hty s3 H3. eapply (post_kflupd _ _ (fun w => (w.1, Some ip))); [done|exact H3|]. intros w s4 Ew H4. rewrite Elook in Ew. simplify_eq. cbn [fst snd] in H4.
      rewrite list_insert_insert_eq in H4. apply kgstep; [frame|]. eexists _, _. split; [exact H4|].
      apply (ok_complete _ _ _ _ f (1, ty, Some ip)); [|apply Elook|destruct Hty as [-> | ->]; simpl; (split; [lia|done])].
      pose proof (ok_set _ _ _ _ f _ (1, ty, Some ip) Hok2 (Elook _) eq_refl) as Hok3. by rewrite list_insert_insert_eq in Hok3. }
    destruct (a =? T_DEVICE).
    + eapply (post_kflupd _ _ (fun w => (w.1.1, FD_DEVICE, w.2))); [done|exact H2|]. intros w s3 Ew H3. rewrite Elook in Ew. simplify_eq. cbn [fst snd] in H3.
      rewrite list_insert_insert_eq in H3. eapply Hend; [by left|exact H3].
    + eapply (post_kflupd _ _ (fun w => (w.1.1, FD_INODE, w.2))); [done|exact H2|]. intros w s3 Ew H3. rewrite Elook in Ew. simplify_eq. cbn [fst snd] in H3.
      rewrite list_insert_insert_eq in H3. eapply Hend; [by right|exact H3].
Qed.

Lemma gkstep {A A'} (m : M kstate A) (k : A -> M kstate A') Q p s : keeps Rz m -> kgood p s ->
  (forall a s', kgood p s' -> post (k a) Q krest s') -> post (m ≫= k) Q krest s.
Proof. intros Hm Hg Hk. apply post_bind. eapply post_mono; [| |by apply kgstep]; [|done]. intros a s' H'. by apply Hk. Qed.
Ltac gkgo Hg := eapply gkstep; [solve [frame] | exact Hg | clear Hg; intros ? ? Hg].

Lemma post_sys_open p s : kgood p s -> post (sys_open kend buf_addr de_addr path_addr) (fun _ s' => kgood p s') krest s.
Proof.
  intros Hg. unfold sys_open. do 2 gkgo Hg. destruct (_ <? 0); [done|]. do 2 gkgo Hg. destruct (has _ _).
  - gkgo Hg. destruct a3; [by apply post_open_inode|apply kgstep; [frame|done]].
  - gkgo Hg. destruct a3; [|apply kgstep; [frame|done]]. do 2 gkgo Hg. destruct (_ && _); [apply kgstep; [frame|done]|by apply post_open_inode].
Qed.

(** Two new files, each with one reference that no descriptor holds yet. *)
Definition pipe_files (p rf wf : nat) (s : @fstate T D) : Prop :=
  exists O V, sees p [] O V s /\ ok (hold_ref wf 1 (hold_ref rf 1 none_held)) [] O V /\ (rf < NFILE)%nat /\ (wf < NFILE)%nat.

Lemma post_pipealloc p (x : @fstate T D) : good p [] x ->
  post (pipealloc kend) (fun r y => match r with Some (rf, wf) => pipe_files p rf wf y | None => good p [] y end) rest x.
Proof.
  intros (O & V & Hs & Hok). unfold pipealloc. apply post_bind. eapply post_mono; [| |eapply post_filealloc; [apply rest_alive|exact Hs]]; [|done].
  intros [f0|] x1; [|intros H1; by exists O, V]. intros (v0 & E0 & R0 & H1). pose proof (ok_alloc _ _ _ _ _ _ Hok E0 R0) as Hok1.
  set (V1 := <[f0 := _]> V) in *. assert (V1 !! f0 = Some (1, v0.1.2, v0.2)) as L0 by (apply list_lookup_insert_eq; by eapply lookup_lt_Some). clearbody V1.
  apply post_bind. eapply post_mono; [| |eapply post_filealloc; [apply rest_alive|exact H1]]; [|done]. intros [f1|] x2.
  2:{ clear H1. intros H1. unfold pipealloc_bad. apply post_bind. eapply post_mono; [| |eapply post_fileclose; [apply rest_alive|exact H1]]; [|done].
      intros u y (v & Ev & Rv & H2). rewrite L0 in Ev. simplify_eq. eexists _, _. split; [exact H2|]. eapply ok_ext; [|by eapply ok_close_new]. refs_ext. }
  intros (v1 & E1 & R1 & H2). pose proof (ok_alloc _ _ _ _ _ _ Hok1 E1 R1) as Hok2. assert (f1 <> f0) as Hne by (intros ->; simplify_eq/=).
  set (V2 := <[f1 := _]> V1) in *. assert (V2 !! f1 = Some (1, v1.1.2, v1.2)) as M1 by (apply list_lookup_insert_eq; by eapply lookup_lt_Some).
  assert (V2 !! f0 = Some (1, v0.1.2, v0.2)) as M0 by (unfold V2; by rewrite list_lookup_insert_ne). clearbody V2. clear dependent V1.
  eapply fstep; [apply rest_alive|frame|exact H2|]. clear dependent x2. intros pi x2 H2. destruct (pi =? 0).
  - unfold pipealloc_bad. apply post_bind. eapply post_mono; [| |eapply post_fileclose; [apply rest_alive|exact H2]]; [|done].
    intros u y (v & Ev & Rv & H3). rewrite M0 in Ev. simplify_eq. apply post_bind. eapply post_mono; [| |eapply post_fileclose; [apply rest_alive|exact H3]]; [|done].
    intros u' y' (w & Ew & Rw & H4). rewrite list_lookup_insert_ne, M1 in Ew by done. simplify_eq. eexists _, _. split; [exact H4|].
    assert (ok (hold_ref f0 (-1) (hold_ref f1 1 (hold_ref f0 1 none_held))) [f1] O (<[f0 := closed (1, v0.1.2, v0.2)]> V2)) as Hok3.
    { eapply ok_close_new; [|done|done]. eapply ok_weaken, Hok2. set_solver. }
    eapply ok_ext; [|eapply ok_close_new; [exact Hok3|by rewrite list_lookup_insert_ne|done]]. refs_ext.
  - apply post_gets. eapply fstep; [apply rest_alive|apply keeps_modify; done|exact H2|]. clear dependent x2. intros u x2 H2.
    eapply (post_flupd _ _ _ (fun w => (w.1.1, FD_PIPE, w.2))); [done|exact H2|]. intros w x3 Ew H3. rewrite M0 in Ew. simplify_eq. cbn [fst snd] in H3.
    eapply (post_flupd _ _ _ (fun w => (w.1.1, FD_PIPE, w.2))); [done|exact H3|]. intros w x4 Ew H4. rewrite list_lookup_insert_ne, M1 in Ew by done. simplify_eq. cbn [fst snd] in H4.
    eexists _, _. split; [exact H4|]. split_and!; [|rewrite <- (ok_len _ _ _ _ Hok2); by eapply lookup_lt_Some..].
    assert (ok (hold_ref f1 1 (hold_ref f0 1 none_held)) [f1] O (<[f0 := (1, FD_PIPE, v0.2)]> V2)) as Hok3.
    { apply (ok_complete _ _ _ _ f0 (1, FD_PIPE, v0.2)); [|apply list_lookup_insert_eq; by eapply lookup_lt_Some|simpl; lia].
      eapply ok_set; [eapply ok_weaken, Hok2; set_solver|exact M0|done]. }
    apply (ok_complete _ _ _ _ f1 (1, FD_PIPE, v1.2)); [|apply list_lookup_insert_eq; rewrite length_insert; by eapply lookup_lt_Some|simpl; lia].
    eapply ok_set; [exact Hok3|by rewrite list_lookup_insert_ne|done].
Qed.

Lemma post_close_two p rf wf O V s : ksees p [] O V s -> ok (hold_ref wf 1 (hold_ref rf 1 none_held)) [] O V ->
  post (in_f (fileclose kend rf);; in_f (fileclose kend wf);; mret (-1)) (fun _ s' => kgood p s') krest s.
Proof.
  intros Hs Hok. apply post_bind, post_in_f. eapply post_mono; [| |eapply post_fileclose; [apply rest_alive|exact Hs]]; [|done].
  intros u x (v & Ev & Rv & H1) s1 <-. pose proof (ok_close _ _ _ _ _ _ Hok Ev Rv) as Hok1.
  apply post_bind, post_in_f. eapply post_mono; [| |eapply post_fileclose; [apply rest_alive|exact H1]]; [|done].
  intros u' x (w & Ew & Rw & H2) s2 <-. eexists _, _. split; [exact H2|]. eapply ok_ext; [|eapply ok_close; [exact Hok1|done|done]]. refs_ext.
Qed.

(** One descriptor to clear: [fd], which holds [f]. *)
Lemma post_clear {A'} (fd : nat) f (k : unit -> M kstate A') Q p H' O V l s : ksees p [] O V s -> ok H' [] O V -> O !! p = Some l -> l !! fd = Some (Some f) ->
  (forall s', ksees p [] (<[p := <[fd := None]> l]> O) V s' -> ok (hold_ref f 1 H') [] (<[p := <[fd := None]> l]> O) V -> post (k tt) Q krest s') ->
  post (set_ofile p (Z.to_nat (Z.of_nat fd)) None ≫= k) Q krest s.
Proof.
  intros Hs Hok El Ef Hk. rewrite Nat2Z.id. eapply post_set_ofile; [exact Hs|]. intros l' s' El' H1. rewrite El in El'. simplify_eq. apply Hk; [done|].
  eapply ok_ext; [|eapply ok_slot; [exact Hok|done|exact Ef|done]]. refs_ext.
Qed.

Lemma post_sys_pipe p s : kgood p s -> post (sys_pipe kend fd_addr) (fun _ s' => kgood p s') krest s.
Proof.
  intros Hg. unfold sys_pipe. pose proof Hg as (O & V & Hs & _). eapply post_eq; [by eapply k_me|]. clear dependent O V. gkgo Hg. apply post_bind, post_in_f.
  eapply post_mono; [| |by apply post_pipealloc]; [|done]. intros [[rf wf]|] x; [|intros H1 s1 <-; done].
  intros (O & V & H1 & Hok & Hrf & Hwf) s1 <-. apply post_bind. eapply post_mono; [| |apply post_fdalloc; exact H1]; [|done].
  intros r s2 [[-> H2]|(fd0 & l & -> & El & E0 & H2)]; [unfold pipe_fail; simpl; by eapply post_close_two|]. rewrite (proj2 (Z.ltb_ge _ 0)) by lia.
  assert (ok (hold_ref wf 1 none_held) [] (<[p := <[fd0 := Some rf]> l]> O) V) as Hok1.
  { eapply ok_ext; [|eapply ok_slot; [exact Hok|exact El|exact E0|congruence]]. refs_ext. }
  set (l1 := <[fd0 := Some rf]> l) in *. assert (l1 !! fd0 = Some (Some rf)) as L0 by (apply list_lookup_insert_eq; by eapply lookup_lt_Some).
  set (O1 := <[p := l1]> O) in *. assert (O1 !! p = Some l1) as El1 by (apply list_lookup_insert_eq; by eapply lookup_lt_Some). clearbody O1 l1. clear dependent O.
  apply post_bind. eapply post_mono; [| |apply post_fdalloc; exact H2]; [|done]. intros r s3 [[-> H3]|(fd1 & l' & -> & El' & E1 & H3)].
  { unfold pipe_fail. cbn [for_each]. do 2 apply post_bind. eapply post_clear; [exact H3|exact Hok1|exact El1|exact L0|]. intros s4 H4 Hok4. unfold post at 1 2. cbn [mret M_ret].
    eapply post_close_two; [exact H4|]. eapply ok_ext; [|exact Hok4]. refs_ext. }
  rewrite El1 in El'. simplify_eq. rewrite (proj2 (Z.ltb_ge _ 0)) by lia. assert (fd1 <> fd0) as Hne by congruence.
  assert (ok none_held [] (<[p := <[fd1 := Some wf]> l']> O1) V) as Hok2.
  { eapply ok_ext; [|eapply ok_slot; [exact Hok1|exact El1|exact E1|congruence]]. refs_ext. }
  set (l2 := <[fd1 := Some wf]> l') in *. assert (l2 !! fd1 = Some (Some wf)) as M1 by (apply list_lookup_insert_eq; by eapply lookup_lt_Some).
  assert (l2 !! fd0 = Some (Some rf)) as M0 by (unfold l2; by rewrite list_lookup_insert_ne).
  set (O2 := <[p := l2]> O1) in *. assert (O2 !! p = Some l2) as El2 by (apply list_lookup_insert_eq; by eapply lookup_lt_Some). clearbody O2 l2. clear dependent O1 l'.
  assert (forall s4, ksees p [] O2 V s4 -> post (pipe_fail kend p [Z.of_nat fd0; Z.of_nat fd1] rf wf) (fun _ s' => kgood p s') krest s4) as Hfail.
  { intros s4 H4. unfold pipe_fail. cbn [for_each]. do 2 apply post_bind. eapply post_clear; [exact H4|exact Hok2|exact El2|exact M0|]. intros s5 H5 Hok5.
    unfold post at 1. cbn [mret M_ret]. apply post_bind.
    eapply post_clear; [exact H5|exact Hok5|apply list_lookup_insert_eq; by eapply lookup_lt_Some|by rewrite list_lookup_insert_ne|]. intros s6 H6 Hok6. unfold post at 1 2. cbn [mret M_ret].
    eapply post_close_two; [exact H6|]. eapply ok_ext; [|exact Hok6]. refs_ext. }
  do 3 kgo H3. destruct (_ <? 0); [by apply Hfail|]. kgo H3. destruct (_ <? 0); [by apply Hfail|]. by exists O2, V.
Qed.

Variables dev_read dev_write : Z -> option (Z -> Z -> Z -> M (@fstate T D) Z).
Hypothesis dev_read_ok : forall mj rd u a n, dev_read mj = Some rd -> keeps Rs (rd u a n).
Hypothesis dev_write_ok : forall mj wr u a n, dev_write mj = Some wr -> keeps Rs (wr u a n).

Lemma kgood_inv {A} (m : M kstate A) s p : post m (fun _ s' => kgood p s') krest s -> post m (fun _ s' => file_inv (ks_f s')) krest s.
Proof. intros Hm. eapply post_mono; [| |exact Hm]; [|done]. intros a s' Hg. eapply good_file_inv, Hg. Qed.

Lemma post_syscalls n p s : kgood p s ->
  post (syscalls kend trampoline forkret_addr proc_base ticks_addr info_addr buf_addr de_addr st_addr ch_addr elf_addr ph_addr ustack_addr ip_addr path_addr new_addr fd_addr
    dev_read dev_write n) (fun _ s' => file_inv (ks_f s')) krest s.
Proof.
  intros Hg. destruct n; unfold syscalls; try (eapply kgood_inv, kgstep; [solve [frame] | exact Hg]).
  - unfold sys_fork. eapply kgood_inv, post_in_f. eapply post_mono; [| |apply (post_fork _ _ _ _ rest_alive p), Hg]; [|done]. by intros a x Hx s2 <-.
  - unfold sys_exit. gkgo Hg. apply post_bind, post_in_f. eapply post_mono; [| |eapply post_exit; [apply rest_alive|by right|exact Hg]]; [|done].
    by intros u x Hx s2 <-.
  - unfold sys_wait. gkgo Hg. eapply kgood_inv, post_in_f. eapply post_mono; [| |eapply post_wait; [apply rest_alive|exact Hg]]; [|done]. by intros a' x Hx s2 <-.
  - by eapply kgood_inv, post_sys_pipe.
  - by eapply kgood_inv, post_sys_dup.
  - by eapply kgood_inv, post_sys_open.
  - by eapply kgood_inv, post_sys_close.
Qed.

(** ** The property *)

(** The tables of open files and of processes agree. *)
Record tables_ok (x : @fstate T D) : Prop := {
  to_files : length (ft_file x) = NFILE;
  to_slots : forall i q, procs (kp x) !! i = Some q -> length (p_ofile q) = NOFILE;
  to_open : forall i q fd f, procs (kp x) !! i = Some q -> p_ofile q !! fd = Some (Some f) -> (f < NFILE)%nat;
  to_count : forall f e, ft_file x !! f = Some e -> fl_ref e = refs f (p_ofile <$> procs (kp x));
  to_typed : forall f e, ft_file x !! f = Some e ->
    match fl_type e with
    | FD_NONE => fl_ref e = 0
    | FD_PIPE => 1 <= fl_ref e
    | FD_INODE | FD_DEVICE => 1 <= fl_ref e /\ is_Some (fl_ip e)
    end;
  to_dead : forall i q, procs (kp x) !! i = Some q -> p_state q = UNUSED \/ p_state q = ZOMBIE -> Forall (fun f => f = None) (p_ofile q)
}.

Lemma dead_spec q : dead q = true <-> p_state q = UNUSED \/ p_state q = ZOMBIE.
Proof. unfold dead, is_state. rewrite orb_true_iff, !bool_decide_eq_true. done. Qed.

Lemma tables_ok_iff x : tables_ok x <-> file_inv x.
Proof.
  split.
  - intros [Hf Hs Ho Hc Ht Hd]. split; [|intros i q Eq Hq; by apply (Hd i q Eq), dead_spec]. unfold fview, ofs. split.
    + by rewrite length_fmap.
    + apply Forall_fmap, Forall_lookup. intros i q Eq. by apply (Hs i q).
    + intros f i l fd. rewrite list_lookup_fmap. intros (q & Eq & ->)%fmap_Some. by apply (Ho i q).
    + intros f v. rewrite list_lookup_fmap. intros (e & Ee & ->)%fmap_Some. simpl. rewrite (Hc f e Ee). unfold none_held. lia.
    + intros f v. rewrite list_lookup_fmap. intros (e & Ee & ->)%fmap_Some _. specialize (Ht f e Ee). unfold typed, fshape. done.
  - intros [[Hl Hs Hv Hr Ht] Hk]. unfold fview, ofs in *. split.
    + by rewrite length_fmap in Hl.
    + intros i q Eq. rewrite Forall_fmap, Forall_lookup in Hs. by apply (Hs i q).
    + intros i q fd f Eq Ef. eapply (Hv f i (p_ofile q) fd); [by rewrite list_lookup_fmap, Eq|done].
    + intros f e Ee. specialize (Hr f (fshape e)). rewrite list_lookup_fmap, Ee in Hr. specialize (Hr eq_refl). simpl in Hr. unfold none_held in Hr. lia.
    + intros f e Ee. specialize (Ht f (fshape e)). rewrite list_lookup_fmap, Ee in Ht. specialize (Ht eq_refl (not_elem_of_nil _)). done.
    + intros i q Eq Hq. apply (Hk i q Eq). by apply dead_spec.
Qed.

(** C19: The descriptors of processes and the table of open files stay well typed across
    every system call: when the call returns, the count of each open file is the number
    of descriptors that hold it, each descriptor names an open file of a known type with
    its inode where the type has one, a file nobody holds has no type, and dead processes
    hold none.  A call that waits leaves its process alive, or, in [exit], a zombie and
    the tables in order. *)
Theorem syscall_typed s : tables_ok (ks_f s) -> alive (kp (ks_f s)) ->
  match syscall kend trampoline forkret_addr proc_base ticks_addr info_addr buf_addr de_addr st_addr ch_addr elf_addr ph_addr ustack_addr ip_addr path_addr new_addr fd_addr str_addr
    dev_read dev_write s with
  | Ret _ s' => tables_ok (ks_f s')
  | Blocked _ s' => alive (kp (ks_f s')) \/ tables_ok (ks_f s')
  | _ => True
  end.
Proof.
  intros Hinv Ha. apply tables_ok_iff in Hinv. destruct (file_inv_good _ Hinv Ha) as (p & Hg).
  assert (post (syscall kend trampoline forkret_addr proc_base ticks_addr info_addr buf_addr de_addr st_addr ch_addr elf_addr ph_addr ustack_addr ip_addr path_addr new_addr fd_addr str_addr
    dev_read dev_write) (fun _ s' => file_inv (ks_f s')) krest s) as Hp.
  2:{ unfold post in Hp. destruct (syscall _ _ _ _ _ _ _ _ _ _ _ _ _ _ _ _ _ _ _ _ s); try done; [by apply tables_ok_iff|]. destruct Hp; [by left|right; by apply tables_ok_iff]. }
  assert (forall s1 {A} (m : M kstate A), keeps Rz m -> file_inv (ks_f s1) -> post m (fun _ s' => file_inv (ks_f s')) krest s1) as Hend.
  { intros s1 A m Hm H1. eapply (post_end Rz); [done| |]; intros; [right|]; by eapply file_inv_Rs. }
  unfold syscall. do 3 gkgo Hg. cbv zeta. destruct (sys_of _) as [n|].
  - apply post_bind, post_bind. eapply post_mono; [| |by apply (post_syscalls _ p)]; [|done]. intros r s1 H1.
    eapply post_mono; [| |apply Hend; [|exact H1]]; [|done|frame]. intros u s2 H2. apply Hend; [frame|exact H2].
  - eapply kgood_inv, kgstep; [frame | exact Hg].
Qed.
End Sys.

(** [dup(0)] in a process whose descriptor 0 is the console. *)
Definition demo_proc (st : procstate) (fds : list (option nat)) : proc :=
  Proc Free st 0 0 0 1 None 0 0 0 4096 zero_context fds (Some 0%nat) (replicate 16 0) 0.
Definition demo_procs : list proc := demo_proc RUNNING (Some 0%nat :: replicate 15 None) :: replicate 63 (demo_proc UNUSED (replicate 16 None)).
Definition demo_files : list file := MkFile FD_DEVICE 1 true true 0 (Some 0%nat) 0 1 :: replicate 99 (MkFile FD_NONE 0 false false 0 None 0 0).
Definition demo_mem : mem := wrn (wrn ∅ (4096 + tf_a0) (le_split 8 0)) (4096 + tf_a7) (le_split 8 10).
Definition demo_state (t : ksys) : @kstate ksys unit :=
  KState (FState (FSys t mkfs_sb Free [] (KProc demo_procs 2 Free Free None (Some 0%nat) (Kmem Free 0 demo_mem))) Free demo_files ∅ tt) 0 Free [].
Definition demo_dev (mj : Z) : option (Z -> Z -> Z -> M (@fstate ksys unit) Z) := if mj =? 1 then Some (fun _ _ n => mret n) else None.
Definition demo_call : M (@kstate ksys unit) unit := syscall 0 0 0 0 0 0 demo_buf 0 0 0 0 0 0 0 0 0 0 0 demo_dev demo_dev.

Lemma first_and_rest {A} (x y : A) n i z : (x :: replicate n y) !! i = Some z -> i = 0%nat /\ z = x \/ i <> 0%nat /\ z = y.
Proof. destruct i as [|i]; intros E; [left; by simplify_eq/=|right; by apply lookup_replicate in E as [-> _]]. Qed.

Lemma demo_state_ok t : tables_ok (ks_f (demo_state t)).
Proof.
  assert (forall f n, refs f (replicate n (replicate 16 None)) = 0) as Hz by (intros f n; induction n as [|n IH]; [done|]; change (cnt f (replicate 16 None) + refs f (replicate n (replicate 16 None)) = 0); by rewrite IH).
  split.
  - done.
  - intros i q [[_ ->]|[_ ->]]%first_and_rest; done.
  - intros i q fd f [[_ ->]|[_ ->]]%first_and_rest E; [|by apply (lookup_replicate 16 None) in E as [? _]].
    apply (first_and_rest (Some 0%nat) None 15) in E as [[_ ?]|[_ ?]]; simplify_eq. unfold NFILE. lia.
  - intros f e He. change (p_ofile <$> _) with ((Some 0%nat :: replicate 15 None) :: replicate 63 (replicate 16 (@None nat))). cbn [refs]. rewrite Hz.
    apply first_and_rest in He as [[-> ->]|[Hne ->]]; [done|]. cbn [cnt]. rewrite bool_decide_eq_false_2 by congruence. done.
  - intros f e [[_ ->]|[_ ->]]%first_and_rest; done.
  - intros i q [[_ ->]|[_ ->]]%first_and_rest Hd; [by destruct Hd|]. by apply Forall_replicate.
Qed.

Lemma syscall_typed_witness : exists t s', demo_call (demo_state t) = Ret tt s' /\ tables_ok (ks_f s') /\ fl_ref <$> ft_file (ks_f s') !! 0%nat = Some 2.
Proof.
  destruct demo_rep as [t _]. exists t.
  assert (forall mj rd u a n, demo_dev mj = Some rd -> keeps Rs (rd u a n)) as Hdev.
  { intros mj rd u a n. unfold demo_dev. destruct (mj =? 1); [|done]. intros [= <-]. frame. }
  assert (alive (kp (ks_f (demo_state t)))) as Ha by (exists 0%nat; split; [done|]; eexists; split; [reflexivity|done]).
  pose proof (syscall_typed 0 0 0 0 0 0 demo_buf 0 0 0 0 0 0 0 0 0 0 0 demo_dev demo_dev Hdev Hdev (demo_state t) (demo_state_ok t) Ha) as Hok.
  fold demo_call in Hok.
  assert (match demo_call (demo_state t) with Ret _ s' => fl_ref <$> ft_file (ks_f s') !! 0%nat = Some 2 | _ => False end) as Hr by (vm_compute; reflexivity).
  destruct (demo_call (demo_state t)) as [[] s'| | |]; try done. by exists s'.
Defined.
