(* ===== verification/SyscallSpec.v ===== *)
(** * SyscallSpec: what the dispatch of system calls does for the caller

    The value of a handler arrives in [a0]; an unknown number gives -1 and a message.
    A traced call prints one line; but the value is printed by the kernel's [printint],
    whose buffer holds sixteen digits, so a traced call that fails leaves it. *)

From S2P Require Import Prelude CString Riscv Kalloc Vm Pipe BufCache Txn Proc Fs File Lifecycle Printf Exec SysArgs SysProc SysFile Syscall Bio LogCrash FsSpec.

Section Spec.
Context {T : Type} `{Txn T} {D : Type}.
Variables kend trampoline forkret_addr proc_base ticks_addr info_addr : Z.
Variable buf_addr : nat -> Z.
Variables de_addr st_addr ch_addr elf_addr ph_addr ustack_addr ip_addr path_addr new_addr fd_addr str_addr : Z.
Notation kstate := (@kstate T D).
Variables dev_read dev_write : Z -> option (Z -> Z -> Z -> M (@fstate T D) Z).
Implicit Types s : kstate.

Notation syscalls_ := (syscalls kend trampoline forkret_addr proc_base ticks_addr info_addr buf_addr de_addr st_addr ch_addr elf_addr ph_addr ustack_addr ip_addr path_addr new_addr fd_addr
  dev_read dev_write).
Notation syscall_ := (syscall kend trampoline forkret_addr proc_base ticks_addr info_addr buf_addr de_addr st_addr ch_addr elf_addr ph_addr ustack_addr ip_addr path_addr new_addr fd_addr
  str_addr dev_read dev_write).

(** The running process. *)
Definition kprocs (s : kstate) : kproc := f_k (fs_sys (ks_f s)).
Definition runs (s : kstate) (p : nat) (q : proc) : Prop := cur (kprocs s) = Some p /\ procs (kprocs s) !! p = Some q.

(** The state with a changed memory, and with more output. *)
Definition with_mem (m : mem) (s : kstate) : kstate :=
  let x := ks_f s in let k := kprocs s in
  KState (sets_sys (setf_k (setk_km (set_mem m (km k)) k) (fs_sys x)) x) (ks_ticks s) (ks_tickslock s) (ks_out s).
Definition with_out (t : list Z) (s : kstate) : kstate := KState (ks_f s) (ks_ticks s) (ks_tickslock s) (ks_out s ++ t).

Lemma eval_me s p q : runs s p q -> k_proc me s = Ret p s.
Proof.
  intros [Hc _]. destruct s as [[[] ? ? ? ?] ? ? ?]. unfold kprocs in Hc. simpl in Hc.
  unfold k_proc, in_f, in_proc, zoom, me, myproc, mbind, M_bind, gets. simpl. by rewrite Hc.
Qed.
Lemma eval_pget {A} s p q (f : proc -> A) : runs s p q -> k_proc (pget p f) s = Ret (f q) s.
Proof.
  intros [_ Hq]. destruct s as [[[] ? ? ? ?] ? ? ?]. unfold kprocs in Hq. simpl in Hq.
  unfold k_proc, in_f, in_proc, zoom, pget, mbind, M_bind, arr_get. simpl. by rewrite Hq.
Qed.
Lemma eval_ldq s a : k_mem (ldq a) s = Ret (ld64 (kmemory s) a) s.
Proof. by destruct s as [[[? ? ? ? []] ? ? ? ?] ? ? ?]. Qed.
Lemma eval_stq s a v : k_mem (stq a v) s = Ret tt (with_mem (st64 (kmemory s) a v) s).
Proof. by destruct s as [[[? ? ? ? []] ? ? ? ?] ? ? ?]. Qed.
Lemma runs_mem s p q m : runs s p q -> runs (with_mem m s) p q.
Proof. done. Qed.
Lemma kmemory_mem s m : kmemory (with_mem m s) = m.
Proof. done. Qed.

(** The line of a traced call. *)
Definition trace_items1 : list item := Cv 0 (chr "d") :: map Lit (bytes ": syscall ") ++ IStr :: map Lit (bytes " -> ").
Lemma trace_fmt_eq : trace_fmt = fmt_of trace_items1 ++ bytes "%lu" ++ [10].
Proof. done. Qed.
Lemma trace_fmt_all : trace_fmt = fmt_of (trace_items1 ++ [Cv 1 (chr "u"); Lit 10]).
Proof. done. Qed.

(** The decimal text of a number that fits the buffer. *)
Definition decimal (v : Z) (t : list Z) : Prop := num_text KPrintf.digits 64 v 10 true t /\ (length t <= 16)%nat.

Definition trace_line (tp name tr : list Z) : list Z := tp ++ bytes ": syscall " ++ name ++ bytes " -> " ++ tr ++ [10].

Lemma sys_name_ok n : Forall (fun c => c <> 0) (sys_name n) /\ (length (sys_name n) < 256)%nat.
Proof. destruct n; (split; [by repeat constructor | simpl; lia]). Qed.

Lemma i64_small x : - 2 ^ 63 <= x < 2 ^ 63 -> i64 x = x.
Proof. intros Hx. unfold i64. rewrite Z.mod_small; lia. Qed.
Lemma u64_i64 x : 0 <= x < 2 ^ 64 -> u64 (i64 x) = x.
Proof. intros Hx. unfold u64, i64. rewrite <- (Z.mod_small x (2 ^ 64)) at 2 by done. rewrite Zminus_mod_idemp_l. f_equal. lia. Qed.

Lemma decimal_exists v : - 10 ^ 15 < v < 10 ^ 16 -> exists t, decimal v t.
Proof.
  intros Hv. unfold decimal, num_text. destruct (Z.ltb_spec v 0) as [Hn|Hn]; simpl.
  - destruct (numeral_exists 10 15 (- v)) as (l & Hl & Hlen); [lia|lia|lia|]. eexists. split; [exists l; split; [exact Hl|reflexivity]|].
    simpl. rewrite length_fmap, length_reverse. lia.
  - destruct (numeral_exists 10 16 v) as (l & Hl & Hlen); [lia|lia|lia|]. eexists. split; [exists l; split; [|reflexivity]|].
    + rewrite Z.mod_small; [done|]. split; [lia|]. etransitivity; [apply Hv|]. by vm_compute.
    + simpl. rewrite length_fmap, length_reverse. lia.
Qed.

Lemma str_at_wrn m a t : Forall (fun c => c <> 0) t -> ULib.str_at (wrn m a (t ++ [0])) a t.
Proof.
  intros Ht. split_and!; [done| |].
  - apply list_eq. intros i. destruct (decide (i < length t)%nat) as [Hi|Hi].
    + rewrite rdn_lookup, rd_wrn by done. rewrite decide_True by (rewrite length_app; simpl; lia). replace (Z.to_nat (a + Z.of_nat i - a)) with i by lia.
      destruct (lookup_lt_is_Some_2 t i Hi) as [x Hx]. rewrite Hx. f_equal. apply nth_lookup_Some. by rewrite lookup_app_l.
    + rewrite !lookup_ge_None_2; rewrite ?length_rdn; (done || lia).
  - rewrite rd_wrn, decide_True by (rewrite length_app; simpl; lia). replace (Z.to_nat _) with (length t) by lia. apply nth_lookup_Some. by rewrite list_lookup_middle.
Qed.

(** [printf] on the console. *)
Lemma eval_kprintf s items ap t strs : Forall item_ok items ->
  renders KPrintf.digits 64 (fun wide w => if wide then i64 w else i32 w) (foldr (fun x m => wrn m x.1 (x.2 ++ [0])) (kmemory s) strs) 256 items ap t ->
  kprintf (fmt_of items) ap strs s = Ret tt (with_out t s).
Proof.
  intros Hok Hr. unfold kprintf. erewrite bind_ret by done. unfold zoom. cbn [view outL].
  rewrite (kprintf_renders keep _ 256 items ap t) by done. rewrite puts_keep. done.
Qed.

Lemma renders_lits digits bits val m f cs items ap t : renders digits bits val m f items ap t ->
  renders digits bits val m f (map Lit cs ++ items) ap (cs ++ t).
Proof. intros Hr. induction cs as [|c cs IH]; [done|]. by apply r_lit. Qed.

Lemma renders_trace m pid n tp items ap t : decimal (i32 pid) tp -> str_addr <> 0 ->
  renders KPrintf.digits 64 (fun wide w => if wide then i64 w else i32 w) (wrn m str_addr (sys_name n ++ [0])) 256 items ap t ->
  renders KPrintf.digits 64 (fun wide w => if wide then i64 w else i32 w) (wrn m str_addr (sys_name n ++ [0])) 256 (trace_items1 ++ items) (pid :: str_addr :: ap)
    (tp ++ bytes ": syscall " ++ sys_name n ++ bytes " -> " ++ t).
Proof.
  intros [Hp Hlp] Hs Ht. destruct (sys_name_ok n) as [Hn Hln]. unfold trace_items1. cbn [app]. apply r_num; [done|done|]. rewrite <- app_assoc. apply renders_lits. cbn [app].
  apply r_str; [right; split; [done|by apply str_at_wrn]|done|]. by apply renders_lits.
Qed.

#[local] Instance item_ok_dec i : Decision (item_ok i).
Proof. destruct i; apply _. Defined.

Lemma trace_items_ok : Forall item_ok trace_items1.
Proof. apply (bool_decide_eq_true_1 _). by vm_compute. Qed.

Lemma lu_overflow m a0 out fuel : 10 ^ 16 <= a0 < 2 ^ 64 ->
  KPrintf.printf_loop keep m 256 (S fuel) (bytes "%lu" ++ [10]) [a0] out = Panic "undefined behaviour".
Proof.
  intros Ha. change (KPrintf.printf_loop keep m 256 (S fuel) (bytes "%lu" ++ [10]) [a0] out)
    with ((ap ← (KPrintf.print_arg keep true a0 10 false;; mret []); KPrintf.printf_loop keep m 256 fuel [10] ap) out).
  rewrite bind_assoc. apply bind_panic. unfold KPrintf.print_arg, KPrintf.printint. cbn [andb]. rewrite u64_i64 by lia.
  destruct (numeral_exists 10 64 a0) as (l & Hl & Hlen); [lia| |lia|].
  { split; [lia|]. etransitivity; [apply Ha|]. by vm_compute. }
  rewrite (fill_numeral _ 64 10 a0 l), app_nil_r by (done || lia). unfold put_buf. rewrite decide_True; [done|]. rewrite length_fmap.
  apply (numeral_length 10 a0); [lia|done|lia].
Qed.

Lemma eval_trace s pid n a0 tp : decimal (i32 pid) tp -> str_addr <> 0 -> 0 <= a0 < 2 ^ 64 ->
  (a0 < 10 ^ 16 -> exists tr, decimal a0 tr /\
     kprintf trace_fmt [pid; str_addr; a0] [(str_addr, sys_name n)] s = Ret tt (with_out (trace_line tp (sys_name n) tr) s)) /\
  (10 ^ 16 <= a0 -> kprintf trace_fmt [pid; str_addr; a0] [(str_addr, sys_name n)] s = Panic "undefined behaviour").
Proof.
  intros Hp Hs Ha. split.
  - intros Hlt. destruct (decimal_exists a0 ltac:(lia)) as (tr & Htr). exists tr. split; [done|]. rewrite trace_fmt_all. unfold trace_line.
    apply eval_kprintf; [apply Forall_app; split; [apply trace_items_ok|apply (bool_decide_eq_true_1 _); by vm_compute]|].
    apply renders_trace; [done|done|]. destruct Htr as [(l & Hl & ->) Hlen]. rewrite (proj2 (Z.ltb_ge a0 0)) in * by lia. cbn [andb app] in *.
    apply r_num; [|done|apply r_lit, r_nil]. exists l. split; [|done]. cbn. rewrite i64_small; [done|]. split; [lia|]. etransitivity; [exact Hlt|]. by vm_compute.
  - intros Hge. unfold kprintf. erewrite bind_ret by done. unfold zoom. cbn [view outL]. rewrite trace_fmt_eq.
    erewrite (kprintf_prefix keep _ 256 trace_items1); [|apply trace_items_ok| |done].
    2:{ rewrite <- (app_nil_r trace_items1). apply renders_trace; [done|done|]. apply r_nil. }
    erewrite bind_ret by apply puts_keep. change (drop (nargs trace_items1) _) with [a0].
    change (length _ - length trace_items1)%nat with 6%nat. rewrite lu_overflow by lia. done.
Qed.

(** A traced call of number 0, whose name is a null pointer. *)
Lemma eval_trace_null s pid a0 tp : decimal (i32 pid) tp -> 10 ^ 16 <= a0 < 2 ^ 64 ->
  kprintf trace_fmt [pid; 0; a0] [] s = Panic "undefined behaviour".
Proof.
  intros [Hp Hlp] Ha. unfold kprintf. erewrite bind_ret by done. unfold zoom. cbn [view outL]. rewrite trace_fmt_eq.
  erewrite (kprintf_prefix keep _ 256 trace_items1 [pid; 0; a0] (tp ++ bytes ": syscall " ++ bytes "(null)" ++ bytes " -> ")); [|apply trace_items_ok| |done].
  2:{ unfold trace_items1. cbn [app]. apply r_num; [done|done|]. apply renders_lits. apply r_str; [by left|simpl; lia|].
      rewrite <- (app_nil_r (map Lit (bytes " -> "))), <- (app_nil_r (bytes " -> ")). apply renders_lits, r_nil. }
  erewrite bind_ret by apply puts_keep. change (drop (nargs trace_items1) _) with [a0].
  change (length _ - length trace_items1)%nat with 6%nat. by rewrite lu_overflow.
Qed.

(** The message about an unknown call. *)
Definition unknown_items : list item := Cv 0 (chr "d") :: Lit (chr " ") :: IStr :: map Lit (bytes ": unknown sys call ") ++ [Cv 0 (chr "d"); Lit 10].
Definition unknown_line (tp name tn : list Z) : list Z := tp ++ bytes " " ++ name ++ bytes ": unknown sys call " ++ tn ++ [10].

Lemma c_str_ok l : Forall (fun c => c <> 0) (c_str l) /\ (length (c_str l) <= length l)%nat.
Proof.
  induction l as [|c l [IH1 IH2]]; simpl; [done|]. destruct (Z.eqb_spec c 0); [split; [done|simpl; lia]|]. split; [by constructor|simpl; lia].
Qed.

Lemma eval_unknown s pid w name num tp tn : decimal (i32 pid) tp -> decimal (i32 num) tn -> w <> 0 -> (length name < 256)%nat ->
  kprintf unknown_fmt [pid; w; num] [(w, c_str name)] s = Ret tt (with_out (unknown_line tp (c_str name) tn) s).
Proof.
  intros [Hp Hlp] [Hn Hln] Hw Hlen. destruct (c_str_ok name) as [Hz Hl]. change unknown_fmt with (fmt_of unknown_items). apply eval_kprintf.
  { apply (bool_decide_eq_true_1 _). by vm_compute. }
  unfold unknown_items, unknown_line. apply r_num; [done|done|]. apply r_lit. apply r_str; [right; split; [done|by apply str_at_wrn]|lia|].
  apply renders_lits. apply r_num; [done|done|]. apply r_lit, r_nil.
Qed.

Definition traced (q : proc) (num : Z) : bool := negb (Z.land (p_trace_mask q) (i32 (Z.shiftl 1 (num mod 32))) =? 0).

(** The part of [syscall] after the call. *)
Lemma syscall_tail s p q num n r : runs s p q -> str_addr <> 0 -> sys_of num = Some n -> - 2 ^ 31 <= p_pid q < 2 ^ 31 ->
  let s2 := with_mem (st64 (kmemory s) (p_trapframe q + tf_a0) (u64 r)) s in
  let rest := (mask ← k_proc (pget p p_trace_mask);
    if Z.land mask (i32 (Z.shiftl 1 (num mod 32))) =? 0 then mret tt else
    pid ← k_proc (pget p p_pid);
    tf ← k_proc (pget p p_trapframe);
    a0 ← k_mem (ldq (tf + tf_a0));
    match sys_of num with
    | Some n => kprintf trace_fmt [pid; str_addr; a0] [(str_addr, sys_name n)]
    | None => if num =? 0 then kprintf trace_fmt [pid; 0; a0] [] else undefined
    end) in
  (traced q num = false -> rest s2 = Ret tt s2) /\
  (traced q num = true -> 0 <= r < 10 ^ 16 -> exists tp tr, decimal (p_pid q) tp /\ decimal r tr /\ rest s2 = Ret tt (with_out (trace_line tp (sys_name n) tr) s2)) /\
  (traced q num = true -> 10 ^ 16 <= u64 r -> rest s2 = Panic "undefined behaviour").
Proof.
  intros Hr Hs Hn Hpid s2 rest. assert (runs s2 p q) as H2 by done.
  assert (ld64 (kmemory s2) (p_trapframe q + tf_a0) = u64 r) as Hld by (unfold s2; rewrite kmemory_mem, ld64_st64_eq; apply u64_small, Z.mod_pos_bound; lia).
  assert (exists tp, decimal (p_pid q) tp) as [tp Htp] by (apply decimal_exists; lia).
  assert (i32 (p_pid q) = p_pid q) as Ei by (by apply i32_small).
  assert (traced q num = true -> rest s2 = kprintf trace_fmt [p_pid q; str_addr; u64 r] [(str_addr, sys_name n)] s2) as Htr.
  { intros Ht. unfold rest. erewrite bind_ret by (by apply eval_pget). unfold traced in Ht. rewrite negb_true_iff in Ht. rewrite Ht.
    erewrite bind_ret by (by apply eval_pget). erewrite bind_ret by (by apply eval_pget). erewrite bind_ret by apply eval_ldq. by rewrite Hld, Hn. }
  assert (0 <= u64 r < 2 ^ 64) as Hu by (apply Z.mod_pos_bound; lia).
  split_and!.
  - intros Ht. unfold rest. erewrite bind_ret by (by apply eval_pget). unfold traced in Ht. rewrite negb_false_iff in Ht. by rewrite Ht.
  - intros Ht Hlt. rewrite Htr by done. assert (u64 r = r) as Eu by (apply u64_small; lia).
    destruct (eval_trace s2 (p_pid q) n (u64 r) tp) as [Hok _]; [by rewrite Ei|done|done|]. destruct Hok as (tr & Hd & E); [lia|].
    exists tp, tr. rewrite Eu in Hd. done.
  - intros Ht Hge. rewrite Htr by done. apply (eval_trace s2 (p_pid q) n (u64 r) tp); [by rewrite Ei|done|done|done].
Qed.

(** The system calls: number, name and handler. *)
Definition table : list (Z * list Z * M kstate Z) :=
  [(1, bytes "fork", sys_fork kend trampoline forkret_addr);
   (2, bytes "exit", sys_exit kend proc_base);
   (3, bytes "wait", sys_wait kend proc_base);
   (4, bytes "pipe", sys_pipe kend fd_addr);
   (5, bytes "read", sys_read buf_addr ch_addr dev_read);
   (6, bytes "kill", sys_kill);
   (7, bytes "exec", sys_exec kend trampoline buf_addr de_addr elf_addr ph_addr ustack_addr ip_addr path_addr);
   (8, bytes "fstat", sys_fstat st_addr);
   (9, bytes "chdir", sys_chdir buf_addr de_addr path_addr);
   (10, bytes "dup", sys_dup);
   (11, bytes "getpid", sys_getpid);
   (12, bytes "sbrk", sys_sbrk kend);
   (13, bytes "sleep", sys_sleep ticks_addr);
   (14, bytes "uptime", sys_uptime);
   (15, bytes "open", sys_open kend buf_addr de_addr path_addr);
   (16, bytes "write", sys_write buf_addr ch_addr dev_write);
   (17, bytes "mknod", sys_mknod buf_addr de_addr path_addr);
   (18, bytes "unlink", sys_unlink buf_addr de_addr path_addr);
   (19, bytes "link", sys_link buf_addr de_addr path_addr new_addr);
   (20, bytes "mkdir", sys_mkdir buf_addr de_addr path_addr);
   (21, bytes "close", sys_close kend);
   (22, bytes "hello", sys_hello);
   (23, bytes "trace", sys_trace);
   (24, bytes "sysinfo", sys_sysinfo info_addr)].

Lemma table_sys num name h : (num, name, h) ∈ table -> exists n, sys_of num = Some n /\ sys_name n = name /\ syscalls_ n = h.
Proof.
  unfold table. intros Hin. repeat (apply elem_of_cons in Hin as [[= -> -> ->]|Hin]; [by eexists|]). by apply elem_of_nil in Hin.
Qed.

Lemma sys_of_none num : num <= 0 \/ 24 < num -> sys_of num = None.
Proof.
  intros Hn. unfold sys_of. destruct (Z.leb_spec num 0); [done|]. apply lookup_ge_None. change (length sysnos) with 24%nat. lia.
Qed.

(** [syscall] up to the dispatch. *)
Lemma syscall_head s p q num : runs s p q -> num = i32 (ld64 (kmemory s) (p_trapframe q + tf_a7)) ->
  (forall n, sys_of num = Some n ->
     (forall msg, syscalls_ n s = Panic msg -> syscall_ s = Panic msg) /\ (forall why s1, syscalls_ n s = Blocked why s1 -> syscall_ s = Blocked why s1)).
Proof.
  intros Hr -> n Hn. unfold syscall. split.
  - intros msg E. erewrite bind_ret by (by eapply eval_me). erewrite bind_ret by (by apply eval_pget). erewrite bind_ret by apply eval_ldq. cbv zeta. rewrite Hn.
    unfold mbind, M_bind. by rewrite E.
  - intros why s1 E. erewrite bind_ret by (by eapply eval_me). erewrite bind_ret by (by apply eval_pget). erewrite bind_ret by apply eval_ldq. cbv zeta. rewrite Hn.
    unfold mbind, M_bind. by rewrite E.
Qed.

Lemma syscall_known s p q num n r s1 q1 : runs s p q -> str_addr <> 0 -> num = i32 (ld64 (kmemory s) (p_trapframe q + tf_a7)) ->
  sys_of num = Some n -> syscalls_ n s = Ret r s1 -> runs s1 p q1 -> - 2 ^ 31 <= p_pid q1 < 2 ^ 31 ->
  let s2 := with_mem (st64 (kmemory s1) (p_trapframe q1 + tf_a0) (u64 r)) s1 in
  (traced q1 num = false -> syscall_ s = Ret tt s2) /\
  (traced q1 num = true -> 0 <= r < 10 ^ 16 -> exists tp tr, decimal (p_pid q1) tp /\ decimal r tr /\ syscall_ s = Ret tt (with_out (trace_line tp (sys_name n) tr) s2)) /\
  (traced q1 num = true -> 10 ^ 16 <= u64 r -> syscall_ s = Panic "undefined behaviour").
Proof.
  intros Hr Hs Hnum En E1 H1 Hpid1 s2. pose proof (syscall_tail s1 p q1 num n r H1 Hs En Hpid1) as Ht. cbv zeta in Ht. fold s2 in Ht.
  unfold syscall. erewrite bind_ret by (by eapply eval_me). erewrite bind_ret by (by apply eval_pget). erewrite bind_ret by apply eval_ldq. cbv zeta. rewrite <- Hnum.
  rewrite En. rewrite En in Ht. erewrite bind_ret; [exact Ht|]. erewrite bind_ret by exact E1. erewrite bind_ret by (by apply eval_pget). apply eval_stq.
Qed.

Lemma syscall_unknown s p q num : runs s p q -> num = i32 (ld64 (kmemory s) (p_trapframe q + tf_a7)) -> sys_of num = None ->
  - 2 ^ 31 <= p_pid q < 2 ^ 31 -> proc_addr proc_base p + off_name <> 0 -> (length (p_name q) < 256)%nat ->
  exists tp tn, decimal (p_pid q) tp /\ decimal num tn /\
    let s1 := with_out (unknown_line tp (c_str (p_name q)) tn) s in
    syscall_ s = if traced q num then Panic "undefined behaviour" else Ret tt (with_mem (st64 (kmemory s1) (p_trapframe q + tf_a0) (u64 (-1))) s1).
Proof.
  intros Hr Hnum En Hpid Hw Hlen. pose proof (i32_range (ld64 (kmemory s) (p_trapframe q + tf_a7))) as Hrange. rewrite <- Hnum in Hrange.
  destruct (decimal_exists (p_pid q)) as [tp Htp]; [lia|]. destruct (decimal_exists num) as [tn Htn]; [lia|]. exists tp, tn. split_and!; [done|done|].
  unfold syscall. erewrite bind_ret by (by eapply eval_me). erewrite bind_ret by (by apply eval_pget). erewrite bind_ret by apply eval_ldq. cbv zeta. rewrite <- Hnum, En.
  erewrite bind_ret.
  2:{ erewrite bind_ret by (by apply eval_pget). erewrite bind_ret by (by apply eval_pget).
      erewrite bind_ret by (apply eval_unknown; [by rewrite i32_small|by rewrite i32_small|done|done]). erewrite bind_ret by (by apply (eval_pget _ p q)). apply eval_stq. }
  erewrite bind_ret by (by apply (eval_pget _ p q)). unfold traced. destruct (Z.land _ _ =? 0); [done|]. cbn [negb].
  do 2 (erewrite bind_ret by (by apply (eval_pget _ p q))). erewrite bind_ret by apply eval_ldq. destruct (num =? 0); [|done].
  rewrite kmemory_mem, ld64_st64_eq by (by vm_compute). eapply eval_trace_null; [by rewrite i32_small|by vm_compute].
Qed.

(** C20: [syscall] gives the caller what it asked for: the number in [a7] selects the handler that the table has for it, and
    the value the handler returns is in [a0] afterwards, everything else being the handler's doing; if the handler sleeps or
    panics, so does [syscall].  A number outside the table, 0 and negative ones included, changes [a0] to -1 and prints a
    message.  If the process has asked for a trace of the call, one line with its pid, the name of the call and
    the value is printed after it, if the value has at most sixteen digits; for any other value, -1 included, the kernel
    writes beyond the buffer in which it forms the digits, and so it does for a traced number outside the table, if it
    does not read beyond the table of names before. *)
Theorem syscall_dispatch s p q : runs s p q -> str_addr <> 0 -> - 2 ^ 31 <= p_pid q < 2 ^ 31 ->
  let num := i32 (ld64 (kmemory s) (p_trapframe q + tf_a7)) in
  (forall name h, (num, name, h) ∈ table ->
     (forall msg, h s = Panic msg -> syscall_ s = Panic msg) /\
     (forall why s1, h s = Blocked why s1 -> syscall_ s = Blocked why s1) /\
     forall r s1 q1, h s = Ret r s1 -> runs s1 p q1 -> - 2 ^ 31 <= p_pid q1 < 2 ^ 31 ->
       let s2 := with_mem (st64 (kmemory s1) (p_trapframe q1 + tf_a0) (u64 r)) s1 in
       (traced q1 num = false -> syscall_ s = Ret tt s2) /\
       (traced q1 num = true -> 0 <= r < 10 ^ 16 -> exists tp tr, decimal (p_pid q1) tp /\ decimal r tr /\ syscall_ s = Ret tt (with_out (trace_line tp name tr) s2)) /\
       (traced q1 num = true -> 10 ^ 16 <= u64 r -> syscall_ s = Panic "undefined behaviour")) /\
  (num <= 0 \/ 24 < num -> proc_addr proc_base p + off_name <> 0 -> (length (p_name q) < 256)%nat ->
     exists tp tn, decimal (p_pid q) tp /\ decimal num tn /\
       let s1 := with_out (unknown_line tp (c_str (p_name q)) tn) s in
       syscall_ s = if traced q num then Panic "undefined behaviour" else Ret tt (with_mem (st64 (kmemory s1) (p_trapframe q + tf_a0) (u64 (-1))) s1)).
Proof.
  intros Hr Hs Hpid num. split.
  - intros name h Hin. destruct (table_sys num name h Hin) as (n & Hn & <- & <-).
    destruct (syscall_head s p q num Hr eq_refl n Hn) as [Hp Hb]. split_and!; [done|done|]. intros r s1 q1 E1 H1 Hpid1. by apply (syscall_known s p q).
  - intros Hout Hw Hlen. apply (syscall_unknown s p q num); try done. by apply sys_of_none.
Qed.
End Spec.

(** A process that traces its calls of [getpid] and [close]: the first prints its line,
    [close] of a descriptor that is not open does not come back. *)
Definition tproc : proc := Proc Free RUNNING 0 0 0 7 None 0 0 0 4096 zero_context (replicate 16 None) None (replicate 16 0) (2 ^ 11 + 2 ^ 21).
Definition tstate (a7 : Z) (t : ksys) : @kstate ksys unit :=
  KState (FState (FSys t mkfs_sb Free [] (KProc [tproc] 8 Free Free None (Some 0%nat) (Kmem Free 0 (wrn (wrn ∅ (4096 + tf_a0) (le_split 8 5)) (4096 + tf_a7) (le_split 8 a7)))))
    Free [] ∅ tt) 0 Free [].
Definition tcall : M (@kstate ksys unit) unit := syscall 0 0 0 500 0 0 demo_buf 0 0 0 0 0 0 0 0 0 0 500 (fun _ => None) (fun _ => None).

Lemma syscall_dispatch_witness : exists t, (exists s', tcall (tstate 11 t) = Ret tt s') /\ tcall (tstate 21 t) = Panic "undefined behaviour" /\
  exists tp tn, decimal 7 tp /\ decimal 25 tn /\ exists m, tcall (tstate 25 t) = Ret tt (with_mem m (with_out (unknown_line tp [] tn) (tstate 25 t))).
Proof.
  destruct demo_rep as [t _]. exists t. split_and!.
  - pose proof (syscall_dispatch 0 0 0 500 0 0 demo_buf 0 0 0 0 0 0 0 0 0 0 500 (fun _ => None) (fun _ => None) (tstate 11 t) 0 tproc (conj eq_refl eq_refl) ltac:(lia) ltac:(simpl; lia)) as Hd.
    cbv zeta in Hd. destruct Hd as [Hd _]. change (i32 _) with 11 in Hd.
    destruct (Hd (bytes "getpid") sys_getpid) as (_ & _ & Hl); [apply (list_elem_of_lookup_2 _ 10%nat); reflexivity|].
    destruct (Hl 7 (tstate 11 t) tproc) as (_ & Hl' & _); [reflexivity|done|simpl; lia|].
    destruct Hl' as (tp & tr & _ & _ & E); [vm_compute; reflexivity|lia|]. eexists. exact E.
  - pose proof (syscall_dispatch 0 0 0 500 0 0 demo_buf 0 0 0 0 0 0 0 0 0 0 500 (fun _ => None) (fun _ => None) (tstate 21 t) 0 tproc (conj eq_refl eq_refl) ltac:(lia) ltac:(simpl; lia)) as Hd.
    cbv zeta in Hd. destruct Hd as [Hd _]. change (i32 _) with 21 in Hd.
    destruct (Hd (bytes "close") (sys_close 0)) as (_ & _ & Hl); [apply (list_elem_of_lookup_2 _ 20%nat); reflexivity|].
    destruct (Hl (-1) (tstate 21 t) tproc) as (_ & _ & Hp); [reflexivity|done|simpl; lia|]. apply Hp; [vm_compute; reflexivity|by vm_compute].
  - pose proof (syscall_dispatch 0 0 0 500 0 0 demo_buf 0 0 0 0 0 0 0 0 0 0 500 (fun _ => None) (fun _ => None) (tstate 25 t) 0 tproc (conj eq_refl eq_refl) ltac:(lia) ltac:(simpl; lia)) as Hd.
    cbv zeta in Hd. destruct Hd as [_ Hd]. change (i32 _) with 25 in Hd.
    destruct Hd as (tp & tn & Hp & Hn & E); [lia|by vm_compute|simpl; lia|].
    exists tp, tn. split; [exact Hp|]. split; [exact Hn|]. eexists. exact E.
Defined.
