(* ===== verification/Grep.v ===== *)
(** * Grep: the pattern matcher and the line loop of [user/grep.c]

    Strings are lists of bytes without the NUL.  [grep] reads a file in pieces whose
    sizes [read] chooses; its output is what it writes to descriptor 1.
    The buffer holds the [m] bytes of the list [buf], all of them behind the NUL that
    [grep] stores at [buf[m]].

    The theorems: [match] decides the language of the pattern, given as a list of
    items with its usual meaning; [grep] writes exactly the complete lines in that
    language, in order, whatever the boundaries of the reads, as long as every line fits
    the buffer and has no NUL. *)

From S2P Require Import Prelude.

#[local] Arguments chr : simpl never.

Section matcher.
(** [matchstar(c, re, text)], where [here] is [matchhere(re, _)]. *)
Definition matchstar (c : Z) (here : list Z -> bool) : list Z -> bool :=
  fix go text :=
    here text ||
    match text with
    | [] => false
    | x :: text => if (x =? c) || (c =? chr ".") then go text else false
    end.

Fixpoint matchhere (re text : list Z) : bool :=
  match re with
  | [] => true
  | c :: re1 =>
    match re1 with
    | s :: re2 =>
      if s =? chr "*" then matchstar c (matchhere re2) text else
      match text with
      | x :: text => if (c =? chr ".") || (c =? x) then matchhere re1 text else false
      | [] => false
      end
    | [] =>
      if c =? chr "$" then match text with [] => true | _ => false end else
      match text with
      | x :: text => if (c =? chr ".") || (c =? x) then matchhere re1 text else false
      | [] => false
      end
    end
  end.

Fixpoint match_any (re text : list Z) : bool :=
  matchhere re text || match text with [] => false | _ :: text => match_any re text end.

Definition match_ (re text : list Z) : bool :=
  match re with
  | c :: re1 => if c =? chr "^" then matchhere re1 text else match_any re text
  | [] => match_any re text
  end.
End matcher.

(** ** [grep] *)

Definition BUFSIZE : nat := 1024.
Definition NL : Z := 10.

(** [strchr(p, NL)]: what is before and after the first newline. *)
Fixpoint split_nl (p : list Z) : option (list Z * list Z) :=
  match p with
  | [] => None
  | c :: p => if c =? 0 then None else if c =? NL then Some ([], p) else '(l, r) ← split_nl p; Some (c :: l, r)
  end.

(** The loop over the lines in the buffer: what is written, and the rest. *)
Fixpoint grep_lines (fuel : nat) (pattern p : list Z) : option (list Z * list Z) :=
  match fuel with
  | O => None
  | S fuel =>
    match split_nl p with
    | None => Some ([], p)
    | Some (l, r) =>
      '(out, rest) ← grep_lines fuel pattern r;
      Some ((if match_ pattern l then l ++ [NL] else []) ++ out, rest)
    end
  end.

(** [read] returns at least one byte unless it is at the end of the file or asked for
    none; [ks] says how many more. *)
Definition read_size (room left k : nat) : nat := Nat.min (Nat.min room left) (S k).

(** The loop of [grep] on the rest of the file. *)
Fixpoint grep_loop (fuel : nat) (pattern buf text : list Z) (ks : nat -> nat) (i : nat) : option (list Z) :=
  match fuel with
  | O => None
  | S fuel =>
    let n := read_size (BUFSIZE - length buf - 1) (length text) (ks i) in
    if decide (n = O) then Some [] else
    let p := buf ++ take n text in
    '(out, rest) ← grep_lines (S (length p)) pattern p;
    out' ← grep_loop fuel pattern rest (drop n text) ks (S i);
    Some (out ++ out')
  end.
Definition grep (pattern text : list Z) (ks : nat -> nat) : option (list Z) := grep_loop (S (length text)) pattern [] text ks 0.

(** ** The language of a pattern *)

Inductive ritem := One (c : Z) | Star (c : Z) | Eol.

Fixpoint parse_re (re : list Z) : list ritem :=
  match re with
  | [] => []
  | c :: re1 =>
    match re1 with
    | s :: re2 => if s =? chr "*" then Star c :: parse_re re2 else One c :: parse_re re1
    | [] => if c =? chr "$" then [Eol] else [One c]
    end
  end.

Definition fits_char (c x : Z) : Prop := c = chr "." \/ x = c.

(** The items match a beginning of the text, all of it where they end in [$]. *)
Fixpoint prefix_of_lang (items : list ritem) (text : list Z) : Prop :=
  match items with
  | [] => True
  | One c :: l => exists x rest, text = x :: rest /\ fits_char c x /\ prefix_of_lang l rest
  | Star c :: l => exists t1 t2, text = t1 ++ t2 /\ Forall (fits_char c) t1 /\ prefix_of_lang l t2
  | Eol :: l => text = [] /\ prefix_of_lang l []
  end.

(** A pattern matches a line at its beginning after [^], and anywhere otherwise. *)
Definition in_lang (re text : list Z) : Prop :=
  match re with
  | c :: re1 => if c =? chr "^" then prefix_of_lang (parse_re re1) text
                else exists t1 t2, text = t1 ++ t2 /\ prefix_of_lang (parse_re re) t2
  | [] => True
  end.

Lemma fits_test c x : (x =? c) || (c =? chr ".") = true <-> fits_char c x.
Proof. unfold fits_char. rewrite orb_true_iff, !Z.eqb_eq. naive_solver. Qed.
Lemma fits_test' c x : (c =? chr ".") || (c =? x) = true <-> fits_char c x.
Proof. unfold fits_char. rewrite orb_true_iff, !Z.eqb_eq. naive_solver. Qed.

Lemma matchstar_spec c here P text : (forall t, here t = true <-> P t) ->
  matchstar c here text = true <-> exists t1 t2, text = t1 ++ t2 /\ Forall (fits_char c) t1 /\ P t2.
Proof.
  intros Hh. induction text as [|x text IH]; simpl; rewrite orb_true_iff, Hh.
  - split; [intros [?|?]; [by exists [], [] | done]|]. intros (t1 & t2 & E & _ & HP). apply symmetry, app_eq_nil in E as [-> ->]. by left.
  - split.
    + intros [HP|Hs]; [by exists [], (x :: text)|]. revert Hs. destruct ((x =? c) || _) eqn:E; intros Hs; [|done].
      apply fits_test in E. apply IH in Hs as (t1 & t2 & -> & Hf & HP). exists (x :: t1), t2. split_and!; [done| by constructor |done].
    + intros (t1 & t2 & E & Hf & HP). destruct t1 as [|y t1]; [left; by rewrite E|]. right. injection E as <- ->. apply Forall_cons in Hf as [Hy Hf].
      apply fits_test in Hy. rewrite Hy. apply IH. by exists t1, t2.
Qed.

Lemma matchhere_spec re text : matchhere re text = true <-> prefix_of_lang (parse_re re) text.
Proof.
  remember (length re) as n eqn:Hn. revert re text Hn. induction (lt_wf n) as [n _ IH]. intros [|c re1] text ->; [done|].
  assert (forall re' t, (length re' < length (c :: re1))%nat -> matchhere re' t = true <-> prefix_of_lang (parse_re re') t) as IH'
    by (intros; by eapply IH).
  assert (forall re', (length re' < length (c :: re1))%nat ->
    match text with x :: text => if (c =? chr ".") || (c =? x) then matchhere re' text else false | [] => false end = true <->
    exists x rest, text = x :: rest /\ fits_char c x /\ prefix_of_lang (parse_re re') rest) as Hone.
  { intros re' Hl. destruct text as [|x text]; [naive_solver|]. destruct ((c =? chr ".") || (c =? x)) eqn:E.
    - apply fits_test' in E. rewrite IH' by done. naive_solver.
    - split; [done|]. intros (x' & r & [= <- <-] & Hx & _). apply fits_test' in Hx. congruence. }
  destruct re1 as [|s re2].
  - simpl. destruct (c =? chr "$"); [by destruct text; naive_solver|]. specialize (Hone [] ltac:(simpl; lia)). simpl in Hone. exact Hone.
  - cbn [matchhere parse_re]. destruct (s =? chr "*").
    + apply matchstar_spec. intros t. apply IH'. simpl. lia.
    + apply (Hone (s :: re2)). simpl. lia.
Qed.

Lemma match_any_spec re text : match_any re text = true <-> exists t1 t2, text = t1 ++ t2 /\ prefix_of_lang (parse_re re) t2.
Proof.
  induction text as [|x text IH]; simpl; rewrite orb_true_iff, matchhere_spec.
  - split; [intros [?|?]; [by exists [], [] | done]|]. intros (t1 & t2 & E & HP). apply symmetry, app_eq_nil in E as [-> ->]. by left.
  - rewrite IH. split.
    + intros [HP|(t1 & t2 & -> & HP)]; [by exists [], (x :: text) | by exists (x :: t1), t2].
    + intros (t1 & t2 & E & HP). destruct t1 as [|y t1]; [left; by rewrite E|]. right. injection E as _ ->. by exists t1, t2.
Qed.

(** [match] decides the language. *)
Lemma match_spec re text : match_ re text = true <-> in_lang re text.
Proof.
  unfold match_, in_lang. destruct re as [|c re]; [|destruct (c =? chr "^"); [apply matchhere_spec | apply match_any_spec]].
  split; [done|]. intros _. by destruct text.
Qed.

(** ** Lines *)

(** The text as complete lines and what follows the last newline. *)
Definition lines_of (ls : list (list Z)) (rest : list Z) : list Z := concat ((fun l => l ++ [NL]) <$> ls) ++ rest.

Definition selected (pattern : list Z) (ls : list (list Z)) : list Z :=
  concat ((fun l => l ++ [NL]) <$> filter (fun l => match_ pattern l = true) ls).

Lemma split_nl_none p : NL ∉ p -> split_nl p = None.
Proof.
  induction p as [|c p IH]; intros Hn; [done|]. apply not_elem_of_cons in Hn as [Hc Hn]. simpl. destruct (c =? 0); [done|].
  rewrite (proj2 (Z.eqb_neq c NL)) by congruence. by rewrite IH.
Qed.
Lemma split_nl_line l r : NL ∉ l -> 0 ∉ l -> split_nl (l ++ NL :: r) = Some (l, r).
Proof.
  induction l as [|c l IH]; intros Hn Hz; [done|]. apply not_elem_of_cons in Hn as [Hc Hn], Hz as [Hc' Hz]. simpl.
  rewrite (proj2 (Z.eqb_neq c 0)), (proj2 (Z.eqb_neq c NL)) by congruence. by rewrite IH.
Qed.
Lemma first_line l1 r1 l2 r2 : NL ∉ l1 -> NL ∉ l2 -> l1 ++ NL :: r1 = l2 ++ NL :: r2 -> l1 = l2 /\ r1 = r2.
Proof.
  revert l2. induction l1 as [|c l1 IH]; intros [|d l2] H1 H2 E; simpl in E; rewrite ?not_elem_of_cons in *; simplify_eq; [done|naive_solver|naive_solver|].
  destruct (IH l2) as [-> ->]; tauto.
Qed.

Lemma selected_cons pattern l ls : selected pattern (l :: ls) = (if match_ pattern l then l ++ [NL] else []) ++ selected pattern ls.
Proof. unfold selected. rewrite filter_cons. case_decide as E; [by rewrite E|]. by destruct (match_ pattern l). Qed.
Lemma selected_app pattern l1 l2 : selected pattern (l1 ++ l2) = selected pattern l1 ++ selected pattern l2.
Proof. unfold selected. by rewrite filter_app, fmap_app, concat_app. Qed.

Lemma grep_lines_spec pattern ls rest fuel : Forall (fun l => NL ∉ l /\ 0 ∉ l) ls -> NL ∉ rest -> (length ls < fuel)%nat ->
  grep_lines fuel pattern (lines_of ls rest) = Some (selected pattern ls, rest).
Proof.
  intros Hls Hr. revert fuel. induction Hls as [|l ls [Hl Hz] _ IH]; intros [|fuel] Hf; try (simpl in Hf; lia).
  - cbn [grep_lines]. by rewrite split_nl_none.
  - cbn [grep_lines]. unfold lines_of. rewrite fmap_cons. cbn [concat]. rewrite <- !app_assoc. simpl. rewrite split_nl_line by done.
    change (concat ((fun l => l ++ [NL]) <$> ls) ++ rest) with (lines_of ls rest). rewrite IH by (simpl in Hf; lia). simpl. by rewrite selected_cons.
Qed.

Lemma lines_exist p : exists ls rest, p = lines_of ls rest /\ Forall (fun l => NL ∉ l) ls /\ NL ∉ rest /\ (length ls <= length p)%nat.
Proof.
  induction p as [|c p (ls & rest & -> & Hls & Hr & Hlen)]; [exists [], []; split_and!; [done|done|by apply not_elem_of_nil|done]|].
  destruct (decide (c = NL)) as [->|Hc].
  - exists ([] :: ls), rest. split_and!; [done| |done|simpl; lia]. constructor; [by apply not_elem_of_nil | done].
  - destruct ls as [|l ls].
    + exists [], (c :: rest). split_and!; [done|done| |simpl; lia]. apply not_elem_of_cons. split; [congruence|done].
    + apply Forall_cons in Hls as [Hl Hls]. exists ((c :: l) :: ls), rest. split_and!; [done| |done|simpl in *; lia]. constructor; [|done].
      apply not_elem_of_cons. split; [congruence|done].
Qed.

(** The complete lines of a first part of the text are the first lines of the text. *)
Lemma lines_prefix ls1 rest1 t ls tail : Forall (fun l => NL ∉ l) ls1 -> Forall (fun l => NL ∉ l) ls -> NL ∉ take 1023 tail ->
  (length (lines_of ls1 rest1) <= 1023)%nat -> lines_of ls1 rest1 ++ t = lines_of ls tail ->
  exists ls2, ls = ls1 ++ ls2 /\ rest1 ++ t = lines_of ls2 tail.
Proof.
  intros H1. revert ls. induction H1 as [|l1 ls1 Hl1 _ IH]; intros ls H2 Ht Hlen E; [by exists ls|].
  unfold lines_of in E, Hlen. rewrite fmap_cons in E, Hlen. cbn [concat] in E, Hlen. rewrite <- !app_assoc in Hlen. rewrite <- !app_assoc in E. cbn [app] in E, Hlen.
  fold (lines_of ls1 rest1) in Hlen. destruct H2 as [|l ls Hl H2].
  - exfalso. apply Ht. change (concat _ ++ tail) with tail in E. rewrite <- E. rewrite length_app in Hlen. cbn [length] in Hlen.
    rewrite take_app_ge by lia. apply elem_of_app. right. destruct (1023 - length l1)%nat eqn:En; [lia|]. simpl. by left.
  - rewrite fmap_cons in E. cbn [concat] in E. rewrite <- !app_assoc in E. cbn [app] in E. apply first_line in E as [-> E]; [|done|done].
    rewrite length_app in Hlen. cbn [length] in Hlen.
    destruct (IH ls H2 Ht) as (ls2 & -> & E2); [lia| |by exists ls2]. unfold lines_of. by rewrite <- app_assoc.
Qed.

Lemma short_buf buf t l r : NL ∉ buf -> buf ++ t = l ++ NL :: r -> (length buf <= length l)%nat.
Proof.
  intros Hb E. destruct (decide (length buf <= length l)%nat); [done|]. exfalso. apply Hb. apply list_elem_of_lookup. exists (length l).
  rewrite <- (lookup_app_l buf t), E by lia. by rewrite list_lookup_middle.
Qed.

Lemma grep_loop_spec fuel pattern ks i buf text ls tail : NL ∉ buf -> Forall (fun l => NL ∉ l /\ 0 ∉ l /\ (length l <= 1022)%nat) ls -> NL ∉ take 1023 tail ->
  buf ++ text = lines_of ls tail -> (length text < fuel)%nat -> grep_loop fuel pattern buf text ks i = Some (selected pattern ls).
Proof.
  revert i buf text ls. induction fuel as [|fuel IH]; intros i buf text ls Hb Hls Ht E Hf; [lia|]. cbn [grep_loop].
  assert (Forall (fun l => NL ∉ l) ls) as Hnl by (eapply Forall_impl; [exact Hls | by intros ? []]).
  case_decide as Hn.
  - f_equal. destruct ls as [|l ls]; [done|]. exfalso. apply Forall_cons in Hls as [(Hl & _ & Hlen) _].
    unfold lines_of in E. rewrite fmap_cons in E. cbn [concat] in E. rewrite <- !app_assoc in E. pose proof (short_buf _ _ _ _ Hb E) as Hle.
    apply (f_equal length) in E. rewrite !length_app in E. simpl in E. unfold read_size, BUFSIZE in Hn. lia.
  - set (n := read_size _ _ _) in *. assert (n <= BUFSIZE - length buf - 1 /\ n <= length text)%nat as [Hn1 Hn2] by (unfold n, read_size; lia).
    destruct (lines_exist (buf ++ take n text)) as (ls1 & rest1 & Ep & Hls1 & Hr1 & Hlen1).
    assert (length (buf ++ take n text) <= 1023)%nat as Hp by (rewrite length_app, length_take; unfold BUFSIZE in Hn1; lia).
    rewrite <- (take_drop n text), app_assoc in E. rewrite Ep in *.
    destruct (lines_prefix ls1 rest1 (drop n text) ls tail Hls1 Hnl Ht Hp E) as (ls2 & -> & E2).
    apply Forall_app in Hls as [Hls1' Hls2]. rewrite grep_lines_spec; [|eapply Forall_impl; [exact Hls1'|naive_solver]|done|lia]. simpl.
    rewrite (IH (S i) rest1 (drop n text) ls2) by (done || (rewrite length_drop; lia)). simpl. by rewrite selected_app.
Qed.

(** ** Properties *)

(** [match] decides the language of the pattern: after [^] the items must match at
    the beginning of the line, otherwise anywhere in it, where an item is a character
    or [.], one of them followed by [*], or [$] at the end. *)
Theorem match_decides re text : match_ re text = true <-> in_lang re text.
Proof. apply match_spec. Qed.

#[export] Instance in_lang_dec re text : Decision (in_lang re text).
Proof. destruct (match_ re text) eqn:E; [left; by apply match_spec | right; intros H%match_spec; congruence]. Defined.


