(* ===== verification/Umalloc.v ===== *)
(** * Umalloc: the memory allocator of user programs, [user/umalloc.c]

    A block is a header and the bytes after it; sizes are in units of the header's
    sixteen bytes.  The free blocks form a ring through [base] in order of address.
    Memory is the headers by address; an access outside [base] and the memory got
    from [sbrk] has no meaning.  [sbrk] takes an [int] and grows the process as
    [sys_sbrk] does, up to a limit.

    The theorem: after any sequence of calls with requests of at most [2^31 - 48] bytes,
    the largest whose size in bytes is an [int] for [sbrk], the memory got from [sbrk] is tiled by
    the blocks handed out and the free blocks, no two free ones adjacent, and the ring
    is the free blocks in order; [malloc] returns a block of the size asked for that
    overlaps no other, or 0 when [sbrk] fails; [free] gives exactly its block back. *)

From stdpp Require Import sorting.
From S2P Require Import Prelude.

Definition HDR : Z := 16.

Record heap := Heap { hdrs : gmap Z (Z * Z); freep : Z; brk : Z }.

Section Umalloc.
(** The address of [base], the start of the heap and the limit of the process. *)
Variables base heap0 limit : Z.

Definition hdr_ok (h : heap) (a : Z) : bool := (a =? base) || ((heap0 <=? a) && (a + HDR <=? brk h)).
Definition hget (a : Z) : M heap (Z * Z) := fun h => if hdr_ok h a then Ret (default (0, 0) (hdrs h !! a)) h else undefined h.
Definition hset (a : Z) (v : Z * Z) : M heap unit := fun h => if hdr_ok h a then Ret tt (Heap (<[a := v]> (hdrs h)) (freep h) (brk h)) else undefined h.

(** [p->s.ptr], [p->s.size] and their assignments. *)
Definition ptr_of (a : Z) : M heap Z := v ← hget a; mret v.1.
Definition size_of (a : Z) : M heap Z := v ← hget a; mret v.2.
Definition set_ptr (a p : Z) : M heap unit := v ← hget a; hset a (p, v.2).
Definition set_size (a n : Z) : M heap unit := v ← hget a; hset a (v.1, n).
Definition set_freep (p : Z) : M heap unit := modify (fun h => Heap (hdrs h) p (brk h)).

(** [for(p = freep; !(bp > p && bp < p->s.ptr); p = p->s.ptr) if(...) break;] *)
Fixpoint free_loop (fuel : nat) (bp p : Z) : M heap Z :=
  match fuel with
  | O => fun _ => NoFuel
  | S fuel =>
    q ← ptr_of p;
    if (p <? bp) && (bp <? q) then mret p else
    if (q <=? p) && ((p <? bp) || (bp <? q)) then mret p else
    free_loop fuel bp q
  end.

(** [free] once the place in the ring is found. *)
Definition insert_block (bp p : Z) : M heap unit :=
  n ← size_of bp;
  q ← ptr_of p;
  (if bp + HDR * n =? q then
     qn ← size_of q;
     set_size bp (u32 (n + qn));;
     qq ← ptr_of q;
     set_ptr bp qq
   else set_ptr bp q);;
  pn ← size_of p;
  (if p + HDR * pn =? bp then
     bn ← size_of bp;
     set_size p (u32 (pn + bn));;
     bq ← ptr_of bp;
     set_ptr p bq
   else set_ptr p bp);;
  set_freep p.

Definition free (fuel : nat) (ap : Z) : M heap unit :=
  let bp := ap - HDR in
  p ← gets freep;
  p ← free_loop fuel bp p;
  insert_block bp p.

(** The system call: [growproc] with the [int] argument. *)
Definition sbrk (n : Z) : M heap Z := fun h =>
  let n := i32 n in
  if 0 <? n then
    if brk h + n <=? limit then Ret (brk h) (Heap (hdrs h) (freep h) (brk h + n)) else Ret (-1) h
  else
    let newsz := u64 (brk h + n) in
    Ret (brk h) (Heap (hdrs h) (freep h) (if newsz <? brk h then newsz else brk h)).

Definition morecore (fuel : nat) (nu : Z) : M heap Z :=
  let nu := if nu <? 4096 then 4096 else nu in
  p ← sbrk (nu * HDR);
  if p =? -1 then mret 0 else
  set_size p nu;;
  free fuel (p + HDR);;
  gets freep.

Fixpoint malloc_loop (fuel fuel' : nat) (nunits prevp p : Z) : M heap Z :=
  match fuel with
  | O => fun _ => NoFuel
  | S fuel =>
    n ← size_of p;
    if nunits <=? n then
      r ← (if n =? nunits then
             q ← ptr_of p;
             set_ptr prevp q;;
             mret p
           else
             set_size p (n - nunits);;
             let p := p + HDR * (n - nunits) in
             set_size p nunits;;
             mret p);
      set_freep prevp;;
      mret (r + HDR)
    else
      fp ← gets freep;
      if p =? fp then
        p ← morecore fuel' nunits;
        if p =? 0 then mret 0 else
        q ← ptr_of p;
        malloc_loop fuel fuel' nunits p q
      else
        q ← ptr_of p;
        malloc_loop fuel fuel' nunits p q
  end.

(** [(nbytes + sizeof(Header) - 1)/sizeof(Header) + 1] *)
Definition units (nbytes : Z) : Z := u32 ((nbytes + HDR - 1) / HDR + 1).

Definition malloc (fuel fuel' : nat) (nbytes : Z) : M heap Z :=
  let nunits := units nbytes in
  fp ← gets freep;
  prevp ← (if fp =? 0 then
             set_ptr base base;;
             set_freep base;;
             set_size base 0;;
             mret base
           else mret fp);
  q ← ptr_of prevp;
  malloc_loop fuel fuel' nunits prevp q.

(** ** Headers *)

Definition hd (h : heap) (a : Z) : Z * Z := default (0, 0) (hdrs h !! a).
Definition upd (a : Z) (v : Z * Z) (h : heap) : heap := Heap (<[a := v]> (hdrs h)) (freep h) (brk h).

Lemma hd_upd a v h b : hd (upd a v h) b = if decide (a = b) then v else hd h b.
Proof. unfold hd, upd. simpl. case_decide as E; [subst; by rewrite lookup_insert_eq | by rewrite lookup_insert_ne]. Qed.
Lemma hd_upd_eq a v h : hd (upd a v h) a = v.
Proof. by rewrite hd_upd, decide_True. Qed.
Lemma hd_upd_ne a v h b : a <> b -> hd (upd a v h) b = hd h b.
Proof. intros. by rewrite hd_upd, decide_False. Qed.

Lemma ptr_of_eq a h : hdr_ok h a = true -> ptr_of a h = Ret (hd h a).1 h.
Proof. intros E. unfold ptr_of, mbind, M_bind, hget. by rewrite E. Qed.
Lemma size_of_eq a h : hdr_ok h a = true -> size_of a h = Ret (hd h a).2 h.
Proof. intros E. unfold size_of, mbind, M_bind, hget. by rewrite E. Qed.
Lemma set_ptr_eq a p h : hdr_ok h a = true -> set_ptr a p h = Ret tt (upd a (p, (hd h a).2) h).
Proof. intros E. unfold set_ptr, mbind, M_bind, hget, hset. by rewrite E, E. Qed.
Lemma set_size_eq a n h : hdr_ok h a = true -> set_size a n h = Ret tt (upd a ((hd h a).1, n) h).
Proof. intros E. unfold set_size, mbind, M_bind, hget, hset. by rewrite E, E. Qed.

(** ** The ring *)

(** [R] is linked, its last element pointing to [z]. *)
Definition next_of (R : list (Z * Z)) (z : Z) : Z := match R with (a, _) :: _ => a | [] => z end.
Fixpoint chain (h : heap) (R : list (Z * Z)) (z : Z) : Prop :=
  match R with
  | [] => True
  | (a, n) :: R => hd h a = (next_of R z, n) /\ chain h R z
  end.

Lemma next_of_app R1 R2 z : next_of (R1 ++ R2) z = next_of R1 (next_of R2 z).
Proof. by destruct R1 as [|[]]. Qed.

Lemma chain_app h R1 R2 z : chain h (R1 ++ R2) z <-> chain h R1 (next_of R2 z) /\ chain h R2 z.
Proof. induction R1 as [|[a n] R1 IH]; simpl; [naive_solver|]. rewrite IH, next_of_app. naive_solver. Qed.

Lemma chain_frame h h' R z : (forall a, a ∈ R.*1 -> hd h' a = hd h a) -> chain h R z -> chain h' R z.
Proof.
  induction R as [|[a n] R IH]; simpl; [done|]. intros Hf [E Hc]. split; [rewrite Hf; [done | by left]|]. apply IH; [|done]. intros b Hb. apply Hf. by right.
Qed.

(** ** Tilings *)

(** The heap as a sequence of blocks: size and whether it is handed out. *)
Fixpoint span (T : list (Z * bool)) : Z := match T with [] => 0 | (n, _) :: T => n + span T end.
Fixpoint select (u : bool) (a : Z) (T : list (Z * bool)) : list (Z * Z) :=
  match T with
  | [] => []
  | (n, v) :: T => (if Bool.eqb u v then [(a, n)] else []) ++ select u (a + HDR * n) T
  end.
Definition frees := select false.
Definition useds := select true.

(** No two free blocks are adjacent. *)
Fixpoint coalesced (T : list (Z * bool)) : Prop :=
  match T with
  | (_, false) :: T' => match T' with (_, false) :: _ => False | _ => coalesced T' end
  | _ :: T' => coalesced T'
  | [] => True
  end.

Lemma span_app T1 T2 : span (T1 ++ T2) = span T1 + span T2.
Proof. induction T1 as [|[n u] T1 IH]; simpl; lia. Qed.
Lemma select_app u a T1 T2 : select u a (T1 ++ T2) = select u a T1 ++ select u (a + HDR * span T1) T2.
Proof.
  revert a. induction T1 as [|[n v] T1 IH]; intros a; simpl; [f_equal; lia|]. rewrite IH, <- app_assoc. do 3 f_equal. lia.
Qed.

Definition sizes_ok (T : list (Z * bool)) : Prop := Forall (fun b => 0 < b.1) T.

Lemma span_nonneg T : sizes_ok T -> 0 <= span T.
Proof. induction 1 as [|[n u] T Hn _ IH]; simpl in *; lia. Qed.

Lemma select_range u a T x n : sizes_ok T -> (x, n) ∈ select u a T -> a <= x /\ x + HDR * n <= a + HDR * span T /\ 0 < n.
Proof.
  intros HT. revert a. induction HT as [|[m v] T Hm HT IH]; intros a; simpl; [by rewrite elem_of_nil|].
  pose proof (span_nonneg T HT). unfold HDR in *. simpl in Hm. rewrite elem_of_app. intros [Hx|Hx].
  - destruct (Bool.eqb u v); [|by apply elem_of_nil in Hx]. apply list_elem_of_singleton in Hx. simplify_eq. lia.
  - specialize (IH _ Hx). lia.
Qed.

Lemma coalesced_app T1 T2 : coalesced (T1 ++ T2) -> coalesced T1 /\ coalesced T2.
Proof.
  induction T1 as [|[n u] T1 IH]; simpl; [done|]. destruct u; [exact IH|]. destruct T1 as [|[m v] T1]; simpl in *.
  - intros H. split; [done|]. by destruct T2 as [|[? []]].
  - destruct v; [exact IH | done].
Qed.

(** Putting two coalesced parts together. *)
Definition ends_free (T : list (Z * bool)) : bool := match last T with Some (_, false) => true | _ => false end.
Definition starts_free (T : list (Z * bool)) : bool := match T with (_, false) :: _ => true | _ => false end.
Lemma coalesced_join T1 T2 : coalesced T1 -> coalesced T2 -> ends_free T1 && starts_free T2 = false -> coalesced (T1 ++ T2).
Proof.
  induction T1 as [|[n u] T1 IH]; intros H1 H2 He; [done|]. simpl in *. destruct u.
  - apply IH; [done..|]. destruct T1 as [|b T1]; [done|]. exact He.
  - destruct T1 as [|[m v] T1]; simpl in *.
    + unfold ends_free in He. simpl in He. by destruct T2 as [|[? []]].
    + destruct v; [|done]. by apply IH.
Qed.
Lemma coalesced_split T1 T2 : coalesced (T1 ++ T2) -> ends_free T1 && starts_free T2 = false.
Proof.
  induction T1 as [|[n u] T1 IH]; simpl; [done|]. intros Hc. destruct T1 as [|b T1].
  - unfold ends_free. simpl. destruct u; [done|]. by destruct T2 as [|[? []]].
  - unfold ends_free. rewrite last_cons_cons. apply IH. destruct u; [done|]. by destruct b as [? []].
Qed.

(** ** The invariant *)

Definition ring (T : list (Z * bool)) : list (Z * Z) := (base, 0) :: frees heap0 T.

Record uinv (h : heap) (T : list (Z * bool)) : Prop := {
  ui_brk : brk h = heap0 + HDR * span T;
  ui_lim : brk h <= limit;
  ui_sizes : sizes_ok T;
  ui_coal : coalesced T;
  ui_ring : chain h (ring T) base;
  ui_used : forall a n, (a, n) ∈ useds heap0 T -> (hd h a).2 = n;
  ui_freep : freep h ∈ (ring T).*1
}.

Hypothesis base_ok : 0 < base /\ base + HDR <= heap0.
(** The sizes of blocks fit a [uint]. *)
Hypothesis limit_ok : limit < heap0 + HDR * 2 ^ 32.

Lemma span_fits h T : uinv h T -> span T < 2 ^ 32.
Proof. intros Hi. pose proof (ui_brk _ _ Hi). pose proof (ui_lim _ _ Hi). unfold HDR in *. lia. Qed.

Lemma block_ok h T u a n : uinv h T -> (a, n) ∈ select u heap0 T -> hdr_ok h a = true.
Proof.
  intros Hi Ha. destruct (select_range _ _ _ _ _ (ui_sizes _ _ Hi) Ha) as (H1 & H2 & H3). unfold hdr_ok. rewrite (ui_brk _ _ Hi).
  unfold HDR in *. rewrite (proj2 (Z.leb_le heap0 a)), (proj2 (Z.leb_le (a + 16) _)) by lia. by rewrite orb_true_r.
Qed.
Lemma base_hdr h : hdr_ok h base = true.
Proof. unfold hdr_ok. by rewrite Z.eqb_refl. Qed.
Lemma ring_ok h T a n : uinv h T -> (a, n) ∈ ring T -> hdr_ok h a = true.
Proof. intros Hi [[= -> ->]|Ha]%elem_of_cons; [apply base_hdr | by eapply block_ok]. Qed.

(** Addresses ascend along the ring. *)
Definition asc (R : list (Z * Z)) : Prop := StronglySorted (fun x y => x.1 < y.1) R.

Lemma select_asc u a T : sizes_ok T -> asc (select u a T).
Proof.
  intros HT. revert a. induction HT as [|[n v] T Hn HT IH]; intros a; simpl; [constructor|]. simpl in Hn.
  destruct (Bool.eqb u v); simpl; [|apply IH]. constructor; [apply IH|]. apply Forall_forall. intros [x m] Hx.
  apply select_range in Hx; [|done]. unfold HDR in Hx. simpl. lia.
Qed.
Lemma ring_asc h T : uinv h T -> asc (ring T).
Proof.
  intros Hi. constructor; [apply select_asc; by apply (ui_sizes h)|]. apply Forall_forall. intros [x m] Hx.
  apply select_range in Hx; [|by apply (ui_sizes h)]. simpl. destruct base_ok. unfold HDR in *. lia.
Qed.
Lemma asc_app_inv R1 R2 x y : asc (R1 ++ R2) -> x ∈ R1 -> y ∈ R2 -> x.1 < y.1.
Proof.
  induction R1 as [|z R1 IH]; intros Hs Hx Hy; [by apply elem_of_nil in Hx|]. apply StronglySorted_inv in Hs as [Hs Hf].
  apply elem_of_cons in Hx as [->|Hx]; [|by apply IH]. rewrite Forall_forall in Hf. apply Hf, elem_of_app. by right.
Qed.
Lemma asc_app_r R1 R2 : asc (R1 ++ R2) -> asc R2.
Proof. induction R1 as [|z R1 IH]; [done|]. intros Hs. apply IH. by apply StronglySorted_inv in Hs as [Hs _]. Qed.

(** ** The search of [free] *)

Lemma head_Some_cons {X} (l : list X) x : head l = Some x -> exists l', l = x :: l'.
Proof. destruct l as [|y l]; [done|]. intros [= ->]. by exists l. Qed.

Section search.
Context (h : heap) (bp : Z) (A B : list (Z * Z)).
Hypothesis Hasc : asc (A ++ B).
Hypothesis Hok : forall a n, (a, n) ∈ A ++ B -> hdr_ok h a = true.
Hypothesis Hchain : chain h (A ++ B) base.
Hypothesis Hbelow : forall x, x ∈ A -> base <= x.1 < bp.
Hypothesis Habove : forall x, x ∈ B -> bp < x.1.
Hypothesis Hbase : head A = Some (base, 0).

Lemma search_below A1 p n A2 fuel p' n' : A = A1 ++ (p, n) :: A2 -> last ((p, n) :: A2) = Some (p', n') -> (length A2 < fuel)%nat ->
  free_loop fuel bp p h = Ret p' h.
Proof.
  revert A1 p n fuel. induction A2 as [|[q m] A2 IH]; intros A1 p n [|fuel] EA El Hf; try (simpl in Hf; lia); cbn [free_loop].
  - simpl in El. simplify_eq. pose proof Hchain as Hc. rewrite <- app_assoc, chain_app in Hc. simpl in Hc. destruct Hc as [_ [Ehd _]].
    erewrite bind_ret by (apply ptr_of_eq; eapply (Hok p' n'); rewrite !elem_of_app, elem_of_cons; auto). rewrite Ehd. simpl.
    assert (base <= p' < bp) as [? ?] by (apply (Hbelow (p', n')); rewrite elem_of_app, elem_of_cons; auto).
    rewrite (proj2 (Z.ltb_lt p' bp)) by lia. destruct B as [|[b nb] B'] eqn:EB; simpl.
    + rewrite (proj2 (Z.ltb_ge bp base)), (proj2 (Z.leb_le base p')) by lia. done.
    + assert (bp < b) by (apply (Habove (b, nb)); by left). by rewrite (proj2 (Z.ltb_lt bp b)) by lia.
  - rewrite last_cons_cons in El. pose proof Hchain as Hc. rewrite EA, <- app_assoc, chain_app in Hc. simpl in Hc. destruct Hc as [_ [Ehd _]].
    erewrite bind_ret by (apply ptr_of_eq; eapply (Hok p n); rewrite EA, !elem_of_app, elem_of_cons; auto). rewrite Ehd. simpl.
    assert (base <= q < bp) as [? ?] by (apply (Hbelow (q, m)); rewrite EA, elem_of_app, !elem_of_cons; auto).
    assert (p < q) as Hpq by (pose proof Hasc as Ha; rewrite EA, <- app_assoc in Ha; apply asc_app_r, StronglySorted_inv in Ha as [_ Hall]; by inversion Hall).
    rewrite (proj2 (Z.ltb_ge bp q)), andb_false_r, (proj2 (Z.leb_gt q p)) by lia. simpl.
    eapply (IH (A1 ++ [(p, n)])); [by rewrite EA, <- app_assoc | exact El | simpl in Hf; lia].
Qed.

Lemma search_above B1 p n B2 fuel p' n' : B = B1 ++ (p, n) :: B2 -> last A = Some (p', n') -> (length B2 + length A < fuel)%nat ->
  free_loop fuel bp p h = Ret p' h.
Proof.
  revert B1 p n fuel. induction B2 as [|[q m] B2 IH]; intros B1 p n [|fuel] EB El Hf; try (simpl in Hf; lia); cbn [free_loop].
  - pose proof Hchain as Hc. rewrite EB, app_assoc, chain_app in Hc. simpl in Hc. destruct Hc as [_ [Ehd _]].
    erewrite bind_ret by (apply ptr_of_eq; eapply (Hok p n); rewrite EB, !elem_of_app, elem_of_cons; auto). rewrite Ehd. simpl.
    assert (bp < p) by (apply (Habove (p, n)); rewrite EB, elem_of_app, elem_of_cons; auto).
    rewrite (proj2 (Z.ltb_ge p bp)) by lia. simpl. destruct (head_Some_cons A _ Hbase) as [A' EA].
    assert (base < bp) by (apply (Hbelow (base, 0)); rewrite EA; by left). rewrite (proj2 (Z.ltb_ge bp base)), andb_false_r by lia.
    eapply (search_below []); [exact EA | by rewrite <- EA | rewrite EA in Hf; simpl in Hf; lia].
  - pose proof Hchain as Hc. rewrite EB, app_assoc, chain_app in Hc. simpl in Hc. destruct Hc as [_ [Ehd _]].
    erewrite bind_ret by (apply ptr_of_eq; eapply (Hok p n); rewrite EB, !elem_of_app, elem_of_cons; auto). rewrite Ehd. simpl.
    assert (bp < p) by (apply (Habove (p, n)); rewrite EB, elem_of_app, elem_of_cons; auto).
    assert (p < q) as Hpq by (pose proof Hasc as Ha; rewrite EB, app_assoc in Ha; apply asc_app_r, StronglySorted_inv in Ha as [_ Hall]; by inversion Hall).
    rewrite (proj2 (Z.ltb_ge p bp)), (proj2 (Z.leb_gt q p)) by lia. simpl.
    eapply (IH (B1 ++ [(p, n)])); [by rewrite EB, <- app_assoc | exact El | simpl in Hf; lia].
Qed.

(** From any element of the ring the search ends at the last one below [bp]. *)
Lemma search_ok p fuel p' n' : p ∈ (A ++ B).*1 -> last A = Some (p', n') -> (length (A ++ B) < fuel)%nat -> free_loop fuel bp p h = Ret p' h.
Proof.
  intros Hp El Hf. rewrite length_app in Hf. apply list_elem_of_fmap in Hp as ([p0 n] & -> & [Hp|Hp]%elem_of_app); simpl.
  - apply list_elem_of_split in Hp as (A1 & A2 & EA). eapply search_below; [exact EA | | rewrite EA, length_app in Hf; simpl in Hf; lia].
    rewrite EA, last_app_cons in El. exact El.
  - apply list_elem_of_split in Hp as (B1 & B2 & EB). eapply search_above; [exact EB | exact El | rewrite EB, length_app in Hf; simpl in Hf; lia].
Qed.
End search.

(** ** Linking a block in *)

Lemma hdr_ok_upd h a v b : hdr_ok (upd a v h) b = hdr_ok h b.
Proof. done. Qed.

Lemma insert_block_eval h bp p q n pn x m qq : hdr_ok h bp = true -> hdr_ok h p = true -> p <> bp ->
  hd h bp = (x, n) -> hd h p = (q, pn) -> (bp + HDR * n = q -> hdr_ok h q = true /\ q <> bp /\ q <> p /\ hd h q = (qq, m) /\ 0 <= n + m < 2 ^ 32) ->
  let v := if bp + HDR * n =? q then (qq, n + m) else (q, n) in
  let w := if p + HDR * pn =? bp then (v.1, pn + v.2) else (bp, pn) in
  (p + HDR * pn = bp -> 0 <= pn + v.2 < 2 ^ 32) ->
  exists h', insert_block bp p h = Ret tt h' /\ freep h' = p /\ brk h' = brk h /\
    forall a, hd h' a = if decide (a = p) then w else if decide (a = bp) then v else hd h a.
Proof.
  intros Ob Op Hne Eb Ep Hq v w Hw. unfold insert_block. erewrite bind_ret by (by apply size_of_eq). rewrite Eb.
  erewrite bind_ret by (by apply ptr_of_eq). rewrite Ep. cbn [fst snd].
  assert (exists h1, (if bp + HDR * n =? q then qn ← size_of q; set_size bp (u32 (n + qn));; qq ← ptr_of q; set_ptr bp qq else set_ptr bp q) h = Ret tt h1 /\
    freep h1 = freep h /\ brk h1 = brk h /\ forall a, hd h1 a = if decide (a = bp) then v else hd h a) as (h1 & E1 & F1 & B1 & D1).
  { unfold v. destruct (Z.eqb_spec (bp + HDR * n) q) as [E|E].
    - destruct (Hq E) as (Oq & Hqb & Hqp & Eq & Hsum). erewrite bind_ret by (by apply size_of_eq). rewrite Eq. cbn [snd]. rewrite (u32_small (n + m)) by done.
      erewrite bind_ret by (by apply set_size_eq). erewrite bind_ret by (by apply ptr_of_eq; rewrite hdr_ok_upd).
      rewrite set_ptr_eq by (by rewrite !hdr_ok_upd). eexists. split_and!; [done|done|done|]. intros a.
      rewrite !hd_upd, !(decide_True (P := bp = bp)), (decide_False (P := bp = q)) by congruence. rewrite Eq. simpl.
      repeat case_decide; congruence.
    - rewrite set_ptr_eq by done. eexists. split_and!; [done|done|done|]. intros a. rewrite !hd_upd, Eb. simpl. repeat case_decide; congruence. }
  erewrite bind_ret by exact E1.
  assert (forall a, hdr_ok h1 a = hdr_ok h a) as O1 by (intros a; unfold hdr_ok; by rewrite B1).
  erewrite bind_ret by (apply size_of_eq; by rewrite O1). rewrite D1, decide_False, Ep by done. cbn [snd].
  assert (exists h2, (if p + HDR * pn =? bp then bn ← size_of bp; set_size p (u32 (pn + bn));; bq ← ptr_of bp; set_ptr p bq else set_ptr p bp) h1 = Ret tt h2 /\
    brk h2 = brk h /\ forall a, hd h2 a = if decide (a = p) then w else hd h1 a) as (h2 & E2 & B2 & D2).
  { unfold w. destruct (Z.eqb_spec (p + HDR * pn) bp) as [E|E].
    - erewrite bind_ret by (apply size_of_eq; by rewrite O1). rewrite D1, decide_True by done. rewrite u32_small by (by apply Hw).
      erewrite bind_ret by (apply set_size_eq; by rewrite O1). erewrite bind_ret by (apply ptr_of_eq; by rewrite hdr_ok_upd, O1).
      rewrite set_ptr_eq by (by rewrite !hdr_ok_upd, O1). eexists. split_and!; [done|done|]. intros a.
      rewrite !hd_upd, !(decide_True (P := p = p)), (decide_False (P := p = bp)), D1, (decide_True (P := bp = bp)) by congruence. simpl.
      repeat case_decide; congruence.
    - rewrite set_ptr_eq by (by rewrite O1). eexists. split_and!; [done|done|]. intros a. rewrite !hd_upd, D1, (decide_False (P := p = bp)), Ep by done. simpl.
      repeat case_decide; congruence. }
  erewrite bind_ret by exact E2. eexists. split_and!; [done|done|done|]. intros a. change (hd (Heap (hdrs h2) p (brk h2)) a) with (hd h2 a). rewrite D2, D1. done.
Qed.

(** What [free] makes of the tiling. *)
Definition merge_next (n : Z) (T2 : list (Z * bool)) : Z * list (Z * bool) :=
  match T2 with (m, false) :: T2' => (n + m, T2') | _ => (n, T2) end.
Definition merge_prev (T1 : list (Z * bool)) (n : Z) : list (Z * bool) * Z :=
  match last T1 with Some (m, false) => (removelast T1, m + n) | _ => (T1, n) end.
Definition freed (T1 : list (Z * bool)) (n : Z) (T2 : list (Z * bool)) : list (Z * bool) :=
  let '(n1, T2') := merge_next n T2 in
  let '(T1', n2) := merge_prev T1 n1 in
  T1' ++ (n2, false) :: T2'.

Lemma select_disjoint a T x n m : sizes_ok T -> (x, n) ∈ select true a T -> (x, m) ∈ select false a T -> False.
Proof.
  intros HT. revert a. induction HT as [|[k v] T Hk HT IH]; intros a; simpl; [by rewrite elem_of_nil|]. simpl in Hk.
  rewrite !elem_of_app. destruct v; simpl.
  - intros [Hx|Hx] [Hy|Hy]; try (by apply elem_of_nil in Hy); [|by eapply IH].
    apply list_elem_of_singleton in Hx. apply select_range in Hy; [|done]. simplify_eq. unfold HDR in *. lia.
  - intros [Hx|Hx] [Hy|Hy]; try (by apply elem_of_nil in Hx); [|by eapply IH].
    apply list_elem_of_singleton in Hy. apply select_range in Hx; [|done]. simplify_eq. unfold HDR in *. lia.
Qed.

Lemma last_split {X} (l : list X) x : last l = Some x -> l = removelast l ++ [x].
Proof.
  intros Hl. apply last_Some in Hl as [l' ->]. f_equal. by rewrite removelast_last.
Qed.

(** The neighbour above: it is merged exactly when it is free. *)
Lemma next_side b n T2 : heap0 <= b -> 0 < n -> sizes_ok T2 ->
  let B := frees (b + HDR * n) T2 in
  let '(n1, T2') := merge_next n T2 in
  let B' := frees (b + HDR * n1) T2' in
  if b + HDR * n =? next_of B base then exists m, T2 = (m, false) :: T2' /\ n1 = n + m /\ B = (b + HDR * n, m) :: B' /\ 0 < m
  else T2' = T2 /\ n1 = n /\ starts_free T2 = false.
Proof.
  intros Hb Hn HT B. destruct base_ok as [Hb0 Hb1]. unfold HDR in *. subst B. unfold frees. destruct T2 as [|[m [|]] T2']; simpl; change HDR with 16 in *.
  - by rewrite (proj2 (Z.eqb_neq (b + 16 * n) base)) by lia.
  - apply Forall_cons in HT as [Hm HT]. simpl in Hm. assert (b + 16 * n <> next_of (select false (b + 16 * n + 16 * m) T2') base) as Hne.
    { destruct (select false (b + 16 * n + 16 * m) T2') as [|[x k] B] eqn:EB; simpl; [lia|].
      assert ((x, k) ∈ select false (b + 16 * n + 16 * m) T2') as Hx by (rewrite EB; by left). apply select_range in Hx; [lia|done]. }
    by rewrite (proj2 (Z.eqb_neq _ _) Hne).
  - apply Forall_cons in HT as [Hm HT]. simpl in Hm. rewrite Z.eqb_refl. exists m. split_and!; try done. do 2 f_equal. lia.
Qed.

(** The neighbour below. *)
Lemma prev_side T1 p pn : sizes_ok T1 -> last ((base, 0) :: frees heap0 T1) = Some (p, pn) ->
  let b := heap0 + HDR * span T1 in
  p < b /\ (if p + HDR * pn =? b then exists T1', T1 = T1' ++ [(pn, false)] /\ p = heap0 + HDR * span T1' else ends_free T1 = false).
Proof.
  intros HT El b. destruct base_ok as [Hb0 Hb1]. unfold b. clear b. destruct T1 as [|x T1 _] using rev_ind.
  - simpl in *. simplify_eq. unfold HDR in *. split; [lia|]. by rewrite (proj2 (Z.eqb_neq _ _)) by lia.
  - unfold sizes_ok in HT. rewrite Forall_app, Forall_singleton in HT. destruct HT as [HT Hx]. destruct x as [m v]. simpl in Hx.
    pose proof (span_nonneg _ HT) as Hs. rewrite span_app. simpl. unfold frees in El. rewrite select_app in El. simpl in El. destruct v; simpl in El.
    + rewrite app_nil_r in El. assert (p + HDR * pn <= heap0 + HDR * span T1 /\ 0 <= pn) as [Hle Hpn].
      { assert ((p, pn) ∈ (base, 0) :: select false heap0 T1) as Hin.
        { apply last_Some in El as [l' E]. rewrite E. apply elem_of_app. right. by left. }
        apply elem_of_cons in Hin as [[= -> ->]|Hin]; [unfold HDR in *; lia|]. apply select_range in Hin; [unfold HDR in *; lia|done]. }
      unfold HDR in *. split; [lia|]. rewrite (proj2 (Z.eqb_neq _ _)) by lia. unfold ends_free. by rewrite last_snoc.
    + change (Some (p, pn) = Some (p, pn)) in El || idtac. rewrite app_comm_cons, last_snoc in El. simplify_eq. unfold HDR in *. split; [lia|].
      rewrite (proj2 (Z.eqb_eq _ _)) by lia. by exists T1.
Qed.

Lemma next_merge b n T2 : 0 < n -> sizes_ok T2 -> coalesced T2 ->
  let '(n1, T2') := merge_next n T2 in
  useds (b + HDR * n1) T2' = useds (b + HDR * n) T2 /\ span T2' + n1 = span T2 + n /\ coalesced T2' /\ starts_free T2' = false /\ sizes_ok T2' /\ 0 < n1.
Proof.
  intros Hn HT Hc. unfold useds. destruct T2 as [|[m [|]] T2']; simpl; [by split_and!|by split_and!|].
  apply Forall_cons in HT as [Hm HT]. simpl in Hm. split_and!; [f_equal; lia|lia| | |done|lia]; simpl in Hc; by destruct T2' as [|[? []]].
Qed.

Lemma prev_merge T1 n : 0 < n -> sizes_ok T1 -> coalesced T1 ->
  let '(T1', n2) := merge_prev T1 n in
  useds heap0 T1' = useds heap0 T1 /\ span T1' + n2 = span T1 + n /\ coalesced T1' /\ ends_free T1' = false /\ sizes_ok T1' /\ 0 < n2.
Proof.
  intros Hn HT Hc. unfold merge_prev. destruct (last T1) as [[m [|]]|] eqn:El.
  - split_and!; try done. unfold ends_free. by rewrite El.
  - pose proof (last_split _ _ El) as E. set (T1' := removelast T1) in *. rewrite E in *. unfold sizes_ok in HT. rewrite Forall_app, Forall_singleton in HT.
    destruct HT as [HT Hm]. simpl in Hm. unfold useds. rewrite select_app, span_app. simpl. rewrite !app_nil_r.
    pose proof (coalesced_split _ _ Hc) as He. rewrite andb_true_r in He. split_and!; try done; try lia. by apply coalesced_app in Hc as [? _].
  - split_and!; try done. unfold ends_free. by rewrite El.
Qed.

(** The invariant after [p] and [b] were relinked around the new free block. *)
Lemma freed_inv h h' T1 n T2 p pn : let T := T1 ++ (n, true) :: T2 in let b := heap0 + HDR * span T1 in
  uinv h T -> last ((base, 0) :: frees heap0 T1) = Some (p, pn) ->
  let '(n1, T2') := merge_next n T2 in
  let z := next_of (frees (b + HDR * n1) T2') base in
  freep h' = p -> brk h' = brk h -> chain h (frees (b + HDR * n1) T2') base ->
  (forall a, hd h' a = if decide (a = p) then (if p + HDR * pn =? b then (z, pn + n1) else (b, pn)) else if decide (a = b) then (z, n1) else hd h a) ->
  uinv h' (freed T1 n T2).
Proof.
  intros T b Hi El. unfold freed. destruct (merge_next n T2) as [n1 T2'] eqn:Em. intros Hfp Hbrk HchB Hhd.
  pose proof (ui_sizes _ _ Hi) as HT. unfold T, sizes_ok in HT. rewrite Forall_app, Forall_cons in HT. destruct HT as (HT1 & Hn & HT2). simpl in Hn.
  destruct (coalesced_app _ _ (ui_coal _ _ Hi)) as [Hc1 Hc2]. change (coalesced T2) in Hc2.
  pose proof (next_merge b n T2 Hn HT2 Hc2) as Hnm. rewrite Em in Hnm. destruct Hnm as (Hu2 & Hs2 & Hc2' & Hst & HT2' & Hn1).
  pose proof (prev_merge T1 n1 Hn1 HT1 Hc1) as Hpm. destruct (prev_side T1 p pn HT1 El) as [Hpb Hprev]. fold b in Hpb, Hprev.
  pose proof (last_split _ _ El) as EA. set (A0 := removelast ((base, 0) :: frees heap0 T1)) in *.
  pose proof (ui_ring _ _ Hi) as Hch. unfold ring, T, frees in Hch. rewrite select_app, app_comm_cons in Hch. fold (frees heap0 T1) in Hch. rewrite EA, <- app_assoc, chain_app in Hch.
  destruct Hch as [HchA _]. simpl in HchA.
  assert (forall x, x ∈ A0 -> x.1 < p) as HA0.
  { intros x Hx. pose proof (ring_asc _ _ Hi) as Has. unfold ring, T, frees in Has. rewrite select_app, app_comm_cons in Has. fold (frees heap0 T1) in Has. rewrite EA, <- app_assoc in Has.
    eapply (asc_app_inv A0 _ x (p, pn) Has Hx). apply elem_of_app. left. by left. }
  assert (forall x, x ∈ frees (b + HDR * n1) T2' -> b < x.1) as HB.
  { intros [x k] Hx. apply select_range in Hx; [|done]. unfold HDR in *. simpl. lia. }
  assert (forall a, a ∈ A0.*1 -> hd h' a = hd h a) as FA.
  { intros a (x & -> & Hx)%list_elem_of_fmap. specialize (HA0 x Hx). rewrite Hhd, !decide_False by lia. done. }
  assert (forall a, a ∈ (frees (b + HDR * n1) T2').*1 -> hd h' a = hd h a) as FB.
  { intros a (x & -> & Hx)%list_elem_of_fmap. specialize (HB x Hx). rewrite Hhd, !decide_False by lia. done. }
  destruct (merge_prev T1 n1) as [T1' n2] eqn:Emp. destruct Hpm as (Hu1 & Hs1 & Hc1' & He1 & HT1' & Hn2).
  assert (heap0 + HDR * (span T1' + n2) = b + HDR * n1) as Eaddr by (rewrite Hs1; unfold b, HDR; lia).
  assert (ring (T1' ++ (n2, false) :: T2') = ((base, 0) :: frees heap0 T1') ++ (heap0 + HDR * span T1', n2) :: frees (b + HDR * n1) T2') as ER'.
  { unfold ring, frees. rewrite select_app. simpl. do 3 f_equal. rewrite <- Eaddr. f_equal. lia. }
  assert (chain h' (ring (T1' ++ (n2, false) :: T2')) base /\ p ∈ (ring (T1' ++ (n2, false) :: T2')).*1) as [Hring Hpin].
  { rewrite ER'. unfold merge_prev in Emp. destruct (Z.eqb_spec (p + HDR * pn) b) as [E|E].
    - destruct Hprev as (T1'' & -> & ->). rewrite last_snoc in Emp. rewrite removelast_last in Emp. injection Emp as <- <-.
      assert (A0 = (base, 0) :: frees heap0 T1'') as EA0.
      { unfold frees in EA. rewrite select_app in EA. simpl in EA. rewrite app_comm_cons in EA. apply app_inj_tail in EA as [EA _]. done. }
      rewrite <- EA0. split; [|rewrite fmap_app; apply elem_of_app; right; by left]. rewrite chain_app. split; [by eapply chain_frame|]. split; [|by eapply chain_frame].
      rewrite Hhd, decide_True by done. done.
    - assert (T1' = T1 /\ n2 = n1) as [-> ->]. { unfold ends_free in Hprev. destruct (last T1) as [[? []]|]; simplify_eq; done. }
      rewrite EA, <- app_assoc. split; [|rewrite fmap_app; apply elem_of_app; right; by left]. rewrite chain_app. split; [by eapply chain_frame|].
      cbn [app chain next_of]. fold b. rewrite !Hhd, decide_True, decide_False, decide_True by (done || lia). split_and!; [done|done|]. by eapply chain_frame. }
  split; [| | | |done| |by rewrite Hfp].
  - rewrite Hbrk, (ui_brk _ _ Hi). unfold T. rewrite !span_app. simpl. lia.
  - rewrite Hbrk. apply (ui_lim _ _ Hi).
  - unfold sizes_ok. rewrite Forall_app, Forall_cons. done.
  - apply coalesced_join; [done| |by rewrite He1]. simpl. destruct T2' as [|[? []]]; done.
  - intros a k Ha. unfold useds in Ha, Hu1, Hu2. rewrite select_app in Ha. simpl in Ha. replace (heap0 + HDR * span T1' + HDR * n2) with (b + HDR * n1) in Ha by lia.
    rewrite Hu1, Hu2 in Ha. assert ((a, k) ∈ useds heap0 T) as Hu.
    { unfold useds, T. rewrite select_app. simpl. apply elem_of_app in Ha. rewrite elem_of_app, elem_of_cons. fold b. naive_solver. }
    rewrite Hhd, !decide_False; [by apply (ui_used _ _ Hi)| |].
    + intros ->. apply elem_of_app in Ha as [Ha|Ha]; apply select_range in Ha; try done; unfold b, HDR in *; lia.
    + intros ->. assert ((p, pn) ∈ (base, 0) :: frees heap0 T1) as Hpin' by (rewrite EA; apply elem_of_app; right; by left).
      apply elem_of_cons in Hpin' as [[= -> ->]|Hp'].
      * apply select_range in Hu; [destruct base_ok; unfold HDR in *; lia | by apply (ui_sizes _ _ Hi)].
      * eapply (select_disjoint heap0 T); [by apply (ui_sizes _ _ Hi) | exact Hu |]. unfold T. rewrite select_app. apply elem_of_app. by left.
Qed.

Lemma free_spec fuel h T1 n T2 : let T := T1 ++ (n, true) :: T2 in uinv h T -> (length (ring T) < fuel)%nat ->
  exists h', free fuel (heap0 + HDR * span T1 + HDR) h = Ret tt h' /\ uinv h' (freed T1 n T2) /\ brk h' = brk h.
Proof.
  intros T Hi Hf. set (b := heap0 + HDR * span T1). destruct base_ok as [Hb0 Hb1]. pose proof (span_fits _ _ Hi) as Hfit.
  pose proof (ui_sizes _ _ Hi) as HT. unfold T, sizes_ok in HT. rewrite Forall_app, Forall_cons in HT. destruct HT as (HT1 & Hn & HT2). simpl in Hn.
  pose proof (span_nonneg _ HT1) as Hs1. assert (heap0 <= b) as Hb by (unfold b, HDR; lia).
  set (A := (base, 0) :: frees heap0 T1). set (B := frees (b + HDR * n) T2).
  assert (ring T = A ++ B) as ER.
  { unfold ring, T, A, B, frees. rewrite select_app. simpl. done. }
  assert (exists p pn, last A = Some (p, pn)) as (p & pn & El).
  { destruct (last A) as [[p pn]|] eqn:E; [by exists p, pn|]. by apply last_None in E. }
  destruct (prev_side T1 p pn HT1 El) as [Hpb Hprev]. fold b in Hpb, Hprev.
  assert (forall x, x ∈ A -> base <= x.1 < b) as Hbelow.
  { intros x [->|Hx]%elem_of_cons; [simpl; unfold HDR in *; lia|]. destruct x as [x m]. apply select_range in Hx; [|done]. unfold b, HDR in *. simpl. lia. }
  assert (forall x, x ∈ B -> b < x.1) as Habove.
  { intros [x m] Hx. apply select_range in Hx; [|done]. unfold HDR in *. simpl. lia. }
  unfold free. replace (b + HDR - HDR) with b by lia. erewrite bind_ret by done.
  pose proof (ui_ring _ _ Hi) as Hch. rewrite ER in Hch. pose proof (ring_asc _ _ Hi) as Has. rewrite ER in Has.
  erewrite bind_ret. 2:{ eapply (search_ok h b A B); try done.
    - intros a m Ha. eapply ring_ok; [exact Hi|]. by rewrite ER.
    - rewrite <- ER. apply (ui_freep _ _ Hi).
    - by rewrite <- ER. }
  pose proof (last_split _ _ El) as EA. set (A0 := removelast A) in *.
  assert (hd h p = (next_of B base, pn)) as Ehp.
  { rewrite EA, <- app_assoc, chain_app in Hch. simpl in Hch. by destruct Hch as [_ [? _]]. }
  assert ((b, n) ∈ useds heap0 T) as Hused.
  { unfold useds, T. rewrite select_app. simpl. apply elem_of_app. right. by left. }
  pose proof (ui_used _ _ Hi b n Hused) as Ehb. destruct (hd h b) as [x n'] eqn:Ehb'. simpl in Ehb. subst n'.
  assert ((p, pn) ∈ ring T) as Hpr by (rewrite ER, EA, !elem_of_app; left; right; by left).
  pose proof (next_side b n T2 Hb Hn HT2) as Hnext. cbv zeta in Hnext. pose proof (next_merge b n T2 Hn HT2) as Hnm. destruct (merge_next n T2) as [n1 T2'] eqn:Em. fold B in Hnext.
  destruct Hnm as (_ & Hs2 & _ & _ & HT2' & Hn1); [exact (proj2 (coalesced_app _ _ (ui_coal _ _ Hi)))|].
  destruct (insert_block_eval h b p (next_of B base) n pn x (n1 - n) (next_of (frees (b + HDR * n1) T2') base)) as (h' & E' & Hfp & Hbrk & Hhd); try done.
  - eapply block_ok; [exact Hi | exact Hused].
  - eapply ring_ok; [exact Hi | exact Hpr].
  - lia.
  - intros E. rewrite (proj2 (Z.eqb_eq _ _) E) in Hnext. destruct Hnext as (m & -> & -> & EB & Hm). rewrite <- E. unfold HDR in *. split_and!; [|lia|lia| |lia|].
    + eapply (ring_ok h T _ m Hi). rewrite ER, EB. apply elem_of_app. right. by left.
    + rewrite EB, chain_app in Hch. simpl in Hch. destruct Hch as (_ & -> & _). f_equal. lia.
    + unfold T in Hfit. rewrite span_app in Hfit. simpl in Hfit. pose proof (span_nonneg T2'). unfold sizes_ok in *. rewrite Forall_cons in HT2. destruct HT2 as [_ HT2]. specialize (H HT2). lia.
  - intros E. rewrite (proj2 (Z.eqb_eq _ _) E) in Hprev. destruct Hprev as (T1' & -> & _). unfold sizes_ok in HT1. rewrite Forall_app, Forall_singleton in HT1.
    destruct HT1 as [HT1 Hpn]. simpl in Hpn. apply span_nonneg in HT1. apply span_nonneg in HT2'. unfold T in Hfit. rewrite !span_app in Hfit. simpl in Hfit.
    destruct (b + HDR * n =? next_of B base); simpl; lia.
  - exists h'. split_and!; [exact E' | | exact Hbrk].
    pose proof (freed_inv h h' T1 n T2 p pn Hi El) as Hinv. rewrite Em in Hinv. fold b in Hinv. apply Hinv; [done|done| |].
    + rewrite chain_app in Hch. destruct Hch as [_ HchB]. destruct (b + HDR * n =? next_of B base).
      * destruct Hnext as (m & _ & -> & EB & _). rewrite EB in HchB. by destruct HchB.
      * destruct Hnext as (-> & -> & _). done.
    + intros a. rewrite Hhd. destruct (Z.eqb_spec (b + HDR * n) (next_of B base)) as [E|E]; cbn [fst snd].
      * destruct Hnext as (m & _ & -> & _ & _). replace (n + (n + m - n)) with (n + m) by lia. done.
      * destruct Hnext as (-> & -> & _). done.
Qed.

(** ** Taking a block *)

Lemma select_split u a T x n : (x, n) ∈ select u a T -> exists T1 T2, T = T1 ++ (n, u) :: T2 /\ x = a + HDR * span T1.
Proof.
  revert a. induction T as [|[m v] T IH]; intros a; simpl; [by rewrite elem_of_nil|]. rewrite elem_of_app. intros [Hx|Hx].
  - destruct (Bool.eqb u v) eqn:E; [|by apply elem_of_nil in Hx]. apply list_elem_of_singleton in Hx. apply Bool.eqb_prop in E. simplify_eq.
    exists [], T. split; [done|]. simpl. lia.
  - destruct (IH _ Hx) as (T1 & T2 & -> & ->). exists ((m, v) :: T1), T2. split; [done|]. simpl. lia.
Qed.

Lemma asc_split A A' B B' (p n n' : Z) : asc (A ++ (p, n) :: B) -> A ++ (p, n) :: B = A' ++ (p, n') :: B' -> A = A'.
Proof.
  revert A'. induction A as [|x A IH]; intros [|y A'] Has E; simpl in *; simplify_eq; [done| | |].
  - apply StronglySorted_inv in Has as [_ Hf]. rewrite Forall_forall in Hf. specialize (Hf (p, n') ltac:(rewrite elem_of_app, elem_of_cons; auto)). simpl in Hf. lia.
  - apply StronglySorted_inv in Has as [_ Hf]. rewrite Forall_forall in Hf. specialize (Hf (p, n) ltac:(rewrite elem_of_app, elem_of_cons; auto)). simpl in Hf. lia.
  - f_equal. apply StronglySorted_inv in Has as [Has _]. by eapply IH.
Qed.

(** Only one element of the ring points to a given block. *)
Lemma pred_unique h T A B p n x : uinv h T -> ring T = A ++ (p, n) :: B -> p <> base -> x ∈ (ring T).*1 -> (hd h x).1 = p ->
  exists m, last A = Some (x, m) /\ hd h x = (p, m).
Proof.
  intros Hi ER Hpb Hx Ep. apply list_elem_of_fmap in Hx as ([y m] & -> & Hx). simpl in *. apply list_elem_of_split in Hx as (C & D & EC).
  pose proof (ui_ring _ _ Hi) as Hch. rewrite EC, chain_app in Hch. simpl in Hch. destruct Hch as (_ & Ehd & _). rewrite Ehd in *. simpl in Ep.
  destruct D as [|[q k] D]; simpl in Ep; [done|]. subst q. exists m. split; [|done]. pose proof (ring_asc _ _ Hi) as Has. rewrite ER in Has.
  assert (A = C ++ [(y, m)]) as ->; [|apply last_snoc]. eapply (asc_split A _ B D p n k Has). rewrite <- app_assoc. simpl. congruence.
Qed.

Definition taken (T1 : list (Z * bool)) (n k : Z) (T2 : list (Z * bool)) : list (Z * bool) :=
  if n =? k then T1 ++ (n, true) :: T2 else T1 ++ (n - k, false) :: (k, true) :: T2.

(** The end of a successful search: block [p] of size [n] gives up [k] units. *)
Definition take_block (k prevp p n : Z) : M heap Z :=
  r ← (if n =? k then
         q ← ptr_of p;
         set_ptr prevp q;;
         mret p
       else
         set_size p (n - k);;
         let p := p + HDR * (n - k) in
         set_size p k;;
         mret p);
  set_freep prevp;;
  mret (r + HDR).

Lemma taken_useds T1 n k T2 : 0 < k <= n -> useds heap0 (taken T1 n k T2) =
  useds heap0 T1 ++ (heap0 + HDR * (span T1 + (n - k)), k) :: useds (heap0 + HDR * (span T1 + n)) T2.
Proof.
  intros Hk. unfold taken, useds. destruct (Z.eqb_spec n k) as [->|]; rewrite select_app; simpl.
  - do 3 f_equal; lia.
  - do 3 f_equal; lia.
Qed.

Lemma taken_shape T1 n k T2 : 0 < k <= n -> sizes_ok (T1 ++ (n, false) :: T2) -> coalesced (T1 ++ (n, false) :: T2) ->
  sizes_ok (taken T1 n k T2) /\ coalesced (taken T1 n k T2) /\ span (taken T1 n k T2) = span (T1 ++ (n, false) :: T2).
Proof.
  intros Hk Hs Hc. unfold sizes_ok in *. rewrite Forall_app, Forall_cons in Hs. destruct Hs as (Hs1 & Hn & Hs2). simpl in Hn.
  destruct (coalesced_app _ _ Hc) as [Hc1 Hc2]. pose proof (coalesced_split _ _ Hc) as He. simpl in He. rewrite andb_true_r in He.
  assert (coalesced T2) as Hc2' by (simpl in Hc2; by destruct T2 as [|[? []]]).
  unfold taken. destruct (Z.eqb_spec n k) as [->|]; rewrite !span_app; simpl; rewrite ?Forall_app, ?Forall_cons; simpl; split_and!; try done; try lia.
  - apply coalesced_join; [done|done|]. by rewrite He.
  - apply coalesced_join; [done|done|]. by rewrite He.
Qed.

(** The surroundings of the block that is taken. *)
Section taking.
Context (h : heap) (T1 : list (Z * bool)) (n : Z) (T2 : list (Z * bool)) (k prevp : Z).
Let T := T1 ++ (n, false) :: T2.
Let p := heap0 + HDR * span T1.
Let B := frees (p + HDR * n) T2.
Hypothesis Hi : uinv h T.
Hypothesis Hin : prevp ∈ (ring T).*1.
Hypothesis Hptr : (hd h prevp).1 = p.
Hypothesis Hk : 0 < k <= n.

Lemma take_sizes : sizes_ok T1 /\ sizes_ok T2 /\ 0 <= span T1 /\ 0 <= span T2.
Proof.
  pose proof (ui_sizes _ _ Hi) as HT. unfold T, sizes_ok in HT. rewrite Forall_app, Forall_cons in HT. destruct HT as (HT1 & _ & HT2).
  split_and!; try done; by apply span_nonneg.
Qed.

Lemma take_facts : exists pn A0, (base, 0) :: frees heap0 T1 = A0 ++ [(prevp, pn)] /\ hd h prevp = (p, pn) /\ chain h A0 prevp /\
  hd h p = (next_of B base, n) /\ chain h B base /\ (forall x, x ∈ A0 -> x.1 < prevp) /\ prevp < p /\ (forall x, x ∈ B -> p + HDR * n <= x.1) /\
  hdr_ok h p = true /\ hdr_ok h prevp = true.
Proof.
  destruct base_ok as [Hb0 Hb1]. destruct take_sizes as (HT1 & HT2 & Hs1 & Hs2).
  assert (ring T = ((base, 0) :: frees heap0 T1) ++ (p, n) :: B) as ER by (unfold ring, T, B, frees; rewrite select_app; done).
  destruct (pred_unique h T _ B p n prevp Hi ER) as (pn & El & Ehd); [unfold p, HDR in *; lia | done | done |].
  pose proof (last_split _ _ El) as EA. set (A0 := removelast _) in *. exists pn, A0.
  pose proof (ui_ring _ _ Hi) as Hch. rewrite ER, EA, <- app_assoc, chain_app in Hch. simpl in Hch. destruct Hch as (HchA & _ & Ehp & HchB).
  pose proof (ring_asc _ _ Hi) as Has. rewrite ER, EA, <- app_assoc in Has. split_and!; try done.
  - intros x Hx. eapply (asc_app_inv A0 _ x (prevp, pn) Has Hx). by left.
  - apply asc_app_r in Has. eapply (asc_app_inv [(prevp, pn)] _ (prevp, pn) (p, n) Has); by left.
  - intros [x m] Hx. apply select_range in Hx; [|done]. simpl. lia.
  - eapply (ring_ok h T p n Hi). rewrite ER. apply elem_of_app. right. by left.
  - eapply (ring_ok h T prevp pn Hi). rewrite ER, EA, !elem_of_app. left. right. by left.
Qed.

Lemma take_useds a m : (a, m) ∈ useds heap0 T1 ++ useds (heap0 + HDR * (span T1 + n)) T2 ->
  (hd h a).2 = m /\ a <> prevp /\ (a < p \/ p + HDR * n <= a).
Proof.
  intros Ha. destruct base_ok as [Hb0 Hb1]. destruct take_sizes as (HT1 & HT2 & Hs1 & Hs2).
  assert ((a, m) ∈ useds heap0 T) as Hu.
  { unfold useds, T in *. rewrite select_app. simpl. replace (heap0 + HDR * span T1 + HDR * n) with (heap0 + HDR * (span T1 + n)) by lia. done. }
  split_and!; [by apply (ui_used _ _ Hi)| |].
  - intros ->. apply list_elem_of_fmap in Hin as ([y j] & -> & [Hy|Hy]%elem_of_cons).
    + simplify_eq. apply select_range in Hu; [simpl in Hu; unfold HDR in *; lia | by apply (ui_sizes _ _ Hi)].
    + eapply (select_disjoint heap0 T); [by apply (ui_sizes _ _ Hi)|exact Hu|exact Hy].
  - apply elem_of_app in Ha as [Ha|Ha]; apply select_range in Ha; try done; unfold p, HDR in *; lia.
Qed.

(** The whole block goes: it is unlinked. *)
Lemma take_exact : n = k -> exists h', take_block k prevp p n h = Ret (p + HDR) h' /\ uinv h' (T1 ++ (n, true) :: T2) /\ brk h' = brk h.
Proof.
  intros En. destruct take_facts as (pn & A0 & EA & Ehd & HchA & Ehp & HchB & HA0 & Hpp & HB & Op & Opp).
  unfold take_block. rewrite (proj2 (Z.eqb_eq n k)) by done. rewrite !bind_assoc. erewrite bind_ret by (by apply ptr_of_eq). rewrite Ehp. cbn [fst].
  rewrite bind_assoc. erewrite bind_ret by (by apply set_ptr_eq). rewrite Ehd. cbn [snd]. eexists. split_and!; [reflexivity| |done].
  assert (forall a, a <> prevp -> hd (Heap (<[prevp := (next_of B base, pn)]> (hdrs h)) prevp (brk h)) a = hd h a) as Hfr by (intros a Ha; apply (hd_upd_ne prevp _ h a); congruence).
  destruct (taken_shape T1 n k T2 Hk (ui_sizes _ _ Hi) (ui_coal _ _ Hi)) as (Sz & Co & Sp). pose proof (taken_useds T1 n k T2 Hk) as Eu.
  unfold taken in Sz, Co, Sp, Eu. rewrite (proj2 (Z.eqb_eq n k)) in Sz, Co, Sp, Eu by done.
  assert (ring (T1 ++ (n, true) :: T2) = A0 ++ (prevp, pn) :: B) as ER'.
  { unfold ring, frees. rewrite select_app. simpl. rewrite app_comm_cons. fold (frees heap0 T1). by rewrite EA, <- app_assoc. }
  split; [by rewrite Sp; apply (ui_brk _ _ Hi)|apply (ui_lim _ _ Hi)|done|done| | |].
  - rewrite ER', chain_app. split; [|split].
    + eapply chain_frame; [|exact HchA]. intros a (x & -> & Hx)%list_elem_of_fmap. apply Hfr. specialize (HA0 x Hx). lia.
    + apply (hd_upd_eq prevp _ h).
    + eapply chain_frame; [|exact HchB]. intros a (x & -> & Hx)%list_elem_of_fmap. apply Hfr. specialize (HB x Hx). unfold HDR in *. lia.
  - intros a m Ha. rewrite Eu, elem_of_app, elem_of_cons in Ha. assert ((a, m) = (p, n) \/ (a, m) ∈ useds heap0 T1 ++ useds (heap0 + HDR * (span T1 + n)) T2) as [[= -> ->]|Ha'].
    { rewrite elem_of_app. destruct Ha as [?|[Ha|?]]; auto. left. rewrite Ha. f_equal; [unfold p; lia | done]. }
    + rewrite Hfr by lia. by rewrite Ehp.
    + destruct (take_useds a m Ha') as (E & Hne & _). by rewrite Hfr.
  - rewrite ER', fmap_app. apply elem_of_app. right. by left.
Qed.

(** The upper part of the block goes. *)
Lemma take_part : n <> k -> exists h', take_block k prevp p n h = Ret (p + HDR * (n - k) + HDR) h' /\
  uinv h' (T1 ++ (n - k, false) :: (k, true) :: T2) /\ brk h' = brk h.
Proof.
  intros En. destruct take_facts as (pn & A0 & EA & Ehd & HchA & Ehp & HchB & HA0 & Hpp & HB & Op & Opp). destruct take_sizes as (HT1 & HT2 & Hs1 & Hs2).
  set (r := p + HDR * (n - k)). assert (p < r /\ r + HDR * k = p + HDR * n) as [Hpr Hre] by (unfold r, HDR in *; lia).
  assert (hdr_ok h r = true) as Or.
  { unfold hdr_ok. rewrite (ui_brk _ _ Hi). unfold T. rewrite span_app. simpl. unfold r, p, HDR in *.
    rewrite (proj2 (Z.leb_le heap0 _)), (proj2 (Z.leb_le (_ + 16) _)) by lia. by rewrite orb_true_r. }
  unfold take_block. rewrite (proj2 (Z.eqb_neq n k)) by done. cbv zeta. fold r. rewrite bind_assoc. erewrite bind_ret by (by apply set_size_eq).
  rewrite bind_assoc. erewrite bind_ret by (by apply set_size_eq). rewrite Ehp. cbn [fst]. eexists. split_and!; [reflexivity| |done].
  set (h' := Heap _ prevp _). assert (forall a, a <> p -> a <> r -> hd h' a = hd h a) as Hfr.
  { intros a Hap Har. etransitivity; [by apply (hd_upd_ne r _ (upd p (next_of B base, n - k) h) a)|]. by apply hd_upd_ne. }
  assert (hd h' p = (next_of B base, n - k)) as Hhp by (etransitivity; [apply (hd_upd_ne r _ (upd p (next_of B base, n - k) h) p); lia | apply hd_upd_eq]).
  assert ((hd h' r).2 = k) as Hhr by (unfold h', hd; simpl; by rewrite lookup_insert_eq).
  destruct (taken_shape T1 n k T2 Hk (ui_sizes _ _ Hi) (ui_coal _ _ Hi)) as (Sz & Co & Sp). pose proof (taken_useds T1 n k T2 Hk) as Eu.
  unfold taken in Sz, Co, Sp, Eu. rewrite (proj2 (Z.eqb_neq n k)) in Sz, Co, Sp, Eu by done.
  assert (ring (T1 ++ (n - k, false) :: (k, true) :: T2) = (A0 ++ [(prevp, pn)]) ++ (p, n - k) :: B) as ER'.
  { rewrite <- EA. unfold ring, frees. rewrite select_app. simpl. do 3 f_equal. unfold B, frees, p. f_equal. lia. }
  split; [by rewrite Sp; apply (ui_brk _ _ Hi)|apply (ui_lim _ _ Hi)|done|done| | |].
  - rewrite ER', chain_app. split; [|split; [done|]].
    + rewrite chain_app. split; [eapply chain_frame; [|exact HchA]; intros a (x & -> & Hx)%list_elem_of_fmap; specialize (HA0 x Hx); apply Hfr; lia|].
      split; [|done]. cbn [next_of]. rewrite Hfr by lia. done.
    + eapply chain_frame; [|exact HchB]. intros a (x & -> & Hx)%list_elem_of_fmap. specialize (HB x Hx). apply Hfr; unfold HDR in *; lia.
  - intros a m Ha. rewrite Eu, elem_of_app, elem_of_cons in Ha. assert ((a, m) = (r, k) \/ (a, m) ∈ useds heap0 T1 ++ useds (heap0 + HDR * (span T1 + n)) T2) as [[= -> ->]|Ha'].
    { rewrite elem_of_app. destruct Ha as [?|[Ha|?]]; auto. left. rewrite Ha. f_equal. unfold r, p. lia. }
    + done.
    + destruct (take_useds a m Ha') as (E & _ & Hne). rewrite Hfr; [done| |]; unfold HDR in *; lia.
  - rewrite ER', !fmap_app. apply elem_of_app. left. apply elem_of_app. right. by left.
Qed.

Lemma take_spec : exists h', take_block k prevp p n h = Ret (heap0 + HDR * (span T1 + (n - k)) + HDR) h' /\ uinv h' (taken T1 n k T2) /\ brk h' = brk h.
Proof.
  unfold taken. destruct (Z.eqb_spec n k) as [En|En].
  - replace (heap0 + HDR * (span T1 + (n - k)) + HDR) with (p + HDR) by (unfold p; rewrite En; lia). by apply take_exact.
  - replace (heap0 + HDR * (span T1 + (n - k)) + HDR) with (p + HDR * (n - k) + HDR) by (unfold p; lia). by apply take_part.
Qed.
End taking.

(** ** The search of [malloc] *)

(** A block of the ring was found and taken. *)
Definition found (k : Z) (T : list (Z * bool)) (o : outcome heap Z) (b : Z) : Prop :=
  exists T1 n T2 h', T = T1 ++ (n, false) :: T2 /\ 0 < k <= n /\ o = Ret (heap0 + HDR * (span T1 + (n - k)) + HDR) h' /\ uinv h' (taken T1 n k T2) /\ brk h' = b.

(** The walk along [W], which ends at [freep]. *)
Lemma walk h T k W : uinv h T -> 0 < k -> forall prevp z fuel fuel', W <> [] -> (forall x, x ∈ W -> x ∈ ring T) -> chain h W z ->
  prevp ∈ (ring T).*1 -> (hd h prevp).1 = next_of W z -> (forall W1 x W2, W = W1 ++ x :: W2 -> x.1 = freep h <-> W2 = []) -> (length W <= fuel)%nat ->
  found k T (malloc_loop fuel fuel' k prevp (next_of W z) h) (brk h) \/
  (forall x, x ∈ W -> x.2 < k) /\
  malloc_loop fuel fuel' k prevp (next_of W z) h =
    (p ← morecore fuel' k; if p =? 0 then mret 0 else q ← ptr_of p; malloc_loop (fuel - length W) fuel' k p q) h.
Proof.
  intros Hi Hk. induction W as [|[p n] W IH]; intros prevp z fuel fuel' Hne Hsub Hch Hin Hptr Hend Hf; [done|].
  destruct fuel as [|fuel]; [simpl in Hf; lia|]. simpl in Hch. destruct Hch as [Ehd Hch]. cbn [next_of] in *. cbn [malloc_loop].
  assert ((p, n) ∈ ring T) as Hpr by (apply Hsub; by left). assert (hdr_ok h p = true) as Op by (by eapply ring_ok).
  erewrite bind_ret by (by apply size_of_eq). rewrite Ehd. cbn [snd]. destruct (Z.leb_spec k n) as [Hle|Hlt].
  - left. apply elem_of_cons in Hpr as [[= -> ->]|Hpr]; [lia|]. apply select_split in Hpr as (T1 & T2 & -> & ->).
    destruct (take_spec h T1 n T2 k prevp Hi Hin Hptr ltac:(lia)) as (h' & E & Hi' & Hb). exists T1, n, T2, h'. split_and!; try done; lia.
  - erewrite bind_ret by done. destruct W as [|[q m] W].
    + right. rewrite (proj2 (Z.eqb_eq p (freep h))) by (by apply (Hend [] (p, n) [])). split; [|change (length [(p, n)]) with 1%nat; by replace (S fuel - 1)%nat with fuel by lia].
      intros x [->|Hx]%elem_of_cons; [done | by apply elem_of_nil in Hx].
    + rewrite (proj2 (Z.eqb_neq p (freep h))) by (intros E; by apply (Hend [] (p, n) _ eq_refl) in E). erewrite bind_ret by (by apply ptr_of_eq). rewrite Ehd. cbn [fst].
      destruct (IH p z fuel fuel') as [Hfound|[Hsm E]]; try done.
      * intros x Hx. apply Hsub. by right.
      * by apply (list_elem_of_fmap_2 fst) in Hpr.
      * by rewrite Ehd.
      * intros W1 x W2 EW. apply (Hend ((p, n) :: W1) x W2). simpl. by rewrite EW.
      * simpl in Hf. simpl. lia.
      * by left.
      * right. split; [|done]. intros x [->|Hx]%elem_of_cons; [done | by apply Hsm].
Qed.

(** The walk around the ring from [freep]. *)
Lemma around h T : uinv h T -> exists W, W <> [] /\ (forall x, x ∈ W <-> x ∈ ring T) /\ length W = length (ring T) /\
  hdr_ok h (freep h) = true /\ chain h W (hd h (freep h)).1 /\ next_of W (hd h (freep h)).1 = (hd h (freep h)).1 /\
  (forall W1 x W2, W = W1 ++ x :: W2 -> x.1 = freep h <-> W2 = []).
Proof.
  intros Hi. pose proof (ui_freep _ _ Hi) as Hfp. apply list_elem_of_fmap in Hfp as ([f n] & Ef & Hfp). simpl in Ef.
  pose proof (ring_ok _ _ _ _ Hi Hfp) as Of. apply list_elem_of_split in Hfp as (R1 & R2 & ER).
  pose proof (ui_ring _ _ Hi) as Hch. rewrite ER, chain_app in Hch. simpl in Hch. destruct Hch as (Hch1 & Ehd & Hch2).
  assert (next_of (R1 ++ [(f, n)]) base = base) as Eb.
  { unfold ring in ER. destruct R1 as [|[a m] R1]; simpl in *; congruence. }
  exists (R2 ++ R1 ++ [(f, n)]). rewrite Ef, Ehd. cbn [fst]. split_and!; [by destruct R2, R1| | |done| | |].
  - intros x. rewrite ER, !elem_of_app, !elem_of_cons, elem_of_nil. tauto.
  - rewrite ER, !length_app. simpl. lia.
  - rewrite !chain_app. simpl. rewrite next_of_app in *. cbn [next_of] in *. split_and!; try done. destruct R1 as [|[a m] R1]; simpl in *; congruence.
  - rewrite next_of_app, Eb || idtac. destruct R2 as [|[a m] R2]; [|done]. simpl. destruct R1 as [|[a m] R1]; simpl in *; congruence.
  - pose proof (ring_asc _ _ Hi) as Has. rewrite ER in Has. intros W1 x W2 EW. split.
    + intros Ex. destruct W2 as [|y W2] using rev_ind; [done|]. exfalso. rewrite !app_assoc, app_comm_cons, app_assoc in EW. apply app_inj_tail in EW as [EW _].
      assert (x ∈ R2 ++ R1) as Hx by (rewrite EW, elem_of_app, elem_of_cons; auto). apply elem_of_app in Hx as [Hx|Hx].
      * apply asc_app_r in Has. pose proof (asc_app_inv [(f, n)] R2 (f, n) x Has ltac:(by left) Hx). simpl in *. lia.
      * pose proof (asc_app_inv R1 _ x (f, n) Has Hx ltac:(by left)). simpl in *. lia.
    + intros ->. rewrite app_assoc in EW. apply app_inj_tail in EW as [_ <-]. done.
Qed.

(** ** Getting more memory *)

Lemma units_pos nb : 0 <= nb < 2 ^ 31 -> units nb = (nb + 15) / 16 + 1 /\ 0 < units nb /\ nb <= HDR * (units nb - 1).
Proof.
  intros Hn. unfold units, HDR. rewrite u32_small.
  - pose proof (Z.div_mod (nb + 16 - 1) 16). pose proof (Z.mod_pos_bound (nb + 16 - 1) 16). replace (nb + 16 - 1) with (nb + 15) in * by lia. lia.
  - pose proof (Z.div_mod (nb + 16 - 1) 16). pose proof (Z.mod_pos_bound (nb + 16 - 1) 16). lia.
Qed.

Lemma sbrk_eq h n : 0 < n < 2 ^ 31 -> sbrk n h = if brk h + n <=? limit then Ret (brk h) (Heap (hdrs h) (freep h) (brk h + n)) else Ret (-1) h.
Proof. intros Hn. unfold sbrk. by rewrite i32_small, (proj2 (Z.ltb_lt 0 n)) by lia. Qed.

Lemma morecore_spec fuel h T k : uinv h T -> 0 < k -> HDR * Z.max k 4096 < 2 ^ 31 -> (length (ring T) < fuel)%nat ->
  let nu := Z.max k 4096 in
  if brk h + HDR * nu <=? limit then
    exists h', morecore fuel k h = Ret (freep h') h' /\ uinv h' (freed T nu []) /\ brk h' = brk h + HDR * nu
  else morecore fuel k h = Ret 0 h.
Proof.
  intros Hi Hk Hmax Hf nu. unfold morecore. replace (if k <? 4096 then 4096 else k) with nu by (unfold nu; destruct (Z.ltb_spec k 4096); lia).
  destruct base_ok as [Hb0 Hb1]. pose proof (span_nonneg _ (ui_sizes _ _ Hi)) as Hsp.
  assert (0 <= brk h) as Hbrk by (rewrite (ui_brk _ _ Hi); unfold HDR in *; lia).
  pose proof (sbrk_eq h (HDR * nu) ltac:(unfold nu, HDR in *; lia)) as Es. replace (nu * HDR) with (HDR * nu) by lia.
  destruct (Z.leb_spec (brk h + HDR * nu) limit) as [Hle|Hgt]; [|by erewrite bind_ret by exact Es]. erewrite bind_ret by exact Es.
  rewrite (proj2 (Z.eqb_neq (brk h) (-1))) by lia. set (h1 := Heap (hdrs h) (freep h) (brk h + HDR * nu)).
  assert (hdr_ok h1 (brk h) = true) as Ob.
  { unfold hdr_ok. simpl. rewrite (ui_brk _ _ Hi). unfold nu, HDR in *. rewrite (proj2 (Z.leb_le heap0 _)), (proj2 (Z.leb_le (_ + 16) _)) by lia. by rewrite orb_true_r. }
  erewrite bind_ret by (by apply set_size_eq). set (h2 := upd (brk h) _ h1).
  assert (ring (T ++ [(nu, true)]) = ring T) as ER by (unfold ring, frees; rewrite select_app; simpl; by rewrite app_nil_r).
  assert (uinv h2 (T ++ [(nu, true)])) as Hi2.
  { assert (forall a, a < brk h -> hd h2 a = hd h a) as Hfr by (intros a Ha; unfold h2; rewrite hd_upd_ne by lia; done).
    assert (forall x, x ∈ ring T -> x.1 < brk h) as Hlow.
    { intros x [->|Hx]%elem_of_cons; [simpl; rewrite (ui_brk _ _ Hi); unfold HDR in *; lia|]. destruct x as [x m].
      apply select_range in Hx; [|by apply (ui_sizes _ _ Hi)]. rewrite (ui_brk _ _ Hi). unfold HDR in *. simpl. lia. }
    split.
    - unfold h2, upd, h1. simpl. rewrite span_app, (ui_brk _ _ Hi). simpl. lia.
    - done.
    - unfold sizes_ok. rewrite Forall_app, Forall_singleton. split; [apply (ui_sizes _ _ Hi) | simpl; unfold nu; lia].
    - apply coalesced_join; [apply (ui_coal _ _ Hi)|done|]. by rewrite andb_false_r.
    - rewrite ER. eapply chain_frame; [|apply (ui_ring _ _ Hi)]. intros a (x & -> & Hx)%list_elem_of_fmap. by apply Hfr, Hlow.
    - intros a m Ha. unfold useds in Ha. rewrite select_app in Ha. simpl in Ha. apply elem_of_app in Ha as [Ha|Ha].
      + rewrite Hfr; [by apply (ui_used _ _ Hi)|]. apply select_range in Ha; [|by apply (ui_sizes _ _ Hi)]. rewrite (ui_brk _ _ Hi). unfold HDR in *. lia.
      + apply list_elem_of_singleton in Ha. rewrite <- (ui_brk _ _ Hi) in Ha. simplify_eq. unfold h2. by rewrite hd_upd_eq.
    - rewrite ER. apply (ui_freep _ _ Hi). }
  destruct (free_spec fuel h2 T nu [] Hi2) as (h' & E & Hi' & Hb); [by rewrite ER|].
  rewrite <- (ui_brk _ _ Hi) in E. exists h'. split_and!; [by erewrite bind_ret by exact E|done|by rewrite Hb].
Qed.

Lemma freed_big T n : sizes_ok T -> exists a m, (a, m) ∈ frees heap0 (freed T n []) /\ n <= m.
Proof.
  intros Hs. unfold freed. simpl. destruct (merge_prev T n) as [T1 n2] eqn:E. exists (heap0 + HDR * span T1), n2. split.
  - unfold frees. rewrite select_app. simpl. apply elem_of_app. right. by left.
  - unfold merge_prev in E. destruct (last T) as [[m []]|] eqn:El; simplify_eq; try lia.
    apply last_Some in El as [T' ->]. unfold sizes_ok in Hs. rewrite Forall_app, Forall_singleton in Hs. destruct Hs as [_ Hs]. simpl in Hs. lia.
Qed.

Lemma freed_useds T1 n T2 : 0 < n -> sizes_ok T1 -> sizes_ok T2 -> coalesced T1 -> coalesced T2 ->
  useds heap0 (freed T1 n T2) = useds heap0 T1 ++ useds (heap0 + HDR * (span T1 + n)) T2.
Proof.
  intros Hn HT1 HT2 Hc1 Hc2. unfold freed. pose proof (next_merge (heap0 + HDR * span T1) n T2 Hn HT2 Hc2) as Hnm. destruct (merge_next n T2) as [n1 T2'].
  destruct Hnm as (Hu2 & Hs2 & _ & _ & _ & Hn1). pose proof (prev_merge T1 n1 Hn1 HT1 Hc1) as Hpm. destruct (merge_prev T1 n1) as [T1' n2].
  destruct Hpm as (Hu1 & Hs1 & _). unfold useds in *. rewrite select_app, Hu1. simpl. f_equal.
  replace (heap0 + HDR * span T1' + HDR * n2) with (heap0 + HDR * span T1 + HDR * n1) by (assert (span T1' = span T1 + n1 - n2) as -> by lia; lia).
  rewrite Hu2. f_equal. lia.
Qed.

(** ** [malloc] and [free] *)

Definition ustate (h : heap) (T : list (Z * bool)) : Prop := freep h = 0 /\ T = [] /\ brk h = heap0 \/ uinv h T.
Definition room : nat := Z.to_nat ((limit - heap0) / HDR).

Lemma select_length u a T : sizes_ok T -> Z.of_nat (length (select u a T)) <= span T.
Proof.
  intros HT. revert a. induction HT as [|[n v] T Hn HT IH]; intros a; simpl; [lia|]. simpl in Hn. rewrite length_app, Nat2Z.inj_add. specialize (IH (a + HDR * n)).
  destruct (Bool.eqb u v); simpl; lia.
Qed.
Lemma ring_length h T : uinv h T -> brk h <= limit -> (length (ring T) <= S room)%nat.
Proof.
  intros Hi Hb. unfold ring. simpl. pose proof (select_length false heap0 T (ui_sizes _ _ Hi)) as Hl. fold (frees heap0 T) in Hl. rewrite (ui_brk _ _ Hi) in Hb.
  apply le_n_S. unfold room. apply Nat2Z.inj_le. rewrite Z2Nat.id.
  - etransitivity; [exact Hl|]. apply Z.div_le_lower_bound; unfold HDR in *; lia.
  - apply Z.div_pos; [|done]. pose proof (span_nonneg _ (ui_sizes _ _ Hi)). unfold HDR in *. lia.
Qed.

Lemma found_useds k T o b : found k T o b -> exists a U1 U2 h' T', o = Ret (a + HDR) h' /\ uinv h' T' /\ brk h' = b /\
  useds heap0 T = U1 ++ U2 /\ useds heap0 T' = U1 ++ (a, k) :: U2.
Proof.
  intros (T1 & n & T2 & h' & -> & Hk & -> & Hi & Hb). eexists _, _, _, h', _. split_and!; [done|exact Hi|done| |apply taken_useds; lia].
  unfold useds. rewrite select_app. simpl. do 2 f_equal. lia.
Qed.

Definition malloc_post (nb : Z) (h : heap) (T : list (Z * bool)) (o : outcome heap Z) : Prop :=
  exists r h' T', o = Ret r h' /\ uinv h' T' /\ brk h <= brk h' <= limit /\
    (forall a m, (a, m) ∈ frees heap0 T -> units nb <= m -> r <> 0 /\ brk h' = brk h) /\
    (r = 0 /\ useds heap0 T' = useds heap0 T /\ limit < brk h + HDR * Z.max (units nb) 4096 \/
     exists a U1 U2, r = a + HDR /\ useds heap0 T = U1 ++ U2 /\ useds heap0 T' = U1 ++ (a, units nb) :: U2).

Lemma malloc_linked h T nb fuel fuel' : uinv h T -> brk h <= limit -> 0 < units nb -> HDR * Z.max (units nb) 4096 < 2 ^ 31 ->
  (2 * room + 4 <= fuel)%nat -> (room + 2 <= fuel')%nat -> malloc_post nb h T (malloc fuel fuel' nb h).
Proof.
  intros Hi Hlim Hk Hmax Hf Hf'. destruct base_ok as [Hb0 Hb1]. pose proof (ring_length _ _ Hi Hlim) as Hlen.
  assert (forall h T, uinv h T -> freep h <> 0) as Hnz.
  { intros h0 T0 Hi0 E. pose proof (ui_freep _ _ Hi0) as Hfp. apply list_elem_of_fmap in Hfp as ([f n] & Ef & [Hx|Hx]%elem_of_cons); simpl in Ef; [simplify_eq; lia|].
    apply select_range in Hx; [|by apply (ui_sizes _ _ Hi0)]. unfold HDR in *. lia. }
  unfold malloc. cbv zeta. erewrite bind_ret by done. rewrite (proj2 (Z.eqb_neq _ 0)) by (by eapply Hnz). erewrite bind_ret by done.
  destruct (around h T Hi) as (W & Hne & Hsub & Hlw & Of & Hch & Hnx & Hend). erewrite bind_ret by (by apply ptr_of_eq).
  pose proof (walk h T (units nb) W Hi Hk (freep h) _ fuel fuel' Hne (fun x => proj1 (Hsub x)) Hch (ui_freep _ _ Hi) (eq_sym Hnx) Hend ltac:(lia)) as Hw.
  rewrite Hnx in Hw. destruct Hw as [Hfound|[Hsmall0 E]].
  { apply found_useds in Hfound as (a & U1 & U2 & h' & T' & E & Hi' & Hb & Hu & Hu'). exists (a + HDR), h', T'. split_and!; try done; try lia; [|right; by exists a, U1, U2].
    intros x m _ _. split; [|done]. assert ((a, units nb) ∈ useds heap0 T') as Ha by (rewrite Hu', elem_of_app, elem_of_cons; auto).
    apply select_range in Ha; [|apply (ui_sizes _ _ Hi')]. unfold HDR in *. lia. }
  assert (forall a m, (a, m) ∈ frees heap0 T -> units nb <= m -> False) as Hsmall'.
  { intros a m Ha Hm. specialize (Hsmall0 (a, m)). rewrite Hsub in Hsmall0. simpl in Hsmall0. assert (m < units nb); [|lia]. apply Hsmall0. by right. }
  rewrite E. clear E. pose proof (morecore_spec fuel' h T (units nb) Hi Hk Hmax ltac:(lia)) as Hm. cbv zeta in Hm. set (nu := Z.max (units nb) 4096) in *.
  destruct (Z.leb_spec (brk h + HDR * nu) limit) as [Hle|Hgt].
  2:{ erewrite bind_ret by exact Hm. exists 0, h, T. split_and!; try done; try lia; [naive_solver | by left]. }
  destruct Hm as (h1 & Em & Hi1 & Hb1'). erewrite bind_ret by exact Em. rewrite (proj2 (Z.eqb_neq _ 0)) by (by eapply Hnz).
  destruct (around h1 _ Hi1) as (W' & Hne' & Hsub' & Hlw' & Of' & Hch' & Hnx' & Hend'). erewrite bind_ret by (by apply ptr_of_eq).
  pose proof (ring_length _ _ Hi1 ltac:(lia)) as Hlen'.
  pose proof (walk h1 _ (units nb) W' Hi1 Hk (freep h1) _ (fuel - length W)%nat fuel' Hne' (fun x => proj1 (Hsub' x)) Hch' (ui_freep _ _ Hi1) (eq_sym Hnx') Hend' ltac:(lia)) as Hw'.
  rewrite Hnx' in Hw'. destruct Hw' as [Hfound|[Hsmall _]].
  - apply found_useds in Hfound as (a & U1 & U2 & h' & T' & E & Hi' & Hb & Hu & Hu'). exists (a + HDR), h', T'. split_and!; try done; try (unfold HDR, nu in *; lia); [naive_solver|].
    right. exists a, U1, U2. split_and!; try done. rewrite <- Hu. rewrite (freed_useds T nu []); [by rewrite app_nil_r|unfold nu; lia|apply (ui_sizes _ _ Hi)|constructor|apply (ui_coal _ _ Hi)|done].
  - exfalso. destruct (freed_big T nu (ui_sizes _ _ Hi)) as (a & m & Ha & Hm). specialize (Hsmall (a, m)). rewrite Hsub' in Hsmall. simpl in Hsmall.
    assert (m < units nb) by (apply Hsmall; unfold ring; by right). unfold nu in Hm. lia.
Qed.

Lemma malloc_spec h T nb fuel fuel' : ustate h T -> brk h <= limit -> heap0 <= limit -> 0 < units nb -> HDR * Z.max (units nb) 4096 < 2 ^ 31 ->
  (2 * room + 4 <= fuel)%nat -> (room + 2 <= fuel')%nat -> malloc_post nb h T (malloc fuel fuel' nb h).
Proof.
  intros [(Hz & -> & Hb)|Hi] Hlim Hlim0 Hk Hmax Hf Hf'; [|by apply malloc_linked].
  set (h1 := upd base (base, 0) (Heap (<[base := (base, (hd h base).2)]> (hdrs h)) base (brk h))).
  assert (uinv h1 []) as Hi1.
  { split; [simpl; lia|done|constructor|done| | |by left].
    - split; [|done]. unfold h1. by rewrite hd_upd_eq.
    - intros a n Ha. by apply elem_of_nil in Ha. }
  destruct (malloc_linked h1 [] nb fuel fuel' Hi1) as (r & h' & T' & E & Hrest); try done. exists r, h', T'. split; [|done].
  rewrite <- E. unfold malloc. cbv zeta. symmetry. erewrite bind_ret by done. change (freep h1) with base. destruct base_ok as [Hb0 _].
  rewrite (proj2 (Z.eqb_neq base 0)) by lia. erewrite bind_ret by done. symmetry. erewrite bind_ret by done. rewrite Hz, Z.eqb_refl.
  rewrite bind_assoc. erewrite bind_ret by (apply set_ptr_eq, base_hdr). rewrite bind_assoc. erewrite bind_ret by done. rewrite bind_assoc.
  erewrite bind_ret by (apply set_size_eq, base_hdr). erewrite bind_ret by done. do 2 f_equal. unfold h1. f_equal.
  unfold hd. simpl. by rewrite lookup_insert_eq.
Qed.

(** ** Programs *)

(** A program that only passes to [free] what [malloc] gave it; [L] is what it holds,
    with the sizes it asked for, the latest first. *)
Definition FUEL : nat := 2 * room + 4.
Inductive session : heap -> list (Z * Z) -> Prop :=
| us_init : session (Heap ∅ 0 heap0) []
| us_malloc h L nb r h' : session h L -> 0 <= nb <= 2 ^ 31 - 48 -> malloc FUEL FUEL nb h = Ret r h' -> session h' (if r =? 0 then L else (r, nb) :: L)
| us_free h L1 p nb L2 h' : session h (L1 ++ (p, nb) :: L2) -> free FUEL p h = Ret tt h' -> session h' (L1 ++ L2).

Definition block_of (x : Z * Z) : Z * Z := (x.1 - HDR, units x.2).
Definition sinv (h : heap) (L : list (Z * Z)) : Prop :=
  (exists T, ustate h T /\ brk h <= limit /\ useds heap0 T ≡ₚ block_of <$> L) /\ Forall (fun x => 0 <= x.2 <= 2 ^ 31 - 48) L.

Lemma units_eq nb : 0 <= nb <= 2 ^ 31 - 48 -> nb + HDR <= HDR * units nb < 2 ^ 31 /\ 0 < units nb.
Proof. intros Hnb. unfold units, HDR. pose proof (Z.div_mod (nb + 16 - 1) 16 ltac:(lia)). pose proof (Z.mod_pos_bound (nb + 16 - 1) 16 ltac:(lia)). rewrite u32_small; lia. Qed.

Lemma select_gap u a T x n y m : sizes_ok T -> (x, n) ∈ select u a T -> (y, m) ∈ select u a T ->
  (x, n) = (y, m) \/ x + HDR * n <= y \/ y + HDR * m <= x.
Proof.
  intros HT. revert a. induction HT as [|[k v] T Hk HT IH]; intros a; simpl; [by rewrite elem_of_nil|].
  assert (forall z, z ∈ (if Bool.eqb u v then [(a, k)] else []) -> z = (a, k)) as Hhd.
  { intros z. destruct (Bool.eqb u v); [by rewrite list_elem_of_singleton | by rewrite elem_of_nil]. }
  rewrite !elem_of_app. intros [Hx%Hhd|Hx] [Hy%Hhd|Hy]; [left; congruence| | |by eapply IH]; simplify_eq; right.
  - apply select_range in Hy; [|done]. left. lia.
  - apply select_range in Hx; [|done]. right. lia.
Qed.

Lemma select_NoDup u a T : sizes_ok T -> NoDup (select u a T).
Proof.
  intros HT. revert a. induction HT as [|[k v] T Hk HT IH]; intros a; simpl; [constructor|]. simpl in Hk. apply NoDup_app. split_and!; [| |apply IH].
  - destruct (Bool.eqb u v); [apply NoDup_singleton | constructor].
  - intros [x n] Hx Hy. apply select_range in Hy; [|done]. destruct (Bool.eqb u v); [|by apply elem_of_nil in Hx]. apply list_elem_of_singleton in Hx. simplify_eq. unfold HDR in *. lia.
Qed.

Lemma ustate_sizes h T : ustate h T -> sizes_ok T.
Proof. intros [(_ & -> & _)|Hi]; [constructor|apply (ui_sizes _ _ Hi)]. Qed.
Lemma ustate_brk h T : ustate h T -> brk h = heap0 + HDR * span T.
Proof. intros [(_ & -> & E)|Hi]; [simpl; lia|apply (ui_brk _ _ Hi)]. Qed.

Hypothesis limit_heap : heap0 <= limit.

(** What [malloc] does to what the program holds. *)
Lemma malloc_sinv h L nb : sinv h L -> 0 <= nb <= 2 ^ 31 - 48 -> exists r h', malloc FUEL FUEL nb h = Ret r h' /\
  sinv h' (if r =? 0 then L else (r, nb) :: L) /\ (r = 0 -> limit < brk h + HDR * Z.max (units nb) 4096) /\
  (L = [] -> HDR * units nb <= brk h - heap0 -> r <> 0 /\ brk h' = brk h).
Proof.
  intros [(T & Hu & Hlim & Hp) HL] Hnb. destruct (units_eq nb Hnb) as [Hk Hk0].
  destruct (malloc_spec h T nb FUEL FUEL Hu Hlim limit_heap Hk0 ltac:(unfold HDR in *; lia) ltac:(unfold FUEL; lia) ltac:(unfold FUEL; lia)) as (r & h' & T' & E & Hi & Hb & Hbig & Hcase).
  exists r, h'. split; [done|]. assert (L = [] -> HDR * units nb <= brk h - heap0 -> r <> 0 /\ brk h' = brk h) as Hreuse.
  { intros -> Hfit. rewrite (ustate_brk _ _ Hu) in Hfit. apply Permutation_nil_r in Hp.
    destruct T as [|[n v] T]; [simpl in Hfit; unfold HDR in *; lia|]. destruct v; [done|].
    destruct T as [|[m []] T]; [|done|]; [|destruct Hu as [(_ & ? & _)|Hi0]; [done|by pose proof (ui_coal _ _ Hi0)]].
    eapply (Hbig heap0 n); [by left|]. simpl in Hfit. unfold HDR in *. lia. }
  destruct Hcase as [(-> & Eu & Hfull)|(a & U1 & U2 & -> & Eu & Eu')].
  - split_and!; [|done|done]. split; [|done]. exists T'. split_and!; [by right|lia|]. simpl. by rewrite Eu.
  - assert (a + HDR <> 0) as Hnz.
    { assert ((a, units nb) ∈ useds heap0 T') as Ha by (rewrite Eu', elem_of_app, elem_of_cons; auto).
      apply select_range in Ha; [|apply (ui_sizes _ _ Hi)]. destruct base_ok. unfold HDR in *. lia. }
    rewrite (proj2 (Z.eqb_neq _ 0)) by done. split_and!; [|done|done]. split; [|by constructor].
    exists T'. split_and!; [by right|lia|]. rewrite Eu'. simpl. unfold block_of at 1. simpl. replace (a + HDR - HDR) with a by lia.
    rewrite <- Permutation_middle. constructor. by rewrite <- Eu.
Qed.

Lemma free_sinv h L1 p nb L2 : sinv h (L1 ++ (p, nb) :: L2) -> exists h', free FUEL p h = Ret tt h' /\ sinv h' (L1 ++ L2).
Proof.
  intros [(T & Hu & Hlim & Hp) HL]. rewrite fmap_app in Hp. simpl in Hp. unfold block_of at 2 in Hp. simpl in Hp.
  assert ((p - HDR, units nb) ∈ useds heap0 T) as Hin by (rewrite Hp, elem_of_app, elem_of_cons; auto).
  apply select_split in Hin as (T1 & T2 & -> & Ep). destruct Hu as [(_ & ? & _)|Hi]; [by destruct T1|].
  pose proof (ring_length _ _ Hi Hlim) as Hlen. destruct (free_spec FUEL h T1 (units nb) T2 Hi) as (h' & E & Hi' & Hb); [unfold FUEL; lia|].
  rewrite <- Ep in E. replace (p - HDR + HDR) with p in E by lia. exists h'. split; [done|]. rewrite Forall_app, Forall_cons in HL. destruct HL as (HL1 & _ & HL2).
  split; [|by apply Forall_app]. exists (freed T1 (units nb) T2). split_and!; [by right|lia|].
  pose proof (ui_sizes _ _ Hi) as HT. unfold sizes_ok in HT. rewrite Forall_app, Forall_cons in HT. destruct HT as (HT1 & Hn & HT2). simpl in Hn.
  destruct (coalesced_app _ _ (ui_coal _ _ Hi)) as [Hc1 Hc2]. rewrite freed_useds by done. rewrite fmap_app.
  apply (Permutation_app_inv _ _ _ _ (p - HDR, units nb)). rewrite <- Hp. unfold useds. rewrite select_app. simpl. rewrite Ep.
  replace (heap0 + HDR * (span T1 + units nb)) with (heap0 + HDR * span T1 + HDR * units nb) by lia. done.
Qed.

Lemma session_sinv h L : session h L -> sinv h L.
Proof.
  induction 1 as [|h L nb r h' _ IH Hnb E|h L1 p nb L2 h' _ IH E].
  - split; [|constructor]. exists []. split_and!; [by left|done|done].
  - destruct (malloc_sinv _ _ _ IH Hnb) as (r' & h'' & E' & Hs & _). rewrite E in E'. by simplify_eq.
  - destruct (free_sinv _ _ _ _ _ IH) as (h'' & E' & Hs). rewrite E in E'. by simplify_eq.
Qed.

(** C21: whatever a program has done with [malloc] of at most [2^31 - 48] bytes and [free], the blocks it holds lie inside the memory it got from
    [sbrk] and are pairwise disjoint, with room for a header between them; every later call returns: [malloc] fails
    only when [sbrk] refuses the memory, and when nothing is held it serves any request that fits the memory already
    there without asking for more; [free] accepts every block that is held. *)
Theorem malloc_safe h L : session h L ->
  Forall (fun '(p, n) => heap0 + HDR <= p /\ p + n <= brk h) L /\ brk h <= limit /\
  (forall i j p n q m, L !! i = Some (p, n) -> L !! j = Some (q, m) -> i <> j -> p + n + HDR <= q \/ q + m + HDR <= p) /\
  (forall nb, 0 <= nb <= 2 ^ 31 - 48 -> exists r h', malloc FUEL FUEL nb h = Ret r h' /\
     (r = 0 -> limit < brk h + HDR * Z.max (units nb) 4096) /\ (L = [] -> HDR * units nb <= brk h - heap0 -> r <> 0 /\ brk h' = brk h)) /\
  (forall p n, (p, n) ∈ L -> exists h', free FUEL p h = Ret tt h').
Proof.
  intros Hs. apply session_sinv in Hs as Hinv. pose proof Hinv as [(T & Hu & Hlim & Hp) HL]. pose proof (ustate_sizes _ _ Hu) as HT. split_and!; [|done| | |].
  - apply Forall_forall. intros [p n] Hx. rewrite Forall_forall in HL. specialize (HL _ Hx). simpl in HL. apply units_eq in HL as [HL _].
    assert (block_of (p, n) ∈ useds heap0 T) as Hb by (rewrite Hp; by apply list_elem_of_fmap_2). apply select_range in Hb; [|done].
    rewrite (ustate_brk _ _ Hu). simpl in Hb. unfold HDR in *. lia.
  - intros i j p n q m Hx Hy Hij. pose proof (select_NoDup true heap0 T HT) as Hnd. fold (useds heap0 T) in Hnd. rewrite Hp in Hnd.
    assert (block_of (p, n) <> block_of (q, m)) as Hne.
    { intros E. apply Hij. eapply (NoDup_lookup _ i j (block_of (p, n)) Hnd); rewrite list_lookup_fmap; [by rewrite Hx|]. rewrite Hy. simpl. by rewrite E. }
    apply list_elem_of_lookup_2 in Hx, Hy. rewrite Forall_forall in HL. pose proof (units_eq _ (HL _ Hx)) as [Hn _]. pose proof (units_eq _ (HL _ Hy)) as [Hm _].
    simpl in Hn, Hm. destruct (select_gap true heap0 T (p - HDR) (units n) (q - HDR) (units m) HT) as [?|Hgap]; [| |done|lia].
    + fold (useds heap0 T). rewrite Hp. by apply (list_elem_of_fmap_2 block_of _ (p, n)).
    + fold (useds heap0 T). rewrite Hp. by apply (list_elem_of_fmap_2 block_of _ (q, m)).
  - intros nb Hnb. destruct (malloc_sinv _ _ _ Hinv Hnb) as (r & h' & E & _ & Hrest). by exists r, h'.
  - intros p n Hx. apply list_elem_of_split in Hx as (L1 & L2 & ->). destruct (free_sinv _ _ _ _ _ Hinv) as (h' & E & _). by exists h'.
Qed.

End Umalloc.

(** [a = malloc(100); b = malloc(200); free(a);] in a process that may grow by 128 KB. *)
Definition demo_base : Z := 0x2000.
Definition demo_heap0 : Z := 0x3000.
Definition demo_limit : Z := 0x23000.

Lemma malloc_safe_witness : exists h, session demo_base demo_heap0 demo_limit h [(0x12EB0, 200)] /\
  exists r h', malloc demo_base demo_heap0 demo_limit (FUEL demo_heap0 demo_limit) (FUEL demo_heap0 demo_limit) 50 h = Ret r h' /\
    (r = 0 -> demo_limit < brk h + HDR * 4096).
Proof.
  assert (exists h, session demo_base demo_heap0 demo_limit h [(0x12EB0, 200)]) as (h & Hs).
  { eexists. pose proof (us_init demo_base demo_heap0 demo_limit) as H0.
    pose proof (us_malloc _ _ _ _ _ 100 _ _ H0 ltac:(lia) ltac:(vm_compute; reflexivity)) as H1.
    pose proof (us_malloc _ _ _ _ _ 200 _ _ H1 ltac:(lia) ltac:(vm_compute; reflexivity)) as H2.
    exact (us_free _ _ _ _ [(0x12EB0, 200)] 0x12F90 100 [] _ H2 ltac:(vm_compute; reflexivity)). }
  exists h. split; [done|].
  destruct (malloc_safe demo_base demo_heap0 demo_limit ltac:(done) ltac:(done) ltac:(done) h _ Hs) as (_ & _ & _ & Hm & _).
  destruct (Hm 50 ltac:(lia)) as (r & h' & E & Hr & _). exists r, h'. split; [exact E | exact Hr].
Defined.

(** Above that bound the size passed to [sbrk] wraps around: a request of [2^31 - 16] bytes
    asks for a negative amount and the header is written beyond the end of memory, and one
    of [2^32 - 1] bytes gets sixteen bytes, one header, and succeeds. *)
Theorem malloc_huge :
  let h0 := Heap ∅ 0 demo_heap0 in let F := FUEL demo_heap0 demo_limit in
  malloc demo_base demo_heap0 demo_limit F F (2 ^ 31 - 16) h0 = Panic "undefined behaviour" /\
  exists h, malloc demo_base demo_heap0 demo_limit F F (2 ^ 32 - 1) h0 = Ret (demo_heap0 + HDR) h /\ brk h = demo_heap0 + HDR.
Proof. split; [vm_compute; reflexivity|]. eexists. split; vm_compute; reflexivity. Qed.
