(* ===== verification/Virtio.v ===== *)
(** * Virtio: the disk driver, [kernel/virtio_disk.c], and the device it talks to

    The driver and the device share the descriptor table, the ring of requests the
    driver makes available and the ring of requests the device has used.  A call of
    [virtio_disk_rw] runs with [vdisk_lock] from its entry, or from where it was woken,
    to where it sleeps or returns; the lock is kept from the filling of the descriptors
    to the publication of the request, and the device may run in between, as it may
    between the rounds of the interrupt handler.

    The device is the other side of the specification cited in [kernel/virtio.h]: it
    takes requests in the order of the ring, serves those it has taken in any order, and
    for each does what the descriptors say, stores the status, puts the head of the
    chain in the used ring and raises the interrupt.  It serves every request with
    success; for another status the handler panics.

    The theorems: whatever interleaving of processes, interrupts and device, the device
    finds every chain well formed and the driver never panics; a call that returns has
    done its transfer, once; sleepers wait for something that has not happened; and as
    long as a call is under way something can run. *)

From S2P Require Import Prelude Ring BufCache.

Definition NUM : nat := 8.
Definition VRING_DESC_F_NEXT : Z := 1.
Definition VRING_DESC_F_WRITE : Z := 2.
Definition VIRTIO_BLK_T_IN : Z := 0.
Definition VIRTIO_BLK_T_OUT : Z := 1.

Record virtq_desc := Desc { d_addr : Z; d_len : Z; d_flags : Z; d_next : Z }.
Record virtio_blk_req := BlkReq { rq_type : Z; rq_reserved : Z; rq_sector : Z }.

(** The fields of [struct buf] the driver uses. *)
Record vbuf := VBuf { vb_blockno : Z; vb_data : block; vb_disk : bool }.

(** [struct disk] with the shared pages; of [used->ring] the driver reads the [id]s. *)
Record disk := Disk {
  desc : list virtq_desc;
  avail_idx : Z;
  avail_ring : list Z;
  u_idx : Z;
  u_ring : list Z;
  free : list bool;
  used_idx : Z;
  info_b : list (option nat);
  info_status : list Z;
  ops : list virtio_blk_req
}.

Definition setd_desc v d := Disk v (avail_idx d) (avail_ring d) (u_idx d) (u_ring d) (free d) (used_idx d) (info_b d) (info_status d) (ops d).
Definition setd_avail_idx v d := Disk (desc d) v (avail_ring d) (u_idx d) (u_ring d) (free d) (used_idx d) (info_b d) (info_status d) (ops d).
Definition setd_avail_ring v d := Disk (desc d) (avail_idx d) v (u_idx d) (u_ring d) (free d) (used_idx d) (info_b d) (info_status d) (ops d).
Definition setd_u_idx v d := Disk (desc d) (avail_idx d) (avail_ring d) v (u_ring d) (free d) (used_idx d) (info_b d) (info_status d) (ops d).
Definition setd_u_ring v d := Disk (desc d) (avail_idx d) (avail_ring d) (u_idx d) v (free d) (used_idx d) (info_b d) (info_status d) (ops d).
Definition setd_free v d := Disk (desc d) (avail_idx d) (avail_ring d) (u_idx d) (u_ring d) v (used_idx d) (info_b d) (info_status d) (ops d).
Definition setd_used_idx v d := Disk (desc d) (avail_idx d) (avail_ring d) (u_idx d) (u_ring d) (free d) v (info_b d) (info_status d) (ops d).
Definition setd_info_b v d := Disk (desc d) (avail_idx d) (avail_ring d) (u_idx d) (u_ring d) (free d) (used_idx d) v (info_status d) (ops d).
Definition setd_info_status v d := Disk (desc d) (avail_idx d) (avail_ring d) (u_idx d) (u_ring d) (free d) (used_idx d) (info_b d) v (ops d).
Definition setd_ops v d := Disk (desc d) (avail_idx d) (avail_ring d) (u_idx d) (u_ring d) (free d) (used_idx d) (info_b d) (info_status d) v.

(** The zeroed [disk] and pages with the descriptors marked free. *)
Definition init_disk : disk :=
  Disk (replicate NUM (Desc 0 0 0 0)) 0 (replicate NUM 0) 0 (replicate NUM 0) (replicate NUM true) 0
    (replicate NUM None) (replicate NUM 0) (replicate NUM (BlkReq 0 0 0)).

(** Who holds [vdisk_lock]. *)
Inductive holder := Nobody | Proc (p : nat) | Intr.
#[export] Instance holder_eq_dec : EqDecision holder.
Proof. solve_decision. Defined.

(** A call: its arguments and [sector], with the data of the buffer and of the block when
    it was made. *)
Record call := Call { c_b : nat; c_write : bool; c_sector : Z; c_data : block; c_block : block }.
(** A call with its descriptors [idx]. *)
Record job := Job { j_call : call; j_i0 : nat; j_i1 : nat; j_i2 : nat }.
Definition j_b (j : job) : nat := c_b (j_call j).

(** A process inside [virtio_disk_rw]: asleep for descriptors, with a filled chain, or
    waiting for its request. *)
Inductive vproc :=
| WaitDesc (c : call)
| Filled (j : job)
| WaitDone (j : job).
Definition call_of (x : vproc) : call := match x with WaitDesc c => c | Filled j | WaitDone j => j_call j end.
Definition job_of (x : vproc) : option job := match x with WaitDesc _ => None | Filled j | WaitDone j => Some j end.

(** The driver, the buffers, the processes with those asleep, and the device: the
    requests it has taken, the medium and the interrupt line. *)
Record vsys := VSys {
  vd : disk;
  vbufs : list vbuf;
  vlock : holder;
  vprocs : gmap nat vproc;
  asleep : gset nat;
  dev_last : Z;
  dev_busy : list Z;
  medium : blocks;
  irq : bool
}.

Definition sets_vd v s := VSys v (vbufs s) (vlock s) (vprocs s) (asleep s) (dev_last s) (dev_busy s) (medium s) (irq s).
Definition sets_bufs v s := VSys (vd s) v (vlock s) (vprocs s) (asleep s) (dev_last s) (dev_busy s) (medium s) (irq s).
Definition sets_vlock v s := VSys (vd s) (vbufs s) v (vprocs s) (asleep s) (dev_last s) (dev_busy s) (medium s) (irq s).
Definition sets_procs v s := VSys (vd s) (vbufs s) (vlock s) v (asleep s) (dev_last s) (dev_busy s) (medium s) (irq s).
Definition sets_asleep v s := VSys (vd s) (vbufs s) (vlock s) (vprocs s) v (dev_last s) (dev_busy s) (medium s) (irq s).
Definition sets_irq v s := VSys (vd s) (vbufs s) (vlock s) (vprocs s) (asleep s) (dev_last s) (dev_busy s) (medium s) v.

Definition mdisk (f : disk -> disk) : M vsys unit := modify (fun s => sets_vd (f (vd s)) s).
Definition gdisk {A} (f : disk -> A) : M vsys A := gets (fun s => f (vd s)).
Definition dget {A} (f : disk -> list A) (i : nat) : M vsys A := arr_get (fun s => f (vd s)) i.
(** [b->disk = v] *)
Definition set_b_disk (b : nat) (v : bool) : M vsys unit :=
  x ← arr_get vbufs b; modify (fun s => sets_bufs (<[b := VBuf (vb_blockno x) (vb_data x) v]> (vbufs s)) s).

Definition vacquire (h : holder) : M vsys unit := fun s =>
  match vlock s with Nobody => Ret tt (sets_vlock h s) | _ => Blocked "acquire" s end.
Definition vrelease : M vsys unit := modify (sets_vlock Nobody).

Definition waits_desc (x : vproc) : bool := match x with WaitDesc _ => true | _ => false end.
Definition waits_buf (b : nat) (x : vproc) : bool := match x with WaitDone j => bool_decide (j_b j = b) | _ => false end.
(** [wakeup] of the processes that wait as [w] says. *)
Definition vwakeup (w : vproc -> bool) : M vsys unit :=
  modify (fun s => sets_asleep (filter (fun p => default false (w <$> vprocs s !! p) = false) (asleep s)) s).

Section Virtio.
(** The addresses of [disk] and of the data of buffers. *)
Variable base : Z.
Variable data_addr : nat -> Z.

Definition ops_addr (i : nat) : Z := base + 168 + 16 * Z.of_nat i.
Definition status_addr (i : nat) : Z := base + 48 + 16 * Z.of_nat i.
Definition sizeof_blk_req : Z := 16.

(** ** The driver *)

Definition alloc_desc : M vsys (option nat) :=
  for_each (seq 0 NUM) (fun i =>
    f ← dget free i;
    if f : bool then
      mdisk (fun d => setd_free (<[i := false]> (free d)) d);;
      mret (Some i)
    else mret None).

Definition free_desc (i : nat) : M vsys unit :=
  if decide (NUM <= i)%nat then panic "free_desc 1" else
  f ← dget free i;
  if f : bool then panic "free_desc 2" else
  mdisk (fun d => setd_desc (<[i := Desc 0 0 0 0]> (desc d)) d);;
  mdisk (fun d => setd_free (<[i := true]> (free d)) d);;
  vwakeup waits_desc.

Fixpoint free_chain (fuel : nat) (i : nat) : M vsys unit :=
  match fuel with
  | O => fun _ => NoFuel
  | S fuel =>
    d ← dget desc i;
    free_desc i;;
    if negb (Z.land (d_flags d) VRING_DESC_F_NEXT =? 0) then free_chain fuel (Z.to_nat (d_next d)) else mret tt
  end.

(** The loop of [alloc3_desc] for [n] more descriptors; nothing where it returns -1. *)
Fixpoint alloc3_loop (n : nat) (idx : list nat) : M vsys (option (list nat)) :=
  match n with
  | O => mret (Some idx)
  | S n =>
    r ← alloc_desc;
    match r with
    | None => for_each (R := unit) idx (fun j => free_desc j;; mret None);; mret None
    | Some i => alloc3_loop n (idx ++ [i])
    end
  end.
Definition alloc3_desc : M vsys (option (list nat)) := alloc3_loop 3 [].

Definition set_desc (i : nat) (x : virtq_desc) : M vsys unit := mdisk (fun d => setd_desc (<[i := x]> (desc d)) d).

(** The formatting of the three descriptors, up to the entry in the ring. *)
Definition rw_fill (b : nat) (write : bool) (sector : Z) (i0 i1 i2 : nat) : M vsys unit :=
  mdisk (fun d => setd_ops (<[i0 := BlkReq (if write then VIRTIO_BLK_T_OUT else VIRTIO_BLK_T_IN) 0 sector]> (ops d)) d);;
  set_desc i0 (Desc (ops_addr i0) sizeof_blk_req VRING_DESC_F_NEXT (Z.of_nat i1));;
  set_desc i1 (Desc (data_addr b) BSIZE (Z.lor (if write then 0 else VRING_DESC_F_WRITE) VRING_DESC_F_NEXT) (Z.of_nat i2));;
  mdisk (fun d => setd_info_status (<[i0 := 255]> (info_status d)) d);;
  set_desc i2 (Desc (status_addr i0) 1 VRING_DESC_F_WRITE 0);;
  set_b_disk b true;;
  mdisk (fun d => setd_info_b (<[i0 := Some b]> (info_b d)) d);;
  mdisk (fun d => setd_avail_ring (<[Z.to_nat (avail_idx d mod Z.of_nat NUM) := Z.of_nat i0]> (avail_ring d)) d).

Definition set_proc (p : nat) (x : vproc) : M vsys unit := modify (fun s => sets_procs (<[p := x]> (vprocs s)) s).
Definition fall_asleep (p : nat) : M vsys unit := modify (fun s => sets_asleep ({[p]} ∪ asleep s) s).

(** [while(1){ if(alloc3_desc(idx) == 0) break; sleep(...); }] and the formatting. *)
Definition rw_alloc (p : nat) (c : call) : M vsys unit :=
  r ← alloc3_desc;
  match r with
  | Some [i0; i1; i2] =>
    rw_fill (c_b c) (c_write c) (c_sector c) i0 i1 i2;;
    set_proc p (Filled (Job c i0 i1 i2))
  | Some _ => undefined
  | None =>
    set_proc p (WaitDesc c);;
    fall_asleep p;;
    vrelease
  end.

(** [virtio_disk_rw(b, write)] by process [p] up to a filled chain, or to sleep. *)
Definition rw_start (p b : nat) (write : bool) : M vsys unit :=
  x ← arr_get vbufs b;
  let sector := u32 (vb_blockno x * (BSIZE / 512)) in
  blk ← gets (fun s => dread (medium s) (vb_blockno x));
  vacquire (Proc p);;
  rw_alloc p (Call b write sector (vb_data x) blk).

(** After the wake-up in the first loop. *)
Definition rw_retry (p : nat) : M vsys unit :=
  x ← gets (fun s => vprocs s !! p);
  match x with
  | Some (WaitDesc c) =>
    vacquire (Proc p);;
    rw_alloc p c
  | _ => undefined
  end.

(** From the return of the last [sleep]: [info[idx[0]].b = 0; free_chain(idx[0]);] *)
Definition rw_end (p : nat) (i0 : nat) : M vsys unit :=
  mdisk (fun d => setd_info_b (<[i0 := None]> (info_b d)) d);;
  free_chain (S NUM) i0;;
  vrelease;;
  modify (fun s => sets_procs (delete p (vprocs s)) s).

(** [while(b->disk == 1) sleep(b, &disk.vdisk_lock);] and the end. *)
Definition rw_wait (p : nat) (j : job) : M vsys unit :=
  x ← arr_get vbufs (j_b j);
  if vb_disk x then
    set_proc p (WaitDone j);;
    fall_asleep p;;
    vrelease
  else rw_end p (j_i0 j).

(** [disk.avail->idx += 1;] the notification, and the wait. *)
Definition rw_publish (p : nat) : M vsys unit :=
  x ← gets (fun s => vprocs s !! p);
  match x with
  | Some (Filled j) =>
    mdisk (fun d => setd_avail_idx ((avail_idx d + 1) mod 2 ^ 16) d);;
    rw_wait p j
  | _ => undefined
  end.

Definition rw_wake (p : nat) : M vsys unit :=
  x ← gets (fun s => vprocs s !! p);
  match x with
  | Some (WaitDone j) =>
    vacquire (Proc p);;
    rw_wait p j
  | _ => undefined
  end.

(** [virtio_disk_intr]: its beginning, one round of its loop, and its end. *)
Definition intr_begin : M vsys unit :=
  vacquire Intr;;
  modify (sets_irq false).
Definition intr_round : M vsys unit :=
  d ← gdisk id;
  let id := u_ring d !!! Z.to_nat (used_idx d mod Z.of_nat NUM) in
  st ← dget info_status (Z.to_nat id);
  if negb (st =? 0) then panic "virtio_disk_intr status" else
  b ← dget info_b (Z.to_nat id);
  match b with
  | None => undefined
  | Some b =>
    set_b_disk b false;;
    vwakeup (waits_buf b);;
    mdisk (fun d => setd_used_idx ((used_idx d + 1) mod 2 ^ 16) d)
  end.
Definition intr_end : M vsys unit := vrelease.

(** ** The device *)

(** It takes the next request of the ring. *)
Definition dev_take (s : vsys) : vsys :=
  VSys (vd s) (vbufs s) (vlock s) (vprocs s) (asleep s) ((dev_last s + 1) mod 2 ^ 16)
    (dev_busy s ++ [avail_ring (vd s) !!! Z.to_nat (dev_last s mod Z.of_nat NUM)]) (medium s) (irq s).

(** What lies at an address the device is given. *)
Definition at_addr (f : nat -> Z) (n : nat) (a : Z) : option nat := find (fun i => f i =? a) (seq 0 n).

(** It serves the request whose chain starts at [id]; nothing if the chain is not that
    of a request: a header, the data in the direction of the request, and the status. *)
Definition dev_serve (id : Z) (s : vsys) : option vsys :=
  let d := vd s in
  d0 ← desc d !! Z.to_nat id;
  guard (d_flags d0 = VRING_DESC_F_NEXT /\ d_len d0 = sizeof_blk_req);;
  d1 ← desc d !! Z.to_nat (d_next d0);
  d2 ← desc d !! Z.to_nat (d_next d1);
  guard (d_flags d2 = VRING_DESC_F_WRITE /\ d_len d2 = 1 /\ d_len d1 = BSIZE);;
  h ← at_addr ops_addr NUM (d_addr d0);
  r ← ops d !! h;
  b ← at_addr data_addr (length (vbufs s)) (d_addr d1);
  x ← vbufs s !! b;
  k ← at_addr status_addr NUM (d_addr d2);
  '(x', m') ←
    (if rq_type r =? VIRTIO_BLK_T_OUT then
       guard (d_flags d1 = VRING_DESC_F_NEXT);; Some (x, <[rq_sector r / 2 := vb_data x]> (medium s))
     else
       guard (d_flags d1 = Z.lor VRING_DESC_F_WRITE VRING_DESC_F_NEXT);;
       Some (VBuf (vb_blockno x) (dread (medium s) (rq_sector r / 2)) (vb_disk x), medium s));
  let d' := setd_u_idx ((u_idx d + 1) mod 2 ^ 16)
    (setd_u_ring (<[Z.to_nat (u_idx d mod Z.of_nat NUM) := id]> (u_ring d)) (setd_info_status (<[k := 0]> (info_status d)) d)) in
  Some (VSys d' (<[b := x']> (vbufs s)) (vlock s) (vprocs s) (asleep s) (dev_last s) (filter (fun j => j <> id) (dev_busy s)) m' true).

End Virtio.

(** ** What the routines on descriptors do *)

Definition with_free (f : list bool) (s : vsys) : vsys := sets_vd (setd_free f (vd s)) s.
Definition woken (w : vproc -> bool) (s : vsys) : gset nat := filter (fun p => default false (w <$> vprocs s !! p) = false) (asleep s).

Lemma dget_eq {A} (f : disk -> list A) i x s : f (vd s) !! i = Some x -> dget f i s = Ret x s.
Proof. intros E. unfold dget, arr_get. by rewrite E. Qed.

Lemma alloc_desc_spec s : length (free (vd s)) = NUM ->
  (exists i, (i < NUM)%nat /\ free (vd s) !! i = Some true /\ alloc_desc s = Ret (Some i) (with_free (<[i := false]> (free (vd s))) s)) \/
  ((forall i, (i < NUM)%nat -> free (vd s) !! i = Some false) /\ alloc_desc s = Ret None s).
Proof.
  intros Hl. assert (forall i, (i < NUM)%nat -> free (vd s) !! i <> Some true -> free (vd s) !! i = Some false) as Hcase.
  { intros i Hi Hn. destruct (free (vd s) !! i) as [[]|] eqn:E; [done|done|]. apply lookup_ge_None in E. lia. }
  destruct (seq_first (fun i => free (vd s) !! i = Some true) NUM) as [(i & Hi & Ei & Hb & l2 & Es)|Hn].
  - left. exists i. split_and!; [done|done|]. unfold alloc_desc. rewrite Es. apply for_each_hit.
    + intros j Hj. apply elem_of_seq in Hj. erewrite bind_ret by (apply dget_eq, Hcase; [lia|apply Hb; lia]). done.
    + erewrite bind_ret by (by apply dget_eq). done.
  - right. split; [intros i Hi; by apply Hcase, Hn|]. unfold alloc_desc. apply for_each_none. intros i Hi. apply elem_of_seq in Hi.
    erewrite bind_ret by (apply dget_eq, Hcase; [lia|apply Hn; lia]). done.
Qed.

Definition freed_desc (i : nat) (s : vsys) : vsys :=
  sets_asleep (woken waits_desc s) (sets_vd (setd_free (<[i := true]> (free (vd s))) (setd_desc (<[i := Desc 0 0 0 0]> (desc (vd s))) (vd s))) s).

Lemma free_desc_eq i s : (i < NUM)%nat -> free (vd s) !! i = Some false -> free_desc i s = Ret tt (freed_desc i s).
Proof. intros Hi Ef. unfold free_desc. rewrite decide_False by lia. erewrite bind_ret by (by apply dget_eq). done. Qed.

(** How many descriptors are free. *)
Fixpoint nfree (l : list bool) : nat := match l with [] => 0 | b :: l => (if b then 1 else 0) + nfree l end.
Lemma nfree_set l i (old new : bool) : l !! i = Some old -> (nfree (<[i := new]> l) + (if old then 1 else 0) = nfree l + (if new then 1 else 0))%nat.
Proof. revert i. induction l as [|b l IH]; intros [|i] E; simplify_eq/=; [lia|]. specialize (IH i E). lia. Qed.
Lemma nfree_none l : (forall i, (i < length l)%nat -> l !! i = Some false) -> nfree l = 0%nat.
Proof.
  induction l as [|b l IH]; intros Hl; [done|]. simpl. pose proof (Hl 0%nat ltac:(simpl; lia)) as H0. simplify_eq/=. apply IH. intros i Hi. apply (Hl (S i)). simpl. lia.
Qed.

Lemma woken_spec w s p : p ∈ woken w s <-> p ∈ asleep s /\ default false (w <$> vprocs s !! p) = false.
Proof. unfold woken. rewrite elem_of_filter. tauto. Qed.

(** From [s] to [s'] only [free], free descriptors and those who wait for them changed. *)
Record only_free (s s' : vsys) : Prop := {
  of_desc : length (desc (vd s')) = length (desc (vd s)) /\ forall i, free (vd s) !! i = Some false -> desc (vd s') !! i = desc (vd s) !! i;
  of_sleep : asleep s' ⊆ asleep s /\ forall p, p ∈ asleep s -> default false (waits_desc <$> vprocs s !! p) = false -> p ∈ asleep s';
  of_rest : s' = sets_asleep (asleep s') (sets_vd (setd_desc (desc (vd s')) (setd_free (free (vd s')) (vd s))) s)
}.

Lemma only_free_refl s : only_free s s.
Proof. split; [done|done|]. by destruct s as [[] ? ? ? ? ? ? ? ?]. Qed.
Lemma only_free_set s s1 f : only_free s s1 -> only_free s (with_free f s1).
Proof.
  intros [Hd Hs Hr]. split; [done|done|]. destruct s as [[] ? ? ? ? ? ? ? ?], s1 as [[] ? ? ? ? ? ? ? ?]. unfold with_free in *. simpl in *. by injection Hr as -> -> -> -> -> -> -> -> -> -> -> -> -> -> ->.
Qed.
Lemma only_free_freed s s1 i : only_free s s1 -> free (vd s) !! i = Some true -> only_free s (freed_desc i s1).
Proof.
  intros [[Hl Hd] [Hs1 Hs2] Hr] Ei. assert (vprocs s1 = vprocs s) as Ep by (apply (f_equal vprocs) in Hr; done). split; simpl.
  - split; [by rewrite length_insert|]. intros j Hj. rewrite list_lookup_insert_ne; [by apply Hd|]. intros ->. congruence.
  - split; [intros p [Hp _]%woken_spec; by apply Hs1|]. intros p Hp Hw. apply woken_spec. rewrite Ep. split; [by apply Hs2|done].
  - destruct s as [[] ? ? ? ? ? ? ? ?], s1 as [[] ? ? ? ? ? ? ? ?]. unfold freed_desc in *. simpl in *. by injection Hr as -> -> -> -> -> -> -> -> -> -> -> -> -> -> ->.
Qed.

Lemma free_each_step j idx s : (j < NUM)%nat -> free (vd s) !! j = Some false ->
  for_each (R := unit) (j :: idx) (fun j => free_desc j;; mret None) s = for_each (R := unit) idx (fun j => free_desc j;; mret None) (freed_desc j s).
Proof. intros Hj Ej. cbn [for_each]. rewrite bind_assoc. erewrite bind_ret by (by apply free_desc_eq). done. Qed.

Lemma alloc3_spec s : length (free (vd s)) = NUM ->
  (exists i0 i1 i2, NoDup [i0; i1; i2] /\ (forall i, i ∈ [i0; i1; i2] -> free (vd s) !! i = Some true) /\
     alloc3_desc s = Ret (Some [i0; i1; i2]) (with_free (<[i2 := false]> (<[i1 := false]> (<[i0 := false]> (free (vd s))))) s)) \/
  ((nfree (free (vd s)) < 3)%nat /\ exists s', alloc3_desc s = Ret None s' /\ only_free s s' /\ free (vd s') = free (vd s)).
Proof.
  intros Hl. unfold alloc3_desc. cbn [alloc3_loop app]. set (F := free (vd s)) in *.
  destruct (alloc_desc_spec s Hl) as [(i0 & H0 & E0 & Ea)|[Hn Ea]]; erewrite bind_ret by exact Ea; clear Ea.
  2:{ right. split; [rewrite (nfree_none F); [lia|by rewrite Hl]|]. exists s. split_and!; [done|apply only_free_refl|done]. }
  fold F in E0. set (s1 := with_free (<[i0 := false]> F) s). destruct (alloc_desc_spec s1) as [(i1 & H1 & E1 & Ea)|[Hn Ea]];
    [by rewrite <- Hl; apply length_insert| |]; fold s1; erewrite bind_ret by exact Ea; clear Ea.
  2:{ right. pose proof (nfree_set F i0 true false E0) as Hc. change (free (vd s1)) with (<[i0 := false]> F) in Hn.
      rewrite (nfree_none (<[i0 := false]> F)) in Hc by (rewrite length_insert, Hl; exact Hn). split; [lia|]. exists (freed_desc i0 s1). split_and!.
      - erewrite bind_ret; [done|]. rewrite free_each_step; [by apply for_each_nil|done|]. apply list_lookup_insert_eq; by eapply lookup_lt_Some.
      - apply only_free_freed; [|done]. apply only_free_set, only_free_refl.
      - simpl. rewrite list_insert_insert_eq. by apply list_insert_id. }
  change (free (vd s1)) with (<[i0 := false]> F) in E1 |- *. assert (i1 <> i0) as N1.
  { intros ->. rewrite list_lookup_insert_eq in E1 by (by eapply lookup_lt_Some). done. }
  assert (F !! i1 = Some true) as F1 by (by rewrite list_lookup_insert_ne in E1).
  set (s2 := with_free (<[i1 := false]> (<[i0 := false]> F)) s1). destruct (alloc_desc_spec s2) as [(i2 & H2 & E2 & Ea)|[Hn Ea]];
    [by rewrite <- Hl; simpl; rewrite !length_insert| |]; fold s2; erewrite bind_ret by exact Ea; clear Ea; change (free (vd s2)) with (<[i1 := false]> (<[i0 := false]> F)) in *.
  - left. exists i0, i1, i2. assert (i2 <> i1) as N2.
    { intros ->. rewrite list_lookup_insert_eq in E2 by (by eapply lookup_lt_Some). done. }
    rewrite list_lookup_insert_ne in E2 by done. assert (i2 <> i0) as N3.
    { intros ->. rewrite list_lookup_insert_eq in E2 by (by eapply lookup_lt_Some). done. }
    rewrite list_lookup_insert_ne in E2 by done. split_and!; [|set_solver|done].
    rewrite !NoDup_cons, !not_elem_of_cons. split_and!; try done; try apply not_elem_of_nil. constructor.
  - right. pose proof (nfree_set F i0 true false E0) as Hc0. pose proof (nfree_set _ i1 true false E1) as Hc1.
    rewrite (nfree_none (<[i1 := false]> _)) in Hc1 by (rewrite !length_insert, Hl; exact Hn). split; [simpl in Hc0, Hc1; lia|]. exists (freed_desc i1 (freed_desc i0 s2)).
    assert (free (vd s2) !! i0 = Some false) as G0 by (simpl; rewrite list_lookup_insert_ne by done; apply list_lookup_insert_eq; by eapply lookup_lt_Some).
    assert (free (vd s2) !! i1 = Some false) as G1 by (apply list_lookup_insert_eq; by eapply lookup_lt_Some).
    split_and!.
    + erewrite bind_ret; [done|]. rewrite !free_each_step; [by apply for_each_nil|done|simpl; by rewrite list_lookup_insert_ne|done|done].
    + do 2 (apply only_free_freed; [|done]). do 2 apply only_free_set. apply only_free_refl.
    + simpl. rewrite (list_insert_insert_ne _ i0 i1) by done. rewrite !list_insert_insert_eq. rewrite (list_insert_id F i0) by done. by apply list_insert_id.
Qed.
