(* ===== verification/VirtioSpec.v ===== *)
(** * VirtioSpec: the disk driver against its device

    The interleavings of [Virtio]: processes that call [virtio_disk_rw], the interrupt
    handler and the device, with the invariant of the descriptors, the rings and the
    data in flight. *)

From S2P Require Import Prelude Ring BufCache Virtio.

Section System.
Variable base : Z.
Variable data_addr : nat -> Z.
Hypothesis data_inj : forall i j, data_addr i = data_addr j -> i = j.
Local Notation rw_fill := (rw_fill base data_addr).
Local Notation rw_alloc := (rw_alloc base data_addr).
Local Notation rw_start := (rw_start base data_addr).
Local Notation rw_retry := (rw_retry base data_addr).
Local Notation dev_serve := (dev_serve base data_addr).

(** ** The interleavings *)

(** What the callers owe, [bread] and [bwrite] with the sleep-lock of the buffer: nobody
    else is at work on the buffer or on another copy of the block. *)
Definition may_start (p b : nat) (s : vsys) : Prop :=
  vprocs s !! p = None /\ exists x, vbufs s !! b = Some x /\ 0 <= vb_blockno x < 2 ^ 31 /\
  forall q y, vprocs s !! q = Some y ->
    c_b (call_of y) <> b /\ forall z, vbufs s !! c_b (call_of y) = Some z -> vb_blockno z <> vb_blockno x.

(** The steps of the calls under way: the processes that are not asleep, the handler
    and the device. *)
Inductive vrun (s : vsys) : vsys -> Prop :=
| v_retry p c s' : p ∉ asleep s -> vprocs s !! p = Some (WaitDesc c) -> rw_retry p s = Ret tt s' -> vrun s s'
| v_publish p j s' : vprocs s !! p = Some (Filled j) -> rw_publish p s = Ret tt s' -> vrun s s'
| v_wake p j s' : p ∉ asleep s -> vprocs s !! p = Some (WaitDone j) -> rw_wake p s = Ret tt s' -> vrun s s'
| v_intr s' : irq s = true -> intr_begin s = Ret tt s' -> vrun s s'
| v_round s' : vlock s = Intr -> used_idx (vd s) <> u_idx (vd s) -> intr_round s = Ret tt s' -> vrun s s'
| v_iret s' : vlock s = Intr -> used_idx (vd s) = u_idx (vd s) -> intr_end s = Ret tt s' -> vrun s s'
| v_take : dev_last s <> avail_idx (vd s) -> vrun s (dev_take s)
| v_serve id s' : id ∈ dev_busy s -> dev_serve id s = Some s' -> vrun s s'.

(** With new calls, the clients' work on the buffers between calls, and [kill], which
    wakes a sleeper before its time. *)
Inductive vstep (s : vsys) : vsys -> Prop :=
| v_start p b write s' : may_start p b s -> rw_start p b write s = Ret tt s' -> vstep s s'
| v_run s' : vrun s s' -> vstep s s'
| v_client b x x' : vbufs s !! b = Some x -> (forall q y, vprocs s !! q = Some y -> c_b (call_of y) <> b) ->
    vstep s (sets_bufs (<[b := x']> (vbufs s)) s)
| v_kill p : vstep s (sets_asleep (asleep s ∖ {[p]}) s).

(** ** The invariant *)

Definition avail_q (s : vsys) : list Z :=
  window 8 (avail_ring (vd s)) (dev_last s) (Z.to_nat (dist (2 ^ 16) (avail_idx (vd s)) (dev_last s))).
Definition used_q (s : vsys) : list Z :=
  window 8 (u_ring (vd s)) (used_idx (vd s)) (Z.to_nat (dist (2 ^ 16) (u_idx (vd s)) (used_idx (vd s)))).
(** The requests not served yet, and all those whose caller has to be told. *)
Definition pending (s : vsys) : list Z := avail_q s ++ dev_busy s.
Definition flight (s : vsys) : list Z := pending s ++ used_q s.

Definition idxs (j : job) : list nat := [j_i0 j; j_i1 j; j_i2 j].
Definition jid (j : job) : Z := Z.of_nat (j_i0 j).
Definition has_job (s : vsys) (p : nat) (j : job) : Prop := exists x, vprocs s !! p = Some x /\ job_of x = Some j.

Definition chain (d : disk) (j : job) : Prop :=
  let w := c_write (j_call j) in
  desc d !! j_i0 j = Some (Desc (ops_addr base (j_i0 j)) sizeof_blk_req VRING_DESC_F_NEXT (Z.of_nat (j_i1 j))) /\
  desc d !! j_i1 j = Some (Desc (data_addr (j_b j)) BSIZE (Z.lor (if w then 0 else VRING_DESC_F_WRITE) VRING_DESC_F_NEXT) (Z.of_nat (j_i2 j))) /\
  desc d !! j_i2 j = Some (Desc (status_addr base (j_i0 j)) 1 VRING_DESC_F_WRITE 0) /\
  ops d !! j_i0 j = Some (BlkReq (if w then VIRTIO_BLK_T_OUT else VIRTIO_BLK_T_IN) 0 (c_sector (j_call j))) /\
  info_b d !! j_i0 j = Some (Some (j_b j)).

(** What a call moves: the data of the buffer for a write, of the block for a read. *)
Definition payload (c : call) : block := if c_write c then c_data c else c_block c.
Definition moved (done : bool) (c : call) (x : vbuf) (m : blocks) : Prop :=
  if done then vb_data x = payload c /\ dread m (vb_blockno x) = payload c
  else vb_data x = c_data c /\ dread m (vb_blockno x) = c_block c.
Definition served (s : vsys) (x : vproc) : bool :=
  match x with WaitDone j => bool_decide (jid j ∉ pending s) | _ => false end.
Definition b_disk (s : vsys) (b : nat) : bool := default false (vb_disk <$> vbufs s !! b).

Record lengths (d : disk) : Prop := {
  l_desc : length (desc d) = NUM; l_avail : length (avail_ring d) = NUM; l_used : length (u_ring d) = NUM;
  l_free : length (free d) = NUM; l_info_b : length (info_b d) = NUM; l_status : length (info_status d) = NUM;
  l_ops : length (ops d) = NUM;
  l_idx : 0 <= avail_idx d < 2 ^ 16 /\ 0 <= u_idx d < 2 ^ 16 /\ 0 <= used_idx d < 2 ^ 16
}.

(** Descriptors: those of the calls are theirs, apart, not free and formatted, and there
    are no others that are not free. *)
Record descs (s : vsys) : Prop := {
  d_own p j i : has_job s p j -> i ∈ idxs j -> free (vd s) !! i = Some false;
  d_nodup p j : has_job s p j -> NoDup (idxs j);
  d_disj p q j k i : p <> q -> has_job s p j -> has_job s q k -> i ∈ idxs j -> i ∈ idxs k -> False;
  d_used i : free (vd s) !! i = Some false -> exists p j, has_job s p j /\ i ∈ idxs j;
  d_chain p j : has_job s p j -> chain (vd s) j
}.

(** Data: each call has its buffer and its block to itself, and has moved its payload
    when it is served. *)
Record datas (s : vsys) : Prop := {
  a_excl p q x y bx z : p <> q -> vprocs s !! p = Some x -> vprocs s !! q = Some y -> vbufs s !! c_b (call_of x) = Some bx ->
    c_b (call_of x) <> c_b (call_of y) /\ (vbufs s !! c_b (call_of y) = Some z -> vb_blockno bx <> vb_blockno z);
  a_data p x : vprocs s !! p = Some x -> exists bx, vbufs s !! c_b (call_of x) = Some bx /\ 0 <= vb_blockno bx < 2 ^ 31 /\
    c_sector (call_of x) = 2 * vb_blockno bx /\ moved (served s x) (call_of x) bx (medium s)
}.

(** Requests in flight: each once, those of the callers that wait with [b->disk] set;
    a used one has its status, and the interrupt is there to tell. *)
Record flights (s : vsys) : Prop := {
  f_last : 0 <= dev_last s < 2 ^ 16;
  f_nodup : NoDup (flight s);
  f_in id : id ∈ flight s <-> exists p j, vprocs s !! p = Some (WaitDone j) /\ b_disk s (j_b j) = true /\ id = jid j;
  f_status id : id ∈ used_q s -> info_status (vd s) !! Z.to_nat id = Some 0;
  f_irq : used_q s <> [] -> irq s = true \/ vlock s = Intr
}.

(** The lock is kept over the publication of a chain; sleepers have a reason to sleep. *)
Record waits (s : vsys) : Prop := {
  w_filled p j : vprocs s !! p = Some (Filled j) -> vlock s = Proc p /\ b_disk s (j_b j) = true /\
    avail_ring (vd s) !! Z.to_nat (avail_idx (vd s) mod 8) = Some (jid j);
  w_dom p : p ∈ asleep s -> is_Some (vprocs s !! p);
  w_lock p : vlock s = Proc p -> exists j, vprocs s !! p = Some (Filled j);
  w_desc p c : p ∈ asleep s -> vprocs s !! p = Some (WaitDesc c) -> (nfree (free (vd s)) < 3)%nat;
  w_done p j : p ∈ asleep s -> vprocs s !! p = Some (WaitDone j) -> b_disk s (j_b j) = true
}.

Record vinv (s : vsys) : Prop := {
  i_len : lengths (vd s); i_descs : descs s; i_datas : datas s; i_flights : flights s; i_waits : waits s
}.

(** ** Facts of the invariant *)

Lemma has_job_insert s s' p x q j : vprocs s' = <[p := x]> (vprocs s) ->
  has_job s' q j <-> (q = p /\ job_of x = Some j) \/ (q <> p /\ has_job s q j).
Proof.
  intros E. unfold has_job. rewrite E. split.
  - intros (y & [[-> ->]|[Hne Hy]]%lookup_insert_Some & Hj); [by left|right]. eauto.
  - intros [[-> Hj]|[Hne (y & Hy & Hj)]]; [exists x; by rewrite lookup_insert_eq|exists y]. by rewrite lookup_insert_ne.
Qed.

Lemma has_filled s p j : vprocs s !! p = Some (Filled j) -> has_job s p j.
Proof. intros E. by exists (Filled j). Qed.
Lemma has_done s p j : vprocs s !! p = Some (WaitDone j) -> has_job s p j.
Proof. intros E. by exists (WaitDone j). Qed.

Lemma idxs_lt s p j i : vinv s -> has_job s p j -> i ∈ idxs j -> (i < NUM)%nat.
Proof. intros [Hl Hd _ _ _] Hj Hi. rewrite <- (l_free _ Hl). eapply lookup_lt_Some, (d_own _ Hd); eauto. Qed.

Lemma i0_in j : j_i0 j ∈ idxs j.
Proof. left. Qed.
Lemma i1_in j : j_i1 j ∈ idxs j.
Proof. right. left. Qed.
Lemma i2_in j : j_i2 j ∈ idxs j.
Proof. right. right. left. Qed.

Lemma job_eq s p q j k i : vinv s -> has_job s p j -> has_job s q k -> i ∈ idxs j -> i ∈ idxs k -> p = q.
Proof. intros Hv Hj Hk Hi Hi'. destruct (decide (p = q)) as [|Hne]; [done|]. by destruct (d_disj _ (i_descs _ Hv) p q j k i). Qed.

Lemma jid_eq s p q j k : vinv s -> has_job s p j -> has_job s q k -> jid j = jid k -> p = q.
Proof. intros Hv Hj Hk He. assert (j_i0 j = j_i0 k) as E by (unfold jid in He; lia). eapply job_eq; eauto using i0_in. rewrite E. apply i0_in. Qed.

(** At most [NUM] requests are in flight, and one less than there are chains. *)
Lemma ids_length (l : list Z) : NoDup l -> (forall id, id ∈ l -> 0 <= id < 8) -> (length l <= 8)%nat.
Proof.
  intros Hn Hl. change 8%nat with (length (Z.of_nat <$> seq 0 8)). apply submseteq_length, NoDup_submseteq; [done|].
  intros id Hi. apply list_elem_of_fmap. exists (Z.to_nat id). specialize (Hl id Hi). rewrite elem_of_seq. lia.
Qed.

Lemma flight_job s id : vinv s -> id ∈ flight s -> exists p j, vprocs s !! p = Some (WaitDone j) /\ id = jid j /\ 0 <= id < 8.
Proof.
  intros Hv (p & j & E & _ & ->)%(f_in _ (i_flights _ Hv)). exists p, j. split_and!; [done|done|unfold jid; lia|].
  pose proof (idxs_lt s p j _ Hv (has_done _ _ _ E) (i0_in j)). unfold NUM, jid in *. lia.
Qed.

Lemma flight_room s id : vinv s -> 0 <= id < 8 -> id ∉ flight s -> (length (flight s) < 8)%nat.
Proof.
  intros Hv Hid Hn. pose proof (ids_length (id :: flight s)) as Hc. simpl in Hc. apply Hc.
  - constructor; [done|apply (f_nodup _ (i_flights _ Hv))].
  - intros k [->|Hk]%elem_of_cons; [done|]. by destruct (flight_job s k Hv Hk) as (?&?&?&?&?).
Qed.

Lemma flight_le s : vinv s -> (length (flight s) <= 8)%nat.
Proof.
  intros Hv. apply ids_length; [apply (f_nodup _ (i_flights _ Hv))|]. intros k Hk. by destruct (flight_job s k Hv Hk) as (?&?&?&?&?).
Qed.

Lemma q_range w r : 0 <= dist (2 ^ 16) w r < 2 ^ 16.
Proof. by apply (dist_range 8). Qed.
Lemma q_push w r : dist (2 ^ 16) w r < 2 ^ 16 - 1 -> dist (2 ^ 16) ((w + 1) mod 2 ^ 16) r = dist (2 ^ 16) w r + 1.
Proof. by apply (dist_push 8). Qed.
Lemma q_pop w r : 0 < dist (2 ^ 16) w r -> dist (2 ^ 16) w ((r + 1) mod 2 ^ 16) = dist (2 ^ 16) w r - 1.
Proof. by apply (dist_pop 8). Qed.
Lemma q_slot w r : w mod 8 = (r + dist (2 ^ 16) w r) mod 8.
Proof. apply slot_of. by exists 8192. Qed.

Lemma length_flight s : length (flight s) = (Z.to_nat (dist (2 ^ 16) (avail_idx (vd s)) (dev_last s)) + length (dev_busy s) + Z.to_nat (dist (2 ^ 16) (u_idx (vd s)) (used_idx (vd s))))%nat.
Proof. unfold flight, pending, avail_q, used_q. by rewrite !length_app, !length_window. Qed.

(** ** What keeps each part *)

Lemma chain_ext d d' j : (forall i, i ∈ idxs j -> desc d' !! i = desc d !! i) -> ops d' !! j_i0 j = ops d !! j_i0 j ->
  info_b d' !! j_i0 j = info_b d !! j_i0 j -> chain d j -> chain d' j.
Proof. intros Hd Ho Hb (H0 & H1 & H2 & H3 & H4). unfold chain. rewrite !Hd, Ho, Hb by eauto using i0_in, i1_in, i2_in. done. Qed.

Lemma descs_ext s s' : free (vd s') = free (vd s) -> (forall i, free (vd s) !! i = Some false -> desc (vd s') !! i = desc (vd s) !! i) ->
  ops (vd s') = ops (vd s) -> info_b (vd s') = info_b (vd s) -> (forall p j, has_job s' p j <-> has_job s p j) -> descs s -> descs s'.
Proof.
  intros Ef Ed Eo Eb Hj [H1 H2 H3 H4 H5]. split.
  - intros p j i Hp. rewrite Ef. apply Hj in Hp. eauto.
  - intros p j Hp. apply Hj in Hp. eauto.
  - intros p q j k i Hne Hp Hq. apply Hj in Hp, Hq. eauto.
  - intros i. rewrite Ef. intros (p & j & Hp & Hi)%H4. exists p, j. by rewrite Hj.
  - intros p j Hp. apply Hj in Hp. apply (chain_ext (vd s)); [intros i Hi; eapply Ed, H1; eauto|by rewrite Eo|by rewrite Eb|eauto].
Qed.

Definition contents (x : vbuf) : Z * block := (vb_blockno x, vb_data x).
Lemma datas_ext s s' : (forall b, contents <$> vbufs s' !! b = contents <$> vbufs s !! b) -> medium s' = medium s ->
  (forall p x', vprocs s' !! p = Some x' -> exists x, vprocs s !! p = Some x /\ call_of x' = call_of x /\ served s' x' = served s x) ->
  datas s -> datas s'.
Proof.
  intros Hb Em Hp [H1 H2].
  assert (forall b x', vbufs s' !! b = Some x' -> exists x, vbufs s !! b = Some x /\ vb_blockno x' = vb_blockno x /\ vb_data x' = vb_data x) as Hb'.
  { intros b x' E. specialize (Hb b). rewrite E in Hb. destruct (vbufs s !! b) as [x|]; [|done]. exists x. injection Hb. done. }
  split.
  - intros p q x' y' bx z Hne (x & Ex & -> & _)%Hp (y & Ey & -> & _)%Hp (bx0 & Ebx & -> & _)%Hb'. destruct (H1 p q x y bx0 bx0 Hne Ex Ey Ebx) as [G1 _].
    split; [done|]. intros (z0 & Ez & -> & _)%Hb'. by apply (H1 p q x y bx0 z0 Hne Ex Ey Ebx).
  - intros p x' (x & Ex & Ec & Es)%Hp. destruct (H2 p x Ex) as (bx & Eb & Hr & Hsec & Hm). rewrite Ec, Es, Em. specialize (Hb (c_b (call_of x))). rewrite Eb in Hb.
    destruct (vbufs s' !! c_b (call_of x)) as [bx'|]; [|done]. injection Hb as E1 E2. exists bx'. rewrite E1. split_and!; [done|lia|lia|done|].
    unfold moved in *. by rewrite E1, E2.
Qed.

(** ** Allocating and formatting a chain *)

(** The state after [rw_fill] and the publication of the process. *)
Definition filled (p : nat) (j : job) (x : vbuf) (f : list bool) (s : vsys) : vsys :=
  let d := vd s in let w := c_write (j_call j) in
  VSys
    (Disk
      (<[j_i2 j := Desc (status_addr base (j_i0 j)) 1 VRING_DESC_F_WRITE 0]>
        (<[j_i1 j := Desc (data_addr (j_b j)) BSIZE (Z.lor (if w then 0 else VRING_DESC_F_WRITE) VRING_DESC_F_NEXT) (Z.of_nat (j_i2 j))]>
          (<[j_i0 j := Desc (ops_addr base (j_i0 j)) sizeof_blk_req VRING_DESC_F_NEXT (Z.of_nat (j_i1 j))]> (desc d))))
      (avail_idx d) (<[Z.to_nat (avail_idx d mod 8) := jid j]> (avail_ring d)) (u_idx d) (u_ring d) f (used_idx d)
      (<[j_i0 j := Some (j_b j)]> (info_b d)) (<[j_i0 j := 255]> (info_status d))
      (<[j_i0 j := BlkReq (if w then VIRTIO_BLK_T_OUT else VIRTIO_BLK_T_IN) 0 (c_sector (j_call j))]> (ops d)))
    (<[j_b j := VBuf (vb_blockno x) (vb_data x) true]> (vbufs s)) (vlock s) (<[p := Filled j]> (vprocs s)) (asleep s)
    (dev_last s) (dev_busy s) (medium s) (irq s).

Lemma rw_alloc_spec p c x s : length (free (vd s)) = NUM -> vbufs s !! c_b c = Some x ->
  (exists i0 i1 i2, NoDup [i0; i1; i2] /\ (forall i, i ∈ [i0; i1; i2] -> free (vd s) !! i = Some true) /\
     rw_alloc p c s = Ret tt (filled p (Job c i0 i1 i2) x (<[i2 := false]> (<[i1 := false]> (<[i0 := false]> (free (vd s))))) s)) \/
  ((nfree (free (vd s)) < 3)%nat /\ exists s1, only_free s s1 /\ free (vd s1) = free (vd s) /\
     rw_alloc p c s = Ret tt (sets_vlock Nobody (sets_asleep ({[p]} ∪ asleep s1) (sets_procs (<[p := WaitDesc c]> (vprocs s)) s1)))).
Proof.
  intros Hl Ex. unfold Virtio.rw_alloc. destruct (alloc3_spec s Hl) as [(i0 & i1 & i2 & Hn & Hf & E)|(Hn & s1 & E & Ho & Ef)]; erewrite bind_ret by exact E.
  - left. exists i0, i1, i2. split_and!; [done|done|]. unfold Virtio.rw_fill, set_b_disk. do 5 (rewrite bind_assoc; erewrite bind_ret by reflexivity).
    rewrite bind_assoc, bind_assoc. erewrite bind_ret; [|unfold arr_get; simpl; rewrite Ex; reflexivity]. reflexivity.
  - right. split; [done|]. exists s1. split_and!; [done|done|]. assert (vprocs s1 = vprocs s) as <-; [|done]. by rewrite (of_rest _ _ Ho).
Qed.

(** Three descriptors taken. *)
Lemma take3_in (F : list bool) i0 i1 i2 i : i ∈ [i0; i1; i2] -> (i < length F)%nat -> <[i2 := false]> (<[i1 := false]> (<[i0 := false]> F)) !! i = Some false.
Proof.
  intros Hi Hl. destruct (decide (i = i2)) as [->|N2]; [apply list_lookup_insert_eq; by rewrite !length_insert|]. rewrite list_lookup_insert_ne by done.
  destruct (decide (i = i1)) as [->|N1]; [apply list_lookup_insert_eq; by rewrite !length_insert|]. rewrite list_lookup_insert_ne by done.
  destruct (decide (i = i0)) as [->|N0]; [by apply list_lookup_insert_eq|set_solver].
Qed.
Lemma set3_out {A} (F : list A) a0 a1 a2 i0 i1 i2 i : i ∉ [i0; i1; i2] -> <[i2 := a2]> (<[i1 := a1]> (<[i0 := a0]> F)) !! i = F !! i.
Proof. rewrite !not_elem_of_cons. intros (? & ? & ? & _). by rewrite !list_lookup_insert_ne. Qed.
Lemma nfree_take l i : (nfree (<[i := false]> l) <= nfree l)%nat.
Proof.
  destruct (decide (i < length l)%nat) as [Hi|Hi]; [|rewrite list_insert_ge by lia; lia]. apply lookup_lt_is_Some in Hi as [o Eo].
  pose proof (nfree_set l i o false Eo). destruct o; lia.
Qed.

(** A store in the slot of the next request does not touch those made available. *)
Lemma window_fill l w r c : length l = 8%nat -> dist (2 ^ 16) w r < 8 ->
  window 8 (<[Z.to_nat (w mod 8) := c]> l) r (Z.to_nat (dist (2 ^ 16) w r)) = window 8 l r (Z.to_nat (dist (2 ^ 16) w r)).
Proof.
  intros Hl Hd. pose proof (window_push 8 (2 ^ 16) ltac:(lia) ltac:(lia) ltac:(by exists 8192) l w r c Hl Hd) as Hp.
  apply (f_equal (take (Z.to_nat (dist (2 ^ 16) w r)))) in Hp. rewrite window_take in Hp by lia. rewrite Hp. apply take_app_length'. by rewrite length_window.
Qed.

Section Fill.
Variables (s : vsys) (p : nat) (c : call) (x : vbuf) (i0 i1 i2 : nat).
Hypothesis Hv : vinv s.
Hypothesis Ep : vprocs s !! p = Some (WaitDesc c).
Hypothesis Ex : vbufs s !! c_b c = Some x.
Hypothesis Hlock : vlock s = Nobody.
Hypothesis Hn : NoDup [i0; i1; i2].
Hypothesis Hf : forall i, i ∈ [i0; i1; i2] -> free (vd s) !! i = Some true.
Let j := Job c i0 i1 i2.
Let s' := filled p j x (<[i2 := false]> (<[i1 := false]> (<[i0 := false]> (free (vd s))))) (sets_vlock (Proc p) s).

Lemma fill_fresh q k i : has_job s q k -> i ∈ idxs k -> i ∉ [i0; i1; i2].
Proof. intros Hk Hi Hi'. pose proof (d_own _ (i_descs _ Hv) q k i Hk Hi). rewrite (Hf i Hi') in H. done. Qed.
Lemma fill_no_job k : ~ has_job s p k.
Proof. intros (y & Ey & Hk). rewrite Ep in Ey. by simplify_eq/=. Qed.
Lemma fill_job q k : has_job s' q k <-> (q = p /\ k = j) \/ has_job s q k.
Proof.
  rewrite (has_job_insert s s' p (Filled j)) by done. simpl. split.
  - intros [[-> [= <-]]|[_ H]]; [by left|by right].
  - intros [[-> ->]|H]; [by left|right]. split; [|done]. intros ->. by apply fill_no_job in H.
Qed.
Lemma fill_lt i : i ∈ [i0; i1; i2] -> (i < 8)%nat.
Proof. intros Hi. pose proof (lookup_lt_Some _ _ _ (Hf i Hi)) as H. rewrite (l_free _ (i_len _ Hv)) in H. done. Qed.

Lemma fill_look q y : vprocs s' !! q = Some y -> (p = q /\ Filled j = y) \/ (p <> q /\ vprocs s !! q = Some y).
Proof. apply lookup_insert_Some. Qed.

Lemma fill_lengths : lengths (vd s').
Proof. destruct (i_len _ Hv). split; simpl; rewrite ?length_insert; done. Qed.

Lemma fill_descs : descs s'.
Proof.
  destruct (i_descs _ Hv) as [H1 H2 H3 H4 H5]. pose proof (i_len _ Hv) as Hl. split.
  - intros q k i [[-> ->]|Hk]%fill_job Hi; simpl.
    + apply take3_in; [done|]. rewrite (l_free _ Hl). by apply fill_lt.
    + rewrite set3_out by (by eapply fill_fresh). eauto.
  - intros q k [[-> ->]|Hk]%fill_job; [done|eauto].
  - intros q r k l i Hne Hk Hl0 Hi Hi'. apply fill_job in Hk as [[-> ->]|Hk], Hl0 as [[-> ->]|Hl0]; [done|by eapply fill_fresh in Hi'|by eapply fill_fresh in Hi|eauto].
  - intros i Hi. destruct (decide (i ∈ [i0; i1; i2])) as [Hin|Hout].
    + exists p, j. split; [apply fill_job; by left|done].
    + simpl in Hi. rewrite set3_out in Hi by done. destruct (H4 i Hi) as (q & k & Hk & Hik). exists q, k. split; [|done]. apply fill_job. by right.
  - intros q k [[-> ->]|Hk]%fill_job.
    + apply NoDup_cons in Hn as [N0 Hn']. apply NoDup_cons in Hn' as [N1 _]. rewrite !not_elem_of_cons in N0. rewrite not_elem_of_cons in N1.
      pose proof (fill_lt i0 ltac:(left)). pose proof (fill_lt i1 ltac:(right; left)). pose proof (fill_lt i2 ltac:(right; right; left)). unfold chain. simpl.
      destruct N0 as (? & ? & _), N1 as (? & _). split_and!; rewrite ?list_lookup_insert_ne by done; apply list_lookup_insert_eq; rewrite ?length_insert;
        first [by rewrite (l_desc _ Hl)|by rewrite (l_ops _ Hl)|by rewrite (l_info_b _ Hl)].
    + assert (j_i0 k <> i0) as Hne by (intros E; pose proof (fill_fresh q k _ Hk (i0_in k)) as F; rewrite E in F; apply F; left).
      apply (chain_ext (vd s)); [|by apply list_lookup_insert_ne|by apply list_lookup_insert_ne|eauto]. intros i Hi. simpl. apply set3_out. by eapply fill_fresh.
Qed.

Lemma fill_room : dist (2 ^ 16) (avail_idx (vd s)) (dev_last s) < 8.
Proof.
  pose proof (fill_lt i0 ltac:(left)) as H0. pose proof (flight_room s (Z.of_nat i0) Hv ltac:(lia)) as Hr. rewrite length_flight in Hr. cut (Z.of_nat i0 ∉ flight s); [intros Hc; specialize (Hr Hc); lia|].
  intros (q & k & E & Ek & _)%(flight_job s _ Hv). assert (j_i0 k = i0) as Ei by (unfold jid in Ek; lia). pose proof (fill_fresh q k _ (has_done _ _ _ E) (i0_in k)) as Hc. rewrite Ei in Hc. apply Hc. left.
Qed.
Lemma fill_avail_q : avail_q s' = avail_q s.
Proof. unfold avail_q. simpl. apply window_fill; [apply (l_avail _ (i_len _ Hv))|apply fill_room]. Qed.

Lemma fill_b_disk q y : q <> p -> vprocs s !! q = Some y -> b_disk s' (c_b (call_of y)) = b_disk s (c_b (call_of y)).
Proof.
  intros Hne Ey. unfold b_disk. simpl. rewrite list_lookup_insert_ne; [done|]. intros He.
  destruct (a_excl _ (i_datas _ Hv) p q (WaitDesc c) y x x) as [H _]; done.
Qed.

Lemma fill_datas : datas s'.
Proof.
  assert (pending s' = pending s) as Epd by (unfold pending; by rewrite fill_avail_q).
  eapply datas_ext; [| | |apply (i_datas _ Hv)]; [|done|].
  - intros b. simpl. destruct (decide (b = c_b c)) as [->|Hne]; [|by rewrite list_lookup_insert_ne]. rewrite list_lookup_insert_eq by (by eapply lookup_lt_Some). by rewrite Ex.
  - intros q y' [[<- <-]|[Hne Ey]]%fill_look; [by exists (WaitDesc c)|]. exists y'. split_and!; [done|done|]. unfold served. by rewrite Epd.
Qed.

Lemma fill_flights : flights s'.
Proof.
  destruct (i_flights _ Hv) as [H1 H2 H3 H4 H5]. assert (flight s' = flight s) as Efl by (unfold flight, pending; by rewrite fill_avail_q). split; [done|by rewrite Efl| | |].
  - intros id. rewrite Efl, H3. split; intros (q & k & Eq & Hd & Hk); exists q, k.
    + assert (q <> p) as Hne by (intros ->; congruence). split_and!; [by apply lookup_insert_Some; right; split; [apply not_eq_sym|]| |done]. rewrite <- Hd. by apply (fill_b_disk q (WaitDone k)).
    + apply fill_look in Eq as [[_ ?]|[Hne Eq]]; [done|]. split_and!; [done| |done]. rewrite <- Hd. symmetry. by apply (fill_b_disk q (WaitDone k)).
  - intros id Hid. simpl. rewrite list_lookup_insert_ne; [by apply H4|]. assert (id ∈ flight s) as (q & k & Eq & -> & _)%(flight_job s _ Hv) by (unfold flight; set_solver).
    pose proof (fill_fresh q k _ (has_done _ _ _ Eq) (i0_in k)) as Hc. rewrite not_elem_of_cons in Hc. unfold jid. rewrite Nat2Z.id. simpl. naive_solver.
  - intros Hu. destruct (H5 Hu) as [?|?]; [by left|congruence].
Qed.

Lemma fill_waits : waits s'.
Proof.
  destruct (i_waits _ Hv) as [H1 H2 H3 H4 H5]. split.
  - intros q k [[<- [= <-]]|[Hne Eq]]%fill_look; [|destruct (H1 q k Eq); congruence]. split_and!; [done| |].
    + unfold b_disk. simpl. rewrite list_lookup_insert_eq; [done|]. by eapply lookup_lt_Some.
    + apply list_lookup_insert_eq. simpl. rewrite (l_avail _ (i_len _ Hv)). apply Nat2Z.inj_lt. rewrite Z2Nat.id by (apply Z.mod_pos_bound; lia). by apply Z.mod_pos_bound.
  - intros q Hq. simpl. destruct (decide (q = p)) as [->|Hne]; [rewrite lookup_insert_eq; eauto|rewrite lookup_insert_ne by done; by apply H2].
  - intros q [= <-]. exists j. apply lookup_insert_eq.
  - intros q k Hq [[_ ?]|[Hne Eq]]%fill_look; [done|]. specialize (H4 q k Hq Eq). simpl.
    pose proof (nfree_take (<[i1 := false]> (<[i0 := false]> (free (vd s)))) i2). pose proof (nfree_take (<[i0 := false]> (free (vd s))) i1). pose proof (nfree_take (free (vd s)) i0). lia.
  - intros q k Hq [[_ ?]|[Hne Eq]]%fill_look; [done|]. rewrite <- (H5 q k Hq Eq). by apply (fill_b_disk q (WaitDone k)).
Qed.

Lemma fill_inv : vinv s'.
Proof. split; [apply fill_lengths|apply fill_descs|apply fill_datas|apply fill_flights|apply fill_waits]. Qed.
End Fill.

(** ** Going to sleep *)

(** Free descriptors may be cleared, sleepers may wake, and those may fall asleep who
    have a reason to. *)
Lemma calm_inv s A D : vinv s -> length D = NUM -> (forall i, free (vd s) !! i = Some false -> D !! i = desc (vd s) !! i) ->
  (forall p, p ∈ A -> p ∈ asleep s \/ (exists c, vprocs s !! p = Some (WaitDesc c) /\ (nfree (free (vd s)) < 3)%nat) \/
     (exists j, vprocs s !! p = Some (WaitDone j) /\ b_disk s (j_b j) = true)) ->
  vinv (sets_asleep A (sets_vd (setd_desc D (vd s)) s)).
Proof.
  intros [Hl Hd Ha Hf Hw] HD HDi HA. split.
  - destruct Hl. by split.
  - by eapply descs_ext; [| | | | |exact Hd].
  - destruct Ha as [H1 H2]. split; [exact H1|exact H2].
  - destruct Hf as [H1 H2 H3 H4 H5]. split; [exact H1|exact H2|exact H3|exact H4|exact H5].
  - destruct Hw as [H1 H2 H3 H4 H5]. split; [exact H1| |exact H3| |].
    + intros p Hp. destruct (HA p Hp) as [?|[(c & E & _)|(j & E & _)]]; [by apply H2|by eexists..].
    + intros p c Hp E. destruct (HA p Hp) as [?|[(c' & E' & ?)|(j & E' & _)]]; [by eapply H4|done|]. simpl in E; congruence.
    + intros p j Hp E. destruct (HA p Hp) as [?|[(c' & E' & ?)|(j' & E' & ?)]]; [by eapply H5| |]; simpl in E; rewrite E in E'; by simplify_eq.
Qed.

Lemma sets_desc_id A s : sets_asleep A s = sets_asleep A (sets_vd (setd_desc (desc (vd s)) (vd s)) s).
Proof. by destruct s as [[] ? ? ? ? ? ? ? ?]. Qed.

Lemma sleep_inv s A : vinv s ->
  (forall p, p ∈ A -> p ∈ asleep s \/ (exists c, vprocs s !! p = Some (WaitDesc c) /\ (nfree (free (vd s)) < 3)%nat) \/
     (exists j, vprocs s !! p = Some (WaitDone j) /\ b_disk s (j_b j) = true)) -> vinv (sets_asleep A s).
Proof. intros Hv HA. rewrite sets_desc_id. apply calm_inv; [done|apply (l_desc _ (i_len _ Hv))|done|done]. Qed.

(** [rw_alloc] with the lock, by a process that could be one asleep for descriptors. *)
Lemma rw_alloc_inv s p c : vlock s = Nobody -> p ∉ asleep s -> vinv (sets_procs (<[p := WaitDesc c]> (vprocs s)) s) ->
  exists s', rw_alloc p c (sets_vlock (Proc p) s) = Ret tt s' /\ vinv s' /\ (exists y, vprocs s' = <[p := y]> (vprocs s) /\ call_of y = c) /\
    ((exists j, s' = filled p j (default (VBuf 0 [] false) (vbufs s !! j_b j)) (free (vd s')) (sets_vlock (Proc p) s)) \/ (nfree (free (vd s)) < 3)%nat).
Proof.
  intros Hlock Hp Hv. set (s0 := sets_procs _ s) in *. assert (vprocs s0 !! p = Some (WaitDesc c)) as Ep by apply lookup_insert_eq.
  destruct (a_data _ (i_datas _ Hv) p _ Ep) as (x & Ex & _). simpl in Ex.
  destruct (rw_alloc_spec p c x (sets_vlock (Proc p) s) (l_free _ (i_len _ Hv)) Ex) as [(i0 & i1 & i2 & Hn & Hf & ->)|(Hn & s1 & Ho & Ef & ->)]; eexists; (split; [reflexivity|split_and!]).
  - pose proof (fill_inv s0 p c x i0 i1 i2 Hv Ep Ex Hlock Hn Hf) as H. unfold filled in *. simpl in *. by rewrite insert_insert_eq in H.
  - by exists (Filled (Job c i0 i1 i2)).
  - left. exists (Job c i0 i1 i2). unfold j_b. simpl. by rewrite Ex.
  - destruct Ho as [[Hl1 Hd] [Hs _] Hr]. rewrite Hr. replace (sets_vlock Nobody _) with (sets_asleep ({[p]} ∪ asleep s1) (sets_vd (setd_desc (desc (vd s1)) (vd s0)) s0)).
    + apply calm_inv; [done|by rewrite Hl1; apply (l_desc _ (i_len _ Hv))|done|]. intros q [->%elem_of_singleton|Hq]%elem_of_union; [right; left; by exists c|left; by apply Hs].
    + clear Hr. rewrite Ef. clear -Hlock. destruct s as [[] ? ? ? ? ? ? ? ?], s1 as [[] ? ? ? ? ? ? ? ?]. simpl in *. by subst.
  - by exists (WaitDesc c).
  - by right.
Qed.

(** ** Publishing a chain *)

Lemma not_done_flight s p j : vinv s -> has_job s p j -> (forall k, vprocs s !! p = Some (WaitDone k) -> b_disk s (j_b k) = false) -> jid j ∉ flight s.
Proof.
  intros Hv Hj Hd (q & k & E & Hk & He)%(f_in _ (i_flights _ Hv)). assert (p = q) as -> by (eapply (jid_eq s); eauto using has_done). rewrite (Hd k E) in Hk. done.
Qed.

Lemma jid_lt s p j : vinv s -> has_job s p j -> 0 <= jid j < 8.
Proof. intros Hv Hj. pose proof (idxs_lt s p j _ Hv Hj (i0_in j)). unfold jid, NUM in *. lia. Qed.

Lemma served_ext s s' x : (forall j, x = WaitDone j -> jid j ∈ pending s' <-> jid j ∈ pending s) -> served s' x = served s x.
Proof. intros H. destruct x as [|j|j]; [done|done|]. simpl. apply bool_decide_ext. by rewrite H. Qed.

Section Publish.
Variables (s : vsys) (p : nat) (j : job).
Hypothesis Hv : vinv s.
Hypothesis Ep : vprocs s !! p = Some (Filled j).
Let s' := sets_vlock Nobody (sets_asleep ({[p]} ∪ asleep s) (sets_procs (<[p := WaitDone j]> (vprocs s))
            (sets_vd (setd_avail_idx ((avail_idx (vd s) + 1) mod 2 ^ 16) (vd s)) s))).

Lemma publish_eq : rw_publish p s = Ret tt s'.
Proof.
  unfold rw_publish. erewrite bind_ret by reflexivity. rewrite Ep. erewrite bind_ret by reflexivity. unfold rw_wait.
  destruct (a_data _ (i_datas _ Hv) p _ Ep) as (x & Ex & _). destruct (w_filled _ (i_waits _ Hv) p j Ep) as (_ & Hb & _).
  simpl in Ex. unfold b_disk, j_b in Hb. rewrite Ex in Hb. simpl in Hb. erewrite bind_ret; [|unfold arr_get; simpl; unfold j_b; rewrite Ex; reflexivity]. by rewrite Hb.
Qed.

Lemma publish_look q y : vprocs s' !! q = Some y -> (p = q /\ WaitDone j = y) \/ (p <> q /\ vprocs s !! q = Some y).
Proof. apply lookup_insert_Some. Qed.
Lemma publish_job q k : has_job s' q k <-> has_job s q k.
Proof.
  rewrite (has_job_insert s s' p (WaitDone j)) by done. split; [|intros (y & Ey & Hk); destruct (decide (q = p)) as [->|Hne]; [left|right]].
  - intros [[-> [= <-]]|[_ H]]; [by apply has_filled|done].
  - rewrite Ep in Ey. by simplify_eq/=.
  - split; [done|]. by exists y.
Qed.

Lemma publish_new : jid j ∉ flight s.
Proof. apply (not_done_flight s p); [done|by apply has_filled|]. intros k E. by rewrite Ep in E. Qed.

Lemma publish_avail_q : avail_q s' = avail_q s ++ [jid j].
Proof.
  pose proof (flight_room s (jid j) Hv (jid_lt _ _ _ Hv (has_filled _ _ _ Ep)) publish_new) as Hr. rewrite length_flight in Hr.
  pose proof (q_range (avail_idx (vd s)) (dev_last s)) as Hd. unfold avail_q. simpl avail_idx. simpl dev_last. simpl avail_ring.
  rewrite q_push by lia. replace (Z.to_nat (dist (2 ^ 16) (avail_idx (vd s)) (dev_last s) + 1)) with (S (Z.to_nat (dist (2 ^ 16) (avail_idx (vd s)) (dev_last s)))) by lia.
  rewrite window_snoc. do 2 f_equal. rewrite Z2Nat.id by lia. rewrite <- q_slot.
  apply list_lookup_total_correct. by destruct (w_filled _ (i_waits _ Hv) p j Ep) as (_ & _ & ->).
Qed.
Lemma publish_pending k : k <> jid j -> k ∈ pending s' <-> k ∈ pending s.
Proof. intros Hne. unfold pending. rewrite publish_avail_q. set_solver. Qed.
Lemma publish_flight : flight s' ≡ₚ jid j :: flight s.
Proof. unfold flight, pending. rewrite publish_avail_q. change (dev_busy s') with (dev_busy s). change (used_q s') with (used_q s). rewrite <- !app_assoc. symmetry. apply Permutation_middle. Qed.

Lemma publish_inv : vinv s'.
Proof.
  destruct Hv as [Hl Hd Ha [F1 F2 F3 F4 F5] [H1 H2 H3 H4 H5]]. destruct (H1 p j Ep) as (Hlock & Hb & _). split.
  - destruct Hl as [? ? ? ? ? ? ? (? & ? & ?)]. split; [done..|]. split; [|done]. by apply Z.mod_pos_bound.
  - eapply descs_ext; [| | | | |exact Hd]; try done. apply publish_job.
  - eapply datas_ext; [| | |exact Ha]; [done|done|]. intros q y [[<- <-]|[Hne Ey]]%publish_look.
    + exists (Filled j). split_and!; [done|done|]. apply bool_decide_eq_false. intros Hc. apply Hc. unfold pending. rewrite publish_avail_q. set_solver.
    + exists y. split_and!; [done|done|]. apply served_ext. intros k ->. apply publish_pending. intros He. apply Hne. symmetry. eapply (jid_eq s); eauto using has_done, has_filled.
  - split; [done| | |exact F4|].
    + rewrite publish_flight. constructor; [apply publish_new|done].
    + intros id. rewrite publish_flight, elem_of_cons, F3. split.
      * intros [->|(q & k & E & Hk)]; [exists p, j; split; [apply lookup_insert_eq|done]|]. exists q, k. split; [|done]. apply lookup_insert_Some. right. split; [|done]. intros ->. by rewrite Ep in E.
      * intros (q & k & [[<- [= <-]]|[Hne Ey]]%publish_look & Hk & ->); [by left|right]. by exists q, k.
    + intros Hu. destruct (F5 Hu); [by left|congruence].
  - split; [| |done| |].
    + intros q k [[<- ?]|[Hne Ey]]%publish_look; [done|]. destruct (H1 q k Ey). congruence.
    + intros q Hq. simpl. destruct (decide (q = p)) as [->|Hne]; [rewrite lookup_insert_eq; eauto|rewrite lookup_insert_ne by done; apply H2; simpl in Hq; set_solver].
    + intros q k Hq [[<- ?]|[Hne Ey]]%publish_look; [done|]. apply (H4 q k); [|done]. simpl in Hq. set_solver.
    + intros q k Hq [[<- [= <-]]|[Hne Ey]]%publish_look; [done|]. apply (H5 q k); [|done]. simpl in Hq. set_solver.
Qed.
End Publish.

(** ** Returning *)

Section Return.
Variables (s : vsys) (p : nat) (j : job).
Hypothesis Hv : vinv s.
Hypothesis Ep : vprocs s !! p = Some (WaitDone j).
Hypothesis Hb : b_disk s (j_b j) = false.
Hypothesis Hlock : vlock s = Nobody.
Let s1 := sets_vd (setd_info_b (<[j_i0 j := None]> (info_b (vd s))) (vd s)) (sets_vlock (Proc p) s).
Let s' := sets_procs (delete p (vprocs s)) (sets_vlock Nobody (freed_desc (j_i2 j) (freed_desc (j_i1 j) (freed_desc (j_i0 j) s1)))).

Lemma return_chain : free_chain (S NUM) (j_i0 j) s1 = Ret tt (freed_desc (j_i2 j) (freed_desc (j_i1 j) (freed_desc (j_i0 j) s1))).
Proof.
  pose proof (has_done _ _ _ Ep) as Hj. destruct (i_descs _ Hv) as [D1 D2 _ _ D5]. specialize (D2 p j Hj). destruct (D5 p j Hj) as (C0 & C1 & C2 & _).
  pose proof (fun i => D1 p j i Hj) as Hf. pose proof (fun i => idxs_lt s p j i Hv Hj) as Hlt.
  apply NoDup_cons in D2 as [N0 D2]. apply NoDup_cons in D2 as [N1 _]. rewrite !not_elem_of_cons in N0. rewrite not_elem_of_cons in N1. cbn [free_chain NUM].
  erewrite bind_ret by (by apply dget_eq). erewrite bind_ret by (apply free_desc_eq; [eauto using i0_in|by apply Hf, i0_in]). cbn [d_flags d_next]. rewrite Nat2Z.id. replace (negb _) with true by done.
  erewrite bind_ret by (apply dget_eq; simpl; rewrite list_lookup_insert_ne by naive_solver; exact C1).
  erewrite bind_ret; [|apply free_desc_eq; [eauto using i1_in|simpl; rewrite list_lookup_insert_ne by naive_solver; eauto using i1_in]]. cbn [d_flags d_next]. rewrite Nat2Z.id.
  replace (negb _) with true by (by destruct (c_write (j_call j))).
  erewrite bind_ret by (apply dget_eq; simpl; rewrite !list_lookup_insert_ne by naive_solver; exact C2).
  erewrite bind_ret; [|apply free_desc_eq; [eauto using i2_in|simpl; rewrite !list_lookup_insert_ne by naive_solver; eauto using i2_in]]. reflexivity.
Qed.

Lemma return_eq : rw_wake p s = Ret tt s'.
Proof.
  unfold rw_wake. erewrite bind_ret by reflexivity. rewrite Ep. erewrite bind_ret; [|unfold vacquire; rewrite Hlock; reflexivity]. unfold rw_wait.
  destruct (a_data _ (i_datas _ Hv) p _ Ep) as (x & Ex & _). simpl in Ex. unfold b_disk, j_b in Hb. rewrite Ex in Hb. simpl in Hb.
  erewrite bind_ret; [|unfold arr_get; simpl; unfold j_b; rewrite Ex; reflexivity]. rewrite Hb. unfold rw_end. erewrite bind_ret by reflexivity.
  change (sets_vd _ _) with s1. erewrite bind_ret by exact return_chain. reflexivity.
Qed.

Lemma return_look q y : vprocs s' !! q = Some y <-> q <> p /\ vprocs s !! q = Some y.
Proof. simpl. rewrite lookup_delete_Some. naive_solver. Qed.
Lemma return_job q k : has_job s' q k <-> q <> p /\ has_job s q k.
Proof. unfold has_job. setoid_rewrite return_look. naive_solver. Qed.

Lemma return_apart q k i : has_job s' q k -> i ∈ idxs k -> i ∉ idxs j.
Proof. intros [Hne Hk]%return_job Hi Hi'. apply Hne. eapply job_eq; eauto using has_done. Qed.

Lemma return_descs : descs s'.
Proof.
  destruct (i_descs _ Hv) as [H1 H2 H3 H4 H5]. pose proof (has_done _ _ _ Ep) as Hj. split.
  - intros q k i Hk Hi. pose proof (return_apart q k i Hk Hi) as Ho. apply return_job in Hk as [_ Hk]. simpl. rewrite set3_out by done. eauto.
  - intros q k [_ Hk]%return_job. eauto.
  - intros q r k l i Hne [_ Hk]%return_job [_ Hl]%return_job. eauto.
  - intros i Hi. assert (i ∉ idxs j) as Ho.
    { intros Hin. simpl in Hi. pose proof (idxs_lt s p j i Hv Hj Hin) as Hlt. rewrite <- (l_free _ (i_len _ Hv)) in Hlt. rewrite !list_lookup_insert in Hi. rewrite !length_insert in Hi.
      unfold idxs in Hin. rewrite !elem_of_cons, elem_of_nil in Hin. repeat case_decide; naive_solver. }
    simpl in Hi. rewrite set3_out in Hi by done. destruct (H4 i Hi) as (q & k & Hk & Hik). exists q, k. split; [|done]. apply return_job. split; [|done]. intros ->.
    destruct Hk as (y & Ey & Hk). rewrite Ep in Ey. by simplify_eq/=.
  - intros q k Hk. pose proof (fun i => return_apart q k i Hk) as Ho. apply return_job in Hk as [_ Hk]. assert (j_i0 k <> j_i0 j) as Hne.
    { intros E. apply (Ho (j_i0 k) (i0_in k)). rewrite E. apply i0_in. }
    apply (chain_ext (vd s)); [|done|by apply list_lookup_insert_ne|eauto]. intros i Hi. simpl. apply set3_out. by apply Ho.
Qed.

Lemma return_inv : vinv s'.
Proof.
  destruct Hv as [Hl _ Ha [F1 F2 F3 F4 F5] [H1 H2 H3 H4 H5]]. split.
  - destruct Hl. split; simpl; rewrite ?length_insert; done.
  - apply return_descs.
  - eapply datas_ext; [| | |exact Ha]; [done|done|]. intros q y [Hne Ey]%return_look. by exists y.
  - split; [done|done| |done|intros Hu; destruct (F5 Hu); [by left|congruence]]. intros id. change (flight s') with (flight s). rewrite F3. split; intros (q & k & E & Hk & Hi); exists q, k.
    + split; [|done]. apply return_look. split; [|done]. intros ->. rewrite Ep in E. simplify_eq. congruence.
    + apply return_look in E as [_ E]. done.
  - assert (forall q, q ∈ asleep s' -> q ∈ asleep s /\ q <> p /\ forall c, vprocs s !! q <> Some (WaitDesc c)) as Hs.
    { intros q Hq. simpl in Hq. apply woken_spec in Hq as [Hq _]. apply woken_spec in Hq as [Hq _]. apply woken_spec in Hq as [Hq Hw]. simpl in Hq, Hw. split_and!; [done| |].
      - intros ->. rewrite (H5 p j Hq Ep) in Hb. done.
      - intros c E. by rewrite E in Hw. }
    split.
    + intros q k [Hne Ey]%return_look. destruct (H1 q k Ey) as [? _]. congruence.
    + intros q (Hq & Hne & _)%Hs. simpl. rewrite lookup_delete_ne by done. by apply H2.
    + done.
    + intros q c (_ & _ & Hq)%Hs [_ Ey]%return_look. by destruct (Hq c).
    + intros q k (Hq & _)%Hs [_ Ey]%return_look. by apply (H5 q k).
Qed.
End Return.

(** ** The interrupt handler *)

Section Round.
Variables (s : vsys) (p : nat) (j : job) (x : vbuf).
Hypothesis Hv : vinv s.
Hypothesis Ep : vprocs s !! p = Some (WaitDone j).
Hypothesis Ex : vbufs s !! j_b j = Some x.
Hypothesis Hhd : jid j = u_ring (vd s) !!! Z.to_nat (used_idx (vd s) mod 8).
Hypothesis Hne : 0 < dist (2 ^ 16) (u_idx (vd s)) (used_idx (vd s)).
Hypothesis Hlock : vlock s = Intr.
Let s' := sets_vd (setd_used_idx ((used_idx (vd s) + 1) mod 2 ^ 16) (vd s)) (sets_asleep (woken (waits_buf (j_b j)) s)
            (sets_bufs (<[j_b j := VBuf (vb_blockno x) (vb_data x) false]> (vbufs s)) s)).

Lemma round_used_q : used_q s = jid j :: used_q s'.
Proof.
  unfold used_q. simpl used_idx. simpl u_idx. simpl u_ring. rewrite q_pop by done. pose proof (q_range (u_idx (vd s)) (used_idx (vd s))).
  replace (Z.to_nat (dist (2 ^ 16) (u_idx (vd s)) (used_idx (vd s)))) with (S (Z.to_nat (dist (2 ^ 16) (u_idx (vd s)) (used_idx (vd s)) - 1))) by lia.
  rewrite (window_pop 8 (2 ^ 16)) by (by exists 8192). by rewrite Hhd.
Qed.

Lemma round_eq : intr_round s = Ret tt s'.
Proof.
  unfold intr_round. erewrite bind_ret by reflexivity. cbv beta zeta. unfold id. change (Z.of_nat NUM) with 8. rewrite <- Hhd.
  assert (jid j ∈ used_q s) as Hin by (rewrite round_used_q; left). pose proof (f_status _ (i_flights _ Hv) _ Hin) as Hst.
  erewrite bind_ret by (by apply dget_eq). replace (negb _) with false by done. destruct (d_chain _ (i_descs _ Hv) p j (has_done _ _ _ Ep)) as (_ & _ & _ & _ & Hi).
  erewrite bind_ret by (apply dget_eq; unfold jid; rewrite Nat2Z.id; exact Hi). unfold set_b_disk. rewrite bind_assoc.
  erewrite bind_ret; [|unfold arr_get; rewrite Ex; reflexivity]. reflexivity.
Qed.

Lemma round_flight : flight s ≡ₚ jid j :: flight s'.
Proof. unfold flight. rewrite round_used_q. change (pending s') with (pending s). symmetry. apply Permutation_middle. Qed.

Lemma round_b_disk b : b_disk s' b = if decide (b = j_b j) then false else b_disk s b.
Proof.
  unfold b_disk. simpl. case_decide as Hb; [subst b|by rewrite list_lookup_insert_ne]. rewrite list_lookup_insert_eq by (by eapply lookup_lt_Some). done.
Qed.

Lemma round_other q y : vprocs s !! q = Some y -> q <> p -> c_b (call_of y) <> j_b j.
Proof. intros Ey Hq He. by destruct (a_excl _ (i_datas _ Hv) p q (WaitDone j) y x x) as [H _]. Qed.

Lemma round_inv : vinv s'.
Proof.
  pose proof (jid_eq s) as Hjid. pose proof round_other as Ho. destruct Hv as [Hl Hd Ha [F1 F2 F3 F4 F5] [H1 H2 H3 H4 H5]].
  pose proof F2 as Hnd. rewrite round_flight in Hnd. apply NoDup_cons in Hnd as [Hout Hnd']. split.
  - destruct Hl as [? ? ? ? ? ? ? (? & ? & ?)]. split; [done..|]. split; [done|]. split; [done|]. by apply Z.mod_pos_bound.
  - by eapply descs_ext; [| | | | |exact Hd].
  - eapply datas_ext; [| | |exact Ha]; [|done|intros q y Ey; by exists y]. intros b. simpl. destruct (decide (b = j_b j)) as [->|Hb]; [|by rewrite list_lookup_insert_ne].
    rewrite list_lookup_insert_eq by (by eapply lookup_lt_Some). by rewrite Ex.
  - split; [done|done| | |by right].
    + intros id. split.
      * intros Hid. assert (id ∈ flight s) as (q & k & Eq & Hk & ->)%F3 by (rewrite round_flight; by right). exists q, k. split_and!; [done| |done]. rewrite round_b_disk, decide_False; [done|].
        apply (Ho q (WaitDone k) Eq). intros ->. rewrite Ep in Eq. simplify_eq. done.
      * intros (q & k & Eq & Hk & ->). rewrite round_b_disk in Hk. case_decide as Hb; [done|]. assert (jid k ∈ flight s) as Hin by (apply F3; by exists q, k).
        rewrite round_flight in Hin. apply elem_of_cons in Hin as [He|?]; [|done]. assert (q = p) as -> by (eapply Hjid; eauto using has_done). simpl in Eq. rewrite Ep in Eq. by simplify_eq.
    + intros id Hid. apply F4. rewrite round_used_q. by right.
  - assert (forall q, q ∈ asleep s' -> q ∈ asleep s /\ default false (waits_buf (j_b j) <$> vprocs s !! q) = false) as Hs by (intros q Hq; by apply woken_spec in Hq).
    split.
    + intros q k Eq. destruct (H1 q k Eq). congruence.
    + intros q [Hq _]%Hs. by apply H2.
    + intros q Hq. simpl in Hq. congruence.
    + intros q c [Hq _]%Hs. by apply H4.
    + intros q k [Hq Hw]%Hs Eq. simpl in Eq. rewrite Eq in Hw. simpl in Hw. apply bool_decide_eq_false in Hw. rewrite round_b_disk, decide_False by done. by apply (H5 q k).
Qed.
End Round.

(** ** The device *)

Lemma take_inv s : vinv s -> dev_last s <> avail_idx (vd s) -> avail_q s = (avail_ring (vd s) !!! Z.to_nat (dev_last s mod 8)) :: avail_q (dev_take s) /\ vinv (dev_take s).
Proof.
  intros Hv Hne. assert (0 < dist (2 ^ 16) (avail_idx (vd s)) (dev_last s)) as Hd.
  { pose proof (q_range (avail_idx (vd s)) (dev_last s)). pose proof (dist_empty 8 (2 ^ 16) ltac:(lia) ltac:(lia) (avail_idx (vd s)) (dev_last s)) as He.
    destruct (l_idx _ (i_len _ Hv)) as (? & _). specialize (He ltac:(lia) (f_last _ (i_flights _ Hv))). lia. }
  assert (avail_q s = (avail_ring (vd s) !!! Z.to_nat (dev_last s mod 8)) :: avail_q (dev_take s)) as Eq.
  { unfold avail_q. simpl avail_idx. simpl dev_last. simpl avail_ring. rewrite q_pop by done. rewrite <- (window_pop 8 (2 ^ 16)) by (by exists 8192). f_equal. lia. }
  split; [done|]. assert (pending (dev_take s) ≡ₚ pending s) as Hp.
  { unfold pending. rewrite Eq. simpl dev_busy. change (Z.of_nat NUM) with 8. rewrite app_assoc, Permutation_app_comm. done. }
  assert (flight (dev_take s) ≡ₚ flight s) as Hfl by (unfold flight; by rewrite Hp). destruct Hv as [Hl Hds Ha [F1 F2 F3 F4 F5] [H1 H2 H3 H4 H5]]. split; [done| | | |done].
  - by eapply descs_ext; [| | | | |exact Hds].
  - eapply datas_ext; [| | |exact Ha]; [done|done|]. intros q y Ey. exists y. split_and!; [done|done|]. apply served_ext. intros k _. by rewrite Hp.
  - split; [by apply Z.mod_pos_bound|by rewrite Hfl|intros id; by rewrite Hfl|done|done].
Qed.

Lemma at_addr_eq (f : nat -> Z) n i : (forall a b, f a = f b -> a = b) -> (i < n)%nat -> at_addr f n (f i) = Some i.
Proof.
  intros Hf Hi. unfold at_addr. cut (forall k m, (k <= i < k + m)%nat -> find (fun a => f a =? f i) (seq k m) = Some i); [intros H; apply H; lia|].
  intros k m. revert k. induction m as [|m IH]; intros k Hk; [lia|]. simpl. destruct (Z.eqb_spec (f k) (f i)) as [E|E]; [by rewrite (Hf _ _ E)|].
  apply IH. assert (k <> i) by congruence. lia.
Qed.

Section Serve.
Variables (s : vsys) (p : nat) (j : job) (x : vbuf).
Hypothesis Hv : vinv s.
Hypothesis Ep : vprocs s !! p = Some (WaitDone j).
Hypothesis Hbusy : jid j ∈ dev_busy s.
Hypothesis Ex : vbufs s !! j_b j = Some x.
Let c := j_call j.
Let x' := VBuf (vb_blockno x) (payload c) (vb_disk x).
Let d' := setd_u_idx ((u_idx (vd s) + 1) mod 2 ^ 16) (setd_u_ring (<[Z.to_nat (u_idx (vd s) mod 8) := jid j]> (u_ring (vd s)))
            (setd_info_status (<[j_i0 j := 0]> (info_status (vd s))) (vd s))).
Let m' := if c_write c then <[vb_blockno x := c_data c]> (medium s) else medium s.
Let s' := VSys d' (<[j_b j := x']> (vbufs s)) (vlock s) (vprocs s) (asleep s) (dev_last s) (filter (fun k => k <> jid j) (dev_busy s)) m' true.

Lemma serve_data : 0 <= vb_blockno x < 2 ^ 31 /\ c_sector c = 2 * vb_blockno x /\ vb_data x = c_data c /\ dread (medium s) (vb_blockno x) = c_block c.
Proof.
  destruct (a_data _ (i_datas _ Hv) p _ Ep) as (y & Ey & Hr & Hs & Hm). unfold j_b in Ex. simpl in Ey. rewrite Ex in Ey. injection Ey as <-. split; [done|]. split; [done|].
  unfold served in Hm. rewrite bool_decide_eq_false_2 in Hm; [done|]. unfold pending. set_solver.
Qed.

Lemma serve_eq : dev_serve (jid j) s = Some s'.
Proof.
  pose proof (has_done _ _ _ Ep) as Hj. destruct (d_chain _ (i_descs _ Hv) p j Hj) as (C0 & C1 & C2 & C3 & _). destruct serve_data as (Hr & Hs & Hd & Hm).
  pose proof (idxs_lt s p j _ Hv Hj (i0_in j)) as H0. unfold Virtio.dev_serve. assert (Z.to_nat (jid j) = j_i0 j) as Hid by (unfold jid; lia). cbv zeta. rewrite Hid, C0. simpl. rewrite Nat2Z.id, C1. simpl. rewrite Nat2Z.id, C2. simpl.
  rewrite (at_addr_eq (ops_addr base) NUM (j_i0 j)) by (done || (unfold ops_addr; intros ??; lia)). simpl. rewrite C3. simpl. rewrite (at_addr_eq data_addr) by (done || by eapply lookup_lt_Some). simpl. rewrite Ex. simpl.
  rewrite (at_addr_eq (status_addr base) NUM (j_i0 j)) by (done || (unfold status_addr; intros ??; lia)). simpl. fold c. rewrite Hs. replace (2 * vb_blockno x / 2) with (vb_blockno x) by (rewrite Z.mul_comm, Z.div_mul; lia).
  unfold s', d', m', x', payload. destruct (c_write c); simpl; rewrite ?Hd, ?Hm; [|done]. destruct x. simpl in *. by subst.
Qed.
Lemma serve_used_q : used_q s' = used_q s ++ [jid j].
Proof.
  pose proof (flight_le s Hv) as Hr. rewrite length_flight in Hr. assert (length (dev_busy s) <> 0)%nat as Hlen by (destruct (dev_busy s); [set_solver|done]).
  pose proof (q_range (u_idx (vd s)) (used_idx (vd s))). unfold used_q. simpl u_idx. simpl used_idx. simpl u_ring. rewrite q_push by lia.
  replace (Z.to_nat (dist (2 ^ 16) (u_idx (vd s)) (used_idx (vd s)) + 1)) with (S (Z.to_nat (dist (2 ^ 16) (u_idx (vd s)) (used_idx (vd s))))) by lia.
  apply (window_push 8 (2 ^ 16)); [lia|lia|by exists 8192|apply (l_used _ (i_len _ Hv))|lia].
Qed.

Lemma serve_busy : dev_busy s ≡ₚ jid j :: dev_busy s'.
Proof.
  assert (NoDup (dev_busy s)) as Hn by (pose proof (f_nodup _ (i_flights _ Hv)) as H; unfold flight, pending in H; rewrite !NoDup_app in H; naive_solver).
  apply NoDup_Permutation; [done| |intros k; simpl; rewrite elem_of_cons, list_elem_of_filter; destruct (decide (k = jid j)); naive_solver].
  constructor; [simpl; rewrite list_elem_of_filter; naive_solver|by apply NoDup_filter].
Qed.
Lemma serve_pending : pending s ≡ₚ jid j :: pending s'.
Proof. unfold pending. rewrite serve_busy. change (avail_q s') with (avail_q s). symmetry. apply Permutation_middle. Qed.
Lemma serve_flight : flight s' ≡ₚ flight s.
Proof. unfold flight. rewrite serve_used_q, serve_pending. rewrite (Permutation_app_comm (used_q s)). simpl. symmetry. apply Permutation_middle. Qed.

Lemma serve_out : jid j ∉ pending s'.
Proof. pose proof (f_nodup _ (i_flights _ Hv)) as H. unfold flight in H. rewrite serve_pending in H. simpl in H. apply NoDup_cons in H as [H _]. set_solver. Qed.

Lemma serve_buf b : vbufs s' !! b = if decide (b = j_b j) then Some x' else vbufs s !! b.
Proof. simpl. case_decide as Hb; [subst b; apply list_lookup_insert_eq; by eapply lookup_lt_Some|by apply list_lookup_insert_ne]. Qed.
Lemma serve_b_disk b : b_disk s' b = b_disk s b.
Proof. unfold b_disk. rewrite serve_buf. case_decide as Hb; [subst b; by rewrite Ex|done]. Qed.
Lemma serve_medium n : dread m' n = if decide (n = vb_blockno x) then payload c else dread (medium s) n.
Proof.
  destruct serve_data as (_ & _ & Hd & Hm). unfold m', payload. case_decide as Hn; destruct (c_write c); rewrite ?dread_insert; [rewrite decide_True by done; done|by rewrite Hn|by rewrite decide_False|done].
Qed.

Lemma serve_other q y : vprocs s !! q = Some y -> q <> p -> c_b (call_of y) <> j_b j /\ forall z, vbufs s !! c_b (call_of y) = Some z -> vb_blockno z <> vb_blockno x.
Proof.
  intros Ey Hq. split; [|intros z Ez He]; (destruct (a_excl _ (i_datas _ Hv) p q (WaitDone j) y x) with (z := x) as [H _]; [done..|]); [done|].
  by destruct (a_excl _ (i_datas _ Hv) p q (WaitDone j) y x z) as [_ H']; [done..|]; apply H'.
Qed.

Lemma serve_datas : datas s'.
Proof.
  destruct (i_datas _ Hv) as [H1 H2]. split.
  - assert (forall b z, vbufs s' !! b = Some z -> exists z0, vbufs s !! b = Some z0 /\ vb_blockno z = vb_blockno z0) as Hb.
    { intros b z Ez. rewrite serve_buf in Ez. case_decide; [subst b; simplify_eq; by exists x|by exists z]. }
    intros q r y z bx bz Hne Ey Ez (bx0 & Ebx & ->)%Hb. destruct (H1 q r y z bx0 bx0 Hne Ey Ez Ebx) as [G _]. split; [done|]. intros (bz0 & Ebz & ->)%Hb. by apply (H1 q r y z bx0 bz0).
  - intros q y Ey. simpl in Ey. destruct (decide (q = p)) as [->|Hne].
    + rewrite Ep in Ey. injection Ey as <-. destruct serve_data as (Hr & Hs & _). exists x'. rewrite serve_buf, decide_True by done. split_and!; [done|apply Hr|apply Hr|done|].
      unfold served. rewrite bool_decide_eq_true_2 by apply serve_out. simpl. split; [done|]. rewrite serve_medium. by rewrite decide_True.
    + destruct (serve_other q y Ey Hne) as [Hb Hn]. destruct (H2 q y Ey) as (bx & Ebx & Hr & Hs & Hm). exists bx. rewrite serve_buf, decide_False by done. split_and!; [done|apply Hr|apply Hr|done|].
      assert (served s' y = served s y) as ->.
      { apply served_ext. intros k ->. rewrite serve_pending, elem_of_cons. split; [by right|]. intros [He|?]; [|done]. destruct Hne. eapply (jid_eq s); eauto using has_done. }
      unfold moved in *. simpl medium. rewrite serve_medium, decide_False; [done|]. by apply Hn.
Qed.

Lemma serve_inv : vinv s'.
Proof.
  pose proof serve_datas as Hdat. pose proof (flight_job s) as Hfj. pose proof Hv as Hv0. destruct Hv0 as [Hl Hd _ [F1 F2 F3 F4 F5] [H1 H2 H3 H4 H5]]. split; [| |done| |].
  - destruct Hl as [? ? ? ? ? ? ? (? & ? & ?)]. split; simpl; rewrite ?length_insert; try done. split_and!; try lia; apply Z.mod_pos_bound; lia.
  - by eapply descs_ext; [| | | | |exact Hd].
  - split; [done|by rewrite serve_flight| | |by left].
    + intros id. rewrite serve_flight, F3. by setoid_rewrite serve_b_disk.
    + intros id. rewrite serve_used_q, elem_of_app, list_elem_of_singleton. simpl info_status. pose proof (idxs_lt s p j _ Hv (has_done _ _ _ Ep) (i0_in j)) as Hlt. intros Hid.
      destruct (decide (Z.to_nat id = j_i0 j)) as [->|Hne]; [apply list_lookup_insert_eq; by rewrite (l_status _ Hl)|]. rewrite list_lookup_insert_ne by done. apply F4. destruct Hid as [?| ->]; [done|].
      destruct Hne. unfold jid. lia.
  - split; [|done|done|done|]; setoid_rewrite serve_b_disk; done.
Qed.
End Serve.

(** ** Starting, and the clients *)

Lemma start_inv s p b x write : vinv s -> may_start p b s -> vbufs s !! b = Some x ->
  vinv (sets_procs (<[p := WaitDesc (Call b write (u32 (vb_blockno x * (BSIZE / 512))) (vb_data x) (dread (medium s) (vb_blockno x)))]> (vprocs s)) s) /\ p ∉ asleep s.
Proof.
  intros [Hl Hd [A1 A2] [F1 F2 F3 F4 F5] [H1 H2 H3 H4 H5]] (Ep & x0 & Ex0 & Hr & Hx) Ex. rewrite Ex in Ex0. injection Ex0 as <-. set (c := Call _ _ _ _ _). assert (p ∉ asleep s) as Hp.
  { intros [y Hy]%H2. congruence. }
  split; [|done]. set (s' := sets_procs _ s). assert (forall q y, vprocs s' !! q = Some y -> (p = q /\ WaitDesc c = y) \/ (p <> q /\ vprocs s !! q = Some y)) as Hlook by (intros q y; apply lookup_insert_Some).
  assert (forall q y, vprocs s !! q = Some y -> vprocs s' !! q = Some y) as Hold by (intros q y Ey; apply lookup_insert_Some; right; split; [intros ->|]; congruence). split; [done| | | |].
  - eapply descs_ext; [| | | | |exact Hd]; try done. intros q k. split; intros (y & Ey & Hk); [|by exists y; auto]. apply Hlook in Ey as [[<- <-]|[_ Ey]]; [done|by exists y].
  - split.
    + intros q r y z bx bz Hne Ey Ez Ebx. apply Hlook in Ey as [[<- <-]|[_ Ey]], Ez as [[<- <-]|[_ Ez]]; [done| | |by apply (A1 q r)].
      * simpl in Ebx |- *. rewrite Ex in Ebx. injection Ebx as <-. destruct (Hx r z Ez) as [G1 G2]. split; [done|]. intros Ez'. by apply not_eq_sym, G2.
      * simpl in *. destruct (Hx q y Ey) as [G1 G2]. split; [done|]. rewrite Ex. intros [= <-]. by apply G2.
    + intros q y [[<- <-]|[_ Ey]]%Hlook; [|by apply A2 in Ey]. exists x. split_and!; [done|apply Hr|apply Hr| |done]. simpl. change (BSIZE / 512) with 2. unfold u32. rewrite Z.mod_small by lia. lia.
  - split; [done|done| |done|done]. intros id. change (flight s') with (flight s). rewrite F3. split; intros (q & k & E & Hk); exists q, k; [by split; [apply Hold|]|]. apply Hlook in E as [[_ ?]|[_ E]]; done.
  - split.
    + intros q k [[_ ?]|[_ E]]%Hlook; [done|]. by apply H1.
    + intros q Hq. destruct (H2 q Hq) as [y Ey]. exists y. auto.
    + intros q Hq. destruct (H3 q Hq) as [k Ek]. exists k. auto.
    + intros q k Hq [[<- _]|[_ E]]%Hlook; [done|]. by apply (H4 q k).
    + intros q k Hq [[_ ?]|[_ E]]%Hlook; [done|]. by apply (H5 q k).
Qed.

Lemma client_inv s b x' : vinv s -> (forall q y, vprocs s !! q = Some y -> c_b (call_of y) <> b) -> vinv (sets_bufs (<[b := x']> (vbufs s)) s).
Proof.
  intros [Hl Hd [A1 A2] [F1 F2 F3 F4 F5] [H1 H2 H3 H4 H5]] Hb. set (s' := sets_bufs _ s).
  assert (forall q y, vprocs s !! q = Some y -> vbufs s' !! c_b (call_of y) = vbufs s !! c_b (call_of y)) as Hsame by (intros q y Ey; apply list_lookup_insert_ne, not_eq_sym; eauto).
  assert (forall q k, vprocs s !! q = Some (WaitDone k) \/ vprocs s !! q = Some (Filled k) -> b_disk s' (j_b k) = b_disk s (j_b k)) as Hdisk.
  { intros q k [E|E]; apply Hsame in E; unfold b_disk, j_b; simpl in E |- *; by rewrite E. }
  split; [done| | | |].
  - by eapply descs_ext; [| | | | |exact Hd].
  - split; [intros p q y z bx bz Hne Ey Ez; rewrite (Hsame p y Ey), (Hsame q z Ez); by apply (A1 p q)|]. intros q y Ey. rewrite (Hsame q y Ey). by apply (A2 q).
  - split; [done|done| |done|done]. intros id. change (flight s') with (flight s). rewrite F3. split; intros (q & k & E & Hk & Hid); exists q, k; (split_and!; [done| |done]); [rewrite (Hdisk q k)|rewrite (Hdisk q k) in Hk]; eauto.
  - split; [|done|done|done|].
    + intros q k E. rewrite (Hdisk q k) by eauto. by apply H1.
    + intros q k Hq E. rewrite (Hdisk q k) by eauto. by apply (H5 q k).
Qed.

Lemma lock_inv s l q : vinv s -> (forall p, vlock s <> Proc p) -> (forall p, l <> Proc p) -> (used_q s <> [] -> q = true \/ l = Intr) -> vinv (sets_irq q (sets_vlock l s)).
Proof.
  intros [Hl Hd [A1 A2] [F1 F2 F3 F4 F5] [H1 H2 H3 H4 H5]] Hs Hl' Hu. split; [done| |split; [exact A1|exact A2]|by split|].
  - by eapply descs_ext; [| | | | |exact Hd].
  - split; [|done| |done|done]; intros p; [intros k E; destruct (H1 p k E) as [E' _]; by destruct (Hs p)|]. intros E. by destruct (Hl' p).
Qed.

Lemma used_q_nil s : vinv s -> used_q s = [] <-> used_idx (vd s) = u_idx (vd s).
Proof.
  intros Hv. destruct (l_idx _ (i_len _ Hv)) as (_ & H1 & H2). pose proof (dist_empty 8 (2 ^ 16) ltac:(lia) ltac:(lia) _ _ H1 H2) as He.
  pose proof (q_range (u_idx (vd s)) (used_idx (vd s))). rewrite <- Z.eqb_eq, He, Z.eqb_eq. unfold used_q. split; [|by intros ->].
  intros E. apply (f_equal length) in E. rewrite length_window in E. simpl in E. lia.
Qed.

Lemma round_ok s : vinv s -> vlock s = Intr -> used_idx (vd s) <> u_idx (vd s) -> exists p j x, vprocs s !! p = Some (WaitDone j) /\ vbufs s !! j_b j = Some x /\
  jid j = u_ring (vd s) !!! Z.to_nat (used_idx (vd s) mod 8) /\ 0 < dist (2 ^ 16) (u_idx (vd s)) (used_idx (vd s)).
Proof.
  intros Hv Hlock Hne. assert (0 < dist (2 ^ 16) (u_idx (vd s)) (used_idx (vd s))) as Hd.
  { pose proof (q_range (u_idx (vd s)) (used_idx (vd s))). destruct (decide (dist (2 ^ 16) (u_idx (vd s)) (used_idx (vd s)) = 0)) as [E|]; [|lia]. destruct Hne. apply used_q_nil; [done|]. unfold used_q. by rewrite E. }
  set (id := u_ring (vd s) !!! Z.to_nat (used_idx (vd s) mod 8)). assert (id ∈ flight s) as Hid.
  { unfold flight, used_q. replace (Z.to_nat (dist (2 ^ 16) (u_idx (vd s)) (used_idx (vd s)))) with (S (Z.to_nat (dist (2 ^ 16) (u_idx (vd s)) (used_idx (vd s)) - 1))) by lia.
    rewrite (window_pop 8 (2 ^ 16)) by (by exists 8192). apply elem_of_app. right. left. }
  destruct (flight_job s id Hv Hid) as (p & j & Ep & Ej & _). destruct (a_data _ (i_datas _ Hv) p _ Ep) as (x & Ex & _). by exists p, j, x.
Qed.

Lemma serve_ok s id : vinv s -> id ∈ dev_busy s -> exists p j x, vprocs s !! p = Some (WaitDone j) /\ vbufs s !! j_b j = Some x /\ id = jid j.
Proof.
  intros Hv Hid. destruct (flight_job s id Hv) as (p & j & Ep & Ej & _); [unfold flight, pending; set_solver|]. destruct (a_data _ (i_datas _ Hv) p _ Ep) as (x & Ex & _). by exists p, j, x.
Qed.

(** The lock is taken only when it is free. *)
Lemma acquire_free {A} h (k : unit -> M vsys A) s : (exists a s', (vacquire h ≫= k) s = Ret a s') -> vlock s = Nobody /\ (vacquire h ≫= k) s = k tt (sets_vlock h s).
Proof. intros (a & s' & E). unfold mbind, M_bind, vacquire in *. destruct (vlock s); [done|done|done]. Qed.

Lemma retry_inv s p c : vinv s -> p ∉ asleep s -> vprocs s !! p = Some (WaitDesc c) -> vlock s = Nobody ->
  exists s', rw_retry p s = Ret tt s' /\ vinv s' /\ (exists y, vprocs s' = <[p := y]> (vprocs s) /\ call_of y = c) /\
    ((exists j, s' = filled p j (default (VBuf 0 [] false) (vbufs s !! j_b j)) (free (vd s')) (sets_vlock (Proc p) s)) \/ (nfree (free (vd s)) < 3)%nat).
Proof.
  intros Hv Hp Ep Hlock. destruct (rw_alloc_inv s p c Hlock Hp) as (s' & E & Hs).
  { rewrite insert_id by done. by destruct s. }
  exists s'. split; [|done]. unfold Virtio.rw_retry. erewrite bind_ret by reflexivity. rewrite Ep. erewrite bind_ret; [exact E|]. unfold vacquire. by rewrite Hlock.
Qed.

Lemma wake_inv s p j : vinv s -> vprocs s !! p = Some (WaitDone j) -> vlock s = Nobody -> exists s', rw_wake p s = Ret tt s' /\ vinv s' /\
  (if b_disk s (j_b j) then vprocs s' = <[p := WaitDone j]> (vprocs s) else vprocs s' = delete p (vprocs s)) /\ vbufs s' = vbufs s /\ medium s' = medium s.
Proof.
  intros Hv Ep Hlock. destruct (b_disk s (j_b j)) eqn:Hb.
  - destruct (a_data _ (i_datas _ Hv) p _ Ep) as (x & Ex & _). exists (sets_asleep ({[p]} ∪ asleep s) s). split_and!.
    + unfold rw_wake. erewrite bind_ret by reflexivity. rewrite Ep. erewrite bind_ret; [|unfold vacquire; rewrite Hlock; reflexivity]. unfold rw_wait. simpl in Ex. unfold b_disk, j_b in Hb. rewrite Ex in Hb. simpl in Hb.
      erewrite bind_ret; [|unfold arr_get; simpl; unfold j_b; rewrite Ex; reflexivity]. rewrite Hb. unfold set_proc, fall_asleep, vrelease, modify. do 2 erewrite bind_ret by reflexivity. simpl. f_equal.
      destruct s. simpl in *. subst. unfold sets_asleep, sets_vlock, sets_procs. simpl. by rewrite insert_id.
    + apply sleep_inv; [done|]. intros q [->%elem_of_singleton|Hq]%elem_of_union; [right; right; by exists j|by left].
    + simpl. by rewrite insert_id.
    + done.
    + done.
  - eexists. split; [by apply return_eq|]. split; [by apply return_inv|done].
Qed.

(** ** The invariant holds *)

Definition kept (s s' : vsys) : Prop := forall p y y', vprocs s !! p = Some y -> vprocs s' !! p = Some y' -> call_of y' = call_of y.

Lemma kept_insert s s' p x : vprocs s' = <[p := x]> (vprocs s) -> (forall y, vprocs s !! p = Some y -> call_of x = call_of y) -> kept s s'.
Proof. intros E Hx q y y' Ey. rewrite E. intros [[<- <-]|[_ Ey']]%lookup_insert_Some; [by apply Hx|congruence]. Qed.
Lemma kept_same s s' : vprocs s' = vprocs s -> kept s s'.
Proof. intros E q y y' Ey. rewrite E. congruence. Qed.

Lemma vrun_inv s s' : vinv s -> vrun s s' -> vinv s' /\ kept s s'.
Proof.
  intros Hv Hr. destruct Hr as [p c s' Hp Ep E|p j s' Ep E|p j s' Hp Ep E|s' Hi E|s' Hlock Hne E|s' Hlock He E|Hne|id s' Hid E].
  - unfold Virtio.rw_retry in E. erewrite bind_ret in E by reflexivity. rewrite Ep in E. destruct (acquire_free (Proc p) (fun _ => rw_alloc p c) s) as [Hlock _]; [by eexists _, _|].
    destruct (retry_inv s p c Hv Hp Ep Hlock) as (s2 & E2 & Hs & (y & Ey & Hc) & _). unfold Virtio.rw_retry in E2. erewrite bind_ret in E2 by reflexivity. rewrite Ep, E in E2. injection E2 as <-.
    split; [done|]. eapply kept_insert; [done|]. intros z Ez. rewrite Ep in Ez. injection Ez as <-. done.
  - rewrite (publish_eq s p j Hv Ep) in E. injection E as <-. split; [by apply publish_inv|]. eapply kept_insert; [done|]. intros z Ez. rewrite Ep in Ez. by injection Ez as <-.
  - pose proof E as E0. unfold rw_wake in E. erewrite bind_ret in E by reflexivity. rewrite Ep in E. destruct (acquire_free (Proc p) (fun _ => rw_wait p j) s) as [Hlock _]; [by eexists _, _|].
    destruct (wake_inv s p j Hv Ep Hlock) as (s2 & E2 & Hs & Hpr & _). rewrite E0 in E2. injection E2 as <-. split; [done|]. destruct (b_disk s (j_b j)).
    + eapply kept_insert; [done|]. intros z Ez. rewrite Ep in Ez. by injection Ez as <-.
    + intros q y y' Ey. rewrite Hpr. intros [_ Ey']%lookup_delete_Some. congruence.
  - unfold intr_begin in E. destruct (acquire_free Intr (fun _ => modify (sets_irq false)) s) as [Hlock E2]; [by eexists _, _|]. rewrite E2 in E. injection E as <-. split; [|by apply kept_same].
    apply lock_inv; [done|congruence|done|by right].
  - destruct (round_ok s Hv Hlock Hne) as (p & j & x & Ep & Ex & Hhd & Hd). rewrite (round_eq s p j x Hv Ep Ex Hhd Hd) in E. injection E as <-. split; [by eapply round_inv|by apply kept_same].
  - injection E as <-. split; [|by apply kept_same]. replace (sets_vlock Nobody s) with (sets_irq (irq s) (sets_vlock Nobody s)) by (by destruct s). apply lock_inv; [done|congruence|done|].
    intros Hu. by destruct Hu; apply used_q_nil.
  - split; [by apply take_inv|by apply kept_same].
  - destruct (serve_ok s id Hv Hid) as (p & j & x & Ep & Ex & ->). rewrite (serve_eq s p j x Hv Ep Hid Ex) in E. injection E as <-. split; [by eapply serve_inv|by apply kept_same].
Qed.

Lemma rw_start_inv s p b x write : vinv s -> may_start p b s -> vbufs s !! b = Some x -> vlock s = Nobody ->
  exists s', rw_start p b write s = Ret tt s' /\ vinv s' /\
    exists y, vprocs s' = <[p := y]> (vprocs s) /\ call_of y = Call b write (u32 (vb_blockno x * (BSIZE / 512))) (vb_data x) (dread (medium s) (vb_blockno x)).
Proof.
  intros Hv Hm Ex Hlock. destruct (start_inv s p b x write Hv Hm Ex) as [Hs Hp]. destruct (rw_alloc_inv s p _ Hlock Hp Hs) as (s' & E & Hs' & Hy & _). exists s'. split; [|done].
  unfold Virtio.rw_start. erewrite bind_ret; [|unfold arr_get; rewrite Ex; reflexivity]. erewrite bind_ret by reflexivity. erewrite bind_ret; [exact E|]. unfold vacquire. by rewrite Hlock.
Qed.

Lemma rw_start_free s p b x write s' : vbufs s !! b = Some x -> rw_start p b write s = Ret tt s' -> vlock s = Nobody.
Proof.
  intros Ex E. unfold Virtio.rw_start in E. erewrite bind_ret in E; [|unfold arr_get; rewrite Ex; reflexivity]. erewrite bind_ret in E by reflexivity. cbv zeta in E.
  by eapply acquire_free; eexists _, _.
Qed.

Lemma vstep_inv s s' : vinv s -> vstep s s' -> vinv s' /\ kept s s'.
Proof.
  intros Hv Hs. destruct Hs as [p b write s' Hm E|s' Hr|b x x' Ex Hb|p].
  - pose proof Hm as (Ep & x & Ex & _). destruct (rw_start_inv s p b x write Hv Hm Ex (rw_start_free _ _ _ _ _ _ Ex E)) as (s2 & E2 & Hs & y & Ey & _). rewrite E in E2. injection E2 as <-.
    split; [done|]. eapply kept_insert; [done|]. intros z Ez. congruence.
  - by apply vrun_inv.
  - split; [by apply client_inv|by apply kept_same].
  - split; [|by apply kept_same]. apply sleep_inv; [done|]. intros q Hq. left. set_solver.
Qed.

(** ** The system from its start *)

Definition vsys0 (bufs : list vbuf) (m : blocks) : vsys := VSys init_disk bufs Nobody ∅ ∅ 0 [] m false.

Lemma init_inv bufs m : vinv (vsys0 bufs m).
Proof.
  assert (forall p j, ~ has_job (vsys0 bufs m) p j) as Hj by (by intros p j (x & E & _)). assert (forall i, free init_disk !! i = Some false -> False) as Hf.
  { intros i Hi. by apply (lookup_replicate NUM) in Hi as [? _]. }
  split.
  - split; vm_compute; repeat split; discriminate || done.
  - split; intros; try (by edestruct Hj); by edestruct Hf.
  - split; done.
  - split; [done|constructor| |intros id H; by apply elem_of_nil in H|done]. intros id. split; [intros H; by apply elem_of_nil in H|by intros (p & j & E & _)].
  - split; done.
Qed.

Lemma vreach_inv bufs m s : rtc vstep (vsys0 bufs m) s -> vinv s.
Proof. intros Hr. pose proof (init_inv bufs m) as Hi. induction Hr as [|a b c Hab _ IH]; [done|]. apply IH. by apply (vstep_inv a b). Qed.

(** ** Completion *)

(** How many processes are as [P] says. *)
Definition count (P : vproc -> bool) (s : vsys) : nat := size (filter (fun kv => P kv.2 = true) (vprocs s)).
Definition is_filled (x : vproc) : bool := match x with Filled _ => true | _ => false end.

Lemma count_None (P : vproc -> bool) (m : gmap nat vproc) p x : m !! p = None ->
  size (filter (fun kv => P kv.2 = true) (<[p := x]> m)) = ((if P x then 1 else 0) + size (filter (fun kv => P kv.2 = true) m))%nat.
Proof.
  intros E. destruct (P x) eqn:Ex.
  - rewrite map_filter_insert_True by done. rewrite map_size_insert_None; [done|]. apply map_lookup_filter_None. by left.
  - rewrite map_filter_insert_False by (simpl; congruence). by rewrite delete_id.
Qed.
Lemma count_insert P s s' p x y : vprocs s !! p = Some y -> vprocs s' = <[p := x]> (vprocs s) ->
  (count P s' + (if P y then 1 else 0) = count P s + (if P x then 1 else 0))%nat.
Proof.
  intros Ey E. unfold count. rewrite E. rewrite <- (insert_delete_id (vprocs s) p y Ey) at 2. rewrite <- insert_delete_eq. rewrite !count_None by apply lookup_delete_eq. lia.
Qed.
Lemma count_delete P s s' p y : vprocs s !! p = Some y -> vprocs s' = delete p (vprocs s) -> (count P s' + (if P y then 1 else 0) = count P s)%nat.
Proof. intros Ey E. unfold count. rewrite E. rewrite <- (insert_delete_id (vprocs s) p y Ey) at 2. rewrite count_None by apply lookup_delete_eq. lia. Qed.

(** How far the calls under way are from their end. *)
Definition todo (s : vsys) : nat :=
  (5 * count waits_desc s + 4 * count is_filled s + 3 * length (avail_q s) + 2 * length (dev_busy s) + length (used_q s) + size (vprocs s))%nat.
Definition tell (s : vsys) : nat :=
  match used_q s, vlock s with [], Intr => 1 | [], _ => 0 | _, Intr => 0 | _, _ => 1 end.
Definition left (s : vsys) : nat := (2 * todo s + tell s)%nat.

Lemma tell_le s : (tell s <= 1)%nat.
Proof. unfold tell. destruct (used_q s), (vlock s); lia. Qed.
Lemma left_todo s s' : (todo s' < todo s)%nat -> (left s' < left s)%nat.
Proof. intros H. pose proof (tell_le s). pose proof (tell_le s'). unfold left. lia. Qed.

Lemma nfree_lt l : (nfree l < length l)%nat -> exists i, l !! i = Some false.
Proof.
  induction l as [|b l IH]; simpl; intros Hl; [lia|]. destruct b; [|by exists 0%nat]. destruct IH as [i Hi]; [lia|]. by exists (S i).
Qed.

Lemma avail_q_ext s s' : avail_ring (vd s') = avail_ring (vd s) -> avail_idx (vd s') = avail_idx (vd s) -> dev_last s' = dev_last s -> avail_q s' = avail_q s.
Proof. unfold avail_q. by intros -> -> ->. Qed.
Lemma used_q_ext s s' : u_ring (vd s') = u_ring (vd s) -> u_idx (vd s') = u_idx (vd s) -> used_idx (vd s') = used_idx (vd s) -> used_q s' = used_q s.
Proof. unfold used_q. by intros -> -> ->. Qed.

Lemma return_todo s p j : vinv s -> vlock s = Nobody -> vprocs s !! p = Some (WaitDone j) -> flight s = [] -> p ∉ asleep s -> exists s', vrun s s' /\ (left s' < left s)%nat.
Proof.
  intros Hv Hlock Ep Hfl Hp. assert (b_disk s (j_b j) = false) as Hb.
  { destruct (b_disk s (j_b j)) eqn:E; [|done]. assert (jid j ∈ flight s) as H by (apply (f_in _ (i_flights _ Hv)); by exists p, j). rewrite Hfl in H. by apply elem_of_nil in H. }
  eexists. split; [eapply (v_wake s p j); [done|done|by apply return_eq]|]. apply left_todo. unfold todo.
  match goal with |- context [count _ ?s1] => set (s2 := s1) end.
  pose proof (count_delete waits_desc s s2 p _ Ep eq_refl) as H1. pose proof (count_delete is_filled s s2 p _ Ep eq_refl) as H2. simpl in H1, H2.
  rewrite (avail_q_ext s s2), (used_q_ext s s2) by reflexivity. assert (vprocs s2 = delete p (vprocs s)) as -> by reflexivity. assert (dev_busy s2 = dev_busy s) as -> by reflexivity.
  rewrite map_size_delete_Some by by eexists. pose proof (map_size_ne_0_lookup_2 (vprocs s) p ltac:(by eexists)). lia.
Qed.

Lemma publish_todo s p j : vinv s -> vprocs s !! p = Some (Filled j) -> exists s', vrun s s' /\ (left s' < left s)%nat.
Proof.
  intros Hv Ep. eexists. split; [eapply (v_publish s p j); [done|by apply publish_eq]|]. apply left_todo. unfold todo. rewrite publish_avail_q by done.
  match goal with |- context [count _ ?s1] => set (s2 := s1) end.
  pose proof (count_insert waits_desc s s2 p _ _ Ep eq_refl) as H1. pose proof (count_insert is_filled s s2 p _ _ Ep eq_refl) as H2. simpl in H1, H2.
  rewrite (used_q_ext s s2) by reflexivity. assert (vprocs s2 = <[p := WaitDone j]> (vprocs s)) as -> by reflexivity. assert (dev_busy s2 = dev_busy s) as -> by reflexivity.
  rewrite map_size_insert_Some by by eexists. rewrite length_app. simpl. lia.
Qed.

Lemma retry_todo s p c : vinv s -> vprocs s !! p = Some (WaitDesc c) -> vlock s = Nobody -> p ∉ asleep s -> ~ (nfree (free (vd s)) < 3)%nat -> exists s', vrun s s' /\ (left s' < left s)%nat.
Proof.
  intros Hv Ep Hlock Hp Hn. destruct (retry_inv s p c Hv Hp Ep Hlock) as (s' & E & _ & _ & [(j & Es)|?]); [|done]. exists s'. split; [by eapply v_retry|]. apply left_todo. unfold todo.
  assert (vprocs s' = <[p := Filled j]> (vprocs s)) as Epr by (rewrite Es; reflexivity).
  pose proof (count_insert waits_desc s s' p _ _ Ep Epr) as H1. pose proof (count_insert is_filled s s' p _ _ Ep Epr) as H2. simpl in H1, H2.
  rewrite Epr, map_size_insert_Some by by eexists. rewrite (used_q_ext s s') by (rewrite Es; reflexivity). assert (dev_busy s' = dev_busy s) as -> by (rewrite Es; reflexivity).
  assert (length (avail_q s') = length (avail_q s)) as -> by (unfold avail_q; rewrite !length_window, Es; reflexivity). lia.
Qed.

Lemma same_procs_todo s s' : vprocs s' = vprocs s ->
  todo s' = (5 * count waits_desc s + 4 * count is_filled s + 3 * length (avail_q s') + 2 * length (dev_busy s') + length (used_q s') + size (vprocs s))%nat.
Proof. intros E. unfold todo, count. by rewrite E. Qed.

Lemma round_todo s : vinv s -> vlock s = Intr -> used_idx (vd s) <> u_idx (vd s) -> exists s', vrun s s' /\ (left s' < left s)%nat.
Proof.
  intros Hv Hlock Hne. destruct (round_ok s Hv Hlock Hne) as (p & j & x & Ep & Ex & Hhd & Hd). eexists. split; [eapply v_round; [done|done|by eapply (round_eq s p j x)]|].
  match goal with |- (left ?s1 < _)%nat => set (s2 := s1) end. apply left_todo. rewrite (same_procs_todo s s2) by reflexivity. unfold todo.
  assert (used_q s = jid j :: used_q s2) as -> by (by eapply round_used_q). rewrite (avail_q_ext s s2) by reflexivity. assert (dev_busy s2 = dev_busy s) as -> by reflexivity. cbn [length]. lia.
Qed.

Lemma take_todo s : vinv s -> dev_last s <> avail_idx (vd s) -> exists s', vrun s s' /\ (left s' < left s)%nat.
Proof.
  intros Hv Hne. exists (dev_take s). split; [by apply v_take|]. apply left_todo. rewrite (same_procs_todo s (dev_take s)) by reflexivity. unfold todo.
  destruct (take_inv s Hv Hne) as [Eq _]. rewrite (used_q_ext s (dev_take s)) by reflexivity. rewrite Eq. simpl dev_busy. rewrite length_app. simpl. lia.
Qed.

Lemma serve_todo s id : vinv s -> id ∈ dev_busy s -> exists s', vrun s s' /\ (left s' < left s)%nat.
Proof.
  intros Hv Hid. destruct (serve_ok s id Hv Hid) as (p & j & x & Ep & Ex & ->). eexists. split; [eapply v_serve; [done|by eapply (serve_eq s p j x)]|].
  match goal with |- (left ?s1 < _)%nat => set (s2 := s1) end. apply left_todo. rewrite (same_procs_todo s s2) by reflexivity. unfold todo.
  assert (used_q s2 = used_q s ++ [jid j]) as -> by (by eapply serve_used_q). assert (dev_busy s ≡ₚ jid j :: dev_busy s2) as Hb%Permutation_length by (by eapply serve_busy).
  rewrite (avail_q_ext s s2) by reflexivity. rewrite length_app. cbn [length] in *. lia.
Qed.

Lemma tell_lt s s' : vprocs s' = vprocs s -> dev_busy s' = dev_busy s -> avail_q s' = avail_q s -> used_q s' = used_q s -> (tell s' < tell s)%nat -> (left s' < left s)%nat.
Proof. intros E1 E2 E3 E4 Ht. unfold left. rewrite (same_procs_todo s s' E1). rewrite E2, E3, E4. unfold todo. lia. Qed.

(** As long as a call is under way, a step brings the calls nearer to their end. *)
Lemma progress s : vinv s -> vprocs s <> ∅ -> exists s', vrun s s' /\ (left s' < left s)%nat.
Proof.
  intros Hv Hne. destruct (vlock s) as [|p|] eqn:Hlock.
  - destruct (used_q s) as [|u U] eqn:EU.
    + destruct (dev_busy s) as [|id B] eqn:EB; [|apply (serve_todo s id Hv); rewrite EB; left].
      destruct (decide (dev_last s = avail_idx (vd s))) as [Hl|Hl]; [|by apply take_todo].
      assert (flight s = []) as Hfl by (unfold flight, pending, avail_q; rewrite EU, EB, Hl; unfold dist; by rewrite Z.sub_diag).
      assert (forall p j, vprocs s !! p = Some (WaitDone j) -> exists s', vrun s s' /\ (left s' < left s)%nat) as Hdone.
      { intros p j Ep. apply (return_todo s p j Hv Hlock Ep Hfl). intros Hp. pose proof (w_done _ (i_waits _ Hv) p j Hp Ep) as Hb.
        assert (jid j ∈ flight s) as H by (apply (f_in _ (i_flights _ Hv)); by exists p, j). rewrite Hfl in H. by apply elem_of_nil in H. }
      apply map_choose in Hne as (p & [c|j|j] & Ep); [|by destruct (w_filled _ (i_waits _ Hv) p j Ep) as [? _]; congruence|by eapply Hdone].
      destruct (decide (nfree (free (vd s)) < 3)%nat) as [Hn|Hn].
      * destruct (nfree_lt (free (vd s))) as [i Hi]; [rewrite (l_free _ (i_len _ Hv)); unfold NUM; lia|]. destruct (d_used _ (i_descs _ Hv) i Hi) as (q & k & (y & Ey & Hk) & _).
        destruct y as [|k'|k']; [done| |by eapply Hdone]. destruct (w_filled _ (i_waits _ Hv) q k' Ey) as [? _]. congruence.
      * eapply (retry_todo s p c); try done. intros Hp. by apply Hn, (w_desc _ (i_waits _ Hv) p c).
    + destruct (f_irq _ (i_flights _ Hv)) as [Hi|?]; [by rewrite EU| |congruence]. exists (sets_irq false (sets_vlock Intr s)).
      split; [apply v_intr; [done|]; unfold intr_begin; erewrite bind_ret; [reflexivity|]; unfold vacquire; by rewrite Hlock|].
      apply tell_lt; [done|done|by apply avail_q_ext|by apply used_q_ext|]. unfold tell. rewrite (used_q_ext s) by reflexivity. rewrite EU, Hlock. simpl. lia.
  - destruct (w_lock _ (i_waits _ Hv) p Hlock) as [j Ep]. by eapply publish_todo.
  - destruct (decide (used_idx (vd s) = u_idx (vd s))) as [He|Hd]; [|by apply round_todo]. exists (sets_vlock Nobody s). split; [by apply v_iret|].
    apply tell_lt; [done|done|by apply avail_q_ext|by apply used_q_ext|]. unfold tell. rewrite (used_q_ext s) by reflexivity. rewrite (proj2 (used_q_nil s Hv) He), Hlock. simpl. lia.
Qed.

Lemma completes s : vinv s -> exists s', rtc vrun s s' /\ vprocs s' = ∅ /\ vinv s'.
Proof.
  remember (left s) as n eqn:En. revert s En. induction (lt_wf n) as [n _ IH]. intros s -> Hv. destruct (decide (vprocs s = ∅)) as [E|Hne]; [exists s; split_and!; [constructor|done|done]|].
  destruct (progress s Hv Hne) as (s1 & Hr & Hlt). destruct (IH _ Hlt s1 eq_refl) as (s' & Hrr & Hs'); [by apply (vrun_inv s)|]. exists s'. split; [by eapply rtc_l|done].
Qed.
End System.

(** ** The theorems *)

(** An operation returns, or waits for the lock. *)
Definition safe (o : outcome vsys unit) : Prop := match o with Ret _ _ | Blocked _ _ => True | _ => False end.

Lemma acquire_safe {A} h (k : unit -> M vsys A) s : vlock s <> Nobody -> exists msg, (vacquire h ≫= k) s = Blocked msg s.
Proof. intros Hl. unfold mbind, M_bind, vacquire. destruct (vlock s); [done|by eexists..]. Qed.

Section Safe.
Variable base : Z.
Variable data_addr : nat -> Z.
Hypothesis data_inj : forall i j, data_addr i = data_addr j -> i = j.
Variable s : vsys.
Hypothesis Hv : vinv base data_addr s.

Lemma start_safe p b write : may_start p b s -> safe (rw_start base data_addr p b write s).
Proof.
  intros Hm. pose proof Hm as (_ & x & Ex & _). destruct (decide (vlock s = Nobody)) as [Hl|Hl].
  - by destruct (rw_start_inv base data_addr data_inj s p b x write Hv Hm Ex Hl) as (s' & -> & _).
  - unfold rw_start. erewrite bind_ret; [|unfold arr_get; rewrite Ex; reflexivity]. erewrite bind_ret by reflexivity. cbv zeta.
    by destruct (acquire_safe (Proc p) (fun _ => rw_alloc base data_addr p (Call b write (u32 (vb_blockno x * (BSIZE / 512))) (vb_data x) (dread (medium s) (vb_blockno x)))) s Hl) as [msg ->].
Qed.

Lemma retry_safe p c : vprocs s !! p = Some (WaitDesc c) -> p ∉ asleep s -> safe (rw_retry base data_addr p s).
Proof.
  intros Ep Hp. destruct (decide (vlock s = Nobody)) as [Hl|Hl]; [by destruct (retry_inv base data_addr data_inj s p c Hv Hp Ep Hl) as (s' & -> & _)|].
  unfold rw_retry. erewrite bind_ret by reflexivity. rewrite Ep. by destruct (acquire_safe (Proc p) (fun _ => rw_alloc base data_addr p c) s Hl) as [msg ->].
Qed.

Lemma wake_safe p j : vprocs s !! p = Some (WaitDone j) -> safe (rw_wake p s).
Proof.
  intros Ep. destruct (decide (vlock s = Nobody)) as [Hl|Hl]; [by destruct (wake_inv base data_addr s p j Hv Ep Hl) as (s' & -> & _)|].
  unfold rw_wake. erewrite bind_ret by reflexivity. rewrite Ep. by destruct (acquire_safe (Proc p) (fun _ => rw_wait p j) s Hl) as [msg ->].
Qed.

Lemma serve_writes id : id ∈ dev_busy s -> exists s' p j x, dev_serve base data_addr id s = Some s' /\
  vprocs s !! p = Some (WaitDone j) /\ id = jid j /\ vbufs s !! j_b j = Some x /\
  forall n, dread (medium s') n = if decide (c_write (j_call j) = true /\ n = vb_blockno x) then c_data (j_call j) else dread (medium s) n.
Proof.
  intros Hid. destruct (serve_ok base data_addr data_inj s id Hv Hid) as (p & j & x & Ep & Ex & ->). eexists _, p, j, x. split; [by eapply (serve_eq base data_addr data_inj s p j x)|]. split_and!; [done|done|done|].
  intros n. simpl. destruct (c_write (j_call j)) eqn:Ew; [rewrite dread_insert|by rewrite decide_False by naive_solver]. repeat case_decide; naive_solver.
Qed.
End Safe.

(** A step with process [p] inside its call. *)
Definition inside (base : Z) (data_addr : nat -> Z) (p : nat) (s s' : vsys) : Prop := vstep base data_addr s s' /\ is_Some (vprocs s' !! p).

(** A run: process 7 writes buffer 0 to block 5. *)
Definition run_of (m : M vsys unit) (s : vsys) : vsys := match m s with Ret _ s' => s' | _ => s end.
Definition ex_addr (i : nat) : Z := 65536 + 1024 * Z.of_nat i.
Definition ex_s0 : vsys := vsys0 [VBuf 5 [42] false] ∅.
Definition ex_s1 : vsys := run_of (rw_start 4096 ex_addr 7 0 true) ex_s0.
Definition ex_s2 : vsys := run_of (rw_publish 7) ex_s1.
Definition ex_s3 : vsys := dev_take ex_s2.
Definition ex_s4 : vsys := default ex_s3 (dev_serve 4096 ex_addr 0 ex_s3).
Definition ex_s5 : vsys := run_of intr_begin ex_s4.
Definition ex_s6 : vsys := run_of intr_round ex_s5.
Definition ex_s7 : vsys := run_of intr_end ex_s6.
Definition ex_s8 : vsys := run_of (rw_wake 7) ex_s7.

Lemma ex_inj i j : ex_addr i = ex_addr j -> i = j.
Proof. unfold ex_addr. lia. Qed.
Lemma ex_may : may_start 7 0 ex_s0.
Proof. split; [done|]. exists (VBuf 5 [42] false). split; [done|]. split; [vm_compute; split; discriminate || done|]. intros q y E. done. Qed.
Definition ex_job : job := Job (Call 0 true 10 [42] (dread ∅ 5)) 0 1 2.

Lemma ex_run s s' : vrun 4096 ex_addr s s' -> is_Some (vprocs s' !! 7%nat) -> inside 4096 ex_addr 7 s s'.
Proof. split; [by apply v_run|done]. Qed.
Lemma ex_inside : rtc (inside 4096 ex_addr 7) ex_s1 ex_s7.
Proof.
  assert (forall s, bool_decide (is_Some (vprocs s !! 7%nat)) = true -> is_Some (vprocs s !! 7%nat)) as Hd by (intros s; apply bool_decide_eq_true_1).
  eapply rtc_l; [apply ex_run; [apply (v_publish _ _ ex_s1 7 ex_job ex_s2); vm_compute; reflexivity|apply Hd; vm_compute; reflexivity]|].
  eapply rtc_l; [apply ex_run; [apply (v_take _ _ ex_s2); vm_compute; discriminate|apply Hd; vm_compute; reflexivity]|]. change (dev_take ex_s2) with ex_s3.
  eapply rtc_l; [apply ex_run; [apply (v_serve _ _ ex_s3 0 ex_s4); [left|vm_compute; reflexivity]|apply Hd; vm_compute; reflexivity]|].
  eapply rtc_l; [apply ex_run; [apply (v_intr _ _ ex_s4 ex_s5); vm_compute; reflexivity|apply Hd; vm_compute; reflexivity]|].
  eapply rtc_l; [apply ex_run; [apply (v_round _ _ ex_s5 ex_s6); vm_compute; discriminate || reflexivity|apply Hd; vm_compute; reflexivity]|].
  eapply rtc_l; [apply ex_run; [apply (v_iret _ _ ex_s6 ex_s7); vm_compute; reflexivity|apply Hd; vm_compute; reflexivity]|]. constructor.
Qed.
Lemma ex_reach : rtc (vstep 4096 ex_addr) ex_s0 ex_s7.
Proof.
  eapply rtc_l; [apply (v_start _ _ ex_s0 7 0 true ex_s1); [apply ex_may|vm_compute; reflexivity]|].
  pose proof ex_inside as H. induction H as [|a b c [Hab _] _ IH]; [constructor|by eapply rtc_l].
Qed.

(** C13: whatever calls, interrupts, kills and device steps have interleaved, the device
    can serve every request it has taken and changes nothing of the medium but the
    block of a write call that waits for it; no operation of the driver panics, indexes
    out of its tables or loops; and a process is asleep for descriptors only when less
    than three are free, and for its request only when that is not done. *)
Theorem virtio_safe (base : Z) (data_addr : nat -> Z) (Hinj : forall i j, data_addr i = data_addr j -> i = j)
    (bufs : list vbuf) (m : blocks) (s : vsys) (Hr : rtc (vstep base data_addr) (vsys0 bufs m) s) :
  (forall id, id ∈ dev_busy s -> exists s' p j x, dev_serve base data_addr id s = Some s' /\
     vprocs s !! p = Some (WaitDone j) /\ id = jid j /\ vbufs s !! j_b j = Some x /\
     forall n, dread (medium s') n = if decide (c_write (j_call j) = true /\ n = vb_blockno x) then c_data (j_call j) else dread (medium s) n) /\
  (forall p b write, may_start p b s -> safe (rw_start base data_addr p b write s)) /\
  (forall p c, vprocs s !! p = Some (WaitDesc c) -> p ∉ asleep s -> safe (rw_retry base data_addr p s)) /\
  (forall p j, vprocs s !! p = Some (Filled j) -> safe (rw_publish p s)) /\
  (forall p j, vprocs s !! p = Some (WaitDone j) -> safe (rw_wake p s)) /\
  safe (intr_begin s) /\
  (vlock s = Intr -> used_idx (vd s) <> u_idx (vd s) -> safe (intr_round s)) /\
  (forall p, p ∈ asleep s -> (forall c, vprocs s !! p = Some (WaitDesc c) -> (nfree (free (vd s)) < 3)%nat) /\
     (forall j, vprocs s !! p = Some (WaitDone j) -> b_disk s (j_b j) = true)).
Proof.
  pose proof (vreach_inv base data_addr Hinj bufs m s Hr) as Hv. split_and!.
  - by apply serve_writes.
  - by apply start_safe.
  - by apply retry_safe.
  - intros p j Ep. by rewrite (publish_eq base data_addr s p j Hv Ep).
  - by eapply wake_safe.
  - unfold intr_begin. destruct (decide (vlock s = Nobody)) as [Hl|Hl]; [|by destruct (acquire_safe Intr (fun _ => modify (sets_irq false)) s Hl) as [msg ->]].
    erewrite bind_ret; [done|]. unfold vacquire. by rewrite Hl.
  - intros Hl Hne. destruct (round_ok base data_addr s Hv Hl Hne) as (p & j & x & Ep & Ex & Hhd & Hd). by rewrite (round_eq base data_addr s p j x Hv Ep Ex Hhd Hd).
  - intros p Hp. split; [intros c; by apply (w_desc _ (i_waits _ _ _ Hv))|intros j; by apply (w_done _ (i_waits _ _ _ Hv))].
Qed.

Lemma virtio_safe_witness : (nfree (free (vd ex_s7)) = 5)%nat /\ safe (rw_wake 7 ex_s7).
Proof. split; [vm_compute; reflexivity|]. 
  destruct (virtio_safe 4096 ex_addr ex_inj _ _ ex_s7 ex_reach) as (_ & _ & _ & _ & Hw & _). apply (Hw 7%nat ex_job). vm_compute. reflexivity.
Defined.

Lemma inside_call base data_addr (Hinj : forall i j, data_addr i = data_addr j -> i = j) p s s' y : rtc (inside base data_addr p) s s' -> vinv base data_addr s -> vprocs s !! p = Some y ->
  vinv base data_addr s' /\ exists y', vprocs s' !! p = Some y' /\ call_of y' = call_of y.
Proof.
  intros Hr. revert y. induction Hr as [s|s s1 s2 [Hs [y1 Hy1]] _ IH]; intros y Hv Ey; [by eauto|]. destruct (vstep_inv base data_addr Hinj s s1 Hv Hs) as [Hv1 Hk].
  destruct (IH y1 Hv1 Hy1) as (Hv2 & y2 & Ey2 & Ec). split; [done|]. exists y2. split; [done|]. rewrite Ec. by eapply Hk.
Qed.

(** C12: a call of [virtio_disk_rw] that returns, after any interleaving with others, has
    made its transfer: the buffer is for the same block and the buffer and the block on
    the medium hold what the buffer held at the call if it is a write, and what the
    block held at the call if it is a read. *)
Theorem virtio_transfers (base : Z) (data_addr : nat -> Z) (Hinj : forall i j, data_addr i = data_addr j -> i = j)
    (bufs : list vbuf) (m : blocks) (s0 s1 s2 s3 : vsys) (p b : nat) (write : bool) (x : vbuf)
    (Hr : rtc (vstep base data_addr) (vsys0 bufs m) s0) (Hm : may_start p b s0) (Hx : vbufs s0 !! b = Some x)
    (H1 : rw_start base data_addr p b write s0 = Ret tt s1)
    (H2 : rtc (inside base data_addr p) s1 s2)
    (H3 : rw_wake p s2 = Ret tt s3) (H4 : vprocs s3 !! p = None) :
  exists x', vbufs s3 !! b = Some x' /\ vb_blockno x' = vb_blockno x /\
    vb_data x' = (if write then vb_data x else dread (medium s0) (vb_blockno x)) /\
    dread (medium s3) (vb_blockno x) = (if write then vb_data x else dread (medium s0) (vb_blockno x)).
Proof.
  pose proof (vreach_inv base data_addr Hinj bufs m s0 Hr) as Hv. pose proof (rw_start_free _ _ _ _ _ _ _ _ Hx H1) as Hl.
  destruct (rw_start_inv base data_addr Hinj s0 p b x write Hv Hm Hx Hl) as (s1' & E1 & Hv1 & y & Ey & Ec). rewrite H1 in E1. injection E1 as <-.
  destruct (inside_call base data_addr Hinj p s1 s2 y H2 Hv1) as (Hv2 & y2 & Ey2 & Ec2); [by rewrite Ey, lookup_insert_eq|]. rewrite Ec in Ec2. pose proof H3 as E3. unfold rw_wake in E3. erewrite bind_ret in E3 by reflexivity. rewrite Ey2 in E3.
  destruct y2 as [|j|j]; [done|done|]. destruct (acquire_free (Proc p) (fun _ => rw_wait p j) s2) as [Hl2 _]; [by eexists _, _|].
  destruct (wake_inv base data_addr s2 p j Hv2 Ey2 Hl2) as (s3' & E3' & _ & Hp & Eb & Em). rewrite H3 in E3'. injection E3' as <-. rewrite Eb, Em. destruct (b_disk s2 (j_b j)) eqn:Hb; [by rewrite Hp, lookup_insert_eq in H4|].
  destruct (a_data _ (i_datas _ _ _ Hv2) p _ Ey2) as (x2 & Ex2 & Hrg & Hsec & Hmv). simpl in Ec2. simpl in Ex2, Hsec, Hmv. rewrite Ec2 in Ex2, Hsec, Hmv. simpl in Ex2, Hsec.
  destruct Hm as (_ & x0 & Ex0 & Hrx & _). rewrite Hx in Ex0. injection Ex0 as <-. assert (vb_blockno x2 = vb_blockno x) as En.
  { change (BSIZE / 512) with 2 in Hsec. unfold u32 in Hsec. rewrite Z.mod_small in Hsec by lia. lia. }
  rewrite bool_decide_eq_true_2 in Hmv.
  - destruct Hmv as [Hd Hblk]. rewrite En in Hblk. exists x2. split_and!; [done|done|done|done].
  - intros Hin. pose proof (not_done_flight base data_addr s2 p j Hv2 (has_done _ _ _ Ey2)) as Hnf. apply Hnf; [intros k Ek; rewrite Ey2 in Ek; by injection Ek as <-|]. unfold flight. set_solver.
Qed.

Lemma virtio_transfers_witness : exists x', vbufs ex_s8 !! 0%nat = Some x' /\ dread (medium ex_s8) 5 = [42].
Proof.
  destruct (virtio_transfers 4096 ex_addr ex_inj [VBuf 5 [42] false] ∅ ex_s0 ex_s1 ex_s7 ex_s8 7 0 true (VBuf 5 [42] false)) as (x' & E & _ & _ & Hm);
    [constructor|apply ex_may|reflexivity|vm_compute; reflexivity|apply ex_inside|vm_compute; reflexivity|vm_compute; reflexivity|]. exists x'. split; [exact E|exact Hm].
Defined.

(** C14: from every state the system can reach, the calls under way can all return
    without any new call: no deadlock between processes, interrupt handler and device,
    and no wake-up is lost. *)
Theorem virtio_completes (base : Z) (data_addr : nat -> Z) (Hinj : forall i j, data_addr i = data_addr j -> i = j)
    (bufs : list vbuf) (m : blocks) (s : vsys) (Hr : rtc (vstep base data_addr) (vsys0 bufs m) s) :
  exists s', rtc (vrun base data_addr) s s' /\ vprocs s' = ∅ /\ flight s' = [] /\ forall i, (i < NUM)%nat -> free (vd s') !! i = Some true.
Proof.
  destruct (completes base data_addr Hinj s (vreach_inv base data_addr Hinj bufs m s Hr)) as (s' & Hrr & E & Hv). exists s'. split_and!; [done|done| |].
  - destruct (flight s') as [|id l] eqn:Ef; [done|]. destruct (flight_job base data_addr s' id Hv) as (p & j & Ep & _); [rewrite Ef; left|]. by rewrite E in Ep.
  - intros i Hi. destruct (free (vd s') !! i) as [[]|] eqn:Ei; [done| |apply lookup_ge_None in Ei; rewrite (l_free _ (i_len _ _ _ Hv)) in Ei; lia].
    destruct (d_used _ _ _ (i_descs _ _ _ Hv) i Ei) as (p & j & (y & Ey & _) & _). by rewrite E in Ey.
Qed.

Lemma virtio_completes_witness : exists s', rtc (vrun 4096 ex_addr) ex_s7 s' /\ vprocs s' = ∅.
Proof. destruct (virtio_completes 4096 ex_addr ex_inj _ _ ex_s7 ex_reach) as (s' & Hr & E & _). exists s'. split; [exact Hr|exact E]. Defined.
