(* ===== verification/VirtioInit.v ===== *)
(** * VirtioInit: [virtio_disk_init] of [kernel/virtio_disk.c]

    The registers of the device are a function [reg] of the writes made so far; the
    three pages come from the allocator of [Kalloc].  On a device that identifies
    itself, accepts the features and has a queue of at least [NUM] entries, the routine
    leaves the queue of [Virtio]'s initial state in three zeroed pages whose addresses
    the device has been told. *)

From S2P Require Import Prelude CString Riscv Kalloc Vm Virtio.
Import KString.

Definition VIRTIO_MMIO_MAGIC_VALUE : Z := 0.
Definition VIRTIO_MMIO_VERSION : Z := 4.
Definition VIRTIO_MMIO_DEVICE_ID : Z := 8.
Definition VIRTIO_MMIO_VENDOR_ID : Z := 12.
Definition VIRTIO_MMIO_DEVICE_FEATURES : Z := 16.
Definition VIRTIO_MMIO_DRIVER_FEATURES : Z := 32.
Definition VIRTIO_MMIO_QUEUE_SEL : Z := 48.
Definition VIRTIO_MMIO_QUEUE_NUM_MAX : Z := 52.
Definition VIRTIO_MMIO_QUEUE_NUM : Z := 56.
Definition VIRTIO_MMIO_QUEUE_READY : Z := 68.
Definition VIRTIO_MMIO_STATUS : Z := 112.
Definition VIRTIO_MMIO_QUEUE_DESC_LOW : Z := 128.
Definition VIRTIO_MMIO_QUEUE_DESC_HIGH : Z := 132.
Definition VIRTIO_MMIO_DRIVER_DESC_LOW : Z := 144.
Definition VIRTIO_MMIO_DRIVER_DESC_HIGH : Z := 148.
Definition VIRTIO_MMIO_DEVICE_DESC_LOW : Z := 160.
Definition VIRTIO_MMIO_DEVICE_DESC_HIGH : Z := 164.
Definition VIRTIO_CONFIG_S_ACKNOWLEDGE : Z := 1.
Definition VIRTIO_CONFIG_S_DRIVER : Z := 2.
Definition VIRTIO_CONFIG_S_DRIVER_OK : Z := 4.
Definition VIRTIO_CONFIG_S_FEATURES_OK : Z := 8.
(** The features the driver turns down: read-only, SCSI, write-back configuration,
    multi-queue, any layout, event index, indirect descriptors. *)
Definition refused : list Z := [5; 7; 11; 12; 27; 29; 28].

(** The driver while it starts: the allocator, the register writes in order, the
    pointers to the three pages, [free] and the lock. *)
Record vboot := VBoot { vk : kmem; wrote : list (Z * Z); q_desc : Z; q_avail : Z; q_used : Z; q_free : list bool; q_lock : spin }.
Definition setb_wrote v s := VBoot (vk s) v (q_desc s) (q_avail s) (q_used s) (q_free s) (q_lock s).
Definition setb_desc v s := VBoot (vk s) (wrote s) v (q_avail s) (q_used s) (q_free s) (q_lock s).
Definition setb_avail v s := VBoot (vk s) (wrote s) (q_desc s) v (q_used s) (q_free s) (q_lock s).
Definition setb_used v s := VBoot (vk s) (wrote s) (q_desc s) (q_avail s) v (q_free s) (q_lock s).
Definition setb_free v s := VBoot (vk s) (wrote s) (q_desc s) (q_avail s) (q_used s) v (q_lock s).
Definition setb_lock v s := VBoot (vk s) (wrote s) (q_desc s) (q_avail s) (q_used s) (q_free s) v.
Definition vkL : lens vboot kmem := Lens vk (fun k s => VBoot k (wrote s) (q_desc s) (q_avail s) (q_used s) (q_free s) (q_lock s)).

Section Init.
Variable reg : list (Z * Z) -> Z -> Z.

(** [*R(r)] and [*R(r) = v] *)
Definition rdR (r : Z) : M vboot Z := gets (fun s => u32 (reg (wrote s) r)).
Definition wrR (r v : Z) : M vboot unit := modify (fun s => setb_wrote (wrote s ++ [(r, u32 v)]) s).

Definition clear (features b : Z) : Z := Z.ldiff features (Z.shiftl 1 b).

(** The magic number, the version, the device and the vendor, as far as they are read. *)
Definition find_disk : M vboot bool :=
  magic ← rdR VIRTIO_MMIO_MAGIC_VALUE; if negb (magic =? 0x74726976) then mret false else
  version ← rdR VIRTIO_MMIO_VERSION; if negb (version =? 2) then mret false else
  dev ← rdR VIRTIO_MMIO_DEVICE_ID; if negb (dev =? 2) then mret false else
  vendor ← rdR VIRTIO_MMIO_VENDOR_ID; mret (vendor =? 0x554d4551).

(** From the reset to the agreed features; the status read back. *)
Definition negotiate : M vboot Z :=
  let status := 0 in
  wrR VIRTIO_MMIO_STATUS status;;
  let status := Z.lor status VIRTIO_CONFIG_S_ACKNOWLEDGE in
  wrR VIRTIO_MMIO_STATUS status;;
  let status := Z.lor status VIRTIO_CONFIG_S_DRIVER in
  wrR VIRTIO_MMIO_STATUS status;;
  features ← rdR VIRTIO_MMIO_DEVICE_FEATURES;
  wrR VIRTIO_MMIO_DRIVER_FEATURES (foldl clear features refused);;
  let status := Z.lor status VIRTIO_CONFIG_S_FEATURES_OK in
  wrR VIRTIO_MMIO_STATUS status;;
  rdR VIRTIO_MMIO_STATUS.

(** The three pages: [desc], [avail] and [used], cleared. *)
Definition queue_pages : M vboot unit :=
  a ← zoom vkL kalloc; modify (setb_desc a);;
  a ← zoom vkL kalloc; modify (setb_avail a);;
  a ← zoom vkL kalloc; modify (setb_used a);;
  s ← gets id;
  if (q_desc s =? 0) || (q_avail s =? 0) || (q_used s =? 0) then panic "virtio disk kalloc" else
  zoom vkL (do_mem (fun m => memset m (q_desc s) 0 PGSIZE));;
  zoom vkL (do_mem (fun m => memset m (q_avail s) 0 PGSIZE));;
  zoom vkL (do_mem (fun m => memset m (q_used s) 0 PGSIZE)).

(** The size and the addresses of the queue, and that it is ready. *)
Definition tell_queue : M vboot unit :=
  s ← gets id;
  wrR VIRTIO_MMIO_QUEUE_NUM (Z.of_nat NUM);;
  wrR VIRTIO_MMIO_QUEUE_DESC_LOW (q_desc s);;
  wrR VIRTIO_MMIO_QUEUE_DESC_HIGH (Z.shiftr (q_desc s) 32);;
  wrR VIRTIO_MMIO_DRIVER_DESC_LOW (q_avail s);;
  wrR VIRTIO_MMIO_DRIVER_DESC_HIGH (Z.shiftr (q_avail s) 32);;
  wrR VIRTIO_MMIO_DEVICE_DESC_LOW (q_used s);;
  wrR VIRTIO_MMIO_DEVICE_DESC_HIGH (Z.shiftr (q_used s) 32);;
  wrR VIRTIO_MMIO_QUEUE_READY 1.

Definition virtio_disk_init : M vboot unit :=
  modify (setb_lock Free);;
  ok ← find_disk;
  if negb ok then panic "could not find virtio disk" else
  status ← negotiate;
  if Z.land status VIRTIO_CONFIG_S_FEATURES_OK =? 0 then panic "virtio disk FEATURES_OK unset" else
  wrR VIRTIO_MMIO_QUEUE_SEL 0;;
  ready ← rdR VIRTIO_MMIO_QUEUE_READY;
  if negb (ready =? 0) then panic "virtio disk should not be ready" else
  max ← rdR VIRTIO_MMIO_QUEUE_NUM_MAX;
  if max =? 0 then panic "virtio disk has no queue 0" else
  if max <? Z.of_nat NUM then panic "virtio disk max queue too short" else
  queue_pages;;
  tell_queue;;
  for_each (R := unit) (seq 0 NUM) (fun i => modify (fun s => setb_free (<[i := true]> (q_free s)) s);; mret None);;
  wrR VIRTIO_MMIO_STATUS (Z.lor status VIRTIO_CONFIG_S_DRIVER_OK).

(** ** The pages as the structures of [kernel/virtio.h] *)

Definition ldn (m : mem) (a : Z) (n : nat) : Z := le_join (rdn m a n).
Definition desc_at (m : mem) (a : Z) : virtq_desc := Desc (ldn m a 8) (ldn m (a + 8) 4) (ldn m (a + 12) 2) (ldn m (a + 14) 2).
(** The [disk] that starts with [used_idx], [info] and [ops] zero. *)
Definition disk_at (m : mem) (d a u : Z) (f : list bool) : disk :=
  Disk ((fun i => desc_at m (d + 16 * Z.of_nat i)) <$> seq 0 NUM)
    (ldn m (a + 2) 2) ((fun i => ldn m (a + 4 + 2 * Z.of_nat i) 2) <$> seq 0 NUM)
    (ldn m (u + 2) 2) ((fun i => ldn m (u + 4 + 8 * Z.of_nat i) 4) <$> seq 0 NUM)
    f 0 (replicate NUM None) (replicate NUM 0) (replicate NUM (BlkReq 0 0 0)).

(** ** The device *)

Definition ids_ok : Prop := forall h, u32 (reg h VIRTIO_MMIO_MAGIC_VALUE) = 0x74726976 /\ u32 (reg h VIRTIO_MMIO_VERSION) = 2 /\
  u32 (reg h VIRTIO_MMIO_DEVICE_ID) = 2 /\ u32 (reg h VIRTIO_MMIO_VENDOR_ID) = 0x554d4551.
(** It keeps the status that is written, its queue is not ready before it is made so,
    and it has room for [NUM] descriptors. *)
Record device_ok : Prop := {
  dk_status h v : u32 (reg (h ++ [(VIRTIO_MMIO_STATUS, v)]) VIRTIO_MMIO_STATUS) = u32 v;
  dk_ready h : (forall v, (VIRTIO_MMIO_QUEUE_READY, v) ∉ h) -> u32 (reg h VIRTIO_MMIO_QUEUE_READY) = 0;
  dk_max h : Z.of_nat NUM <= u32 (reg h VIRTIO_MMIO_QUEUE_NUM_MAX)
}.

(** What is written up to the pages, and the whole. *)
Definition agreed (h : list (Z * Z)) : Z :=
  u32 (foldl clear (u32 (reg (h ++ [(VIRTIO_MMIO_STATUS, 0); (VIRTIO_MMIO_STATUS, 1); (VIRTIO_MMIO_STATUS, 3)]) VIRTIO_MMIO_DEVICE_FEATURES)) refused).
Definition greet (h : list (Z * Z)) : list (Z * Z) :=
  h ++ [(VIRTIO_MMIO_STATUS, 0); (VIRTIO_MMIO_STATUS, 1); (VIRTIO_MMIO_STATUS, 3);
   (VIRTIO_MMIO_DRIVER_FEATURES, agreed h); (VIRTIO_MMIO_STATUS, 11)].
Definition settle (d a u : Z) : list (Z * Z) :=
  [(VIRTIO_MMIO_QUEUE_SEL, 0); (VIRTIO_MMIO_QUEUE_NUM, 8);
   (VIRTIO_MMIO_QUEUE_DESC_LOW, d); (VIRTIO_MMIO_QUEUE_DESC_HIGH, 0); (VIRTIO_MMIO_DRIVER_DESC_LOW, a); (VIRTIO_MMIO_DRIVER_DESC_HIGH, 0);
   (VIRTIO_MMIO_DEVICE_DESC_LOW, u); (VIRTIO_MMIO_DEVICE_DESC_HIGH, 0); (VIRTIO_MMIO_QUEUE_READY, 1); (VIRTIO_MMIO_STATUS, 15)].

(** ** What it does *)

Lemma find_disk_ok s : ids_ok -> find_disk s = Ret true s.
Proof.
  intros Hi. destruct (Hi (wrote s)) as (H1 & H2 & H3 & H4). unfold find_disk, rdR. erewrite bind_ret by reflexivity. rewrite H1, Z.eqb_refl. cbn [negb].
  erewrite bind_ret by reflexivity. rewrite H2, Z.eqb_refl. cbn [negb]. erewrite bind_ret by reflexivity. rewrite H3, Z.eqb_refl. cbn [negb].
  erewrite bind_ret by reflexivity. by rewrite H4.
Qed.

Definition ids_bad (h : list (Z * Z)) : Prop := u32 (reg h VIRTIO_MMIO_MAGIC_VALUE) <> 0x74726976 \/ u32 (reg h VIRTIO_MMIO_VERSION) <> 2 \/
  u32 (reg h VIRTIO_MMIO_DEVICE_ID) <> 2 \/ u32 (reg h VIRTIO_MMIO_VENDOR_ID) <> 0x554d4551.
Lemma find_disk_bad s : ids_bad (wrote s) -> find_disk s = Ret false s.
Proof.
  intros Hb. unfold find_disk, rdR. erewrite bind_ret by reflexivity. destruct (Z.eqb_spec (u32 (reg (wrote s) VIRTIO_MMIO_MAGIC_VALUE)) 0x74726976) as [E1|_]; [|done]. cbn [negb].
  erewrite bind_ret by reflexivity. destruct (Z.eqb_spec (u32 (reg (wrote s) VIRTIO_MMIO_VERSION)) 2) as [E2|_]; [|done]. cbn [negb].
  erewrite bind_ret by reflexivity. destruct (Z.eqb_spec (u32 (reg (wrote s) VIRTIO_MMIO_DEVICE_ID)) 2) as [E3|_]; [|done]. cbn [negb].
  erewrite bind_ret by reflexivity. destruct (Z.eqb_spec (u32 (reg (wrote s) VIRTIO_MMIO_VENDOR_ID)) 0x554d4551) as [E4|_]; [|done]. destruct Hb as [|[|[|]]]; congruence.
Qed.

Lemma negotiate_ok s : device_ok -> negotiate s = Ret 11 (setb_wrote (greet (wrote s)) s).
Proof.
  intros Hd. assert (greet (wrote s) = (wrote s ++ [(VIRTIO_MMIO_STATUS, 0); (VIRTIO_MMIO_STATUS, 1); (VIRTIO_MMIO_STATUS, 3); (VIRTIO_MMIO_DRIVER_FEATURES, agreed (wrote s))]) ++ [(VIRTIO_MMIO_STATUS, 11)]) as Eg
    by (rewrite <- app_assoc; reflexivity). pose proof (dk_status Hd (wrote s ++ [(VIRTIO_MMIO_STATUS, 0); (VIRTIO_MMIO_STATUS, 1); (VIRTIO_MMIO_STATUS, 3); (VIRTIO_MMIO_DRIVER_FEATURES, agreed (wrote s))]) 11) as E. rewrite <- Eg in E. change (u32 11) with 11 in E.
  unfold negotiate, rdR, wrR, modify, gets. do 6 erewrite bind_ret by reflexivity.
  assert (forall h, h = greet (wrote s) -> Ret (u32 (reg h VIRTIO_MMIO_STATUS)) (setb_wrote h s) = Ret 11 (setb_wrote (greet (wrote s)) s)) as H by (intros h ->; by rewrite E).
  eapply H. simpl wrote. rewrite <- !app_assoc. reflexivity.
Qed.

Lemma zoom_kalloc s r k : kalloc (vk s) = Ret r k -> zoom vkL kalloc s = Ret r (put vkL k s).
Proof. intros E. unfold zoom. simpl view. by rewrite E. Qed.

#[local] Opaque memset.

Section Pages.
Variable kend : Z.
Context (Hend : KERNBASE <= kend <= PHYSTOP).

Lemma kalloc_list k free : kinv kend k free ->
  exists k', kalloc k = Ret (match free with [] => 0 | p :: _ => p end) k' /\ kinv kend k' (tail free) /\ kmem_mem k' = kmem_mem k.
Proof.
  intros Hk. destruct free as [|p l]; [exists k; split_and!; [by eapply kalloc_none|done|done]|]. by eapply kalloc_some.
Qed.

(** A page that is not on the free list may be cleared. *)
Lemma clear_page k l p : kinv kend k l -> page_ok kend p -> p ∉ l -> kinv kend (set_mem (memset (kmem_mem k) p 0 PGSIZE) k) l.
Proof.
  intros Hk Hp Hn. apply kinv_frame; [|done]. intros a Ha. rewrite memset_spec by (unfold PGSIZE; lia). rewrite decide_False; [done|].
  intros Hin. rewrite (PGROUNDDOWN_in p a) in Ha; [done|apply Hp|done].
Qed.

Lemma queue_pages_ok s d a u l : kinv kend (vk s) (d :: a :: u :: l) -> exists k, queue_pages s = Ret tt (VBoot k (wrote s) d a u (q_free s) (q_lock s)) /\
  kinv kend k l /\ kmem_mem k = memset (memset (memset (kmem_mem (vk s)) d 0 PGSIZE) a 0 PGSIZE) u 0 PGSIZE.
Proof.
  intros Hk. pose proof (kinv_nodup _ _ _ Hk) as Hn. pose proof (kinv_pages _ _ _ Hk) as Hp. rewrite !Forall_cons in Hp. destruct Hp as (Pd & Pa & Pu & _). rewrite !NoDup_cons, !not_elem_of_cons in Hn.
  destruct Hn as ((_ & _ & Nd) & (_ & Na) & Nu & _). pose proof (page_ok_bounds kend Hend _ Pd). pose proof (page_ok_bounds kend Hend _ Pa). pose proof (page_ok_bounds kend Hend _ Pu).
  destruct (kalloc_list _ _ Hk) as (k1 & E1 & Hk1 & M1). destruct (kalloc_list _ _ Hk1) as (k2 & E2 & Hk2 & M2). destruct (kalloc_list _ _ Hk2) as (k3 & E3 & Hk3 & M3). simpl in *.
  unfold queue_pages. erewrite bind_ret by (by apply zoom_kalloc). erewrite bind_ret by reflexivity. erewrite bind_ret by (by apply zoom_kalloc). erewrite bind_ret by reflexivity.
  erewrite bind_ret by (by apply zoom_kalloc). do 2 erewrite bind_ret by reflexivity. unfold id. cbn [q_desc q_avail q_used setb_desc setb_avail setb_used put vkL].
  rewrite !(proj2 (Z.eqb_neq _ 0)) by lia. cbn [orb]. exists (set_mem (memset (memset (memset (kmem_mem k3) d 0 PGSIZE) a 0 PGSIZE) u 0 PGSIZE) k3).
  split; [reflexivity|]. split; [|cbn [kmem_mem set_mem]; rewrite M3, M2, M1; reflexivity].
  apply (clear_page (set_mem (memset (memset (kmem_mem k3) d 0 PGSIZE) a 0 PGSIZE) k3)); [|exact Pu|exact Nu]. apply (clear_page (set_mem (memset (kmem_mem k3) d 0 PGSIZE) k3)); [|exact Pa|apply Na]. apply clear_page; [exact Hk3|exact Pd|apply Nd].
Qed.

Lemma queue_pages_short s free : kinv kend (vk s) free -> (length free < 3)%nat -> queue_pages s = Panic "virtio disk kalloc".
Proof.
  intros Hk Hl. destruct (kalloc_list _ _ Hk) as (k1 & E1 & Hk1 & M1). destruct (kalloc_list _ _ Hk1) as (k2 & E2 & Hk2 & M2). destruct (kalloc_list _ _ Hk2) as (k3 & E3 & Hk3 & M3).
  unfold queue_pages. erewrite bind_ret by (by apply zoom_kalloc). erewrite bind_ret by reflexivity. erewrite bind_ret by (by apply zoom_kalloc). erewrite bind_ret by reflexivity.
  erewrite bind_ret by (by apply zoom_kalloc). do 2 erewrite bind_ret by reflexivity. unfold id. cbn [q_desc q_avail q_used setb_desc setb_avail setb_used put vkL].
  destruct free as [|d [|a [|u l]]]; simpl in Hl; [| | |lia]; simpl tail; cbv iota; by rewrite Z.eqb_refl, ?orb_true_r.
Qed.
End Pages.

Lemma free_all s : length (q_free s) = NUM -> exists s', for_each (R := unit) (seq 0 NUM) (fun i => modify (fun s => setb_free (<[i := true]> (q_free s)) s);; mret None) s = Ret None s' /\
  s' = setb_free (replicate NUM true) s.
Proof.
  intros Hl. eexists. split; [reflexivity|]. destruct s as [? ? ? ? ? f ?]. simpl in *. do 9 (destruct f as [|? f]; try done).
Qed.

Lemma zero_ldn m p q n : (forall i, p <= i < p + PGSIZE -> rd m i = 0) -> p <= q -> q + Z.of_nat n <= p + PGSIZE -> ldn m q n = 0.
Proof.
  intros Hz Hq Hn. unfold ldn. assert (rdn m q n = replicate n 0) as ->; [|clear; induction n as [|n IH]; [done|]; cbn [replicate le_join]; rewrite IH; done].
  apply list_eq. intros i. destruct (decide (i < n)%nat) as [Hi|Hi].
  - rewrite rdn_lookup, lookup_replicate_2 by done. f_equal. apply Hz. lia.
  - rewrite !lookup_ge_None_2; rewrite ?length_rdn, ?length_replicate; (done || lia).
Qed.

Lemma disk_at_zero m d a u : (forall p i, p ∈ [d; a; u] -> p <= i < p + PGSIZE -> rd m i = 0) -> disk_at m d a u (replicate NUM true) = init_disk.
Proof.
  intros Hz. assert (forall p q n, p ∈ [d; a; u] -> p <= q -> q + Z.of_nat n <= p + PGSIZE -> ldn m q n = 0) as H by (intros; by eapply zero_ldn; [eauto| |]).
  unfold PGSIZE in H. unfold disk_at, init_disk, desc_at, NUM. cbn [seq fmap list_fmap replicate].
  rewrite ?(fun q n => H d q n ltac:(left)) by lia. rewrite ?(fun q n => H a q n ltac:(right; left)) by lia. rewrite ?(fun q n => H u q n ltac:(right; right; left)) by lia. done.
Qed.
End Init.

Lemma agreed_bits reg h b : 0 <= b < 32 ->
  Z.testbit (agreed reg h) b = Z.testbit (reg (h ++ [(VIRTIO_MMIO_STATUS, 0); (VIRTIO_MMIO_STATUS, 1); (VIRTIO_MMIO_STATUS, 3)]) VIRTIO_MMIO_DEVICE_FEATURES) b && negb (bool_decide (b ∈ refused)).
Proof.
  intros Hb. unfold agreed, u32. rewrite Z.mod_pow2_bits_low by lia. cbn [foldl refused]. unfold clear. rewrite !Z.ldiff_spec, Z.mod_pow2_bits_low by lia.
  rewrite !Z.shiftl_spec by lia. rewrite <- !andb_assoc. f_equal. assert (forall k, 0 <= k < 32 -> Z.testbit 1 (b - k) = (b =? k)) as Ht.
  { intros k Hk. destruct (Z.eqb_spec b k) as [->|Hne]; [by rewrite Z.sub_diag|]. destruct (Z_lt_le_dec (b - k) 0); [by apply Z.testbit_neg_r|]. apply Z.bits_above_log2; [lia|]. simpl. lia. }
  rewrite !Ht by lia. unfold refused. destruct (bool_decide_reflect (b ∈ [5; 7; 11; 12; 27; 29; 28])) as [Hin|Hout]; simpl.
  - rewrite !elem_of_cons, elem_of_nil in Hin. destruct Hin as [-> |[-> |[-> |[-> |[-> |[-> |[-> |[]]]]]]]]; done.
  - rewrite !not_elem_of_cons in Hout. destruct Hout as (? & ? & ? & ? & ? & ? & ? & _). by rewrite !(proj2 (Z.eqb_neq _ _)).
Qed.

Lemma pages_zero m d a u p i : p ∈ [d; a; u] -> p <= i < p + PGSIZE -> rd (memset (memset (memset m d 0 PGSIZE) a 0 PGSIZE) u 0 PGSIZE) i = 0.
Proof.
  intros Hp Hi. rewrite !memset_spec by (unfold PGSIZE; lia). rewrite !elem_of_cons, elem_of_nil in Hp. destruct Hp as [-> |[-> |[-> |[]]]]; repeat case_decide; done.
Qed.

Lemma addr_low kend (Hend : KERNBASE <= kend <= PHYSTOP) p : page_ok kend p -> u32 p = p.
Proof. intros Hp. pose proof (page_ok_bounds kend Hend p Hp). apply Z.mod_small. lia. Qed.
Lemma addr_high kend (Hend : KERNBASE <= kend <= PHYSTOP) p : page_ok kend p -> u32 (Z.shiftr p 32) = 0.
Proof. intros Hp. pose proof (page_ok_bounds kend Hend p Hp). rewrite Z.shiftr_div_pow2 by lia. rewrite Z.div_small by lia. done. Qed.

(** C28: [virtio_disk_init] panics on a device that does not identify itself as a virtio
    disk of version 2, and with less than three free pages.  Otherwise, on a device
    that takes the features, has a queue that is not in use and room for [NUM]
    descriptors, it leaves three zeroed pages off the free list, which spell the
    initial state of the driver, and has written, in this order, the steps of the
    status, the offered features without the refused ones, and the size and the three
    addresses of the queue. *)
Theorem virtio_init (reg : list (Z * Z) -> Z -> Z) (kend : Z) (Hend : KERNBASE <= kend <= PHYSTOP) (s : vboot) (free : list Z)
    (Hk : kinv kend (vk s) free) (Hf : length (q_free s) = NUM) (Hw : forall v, (VIRTIO_MMIO_QUEUE_READY, v) ∉ wrote s) :
  (ids_bad reg (wrote s) -> virtio_disk_init reg s = Panic "could not find virtio disk") /\
  (ids_ok reg -> device_ok reg ->
     match free with
     | d :: a :: u :: rest => exists k, virtio_disk_init reg s = Ret tt (VBoot k (greet reg (wrote s) ++ settle d a u) d a u (replicate NUM true) Free) /\
         kinv kend k rest /\ disk_at (kmem_mem k) d a u (replicate NUM true) = init_disk
     | _ => virtio_disk_init reg s = Panic "virtio disk kalloc"
     end) /\
  (forall b, 0 <= b < 32 -> Z.testbit (agreed reg (wrote s)) b =
     Z.testbit (reg (wrote s ++ [(VIRTIO_MMIO_STATUS, 0); (VIRTIO_MMIO_STATUS, 1); (VIRTIO_MMIO_STATUS, 3)]) VIRTIO_MMIO_DEVICE_FEATURES) b && negb (bool_decide (b ∈ refused))).
Proof.
  split_and!; [| |intros b Hb; by apply agreed_bits].
  - intros Hb. unfold virtio_disk_init. erewrite bind_ret by reflexivity. by erewrite bind_ret by (by apply find_disk_bad).
  - intros Hi Hd. set (s1 := setb_wrote (greet reg (wrote s) ++ [(VIRTIO_MMIO_QUEUE_SEL, 0)]) (setb_lock Free s)).
    assert (virtio_disk_init reg s = (queue_pages;; tell_queue;;
      for_each (R := unit) (seq 0 NUM) (fun i => modify (fun s => setb_free (<[i := true]> (q_free s)) s);; mret None);; wrR VIRTIO_MMIO_STATUS 15) s1) as ->.
    { unfold virtio_disk_init. erewrite bind_ret by reflexivity. erewrite bind_ret by (by apply find_disk_ok). cbn [negb]. erewrite bind_ret by (by apply negotiate_ok).
      change (Z.land 11 VIRTIO_CONFIG_S_FEATURES_OK =? 0) with false. cbv iota. erewrite bind_ret by reflexivity. erewrite bind_ret by reflexivity.
      rewrite (dk_ready _ Hd) by (intros v; simpl; unfold greet; rewrite !elem_of_app, !elem_of_cons, elem_of_nil; specialize (Hw v); naive_solver).
      cbn [negb Z.eqb]. erewrite bind_ret by reflexivity. match goal with |- context [reg ?h VIRTIO_MMIO_QUEUE_NUM_MAX] => pose proof (dk_max _ Hd h) as Hm; set (mx := u32 (reg h VIRTIO_MMIO_QUEUE_NUM_MAX)) in * end.
      destruct (Z.eqb_spec mx 0) as [E0|_]; [unfold NUM in Hm; lia|]. destruct (Z.ltb_spec mx (Z.of_nat NUM)); [lia|]. reflexivity. }
    destruct (decide (length free < 3)%nat) as [Hlt|Hge].
    + rewrite (bind_panic _ _ _ "virtio disk kalloc"); [|by eapply (queue_pages_short kend)]. by destruct free as [|? [|? [|? ?]]]; simpl in Hlt; try lia.
    + destruct free as [|d [|a [|u rest]]]; simpl in Hge; try lia. pose proof (kinv_pages _ _ _ Hk) as Hp. rewrite !Forall_cons in Hp. destruct Hp as (Pd & Pa & Pu & _).
      destruct (queue_pages_ok kend Hend s1 d a u rest Hk) as (k & E & Hk' & Em). exists k. split_and!; [|done|].
      * erewrite bind_ret by exact E. erewrite bind_ret by reflexivity.
        match goal with |- _ ?s3 = _ => destruct (free_all s3 Hf) as (s2 & E2 & ->) end. erewrite bind_ret by exact E2. unfold wrR, modify. simpl. unfold settle. rewrite <- !app_assoc. simpl app.
        by rewrite (addr_high kend Hend d Pd), (addr_high kend Hend a Pa), (addr_high kend Hend u Pu), (addr_low kend Hend d Pd), (addr_low kend Hend a Pa), (addr_low kend Hend u Pu).
      * apply disk_at_zero. intros p i. rewrite Em. apply pages_zero.
Qed.

(** A device that keeps what is written, offers some features and has 1024 entries. *)
Fixpoint reg_write (r : Z) (h : list (Z * Z)) (v : Z) : Z := match h with [] => v | (q, w) :: h => reg_write r h (if q =? r then w else v) end.
Definition ex_reg (h : list (Z * Z)) (r : Z) : Z :=
  if r =? VIRTIO_MMIO_MAGIC_VALUE then 0x74726976 else if r =? VIRTIO_MMIO_VERSION then 2 else if r =? VIRTIO_MMIO_DEVICE_ID then 2 else
  if r =? VIRTIO_MMIO_VENDOR_ID then 0x554d4551 else if r =? VIRTIO_MMIO_DEVICE_FEATURES then 0x30006e54 else if r =? VIRTIO_MMIO_QUEUE_NUM_MAX then 1024 else reg_write r h 0.

Lemma reg_write_snoc r h v w : reg_write r (h ++ [(r, w)]) v = w.
Proof. revert v. induction h as [|[q x] h IH]; intros v; simpl; [by rewrite Z.eqb_refl|apply IH]. Qed.
Lemma reg_write_none r h v : (forall w, (r, w) ∉ h) -> reg_write r h v = v.
Proof.
  revert v. induction h as [|[q x] h IH]; intros v Hn; [done|]. simpl. destruct (Z.eqb_spec q r) as [->|Hne]; [destruct (Hn x); left|]. apply IH. intros w Hw. apply (Hn w). by right.
Qed.

Definition ex_page (i : Z) : Z := KERNBASE + PGSIZE * i.
Definition ex_boot : vboot := VBoot (Kmem Free (ex_page 1) (st64 (st64 (st64 ∅ (ex_page 1) (ex_page 2)) (ex_page 2) (ex_page 3)) (ex_page 3) 0)) [] 0 0 0 (replicate NUM false) Free.

Lemma ex_ids : ids_ok ex_reg.
Proof. intros h. done. Qed.
Lemma ex_device : device_ok ex_reg.
Proof.
  split.
  - intros h v. unfold ex_reg. simpl. by rewrite reg_write_snoc.
  - intros h Hn. unfold ex_reg. simpl. by rewrite reg_write_none.
  - intros h. vm_compute. discriminate.
Qed.

Lemma virtio_init_witness : exists k, virtio_disk_init ex_reg ex_boot = Ret tt (VBoot k (greet ex_reg [] ++ settle (ex_page 1) (ex_page 2) (ex_page 3)) (ex_page 1) (ex_page 2) (ex_page 3) (replicate NUM true) Free).
Proof.
  assert (kinv KERNBASE (vk ex_boot) [ex_page 1; ex_page 2; ex_page 3]) as Hk.
  { split; [done|vm_compute; repeat split|apply (bool_decide_eq_true_1 _); vm_compute; reflexivity|]. repeat (constructor; [vm_compute; repeat split; discriminate|]). constructor. }
  destruct (virtio_init ex_reg KERNBASE ltac:(vm_compute; split; discriminate) ex_boot [ex_page 1; ex_page 2; ex_page 3] Hk eq_refl ltac:(intros v; apply not_elem_of_nil)) as (_ & H & _).
  destruct (H ex_ids ex_device) as (k & E & _). exists k. exact E.
Defined.
