(* ===== verification/Sh.v ===== *)
(** * Sh: the shell's parser, [user/sh.c]

    A line in a buffer is parsed by recursive descent into a tree whose words are pairs
    of positions in the buffer; [nulterminate] then stores a NUL at the end of every
    word, so that the words become strings.  The state of the parsing routines is [*ps],
    the position; [panic] of the shell is the outcome [Panic].

    [malloc] is taken to succeed.  [parseexec] keeps the address of the [execcmd] it
    fills while redirections are wrapped around it; [set_arg] stores in that command,
    the one under the redirections.

    The theorems: every line is parsed with bounded recursion to a tree or to one of four
    complaints, without an access outside the buffer or the argument arrays, and the
    NULs never cut another word; and every command printed with the shell's operators,
    with parentheses where they are needed, is parsed back to itself. *)

From S2P Require Import Prelude.

Definition MAXARGS : nat := 10.
Definition O_RDONLY : Z := 0x000.
Definition O_WRONLY : Z := 0x001.
Definition O_CREATE : Z := 0x200.
Definition O_TRUNC : Z := 0x400.

(** The commands, with words of type [W]. *)
Inductive cmd (W : Type) :=
| EXEC (argv : list W)
| REDIR (c : cmd W) (file : W) (mode fd : Z)
| PIPE (l r : cmd W)
| LIST (l r : cmd W)
| BACK (c : cmd W).
Arguments EXEC {W}.
Arguments REDIR {W}.
Arguments PIPE {W}.
Arguments LIST {W}.
Arguments BACK {W}.

(** The tree of a line in a buffer. *)
Notation tree := (cmd (nat * nat)).

Fixpoint cmd_map {A B} (f : A -> B) (c : cmd A) : cmd B :=
  match c with
  | EXEC argv => EXEC (f <$> argv)
  | REDIR c w m fd => REDIR (cmd_map f c) (f w) m fd
  | PIPE l r => PIPE (cmd_map f l) (cmd_map f r)
  | LIST l r => LIST (cmd_map f l) (cmd_map f r)
  | BACK c => BACK (cmd_map f c)
  end.

(** The constructors: a fresh zeroed structure with its type and fields. *)
Definition execcmd : tree := EXEC [].
Definition redircmd (subcmd : tree) (file : nat * nat) (mode fd : Z) : tree := REDIR subcmd file mode fd.
Definition pipecmd (left right : tree) : tree := PIPE left right.
Definition listcmd (left right : tree) : tree := LIST left right.
Definition backcmd (subcmd : tree) : tree := BACK subcmd.

(** [strchr(l, c) != 0] for a literal [l]. *)
Fixpoint strchr (l : list Z) (c : Z) : bool :=
  match l with [] => false | x :: l => if x =? c then true else strchr l c end.

Definition whitespace : list Z := [32; 9; 13; 10; 11].
Definition symbols : list Z := [60; 124; 62; 38; 59; 40; 41].

Section Parser.
(** The buffer and [es]. *)
Variable buf : list Z.
Variable es : nat.

(** The character at a position. *)
Definition ch (i : nat) : Z := nth i buf 0.

(** [while(s < es && p( *s)) s++;] with a round per character up to [es]. *)
Fixpoint skip_loop (fuel : nat) (p : Z -> bool) (s : nat) : nat :=
  match fuel with
  | O => s
  | S fuel => if (s <? es)%nat && p (ch s) then skip_loop fuel p (S s) else s
  end.
Definition skip (p : Z -> bool) (s : nat) : nat := skip_loop (es - s) p s.

(** The token, with [*q] and [*eq]. *)
Definition gettoken : M nat (Z * (nat * nat)) :=
  s ← gets (skip (strchr whitespace));
  let c := ch s in
  let '(ret, e) :=
    if c =? 0 then (c, s)
    else if strchr [124; 40; 41; 59; 38; 60] c then (c, S s)
    else if c =? 62 then (if ch (S s) =? 62 then (43, S (S s)) else (c, S s))
    else (97, skip (fun c => negb (strchr whitespace c) && negb (strchr symbols c)) s) in
  modify (fun _ => skip (strchr whitespace) e);;
  mret (ret, (s, e)).

Definition peek (toks : list Z) : M nat bool :=
  s ← gets (skip (strchr whitespace));
  modify (fun _ => s);;
  mret (negb (ch s =? 0) && strchr toks (ch s)).

(** A round per character and the last test. *)
Fixpoint parseredirs_loop (fuel : nat) (cmd : tree) : M nat tree :=
  match fuel with
  | O => fun _ => NoFuel
  | S fuel =>
    b ← peek [60; 62];
    if b : bool then
      '(tok, _) ← gettoken;
      '(t, w) ← gettoken;
      if negb (t =? 97) then panic "missing file for redirection" else
      parseredirs_loop fuel
        (if tok =? 60 then redircmd cmd w O_RDONLY 0
         else if tok =? 62 then redircmd cmd w (Z.lor (Z.lor O_WRONLY O_CREATE) O_TRUNC) 1
         else if tok =? 43 then redircmd cmd w (Z.lor O_WRONLY O_CREATE) 1
         else cmd)
    else mret cmd
  end.
Definition parseredirs (cmd : tree) : M nat tree := parseredirs_loop (S es) cmd.

(** [cmd->argv[argc] = q; cmd->eargv[argc] = eq;] of the [execcmd] in [ret]. *)
Fixpoint set_arg (w : nat * nat) (ret : tree) : tree :=
  match ret with
  | EXEC argv => EXEC (argv ++ [w])
  | REDIR c f m fd => REDIR (set_arg w c) f m fd
  | _ => ret
  end.

(** At most [MAXARGS] rounds; the arrays have [MAXARGS] elements. *)
Fixpoint args_loop (fuel : nat) (argc : nat) (ret : tree) : M nat tree :=
  match fuel with
  | O => fun _ => NoFuel
  | S fuel =>
    let finish := if decide (argc < MAXARGS)%nat then mret ret else undefined in
    b ← peek [124; 41; 38; 59];
    if b : bool then finish else
    '(tok, w) ← gettoken;
    if tok =? 0 then finish else
    if negb (tok =? 97) then panic "syntax" else
    if decide (argc < MAXARGS)%nat then
      if decide (MAXARGS <= S argc)%nat then panic "too many args" else
      ret ← parseredirs (set_arg w ret);
      args_loop fuel (S argc) ret
    else undefined
  end.

(** [while(peek(ps, es, "&")){ gettoken(ps, es, 0, 0); cmd = backcmd(cmd); }] *)
Fixpoint back_loop (fuel : nat) (cmd : tree) : M nat tree :=
  match fuel with
  | O => fun _ => NoFuel
  | S fuel =>
    b ← peek [38];
    if b : bool then gettoken;; back_loop fuel (backcmd cmd) else mret cmd
  end.

Fixpoint parseline (fuel : nat) : M nat tree :=
  match fuel with
  | O => fun _ => NoFuel
  | S fuel =>
    cmd ← parsepipe fuel;
    cmd ← back_loop (S es) cmd;
    b ← peek [59];
    if b : bool then
      gettoken;;
      r ← parseline fuel;
      mret (listcmd cmd r)
    else mret cmd
  end
with parsepipe (fuel : nat) : M nat tree :=
  match fuel with
  | O => fun _ => NoFuel
  | S fuel =>
    cmd ← parseexec fuel;
    b ← peek [124];
    if b : bool then
      gettoken;;
      r ← parsepipe fuel;
      mret (pipecmd cmd r)
    else mret cmd
  end
with parseexec (fuel : nat) : M nat tree :=
  match fuel with
  | O => fun _ => NoFuel
  | S fuel =>
    b ← peek [40];
    if b : bool then parseblock fuel else
    ret ← parseredirs execcmd;
    args_loop (S MAXARGS) 0 ret
  end
with parseblock (fuel : nat) : M nat tree :=
  match fuel with
  | O => fun _ => NoFuel
  | S fuel =>
    b ← peek [40];
    if negb b then panic "parseblock" else
    gettoken;;
    cmd ← parseline fuel;
    b ← peek [41];
    if negb b then panic "syntax - missing )" else
    gettoken;;
    parseredirs cmd
  end.
End Parser.

(** [strlen] of the buffer. *)
Fixpoint strlen (buf : list Z) : nat := match buf with [] => 0 | c :: buf => if c =? 0 then 0 else S (strlen buf) end.

(** [*p = 0] *)
Definition put_nul (p : nat) : M (list Z) unit := fun buf => if decide (p < length buf)%nat then Ret tt (<[p := 0]> buf) else undefined buf.

Fixpoint nulterminate (c : tree) : M (list Z) unit :=
  match c with
  | EXEC argv => for_each (R := unit) argv (fun w => put_nul w.2;; mret None);; mret tt
  | REDIR c w _ _ => nulterminate c;; put_nul w.2
  | PIPE l r | LIST l r => nulterminate l;; nulterminate r
  | BACK c => nulterminate c
  end.

(** Four calls per character of nesting and four at the end are enough. *)
Definition parsecmd : M (list Z) tree := fun buf =>
  let es := strlen buf in
  match parseline buf es (4 * es + 4)%nat 0%nat with
  | Ret cmd s =>
    if decide (skip buf es (strchr whitespace) s <> es) then Panic "syntax" else
    (nulterminate cmd;; mret cmd) buf
  | Panic msg => Panic msg
  | Blocked chan _ => Blocked chan buf
  | NoFuel => NoFuel
  end.

(** ** Scanning *)

Lemma strchr_true l c : strchr l c = true <-> c ∈ l.
Proof.
  induction l as [|x l IH]; simpl; [by rewrite elem_of_nil|]. rewrite elem_of_cons, <- IH. destruct (Z.eqb_spec x c) as [->|Hne]; [tauto|]. split; [by right|]. by intros [->|?].
Qed.
Lemma strchr_false l c : strchr l c = false <-> c ∉ l.
Proof. rewrite <- not_true_iff_false, strchr_true. done. Qed.

#[local] Arguments strchr : simpl never.

Definition wordc (c : Z) : bool := negb (strchr whitespace c) && negb (strchr symbols c).
Fixpoint tw (p : Z -> bool) (l : list Z) : list Z := match l with c :: l => if p c then c :: tw p l else [] | [] => [] end.
Fixpoint dw (p : Z -> bool) (l : list Z) : list Z := match l with c :: l' => if p c then dw p l' else l | [] => [] end.

Lemma tw_dw p l : tw p l ++ dw p l = l.
Proof. induction l as [|c l IH]; [done|]. simpl. destruct (p c); [by simpl; rewrite IH|done]. Qed.
Lemma dw_length p l : (length (dw p l) <= length l)%nat.
Proof. induction l as [|c l IH]; [done|]. simpl. destruct (p c); simpl; lia. Qed.
Lemma dw_idem p l : dw p (dw p l) = dw p l.
Proof. induction l as [|c l IH]; [done|]. simpl. destruct (p c) eqn:E; [done|]. simpl. by rewrite E. Qed.
Lemma dw_head p l c r : dw p l = c :: r -> p c = false.
Proof. induction l as [|x l IH]; [done|]. simpl. destruct (p x) eqn:E; [done|]. intros [= -> ->]. done. Qed.
Lemma tw_all p l : Forall (fun c => p c = true) (tw p l).
Proof. induction l as [|c l IH]; [done|]. simpl. destruct (p c) eqn:E; [by constructor|done]. Qed.

Section Spec.
Variables line pad : list Z.
Hypothesis nonul : Forall (fun c => c <> 0) line.
Let buf := line ++ 0 :: pad.
Let es := length line.

Lemma ch_line i : ch buf i = match drop i line with c :: _ => c | [] => if (i =? es)%nat then 0 else ch buf i end.
Proof.
  unfold ch, buf, es. destruct (decide (i < length line)%nat) as [Hi|Hi].
  - rewrite app_nth1 by done. pose proof (lookup_lt_is_Some_2 line i Hi) as [c Ec]. rewrite (drop_S _ _ _ Ec). rewrite nth_lookup, Ec. done.
  - rewrite drop_ge by lia. destruct (Nat.eqb_spec i (length line)) as [->|]; [|done]. rewrite app_nth2, Nat.sub_diag by lia. done.
Qed.

Lemma ch_in i c r : drop i line = c :: r -> ch buf i = c.
Proof. intros E. by rewrite ch_line, E. Qed.
Lemma ch_es : ch buf es = 0.
Proof. rewrite ch_line, drop_ge, Nat.eqb_refl by (unfold es; lia). done. Qed.
Lemma drop_nonul i c r : drop i line = c :: r -> c <> 0.
Proof. intros E. assert (c ∈ line) as Hin by (rewrite <- (take_drop i line), E; set_solver). rewrite Forall_forall in nonul. by apply nonul. Qed.

Lemma skip_eq p i : (i <= es)%nat -> skip buf es p i = (i + length (tw p (drop i line)))%nat /\ drop (skip buf es p i) line = dw p (drop i line) /\ (skip buf es p i <= es)%nat.
Proof.
  intros Hi. unfold skip. remember (es - i)%nat as n eqn:En. revert i Hi En. induction n as [|n IH]; intros i Hi En.
  - simpl. rewrite drop_ge by (fold es; lia). simpl. split_and!; [lia|done|lia].
  - cbn [skip_loop]. rewrite (proj2 (Nat.ltb_lt i es)) by lia. pose proof (lookup_lt_is_Some_2 line i ltac:(fold es; lia)) as [c Ec]. pose proof (drop_S _ _ _ Ec) as Ed.
    rewrite (ch_in i c _ Ed), Ed. cbn [andb tw dw]. destruct (p c); [|simpl; split_and!; [lia|done|lia]].
    destruct (IH (S i) ltac:(lia) ltac:(lia)) as (E1 & E2 & E3). rewrite E2. split_and!; [rewrite E1; simpl; lia|done|done].
Qed.

(** What is left at a position, after white space. *)
Definition R (i : nat) : list Z := dw (strchr whitespace) (drop i line).
Definition slice (w : nat * nat) : list Z := take (w.2 - w.1) (drop w.1 line).
(** A word: characters of words, and none after it. *)
Record word (w : nat * nat) : Prop := {
  wd_lt : (w.1 < w.2 <= es)%nat;
  wd_in i : (w.1 <= i < w.2)%nat -> wordc (ch buf i) = true;
  wd_out : wordc (ch buf w.2) = false \/ ch buf w.2 = 0
}.

Lemma R_skip i : (i <= es)%nat -> R (skip buf es (strchr whitespace) i) = R i /\ drop (skip buf es (strchr whitespace) i) line = R i.
Proof. intros Hi. unfold R. destruct (skip_eq (strchr whitespace) i Hi) as (_ & -> & _). by rewrite dw_idem. Qed.

Definition head_in (toks : list Z) (r : list Z) : bool := match r with c :: _ => strchr toks c | [] => false end.

Lemma peek_ok toks i (Q : bool -> nat -> Prop) : (i <= es)%nat ->
  (forall j, (j <= es)%nat -> R j = R i -> Q (head_in toks (R i)) j) -> wp (peek buf es toks) Q i.
Proof.
  intros Hi HQ. destruct (R_skip i Hi) as [E1 E2]. destruct (skip_eq (strchr whitespace) i Hi) as (_ & _ & Hj). unfold peek, wp, mbind, M_bind, gets, modify, mret, M_ret.
  set (j := skip buf es (strchr whitespace) i) in *. assert (negb (ch buf j =? 0) && strchr toks (ch buf j) = head_in toks (R i)) as ->; [|by apply HQ].
  rewrite <- E2. destruct (drop j line) as [|c r] eqn:Ed.
  - assert (j = es) as ->; [|by rewrite ch_es]. apply (f_equal length) in Ed. rewrite length_drop in Ed. simpl in Ed. fold es in Ed. lia.
  - rewrite (ch_in j c r Ed). destruct (Z.eqb_spec c 0) as [->|]; [|done]. by destruct (drop_nonul j 0 r Ed).
Qed.

(** The next token of what is left, and what follows it. *)
Definition tok_of (r : list Z) : Z * list Z :=
  match r with
  | [] => (0, [])
  | c :: r' => if strchr [124; 40; 41; 59; 38; 60] c then (c, r')
               else if c =? 62 then (match r' with d :: r'' => if d =? 62 then (43, r'') else (62, r') | [] => (62, r') end)
               else (97, dw wordc r)
  end.

Lemma word_slice s : (s <= es)%nat -> s <> es -> wordc (ch buf s) = true -> let e := skip buf es wordc s in
  word (s, e) /\ slice (s, e) = tw wordc (drop s line) /\ drop e line = dw wordc (drop s line) /\ (e <= es)%nat.
Proof.
  intros Hs Hne Hw e. destruct (skip_eq wordc s Hs) as (E1 & E2 & E3). fold e in E1, E2, E3. pose proof (tw_dw wordc (drop s line)) as Hd. split_and!; [|unfold slice; simpl|done|done].
  - pose proof (lookup_lt_is_Some_2 line s ltac:(fold es; lia)) as [c Ec]. pose proof (drop_S _ _ _ Ec) as Ed. rewrite (ch_in s c _ Ed) in Hw. split; simpl.
    + rewrite E1, Ed. simpl. rewrite Hw. simpl. rewrite Ed in E1. simpl in E1. rewrite Hw in E1. simpl in E1. lia.
    + intros i Hi. pose proof (lookup_lt_is_Some_2 line i ltac:(fold es; lia)) as [d Hdi]. rewrite (ch_in i d _ (drop_S _ _ _ Hdi)).
      assert (tw wordc (drop s line) !! (i - s)%nat = Some d) as Hlk.
      { rewrite <- (lookup_app_l _ (dw wordc (drop s line))) by lia. rewrite Hd, lookup_drop. by replace (s + (i - s))%nat with i by lia. }
      pose proof (tw_all wordc (drop s line)) as Hall. rewrite Forall_lookup in Hall. by eapply Hall.
    + destruct (drop e line) as [|d r] eqn:Ed'; [right|left].
      * assert (e = es) as ->; [|apply ch_es]. apply (f_equal length) in Ed'. rewrite length_drop in Ed'. simpl in Ed'. fold es in Ed'. lia.
      * rewrite (ch_in e d r Ed'). eapply dw_head. by rewrite <- E2.
  - rewrite E1. replace (s + length (tw wordc (drop s line)) - s)%nat with (length (tw wordc (drop s line))) by lia. rewrite <- Hd at 2. by apply take_app_length.
Qed.

Lemma gettoken_ok i (Q : Z * (nat * nat) -> nat -> Prop) : (i <= es)%nat ->
  (forall w j, (j <= es)%nat -> R j = dw (strchr whitespace) (tok_of (R i)).2 -> ((tok_of (R i)).1 = 97 -> word w /\ slice w = tw wordc (R i)) -> Q ((tok_of (R i)).1, w) j) ->
  wp (gettoken buf es) Q i.
Proof.
  intros Hi HQ. destruct (R_skip i Hi) as [E1 E2]. destruct (skip_eq (strchr whitespace) i Hi) as (_ & _ & Hs). unfold gettoken, wp, mbind, M_bind, gets, modify, mret, M_ret.
  set (s := skip buf es (strchr whitespace) i) in *.
  assert (forall e, (e <= es)%nat -> R (skip buf es (strchr whitespace) e) = dw (strchr whitespace) (drop e line) /\ (skip buf es (strchr whitespace) e <= es)%nat) as Hnext.
  { intros e He. split; [by apply R_skip|]. by apply skip_eq. }
  destruct (drop s line) as [|c r] eqn:Ed.
  - assert (s = es) as Hse by (apply (f_equal length) in Ed; rewrite length_drop in Ed; simpl in Ed; fold es in Ed; lia). rewrite Hse, ch_es. cbn [Z.eqb]. destruct (Hnext es ltac:(lia)) as [G1 G2].
    rewrite <- E2 in HQ. apply HQ; [done| |done]. rewrite G1, drop_ge by (fold es; lia). done.
  - rewrite <- E2 in HQ. pose proof (drop_nonul s c r Ed) as Hc. rewrite (ch_in s c r Ed). rewrite (proj2 (Z.eqb_neq c 0)) by done. cbn [tok_of] in HQ.
    assert (drop (S s) line = r) as Ed1 by (by rewrite <- (drop_drop line s 1), Ed || (replace (S s) with (s + 1)%nat by lia; rewrite <- drop_drop, Ed)).
    assert (S s <= es)%nat as Hs1. { apply (f_equal length) in Ed. rewrite length_drop in Ed. simpl in Ed. fold es in Ed. lia. }
    destruct (strchr [124; 40; 41; 59; 38; 60] c) eqn:Esym.
    + destruct (Hnext (S s) Hs1) as [G1 G2]. rewrite Ed1 in G1. apply HQ; [done|done|]. simpl. intros ->. done.
    + destruct (Z.eqb_spec c 62) as [->|Hgt].
      * assert ((ch buf (S s) =? 62) = match r with d :: _ => d =? 62 | [] => false end) as Ech.
        { destruct r as [|d r']; [|by rewrite (ch_in (S s) d r' Ed1)]. assert (S s = es) as -> by (apply (f_equal length) in Ed1; rewrite length_drop in Ed1; simpl in Ed1; fold es in Ed1; lia). by rewrite ch_es. }
        rewrite Ech. destruct r as [|d r']; [|destruct (Z.eqb_spec d 62) as [->|]].
        -- destruct (Hnext (S s) Hs1) as [G1 G2]. rewrite Ed1 in G1. apply HQ; done.
        -- assert (drop (S (S s)) line = r') as Ed2 by (replace (S (S s)) with (S s + 1)%nat by lia; rewrite <- drop_drop, Ed1; done).
           assert (S (S s) <= es)%nat as Hs2. { apply (f_equal length) in Ed1. rewrite length_drop in Ed1. simpl in Ed1. fold es in Ed1. lia. }
           destruct (Hnext (S (S s)) Hs2) as [G1 G2]. rewrite Ed2 in G1. apply HQ; done.
        -- destruct (Hnext (S s) Hs1) as [G1 G2]. rewrite Ed1 in G1. apply HQ; done.
      * assert (wordc c = true) as Hwc.
        { unfold wordc. assert (strchr whitespace c = false) as -> by (eapply dw_head; unfold R in E2; by rewrite <- E2). assert (strchr symbols c = false) as ->; [|done]. apply strchr_false. apply strchr_false in Esym. unfold symbols. set_solver. }
        destruct (word_slice s Hs ltac:(lia)) as (Hw & Hsl & Hdr & He); [by rewrite (ch_in s c r Ed)|]. change (fun c => negb (strchr whitespace c) && negb (strchr symbols c)) with wordc.
        destruct (Hnext _ He) as [G1 G2]. rewrite Hdr, Ed in G1. rewrite Ed in Hsl. by apply HQ.
Qed.

(** ** Every line is parsed *)

Definition complaints : list string := ["missing file for redirection"; "syntax"; "too many args"; "syntax - missing )"].
(** Returns with [Q], or complains. *)
Definition okp {A} (m : M nat A) (Q : A -> nat -> Prop) (i : nat) : Prop :=
  match m i with Ret a j => Q a j | Panic msg => msg ∈ complaints | _ => False end.

Lemma okp_bind {A B} (m : M nat A) (k : A -> M nat B) Q i : okp m (fun a j => okp (k a) Q j) i -> okp (m ≫= k) Q i.
Proof. unfold okp, mbind, M_bind. by destruct (m i). Qed.
Lemma okp_wp {A} (m : M nat A) Q i : wp m Q i -> okp m Q i.
Proof. unfold wp, okp. by destruct (m i). Qed.
Lemma okp_mono {A} (m : M nat A) (P Q : A -> nat -> Prop) i : okp m P i -> (forall a j, P a j -> Q a j) -> okp m Q i.
Proof. unfold okp. destruct (m i); eauto. Qed.

Fixpoint tree_ok (t : tree) : Prop :=
  match t with
  | EXEC argv => Forall word argv /\ (length argv < MAXARGS)%nat
  | REDIR c w _ _ => tree_ok c /\ word w
  | PIPE l r | LIST l r => tree_ok l /\ tree_ok r
  | BACK c => tree_ok c
  end.
(** The number of arguments of the command under the redirections. *)
Fixpoint arity (t : tree) : option nat :=
  match t with EXEC argv => Some (length argv) | REDIR c _ _ _ => arity c | _ => None end.

Lemma head_in_nil toks r : head_in toks r = true -> r <> [].
Proof. by destruct r. Qed.

Lemma tok_len i : R i <> [] -> (length (dw (strchr whitespace) (tok_of (R i)).2) < length (R i))%nat.
Proof.
  intros Hn. eapply Nat.le_lt_trans; [apply dw_length|]. destruct (R i) as [|c r] eqn:E; [done|]. unfold R in E. pose proof (dw_head _ _ _ _ E) as Hc. cbn [tok_of].
  destruct (strchr [124; 40; 41; 59; 38; 60] c) eqn:Es; [simpl; lia|]. destruct (Z.eqb_spec c 62) as [->|Hgt].
  - destruct r as [|d r']; simpl; [lia|]. destruct (d =? 62); simpl; lia.
  - assert (wordc c = true) as Hw.
    { unfold wordc. rewrite Hc. assert (strchr symbols c = false) as ->; [|done]. apply strchr_false. apply strchr_false in Es. unfold symbols. set_solver. }
    cbn [dw snd]. rewrite Hw. pose proof (dw_length wordc r). simpl. lia.
Qed.

Ltac pcomplain := unfold okp, panic, complaints; cbn [negb]; rewrite !elem_of_cons; tauto.
Ltac pbind := apply okp_bind.
Ltac ppeek j Hj Rj := apply okp_bind, okp_wp, peek_ok; [lia|intros j Hj Rj].
Ltac ptok w j Hj Rj Hw := apply okp_bind, okp_wp, gettoken_ok; [lia|intros w j Hj Rj Hw].

Lemma parseredirs_loop_ok fuel c i : (i <= es)%nat -> (length (R i) < fuel)%nat ->
  okp (parseredirs_loop buf es fuel c) (fun c' j => (j <= es)%nat /\ (length (R j) <= length (R i))%nat /\ (tree_ok c -> tree_ok c') /\ arity c' = arity c) i.
Proof.
  revert c i. induction fuel as [|fuel IH]; intros c i Hi Hf; [lia|]. cbn [parseredirs_loop]. ppeek j Hj Rj. destruct (head_in [60; 62] (R i)) eqn:Hh; [|unfold okp, mret, M_ret; rewrite Rj; done].
  rewrite <- Rj in Hh. ptok w k Hk Rk Hw. pose proof (tok_len j (head_in_nil _ _ Hh)) as Hlen. rewrite <- Rk in Hlen. ptok w2 l Hl Rl Hw2.
  destruct (Z.eqb_spec (tok_of (R k)).1 97) as [E97|_]; [|pcomplain]. cbn [negb]. destruct (Hw2 E97) as [Hword _].
  assert (length (R l) <= length (R k))%nat as Hle.
  { destruct (R k) as [|x r] eqn:Ek; [by rewrite Rl|]. rewrite <- Ek in *. pose proof (tok_len k ltac:(congruence)) as Ht. rewrite <- Rl in Ht. lia. }
  eapply okp_mono; [apply IH; [done|rewrite <- Rj in Hf; lia]|]. intros c' m (Hm & Hlm & Hok & Har). rewrite <- Rj. split_and!; [done|lia| |].
  - intros Hc. apply Hok. repeat case_match; done.
  - rewrite Har. repeat case_match; done.
Qed.

Lemma parseredirs_ok c i : (i <= es)%nat ->
  okp (parseredirs buf es c) (fun c' j => (j <= es)%nat /\ (length (R j) <= length (R i))%nat /\ (tree_ok c -> tree_ok c') /\ arity c' = arity c) i.
Proof.
  intros Hi. apply parseredirs_loop_ok; [done|]. unfold R. pose proof (dw_length (strchr whitespace) (drop i line)) as H. rewrite length_drop in H. fold es in H. lia.
Qed.

Lemma set_arg_ok w t n : arity t = Some n -> tree_ok t -> word w -> (S n < MAXARGS)%nat -> tree_ok (set_arg w t) /\ arity (set_arg w t) = Some (S n).
Proof.
  revert n. induction t as [argv|c IH f m fd| | |]; intros n; simpl; try done.
  - intros [= <-] [Ha Hl] Hw Hn. rewrite Forall_app, length_app. simpl. split_and!; [done|by constructor|lia|f_equal; lia].
  - intros Hn [Hc Hf] Hw Hlt. destruct (IH n Hn Hc Hw Hlt). done.
Qed.

Lemma args_loop_ok fuel argc ret i : (i <= es)%nat -> (MAXARGS <= argc + fuel)%nat -> (argc < MAXARGS)%nat -> arity ret = Some argc -> tree_ok ret ->
  okp (args_loop buf es fuel argc ret) (fun t j => (j <= es)%nat /\ (length (R j) <= length (R i))%nat /\ tree_ok t) i.
Proof.
  revert argc ret i. induction fuel as [|fuel IH]; intros argc ret i Hi Hf Hlt Har Hok; [lia|]. cbn [args_loop]. ppeek j Hj Rj. rewrite (decide_True _ _ Hlt).
  destruct (head_in [124; 41; 38; 59] (R i)); [unfold okp, mret, M_ret; by rewrite Rj|]. ptok w k Hk Rk Hw.
  destruct (Z.eqb_spec (tok_of (R j)).1 0) as [E0|N0].
  - unfold okp, mret, M_ret. split_and!; [done| |done]. rewrite <- Rj. destruct (R j) as [|x r] eqn:Ej; [by rewrite Rk|]. rewrite <- Ej in *. pose proof (tok_len j ltac:(congruence)) as Ht. rewrite <- Rk in Ht. lia.
  - destruct (Z.eqb_spec (tok_of (R j)).1 97) as [E97|_]; [|pcomplain]. cbn [negb]. destruct (Hw E97) as [Hword _].
    rewrite (decide_True _ _ Hlt). destruct (decide (MAXARGS <= S argc)%nat) as [Hm|Hm]; [pcomplain|]. destruct (set_arg_ok w ret argc Har Hok Hword ltac:(lia)) as [Hok' Har'].
    assert (length (R k) <= length (R i))%nat as Hle.
    { rewrite <- Rj. destruct (R j) as [|x r] eqn:Ej; [by rewrite Rk|]. rewrite <- Ej in *. pose proof (tok_len j ltac:(congruence)) as Ht. rewrite <- Rk in Ht. lia. }
    pbind. eapply okp_mono; [by apply parseredirs_ok|]. intros ret' l (Hl & Hll & Hok2 & Har2). eapply okp_mono; [apply IH; [done|lia|lia|congruence|auto]|]. intros t m (? & ? & ?). split_and!; [done|lia|done].
Qed.

Lemma back_loop_ok fuel c i : (i <= es)%nat -> (length (R i) < fuel)%nat -> tree_ok c ->
  okp (back_loop buf es fuel c) (fun t j => (j <= es)%nat /\ (length (R j) <= length (R i))%nat /\ tree_ok t) i.
Proof.
  revert c i. induction fuel as [|fuel IH]; intros c i Hi Hf Hok; [lia|]. cbn [back_loop]. ppeek j Hj Rj. destruct (head_in [38] (R i)) eqn:Hh; [|unfold okp, mret, M_ret; by rewrite Rj].
  rewrite <- Rj in Hh. ptok w k Hk Rk Hw. pose proof (tok_len j (head_in_nil _ _ Hh)) as Hlen. rewrite <- Rk, Rj in Hlen. eapply okp_mono; [apply IH; [done|lia|done]|].
  intros t l (? & ? & ?). split_and!; [done|lia|done].
Qed.

Lemma parse_ok fuel : forall i, (i <= es)%nat ->
  let post := fun (t : tree) j => (j <= es)%nat /\ (length (R j) <= length (R i))%nat /\ tree_ok t in
  ((4 * length (R i) + 4 <= fuel)%nat -> okp (parseline buf es fuel) post i) /\
  ((4 * length (R i) + 3 <= fuel)%nat -> okp (parsepipe buf es fuel) post i) /\
  ((4 * length (R i) + 2 <= fuel)%nat -> okp (parseexec buf es fuel) post i) /\
  ((4 * length (R i) + 1 <= fuel)%nat -> head_in [40] (R i) = true -> okp (parseblock buf es fuel) post i).
Proof.
  induction fuel as [|fuel IH]; intros i Hi post; [lia|].
  assert (forall j, (length (R j) <= es)%nat) as HR by (intros j; unfold R; pose proof (dw_length (strchr whitespace) (drop j line)) as H; rewrite length_drop in H; fold es in H; lia).
  destruct (IH i Hi) as (_ & Hpipe & Hexec & Hblock). split_and!; intros Hf.
  - cbn [parseline]. pbind. eapply okp_mono; [apply Hpipe; lia|]. intros c j (Hj & Hlj & Hc). pbind. eapply okp_mono; [apply back_loop_ok; [done|specialize (HR j); lia|done]|].
    intros c2 k (Hk & Hlk & Hc2). ppeek l Hl Rl. destruct (head_in [59] (R k)) eqn:Hh; [|unfold okp, mret, M_ret; subst post; cbv beta; rewrite Rl; split_and!; [done|lia|done]].
    rewrite <- Rl in Hh. ptok w m Hm Rm Hw. pose proof (tok_len l (head_in_nil _ _ Hh)) as Hlen. rewrite <- Rm, Rl in Hlen. pbind. destruct (IH m Hm) as (Hline & _).
    eapply okp_mono; [apply Hline; lia|]. intros r n (? & ? & ?). unfold okp, mret, M_ret. subst post. cbv beta. split_and!; [done|lia|]. by split.
  - cbn [parsepipe]. pbind. eapply okp_mono; [apply Hexec; lia|]. intros c k (Hk & Hlk & Hc). ppeek l Hl Rl. destruct (head_in [124] (R k)) eqn:Hh; [|unfold okp, mret, M_ret; subst post; cbv beta; rewrite Rl; split_and!; [done|lia|done]].
    rewrite <- Rl in Hh. ptok w m Hm Rm Hw. pose proof (tok_len l (head_in_nil _ _ Hh)) as Hlen. rewrite <- Rm, Rl in Hlen. pbind. destruct (IH m Hm) as (_ & Hp & _).
    eapply okp_mono; [apply Hp; lia|]. intros r n (? & ? & ?). unfold okp, mret, M_ret. subst post. cbv beta. split_and!; [done|lia|]. by split.
  - cbn [parseexec]. ppeek j Hj Rj. destruct (head_in [40] (R i)) eqn:Hh.
    + destruct (IH j Hj) as (_ & _ & _ & Hb). rewrite Rj in Hb. eapply okp_mono; [apply Hb; [lia|done]|]. done.
    + pbind. eapply okp_mono; [by apply parseredirs_ok|]. intros c k (Hk & Hlk & Hok & Har). rewrite Rj in Hlk. eapply okp_mono; [apply args_loop_ok; [done|unfold MAXARGS; lia|unfold MAXARGS; lia|done|]|].
      * apply Hok. simpl. split; [constructor|unfold MAXARGS; lia].
      * intros t l (? & ? & ?). subst post. cbv beta. split_and!; [done|lia|done].
  - intros Hh. cbn [parseblock]. ppeek j Hj Rj. rewrite Hh. cbn [negb]. rewrite <- Rj in Hh. ptok w k Hk Rk Hw. pose proof (tok_len j (head_in_nil _ _ Hh)) as Hlen. rewrite <- Rk, Rj in Hlen.
    pbind. destruct (IH k Hk) as (Hline & _). eapply okp_mono; [apply Hline; lia|]. intros c l (Hl & Hll & Hc). ppeek m Hm Rm. destruct (head_in [41] (R l)) eqn:Hh2; [|pcomplain].
    cbn [negb]. rewrite <- Rm in Hh2. ptok w2 n Hn Rn Hw2. pose proof (tok_len m (head_in_nil _ _ Hh2)) as Hlen2. rewrite <- Rn, Rm in Hlen2. eapply okp_mono; [by apply parseredirs_ok|].
    intros t o (? & ? & Hok & _). subst post. cbv beta. split_and!; [done|lia|by apply Hok].
Qed.

(** ** The strings *)

Fixpoint words {W} (t : cmd W) : list W :=
  match t with
  | EXEC argv => argv
  | REDIR c w _ _ => words c ++ [w]
  | PIPE l r | LIST l r => words l ++ words r
  | BACK c => words c
  end.

Lemma cmd_map_ext {A B} (f g : A -> B) t : (forall w, w ∈ words t -> f w = g w) -> cmd_map f t = cmd_map g t.
Proof.
  induction t as [argv|c IH w m fd|l IHl r IHr|l IHl r IHr|c IH]; simpl; intros H; f_equal; try (by apply list_fmap_ext; intros i x Hx; apply H; by eapply list_elem_of_lookup_2);
    first [apply IH|apply IHl|apply IHr|apply H]; try intros w' Hw'; try apply H; set_solver.
Qed.

Lemma tree_words t : tree_ok t -> forall w, w ∈ words t -> word w.
Proof.
  induction t as [argv|c IH w m fd|l IHl r IHr|l IHl r IHr|c IH]; simpl; intros Hok x Hx.
  - destruct Hok as [Ha _]. rewrite Forall_forall in Ha. by apply Ha.
  - destruct Hok as [Hc Hw]. apply elem_of_app in Hx as [Hx|Hx%list_elem_of_singleton]; [by apply IH|by subst].
  - destruct Hok. apply elem_of_app in Hx as [Hx|Hx]; auto.
  - destruct Hok. apply elem_of_app in Hx as [Hx|Hx]; auto.
  - auto.
Qed.

(** Some ends of words are NUL now. *)
Record cut (b : list Z) : Prop := {
  ct_len : length b = length buf;
  ct_same i : b !! i = buf !! i \/ (b !! i = Some 0 /\ (i <= es)%nat /\ (wordc (ch buf i) = false \/ ch buf i = 0))
}.

Lemma put_nul_ok w b : cut b -> word w -> exists b', put_nul w.2 b = Ret tt b' /\ cut b' /\ b' !! w.2 = Some 0 /\ forall i, b !! i = Some 0 -> b' !! i = Some 0.
Proof.
  intros [Hl Hs] Hw. assert (w.2 < length b)%nat as Hlt.
  { rewrite Hl. unfold buf. rewrite length_app. simpl. pose proof (wd_lt _ Hw). fold es. lia. }
  unfold put_nul. rewrite decide_True by done. eexists. split; [done|]. assert (<[w.2 := 0]> b !! w.2 = Some 0) as H0 by (by apply list_lookup_insert_eq). split; [|split; [done|]].
  - split; [by rewrite length_insert|]. intros i. destruct (decide (i = w.2)) as [->|Hne]; [right|rewrite list_lookup_insert_ne by done; apply Hs].
    split; [done|]. split; [pose proof (wd_lt _ Hw); lia|apply (wd_out _ Hw)].
  - intros i Hi. destruct (decide (i = w.2)) as [->|Hne]; [done|]. by rewrite list_lookup_insert_ne.
Qed.

Lemma nul_args l b : cut b -> Forall word l -> exists b', for_each (R := unit) l (fun w => put_nul w.2;; mret None) b = Ret None b' /\ cut b' /\
  (forall w, w ∈ l -> b' !! w.2 = Some 0) /\ forall i, b !! i = Some 0 -> b' !! i = Some 0.
Proof.
  revert b. induction l as [|w l IH]; intros b Hb Hl; [exists b; split_and!; [done|done|intros w Hw; by apply elem_of_nil in Hw|done]|].
  apply Forall_cons in Hl as [Hw Hl]. destruct (put_nul_ok w b Hb Hw) as (b1 & E1 & Hb1 & H0 & H1). destruct (IH b1 Hb1 Hl) as (b2 & E2 & Hb2 & H2 & H3).
  exists b2. split; [cbn [for_each]; rewrite bind_assoc; by erewrite bind_ret by exact E1|]. split; [done|]. split; [|by auto]. intros x [->|Hx]%elem_of_cons; auto.
Qed.

Lemma nulterminate_ok t b : cut b -> tree_ok t -> exists b', nulterminate t b = Ret tt b' /\ cut b' /\
  (forall w, w ∈ words t -> b' !! w.2 = Some 0) /\ forall i, b !! i = Some 0 -> b' !! i = Some 0.
Proof.
  assert (forall l r b, cut b -> tree_ok l -> tree_ok r ->
    (forall b, cut b -> tree_ok l -> exists b', nulterminate l b = Ret tt b' /\ cut b' /\ (forall w, w ∈ words l -> b' !! w.2 = Some 0) /\ forall i, b !! i = Some 0 -> b' !! i = Some 0) ->
    (forall b, cut b -> tree_ok r -> exists b', nulterminate r b = Ret tt b' /\ cut b' /\ (forall w, w ∈ words r -> b' !! w.2 = Some 0) /\ forall i, b !! i = Some 0 -> b' !! i = Some 0) ->
    exists b', (nulterminate l;; nulterminate r) b = Ret tt b' /\ cut b' /\ (forall w, w ∈ words l ++ words r -> b' !! w.2 = Some 0) /\ forall i, b !! i = Some 0 -> b' !! i = Some 0) as Htwo.
  { intros l r b0 Hb Hl Hr IHl IHr. destruct (IHl b0 Hb Hl) as (b1 & E1 & Hb1 & W1 & Z1). destruct (IHr b1 Hb1 Hr) as (b2 & E2 & Hb2 & W2 & Z2). exists b2.
    split; [by erewrite bind_ret by exact E1|]. split; [done|]. split; [|by auto]. intros w [Hw|Hw]%elem_of_app; auto. }
  revert b. induction t as [argv|c IH w m fd|l IHl r IHr|l IHl r IHr|c IH]; intros b Hb Hok; cbn [nulterminate words]; [| |destruct Hok; by apply Htwo|destruct Hok; by apply Htwo|by apply IH].
  - destruct Hok as [Ha _]. destruct (nul_args argv b Hb Ha) as (b1 & E1 & H1). exists b1. split; [|done]. by erewrite bind_ret by exact E1.
  - destruct Hok as [Hc Hw]. destruct (IH b Hb Hc) as (b1 & E1 & Hb1 & W1 & Z1). destruct (put_nul_ok w b1 Hb1 Hw) as (b2 & E2 & Hb2 & H0 & Z2). exists b2.
    split; [by erewrite bind_ret by exact E1|]. split; [done|]. split; [|by auto]. intros x [Hx|Hx%list_elem_of_singleton]%elem_of_app; [by auto|by subst].
Qed.

(** The string at an address of the buffer. *)
Fixpoint cstr (l : list Z) : list Z := match l with c :: l => if c =? 0 then [] else c :: cstr l | [] => [] end.
Definition str_at (b : list Z) (q : nat) : list Z := cstr (drop q b).

Lemma cstr_app l r : Forall (fun c => c <> 0) l -> cstr (l ++ 0 :: r) = l.
Proof. induction 1 as [|c l Hc _ IH]; [done|]. simpl. rewrite (proj2 (Z.eqb_neq c 0)) by done. by rewrite IH. Qed.

Lemma str_word b w : cut b -> word w -> b !! w.2 = Some 0 -> str_at b w.1 = slice w.
Proof.
  intros [Hl Hs] Hw H0. pose proof (wd_lt _ Hw) as Hlt. destruct w as [q e]. simpl in *. assert (forall i, (q <= i < e)%nat -> b !! i = line !! i) as Hsame.
  { intros i Hi. pose proof (lookup_lt_is_Some_2 line i ltac:(fold es; lia)) as [d Hd]. assert (ch buf i = d) as Ec by (eapply ch_in, drop_S, Hd).
    destruct (Hs i) as [Hsi|(_ & _ & [Hc|Hc])]; [rewrite Hsi; unfold buf; by apply lookup_app_l; fold es; lia|rewrite (wd_in _ Hw i) in Hc by (simpl; lia); done|].
    destruct (drop_nonul i d _ (drop_S _ _ _ Hd)). congruence. }
  unfold str_at, slice. simpl. assert (drop q b = take (e - q) (drop q line) ++ 0 :: drop (S e) b) as ->.
  { rewrite <- (drop_S b 0 e H0). replace (drop e b) with (drop (e - q) (drop q b)) by (rewrite drop_drop; f_equal; lia). rewrite <- (take_drop (e - q) (drop q b)) at 1. f_equal.
    apply list_eq. intros i. destruct (decide (i < e - q)%nat) as [Hi|Hi]; [|rewrite !lookup_take_ge by lia; done]. rewrite !lookup_take_lt, !lookup_drop by lia. apply Hsame. lia. }
  apply cstr_app. apply Forall_take, Forall_drop. done.
Qed.

Lemma strlen_line : strlen buf = es.
Proof.
  unfold buf, es. induction line as [|c l IH]; [done|]. apply Forall_cons in nonul as [Hc Hl]. simpl. rewrite (proj2 (Z.eqb_neq c 0)) by done. by rewrite IH.
Qed.

Lemma nul_strings t : tree_ok t -> exists b, (nulterminate t;; mret t) buf = Ret t b /\ cut b /\ cmd_map (fun w => str_at b w.1) t = cmd_map slice t.
Proof.
  intros Hok. assert (cut buf) as Hcut by (split; [done|by left]). destruct (nulterminate_ok t buf Hcut Hok) as (b & E & Hb & Hw & _). exists b. split; [by erewrite bind_ret by exact E|]. split; [done|].
  apply cmd_map_ext. intros w Hin. apply str_word; [done|by eapply tree_words|by apply Hw].
Qed.

Lemma parsecmd_ok : match parsecmd buf with
  | Ret t b => tree_ok t /\ cut b /\ cmd_map (fun w => str_at b w.1) t = cmd_map slice t
  | Panic msg => msg ∈ complaints
  | _ => False
  end.
Proof.
  unfold parsecmd. rewrite strlen_line. assert (length (R 0) <= es)%nat as HR by (unfold R; pose proof (dw_length (strchr whitespace) (drop 0 line)) as H; rewrite length_drop in H; fold es in H; lia).
  destruct (parse_ok (4 * es + 4) 0 ltac:(lia)) as (Hline & _). specialize (Hline ltac:(lia)). unfold okp in Hline. cbv zeta.
  destruct (parseline buf es (4 * es + 4) 0%nat) as [t j|msg| |]; [|done|done|done]. destruct Hline as (Hj & _ & Hok). destruct (decide (skip buf es (strchr whitespace) j <> es)); [unfold complaints; rewrite !elem_of_cons; tauto|].
  destruct (nul_strings t Hok) as (b & -> & Hb & Hm). done.
Qed.
End Spec.

(** ** Printing *)

Definition redir_op (m fd : Z) : list Z := if fd =? 0 then [60] else if m =? 1537 then [62] else [62; 62].
Definition show_redir (x : list Z * Z * Z) : list Z := redir_op x.1.2 x.2 ++ x.1.1 ++ [32].
Definition show_word (w : list Z) : list Z := w ++ [32].
Definition paren (b : bool) (l : list Z) : list Z := if b then [40] ++ l ++ [41] else l.

(** A command where a command (0), a pipeline (1), one put in the background (2) or a
    list (3) may stand. *)
Fixpoint show (k : nat) (c : cmd (list Z)) : list Z :=
  match c with
  | EXEC argv => concat (show_word <$> argv)
  | REDIR c f m fd => show 0 c ++ show_redir (f, m, fd)
  | PIPE l r => paren (k <? 1)%nat (show 0 l ++ [124] ++ show 1 r)
  | BACK c => paren (k <? 2)%nat (show 2 c ++ [38])
  | LIST l r => paren (k <? 3)%nat (show 2 l ++ [59] ++ show 3 r)
  end.

Definition lit (w : list Z) : Prop := w <> [] /\ Forall (fun c => wordc c = true /\ c <> 0) w.
Definition redir_ok (x : list Z * Z * Z) : Prop := lit x.1.1 /\ (x.1.2, x.2) ∈ [(0, 0); (1537, 1); (513, 1)].
Fixpoint wf (c : cmd (list Z)) : Prop :=
  match c with
  | EXEC argv => Forall lit argv /\ (length argv < MAXARGS)%nat
  | REDIR c f m fd => wf c /\ redir_ok (f, m, fd)
  | PIPE l r | LIST l r => wf l /\ wf r
  | BACK c => wf c
  end.

Definition wrap {W} (rs : list (W * Z * Z)) (c : cmd W) : cmd W := foldl (fun c x => REDIR c x.1.1 x.1.2 x.2) c rs.
Local Notation ws := (strchr whitespace).
(** What may follow at a level. *)
Definition follow (toks : list Z) (r : list Z) : Prop := match dw ws r with [] => True | c :: _ => c ∈ toks end.

Lemma dw_app_len x y : (length (dw ws y) <= length (dw ws (x ++ y)))%nat.
Proof. induction x as [|c x IH]; [done|]. simpl. destruct (ws c); [done|]. pose proof (dw_length ws y). simpl. rewrite length_app. lia. Qed.

Lemma lit_head w : lit w -> exists c w', w = c :: w' /\ wordc c = true /\ ws c = false /\ c ∉ symbols.
Proof.
  intros [Hn Hw]. destruct w as [|c w']; [done|]. apply Forall_cons in Hw as [[Hc _] _]. exists c, w'. split_and!; [done|done| |].
  - unfold wordc in Hc. by destruct (strchr whitespace c).
  - apply strchr_false. unfold wordc in Hc. destruct (strchr symbols c); [by rewrite andb_false_r in Hc|done].
Qed.

Lemma lit_dw w r : lit w -> dw ws (w ++ r) = w ++ r.
Proof. intros (c & w' & -> & _ & Hc & _)%lit_head. simpl. by rewrite Hc. Qed.
Lemma lit_tw w r : lit w -> tw wordc (w ++ 32 :: r) = w /\ dw wordc (w ++ 32 :: r) = 32 :: r.
Proof.
  intros [_ Hw]. induction Hw as [|c w [Hc _] _ IH]; [done|]. simpl. rewrite Hc. destruct IH as [-> ->]. done.
Qed.
Lemma lit_tok w r : lit w -> tok_of (w ++ 32 :: r) = (97, 32 :: r).
Proof.
  intros Hw. destruct (lit_tw w r Hw) as [_ Hd]. destruct (lit_head w Hw) as (c & w' & -> & Hc & _ & Hs). cbn [app tok_of] in *.
  assert (strchr [124; 40; 41; 59; 38; 60] c = false) as -> by (apply strchr_false; unfold symbols in Hs; set_solver). rewrite (proj2 (Z.eqb_neq c 62)) by (unfold symbols in Hs; set_solver). by rewrite Hd.
Qed.

Lemma op_tok m fd f rest : redir_ok (f, m, fd) -> let t := redir_op m fd ++ f ++ 32 :: rest in
  dw ws t = t /\ head_in [60; 62] t = true /\ exists tok, tok_of t = (tok, f ++ 32 :: rest) /\
  forall (c0 : tree) w, (if tok =? 60 then REDIR c0 w O_RDONLY 0
         else if tok =? 62 then REDIR c0 w (Z.lor (Z.lor O_WRONLY O_CREATE) O_TRUNC) 1
         else if tok =? 43 then REDIR c0 w (Z.lor O_WRONLY O_CREATE) 1
         else c0) = REDIR c0 w m fd.
Proof.
  intros [Hlit Hop] t. cbn [fst snd] in *. destruct (lit_head f Hlit) as (c & f' & -> & Hc & Hwsc & Hsym).
  assert ((c =? 62) = false) as H62 by (apply Z.eqb_neq; unfold symbols in Hsym; set_solver). rewrite !elem_of_cons, elem_of_nil in Hop.
  destruct Hop as [[= -> ->]|[[= -> ->]|[[= -> ->]|[]]]]; (split; [done|]; split; [done|]).
  - by exists 60.
  - exists 62. split; [|done]. subst t. cbn. by rewrite H62.
  - exists 43. done.
Qed.

Section Trip.
Variables line pad : list Z.
Hypothesis nonul : Forall (fun c => c <> 0) line.
Local Notation buf := (line ++ 0 :: pad).
Local Notation es := (length line).
Local Notation R := (R line).
Local Notation slice := (slice line).

Ltac wpeek j Hj Rj := apply wp_bind, (peek_ok line pad nonul); [lia|intros j Hj Rj].
Ltac wtok w j Hj Rj Hw := apply wp_bind, (gettoken_ok line pad nonul); [lia|intros w j Hj Rj Hw].

(** A word and a blank are a token. *)
Lemma word_trip w rest i (Q : Z * (nat * nat) -> nat -> Prop) : (i <= es)%nat -> lit w -> R i = w ++ 32 :: rest ->
  (forall x j, (j <= es)%nat -> R j = dw ws rest -> slice x = w -> Q (97, x) j) -> wp (gettoken buf es) Q i.
Proof.
  intros Hi Hw HR HQ. apply (gettoken_ok line pad nonul); [done|]. rewrite HR, (lit_tok w rest Hw). cbn [fst snd]. intros x j Hj Rj Hx. destruct (Hx eq_refl) as [_ Hs].
  destruct (lit_tw w rest Hw) as [Ht _]. apply HQ; [done|done|congruence].
Qed.

Lemma redirs_trip rs c0 r fuel i : (i <= es)%nat -> R i = dw ws (concat (show_redir <$> rs) ++ r) -> Forall redir_ok rs -> head_in [60; 62] (dw ws r) = false -> (length (R i) < fuel)%nat ->
  wp (parseredirs_loop buf es fuel c0) (fun t j => (j <= es)%nat /\ R j = dw ws r /\ cmd_map slice t = wrap rs (cmd_map slice c0) /\ arity t = arity c0) i.
Proof.
  revert c0 fuel i. induction rs as [|[[f m] fd] rs IH]; intros c0 fuel i Hi HR Hrs Hr Hf; (destruct fuel as [|fuel]; [lia|]); cbn [parseredirs_loop]; wpeek j Hj Rj.
  - cbn [fmap list_fmap concat app] in HR. rewrite HR, Hr. apply wp_ret. rewrite Rj, HR. done.
  - apply Forall_cons in Hrs as [Hop Hrs]. cbn [fmap list_fmap concat] in HR. unfold show_redir in HR at 1. cbn [fst snd] in HR. rewrite <- !app_assoc in HR. cbn [app] in HR.
    set (rest := concat (show_redir <$> rs) ++ r) in *. destruct (op_tok m fd f rest Hop) as (Hdw & Hh & tok & Htok & Htree). rewrite Hdw in HR. rewrite <- Rj in HR. rewrite <- Rj, HR, Hh.
    wtok w k Hk Rk Hw. rewrite HR, Htok in Rk |- *. cbn [fst snd] in *. destruct Hop as [Hlit _]. cbn [fst snd] in Hlit. rewrite (lit_dw f (32 :: rest) Hlit) in Rk.
    apply wp_bind, (word_trip f rest); [done|done|done|]. intros x l Hl Rl Hx. change (negb (97 =? 97)) with false. cbv iota. rewrite Htree.
    eapply wp_mono; [|apply (IH (REDIR c0 x m fd)); [done|done|done|done|]].
    + intros t n (Hn & Rn & Ht & Har). split_and!; [done|done| |done]. rewrite Ht. cbn [cmd_map]. rewrite Hx. done.
    + rewrite Rl. pose proof (dw_length ws rest). rewrite <- Rj, HR in Hf. rewrite !length_app in Hf. simpl in Hf. lia.
Qed.
Lemma R_len i : (length (R i) <= es)%nat.
Proof. unfold Sh.R. pose proof (dw_length ws (drop i line)) as H. rewrite length_drop in H. lia. Qed.

Definition ends0 : list Z := [124; 41; 38; 59].
Definition ends1 : list Z := [41; 38; 59].
Definition ends2 : list Z := [41; 59].
Definition ends3 : list Z := [41].

Lemma follow_not toks bad r : follow toks r -> (forall c, c ∈ toks -> c ∉ bad) -> head_in bad (dw ws r) = false.
Proof. unfold follow. intros Hf Hb. destruct (dw ws r) as [|c r']; [done|]. simpl. by apply strchr_false, Hb. Qed.
Lemma follow_weak toks toks' r : follow toks r -> toks ⊆ toks' -> follow toks' r.
Proof. unfold follow. destruct (dw ws r); [done|set_solver]. Qed.

(** The end of the arguments. *)
Lemma args_end fuel argc ret r i : (i <= es)%nat -> R i = dw ws r -> follow ends0 r -> (argc < MAXARGS)%nat -> (0 < fuel)%nat ->
  wp (args_loop buf es fuel argc ret) (fun t j => (j <= es)%nat /\ R j = dw ws r /\ t = ret) i.
Proof.
  intros Hi HR Hf Ha Hfu. destruct fuel as [|fuel]; [lia|]. cbn [args_loop]. wpeek j Hj Rj. rewrite HR in Rj |- *. rewrite (decide_True _ _ Ha). unfold follow in Hf.
  destruct (dw ws r) as [|c r'] eqn:Er.
  - cbn [head_in]. wtok w k Hk Rk Hw. rewrite Rj in Rk |- *. cbn [tok_of fst snd] in *. change (0 =? 0) with true. cbv iota. by apply wp_ret.
  - cbn [head_in]. change [124; 41; 38; 59] with ends0. rewrite (proj2 (strchr_true _ _) Hf). by apply wp_ret.
Qed.

Lemma set_arg_map x t ws0 : cmd_map slice t = EXEC ws0 -> cmd_map slice (set_arg x t) = EXEC (ws0 ++ [slice x]).
Proof. destruct t; simpl; [|done..]. intros [= <-]. by rewrite fmap_app. Qed.

Lemma head_word w r toks : lit w -> toks ⊆ symbols -> head_in toks (w ++ r) = false.
Proof. intros (c & w' & -> & _ & _ & Hs)%lit_head Ht. simpl. apply strchr_false. set_solver. Qed.

Lemma args_trip args rs done0 ret r fuel i : (i <= es)%nat -> R i = dw ws (concat (show_word <$> args) ++ concat (show_redir <$> rs) ++ r) ->
  Forall lit args -> args <> [] -> Forall redir_ok rs -> follow ends0 r -> cmd_map slice ret = EXEC done0 -> (length done0 + length args < MAXARGS)%nat -> (length args < fuel)%nat ->
  wp (args_loop buf es fuel (length done0) ret) (fun t j => (j <= es)%nat /\ R j = dw ws r /\ cmd_map slice t = wrap rs (EXEC (done0 ++ args))) i.
Proof.
  intros Hi HR Hl Hne Hrs Hf. revert done0 ret fuel i Hi HR. induction args as [|a args IH]; intros done0 ret fuel i Hi HR Hret Hlen Hfu; [done|]. clear Hne. apply Forall_cons in Hl as [Ha Hl].
  destruct fuel as [|fuel]; [lia|]. cbn [args_loop fmap list_fmap concat] in *. unfold show_word in HR at 1. rewrite <- !app_assoc in HR. cbn [app] in HR.
  set (rest := concat (show_word <$> args) ++ concat (show_redir <$> rs) ++ r) in *. rewrite (lit_dw a _ Ha) in HR. wpeek j Hj Rj. rewrite HR in Rj |- *.
  rewrite (head_word a _ _ Ha) by (unfold symbols; set_solver). apply wp_bind, (word_trip a rest); [done|done|done|]. intros x k Hk Rk Hx. change (97 =? 0) with false. change (negb (97 =? 97)) with false. cbv iota.
  simpl in Hlen. rewrite decide_True, decide_False by lia. pose proof (set_arg_map x ret done0 Hret) as Hset. rewrite Hx in Hset. apply wp_bind. destruct args as [|b args].
  - eapply wp_mono; [|apply (redirs_trip rs (set_arg x ret) r); [done|done|done| |pose proof (R_len k); lia]].
    + intros t l (Hl1 & Rl & Ht & _). eapply wp_mono; [|apply (args_end fuel _ t r); [done|done|done|lia|simpl in Hfu; lia]]. intros t' m (Hm & Rm & ->). split_and!; [done|done|]. by rewrite Ht, Hset.
    + apply (follow_not ends0); [done|]. unfold ends0. set_solver.
  - eapply wp_mono; [|apply (redirs_trip [] (set_arg x ret) rest); [done|done|constructor| |pose proof (R_len k); lia]].
    + intros t l (Hl1 & Rl & Ht & _). replace (S (length done0)) with (length (done0 ++ [a])) by (rewrite length_app; simpl; lia). cbn [wrap foldl] in Ht. rewrite Hset in Ht.
      eapply wp_mono; [|apply (IH Hl ltac:(done) (done0 ++ [a]) t); [done|done|done|rewrite length_app; simpl in *; lia|simpl in *; lia]]. intros t' m (? & ? & Ht'). split_and!; [done|done|]. by rewrite Ht', <- app_assoc.
    + apply Forall_cons in Hl as [Hb _]. unfold rest. cbn [fmap list_fmap concat]. unfold show_word at 1. rewrite <- !app_assoc. rewrite (lit_dw b _ Hb). apply (head_word b _ _ Hb). unfold symbols. set_solver.
Qed.

(** A simple command with its redirections. *)
Lemma exec_trip argv rs r fuel i : (i <= es)%nat -> R i = dw ws (concat (show_word <$> argv) ++ concat (show_redir <$> rs) ++ r) ->
  Forall lit argv -> (length argv < MAXARGS)%nat -> Forall redir_ok rs -> follow ends0 r -> (0 < fuel)%nat ->
  wp (parseexec buf es fuel) (fun t j => (j <= es)%nat /\ R j = dw ws r /\ cmd_map slice t = wrap rs (EXEC argv)) i.
Proof.
  intros Hi HR Hl Hlen Hrs Hf Hfu. destruct fuel as [|fuel]; [lia|]. cbn [parseexec]. wpeek j Hj Rj. assert (head_in [60; 62] (dw ws r) = false) as Hr by (apply (follow_not ends0); [done|unfold ends0; set_solver]).
  assert (head_in [40] (R i) = false) as ->.
  { rewrite HR. destruct argv as [|a argv].
    - destruct rs as [|[[f m] fd] rs]; cbn [fmap list_fmap concat app]; [apply (follow_not ends0); [done|unfold ends0; set_solver]|]. apply Forall_cons in Hrs as [Hop _]. unfold show_redir at 1. cbn [fst snd]. rewrite <- !app_assoc. cbn [app].
      destruct (op_tok m fd f (concat (show_redir <$> rs) ++ r) Hop) as (-> & _). unfold redir_op. by repeat case_match.
    - apply Forall_cons in Hl as [Ha _]. cbn [fmap list_fmap concat]. unfold show_word at 1. rewrite <- !app_assoc, (lit_dw a _ Ha). apply (head_word a _ _ Ha). unfold symbols. set_solver. }
  apply wp_bind. destruct argv as [|a argv].
  - eapply wp_mono; [|apply (redirs_trip rs (EXEC []) r); [done|by rewrite Rj|done|done|pose proof (R_len j); lia]]. intros t k (Hk & Rk & Ht & _).
    eapply wp_mono; [|apply (args_end _ 0 t r); [done|done|done|unfold MAXARGS; lia|lia]]. intros t' l (? & ? & ->). done.
  - eapply wp_mono; [|apply (redirs_trip [] (EXEC []) (concat (show_word <$> a :: argv) ++ concat (show_redir <$> rs) ++ r)); [done|by rewrite Rj|constructor| |pose proof (R_len j); lia]].
    + intros t k (Hk & Rk & Ht & _). cbn [wrap foldl] in Ht. eapply wp_mono; [|apply (args_trip (a :: argv) rs [] t r); [done|done|done|done|done|done|done|simpl in *; lia|simpl in *; unfold MAXARGS in *; lia]]. done.
    + apply Forall_cons in Hl as [Ha _]. cbn [fmap list_fmap concat]. unfold show_word at 1. rewrite <- !app_assoc, (lit_dw a _ Ha). apply (head_word a _ _ Ha). unfold symbols. set_solver.
Qed.
(** A symbol is a token. *)
Lemma sym_trip c rest i (Q : Z * (nat * nat) -> nat -> Prop) : (i <= es)%nat -> c ∈ [124; 40; 41; 59; 38] -> R i = c :: rest ->
  (forall x j, (j <= es)%nat -> R j = dw ws rest -> Q (c, x) j) -> wp (gettoken buf es) Q i.
Proof.
  intros Hi Hc HR HQ. apply (gettoken_ok line pad nonul); [done|]. rewrite HR. cbn [tok_of].
  rewrite (proj2 (strchr_true [124; 40; 41; 59; 38; 60] c)) by set_solver. cbn [fst snd]. intros x j Hj Rj _. by apply HQ.
Qed.
Lemma sym_dw c rest : c ∈ [124; 40; 41; 59; 38] -> dw ws (c :: rest) = c :: rest.
Proof. intros Hc. cbn [dw]. rewrite (proj2 (strchr_false whitespace c)); [done|]. unfold whitespace. set_solver. Qed.

Definition backs (n : nat) (c : cmd (list Z)) : cmd (list Z) := Nat.iter n BACK c.

Lemma amps_trip n t r fuel i : (i <= es)%nat -> R i = dw ws (replicate n 38 ++ r) -> head_in [38] (dw ws r) = false -> (length (R i) < fuel)%nat ->
  wp (back_loop buf es fuel t) (fun t' k => (k <= es)%nat /\ R k = dw ws r /\ cmd_map slice t' = backs n (cmd_map slice t)) i.
Proof.
  revert t fuel i. induction n as [|n IH]; intros t fuel i Hi HR Hr Hf; (destruct fuel as [|fuel]; [lia|]); cbn [back_loop]; wpeek j Hj Rj.
  - cbn [replicate app] in HR. rewrite HR, Hr. apply wp_ret. by rewrite Rj, HR.
  - cbn [replicate app] in HR. rewrite (sym_dw 38) in HR by set_solver. rewrite HR in Rj |- *. cbn [head_in]. change (strchr [38] 38) with true. cbv iota.
    apply wp_bind, (sym_trip 38 (replicate n 38 ++ r)); [done|set_solver|done|]. intros x k Hk Rk. eapply wp_mono; [|apply (IH (BACK t)); [done|done|done|]].
    + intros t' l (? & ? & Ht). split_and!; [done|done|]. rewrite Ht. cbn [cmd_map backs]. unfold backs. by rewrite <- Nat.iter_succ_r.
    + rewrite Rk. pose proof (dw_length ws (replicate n 38 ++ r)). rewrite HR in Hf. simpl in Hf. lia.
Qed.

Definition T0 (c : cmd (list Z)) : Prop := forall rs r fuel i, (i <= es)%nat -> R i = dw ws (show 0 c ++ concat (show_redir <$> rs) ++ r) -> Forall redir_ok rs -> follow ends0 r ->
  (4 * length (R i) + 2 <= fuel)%nat -> wp (parseexec buf es fuel) (fun t j => (j <= es)%nat /\ R j = dw ws r /\ cmd_map slice t = wrap rs c) i.
Definition T1 (c : cmd (list Z)) : Prop := forall r fuel i, (i <= es)%nat -> R i = dw ws (show 1 c ++ r) -> follow ends1 r ->
  (4 * length (R i) + 3 <= fuel)%nat -> wp (parsepipe buf es fuel) (fun t j => (j <= es)%nat /\ R j = dw ws r /\ cmd_map slice t = c) i.
Definition T2 (c : cmd (list Z)) : Prop := forall n r fuel i, (i <= es)%nat -> R i = dw ws (show 2 c ++ replicate n 38 ++ r) -> follow ends2 r ->
  (4 * length (R i) + 3 <= fuel)%nat -> wp (parsepipe buf es fuel) (fun t j => wp (back_loop buf es (S es) t) (fun t' k => (k <= es)%nat /\ R k = dw ws r /\ cmd_map slice t' = backs n c) j) i.
Definition T3 (c : cmd (list Z)) : Prop := forall r fuel i, (i <= es)%nat -> R i = dw ws (show 3 c ++ r) -> follow ends3 r ->
  (4 * length (R i) + 4 <= fuel)%nat -> wp (parseline buf es fuel) (fun t j => (j <= es)%nat /\ R j = dw ws r /\ cmd_map slice t = c) i.

Lemma t01 c : show 1 c = show 0 c -> T0 c -> T1 c.
Proof.
  intros Es H0 r fuel i Hi HR Hf Hfu. rewrite Es in HR. destruct fuel as [|fuel]; [lia|]. cbn [parsepipe]. apply wp_bind.
  eapply wp_mono; [|apply (H0 [] r); [done|done|constructor|apply (follow_weak ends1); [done|unfold ends0, ends1; set_solver]|lia]]. intros t j (Hj & Rj & Ht). wpeek k Hk Rk. rewrite Rj in Rk |- *.
  rewrite (follow_not ends1 [124] r Hf) by (unfold ends1; set_solver). by apply wp_ret.
Qed.

Lemma t12 c : show 2 c = show 1 c -> T1 c -> T2 c.
Proof.
  intros Es H1 n r fuel i Hi HR Hf Hfu. rewrite Es in HR. eapply wp_mono; [|apply (H1 (replicate n 38 ++ r)); [done|done| |done]].
  - intros t j (Hj & Rj & Ht). rewrite <- Ht. apply amps_trip; [done|done| |pose proof (R_len j); lia]. apply (follow_not ends2); [done|]. unfold ends2. set_solver.
  - destruct n as [|n]; [apply (follow_weak ends2); [done|unfold ends1, ends2; set_solver]|]. unfold follow. cbn [replicate app]. rewrite (sym_dw 38) by set_solver. unfold ends1. set_solver.
Qed.

Lemma t23 c : show 3 c = show 2 c -> T2 c -> T3 c.
Proof.
  intros Es H2 r fuel i Hi HR Hf Hfu. rewrite Es in HR. destruct fuel as [|fuel]; [lia|]. cbn [parseline]. apply wp_bind.
  eapply wp_mono; [|apply (H2 0%nat r); [done|done|apply (follow_weak ends3); [done|unfold ends2, ends3; set_solver]|lia]]. intros t j Hb. apply wp_bind. eapply wp_mono; [|exact Hb].
  intros t' k (Hk & Rk & Ht). wpeek l Hl Rl. rewrite Rk in Rl |- *. rewrite (follow_not ends3 [59] r Hf) by (unfold ends3; set_solver). by apply wp_ret.
Qed.

Lemma t30 c : show 0 c = 40 :: show 3 c ++ [41] -> T3 c -> T0 c.
Proof.
  intros Es H3 rs r fuel i Hi HR Hrs Hf Hfu. rewrite Es in HR. cbn [app] in HR. rewrite <- app_assoc in HR. cbn [app] in HR. rewrite (sym_dw 40) in HR by set_solver.
  set (rest := concat (show_redir <$> rs) ++ r) in *. destruct fuel as [|fuel]; [lia|]. cbn [parseexec]. wpeek j Hj Rj. rewrite HR in Rj. rewrite HR at 1. cbn [head_in]. change (strchr [40] 40) with true. cbv iota.
  destruct fuel as [|fuel]; [lia|]. cbn [parseblock]. wpeek k Hk Rk. rewrite Rj in Rk |- *. cbn [head_in]. change (strchr [40] 40) with true. cbn [negb].
  apply wp_bind, (sym_trip 40 (show 3 c ++ 41 :: rest)); [done|set_solver|done|]. intros x l Hl Rl. apply wp_bind.
  eapply wp_mono; [|apply (H3 (41 :: rest)); [done|done|unfold follow; rewrite (sym_dw 41) by set_solver; unfold ends3; set_solver|]].
  - intros t m (Hm & Rm & Ht). rewrite (sym_dw 41) in Rm by set_solver. wpeek n Hn Rn. rewrite Rm in Rn |- *. cbn [head_in]. change (strchr [41] 41) with true. cbn [negb].
    apply wp_bind, (sym_trip 41 rest); [done|set_solver|done|]. intros x' o Ho Ro. eapply wp_mono; [|apply (redirs_trip rs t r); [done|done|done| |pose proof (R_len o); lia]].
    + intros t' p (? & ? & Ht' & _). by rewrite Ht', Ht.
    + apply (follow_not ends0); [done|]. unfold ends0. set_solver.
  - rewrite Rl. pose proof (dw_length ws (show 3 c ++ 41 :: rest)). rewrite HR in Hfu. simpl in Hfu. lia.
Qed.

Lemma pipe_trip l r0 : T0 l -> T1 r0 -> T1 (PIPE l r0).
Proof.
  intros H0 H1 r fuel i Hi HR Hf Hfu. cbn [show paren Nat.ltb Nat.leb] in HR. rewrite <- !app_assoc in HR. cbn [app] in HR. destruct fuel as [|fuel]; [lia|]. cbn [parsepipe]. apply wp_bind.
  assert (dw ws (124 :: show 1 r0 ++ r) = 124 :: show 1 r0 ++ r) as Hd by (apply sym_dw; set_solver).
  eapply wp_mono; [|apply (H0 [] (124 :: show 1 r0 ++ r)); [done|done|constructor|unfold follow; rewrite Hd; unfold ends0; set_solver|lia]]. intros t j (Hj & Rj & Ht).
  pose proof (dw_app_len (show 0 l) (124 :: show 1 r0 ++ r)) as Hlen. rewrite <- HR, Hd in Hlen. rewrite Hd in Rj. wpeek k Hk Rk. rewrite Rj in Rk |- *. cbn [head_in]. change (strchr [124] 124) with true. cbv iota.
  apply wp_bind, (sym_trip 124 (show 1 r0 ++ r)); [done|set_solver|done|]. intros x m Hm Rm. apply wp_bind. eapply wp_mono; [|apply (H1 r); [done|done|done|]].
  - intros t' n (? & ? & Ht'). apply wp_ret. split_and!; [done|done|]. unfold pipecmd, listcmd. cbn [cmd_map]. rewrite Ht, Ht'. done.
  - rewrite Rm. pose proof (dw_length ws (show 1 r0 ++ r)). simpl in Hlen. lia.
Qed.

Lemma back_trip c : T2 c -> T2 (BACK c).
Proof.
  intros H2 n r fuel i Hi HR Hf Hfu. cbn [show paren Nat.ltb Nat.leb] in HR. rewrite <- !app_assoc in HR. eapply wp_mono; [|apply (H2 (S n) r); [done|done|done|done]].
  intros t j Hb. eapply wp_mono; [|exact Hb]. intros t' k (? & ? & Ht). split_and!; [done|done|]. rewrite Ht. unfold backs. by rewrite Nat.iter_succ_r.
Qed.

Lemma list_trip l r0 : T2 l -> T3 r0 -> T3 (LIST l r0).
Proof.
  intros H2 H3 r fuel i Hi HR Hf Hfu. cbn [show paren Nat.ltb Nat.leb] in HR. rewrite <- !app_assoc in HR. cbn [app] in HR. destruct fuel as [|fuel]; [lia|]. cbn [parseline]. apply wp_bind.
  assert (dw ws (59 :: show 3 r0 ++ r) = 59 :: show 3 r0 ++ r) as Hd by (apply sym_dw; set_solver).
  eapply wp_mono; [|apply (H2 0%nat (59 :: show 3 r0 ++ r)); [done|done|unfold follow; rewrite Hd; unfold ends2; set_solver|lia]]. intros t j Hb. apply wp_bind. eapply wp_mono; [|exact Hb]. clear j Hb t.
  intros t j (Hj & Rj & Ht). pose proof (dw_app_len (show 2 l) (59 :: show 3 r0 ++ r)) as Hlen. rewrite <- HR, Hd in Hlen. rewrite Hd in Rj. wpeek k Hk Rk. rewrite Rj in Rk |- *. cbn [head_in]. change (strchr [59] 59) with true. cbv iota.
  apply wp_bind, (sym_trip 59 (show 3 r0 ++ r)); [done|set_solver|done|]. intros x m Hm Rm. apply wp_bind. eapply wp_mono; [|apply (H3 r); [done|done|done|]].
  - intros t' n (? & ? & Ht'). apply wp_ret. split_and!; [done|done|]. unfold pipecmd, listcmd. cbn [cmd_map]. rewrite Ht, Ht'. done.
  - rewrite Rm. pose proof (dw_length ws (show 3 r0 ++ r)). simpl in Hlen. lia.
Qed.

Lemma all_trip c : wf c -> T0 c /\ T1 c /\ T2 c /\ T3 c.
Proof.
  induction c as [argv|c IH f m fd|l IHl r IHr|l IHl r IHr|c IH]; intros Hwf; cbn [wf] in Hwf.
  - assert (T0 (EXEC argv)) as H0 by (intros rs r fuel i Hi HR Hrs Hf Hfu; destruct Hwf; apply exec_trip; [done|done|done|done|done|done|lia]).
    assert (T1 (EXEC argv)) as H1 by (by apply t01). assert (T2 (EXEC argv)) as H2 by (by apply t12). split_and!; [done|done|done|by apply t23].
  - destruct Hwf as [Hc Hop]. destruct (IH Hc) as (I0 & _). assert (T0 (REDIR c f m fd)) as H0.
    { intros rs r fuel i Hi HR Hrs Hf Hfu. apply (I0 ((f, m, fd) :: rs) r); [done| |by constructor|done|done]. cbn [show] in HR. cbn [fmap list_fmap concat]. by rewrite <- !app_assoc in HR |- *. }
    assert (T1 (REDIR c f m fd)) as H1 by (by apply t01). assert (T2 (REDIR c f m fd)) as H2 by (by apply t12). split_and!; [done|done|done|by apply t23].
  - destruct Hwf as [Hl Hr]. assert (T1 (PIPE l r)) as H1 by (apply pipe_trip; [by apply IHl|by apply IHr]). assert (T2 (PIPE l r)) as H2 by (by apply t12). assert (T3 (PIPE l r)) as H3 by (by apply t23).
    split_and!; [by apply t30|done|done|done].
  - destruct Hwf as [Hl Hr]. assert (T3 (LIST l r)) as H3 by (apply list_trip; [by apply IHl|by apply IHr]). assert (T0 (LIST l r)) as H0 by (by apply t30). assert (T1 (LIST l r)) as H1 by (by apply t01).
    split_and!; [done|done|by apply t12|done].
  - assert (T2 (BACK c)) as H2 by (by apply back_trip, IH). assert (T3 (BACK c)) as H3 by (by apply t23). assert (T0 (BACK c)) as H0 by (by apply t30). split_and!; [done|by apply t01|done|done].
Qed.
End Trip.

Lemma lit_nonul w : lit w -> Forall (fun c => c <> 0) w.
Proof. intros [_ Hw]. eapply Forall_impl; [exact Hw|]. by intros c [_ ?]. Qed.

Lemma show_nonul k c : wf c -> Forall (fun c => c <> 0) (show k c).
Proof.
  revert k. induction c as [argv|c IH f m fd|l IHl r IHr|l IHl r IHr|c IH]; intros k Hwf; cbn [wf show] in *.
  - destruct Hwf as [Ha _]. induction Ha as [|w argv Hw _ IH]; [constructor|]. cbn [fmap list_fmap concat]. unfold show_word at 1. rewrite !Forall_app. split_and!; [by apply lit_nonul|by repeat constructor|done].
  - destruct Hwf as [Hc [Hl _]]. unfold show_redir, redir_op. rewrite !Forall_app. split_and!; [by apply IH|repeat case_match; by repeat constructor|by apply lit_nonul|by repeat constructor].
  - destruct Hwf. unfold paren. case_match; rewrite !Forall_app; split_and!; auto; by repeat constructor.
  - destruct Hwf. unfold paren. case_match; rewrite !Forall_app; split_and!; auto; by repeat constructor.
  - unfold paren. case_match; rewrite !Forall_app; split_and!; auto; by repeat constructor.
Qed.

Lemma ws_end space : Forall (fun x => x ∈ whitespace) space -> dw (strchr whitespace) space = [].
Proof. induction 1 as [|x l Hx _ IH]; [done|]. cbn [dw]. by rewrite (proj2 (strchr_true _ _) Hx). Qed.

(** A printed command is parsed back. *)
Lemma parse_show (c : cmd (list Z)) (space pad : list Z) : wf c -> Forall (fun x => x ∈ whitespace) space ->
  exists t b, parsecmd (show 3 c ++ space ++ 0 :: pad) = Ret t b /\ cmd_map (fun w => str_at b w.1) t = c.
Proof.
  intros Hc Hsp. set (line := show 3 c ++ space). assert (Forall (fun c => c <> 0) line) as Hnn.
  { apply Forall_app. split; [by apply show_nonul|]. eapply Forall_impl; [exact Hsp|]. unfold whitespace. intros x Hx ->. set_solver. }
  rewrite app_assoc. fold line. destruct (all_trip line pad Hnn c Hc) as (_ & _ & _ & H3). pose proof (ws_end space Hsp) as Hend.
  assert (R line 0 = dw (strchr whitespace) (show 3 c ++ space)) as HR by done. assert (follow ends3 space) as Hf by (unfold follow; by rewrite Hend).
  destruct (wp_elim _ _ _ (H3 space (4 * length line + 4)%nat 0%nat ltac:(lia) HR Hf ltac:(pose proof (R_len line 0); lia))) as (t & j & E & Hj & Rj & Ht). rewrite Hend in Rj.
  destruct (parse_ok line pad Hnn (4 * length line + 4) 0 ltac:(lia)) as (Hline & _). specialize (Hline ltac:(pose proof (R_len line 0); lia)). unfold okp in Hline. rewrite E in Hline. destruct Hline as (_ & _ & Hok).
  destruct (nul_strings line pad Hnn t Hok) as (b & En & _ & Hm). exists t, b. split; [|by rewrite Hm]. unfold parsecmd. rewrite (strlen_line line pad Hnn). cbv zeta. rewrite E.
  destruct (R_skip line pad j Hj) as [_ Hd]. rewrite Rj in Hd. destruct (skip_eq line pad (strchr whitespace) j Hj) as (_ & _ & Hle).
  rewrite decide_False; [exact En|]. intros Hne. apply Hne. apply (f_equal length) in Hd. rewrite length_drop in Hd. simpl in Hd. lia.
Qed.

(** C24: the recursive-descent parser terminates on every line: with four calls per
    character and four more it returns a tree or one of its four complaints. *)
Theorem sh_parse_terminates (line pad : list Z) (Hl : Forall (fun c => c <> 0) line) :
  match parsecmd (line ++ 0 :: pad) with Ret _ _ => True | Panic msg => msg ∈ complaints | _ => False end.
Proof. pose proof (parsecmd_ok line pad Hl) as H. by destruct (parsecmd (line ++ 0 :: pad)). Qed.

Lemma sh_parse_terminates_witness : match parsecmd (bytes "cat < a | (grep x; wc" ++ [0]) with Panic msg => msg ∈ complaints | _ => False end.
Proof. pose proof (sh_parse_terminates (bytes "cat < a | (grep x; wc") [] ltac:(vm_compute; repeat constructor; discriminate)) as H. vm_compute in H |- *. exact H. Defined.

(** C23: the tree the parser returns stays in bounds: every word lies in the line, no
    command has more arguments than the arrays hold with their terminator, the only
    stores in the buffer are NULs up to the end of the line, and the strings the
    command is run with are the words of the line, none of them cut. *)
Theorem sh_parse_bounds (line pad : list Z) (Hl : Forall (fun c => c <> 0) line) (t : tree) (b : list Z)
    (H : parsecmd (line ++ 0 :: pad) = Ret t b) :
  tree_ok line pad t /\ length b = length (line ++ 0 :: pad) /\
  (forall i, b !! i = (line ++ 0 :: pad) !! i \/ b !! i = Some 0 /\ (i <= length line)%nat) /\
  cmd_map (fun w => str_at b w.1) t = cmd_map (slice line) t.
Proof.
  pose proof (parsecmd_ok line pad Hl) as Hp. rewrite H in Hp. destruct Hp as (Hok & [Hlen Hs] & Hm). split_and!; [done|done| |done]. intros i. destruct (Hs i) as [?|(? & ? & _)]; [by left|by right].
Qed.

Lemma sh_parse_bounds_witness : exists t b, parsecmd (bytes "ls>b" ++ [0]) = Ret t b /\ cmd_map (fun w => str_at b w.1) t = REDIR (EXEC [bytes "ls"]) (bytes "b") 1537 1.
Proof.
  eexists _, _. split; [vm_compute; reflexivity|].
  destruct (sh_parse_bounds (bytes "ls>b") [] ltac:(vm_compute; repeat constructor; discriminate) (REDIR (EXEC [(0%nat, 2%nat)]) (3%nat, 4%nat) 1537 1) [108; 115; 0; 98; 0] ltac:(vm_compute; reflexivity)) as (_ & _ & _ & Hm).
  vm_compute in Hm |- *. exact Hm.
Defined.

(** C22: every command, printed with the shell's operators and with parentheses where
    they are needed and followed by white space, is parsed back to itself, and its words
    are the strings the buffer then holds. *)
Theorem sh_roundtrip (c : cmd (list Z)) (space pad : list Z) (Hc : wf c) (Hs : Forall (fun x => x ∈ whitespace) space) :
  exists t b, parsecmd (show 3 c ++ space ++ 0 :: pad) = Ret t b /\ cmd_map (fun w => str_at b w.1) t = c.
Proof. by apply parse_show. Qed.

Lemma sh_roundtrip_witness : exists t b, parsecmd (show 3 (BACK (PIPE (EXEC [bytes "a"]) (LIST (EXEC [bytes "b"]) (EXEC [])))) ++ [0]) = Ret t b /\
  cmd_map (fun w => str_at b w.1) t = BACK (PIPE (EXEC [bytes "a"]) (LIST (EXEC [bytes "b"]) (EXEC []))).
Proof.
  apply (sh_roundtrip _ []); [|constructor]. assert (lit (bytes "a") /\ lit (bytes "b")) as [Ha Hb] by (split; (split; [discriminate|repeat constructor; discriminate])). cbn [wf length]. unfold MAXARGS. split_and!; rewrite ?Forall_singleton; try lia; done.
Defined.
