(* ===== verification/ShRun.v ===== *)
(** * ShRun: the shell runs commands, [user/sh.c]

    [runcmd] never returns; here it is the tree of system calls the process makes, with
    a branch for every result that the code looks at.  [run] interprets such a tree for
    a process with a table of descriptors and records the life of the process and its
    children: what they print, where they fork, the descriptors they hold when they
    wait, execute a program or exit.  Which files open, which programs exist, which
    calls of [pipe] and [fork] succeed is the environment.

    [wires] says what a command means: which processes there are, what is on their
    descriptors and for whom they wait.  The theorems: the life of a command is that of
    [wires], descriptor for descriptor, so that no pipe end is left open in a process
    that does not use it, and whoever forks in the foreground waits; and the main loop
    takes the lines of its input one by one.  Left out: the prompt, and the message of
    a failing [cd]. *)

From S2P Require Import Proc Prelude Sh.

(** What a descriptor is connected to. *)
Inductive chan := Inherited (fd : nat) | Opened (file : list Z) (mode : Z) | ReadEnd (n : nat) | WriteEnd (n : nat).
Definition fdtable := list (option chan).

(** ** System calls *)

Inductive prog :=
| Exit (status : Z)
| Exec (path : list Z) (argv : list (list Z)) (failed : prog)
| Fprintf (msg : list Z) (k : prog)
| Close (fd : Z) (k : prog)
| Open (file : list Z) (mode : Z) (k : Z -> prog)
| Dup (fd : Z) (k : prog)
| Pipe (k : option (Z * Z) -> prog)
| Fork (k : Z -> prog)
| Wait (k : prog).

(** The lowest descriptor that is not in use. *)
Fixpoint lowest (T : fdtable) : option nat :=
  match T with [] => None | None :: _ => Some 0%nat | Some _ :: T => S <$> lowest T end.
Definition do_close (fd : Z) (T : fdtable) : fdtable := <[Z.to_nat fd := None]> T.
Definition do_dup (fd : Z) (T : fdtable) : fdtable :=
  match T !! Z.to_nat fd, lowest T with Some (Some c), Some i => <[i := Some c]> T | _, _ => T end.

(** [pipes] and [forks] answer for the calls of [pipe] and [fork] by their numbers. *)
Record environment := Env {
  opens : list Z -> Z -> bool; exists_ : list Z -> bool; pipes : nat -> bool; forks : nat -> bool
}.

(** The life of a process from some point on: a program takes over, it exits, it prints
    on descriptor 2, forks a child, or waits for one; with its descriptors. *)
Inductive life :=
| Runs (argv : list (list Z)) (T : fdtable)
| Exits (status : Z) (T : fdtable)
| Says (msg : list Z) (l : life)
| Forks (child parent : life)
| Waits (T : fdtable) (l : life).

Section Run.
Variable env : environment.

(** The calls of [pipe] and of [fork] are numbered from [n.1] and [n.2]. *)
Fixpoint run (p : prog) (T : fdtable) (n : nat * nat) : life * (nat * nat) :=
  match p with
  | Exit status => (Exits status T, n)
  | Exec path argv k => if exists_ env path then (Runs argv T, n) else run k T n
  | Fprintf msg k => let '(l, n) := run k T n in (Says msg l, n)
  | Close fd k => run k (do_close fd T) n
  | Open file mode k =>
    match lowest T with
    | Some i => if opens env file mode then run (k (Z.of_nat i)) (<[i := Some (Opened file mode)]> T) n else run (k (-1)) T n
    | None => run (k (-1)) T n
    end
  | Dup fd k => run k (do_dup fd T) n
  | Pipe k =>
    let n' := (S n.1, n.2) in
    if pipes env n.1 then
      match lowest T with
      | Some i =>
        let T1 := <[i := Some (ReadEnd n.1)]> T in
        match lowest T1 with
        | Some j => run (k (Some (Z.of_nat i, Z.of_nat j))) (<[j := Some (WriteEnd n.1)]> T1) n'
        | None => run (k None) T n'
        end
      | None => run (k None) T n'
      end
    else run (k None) T n'
  | Fork k =>
    let n' := (n.1, S n.2) in
    if forks env n.2 then
      let '(l1, n1) := run (k 0) T n' in
      let '(l2, n2) := run (k 1) T n1 in (Forks l1 l2, n2)
    else run (k (-1)) T n'
  | Wait k => let '(l, n) := run k T n in (Waits T l, n)
  end.
End Run.

(** ** The shell *)

Definition sh_panic (s : list Z) : prog := Fprintf (s ++ [10]) (Exit 1).
Definition fork1 (k : Z -> prog) : prog := Fork (fun pid => if pid =? -1 then sh_panic (bytes "fork") else k pid).

Fixpoint runcmd (c : cmd (list Z)) : prog :=
  match c with
  | EXEC argv =>
    match argv with
    | [] => Exit 1
    | a :: _ => Exec a argv (Fprintf (bytes "exec " ++ a ++ bytes " failed" ++ [10]) (Exit 0))
    end
  | REDIR c file mode fd =>
    Close fd (Open file mode (fun r =>
      if r <? 0 then Fprintf (bytes "open " ++ file ++ bytes " failed" ++ [10]) (Exit 1) else runcmd c))
  | LIST l r => fork1 (fun pid => if pid =? 0 then runcmd l else Wait (runcmd r))
  | PIPE l r =>
    Pipe (fun p =>
      match p with
      | None => sh_panic (bytes "pipe")
      | Some (p0, p1) =>
        fork1 (fun pid => if pid =? 0 then Close 1 (Dup p1 (Close p0 (Close p1 (runcmd l)))) else
        fork1 (fun pid => if pid =? 0 then Close 0 (Dup p0 (Close p0 (Close p1 (runcmd r)))) else
        Close p0 (Close p1 (Wait (Wait (Exit 0))))))
      end)
  | BACK c => fork1 (fun pid => if pid =? 0 then runcmd c else Exit 0)
  end.

(** [while((fd = open("console", O_RDWR)) >= 0){ if(fd >= 3){ close(fd); break; } }] *)
Fixpoint open_console (fuel : nat) (T : fdtable) : option fdtable :=
  match fuel with
  | O => None
  | S fuel =>
    match lowest T with
    | None => Some T
    | Some fd =>
      let T := <[fd := Some (Opened (bytes "console") 2)]> T in
      if (3 <=? fd)%nat then Some (do_close (Z.of_nat fd) T) else open_console fuel T
    end
  end.

(** [gets]: the bytes stored, and what is left of the input. *)
Fixpoint gets_loop (room : nat) (input : list Z) : list Z * list Z :=
  match room, input with
  | S room, c :: input =>
    if (c =? 10) || (c =? 13) then ([c], input)
    else let '(l, rest) := gets_loop room input in (c :: l, rest)
  | _, _ => ([], input)
  end.
(** The buffer of [nbuf] bytes, cleared and filled; nothing for an empty string. *)
Definition getcmd (nbuf : nat) (input : list Z) : option (list Z * list Z) :=
  let '(l, rest) := gets_loop (nbuf - 1) input in
  let buf := l ++ replicate (nbuf - length l) 0 in
  if nth 0 buf 0 =? 0 then None else Some (buf, rest).

(** What a line makes the shell do: change directory, or a child parse and run it. *)
Inductive action := Chdir (path : list Z) | Child (o : outcome (list Z) (cmd (nat * nat))).

(** The [cd] of [main], with the last character chopped, and the child. *)
Definition command (buf : list Z) : action :=
  if (nth 0 buf 0 =? 99) && (nth 1 buf 0 =? 100) && (nth 2 buf 0 =? 32)
  then Chdir (str_at (<[(strlen buf - 1)%nat := 0]> buf) 3)
  else Child (parsecmd buf).

(** The loop of [main] with a buffer of 100 bytes; a round per byte of the input and
    one for its end are enough. *)
Fixpoint main_loop (fuel : nat) (input : list Z) : option (list action) :=
  match fuel with
  | O => None
  | S fuel =>
    match getcmd 100 input with
    | None => Some []
    | Some (buf, rest) => cons (command buf) <$> main_loop fuel rest
    end
  end.
Definition sh_main (input : list Z) : option (list action) := main_loop (S (length input)) input.

(** ** What a command means *)

(** A process with three descriptors. *)
Definition std (i o e : chan) : fdtable := [Some i; Some o; Some e] ++ replicate (NOFILE - 3) None.

Section Wires.
Variable env : environment.

(** [std] with both ends of pipe [n] open. *)
Definition std_pipe (i o e : chan) (n : nat) : fdtable :=
  [Some i; Some o; Some e; Some (ReadEnd n); Some (WriteEnd n)] ++ replicate (NOFILE - 5) None.

Definition gives_up (what : list Z) (T : fdtable) : life := Says (what ++ [10]) (Exits 1 T).

(** A command run with the given standard input, output and error. *)
Fixpoint wires (c : cmd (list Z)) (i o e : chan) (n : nat * nat) : life * (nat * nat) :=
  match c with
  | EXEC argv =>
    match argv with
    | [] => (Exits 1 (std i o e), n)
    | a :: _ =>
      (if exists_ env a then Runs argv (std i o e)
       else Says (bytes "exec " ++ a ++ bytes " failed" ++ [10]) (Exits 0 (std i o e)), n)
    end
  | REDIR c file mode fd =>
    if opens env file mode then
      if fd =? 0 then wires c (Opened file mode) o e n else wires c i (Opened file mode) e n
    else (Says (bytes "open " ++ file ++ bytes " failed" ++ [10]) (Exits 1 (do_close fd (std i o e))), n)
  | PIPE l r =>
    let '(p, f) := n in
    if pipes env p then
      if forks env f then
        let '(l1, (p1, f1)) := wires l i (WriteEnd p) e (S p, S f) in
        if forks env f1 then
          let '(l2, n2) := wires r (ReadEnd p) o e (p1, S f1) in
          (Forks l1 (Forks l2 (Waits (std i o e) (Waits (std i o e) (Exits 0 (std i o e))))), n2)
        else (Forks l1 (gives_up (bytes "fork") (std_pipe i o e p)), (p1, S f1))
      else (gives_up (bytes "fork") (std_pipe i o e p), (S p, S f))
    else (gives_up (bytes "pipe") (std i o e), (S p, f))
  | LIST l r =>
    let '(p, f) := n in
    if forks env f then
      let '(l1, n1) := wires l i o e (p, S f) in
      let '(l2, n2) := wires r i o e n1 in (Forks l1 (Waits (std i o e) l2), n2)
    else (gives_up (bytes "fork") (std i o e), (p, S f))
  | BACK c =>
    let '(p, f) := n in
    if forks env f then
      let '(l1, n1) := wires c i o e (p, S f) in (Forks l1 (Exits 0 (std i o e)), n1)
    else (gives_up (bytes "fork") (std i o e), (p, S f))
  end.

Lemma run_fork1 k T p f :
  run env (fork1 k) T (p, f) =
  if forks env f then let '(l1, n1) := run env (k 0) T (p, S f) in let '(l2, n2) := run env (k 1) T n1 in (Forks l1 l2, n2)
  else (gives_up (bytes "fork") T, (p, S f)).
Proof. unfold fork1. cbn [run fst snd]. by destruct (forks env f). Qed.

Lemma run_redir c f m fd i o e n : (fd = 0 \/ fd = 1) ->
  run env (runcmd (REDIR c f m fd)) (std i o e) n =
  if opens env f m then run env (runcmd c) (if fd =? 0 then std (Opened f m) o e else std i (Opened f m) e) n
  else (Says (bytes "open " ++ f ++ bytes " failed" ++ [10]) (Exits 1 (do_close fd (std i o e))), n).
Proof.
  intros Hfd. cbn [runcmd run]. assert (lowest (do_close fd (std i o e)) = Some (Z.to_nat fd)) as -> by (by destruct Hfd as [-> | ->]).
  cbv iota. destruct (opens env f m); [|done].
  replace (Z.of_nat (Z.to_nat fd) <? 0) with false by (destruct Hfd as [-> | ->]; done).
  by destruct Hfd as [-> | ->].
Qed.

Lemma run_pipe l r i o e p f :
  run env (runcmd (PIPE l r)) (std i o e) (p, f) =
  if pipes env p then
    if forks env f then
      let '(l1, (p1, f1)) := run env (runcmd l) (std i (WriteEnd p) e) (S p, S f) in
      if forks env f1 then
        let '(l2, n2) := run env (runcmd r) (std (ReadEnd p) o e) (p1, S f1) in
        (Forks l1 (Forks l2 (Waits (std i o e) (Waits (std i o e) (Exits 0 (std i o e))))), n2)
      else (Forks l1 (gives_up (bytes "fork") (std_pipe i o e p)), (p1, S f1))
    else (gives_up (bytes "fork") (std_pipe i o e p), (S p, S f))
  else (gives_up (bytes "pipe") (std i o e), (S p, f)).
Proof.
  cbn [runcmd run fst snd]. destruct (pipes env p); [|done].
  change (lowest (std i o e)) with (Some 3%nat). cbv iota zeta. change (lowest (<[3%nat := Some (ReadEnd p)]> (std i o e))) with (Some 4%nat). cbv iota.
  change (<[4%nat := Some (WriteEnd p)]> (<[3%nat := Some (ReadEnd p)]> (std i o e))) with (std_pipe i o e p).
  rewrite run_fork1. destruct (forks env f); [|done]. change (0 =? 0) with true. change (1 =? 0) with false. cbv iota. cbn [run].
  change (do_close (Z.of_nat 4) (do_close (Z.of_nat 3) (do_dup (Z.of_nat 4) (do_close 1 (std_pipe i o e p))))) with (std i (WriteEnd p) e).
  destruct (run env (runcmd l) (std i (WriteEnd p) e) (S p, S f)) as [l1 [p1 f1]].
  rewrite run_fork1. destruct (forks env f1); [|done]. change (0 =? 0) with true. change (1 =? 0) with false. cbv iota. cbn [run].
  change (do_close (Z.of_nat 4) (do_close (Z.of_nat 3) (do_dup (Z.of_nat 3) (do_close 0 (std_pipe i o e p))))) with (std (ReadEnd p) o e).
  destruct (run env (runcmd r) (std (ReadEnd p) o e) (p1, S f1)) as [l2 n2].
  change (do_close (Z.of_nat 4) (do_close (Z.of_nat 3) (std_pipe i o e p))) with (std i o e). done.
Qed.

Lemma runcmd_wires c i o e n : wf c -> run env (runcmd c) (std i o e) n = wires c i o e n.
Proof.
  revert i o e n. induction c as [argv|c IH f m fd|l IHl r IHr|l IHl r IHr|c IH]; intros i o e n Hwf; cbn [wires wf] in *.
  - destruct argv as [|a argv]; [done|]. cbn [runcmd run]. by destruct (exists_ env a).
  - destruct Hwf as [Hc [_ Hop]]. cbn [fst snd] in Hop. rewrite run_redir by set_solver.
    destruct (opens env f m); [|done]. destruct (fd =? 0); by apply IH.
  - destruct Hwf as [Hl Hr], n as [p f]. rewrite run_pipe. destruct (pipes env p); [|done]. destruct (forks env f); [|done].
    rewrite IHl by done. destruct (wires l i (WriteEnd p) e (S p, S f)) as [l1 [p1 f1]]. destruct (forks env f1); [|done]. by rewrite IHr.
  - destruct Hwf as [Hl Hr], n as [p f]. cbn [runcmd]. rewrite run_fork1. destruct (forks env f); [|done]. change (0 =? 0) with true. change (1 =? 0) with false. cbv iota.
    rewrite IHl by done. destruct (wires l i o e (p, S f)) as [l1 n1]. cbn [run]. rewrite IHr by done. by destruct (wires r i o e n1).
  - destruct n as [p f]. cbn [runcmd]. rewrite run_fork1. destruct (forks env f); [|done]. change (0 =? 0) with true. change (1 =? 0) with false. cbv iota.
    rewrite IH by done. destruct (wires c i o e (p, S f)) as [l1 n1]. done.
Qed.

(** Programs run, and processes wait, with three descriptors and no others. *)
Fixpoint tidy (l : life) : Prop :=
  match l with
  | Runs _ T => exists i o e, T = std i o e
  | Exits _ _ => True
  | Says _ l => tidy l
  | Forks child parent => tidy child /\ tidy parent
  | Waits T l => (exists i o e, T = std i o e) /\ tidy l
  end.

(** The children that a process with [k] of them leaves without having waited. *)
Fixpoint unwaited (l : life) (k : nat) : nat :=
  match l with
  | Runs _ _ | Exits _ _ => k
  | Says _ l => unwaited l k
  | Forks _ parent => unwaited parent (S k)
  | Waits _ l => unwaited l (k - 1)
  end.

(** Whether the command's own process ends in [&]. *)
Fixpoint background (c : cmd (list Z)) : bool :=
  match c with
  | EXEC _ | PIPE _ _ => false
  | REDIR c _ _ _ => background c
  | LIST _ r => background r
  | BACK _ => true
  end.

Lemma wires_tidy c i o e n : tidy (wires c i o e n).1.
Proof.
  revert i o e n. induction c as [argv|c IH f m fd|l IHl r IHr|l IHl r IHr|c IH]; intros i o e n; cbn [wires].
  - destruct argv as [|a argv]; [done|]. cbn [fst]. destruct (exists_ env a); [by do 3 eexists | done].
  - destruct (opens env f m); [|done]. by destruct (fd =? 0).
  - destruct n as [p f]. destruct (pipes env p); [|done]. destruct (forks env f); [|done].
    specialize (IHl i (WriteEnd p) e (S p, S f)). destruct (wires l _ _ _ _) as [l1 [p1 f1]]. destruct (forks env f1); [|done].
    specialize (IHr (ReadEnd p) o e (p1, S f1)). destruct (wires r _ _ _ _) as [l2 n2]. cbn [fst tidy] in *. split_and!; try done; by do 3 eexists.
  - destruct n as [p f]. destruct (forks env f); [|done]. specialize (IHl i o e (p, S f)). destruct (wires l _ _ _ _) as [l1 n1].
    specialize (IHr i o e n1). destruct (wires r _ _ _ _) as [l2 n2]. cbn [fst tidy] in *. split_and!; try done; by do 3 eexists.
  - destruct n as [p f]. destruct (forks env f); [|done]. specialize (IH i o e (p, S f)). by destruct (wires c _ _ _ _) as [l1 n1].
Qed.

Lemma wires_waits c i o e n : (forall k, forks env k = true) ->
  (unwaited (wires c i o e n).1 0 <= if background c then 1 else 0)%nat.
Proof.
  intros Hf. revert i o e n. induction c as [argv|c IH f m fd|l IHl r IHr|l IHl r IHr|c IH]; intros i o e n; cbn [wires background].
  - destruct argv as [|a argv]; [done|]. cbn [fst]. by destruct (exists_ env a).
  - destruct (opens env f m); [|simpl; lia]. by destruct (fd =? 0).
  - destruct n as [p f]. destruct (pipes env p); [|simpl; lia]. rewrite Hf. destruct (wires l _ _ _ _) as [l1 [p1 f1]]. rewrite Hf. by destruct (wires r _ _ _ _) as [l2 n2].
  - destruct n as [p f]. rewrite Hf. destruct (wires l _ _ _ _) as [l1 n1]. specialize (IHr i o e n1). by destruct (wires r _ _ _ _) as [l2 n2].
  - destruct n as [p f]. rewrite Hf. destruct (wires c _ _ _ _) as [l1 n1]. simpl. lia.
Qed.
End Wires.

(** ** The main loop *)

Definition plain (l : list Z) : Prop := Forall (fun c => c <> 0 /\ c <> 10 /\ c <> 13) l.

Lemma gets_line room l rest : plain l -> (length l < room)%nat -> gets_loop room (l ++ 10 :: rest) = (l ++ [10], rest).
Proof.
  intros Hl. revert room. induction Hl as [|c l (H0 & H10 & H13) _ IH]; intros [|room] Hr; simpl in Hr; try lia; [done|]. cbn [gets_loop app].
  rewrite (proj2 (Z.eqb_neq c 10)), (proj2 (Z.eqb_neq c 13)) by done. cbn [orb]. rewrite IH by lia. done.
Qed.

Definition in_buf (l : list Z) : list Z := (l ++ [10]) ++ replicate (100 - length (l ++ [10])) 0.
Lemma getcmd_line l rest : plain l -> (length l <= 98)%nat -> getcmd 100 (l ++ 10 :: rest) = Some (in_buf l, rest).
Proof.
  intros Hl Hlen. unfold getcmd. rewrite gets_line by (done || (change (100 - 1)%nat with 99%nat; lia)). fold (in_buf l). destruct l as [|c l]; [done|]. apply Forall_cons in Hl as [(H0 & _) _]. simpl. by rewrite (proj2 (Z.eqb_neq c 0)).
Qed.

Lemma main_lines ls fuel : Forall (fun l => plain l /\ (length l <= 98)%nat) ls -> (length ls < fuel)%nat ->
  main_loop fuel (concat ((fun l => l ++ [10]) <$> ls)) = Some (command ∘ in_buf <$> ls).
Proof.
  intros Hl. revert fuel. induction Hl as [|l ls [Hp Hlen] _ IH]; intros [|fuel] Hf; simpl in Hf; try lia; [done|]. cbn [main_loop fmap list_fmap concat]. rewrite <- app_assoc. cbn [app].
  rewrite getcmd_line by done. rewrite IH by lia. done.
Qed.

(** A line typed: a command, or a change of directory. *)
Definition typed (x : cmd (list Z) + list Z) : list Z := match x with inl c => show 3 c | inr path => bytes "cd " ++ path end.
Definition typed_ok (x : cmd (list Z) + list Z) : Prop :=
  match x with
  | inl c => wf c /\ (length (show 3 c) <= 98)%nat /\ take 3 (show 3 c) <> bytes "cd "
  | inr path => plain path /\ (length path <= 95)%nat
  end.
Definition does (x : cmd (list Z) + list Z) (a : action) : Prop :=
  match x, a with
  | inl c, Child (Ret t b) => cmd_map (fun w => str_at b w.1) t = c
  | inr path, Chdir p => p = path
  | _, _ => False
  end.

Lemma lit_plain w : lit w -> plain w.
Proof.
  intros [_ Hw]. eapply Forall_impl; [exact Hw|]. intros c [Hc Hn]. split; [done|]. split; intros ->; vm_compute in Hc; done.
Qed.
Lemma show_plain k c : wf c -> plain (show k c).
Proof.
  unfold plain. revert k. induction c as [argv|c IH f m fd|l IHl r IHr|l IHl r IHr|c IH]; intros k Hwf; cbn [wf show] in *.
  - destruct Hwf as [Ha _]. induction Ha as [|w argv Hw _ IH]; [constructor|]. cbn [fmap list_fmap concat]. unfold show_word at 1. rewrite !Forall_app. split_and!; [by apply lit_plain|by repeat constructor|done].
  - destruct Hwf as [Hc [Hl _]]. unfold show_redir, redir_op. rewrite !Forall_app. split_and!; [by apply IH|repeat case_match; by repeat constructor|by apply lit_plain|by repeat constructor].
  - destruct Hwf. unfold paren. case_match; rewrite !Forall_app; split_and!; auto; by repeat constructor.
  - destruct Hwf. unfold paren. case_match; rewrite !Forall_app; split_and!; auto; by repeat constructor.
  - unfold paren. case_match; rewrite !Forall_app; split_and!; auto; by repeat constructor.
Qed.

Lemma plain_nonul l : plain l -> Forall (fun c => c <> 0) l.
Proof. intros H. eapply Forall_impl; [exact H|]. by intros c (? & _). Qed.

Lemma command_does x : typed_ok x -> does x (command (in_buf (typed x))).
Proof.
  destruct x as [c|path]; cbn [typed typed_ok does].
  - intros (Hwf & Hlen & Hcd). unfold command. assert ((nth 0 (in_buf (show 3 c)) 0 =? 99) && (nth 1 (in_buf (show 3 c)) 0 =? 100) && (nth 2 (in_buf (show 3 c)) 0 =? 32) = false) as ->.
    { apply not_true_iff_false. rewrite !andb_true_iff, !Z.eqb_eq. intros [[H0 H1] H2]. unfold in_buf in *. destruct (show 3 c) as [|a [|b [|d l]]]; simpl in H0, H1, H2; try done. apply Hcd. by subst. }
    destruct (parse_show c [10] (replicate (100 - length (show 3 c ++ [10]) - 1) 0) Hwf) as (t & b & E & Ht); [repeat constructor|]. unfold in_buf. rewrite <- app_assoc.
    replace (replicate (100 - length (show 3 c ++ [10])) 0) with (0 :: replicate (100 - length (show 3 c ++ [10]) - 1) 0); [by rewrite E|].
    rewrite length_app. cbn [length]. replace (100 - (length (show 3 c) + 1))%nat with (S (100 - (length (show 3 c) + 1) - 1)) at 2 by lia. done.
  - intros [Hp Hlen]. unfold command, in_buf. set (z := replicate _ 0). assert (exists z', z = 0 :: z') as [z' Ez].
    { exists (replicate (100 - length ((bytes "cd " ++ path) ++ [10]) - 1) 0). unfold z. rewrite !length_app. cbn [length bytes]. replace (100 - (3 + length path + 1))%nat with (S (100 - (3 + length path + 1) - 1)) at 1 by lia. done. }
    assert (bytes "cd " = [99; 100; 32]) as -> by done. rewrite Ez. cbn [app nth]. change (99 =? 99) with true. change (100 =? 100) with true. change (32 =? 32) with true. cbn [andb].
    assert (strlen (99 :: 100 :: 32 :: (path ++ [10]) ++ 0 :: z') = (4 + length path)%nat) as ->.
    { pose proof (strlen_line (99 :: 100 :: 32 :: path ++ [10]) z') as Hs. cbn [app] in Hs. rewrite Hs; [simpl; rewrite length_app; simpl; lia|]. repeat constructor; try lia. apply Forall_app. split; [by apply plain_nonul|by repeat constructor]. }
    replace (99 :: 100 :: 32 :: (path ++ [10]) ++ 0 :: z') with ((99 :: 100 :: 32 :: path) ++ 10 :: 0 :: z') by (cbn [app]; by rewrite <- app_assoc).
    rewrite insert_app_r_alt by (simpl; lia). replace (4 + length path - 1 - length (99 :: 100 :: 32 :: path)%Z)%nat with 0%nat by (simpl; lia).
    unfold str_at. change (drop 3 _) with (path ++ 0 :: 0 :: z'). by apply cstr_app, plain_nonul.
Qed.

(** C25: whatever command is typed and whichever of its system calls fail, the life of the
    process that runs it and of all its descendants is the one the command means: each
    program runs with exactly three descriptors, the ones of the shell, those of the
    redirections, innermost last, and the ends of the pipes of its pipeline; the parent of
    a pipeline has closed both ends when it waits for its two children, and the right part
    of a list starts after a wait for the left; a program that is not found and a file that
    does not open only stop their own part; a [pipe] or [fork] that fails ends the process
    with a message.  Every program and every wait has three descriptors and no others, and
    where all forks succeed only a command that ends in [&] leaves a child without a wait. *)
Theorem sh_wires (env : environment) (c : cmd (list Z)) (i o e : chan) (n : nat * nat) (Hc : wf c) :
  run env (runcmd c) (std i o e) n = wires env c i o e n /\
  tidy (run env (runcmd c) (std i o e) n).1 /\
  ((forall k, forks env k = true) ->
   (unwaited (run env (runcmd c) (std i o e) n).1 0 <= if background c then 1 else 0)%nat).
Proof.
  rewrite runcmd_wires by done. split_and!; [done | apply wires_tidy | apply wires_waits].
Qed.

Definition demo_env : environment := Env (fun _ _ => true) (fun _ => true) (fun _ => true) (fun _ => true).
Definition demo_pipeline : cmd (list Z) := PIPE (EXEC [bytes "ls"]) (REDIR (EXEC [bytes "wc"]) (bytes "n") 1537 1).

Lemma sh_wires_witness :
  let T := std (Inherited 0) (Inherited 1) (Inherited 2) in
  run demo_env (runcmd demo_pipeline) T (0, 0)%nat =
    (Forks (Runs [bytes "ls"] (std (Inherited 0) (WriteEnd 0) (Inherited 2)))
    (Forks (Runs [bytes "wc"] (std (ReadEnd 0) (Opened (bytes "n") 1537) (Inherited 2)))
    (Waits T (Waits T (Exits 0 T)))), (1, 2)%nat) /\
  (unwaited (run demo_env (runcmd demo_pipeline) T (0, 0)%nat).1 0 <= 0)%nat.
Proof.
  intros T. destruct (sh_wires demo_env demo_pipeline (Inherited 0) (Inherited 1) (Inherited 2) (0, 0)%nat) as (E & _ & Hw).
  - assert (forall w, w ∈ [bytes "ls"; bytes "wc"; bytes "n"] -> lit w) as Hl by (intros w Hw; rewrite !elem_of_cons, elem_of_nil in Hw; destruct Hw as [-> |[-> |[-> |[]]]]; (split; [discriminate|repeat constructor; discriminate])).
    unfold demo_pipeline. cbn [wf length]. unfold MAXARGS. split_and!; rewrite ?Forall_singleton; try lia; try (apply Hl; set_solver). split; [apply Hl; set_solver|cbn [fst snd]; set_solver].
  - split; [exact E | apply Hw; reflexivity].
Defined.

(** The shell takes the lines of its input in order: a typed command is parsed back to
    the command and run by a child, a typed [cd] changes to the directory named, and the
    end of the input ends the shell. *)
Theorem sh_session (xs : list (cmd (list Z) + list Z)) (Hx : Forall typed_ok xs) :
  exists acts, sh_main (concat ((fun x => typed x ++ [10]) <$> xs)) = Some acts /\ Forall2 does xs acts.
Proof.
  exists (command ∘ in_buf <$> (typed <$> xs)). split.
  - unfold sh_main. rewrite <- (main_lines (typed <$> xs) (S (length (concat ((fun x => typed x ++ [10]) <$> xs))))).
    + f_equal. f_equal. by rewrite <- list_fmap_compose.
    + apply Forall_fmap. eapply Forall_impl; [exact Hx|]. intros [c|path]; cbn [typed typed_ok compose]; [intros (Hwf & Hl & _); split; [by apply show_plain|done]|].
      intros [Hp Hl]. split; [apply Forall_app; split; [by repeat constructor|done]|]. simpl. lia.
    + rewrite length_fmap. clear Hx. induction xs as [|x xs IH]; [simpl; lia|]. cbn [fmap list_fmap concat length]. rewrite !length_app. simpl in *. lia.
  - induction Hx as [|x xs Hx _ IH]; [constructor|]. constructor; [by apply command_does|done].
Qed.

Lemma sh_session_witness : exists acts, sh_main (bytes "cd src" ++ [10] ++ bytes "ls " ++ [10]) = Some acts /\ length acts = 2%nat.
Proof.
  destruct (sh_session [inr (bytes "src"); inl (EXEC [bytes "ls"])]) as (acts & E & H2).
  - assert (lit (bytes "ls")) as Hl by (split; [discriminate|repeat constructor; discriminate]). constructor; [|constructor; [|constructor]].
    + split; [repeat constructor; discriminate|vm_compute; lia].
    + split_and!; [rewrite ?Forall_singleton; cbn [wf length]; unfold MAXARGS; split; [by apply Forall_singleton|lia]|vm_compute; lia|discriminate].
  - exists acts. split; [exact E|]. apply Forall2_length in H2. by rewrite <- H2.
Defined.

Lemma open_console_full fuel a b c T : exists T', open_console (S fuel) (Some a :: Some b :: Some c :: T) = Some (Some a :: Some b :: Some c :: T').
Proof.
  cbn [open_console lowest]. destruct (lowest T) as [k|]; cbn [fmap option_fmap option_map]; [|by eexists]. change ((3 <=? S (S (S k)))%nat) with true. cbv iota. unfold do_close. rewrite Nat2Z.id. by eexists.
Qed.

(** The first loop of [main] ends with the first three descriptors open, whatever
    descriptors the shell was started with, and those that were open unchanged. *)
Theorem sh_open_console (T : fdtable) (Hl : length T = NOFILE) :
  exists a b c T', open_console 4 T = Some (Some a :: Some b :: Some c :: T') /\
    forall k x, (k < 3)%nat -> T !! k = Some (Some x) -> [a; b; c] !! k = Some x.
Proof.
  destruct T as [|x [|y [|z T]]]; try done. set (q := Opened (bytes "console") 2).
  assert (exists n, open_console 4 (x :: y :: z :: T) = open_console (S n) (Some (default q x) :: Some (default q y) :: Some (default q z) :: T)) as [n ->].
  { destruct x as [x|], y as [y|], z as [z|]; cbn [default]; [by exists 3%nat|by exists 2%nat|by exists 2%nat|by exists 1%nat|by exists 2%nat|by exists 1%nat|by exists 1%nat|by exists 0%nat]. }
  destruct (open_console_full n (default q x) (default q y) (default q z) T) as (T' & ->). exists (default q x), (default q y), (default q z), T'. split; [done|].
  intros [|[|[|k]]] v Hk E; simpl in *; simplify_eq/=; try done; lia.
Qed.

Lemma sh_open_console_witness : exists a b c T', open_console 4 (replicate 16 None) = Some (Some a :: Some b :: Some c :: T').
Proof. destruct (sh_open_console (replicate 16 None) eq_refl) as (a & b & c & T' & E & _). exists a, b, c, T'. exact E. Defined.
