(* ===== verification/Hart.v ===== *)
(** * Hart: a RISC-V core as the kernel sees it

    The registers of a core, the control and status registers behind the accessors
    of [kernel/riscv.h], address translation, traps and returns from them, and the
    instructions of [kernel/trampoline.S] and [kernel/kernelvec.S].  Over it: the
    machine-mode start of [kernel/start.c].

    [sstatus] and [sie] are what the hardware makes of them: views of [mstatus] and
    [mie].  Fields that an implementation keeps fixed are stored like the others, and
    the accessed and dirty bits of page-table entries, which the memory management unit
    of the machine sets by itself, are left out. *)

From stdpp Require Import functions.
From S2P Require Import Prelude CString Riscv Kalloc Vm Kvm.

Inductive mode := UMode | SMode | MMode.

Inductive csr :=
| mhartid | mstatus | mepc | medeleg | mideleg | mie | menvcfg | mcounteren | pmpcfg0 | pmpaddr0
| sepc | scause | stval | stvec | satp | sscratch | stimecmp | time.

#[export] Instance mode_eq_dec : EqDecision mode.
Proof. solve_decision. Defined.
#[export] Instance csr_eq_dec : EqDecision csr.
Proof. solve_decision. Defined.

(** The integer registers by their numbers. *)
Module Reg.
Definition ra : nat := 1.
Definition sp : nat := 2.
Definition gp : nat := 3.
Definition tp : nat := 4.
Definition t0 : nat := 5.
Definition t1 : nat := 6.
Definition t2 : nat := 7.
Definition s0 : nat := 8.
Definition s1 : nat := 9.
Definition a0 : nat := 10.
Definition a1 : nat := 11.
Definition a2 : nat := 12.
Definition a3 : nat := 13.
Definition a4 : nat := 14.
Definition a5 : nat := 15.
Definition a6 : nat := 16.
Definition a7 : nat := 17.
Definition s2 : nat := 18.
Definition s3 : nat := 19.
Definition s4 : nat := 20.
Definition s5 : nat := 21.
Definition s6 : nat := 22.
Definition s7 : nat := 23.
Definition s8 : nat := 24.
Definition s9 : nat := 25.
Definition s10 : nat := 26.
Definition s11 : nat := 27.
Definition t3 : nat := 28.
Definition t4 : nat := 29.
Definition t5 : nat := 30.
Definition t6 : nat := 31.
End Reg.

Record hart := Hart { h_mode : mode; h_pc : Z; h_reg : nat -> Z; h_csr : csr -> Z }.

Definition set_mode (v : mode) (h : hart) : hart := Hart v (h_pc h) (h_reg h) (h_csr h).
Definition set_pc (v : Z) (h : hart) : hart := Hart (h_mode h) v (h_reg h) (h_csr h).
Definition set_regs (f : nat -> Z) (h : hart) : hart := Hart (h_mode h) (h_pc h) f (h_csr h).
Definition set_reg (r : nat) (v : Z) (h : hart) : hart := set_regs (<[r := v]> (h_reg h)) h.
Definition set_csr (c : csr) (v : Z) (h : hart) : hart := Hart (h_mode h) (h_pc h) (h_reg h) (<[c := v]> (h_csr h)).

(** The instructions [csrr] and [csrw]. *)
Definition csrr (c : csr) : M hart Z := gets (fun h => h_csr h c).
Definition csrw (c : csr) (x : Z) : M hart unit := modify (set_csr c x).

(** ** The accessors of [riscv.h] *)

Definition r_mhartid : M hart Z := csrr mhartid.

Definition MSTATUS_MPP_MASK : Z := Z.shiftl 3 11.
Definition MSTATUS_MPP_S : Z := Z.shiftl 1 11.
Definition r_mstatus : M hart Z := csrr mstatus.
Definition w_mstatus (x : Z) : M hart unit := csrw mstatus x.
Definition w_mepc (x : Z) : M hart unit := csrw mepc x.

Definition SSTATUS_SPP : Z := Z.shiftl 1 8.
Definition SSTATUS_SPIE : Z := Z.shiftl 1 5.
Definition SSTATUS_SIE : Z := Z.shiftl 1 1.
(** The bits of [mstatus] that [sstatus] shows: SD, UXL, MXR, SUM, XS, FS, VS, SPP, UBE, SPIE, SIE. *)
Definition SSTATUS_VIEW : Z := 9223372049740096354.   (* 0x80000003000de762 *)
(** A write to the bits [mask] of a register that holds [old]. *)
Definition masked (mask old x : Z) : Z := Z.lor (Z.ldiff old mask) (Z.land x mask).
Definition r_sstatus : M hart Z := x ← csrr mstatus; mret (Z.land x SSTATUS_VIEW).
Definition w_sstatus (x : Z) : M hart unit := old ← csrr mstatus; csrw mstatus (masked SSTATUS_VIEW old x).

Definition SIE_SEIE : Z := Z.shiftl 1 9.
Definition SIE_STIE : Z := Z.shiftl 1 5.
Definition SIE_SSIE : Z := Z.shiftl 1 1.
Definition r_sie : M hart Z := x ← csrr mie; d ← csrr mideleg; mret (Z.land x d).
Definition w_sie (x : Z) : M hart unit := old ← csrr mie; d ← csrr mideleg; csrw mie (masked d old x).
Definition MIE_STIE : Z := Z.shiftl 1 5.
Definition r_mie : M hart Z := csrr mie.
Definition w_mie (x : Z) : M hart unit := csrw mie x.

Definition w_sepc (x : Z) : M hart unit := csrw sepc x.
Definition r_sepc : M hart Z := csrr sepc.
Definition r_medeleg : M hart Z := csrr medeleg.
Definition w_medeleg (x : Z) : M hart unit := csrw medeleg x.
Definition r_mideleg : M hart Z := csrr mideleg.
Definition w_mideleg (x : Z) : M hart unit := csrw mideleg x.
Definition w_stvec (x : Z) : M hart unit := csrw stvec x.
Definition r_stvec : M hart Z := csrr stvec.
Definition r_stimecmp : M hart Z := csrr stimecmp.
Definition w_stimecmp (x : Z) : M hart unit := csrw stimecmp x.
Definition r_menvcfg : M hart Z := csrr menvcfg.
Definition w_menvcfg (x : Z) : M hart unit := csrw menvcfg x.
Definition w_pmpcfg0 (x : Z) : M hart unit := csrw pmpcfg0 x.
Definition w_pmpaddr0 (x : Z) : M hart unit := csrw pmpaddr0 x.

Definition SATP_SV39 : Z := Z.shiftl 8 60.
Definition MAKE_SATP (pagetable : Z) : Z := Z.lor SATP_SV39 (Z.shiftr pagetable 12).
Definition w_satp (x : Z) : M hart unit := csrw satp x.
Definition r_satp : M hart Z := csrr satp.
Definition r_scause : M hart Z := csrr scause.
Definition r_stval : M hart Z := csrr stval.
Definition w_mcounteren (x : Z) : M hart unit := csrw mcounteren x.
Definition r_mcounteren : M hart Z := csrr mcounteren.
Definition r_time : M hart Z := csrr time.

Definition intr_on : M hart unit := x ← r_sstatus; w_sstatus (Z.lor x SSTATUS_SIE).
Definition intr_off : M hart unit := x ← r_sstatus; w_sstatus (Z.land x (Z.lnot SSTATUS_SIE)).
Definition intr_get : M hart bool := x ← r_sstatus; mret (negb (Z.land x SSTATUS_SIE =? 0)).

Definition r_sp : M hart Z := gets (fun h => h_reg h Reg.sp).
Definition r_tp : M hart Z := gets (fun h => h_reg h Reg.tp).
Definition w_tp (x : Z) : M hart unit := modify (set_reg Reg.tp x).
Definition r_ra : M hart Z := gets (fun h => h_reg h Reg.ra).

(** ** Traps *)

Definition put_bit (b : bool) (n x : Z) : Z := if b then Z.setbit x n else Z.clearbit x n.

(** The traps of the privileged architecture: interrupts have the top bit of the cause. *)
Definition is_intr (cause : Z) : bool := Z.testbit cause 63.
Definition code (cause : Z) : Z := cause mod 2 ^ 63.

(** Does the core take this trap, and in supervisor mode? *)
Definition takes (h : hart) (cause : Z) : bool :=
  bool_decide (h_mode h <> MMode) &&
  if is_intr cause then
    Z.testbit (h_csr h mideleg) (code cause) && Z.testbit (h_csr h mie) (code cause) &&
    (bool_decide (h_mode h = UMode) || Z.testbit (h_csr h mstatus) 1)
  else Z.testbit (h_csr h medeleg) (code cause).

Definition trap_status (m : mode) (st : Z) : Z :=
  put_bit false 1 (put_bit (Z.testbit st 1) 5 (put_bit (bool_decide (m = SMode)) 8 st)).

Definition trap (cause tval : Z) : M hart unit := fun h =>
  if takes h cause then
    Ret tt (Hart SMode (Z.ldiff (h_csr h stvec) 3) (h_reg h)
      (<[mstatus := trap_status (h_mode h) (h_csr h mstatus)]> (<[sepc := h_pc h]> (<[scause := cause]> (<[stval := tval]> (h_csr h))))))
  else undefined h.

Definition sret_status (st : Z) : Z := put_bit false 8 (put_bit true 5 (put_bit (Z.testbit st 5) 1 st)).

Definition sret : M hart unit := fun h =>
  let st := h_csr h mstatus in
  if decide (h_mode h = SMode) then
    Ret tt (Hart (if Z.testbit st 8 then SMode else UMode) (h_csr h sepc) (h_reg h) (<[mstatus := sret_status st]> (h_csr h)))
  else undefined h.

Definition mode_of (x : Z) : mode := if x =? 0 then UMode else if x =? 1 then SMode else MMode.
Definition mret_status (st : Z) : Z := put_bit false 11 (put_bit false 12 (put_bit true 7 (put_bit (Z.testbit st 7) 3 st))).

(** The instruction [mret]. *)
Definition mret_ : M hart unit := fun h =>
  let st := h_csr h mstatus in
  if decide (h_mode h = MMode) then
    Ret tt (Hart (mode_of (Z.land (Z.shiftr st 11) 3)) (h_csr h mepc) (h_reg h) (<[mstatus := mret_status st]> (h_csr h)))
  else undefined h.

(** ** Address translation *)

Inductive acc := Fetch | Load | Store.

(** The page a page-table entry points to. *)
Definition pte_page (pte : Z) : Z := Z.shiftl (Z.land (Z.shiftr pte 10) (Z.ones 44)) 12.

Fixpoint sv39 (m : mem) (l : nat) (table va : Z) : option (Z * Z) :=
  let pte := ld64 m (table + 8 * PX (Z.of_nat l) va) in
  if negb (has pte PTE_V) || (negb (has pte PTE_R) && has pte PTE_W) then None else
  if has pte PTE_R || has pte PTE_X then
    let size := PGSIZE * 512 ^ Z.of_nat l in
    if pte_page pte mod size =? 0 then Some (pte_page pte + va mod size, PTE_FLAGS pte) else None
  else match l with O => None | S l => sv39 m l (pte_page pte) va end.

(** Bits 63 to 39 of an address equal bit 38. *)
Definition canonical (va : Z) : bool := (va <? 2 ^ 38) || (2 ^ 64 - 2 ^ 38 <=? va).

Definition mmu (m : mem) (satp va : Z) : option (Z * Z) :=
  if negb (Z.shiftr satp 60 =? 8) || negb (canonical va) then None
  else sv39 m 2 (Z.shiftl (Z.land satp (Z.ones 44)) 12) va.

(** The bits a page's flags must have; supervisor code has no access to user pages. *)
Definition permitted (md : mode) (a : acc) (f : Z) : bool :=
  has f (match a with Fetch => PTE_X | Load => PTE_R | Store => PTE_W end) &&
  Bool.eqb (has f PTE_U) (bool_decide (md = UMode)).

Definition access (h : hart) (m : mem) (a : acc) (va : Z) : option Z :=
  if bool_decide (h_mode h = MMode) || (Z.shiftr (h_csr h satp) 60 =? 0) then Some va else
  x ← mmu m (h_csr h satp) va;
  if permitted (h_mode h) a x.2 then Some x.1 else None.

(** ** Instructions *)

(** A core with the memory. *)
Notation core := (hart * mem)%type.

Definition hart_coreL : lens core hart := Lens fst (fun h s => (h, s.2)).

Definition vaddr (a : acc) (va : Z) : M core Z := fun s =>
  match access s.1 s.2 a va with Some pa => Ret pa s | None => Panic "page fault" end.

Inductive instr :=
| Sd (r : nat) (off : Z) (b : nat)       (* sd r, off(b) *)
| Ld (r : nat) (off : Z) (b : nat)       (* ld r, off(b) *)
| Li (r : nat) (v : Z)
| Addi (r b : nat) (v : Z)
| Csrw (c : csr) (r : nat)
| Csrr (r : nat) (c : csr)
| Sfence_vma                             (* sfence.vma zero, zero *)
| Jr (r : nat)
| Sret.

Definition rget (r : nat) : M core Z := gets (fun s => h_reg s.1 r).
Definition rset (r : nat) (v : Z) : M core unit := modify (fun s => (set_reg r v s.1, s.2)).

Definition exec (i : instr) : M core unit :=
  match i with
  | Sd r off b =>
    a ← rget b;
    pa ← vaddr Store (u64 (a + off));
    v ← rget r;
    modify (fun s => (s.1, st64 s.2 pa v))
  | Ld r off b =>
    a ← rget b;
    pa ← vaddr Load (u64 (a + off));
    v ← gets (fun s => ld64 s.2 pa);
    rset r v
  | Li r v => rset r v
  | Addi r b v => a ← rget b; rset r (u64 (a + v))
  | Csrw c r => v ← rget r; zoom hart_coreL (csrw c v)
  | Csrr r c => v ← zoom hart_coreL (csrr c); rset r v
  | Sfence_vma => mret tt
  | Jr r => v ← rget r; modify (fun s => (set_pc v s.1, s.2))
  | Sret => zoom hart_coreL sret
  end.

(** Straight-line code in the physical page [page].  The program counter of the hart
    stands for those of the instructions, which lie in one page: each must be
    executable in the address space current when it is fetched. *)
Fixpoint exec_block (page : Z) (l : list instr) : M core unit :=
  match l with
  | [] => mret tt
  | i :: l =>
    pc ← gets (fun s => h_pc s.1);
    pa ← vaddr Fetch pc;
    if PGROUNDDOWN pa =? page then exec i;; exec_block page l else undefined
  end.

(** ** The start in machine mode *)

Definition timerinit : M hart unit :=
  x ← r_mie; w_mie (Z.lor x MIE_STIE);;
  x ← r_menvcfg; w_menvcfg (Z.lor x (Z.shiftl 1 63));;
  x ← r_mcounteren; w_mcounteren (Z.lor x 2);;
  t ← r_time; w_stimecmp (u64 (t + 1000000)).

(** [main] is the address of the function. *)
Definition start (main : Z) : M hart unit :=
  x ← r_mstatus;
  let x := Z.land x (Z.lnot MSTATUS_MPP_MASK) in
  let x := Z.lor x MSTATUS_MPP_S in
  w_mstatus x;;
  w_mepc main;;
  w_satp 0;;
  w_medeleg 65535;;
  w_mideleg 65535;;
  x ← r_sie; w_sie (Z.lor (Z.lor (Z.lor x SIE_SEIE) SIE_STIE) SIE_SSIE);;
  w_pmpaddr0 18014398509481983;;   (* 0x3fffffffffffff *)
  w_pmpcfg0 15;;
  timerinit;;
  id ← r_mhartid;
  w_tp (u64 (i32 id));;
  mret_.

(** ** Facts *)

(** A core on which every trap from user or supervisor mode goes to the kernel. *)
Record delegates (h : hart) : Prop := {
  dl_exc : forall c, 0 <= c < 16 -> Z.testbit (h_csr h medeleg) c = true;
  dl_int : forall c, 0 <= c < 16 -> Z.testbit (h_csr h mideleg) c = true;
  dl_on : forall c, c = 1 \/ c = 5 \/ c = 9 -> Z.testbit (h_csr h mie) c = true
}.

Lemma land_bit x n : 0 <= n -> (Z.land x (Z.shiftl 1 n) =? 0) = negb (Z.testbit x n).
Proof.
  intros Hn. rewrite Z.shiftl_1_l. destruct (Z.testbit x n) eqn:E; simpl.
  - apply Z.eqb_neq. intros H0. assert (Z.testbit (Z.land x (2 ^ n)) n = false) as E' by (rewrite H0; apply Z.bits_0).
    rewrite Z.land_spec, Z.pow2_bits_true, E in E' by done. done.
  - apply Z.eqb_eq. apply Z.bits_inj'. intros k Hk. rewrite Z.land_spec, Z.bits_0, Z.pow2_bits_eqb by done.
    destruct (Z.eqb_spec n k) as [<-|]; [by rewrite E | apply andb_false_r].
Qed.

Lemma put_bit_spec b n x k : 0 <= n -> Z.testbit (put_bit b n x) k = if decide (k = n) then b else Z.testbit x k.
Proof.
  intros Hn. destruct (decide (k = n)) as [->|Hne]; destruct b; simpl.
  - by apply Z.setbit_eq.
  - apply Z.clearbit_eq.
  - apply Z.setbit_neq; lia.
  - apply Z.clearbit_neq; lia.
Qed.

Lemma masked_spec mask old x k : 0 <= k ->
  Z.testbit (masked mask old x) k = if Z.testbit mask k then Z.testbit x k else Z.testbit old k.
Proof.
  intros. unfold masked. rewrite Z.lor_spec, Z.land_spec, Z.ldiff_spec. destruct (Z.testbit mask k), (Z.testbit x k), (Z.testbit old k); done.
Qed.

(** ** What the memory management unit makes of a page table *)

Lemma pte_page_mk pa f : 0 <= pa < 2 ^ 56 -> pa mod PGSIZE = 0 -> 0 <= f < 1024 -> pte_page (mkpte pa f) = pa.
Proof.
  intros. unfold pte_page, mkpte. rewrite Z.shiftl_mul_pow2, Z.shiftr_div_pow2, Z.land_ones by lia.
  change (2 ^ 10) with 1024. change (2 ^ 12) with 4096. unfold PGSIZE in *.
  rewrite Z.div_add_l, (Z.div_small f), Z.add_0_r by lia.
  rewrite Z.mod_small; Z.to_euclidean_division_equations; lia.
Qed.

(** Flags of an entry that maps a page. *)
Definition mapping (f : Z) : bool := (has f PTE_R || has f PTE_X) && negb (negb (has f PTE_R) && has f PTE_W).

Section Mmu.
Context (kend : Z) (Hend : KERNBASE <= kend <= PHYSTOP).

Lemma sv39_zero m l table va : ld64 m (table + 8 * PX (Z.of_nat l) va) = 0 -> sv39 m l table va = None.
Proof. intros E. destruct l; cbn [sv39]; rewrite E; done. Qed.

Lemma sv39_walk m P root va l p :
  pt_rep kend m P root -> (forall e, leaf P !! (va / PGSIZE) = Some e -> mapping (PTE_FLAGS e) = true) ->
  0 <= va -> (l <= 2)%nat -> tabs P !! (l, pfx (va / PGSIZE) l) = Some p -> sv39 m l p va = translate P va.
Proof.
  intros H Hmap Hva. revert p. induction l as [|l IH]; intros p Hl Hp.
  - assert (ld64 m (p + 8 * PX (Z.of_nat 0) va) = default 0 (leaf P !! (va / PGSIZE))) as E.
    { rewrite PX_0 by done. rewrite pfx_0 in Hp. rewrite (pr_mem _ _ _ _ H _ _ _ _ Hp) by (apply Z.mod_pos_bound; lia).
      simpl. do 2 f_equal. rewrite Z.mul_comm. symmetry. apply Z.div_mod. lia. }
    unfold translate. destruct (leaf P !! (va / PGSIZE)) as [e|] eqn:El; simpl in E.
    + specialize (Hmap e eq_refl). destruct (pr_leaf _ _ _ _ H _ _ El) as ((pa & f & -> & Hpa & Hm & Hf & Hv) & _).
      rewrite mkpte_flags in Hmap |- * by done. cbn [sv39]. rewrite E, !mkpte_has, mkpte_flags, pte_page_mk, mkpte_pa by done.
      unfold mapping in Hmap. apply andb_true_iff in Hmap as [H1 H2]. apply negb_true_iff in H2. rewrite Hv, H2, H1. simpl Z.of_nat.
      rewrite Z.pow_0_r, Z.mul_1_r, Hm. done.
    + by apply sv39_zero.
  - pose proof (next_entry kend _ P root va l p H Hva Hp) as E. cbn [entry] in E.
    destruct (tabs P !! (l, pfx (va / PGSIZE) l)) as [q|] eqn:Eq.
    + destruct (pr_key _ _ _ _ H _ _ _ Eq) as [Hq _]. pose proof (page_ok_bounds kend Hend q Hq). destruct Hq as [Hqm _].
      cbn [sv39]. rewrite E, !mkpte_has, pte_page_mk by (done || lia). by apply IH; [lia|].
    + rewrite sv39_zero by done. unfold translate. destruct (leaf P !! (va / PGSIZE)) as [e|] eqn:El; [|done].
      destruct (pr_leaf _ _ _ _ H _ _ El) as (_ & _ & [q Hq]). exfalso.
      rewrite (path_none kend _ P root _ l H ltac:(lia) Eq) in Hq. done.
Qed.

Lemma satp_root root : page_ok kend root ->
  Z.shiftr (MAKE_SATP root) 60 = 8 /\ Z.shiftl (Z.land (MAKE_SATP root) (Z.ones 44)) 12 = root.
Proof.
  intros Hr. pose proof (page_ok_bounds kend Hend root Hr) as Hb. destruct Hr as [Hm _].
  unfold PHYSTOP, KERNBASE, PGSIZE in *. unfold MAKE_SATP. assert (0 <= Z.shiftr root 12 < 2 ^ 20) as Hx.
  { rewrite Z.shiftr_div_pow2 by lia. Z.to_euclidean_division_equations. lia. }
  rewrite Z.shiftr_lor, Z.land_lor_distr_l, (Z.land_ones (Z.shiftr root 12)) by lia. split.
  - rewrite (Z.shiftr_div_pow2 (Z.shiftr root 12)), Z.div_small by lia. done.
  - rewrite (Z.mod_small (Z.shiftr root 12)) by lia. change (Z.land SATP_SV39 (Z.ones 44)) with 0.
    rewrite Z.lor_0_l, Z.shiftl_mul_pow2, Z.shiftr_div_pow2 by lia. change (2 ^ 12) with 4096. Z.to_euclidean_division_equations. lia.
Qed.

Lemma mmu_translate m P root va : pt_rep kend m P root ->
  (forall e, leaf P !! (va / PGSIZE) = Some e -> mapping (PTE_FLAGS e) = true) -> 0 <= va < MAXVA ->
  mmu m (MAKE_SATP root) va = translate P va.
Proof.
  intros H Hmap Hva. unfold mmu. destruct (pr_key _ _ _ _ H _ _ _ (pr_root _ _ _ _ H)) as [Hr _].
  destruct (satp_root root Hr) as [-> ->]. unfold canonical. rewrite (proj2 (Z.ltb_lt _ _)) by (rewrite MAXVA_eq in Hva; lia).
  cbn [orb]. change (negb (8 =? 8) || negb true) with false. cbv iota.
  eapply sv39_walk; try done; [lia|]. rewrite pfx_root by (by apply vpn_range). apply H.
Qed.
End Mmu.

(** ** The state in which [main] starts *)

(** Reading a register after writes to the registers. *)
Ltac csr_simpl := repeat first [rewrite fn_lookup_insert | rewrite fn_lookup_insert_ne by discriminate].

Lemma mpp_supervisor x :
  Z.land (Z.shiftr (Z.lor (Z.land x (Z.lnot MSTATUS_MPP_MASK)) MSTATUS_MPP_S) 11) 3 = 1.
Proof.
  rewrite Z.shiftr_lor, Z.shiftr_land, Z.land_lor_distr_l, <- Z.land_assoc.
  change (Z.land (Z.shiftr (Z.lnot MSTATUS_MPP_MASK) 11) 3) with 0. by rewrite Z.land_0_r.
Qed.

(** The start of a core.  Entered in machine mode, [start] leaves for [main] in
    supervisor mode with translation off, all exceptions and interrupts delegated to
    supervisor mode, external, timer and software interrupts enabled there, the whole
    physical memory open to the supervisor, the first timer interrupt a tenth of a second
    ahead and the number of the core in [tp]; the global interrupt enable and the other
    registers are as they were. *)
Theorem start_enters main h : h_mode h = MMode ->
  exists h', start main h = Ret tt h' /\ h_mode h' = SMode /\ h_pc h' = main /\ h_csr h' satp = 0 /\ delegates h' /\
    Z.testbit (h_csr h' pmpcfg0) 3 = true /\ Z.land (h_csr h' pmpcfg0) 7 = 7 /\
    (forall a, 0 <= a < 2 ^ 56 - 4 -> a < 4 * h_csr h' pmpaddr0) /\
    Z.testbit (h_csr h' menvcfg) 63 = true /\ Z.testbit (h_csr h' mcounteren) 1 = true /\
    h_csr h' stimecmp = u64 (h_csr h time + 1000000) /\ h_reg h' Reg.tp = u64 (i32 (h_csr h mhartid)) /\
    Z.testbit (h_csr h' mstatus) 1 = Z.testbit (h_csr h mstatus) 1 /\
    (forall r, r <> Reg.tp -> h_reg h' r = h_reg h r).
Proof.
  destruct h as [md pc rg cs]. intros Hm. simpl in Hm. subst md. eexists. split.
  { cbv [start mbind M_bind mret M_ret r_mstatus w_mstatus w_mepc w_satp w_medeleg w_mideleg r_sie w_sie w_pmpaddr0
      w_pmpcfg0 timerinit r_mie w_mie r_menvcfg w_menvcfg r_mcounteren w_mcounteren r_time w_stimecmp r_mhartid w_tp
      csrr csrw gets modify set_csr set_reg set_regs h_mode h_pc h_reg h_csr mret_]. rewrite decide_True by done. reflexivity. }
  cbn [h_mode h_pc h_reg h_csr]. csr_simpl. rewrite mpp_supervisor. split_and!; try done.
  - split; cbn [h_csr]; csr_simpl.
    + intros c Hc. change 65535 with (Z.ones 16). apply Z.ones_spec_low. lia.
    + intros c Hc. change 65535 with (Z.ones 16). apply Z.ones_spec_low. lia.
    + intros c Hc. rewrite Z.lor_spec, masked_spec, !Z.lor_spec by lia.
      destruct Hc as [-> |[-> | ->]]; simpl; by rewrite ?orb_true_r.
  - intros a Ha. lia.
  - rewrite Z.lor_spec, orb_true_r. done.
  - rewrite Z.lor_spec, orb_true_r. done.
  - unfold mret_status. rewrite !put_bit_spec, !decide_False by lia. rewrite Z.lor_spec, Z.land_spec.
    change (Z.testbit (Z.lnot MSTATUS_MPP_MASK) 1) with true. change (Z.testbit MSTATUS_MPP_S 1) with false. by rewrite andb_true_r, orb_false_r.
  - intros r Hr. by rewrite fn_lookup_insert_ne.
Qed.

Definition reset_hart : hart := Hart MMode 0 (fun _ => 0) (fun c => match c with mhartid => 2 | time => 5 | _ => 0 end).

Lemma start_enters_witness :
  exists h', start 2147483760 reset_hart = Ret tt h' /\ h_pc h' = 2147483760 /\ h_reg h' Reg.tp = 2 /\ h_csr h' stimecmp = 1000005.
Proof.
  destruct (start_enters 2147483760 reset_hart eq_refl) as (h' & He & _ & Hpc & _ & _ & _ & _ & _ & _ & _ & Ht & Htp & _).
  exists h'. split_and!; [exact He | exact Hpc | rewrite Htp; reflexivity | rewrite Ht; reflexivity].
Defined.
