(* ===== verification/Trap.v ===== *)
(** * Trap: traps and interrupts, [kernel/trap.c], [kernel/plic.c], [kernel/trampoline.S] and [kernel/kernelvec.S]

    A core with its interrupt controller, the two interrupting devices and the kernel's
    state.  The assembly code is executed instruction by instruction, with every
    fetch, load and store translated by the page table that is current; the C functions
    run on the kernel's state.  Registers that compiled C code leaves with values of its
    own are [junk].  What the other processes do while the current one is off the
    processor is the parameter [others]. *)

From S2P Require Import Prelude CString Riscv Kalloc Vm Uart Console Virtio Pipe BufCache Txn Proc Fs File Lifecycle Printf Exec SysArgs SysProc SysFile Syscall SyscallSpec Kvm Hart.

(** ** The assembly code *)

Module Trampoline.
Import Reg.

Definition uservec : list instr :=
  [ Csrw sscratch a0;
    Li a0 TRAPFRAME;
    Sd ra 40 a0; Sd sp 48 a0; Sd gp 56 a0; Sd tp 64 a0; Sd t0 72 a0; Sd t1 80 a0; Sd t2 88 a0;
    Sd s0 96 a0; Sd s1 104 a0; Sd a1 120 a0; Sd a2 128 a0; Sd a3 136 a0; Sd a4 144 a0; Sd a5 152 a0;
    Sd a6 160 a0; Sd a7 168 a0; Sd s2 176 a0; Sd s3 184 a0; Sd s4 192 a0; Sd s5 200 a0; Sd s6 208 a0;
    Sd s7 216 a0; Sd s8 224 a0; Sd s9 232 a0; Sd s10 240 a0; Sd s11 248 a0; Sd t3 256 a0; Sd t4 264 a0;
    Sd t5 272 a0; Sd t6 280 a0;
    Csrr t0 sscratch;
    Sd t0 112 a0;
    Ld sp 8 a0;
    Ld tp 32 a0;
    Ld t0 16 a0;
    Ld t1 0 a0;
    Sfence_vma;
    Csrw satp t1;
    Sfence_vma;
    Jr t0 ].

Definition userret : list instr :=
  [ Sfence_vma;
    Csrw satp a0;
    Sfence_vma;
    Li a0 TRAPFRAME;
    Ld ra 40 a0; Ld sp 48 a0; Ld gp 56 a0; Ld tp 64 a0; Ld t0 72 a0; Ld t1 80 a0; Ld t2 88 a0;
    Ld s0 96 a0; Ld s1 104 a0; Ld a1 120 a0; Ld a2 128 a0; Ld a3 136 a0; Ld a4 144 a0; Ld a5 152 a0;
    Ld a6 160 a0; Ld a7 168 a0; Ld s2 176 a0; Ld s3 184 a0; Ld s4 192 a0; Ld s5 200 a0; Ld s6 208 a0;
    Ld s7 216 a0; Ld s8 224 a0; Ld s9 232 a0; Ld s10 240 a0; Ld s11 248 a0; Ld t3 256 a0; Ld t4 264 a0;
    Ld t5 272 a0; Ld t6 280 a0;
    Ld a0 112 a0;
    Sret ].

(** [kernelvec] before and after its call of [kerneltrap]. *)
Definition kernelvec_save : list instr :=
  [ Addi sp sp (-256);
    Sd ra 0 sp; Sd sp 8 sp; Sd gp 16 sp; Sd tp 24 sp; Sd t0 32 sp; Sd t1 40 sp; Sd t2 48 sp;
    Sd a0 72 sp; Sd a1 80 sp; Sd a2 88 sp; Sd a3 96 sp; Sd a4 104 sp; Sd a5 112 sp; Sd a6 120 sp; Sd a7 128 sp;
    Sd t3 216 sp; Sd t4 224 sp; Sd t5 232 sp; Sd t6 240 sp ].

Definition kernelvec_restore : list instr :=
  [ Ld ra 0 sp; Ld sp 8 sp; Ld gp 16 sp; Ld t0 32 sp; Ld t1 40 sp; Ld t2 48 sp;
    Ld a0 72 sp; Ld a1 80 sp; Ld a2 88 sp; Ld a3 96 sp; Ld a4 104 sp; Ld a5 112 sp; Ld a6 120 sp; Ld a7 128 sp;
    Ld t3 216 sp; Ld t4 224 sp; Ld t5 232 sp; Ld t6 240 sp;
    Addi sp sp 256;
    Sret ].

(** The registers a C function gives back as it found them. *)
Definition callee_saved (r : nat) : bool :=
  bool_decide (r ∈ [sp; gp; s0; s1; s2; s3; s4; s5; s6; s7; s8; s9; s10; s11]).
End Trampoline.

(** ** The interrupt controller *)

Definition UART0_IRQ : Z := 10.
Definition VIRTIO0_IRQ : Z := 1.
Definition PLIC_SENABLE (hart : Z) : Z := PLIC + 8320 + hart * 256.
Definition PLIC_SPRIORITY (hart : Z) : Z := PLIC + 2101248 + hart * 8192.
Definition PLIC_SCLAIM (hart : Z) : Z := PLIC + 2101252 + hart * 8192.

(** The registers that have been written, the requests that wait for a core and those
    that a core has claimed and not completed. *)
Record plic := Plic { pl_regs : gmap Z Z; pl_pending : list Z; pl_claimed : list Z }.

Definition plic_reg (s : plic) (a : Z) : Z := default 0 (pl_regs s !! a).
Definition plic_write (a v : Z) : M plic unit :=
  modify (fun s => Plic (<[a := u32 v]> (pl_regs s)) (pl_pending s) (pl_claimed s)).

Definition plic_prio (s : plic) (irq : Z) : Z := plic_reg s (PLIC + irq * 4).
Definition eligible (s : plic) (hart irq : Z) : bool :=
  Z.testbit (plic_reg s (PLIC_SENABLE hart)) irq && (plic_reg s (PLIC_SPRIORITY hart) <? plic_prio s irq).
(** Higher priority first, then the lower number. *)
Definition better (s : plic) (x y : Z) : bool :=
  (plic_prio s y <? plic_prio s x) || ((plic_prio s x =? plic_prio s y) && (x <=? y)).
Definition best (s : plic) (hart : Z) : option Z :=
  foldr (fun x b => match b with Some y => if better s x y then Some x else b | None => Some x end) None
    (filter (fun irq => eligible s hart irq = true) (pl_pending s)).

(** Reading and writing the claim register. *)
Definition plic_take (hart : Z) : M plic Z := fun s =>
  match best s hart with
  | Some irq => Ret irq (Plic (pl_regs s) (filter (.≠ irq) (pl_pending s)) (irq :: pl_claimed s))
  | None => Ret 0 s
  end.
Definition plic_done (irq : Z) : M plic unit :=
  modify (fun s => Plic (pl_regs s) (pl_pending s) (filter (.≠ irq) (pl_claimed s))).

Definition plicinit : M plic unit :=
  plic_write (PLIC + UART0_IRQ * 4) 1;;
  plic_write (PLIC + VIRTIO0_IRQ * 4) 1.

(** ** The handlers of the devices *)

(** [procdump] on the console: the list of processes, read without locks. *)
Section Procdump.
Variables (proc_base str_addr : Z).

Definition state_name (st : procstate) : list Z :=
  match st with
  | UNUSED => bytes "unused" | USED => bytes "used" | SLEEPING => bytes "sleep " | RUNNABLE => bytes "runble"
  | RUNNING => bytes "run   " | ZOMBIE => bytes "zombie"
  end.

Definition uprintf (m : mem) (fmt ap : list Z) : M uart unit := KPrintf.printf_loop consputc m 256 (length fmt) fmt ap.

Definition procdump (ps : list proc) : M uart unit :=
  uprintf ∅ [10] [];;
  for_each (R := unit) (zip (seq 0 (length ps)) ps) (fun x =>
    let '(i, p) := x in
    if is_state (p_state p) UNUSED then mret None else
    let name := proc_addr proc_base i + off_name in
    let m := wrn (wrn ∅ name (c_str (p_name p) ++ [0])) str_addr (state_name (p_state p) ++ [0]) in
    uprintf m (bytes "%d %s %s") [p_pid p; str_addr; name];;
    uprintf m [10] [];;
    mret None);;
  mret tt.
End Procdump.

(** The input loop of [uartintr]. *)
Fixpoint uartintr_loop (dump : M uart unit) (fuel : nat) : M cons unit :=
  match fuel with
  | O => fun _ => NoFuel
  | S fuel =>
    c ← zoom c_ttyL (zoom udevL uartgetc);
    if c =? -1 then mret tt else
    consoleintr dump c;;
    uartintr_loop dump fuel
  end.

Definition uartintr (dump : M uart unit) : M cons unit :=
  n ← gets (fun s => length (rx (udev (c_tty s))));
  uartintr_loop dump (S n);;
  zoom c_ttyL uartintr_tx.

(** The loop of [virtio_disk_intr]; the ring holds at most [NUM] entries. *)
Fixpoint virtio_intr_loop (fuel : nat) : M vsys unit :=
  match fuel with
  | O => fun _ => NoFuel
  | S fuel =>
    d ← gdisk id;
    if used_idx d =? u_idx d then mret tt else
    intr_round;;
    virtio_intr_loop fuel
  end.

Definition virtio_disk_intr : M vsys unit :=
  intr_begin;;
  virtio_intr_loop (S NUM);;
  intr_end.

(** ** The trap code *)

Section Trap.
Context {T : Type} `{Txn T} {D : Type}.
Variables kend trampoline forkret_addr proc_base ticks_addr info_addr : Z.
Variable buf_addr : nat -> Z.
Variables de_addr st_addr ch_addr elf_addr ph_addr ustack_addr ip_addr path_addr new_addr fd_addr str_addr : Z.
Variables dev_read dev_write : Z -> option (Z -> Z -> Z -> M (@fstate T D) Z).
(** The linker's addresses of the assembly routines and of [usertrap]. *)
Variables uservec userret kernelvec usertrap_addr : Z.
Notation kstate := (@kstate T D).

Notation syscall_ := (syscall kend trampoline forkret_addr proc_base ticks_addr info_addr buf_addr de_addr st_addr ch_addr elf_addr ph_addr ustack_addr ip_addr path_addr new_addr fd_addr
  str_addr dev_read dev_write).

Record tsys := TSys { t_hart : hart; t_plic : plic; t_cons : cons; t_disk : vsys; t_k : kstate }.

Definition hartL : lens tsys hart := Lens t_hart (fun h s => TSys h (t_plic s) (t_cons s) (t_disk s) (t_k s)).
Definition plicL : lens tsys plic := Lens t_plic (fun p s => TSys (t_hart s) p (t_cons s) (t_disk s) (t_k s)).
Definition consL : lens tsys cons := Lens t_cons (fun c s => TSys (t_hart s) (t_plic s) c (t_disk s) (t_k s)).
Definition diskL : lens tsys vsys := Lens t_disk (fun d s => TSys (t_hart s) (t_plic s) (t_cons s) d (t_k s)).
Definition kL : lens tsys kstate := Lens t_k (fun k s => TSys (t_hart s) (t_plic s) (t_cons s) (t_disk s) k).
(** The core and the memory. *)
Definition coreL : lens tsys core :=
  Lens (fun s => (t_hart s, kmemory (t_k s)))
       (fun c s => TSys c.1 (t_plic s) (t_cons s) (t_disk s) (with_mem c.2 (t_k s))).

Definition th {A} (m : M hart A) : M tsys A := zoom hartL m.
Definition tk {A} (m : M kstate A) : M tsys A := zoom kL m.
Definition tproc {A} (m : M kproc A) : M tsys A := tk (k_proc m).

Definition cpuid : M tsys Z := x ← th r_tp; mret (i32 x).

Definition plicinithart : M tsys unit :=
  hart ← cpuid;
  zoom plicL (plic_write (PLIC_SENABLE hart) (Z.lor (Z.shiftl 1 UART0_IRQ) (Z.shiftl 1 VIRTIO0_IRQ));;
              plic_write (PLIC_SPRIORITY hart) 0).
Definition plic_claim : M tsys Z := hart ← cpuid; irq ← zoom plicL (plic_take hart); mret (i32 irq).
Definition plic_complete (irq : Z) : M tsys unit := cpuid;; zoom plicL (plic_done irq).

Definition trapinit : M tsys unit := tk (modify (put tickslockL Free)).
Definition trapinithart : M tsys unit := th (w_stvec kernelvec).

Definition clockintr : M tsys unit :=
  id ← cpuid;
  when (id =? 0) (
    tk (acquire tickslockL;;
        modify (fun s => KState (ks_f s) (u32 (ks_ticks s + 1)) (ks_tickslock s) (ks_out s));;
        k_proc (wakeup ticks_addr);;
        release tickslockL));;
  t ← th r_time;
  th (w_stimecmp (u64 (t + 1000000))).

Definition CAUSE_EXTERNAL : Z := 9223372036854775817.   (* 0x8000000000000009 *)
Definition CAUSE_TIMER : Z := 9223372036854775813.      (* 0x8000000000000005 *)

Definition devintr : M tsys Z :=
  cause ← th r_scause;
  if cause =? CAUSE_EXTERNAL then
    irq ← plic_claim;
    (if irq =? UART0_IRQ then
       ps ← gets (fun s => procs (kprocs (t_k s)));
       zoom consL (uartintr (procdump proc_base str_addr ps))
     else if irq =? VIRTIO0_IRQ then zoom diskL virtio_disk_intr
     else when (negb (irq =? 0)) (tk (kprintf (bytes "unexpected interrupt irq=%d" ++ [10]) [irq] [])));;
    when (negb (irq =? 0)) (plic_complete irq);;
    mret 1
  else if cause =? CAUSE_TIMER then
    clockintr;;
    mret 2
  else mret 0.

(** The processor in other hands until the scheduler switches back to process [p],
    which enters and leaves it with its lock held. *)
Variable others : nat -> tsys -> tsys.

Definition yield : M tsys unit :=
  p ← tproc me;
  tproc (acquire (proc_lockL p));;
  tproc (pupd p (setp_state RUNNABLE));;
  modify (others p);;
  tproc (release (proc_lockL p)).

(** What compiled C code leaves in the registers it may change. *)
Variable junk : nat -> Z.

Definition tf_kernel_satp : Z := 0.
Definition tf_kernel_sp : Z := 8.
Definition tf_kernel_trap : Z := 16.
Definition tf_kernel_hartid : Z := 32.

(** [p->trapframe->field] and its assignment. *)
Definition tf_get (p : nat) (off : Z) : M tsys Z := tf ← tproc (pget p p_trapframe); tk (k_mem (ldq (tf + off))).
Definition tf_set (p : nat) (off v : Z) : M tsys unit := tf ← tproc (pget p p_trapframe); tk (k_mem (stq (tf + off) v)).

(** Up to the jump to [userret], with the page table for [satp] in [a0]. *)
Definition usertrapret : M tsys unit :=
  p ← tproc me;
  th intr_off;;
  let trampoline_uservec := TRAMPOLINE + (uservec - trampoline) in
  th (w_stvec trampoline_uservec);;
  x ← th r_satp; tf_set p tf_kernel_satp x;;
  kstack ← tproc (pget p p_kstack); tf_set p tf_kernel_sp (u64 (kstack + PGSIZE));;
  tf_set p tf_kernel_trap usertrap_addr;;
  x ← th r_tp; tf_set p tf_kernel_hartid x;;
  x ← th r_sstatus;
  let x := Z.land x (Z.lnot SSTATUS_SPP) in
  let x := Z.lor x SSTATUS_SPIE in
  th (w_sstatus x);;
  epc ← tf_get p tf_epc; th (w_sepc epc);;
  pt ← tproc (pget p p_pagetable);
  let satp := MAKE_SATP pt in
  let trampoline_userret := TRAMPOLINE + (userret - trampoline) in
  th (modify (fun h => set_pc trampoline_userret
    (set_regs (<[Reg.a0 := satp]> (<[Reg.tp := h_reg h Reg.tp]> junk)) h))).

Definition exit_killed (p : nat) : M tsys unit :=
  k ← tproc (killed p);
  when (negb (k =? 0)) (tk (in_f (exit kend proc_base (-1)))).

(** The branches of [usertrap] on the cause: the device that interrupted, 2 for the timer. *)
Definition usertrap_handle (p : nat) (cause : Z) : M tsys Z :=
  if cause =? 8 then
    exit_killed p;;
    epc ← tf_get p tf_epc; tf_set p tf_epc (u64 (epc + 4));;
    th intr_on;;
    tk syscall_;;
    mret 0
  else
    which_dev ← devintr;
    if negb (which_dev =? 0) then mret which_dev else
    cause ← th r_scause; pid ← tproc (pget p p_pid);
    tk (kprintf (bytes "usertrap(): unexpected scause 0x%lx pid=%d" ++ [10]) [cause; pid] []);;
    epc ← th r_sepc; tval ← th r_stval;
    tk (kprintf (bytes "            sepc=0x%lx stval=0x%lx" ++ [10]) [epc; tval] []);;
    tproc (setkilled p);;
    mret 0.

Definition usertrap : M tsys unit :=
  x ← th r_sstatus;
  if negb (Z.land x SSTATUS_SPP =? 0) then panic "usertrap: not from user mode" else
  th (w_stvec kernelvec);;
  p ← tproc me;
  epc ← th r_sepc; tf_set p tf_epc epc;;
  cause ← th r_scause;
  which_dev ← usertrap_handle p cause;
  exit_killed p;;
  when (which_dev =? 2) yield;;
  usertrapret.

Definition kerneltrap : M tsys unit :=
  epc ← th r_sepc;
  status ← th r_sstatus;
  cause ← th r_scause;
  if Z.land status SSTATUS_SPP =? 0 then panic "kerneltrap: not from supervisor mode" else
  on ← th intr_get;
  if (on : bool) then panic "kerneltrap: interrupts enabled" else
  which_dev ← devintr;
  if which_dev =? 0 then
    epc ← th r_sepc; tval ← th r_stval;
    tk (kprintf (bytes "scause=0x%lx sepc=0x%lx stval=0x%lx" ++ [10]) [cause; epc; tval] []);;
    panic "kerneltrap"
  else
  me ← tproc myproc;
  when ((which_dev =? 2) && bool_decide (me <> None)) yield;;
  th (w_sepc epc);;
  th (w_sstatus status).

(** ** From the trap to the return *)

(** Code at address [a], reached by the program counter. *)
Definition at_pc {A} (a : Z) (m : M tsys A) : M tsys A :=
  pc ← th (gets h_pc);
  if pc =? a then m else undefined.

(** A trap taken in user mode, up to the return to user mode. *)
Definition user_trap (cause tval : Z) : M tsys unit :=
  th (trap cause tval);;
  at_pc (TRAMPOLINE + (uservec - trampoline)) (zoom coreL (exec_block trampoline Trampoline.uservec));;
  at_pc usertrap_addr usertrap;;
  at_pc (TRAMPOLINE + (userret - trampoline)) (zoom coreL (exec_block trampoline Trampoline.userret)).

(** [call kerneltrap] *)
Definition call_kerneltrap : M tsys unit :=
  regs ← th (gets h_reg);
  kerneltrap;;
  th (modify (fun h => set_pc kernelvec (set_regs (fun r => if Trampoline.callee_saved r then regs r else if decide (r = Reg.tp) then h_reg h r else junk r) h))).

(** A trap taken in the kernel. *)
Definition kernel_trap (cause tval : Z) : M tsys unit :=
  th (trap cause tval);;
  at_pc kernelvec (zoom coreL (exec_block (PGROUNDDOWN kernelvec) Trampoline.kernelvec_save));;
  call_kerneltrap;;
  zoom coreL (exec_block (PGROUNDDOWN kernelvec) Trampoline.kernelvec_restore).

End Trap.
