(* ===== verification/TrapSpec.v ===== *)
(** * TrapSpec: a trap leaves the interrupted code as it found it

    The paths through [uservec], [usertrap], [usertrapret] and [userret], and through
    [kernelvec] and [kerneltrap], from the trap to the return. *)

From stdpp Require Import functions.
From S2P Require Import Prelude CString Riscv Kalloc Vm Uart Console Virtio Pipe BufCache Txn Proc Fs File Lifecycle Printf Exec SysArgs SysProc SysFile Syscall Bio LogCrash FsSpec SyscallSpec VirtioSpec Kvm Hart Trap.

(** ** Straight-line code *)

(** Memory changed in one page at most. *)
Definition only_page (pg : Z) (m m' : mem) : Prop := forall a, PGROUNDDOWN a <> pg -> rd m' a = rd m a.

Lemma only_page_refl pg m : only_page pg m m.
Proof. done. Qed.
Lemma only_page_trans pg m1 m2 m3 : only_page pg m1 m2 -> only_page pg m2 m3 -> only_page pg m1 m3.
Proof. intros H1 H2 a Ha. by rewrite H2, H1. Qed.
Lemma only_page_st64 pg m a v : pg mod PGSIZE = 0 -> pg <= a -> a + 8 <= pg + PGSIZE -> only_page pg m (st64 m a v).
Proof.
  intros Hm H1 H2 b Hb. apply rd_st64_ne. destruct (decide (pg <= b < pg + PGSIZE)); [|lia].
  exfalso. apply Hb. by apply PGROUNDDOWN_in.
Qed.

(** A word at an offset in the page, and stores at other offsets. *)
Definition saves (pa : Z) (f : nat -> Z) (tbl : list (nat * Z)) (m : mem) : mem :=
  foldl (fun m x => st64 m (pa + x.2) (f x.1)) m tbl.
Definition loads (pa : Z) (m : mem) (tbl : list (nat * Z)) (f : nat -> Z) : nat -> Z :=
  foldl (fun f x => <[x.1 := ld64 m (pa + x.2)]> f) f tbl.

Lemma ld_saves_ne pa f tbl m o : Forall (fun x => x.2 + 8 <= o \/ o + 8 <= x.2) tbl ->
  ld64 (saves pa f tbl m) (pa + o) = ld64 m (pa + o).
Proof.
  unfold saves. revert m. induction tbl as [|x tbl IH]; intros m Hf; [done|]. apply Forall_cons in Hf as [Hx Hf].
  simpl. rewrite IH by done. apply ld64_st64_ne. lia.
Qed.

Lemma ld_saves pa f tbl m r o : (r, o) ∈ tbl -> NoDup (tbl.*2) -> Forall (fun x => x.2 mod 8 = 0) tbl ->
  ld64 (saves pa f tbl m) (pa + o) = u64 (f r).
Proof.
  unfold saves. revert m. induction tbl as [|x tbl IH]; intros m Hin Hnd Hf; [by apply not_elem_of_nil in Hin|].
  apply NoDup_cons in Hnd as [Hx Hnd]. apply Forall_cons in Hf as [H8 Hf]. simpl.
  apply elem_of_cons in Hin as [<-|Hin]; [|by apply IH].
  change (ld64 (saves pa f tbl (st64 m (pa + o) (f r))) (pa + o) = u64 (f r)). rewrite ld_saves_ne; [apply ld64_st64_eq|].
  apply Forall_forall. intros y Hy. rewrite Forall_forall in Hf. specialize (Hf y Hy). simpl in *.
  assert (y.2 <> o) by (intros <-; apply Hx, list_elem_of_fmap; eauto). Z.to_euclidean_division_equations. lia.
Qed.

Lemma saves_page pa f tbl m pg : pg mod PGSIZE = 0 ->
  Forall (fun x => pg <= pa + x.2 /\ pa + x.2 + 8 <= pg + PGSIZE) tbl -> only_page pg m (saves pa f tbl m).
Proof.
  intros Hpg. unfold saves. revert m. induction tbl as [|x tbl IH]; intros m Hf; [apply only_page_refl|].
  apply Forall_cons in Hf as [Hx Hf]. simpl. eapply only_page_trans; [|by apply IH]. apply only_page_st64; tauto.
Qed.

Lemma loads_ne pa m tbl f r : r ∉ tbl.*1 -> loads pa m tbl f r = f r.
Proof.
  unfold loads. revert f. induction tbl as [|x tbl IH]; intros f Hr; [done|]. apply not_elem_of_cons in Hr as [H1 H2].
  simpl. rewrite IH by done. by rewrite fn_lookup_insert_ne.
Qed.

Lemma loads_in pa m tbl f r o : (r, o) ∈ tbl -> NoDup (tbl.*1) -> loads pa m tbl f r = ld64 m (pa + o).
Proof.
  unfold loads. revert f. induction tbl as [|x tbl IH]; intros f Hin Hnd; [by apply not_elem_of_nil in Hin|].
  apply NoDup_cons in Hnd as [Hx Hnd]. apply elem_of_cons in Hin as [<-|Hin]; simpl; [|by apply IH].
  change (loads pa m tbl (<[r := ld64 m (pa + o)]> f) r = ld64 m (pa + o)). rewrite loads_ne by done. apply fn_lookup_insert.
Qed.

(** The offset of a register in the trapframe. *)
Definition tf_reg (r : nat) : Z := 32 + 8 * Z.of_nat r.
Definition frame_tbl : list (nat * Z) := (fun r => (r, tf_reg r)) <$> filter (fun r => r <> Reg.a0) (seq 1 31).

Lemma frame_tbl_in r : (1 <= r <= 31)%nat -> r <> Reg.a0 -> (r, tf_reg r) ∈ frame_tbl.
Proof. intros H1 H2. apply list_elem_of_fmap. exists r. split; [done|]. apply list_elem_of_filter. split; [done|]. apply elem_of_seq. lia. Qed.
Lemma frame_tbl_1 : NoDup (frame_tbl.*1).
Proof. apply (bool_decide_eq_true_1 _). by vm_compute. Qed.
Lemma frame_tbl_2 : NoDup (frame_tbl.*2).
Proof. apply (bool_decide_eq_true_1 _). by vm_compute. Qed.
Lemma frame_tbl_range : Forall (fun x => 40 <= x.2 <= 280 /\ x.2 mod 8 = 0 /\ x.2 <> 112 /\ x.1 <> Reg.a0) frame_tbl.
Proof. apply (bool_decide_eq_true_1 _). by vm_compute. Qed.

(** The memory after [uservec]. *)
Definition uservec_mem (tf : Z) (f : nat -> Z) (m : mem) : mem := st64 (saves tf f frame_tbl m) (tf + 112) (f Reg.a0).

Lemma uservec_mem_ok tf f m : tf mod PGSIZE = 0 -> only_page tf m (uservec_mem tf f m) /\
  (forall r, (1 <= r <= 31)%nat -> ld64 (uservec_mem tf f m) (tf + tf_reg r) = u64 (f r)) /\
  (forall o, 0 <= o <= 32 -> ld64 (uservec_mem tf f m) (tf + o) = ld64 m (tf + o)).
Proof.
  intros Htf. unfold uservec_mem. pose proof frame_tbl_range as Hr. split_and!.
  - eapply only_page_trans; [apply (saves_page tf f frame_tbl m tf); [done|]|].
    + eapply Forall_impl; [exact Hr|]. intros x (? & _). unfold PGSIZE. lia.
    + apply only_page_st64; [done|lia|unfold PGSIZE; lia].
  - intros r Hr1. destruct (decide (r = Reg.a0)) as [->|Hne].
    + change (tf_reg Reg.a0) with 112. apply ld64_st64_eq.
    + rewrite ld64_st64_ne.
      * apply ld_saves; [by apply frame_tbl_in | apply frame_tbl_2 |]. eapply Forall_impl; [exact Hr|]. tauto.
      * unfold tf_reg, Reg.a0 in *. lia.
  - intros o Ho. rewrite ld64_st64_ne by lia. apply ld_saves_ne. eapply Forall_impl; [exact Hr|]. intros x (? & _). lia.
Qed.

Lemma saves_ext tf f g tbl m : Forall (fun x => f x.1 = g x.1) tbl -> saves tf f tbl m = saves tf g tbl m.
Proof.
  unfold saves. revert m. induction tbl as [|x tbl IH]; intros m H; [done|]. apply Forall_cons in H as [Hx H]. simpl. rewrite Hx. by apply IH.
Qed.

Section Exec.
Context (kend : Z) (Hend : KERNBASE <= kend <= PHYSTOP).

Lemma rep_page m m' P root pg : pt_rep kend m P root -> pg ∉ tables P -> only_page pg m m' -> pt_rep kend m' P root.
Proof. intros H Hpg Ho. eapply pt_rep_frame; [|done]. intros a Ha. apply Ho. intros E. by rewrite E in Ha. Qed.

(** Supervisor code in the page [page] that runs in the address space [P]. *)
Record runs_in (P : pt) (root page : Z) (s : core) : Prop := {
  ri_mode : h_mode s.1 = SMode;
  ri_satp : h_csr s.1 satp = MAKE_SATP root;
  ri_rep : pt_rep kend s.2 P root;
  ri_pc : 0 <= h_pc s.1 < MAXVA;
  ri_code : exists pa, translate P (h_pc s.1) = Some (pa, xflags) /\ PGROUNDDOWN pa = page
}.

Lemma translate_leaf P va pa f : translate P va = Some (pa, f) -> forall e, leaf P !! (va / PGSIZE) = Some e -> PTE_FLAGS e = f.
Proof. unfold translate. intros Ht e He. rewrite He in Ht. by injection Ht. Qed.

Lemma access_ok P root page h m a va pa f : runs_in P root page (h, m) -> translate P va = Some (pa, f) -> 0 <= va < MAXVA ->
  mapping f = true -> permitted SMode a f = true -> access h m a va = Some pa.
Proof.
  intros [H1 H2 H3 _ _] Ht Hva Hmap Hp. unfold access. cbn [fst snd] in *. rewrite H1, H2.
  destruct (satp_root kend Hend root) as [Hs _]; [apply (pr_key _ _ _ _ H3 _ _ _ (pr_root _ _ _ _ H3))|].
  rewrite Hs, (mmu_translate kend Hend _ P root va H3), Ht; [|intros e He; by erewrite translate_leaf|done]. simpl.
  by rewrite Hp.
Qed.

Lemma fetch_ok P root page h m i l : runs_in P root page (h, m) ->
  exec_block page (i :: l) (h, m) = (exec i;; exec_block page l) (h, m).
Proof.
  intros H. destruct (ri_code _ _ _ _ H) as (pa & Ht & Hp). cbn [fst] in Ht. cbn [exec_block]. erewrite bind_ret by reflexivity.
  erewrite bind_ret; [|unfold vaddr; cbn [fst snd]; rewrite (access_ok P root page h m Fetch _ pa xflags H Ht); [reflexivity|apply H|done|done]].
  by rewrite Hp, Z.eqb_refl.
Qed.

Lemma runs_in_reg P root page h m r v : runs_in P root page (h, m) -> runs_in P root page (set_reg r v h, m).
Proof. intros [H1 H2 H3 H4 H5]. by split. Qed.
Lemma runs_in_regs P root page h m f : runs_in P root page (h, m) -> runs_in P root page (set_regs f h, m).
Proof. intros [H1 H2 H3 H4 H5]. by split. Qed.
Lemma runs_in_mem P root page h m m' : runs_in P root page (h, m) -> pt_rep kend m' P root -> runs_in P root page (h, m').
Proof. intros [H1 H2 H3 H4 H5] H. by split. Qed.
Lemma runs_in_csr P root page h m c v : c <> satp -> runs_in P root page (h, m) -> runs_in P root page (set_csr c v h, m).
Proof. intros Hc [H1 H2 H3 H4 H5]. split; try done. simpl in *. by rewrite fn_lookup_insert_ne. Qed.

(** Words in a page of data. *)
Record data_at (P : pt) (b pa pg : Z) (tbl : list (nat * Z)) : Prop := {
  da_page : pg ∉ tables P;
  da_pg : pg mod PGSIZE = 0;
  da_in : Forall (fun x => translate P (u64 (b + x.2)) = Some (pa + x.2, kflags) /\ 0 <= u64 (b + x.2) < MAXVA /\
            pg <= pa + x.2 /\ pa + x.2 + 8 <= pg + PGSIZE) tbl
}.

Lemma exec_sd P root page b pa pg r o h m l : runs_in P root page (h, m) -> data_at P (h_reg h b) pa pg [(r, o)] ->
  exec_block page (Sd r o b :: l) (h, m) = exec_block page l (h, st64 m (pa + o) (h_reg h r)) /\
  runs_in P root page (h, st64 m (pa + o) (h_reg h r)).
Proof.
  intros H [D1 D2 D3]. apply Forall_singleton in D3 as (Ht & Hva & Hlo & Hhi). cbn [fst snd] in *. split.
  - rewrite (fetch_ok P root) by done. unfold exec. rewrite bind_assoc. erewrite bind_ret by reflexivity. cbv beta. rewrite bind_assoc.
    erewrite bind_ret; [|unfold vaddr; cbn [fst snd]; rewrite (access_ok P root page h m Store _ _ kflags H Ht); [reflexivity|done|done..]]. done.
  - apply (runs_in_mem _ _ _ _ m); [done|]. eapply rep_page; [apply H|exact D1|]. by apply only_page_st64.
Qed.

Lemma exec_ld P root page b pa pg r o h m l : runs_in P root page (h, m) -> data_at P (h_reg h b) pa pg [(r, o)] ->
  exec_block page (Ld r o b :: l) (h, m) = exec_block page l (set_reg r (ld64 m (pa + o)) h, m) /\
  runs_in P root page (set_reg r (ld64 m (pa + o)) h, m).
Proof.
  intros H [D1 D2 D3]. apply Forall_singleton in D3 as (Ht & Hva & Hlo & Hhi). cbn [fst snd] in *. split; [|by apply runs_in_reg].
  rewrite (fetch_ok P root) by done. unfold exec. rewrite bind_assoc. erewrite bind_ret by reflexivity. cbv beta. rewrite bind_assoc.
  erewrite bind_ret; [|unfold vaddr; cbn [fst snd]; rewrite (access_ok P root page h m Load _ _ kflags H Ht); [reflexivity|done|done..]]. done.
Qed.

Lemma data_at_cons P b pa pg x tbl : data_at P b pa pg (x :: tbl) -> data_at P b pa pg [x] /\ data_at P b pa pg tbl.
Proof. intros [H1 H2 [Hx H3]%Forall_cons]. split; split; try done. by apply Forall_singleton. Qed.

Lemma exec_saves P root page b pa pg tbl h m l : runs_in P root page (h, m) -> data_at P (h_reg h b) pa pg tbl ->
  exec_block page (map (fun x => Sd x.1 x.2 b) tbl ++ l) (h, m) = exec_block page l (h, saves pa (h_reg h) tbl m) /\
  runs_in P root page (h, saves pa (h_reg h) tbl m).
Proof.
  revert m. induction tbl as [|[r o] tbl IH]; intros m H Hd; [done|]. apply data_at_cons in Hd as [Hx Hd].
  destruct (exec_sd P root page b pa pg r o h m (map (fun x => Sd x.1 x.2 b) tbl ++ l) H Hx) as [E H'].
  simpl map. rewrite <- app_comm_cons. simpl fst. simpl snd. rewrite E. by apply IH.
Qed.

Lemma exec_loads P root page b pa pg tbl h m l : runs_in P root page (h, m) -> data_at P (h_reg h b) pa pg tbl ->
  Forall (fun x => x.1 = b -> ld64 m (pa + x.2) = h_reg h b) tbl ->
  exec_block page (map (fun x => Ld x.1 x.2 b) tbl ++ l) (h, m) = exec_block page l (set_regs (loads pa m tbl (h_reg h)) h, m) /\
  runs_in P root page (set_regs (loads pa m tbl (h_reg h)) h, m).
Proof.
  revert h. induction tbl as [|[r o] tbl IH]; intros h H Hd Hb.
  { split; [|by apply runs_in_regs]. simpl. by destruct h. }
  apply data_at_cons in Hd as [Hx Hd]. apply Forall_cons in Hb as [Hb1 Hb]. simpl in Hb1.
  destruct (exec_ld P root page b pa pg r o h m (map (fun x => Ld x.1 x.2 b) tbl ++ l) H Hx) as [E H'].
  simpl map. rewrite <- app_comm_cons. simpl fst. simpl snd. rewrite E.
  assert (h_reg (set_reg r (ld64 m (pa + o)) h) b = h_reg h b) as Eb.
  { simpl. destruct (decide (b = r)) as [->|]; [by rewrite fn_lookup_insert, Hb1 | by rewrite fn_lookup_insert_ne]. }
  destruct (IH _ H') as [E2 H2]; [by rewrite Eb | by rewrite Eb |]. split; [exact E2 | exact H2].
Qed.

(** The other instructions. *)
Lemma exec_plain P root page i h m h' m' l : runs_in P root page (h, m) -> exec i (h, m) = Ret tt (h', m') ->
  exec_block page (i :: l) (h, m) = exec_block page l (h', m').
Proof. intros H E. rewrite (fetch_ok P root) by done. by erewrite bind_ret by exact E. Qed.

Lemma translate_off P b pa f o : translate P b = Some (pa, f) -> b mod PGSIZE = 0 -> 0 <= o < PGSIZE ->
  translate P (b + o) = Some (pa + o, f).
Proof.
  unfold translate, PGSIZE. intros Ht Hb Ho. replace ((b + o) / 4096) with (b / 4096) by (Z.to_euclidean_division_equations; lia).
  destruct (leaf P !! (b / 4096)) as [e|]; [|done]. injection Ht as Ht <-. rewrite Hb in Ht.
  replace ((b + o) mod 4096) with o by (Z.to_euclidean_division_equations; lia). f_equal. f_equal. lia.
Qed.

(** ** The trampoline *)

Section Tramp.
Context (trampoline : Z) (Htramp : trampoline mod PGSIZE = 0).

(** The address spaces of a process and of the kernel share the trampoline, and the
    process's has its trapframe, in a page that is no part of the tables. *)
Record spaces (P K : pt) (uroot kroot tf : Z) (m : mem) : Prop := {
  sp_u : pt_rep kend m P uroot;
  sp_k : pt_rep kend m K kroot;
  sp_tf : translate P TRAPFRAME = Some (tf, kflags);
  sp_ut : translate P TRAMPOLINE = Some (trampoline, xflags);
  sp_kt : translate K TRAMPOLINE = Some (trampoline, xflags);
  sp_page : page_ok kend tf;
  sp_nu : tf ∉ tables P;
  sp_nk : tf ∉ tables K
}.

Lemma spaces_page P K uroot kroot tf m m' : spaces P K uroot kroot tf m -> only_page tf m m' -> spaces P K uroot kroot tf m'.
Proof. intros [H1 H2 H3 H4 H5 H6 H7 H8] Ho. split; try done; by eapply rep_page. Qed.

(** Code of the trampoline. *)
Lemma runs_in_tramp P root h m off : h_mode h = SMode -> h_csr h satp = MAKE_SATP root -> pt_rep kend m P root ->
  translate P TRAMPOLINE = Some (trampoline, xflags) -> h_pc h = TRAMPOLINE + off -> 0 <= off < PGSIZE ->
  runs_in P root trampoline (h, m).
Proof.
  intros H1 H2 H3 H4 H5 H6. split; try done; cbn [fst].
  - rewrite H5. unfold TRAMPOLINE, PGSIZE in *. rewrite MAXVA_eq. lia.
  - exists (trampoline + off). rewrite H5. split; [by apply translate_off|]. apply PGROUNDDOWN_in; lia.
Qed.

Lemma tf_data P K uroot kroot tf m tbl : spaces P K uroot kroot tf m -> Forall (fun x => 0 <= x.2 <= 280) tbl ->
  data_at P TRAPFRAME tf tf tbl.
Proof.
  intros H Ht. split; [apply H | apply (sp_page _ _ _ _ _ _ H) |]. eapply Forall_impl; [exact Ht|]. intros [r o] Ho. simpl in *.
  rewrite u64_small by (unfold TRAPFRAME, TRAMPOLINE, PGSIZE; rewrite MAXVA_eq; lia). split_and!.
  - apply translate_off; [apply H | done | unfold PGSIZE; lia].
  - unfold TRAPFRAME, TRAMPOLINE, PGSIZE. rewrite MAXVA_eq. lia.
  - unfold TRAPFRAME, TRAMPOLINE, PGSIZE. rewrite MAXVA_eq. lia.
  - lia.
  - unfold PGSIZE. lia.
Qed.

(** The end of [uservec], its loads of the kernel's values, and its store of [a0]. *)
Definition uv_exit : list instr := [Sfence_vma; Csrw satp Reg.t1; Sfence_vma; Jr Reg.t0].
Definition kernel_tbl : list (nat * Z) := [(Reg.sp, 8); (Reg.tp, 32); (Reg.t0, 16); (Reg.t1, 0)].
Definition uv_load : list instr := map (fun x => Ld x.1 x.2 Reg.a0) kernel_tbl ++ uv_exit.
Definition uv_a0 : list instr := map (fun x => Sd x.1 x.2 Reg.a0) [(Reg.t0, 112)] ++ uv_load.

Lemma uservec_code : Trampoline.uservec =
  Csrw sscratch Reg.a0 :: Li Reg.a0 TRAPFRAME :: map (fun x => Sd x.1 x.2 Reg.a0) frame_tbl ++ Csrr Reg.t0 sscratch :: uv_a0.
Proof. reflexivity. Qed.

Lemma userret_code : Trampoline.userret =
  Sfence_vma :: Csrw satp Reg.a0 :: Sfence_vma :: Li Reg.a0 TRAPFRAME :: map (fun x => Ld x.1 x.2 Reg.a0) frame_tbl ++
  [Ld Reg.a0 112 Reg.a0; Sret].
Proof. reflexivity. Qed.


Lemma uservec_spec P K uroot kroot tf h m off :
  spaces P K uroot kroot tf m -> h_mode h = SMode -> h_csr h satp = MAKE_SATP uroot -> h_pc h = TRAMPOLINE + off -> 0 <= off < PGSIZE ->
  ld64 m (tf + 0) = MAKE_SATP kroot ->
  exists h', exec_block trampoline Trampoline.uservec (h, m) = Ret tt (h', uservec_mem tf (h_reg h) m) /\
    h_mode h' = SMode /\ h_pc h' = ld64 m (tf + 16) /\ h_csr h' satp = MAKE_SATP kroot /\
    h_reg h' Reg.sp = ld64 m (tf + 8) /\ h_reg h' Reg.tp = ld64 m (tf + 32) /\
    (forall c, c <> satp -> c <> sscratch -> h_csr h' c = h_csr h c).
Proof.
  intros Hsp Hm Hs Hpc Hoff Hk. destruct (uservec_mem_ok tf (h_reg h) m (proj1 (sp_page _ _ _ _ _ _ Hsp))) as (Ho & _ & Hlow).
  assert (runs_in P uroot trampoline (h, m)) as H0 by (eapply (runs_in_tramp P uroot h m off); try done; apply Hsp).
  rewrite uservec_code. set (m1 := uservec_mem tf (h_reg h) m) in *.
  set (h1 := set_csr sscratch (h_reg h Reg.a0) h). set (h2 := set_reg Reg.a0 TRAPFRAME h1).
  assert (runs_in P uroot trampoline (h1, m)) as H1 by (by apply runs_in_csr).
  assert (runs_in P uroot trampoline (h2, m)) as H2 by (by apply runs_in_reg).
  rewrite (exec_plain P uroot trampoline _ h m h1 m), (exec_plain P uroot trampoline _ h1 m h2 m) by done.
  assert (h_reg h2 Reg.a0 = TRAPFRAME) as Ea by done.
  destruct (exec_saves P uroot trampoline Reg.a0 tf tf frame_tbl h2 m (Csrr Reg.t0 sscratch :: uv_a0) H2) as [-> H3].
  { rewrite Ea. eapply tf_data; [done|]. eapply Forall_impl; [apply frame_tbl_range|]. intros x (? & _). lia. }
  assert (saves tf (h_reg h2) frame_tbl m = saves tf (h_reg h) frame_tbl m) as Es.
  { apply saves_ext. eapply Forall_impl; [apply frame_tbl_range|]. intros x (_ & _ & _ & Hx). simpl. by rewrite fn_lookup_insert_ne. }
  rewrite Es in H3 |- *.
  set (m0 := saves tf (h_reg h) frame_tbl m) in *. set (h3 := set_reg Reg.t0 (h_reg h Reg.a0) h2).
  assert (runs_in P uroot trampoline (h3, m0)) as H3' by (by apply runs_in_reg).
  rewrite (exec_plain P uroot trampoline _ h2 m0 h3 m0) by done.
  unfold uv_a0. destruct (exec_saves P uroot trampoline Reg.a0 tf tf [(Reg.t0, 112)] h3 m0 uv_load H3') as [-> H4].
  { eapply tf_data; [done|]. apply Forall_singleton. simpl. lia. }
  change (saves tf (h_reg h3) [(Reg.t0, 112)] m0) with m1 in *.
  unfold uv_load. destruct (exec_loads P uroot trampoline Reg.a0 tf tf kernel_tbl h3 m1 uv_exit H4) as [-> H5].
  { eapply tf_data; [done|]. repeat (apply Forall_cons; split; [simpl; lia|]). by apply Forall_nil. }
  { repeat (apply Forall_cons; split; [done|]). by apply Forall_nil. }
  set (h5 := set_regs _ h3) in *. assert (h_reg h5 Reg.t1 = MAKE_SATP kroot /\ h_reg h5 Reg.t0 = ld64 m (tf + 16) /\
    h_reg h5 Reg.sp = ld64 m (tf + 8) /\ h_reg h5 Reg.tp = ld64 m (tf + 32)) as (E1 & E2 & E3 & E4).
  { rewrite <- Hk. split_and!; simpl; rewrite ?Hlow by lia; done. }
  set (h6 := set_csr satp (MAKE_SATP kroot) h5).
  assert (runs_in K kroot trampoline (h6, m1)) as H6.
  { pose proof (spaces_page _ _ _ _ _ _ m1 Hsp Ho) as Hsp'. apply (runs_in_tramp K kroot h6 m1 off); try done; apply Hsp'. }
  unfold uv_exit. rewrite (exec_plain P uroot trampoline _ h5 m1 h5 m1), (exec_plain P uroot trampoline _ h5 m1 h6 m1),
    (exec_plain K kroot trampoline _ h6 m1 h6 m1), (exec_plain K kroot trampoline _ h6 m1 (set_pc (ld64 m (tf + 16)) h6) m1); try done.
  - eexists. split; [reflexivity|]. split_and!; try done. intros c Hc1 Hc2. simpl. by rewrite !fn_lookup_insert_ne.
  - cbn [exec]. erewrite bind_ret by reflexivity. cbn [fst]. change (h_reg h6 Reg.t0) with (h_reg h5 Reg.t0). by rewrite E2.
  - cbn [exec]. erewrite bind_ret by reflexivity. cbn [fst]. by rewrite E1.
Qed.

Lemma userret_spec P K uroot kroot tf h m off :
  spaces P K uroot kroot tf m -> h_mode h = SMode -> h_csr h satp = MAKE_SATP kroot -> h_pc h = TRAMPOLINE + off -> 0 <= off < PGSIZE ->
  h_reg h Reg.a0 = MAKE_SATP uroot -> Z.testbit (h_csr h mstatus) 8 = false ->
  exists h', exec_block trampoline Trampoline.userret (h, m) = Ret tt (h', m) /\
    h_mode h' = UMode /\ h_pc h' = h_csr h sepc /\ h_csr h' satp = MAKE_SATP uroot /\
    (forall r, (1 <= r <= 31)%nat -> h_reg h' r = ld64 m (tf + tf_reg r)) /\
    h_csr h' mstatus = sret_status (h_csr h mstatus) /\ (forall c, c <> satp -> c <> mstatus -> h_csr h' c = h_csr h c).
Proof.
  intros Hsp Hm Hs Hpc Hoff Ha Hspp.
  assert (runs_in K kroot trampoline (h, m)) as H0 by (eapply (runs_in_tramp K kroot h m off); try done; apply Hsp).
  rewrite userret_code. set (h1 := set_csr satp (MAKE_SATP uroot) h). set (h2 := set_reg Reg.a0 TRAPFRAME h1).
  assert (runs_in P uroot trampoline (h1, m)) as H1 by (eapply (runs_in_tramp P uroot h1 m off); try done; apply Hsp).
  assert (runs_in P uroot trampoline (h2, m)) as H2 by (by apply runs_in_reg).
  rewrite (exec_plain K kroot trampoline _ h m h m), (exec_plain K kroot trampoline _ h m h1 m),
    (exec_plain P uroot trampoline _ h1 m h1 m), (exec_plain P uroot trampoline _ h1 m h2 m); try done.
  2: { cbn [exec]. erewrite bind_ret by reflexivity. cbn [fst]. by rewrite Ha. }
  destruct (exec_loads P uroot trampoline Reg.a0 tf tf frame_tbl h2 m [Ld Reg.a0 112 Reg.a0; Sret] H2) as [-> H3].
  { eapply tf_data; [done|]. eapply Forall_impl; [apply frame_tbl_range|]. intros x (? & _). lia. }
  { eapply Forall_impl; [apply frame_tbl_range|]. intros x (_ & _ & _ & Hx) E. by destruct Hx. }
  set (h3 := set_regs _ h2) in *.
  destruct (exec_ld P uroot trampoline Reg.a0 tf tf Reg.a0 112 h3 m [Sret] H3) as [-> H4].
  { change (h_reg h3 Reg.a0) with TRAPFRAME. eapply tf_data; [done|]. apply Forall_singleton. simpl. lia. }
  set (h4 := set_reg _ _ h3) in *. rewrite (fetch_ok P uroot) by done.
  assert (sret h4 = Ret tt (Hart UMode (h_csr h sepc) (h_reg h4) (<[mstatus := sret_status (h_csr h mstatus)]> (h_csr h4)))) as Er.
  { unfold sret. rewrite decide_True by done. change (h_csr h4 mstatus) with (h_csr h mstatus). by rewrite Hspp. }
  eexists. split.
  { erewrite bind_ret; [reflexivity|]. unfold exec, zoom. cbn [view hart_coreL fst]. rewrite Er. reflexivity. }
  cbn [put hart_coreL h_mode h_pc h_csr h_reg fst]. split_and!; try done.
  - intros r Hr. change (h_reg h4) with (<[Reg.a0 := ld64 m (tf + 112)]> (loads tf m frame_tbl (h_reg h2))).
    destruct (decide (r = Reg.a0)) as [->|Hne]; [by rewrite fn_lookup_insert|].
    rewrite fn_lookup_insert_ne by done. apply loads_in; [by apply frame_tbl_in | apply frame_tbl_1].
  - intros c Hc1 Hc2. simpl. by rewrite !fn_lookup_insert_ne.
Qed.
End Tramp.
End Exec.

(** ** Code that does not return *)

Definition noret {S A} (f : M S A) : Prop := forall s a s', f s <> Ret a s'.

Lemma noret_bind {S A B} (f : M S A) (g : A -> M S B) : (forall a, noret (g a)) -> noret (f ≫= g).
Proof. intros Hg s b s'. unfold mbind, M_bind. destruct (f s); try done. apply Hg. Qed.
Lemma noret_left {S A} (f : M S unit) (g : M S A) : noret f -> noret (f;; g).
Proof. intros Hf s b s'. unfold mbind, M_bind. destruct (f s) eqn:E; try done. by destruct (Hf s a s0). Qed.
Lemma noret_zoom {S T A} (l : lens S T) (f : M T A) : noret f -> noret (zoom l f).
Proof. intros Hf s a s'. unfold zoom. destruct (f (view l s)) eqn:E; try done. by destruct (Hf _ _ _ E). Qed.
Lemma noret_seq {S} (f g : M S unit) s : noret f -> (f;; g) s = f s.
Proof. intros Hf. unfold mbind, M_bind. destruct (f s) eqn:E; try done. by destruct (Hf s a s0). Qed.

Lemma exit_noret {T D} `{Txn T} kend proc_base n : noret (exit (T := T) (D := D) kend proc_base n).
Proof.
  unfold exit. do 2 (apply noret_bind; intros ?). case_decide; [by intros ? ? ?|].
  repeat (apply noret_bind; intros ?). by intros ? ? ?.
Qed.

(** ** The C functions *)

Section Spec.
Context {T : Type} `{Txn T} {D : Type}.
Variables kend trampoline forkret_addr proc_base ticks_addr info_addr : Z.
Variable buf_addr : nat -> Z.
Variables de_addr st_addr ch_addr elf_addr ph_addr ustack_addr ip_addr path_addr new_addr fd_addr str_addr : Z.
Variables dev_read dev_write : Z -> option (Z -> Z -> Z -> M (@fstate T D) Z).
Variables uservec userret kernelvec usertrap_addr : Z.
Notation kstate := (@kstate T D).
Notation tsys := (@tsys T D).
Variable others : nat -> tsys -> tsys.
Variable junk : nat -> Z.
Implicit Types (s : tsys) (k : kstate).

Notation syscall_ := (syscall kend trampoline forkret_addr proc_base ticks_addr info_addr buf_addr de_addr st_addr ch_addr elf_addr ph_addr ustack_addr ip_addr path_addr new_addr fd_addr
  str_addr dev_read dev_write).
Notation usertrapret_ := (usertrapret trampoline uservec userret usertrap_addr junk).
Notation usertrap_ := (usertrap kend trampoline forkret_addr proc_base ticks_addr info_addr buf_addr de_addr st_addr ch_addr elf_addr ph_addr ustack_addr ip_addr path_addr new_addr fd_addr
  str_addr dev_read dev_write uservec userret kernelvec usertrap_addr others junk).
Notation handle_ := (usertrap_handle kend trampoline forkret_addr proc_base ticks_addr info_addr buf_addr de_addr st_addr ch_addr elf_addr ph_addr ustack_addr ip_addr path_addr new_addr fd_addr
  str_addr dev_read dev_write).
Notation user_trap_ := (user_trap kend trampoline forkret_addr proc_base ticks_addr info_addr buf_addr de_addr st_addr ch_addr elf_addr ph_addr ustack_addr ip_addr path_addr new_addr fd_addr
  str_addr dev_read dev_write uservec userret kernelvec usertrap_addr others junk).

Definition tmem (s : tsys) : mem := kmemory (t_k s).
(** The state with the core, and the core and the memory, replaced. *)
Definition with_core (h : hart) (m : mem) (s : tsys) : tsys := TSys h (t_plic s) (t_cons s) (t_disk s) (with_mem m (t_k s)).
Definition with_kproc (kp : kproc) (k : kstate) : kstate :=
  KState (sets_sys (setf_k kp (fs_sys (ks_f k))) (ks_f k)) (ks_ticks k) (ks_tickslock k) (ks_out k).

Lemma with_core_id s : with_core (t_hart s) (tmem s) s = s.
Proof. by destruct s as [? ? ? ? [[[? ? ? ? [? ? ? ? ? ? []]] ? ? ? ?] ? ? ?]]. Qed.
Lemma with_kproc_id k : with_kproc (kprocs k) k = k.
Proof. by destruct k as [[[] ? ? ? ?] ? ? ?]. Qed.

Lemma eval_th {A} (f : M hart A) h m s a h' : f h = Ret a h' -> th f (with_core h m s) = Ret a (with_core h' m s).
Proof. intros E. unfold th, zoom. simpl. by rewrite E. Qed.
Lemma eval_kproc {A} (f : M kproc A) k a kp : f (kprocs k) = Ret a kp -> k_proc f k = Ret a (with_kproc kp k).
Proof. intros E. unfold k_proc, in_f, in_proc, zoom. simpl. unfold kprocs in E. by rewrite E. Qed.
Lemma eval_tk {A} (f : M kstate A) s a k : f (t_k s) = Ret a k -> tk f s = Ret a (put kL k s).
Proof. intros E. unfold tk, zoom. simpl. by rewrite E. Qed.

Lemma eval_tme h m s p q : runs (t_k s) p q -> tproc me (with_core h m s) = Ret p (with_core h m s).
Proof. intros Hr. unfold tproc. by erewrite eval_tk by (by apply (eval_me _ p q), runs_mem). Qed.
Lemma eval_tget {A} h m s p q (f : proc -> A) : runs (t_k s) p q -> tproc (pget p f) (with_core h m s) = Ret (f q) (with_core h m s).
Proof. intros Hr. unfold tproc. by erewrite eval_tk by (by apply (eval_pget _ p q), runs_mem). Qed.
Lemma eval_tf_set h m s p q off v : runs (t_k s) p q ->
  tf_set p off v (with_core h m s) = Ret tt (with_core h (st64 m (p_trapframe q + off) v) s).
Proof. intros Hr. unfold tf_set. erewrite bind_ret by (by apply (eval_tget _ _ _ p q)). by erewrite eval_tk by apply eval_stq. Qed.
Lemma eval_tf_get h m s p q off : runs (t_k s) p q ->
  tf_get p off (with_core h m s) = Ret (ld64 m (p_trapframe q + off)) (with_core h m s).
Proof. intros Hr. unfold tf_get. erewrite bind_ret by (by apply (eval_tget _ _ _ p q)). by erewrite eval_tk by apply eval_ldq. Qed.

(** Reading [killed] of the current process. *)
Lemma eval_killed s p q : runs (t_k s) p q -> p_lock q = Free -> tproc (killed p) s = Ret (p_killed q) s.
Proof.
  intros [Hc Hq] Hl. unfold tproc. rewrite (eval_tk _ s (p_killed q) (t_k s)); [by destruct s|].
  rewrite (eval_kproc _ _ (p_killed q) (kprocs (t_k s))); [by rewrite with_kproc_id|].
  unfold killed. rewrite <- (with_proc_id p q (kprocs (t_k s)) Hq) at 1.
  assert (p < length (procs (kprocs (t_k s))))%nat as Hlt by (by eapply lookup_lt_Some).
  erewrite bind_ret by (by apply with_acquire). pstep. pstep. cbn [p_killed setp_lock]. rewrite setp_lock_same by done.
  by rewrite with_proc_id.
Qed.

(** ** The return to user space *)

Definition user_status (st : Z) : Z :=
  let st := masked SSTATUS_VIEW st (Z.land (Z.land st SSTATUS_VIEW) (Z.lnot SSTATUS_SIE)) in
  masked SSTATUS_VIEW st (Z.lor (Z.land (Z.land st SSTATUS_VIEW) (Z.lnot SSTATUS_SPP)) SSTATUS_SPIE).

Lemma user_status_spp st : Z.testbit (user_status st) 8 = false.
Proof. unfold user_status. rewrite masked_spec, Z.lor_spec, !Z.land_spec by lia. simpl. by rewrite andb_false_r. Qed.

(** The words [usertrapret] writes in the trapframe. *)
Definition ret_mem (h : hart) (q : proc) (m : mem) : mem :=
  let tf := p_trapframe q in
  st64 (st64 (st64 (st64 m (tf + 0) (h_csr h satp)) (tf + 8) (u64 (p_kstack q + PGSIZE))) (tf + 16) usertrap_addr) (tf + 32) (h_reg h Reg.tp).

Definition ret_hart (h : hart) (q : proc) (m : mem) : hart :=
  Hart (h_mode h) (TRAMPOLINE + (userret - trampoline))
    (<[Reg.a0 := MAKE_SATP (p_pagetable q)]> (<[Reg.tp := h_reg h Reg.tp]> junk))
    (<[sepc := ld64 m (p_trapframe q + tf_epc)]> (<[mstatus := user_status (h_csr h mstatus)]>
      (<[stvec := TRAMPOLINE + (uservec - trampoline)]> (<[mstatus := masked SSTATUS_VIEW (h_csr h mstatus) (Z.land (Z.land (h_csr h mstatus) SSTATUS_VIEW) (Z.lnot SSTATUS_SIE))]> (h_csr h))))).

Lemma eval_usertrapret h m s i q : runs (t_k s) i q ->
  usertrapret_ (with_core h m s) = Ret tt (with_core (ret_hart h q (ret_mem h q m)) (ret_mem h q m) s).
Proof.
  intros Hr. unfold usertrapret. erewrite bind_ret by (by apply (eval_tme _ _ _ i q)).
  erewrite bind_ret by (apply eval_th; reflexivity). cbv zeta.
  do 2 erewrite bind_ret by (apply eval_th; reflexivity). erewrite bind_ret by (by apply (eval_tf_set _ _ _ i q)).
  erewrite bind_ret by (by apply (eval_tget _ _ _ i q)). do 2 erewrite bind_ret by (by apply (eval_tf_set _ _ _ i q)).
  erewrite bind_ret by (apply eval_th; reflexivity). erewrite bind_ret by (by apply (eval_tf_set _ _ _ i q)).
  do 2 erewrite bind_ret by (apply eval_th; reflexivity).
  erewrite bind_ret by (by apply (eval_tf_get _ _ _ i q)). erewrite bind_ret by (apply eval_th; reflexivity).
  erewrite bind_ret by (by apply (eval_tget _ _ _ i q)). erewrite eval_th by reflexivity.
  reflexivity.
Qed.

Context (Hend : KERNBASE <= kend <= PHYSTOP) (Htramp : trampoline mod PGSIZE = 0).
Context (Huv : 0 <= uservec - trampoline < PGSIZE /\ (uservec - trampoline) mod 4 = 0) (Hur : 0 <= userret - trampoline < PGSIZE).
Context (Hut : 0 <= usertrap_addr < 2 ^ 64).

Notation spaces := (spaces kend trampoline).

(** Process [i] in user mode, with everything in place for its next trap. *)
Record user_ok (i : nat) (q : proc) (P K : pt) (kroot : Z) (s : tsys) : Prop := {
  uo_runs : runs (t_k s) i q;
  uo_spaces : spaces P K (p_pagetable q) kroot (p_trapframe q) (tmem s);
  uo_mode : h_mode (t_hart s) = UMode;
  uo_satp : h_csr (t_hart s) satp = MAKE_SATP (p_pagetable q);
  uo_stvec : h_csr (t_hart s) stvec = TRAMPOLINE + (uservec - trampoline);
  uo_deleg : delegates (t_hart s);
  uo_ksatp : ld64 (tmem s) (p_trapframe q + tf_kernel_satp) = MAKE_SATP kroot;
  uo_ksp : ld64 (tmem s) (p_trapframe q + tf_kernel_sp) = u64 (p_kstack q + PGSIZE);
  uo_ktrap : ld64 (tmem s) (p_trapframe q + tf_kernel_trap) = usertrap_addr;
  uo_hart : ld64 (tmem s) (p_trapframe q + tf_kernel_hartid) = h_csr (t_hart s) mhartid;
  uo_id : 0 <= h_csr (t_hart s) mhartid < 2 ^ 64
}.

(** Process [i] in the kernel. *)
Record kernel_ok (i : nat) (q : proc) (P K : pt) (kroot : Z) (s : tsys) : Prop := {
  ko_runs : runs (t_k s) i q;
  ko_spaces : spaces P K (p_pagetable q) kroot (p_trapframe q) (tmem s);
  ko_mode : h_mode (t_hart s) = SMode;
  ko_satp : h_csr (t_hart s) satp = MAKE_SATP kroot;
  ko_deleg : delegates (t_hart s);
  ko_tp : h_reg (t_hart s) Reg.tp = h_csr (t_hart s) mhartid;
  ko_id : 0 <= h_csr (t_hart s) mhartid < 2 ^ 64
}.

Lemma MAKE_SATP_range root : page_ok kend root -> 0 <= MAKE_SATP root < 2 ^ 64.
Proof.
  intros Hr. pose proof (page_ok_bounds kend Hend root Hr) as Hb. destruct (satp_root kend Hend root Hr) as [Hs _].
  rewrite Z.shiftr_div_pow2 in Hs by lia. Z.to_euclidean_division_equations. lia.
Qed.

Lemma ret_mem_ok h q m : p_trapframe q mod PGSIZE = 0 -> 0 <= h_csr h satp < 2 ^ 64 -> 0 <= h_reg h Reg.tp < 2 ^ 64 ->
  let m' := ret_mem h q m in let tf := p_trapframe q in
  only_page tf m m' /\ ld64 m' (tf + 0) = h_csr h satp /\ ld64 m' (tf + 8) = u64 (p_kstack q + PGSIZE) /\
  ld64 m' (tf + 16) = usertrap_addr /\ ld64 m' (tf + 32) = h_reg h Reg.tp /\
  (forall o, o = tf_epc \/ 40 <= o -> ld64 m' (tf + o) = ld64 m (tf + o)).
Proof.
  intros Hp Hs Ht m' tf. unfold m', ret_mem. fold tf. split_and!.
  - do 3 (eapply only_page_trans; [|apply only_page_st64; [done|lia|unfold PGSIZE; lia]]).
    apply only_page_st64; [done|lia|unfold PGSIZE; lia].
  - rewrite !(ld64_st64_ne _ (tf + 32)), !(ld64_st64_ne _ (tf + 16)), !(ld64_st64_ne _ (tf + 8)), ld64_st64_eq by lia. by apply u64_small.
  - rewrite !(ld64_st64_ne _ (tf + 32)), !(ld64_st64_ne _ (tf + 16)), ld64_st64_eq by lia. apply u64_small, u64_range.
  - rewrite !(ld64_st64_ne _ (tf + 32)), ld64_st64_eq by lia. by apply u64_small.
  - rewrite ld64_st64_eq. by apply u64_small.
  - intros o Ho. unfold tf_epc in Ho. rewrite !ld64_st64_ne by lia. done.
Qed.

Notation go_user := (usertrapret_;; at_pc (TRAMPOLINE + (userret - trampoline)) (zoom coreL (exec_block trampoline Trampoline.userret))).

(** What [usertrapret] and [userret] make of the trapframe. *)
Lemma return_user i q P K kroot s : kernel_ok i q P K kroot s ->
  exists h' m', go_user s = Ret tt (with_core h' m' s) /\ user_ok i q P K kroot (with_core h' m' s) /\
    h_pc h' = ld64 (tmem s) (p_trapframe q + tf_epc) /\
    (forall r, (1 <= r <= 31)%nat -> h_reg h' r = ld64 (tmem s) (p_trapframe q + tf_reg r)) /\ only_page (p_trapframe q) (tmem s) m'.
Proof.
  intros [H1 H2 H3 H4 H5 H6 H7]. set (h := t_hart s) in *. set (m := tmem s) in *.
  pose proof (pr_key _ _ _ _ (sp_k _ _ _ _ _ _ _ _ H2) _ _ _ (pr_root _ _ _ _ (sp_k _ _ _ _ _ _ _ _ H2))) as [Hkr _].
  destruct (ret_mem_ok h q m) as (Ho & W0 & W1 & W2 & W3 & W4).
  { apply (sp_page _ _ _ _ _ _ _ _ H2). }
  { rewrite H4. by apply MAKE_SATP_range. }
  { by rewrite H6. }
  set (m' := ret_mem h q m) in *. pose proof (spaces_page kend trampoline _ _ _ _ _ _ m' H2 Ho) as Hsp.
  destruct (userret_spec kend Hend trampoline Htramp P K (p_pagetable q) kroot (p_trapframe q) (ret_hart h q m') m' (userret - trampoline) Hsp) as (h' & He & R1 & R2 & R3 & R4 & R5 & R6); try done.
  { apply user_status_spp. }
  exists h', m'. split.
  { rewrite <- (with_core_id s) at 1. erewrite bind_ret by (by apply (eval_usertrapret _ _ _ i q)). fold h m. fold m'.
    unfold at_pc. erewrite bind_ret by (apply eval_th; reflexivity). cbn [h_pc ret_hart]. rewrite Z.eqb_refl.
    unfold zoom. cbn [view coreL t_hart with_core]. change (kmemory (t_k _)) with m'. by rewrite He. }
  split_and!.
  - assert (forall c, c <> satp -> c <> mstatus -> c <> sepc -> c <> stvec -> h_csr h' c = h_csr h c) as Hc.
    { intros c C1 C2 C3 C4. rewrite R6 by done. simpl. by rewrite !fn_lookup_insert_ne. }
    split; cbn [with_core t_hart t_k]; try done.
    + rewrite R6 by done. reflexivity.
    + destruct H5 as [D1 D2 D3]. by split; intros c; rewrite Hc by done; [apply D1|apply D2|apply D3].
    + change (tmem _) with m'. unfold tf_kernel_satp. by rewrite W0.
    + change (tmem _) with m'. unfold tf_kernel_hartid. by rewrite W3, Hc, H6.
    + by rewrite Hc.
  - rewrite R2. simpl. apply W4. by left.
  - intros r Hr. rewrite R4 by done. apply W4. right. unfold tf_reg. lia.
  - done.
Qed.

(** ** The way into the kernel *)

Definition regs64 (h : hart) : Prop := (forall r, 0 <= h_reg h r < 2 ^ 64) /\ 0 <= h_pc h < 2 ^ 64.

(** The trapframe at [tf] holds the registers of [h], and [epc]. *)
Record holds (tf : Z) (h : hart) (epc : Z) (m : mem) : Prop := {
  hd_regs : forall r, (1 <= r <= 31)%nat -> ld64 m (tf + tf_reg r) = h_reg h r;
  hd_epc : ld64 m (tf + tf_epc) = epc
}.

(** The interrupts a device or the timer raises. *)
Definition device_cause (cause : Z) : Prop := cause = CAUSE_EXTERNAL \/ cause = CAUSE_TIMER.

Lemma enters_user h cause : delegates h -> h_mode h = UMode -> 0 <= cause < 16 \/ device_cause cause -> takes h cause = true.
Proof.
  intros [D1 D2 D3] Hm Hc. unfold takes. rewrite Hm. destruct Hc as [Hc|[-> | ->]].
  - unfold is_intr, code. rewrite Z.mod_small by lia. replace (Z.testbit cause 63) with false; [by rewrite D1|].
    symmetry. destruct (decide (cause = 0)) as [->|]; [done|]. apply Z.bits_above_log2; [lia|]. apply Z.log2_lt_pow2; lia.
  - change (Z.testbit (h_csr h mideleg) 9 && Z.testbit (h_csr h mie) 9 && true = true). rewrite D2, D3; [done|tauto|lia].
  - change (Z.testbit (h_csr h mideleg) 5 && Z.testbit (h_csr h mie) 5 && true = true). rewrite D2, D3; [done|tauto|lia].
Qed.

Lemma trap_status_user st : Z.testbit (trap_status UMode st) 8 = false /\ Z.testbit (trap_status UMode st) 1 = false.
Proof. unfold trap_status. split; rewrite !put_bit_spec by lia; done. Qed.

Notation enter cause tval := (th (trap cause tval);; at_pc (TRAMPOLINE + (uservec - trampoline)) (zoom coreL (exec_block trampoline Trampoline.uservec))).

Lemma stvec_base : Z.ldiff (TRAMPOLINE + (uservec - trampoline)) 3 = TRAMPOLINE + (uservec - trampoline).
Proof.
  change 3 with (Z.ones 2). rewrite Z.ldiff_ones_r, Z.shiftl_mul_pow2, Z.shiftr_div_pow2 by lia. change (2 ^ 2) with 4.
  assert (TRAMPOLINE mod 4 = 0) as E by done. destruct Huv as [_ Hv]. Z.to_euclidean_division_equations. lia.
Qed.

Lemma enter_kernel i q P K kroot cause tval s : user_ok i q P K kroot s -> regs64 (t_hart s) ->
  0 <= cause < 16 \/ device_cause cause ->
  exists h' m', enter cause tval s = Ret tt (with_core h' m' s) /\ kernel_ok i q P K kroot (with_core h' m' s) /\
    h_pc h' = usertrap_addr /\ h_csr h' sepc = h_pc (t_hart s) /\ h_csr h' scause = cause /\ h_csr h' stval = tval /\
    Z.testbit (h_csr h' mstatus) 8 = false /\ h_reg h' Reg.sp = u64 (p_kstack q + PGSIZE) /\ h_csr h' mhartid = h_csr (t_hart s) mhartid /\
    (forall r, (1 <= r <= 31)%nat -> ld64 m' (p_trapframe q + tf_reg r) = h_reg (t_hart s) r) /\ only_page (p_trapframe q) (tmem s) m'.
Proof.
  intros [H1 H2 H3 H4 H5 H6 H7 H8 H9 H10 H11] [Hregs Hpc] Hc. set (h := t_hart s) in *. set (m := tmem s) in *.
  set (h1 := Hart SMode (Z.ldiff (h_csr h stvec) 3) (h_reg h)
      (<[mstatus := trap_status (h_mode h) (h_csr h mstatus)]> (<[sepc := h_pc h]> (<[scause := cause]> (<[stval := tval]> (h_csr h)))))).
  assert (h_pc h1 = TRAMPOLINE + (uservec - trampoline)) as Epc by (simpl; rewrite H5; apply stvec_base).
  destruct (uservec_spec kend Hend trampoline Htramp P K (p_pagetable q) kroot (p_trapframe q) h1 m (uservec - trampoline) H2)
    as (h' & He & R1 & R2 & R3 & R4 & R5 & R6); try done; [apply Huv|].
  destruct (uservec_mem_ok (p_trapframe q) (h_reg h) m) as (Ho & W1 & W2); [apply (sp_page _ _ _ _ _ _ _ _ H2)|].
  set (m' := uservec_mem _ _ m) in *. exists h', m'. split.
  { rewrite <- (with_core_id s) at 1. fold h m.
    erewrite bind_ret; [|apply eval_th; unfold trap; rewrite enters_user by done; reflexivity]. fold h1.
    unfold at_pc. erewrite bind_ret by (apply eval_th; reflexivity). rewrite Epc, Z.eqb_refl.
    unfold zoom. cbn [view coreL t_hart with_core]. change (kmemory (t_k _)) with m. by rewrite He. }
  assert (h_csr h' mstatus = trap_status UMode (h_csr h mstatus)) as Est by (rewrite R6 by done; simpl; by rewrite H3).
  split_and!.
  - assert (forall c, c <> satp -> c <> sscratch -> c <> mstatus -> c <> sepc -> c <> scause -> c <> stval -> h_csr h' c = h_csr h c) as Hcsr.
    { intros c C1 C2 C3 C4 C5 C6. rewrite R6 by done. simpl. by rewrite !fn_lookup_insert_ne. }
    split; cbn [with_core t_hart t_k]; try done.
    + by apply (spaces_page kend trampoline _ _ _ _ _ m).
    + destruct H6 as [D1 D2 D3]. by split; intros c; rewrite Hcsr by done; [apply D1|apply D2|apply D3].
    + by rewrite R5, Hcsr.
    + by rewrite Hcsr.
  - by rewrite R2.
  - by rewrite R6.
  - by rewrite R6.
  - by rewrite R6.
  - rewrite Est. apply trap_status_user.
  - by rewrite R4.
  - by rewrite R6.
  - intros r Hr. rewrite W1 by done. by apply u64_small.
  - done.
Qed.

(** ** Interrupts *)

(** What a device interrupt leaves alone: the process, the memory, and all of the core
    but the time of the next timer interrupt. *)
Record quiet (i : nat) (q : proc) (s s' : tsys) : Prop := {
  qt_runs : runs (t_k s') i q;
  qt_mem : tmem s' = tmem s;
  qt_mode : h_mode (t_hart s') = h_mode (t_hart s);
  qt_reg : h_reg (t_hart s') = h_reg (t_hart s);
  qt_csr : forall c, c <> stimecmp -> h_csr (t_hart s') c = h_csr (t_hart s) c
}.

(** The interrupt controller as [plicinithart] leaves it, devices whose handlers
    return, and no spin lock held. *)
Record devices_ready (s : tsys) : Prop := {
  dr_plic : plic_reg (t_plic s) (PLIC_SENABLE (i32 (h_csr (t_hart s) mhartid))) = Z.lor (Z.shiftl 1 UART0_IRQ) (Z.shiftl 1 VIRTIO0_IRQ);
  dr_uart : exists c, uartintr (procdump proc_base str_addr (procs (kprocs (t_k s)))) (t_cons s) = Ret tt c;
  dr_disk : exists d, virtio_disk_intr (t_disk s) = Ret tt d;
  dr_locks : locks_free (kprocs (t_k s));
  dr_procs : length (procs (kprocs (t_k s))) = NPROC;
  dr_ticks : ks_tickslock (t_k s) = Free
}.

Lemma kernel_ok_quiet i q P K kroot s s' : kernel_ok i q P K kroot s -> quiet i q s s' -> kernel_ok i q P K kroot s'.
Proof.
  intros [H1 H2 H3 H4 H5 H6 H7] [Q1 Q2 Q3 Q4 Q5]. split; rewrite ?Q2, ?Q3, ?Q4, ?Q5; try done.
  destruct H5 as [D1 D2 D3]. split; intros c; rewrite Q5 by done; [apply D1|apply D2|apply D3].
Qed.

Lemma irq_bits irq : Z.testbit (Z.lor (Z.shiftl 1 UART0_IRQ) (Z.shiftl 1 VIRTIO0_IRQ)) irq = true -> irq = UART0_IRQ \/ irq = VIRTIO0_IRQ.
Proof.
  unfold UART0_IRQ, VIRTIO0_IRQ. rewrite !Z.shiftl_1_l, Z.lor_spec. destruct (decide (irq < 0)); [by rewrite !Z.testbit_neg_r|].
  rewrite !Z.pow2_bits_eqb by lia. intros [?%Z.eqb_eq|?%Z.eqb_eq]%orb_true_iff; lia.
Qed.

Lemma best_eligible pl hid irq : best pl hid = Some irq -> irq ∈ pl_pending pl /\ eligible pl hid irq = true.
Proof.
  unfold best. intros Hb. enough (irq ∈ filter (fun irq => eligible pl hid irq = true) (pl_pending pl)) as Hin by (apply list_elem_of_filter in Hin; tauto).
  revert Hb. generalize (filter (fun irq => eligible pl hid irq = true) (pl_pending pl)). intros l.
  revert irq. induction l as [|x l IH]; intros irq; [done|]. simpl. destruct (foldr _ None l) as [y|]; [destruct (better pl x y)|];
    intros [= <-]; [left | right; by apply IH | left].
Qed.

Lemma plic_claim_ok s : plic_reg (t_plic s) (PLIC_SENABLE (i32 (h_reg (t_hart s) Reg.tp))) = Z.lor (Z.shiftl 1 UART0_IRQ) (Z.shiftl 1 VIRTIO0_IRQ) ->
  exists irq pl, plic_claim s = Ret irq (put plicL pl s) /\ (irq = 0 \/ irq = UART0_IRQ \/ irq = VIRTIO0_IRQ).
Proof.
  intros He. unfold plic_claim, cpuid. rewrite bind_assoc. erewrite bind_ret by (by unfold th, zoom). erewrite bind_ret by reflexivity.
  set (hid := i32 (h_reg (t_hart s) Reg.tp)) in *. replace (put hartL (view hartL s) s) with s by (by destruct s).
  change (i32 (h_reg (view hartL s) Reg.tp)) with hid. destruct (best (t_plic s) hid) as [irq|] eqn:Eb.
  - destruct (best_eligible _ _ _ Eb) as [_ Hel]. unfold eligible in Hel. rewrite He in Hel.
    apply andb_true_iff in Hel as [Hirq%irq_bits _]. eexists irq, _. split; [|tauto].
    erewrite bind_ret; [|unfold zoom, plic_take; cbn [view plicL]; rewrite Eb; reflexivity].
    unfold mret, M_ret. f_equal. destruct Hirq as [-> | ->]; done.
  - exists 0, (t_plic s). split; [|tauto]. rewrite (bind_ret _ _ s 0 (put plicL (t_plic s) s)); [reflexivity|]. unfold zoom, plic_take. cbn [view plicL]. by rewrite Eb.
Qed.

Notation devintr_ := (devintr proc_base ticks_addr str_addr).

Lemma external_ok i q s : runs (t_k s) i q -> devices_ready s -> h_reg (t_hart s) Reg.tp = h_csr (t_hart s) mhartid ->
  h_csr (t_hart s) scause = CAUSE_EXTERNAL -> exists s', devintr_ s = Ret 1 s' /\ quiet i q s s'.
Proof.
  intros Hr [D1 [c D2] [d D3] _ _ _] Htp Hc. rewrite <- Htp in D1. destruct (plic_claim_ok s D1) as (irq & pl & Hcl & Hirq).
  unfold devintr. erewrite bind_ret by (by unfold th, zoom). replace (put hartL (view hartL s) s) with s by (by destruct s).
  change (h_csr (view hartL s) scause) with (h_csr (t_hart s) scause). rewrite Hc, Z.eqb_refl. erewrite bind_ret by exact Hcl.
  destruct Hirq as [-> |[-> | ->]].
  - eexists. split; [reflexivity|]. by split.
  - cbn [Z.eqb]. change (UART0_IRQ =? UART0_IRQ) with true. cbv iota. rewrite bind_assoc. erewrite bind_ret by reflexivity.
    change (kprocs (t_k (put plicL pl s))) with (kprocs (t_k s)).
    erewrite bind_ret; [|unfold zoom; cbn [view consL]; change (t_cons (put plicL pl s)) with (t_cons s); rewrite D2; reflexivity].
    eexists. split; [reflexivity|]. by split.
  - change (VIRTIO0_IRQ =? UART0_IRQ) with false. change (VIRTIO0_IRQ =? VIRTIO0_IRQ) with true. cbv iota.
    erewrite bind_ret; [|unfold zoom; cbn [view diskL]; change (t_disk (put plicL pl s)) with (t_disk s); rewrite D3; reflexivity].
    eexists. split; [reflexivity|]. by split.
Qed.

Lemma timer_ok i q s : runs (t_k s) i q -> devices_ready s -> h_csr (t_hart s) scause = CAUSE_TIMER ->
  exists s', devintr_ s = Ret 2 s' /\ quiet i q s s'.
Proof.
  intros Hr [_ _ _ D4 D5 D6] Hc. unfold devintr. erewrite bind_ret by (by unfold th, zoom).
  replace (put hartL (view hartL s) s) with s by (by destruct s).
  change (h_csr (view hartL s) scause) with (h_csr (t_hart s) scause). rewrite Hc.
  change (CAUSE_TIMER =? CAUSE_EXTERNAL) with false. change (CAUSE_TIMER =? CAUSE_TIMER) with true. cbv iota.
  assert (exists s', clockintr ticks_addr s = Ret tt s' /\ quiet i q s s') as (s' & He & Hq); [|exists s'; by erewrite bind_ret by exact He].
  unfold clockintr, cpuid. rewrite bind_assoc. erewrite bind_ret by (by unfold th, zoom).
  replace (put hartL (view hartL s) s) with s by (by destruct s). erewrite bind_ret by reflexivity.
  destruct (i32 _ =? 0); cbn [when].
  - set (kp := setk_procs (imap (woken (cur (kprocs (t_k s))) ticks_addr) (procs (kprocs (t_k s)))) (kprocs (t_k s))).
    set (k1 := KState (ks_f (t_k s)) (u32 (ks_ticks (t_k s) + 1)) Held (ks_out (t_k s))).
    erewrite bind_ret.
    2: { apply eval_tk. erewrite bind_ret; [|unfold acquire; cbn [view tickslockL]; rewrite D6; reflexivity].
      erewrite bind_ret by reflexivity. erewrite bind_ret; [|apply eval_kproc; by apply (wakeup_spec (kprocs k1))]. reflexivity. }
    eexists. split; [reflexivity|]. split; try done.
    + destruct Hr as [Hcur Hp]. split; [done|]. change (procs kp !! i = Some q).
      unfold kp. cbn [procs setk_procs]. rewrite list_lookup_imap, Hp. simpl. unfold woken. by rewrite decide_True.
    + intros c Hne. cbn. by rewrite fn_lookup_insert_ne.
  - eexists. split; [reflexivity|]. split; try done. intros c Hne. cbn. by rewrite fn_lookup_insert_ne.
Qed.

(** ** Giving up the processor *)

(** What the scheduler owes a process: when process [i] comes back from [sched] it
    has its lock, its address space and its page [pg] (the trapframe, or the kernel
    stack) as it left them, on a core set up like every other, maybe not the one it left. *)
Definition resumes (i : nat) (q : proc) (P K : pt) (kroot pg : Z) : Prop :=
  forall s1, kernel_ok i (setp_state RUNNABLE (setp_lock Held q)) P K kroot s1 ->
  exists q', kernel_ok i q' P K kroot (others i s1) /\ p_lock q' = Held /\ p_trapframe q' = p_trapframe q /\
    p_pagetable q' = p_pagetable q /\ p_kstack q' = p_kstack q /\
    (forall a, PGROUNDDOWN a = pg -> rd (tmem (others i s1)) a = rd (tmem s1) a).

Lemma eval_tproc {A} (f : M kproc A) s a kp : f (kprocs (t_k s)) = Ret a kp -> tproc f s = Ret a (put kL (with_kproc kp (t_k s)) s).
Proof. intros E. by apply eval_tk, eval_kproc. Qed.

Lemma kernel_ok_proc i q q' P K kroot s : kernel_ok i q P K kroot s -> p_trapframe q' = p_trapframe q -> p_pagetable q' = p_pagetable q ->
  kernel_ok i q' P K kroot (put kL (with_kproc (with_proc i q' (kprocs (t_k s))) (t_k s)) s).
Proof.
  intros [[Hc Hp] H2 H3 H4 H5 H6 H7] E1 E2. split; try done.
  - split; [done|]. change (procs (with_proc i q' (kprocs (t_k s))) !! i = Some q'). apply with_lookup. by eapply lookup_lt_Some.
  - rewrite E1, E2. exact H2.
Qed.

Lemma yield_ok i q P K kroot pg s : kernel_ok i q P K kroot s -> p_lock q = Free -> resumes i q P K kroot pg ->
  exists q' s', yield others s = Ret tt s' /\ kernel_ok i q' P K kroot s' /\ p_trapframe q' = p_trapframe q /\ p_pagetable q' = p_pagetable q /\
    p_kstack q' = p_kstack q /\ (forall a, PGROUNDDOWN a = pg -> rd (tmem s') a = rd (tmem s) a).
Proof.
  intros Hk Hl Hres. destruct (ko_runs _ _ _ _ _ _ Hk) as [Hc Hp].
  assert (i < length (procs (kprocs (t_k s))))%nat as Hlt by (by eapply lookup_lt_Some). unfold yield.
  erewrite bind_ret; [|rewrite <- (with_core_id s) at 1; apply (eval_tme _ _ _ i q); apply Hk]. rewrite with_core_id.
  set (q1 := setp_lock Held q). set (s1 := put kL (with_kproc (with_proc i q1 (kprocs (t_k s))) (t_k s)) s).
  erewrite (bind_ret _ _ s tt s1).
  2: { apply eval_tproc. rewrite <- (with_proc_id i q (kprocs (t_k s)) Hp) at 1. by apply with_acquire. }
  set (q2 := setp_state RUNNABLE q1). set (s2 := put kL (with_kproc (with_proc i q2 (kprocs (t_k s1))) (t_k s1)) s1).
  assert (kernel_ok i q1 P K kroot s1) as Hk1 by (by apply (kernel_ok_proc i q)).
  assert (kernel_ok i q2 P K kroot s2) as Hk2 by (by apply (kernel_ok_proc i q1)).
  erewrite (bind_ret _ _ s1 tt s2).
  2: { apply eval_tproc. pose proof (proj2 (ko_runs _ _ _ _ _ _ Hk1)) as Hp1.
    rewrite <- (with_proc_id i q1 (kprocs (t_k s1)) Hp1) at 1. apply with_upd. by eapply lookup_lt_Some. }
  destruct (Hres s2 Hk2) as (q' & Hk' & R1 & R2 & R3 & R4 & R5). erewrite bind_ret by reflexivity.
  set (s3 := others i s2) in *. exists (setp_lock Free q'), (put kL (with_kproc (with_proc i (setp_lock Free q') (kprocs (t_k s3))) (t_k s3)) s3).
  split_and!; try done.
  - apply eval_tproc. pose proof (proj2 (ko_runs _ _ _ _ _ _ Hk')) as Hp'.
    rewrite <- (with_proc_id i q' (kprocs (t_k s3)) Hp') at 1. apply with_release; [by eapply lookup_lt_Some|done].
  - by apply (kernel_ok_proc i q').
Qed.

(** ** A device interrupt in user mode *)

Lemma devices_ready_core s h m : h_csr h mhartid = h_csr (t_hart s) mhartid -> devices_ready s -> devices_ready (with_core h m s).
Proof.
  intros E [D1 D2 D3 [L1 L2 L3] D5 D6]. split; [|exact D2|exact D3|split; [exact L1|exact L2|exact L3]|exact D5|exact D6].
  cbn [with_core t_hart t_plic]. by rewrite E.
Qed.

Lemma spp_clear x : Z.testbit x 8 = false -> negb (Z.land (Z.land x SSTATUS_VIEW) SSTATUS_SPP =? 0) = false.
Proof. intros E. unfold SSTATUS_SPP. rewrite land_bit, Z.land_spec, E by lia. done. Qed.

Lemma devintr_ok i q s cause : runs (t_k s) i q -> devices_ready s -> h_reg (t_hart s) Reg.tp = h_csr (t_hart s) mhartid ->
  h_csr (t_hart s) scause = cause -> device_cause cause ->
  exists s', devintr_ s = Ret (if decide (cause = CAUSE_TIMER) then 2 else 1) s' /\ quiet i q s s'.
Proof.
  intros Hr Hd Htp Hs [-> | ->].
  - rewrite decide_False by done. by eapply external_ok.
  - rewrite decide_True by done. by eapply timer_ok.
Qed.

Lemma eval_exit_killed i q s : runs (t_k s) i q -> p_lock q = Free -> p_killed q = 0 -> exit_killed kend proc_base i s = Ret tt s.
Proof. intros Hr Hl Hk. unfold exit_killed. erewrite bind_ret by (by apply (eval_killed s i q)). by rewrite Hk. Qed.

(** The state in which [usertrap] looks at the cause. *)
Definition trapped_core (q : proc) (s : tsys) : tsys :=
  with_core (set_csr stvec kernelvec (t_hart s)) (st64 (tmem s) (p_trapframe q + tf_epc) (h_csr (t_hart s) sepc)) s.

Lemma trapped_ok i q P K kroot s : kernel_ok i q P K kroot s -> kernel_ok i q P K kroot (trapped_core q s).
Proof.
  intros [H1 H2 H3 H4 H5 H6 H7]. split; try done.
  - apply (spaces_page kend trampoline _ _ _ _ _ (tmem s)); [done|]. pose proof (sp_page _ _ _ _ _ _ _ _ H2) as [? _].
    apply only_page_st64; unfold tf_epc, PGSIZE in *; [done|lia|lia].
  - destruct H5 as [D1 D2 D3]. by split.
Qed.

Lemma usertrap_prefix i q s : runs (t_k s) i q -> Z.testbit (h_csr (t_hart s) mstatus) 8 = false ->
  usertrap_ s = (which_dev ← handle_ i (h_csr (t_hart s) scause); exit_killed kend proc_base i;; when (which_dev =? 2) (yield others);; usertrapret_)
    (trapped_core q s).
Proof.
  intros Hr Hspp. unfold usertrap. rewrite <- (with_core_id s) at 1. erewrite bind_ret by (apply eval_th; reflexivity). rewrite spp_clear by done. cbv iota.
  erewrite bind_ret by (apply eval_th; reflexivity). erewrite bind_ret by (by apply (eval_tme _ _ _ i q)).
  erewrite bind_ret by (apply eval_th; reflexivity). erewrite bind_ret by (by apply (eval_tf_set _ _ _ i q)).
  by erewrite bind_ret by (apply eval_th; reflexivity).
Qed.

Lemma usertrap_intr i q P K kroot s cause : kernel_ok i q P K kroot s -> Z.testbit (h_csr (t_hart s) mstatus) 8 = false ->
  h_csr (t_hart s) scause = cause -> device_cause cause -> devices_ready s -> p_killed q = 0 -> resumes i q P K kroot (p_trapframe q) ->
  exists q' s', usertrap_ s = usertrapret_ s' /\ kernel_ok i q' P K kroot s' /\ p_trapframe q' = p_trapframe q /\
    p_pagetable q' = p_pagetable q /\ p_kstack q' = p_kstack q /\
    (forall o, 0 <= o <= 280 -> ld64 (tmem s') (p_trapframe q + o) = ld64 (st64 (tmem s) (p_trapframe q + tf_epc) (h_csr (t_hart s) sepc)) (p_trapframe q + o)) /\
    (cause <> CAUSE_TIMER -> tmem s' = st64 (tmem s) (p_trapframe q + tf_epc) (h_csr (t_hart s) sepc)).
Proof.
  intros Hk Hspp Hs Hc Hd Hkl Hres. pose proof (ko_runs _ _ _ _ _ _ Hk) as Hr.
  assert (p_lock q = Free) as Hl by (eapply (lf_proc _ (dr_locks _ Hd)); apply Hr).
  pose proof (trapped_ok _ _ _ _ _ _ Hk) as Hk1. set (s1 := trapped_core q s) in *.
  destruct (devintr_ok i q s1 cause) as (s2 & He & Hq); [apply Hk1 | by apply devices_ready_core | apply Hk1 | done | done |].
  pose proof (kernel_ok_quiet _ _ _ _ _ _ _ Hk1 Hq) as Hk2.
  assert (usertrap_ s = (when (bool_decide (cause = CAUSE_TIMER)) (yield others);; usertrapret_) s2) as E.
  { rewrite (usertrap_prefix i q) by done. rewrite Hs. fold s1. unfold usertrap_handle.
    replace (cause =? 8) with false by (destruct Hc as [-> | ->]; done). rewrite bind_assoc. erewrite bind_ret by exact He.
    rewrite (bind_ret _ _ s2 (if decide (cause = CAUSE_TIMER) then 2 else 1) s2); [|destruct Hc as [-> | ->]; reflexivity].
    erewrite bind_ret by (apply (eval_exit_killed i q); [apply Hk2|done|done]). destruct Hc as [-> | ->]; done. }
  destruct (decide (cause = CAUSE_TIMER)) as [Et|Et].
  - destruct (yield_ok i q P K kroot _ s2 Hk2 Hl Hres) as (q' & s' & Hy & Hk' & R1 & R2 & R3 & R4).
    exists q', s'. split_and!; try done.
    + rewrite E, bool_decide_true by done. cbn [when]. by erewrite bind_ret by exact Hy.
    + intros o Ho. rewrite (ld64_ext (tmem s2)); [by rewrite (qt_mem _ _ _ _ Hq)|]. intros a Ha. apply R4.
      apply PGROUNDDOWN_in; [apply (sp_page _ _ _ _ _ _ _ _ (ko_spaces _ _ _ _ _ _ Hk))|unfold PGSIZE; lia].
  - exists q, s2. split_and!; try done.
    + rewrite E, bool_decide_false by done. done.
    + intros o Ho. by rewrite (qt_mem _ _ _ _ Hq).
    + intros _. by rewrite (qt_mem _ _ _ _ Hq).
Qed.

(** A process that has been killed does not come back. *)
Lemma usertrap_killed i q P K kroot s cause : kernel_ok i q P K kroot s -> Z.testbit (h_csr (t_hart s) mstatus) 8 = false ->
  h_csr (t_hart s) scause = cause -> device_cause cause -> devices_ready s -> p_killed q <> 0 ->
  forall x s', usertrap_ s <> Ret x s'.
Proof.
  intros Hk Hspp Hs Hc Hd Hkl x s'. pose proof (ko_runs _ _ _ _ _ _ Hk) as Hr.
  assert (p_lock q = Free) as Hl by (eapply (lf_proc _ (dr_locks _ Hd)); apply Hr).
  pose proof (trapped_ok _ _ _ _ _ _ Hk) as Hk1. set (s1 := trapped_core q s) in *.
  destruct (devintr_ok i q s1 cause) as (s2 & He & Hq); [apply Hk1 | by apply devices_ready_core | apply Hk1 | done | done |].
  pose proof (kernel_ok_quiet _ _ _ _ _ _ _ Hk1 Hq) as Hk2.
  rewrite (usertrap_prefix i q) by done. rewrite Hs. fold s1. unfold usertrap_handle.
  replace (cause =? 8) with false by (destruct Hc as [-> | ->]; done). rewrite bind_assoc. erewrite bind_ret by exact He.
  rewrite (bind_ret _ _ s2 (if decide (cause = CAUSE_TIMER) then 2 else 1) s2); [|destruct Hc as [-> | ->]; reflexivity].
  unfold exit_killed. rewrite !bind_assoc. erewrite bind_ret by (apply (eval_killed s2 i q); [apply Hk2|done]).
  rewrite (proj2 (Z.eqb_neq _ _) Hkl). cbn [negb when]. apply (noret_left (tk _)), noret_zoom, noret_zoom, exit_noret.
Qed.

Lemma eval_at_pc {A} a (f : M tsys A) s : h_pc (t_hart s) = a -> at_pc a f s = f s.
Proof.
  intros E. unfold at_pc. erewrite bind_ret by (by unfold th, zoom). replace (put hartL (view hartL s) s) with s by (by destruct s).
  change (h_pc (view hartL s)) with (h_pc (t_hart s)). by rewrite E, Z.eqb_refl.
Qed.

Lemma bind_same {A B} (f g : M tsys A) (k : A -> M tsys B) s s' : f s = g s' -> (f ≫= k) s = (g ≫= k) s'.
Proof. unfold mbind, M_bind. by intros ->. Qed.

(** C15: A device interrupt is invisible to the user program it interrupts.  For every
    state of a process in user mode with the interrupt controller set up, device handlers
    that return and no spin lock held ([devices_ready]), and every external or timer
    interrupt: if the process has not been killed, [uservec], [usertrap], [usertrapret] and
    [userret] run through and return to user mode with all registers and the program
    counter as they were, in the same address space, and with everything in place for the
    next trap.  After a timer interrupt this holds also on another core, and whatever
    other processes did in between, as long as they left its address space, its trapframe
    page and its lock as the scheduler owes it ([resumes]).  An external interrupt changes
    no memory but the trapframe.  A process that has been killed does not return to user
    mode. *)
Theorem interrupt_transparent i q P K kroot cause tval s :
  user_ok i q P K kroot s -> regs64 (t_hart s) -> device_cause cause -> devices_ready s ->
  (p_killed q = 0 -> resumes i q P K kroot (p_trapframe q) ->
   exists q' s', user_trap_ cause tval s = Ret tt s' /\ user_ok i q' P K kroot s' /\
     p_trapframe q' = p_trapframe q /\ p_pagetable q' = p_pagetable q /\ p_kstack q' = p_kstack q /\
     h_pc (t_hart s') = h_pc (t_hart s) /\ (forall r, (1 <= r <= 31)%nat -> h_reg (t_hart s') r = h_reg (t_hart s) r) /\
     (cause = CAUSE_EXTERNAL -> only_page (p_trapframe q) (tmem s) (tmem s'))) /\
  (p_killed q <> 0 -> forall s', user_trap_ cause tval s <> Ret tt s').
Proof.
  intros Hu Hr Hc Hd.
  destruct (enter_kernel i q P K kroot cause tval s Hu Hr) as (h1 & m1 & He & Hk1 & E1 & E2 & E3 & E4 & E5 & E6 & Eid & E7 & E8); [by right|].
  pose proof (sp_page _ _ _ _ _ _ _ _ (uo_spaces _ _ _ _ _ _ Hu)) as [Htf _]. set (s1 := with_core h1 m1 s) in *. split.
  2:{ intros Hkl s'. unfold user_trap. rewrite <- bind_assoc. erewrite bind_ret by exact He. fold s1.
      pose proof (usertrap_killed i q P K kroot s1 cause Hk1 E5 E3 Hc ltac:(by apply devices_ready_core) Hkl) as Hno.
      unfold mbind, M_bind. rewrite eval_at_pc by done. destruct (usertrap_ s1) as [x s2| | |] eqn:E; [by destruct (Hno x s2) | done..]. }
  intros Hkl Hres.
  destruct (usertrap_intr i q P K kroot s1 cause Hk1) as (q' & s2 & Eu & Hk2 & R1 & R2 & R3 & R4 & Rm); try done; [by apply devices_ready_core|].
  destruct (return_user i q' P K kroot s2 Hk2) as (h3 & m3 & Er & Hu3 & R5 & R6 & Ho).
  exists q', (with_core h3 m3 s2). split_and!; try done.
  - unfold user_trap. rewrite <- bind_assoc. erewrite bind_ret by exact He. fold s1.
    erewrite (bind_same _ usertrapret_ _ _ s2); [exact Er|]. rewrite eval_at_pc by done. exact Eu.
  - cbn [t_hart with_core]. rewrite R5, R1, R4 by (unfold tf_epc; lia). rewrite ld64_st64_eq. change (h_csr (t_hart s1) sepc) with (h_csr h1 sepc). rewrite E2. apply u64_small, Hr.
  - intros r Hr'. cbn [t_hart with_core]. rewrite R6, R1, R4 by (done || unfold tf_reg; lia). rewrite ld64_st64_ne by (unfold tf_reg, tf_epc; lia). by apply E7.
  - intros Ec. eapply only_page_trans; [exact E8|]. rewrite R1, Rm in Ho by (by rewrite Ec).
    eapply only_page_trans; [|exact Ho]. apply only_page_st64; unfold tf_epc, PGSIZE in *; [done|lia|lia].
Qed.

(** ** A system call *)

Lemma kernel_ok_status i q P K kroot h m s st : kernel_ok i q P K kroot (with_core h m s) -> kernel_ok i q P K kroot (with_core (set_csr mstatus st h) m s).
Proof. intros [H1 H2 H3 H4 H5 H6 H7]. split; try done. destruct H5 as [D1 D2 D3]. by split. Qed.

Lemma kernel_ok_epc i q P K kroot h m s v : kernel_ok i q P K kroot (with_core h m s) ->
  kernel_ok i q P K kroot (with_core h (st64 m (p_trapframe q + tf_epc) v) s).
Proof.
  intros [H1 H2 H3 H4 H5 H6 H7]. split; try done. apply (spaces_page kend trampoline _ _ _ _ _ m); [done|].
  pose proof (sp_page _ _ _ _ _ _ _ _ H2) as [? _]. apply only_page_st64; unfold tf_epc, PGSIZE in *; [done|lia|lia].
Qed.

(** C16: A system call.  After the [ecall] of a process that is not killed, [syscall] runs
    in the kernel with the user's registers in the trapframe, the address of the next
    instruction as the one to return to, interrupts on and traps directed to
    [kernelvec].  When it returns, the process goes back to user mode with exactly
    what is then in the trapframe: every register and the program counter; also after an
    [exec], which has given it another page table.  If it has been killed
    meanwhile, it does not go back. *)
Theorem syscall_trap i q P K kroot tval s :
  user_ok i q P K kroot s -> regs64 (t_hart s) -> p_lock q = Free -> p_killed q = 0 ->
  exists s1, kernel_ok i q P K kroot s1 /\ holds (p_trapframe q) (t_hart s) (u64 (h_pc (t_hart s) + 4)) (tmem s1) /\
    only_page (p_trapframe q) (tmem s) (tmem s1) /\ h_csr (t_hart s1) stvec = kernelvec /\ Z.testbit (h_csr (t_hart s1) mstatus) 1 = true /\
    forall k' q' P', syscall_ (t_k s1) = Ret tt k' -> kernel_ok i q' P' K kroot (put kL k' s1) -> p_lock q' = Free ->
    (p_killed q' = 0 -> exists s', user_trap_ 8 tval s = Ret tt s' /\ user_ok i q' P' K kroot s' /\
       h_pc (t_hart s') = ld64 (kmemory k') (p_trapframe q' + tf_epc) /\
       (forall r, (1 <= r <= 31)%nat -> h_reg (t_hart s') r = ld64 (kmemory k') (p_trapframe q' + tf_reg r))) /\
    (p_killed q' <> 0 -> forall s', user_trap_ 8 tval s <> Ret tt s').
Proof.
  intros Hu Hr Hl Hkl.
  destruct (enter_kernel i q P K kroot 8 tval s Hu Hr) as (h1 & m1 & He & Hk1 & E1 & E2 & E3 & E4 & E5 & E6 & Eid & E7 & E8); [lia|].
  pose proof (sp_page _ _ _ _ _ _ _ _ (uo_spaces _ _ _ _ _ _ Hu)) as [Htf _]. pose proof (uo_runs _ _ _ _ _ _ Hu) as Hrun.
  set (tf := p_trapframe q) in *. set (m2 := st64 m1 (tf + tf_epc) (h_pc (t_hart s))). set (m3 := st64 m2 (tf + tf_epc) (u64 (h_pc (t_hart s) + 4))).
  set (h2 := set_csr stvec kernelvec h1). set (st := masked SSTATUS_VIEW (h_csr h1 mstatus) (Z.lor (Z.land (h_csr h1 mstatus) SSTATUS_VIEW) SSTATUS_SIE)).
  set (s1 := with_core (set_csr mstatus st h2) m3 s). exists s1.
  assert (kernel_ok i q P K kroot (with_core h2 m2 s)) as Hk2.
  { pose proof (trapped_ok _ _ _ _ _ _ Hk1) as Hx. unfold trapped_core in Hx. cbn [t_hart with_core] in Hx. rewrite E2 in Hx. exact Hx. }
  assert (usertrap_ (with_core h1 m1 s) = (which_dev ← (tk syscall_;; mret 0); exit_killed kend proc_base i;; when (which_dev =? 2) (yield others);; usertrapret_) s1) as Eu.
  { rewrite (usertrap_prefix i q) by (apply Hk1 || done). cbn [t_hart with_core]. rewrite E3. change (trapped_core q _) with (with_core h2 (st64 m1 (tf + tf_epc) (h_csr h1 sepc)) s).
    rewrite E2. fold m2. unfold usertrap_handle. change (8 =? 8) with true. cbv iota.
    rewrite bind_assoc. erewrite bind_ret by (apply (eval_exit_killed i q); [apply Hk2|done|done]).
    rewrite bind_assoc. erewrite bind_ret by (by apply (eval_tf_get _ _ _ i q)). fold tf. unfold m2 at 1. rewrite ld64_st64_eq, (u64_small _ (proj2 Hr)).
    rewrite bind_assoc. erewrite bind_ret by (by apply (eval_tf_set _ _ _ i q)). fold tf m3.
    rewrite bind_assoc. erewrite bind_ret by (apply eval_th; reflexivity). reflexivity. }
  split_and!.
  - apply kernel_ok_status. by apply kernel_ok_epc.
  - split; change (tmem s1) with m3; unfold m3, m2.
    + intros r Hr'. rewrite !ld64_st64_ne by (unfold tf_reg, tf_epc; lia). by apply E7.
    + rewrite ld64_st64_eq. apply u64_small, u64_range.
  - change (tmem s1) with m3. unfold m3, m2. eapply only_page_trans; [exact E8|].
    eapply only_page_trans; apply only_page_st64; unfold tf_epc, PGSIZE in *; try done; lia.
  - done.
  - change (Z.testbit st 1 = true). unfold st. rewrite masked_spec, Z.lor_spec by lia. simpl. by rewrite orb_true_r.
  - intros k' q' P' Hsys Hk' Hl'. set (s2 := put kL k' s1) in *.
    assert (usertrap_ (with_core h1 m1 s) = (exit_killed kend proc_base i;; usertrapret_) s2) as Eu2.
    { rewrite Eu. rewrite bind_assoc. erewrite bind_ret by (apply eval_tk; exact Hsys). by erewrite bind_ret by reflexivity. }
    split.
    + intros Hkl'. rewrite (bind_ret _ _ s2 tt s2) in Eu2 by (apply (eval_exit_killed i q'); [apply Hk'|done|done]).
      destruct (return_user i q' P' K kroot s2 Hk') as (h3 & m4 & Er & Hu3 & R5 & R6 & _).
      exists (with_core h3 m4 s2). split_and!; try done. unfold user_trap. rewrite <- bind_assoc. erewrite bind_ret by exact He.
      erewrite (bind_same _ usertrapret_ _ _ s2); [exact Er|]. rewrite eval_at_pc by done. exact Eu2.
    + intros Hkl' s' Ef. unfold user_trap in Ef. rewrite <- bind_assoc in Ef. erewrite bind_ret in Ef by exact He.
      erewrite (bind_same _ (exit_killed kend proc_base i;; usertrapret_) _ _ s2) in Ef; [|rewrite eval_at_pc by done; exact Eu2].
      unfold exit_killed in Ef. rewrite !bind_assoc in Ef. erewrite bind_ret in Ef by (apply (eval_killed s2 i q'); [apply Hk'|done]).
      rewrite (proj2 (Z.eqb_neq _ _) Hkl') in Ef. cbn [negb when] in Ef. revert Ef. apply (noret_left (tk _)), noret_zoom, noret_zoom, exit_noret.
Qed.

(** ** Any other exception *)

Definition hex (v : Z) (t : list Z) : Prop := num_text KPrintf.digits 64 (i64 v) 16 false t /\ (length t <= 16)%nat.

Lemma hex_exists v : 0 <= v < 2 ^ 64 -> exists t, hex v t.
Proof.
  intros Hv. destruct (numeral_exists 16 16 v) as (l & Hl & Hlen); [lia|exact Hv|lia|]. eexists. split; [exists l; split; [|reflexivity]|].
  - cbn [andb]. change (i64 v mod 2 ^ 64) with (u64 (i64 v)). by rewrite u64_i64.
  - cbn [andb app]. rewrite length_fmap, length_reverse. lia.
Qed.

Definition trap_items1 : list item := map Lit (bytes "usertrap(): unexpected scause 0x") ++ Cv 1 (chr "x") :: map Lit (bytes " pid=") ++ [Cv 0 (chr "d"); Lit 10].
Definition trap_items2 : list item := map Lit (bytes "            sepc=0x") ++ Cv 1 (chr "x") :: map Lit (bytes " stval=0x") ++ [Cv 1 (chr "x"); Lit 10].
(** The message, given the texts of its numbers. *)
Definition trap_message (tc tp te tv : list Z) : list Z :=
  (bytes "usertrap(): unexpected scause 0x" ++ tc ++ bytes " pid=" ++ tp ++ [10]) ++
  (bytes "            sepc=0x" ++ te ++ bytes " stval=0x" ++ tv ++ [10]).

#[local] Instance item_ok_decision it : Decision (item_ok it).
Proof. destruct it; apply _. Defined.

Lemma eval_message1 k cause pid tc tp : hex cause tc -> decimal (i32 pid) tp ->
  kprintf (bytes "usertrap(): unexpected scause 0x%lx pid=%d" ++ [10]) [cause; pid] [] k =
  Ret tt (with_out (bytes "usertrap(): unexpected scause 0x" ++ tc ++ bytes " pid=" ++ tp ++ [10]) k).
Proof.
  intros [Hc Hlc] [Hp Hlp]. change (bytes "usertrap(): unexpected scause 0x%lx pid=%d" ++ [10]) with (fmt_of trap_items1). apply eval_kprintf.
  { apply (bool_decide_eq_true_1 _). by vm_compute. }
  unfold trap_items1. apply renders_lits. apply r_num; [done|done|]. apply renders_lits. apply r_num; [done|done|]. apply r_lit, r_nil.
Qed.

Lemma eval_message2 k epc tval te tv : hex epc te -> hex tval tv ->
  kprintf (bytes "            sepc=0x%lx stval=0x%lx" ++ [10]) [epc; tval] [] k =
  Ret tt (with_out (bytes "            sepc=0x" ++ te ++ bytes " stval=0x" ++ tv ++ [10]) k).
Proof.
  intros [Hc Hlc] [Hp Hlp]. change (bytes "            sepc=0x%lx stval=0x%lx" ++ [10]) with (fmt_of trap_items2). apply eval_kprintf.
  { apply (bool_decide_eq_true_1 _). by vm_compute. }
  unfold trap_items2. apply renders_lits. apply r_num; [done|done|]. apply renders_lits. apply r_num; [done|done|]. apply r_lit, r_nil.
Qed.

Lemma eval_setkilled s i q : runs (t_k s) i q -> p_lock q = Free ->
  tproc (setkilled i) s = Ret tt (put kL (with_kproc (with_proc i (setp_killed 1 q) (kprocs (t_k s))) (t_k s)) s).
Proof.
  intros [Hc Hq] Hl. apply eval_tproc. unfold setkilled. rewrite <- (with_proc_id i q (kprocs (t_k s)) Hq) at 1.
  assert (i < length (procs (kprocs (t_k s))))%nat as Hlt by (by eapply lookup_lt_Some).
  erewrite bind_ret by (by apply with_acquire). pstep. rewrite with_release by done. by destruct q; simpl in *; subst.
Qed.

Lemma devintr_none s cause : h_csr (t_hart s) scause = cause -> 0 <= cause < 16 -> devintr_ s = Ret 0 s.
Proof.
  intros Hs Hc. unfold devintr. erewrite bind_ret by (by unfold th, zoom). replace (put hartL (view hartL s) s) with s by (by destruct s).
  change (h_csr (view hartL s) scause) with (h_csr (t_hart s) scause). rewrite Hs.
  rewrite !(proj2 (Z.eqb_neq _ _)) by (unfold CAUSE_EXTERNAL, CAUSE_TIMER; lia). done.
Qed.

Lemma eval_csrr s c : th (csrr c) s = Ret (h_csr (t_hart s) c) s.
Proof. by destruct s. Qed.

Lemma unexpected_handle i q s cause tval epc tc tp te tv : runs (t_k s) i q -> p_lock q = Free -> - 2 ^ 31 <= p_pid q < 2 ^ 31 ->
  h_csr (t_hart s) scause = cause -> h_csr (t_hart s) stval = tval -> h_csr (t_hart s) sepc = epc -> 0 <= cause < 16 -> cause <> 8 ->
  hex cause tc -> decimal (p_pid q) tp -> hex epc te -> hex tval tv ->
  exists s', handle_ i cause s = Ret 0 s' /\ runs (t_k s') i (setp_killed 1 q) /\ ks_out (t_k s') = ks_out (t_k s) ++ trap_message tc tp te tv.
Proof.
  intros Hr Hl Hpid Hs Ht He Hc Hc8 Hx1 Hx2 Hx3 Hx4. unfold usertrap_handle. rewrite (proj2 (Z.eqb_neq _ _) Hc8).
  erewrite bind_ret by (by apply (devintr_none s cause)). cbn [Z.eqb negb].
  erewrite bind_ret by apply eval_csrr. erewrite bind_ret; [|rewrite <- (with_core_id s) at 1; by apply (eval_tget _ _ _ i q)]. rewrite with_core_id, Hs.
  erewrite bind_ret by (apply eval_tk, eval_message1; [exact Hx1|by rewrite i32_small]). set (s1 := put kL _ s).
  erewrite bind_ret by apply eval_csrr. erewrite bind_ret by apply eval_csrr. change (t_hart s1) with (t_hart s). rewrite He, Ht.
  erewrite bind_ret by (apply eval_tk, eval_message2; [exact Hx3|exact Hx4]). set (s2 := put kL _ s1).
  erewrite bind_ret by (by apply (eval_setkilled s2 i q)). eexists. split; [reflexivity|]. split.
  - split; [apply Hr|]. change (procs (with_proc i (setp_killed 1 q) (kprocs (t_k s2))) !! i = Some (setp_killed 1 q)).
    apply with_lookup. by eapply lookup_lt_Some, Hr.
  - unfold trap_message. rewrite app_assoc. reflexivity.
Qed.

(** C18: Any other exception ends the process.  It is reported on the console with its
    cause, the process, the address and the value of the trap, the process is marked as
    killed and runs [exit(-1)], and it never goes back to user mode. *)
Theorem unexpected_trap_kills i q P K kroot cause tval s :
  user_ok i q P K kroot s -> regs64 (t_hart s) -> 0 <= cause < 16 -> cause <> 8 -> 0 <= tval < 2 ^ 64 ->
  p_lock q = Free -> - 2 ^ 31 <= p_pid q < 2 ^ 31 ->
  exists s1 tc tp te tv, hex cause tc /\ decimal (p_pid q) tp /\ hex (h_pc (t_hart s)) te /\ hex tval tv /\
    runs (t_k s1) i (setp_killed 1 q) /\ ks_out (t_k s1) = ks_out (t_k s) ++ trap_message tc tp te tv /\
    user_trap_ cause tval s = tk (in_f (exit kend proc_base (-1))) s1 /\ forall s', user_trap_ cause tval s <> Ret tt s'.
Proof.
  intros Hu Hr Hc Hc8 Htv Hl Hpid.
  destruct (enter_kernel i q P K kroot cause tval s Hu Hr) as (h1 & m1 & He & Hk1 & E1 & E2 & E3 & E4 & E5 & _); [by left|].
  destruct (hex_exists cause) as [tc Hx1]; [lia|]. destruct (decimal_exists (p_pid q)) as [tp Hx2]; [lia|].
  destruct (hex_exists (h_pc (t_hart s)) (proj2 Hr)) as [te Hx3]. destruct (hex_exists tval Htv) as [tv Hx4].
  set (s2 := trapped_core q (with_core h1 m1 s)).
  destruct (unexpected_handle i q s2 cause tval (h_pc (t_hart s)) tc tp te tv) as (s4 & Eh & Hr4 & Ho); try done; [apply Hk1|].
  assert (user_trap_ cause tval s = tk (in_f (exit kend proc_base (-1))) s4) as Eu.
  { unfold user_trap. rewrite <- bind_assoc. erewrite bind_ret by exact He.
    rewrite (bind_same _ (exit_killed kend proc_base i;; when (0 =? 2) (yield others);; usertrapret_) _ _ s4).
    - unfold exit_killed. rewrite !bind_assoc. erewrite bind_ret by (by apply (eval_killed s4 i (setp_killed 1 q))).
      change (negb (p_killed (setp_killed 1 q) =? 0)) with true. cbn [when]. apply noret_seq. apply noret_zoom, noret_zoom, exit_noret.
    - rewrite eval_at_pc by done. rewrite (usertrap_prefix i q) by (done || apply Hk1). cbn [t_hart with_core]. rewrite E3. fold s2.
      by erewrite bind_ret by exact Eh. }
  exists s4, tc, tp, te, tv. split_and!; try done. rewrite Eu. intros s'. apply noret_zoom, noret_zoom, exit_noret.
Qed.

(** ** An interrupt in the kernel *)

Notation kerneltrap_ := (kerneltrap proc_base ticks_addr str_addr others).
Notation kernel_trap_ := (kernel_trap proc_base ticks_addr str_addr kernelvec others junk).

Definition set_th (h : hart) (s : tsys) : tsys := put hartL h s.

Lemma eval_th_put {A} (f : M hart A) s a h : f (t_hart s) = Ret a h -> th f s = Ret a (set_th h s).
Proof. intros E. unfold th, zoom. cbn [view hartL]. by rewrite E. Qed.

Lemma kernel_ok_csr i q P K kroot c v s : kernel_ok i q P K kroot s -> c <> satp -> c <> medeleg -> c <> mideleg -> c <> mie -> c <> mhartid ->
  kernel_ok i q P K kroot (set_th (set_csr c v (t_hart s)) s).
Proof.
  intros [H1 H2 H3 H4 H5 H6 H7] C1 C2 C3 C4 C5. destruct H5 as [D1 D2 D3].
  split; cbn [set_th put hartL t_hart t_k set_csr h_csr h_mode h_reg]; rewrite ?fn_lookup_insert_ne by done; try done.
  split; intros x; simpl; rewrite fn_lookup_insert_ne by done; [apply D1|apply D2|apply D3].
Qed.

Lemma kerneltrap_ok i q P K kroot pg s cause : kernel_ok i q P K kroot s -> Z.testbit (h_csr (t_hart s) mstatus) 8 = true ->
  Z.testbit (h_csr (t_hart s) mstatus) 1 = false -> h_csr (t_hart s) scause = cause -> device_cause cause -> devices_ready s -> resumes i q P K kroot pg ->
  exists q' s', kerneltrap_ s = Ret tt s' /\ kernel_ok i q' P K kroot s' /\ h_csr (t_hart s') sepc = h_csr (t_hart s) sepc /\
    Z.testbit (h_csr (t_hart s') mstatus) 8 = true /\ Z.testbit (h_csr (t_hart s') mstatus) 5 = Z.testbit (h_csr (t_hart s) mstatus) 5 /\
    p_trapframe q' = p_trapframe q /\ p_pagetable q' = p_pagetable q /\ p_kstack q' = p_kstack q /\
    (forall a, PGROUNDDOWN a = pg -> rd (tmem s') a = rd (tmem s) a) /\ (cause = CAUSE_EXTERNAL -> tmem s' = tmem s).
Proof.
  intros Hk Hspp Hsie Hs Hc Hd Hres. pose proof (ko_runs _ _ _ _ _ _ Hk) as Hr.
  assert (p_lock q = Free) as Hl by (eapply (lf_proc _ (dr_locks _ Hd)); apply Hr).
  destruct (devintr_ok i q s cause) as (s2 & He & Hq); [apply Hk|done|apply Hk|done|done|].
  pose proof (kernel_ok_quiet _ _ _ _ _ _ _ Hk Hq) as Hk2. set (st := h_csr (t_hart s) mstatus) in *.
  assert (exists q' s3, when (bool_decide (cause = CAUSE_TIMER)) (yield others) s2 = Ret tt s3 /\ kernel_ok i q' P K kroot s3 /\
    p_trapframe q' = p_trapframe q /\ p_pagetable q' = p_pagetable q /\ p_kstack q' = p_kstack q /\
    (forall a, PGROUNDDOWN a = pg -> rd (tmem s3) a = rd (tmem s) a) /\ (cause = CAUSE_EXTERNAL -> tmem s3 = tmem s)) as (q' & s3 & Ey & Hk3 & R1 & R2 & R3 & R4 & R5).
  { destruct Hc as [-> | ->].
    - exists q, s2. split_and!; try done; [intros a _; by rewrite (qt_mem _ _ _ _ Hq) | intros _; apply (qt_mem _ _ _ _ Hq)].
    - destruct (yield_ok i q P K kroot pg s2 Hk2 Hl Hres) as (q' & s3 & Ey & Hk3 & R1 & R2 & R3 & R4).
      exists q', s3. split_and!; try done. intros a Ha. rewrite R4 by done. by rewrite (qt_mem _ _ _ _ Hq). }
  exists q', (set_th (set_csr mstatus (masked SSTATUS_VIEW (h_csr (t_hart s3) mstatus) (Z.land st SSTATUS_VIEW)) (set_csr sepc (h_csr (t_hart s) sepc) (t_hart s3))) s3).
  split_and!; try done.
  - unfold kerneltrap. erewrite bind_ret by apply eval_csrr.
    erewrite bind_ret; [|apply (eval_th_put _ s _ (t_hart s)); reflexivity]. replace (set_th (t_hart s) s) with s by (by destruct s).
    erewrite bind_ret by apply eval_csrr. fold st. unfold SSTATUS_SPP. rewrite land_bit, Z.land_spec, Hspp by lia. cbn [negb andb]. change (Z.testbit SSTATUS_VIEW 8) with true. cbv iota. cbn [negb].
    erewrite bind_ret; [|apply (eval_th_put _ s _ (t_hart s)); reflexivity]. replace (set_th (t_hart s) s) with s by (by destruct s). fold st.
    unfold SSTATUS_SIE. rewrite land_bit, Z.land_spec, Hsie by lia. cbn [negb andb].
    erewrite bind_ret by exact He. replace ((if decide (cause = CAUSE_TIMER) then 2 else 1) =? 0) with false by (by case_decide). cbv iota.
    erewrite (bind_ret _ _ s2 (Some i) s2).
    2: { unfold tproc. erewrite eval_tk; [|apply (eval_kproc _ _ (Some i) (kprocs (t_k s2))); unfold myproc, gets; f_equal; apply Hk2].
      rewrite with_kproc_id. by destruct s2. }
    replace (((if decide (cause = CAUSE_TIMER) then 2 else 1) =? 2) && bool_decide (Some i <> None)) with (bool_decide (cause = CAUSE_TIMER))
      by (destruct Hc as [-> | ->]; done).
    erewrite bind_ret by exact Ey. erewrite bind_ret; [|apply eval_th_put; reflexivity]. erewrite eval_th_put by reflexivity. by destruct s3.
  - pose proof (kernel_ok_csr i q' P K kroot sepc (h_csr (t_hart s) sepc) s3 Hk3) as Hk4.
    refine (kernel_ok_csr i q' P K kroot mstatus (masked SSTATUS_VIEW (h_csr (t_hart s3) mstatus) (Z.land st SSTATUS_VIEW)) (set_th (set_csr sepc (h_csr (t_hart s) sepc) (t_hart s3)) s3)
      (Hk4 _ _ _ _ _) _ _ _ _ _); done.
  - cbn [set_th put hartL t_hart set_csr h_csr]. rewrite fn_lookup_insert, masked_spec, Z.land_spec, Hspp by lia. done.
  - cbn [set_th put hartL t_hart set_csr h_csr]. rewrite fn_lookup_insert, masked_spec, Z.land_spec by lia. change (Z.testbit SSTATUS_VIEW 5) with true. cbv iota. apply andb_true_r.
Qed.

Context (Hkv : 0 <= kernelvec < MAXVA /\ kernelvec mod 4 = 0).

(** The registers in the order in which [kernelvec] saves and restores them. *)
Definition restore_tbl : list (nat * Z) :=
  [(Reg.ra, 0); (Reg.sp, 8); (Reg.gp, 16); (Reg.t0, 32); (Reg.t1, 40); (Reg.t2, 48); (Reg.a0, 72); (Reg.a1, 80); (Reg.a2, 88); (Reg.a3, 96);
   (Reg.a4, 104); (Reg.a5, 112); (Reg.a6, 120); (Reg.a7, 128); (Reg.t3, 216); (Reg.t4, 224); (Reg.t5, 232); (Reg.t6, 240)].
Definition save_tbl : list (nat * Z) :=
  [(Reg.ra, 0); (Reg.sp, 8); (Reg.gp, 16); (Reg.tp, 24); (Reg.t0, 32); (Reg.t1, 40); (Reg.t2, 48); (Reg.a0, 72); (Reg.a1, 80); (Reg.a2, 88); (Reg.a3, 96);
   (Reg.a4, 104); (Reg.a5, 112); (Reg.a6, 120); (Reg.a7, 128); (Reg.t3, 216); (Reg.t4, 224); (Reg.t5, 232); (Reg.t6, 240)].

Lemma save_code : Trampoline.kernelvec_save = Addi Reg.sp Reg.sp (-256) :: map (fun x => Sd x.1 x.2 Reg.sp) save_tbl ++ [].
Proof. reflexivity. Qed.
Lemma restore_code : Trampoline.kernelvec_restore = map (fun x => Ld x.1 x.2 Reg.sp) restore_tbl ++ [Addi Reg.sp Reg.sp 256; Sret].
Proof. reflexivity. Qed.
Lemma save_tbl_2 : NoDup (save_tbl.*2) /\ Forall (fun x => x.2 mod 8 = 0) save_tbl /\ NoDup (restore_tbl.*1) /\ restore_tbl ⊆ save_tbl.
Proof.
  split_and!; [apply (bool_decide_eq_true_1 _); by vm_compute | apply (bool_decide_eq_true_1 _); by vm_compute | apply (bool_decide_eq_true_1 _); by vm_compute |].
  intros x Hx. assert (Forall (fun x => x ∈ save_tbl) restore_tbl) as Hf by (apply (bool_decide_eq_true_1 _); by vm_compute). rewrite Forall_forall in Hf. by apply Hf.
Qed.
(** What is not restored is preserved by the call, but [tp]. *)
Lemma restored r : (1 <= r <= 31)%nat -> r <> Reg.tp -> (exists o, (r, o) ∈ restore_tbl) \/ (r ∉ restore_tbl.*1 /\ Trampoline.callee_saved r = true /\ r <> Reg.sp).
Proof.
  intros H1 H2. destruct (decide (r ∈ restore_tbl.*1)) as [Hin|Hin].
  - left. apply list_elem_of_fmap in Hin as ([r' o] & -> & Hx). by exists o.
  - right. assert (Forall (fun r => r <> Reg.tp -> r ∉ restore_tbl.*1 -> Trampoline.callee_saved r = true /\ r <> Reg.sp) (seq 1 31)) as Hf.
    { apply (bool_decide_eq_true_1 _). by vm_compute. }
    rewrite Forall_forall in Hf. split; [done|]. apply Hf; [apply elem_of_seq; lia|done|done].
Qed.

Lemma enters_kernel h cause : delegates h -> h_mode h = SMode -> Z.testbit (h_csr h mstatus) 1 = true -> device_cause cause -> takes h cause = true.
Proof.
  intros [D1 D2 D3] Hm Hs Hc. unfold takes. rewrite Hm. destruct Hc as [-> | ->].
  - change (Z.testbit (h_csr h mideleg) 9 && Z.testbit (h_csr h mie) 9 && (false || Z.testbit (h_csr h mstatus) 1) = true). rewrite D2, D3, Hs; [done|tauto|lia].
  - change (Z.testbit (h_csr h mideleg) 5 && Z.testbit (h_csr h mie) 5 && (false || Z.testbit (h_csr h mstatus) 1) = true). rewrite D2, D3, Hs; [done|tauto|lia].
Qed.

Lemma trap_status_kernel st : Z.testbit st 1 = true ->
  Z.testbit (trap_status SMode st) 8 = true /\ Z.testbit (trap_status SMode st) 1 = false /\ Z.testbit (trap_status SMode st) 5 = true.
Proof. intros E. unfold trap_status. rewrite !put_bit_spec by lia. by rewrite E. Qed.

Lemma kernelvec_base : Z.ldiff kernelvec 3 = kernelvec.
Proof.
  change 3 with (Z.ones 2). rewrite Z.ldiff_ones_r, Z.shiftl_mul_pow2, Z.shiftr_div_pow2 by lia. change (2 ^ 2) with 4.
  destruct Hkv as [_ Hv]. Z.to_euclidean_division_equations. lia.
Qed.

(** The kernel stack at [sp]: the words [kernelvec] saves lie in the page [pg]. *)
Record stack_at (P K : pt) (sp pa pg : Z) : Prop := {
  sa_data : data_at K (u64 (sp + -256)) pa pg save_tbl;
  sa_pg : pg ∉ tables P
}.

Lemma runs_in_vec K kroot h m : h_mode h = SMode -> h_csr h satp = MAKE_SATP kroot -> pt_rep kend m K kroot ->
  translate K kernelvec = Some (kernelvec, xflags) -> h_pc h = kernelvec -> runs_in kend K kroot (PGROUNDDOWN kernelvec) (h, m).
Proof. intros H1 H2 H3 H4 H5. split; cbn [fst]; try done; rewrite H5; [apply Hkv | eauto]. Qed.

(** The first half of [kernelvec]. *)
Lemma enter_vec i q P K kroot cause tval pa pg s : kernel_ok i q P K kroot s -> Z.testbit (h_csr (t_hart s) mstatus) 1 = true ->
  h_csr (t_hart s) stvec = kernelvec -> device_cause cause -> translate K kernelvec = Some (kernelvec, xflags) -> stack_at P K (h_reg (t_hart s) Reg.sp) pa pg ->
  let f := <[Reg.sp := u64 (h_reg (t_hart s) Reg.sp + -256)]> (h_reg (t_hart s)) in
  exists s', (th (trap cause tval);; at_pc kernelvec (zoom coreL (exec_block (PGROUNDDOWN kernelvec) Trampoline.kernelvec_save))) s = Ret tt s' /\
    kernel_ok i q P K kroot s' /\ tmem s' = saves pa f save_tbl (tmem s) /\ h_reg (t_hart s') = f /\ h_csr (t_hart s') sepc = h_pc (t_hart s) /\
    h_csr (t_hart s') scause = cause /\ h_csr (t_hart s') mstatus = trap_status SMode (h_csr (t_hart s) mstatus) /\
    h_csr (t_hart s') mhartid = h_csr (t_hart s) mhartid /\ s' = with_core (t_hart s') (tmem s') s.
Proof.
  intros Hk Hsie Hsv Hc Ht Hst f. pose proof Hk as [H1 H2 H3 H4 H5 H6 H7]. set (h := t_hart s) in *. set (m := tmem s) in *.
  set (h1 := Hart SMode (Z.ldiff (h_csr h stvec) 3) (h_reg h)
      (<[mstatus := trap_status (h_mode h) (h_csr h mstatus)]> (<[sepc := h_pc h]> (<[scause := cause]> (<[stval := tval]> (h_csr h)))))).
  assert (h_pc h1 = kernelvec) as Epc by (simpl; rewrite Hsv; apply kernelvec_base).
  set (h2 := set_reg Reg.sp (u64 (h_reg h Reg.sp + -256)) h1).
  pose proof (runs_in_vec K kroot h1 m eq_refl H4 (sp_k _ _ _ _ _ _ _ _ H2) Ht Epc) as Hr1.
  pose proof (runs_in_vec K kroot h2 m eq_refl H4 (sp_k _ _ _ _ _ _ _ _ H2) Ht Epc) as Hr2.
  destruct (exec_saves kend Hend K kroot (PGROUNDDOWN kernelvec) Reg.sp pa pg save_tbl h2 m [] Hr2 (sa_data _ _ _ _ _ Hst)) as [Es _].
  exists (with_core h2 (saves pa (h_reg h2) save_tbl m) s). split.
  { rewrite <- (with_core_id s) at 1. fold h m. erewrite bind_ret; [|apply eval_th; unfold trap; rewrite enters_kernel by done; reflexivity]. fold h1.
    rewrite eval_at_pc by exact Epc. unfold zoom. cbn [view coreL]. change (kmemory (t_k _)) with m. change (t_hart (with_core h1 m s)) with h1.
    rewrite save_code. rewrite (exec_plain kend Hend K kroot _ _ h1 m h2 m) by done. rewrite Es. reflexivity. }
  split_and!; try done.
  - destruct Hst as [[S1 S2 S3] S4]. split; try done.
    + assert (only_page pg m (saves pa (h_reg h2) save_tbl m)) as Ho by (apply saves_page; [done|]; eapply Forall_impl; [exact S3|]; simpl; tauto).
      destruct H2 as [A1 A2 A3 A4 A5 A6 A7 A8]. split; try done; [exact (rep_page kend _ _ _ _ pg A1 S4 Ho) | exact (rep_page kend _ _ _ _ pg A2 S1 Ho)].
    + destruct H5 as [D1 D2 D3]. by split.
  - simpl. by rewrite H3.
Qed.

Lemma data_at_sub P b pa pg t1 t2 : t1 ⊆ t2 -> data_at P b pa pg t2 -> data_at P b pa pg t1.
Proof. intros Hs [D1 D2 D3]. split; try done. rewrite Forall_forall in *. auto. Qed.

(** The second half of [kernelvec]. *)
Lemma leave_vec K kroot page pa pg h m : runs_in kend K kroot page (h, m) -> data_at K (h_reg h Reg.sp) pa pg restore_tbl ->
  ld64 m (pa + 8) = h_reg h Reg.sp -> Z.testbit (h_csr h mstatus) 8 = true ->
  exec_block page Trampoline.kernelvec_restore (h, m) =
    Ret tt (Hart SMode (h_csr h sepc) (<[Reg.sp := u64 (h_reg h Reg.sp + 256)]> (loads pa m restore_tbl (h_reg h)))
              (<[mstatus := sret_status (h_csr h mstatus)]> (h_csr h)), m).
Proof.
  intros Hr Hd Hsp Hspp. rewrite restore_code.
  destruct (exec_loads kend Hend K kroot page Reg.sp pa pg restore_tbl h m [Addi Reg.sp Reg.sp 256; Sret] Hr Hd) as [-> Hr2].
  { apply Forall_forall. intros [r o] Hx Er. assert (Forall (fun x => x.1 = Reg.sp -> x.2 = 8) restore_tbl) as Hf by (apply (bool_decide_eq_true_1 _); by vm_compute).
    rewrite Forall_forall in Hf. rewrite (Hf _ Hx Er). exact Hsp. }
  set (F := loads pa m restore_tbl (h_reg h)) in *.
  assert (F Reg.sp = h_reg h Reg.sp) as EF.
  { unfold F. rewrite (loads_in pa m restore_tbl _ Reg.sp 8); [done| |apply save_tbl_2]. apply (bool_decide_eq_true_1 _). by vm_compute. }
  set (h2 := set_reg Reg.sp (u64 (h_reg h Reg.sp + 256)) (set_regs F h)).
  rewrite (exec_plain kend Hend K kroot _ _ _ _ h2 m _ Hr2).
  2: { cbn [exec]. erewrite bind_ret by reflexivity. cbn [fst h_reg set_regs]. by rewrite EF. }
  rewrite (fetch_ok kend Hend K kroot) by (by apply runs_in_reg). erewrite bind_ret; [reflexivity|].
  unfold exec, zoom, sret. cbn [view hart_coreL fst]. rewrite decide_True by apply Hr. cbn [h_csr set_reg set_regs h2]. rewrite Hspp. reflexivity.
Qed.

(** C17: A device interrupt is invisible to the kernel code it interrupts.  When a process
    is interrupted in the kernel with interrupts on, [kernelvec] and [kerneltrap] return
    to the same place, in supervisor mode and with interrupts on again, with every
    register as it was except [tp], which is the number of the core it now runs on: also
    when the timer made it give up the processor and trap registers were overwritten.
    An external interrupt changes no memory but the interrupted stack's page. *)
Theorem kernel_interrupt_transparent i q P K kroot cause tval pa pg s :
  kernel_ok i q P K kroot s -> regs64 (t_hart s) -> Z.testbit (h_csr (t_hart s) mstatus) 1 = true -> h_csr (t_hart s) stvec = kernelvec ->
  device_cause cause -> devices_ready s -> translate K kernelvec = Some (kernelvec, xflags) -> stack_at P K (h_reg (t_hart s) Reg.sp) pa pg ->
  resumes i q P K kroot pg ->
  exists q' s', kernel_trap_ cause tval s = Ret tt s' /\ kernel_ok i q' P K kroot s' /\
    p_trapframe q' = p_trapframe q /\ p_pagetable q' = p_pagetable q /\ p_kstack q' = p_kstack q /\
    h_pc (t_hart s') = h_pc (t_hart s) /\ Z.testbit (h_csr (t_hart s') mstatus) 1 = true /\
    (forall r, (1 <= r <= 31)%nat -> r <> Reg.tp -> h_reg (t_hart s') r = h_reg (t_hart s) r) /\
    (cause = CAUSE_EXTERNAL -> only_page pg (tmem s) (tmem s')).
Proof.
  intros Hk Hregs Hsie Hsv Hc Hd Ht Hst Hres. set (sp := h_reg (t_hart s) Reg.sp) in *.
  destruct (enter_vec i q P K kroot cause tval pa pg s Hk Hsie Hsv Hc Ht Hst) as (s1 & E1 & Hk1 & Em & Ef & Ee & Ec & Es & Eid & Ew). fold sp in Em, Ef.
  set (f := <[Reg.sp := u64 (sp + -256)]> (h_reg (t_hart s))) in *. destruct (trap_status_kernel _ Hsie) as (T1 & T2 & T3). rewrite <- Es in T1, T2, T3.
  destruct (kerneltrap_ok i q P K kroot pg s1 cause Hk1 T1 T2 Ec Hc) as (q' & s2 & E2 & Hk2 & R1 & R2 & R3 & R4 & R5 & R6 & R7 & R8); [|done|].
  { rewrite Ew. by apply devices_ready_core. }
  set (h3 := set_pc kernelvec (set_regs (fun r => if Trampoline.callee_saved r then h_reg (t_hart s1) r else if decide (r = Reg.tp) then h_reg (t_hart s2) r else junk r) (t_hart s2))).
  assert (h_reg h3 Reg.sp = u64 (sp + -256)) as Esp by (change (h_reg h3 Reg.sp) with (h_reg (t_hart s1) Reg.sp); by rewrite Ef).
  destruct Hst as [Hda Hpg]. destruct save_tbl_2 as (N1 & N2 & N3 & N4).
  assert (forall r o, (r, o) ∈ save_tbl -> ld64 (tmem s2) (pa + o) = f r) as Hw.
  { intros r o Hro. rewrite (ld64_ext (tmem s1)).
    - rewrite Em, (ld_saves pa f save_tbl _ r) by done. apply u64_small. unfold f. destruct (decide (r = Reg.sp)) as [->|]; [rewrite fn_lookup_insert; apply u64_range|].
      rewrite fn_lookup_insert_ne by done. apply Hregs.
    - intros a Ha. apply R7. destruct Hda as [_ D2 D3]. rewrite Forall_forall in D3. destruct (D3 _ Hro) as (_ & _ & D4). cbn [snd] in D4. apply PGROUNDDOWN_in; [done|lia]. }
  pose proof (runs_in_vec K kroot h3 (tmem s2) (ko_mode _ _ _ _ _ _ Hk2) (ko_satp _ _ _ _ _ _ Hk2) (sp_k _ _ _ _ _ _ _ _ (ko_spaces _ _ _ _ _ _ Hk2)) Ht eq_refl) as Hr3.
  assert (ld64 (tmem s2) (pa + 8) = h_reg h3 Reg.sp) as E8 by (rewrite Esp, (Hw Reg.sp 8); [done|apply (bool_decide_eq_true_1 _); by vm_compute]).
  pose proof (leave_vec K kroot _ pa pg h3 (tmem s2) Hr3 ltac:(rewrite Esp; by eapply data_at_sub) E8 R2) as El.
  eexists q', _. split.
  { unfold kernel_trap. rewrite <- bind_assoc. erewrite bind_ret by exact E1.
    erewrite (bind_ret _ _ s1 tt (set_th h3 s2)).
    - unfold zoom. cbn [view coreL]. change (t_hart (set_th h3 s2)) with h3. change (kmemory (t_k (set_th h3 s2))) with (tmem s2). rewrite El. reflexivity.
    - unfold call_kerneltrap. erewrite (bind_ret _ _ s1 (h_reg (t_hart s1)) s1) by (by destruct s1). erewrite bind_ret by exact E2. apply eval_th_put. reflexivity. }
  cbn [put coreL fst snd t_hart t_k h_pc h_csr]. split_and!; try done.
  - destruct Hk2 as [H1 H2 H3 H4 H5 H6 H7]. split; try done.
    destruct H5 as [D1 D2 D3]. by split.
  - change (h_csr h3 sepc) with (h_csr (t_hart s2) sepc). by rewrite R1, Ee.
  - rewrite fn_lookup_insert. unfold sret_status. rewrite !put_bit_spec by lia. change (Z.testbit (h_csr (t_hart s2) mstatus) 5 = true). by rewrite R3.
  - intros r Hr Hne. cbn [h_reg]. destruct (decide (r = Reg.sp)) as [->|Hns].
    + rewrite fn_lookup_insert, Esp. unfold u64 at 1 2. rewrite Zplus_mod_idemp_l. replace (sp + -256 + 256) with sp by lia. apply u64_small, Hregs.
    + rewrite fn_lookup_insert_ne by done. destruct (restored r Hr Hne) as [[o Ho]|(Hn & Hcs & _)].
      * rewrite (loads_in pa _ restore_tbl _ r o) by done. rewrite (Hw r o) by auto. unfold f. by rewrite fn_lookup_insert_ne.
      * rewrite loads_ne by done. change (h_reg h3 r) with (if Trampoline.callee_saved r then h_reg (t_hart s1) r else if decide (r = Reg.tp) then h_reg (t_hart s2) r else junk r).
        rewrite Hcs, Ef. unfold f. by rewrite fn_lookup_insert_ne.
  - intros Ex. change (only_page pg (tmem s) (tmem s2)). rewrite (R8 Ex), Em. destruct Hda as [_ D2 D3]. apply saves_page; [done|].
    eapply Forall_impl; [exact D3|]. simpl. tauto.
Qed.
End Spec.

(** ** The address spaces of the process table *)

(** Every process in use has the address space the trap code needs, by the invariant of
    the process table, next to any kernel page table that maps the trampoline and is
    apart from its trapframe. *)
Lemma table_spaces kend trampoline s Ps free i p P K kroot : KERNBASE <= kend <= PHYSTOP -> 0 <= trampoline < 2 ^ 56 - PGSIZE /\ trampoline mod PGSIZE = 0 ->
  pinv kend trampoline s Ps free -> procs s !! i = Some p -> Ps !! i = Some (Some P) ->
  pt_rep kend (kmem_mem (km s)) K kroot -> translate K TRAMPOLINE = Some (trampoline, xflags) -> p_trapframe p ∉ tables K ->
  spaces kend trampoline P K (p_pagetable p) kroot (p_trapframe p) (kmem_mem (km s)).
Proof.
  intros Hend Ht Hi Hp HP Hk Hkt Hn. pose proof (pi_slot _ _ _ _ _ Hi i p (Some P) Hp HP) as [_ Hu (T1 & T2 & _) _ Htf].
  destruct (slot_split kend trampoline s Ps free i p (Some P) Hi Hp HP) as (rest & Hperm & _ & _). pose proof (pi_sep _ _ _ _ _ Hi) as Hsep.
  rewrite Hperm in Hsep. apply NoDup_app in Hsep as [Hsep _]. apply NoDup_app in Hsep as [Hsep _]. apply NoDup_cons in Hsep as [Hno _].
  split; try done.
  - apply Hu.
  - unfold translate. change (TRAPFRAME / PGSIZE) with FRAME_VPN. rewrite T2. pose proof (page_ok_bounds kend Hend _ Htf). unfold frame_pte.
    rewrite mkpte_pa, mkpte_flags by (done || apply Htf || lia). change (TRAPFRAME mod PGSIZE) with 0. by rewrite Z.add_0_r.
  - unfold translate. change (TRAMPOLINE / PGSIZE) with TRAMP_VPN. rewrite T1. unfold tramp_pte.
    rewrite mkpte_pa, mkpte_flags by (done || apply Ht || (unfold PGSIZE in *; lia)). change (TRAMPOLINE mod PGSIZE) with 0. by rewrite Z.add_0_r.
  - intros Hin. apply Hno. unfold owned. apply elem_of_app. by left.
Qed.

(** ** A machine *)

(** Checking by computation that a memory holds a page table. *)
Definition leaf_check (kv : Z * Z) (P : pt) : bool :=
  let '(k, v) := kv in let pa := pte_page v in let f := PTE_FLAGS v in
  (v =? mkpte pa f) && (0 <=? pa) && (pa <? 2 ^ 56) && (pa mod PGSIZE =? 0) && (0 <=? f) && (f <? 1024) && has f PTE_V &&
  (0 <=? k) && (k <? VPNS) && bool_decide (is_Some (tabs P !! (0%nat, k / 512))).
Definition tab_check (kend : Z) (m : mem) (x : nat * Z * Z) (P : pt) : bool :=
  let '((l, k), p) := x in
  (p mod PGSIZE =? 0) && (kend <=? p) && (p <? PHYSTOP) &&
  (bool_decide (l = 2%nat /\ k = 0) || bool_decide ((l < 2)%nat /\ is_Some (tabs P !! (S l, k / 512)))) &&
  forallb (fun j => ld64 m (p + 8 * j) =? entry P l (k * 512 + j)) (seqZ 0 512).
Definition rep_check (kend : Z) (m : mem) (P : pt) (root : Z) : bool :=
  bool_decide (tabs P !! (2%nat, 0) = Some root) && bool_decide (NoDup (tables P)) &&
  forallb (fun x => tab_check kend m x P) (map_to_list (tabs P)) && forallb (fun x => leaf_check x P) (map_to_list (leaf P)).

Lemma rep_check_ok kend m P root : rep_check kend m P root = true -> pt_rep kend m P root.
Proof.
  unfold rep_check. intros [[[H1%bool_decide_eq_true H2%bool_decide_eq_true]%andb_true_iff H3]%andb_true_iff H4]%andb_true_iff.
  rewrite forallb_forall in H3, H4.
  assert (forall l k p, tabs P !! (l, k) = Some p -> tab_check kend m (l, k, p) P = true) as Ht.
  { intros l k p Hp. apply H3, list_elem_of_In. by apply elem_of_map_to_list. }
  split; [done| | | |].
  - intros l k p Hp. specialize (Ht l k p Hp). unfold tab_check in Ht. rewrite !andb_true_iff, orb_true_iff in Ht. unfold page_ok.
    destruct Ht as ((((? & ?) & ?) & [?%bool_decide_eq_true|?%bool_decide_eq_true]) & _); bcase; (split; [lia|]); tauto.
  - intros i j p Hi Hj. unfold tables in H2. assert (forall L : list (nat * Z * Z), NoDup (L.*2) -> (i, p) ∈ L -> (j, p) ∈ L -> i = j) as HL.
    { clear. induction L as [|x L IH]; intros Hnd Hi Hj; [by apply not_elem_of_nil in Hi|]. apply NoDup_cons in Hnd as [Hx Hnd].
      apply elem_of_cons in Hi as [<-|Hi]; apply elem_of_cons in Hj as [Ej|Hj]; simplify_eq; try done.
      - exfalso. apply Hx. apply list_elem_of_fmap. by exists (j, p).
      - exfalso. apply Hx. apply list_elem_of_fmap. by exists (i, p).
      - by apply IH. }
    apply (HL (map_to_list (tabs P))); [done|by apply elem_of_map_to_list|by apply elem_of_map_to_list].
  - intros k v Hv. specialize (H4 (k, v)). rewrite <- list_elem_of_In, elem_of_map_to_list in H4. specialize (H4 Hv). unfold leaf_check in H4. rewrite !andb_true_iff in H4.
    destruct H4 as (((((((((? & ?) & ?) & ?) & ?) & ?) & ?) & ?) & ?) & Hs%bool_decide_eq_true). bcase.
    split_and!; [exists (pte_page v), (PTE_FLAGS v); split_and!; (done || lia)|lia|lia|exact Hs].
  - intros l k p j Hp Hj. specialize (Ht l k p Hp). unfold tab_check in Ht. apply andb_true_iff in Ht as [_ Ht]. rewrite forallb_forall in Ht.
    apply Z.eqb_eq, (Ht j). apply list_elem_of_In, elem_of_seqZ. lia.
Qed.

(** A process in user mode, with its page table, the kernel's, and its kernel stack in
    memory; when it gives up the processor it comes back on core 1. *)
Module Demo.
Definition page (n : Z) : Z := boot_end + n * PGSIZE.
Definition tramp : Z := KERNBASE + 7 * PGSIZE.
Definition kvec : Z := KERNBASE + 2 * PGSIZE.
Definition utrap : Z := KERNBASE + 3 * PGSIZE.

(** Tables at pages 0 to 2 and 4 to 8, the trapframe in page 3, the stack in page 9. *)
Definition P : pt := Pt (list_to_map [((2%nat, 0), page 0); ((1%nat, 255), page 1); ((0%nat, 131071), page 2)])
  (list_to_map [(67108863, mkpte tramp xflags); (67108862, mkpte (page 3) kflags)]).
Definition K : pt := Pt (list_to_map [((2%nat, 0), page 4); ((1%nat, 255), page 5); ((0%nat, 131071), page 6); ((1%nat, 2), page 7); ((0%nat, 1024), page 8)])
  (list_to_map [(67108863, mkpte tramp xflags); (67108861, mkpte (page 9) kflags); (524290, mkpte kvec xflags)]).

Definition words : list (Z * Z) :=
  [(page 0 + 8 * 255, mkpte (page 1) PTE_V); (page 1 + 8 * 511, mkpte (page 2) PTE_V);
   (page 2 + 8 * 511, mkpte tramp xflags); (page 2 + 8 * 510, mkpte (page 3) kflags);
   (page 4 + 8 * 255, mkpte (page 5) PTE_V); (page 5 + 8 * 511, mkpte (page 6) PTE_V);
   (page 6 + 8 * 511, mkpte tramp xflags); (page 6 + 8 * 509, mkpte (page 9) kflags);
   (page 4 + 8 * 2, mkpte (page 7) PTE_V); (page 7 + 8 * 0, mkpte (page 8) PTE_V); (page 8 + 8 * 2, mkpte kvec xflags);
   (page 3 + 0, MAKE_SATP (page 4)); (page 3 + 8, KSTACK 0 + PGSIZE); (page 3 + 16, utrap)].
Definition m : mem := foldr (fun x m => st64 m x.1 x.2) ∅ words.

Lemma P_rep : pt_rep boot_end m P (page 0).
Proof. apply rep_check_ok. by vm_compute. Qed.
Lemma K_rep : pt_rep boot_end m K (page 4).
Proof. apply rep_check_ok. by vm_compute. Qed.

Definition q : proc := Proc Free RUNNING 0 0 0 1 None (KSTACK 0) 0 (page 0) (page 3) zero_context (replicate 16 None) None (replicate 16 0) 0.
Definition ps : list proc := q :: replicate 63 (Proc Free UNUSED 0 0 0 0 None 0 0 0 0 zero_context (replicate 16 None) None (replicate 16 0) 0).
Definition k (t : ksys) : @kstate ksys unit :=
  KState (FState (FSys t mkfs_sb Free [] (KProc ps 2 Free Free None (Some 0%nat) (Kmem Free 0 m))) Free [] ∅ tt) 0 Free [].

Definition csrs (c : csr) : Z :=
  match c with medeleg | mideleg => 65535 | mie => 546 | satp => MAKE_SATP (page 0) | stvec => TRAMPOLINE | time => 77 | _ => 0 end.
(** At an [ecall] of [getpid]. *)
Definition user_hart : hart := Hart UMode 64 (fun r => if decide (r = Reg.a7) then 11 else 7 * Z.of_nat r mod 256) csrs.
(** In the kernel: interrupts on, the stack pointer in the kernel stack. *)
Definition kernel_hart : hart :=
  Hart SMode (KERNBASE + 64) (<[Reg.sp := KSTACK 0 + 2048]> (<[Reg.tp := 0]> (h_reg user_hart)))
    (<[stvec := kvec]> (<[satp := MAKE_SATP (page 4)]> (<[mstatus := 2]> csrs))).

(** A disk interrupt is pending. *)
Definition pl : plic := Plic (<[PLIC_SENABLE 0 := 1026]> (<[PLIC + 4 := 1]> ∅)) [1] [].
Definition sys (h : hart) (t : ksys) : tsys := TSys h pl (cons_boot 1) (vsys0 [] ∅) (k t).

Definition others (i : nat) (s : @tsys ksys unit) : tsys :=
  match procs (kprocs (t_k s)) !! i with
  | Some p => TSys (Hart SMode 0 (<[Reg.tp := 1]> (fun _ => 13)) (<[mhartid := 1]> (<[sepc := 99]> (<[mstatus := 0]> (h_csr (t_hart s)))))) (t_plic s) (t_cons s) (t_disk s)
                (with_kproc (with_proc i (setp_state RUNNING p) (kprocs (t_k s))) (t_k s))
  | None => s
  end.

Lemma spaces_ok : spaces boot_end tramp P K (page 0) (page 4) (page 3) m.
Proof.
  split; [apply P_rep|apply K_rep|done|done|done|done| |]; apply (bool_decide_eq_true_1 (_ ∉ _)); by vm_compute.
Qed.

Lemma csrs_deleg h : (forall c, c = medeleg \/ c = mideleg \/ c = mie -> h_csr h c = csrs c) -> delegates h.
Proof.
  intros E. split; intros c Hc; rewrite E by tauto; simpl.
  - change 65535 with (Z.ones 16). apply Z.ones_spec_low. lia.
  - change 65535 with (Z.ones 16). apply Z.ones_spec_low. lia.
  - by destruct Hc as [-> |[-> | ->]].
Qed.

Lemma ready t h : h_csr h mhartid = 0 -> devices_ready 0 0 (sys h t).
Proof.
  intros E. split.
  - simpl. rewrite E. done.
  - eexists. vm_compute. reflexivity.
  - eexists. vm_compute. reflexivity.
  - split; try done. intros i p Hp. apply lookup_cons_Some in Hp as [[_ <-]|[_ Hp]]; [done|]. by apply lookup_replicate in Hp as [-> _].
  - done.
  - done.
Qed.

Lemma comes_back i pg (q0 : proc) kroot (P0 K0 : pt) : resumes boot_end tramp others i q0 P0 K0 kroot pg.
Proof.
  intros s1 Hk. pose proof Hk as [[Hc Hp] H2 H3 H4 H5 H6 H7]. unfold others. rewrite Hp.
  exists (setp_state RUNNING (setp_state RUNNABLE (setp_lock Held q0))). split_and!; try done.
  destruct (kernel_ok_proc boot_end tramp i _ (setp_state RUNNING (setp_state RUNNABLE (setp_lock Held q0))) P0 K0 kroot s1 Hk eq_refl eq_refl) as [Q1 Q2 _ _ _ _ _].
  split; try done. destruct H5 as [D1 D2 D3]. by split.
Qed.

Definition nodev (mj : Z) : option (Z -> Z -> Z -> M (@fstate ksys unit) Z) := None.
Definition trap_user (cause : Z) : M (@tsys ksys unit) unit :=
  user_trap boot_end tramp 0 0 0 0 demo_buf 0 0 0 0 0 0 0 0 0 0 0 nodev nodev tramp (tramp + 160) kvec utrap others (fun _ => 21) cause 0.

Lemma layout : (KERNBASE <= boot_end <= PHYSTOP) /\ tramp mod PGSIZE = 0 /\ (0 <= tramp - tramp < PGSIZE /\ (tramp - tramp) mod 4 = 0) /\
  0 <= tramp + 160 - tramp < PGSIZE /\ 0 <= utrap < 2 ^ 64 /\ (0 <= kvec < MAXVA /\ kvec mod 4 = 0).
Proof. vm_compute. intuition discriminate. Qed.

Lemma in_user t : user_ok boot_end tramp tramp utrap 0 q P K (page 4) (sys user_hart t).
Proof.
  split; try done; [apply spaces_ok|]. apply csrs_deleg. by intros c [->|[->| ->]].
Qed.

Lemma regs_ok : regs64 user_hart /\ regs64 kernel_hart.
Proof.
  assert (forall r, 0 <= h_reg user_hart r < 2 ^ 64) as Hu by (intros r; simpl; case_decide; [lia|]; pose proof (Z.mod_pos_bound (7 * Z.of_nat r) 256); lia).
  split; (split; [|by vm_compute]); [done|]. intros r. simpl. destruct (decide (r = Reg.sp)) as [->|]; [by rewrite fn_lookup_insert; vm_compute|].
  rewrite fn_lookup_insert_ne by done. destruct (decide (r = Reg.tp)) as [->|]; [by rewrite fn_lookup_insert|]. rewrite fn_lookup_insert_ne by done. apply Hu.
Qed.
End Demo.

Lemma interrupt_transparent_witness : exists t s', Demo.trap_user CAUSE_TIMER (Demo.sys Demo.user_hart t) = Ret tt s' /\
  h_pc (t_hart s') = 64 /\ h_reg (t_hart s') 31 = 217.
Proof.
  destruct demo_rep as [t _]. exists t. destruct Demo.layout as (L1 & L2 & L3 & L4 & L5 & _).
  destruct (interrupt_transparent boot_end Demo.tramp 0 0 0 0 demo_buf 0 0 0 0 0 0 0 0 0 0 0 Demo.nodev Demo.nodev Demo.tramp (Demo.tramp + 160) Demo.kvec Demo.utrap Demo.others (fun _ => 21)
    L1 L2 L3 L4 L5 0 Demo.q Demo.P Demo.K (Demo.page 4) CAUSE_TIMER 0 (Demo.sys Demo.user_hart t)) as [Hi _].
  - apply Demo.in_user.
  - apply Demo.regs_ok.
  - by right.
  - by apply Demo.ready.
  - destruct (Hi eq_refl) as (q' & s' & He & _ & _ & _ & _ & Hpc & Hr & _); [apply Demo.comes_back|].
    exists s'. split; [exact He|]. split; [exact Hpc|]. rewrite Hr by lia. reflexivity.
Defined.


Lemma syscall_trap_witness : exists t s', Demo.trap_user 8 (Demo.sys Demo.user_hart t) = Ret tt s' /\
  h_pc (t_hart s') = 68 /\ h_reg (t_hart s') Reg.a0 = 1 /\ h_reg (t_hart s') 31 = 217.
Proof.
  destruct demo_rep as [t _]. exists t. destruct Demo.layout as (L1 & L2 & L3 & L4 & L5 & _).
  destruct (syscall_trap boot_end Demo.tramp 0 0 0 0 demo_buf 0 0 0 0 0 0 0 0 0 0 0 Demo.nodev Demo.nodev Demo.tramp (Demo.tramp + 160) Demo.kvec Demo.utrap Demo.others (fun _ => 21)
    L1 L2 L3 L4 L5 0 Demo.q Demo.P Demo.K (Demo.page 4) 0 (Demo.sys Demo.user_hart t)) as (s1 & Hk & Hh & _ & _ & _ & Hs);
    [apply Demo.in_user|apply Demo.regs_ok|done|done|].
  pose proof (ko_runs _ _ _ _ _ _ _ _ Hk) as Hr. set (tf := p_trapframe Demo.q) in *.
  set (m' := st64 (tmem s1) (tf + tf_a0) (u64 1)).
  assert (ld64 (kmemory (t_k s1)) (tf + tf_a7) = 11) as E7 by (apply (hd_regs _ _ _ _ Hh 17); lia).
  destruct (Hs (with_mem m' (t_k s1)) Demo.q Demo.P) as [Hret _].
  - unfold syscall. erewrite bind_ret by (by apply (eval_me _ 0 Demo.q)). erewrite bind_ret by (by apply (eval_pget _ 0 Demo.q)).
    erewrite bind_ret by apply eval_ldq. fold tf. rewrite E7. change (sys_of (i32 11)) with (Some SYS_getpid). cbn [syscalls].
    rewrite bind_assoc. erewrite (bind_ret _ _ (t_k s1) 1 (t_k s1)).
    2: { unfold sys_getpid. erewrite bind_ret by (by apply (eval_me _ 0 Demo.q)). by erewrite (eval_pget _ 0 Demo.q). }
    rewrite bind_assoc. erewrite bind_ret by (by apply (eval_pget _ 0 Demo.q)). fold tf. erewrite bind_ret by apply eval_stq.
    erewrite bind_ret by (by apply (eval_pget _ 0 Demo.q)). reflexivity.
  - destruct Hk as [K1 K2 K3 K4 K5 K6 K7]. split; try done. apply (spaces_page _ _ _ _ _ _ _ (tmem s1)); [exact K2|].
    apply only_page_st64; by vm_compute.
  - done.
  - destruct (Hret eq_refl) as (s' & He & _ & Hpc & Hregs). exists s'. split; [exact He|]. rewrite Hpc, !Hregs by (unfold Reg.a0; lia). change (kmemory _) with m'. unfold m'.
    split_and!.
    + rewrite ld64_st64_ne by (unfold tf_epc, tf_a0; lia). exact (hd_epc _ _ _ _ Hh).
    + apply ld64_st64_eq.
    + rewrite ld64_st64_ne by (unfold tf_reg, tf_a0; lia). etransitivity; [apply (hd_regs _ _ _ _ Hh 31); lia|done].
Defined.

Lemma unexpected_trap_kills_witness : exists t s1, Demo.trap_user 13 (Demo.sys Demo.user_hart t) = tk (in_f (exit boot_end 0 (-1))) s1 /\
  runs (t_k s1) 0 (setp_killed 1 Demo.q) /\ forall s', Demo.trap_user 13 (Demo.sys Demo.user_hart t) <> Ret tt s'.
Proof.
  destruct demo_rep as [t _]. exists t. destruct Demo.layout as (L1 & L2 & L3 & L4 & L5 & _).
  destruct (unexpected_trap_kills boot_end Demo.tramp 0 0 0 0 demo_buf 0 0 0 0 0 0 0 0 0 0 0 Demo.nodev Demo.nodev Demo.tramp (Demo.tramp + 160) Demo.kvec Demo.utrap Demo.others (fun _ => 21)
    L1 L2 L3 L4 L5 0 Demo.q Demo.P Demo.K (Demo.page 4) 13 0 (Demo.sys Demo.user_hart t)) as (s1 & _ & _ & _ & _ & _ & _ & _ & _ & Hr & _ & He & Hn);
    [apply Demo.in_user|apply Demo.regs_ok|lia|lia|lia|done|done|].
  exists s1. split; [exact He|]. split; [exact Hr|exact Hn].
Defined.

Lemma kernel_interrupt_transparent_witness : exists t s',
  kernel_trap 0 0 0 Demo.kvec Demo.others (fun _ => 21) CAUSE_TIMER 0 (Demo.sys Demo.kernel_hart t) = Ret tt s' /\
  h_pc (t_hart s') = KERNBASE + 64 /\ h_reg (t_hart s') 31 = 217 /\ h_reg (t_hart s') Reg.sp = KSTACK 0 + 2048.
Proof.
  destruct demo_rep as [t _]. exists t. destruct Demo.layout as (L1 & L2 & L3 & L4 & L5 & L6).
  destruct (kernel_interrupt_transparent boot_end Demo.tramp 0 0 demo_buf 0 Demo.nodev Demo.nodev Demo.tramp (Demo.tramp + 160) Demo.kvec Demo.utrap Demo.others (fun _ => 21)
    L1 L2 L3 L4 L5 L6 0 Demo.q Demo.P Demo.K (Demo.page 4) CAUSE_TIMER 0 (Demo.page 9 + 1792) (Demo.page 9) (Demo.sys Demo.kernel_hart t)) as (q' & s' & He & _ & _ & _ & _ & Hpc & _ & Hr & _).
  - split; try done; [apply Demo.spaces_ok|]. apply Demo.csrs_deleg. by intros c [->|[->| ->]].
  - apply Demo.regs_ok.
  - done.
  - done.
  - by right.
  - by apply Demo.ready.
  - done.
  - split; [split|].
    + apply (bool_decide_eq_true_1 (_ ∉ _)). by vm_compute.
    + done.
    + apply (bool_decide_eq_true_1 (Forall _ _)). by vm_compute.
    + apply (bool_decide_eq_true_1 (_ ∉ _)). by vm_compute.
  - apply Demo.comes_back.
  - exists s'. split; [exact He|]. split; [exact Hpc|]. rewrite !Hr by (unfold Reg.sp, Reg.tp; lia). split; reflexivity.
Defined.
