(* ===== verification/Mkfs.v ===== *)
(** * Mkfs: the program that makes the file system image, [mkfs/mkfs.c]

    The image file is the list of its blocks: every access of the program is a whole
    block at a multiple of [BSIZE].  An input file is its name on the command line and
    what the successive calls of [read] return, up to the first that returns no bytes;
    [None] stands for a file that cannot be opened.  [die] and a failed [assert] end
    the program: they are panics here.  The host is little endian and its writes to the
    image succeed.  A [struct dinode] is an inode of [Fs], of which only the fields on
    disk matter. *)

From S2P Require Import Prelude CString Riscv Kalloc Vm Sleeplock BufCache Log Txn Proc Fs.

Definition FSSIZE : Z := 2000.
Definition NINODES : Z := 200.

(** The layout. *)
Definition nbitmap : Z := FSSIZE / BPB + 1.
Definition ninodeblocks : Z := NINODES / IPB + 1.
Definition nlog : Z := LOGSIZE.
Definition nmeta : Z := 2 + nlog + ninodeblocks + nbitmap.
Definition mk_nblocks : Z := FSSIZE - nmeta.

(** The image and the global variables. *)
Record mkstate := MkState {
  mk_img : list block;
  mk_sb : superblock;
  mk_freeinode : Z;
  mk_freeblock : Z
}.
Definition setm_img (x : list block) (s : mkstate) : mkstate := MkState x (mk_sb s) (mk_freeinode s) (mk_freeblock s).
Definition setm_sb (x : superblock) (s : mkstate) : mkstate := MkState (mk_img s) x (mk_freeinode s) (mk_freeblock s).
Definition setm_freeinode (x : Z) (s : mkstate) : mkstate := MkState (mk_img s) (mk_sb s) x (mk_freeblock s).
Definition setm_freeblock (x : Z) (s : mkstate) : mkstate := MkState (mk_img s) (mk_sb s) (mk_freeinode s) x.

Definition mk_bss : mkstate := MkState [] (SuperBlock 0 0 0 0 0 0 0 0) 1 0.

Record input := Input {
  in_name : list Z;
  in_reads : option (list (list Z))
}.

(** The bytes of the result are [x], [x >> 8], .. *)
Definition xshort (x : Z) : Z := le_join (le_split 2 x).
Definition xint (x : Z) : Z := le_join (le_split 4 x).

Definition die {A} (msg : string) : M mkstate A := panic msg.
Definition assert (b : bool) : M mkstate unit := if b then mret tt else panic "assert".

(** The block at offset [sec * BSIZE], an [uint]. *)
Definition sect (sec : Z) : nat := Z.to_nat (u32 (sec * BSIZE) / BSIZE).

(** Writing past the end leaves zeros between. *)
Definition wsect (sec : Z) (buf : block) : M mkstate unit :=
  modify (fun s =>
    let img := mk_img s in
    setm_img (if decide (sect sec < length img)%nat then <[sect sec := buf]> img
              else img ++ replicate (sect sec - length img) zero_block ++ [buf]) s).

Definition rsect (sec : Z) : M mkstate block := fun s =>
  match mk_img s !! sect sec with Some x => Ret x s | None => die "read" s end.

(** A [struct dinode] with every byte zero. *)
Definition dinode0 (inum : Z) : inode := Inode ROOTDEV inum 0 inhabitant false 0 0 0 0 0 (replicate (S NDIRECT) 0).

Definition winode (inum : Z) (ip : inode) : M mkstate unit :=
  sb ← gets mk_sb;
  let bn := u32 (IBLOCK inum sb) in
  buf ← rsect bn;
  wsect bn (put_dinode (di_base inum) ip buf).

Definition rinode (inum : Z) : M mkstate inode :=
  sb ← gets mk_sb;
  let bn := u32 (IBLOCK inum sb) in
  buf ← rsect bn;
  mret (get_dinode (di_base inum) buf (dinode0 inum)).

Definition ialloc (type : Z) : M mkstate Z :=
  inum ← gets mk_freeinode;
  modify (setm_freeinode (u32 (inum + 1)));;
  let din := dinode0 inum in
  let din := seti_type (i16 (xshort type)) din in
  let din := seti_nlink (i16 (xshort 1)) din in
  let din := seti_size (xint 0) din in
  winode inum din;;
  mret inum.

(** The bitmap whose first [used] bits are set. *)
Definition bitmap (used : nat) : block :=
  foldl (fun buf i => set_bit buf (Z.of_nat i)) zero_block (seq 0 used).

Definition balloc (used : Z) : M mkstate unit :=
  assert (used <? BPB);;
  sb ← gets mk_sb;
  wsect (sb_bmapstart sb) (bitmap (Z.to_nat used)).

(** [freeblock++]. *)
Definition new_block : M mkstate Z :=
  b ← gets mk_freeblock;
  modify (setm_freeblock (u32 (b + 1)));;
  mret b.

(** The block for block [fbn] of the file, allocated where there is none: the changed
    inode and the block. *)
Definition iappend_block (fbn : nat) (din : inode) : M mkstate (inode * Z) :=
  if decide (fbn < NDIRECT)%nat then
    din ← (if xint (i_addrs din !!! fbn) =? 0 then
             b ← new_block; mret (seti_addrs (<[fbn := xint b]> (i_addrs din)) din)
           else mret din);
    mret (din, xint (i_addrs din !!! fbn))
  else
    din ← (if xint (i_addrs din !!! NDIRECT) =? 0 then
             b ← new_block; mret (seti_addrs (<[NDIRECT := xint b]> (i_addrs din)) din)
           else mret din);
    let ind := xint (i_addrs din !!! NDIRECT) in
    let j := (4 * (fbn - NDIRECT))%nat in
    indirect ← rsect ind;
    indirect ← (if get_uint indirect j =? 0 then
                  b ← new_block;
                  let indirect := set_uint j (xint b) indirect in
                  wsect ind indirect;;
                  mret indirect
                else mret indirect);
    mret (din, xint (get_uint indirect j)).

Fixpoint iappend_loop (fuel : nat) (din : inode) (off : Z) (p : list Z) : M mkstate (inode * Z) :=
  match fuel with
  | O => fun _ => NoFuel
  | S fuel =>
    match p with
    | [] => mret (din, off)
    | _ =>
      let fbn := off / BSIZE in
      assert (fbn <? Z.of_nat MAXFILE);;
      '(din, x) ← iappend_block (Z.to_nat fbn) din;
      let n1 := Z.min (Z.of_nat (length p)) (u32 ((fbn + 1) * BSIZE - off)) in
      buf ← rsect x;
      wsect x (splice buf (Z.to_nat (off - fbn * BSIZE)) (take (Z.to_nat n1) p));;
      iappend_loop fuel din (u32 (off + n1)) (drop (Z.to_nat n1) p)
    end
  end.

(** Each round appends at least one byte. *)
Definition iappend (inum : Z) (p : list Z) : M mkstate unit :=
  din ← rinode inum;
  '(din, off) ← iappend_loop (S (length p)) din (xint (i_size din)) p;
  winode inum (seti_size (xint off) din).

(** A [struct dirent], cleared and filled in. *)
Definition dirent (inum : Z) (name : list Z) : list Z :=
  let name := take DIRSIZ name in
  le_split 2 (xshort inum) ++ name ++ replicate (DIRSIZ - length name) 0.

(** The name without "user/", and without a leading underscore. *)
Definition after_user (argv : list Z) : list Z :=
  if bool_decide (take 5 argv = bytes "user/") then drop 5 argv else argv.
Definition after_underscore (name : list Z) : list Z :=
  match name with c :: rest => if c =? chr "_" then rest else name | [] => name end.

(** One file of the command line. *)
Definition main_file (rootino : Z) (f : input) : M mkstate unit :=
  let shortname := after_user (in_name f) in
  assert (negb (existsb (Z.eqb (chr "/")) shortname));;
  match in_reads f with
  | None => die "open"
  | Some reads =>
    let shortname := after_underscore shortname in
    assert (length shortname <=? DIRSIZ)%nat;;
    inum ← ialloc T_FILE;
    iappend rootino (dirent inum shortname);;
    for_each (R := unit) reads (fun buf => iappend inum buf;; mret None);;
    mret tt
  end.

(** [argv1] is the image: [None] when there is no argument, [Some false] when it cannot
    be opened. *)
Definition main (argv1 : option bool) (files : list input) : M mkstate unit :=
  match argv1 with
  | None => panic "Usage: mkfs fs.img files..."
  | Some false => die "open"
  | Some true =>
    assert (BSIZE mod 64 =? 0);;
    assert (BSIZE mod sizeof_dirent =? 0);;
    modify (setm_img []);;
    modify (setm_sb (SuperBlock FSMAGIC (xint FSSIZE) (xint mk_nblocks) (xint NINODES) (xint nlog)
      (xint 2) (xint (2 + nlog)) (xint (2 + nlog + ninodeblocks))));;
    modify (setm_freeblock nmeta);;
    for_each (R := unit) (seq 0 (Z.to_nat FSSIZE)) (fun i => wsect (Z.of_nat i) zero_block;; mret None);;
    sb ← gets mk_sb;
    wsect 1 (splice zero_block 0 (concat (le_split 4 <$>
      [sb_magic sb; sb_size sb; sb_nblocks sb; sb_ninodes sb; sb_nlog sb; sb_logstart sb; sb_inodestart sb; sb_bmapstart sb])));;
    rootino ← ialloc T_DIR;
    assert (rootino =? ROOTINO);;
    iappend rootino (dirent rootino (bytes "."));;
    iappend rootino (dirent rootino (bytes ".."));;
    for_each (R := unit) files (fun f => main_file rootino f;; mret None);;
    din ← rinode rootino;
    let off := xint (i_size din) in
    let off := u32 ((off / BSIZE + 1) * BSIZE) in
    winode rootino (seti_size (xint off) din);;
    used ← gets mk_freeblock;
    balloc used
  end.
