(* ===== verification/MkfsSpec.v ===== *)
(** * MkfsSpec: the image [mkfs] makes

    [rep] relates the program's image to a view of the blocks in which the bitmap that
    is written last is already there, so that the growth of a file is the growth the
    kernel's files have ([grown], [written]).  [holds] says which files the volume has;
    every operation keeps it.  The finished image is a [volume]: its super block and
    empty log, the bitmap, the root directory with its entries, each file with its
    bytes, no block in two files.  The kernel mounts it, and reads from each file what
    was in the file it was made from. *)

From S2P Require Import Prelude CString Riscv Kalloc Vm UserMem Sleeplock BufCache Bio Log LogCrash Txn Proc Fs FsBlocks FsFiles FsInode FsIO FsSpec Mkfs.

(** ** The image as a volume *)

Definition blk_of (img : list block) (b : Z) : block :=
  if decide (b < 0) then zero_block else default zero_block (img !! Z.to_nat b).

(** The volume while it is made.  The bitmap is written last: until then the view has
    the one that [balloc] would write. *)
Record rep (s : mkstate) (v : tview) : Prop := {
  rp_sb : mk_sb s = mkfs_sb;
  rp_len : length (mk_img s) = 2000%nat;
  rp_free : 46 <= mk_freeblock s <= 2000;
  rp_blk : forall b, tv_blk v b = if decide (b = 45) then bitmap (Z.to_nat (mk_freeblock s)) else blk_of (mk_img s) b;
  rp_fresh : forall b, mk_freeblock s <= b < 2000 -> tv_blk v b = zero_block;
  rp_ok : blk_ok v
}.

Lemma bitmap_S n : bitmap (S n) = set_bit (bitmap n) (Z.of_nat n).
Proof. unfold bitmap. by rewrite seq_S, foldl_app. Qed.

Lemma bitmap_ok n : length (bitmap n) = Z.to_nat BSIZE /\ Forall byte_range (bitmap n).
Proof. induction n as [|n IH]; [apply zero_block_ok|]. rewrite bitmap_S. by apply set_bit_ok. Qed.

Lemma zero_clear c : 0 <= c < BPB -> bit_clear zero_block c = true.
Proof.
  intros Hc. unfold bit_clear. rewrite byte_at_zero by (unfold BPB, BSIZE in *; Z.to_euclidean_division_equations; lia). done.
Qed.

Lemma bitmap_clear n c : (n <= Z.to_nat BPB)%nat -> 0 <= c < BPB -> bit_clear (bitmap n) c = negb (c <? Z.of_nat n).
Proof.
  intros Hn Hc. induction n as [|n IH]; [rewrite (proj2 (Z.ltb_ge _ _)) by lia; by apply zero_clear|].
  rewrite bitmap_S, bit_clear_set; [|lia | lia |].
  - case_decide as E; [subst c; rewrite (proj2 (Z.ltb_lt _ _)) by lia; done|]. rewrite IH by lia.
    destruct (Z.ltb_spec c (Z.of_nat n)), (Z.ltb_spec c (Z.of_nat (S n))); (done || lia).
  - rewrite (proj1 (bitmap_ok n)). unfold BPB, BSIZE in *. Z.to_euclidean_division_equations. lia.
Qed.

Lemma rep_use s v c : rep s v -> 0 <= c < BPB -> in_use_blk mkfs_sb v c <-> c < mk_freeblock s.
Proof.
  intros [_ _ Hf Hb _ _] Hc. unfold in_use_blk. change (sb_bmapstart mkfs_sb) with 45. rewrite Hb, decide_True by done.
  rewrite bitmap_clear by (done || (unfold BPB, BSIZE; lia)). rewrite negb_false_iff, Z.ltb_lt. lia.
Qed.

Lemma rep_meta s v : rep s v -> meta_used mkfs_sb v.
Proof. intros Hr b Hb. simpl in Hb. apply (rep_use s); [done | unfold BPB, BSIZE; lia |]. pose proof (rp_free _ _ Hr). lia. Qed.

Lemma rep_unused s v : rep s v -> mk_freeblock s < 2000 -> ~ in_use_blk mkfs_sb v (mk_freeblock s).
Proof. intros Hr Hf. pose proof (rp_free _ _ Hr). rewrite (rep_use s) by (done || (unfold BPB, BSIZE; lia)). lia. Qed.

Lemma sect_small b : 0 <= b < 2000 -> sect b = Z.to_nat b.
Proof. intros Hb. unfold sect, u32, BSIZE. rewrite Z.mod_small by lia. by rewrite Z.div_mul. Qed.

Lemma rsect_rep s v b : rep s v -> 0 <= b < 2000 -> b <> 45 -> rsect b s = Ret (tv_blk v b) s.
Proof.
  intros [_ Hl _ Hb _ _] Hr Hne. unfold rsect. rewrite sect_small by done.
  destruct (lookup_lt_is_Some_2 (mk_img s) (Z.to_nat b)) as [x Hx]; [lia|].
  rewrite Hx, Hb, decide_False by done. unfold blk_of. rewrite decide_False, Hx by lia. done.
Qed.

Definition put_block (b : Z) (x : block) (s : mkstate) : mkstate := setm_img (<[Z.to_nat b := x]> (mk_img s)) s.

Lemma blk_of_insert img b x c : 0 <= b < Z.of_nat (length img) ->
  blk_of (<[Z.to_nat b := x]> img) c = if decide (c = b) then x else blk_of img c.
Proof.
  intros Hb. unfold blk_of. destruct (decide (c < 0)); [by rewrite decide_False by lia|]. case_decide as E.
  - subst c. by rewrite list_lookup_insert_eq by lia.
  - by rewrite list_lookup_insert_ne by lia.
Qed.

Lemma wsect_rep s v b x : rep s v -> 0 <= b < mk_freeblock s -> b <> 45 -> length x = Z.to_nat BSIZE /\ Forall byte_range x ->
  wsect b x s = Ret tt (put_block b x s) /\ rep (put_block b x s) (record b x v).
Proof.
  intros [K1 K2 K3 K4 K5 K6] Hb Hne Hx. split.
  - unfold wsect, modify. rewrite sect_small, decide_True by lia. done.
  - split; try done.
    + cbn. by rewrite length_insert.
    + intros c. cbn [record tv_blk put_block setm_img mk_img mk_freeblock]. unfold upd_blk. rewrite blk_of_insert by lia.
      repeat case_decide; try done; try lia; rewrite K4; [by rewrite decide_True | by rewrite decide_False].
    + intros c Hc. cbn in Hc |- *. unfold upd_blk. rewrite decide_False by lia. by apply K5.
    + by apply blk_ok_record.
Qed.

Definition took (s : mkstate) : mkstate := setm_freeblock (mk_freeblock s + 1) s.

Lemma new_block_rep s v : rep s v -> mk_freeblock s < 2000 ->
  new_block s = Ret (mk_freeblock s) (took s) /\ rep (took s) (allocated mkfs_sb (mk_freeblock s) v).
Proof.
  intros Hr Hf. pose proof Hr as [K1 K2 K3 K4 K5 K6]. split.
  - unfold new_block. do 2 erewrite bind_ret by reflexivity. unfold took. rewrite u32_small by lia. done.
  - split; try done.
    + cbn. lia.
    + intros c. rewrite allocated_blk by (simpl; lia). change (sb_bmapstart mkfs_sb) with 45. cbn [took setm_freeblock mk_freeblock mk_img].
      destruct (decide (c = mk_freeblock s)) as [->|Hc].
      * rewrite decide_False by lia. rewrite <- (K5 (mk_freeblock s)) by lia. rewrite K4, decide_False by lia. done.
      * case_decide as E; [|by rewrite K4, decide_False]. rewrite K4, decide_True by done.
        replace (Z.to_nat (mk_freeblock s + 1)) with (S (Z.to_nat (mk_freeblock s))) by lia. rewrite bitmap_S, Z2Nat.id by lia. done.
    + intros c. cbn [took setm_freeblock mk_freeblock]. intros Hc. rewrite allocated_blk by (simpl; lia).
      change (sb_bmapstart mkfs_sb) with 45. rewrite !decide_False by lia. apply K5. lia.
    + by apply allocated_ok.
Qed.

(** ** Inodes *)

Lemma inode_block inum : 0 <= inum < 200 -> u32 (IBLOCK inum mkfs_sb) = IBLOCK inum mkfs_sb /\ 32 <= IBLOCK inum mkfs_sb < 45.
Proof. intros Hi. unfold IBLOCK, IPB. simpl. assert (0 <= inum / 16 < 13) by (Z.to_euclidean_division_equations; lia). split; [apply u32_small|]; lia. Qed.

Lemma rinode_rep s v inum : rep s v -> 0 <= inum < 200 -> rinode inum s = Ret (disk_inode mkfs_sb v inum (dinode0 inum)) s.
Proof.
  intros Hr Hi. destruct (inode_block inum Hi) as [E Hb]. unfold rinode. erewrite bind_ret by reflexivity.
  rewrite (rp_sb _ _ Hr), E. erewrite bind_ret by (apply (rsect_rep s v); [done | lia | lia]). done.
Qed.

Lemma winode_rep s v inum din : rep s v -> 0 <= inum < 200 -> i_inum din = inum -> length (i_addrs din) = S NDIRECT ->
  exists s', winode inum din s = Ret tt s' /\ rep s' (updated mkfs_sb din v) /\
    mk_freeinode s' = mk_freeinode s /\ mk_freeblock s' = mk_freeblock s.
Proof.
  intros Hr Hi En Hl. destruct (inode_block inum Hi) as [E Hb]. unfold winode. erewrite bind_ret by reflexivity.
  rewrite (rp_sb _ _ Hr), E. erewrite bind_ret by (apply (rsect_rep s v); [done | lia | lia]). pose proof (rp_free _ _ Hr). pose proof (rp_ok _ _ Hr) as Hv.
  destruct (wsect_rep s v (IBLOCK inum mkfs_sb) (put_dinode (di_base inum) din (tv_blk v (IBLOCK inum mkfs_sb))) Hr) as [Ew Hr']; [lia | lia | |].
  { pose proof (di_base_range inum). apply put_dinode_ok; [done | by rewrite (proj1 (Hv _)) | apply Hv]. }
  eexists. split; [exact Ew|]. unfold updated. rewrite En. split_and!; [exact Hr' | done | done].
Qed.

(** ** One block of a file *)

(** The blocks a file of [size] bytes has: those its bytes are in, and the indirect
    block when they go beyond the direct ones. *)
Definition start_of (o : option nat) : Z := match o with Some bn => Z.of_nat bn * BSIZE | None => Z.of_nat NDIRECT * BSIZE end.
Definition sized (v : tview) (a : list Z) (size : Z) : Prop := forall o, slot_in o -> own v a o <> 0 <-> start_of o < size.

(** The blocks to allocate for the byte at [off] of a file that ends there. *)
Definition extra (off : Z) : Z := (if off mod BSIZE =? 0 then 1 else 0) + (if off =? Z.of_nat NDIRECT * BSIZE then 1 else 0).

Lemma addr_xint v a i : ino_ok mkfs_sb v a -> (i <= NDIRECT)%nat -> xint (a !!! i) = a !!! i.
Proof.
  intros Hok Hi. pose proof (ino_ok_addrs mkfs_sb mkfs_geom v a Hok) as Ha. destruct (lookup_lt_is_Some_2 a i) as [x Hx]; [rewrite (io_len _ _ _ Hok); lia|].
  rewrite (list_lookup_total_correct _ _ _ Hx). apply u32_split. exact (Forall_lookup_1 _ _ _ _ Ha Hx).
Qed.

(** Entering the first free block in the inode. *)
Lemma entry_rep s v a i : rep s v -> ino_ok mkfs_sb v a -> (i <= NDIRECT)%nat -> a !!! i = 0 -> mk_freeblock s < 2000 ->
  let b := mk_freeblock s in
  xint b = b /\ new_block s = Ret b (took s) /\ rep (took s) (allocated mkfs_sb b v) /\ grown mkfs_sb v (allocated mkfs_sb b v) a (<[i := b]> a) /\
  forall o, slot_in o -> own (allocated mkfs_sb b v) (<[i := b]> a) o = if decide (o = if decide (i = NDIRECT) then None else Some i) then b else own v a o.
Proof.
  intros Hr Hok Hi Hz Hf b. unfold b. clear b. pose proof (rp_free _ _ Hr) as Hb. destruct (new_block_rep s v Hr Hf) as [En Hr']. pose proof (rep_unused s v Hr Hf) as Hn.
  split_and!; try done.
  - apply u32_split. lia.
  - apply (grown_entry mkfs_sb mkfs_geom); try done; [apply Hr | by eapply rep_meta | simpl; lia].
  - apply (own_entry mkfs_sb mkfs_geom); try done. simpl. lia.
Qed.

Lemma iappend_direct s v din off : rep s v -> ino_ok mkfs_sb v (i_addrs din) -> sized v (i_addrs din) off ->
  0 <= off < Z.of_nat NDIRECT * BSIZE -> mk_freeblock s + extra off <= 2000 ->
  let fbn := Z.to_nat (off / BSIZE) in
  exists s' v' a', iappend_block fbn din s = Ret (seti_addrs a' din, blkno v' a' fbn) s' /\
    rep s' v' /\ grown mkfs_sb v v' (i_addrs din) a' /\ sized v' a' (off + 1) /\
    mk_freeblock s' = mk_freeblock s + extra off /\ mk_freeinode s' = mk_freeinode s.
Proof.
  intros Hr Hok Hex Hoff Hf fbn. unfold NDIRECT, BSIZE in Hoff. assert (Z.of_nat fbn = off / 1024 /\ (fbn < 12)%nat) as [Efb Hlt] by (unfold fbn, BSIZE; Z.to_euclidean_division_equations; lia).
  assert (forall w b, blkno w b fbn = b !!! fbn) as Hblk by (intros; unfold blkno; by rewrite decide_True by (unfold NDIRECT; lia)).
  unfold iappend_block. rewrite decide_True by (unfold NDIRECT; lia). rewrite (addr_xint v) by (done || (unfold NDIRECT; lia)).
  pose proof (Hex (Some fbn) ltac:(simpl; unfold MAXFILE, NDIRECT; lia)) as Hfb. cbn [own start_of] in Hfb. rewrite Hblk in Hfb. unfold BSIZE in Hfb.
  unfold extra, NDIRECT, BSIZE in Hf |- *. rewrite (proj2 (Z.eqb_neq off (Z.of_nat 12 * 1024))) in * by lia.
  destruct (Z.eqb_spec (i_addrs din !!! fbn) 0) as [Hz|Hnz].
  - assert (off mod 1024 = 0 /\ off = Z.of_nat fbn * 1024) as [Em Eo] by (Z.to_euclidean_division_equations; lia). rewrite Em in *. simpl in Hf |- *.
    destruct (entry_rep s v (i_addrs din) fbn Hr Hok ltac:(unfold NDIRECT; lia) Hz ltac:(lia)) as (Ex & En & Hr' & Hgr & Hown).
    pose proof (rp_free _ _ Hr). set (b := mk_freeblock s) in *. exists (took s), (allocated mkfs_sb b v), (<[fbn := b]> (i_addrs din)). split_and!; try done.
    + rewrite bind_assoc. erewrite bind_ret by exact En. erewrite bind_ret by reflexivity. rewrite Ex. cbn [seti_addrs i_addrs].
      rewrite Hblk, (addr_xint (allocated mkfs_sb b v)); [done | apply Hgr | unfold NDIRECT; lia].
    + intros o Hs. rewrite Hown by done. rewrite (decide_False (P := fbn = NDIRECT)) by (unfold NDIRECT; lia).
      destruct (decide (o = Some fbn)) as [->|Ho]; [cbn [start_of]; unfold BSIZE; lia|].
      rewrite (Hex o Hs). destruct o as [bn|]; cbn [start_of]; unfold NDIRECT, BSIZE; [|lia]. assert (bn <> fbn) by congruence. lia.
  - assert (off mod 1024 <> 0) as Hm by (Z.to_euclidean_division_equations; lia). rewrite (proj2 (Z.eqb_neq _ _) Hm) in *.
    exists s, v, (i_addrs din). split_and!; try done; [| apply grown_refl; [apply Hr | by eapply rep_meta | done] | | lia].
    + erewrite bind_ret by reflexivity. rewrite Hblk, (addr_xint v) by (done || (unfold NDIRECT; lia)). by destruct din.
    + intros o Hs. rewrite (Hex o Hs). destruct o as [bn|]; cbn [start_of]; unfold NDIRECT, BSIZE; [|lia]. Z.to_euclidean_division_equations. lia.
Qed.

(** The indirect block: it is allocated with the first block that needs it. *)
Lemma iappend_ind s v din off : rep s v -> ino_ok mkfs_sb v (i_addrs din) -> sized v (i_addrs din) off ->
  Z.of_nat NDIRECT * BSIZE <= off -> mk_freeblock s + (if off =? Z.of_nat NDIRECT * BSIZE then 1 else 0) <= 2000 ->
  exists s' v' a', (if xint (i_addrs din !!! NDIRECT) =? 0 then
      b ← new_block; mret (seti_addrs (<[NDIRECT := xint b]> (i_addrs din)) din) else mret din) s = Ret (seti_addrs a' din) s' /\
    rep s' v' /\ grown mkfs_sb v v' (i_addrs din) a' /\ a' !!! NDIRECT <> 0 /\
    (forall bn, (bn < MAXFILE)%nat -> blkno v' a' bn = blkno v (i_addrs din) bn) /\
    mk_freeblock s' = mk_freeblock s + (if off =? Z.of_nat NDIRECT * BSIZE then 1 else 0) /\ mk_freeinode s' = mk_freeinode s.
Proof.
  intros Hr Hok Hex Hoff Hf. rewrite (addr_xint v) by done. pose proof (Hex None I) as Hi. cbn [own start_of] in Hi.
  destruct (Z.eqb_spec (i_addrs din !!! NDIRECT) 0) as [Hz|Hnz].
  - assert (off = Z.of_nat NDIRECT * BSIZE) as Eo by lia. rewrite (proj2 (Z.eqb_eq _ _) Eo) in *.
    destruct (entry_rep s v (i_addrs din) NDIRECT Hr Hok ltac:(lia) Hz ltac:(lia)) as (Ex & En & Hr' & Hgr & Hown).
    pose proof (rp_free _ _ Hr). set (b := mk_freeblock s) in *.
    exists (took s), (allocated mkfs_sb b v), (<[NDIRECT := b]> (i_addrs din)). split_and!; try done.
    + erewrite bind_ret by exact En. by rewrite Ex.
    + rewrite list_lookup_total_insert_eq; [lia|]. rewrite (io_len _ _ _ Hok). lia.
    + intros bn Hbn. pose proof (Hown (Some bn) Hbn) as E. cbn [own] in E. rewrite E. by rewrite decide_False.
  - rewrite (proj2 (Z.eqb_neq off _)) by lia. exists s, v, (i_addrs din).
    split_and!; try done; [by destruct din | apply grown_refl; [apply Hr | by eapply rep_meta | done] | lia].
Qed.

(** The data block below it. *)
Lemma iappend_word s v a j : rep s v -> ino_ok mkfs_sb v a -> a !!! NDIRECT <> 0 -> (j < NINDIRECT)%nat ->
  mk_freeblock s + (if blkno v a (NDIRECT + j) =? 0 then 1 else 0) <= 2000 ->
  let ind := a !!! NDIRECT in
  rsect ind s = Ret (tv_blk v ind) s /\
  exists s' v' x, (if get_uint (tv_blk v ind) (4 * j) =? 0 then
        b ← new_block; let indirect := set_uint (4 * j) (xint b) (tv_blk v ind) in wsect ind indirect;; mret indirect
      else mret (tv_blk v ind)) s = Ret x s' /\ xint (get_uint x (4 * j)) = blkno v' a (NDIRECT + j) /\
    rep s' v' /\ grown mkfs_sb v v' a a /\ blkno v' a (NDIRECT + j) <> 0 /\
    (forall o, slot_in o -> o <> Some (NDIRECT + j)%nat -> own v' a o = own v a o) /\
    mk_freeblock s' = mk_freeblock s + (if blkno v a (NDIRECT + j) =? 0 then 1 else 0) /\ mk_freeinode s' = mk_freeinode s.
Proof.
  intros Hr Hok Hind Hj Hf ind. pose proof (rp_ok _ _ Hr) as Hv. destruct (io_data _ _ _ Hok None I Hind) as [Hrg Hui]. cbn [own] in Hrg, Hui. fold ind in Hrg, Hui, Hind.
  change (sb_bmapstart mkfs_sb) with 45 in Hrg. change (sb_size mkfs_sb) with 2000 in Hrg.
  split; [apply (rsect_rep s v); [done | lia | lia]|].
  assert (forall w, blkno w a (NDIRECT + j) = get_uint (tv_blk w ind) (4 * j)) as Hblk.
  { intros w. unfold blkno. rewrite decide_False by lia. fold ind. rewrite (proj2 (Z.eqb_neq ind 0)) by done. do 2 f_equal. lia. }
  rewrite Hblk in Hf |- *. destruct (Z.eqb_spec (get_uint (tv_blk v ind) (4 * j)) 0) as [Hz|Hnz].
  - destruct (new_block_rep s v Hr ltac:(lia)) as [En Hr1]. pose proof (rep_unused s v Hr ltac:(lia)) as Hn. pose proof (rp_free _ _ Hr) as Hb.
    set (b := mk_freeblock s) in *. assert (xint b = b) as Ex by (apply u32_split; lia).
    assert (ind < b) as Hib by (apply (rep_use s v ind Hr) in Hui; [done | unfold BPB, BSIZE; lia]).
    assert (tv_blk (allocated mkfs_sb b v) ind = tv_blk v ind) as Et.
    { rewrite allocated_blk by (simpl; lia). change (sb_bmapstart mkfs_sb) with 45. by rewrite !decide_False by lia. }
    assert (4 * j + 4 <= length (tv_blk v ind))%nat as Hlen by (rewrite (proj1 (Hv ind)), BSIZE_eq; unfold NINDIRECT in Hj; lia).
    set (y := set_uint (4 * j) b (tv_blk v ind)). set (v2 := entered ind j b (allocated mkfs_sb b v)).
    assert (v2 = record ind y (allocated mkfs_sb b v)) as E2 by (unfold v2, entered; by rewrite Et).
    destruct (wsect_rep (took s) (allocated mkfs_sb b v) ind y Hr1) as [Ew Hr2]; [change (mk_freeblock (took s)) with (b + 1); lia | lia | apply set_uint_ok; [done | apply Hv] |].
    pose proof (own_entered mkfs_sb mkfs_geom v a j b Hv Hok Hj Hind ltac:(simpl; lia) Hn) as Hown. fold ind v2 in Hown.
    assert (blkno v2 a (NDIRECT + j) = b) as Eb.
    { pose proof (Hown (Some (NDIRECT + j)%nat) ltac:(cbn [slot_in]; unfold MAXFILE, NINDIRECT in *; lia)) as E. cbn [own] in E. by rewrite E, decide_True. }
    exists (put_block ind y (took s)), v2, y. split_and!; try done; try lia.
    + erewrite bind_ret by exact En. rewrite Ex. cbv zeta. fold y. by erewrite bind_ret by exact Ew.
    + rewrite Eb. unfold y. rewrite get_set_uint_eq; [done | done | lia].
    + by rewrite E2.
    + apply (grown_word mkfs_sb mkfs_geom); try done; [by eapply rep_meta | by rewrite Hblk | simpl; lia].
    + intros o Hs Hne. by rewrite Hown, decide_False.
  - exists s, v, (tv_blk v ind). split_and!; try done; try lia; [| apply grown_refl; try done; by eapply rep_meta | by rewrite Hblk].
    rewrite Hblk. apply u32_split, get_uint_range, Hv.
Qed.

Lemma iappend_block_rep s v din off : rep s v -> ino_ok mkfs_sb v (i_addrs din) -> sized v (i_addrs din) off ->
  0 <= off < Z.of_nat MAXFILE * BSIZE -> mk_freeblock s + extra off <= 2000 ->
  let fbn := Z.to_nat (off / BSIZE) in
  exists s' v' a', iappend_block fbn din s = Ret (seti_addrs a' din, blkno v' a' fbn) s' /\
    rep s' v' /\ grown mkfs_sb v v' (i_addrs din) a' /\ sized v' a' (off + 1) /\
    mk_freeblock s' = mk_freeblock s + extra off /\ mk_freeinode s' = mk_freeinode s.
Proof.
  intros Hr Hok Hex Hoff Hf fbn. destruct (decide (off < Z.of_nat NDIRECT * BSIZE)) as [Hd|Hd]; [apply iappend_direct; (done || lia)|].
  assert (exists j, fbn = (NDIRECT + j)%nat /\ (j < NINDIRECT)%nat /\ Z.of_nat (NDIRECT + j) = off / 1024) as (j & Efb & Hj & Ej).
  { exists (fbn - NDIRECT)%nat. unfold fbn, MAXFILE, NDIRECT, NINDIRECT, BSIZE in *. Z.to_euclidean_division_equations. lia. }
  clearbody fbn. subst fbn. unfold iappend_block. rewrite decide_False by lia. unfold extra in *.
  destruct (iappend_ind s v din off Hr Hok Hex) as (s1 & v1 & a1 & E1 & Hr1 & Hg1 & Hi1 & Hk1 & Hf1 & Hn1); [lia | case_match; lia |].
  rewrite (bind_ret _ _ _ _ _ E1). cbn [seti_addrs i_addrs]. rewrite (addr_xint v1) by (done || apply Hg1).
  pose proof (Hex (Some (NDIRECT + j)%nat) ltac:(cbn [slot_in]; unfold MAXFILE; lia)) as Hfb. cbn [own start_of] in Hfb. unfold BSIZE in Hfb.
  assert ((if blkno v1 a1 (NDIRECT + j) =? 0 then 1 else 0) = if off mod BSIZE =? 0 then 1 else 0) as Ez.
  { rewrite Hk1 by (unfold MAXFILE; lia). unfold BSIZE.
    destruct (Z.eqb_spec (blkno v (i_addrs din) (NDIRECT + j)) 0), (Z.eqb_spec (off mod 1024) 0); try done; Z.to_euclidean_division_equations; lia. }
  destruct (iappend_word s1 v1 a1 j Hr1 (gr_ok _ _ _ _ _ Hg1) Hi1 Hj) as (Er & s2 & v2 & x & E2 & Ex & Hr2 & Hg2 & Hne & Hk2 & Hf2 & Hn2); [rewrite Ez; lia|].
  rewrite (bind_ret _ _ _ _ _ Er). replace (NDIRECT + j - NDIRECT)%nat with j by lia. rewrite (bind_ret _ _ _ _ _ E2), Ex.
  exists s2, v2, a1. split_and!; try done; [by apply (grown_trans mkfs_sb mkfs_geom v v1 v2 _ a1) | | lia | congruence].
  intros o Hs. destruct (decide (o = Some (NDIRECT + j)%nat)) as [->|Ho].
  - cbn [own start_of]. unfold BSIZE. Z.to_euclidean_division_equations. lia.
  - rewrite Hk2 by done. destruct o as [bn|]; cbn [own start_of].
    + rewrite Hk1 by done. rewrite (Hex (Some bn) Hs : blkno _ _ _ <> 0 <-> _). cbn [start_of]. assert (bn <> NDIRECT + j)%nat by congruence.
      unfold BSIZE. Z.to_euclidean_division_equations. lia.
    + lia.
Qed.

(** ** Appending *)

(** The blocks of a file of [n] bytes. *)
Definition need (n : Z) : Z := (n + (BSIZE - 1)) / BSIZE + (if Z.of_nat NDIRECT * BSIZE <? n then 1 else 0).

Lemma need_step off m : 0 <= off -> 0 < m <= BSIZE - off mod BSIZE -> need (off + m) = need off + extra off.
Proof.
  unfold need, extra, NDIRECT, BSIZE. intros Ho Hm.
  destruct (Z.ltb_spec (Z.of_nat 12 * 1024) (off + m)), (Z.ltb_spec (Z.of_nat 12 * 1024) off), (Z.eqb_spec (off mod 1024) 0), (Z.eqb_spec off (Z.of_nat 12 * 1024));
    Z.to_euclidean_division_equations; lia.
Qed.

Lemma need_mono n m : 0 <= n <= m -> 0 <= need n <= need m.
Proof.
  unfold need, NDIRECT, BSIZE. intros Hn.
  destruct (Z.ltb_spec (Z.of_nat 12 * 1024) n), (Z.ltb_spec (Z.of_nat 12 * 1024) m); Z.to_euclidean_division_equations; lia.
Qed.

Lemma splice_patched bs x o (m tot : nat) : length x = Z.to_nat BSIZE /\ Forall byte_range x -> Forall byte_range bs ->
  (o + m <= Z.to_nat BSIZE)%nat -> (tot + m <= length bs)%nat ->
  patched bs x (Z.of_nat o) (Z.of_nat m) (Z.of_nat tot) (splice x o (take m (drop tot bs))).
Proof.
  intros [Hl Hb] Hbs Hom Htm. assert (length (take m (drop tot bs)) = m) as Hlen by (rewrite length_take, length_drop; lia).
  split; [split; [by rewrite length_splice by lia | by apply splice_bytes; [|apply Forall_take, Forall_drop]]|].
  intros j Hj. unfold byte_at, BSIZE in *. rewrite !list_lookup_total_alt. case_decide as Hd.
  - rewrite lookup_splice_in by lia. rewrite lookup_take_lt by lia. rewrite lookup_drop. do 2 f_equal. lia.
  - by rewrite lookup_splice_out by lia.
Qed.

Lemma exact_within v a off m : 0 <= off -> 0 < m <= BSIZE - off mod BSIZE -> sized v a (off + 1) -> sized v a (off + m).
Proof.
  intros Ho Hm Hex o Hs. rewrite (Hex o Hs). destruct o as [bn|]; cbn [start_of]; unfold NDIRECT, BSIZE in *; Z.to_euclidean_division_equations; lia.
Qed.

(** What a round does once the block is there. *)
Lemma iappend_round s v a off bs tot m : rep s v -> ino_ok mkfs_sb v a -> sized v a (off + 1) -> Forall byte_range bs ->
  0 <= off -> 0 < Z.of_nat m -> Z.of_nat m = part off (Z.of_nat m) -> off + Z.of_nat m <= Z.of_nat MAXFILE * BSIZE -> (tot + m <= length bs)%nat ->
  let x := blkno v a (Z.to_nat (off / BSIZE)) in
  let y := splice (tv_blk v x) (Z.to_nat (off - off / BSIZE * BSIZE)) (take m (drop tot bs)) in
  rsect x s = Ret (tv_blk v x) s /\ wsect x y s = Ret tt (put_block x y s) /\ rep (put_block x y s) (record x y v) /\
  written mkfs_sb bs v (record x y v) a a off (Z.of_nat tot) (Z.of_nat m) /\ sized (record x y v) a (off + Z.of_nat m).
Proof.
  intros Hr Hok Hex Hbs Ho Hm Hpart Hmax Htm x y. pose proof (rp_ok _ _ Hr) as Hv.
  destruct (block_index off _ Ho Hm Hmax) as [Hbn Ebn]. destruct (part_facts off _ Ho Hm) as (_ & Hmod & Hin & _). rewrite <- Hpart in Hin.
  assert (x <> 0) as Hx0.
  { apply (Hex (Some _) Hbn). cbn [start_of]. rewrite Ebn. unfold BSIZE. Z.to_euclidean_division_equations. lia. }
  destruct (io_data _ _ _ Hok (Some _) Hbn Hx0) as [Hrg Hu]. cbn [own] in Hrg, Hu. fold x in Hrg, Hu.
  change (sb_bmapstart mkfs_sb) with 45 in Hrg. change (sb_size mkfs_sb) with 2000 in Hrg.
  apply (rep_use s) in Hu; [|done | unfold BPB, BSIZE; lia].
  assert (off - off / BSIZE * BSIZE = off mod BSIZE) as Emod by (unfold BSIZE; Z.to_euclidean_division_equations; lia).
  assert (patched bs (tv_blk v x) (off mod BSIZE) (Z.of_nat m) (Z.of_nat tot) y) as Hp.
  { unfold y. rewrite Emod. rewrite <- (Z2Nat.id (off mod BSIZE)) at 1 by lia. apply splice_patched; [apply Hv | done | unfold BSIZE in *; lia | done]. }
  destruct (wsect_rep s v x y Hr) as [Ew Hr']; [lia | lia | apply Hp |].
  split_and!; [apply (rsect_rep s v); [done | lia | lia] | done | done | |].
  - apply (written_round mkfs_sb mkfs_geom bs v a off (Z.of_nat tot) (Z.of_nat m) y); try done. by eapply rep_meta.
  - apply exact_within; [done | unfold part in Hpart; lia |]. intros o Hs. unfold x. rewrite (own_data mkfs_sb v a _ y Hok Hbn Hx0 o). by apply Hex.
Qed.

Lemma iappend_loop_more fuel din off p : p <> [] -> iappend_loop (S fuel) din off p =
  (let fbn := off / BSIZE in
   assert (fbn <? Z.of_nat MAXFILE);;
   '(din, x) ← iappend_block (Z.to_nat fbn) din;
   let n1 := Z.min (Z.of_nat (length p)) (u32 ((fbn + 1) * BSIZE - off)) in
   buf ← rsect x;
   wsect x (splice buf (Z.to_nat (off - fbn * BSIZE)) (take (Z.to_nat n1) p));;
   iappend_loop fuel din (u32 (off + n1)) (drop (Z.to_nat n1) p)).
Proof. by destruct p. Qed.

Lemma iappend_loop_rep bs fuel : forall s v din off tot,
  rep s v -> ino_ok mkfs_sb v (i_addrs din) -> sized v (i_addrs din) off -> Forall byte_range bs -> (tot <= length bs)%nat ->
  let n := Z.of_nat (length bs) - Z.of_nat tot in
  n < Z.of_nat fuel -> 0 <= off -> off + n <= Z.of_nat MAXFILE * BSIZE -> mk_freeblock s - need off + need (off + n) <= 2000 ->
  exists s' v' a', iappend_loop fuel din off (drop tot bs) s = Ret (seti_addrs a' din, off + n) s' /\ rep s' v' /\
    written mkfs_sb bs v v' (i_addrs din) a' off (Z.of_nat tot) n /\ sized v' a' (off + n) /\
    mk_freeblock s' = mk_freeblock s - need off + need (off + n) /\ mk_freeinode s' = mk_freeinode s.
Proof.
  induction fuel as [|fuel IH]; intros s v din off tot Hr Hok Hex Hbs Htot n Hn Ho Hmax Hf; [lia|].
  assert (length (drop tot bs) = Z.to_nat n) as Hlen by (rewrite length_drop; lia).
  destruct (decide (n = 0)) as [En|En].
  { destruct (drop tot bs) as [|c p]; [|simpl in Hlen; lia]. cbn [iappend_loop]. rewrite En in *. rewrite !Z.add_0_r in *. exists s, v, (i_addrs din).
    split_and!; try done; [by destruct din | | lia]. apply (written_grown mkfs_sb), grown_refl; [apply Hr | by eapply rep_meta | done]. }
  assert (0 < n) as Hn0 by lia. destruct (part_facts off n Ho Hn0) as (Hpn & Hmod & Hin & _). set (m := part off n) in *.
  destruct (block_index off n Ho Hn0 Hmax) as [Hbn Ebn]. pose proof (need_step off m Ho ltac:(lia)) as Hneed.
  pose proof (need_mono (off + m) (off + n) ltac:(lia)) as Hmono.
  rewrite iappend_loop_more by (intros E; rewrite E in Hlen; simpl in Hlen; lia). cbv zeta. unfold assert at 1. rewrite (proj2 (Z.ltb_lt _ _)) by lia. erewrite bind_ret by reflexivity.
  destruct (iappend_block_rep s v din off Hr Hok Hex) as (s1 & v1 & a1 & E1 & Hr1 & Hg1 & Hex1 & Hf1 & Hi1); [lia | lia |].
  rewrite (bind_ret _ _ _ _ _ E1). cbv beta iota. rewrite Hlen.
  assert (Z.min (Z.of_nat (Z.to_nat n)) (u32 ((off / BSIZE + 1) * BSIZE - off)) = m) as ->.
  { unfold m, part, BSIZE. rewrite u32_small; Z.to_euclidean_division_equations; lia. }
  assert (Z.of_nat (Z.to_nat m) = m) as Em by lia.
  destruct (iappend_round s1 v1 a1 off bs tot (Z.to_nat m) Hr1 (gr_ok _ _ _ _ _ Hg1) Hex1 Hbs Ho) as (Er & Ew & Hr2 & Hw & Hex2); rewrite ?Em; try lia.
  { unfold m, part. lia. }
  set (y := splice _ _ _) in *. set (x := blkno v1 a1 _) in *. rewrite (bind_ret _ _ _ _ _ Er). fold y. rewrite (bind_ret _ _ _ _ _ Ew). rewrite Em in *.
  rewrite drop_drop. assert (u32 (off + m) = off + m) as -> by (apply u32_small; change (Z.of_nat MAXFILE * BSIZE) with 274432 in *; lia).
  pose proof (written_trans mkfs_sb mkfs_geom bs _ _ _ _ _ _ off (Z.of_nat tot) 0 m (written_grown mkfs_sb bs _ _ _ _ off (Z.of_nat tot) Hg1) ltac:(by rewrite !Z.add_0_r) ltac:(lia) ltac:(lia)) as Hw1.
  destruct (IH (put_block x y s1) (record x y v1) (seti_addrs a1 din) (off + m) (tot + Z.to_nat m)%nat) as (s' & v' & a' & E' & Hr' & Hw' & Hex' & Hf' & Hi'); try done.
  { apply Hw1. } { lia. } { lia. } { lia. } { lia. } { change (mk_freeblock (put_block x y s1)) with (mk_freeblock s1). replace (off + m + _) with (off + n) by lia. lia. }
  change (mk_freeblock (put_block x y s1)) with (mk_freeblock s1) in *. replace (off + m + _) with (off + n) in * by lia.
  exists s', v', a'. split_and!; try done; [|lia | etrans; [exact Hi' | exact Hi1]].
  replace n with (0 + m + (n - m)) by lia. eapply (written_trans mkfs_sb mkfs_geom); [exact Hw1 | | lia | lia].
  rewrite Z.add_0_l. replace (Z.of_nat tot + m) with (Z.of_nat (tot + Z.to_nat m)) by lia. replace (n - m) with (Z.of_nat (length bs) - Z.of_nat (tot + Z.to_nat m)) by lia. exact Hw'.
Qed.

(** ** Files *)

(** Inode [k] of the volume, and the file it describes: beyond its bytes, its blocks
    have zeros. *)
Definition ino (v : tview) (k : nat) : inode := disk_inode mkfs_sb v (Z.of_nat k) (dinode0 (Z.of_nat k)).

Record file_at (v : tview) (i : inode) (type : Z) (bs : list Z) : Prop := {
  fa_ok : file_ok mkfs_sb v i;
  fa_type : i_type i = type;
  fa_nlink : i_nlink i = 1;
  fa_size : i_size i = Z.of_nat (length bs);
  fa_bytes : forall p, 0 <= p < Z.of_nat MAXFILE * BSIZE -> byte_of v i p = default 0 (bs !! Z.to_nat p);
  fa_exact : sized v (i_addrs i) (i_size i)
}.

(** The blocks before the bitmap and the files' blocks are apart: a file that grows
    leaves them alone. *)
Lemma evolves_low v v' a a' b : ino_ok mkfs_sb v a -> meta_used mkfs_sb v -> evolves mkfs_sb v v' a a' -> 0 <= b < 45 -> tv_blk v' b = tv_blk v b.
Proof.
  intros Hok Hm He Hb. apply (ex_same _ _ _ _ (ev_ext _ _ _ _ _ He)); [lia | apply Hm; simpl; lia | simpl; lia |].
  intros o Hs Hne E. destruct (io_data _ _ _ Hok o Hs Hne) as [Hr _]. simpl in Hr. lia.
Qed.

Lemma ino_same v v' k : (k < 200)%nat -> (forall b, 0 <= b < 45 -> tv_blk v' b = tv_blk v b) -> ino v' k = ino v k.
Proof. intros Hk Hb. unfold ino, disk_inode. destruct (inode_block (Z.of_nat k) ltac:(lia)) as [_ Hr]. by rewrite Hb by lia. Qed.

Lemma ino_inum v k : i_inum (ino v k) = Z.of_nat k.
Proof. done. Qed.

Lemma updated_ino v i k n : blk_ok v -> ino_range i -> i = loaded i (dinode0 (Z.of_nat k)) ->
  ino (updated mkfs_sb i v) n = if decide (n = k) then i else ino v n.
Proof.
  intros Hv Hi E. assert (i_inum i = Z.of_nat k) as En by (rewrite E; done).
  unfold ino. rewrite (updated_disk mkfs_sb) by (done || lia). rewrite En.
  destruct (decide (n = k)) as [->|Hne]; [by rewrite decide_True|]. by rewrite decide_False by lia.
Qed.

Lemma updated_own v i a o : 0 <= i_inum i < 200 -> ino_ok mkfs_sb v a -> own (updated mkfs_sb i v) a o = own v a o.
Proof.
  intros Hi Hok. unfold updated. destruct (inode_block _ Hi) as [_ Hr]. apply (own_meta mkfs_sb); [done | simpl; lia].
Qed.

(** Files apart stay apart when one grows. *)
Lemma apart_grows v v' i i' j : evolves mkfs_sb v v' (i_addrs i) (i_addrs i') -> file_ok mkfs_sb v j ->
  (forall o, slot_in o -> own v' (i_addrs j) o = own v (i_addrs j) o) -> apart v i j -> apart v' i' j.
Proof.
  intros He Hj Ho Hij o o' Hs Hs' Hne E. rewrite (Ho o Hs) in Hne, E. destruct (io_data _ _ _ (fo_map _ _ _ Hj) o Hs Hne) as [_ Hu].
  destruct (ev_new _ _ _ _ _ He o' Hs') as [E'|E']; [congruence | apply (Hij o o' Hs Hs' Hne); congruence | apply E'; congruence].
Qed.

Lemma apart_sym v i j : apart v i j -> apart v j i.
Proof. intros Hij o o' Hs Hs' Hne E. apply (Hij o' o Hs' Hs); congruence. Qed.

(** Writing an inode back leaves every file as it is. *)
Lemma updated_at v i j type bs : blk_ok v -> 0 <= i_inum i < 200 -> length (i_addrs i) = S NDIRECT -> file_at v j type bs ->
  file_at (updated mkfs_sb i v) j type bs.
Proof.
  intros Hv Hn Hl [J1 J2 J3 J4 J5 J6]. destruct (updated_file mkfs_sb mkfs_geom v i j Hv Hn Hl J1) as [Hf Hb]. split; try done.
  - intros p Hp. rewrite Hb by done. by apply J5.
  - intros o Hs. rewrite updated_own by (done || apply J1). by apply J6.
Qed.

Lemma written_at v v' i a' bs p type : file_at v i type bs ->
  written mkfs_sb p v v' (i_addrs i) a' (Z.of_nat (length bs)) 0 (Z.of_nat (length p)) -> sized v' a' (Z.of_nat (length (bs ++ p))) ->
  Z.of_nat (length (bs ++ p)) <= Z.of_nat MAXFILE * BSIZE -> file_at v' (resized (Z.of_nat (length (bs ++ p))) a' i) type (bs ++ p).
Proof.
  intros [J1 J2 J3 J4 J5 J6] Hw Hex Hmax. rewrite length_app, Nat2Z.inj_add in *. pose proof (written_file mkfs_sb mkfs_geom v v' i a' _ p _ J1 Hw ltac:(lia) ltac:(lia)) as Hf.
  rewrite J4, Z.max_r in Hf by lia. split; try done; [by rewrite length_app, Nat2Z.inj_add|].
  intros q Hq. unfold byte_of. cbn [resized seti_size seti_addrs i_addrs].
  rewrite (wr_bytes _ _ _ _ _ _ _ _ _ Hw) by lia. case_decide as Hd.
  - rewrite lookup_app_r by lia. destruct (lookup_lt_is_Some_2 p (Z.to_nat q - length bs)) as [c Hc]; [lia|].
    rewrite Hc. apply list_lookup_total_correct. by replace (Z.to_nat (0 + (q - Z.of_nat (length bs)))) with (Z.to_nat q - length bs)%nat by lia.
  - rewrite (J5 q Hq : fbyte v (i_addrs i) q = _). f_equal. destruct (decide (q < Z.of_nat (length bs))); [by rewrite lookup_app_l by lia|].
    rewrite !lookup_ge_None_2; rewrite ?length_app; (done || lia).
Qed.

(** What an append to file [k] leaves as it was. *)
Record kept (v v' : tview) (k : nat) : Prop := {
  kp_ino : forall n, (n < 200)%nat -> n <> k -> ino v' n = ino v n;
  kp_low : forall b, 0 <= b < 32 -> tv_blk v' b = tv_blk v b;
  kp_file : forall j type bs, file_at v j type bs -> apart v (ino v k) j -> file_at v' j type bs /\ apart v' (ino v' k) j /\
    forall o, slot_in o -> own v' (i_addrs j) o = own v (i_addrs j) o
}.

Lemma iappend_file s v k type bs p : rep s v -> (k < 200)%nat -> file_at v (ino v k) type bs -> Forall byte_range p ->
  let n := Z.of_nat (length (bs ++ p)) in
  n <= Z.of_nat MAXFILE * BSIZE -> mk_freeblock s - need (Z.of_nat (length bs)) + need n <= 2000 ->
  exists s' v', iappend (Z.of_nat k) p s = Ret tt s' /\ rep s' v' /\ file_at v' (ino v' k) type (bs ++ p) /\ kept v v' k /\
    mk_freeblock s' = mk_freeblock s - need (Z.of_nat (length bs)) + need n /\ mk_freeinode s' = mk_freeinode s.
Proof.
  intros Hr Hk Hf Hp n Hmax Hfree. set (i := ino v k) in *. pose proof Hf as [J1 J2 J3 J4 J5 J6]. assert (n = Z.of_nat (length bs) + Z.of_nat (length p)) as En by (unfold n; rewrite length_app; lia).
  unfold iappend. rewrite (bind_ret _ _ _ _ _ (rinode_rep s v (Z.of_nat k) Hr ltac:(lia))). fold (ino v k). fold i.
  assert (xint (i_size i) = Z.of_nat (length bs)) as -> by (rewrite J4; apply u32_split; rewrite <- J4; apply J1).
  destruct (iappend_loop_rep p (S (length p)) s v i (Z.of_nat (length bs)) 0 Hr (fo_map _ _ _ J1)) as (s1 & v1 & a1 & E1 & Hr1 & Hw & Hex & Hf1 & Hi1);
    rewrite ?Z.sub_0_r, <- ?En; try lia; [by rewrite <- J4 | done |]. rewrite Z.sub_0_r, <- ?En in *. rewrite drop_0 in E1.
  rewrite (bind_ret _ _ _ _ _ E1). cbv beta iota.
  pose proof (written_at v v1 i a1 bs p type Hf Hw Hex Hmax) as Hat. fold n in Hat. pose proof (wr_ev _ _ _ _ _ _ _ _ _ Hw) as He. pose proof (rep_meta s v Hr) as Hm.
  assert (seti_size (xint n) (seti_addrs a1 i) = resized n a1 i) as ->.
  { unfold resized. do 2 f_equal. apply u32_split. change (Z.of_nat MAXFILE * BSIZE) with 274432 in Hmax. lia. }
  set (i' := resized n a1 i) in *. assert (i_inum i' = Z.of_nat k) as Eik by done. pose proof (ir_len _ (fo_range _ _ _ (fa_ok _ _ _ _ Hat))) as Hl.
  destruct (winode_rep s1 v1 (Z.of_nat k) i' Hr1) as (s2 & E2 & Hr2 & Hi2 & Hf2); [lia | done | done |].
  pose proof (fun n => updated_ino v1 i' k n (rp_ok _ _ Hr1) (fo_range _ _ _ (fa_ok _ _ _ _ Hat)) eq_refl) as Hino.
  exists s2, (updated mkfs_sb i' v1). split_and!; try done; try congruence.
  - rewrite Hino, decide_True by done. apply updated_at; try done; [apply Hr1 | rewrite Eik; lia].
  - split.
    + intros m Hm2 Hne. rewrite Hino, decide_False by done. apply ino_same; [done|]. intros b Hb. by apply (evolves_low v v1 (i_addrs i) a1); [apply J1|..].
    + intros b Hb. unfold updated. cbn [record tv_blk]. unfold upd_blk. destruct (inode_block (i_inum i') ltac:(rewrite Eik; lia)) as [_ Hib]. rewrite decide_False by lia.
      apply (evolves_low v v1 (i_addrs i) a1); try done; [apply J1 | lia].
    + intros j ty bj Hj Hap. destruct (apart_evolves mkfs_sb mkfs_geom v v1 i a1 j He (fa_ok _ _ _ _ Hj) Hap) as (Hj1 & Hbj & Hoj).
      assert (file_at v1 j ty bj) as Hj1'.
      { destruct Hj as [K1 K2 K3 K4 K5 K6]. split; try done; [intros q Hq; rewrite Hbj by lia; by apply K5|]. intros o Hs. rewrite Hoj by done. by apply K6. }
      rewrite Hino, decide_True by done. split_and!; [apply updated_at; try done; [apply Hr1 | rewrite Eik; lia] | |].
      * intros o o' Hs Hs'. rewrite !updated_own by (rewrite ?Eik; lia || apply Hj1 || apply Hat). apply (apart_grows v v1 i i' j He (fa_ok _ _ _ _ Hj) Hoj Hap); done.
      * intros o Hs. rewrite updated_own by (rewrite ?Eik; lia || apply Hj1). by apply Hoj.
Qed.

(** ** The volume *)

(** The super block's bytes. *)
Definition sb_bytes : block := splice zero_block 0 (concat (le_split 4 <$> [FSMAGIC; 2000; 1954; 200; 30; 2; 32; 45])).

Definition blocks_of (files : list (Z * list Z)) : Z := foldr (fun f n => need (Z.of_nat (length f.2)) + n) 0 files.

(** The volume has the files [files], type and contents, as inodes 1, 2, .. and nothing
    else. *)
Record holds (s : mkstate) (v : tview) (files : list (Z * list Z)) : Prop := {
  hs_rep : rep s v;
  hs_next : mk_freeinode s = Z.of_nat (S (length files));
  hs_free : mk_freeblock s = 46 + blocks_of files;
  hs_file : forall k type bs, files !! k = Some (type, bs) -> file_at v (ino v (S k)) type bs;
  hs_apart : forall k k', (k < length files)%nat -> (k' < length files)%nat -> k <> k' -> apart v (ino v (S k)) (ino v (S k'));
  hs_none : forall n, (length files < n < 200)%nat -> ino v n = dinode0 (Z.of_nat n);
  hs_low : forall b, 0 <= b < 32 -> tv_blk v b = if decide (b = 1) then sb_bytes else zero_block
}.

Lemma blocks_of_app l l' : blocks_of (l ++ l') = blocks_of l + blocks_of l'.
Proof. induction l as [|f l IH]; [done|]. unfold blocks_of in *. cbn [foldr app]. rewrite IH. lia. Qed.

Lemma blocks_of_insert l k type bs bs' : l !! k = Some (type, bs) ->
  blocks_of (<[k := (type, bs')]> l) = blocks_of l - need (Z.of_nat (length bs)) + need (Z.of_nat (length bs')).
Proof.
  intros Hk. rewrite <- (take_drop_middle l k (type, bs) Hk) at 2. rewrite insert_take_drop by (by eapply lookup_lt_Some).
  rewrite !blocks_of_app. unfold blocks_of at 2 4. cbn [foldr fst snd]. fold (blocks_of (drop (S k) l)). lia.
Qed.

Lemma blocks_of_nonneg l : 0 <= blocks_of l.
Proof. induction l as [|f l IH]; [done|]. unfold blocks_of in *. cbn [foldr]. pose proof (need_mono (Z.of_nat (length f.2)) (Z.of_nat (length f.2)) ltac:(lia)). lia. Qed.

Lemma iappend_holds s v files k type bs p : holds s v files -> files !! k = Some (type, bs) -> (length files < 200)%nat -> Forall byte_range p ->
  Z.of_nat (length (bs ++ p)) <= Z.of_nat MAXFILE * BSIZE -> 46 + blocks_of (<[k := (type, bs ++ p)]> files) <= 2000 ->
  exists s' v', iappend (Z.of_nat (S k)) p s = Ret tt s' /\ holds s' v' (<[k := (type, bs ++ p)]> files).
Proof.
  intros [K1 K2 K3 K4 K5 K6 K7] Hk Hlen Hp Hmax Hfree. pose proof (lookup_lt_Some _ _ _ Hk) as Hlt. rewrite (blocks_of_insert _ _ _ bs) in Hfree by done.
  destruct (iappend_file s v (S k) type bs p K1 ltac:(lia) (K4 _ _ _ Hk) Hp Hmax ltac:(lia)) as (s' & v' & E & Hr & Hf & [G1 G2 G3] & Hfb & Hfi).
  exists s', v'. split; [done|]. split; try done.
  - by rewrite length_insert, Hfi.
  - rewrite (blocks_of_insert _ _ _ bs) by done. lia.
  - intros m ty bm Hm. destruct (decide (m = k)) as [->|Hne].
    + rewrite list_lookup_insert_eq in Hm by done. by simplify_eq.
    + rewrite list_lookup_insert_ne in Hm by done. pose proof (lookup_lt_Some _ _ _ Hm). rewrite G1 by lia. by apply (G3 _ ty bm (K4 _ _ _ Hm)), K5.
  - rewrite length_insert. assert (forall m, (m < length files)%nat -> m <> k -> apart v' (ino v' (S k)) (ino v' (S m)) /\ forall o, slot_in o -> own v' (i_addrs (ino v' (S m))) o = own v (i_addrs (ino v (S m))) o) as Hap.
    { intros m Hm Hne. destruct (lookup_lt_is_Some_2 files m Hm) as [[ty bm] Em]. rewrite (G1 (S m)) by lia. destruct (G3 _ ty bm (K4 _ _ _ Em)) as (_ & ? & ?); [by apply K5 | done]. }
    intros m m' Hm Hm' Hne. destruct (decide (m = k)) as [->|Hmk]; [by apply Hap|]. destruct (decide (m' = k)) as [->|Hmk']; [by apply apart_sym, Hap|].
    intros o o' Hs Hs'. rewrite (proj2 (Hap m Hm Hmk)), (proj2 (Hap m' Hm' Hmk')) by done. by apply K5.
  - rewrite length_insert. intros n Hn. rewrite G1 by lia. by apply K6.
  - intros b Hb. rewrite G2 by done. by apply K7.
Qed.

(** A new inode has no blocks. *)
Lemma empty_own v o : own v (replicate (S NDIRECT) 0) o = 0.
Proof.
  assert (forall i, (i < 13)%nat -> replicate (S NDIRECT) 0 !!! i = 0) as Hz by (intros i Hi; apply list_lookup_total_correct, lookup_replicate; done).
  destruct o as [bn|]; [|apply Hz; unfold NDIRECT; lia]. cbn [own]. unfold blkno. case_decide as Hd; [apply Hz; unfold NDIRECT in Hd; lia|]. by rewrite Hz by (unfold NDIRECT; lia).
Qed.

Definition new_inode (k : nat) (type : Z) : inode := seti_nlink 1 (seti_type type (dinode0 (Z.of_nat k))).

Lemma new_inode_at v k type : (k < 200)%nat -> i16_range type -> file_at v (new_inode k type) type [].
Proof.
  intros Hk Ht. split; try done; [|intros p Hp; unfold byte_of, fbyte; pose proof (empty_own v (Some (Z.to_nat (p / BSIZE)))) as E; cbn [own] in E; cbn [new_inode seti_nlink seti_type dinode0 i_addrs]; by rewrite E, lookup_nil | intros o Hs; cbn; rewrite empty_own; destruct o; cbn [start_of]; unfold BSIZE; lia].
  split; try done; [split; cbn; lia | | |].
  - split; try done; cbn; [lia..|]. apply (Forall_replicate (fun a => 0 <= a < 2 ^ 32) 13 0). lia.
  - split; [done | intros o Hs; cbn; by rewrite empty_own | intros o o' Hs Hs'; cbn; by rewrite empty_own].
  - intros bn Hbn Hlt. cbn in Hlt. unfold BSIZE in Hlt. lia.
Qed.

Lemma ialloc_holds s v files type : holds s v files -> (S (length files) < 200)%nat -> 0 <= type < 2 ^ 15 ->
  exists s' v', ialloc type s = Ret (Z.of_nat (S (length files))) s' /\ holds s' v' (files ++ [(type, [])]).
Proof.
  intros [K1 K2 K3 K4 K5 K6 K7] Hlen Ht. set (k := S (length files)) in *. unfold ialloc. erewrite bind_ret by reflexivity. rewrite K2. erewrite bind_ret by reflexivity.
  assert (u32 (Z.of_nat k + 1) = Z.of_nat (S k)) as -> by (rewrite u32_small; lia).
  assert (seti_size (xint 0) (seti_nlink (i16 (xshort 1)) (seti_type (i16 (xshort type)) (dinode0 (Z.of_nat k)))) = new_inode k type) as ->.
  { unfold new_inode, seti_nlink, seti_type, seti_size. cbn. f_equal. apply i16_split. split; lia. }
  set (s1 := setm_freeinode (Z.of_nat (S k)) s). assert (rep s1 v) as Hr1 by (by destruct K1).
  pose proof (new_inode_at v k type ltac:(lia) ltac:(split; lia)) as Hn.
  destruct (winode_rep s1 v (Z.of_nat k) (new_inode k type) Hr1) as (s' & E & Hr' & Hi' & Hf'); [lia | done | done |].
  pose proof (fun n => updated_ino v (new_inode k type) k n (rp_ok _ _ K1) (fo_range _ _ _ (fa_ok _ _ _ _ Hn)) eq_refl) as Hino.
  assert (forall j ty bs, file_at v j ty bs -> file_at (updated mkfs_sb (new_inode k type) v) j ty bs) as Hup.
  { intros j ty bs Hj. apply updated_at; try done; [apply K1 | cbn; lia]. }
  exists s', (updated mkfs_sb (new_inode k type) v). split; [by erewrite bind_ret by exact E|]. split; try done.
  - rewrite Hi', length_app. cbn. lia.
  - rewrite Hf', blocks_of_app. change (mk_freeblock s1) with (mk_freeblock s). rewrite K3. change (blocks_of [(type, [])]) with 0. lia.
  - intros m ty bm Hm. rewrite Hino. apply lookup_app_Some in Hm as [Hm|[Hge Hm]].
    + pose proof (lookup_lt_Some _ _ _ Hm). rewrite decide_False by lia. by apply Hup, K4.
    + apply list_lookup_singleton_Some in Hm as [Em [= <- <-]]. rewrite decide_True by lia. by apply Hup.
  - rewrite length_app. cbn [length]. intros m m' Hm Hm' Hne. rewrite !Hino. destruct (decide (S m' = k)); [intros o o' _ _; by rewrite empty_own|].
    destruct (decide (S m = k)); [apply apart_sym; intros o o' _ _; by rewrite empty_own|].
    assert (forall j, (j < length files)%nat -> ino_ok mkfs_sb v (i_addrs (ino v (S j)))) as Hok.
    { intros j Hj. destruct (lookup_lt_is_Some_2 files j Hj) as [[ty bj] Ej]. apply (K4 _ _ _ Ej). }
    intros o o' Hs Hs'. rewrite !updated_own by (cbn; lia || apply Hok; lia). apply K5; (done || lia).
  - rewrite length_app. cbn [length]. intros n Hn2. rewrite Hino, decide_False by lia. apply K6. lia.
  - intros b Hb. rewrite <- K7 by done. unfold updated. cbn [record tv_blk]. unfold upd_blk. destruct (inode_block (i_inum (new_inode k type)) ltac:(cbn; lia)) as [_ Hib]. by rewrite decide_False by lia.
Qed.

(** ** The program *)

(** The name and the contents of a file of the command line. *)
Definition fname (f : input) : list Z := after_underscore (after_user (in_name f)).
Definition contents (f : input) : list Z := concat (default [] (in_reads f)).

(** The file can be read, its name has no other directory and fits an entry, and it is
    not too large. *)
Record input_ok (f : input) : Prop := {
  ik_open : is_Some (in_reads f);
  ik_bytes : Forall byte_range (contents f);
  ik_name : Forall byte_range (in_name f);
  ik_dir : chr "/" ∉ after_user (in_name f);
  ik_len : (length (fname f) <= DIRSIZ)%nat;
  ik_size : Z.of_nat (length (contents f)) <= Z.of_nat MAXFILE * BSIZE
}.

(** The entries of files from inode [n] on. *)
Fixpoint entries (n : nat) (fs : list input) : list Z :=
  match fs with [] => [] | f :: fs => dirent (Z.of_nat n) (fname f) ++ entries (S n) fs end.

Lemma dirent_ok n name : Forall byte_range name -> Forall byte_range (dirent n name) /\ length (dirent n name) = 16%nat.
Proof.
  intros Hn. unfold dirent. split.
  - rewrite !Forall_app. split_and!; [apply le_split_bytes | by apply Forall_take | by apply Forall_replicate].
  - rewrite !length_app, length_le_split, length_replicate, length_take. unfold DIRSIZ. lia.
Qed.

Lemma fname_bytes f : input_ok f -> Forall byte_range (fname f).
Proof.
  intros Hf. unfold fname. assert (Forall byte_range (after_user (in_name f))) as Hu by (unfold after_user; case_match; [apply Forall_drop|]; apply Hf).
  unfold after_underscore. destruct (after_user (in_name f)); [done|]. case_match; [by inversion Hu | done].
Qed.

Lemma reads_holds reads : forall s v files k type bs, holds s v files -> files !! k = Some (type, bs) -> (length files < 200)%nat ->
  Forall byte_range (concat reads) -> Z.of_nat (length (bs ++ concat reads)) <= Z.of_nat MAXFILE * BSIZE ->
  46 + blocks_of (<[k := (type, bs ++ concat reads)]> files) <= 2000 ->
  exists s' v', for_each (R := unit) reads (fun buf => iappend (Z.of_nat (S k)) buf;; mret None) s = Ret None s' /\
    holds s' v' (<[k := (type, bs ++ concat reads)]> files).
Proof.
  induction reads as [|p reads IH]; intros s v files k type bs Hh Hk Hlen Hb Hmax Hfree.
  - exists s, v. split; [done|]. cbn [concat]. by rewrite app_nil_r, list_insert_id.
  - cbn [concat] in *. rewrite app_assoc in *. apply Forall_app in Hb as [Hb1 Hb2]. pose proof (lookup_lt_Some _ _ _ Hk) as Hlt.
    rewrite (blocks_of_insert _ _ _ bs) in Hfree by done. pose proof (need_mono (Z.of_nat (length (bs ++ p))) (Z.of_nat (length ((bs ++ p) ++ concat reads))) ltac:(rewrite (length_app (bs ++ p)); lia)) as Hn.
    destruct (iappend_holds s v files k type bs p Hh Hk Hlen Hb1) as (s1 & v1 & E1 & Hh1); [rewrite (length_app (bs ++ p)) in Hmax; lia | rewrite (blocks_of_insert _ _ _ bs) by done; lia |].
    destruct (IH s1 v1 _ k type (bs ++ p) Hh1) as (s' & v' & E' & Hh'); [by rewrite list_lookup_insert_eq | by rewrite length_insert | done | done | |].
    { rewrite list_insert_insert_eq, (blocks_of_insert _ _ _ bs) by done. lia. }
    rewrite list_insert_insert_eq in Hh'. exists s', v'. split; [|done]. cbn [for_each]. rewrite bind_assoc, (bind_ret _ _ _ _ _ E1). by erewrite bind_ret by reflexivity.
Qed.

Lemma insert_last {A} (r x y : A) l : <[S (length l) := x]> (r :: l ++ [y]) = r :: l ++ [x].
Proof. cbn. f_equal. induction l as [|z l IH]; [done|]. cbn. by f_equal. Qed.

Lemma main_file_holds s v root files f : holds s v ((T_DIR, root) :: files) -> (length files < 198)%nat -> input_ok f ->
  Z.of_nat (length root) + 16 <= Z.of_nat MAXFILE * BSIZE ->
  let root' := root ++ dirent (Z.of_nat (S (S (length files)))) (fname f) in
  46 + blocks_of ((T_DIR, root') :: files ++ [(T_FILE, contents f)]) <= 2000 ->
  exists s' v', main_file ROOTINO f s = Ret tt s' /\ holds s' v' ((T_DIR, root') :: files ++ [(T_FILE, contents f)]).
Proof.
  intros Hh Hlen Hf Hmax root' Hfree. pose proof Hf as [[reads Er] Hb Hnb Hdir Hlf Hsz]. destruct (dirent_ok (Z.of_nat (S (S (length files)))) (fname f) (fname_bytes f Hf)) as [Hd1 Hd2].
  unfold main_file. assert (existsb (Z.eqb (chr "/")) (after_user (in_name f)) = false) as ->.
  { apply not_true_is_false. intros (x & Hx & Ex)%existsb_exists. apply Z.eqb_eq in Ex. subst x. by apply Hdir, list_elem_of_In. }
  erewrite bind_ret by reflexivity. rewrite Er. fold (fname f). unfold assert. rewrite (proj2 (Nat.leb_le _ _)) by done. erewrite bind_ret by reflexivity.
  destruct (ialloc_holds s v _ T_FILE Hh) as (s1 & v1 & E1 & Hh1); [cbn [length]; lia | by vm_compute |]. rewrite (bind_ret _ _ _ _ _ E1). cbn [length app] in *.
  assert (contents f = concat reads) as Ec by (unfold contents; by rewrite Er). rewrite Ec in *.
  change (46 + (need (Z.of_nat (length root')) + blocks_of (files ++ [(T_FILE, concat reads)])) <= 2000) in Hfree. rewrite blocks_of_app in Hfree.
  change (blocks_of [(T_FILE, concat reads)]) with (need (Z.of_nat (length (concat reads))) + 0) in Hfree. pose proof (need_mono 0 (Z.of_nat (length (concat reads))) ltac:(lia)) as Hn0.
  destruct (iappend_holds s1 v1 _ 0 T_DIR root (dirent (Z.of_nat (S (S (length files)))) (fname f)) Hh1 eq_refl) as (s2 & v2 & E2 & Hh2); try done.
  { cbn [length]. rewrite length_app. cbn [length]. lia. } { rewrite length_app, Hd2. lia. }
  { cbn [insert list_insert]. fold root'. change (46 + (need (Z.of_nat (length root')) + blocks_of (files ++ [(T_FILE, [])])) <= 2000). rewrite blocks_of_app. change (blocks_of [(T_FILE, [])]) with 0. lia. }
  change (Z.of_nat 1) with ROOTINO in E2. rewrite (bind_ret _ _ _ _ _ E2). cbn [insert list_insert] in Hh2. fold root' in Hh2.
  assert (((T_DIR, root') :: files ++ [(T_FILE, [])]) !! S (length files) = Some (T_FILE, [])) as Hlk by (cbn; by apply list_lookup_middle).
  destruct (reads_holds reads s2 v2 _ (S (length files)) T_FILE [] Hh2 Hlk) as (s' & v' & E' & Hh'); try done.
  { cbn [length]. rewrite length_app. cbn [length]. lia. }
  { rewrite (blocks_of_insert _ _ _ []) by done. change (blocks_of ((T_DIR, root') :: files ++ [(T_FILE, [])])) with (need (Z.of_nat (length root')) + blocks_of (files ++ [(T_FILE, [])])). rewrite blocks_of_app.
    change (blocks_of [(T_FILE, [])]) with 0. change (need (Z.of_nat (length []))) with 0. cbn [app]. lia. }
  exists s', v'. split; [rewrite (bind_ret _ _ _ _ _ E'); done|]. by rewrite insert_last in Hh'.
Qed.

Definition regular (fs : list input) : list (Z * list Z) := (fun f => (T_FILE, contents f)) <$> fs.

Lemma files_holds fs : forall s v root files, holds s v ((T_DIR, root) :: files) -> Forall input_ok fs -> (length files + length fs <= 198)%nat ->
  Z.of_nat (length root) + 16 * Z.of_nat (length fs) <= Z.of_nat MAXFILE * BSIZE ->
  46 + blocks_of ((T_DIR, root ++ entries (S (S (length files))) fs) :: files ++ regular fs) <= 2000 ->
  exists s' v', for_each (R := unit) fs (fun f => main_file ROOTINO f;; mret None) s = Ret None s' /\
    holds s' v' ((T_DIR, root ++ entries (S (S (length files))) fs) :: files ++ regular fs).
Proof.
  induction fs as [|f fs IH]; intros s v root files Hh Hok Hlen Hmax Hfree.
  - exists s, v. split; [done|]. cbn [entries]. unfold regular. by rewrite fmap_nil, !app_nil_r.
  - inversion Hok as [|? ? Hf Hfs]; subst. cbn [entries length] in *. rewrite app_assoc in *. set (root' := root ++ dirent _ (fname f)) in *.
    change (regular (f :: fs)) with ([(T_FILE, contents f)] ++ regular fs) in *. rewrite (app_assoc files) in *. set (files' := files ++ [(T_FILE, contents f)]) in *.
    destruct (dirent_ok (Z.of_nat (S (S (length files)))) (fname f) (fname_bytes f Hf)) as [_ Hd]. assert (length root' = length root + 16)%nat as Hl by (unfold root'; by rewrite length_app, Hd).
    assert (length files' = S (length files)) as Hl' by (unfold files'; rewrite length_app; cbn; lia).
    destruct (main_file_holds s v root files f Hh ltac:(lia) Hf ltac:(lia)) as (s1 & v1 & E1 & Hh1).
    { change (46 + (need (Z.of_nat (length (root' ++ entries (S (S (S (length files)))) fs))) + blocks_of (files' ++ regular fs)) <= 2000) in Hfree. rewrite blocks_of_app in Hfree.
      change (46 + (need (Z.of_nat (length root')) + blocks_of files') <= 2000). pose proof (blocks_of_nonneg (regular fs)).
      pose proof (need_mono (Z.of_nat (length root')) (Z.of_nat (length (root' ++ entries (S (S (S (length files)))) fs))) ltac:(rewrite length_app; lia)). lia. }
    fold root' files' in Hh1. destruct (IH s1 v1 root' files' Hh1 Hfs) as (s' & v' & E' & Hh'); rewrite ?Hl'; try lia. rewrite Hl' in Hh'.
    exists s', v'. split; [|done]. cbn [for_each]. rewrite bind_assoc, (bind_ret _ _ _ _ _ E1). by erewrite bind_ret by reflexivity.
Qed.

(** ** The start *)

Lemma wsect_end k s : (k < 2000)%nat -> mk_img s = replicate k zero_block ->
  wsect (Z.of_nat k) zero_block s = Ret tt (setm_img (replicate (S k) zero_block) s).
Proof.
  intros Hk Hs. unfold wsect, modify. rewrite Hs, sect_small, Nat2Z.id, length_replicate, decide_False, Nat.sub_diag by lia. cbn [replicate app].
  change [zero_block] with (replicate 1 zero_block). by rewrite <- replicate_add, Nat.add_1_r.
Qed.

Lemma zero_image k n s : (k + n <= 2000)%nat -> mk_img s = replicate k zero_block ->
  for_each (R := unit) (seq k n) (fun i => wsect (Z.of_nat i) zero_block;; mret None) s = Ret None (setm_img (replicate (k + n) zero_block) s).
Proof.
  revert k s. induction n as [|n IH]; intros k s Hk Hs; cbn [seq for_each].
  - rewrite Nat.add_0_r, <- Hs. by destruct s.
  - rewrite bind_assoc, (bind_ret _ _ _ _ _ (wsect_end k s ltac:(lia) Hs)). erewrite bind_ret by reflexivity.
    etrans; [apply (IH (S k)); [lia | done]|]. by replace (S k + n)%nat with (k + S n)%nat by lia.
Qed.

Lemma get_zero_dinode o inum : get_dinode o zero_block (dinode0 inum) = dinode0 inum.
Proof.
  assert (forall k, get_short zero_block k = 0) as Hs.
  { intros k. unfold get_short, zero_block. rewrite drop_replicate, take_replicate. assert (forall n, le_join (replicate n 0) = 0) as -> by (intros n; induction n as [|n IH]; [done|]; cbn; by rewrite IH). done. }
  unfold get_dinode. rewrite !Hs, get_uint_zero. unfold seti_addrs, seti_size, seti_nlink, seti_minor, seti_major, seti_type. cbn [i_dev i_inum i_ref i_lock i_valid i_type i_major i_minor i_nlink i_size dinode0].
  unfold dinode0. f_equal. cbn [seq fmap list_fmap NDIRECT]. rewrite !get_uint_zero. done.
Qed.

Definition blank_image : list block := <[1%nat := sb_bytes]> (replicate 2000 zero_block).
Definition blank_state : mkstate := MkState blank_image mkfs_sb 1 46.

Lemma blank_blk b : blk_of blank_image b = if decide (b = 1) then sb_bytes else zero_block.
Proof.
  unfold blank_image. change 1%nat with (Z.to_nat 1) at 1. rewrite blk_of_insert by (rewrite length_replicate; lia). case_decide; [done|].
  unfold blk_of. case_decide; [done|]. destruct (replicate 2000 zero_block !! Z.to_nat b) as [x|] eqn:E; [|done]. by apply lookup_replicate in E as [-> _].
Qed.

Lemma blank_holds : exists v, holds blank_state v [].
Proof.
  exists (TView (fun b => if decide (b = 45) then bitmap 46 else blk_of blank_image b) [] ∅ 0 29).
  assert (forall b, b <> 1 -> b <> 45 -> (if decide (b = 45) then bitmap 46 else blk_of blank_image b) = zero_block) as Hz.
  { intros b H1 H45. by rewrite decide_False, blank_blk, decide_False. }
  split; try done.
  - assert (length blank_image = 2000%nat) as Hl by (unfold blank_image; by rewrite length_insert, length_replicate).
    split; [done | exact Hl | cbn; lia | done | intros b Hb; apply Hz; cbn in Hb; lia |].
    intros b. cbn [tv_blk]. rewrite blank_blk. repeat case_decide; [apply bitmap_ok | apply block_okb_ok; vm_compute; reflexivity | apply zero_block_ok].
  - intros k k' Hk. simpl in Hk. lia.
  - intros n Hn. unfold ino, disk_inode. cbn [tv_blk]. destruct (inode_block (Z.of_nat n) ltac:(lia)) as [_ Hb]. rewrite Hz by lia. apply get_zero_dinode.
  - intros b Hb. cbn [tv_blk]. rewrite decide_False by lia. apply blank_blk.
Qed.

(** ** The finished image *)

Definition root_bytes (fs : list input) : list Z := dirent ROOTINO (bytes ".") ++ dirent ROOTINO (bytes "..") ++ entries 2 fs.

(** The directory's size is rounded up to whole blocks, one more when it is whole. *)
Definition root_size (fs : list input) : Z := (Z.of_nat (length (root_bytes fs)) / BSIZE + 1) * BSIZE.

Definition image_blocks (fs : list input) : Z := 46 + blocks_of ((T_DIR, root_bytes fs) :: regular fs).

Record volume (v : tview) (fs : list input) : Prop := {
  vo_boot : tv_blk v 0 = zero_block;
  vo_sb : superblock_of (tv_blk v 1) = mkfs_sb;
  vo_log : forall b, 2 <= b < 32 -> tv_blk v b = zero_block;
  vo_blk : blk_ok v;
  vo_used : forall c, 0 <= c < 2000 -> in_use_blk mkfs_sb v c <-> c < image_blocks fs;
  vo_root : i_type (ino v 1) = T_DIR /\ i_nlink (ino v 1) = 1 /\ i_size (ino v 1) = root_size fs /\ ino_ok mkfs_sb v (i_addrs (ino v 1)) /\
    sized v (i_addrs (ino v 1)) (Z.of_nat (length (root_bytes fs))) /\
    forall p, 0 <= p < Z.of_nat MAXFILE * BSIZE -> byte_of v (ino v 1) p = default 0 (root_bytes fs !! Z.to_nat p);
  vo_dir : Z.of_nat (length (root_bytes fs)) mod BSIZE <> 0 -> file_ok mkfs_sb v (ino v 1);
  vo_file : forall k f, fs !! k = Some f -> file_at v (ino v (S (S k))) T_FILE (contents f);
  vo_apart : forall k k', (k <= length fs)%nat -> (k' <= length fs)%nat -> k <> k' -> apart v (ino v (S k)) (ino v (S k'));
  vo_none : forall n, (S (length fs) < n < 200)%nat -> i_type (ino v n) = 0
}.

(** Only the blocks matter. *)
Section Same.
Context (v v' : tview) (Hsame : forall b, tv_blk v' b = tv_blk v b).

Lemma same_own a o : own v' a o = own v a o.
Proof. destruct o; [|done]. cbn. unfold blkno. by rewrite Hsame. Qed.
Lemma same_ino k : ino v' k = ino v k.
Proof. unfold ino, disk_inode. by rewrite Hsame. Qed.
Lemma same_use sb c : in_use_blk sb v' c <-> in_use_blk sb v c.
Proof. unfold in_use_blk. by rewrite Hsame. Qed.
Lemma same_byte i p : byte_of v' i p = byte_of v i p.
Proof. unfold byte_of, fbyte. rewrite (same_own (i_addrs i) (Some (Z.to_nat (p / BSIZE))) : blkno _ _ _ = blkno _ _ _). by rewrite Hsame. Qed.
Lemma same_ok sb a : ino_ok sb v a -> ino_ok sb v' a.
Proof. intros [K1 K2 K3]. split; [done | |]; intros o; [rewrite same_own, same_use; apply K2 | intros o'; rewrite !same_own; apply K3]. Qed.
Lemma same_file sb i : file_ok sb v i -> file_ok sb v' i.
Proof.
  intros [K1 K2 K3 K4 K5 K6]. split; try done; [by apply same_ok|]. intros bn Hbn. rewrite (same_own (i_addrs i) (Some bn) : blkno _ _ _ = blkno _ _ _). by apply K6.
Qed.
Lemma same_at i type bs : file_at v i type bs -> file_at v' i type bs.
Proof.
  intros [K1 K2 K3 K4 K5 K6]. split; try done; [by apply same_file | intros p; rewrite same_byte; apply K5 | intros o; rewrite same_own; apply K6].
Qed.

Lemma same_volume fs : volume v fs -> volume v' fs.
Proof.
  intros [K1 K2 K3 K4 K5 (R1 & R2 & R3 & R4 & R6 & R5) K6 K7 K8 K9]. split; rewrite ?Hsame, ?same_ino; try done.
  - intros b. rewrite Hsame. apply K3.
  - intros b. rewrite Hsame. apply K4.
  - intros c. rewrite same_use. apply K5.
  - split_and!; try done; [by apply same_ok | intros o; rewrite same_own; apply R6 |]. intros p. rewrite same_byte. apply R5.
  - intros Hm. by apply same_file, K6.
  - intros k f Hk. rewrite same_ino. by apply same_at, K7.
  - intros k k' Hk Hk' Hne o o'. rewrite !same_own, !same_ino. by apply K8.
  - intros n. rewrite same_ino. apply K9.
Qed.
End Same.

(** The view that has the bitmap, when the root directory has got its final size. *)
Lemma holds_volume s v fs : holds s v ((T_DIR, root_bytes fs) :: regular fs) -> (length fs <= 198)%nat -> root_size fs <= Z.of_nat MAXFILE * BSIZE ->
  let i := seti_size (root_size fs) (ino v 1) in volume (updated mkfs_sb i v) fs.
Proof.
  intros [K1 K2 K3 K4 K5 K6 K7] Hlen Hmax i. cbn [length] in *. assert (length (regular fs) = length fs) as Hl by (unfold regular; apply length_fmap). rewrite Hl in *.
  pose proof (K4 0%nat _ _ eq_refl) as [J1 J2 J3 J4 J5 J6]. pose proof (rp_ok _ _ K1) as Hv. pose proof (fo_range _ _ _ J1) as [R1 R2 R3 R4 R5 R6 R7].
  assert (0 <= root_size fs < 2 ^ 32) as Hrs by (change (Z.of_nat MAXFILE * BSIZE) with 274432 in Hmax; unfold root_size, BSIZE in *; Z.to_euclidean_division_equations; lia).
  assert (ino_range i) as Hir by (by split). pose proof (fun n => updated_ino v i 1 n Hv Hir eq_refl) as Hino.
  assert (forall j ty bs, file_at v j ty bs -> file_at (updated mkfs_sb i v) j ty bs) as Hup by (intros; apply updated_at; try done; cbn; lia).
  assert (forall b, 0 <= b < 32 -> tv_blk (updated mkfs_sb i v) b = tv_blk v b) as Hlow.
  { intros b Hb. unfold updated. cbn [record tv_blk]. unfold upd_blk. destruct (inode_block (i_inum i) ltac:(cbn; lia)) as [_ Hib]. by rewrite decide_False by lia. }
  assert (forall o a, ino_ok mkfs_sb v a -> own (updated mkfs_sb i v) a o = own v a o) as Hown by (intros; apply updated_own; [cbn; lia | done]).
  destruct (Hup _ _ _ (K4 0%nat _ _ eq_refl)) as [L1 L2 L3 L4 L5 L6].
  assert (forall k, (k <= length fs)%nat -> ino_ok mkfs_sb v (i_addrs (ino v (S k)))) as Hok.
  { intros k Hk. destruct (lookup_lt_is_Some_2 ((T_DIR, root_bytes fs) :: regular fs) k) as [[ty bs] Ek]; [cbn; lia|]. apply (K4 _ _ _ Ek). }
  split.
  - rewrite Hlow, K7 by lia. done.
  - rewrite Hlow, K7 by lia. vm_compute. reflexivity.
  - intros b Hb. rewrite Hlow, K7, decide_False by lia. done.
  - apply updated_blk_ok; try done; cbn; lia.
  - intros c Hc. unfold updated. rewrite (use_meta mkfs_sb) by (destruct (inode_block (i_inum i) ltac:(cbn; lia)); change (sb_bmapstart mkfs_sb) with 45; lia). rewrite (rep_use s v c K1), K3 by (unfold BPB, BSIZE; lia). done.
  - rewrite Hino, decide_True by done. split_and!; try done; [apply L1|]. rewrite <- L4. exact L6.
  - rewrite Hino, decide_True by done. intros Hmod. destruct L1 as [M1 M2 M3 M4 M5 M6]. split; try done. intros bn Hbn Hlt. cbn in Hlt. apply M6; [done|]. rewrite J4. unfold root_size, BSIZE in *. Z.to_euclidean_division_equations. lia.
  - intros k f Hk. rewrite Hino, decide_False by lia. apply Hup, (K4 (S k)). change (regular fs !! k = Some (T_FILE, contents f)). unfold regular. by rewrite list_lookup_fmap, Hk.
  - intros k k' Hk Hk' Hne. assert (forall m, (m <= length fs)%nat -> i_addrs (ino (updated mkfs_sb i v) (S m)) = i_addrs (ino v (S m))) as Ha by (intros m Hm; rewrite Hino; by case_decide as E; [injection E as ->|]).
    intros o o' Hs Hs'. rewrite !Ha, !Hown by auto. apply K5; (done || lia).
  - intros n Hn. rewrite Hino, decide_False, K6 by lia. done.
Qed.

Lemma root_length fs : Forall input_ok fs -> forall n, length (entries n fs) = (16 * length fs)%nat.
Proof.
  induction fs as [|f fs IH]; intros Hok n; [done|]. inversion Hok as [|? ? Hf Hfs]; subst. cbn [entries length]. rewrite length_app, IH by done.
  destruct (dirent_ok (Z.of_nat n) (fname f) (fname_bytes f Hf)) as [_ ->]. lia.
Qed.

(** The end of the program: the size of the directory and the bitmap. *)
Lemma main_end s v fs : holds s v ((T_DIR, root_bytes fs) :: regular fs) -> (length fs <= 198)%nat -> root_size fs <= Z.of_nat MAXFILE * BSIZE ->
  exists s', (din ← rinode ROOTINO;
    let off := xint (i_size din) in
    let off := u32 ((off / BSIZE + 1) * BSIZE) in
    winode ROOTINO (seti_size (xint off) din);;
    used ← gets mk_freeblock;
    balloc used) s = Ret tt s' /\ length (mk_img s') = 2000%nat /\
    forall v', (forall b, tv_blk v' b = blk_of (mk_img s') b) -> volume v' fs.
Proof.
  intros Hh Hlen Hmax. pose proof Hh as [K1 K2 K3 K4 K5 K6 K7]. pose proof (K4 0%nat _ _ eq_refl) as Hf.
  rewrite (bind_ret _ _ _ _ _ (rinode_rep s v 1 K1 ltac:(lia))). cbv zeta. change (disk_inode mkfs_sb v 1 (dinode0 1)) with (ino v 1).
  assert (0 <= root_size fs < 2 ^ 32) as Hrs by (change (Z.of_nat MAXFILE * BSIZE) with 274432 in Hmax; unfold root_size, BSIZE in *; Z.to_euclidean_division_equations; lia).
  assert (xint (i_size (ino v 1)) = Z.of_nat (length (root_bytes fs))) as -> by (rewrite (fa_size _ _ _ _ Hf); apply u32_split; rewrite <- (fa_size _ _ _ _ Hf); apply Hf).
  fold (root_size fs). rewrite u32_small by done. assert (xint (root_size fs) = root_size fs) as -> by (by apply u32_split).
  set (i := seti_size (root_size fs) (ino v 1)). destruct (winode_rep s v 1 i K1) as (s1 & E1 & Hr1 & _ & Hf1); [lia | done | apply Hf |].
  change 1 with ROOTINO in E1 at 1. rewrite (bind_ret _ _ _ _ _ E1). erewrite bind_ret by reflexivity. pose proof (holds_volume s v fs Hh Hlen Hmax) as Hvol. fold i in Hvol.
  destruct Hr1 as [R1 R2 R3 R4 R5 R6]. exists (put_block 45 (bitmap (Z.to_nat (mk_freeblock s1))) s1). split_and!.
  - unfold balloc, assert. rewrite (proj2 (Z.ltb_lt _ _)) by (unfold BPB, BSIZE; lia). erewrite bind_ret by reflexivity. erewrite bind_ret by reflexivity. rewrite R1.
    unfold wsect, modify. rewrite sect_small by (simpl; lia). rewrite decide_True by (rewrite R2; simpl; lia). done.
  - cbn. by rewrite length_insert.
  - intros v' Hv'. eapply same_volume; [|exact Hvol]. intros b. rewrite Hv'. unfold put_block. cbn [setm_img mk_img].
    rewrite blk_of_insert by lia. symmetry. apply R4.
Qed.

Lemma main_ok fs : Forall input_ok fs -> (length fs <= 198)%nat -> image_blocks fs <= 2000 ->
  exists s, main (Some true) fs mk_bss = Ret tt s /\ length (mk_img s) = 2000%nat /\
    forall v, (forall b, tv_blk v b = blk_of (mk_img s) b) -> volume v fs.
Proof.
  intros Hok Hlen Hfree. pose proof (root_length fs Hok 2) as Hrl. unfold main. do 5 erewrite bind_ret by reflexivity.
  erewrite bind_ret by (apply (zero_image 0 2000); [lia | done]). erewrite bind_ret by reflexivity.
  match goal with |- context [ (wsect 1 ?x ≫= _) ?s ] => assert (wsect 1 x s = Ret tt blank_state) as Ew by reflexivity; rewrite (bind_ret _ _ _ _ _ Ew); clear Ew end.
  destruct blank_holds as [v0 Hh0]. destruct (ialloc_holds blank_state v0 [] T_DIR Hh0) as (s1 & v1 & E1 & Hh1); [cbn; lia | by vm_compute |].
  rewrite (bind_ret _ _ _ _ _ E1). erewrite bind_ret by reflexivity. cbn [app length] in Hh1.
  destruct (dirent_ok ROOTINO (bytes ".") ltac:(repeat constructor; by vm_compute)) as [D1 D2]. destruct (dirent_ok ROOTINO (bytes "..") ltac:(repeat constructor; by vm_compute)) as [D3 D4].
  destruct (iappend_holds s1 v1 _ 0 T_DIR [] (dirent ROOTINO (bytes ".")) Hh1 eq_refl) as (s2 & v2 & E2 & Hh2); [cbn; lia | done | by vm_compute | by vm_compute |].
  change (Z.of_nat 1) with ROOTINO in E2. change (Z.of_nat 1) with ROOTINO. rewrite (bind_ret _ _ _ _ _ E2).
  destruct (iappend_holds s2 v2 _ 0 T_DIR (dirent ROOTINO (bytes ".")) (dirent ROOTINO (bytes "..")) Hh2 eq_refl) as (s3 & v3 & E3 & Hh3); [cbn; lia | done | by vm_compute | by vm_compute |].
  change (Z.of_nat 1) with ROOTINO in E3. rewrite (bind_ret _ _ _ _ _ E3).
  destruct (files_holds fs s3 v3 (dirent ROOTINO (bytes ".") ++ dirent ROOTINO (bytes "..")) [] Hh3 Hok) as (s4 & v4 & E4 & Hh4); [cbn [length]; lia | | |].
  { rewrite length_app, D2, D4. change (Z.of_nat MAXFILE * BSIZE) with 274432. lia. } { rewrite <- app_assoc. exact Hfree. }
  rewrite (bind_ret _ _ _ _ _ E4). rewrite <- app_assoc in Hh4. apply (main_end s4 v4); [exact Hh4 | done |].
  unfold root_size, root_bytes. rewrite !length_app, D2, D4, Hrl. change (Z.of_nat MAXFILE * BSIZE) with 274432. unfold BSIZE. Z.to_euclidean_division_equations. lia.
Qed.

(** ** Mounting the image *)

Definition disk_of (img : list block) : blocks := map_seqZ 0 img.

Lemma dread_disk img b : dread (disk_of img) b = blk_of img b.
Proof.
  unfold dread, disk_of, blk_of. destruct (decide (b < 0)) as [Hb|Hb].
  - by rewrite (proj2 (lookup_map_seqZ_None _ _ _)) by (by left).
  - rewrite lookup_map_seqZ, option_guard_True by lia. by rewrite Z.sub_0_r.
Qed.

(** An empty log: recovery writes the header back as it was. *)
Lemma recover_blank d b : dread d 2 = zero_block -> dread (apply_writes (recover_writes 2 d) d) b = dread d b.
Proof.
  intros Hz. unfold recover_writes, redo, targets. rewrite Hz. change (Z.to_nat (hb_n zero_block)) with 0%nat. cbn [seq fmap list_fmap copies imap app apply_writes foldl fst snd].
  unfold new_header. rewrite Hz, dread_insert. case_decide as E; [|done]. rewrite <- E, Hz. vm_compute. reflexivity.
Qed.

Lemma image_mounts img : blk_of img 2 = zero_block ->
  exists t v, mount mkfs_sb (disk_of img) = Ret tt t /\ txn_rep t v /\ tv_held v = ∅ /\ tv_log v = [] /\ forall b, tv_blk v b = blk_of img b.
Proof.
  intros Hz. assert (dread (disk_of img) 2 = zero_block) as Hd by (by rewrite dread_disk).
  assert (wf_log 2 29 (disk_of img)) as Hwf.
  { split_and!; rewrite ?Hd; [done | by vm_compute | by vm_compute |]. intros b. unfold targets. rewrite Hd. intros Hb. inversion Hb. }
  destruct (mount_inv mkfs_sb mkfs_start ltac:(by vm_compute) (disk_of img) Hwf) as (t & g & Em & _ & Hi).
  eexists t, _. split_and!; [exact Em | exact (log_inv_rep 2 29 _ _ _ _ Hi) | done | done |].
  intros b. cbn [tv_blk]. unfold content. cbn [cv_refs cv_disk]. rewrite lookup_empty, recover_blank by done. apply dread_disk.
Qed.

Lemma loaded_file v a j : file_ok mkfs_sb v a -> i_dev j = ROOTDEV -> i_inum j = i_inum a -> file_ok mkfs_sb v (loaded a j).
Proof. intros [F1 F2 [] F4 F5 F6] Hd Hn. split; [exact Hd | cbn [loaded i_inum]; by rewrite Hn | by split | exact F4 | exact F5 | exact F6]. Qed.

Lemma loaded_size a j : i_size (loaded a j) = i_size a.
Proof. done. Qed.
Lemma loaded_byte v a j p : byte_of v (loaded a j) p = byte_of v a p.
Proof. done. Qed.

Lemma volume_vol {T} `{TxnLaws T} t v fs : volume v fs -> txn_rep t v -> tv_held v = ∅ -> vol mkfs_sb t v.
Proof.
  intros Hvol Hr Hh. split; [exact Hr | exact Hh | apply Hvol |]. intros b Hb. simpl in Hb. apply (vo_used _ _ Hvol); [lia|].
  unfold image_blocks. pose proof (blocks_of_nonneg ((T_DIR, root_bytes fs) :: regular fs)). lia.
Qed.

(** A file of the volume, read from the start through an inode in memory that is a copy of
    the one on disk. *)
Lemma volume_read {T} `{TxnLaws T} (Hg : geom mkfs_sb) t v fs k f lk buf_addr il ip j kp user dst loc : volume v fs -> txn_rep t v -> tv_held v = ∅ -> tv_log v = [] -> fs !! k = Some f ->
  il !! ip = Some (loaded (ino v (S (S k))) j) -> i_dev j = ROOTDEV -> i_inum j = Z.of_nat (S (S k)) ->
  let n := Z.of_nat (length (contents f)) in
  takes buf_addr user kp dst n loc -> 0 <= dst < 2 ^ 64 ->
  exists t' kp', readi buf_addr ip user dst 0 n (FSys t mkfs_sb lk il kp) = Ret n (FSys t' mkfs_sb lk il kp') /\
    forall p, 0 <= p < n -> rd (mem_of kp') (loc p) = contents f !!! Z.to_nat p.
Proof.
  intros Hvol Hr Hh Hlog Hk Hil Hdev Hnum n Htk Hdst. pose proof (vo_file _ _ Hvol k f Hk) as [J1 _ _ J4 J5 _].
  rewrite <- (ino_inum v) in Hnum. set (a := ino v (S (S k))) in *. clearbody a. pose proof (loaded_file v a j J1 Hdev Hnum) as Hf.
  pose proof (fo_size _ _ _ J1) as Hsz. rewrite J4 in Hsz. fold n in Hsz, J4. assert (Z.of_nat MAXFILE * BSIZE = 274432) as Emax by reflexivity.
  pose proof (loaded_size a j) as Es. rewrite J4 in Es. pose proof (loaded_byte v a j) as Eb.
  pose proof (volume_vol t v fs Hvol Hr Hh) as Hv.
  destruct (readi_ok mkfs_sb Hg lk buf_addr t v il ip (loaded a j) kp user dst n loc 0 Hv ltac:(rewrite Hlog; cbn; unfold NBUF; lia) Hil Hf Htk Hdst ltac:(lia) ltac:(lia) ltac:(lia)) as (t' & kp' & E & _ & [_ Hb _]).
  rewrite Es, Z.sub_0_r, Z.min_id in E, Hb. exists t', kp'. split; [exact E|].
  intros p Hp. rewrite Hb by done. rewrite Z.add_0_l, Eb, J5 by lia.
  destruct (lookup_lt_is_Some_2 (contents f) (Z.to_nat p)) as [c Hc]; [lia|]. rewrite Hc. symmetry. by apply list_lookup_total_correct.
Qed.

(** A directory that fills its last block gets a size that covers a block it does not
    have. *)
Lemma root_hole v fs : volume v fs -> Z.of_nat (length (root_bytes fs)) mod BSIZE = 0 -> root_size fs <= Z.of_nat MAXFILE * BSIZE ->
  exists bn, (bn < MAXFILE)%nat /\ Z.of_nat bn * BSIZE < i_size (ino v 1) /\ blkno v (i_addrs (ino v 1)) bn = 0.
Proof.
  intros Hv Hm Hmax. destruct (vo_root _ _ Hv) as (_ & _ & Es & _ & Hex & _). rewrite Es. set (n := Z.of_nat (length (root_bytes fs))) in *.
  exists (Z.to_nat (n / BSIZE)). unfold root_size in *. fold n in Hmax |- *. unfold BSIZE in *.
  assert (Z.to_nat (n / 1024) < MAXFILE)%nat as Hbn by (Z.to_euclidean_division_equations; lia).
  split_and!; [done | Z.to_euclidean_division_equations; lia |]. destruct (decide (blkno v (i_addrs (ino v 1)) (Z.to_nat (n / 1024)) = 0)) as [|Hne]; [done|].
  apply (Hex (Some (Z.to_nat (n / 1024))) Hbn) in Hne. cbn [start_of] in Hne. unfold BSIZE in Hne. Z.to_euclidean_division_equations. lia.
Qed.

(** C8: the image [mkfs] makes is the file system the kernel finds.  For up to 198 files that
    can be read, have names that fit and fit the disk together, [mkfs] succeeds, without
    running out of blocks or failing an assertion.  The kernel mounts the image, and then
    has a [volume] with these files: the super block is the one the kernel is compiled for,
    the log is empty, the bitmap has exactly the blocks in use, the root directory has an
    entry for each file, the inodes of the files have their sizes, no block is in two files
    and the remaining inodes are free.  [readi] of a file returns its whole contents. *)
Theorem mkfs_mounts fs : Forall input_ok fs -> (length fs <= 198)%nat -> image_blocks fs <= FSSIZE ->
  exists s t v, main (Some true) fs mk_bss = Ret tt s /\ length (mk_img s) = Z.to_nat FSSIZE /\
    mount mkfs_sb (disk_of (mk_img s)) = Ret tt t /\ vol mkfs_sb t v /\ volume v fs /\
    forall k f lk buf_addr il ip j kp user dst loc, fs !! k = Some f ->
      il !! ip = Some (loaded (ino v (S (S k))) j) -> i_dev j = ROOTDEV -> i_inum j = Z.of_nat (S (S k)) ->
      let n := Z.of_nat (length (contents f)) in
      takes buf_addr user kp dst n loc -> 0 <= dst < 2 ^ 64 ->
      exists t' kp', readi buf_addr ip user dst 0 n (FSys t mkfs_sb lk il kp) = Ret n (FSys t' mkfs_sb lk il kp') /\
        forall p, 0 <= p < n -> rd (mem_of kp') (loc p) = contents f !!! Z.to_nat p.
Proof.
  intros Hok Hlen Hfree. destruct (main_ok fs Hok Hlen Hfree) as (s & Em & Hl & Hv).
  pose proof (Hv (TView (blk_of (mk_img s)) [] ∅ 0 29) (fun b => eq_refl)) as Hv0.
  destruct (image_mounts (mk_img s)) as (t & v & Et & Hr & Hh & Hlog & Hb); [exact (vo_log _ _ Hv0 2 ltac:(lia))|]. specialize (Hv v Hb).
  exists s, t, v. split_and!; [exact Em | exact Hl | exact Et | by eapply volume_vol | exact Hv |].
  intros k f lk buf_addr il ip j kp user dst loc Hk Hil Hd Hn n Htk Hdst. by apply (volume_read mkfs_geom t v fs k f lk buf_addr il ip j).
Qed.

(** A program and an empty file. *)
Definition mk_files : list input := [Input (bytes "user/_cat") (Some [[127; 69]; [76]]); Input (bytes "README") (Some [])].

Lemma mk_files_ok : Forall input_ok mk_files.
Proof.
  repeat constructor; try (by eexists); try (vm_compute; congruence); try (vm_compute; lia);
    try (intros Hin; vm_compute in Hin; repeat (apply elem_of_cons in Hin as [Hin|Hin]; [discriminate|]); inversion Hin).
Qed.

Lemma mkfs_mounts_witness : exists s t v, main (Some true) mk_files mk_bss = Ret tt s /\ mount mkfs_sb (disk_of (mk_img s)) = Ret tt t /\ volume v mk_files.
Proof.
  destruct (mkfs_mounts mk_files mk_files_ok ltac:(simpl; lia) ltac:(vm_compute; congruence)) as (s & t & v & Em & _ & Et & _ & Hv & _).
  exists s, t, v. exact (conj Em (conj Et Hv)).
Defined.
